(* ===== verification/_CoqProject ===== *)
-Q . S2P
Prelude.v
UserMem.v
CharBuf.v
Tty.v
TtyProps.v
Palloc.v
Bootmem.v
PageAlloc.v
Slab.v
SlabProps.v
Kmalloc.v
Bits.v
VtScroll.v
VtState.v
IpRoute.v
Tcp.v
TcpWire.v
TcpStream.v
TcpState.v
Pipe.v
Users.v
Dlist.v
Task.v
TaskTree.v
TaskProps.v
TaskLife.v
Semaphore.v
WaitQueue.v
Workqueue.v
Signal.v
SignalKill.v
PageTable.v
PageCopy.v
Vm.v
VmProps.v
Endian.v
Ext2.v
Ext2Alloc.v
Ext2Map.v
Ext2Demo.v
Ext2Bmap.v
Ext2Trunc.v
Ext2Free.v
Ext2Remove.v
Vfs.v
Ext2File.v
FileSeq.v
Ext2Inode.v
Ext2Ialloc.v
Ext2Delete.v
Dirent.v
Ext2Dir.v
DirMap.v
DirList.v
Bcache.v
BcacheProps.v
BcacheRuns.v
