(* ===== verification/Prelude.v ===== *)
(** * protura

    A verification library for the protura kernel, a Unix-like operating system
    for x86 written in C.

    The kernel, from the bottom: physical pages come from a buddy allocator, which
    the boot code feeds with the memory map; slabs cut pages into objects and
    [kmalloc] serves the rest of the kernel from them.  Tasks are scheduled
    round robin; semaphores, wait queues and work queues put them to sleep and
    wake them; signals interrupt them.  Each task has an address space, maps
    filled by page faults and copied by a fork.  System calls reach the kernel
    with pointers that are checked on every access.  Files are served by ext2,
    whose blocks come from the block cache, which reads and writes disks through
    their drivers.  Pipes, the virtual terminal and TCP sockets are the other
    things a descriptor can lead to.

    ** The model

    C functions are Rocq functions of the same name.  State that they change is
    an argument and a result.  [outcome] is the result of code that can stop the
    kernel: [Done], [Panic] (an assertion of the source), or [Fault] (an access the
    C code has no right to make: out of an array, through a null pointer, to freed
    memory).  Machine integers are [Z]; [u32], [i32] and the like wrap around where
    the source computes at that width.  Error codes are the negative integers of
    the source.  Arrays are lists with [arr_get] and [arr_set], that fault outside
    of them; a [list_head_t] is the list of its entries, which Dlist.v justifies on
    the linked cells.  Memory that the code follows pointers through is a finite
    map ([Slab], [PageTable], [UserMem], [Dlist]).

    Loops over the state that are not structural carry fuel.  It is bounded by
    the data in the definition itself: the orders of the buddy allocator, the
    entries of a table, the bytes that are left to copy.  The theorems show that
    it is enough: out of fuel is a [Fault], a [Panic] or a result of its own, and they
    prove that it does not happen.

    Code under a spinlock is one step, because spinlocks disable interrupts and
    the kernel runs on one processor.  Where the source gives a lock up in the
    middle (to sleep, to allocate), the model cuts there: [Semaphore], [WaitQueue],
    [Workqueue], [Bcache] and [Pipe] have a step for every piece between two such
    points, and their theorems are about every interleaving.  A task that would
    sleep is one whose step is not enabled.

    ** The files

    - Prelude: outcomes, integers, arrays, alignment, and the tactics on them.
    - UserMem: checked user memory access (src/mm/user_check.c and the x86 header).
    - CharBuf: ring buffer of bytes (src/kernel/char_buf.c).
    - Tty, TtyProps: terminals and their line discipline (src/drivers/char/tty.c,
      tty_termios.c).
    - Palloc, PageAlloc: the buddy allocator (src/mm/palloc.c), and the interface
      that the other allocators are proved against.  Bootmem: the early memory
      map (src/mm/bootmem.c).
    - Slab, SlabProps, Kmalloc: src/mm/slab.c and src/mm/kmalloc.c.
    - Bits: bit strings (bitops.h).
    - VtScroll, VtState: the virtual terminal (src/drivers/char/vt_scroll.c,
      vt_state_machine.c).
    - IpRoute, Tcp, TcpWire, TcpStream, TcpState: src/net/ipv4.
    - Pipe: src/fs/pipe.c.
    - Users: src/kernel/sys_user.c and src/fs/access.c.
    - Dlist: include/uapi/protura/list.h.
    - Task, TaskTree, TaskProps, TaskLife: tasks, src/kernel/sched/task*.c and
      scheduler.c, and the process tree that they implement.
    - Semaphore, WaitQueue, Workqueue: src/kernel/sched.
    - Signal, SignalKill: signals, src/kernel/sched/signal.c and its x86 part.
    - PageTable, PageCopy, Vm, VmProps: src/mm/ptable.c, vm.c, sbrk.c, mmap.c.
    - Endian, Ext2, Ext2Alloc, Ext2Map, Ext2Bmap: block allocation and the block
      map of ext2 (src/fs/ext2/bmap.c).  Ext2Trunc, Ext2Free, Ext2Remove:
      truncation (truncate.c).  Ext2Demo: a small file system to evaluate on.
    - Vfs, Ext2File, FileSeq: attributes, and reading and writing files
      (src/fs/vfs.c, src/fs/file.c).
    - Ext2Inode, Ext2Ialloc, Ext2Delete: inodes on disk, their numbers, and their
      deletion (src/fs/ext2/super.c, ialloc.c).
    - Dirent, Ext2Dir, DirMap, DirList: the entries of a block of a directory,
      directories made of such blocks, and the calls on them
      (src/fs/ext2/namei.c, dir.c).
    - Bcache, BcacheProps, BcacheRuns: the block cache (src/block/bcache.c).

    ** What is shown

    Memory.  The buddy allocator hands out blocks that are free, aligned, and
    disjoint from all others, and frees merge buddies; its invariant ties lists,
    counters and flags together.  The boot code gives it exactly the memory of
    the map without the kernel image.  Slabs refine a set of disjoint objects,
    over the interface [PageAllocator] that the buddy allocator implements, and hand
    the pages of a frame back when its last object is freed.  A page fault gives
    a task a page of its own when the memory for it can be had, and a fork copies
    the pages of every map that is writable or not of a file, when each map lies
    within one page table and memory does not run out.

    Files.  [Ext2Alloc] shows that the bitmaps are a set of free blocks.  [Ext2Map]
    turns the block map into a tree of slots; [ext2_bmap_alloc] fills one slot and
    changes nothing else, and truncation empties slots and releases exactly the
    blocks in them.  A new block is filled with zeros in the cache and not marked
    dirty: [filled] is the set of such blocks, which are lost if the cache drops them
    before they are written.  [FileSeq] composes these: a sequence of the calls that
    its [allowed] lists behaves as on a plain sequence of bytes, provided that the
    cache drops no filled block; cuts of a file within a block or beyond the single
    indirect block, which the code gets wrong, are not among the calls.  [DirMap]
    does the same for directories: a sequence of the lookups, links, unlinks and
    renames that its [allowed] lists behaves as on a finite map from names to inode
    numbers; it leaves out the removal of the first entry of a block and a rename
    onto a name that exists, which the code gets wrong.  [DirList] shows that reading
    a directory lists every entry once.  An inode number is handed out once, an inode
    whose fields fit its entry is read back as it was written, and deleting an inode
    gives back exactly its number and the blocks that its map reaches.  The block
    cache is shown to present a map from sectors to blocks to tasks that read blocks
    and mark those they change dirty, under every interleaving of such tasks, drivers
    and evictions, and a sync to be a barrier for them; runs in which a block is
    filled without being read or marked dirty, and in which a sync reaches a block
    that another task has cleaned meanwhile, are left out, since they break it.

    Tasks.  Fork, exit, wait and reparenting keep the process tree; pids are
    distinct until their 32-bit counter wraps around; the status of a child reaches
    its parent; the scheduler runs every task that can run.  Semaphores exclude and
    lose no wake-up.  A wait queue loses none if the condition stays true and the
    queue is not woken too early; a work queue loses no work, but a work may have
    to wait for a callback that sleeps.  SIGKILL ends a task, once no signal with a
    smaller number is to be handled before it.

    Network.  Whatever the network does to the segments of a stream, the receive
    queue holds a prefix of it, and all of it once every segment has come.
    Headers survive the round trip through the wire format.  Routing is by the
    longest prefix.

    Devices and users.  A reader of a terminal gets the lines as they were edited,
    under every arrival of characters, and is not left waiting.  What is written to
    the virtual terminal stays inside the screen, except for the tabs, scrolling
    regions and malformed sequences that the theorem names.  Pipes are first in,
    first out.  No
    sequence of the identity calls gains a user id the caller had no right to.

    Some properties are of the form that the code does not keep a promise: a
    reader that misses the end of file, a wake-up that is lost, a truncation that
    exposes old bytes, a sync that frees a block in use, a name that is found after
    it was removed, a new block whose zeros are lost.  They are concrete runs of the
    model.

    ** Assumptions and limits

    Allocations of kernel objects that the source does not check are taken to
    succeed ([palloc_va] for the temporary pages of a truncation, [block_new],
    descriptors of tasks).  The block device of ext2 is the map that the block cache
    presents, with the set of the blocks that are only in the cache; the locks of the super block, the inode and the blocks make each of
    its operations atomic.  The theorems on files need a well-formed file system
    ([fs_ok], [file_ok]), which the operations keep.

    ** Not modelled

    Assembly, interrupt descriptors, the context switch and the dispatch of system
    calls; port I/O and DMA of the disk, network, serial and video drivers; PCI;
    the key tables; the text that procfs produces; the tests inside the kernel; and
    the user programs, which run over a C library that is not in the repository.
    Within the modelled parts: the creation of directory entries, the inode
    cache and the super block of ext2; mounting and path walks; program loading; ARP, UDP, ICMP and the socket calls; timers; string formatting. *)
From stdpp Require Import base numbers list gmap.
From Stdlib Require Import ZArith ZifyBool Lia.
Open Scope Z_scope.

Declare Scope kernel_scope.
Delimit Scope kernel_scope with kernel.

(** * Outcomes of kernel code

    A C function either returns, stops the machine through [panic()], or
    leaves the defined behaviour of C (an access outside of an object).  The
    last two are kept apart: [Panic] is something the source asks for, [Fault]
    is something it must never reach. *)
Inductive outcome (A : Type) : Type :=
| Done (a : A)
| Panic
| Fault.
Arguments Done {A} a.
Arguments Panic {A}.
Arguments Fault {A}.

Global Instance outcome_ret : MRet outcome := fun A a => Done a.
Global Instance outcome_bind : MBind outcome := fun A B f m =>
  match m with Done a => f a | Panic => Panic | Fault => Fault end.

Lemma outcome_bind_done {A B} (m : outcome A) (f : A -> outcome B) b :
  m ≫= f = Done b -> exists a, m = Done a /\ f a = Done b.
Proof. destruct m; simpl; intros H; try discriminate H; eauto. Qed.

Lemma outcome_bind_ret {A} (m : outcome A) : m ≫= mret = m.
Proof. by destruct m. Qed.

Lemma outcome_bind_assoc {A B C} (m : outcome A) (f : A -> outcome B) (g : B -> outcome C) :
  (m ≫= f) ≫= g = m ≫= (fun a => f a ≫= g).
Proof. by destruct m. Qed.

Lemma done_inj {A} (x y : A) : Done x = Done y -> x = y.
Proof. by intros [=]. Qed.

Lemma done_bind {A B} (x : A) (f : A -> outcome B) : Done x ≫= f = f x.
Proof. done. Qed.

(** Runs the bind at the head of the goal. *)
Ltac obind := rewrite ?done_bind; cbv beta iota zeta.

(** Inverts every [m ≫= f = Done _] hypothesis of the context. *)
Ltac inv_outcome :=
  repeat match goal with
  | H : _ ≫= _ = Done _ |- _ =>
      let a := fresh "r" in let H1 := fresh "Hm" in
      apply outcome_bind_done in H as (a & H1 & H)
  | H : mret _ = Done _ |- _ => injection H as H
  | H : Done _ = Done _ |- _ => injection H as H
  | H : Fault = Done _ |- _ => discriminate H
  | H : Panic = Done _ |- _ => discriminate H
  end.

(** * Machine integers

    A C integer is a [Z]; the conversions the language makes are written out. *)
#[global] Arguments Z.testbit : simpl never.
#[global] Arguments Z.shiftl : simpl never.
#[global] Arguments Z.shiftr : simpl never.
#[global] Arguments Z.land : simpl never.
#[global] Arguments Z.lor : simpl never.
#[global] Arguments Z.lxor : simpl never.

Definition uwrap (w z : Z) : Z := z mod 2 ^ w.
Definition u8 (z : Z) : Z := uwrap 8 z.
Definition u16 (z : Z) : Z := uwrap 16 z.
Definition u32 (z : Z) : Z := uwrap 32 z.
Definition u64 (z : Z) : Z := uwrap 64 z.

(** Conversion to the signed type of the same width (two's complement). *)
Definition swrap (w z : Z) : Z :=
  let u := uwrap w z in if u <? 2 ^ (w - 1) then u else u - 2 ^ w.
Definition i8 (z : Z) : Z := swrap 8 z.
Definition i32 (z : Z) : Z := swrap 32 z.
Definition i64 (z : Z) : Z := swrap 64 z.

Lemma uwrap_bound w z : 0 <= w -> 0 <= uwrap w z < 2 ^ w.
Proof. intros. unfold uwrap. apply Z.mod_pos_bound. lia. Qed.

Lemma uwrap_small w z : 0 <= z < 2 ^ w -> uwrap w z = z.
Proof. apply Z.mod_small. Qed.

Lemma u32_bound z : 0 <= u32 z < 2 ^ 32.
Proof. by apply uwrap_bound. Qed.

Lemma u32_small z : 0 <= z < 2 ^ 32 -> u32 z = z.
Proof. apply uwrap_small. Qed.

Lemma u32_u32 z : u32 (u32 z) = u32 z.
Proof. apply u32_small, u32_bound. Qed.

Lemma u32_add_l a b : u32 (u32 a + b) = u32 (a + b).
Proof. unfold u32, uwrap. by rewrite Zplus_mod_idemp_l. Qed.

Lemma u32_add_r a b : u32 (a + u32 b) = u32 (a + b).
Proof. unfold u32, uwrap. by rewrite Zplus_mod_idemp_r. Qed.

Lemma u32_sub_l a b : u32 (u32 a - b) = u32 (a - b).
Proof. unfold u32, uwrap. by rewrite Zminus_mod_idemp_l. Qed.

Lemma u32_sub_r a b : u32 (a - u32 b) = u32 (a - b).
Proof. unfold u32, uwrap. by rewrite Zminus_mod_idemp_r. Qed.

Create HintDb machine.
Create Rewrite HintDb machine.
#[export] Hint Resolve u32_bound : machine.
#[export] Hint Rewrite u32_u32 u32_add_l u32_add_r u32_sub_l u32_sub_r : machine.

Lemma i32_small z : - 2 ^ 31 <= z < 2 ^ 31 -> i32 z = z.
Proof.
  intros Hz. unfold i32, swrap, uwrap. change (32 - 1) with 31.
  destruct (Z.ltb_spec (z mod 2 ^ 32) (2 ^ 31)) as [H|H];
    Z.div_mod_to_equations; nia.
Qed.

(** Removes the conversions whose argument is in range. *)
Ltac unwrap :=
  repeat match goal with
  | |- context [i32 ?x] => rewrite (i32_small x) by lia
  | |- context [u32 ?x] => rewrite (u32_small x) by lia
  end.

(** Rounding to a power of two. *)
Definition ALIGN_2 (v a : Z) : Z := Z.land (u32 (v + a - 1)) (Z.lnot (a - 1)).
Definition ALIGN_2_DOWN (v a : Z) : Z := Z.land v (Z.lnot (a - 1)).

(** Device numbers: twelve bits of major and twenty of minor number. *)
Definition DEV_MAJOR (dev : Z) : Z := Z.shiftr dev 20.
Definition DEV_MINOR (dev : Z) : Z := Z.land dev 0xFFFFF.
Definition DEV_MAKE (major minor : Z) : Z := Z.lor (u32 (Z.shiftl major 20)) minor.

Lemma align_land v k : 0 <= k -> Z.land v (Z.lnot (2 ^ k - 1)) = v / 2 ^ k * 2 ^ k.
Proof.
  intros Hk. rewrite <- Z.ldiff_land. rewrite Z.sub_1_r, <- Z.ones_equiv.
  rewrite Z.ldiff_ones_r, Z.shiftr_div_pow2, Z.shiftl_mul_pow2 by lia. done.
Qed.

(** * C arrays

    Reads and writes of an array at an [int] index; outside of the array the
    access is a [Fault]. *)
Definition arr_get {A} (l : list A) (i : Z) : outcome A :=
  if bool_decide (0 <= i) then
    match l !! Z.to_nat i with Some x => Done x | None => Fault end
  else Fault.

Definition arr_set {A} (l : list A) (i : Z) (x : A) : outcome (list A) :=
  if bool_decide (0 <= i < Z.of_nat (length l)) then Done (<[Z.to_nat i := x]> l)
  else Fault.

(** [l] with the elements from index [i] on overwritten by [src]. *)
Definition splice {A} (l : list A) (i : nat) (src : list A) : list A :=
  take i l ++ src ++ drop (i + length src) l.

(** [memcpy(l + off, src, length src)] *)
Definition arr_blit {A} (l : list A) (off : Z) (src : list A) : outcome (list A) :=
  if bool_decide (0 <= off /\ off + Z.of_nat (length src) <= Z.of_nat (length l)) then
    Done (splice l (Z.to_nat off) src)
  else Fault.

(** The [n] elements of [l] from offset [off]. *)
Definition arr_slice {A} (l : list A) (off n : Z) : outcome (list A) :=
  if bool_decide (0 <= off /\ 0 <= n /\ off + n <= Z.of_nat (length l)) then
    Done (take (Z.to_nat n) (drop (Z.to_nat off) l))
  else Fault.

Lemma length_splice {A} (l : list A) i src :
  (i + length src <= length l)%nat -> length (splice l i src) = length l.
Proof. intros. unfold splice. rewrite !length_app, length_take, length_drop. lia. Qed.

(** Closes a linear goal about lengths of list expressions. *)
Ltac lens :=
  repeat first [ rewrite length_take | rewrite length_drop | rewrite length_app
               | rewrite length_insert | rewrite length_replicate | rewrite length_fmap ];
  simpl length;
  lazymatch goal with
  | |- context [length (splice _ _ _)] => rewrite length_splice; lens
  | _ => lia
  end.

Lemma splice_nil {A} (l : list A) i : splice l i [] = l.
Proof. unfold splice. simpl. rewrite Nat.add_0_r. apply take_drop. Qed.

Lemma lookup_splice {A} (l : list A) i src k :
  (i + length src <= length l)%nat ->
  splice l i src !! k =
  if decide (i <= k < i + length src)%nat then src !! (k - i)%nat else l !! k.
Proof.
  intros H. unfold splice. destruct (decide (k < i)%nat).
  - rewrite lookup_app_l by (rewrite length_take; lia).
    rewrite lookup_take_lt by lia. case_decide; [lia | done].
  - rewrite lookup_app_r by (rewrite length_take; lia).
    rewrite length_take, Nat.min_l by lia. case_decide.
    + by rewrite lookup_app_l by lia.
    + rewrite lookup_app_r by lia. rewrite lookup_drop. f_equal. lia.
Qed.

Lemma splice_insert {A} (l : list A) i x src :
  (i + S (length src) <= length l)%nat ->
  splice (<[i := x]> l) (S i) src = splice l i (x :: src).
Proof.
  intros Hi. apply list_eq. intros k.
  rewrite !lookup_splice by (rewrite ?length_insert; simpl; lia).
  simpl. rewrite list_lookup_insert.
  repeat case_decide; destruct_and?; subst; try lia; try done.
  - by replace (k - i)%nat with (S (k - S i)) by lia.
  - by rewrite Nat.sub_diag.
Qed.

Lemma splice_splice {A} (l : list A) i s1 s2 :
  (i + length s1 + length s2 <= length l)%nat ->
  splice (splice l i s1) (i + length s1) s2 = splice l i (s1 ++ s2).
Proof.
  intros H. apply list_eq. intros k.
  rewrite !lookup_splice by (rewrite ?length_splice, ?length_app; lia).
  rewrite length_app. repeat case_decide; try lia; try done.
  - rewrite lookup_app_r by lia. f_equal. lia.
  - by rewrite lookup_app_l by lia.
Qed.

Lemma arr_get_done {A} (l : list A) i x :
  arr_get l i = Done x <-> 0 <= i /\ l !! Z.to_nat i = Some x.
Proof.
  unfold arr_get. case_bool_decide.
  - destruct (l !! Z.to_nat i) eqn:E; split; intros; destruct_and?; simplify_eq; auto.
  - split; [done | lia].
Qed.

Lemma arr_get_total {A} (l : list A) i :
  0 <= i < Z.of_nat (length l) -> exists x, arr_get l i = Done x.
Proof.
  intros Hi. destruct (lookup_lt_is_Some_2 l (Z.to_nat i)) as [x Hx]; [lia|].
  exists x. apply arr_get_done. split; [lia | done].
Qed.

Lemma arr_set_done {A} (l l' : list A) i x :
  arr_set l i x = Done l' <->
  0 <= i < Z.of_nat (length l) /\ l' = <[Z.to_nat i := x]> l.
Proof.
  unfold arr_set. case_bool_decide; split; intros; destruct_and?; simplify_eq; auto; lia.
Qed.

Lemma arr_set_total {A} (l : list A) i x :
  0 <= i < Z.of_nat (length l) -> arr_set l i x = Done (<[Z.to_nat i := x]> l).
Proof. intros Hi. by apply arr_set_done. Qed.

Lemma arr_blit_done {A} (l : list A) off src :
  0 <= off -> off + Z.of_nat (length src) <= Z.of_nat (length l) ->
  arr_blit l off src = Done (splice l (Z.to_nat off) src).
Proof. intros. unfold arr_blit. by rewrite bool_decide_eq_true_2. Qed.

Lemma arr_slice_done {A} (l : list A) off n :
  0 <= off -> 0 <= n -> off + n <= Z.of_nat (length l) ->
  arr_slice l off n = Done (take (Z.to_nat n) (drop (Z.to_nat off) l)).
Proof. intros. unfold arr_slice. by rewrite bool_decide_eq_true_2. Qed.

(** * Error numbers (include/protura/errors.h) *)
Definition EPERM : Z := 1.
Definition ENOENT : Z := 2.
Definition ESRCH : Z := 3.
Definition EINTR : Z := 4.
Definition EIO : Z := 5.
Definition ENXIO : Z := 6.
Definition EBADF : Z := 9.
Definition ECHILD : Z := 10.
Definition EAGAIN : Z := 11.
Definition ENOMEM : Z := 12.
Definition EACCES : Z := 13.
Definition EFAULT : Z := 14.
Definition ENODEV : Z := 19.
Definition EINVAL : Z := 22.
Definition ENOSPC : Z := 28.
Definition EPIPE : Z := 32.
Definition ENAMETOOLONG : Z := 91.
Definition ECONNRESET : Z := 104.
Definition ECONNREFUSED : Z := 111.
Definition EADDRINUSE : Z := 112.
Definition EISCONN : Z := 127.
Definition ENOTCONN : Z := 128.

(** * Arithmetic *)

(** A remainder that is at most two moduli below its argument. *)
Lemma mod_cases x n :
  - (2 * n) <= x < n ->
  x mod n = if x <? 0 then (if x <? - n then x + 2 * n else x + n) else x.
Proof.
  intros. destruct (Z.ltb_spec x 0); [destruct (Z.ltb_spec x (- n))|]; symmetry.
  - apply Z.mod_unique_pos with (-2); lia.
  - apply Z.mod_unique_pos with (-1); lia.
  - apply Z.mod_unique_pos with 0; lia.
Qed.

(** * Removing an element from a list of distinct elements *)

Lemma filter_ne_absent (l : list Z) b : b ∉ l -> filter (fun x => x <> b) l = l.
Proof.
  induction l as [|y l IH]; [done|]. intros Hb. apply not_elem_of_cons in Hb as [Hy Hb].
  rewrite filter_cons_True by done. by rewrite IH.
Qed.

Lemma filter_ne_length (l : list Z) b :
  NoDup l -> b ∈ l -> Z.of_nat (length (filter (fun x => x <> b) l)) = Z.of_nat (length l) - 1.
Proof.
  induction l as [|y l IH]; intros Hn Hb; [by apply elem_of_nil in Hb|].
  apply NoDup_cons in Hn as [Hy Hn]. apply elem_of_cons in Hb as [->|Hb].
  - rewrite filter_cons_False by (intros H; by apply H). rewrite filter_ne_absent by done. simpl. lia.
  - rewrite filter_cons_True by (intros ->; done). simpl length. rewrite !Nat2Z.inj_succ, IH by done. lia.
Qed.
