(* ===== verification/UserMem.v ===== *)
(** User memory accesses: the checked copies between kernel buffers and a
    [struct user_buffer] (arch/x86/include/arch/user_check.h,
    src/mm/user_check.c).  Memory is a finite map from addresses to bytes; its
    domain is the set of mapped bytes, and touching any other byte is the page
    fault that makes the copy return [-EFAULT]. *)
From stdpp Require Import base numbers list gmap.
From Stdlib Require Import ZArith ZifyBool Lia.
From S2P Require Import Prelude.
Open Scope Z_scope.

Definition KMEM_KBASE : Z := 0xC0000000.

Record user_buffer : Type := { ptr : Z; is_user : bool }.

Definition make_user_buffer (p : Z) : user_buffer := {| ptr := p; is_user := true |}.
Definition make_kernel_buffer (p : Z) : user_buffer := {| ptr := p; is_user := false |}.
Definition user_buffer_index (buf : user_buffer) (idx : Z) : user_buffer :=
  {| ptr := u32 (ptr buf + idx); is_user := is_user buf |}.

Definition user_check_access (data : user_buffer) (size : Z) : Z :=
  if negb (is_user data) then 0
  else if u32 (ptr data + size - 1) <? KMEM_KBASE then 0 else - EFAULT.

(** The bytes [addr, addr + n) as the CPU addresses them. *)
Fixpoint range_mapped (m : gmap Z Z) (addr : Z) (n : nat) : bool :=
  match n with
  | O => true
  | S n' => bool_decide (is_Some (m !! addr)) && range_mapped m (u32 (addr + 1)) n'
  end.

(** [rep movsb] towards [addr]: stops at the first unmapped byte. *)
Fixpoint movs_out (m : gmap Z Z) (addr : Z) (bs : list Z) : Z * gmap Z Z :=
  match bs with
  | [] => (0, m)
  | b :: bs' =>
      match m !! addr with
      | None => (- EFAULT, m)
      | Some _ => movs_out (<[addr := b]> m) (u32 (addr + 1)) bs'
      end
  end.

(** [rep movsb] from [addr]: the bytes that reached the kernel buffer. *)
Fixpoint movs_in (m : gmap Z Z) (addr : Z) (n : nat) : Z * list Z :=
  match n with
  | O => (0, [])
  | S n' =>
      match m !! addr with
      | None => (- EFAULT, [])
      | Some b => let '(ret, bs) := movs_in m (u32 (addr + 1)) n' in (ret, b :: bs)
      end
  end.

(** A copy of 1, 2 or 4 bytes is one [mov] and faults before it writes. *)
Definition single_mov (size : Z) : bool := (size =? 1) || (size =? 2) || (size =? 4).

Definition user_memcpy_from_kernel (m : gmap Z Z) (data : user_buffer) (krnl : list Z)
  : Z * gmap Z Z :=
  let size := Z.of_nat (length krnl) in
  let ret := user_check_access data size in
  if negb (ret =? 0) then (ret, m)
  else if single_mov size then
    if range_mapped m (ptr data) (length krnl) then movs_out m (ptr data) krnl
    else (- EFAULT, m)
  else movs_out m (ptr data) krnl.

Definition user_memcpy_to_kernel (m : gmap Z Z) (data : user_buffer) (size : Z)
  : Z * list Z :=
  let ret := user_check_access data size in
  if negb (ret =? 0) then (ret, [])
  else if single_mov size then
    if range_mapped m (ptr data) (Z.to_nat size) then movs_in m (ptr data) (Z.to_nat size)
    else (- EFAULT, [])
  else movs_in m (ptr data) (Z.to_nat size).

Definition user_memset_from_kernel (m : gmap Z Z) (data : user_buffer) (ch size : Z)
  : Z * gmap Z Z :=
  let ret := user_check_access data size in
  if negb (ret =? 0) then (ret, m)
  else movs_out m (ptr data) (replicate (Z.to_nat size) ch).

(** The copy loop of [user_strncpy_to_kernel_inner] with [n] iterations left:
    the return value of a failed access or 0, the kernel buffer, and [i]. *)
Fixpoint strncpy_loop (m : gmap Z Z) (krnl : list Z) (data : user_buffer) (i : Z) (n : nat)
  : outcome (Z * list Z * Z) :=
  match n with
  | O => Done (0, krnl, i)
  | S n' =>
      match user_memcpy_to_kernel m (user_buffer_index data i) 1 with
      | (ret, bs) =>
          if ret <? 0 then Done (ret, krnl, i)
          else b ← arr_get bs 0;
               krnl' ← arr_set krnl i b;
               if b =? 0 then Done (0, krnl', i)
               else strncpy_loop m krnl' data (i + 1) n'
      end
  end.

Definition user_strncpy_to_kernel_inner (m : gmap Z Z) (krnl : list Z) (data : user_buffer)
    (max_len : Z) : outcome (Z * list Z) :=
  '(ret, krnl, i) ← strncpy_loop m krnl data 0 (Z.to_nat max_len);
  if ret <? 0 then Done (ret, krnl)
  else
    first ← arr_get krnl 0;
    if (i =? max_len) && negb (first =? 0) then Done (- ENAMETOOLONG, krnl)
    else krnl ← arr_blit krnl i (replicate (Z.to_nat (max_len - i)) 0);
         Done (0, krnl).

Definition user_strncpy_to_kernel (m : gmap Z Z) (krnl : list Z) (data : user_buffer)
    (max : Z) : outcome (Z * list Z) :=
  if is_user data && (KMEM_KBASE <=? ptr data) then Done (- EFAULT, krnl)
  else
    let addr_max := if is_user data then KMEM_KBASE - ptr data else 0xFFFFFFFF in
    '(ret, krnl) ← user_strncpy_to_kernel_inner m krnl data
                     (if max <? addr_max then max else addr_max);
    if (ret =? - ENAMETOOLONG) && (addr_max <? max) then Done (- EFAULT, krnl)
    else Done (ret, krnl).

(** * Properties *)

(** A range that does not wrap around the address space and starts inside it. *)
Definition range_ok (p size : Z) : Prop := 0 <= p /\ 1 <= size /\ p + size <= 2 ^ 32.

Lemma user_check_access_spec data size :
  is_user data = true -> range_ok (ptr data) size ->
  user_check_access data size = (if ptr data + size <=? KMEM_KBASE then 0 else - EFAULT).
Proof.
  intros Hu (H0 & H1 & H2). unfold user_check_access. rewrite Hu. simpl.
  rewrite u32_small by lia. unfold KMEM_KBASE.
  destruct (Z.ltb_spec (ptr data + size - 1) 0xC0000000),
    (Z.leb_spec (ptr data + size) 0xC0000000); try done; lia.
Qed.

(** a copy the access check lets through lies below the kernel base, and a
    copy that reaches kernel memory is refused with -EFAULT, for every range of
    user memory that does not wrap around the address space. *)
Theorem user_check_access_sound data size :
  is_user data = true -> range_ok (ptr data) size ->
  (user_check_access data size = 0 /\
     forall a, ptr data <= a < ptr data + size -> a < KMEM_KBASE) \/
  (user_check_access data size = - EFAULT /\
     exists a, ptr data <= a < ptr data + size /\ KMEM_KBASE <= a).
Proof.
  intros Hu Hr. rewrite (user_check_access_spec _ _ Hu Hr).
  destruct Hr as (H0 & H1 & H2).
  destruct (Z.leb_spec (ptr data + size) KMEM_KBASE); [left | right]; split; try done.
  - intros; lia.
  - exists (ptr data + size - 1). lia.
Qed.

Lemma user_check_access_sound_witness :
  user_check_access (make_user_buffer 0x08048000) 16 = 0.
Proof.
  destruct (user_check_access_sound (make_user_buffer 0x08048000) 16) as [[H _]|[H _]].
  - reflexivity.
  - unfold range_ok; simpl; lia.
  - exact H.
  - discriminate H.
Defined.

(** the check computes [ptr + size - 1] modulo 2^32, so a range that starts
    inside the kernel and wraps around passes it whenever its wrapped end is low:
    the last byte of the address space followed by any user-sized tail is accepted. *)
Theorem user_check_access_wraps size :
  2 <= size <= KMEM_KBASE + 1 ->
  user_check_access (make_user_buffer 0xFFFFFFFF) size = 0.
Proof.
  intros Hs. unfold user_check_access, make_user_buffer. simpl.
  replace (0xFFFFFFFF + size - 1) with (size - 2 + 1 * 2 ^ 32) by lia.
  unfold u32, uwrap. rewrite Z_mod_plus_full, Z.mod_small by (unfold KMEM_KBASE in *; lia).
  destruct (Z.ltb_spec (size - 2) KMEM_KBASE); [done | lia].
Qed.

Lemma user_check_access_wraps_witness :
  user_check_access (make_user_buffer 0xFFFFFFFF) 0x1000 = 0.
Proof. apply user_check_access_wraps. unfold KMEM_KBASE. lia. Defined.

(** ** What the copies do to memory *)

Lemma movs_out_frame m addr bs a :
  0 <= addr -> addr + Z.of_nat (length bs) <= 2 ^ 32 ->
  ~ (addr <= a < addr + Z.of_nat (length bs)) ->
  (movs_out m addr bs).2 !! a = m !! a.
Proof.
  revert m addr. induction bs as [|b bs IH]; intros m addr H0 H1 Ha; [done|].
  simpl in *. destruct (m !! addr) eqn:E; [|done].
  destruct (decide (bs = [])) as [->|Hne].
  { simpl. by rewrite lookup_insert_ne by lia. }
  assert (length bs <> 0%nat) by (by destruct bs).
  rewrite u32_small by lia. rewrite IH by lia. apply lookup_insert_ne. lia.
Qed.

Lemma movs_out_ret m addr bs : (movs_out m addr bs).1 = 0 \/ (movs_out m addr bs).1 = - EFAULT.
Proof.
  revert m addr. induction bs as [|b bs IH]; intros m addr; simpl; [by left|].
  destruct (m !! addr); [apply IH | by right].
Qed.

Lemma movs_out_write m addr bs :
  0 <= addr -> addr + Z.of_nat (length bs) <= 2 ^ 32 ->
  (movs_out m addr bs).1 = 0 ->
  forall i, (i < length bs)%nat ->
    (movs_out m addr bs).2 !! (addr + Z.of_nat i) = bs !! i.
Proof.
  revert m addr. induction bs as [|b bs IH]; intros m addr H0 H1 Hret i Hi; simpl in *; [lia|].
  destruct (m !! addr) eqn:E; [|by destruct bs].
  destruct (decide (bs = [])) as [->|Hne].
  { destruct i; simpl in *; [|lia]. rewrite Z.add_0_r. by rewrite lookup_insert_eq. }
  assert (length bs <> 0%nat) by (by destruct bs).
  rewrite u32_small in * by lia.
  destruct i as [|i]; simpl.
  - rewrite movs_out_frame by lia. rewrite Z.add_0_r. apply lookup_insert_eq.
  - replace (addr + Z.of_nat (S i)) with (addr + 1 + Z.of_nat i) by lia.
    apply IH; auto; lia.
Qed.

Lemma range_mapped_movs m addr bs :
  range_mapped m addr (length bs) = true ->
  (movs_out m addr bs).1 = 0.
Proof.
  revert m addr. induction bs as [|b bs IH]; intros m addr H; [done|].
  simpl in *. apply andb_true_iff in H as [Hs Hr].
  apply bool_decide_eq_true_1 in Hs as [x ->]. apply IH.
  clear -Hr. revert Hr. generalize (u32 (addr + 1)) as a. induction (length bs) as [|n IH]; [done|].
  intros a. simpl. intros [H1 H2]%andb_true_iff. apply andb_true_iff. split; [|by apply IH].
  apply bool_decide_eq_true_1 in H1. apply bool_decide_eq_true_2.
  rewrite lookup_insert. case_decide; eauto.
Qed.

Lemma user_memcpy_from_kernel_cases m data krnl :
  user_memcpy_from_kernel m data krnl = (- EFAULT, m) \/
  (user_check_access data (Z.of_nat (length krnl)) = 0 /\
   user_memcpy_from_kernel m data krnl = movs_out m (ptr data) krnl).
Proof.
  unfold user_memcpy_from_kernel.
  destruct (Z.eqb_spec (user_check_access data (Z.of_nat (length krnl))) 0) as [E|E]; simpl.
  - destruct (single_mov _); [|by right]. destruct (range_mapped _ _ _); [by right | by left].
  - left. f_equal. revert E. unfold user_check_access.
    destruct (negb _); [done|]. by destruct (_ <? _).
Qed.

(** a copy to a non-wrapping user range returns 0 or -EFAULT.  On success the
    range holds exactly the kernel bytes; whatever the result, every byte outside
    of the range keeps its value and so does every byte of kernel memory. *)
Theorem user_memcpy_from_kernel_safe m data krnl :
  is_user data = true -> range_ok (ptr data) (Z.of_nat (length krnl)) ->
  let '(ret, m') := user_memcpy_from_kernel m data krnl in
  (ret = 0 \/ ret = - EFAULT) /\
  (ret = 0 -> forall i, (i < length krnl)%nat -> m' !! (ptr data + Z.of_nat i) = krnl !! i) /\
  (forall a, ~ (ptr data <= a < ptr data + Z.of_nat (length krnl)) -> m' !! a = m !! a) /\
  (forall a, KMEM_KBASE <= a -> m' !! a = m !! a).
Proof.
  intros Hu Hr. pose proof (user_check_access_spec _ _ Hu Hr) as Hc.
  destruct Hr as (H0 & H1 & H2).
  destruct (user_memcpy_from_kernel_cases m data krnl) as [->|[Hok ->]].
  { split_and!; auto. done. }
  rewrite Hok in Hc.
  destruct (Z.leb_spec (ptr data + Z.of_nat (length krnl)) KMEM_KBASE); [|done].
  pose proof (movs_out_ret m (ptr data) krnl) as Hret.
  pose proof (movs_out_frame m (ptr data) krnl) as Hf.
  pose proof (movs_out_write m (ptr data) krnl) as Hw.
  destruct (movs_out m (ptr data) krnl) as [ret m']. simpl in *.
  split_and!; auto; intros; apply Hf; lia.
Qed.

Definition example_mem : gmap Z Z := <[100 := 0]> (<[101 := 0]> (<[102 := 0]> ∅)).

Lemma user_memcpy_from_kernel_safe_witness :
  (user_memcpy_from_kernel example_mem (make_user_buffer 100) [7; 8; 9]).2 !! 102 = Some 9.
Proof.
  pose proof (user_memcpy_from_kernel_safe example_mem (make_user_buffer 100) [7; 8; 9]
    eq_refl ltac:(unfold range_ok; simpl; lia)) as H.
  change (user_memcpy_from_kernel example_mem (make_user_buffer 100) [7; 8; 9])
    with (0, (movs_out example_mem 100 [7; 8; 9]).2) in *.
  destruct H as (_ & H & _). apply (H eq_refl 2%nat). simpl. lia.
Defined.

(** ** Strings from user space *)

(** [s] is stored at [p] and has no terminator among its bytes. *)
Definition bytes_at (m : gmap Z Z) (p : Z) (s : list Z) : Prop :=
  (forall i, (i < length s)%nat -> m !! (p + Z.of_nat i) = s !! i) /\
  Forall (fun b => b <> 0) s.

Lemma bytes_at_cons m p b s :
  bytes_at m p (b :: s) -> m !! p = Some b /\ b <> 0 /\ bytes_at m (p + 1) s.
Proof.
  intros [Hl Hn]. apply Forall_cons in Hn as [Hb Hn]. split_and!; auto.
  - specialize (Hl 0%nat ltac:(simpl; lia)). by rewrite Z.add_0_r in Hl.
  - split; [|done]. intros i Hi. specialize (Hl (S i) ltac:(simpl; lia)). simpl in Hl.
    rewrite <- Hl. f_equal. lia.
Qed.

Lemma user_read_byte m data i :
  is_user data = true -> 0 <= ptr data -> 0 <= i -> ptr data + i < KMEM_KBASE ->
  user_memcpy_to_kernel m (user_buffer_index data i) 1 =
  match m !! (ptr data + i) with Some b => (0, [b]) | None => (- EFAULT, []) end.
Proof.
  intros Hu H0 Hi Hk. unfold KMEM_KBASE in Hk.
  assert (Hp : ptr (user_buffer_index data i) = ptr data + i).
  { simpl. apply u32_small. lia. }
  unfold user_memcpy_to_kernel.
  rewrite user_check_access_spec by (simpl in *; unfold range_ok; rewrite ?Hp; auto; lia).
  rewrite Hp. destruct (Z.leb_spec (ptr data + i + 1) KMEM_KBASE); [|unfold KMEM_KBASE in *; lia].
  simpl. change (Pos.to_nat 1) with 1%nat. simpl.
  case_bool_decide as Hs; simpl.
  - by destruct Hs as [b ->].
  - destruct (m !! (ptr data + i)); [by destruct Hs | done].
Qed.

Lemma strncpy_loop_run m data s : forall krnl i n,
  is_user data = true -> 0 <= ptr data -> 0 <= i ->
  ptr data + i + Z.of_nat (length s) <= KMEM_KBASE ->
  bytes_at m (ptr data + i) s ->
  i + Z.of_nat (length s) <= Z.of_nat (length krnl) ->
  strncpy_loop m krnl data i (length s + n) =
  strncpy_loop m (splice krnl (Z.to_nat i) s) data (i + Z.of_nat (length s)) n.
Proof.
  induction s as [|b s IH]; intros krnl i n Hu H0 Hi Hk Hb Hl; simpl in Hl, Hk.
  { rewrite splice_nil, Z.add_0_r. done. }
  apply bytes_at_cons in Hb as (Hb & Hnz & Hs).
  simpl. rewrite user_read_byte, Hb by (auto; lia). simpl.
  rewrite arr_set_total by lia. simpl.
  destruct (Z.eqb_spec b 0); [done|].
  rewrite IH by (rewrite ?length_insert; auto; try lia; by rewrite Z.add_assoc).
  replace (Z.to_nat (i + 1)) with (S (Z.to_nat i)) by lia.
  rewrite splice_insert by lia. f_equal. lia.
Qed.

Lemma splice_0_head (krnl s : list Z) (b : Z) :
  (0 < length s)%nat -> s !! 0%nat = Some b -> (length s <= length krnl)%nat ->
  arr_get (splice krnl 0 s) 0 = Done b.
Proof.
  intros. apply arr_get_done. split; [lia|].
  rewrite lookup_splice by lia. by rewrite decide_True by lia.
Qed.

(** a NUL-terminated user string that fits is copied whole: the call returns
    0 and the kernel buffer holds the string, padded with NULs up to the limit. *)
Theorem user_strncpy_to_kernel_copies m krnl data s max :
  is_user data = true -> 0 <= ptr data ->
  bytes_at m (ptr data) s -> m !! (ptr data + Z.of_nat (length s)) = Some 0 ->
  ptr data + Z.of_nat (length s) < KMEM_KBASE ->
  Z.of_nat (length s) < max <= Z.of_nat (length krnl) ->
  let n := Z.to_nat (Z.min max (KMEM_KBASE - ptr data)) in
  user_strncpy_to_kernel m krnl data max =
  Done (0, splice krnl 0 (s ++ replicate (n - length s) 0)).
Proof.
  intros Hu H0 Hs Hnul Hk Hmax n. unfold user_strncpy_to_kernel. rewrite Hu. simpl.
  destruct (Z.leb_spec KMEM_KBASE (ptr data)); [lia|].
  replace (if max <? KMEM_KBASE - ptr data then max else KMEM_KBASE - ptr data)
    with (Z.min max (KMEM_KBASE - ptr data)) by (destruct (Z.ltb_spec max (KMEM_KBASE - ptr data)); lia).
  unfold user_strncpy_to_kernel_inner. fold n.
  assert (Hlt : (length s < n)%nat) by lia.
  replace n with (length s + S (n - length s - 1))%nat at 1 by lia.
  rewrite strncpy_loop_run by (rewrite ?Z.add_0_r; auto; lia). simpl strncpy_loop.
  change (Z.to_nat 0) with 0%nat. rewrite !Z.add_0_l.
  rewrite user_read_byte, Hnul by (auto; lia). simpl.
  rewrite arr_set_total by (rewrite length_splice; lia). simpl.
  destruct (arr_get_total (<[Z.to_nat (Z.of_nat (length s)) := 0]> (splice krnl 0 s)) 0)
    as [c Hc]; [rewrite length_insert, length_splice; lia|].
  rewrite Hc. simpl.
  destruct (Z.eqb_spec (Z.of_nat (length s)) (Z.min max (KMEM_KBASE - ptr data))); [lia|]. simpl.
  rewrite arr_blit_done by (rewrite ?length_insert, ?length_splice, ?length_replicate; lia).
  simpl. do 2 f_equal. apply list_eq. intros k.
  rewrite !lookup_splice by
    (rewrite ?length_insert, ?length_splice, ?length_app, ?length_replicate; lia).
  rewrite list_lookup_insert, lookup_splice, length_splice, !length_app, !length_replicate by lia.
  repeat case_decide; destruct_and?; try lia; try done.
  all: rewrite ?lookup_app_r, ?lookup_app_l by lia; try done.
  all: rewrite ?lookup_replicate_2 by lia; done.
Qed.

Lemma user_strncpy_to_kernel_copies_witness :
  user_strncpy_to_kernel (<[100 := 65]> (<[101 := 0]> ∅)) [9; 9; 9; 9] (make_user_buffer 100) 3
  = Done (0, [65; 0; 0; 9]).
Proof.
  rewrite (user_strncpy_to_kernel_copies _ _ _ [65]).
  - reflexivity.
  - reflexivity.
  - simpl; lia.
  - split; [|by repeat constructor]. intros [|i] Hi; [reflexivity | simpl in Hi; lia].
  - reflexivity.
  - simpl; unfold KMEM_KBASE; lia.
  - simpl; lia.
Defined.

(** a string with no terminator in the first [max] bytes is reported, never
    truncated: -ENAMETOOLONG when the buffer is the limit, -EFAULT when the kernel
    base is. *)
Theorem user_strncpy_to_kernel_unterminated m krnl data s max :
  is_user data = true -> 0 <= ptr data < KMEM_KBASE ->
  0 < max <= Z.of_nat (length krnl) ->
  bytes_at m (ptr data) s ->
  Z.of_nat (length s) = Z.min max (KMEM_KBASE - ptr data) ->
  user_strncpy_to_kernel m krnl data max =
  Done (if KMEM_KBASE - ptr data <? max then - EFAULT else - ENAMETOOLONG, splice krnl 0 s).
Proof.
  intros Hu H0 Hmax Hs Hlen. unfold user_strncpy_to_kernel. rewrite Hu. simpl.
  destruct (Z.leb_spec KMEM_KBASE (ptr data)); [lia|].
  replace (if max <? KMEM_KBASE - ptr data then max else KMEM_KBASE - ptr data)
    with (Z.of_nat (length s)) by (destruct (Z.ltb_spec max (KMEM_KBASE - ptr data)); lia).
  unfold user_strncpy_to_kernel_inner.
  rewrite Nat2Z.id. replace (length s) with (length s + 0)%nat at 1 by lia.
  rewrite strncpy_loop_run by (rewrite ?Z.add_0_r; auto; lia). simpl.
  destruct (lookup_lt_is_Some_2 s 0) as [b Hb]; [lia|].
  assert (b <> 0) by (destruct Hs as [_ Hn]; by eapply Forall_lookup_1 in Hn).
  change (Z.to_nat 0) with 0%nat. rewrite (splice_0_head _ _ b) by (auto; lia). simpl.
  rewrite Z.add_0_l, Z.eqb_refl. destruct (Z.eqb_spec b 0); [done|]. simpl.
  by destruct (_ <? max).
Qed.

Lemma user_strncpy_to_kernel_unterminated_witness :
  user_strncpy_to_kernel (<[100 := 65]> (<[101 := 66]> ∅)) [9; 9; 9] (make_user_buffer 100) 2
  = Done (- ENAMETOOLONG, [65; 66; 9]).
Proof.
  rewrite (user_strncpy_to_kernel_unterminated _ _ _ [65; 66]).
  - reflexivity.
  - reflexivity.
  - simpl; unfold KMEM_KBASE; lia.
  - simpl; lia.
  - split; [|by repeat constructor].
    intros [|[|i]] Hi; [reflexivity | reflexivity | simpl in Hi; lia].
  - reflexivity.
Defined.

(** ** Copies that succeed *)

Definition mapped (m : gmap Z Z) (p n : Z) : Prop :=
  forall a, p <= a < p + n -> is_Some (m !! a).

(** The caller may write [n >= 1] bytes at [data]. *)
Record writable (m : gmap Z Z) (data : user_buffer) (n : Z) : Prop := {
  writable_range : range_ok (ptr data) n;
  writable_user : is_user data = true -> ptr data + n <= KMEM_KBASE;
  writable_mapped : mapped m (ptr data) n;
}.

Lemma movs_out_mapped m addr bs :
  0 <= addr -> addr + Z.of_nat (length bs) <= 2 ^ 32 ->
  mapped m addr (Z.of_nat (length bs)) -> (movs_out m addr bs).1 = 0.
Proof.
  revert m addr. induction bs as [|b bs IH]; intros m addr H0 H1 Hm; [done|]. simpl in *.
  destruct (Hm addr) as [x ->]; [lia|].
  destruct (decide (bs = [])) as [->|Hne]; [done|].
  assert (length bs <> 0%nat) by (by destruct bs).
  rewrite u32_small by lia. apply IH; [lia | lia |].
  intros a Ha. rewrite lookup_insert. case_decide; [done|]. apply Hm. lia.
Qed.

Lemma range_mapped_true m addr n :
  0 <= addr -> addr + Z.of_nat n <= 2 ^ 32 -> mapped m addr (Z.of_nat n) ->
  range_mapped m addr n = true.
Proof.
  revert addr. induction n as [|n IH]; intros addr H0 H1 Hm; [done|]. simpl.
  rewrite bool_decide_eq_true_2 by (apply Hm; lia). simpl.
  destruct (decide (n = 0%nat)) as [->|]; [done|].
  rewrite u32_small by lia. apply IH; [lia | lia |]. intros a Ha. apply Hm. lia.
Qed.

Lemma user_memcpy_from_kernel_ok m data krnl :
  writable m data (Z.of_nat (length krnl)) ->
  exists m', user_memcpy_from_kernel m data krnl = (0, m') /\
    (forall i, (i < length krnl)%nat -> m' !! (ptr data + Z.of_nat i) = krnl !! i) /\
    (forall a, ~ (ptr data <= a < ptr data + Z.of_nat (length krnl)) -> m' !! a = m !! a).
Proof.
  intros [(H0 & H1 & H2) Hu Hm].
  assert (user_memcpy_from_kernel m data krnl = movs_out m (ptr data) krnl) as ->.
  { unfold user_memcpy_from_kernel.
    assert (user_check_access data (Z.of_nat (length krnl)) = 0) as ->.
    { destruct (is_user data) eqn:E; [|by unfold user_check_access; rewrite E].
      rewrite user_check_access_spec by done.
      destruct (Z.leb_spec (ptr data + Z.of_nat (length krnl)) KMEM_KBASE); [done|].
      specialize (Hu eq_refl). lia. }
    simpl. rewrite range_mapped_true by (auto; lia). by destruct (single_mov _). }
  pose proof (movs_out_mapped m (ptr data) krnl H0 H2 Hm) as Hret.
  pose proof (movs_out_write m (ptr data) krnl H0 H2 Hret) as Hw.
  pose proof (fun a => movs_out_frame m (ptr data) krnl a H0 H2) as Hf.
  destruct (movs_out m (ptr data) krnl) as [r m']. simpl in *. subst r. eauto.
Qed.

(** Success or [-EFAULT], nothing else. *)
Lemma user_memcpy_from_kernel_ret m data krnl :
  (user_memcpy_from_kernel m data krnl).1 = 0 \/
  (user_memcpy_from_kernel m data krnl).1 = - EFAULT.
Proof.
  destruct (user_memcpy_from_kernel_cases m data krnl) as [->|[_ ->]]; [by right|].
  apply movs_out_ret.
Qed.

(** ** Reads that succeed *)

(** The user's bytes [bs] can be read at [buf]. *)
Record readable (m : gmap Z Z) (buf : user_buffer) (bs : list Z) : Prop := {
  rd_range : 0 <= ptr buf /\ ptr buf + Z.of_nat (length bs) < 2 ^ 32;
  rd_user : is_user buf = true -> ptr buf + Z.of_nat (length bs) <= KMEM_KBASE;
  rd_bytes : forall i, (i < length bs)%nat -> m !! (ptr buf + Z.of_nat i) = bs !! i;
}.

Lemma movs_in_read m addr bs :
  0 <= addr -> addr + Z.of_nat (length bs) < 2 ^ 32 ->
  (forall i, (i < length bs)%nat -> m !! (addr + Z.of_nat i) = bs !! i) ->
  movs_in m addr (length bs) = (0, bs) /\ range_mapped m addr (length bs) = true.
Proof.
  revert addr. induction bs as [|b bs IH]; intros addr H0 H1 Hb; [done|]. cbn [length movs_in range_mapped] in *.
  pose proof (Hb 0%nat ltac:(lia)) as Hb0. rewrite Z.add_0_r in Hb0. simpl in Hb0. rewrite Hb0.
  destruct (IH (addr + 1)) as [E1 E2]; [lia | lia | |].
  { intros i Hi. transitivity ((b :: bs) !! S i); [|done]. rewrite <- Hb by lia. f_equal. lia. }
  rewrite u32_small, E1, E2 by lia. by rewrite bool_decide_eq_true_2 by eauto.
Qed.

Lemma user_memcpy_to_kernel_read m buf bs :
  readable m buf bs -> bs <> [] -> user_memcpy_to_kernel m buf (Z.of_nat (length bs)) = (0, bs).
Proof.
  intros [[H0 H1] Hu Hb] Hne. assert (length bs <> 0%nat) by (by destruct bs).
  destruct (movs_in_read m (ptr buf) bs H0 H1 Hb) as [E1 E2].
  unfold user_memcpy_to_kernel. rewrite Nat2Z.id, E1, E2.
  assert (user_check_access buf (Z.of_nat (length bs)) = 0) as ->; [|by destruct (single_mov _)].
  unfold user_check_access. destruct (is_user buf); [|done]. specialize (Hu eq_refl). unfold KMEM_KBASE in *.
  simpl. rewrite u32_small by lia. destruct (Z.ltb_spec (ptr buf + Z.of_nat (length bs) - 1) 0xC0000000); [done | lia].
Qed.

Lemma readable_app m buf bs cs :
  readable m buf (bs ++ cs) ->
  readable m buf bs /\ readable m (user_buffer_index buf (Z.of_nat (length bs))) cs.
Proof.
  intros [[H0 H1] Hu Hb]. rewrite length_app in *. split.
  - split; [lia | intros; specialize (Hu ltac:(done)); lia |].
    intros i Hi. rewrite Hb by lia. by apply lookup_app_l.
  - assert (Hp : ptr (user_buffer_index buf (Z.of_nat (length bs))) = ptr buf + Z.of_nat (length bs))
      by (simpl; apply u32_small; lia).
    split; rewrite ?Hp; [lia | intros Hx; specialize (Hu Hx); lia |].
    intros i Hi. rewrite <- Z.add_assoc, <- Nat2Z.inj_add, Hb by lia.
    rewrite lookup_app_r by lia. f_equal. lia.
Qed.

(** * Writes in several steps *)

(** The bytes [bs] at [p], and nothing else, differ. *)
Definition written (m m' : gmap Z Z) (p : Z) (bs : list Z) : Prop :=
  (forall i, (i < length bs)%nat -> m' !! (p + Z.of_nat i) = bs !! i) /\
  (forall a, ~ (p <= a < p + Z.of_nat (length bs)) -> m' !! a = m !! a).

Lemma written_nil m p : written m m p [].
Proof. split; [simpl; lia | done]. Qed.

Lemma written_app m m1 m2 p bs cs :
  written m m1 p bs -> written m1 m2 (p + Z.of_nat (length bs)) cs -> written m m2 p (bs ++ cs).
Proof.
  intros [W1 F1] [W2 F2]. split.
  - intros i Hi. rewrite length_app in Hi. destruct (Nat.lt_ge_cases i (length bs)).
    + rewrite lookup_app_l, F2 by lia. auto.
    + rewrite lookup_app_r by lia. rewrite <- W2 by lia. f_equal. lia.
  - intros a Ha. rewrite length_app in Ha. rewrite F2, F1 by lia. done.
Qed.

Lemma writable_written m m' data bs n :
  writable m data (Z.of_nat (length bs) + n) -> 1 <= n -> written m m' (ptr data) bs ->
  writable m' (user_buffer_index data (Z.of_nat (length bs))) n.
Proof.
  intros [(H0 & H1 & H2) Hu Hm] Hn [W F].
  assert (Hp : ptr (user_buffer_index data (Z.of_nat (length bs))) = ptr data + Z.of_nat (length bs)).
  { simpl. apply u32_small. lia. }
  split; rewrite ?Hp; [split; lia | intros Hx; specialize (Hu Hx); lia |].
  intros a Ha. rewrite F by lia. apply Hm. lia.
Qed.

Lemma written_index m m' data k bs :
  written m m' (ptr (user_buffer_index data (Z.of_nat k))) bs ->
  ((0 < length bs)%nat -> 0 <= ptr data /\ ptr data + Z.of_nat k < 2 ^ 32) ->
  written m m' (ptr data + Z.of_nat k) bs.
Proof.
  intros W H. destruct bs as [|b bs].
  - destruct W as [_ F]. split; [simpl; lia|]. intros a _. apply F. simpl. lia.
  - destruct H as [? ?]; [simpl; lia|]. simpl in W. rewrite u32_small in W by lia. done.
Qed.

(** * Words

    [user_copy_to_kernel] and [user_copy_from_kernel] of an [int]: four bytes,
    least significant first. *)
Definition word_bytes (w : Z) : list Z :=
  [u8 w; u8 (Z.shiftr w 8); u8 (Z.shiftr w 16); u8 (Z.shiftr w 24)].

Definition bytes_word (bs : list Z) : Z :=
  match bs with
  | [b0; b1; b2; b3] => b0 + 256 * b1 + 65536 * b2 + 16777216 * b3
  | _ => 0
  end.

Definition user_copy_to_kernel (m : gmap Z Z) (buf : user_buffer) : Z * Z :=
  let '(ret, bs) := user_memcpy_to_kernel m buf 4 in (ret, bytes_word bs).

Definition user_copy_from_kernel (m : gmap Z Z) (buf : user_buffer) (w : Z) : Z * gmap Z Z :=
  user_memcpy_from_kernel m buf (word_bytes w).

Definition user_copy_to_kernel_indexed (m : gmap Z Z) (buf : user_buffer) (index : Z) : Z * Z :=
  user_copy_to_kernel m {| ptr := u32 (ptr buf + 4 * index); is_user := is_user buf |}.

Definition user_copy_from_kernel_indexed (m : gmap Z Z) (buf : user_buffer) (w idx : Z) : Z * gmap Z Z :=
  user_copy_from_kernel m (user_buffer_index buf (idx * 4)) w.

Lemma length_word_bytes w : length (word_bytes w) = 4%nat.
Proof. done. Qed.

Lemma bytes_word_bytes w : bytes_word (word_bytes w) = u32 w.
Proof.
  unfold bytes_word, word_bytes, u8, u32, uwrap. rewrite !Z.shiftr_div_pow2 by lia.
  change (2 ^ 8) with 256. change (2 ^ 16) with 65536. change (2 ^ 24) with 16777216.
  change (2 ^ 32) with (256 * (256 * (256 * 256))).
  rewrite !Z.rem_mul_r by lia. rewrite !Z.div_div by lia.
  change (256 * 256) with 65536. change (65536 * 256) with 16777216. lia.
Qed.

Lemma user_copy_to_kernel_read m buf w :
  readable m buf (word_bytes w) -> user_copy_to_kernel m buf = (0, u32 w).
Proof.
  intros H. unfold user_copy_to_kernel. change 4 with (Z.of_nat (length (word_bytes w))).
  rewrite (user_memcpy_to_kernel_read m buf (word_bytes w)) by done. by rewrite bytes_word_bytes.
Qed.
