(* ===== verification/CharBuf.v ===== *)
(** The byte ring buffer behind every tty queue (src/kernel/char_buf.c,
    include/protura/char_buf.h): the operations on the storage array, and the
    proof that they implement a bounded FIFO queue of bytes. *)
From stdpp Require Import base numbers list gmap.
From Stdlib Require Import ZArith ZifyBool Lia.
From S2P Require Import Prelude UserMem.
Open Scope Z_scope.

(** [buffer] is the storage object the C pointer refers to. *)
Record char_buf : Type := {
  buffer : list Z;
  len : Z;
  start_pos : Z;
  buf_len : Z;
}.

Definition char_buf_init (nbuffer : list Z) (buf_size : Z) : char_buf :=
  {| buffer := nbuffer; len := buf_size; start_pos := 0; buf_len := 0 |}.

Definition char_buf_clear (buf : char_buf) : char_buf :=
  {| buffer := buffer buf; len := len buf; start_pos := 0; buf_len := 0 |}.

(** [(start_pos + buf_len) % len], computed in [size_t] and stored in an [int]. *)
Definition char_buf_end_pos (buf : char_buf) : outcome Z :=
  if len buf =? 0 then Fault
  else Done (i32 (u32 (start_pos buf + buf_len buf) mod len buf)).

Definition char_buf_write_char (buf : char_buf) (data : Z) : outcome char_buf :=
  end_pos ← char_buf_end_pos buf;
  buffer' ← arr_set (buffer buf) end_pos data;
  Done {| buffer := buffer'; len := len buf; start_pos := start_pos buf;
          buf_len := i32 (buf_len buf + 1) |}.

Definition char_buf_read_char (buf : char_buf) : outcome (Z * char_buf) :=
  if buf_len buf =? 0 then Done (-1, buf)
  else
    data ← arr_get (buffer buf) (start_pos buf);
    let start := i32 (start_pos buf + 1) in
    Done (data, {| buffer := buffer buf; len := len buf;
                   start_pos := if u32 start =? len buf then 0 else start;
                   buf_len := i32 (buf_len buf - 1) |}).

Definition char_buf_write (buf : char_buf) (data : list Z) : outcome char_buf :=
  end_pos ← char_buf_end_pos buf;
  let data_len := Z.of_nat (length data) in
  let room := u32 (len buf - end_pos) in
  if data_len <=? room then
    buffer' ← arr_blit (buffer buf) end_pos data;
    Done {| buffer := buffer'; len := len buf; start_pos := start_pos buf;
            buf_len := i32 (buf_len buf + data_len) |}
  else
    '(buffer1, buf_len1, data1) ←
      (if 0 <? room then
         b ← arr_blit (buffer buf) end_pos (take (Z.to_nat room) data);
         Done (b, i32 (buf_len buf + room), drop (Z.to_nat room) data)
       else Done (buffer buf, buf_len buf, data));
    buffer2 ← arr_blit buffer1 0 data1;
    Done {| buffer := buffer2; len := len buf; start_pos := start_pos buf;
            buf_len := i32 (buf_len1 + Z.of_nat (length data1)) |}.

Definition char_buf_read_user (buf : char_buf) (m : gmap Z Z) (data : user_buffer)
    (data_len : Z) : outcome (Z * char_buf * gmap Z Z) :=
  if buf_len buf =? 0 then Done (0, buf, m)
  else
    let data_len := if u32 (buf_len buf) <? data_len then u32 (buf_len buf) else data_len in
    let orig_size := data_len in
    let room := u32 (len buf - start_pos buf) in
    if data_len <=? room then
      src ← arr_slice (buffer buf) (start_pos buf) data_len;
      match user_memcpy_from_kernel m data src with
      | (ret, m) =>
          if negb (ret =? 0) then Done (ret, buf, m)
          else
            let start := i32 (start_pos buf + data_len) in
            Done (i32 orig_size,
                  {| buffer := buffer buf; len := len buf;
                     start_pos := if u32 start =? len buf then 0 else start;
                     buf_len := i32 (buf_len buf - data_len) |}, m)
      end
    else
      '(early, data, data_len, buf1, m) ←
        (if 0 <? room then
           src ← arr_slice (buffer buf) (start_pos buf) room;
           match user_memcpy_from_kernel m data src with
           | (ret, m) =>
               if negb (ret =? 0) then Done (Some ret, data, data_len, buf, m)
               else Done (None, user_buffer_index data room, u32 (data_len - room),
                          {| buffer := buffer buf; len := len buf; start_pos := start_pos buf;
                             buf_len := i32 (buf_len buf - room) |}, m)
           end
         else Done (None, data, data_len, buf, m));
      match early with
      | Some ret => Done (ret, buf1, m)
      | None =>
          src ← arr_slice (buffer buf1) 0 data_len;
          match user_memcpy_from_kernel m data src with
          | (ret, m) =>
              if negb (ret =? 0) then Done (ret, buf1, m)
              else Done (i32 orig_size,
                         {| buffer := buffer buf1; len := len buf1; start_pos := i32 data_len;
                            buf_len := i32 (buf_len buf1 - data_len) |}, m)
          end
      end.

Definition char_buf_read (buf : char_buf) (m : gmap Z Z) (data data_len : Z)
  : outcome (Z * char_buf * gmap Z Z) :=
  char_buf_read_user buf m (make_kernel_buffer data) data_len.

Definition char_buf_has_data (buf : char_buf) : bool := negb (buf_len buf =? 0).

(** * The queue a buffer stands for *)

Record wf (buf : char_buf) : Prop := {
  wf_len : 0 < len buf < 2 ^ 30;
  wf_storage : Z.of_nat (length (buffer buf)) = len buf;
  wf_start : 0 <= start_pos buf < len buf;
  wf_count : 0 <= buf_len buf <= len buf;
}.

(** The bytes waiting in the buffer, oldest first. *)
Definition contents (buf : char_buf) : list Z :=
  take (Z.to_nat (buf_len buf))
    (drop (Z.to_nat (start_pos buf)) (buffer buf ++ buffer buf)).

Lemma contents_length buf : wf buf -> length (contents buf) = Z.to_nat (buf_len buf).
Proof.
  intros [? ? ? ?]. unfold contents. rewrite length_take, length_drop, length_app. lia.
Qed.

(** Where the i-th waiting byte is stored. *)
Lemma contents_lookup buf i :
  wf buf -> (i < Z.to_nat (buf_len buf))%nat ->
  contents buf !! i =
  buffer buf !! (if decide (Z.to_nat (start_pos buf) + i < length (buffer buf))%nat
                 then Z.to_nat (start_pos buf) + i
                 else Z.to_nat (start_pos buf) + i - length (buffer buf))%nat.
Proof.
  intros [? ? ? ?] Hi. unfold contents. rewrite lookup_take_lt, lookup_drop by lia.
  case_decide; [by rewrite lookup_app_l by lia | by rewrite lookup_app_r by lia].
Qed.

Lemma end_pos_wf buf :
  wf buf ->
  char_buf_end_pos buf =
  Done (if start_pos buf + buf_len buf <? len buf then start_pos buf + buf_len buf
        else start_pos buf + buf_len buf - len buf).
Proof.
  intros [? ? ? ?]. unfold char_buf_end_pos.
  destruct (Z.eqb_spec (len buf) 0); [lia|]. f_equal.
  rewrite u32_small by lia.
  destruct (Z.ltb_spec (start_pos buf + buf_len buf) (len buf)).
  - rewrite Z.mod_small by lia. apply i32_small. lia.
  - rewrite <- (Z.mod_unique_pos _ (len buf) 1 (start_pos buf + buf_len buf - len buf)) by lia.
    apply i32_small. lia.
Qed.

(** A buffer whose storage was overwritten by [data] from the end position on
    (wrapping around) has [data] appended to its contents. *)
Lemma contents_app buf buf' data :
  wf buf -> wf buf' ->
  len buf' = len buf -> start_pos buf' = start_pos buf ->
  buf_len buf' = buf_len buf + Z.of_nat (length data) ->
  (forall k, (k < length (buffer buf))%nat ->
     buffer buf' !! k =
     let off := (Z.of_nat k - (start_pos buf + buf_len buf)) mod len buf in
     if decide (off < Z.of_nat (length data)) then data !! Z.to_nat off else buffer buf !! k) ->
  contents buf' = contents buf ++ data.
Proof.
  intros W W' Hl Hs Hb Hk. pose proof W as [? ? ? ?]. pose proof W' as [? ? ? ?].
  apply list_eq. intros i.
  destruct (decide (i < Z.to_nat (buf_len buf'))%nat) as [Hi|Hi].
  2:{ rewrite !lookup_ge_None_2; auto; rewrite ?length_app, contents_length by auto; lia. }
  rewrite contents_lookup by auto. rewrite Hs.
  rewrite Hk by (case_decide; lia). cbv zeta.
  rewrite mod_cases by (case_decide; lia).
  replace (length (buffer buf')) with (length (buffer buf)) by lia.
  destruct (decide (i < Z.to_nat (buf_len buf))%nat) as [Hold|Hnew].
  - rewrite lookup_app_l, contents_lookup by (rewrite ?contents_length; auto).
    rewrite decide_False; [done|].
    destruct (decide (Z.to_nat (start_pos buf) + i < _)%nat); repeat case_match; lia.
  - rewrite lookup_app_r, contents_length by (rewrite ?contents_length; auto; lia).
    rewrite decide_True by
      (destruct (decide (Z.to_nat (start_pos buf) + i < _)%nat); repeat case_match; lia).
    f_equal. destruct (decide (Z.to_nat (start_pos buf) + i < _)%nat); repeat case_match; lia.
Qed.

(** as long as the free space is respected, a write is an enqueue: it
    succeeds, keeps the buffer well formed, and appends exactly the bytes written,
    whether or not the write wraps around the end of the storage. *)
Theorem char_buf_write_fifo buf data :
  wf buf -> buf_len buf + Z.of_nat (length data) <= len buf ->
  exists buf', char_buf_write buf data = Done buf' /\ wf buf' /\
    len buf' = len buf /\ contents buf' = contents buf ++ data.
Proof.
  intros W Hroom. pose proof W as [Hl Hst Hs Hc].
  unfold char_buf_write. rewrite end_pos_wf by auto. simpl.
  set (e := if start_pos buf + buf_len buf <? len buf then _ else _).
  assert (He : 0 <= e < len buf) by (unfold e; case_match; lia).
  rewrite (u32_small (len buf - e)) by lia.
  destruct (Z.leb_spec (Z.of_nat (length data)) (len buf - e)).
  - rewrite arr_blit_done by lia. simpl.
    eexists. split; [done|].
    match goal with |- wf ?b /\ _ => assert (W' : wf b) end.
    { rewrite i32_small by lia. split; simpl; lens. }
    split_and!; [done | done |]. apply contents_app; auto; simpl; [apply i32_small; lia|].
    intros k Hk. rewrite lookup_splice by lia. rewrite mod_cases by lia.
    unfold e in *. repeat case_decide; repeat case_match; try lia; f_equal; lia.
  - destruct (Z.ltb_spec 0 (len buf - e)); [|lia].
    rewrite arr_blit_done by lens. simpl.
    rewrite arr_blit_done by lens. simpl.
    eexists. split; [done|].
    match goal with |- wf ?b /\ _ => assert (W' : wf b) end.
    { rewrite !i32_small by (rewrite ?i32_small; lens). split; simpl; lens. }
    split_and!; [done | done |].
    apply contents_app; auto; simpl; [rewrite !i32_small by (rewrite ?i32_small; lens); lens|].
    intros k Hk.
    rewrite !lookup_splice by lens.
    rewrite length_drop, length_take, mod_cases by lia.
    unfold e in *.
    repeat case_decide; repeat case_match; try lia;
      rewrite ?lookup_drop, ?lookup_take_lt by lia; f_equal; lia.
Qed.

Lemma char_buf_write_fifo_witness :
  exists buf', char_buf_write {| buffer := [1; 2; 3; 4]; len := 4; start_pos := 3; buf_len := 2 |}
                 [8; 9] = Done buf' /\ contents buf' = [4; 1; 8; 9].
Proof.
  destruct (char_buf_write_fifo
    {| buffer := [1; 2; 3; 4]; len := 4; start_pos := 3; buf_len := 2 |} [8; 9])
    as (buf' & H & _ & _ & Hc).
  - split; simpl; lia.
  - simpl; lia.
  - exists buf'. rewrite Hc. by split.
Defined.

(** Writing one character is writing a one-byte block. *)
Lemma char_buf_write_char_block buf c :
  wf buf -> char_buf_write_char buf c = char_buf_write buf [c].
Proof.
  intros W. pose proof W as [Hl Hst Hs Hc].
  unfold char_buf_write_char, char_buf_write. rewrite end_pos_wf by auto. simpl.
  set (e := if start_pos buf + buf_len buf <? len buf then _ else _).
  assert (He : 0 <= e < len buf) by (unfold e; case_match; lia).
  rewrite (u32_small (len buf - e)) by lia.
  change (Z.of_nat 1) with 1. destruct (Z.leb_spec 1 (len buf - e)); [|lia].
  rewrite arr_blit_done, arr_set_total by (simpl; lia). simpl. do 2 f_equal.
  by rewrite <- splice_insert, splice_nil by (simpl; lia).
Qed.

(** nothing checks for free space.  One more byte on a full buffer succeeds
    and leaves a count above the capacity, with the oldest byte overwritten. *)
Theorem char_buf_write_overflow buf c :
  wf buf -> buf_len buf = len buf ->
  exists buf', char_buf_write_char buf c = Done buf' /\ buf_len buf' = len buf + 1 /\
    ~ wf buf' /\ arr_get (buffer buf') (start_pos buf') = Done c.
Proof.
  intros W Hfull. pose proof W as [Hl Hst Hs Hc].
  unfold char_buf_write_char. rewrite end_pos_wf by auto. simpl.
  destruct (Z.ltb_spec (start_pos buf + buf_len buf) (len buf)); [lia|].
  rewrite arr_set_total by lia. simpl. eexists. split_and!; [done | | |]; simpl.
  - rewrite i32_small; lia.
  - intros [_ _ _ Hc']. simpl in Hc'. rewrite i32_small in Hc'; lia.
  - apply arr_get_done. split; [lia|].
    replace (start_pos buf + buf_len buf - len buf) with (start_pos buf) by lia.
    apply list_lookup_insert_eq. lia.
Qed.

Lemma char_buf_write_overflow_witness :
  exists buf', char_buf_write_char {| buffer := [1; 2]; len := 2; start_pos := 1; buf_len := 2 |} 7
                 = Done buf' /\ buf_len buf' = 3.
Proof.
  destruct (char_buf_write_overflow
    {| buffer := [1; 2]; len := 2; start_pos := 1; buf_len := 2 |} 7) as (buf' & H & Hn & _).
  - split; simpl; lia.
  - reflexivity.
  - by exists buf'.
Defined.

Lemma char_buf_read_char_dequeue buf :
  wf buf -> 0 < buf_len buf ->
  exists c buf', char_buf_read_char buf = Done (c, buf') /\ wf buf' /\
    contents buf = c :: contents buf'.
Proof.
  intros W H0. pose proof W as [Hl Hst Hs Hc]. unfold char_buf_read_char.
  destruct (Z.eqb_spec (buf_len buf) 0); [lia|].
  destruct (arr_get_total (buffer buf) (start_pos buf)) as [c Hg]; [lia|].
  rewrite Hg. simpl. rewrite !(i32_small (start_pos buf + 1)) by lia.
  rewrite (u32_small (start_pos buf + 1)), (i32_small (buf_len buf - 1)) by lia.
  apply arr_get_done in Hg as [_ Hg].
  eexists _, _. split; [done|].
  match goal with |- wf ?b /\ _ => set (buf' := b); assert (W' : wf b) end.
  { split; simpl; auto; destruct (Z.eqb_spec (start_pos buf + 1) (len buf)); lia. }
  split; [done|]. apply list_eq. intros [|i]; simpl.
  - rewrite contents_lookup by (auto; lia). rewrite decide_True, Nat.add_0_r by lia. done.
  - destruct (decide (i < Z.to_nat (buf_len buf'))%nat) as [Hi|Hi]; simpl in Hi.
    2:{ rewrite !lookup_ge_None_2; auto; rewrite contents_length by auto; simpl; lia. }
    rewrite !contents_lookup by (auto; simpl; lia). simpl. f_equal.
    destruct (Z.eqb_spec (start_pos buf + 1) (len buf)); repeat case_decide; lia.
Qed.

(** Dropping [n] waiting bytes: the new start is [n] further, modulo [len]. *)
Lemma contents_drop buf buf' n :
  wf buf -> wf buf' -> buffer buf' = buffer buf -> len buf' = len buf ->
  0 <= n <= buf_len buf -> buf_len buf' = buf_len buf - n ->
  (start_pos buf' = start_pos buf + n \/ start_pos buf' = start_pos buf + n - len buf) ->
  contents buf' = drop (Z.to_nat n) (contents buf).
Proof.
  intros W W' Hbuf Hl Hn Hb Hs. pose proof W as [? ? ? ?]. pose proof W' as [? ? ? ?].
  apply list_eq. intros i. rewrite lookup_drop.
  destruct (decide (i < Z.to_nat (buf_len buf'))%nat) as [Hi|Hi].
  - rewrite !contents_lookup by (auto; lia). rewrite Hbuf. f_equal. repeat case_decide; lia.
  - rewrite !lookup_ge_None_2; auto; rewrite contents_length by auto; lia.
Qed.

(** The storage slices handed to the copies are the waiting bytes in order. *)
Lemma slice_contents_head buf n :
  wf buf -> 0 <= n -> n <= buf_len buf -> start_pos buf + n <= len buf ->
  arr_slice (buffer buf) (start_pos buf) n = Done (take (Z.to_nat n) (contents buf)).
Proof.
  intros [? ? ? ?] ? ? ?. rewrite arr_slice_done by lia. f_equal. unfold contents.
  rewrite take_take, Nat.min_l by lia. rewrite drop_app_le by lia.
  rewrite take_app_le by lens. done.
Qed.

Lemma slice_contents_tail buf n :
  wf buf -> 0 <= n -> len buf - start_pos buf + n <= buf_len buf ->
  arr_slice (buffer buf) 0 n =
  Done (take (Z.to_nat n) (drop (Z.to_nat (len buf - start_pos buf)) (contents buf))).
Proof.
  intros [? ? ? ?] ? ?. rewrite arr_slice_done by lia. f_equal. unfold contents.
  apply list_eq. intros i. destruct (decide (i < Z.to_nat n)%nat).
  - rewrite !lookup_take_lt by lia. rewrite lookup_drop, lookup_drop, lookup_take_lt, lookup_drop by lia.
    rewrite lookup_app_r by lia. f_equal. lia.
  - rewrite !lookup_ge_None_2; auto; lens.
Qed.

(** reading into writable memory is a dequeue: the call returns the number of
    bytes asked for or available, those bytes arrive in order, nothing else in
    memory changes, and they are gone from the queue, wrapped or not. *)
Theorem char_buf_read_user_fifo buf m data data_len :
  wf buf -> 0 < buf_len buf -> 0 < data_len < 2 ^ 32 ->
  let n := Z.min data_len (buf_len buf) in
  writable m data n ->
  exists buf' m', char_buf_read_user buf m data data_len = Done (n, buf', m') /\
    wf buf' /\ contents buf' = drop (Z.to_nat n) (contents buf) /\
    (forall i, (i < Z.to_nat n)%nat -> m' !! (ptr data + Z.of_nat i) = contents buf !! i) /\
    (forall a, ~ (ptr data <= a < ptr data + n) -> m' !! a = m !! a).
Proof.
  intros W Hb Hd n Hw. pose proof W as [Hl Hst Hs Hc].
  pose proof (contents_length buf W) as Hcl.
  unfold char_buf_read_user. destruct (Z.eqb_spec (buf_len buf) 0); [lia|].
  rewrite (u32_small (buf_len buf)) by lia.
  replace (if buf_len buf <? data_len then buf_len buf else data_len) with n by (case_match; lia).
  rewrite (u32_small (len buf - start_pos buf)) by lia. cbv zeta.
  destruct (Z.leb_spec n (len buf - start_pos buf)).
  - rewrite slice_contents_head by (auto; lia). simpl.
    destruct (user_memcpy_from_kernel_ok m data (take (Z.to_nat n) (contents buf)))
      as (m' & Hm & Hin & Hout).
    { replace (Z.of_nat (length (take (Z.to_nat n) (contents buf)))) with n by lens. done. }
    rewrite Hm. simpl. rewrite !i32_small, u32_small by lia.
    eexists _, m'. split; [done|].
    match goal with |- wf ?b /\ _ => set (buf' := b); assert (W' : wf b) end.
    { split; simpl; auto; try case_match; lia. }
    split_and!; [done | | |].
    + apply contents_drop; simpl; auto; try lia. case_match; lia.
    + intros i Hi. rewrite Hin by lens. by rewrite lookup_take_lt by lia.
    + intros a Ha. apply Hout. lens.
  - destruct (Z.ltb_spec 0 (len buf - start_pos buf)); [|lia].
    set (room := len buf - start_pos buf) in *.
    assert (Hroom : room = len buf - start_pos buf) by done.
    rewrite slice_contents_head by (auto; lia). simpl.
    destruct Hw as [(Hp & _ & Hq) Hku Hma].
    destruct (user_memcpy_from_kernel_ok m data (take (Z.to_nat room) (contents buf)))
      as (m1 & Hm1 & Hin1 & Hout1).
    { replace (Z.of_nat (length (take (Z.to_nat room) (contents buf)))) with room by lens.
      split; [split; lia | intros; specialize (Hku ltac:(done)); lia | intros a Ha; apply Hma; lia]. }
    rewrite Hm1. simpl. rewrite (u32_small (n - room)) by lia.
    rewrite slice_contents_tail by (auto; lia). fold room. simpl.
    assert (Hidx : ptr (user_buffer_index data room) = ptr data + room).
    { simpl. apply u32_small. lia. }
    destruct (user_memcpy_from_kernel_ok m1 (user_buffer_index data room)
      (take (Z.to_nat (n - room)) (drop (Z.to_nat room) (contents buf)))) as (m2 & Hm2 & Hin2 & Hout2).
    { replace (Z.of_nat (length (take (Z.to_nat (n - room)) (drop (Z.to_nat room) (contents buf)))))
        with (n - room) by lens. split; rewrite ?Hidx.
      - split; lia.
      - intros Hu. simpl in Hu. specialize (Hku Hu). lia.
      - intros a Ha. rewrite Hout1 by lens. apply Hma. lia. }
    rewrite Hm2. simpl. rewrite Hidx in *. unwrap.
    eexists _, m2. split; [done|].
    match goal with |- wf ?b /\ _ => set (buf' := b); assert (W' : wf b) end.
    { split; simpl; auto; lia. }
    split_and!; [done | | |].
    + apply contents_drop; simpl; auto; lia.
    + intros i Hi. destruct (decide (i < Z.to_nat room)%nat).
      * rewrite Hout2 by lens. rewrite Hin1 by lens. by rewrite lookup_take_lt by lia.
      * replace (ptr data + Z.of_nat i) with (ptr data + room + Z.of_nat (i - Z.to_nat room)) by lia.
        rewrite Hin2 by lens. rewrite lookup_take_lt, lookup_drop by lia. f_equal. lia.
    + intros a Ha. rewrite Hout2 by lens. apply Hout1. lens.
Qed.

Lemma char_buf_read_user_fifo_witness :
  exists buf' m',
    char_buf_read_user {| buffer := [1; 2; 3; 4]; len := 4; start_pos := 3; buf_len := 3 |}
      example_mem (make_user_buffer 100) 2 = Done (2, buf', m') /\ contents buf' = [2].
Proof.
  destruct (char_buf_read_user_fifo
    {| buffer := [1; 2; 3; 4]; len := 4; start_pos := 3; buf_len := 3 |}
    example_mem (make_user_buffer 100) 2) as (buf' & m' & H & _ & Hc & _).
  - split; simpl; lia.
  - simpl; lia.
  - lia.
  - split; simpl.
    + unfold range_ok; lia.
    + unfold KMEM_KBASE; lia.
    + intros a Ha. assert (a = 100 \/ a = 101) as [->| ->] by lia; by eexists.
  - exists buf', m'. split; [exact H | by rewrite Hc].
Defined.

(** a failing read.  When user memory faults, either the queue is untouched,
    or the fault hit the second half of a wrapped read: the count was already
    lowered but the start not moved, so the newest bytes are lost, not the ones
    that were copied out. *)
Theorem char_buf_read_user_fault buf m data data_len ret buf' m' :
  wf buf -> 0 < data_len < 2 ^ 32 ->
  char_buf_read_user buf m data data_len = Done (ret, buf', m') -> ret < 0 ->
  wf buf' /\
  (buf' = buf \/
   (len buf - start_pos buf < Z.min data_len (buf_len buf) /\
    contents buf' = take (Z.to_nat (buf_len buf - (len buf - start_pos buf))) (contents buf))).
Proof.
  intros W Hd Hr Hneg. pose proof W as [Hl Hst Hs Hc]. revert Hr.
  unfold char_buf_read_user. destruct (Z.eqb_spec (buf_len buf) 0) as [Hz|Hz].
  { intros ?; simplify_eq. lia. }
  rewrite (u32_small (buf_len buf)) by lia.
  replace (if buf_len buf <? data_len then buf_len buf else data_len)
    with (Z.min data_len (buf_len buf)) by (case_match; lia).
  rewrite (u32_small (len buf - start_pos buf)) by lia. cbv zeta.
  set (n := Z.min data_len (buf_len buf)).
  assert (Hi : i32 n = n) by (apply i32_small; lia).
  destruct (Z.leb_spec n (len buf - start_pos buf)).
  { rewrite slice_contents_head by (auto; lia). simpl.
    destruct (user_memcpy_from_kernel _ _ _) as [r m1].
    destruct (negb (r =? 0)); intros ?; simplify_eq; [auto | lia]. }
  destruct (Z.ltb_spec 0 (len buf - start_pos buf)); [|lia].
  rewrite slice_contents_head by (auto; lia). simpl.
  destruct (user_memcpy_from_kernel _ _ _) as [r m1].
  destruct (negb (r =? 0)); simpl; [intros ?; simplify_eq; auto|].
  rewrite (u32_small (n - _)) by lia.
  rewrite slice_contents_tail by (auto; lia). simpl.
  destruct (user_memcpy_from_kernel _ _ _) as [r2 m2].
  destruct (negb (r2 =? 0)); intros ?; simplify_eq; [|lia].
  rewrite i32_small by lia. split; [split; simpl; auto; lia|].
  right. split; [lia|]. unfold contents at 1. simpl. unfold contents.
  by rewrite take_take, Nat.min_l by lia.
Qed.

Lemma char_buf_read_user_fault_witness :
  exists buf' m',
    char_buf_read_user {| buffer := [1; 2; 3; 4]; len := 4; start_pos := 3; buf_len := 3 |}
      (<[100 := 0]> ∅) (make_user_buffer 100) 3 = Done (- EFAULT, buf', m') /\
    wf buf' /\ contents buf' = [4; 1].
Proof.
  set (buf := {| buffer := [1; 2; 3; 4]; len := 4; start_pos := 3; buf_len := 3 |}).
  eexists {| buffer := [1; 2; 3; 4]; len := 4; start_pos := 3; buf_len := 2 |}, _.
  assert (H : char_buf_read_user buf (<[100 := 0]> ∅) (make_user_buffer 100) 3 =
    Done (- EFAULT, {| buffer := [1; 2; 3; 4]; len := 4; start_pos := 3; buf_len := 2 |},
          <[100 := 4]> ∅)) by (vm_compute; reflexivity).
  split; [exact H|].
  destruct (char_buf_read_user_fault buf (<[100 := 0]> ∅) (make_user_buffer 100) 3 _ _ _
    ltac:(split; simpl; lia) ltac:(lia) H ltac:(unfold EFAULT; lia)) as [Hw _].
  split; [exact Hw | reflexivity].
Defined.
