(* ===== verification/Tty.v ===== *)
(** Terminals (src/drivers/char/tty.c, tty_termios.c, include/protura/drivers/tty.h):
    what is typed goes through [input_buf] and the line discipline to [output_buf],
    where processes read it; what processes write goes to the driver.  A character is
    a [char], in [-128 .. 127]; the buffers hold bytes.  What a terminal does to
    others (characters for the driver, signals, wake-ups) is recorded in [trace]. *)
From stdpp Require Import base numbers list gmap.
From Stdlib Require Import ZArith ZifyBool Lia.
From S2P Require Import Prelude UserMem CharBuf.
Open Scope Z_scope.

Definition ENOTTY : Z := 25.
Definition ERESTARTSYS : Z := 512.
Definition SIGINT : Z := 2.
Definition SIGTSTP : Z := 20.
Definition SIGWINCH : Z := 28.

Definition VINTR : Z := 0.
Definition VERASE : Z := 2.
Definition VEOF : Z := 4.
Definition VSUSP : Z := 10.

Definition ISTRIP : Z := 0x20.
Definition INLCR : Z := 0x40.
Definition IGNCR : Z := 0x80.
Definition ICRNL : Z := 0x100.
Definition IUCLC : Z := 0x200.
Definition OLCUC : Z := 0x2.
Definition ONLCR : Z := 0x4.
Definition OCRNL : Z := 0x8.
Definition ONLRET : Z := 0x20.
Definition ISIG : Z := 0x1.
Definition ICANON : Z := 0x2.
Definition ECHO : Z := 0x8.
Definition ECHOE : Z := 0x10.
Definition NOFLSH : Z := 0x80.
Definition ECHOCTL : Z := 0x200.

Record termios : Type := {
  c_iflag : Z;
  c_oflag : Z;
  c_cflag : Z;
  c_lflag : Z;
  c_line : Z;
  c_cc : list Z;
}.

Record winsize : Type := {
  ws_row : Z;
  ws_col : Z;
  ws_xpixel : Z;
  ws_ypixel : Z;
}.

Inductive effect : Type :=
| Write (c : Z)               (* [driver->ops->write] of one character *)
| Wake                        (* [in_wait_queue] *)
| Schedule                    (* [work_schedule] of the pump *)
| SendSignal (pgrp sig : Z)
| KeyboardState (state : Z)
| SwitchVt (console : Z).

Record tty : Type := {
  device_no : Z;
  session_id : Z;
  fg_pgrp : Z;
  tty_winsize : winsize;
  tty_termios : termios;
  input_buf : char_buf;
  output_buf : char_buf;
  ret0 : bool;
  line_buf : list Z;
  line_buf_pos : Z;
  line_buf_size : Z;
  trace : list effect;
}.

Definition emit (e : effect) (t : tty) : tty :=
  {| device_no := device_no t; session_id := session_id t; fg_pgrp := fg_pgrp t; tty_winsize := tty_winsize t;
     tty_termios := tty_termios t; input_buf := input_buf t; output_buf := output_buf t; ret0 := ret0 t;
     line_buf := line_buf t; line_buf_pos := line_buf_pos t; line_buf_size := line_buf_size t; trace := trace t ++ [e] |}.
Definition set_input (b : char_buf) (t : tty) : tty :=
  {| device_no := device_no t; session_id := session_id t; fg_pgrp := fg_pgrp t; tty_winsize := tty_winsize t;
     tty_termios := tty_termios t; input_buf := b; output_buf := output_buf t; ret0 := ret0 t;
     line_buf := line_buf t; line_buf_pos := line_buf_pos t; line_buf_size := line_buf_size t; trace := trace t |}.
Definition set_output (b : char_buf) (t : tty) : tty :=
  {| device_no := device_no t; session_id := session_id t; fg_pgrp := fg_pgrp t; tty_winsize := tty_winsize t;
     tty_termios := tty_termios t; input_buf := input_buf t; output_buf := b; ret0 := ret0 t;
     line_buf := line_buf t; line_buf_pos := line_buf_pos t; line_buf_size := line_buf_size t; trace := trace t |}.
Definition set_ret0 (r : bool) (t : tty) : tty :=
  {| device_no := device_no t; session_id := session_id t; fg_pgrp := fg_pgrp t; tty_winsize := tty_winsize t;
     tty_termios := tty_termios t; input_buf := input_buf t; output_buf := output_buf t; ret0 := r;
     line_buf := line_buf t; line_buf_pos := line_buf_pos t; line_buf_size := line_buf_size t; trace := trace t |}.
Definition set_line (l : list Z) (pos : Z) (t : tty) : tty :=
  {| device_no := device_no t; session_id := session_id t; fg_pgrp := fg_pgrp t; tty_winsize := tty_winsize t;
     tty_termios := tty_termios t; input_buf := input_buf t; output_buf := output_buf t; ret0 := ret0 t;
     line_buf := l; line_buf_pos := pos; line_buf_size := line_buf_size t; trace := trace t |}.
Definition set_owner (session pgrp : Z) (t : tty) : tty :=
  {| device_no := device_no t; session_id := session; fg_pgrp := pgrp; tty_winsize := tty_winsize t;
     tty_termios := tty_termios t; input_buf := input_buf t; output_buf := output_buf t; ret0 := ret0 t;
     line_buf := line_buf t; line_buf_pos := line_buf_pos t; line_buf_size := line_buf_size t; trace := trace t |}.
Definition set_termios (tm : termios) (t : tty) : tty :=
  {| device_no := device_no t; session_id := session_id t; fg_pgrp := fg_pgrp t; tty_winsize := tty_winsize t;
     tty_termios := tm; input_buf := input_buf t; output_buf := output_buf t; ret0 := ret0 t;
     line_buf := line_buf t; line_buf_pos := line_buf_pos t; line_buf_size := line_buf_size t; trace := trace t |}.
Definition set_winsize (w : winsize) (t : tty) : tty :=
  {| device_no := device_no t; session_id := session_id t; fg_pgrp := fg_pgrp t; tty_winsize := w;
     tty_termios := tty_termios t; input_buf := input_buf t; output_buf := output_buf t; ret0 := ret0 t;
     line_buf := line_buf t; line_buf_pos := line_buf_pos t; line_buf_size := line_buf_size t; trace := trace t |}.

(** * The line discipline *)

Definition TERMIOS_OFLAG (tm : termios) (flag : Z) : bool := negb (Z.land (c_oflag tm) flag =? 0).
Definition TERMIOS_LFLAG (tm : termios) (flag : Z) : bool := negb (Z.land (c_lflag tm) flag =? 0).
Definition TERMIOS_IFLAG (tm : termios) (flag : Z) : bool := negb (Z.land (c_iflag tm) flag =? 0).

(** [ICRNL], [OPOST | ONLCR], [B38400] and [ISIG | ICANON | ECHO | ECHOE | ECHOCTL]. *)
Definition default_termios : termios :=
  {| c_iflag := 0x100; c_oflag := 0x5; c_cflag := 0xF; c_lflag := 0x21B; c_line := 0;
     c_cc := [0x03; 0; 0x7F; 0; 0x04; 0; 0; 0; 0; 0; 0x1A; 0; 0; 0; 0; 0; 0; 0; 0] |}.

(** [c == termios->c_cc[k]] *)
Definition is_cc (tm : termios) (k c : Z) : bool :=
  match c_cc tm !! Z.to_nat k with Some x => c =? x | None => false end.

Definition tolower (c : Z) : Z := if (65 <=? c) && (c <=? 90) then Z.lor c 0x20 else c.
Definition toupper (c : Z) : Z := if (97 <=? c) && (c <=? 122) then Z.land c (Z.lnot 0x20) else c.

Definition is_control (ch : Z) : bool := ((1 <=? ch) && (ch <=? 0x1F)) || (ch =? 127).

Definition send_input_char (t : tty) (c : Z) : outcome tty :=
  b ← char_buf_write (output_buf t) [u8 c];
  Done (emit Wake (set_output b t)).

Definition send_output_char (t : tty) (c : Z) : tty := emit (Write c) t.

Definition output_post_process (t : tty) (tm : termios) (c : Z) : tty :=
  if (c =? 10) && TERMIOS_OFLAG tm ONLCR then send_output_char (send_output_char t 13) 10
  else if (c =? 10) && TERMIOS_OFLAG tm ONLRET then send_output_char t 13
  else if (c =? 13) && TERMIOS_OFLAG tm OCRNL then send_output_char t 10
  else send_output_char t (if TERMIOS_OFLAG tm OLCUC then toupper c else c).

Fixpoint send_input_chars (t : tty) (cs : list Z) : outcome tty :=
  match cs with
  | [] => Done t
  | c :: cs' => t ← send_input_char t c; send_input_chars t cs'
  end.

Definition tty_line_buf_drain (t : tty) : outcome tty :=
  cs ← arr_slice (line_buf t) 0 (line_buf_pos t);
  t ← send_input_chars t cs;
  Done (set_line (line_buf t) 0 t).

Definition tty_line_buf_append (t : tty) (c : Z) : outcome tty :=
  if line_buf_pos t <? line_buf_size t then
    l ← arr_set (line_buf t) (line_buf_pos t) c;
    Done (set_line l (line_buf_pos t + 1) t)
  else Done t.

Definition tty_line_buf_remove (t : tty) : outcome (option Z * tty) :=
  if 0 <? line_buf_pos t then
    removed ← arr_get (line_buf t) (line_buf_pos t - 1);
    Done (Some removed, set_line (line_buf t) (line_buf_pos t - 1) t)
  else Done (None, t).

Definition get_char_render_length (tm : termios) (ch : Z) : nat :=
  if negb (TERMIOS_LFLAG tm ECHO) || negb (TERMIOS_LFLAG tm ECHOCTL) then 1 else if is_control ch then 2 else 1.

Fixpoint rubout (t : tty) (tm : termios) (n : nat) : tty :=
  match n with
  | O => t
  | S n' =>
      rubout (output_post_process (output_post_process (output_post_process t tm 8) tm 32) tm 8) tm n'
  end.

Definition icanon_char (t : tty) (tm : termios) (c : Z) : outcome tty :=
  if is_cc tm VEOF c then Done (emit Wake (set_ret0 true t))
  else if is_cc tm VERASE c then
    '(prev, t) ← tty_line_buf_remove t;
    match prev with
    | Some prev =>
        if TERMIOS_LFLAG tm ECHO && TERMIOS_LFLAG tm ECHOE then Done (rubout t tm (get_char_render_length tm prev))
        else Done t
    | None => Done t
    end
  else
    t ← tty_line_buf_append t c;
    if c =? 10 then tty_line_buf_drain t else Done t.

Definition echo_char (t : tty) (tm : termios) (c : Z) : tty :=
  if TERMIOS_LFLAG tm ECHOE && TERMIOS_LFLAG tm ICANON && is_cc tm VERASE c then t
  else if TERMIOS_LFLAG tm ECHOCTL && is_control c && negb (c =? 9) && negb (c =? 10) then
    output_post_process (output_post_process t tm 94) tm (Z.lxor c 0x40)
  else output_post_process t tm c.

Definition tty_flush_input (t : tty) : tty := set_input (char_buf_clear (input_buf t)) t.
Definition tty_flush_output (t : tty) : tty := set_output (char_buf_clear (output_buf t)) t.

Definition tty_pgrp_signal (t : tty) (tm : termios) (sig : Z) : tty :=
  if fg_pgrp t =? 0 then t
  else
    let t := emit (SendSignal (- fg_pgrp t) sig) t in
    if TERMIOS_LFLAG tm NOFLSH then t else tty_flush_output (tty_flush_input t).

Definition isig_handle (t : tty) (tm : termios) (c : Z) : option tty :=
  if is_cc tm VINTR c then Some (tty_pgrp_signal t tm SIGINT)
  else if is_cc tm VSUSP c then Some (tty_pgrp_signal t tm SIGTSTP)
  else None.

(** [None] when the character is skipped. *)
Definition input_preprocess (tm : termios) (c : Z) : option Z :=
  if (c =? 13) && TERMIOS_IFLAG tm IGNCR then None
  else
    let c := if (c =? 13) && TERMIOS_IFLAG tm ICRNL then 10
             else if (c =? 10) && TERMIOS_IFLAG tm INLCR then 13 else c in
    let c := if TERMIOS_IFLAG tm ISTRIP then Z.land c 0x7F else c in
    Some (if TERMIOS_IFLAG tm IUCLC then tolower c else c).

(** One character of [tty_process_input]. *)
Definition process_char (t : tty) (tm : termios) (c : Z) : outcome tty :=
  match input_preprocess tm c with
  | None => Done t
  | Some ch =>
      match (if TERMIOS_LFLAG tm ISIG then isig_handle t tm ch else None) with
      | Some t => Done t
      | None =>
          let t := if TERMIOS_LFLAG tm ECHO then echo_char t tm ch else t in
          if TERMIOS_LFLAG tm ICANON then icanon_char t tm ch else send_input_char t ch
      end
  end.

Fixpoint process_chars (t : tty) (tm : termios) (cs : list Z) : outcome tty :=
  match cs with
  | [] => Done t
  | c :: cs' => t ← process_char t tm c; process_chars t tm cs'
  end.

Definition tty_process_input (t : tty) (buf : list Z) : outcome tty := process_chars t (tty_termios t) buf.

Fixpoint process_output_from (t : tty) (tm : termios) (m : gmap Z Z) (buf : user_buffer) (i : Z) (n : nat) : Z * tty :=
  match n with
  | O => (i32 i, t)
  | S n' =>
      let '(ret, bs) := user_memcpy_to_kernel m (user_buffer_index buf i) 1 in
      if negb (ret =? 0) then (ret, t)
      else process_output_from (output_post_process t tm (i8 (default 0 (head bs)))) tm m buf (i + 1) n'
  end.

Definition tty_process_output (t : tty) (m : gmap Z Z) (buf : user_buffer) (buf_len : Z) : Z * tty :=
  process_output_from t (tty_termios t) m buf 0 (Z.to_nat buf_len).

(** * The terminal device *)

(** The bytes that the kernel buffer at [a] holds. *)
Definition bytes_from (m : gmap Z Z) (a n : Z) : list Z := (fun x => default 0 (m !! x)) <$> seqZ a n.

(** [stack] is the address of the local buffer. *)
Definition tty_pump (t : tty) (m : gmap Z Z) (stack : Z) : outcome (tty * gmap Z Z) :=
  '(n, b, m) ← char_buf_read (input_buf t) m stack 64;
  let t := set_input b t in
  let t := if n =? 64 then emit Schedule t else t in
  t ← tty_process_input t (i8 <$> bytes_from m stack n);
  Done (t, m).

Definition tty_add_input (t : tty) (buf : list Z) : outcome tty :=
  b ← char_buf_write (input_buf t) buf;
  Done (emit Schedule (set_input b t)).

Inductive read_outcome : Type :=
| Returned (ret : Z) (m : gmap Z Z) (t : tty)
| Asleep (m : gmap Z Z) (t : tty)
| Running.   (* the loop has not ended when the fuel is used up *)

(** What happens while the reader does not run: whether a signal is pending
    before it sleeps, and what the others do to the terminal. *)
Definition env : Type := list (bool * (tty -> tty)).

Fixpoint wait_event (cond : tty -> bool) (os : env) (t : tty) : option (Z * tty * env) * tty :=
  if cond t then (Some (0, t, os), t)
  else
    match os with
    | [] => (None, t)
    | (sig, f) :: os' => if sig then (Some (- ERESTARTSYS, t, os'), t) else wait_event cond os' (f t)
    end.

Definition can_read (t : tty) : bool := char_buf_has_data (output_buf t) || ret0 t.

Fixpoint tty_read_loop (fuel : nat) (os : env) (nonblock : bool) (m : gmap Z Z) (t : tty) (vbuf : user_buffer) (len : Z)
    : outcome read_outcome :=
  match fuel with
  | O => Done Running
  | S fuel' =>
      '(read_count, b, m) ← char_buf_read_user (output_buf t) m vbuf len;
      let t := set_output b t in
      let left := u32 (len - read_count) in
      if ret0 t then Done (Returned (i32 (len - left)) m (set_ret0 false t))
      else if negb (left =? len) then Done (Returned (i32 (len - left)) m t)
      else if nonblock then Done (Returned (- EAGAIN) m t)
      else
        match wait_event can_read os t with
        | (None, t) => Done (Asleep m t)
        | (Some (ret, t, os), _) =>
            if negb (ret =? 0) then Done (Returned ret m t) else tty_read_loop fuel' os nonblock m t vbuf len
        end
  end.

Definition tty_write_buf_user (t : option tty) (m : gmap Z Z) (buf : user_buffer) (len : Z) : Z * option tty :=
  match t with
  | None => (- ENOTTY, None)
  | Some t => let '(ret, t) := tty_process_output t m buf len in (ret, Some t)
  end.

Definition POLLIN : Z := 1.
Definition POLLOUT : Z := 4.
Definition POLLERR : Z := 8.

Definition tty_poll (t : option tty) (events : Z) : Z :=
  match t with
  | None => POLLERR
  | Some t =>
      let ret := if negb (Z.land events POLLIN =? 0) && char_buf_has_data (output_buf t) then POLLIN else 0 in
      if negb (Z.land events POLLOUT =? 0) then Z.lor ret POLLOUT else ret
  end.

(** The task that opens a terminal, as far as [tty_open] looks at it; a terminal
    is named by its device. *)
Record opener : Type := {
  ctty : option Z;
  leader : bool;
  task_session : Z;
  task_pgid : Z;
}.

Definition CHAR_DEV_TTY : Z := 5.

Fixpoint tty_find (ttys : list tty) (dev : Z) : option nat :=
  match ttys with
  | [] => None
  | t :: ttys' => if device_no t =? dev then Some O else S <$> tty_find ttys' dev
  end.

(** The result, the terminal that the file is for, the task and the terminals. *)
Definition tty_open (ttys : list tty) (current : opener) (dev : Z) (noctty : bool)
    : Z * option Z * opener * list tty :=
  let major := Z.shiftr dev 20 in
  let minor := Z.land dev 0xFFFFF in
  if (minor =? 0) && (major =? CHAR_DEV_TTY) then
    match ctty current with
    | None => (- ENXIO, None, current, ttys)
    | Some d => (0, Some d, current, ttys)
    end
  else
    match tty_find ttys dev with
    | None => (- ENXIO, None, current, ttys)
    | Some k =>
        match ttys !! k with
        | None => (- ENXIO, None, current, ttys)
        | Some t =>
            if negb noctty && leader current && bool_decide (ctty current = None) && (session_id t =? 0) then
              let t := set_owner (task_session current) (task_pgid current) t in
              (0, Some dev, {| ctty := Some dev; leader := leader current; task_session := task_session current; task_pgid := task_pgid current |},
               <[k := set_output (char_buf_clear (output_buf t)) t]> ttys)
            else (0, Some dev, current, ttys)
        end
    end.

Definition tty_resize (t : tty) (new_size : winsize) : tty :=
  let t := set_winsize new_size t in
  if fg_pgrp t =? 0 then t else emit (SendSignal (- fg_pgrp t) SIGWINCH) t.

Definition termios_bytes (tm : termios) : list Z :=
  word_bytes (c_iflag tm) ++ word_bytes (c_oflag tm) ++ word_bytes (c_cflag tm) ++ word_bytes (c_lflag tm) ++ c_line tm :: c_cc tm.
Definition termios_of (bs : list Z) : termios :=
  {| c_iflag := bytes_word (take 4 bs); c_oflag := bytes_word (take 4 (drop 4 bs)); c_cflag := bytes_word (take 4 (drop 8 bs));
     c_lflag := bytes_word (take 4 (drop 12 bs)); c_line := default 0 (bs !! 16%nat); c_cc := drop 17 bs |}.

Definition short_bytes (w : Z) : list Z := [w mod 256; w / 256 mod 256].
Definition bytes_short (bs : list Z) : Z := default 0 (bs !! 0%nat) + 256 * default 0 (bs !! 1%nat).
Definition winsize_bytes (w : winsize) : list Z :=
  short_bytes (ws_row w) ++ short_bytes (ws_col w) ++ short_bytes (ws_xpixel w) ++ short_bytes (ws_ypixel w).
Definition winsize_of (bs : list Z) : winsize :=
  {| ws_row := bytes_short (take 2 bs); ws_col := bytes_short (take 2 (drop 2 bs));
     ws_xpixel := bytes_short (take 2 (drop 4 bs)); ws_ypixel := bytes_short (take 2 (drop 6 bs)) |}.

Definition TIO : Z := 90.
Definition TIOCGPGRP : Z := Z.shiftl TIO 8 + 0.
Definition TIOCSPGRP : Z := Z.shiftl TIO 8 + 1.
Definition TIOCGSID : Z := Z.shiftl TIO 8 + 2.
Definition TCGETS : Z := Z.shiftl TIO 8 + 3.
Definition TCSETS : Z := Z.shiftl TIO 8 + 4.
Definition TCFLSH : Z := Z.shiftl TIO 8 + 6.
Definition TIOCGWINSZ : Z := Z.shiftl TIO 8 + 8.
Definition TIOCSWINSZ : Z := Z.shiftl TIO 8 + 9.
Definition TIOSETKBD : Z := Z.shiftl TIO 8 + 127.
Definition TIOSETCONSOLE : Z := Z.shiftl TIO 8 + 128.
Definition CONSOLE_MAX : Z := 6.

(** [is_ctty]: the terminal is the controlling one of the caller. *)
Definition tty_ioctl (t : tty) (is_ctty : bool) (m : gmap Z Z) (cmd : Z) (arg : user_buffer) : outcome (Z * gmap Z Z * tty) :=
  if negb (Z.shiftr cmd 8 =? TIO) && negb is_ctty then Done (- ENOTTY, m, t)
  else if cmd =? TIOCGPGRP then let '(ret, m) := user_copy_from_kernel m arg (fg_pgrp t) in Done (ret, m, t)
  else if cmd =? TIOCSPGRP then
    let '(ret, tmp) := user_copy_to_kernel m arg in
    if negb (ret =? 0) then Done (ret, m, t) else Done (0, m, set_owner (session_id t) (i32 tmp) t)
  else if cmd =? TIOCGSID then let '(ret, m) := user_copy_from_kernel m arg (session_id t) in Done (ret, m, t)
  else if cmd =? TCGETS then let '(ret, m) := user_memcpy_from_kernel m arg (termios_bytes (tty_termios t)) in Done (ret, m, t)
  else if cmd =? TCSETS then
    let '(ret, bs) := user_memcpy_to_kernel m arg 36 in
    if negb (ret =? 0) then Done (ret, m, t)
    else t ← tty_line_buf_drain (set_termios (termios_of bs) t); Done (0, m, t)
  else if cmd =? TIOCGWINSZ then let '(ret, m) := user_memcpy_from_kernel m arg (winsize_bytes (tty_winsize t)) in Done (ret, m, t)
  else if cmd =? TIOCSWINSZ then
    let '(ret, bs) := user_memcpy_to_kernel m arg 8 in
    if negb (ret =? 0) then Done (ret, m, t) else Done (0, m, tty_resize t (winsize_of bs))
  else if cmd =? TCFLSH then
    Done (- EINVAL, m,
      if ptr arg =? 0 then tty_flush_input t
      else if ptr arg =? 1 then tty_flush_output t
      else if ptr arg =? 2 then tty_flush_output (tty_flush_input t) else t)
  else if cmd =? TIOSETKBD then
    let state := i32 (ptr arg) in
    if negb (state =? 0) && negb (state =? 1) then Done (- EINVAL, m, t) else Done (0, m, emit (KeyboardState state) t)
  else if cmd =? TIOSETCONSOLE then
    let console := i32 (ptr arg) in
    if (console <? 0) || (CONSOLE_MAX <=? console) then Done (- EINVAL, m, t) else Done (0, m, emit (SwitchVt console) t)
  else Done (- EINVAL, m, t).
