(* ===== verification/TtyProps.v ===== *)
(** What a terminal promises: processes read the lines that were typed, with the
    erased characters gone, in order and nothing else; and the screen shows the
    line as it will be read.  A read of no bytes does not end. *)
From stdpp Require Import base numbers list gmap.
From Stdlib Require Import ZArith ZifyBool Lia.
From S2P Require Import Prelude UserMem CharBuf Tty.
Open Scope Z_scope.

(** * Editing a line *)

Record line : Type := { delivered : list Z; pending : list Z }.

(** What a character that is typed does to the line. *)
Definition edit (tm : termios) (l : line) (c : Z) : line :=
  if is_cc tm VEOF c then l
  else if is_cc tm VERASE c then {| delivered := delivered l; pending := take (length (pending l) - 1) (pending l) |}
  else if c =? 10 then {| delivered := delivered l ++ pending l ++ [c]; pending := [] |}
  else {| delivered := delivered l; pending := pending l ++ [c] |}.

(** The characters that reach the line discipline. *)
Definition typed (tm : termios) (cs : list Z) : list Z := omap (input_preprocess tm) cs.

Definition edits (tm : termios) (l : line) (cs : list Z) : line := foldl (edit tm) l (typed tm cs).

Definition no_line : line := {| delivered := []; pending := [] |}.

Lemma edits_app tm l cs ds : edits tm l (cs ++ ds) = edits tm (edits tm l cs) ds.
Proof. unfold edits, typed. rewrite omap_app. apply foldl_app. Qed.

(** * The state of a terminal *)

Record tty_ok (t : tty) : Prop := {
  ok_out : wf (output_buf t);
  ok_in : wf (input_buf t);
  ok_line : Z.of_nat (length (line_buf t)) = line_buf_size t;
  ok_pos : 0 <= line_buf_pos t <= line_buf_size t;
}.

Definition pending_of (t : tty) : list Z := take (Z.to_nat (line_buf_pos t)) (line_buf t).

(** There is room for one more character. *)
Definition room (t : tty) (n : Z) : Prop :=
  line_buf_pos t + n <= line_buf_size t /\ buf_len (output_buf t) + line_buf_pos t + n <= len (output_buf t).

(** Only the trace differs. *)
Definition add_trace (es : list effect) (t : tty) : tty :=
  {| device_no := device_no t; session_id := session_id t; fg_pgrp := fg_pgrp t; tty_winsize := tty_winsize t;
     tty_termios := tty_termios t; input_buf := input_buf t; output_buf := output_buf t; ret0 := ret0 t;
     line_buf := line_buf t; line_buf_pos := line_buf_pos t; line_buf_size := line_buf_size t; trace := trace t ++ es |}.

Lemma add_trace_nil t : add_trace [] t = t.
Proof. destruct t. unfold add_trace. cbn. by rewrite app_nil_r. Qed.

Lemma add_trace_app es fs t : add_trace fs (add_trace es t) = add_trace (es ++ fs) t.
Proof. unfold add_trace. cbn. by rewrite app_assoc. Qed.

(** The characters that [output_post_process] gives to the driver. *)
Definition post (tm : termios) (c : Z) : list Z :=
  if (c =? 10) && TERMIOS_OFLAG tm ONLCR then [13; 10]
  else if (c =? 10) && TERMIOS_OFLAG tm ONLRET then [13]
  else if (c =? 13) && TERMIOS_OFLAG tm OCRNL then [10]
  else [if TERMIOS_OFLAG tm OLCUC then toupper c else c].

Lemma output_post_process_add t tm c : output_post_process t tm c = add_trace (Write <$> post tm c) t.
Proof.
  unfold output_post_process, post, send_output_char. repeat case_match; try done.
  unfold add_trace, emit. cbn. by rewrite <- app_assoc.
Qed.

Definition rub (tm : termios) (n : nat) : list Z := concat (replicate n (post tm 8 ++ post tm 32 ++ post tm 8)).

Lemma rubout_add tm n : forall t, rubout t tm n = add_trace (Write <$> rub tm n) t.
Proof.
  induction n as [|n IH]; intros t; cbn [rubout]; [by rewrite add_trace_nil|].
  rewrite IH, !output_post_process_add, !add_trace_app. unfold rub. cbn [replicate concat]. by rewrite !fmap_app, !app_assoc.
Qed.

(** The characters of an echo. *)
Definition echo (tm : termios) (c : Z) : list Z :=
  if TERMIOS_LFLAG tm ECHOE && TERMIOS_LFLAG tm ICANON && is_cc tm VERASE c then []
  else if TERMIOS_LFLAG tm ECHOCTL && is_control c && negb (c =? 9) && negb (c =? 10) then post tm 94 ++ post tm (Z.lxor c 0x40)
  else post tm c.

Lemma echo_char_add t tm c : echo_char t tm c = add_trace (Write <$> echo tm c) t.
Proof.
  unfold echo_char, echo. repeat case_match; rewrite ?output_post_process_add, ?add_trace_app, <- ?fmap_app, ?add_trace_nil; done.
Qed.

(** * One character *)

Definition writes (es : list effect) : list Z := omap (fun e => match e with Write c => Some c | _ => None end) es.

Lemma writes_app es fs : writes (es ++ fs) = writes es ++ writes fs.
Proof. apply omap_app. Qed.

Lemma writes_write cs : writes (Write <$> cs) = cs.
Proof. induction cs as [|c cs IH]; [done|]. unfold writes in *. cbn. by rewrite IH. Qed.

(** What may differ after a character: the line, what is ready to be read, and
    the trace. *)
Record moves (n : Z) (t t' : tty) (l : line) (out : list Z) : Prop := {
  mv_ok : tty_ok t';
  mv_pending : pending_of t' = pending l;
  mv_ready : contents (output_buf t') = contents (output_buf t) ++ (u8 <$> delivered l);
  mv_len : len (output_buf t') = len (output_buf t);
  mv_input : input_buf t' = input_buf t;
  mv_size : line_buf_size t' = line_buf_size t;
  mv_termios : tty_termios t' = tty_termios t;
  mv_used : buf_len (output_buf t') + line_buf_pos t' <= buf_len (output_buf t) + line_buf_pos t + n;
  mv_pos : line_buf_pos t' <= line_buf_pos t + n;
  mv_writes : writes (trace t') = writes (trace t) ++ out;
}.

Lemma send_input_chars_spec cs : forall t,
  tty_ok t -> buf_len (output_buf t) + Z.of_nat (length cs) <= len (output_buf t) ->
  exists b k, send_input_chars t cs = Done (add_trace (replicate k Wake) (set_output b t)) /\ wf b /\
    len b = len (output_buf t) /\ contents b = contents (output_buf t) ++ (u8 <$> cs).
Proof.
  induction cs as [|c cs IH]; intros t Hok Hr; cbn [send_input_chars].
  { exists (output_buf t), 0%nat. rewrite add_trace_nil, app_nil_r. split_and!; [by destruct t | apply Hok | done | done]. }
  cbn [length] in Hr. unfold send_input_char.
  destruct (char_buf_write_fifo (output_buf t) [u8 c] (ok_out t Hok)) as (b1 & -> & Hw1 & Hl1 & Hc1); [cbn [length]; lia|]. obind.
  assert (Hn : buf_len b1 = buf_len (output_buf t) + 1).
  { pose proof (contents_length b1 Hw1) as E1. pose proof (contents_length _ (ok_out t Hok)) as E2. rewrite Hc1, length_app, E2 in E1. cbn in E1.
    pose proof (wf_count _ Hw1). pose proof (wf_count _ (ok_out t Hok)). lia. }
  destruct (IH (emit Wake (set_output b1 t))) as (b & k & -> & Hw & Hl & Hc).
  { destruct Hok. by split. }
  { cbn [emit set_output output_buf]. lia. }
  exists b, (S k). cbn [emit set_output output_buf] in *. split_and!; [|done | congruence|].
  - unfold add_trace, emit, set_output. cbn. by rewrite <- app_assoc.
  - rewrite Hc, Hc1, <- app_assoc. done.
Qed.

Lemma contents_count b : wf b -> buf_len b = Z.of_nat (length (contents b)).
Proof. intros Hw. rewrite contents_length by done. pose proof (wf_count _ Hw). lia. Qed.

Lemma tty_line_buf_drain_spec t :
  tty_ok t -> buf_len (output_buf t) + line_buf_pos t <= len (output_buf t) ->
  exists t', tty_line_buf_drain t = Done t' /\
    moves 0 t t' {| delivered := pending_of t; pending := [] |} [] /\ line_buf_pos t' = 0 /\
    buf_len (output_buf t') = buf_len (output_buf t) + line_buf_pos t.
Proof.
  intros Hok Hr. pose proof Hok as [Ho Hi Hl Hp]. unfold tty_line_buf_drain. rewrite arr_slice_done by lia. obind.
  change (drop (Z.to_nat 0) (line_buf t)) with (line_buf t). fold (pending_of t).
  assert (Hlen : Z.of_nat (length (pending_of t)) = line_buf_pos t) by (unfold pending_of; rewrite length_take; lia).
  destruct (send_input_chars_spec (pending_of t) t Hok) as (b & k & -> & Hw & Hlb & Hc); [lia|]. obind.
  pose proof (contents_count b Hw) as Hn. rewrite Hc, length_app, length_fmap in Hn. pose proof (contents_count _ Ho).
  eexists. split; [done|]. split; [|split; [done | cbn; lia]].
  split; cbn [set_line add_trace set_output output_buf input_buf line_buf line_buf_pos line_buf_size tty_termios trace delivered pending]; try done.
  - split; cbn; done || lia.
  - lia.
  - lia.
  - rewrite writes_app, app_nil_r. replace (writes (replicate k Wake)) with (@nil Z); [by rewrite app_nil_r|].
    clear. induction k as [|k IH]; [done|]. unfold writes in *. cbn. done.
Qed.

Lemma pending_length t : tty_ok t -> Z.of_nat (length (pending_of t)) = line_buf_pos t.
Proof. intros [_ _ Hl Hp]. unfold pending_of. rewrite length_take. lia. Qed.

Lemma icanon_char_spec t tm c :
  tty_ok t -> room t 1 -> exists t' out,
    icanon_char t tm c = Done t' /\ moves 1 t t' (edit tm {| delivered := []; pending := pending_of t |} c) out /\
    out = (if negb (is_cc tm VEOF c) && is_cc tm VERASE c && TERMIOS_LFLAG tm ECHO && TERMIOS_LFLAG tm ECHOE then
             match last (pending_of t) with Some prev => rub tm (get_char_render_length tm prev) | None => [] end
           else []).
Proof.
  intros Hok [Hr1 Hr2]. pose proof Hok as [Ho Hi Hl Hp]. pose proof (pending_length t Hok) as Hpl.
  unfold icanon_char, edit. destruct (is_cc tm VEOF c); cbn [negb andb].
  { eexists _, []. split; [done|]. split; [|done]. split; cbn; rewrite ?app_nil_r; try done; try lia.
    unfold writes. rewrite omap_app. cbn. by rewrite app_nil_r. }
  destruct (is_cc tm VERASE c); cbn [andb].
  - unfold tty_line_buf_remove. destruct (Z.ltb_spec 0 (line_buf_pos t)).
    + destruct (arr_get_total (line_buf t) (line_buf_pos t - 1)) as [prev Hg]; [lia|]. rewrite Hg. obind.
      apply arr_get_done in Hg as [_ Hg].
      assert (Hlast : last (pending_of t) = Some prev).
      { rewrite last_lookup. unfold pending_of in *. rewrite <- Hg, lookup_take_lt by lia. f_equal. lia. }
      assert (Hmv : forall es, moves 1 t (add_trace (Write <$> es) (set_line (line_buf t) (line_buf_pos t - 1) t))
        {| delivered := []; pending := take (length (pending_of t) - 1) (pending_of t) |} es).
      { intros es. split; cbn; rewrite ?app_nil_r; try done; try lia.
        - split; cbn; done || lia.
        - unfold pending_of. cbn [line_buf line_buf_pos add_trace set_line]. rewrite length_take, take_take. f_equal. lia.
        - by rewrite writes_app, writes_write. }
      rewrite Hlast. destruct (TERMIOS_LFLAG tm ECHO && TERMIOS_LFLAG tm ECHOE) eqn:E.
      * eexists _, _. split; [done|]. rewrite rubout_add. split; [apply Hmv | done].
      * eexists _, []. split; [done|]. split; [|done]. specialize (Hmv []). by rewrite add_trace_nil in Hmv.
    + obind. eexists _, []. split; [done|].
      assert (Hnil : pending_of t = []) by (unfold pending_of; replace (line_buf_pos t) with 0 by lia; done).
      split; [|rewrite Hnil; by case_match]. rewrite Hnil. split; cbn; rewrite ?app_nil_r; done || lia.
  - unfold tty_line_buf_append. destruct (Z.ltb_spec (line_buf_pos t) (line_buf_size t)); [|lia].
    rewrite arr_set_total by lia. obind. set (t1 := set_line _ _ t).
    assert (Hp1 : pending_of t1 = pending_of t ++ [c]).
    { unfold pending_of, t1. cbn [line_buf line_buf_pos set_line].
      replace (Z.to_nat (line_buf_pos t + 1)) with (S (Z.to_nat (line_buf_pos t))) by lia.
      rewrite (take_S_r _ _ c) by (apply list_lookup_insert_eq; lia). by rewrite take_insert_ge by lia. }
    assert (Hok1 : tty_ok t1) by (split; cbn; rewrite ?length_insert; done || lia).
    destruct (Z.eqb_spec c 10) as [->|Hc].
    + destruct (tty_line_buf_drain_spec t1 Hok1) as (t' & E & Hmv & Hpos & Hused); [cbn; lia|]. exists t', []. split; [done|]. split; [|done].
      destruct Hmv. split; cbn [delivered pending] in *; try done.
      * by rewrite mv_ready0, Hp1.
      * cbn in *. lia.
      * rewrite Hpos. lia.
    + eexists _, []. split; [done|]. split; [|done]. split; cbn; rewrite ?app_nil_r; try done; try lia.
Qed.

(** No signal is sent for the character. *)
Definition signals (tm : termios) (ch : Z) : bool := TERMIOS_LFLAG tm ISIG && (is_cc tm VINTR ch || is_cc tm VSUSP ch).

(** The characters given to the driver for a character of the line. *)
Definition shown (tm : termios) (l : line) (ch : Z) : list Z :=
  (if TERMIOS_LFLAG tm ECHO then echo tm ch else []) ++
  (if negb (is_cc tm VEOF ch) && is_cc tm VERASE ch && TERMIOS_LFLAG tm ECHO && TERMIOS_LFLAG tm ECHOE then
     match last (pending l) with Some prev => rub tm (get_char_render_length tm prev) | None => [] end
   else []).

Lemma moves_add n t t' l out es :
  moves n (add_trace (Write <$> es) t) t' l out -> moves n t t' l (es ++ out).
Proof.
  intros []. split; try done. by rewrite mv_writes0, app_assoc; cbn [add_trace trace]; rewrite writes_app, writes_write.
Qed.

Lemma process_char_spec t tm c ch :
  tty_ok t -> room t 1 -> TERMIOS_LFLAG tm ICANON = true -> input_preprocess tm c = Some ch -> signals tm ch = false ->
  exists t', process_char t tm c = Done t' /\
    moves 1 t t' (edit tm {| delivered := []; pending := pending_of t |} ch) (shown tm {| delivered := []; pending := pending_of t |} ch).
Proof.
  intros Hok Hr Hcan Hpre Hsig. unfold process_char, signals, shown in *. rewrite Hpre, Hcan.
  assert (Es : (if TERMIOS_LFLAG tm ISIG then isig_handle t tm ch else None) = None).
  { destruct (TERMIOS_LFLAG tm ISIG); [|done]. unfold isig_handle. cbn [andb] in Hsig.
    apply orb_false_iff in Hsig as [-> ->]. done. }
  rewrite Es. destruct (TERMIOS_LFLAG tm ECHO) eqn:Ee.
  - rewrite echo_char_add.
    destruct (icanon_char_spec (add_trace (Write <$> echo tm ch) t) tm ch) as (t' & out & E & Hmv & ->); [by destruct Hok | done|].
    rewrite E. eexists. split; [done|]. rewrite Ee in Hmv. apply moves_add in Hmv. exact Hmv.
  - destruct (icanon_char_spec t tm ch Hok Hr) as (t' & out & E & Hmv & ->). rewrite E. eexists. split; [done|]. rewrite Ee in Hmv. exact Hmv.
Qed.

(** * Lines *)

Lemma moves_trans n k t t1 t2 l1 l2 o1 o2 :
  moves n t t1 l1 o1 -> moves k t1 t2 l2 o2 ->
  moves (n + k) t t2 {| delivered := delivered l1 ++ delivered l2; pending := pending l2 |} (o1 ++ o2).
Proof.
  intros [] []. split; cbn [delivered pending]; try done; try congruence; try lia.
  - by rewrite mv_ready1, mv_ready0, fmap_app, app_assoc.
  - by rewrite mv_writes1, mv_writes0, app_assoc.
Qed.

Lemma moves_none t : tty_ok t -> moves 0 t t {| delivered := []; pending := pending_of t |} [].
Proof. intros Hok. split; cbn; rewrite ?app_nil_r; done || lia. Qed.

(** What was delivered before does not matter. *)
Lemma edit_delivered tm d p c :
  edit tm {| delivered := d; pending := p |} c =
    {| delivered := d ++ delivered (edit tm {| delivered := []; pending := p |} c);
       pending := pending (edit tm {| delivered := []; pending := p |} c) |}.
Proof. unfold edit. repeat case_match; cbn; by rewrite ?app_nil_r. Qed.

Lemma foldl_delivered tm cs : forall d p,
  foldl (edit tm) {| delivered := d; pending := p |} cs =
    {| delivered := d ++ delivered (foldl (edit tm) {| delivered := []; pending := p |} cs);
       pending := pending (foldl (edit tm) {| delivered := []; pending := p |} cs) |}.
Proof.
  induction cs as [|c cs IH]; intros d p; cbn [foldl]; [by rewrite app_nil_r|].
  rewrite edit_delivered. destruct (edit tm {| delivered := []; pending := p |} c) as [d1 p1]. cbn [delivered pending].
  rewrite IH, (IH d1). cbn [delivered pending]. by rewrite app_assoc.
Qed.

(** The characters given to the driver for a line. *)
Fixpoint showns (tm : termios) (l : line) (cs : list Z) : list Z :=
  match cs with
  | [] => []
  | c :: cs' => shown tm l c ++ showns tm (edit tm l c) cs'
  end.

Lemma shown_delivered tm d p c : shown tm {| delivered := d; pending := p |} c = shown tm {| delivered := []; pending := p |} c.
Proof. done. Qed.

Lemma showns_delivered tm cs : forall d p, showns tm {| delivered := d; pending := p |} cs = showns tm {| delivered := []; pending := p |} cs.
Proof.
  induction cs as [|c cs IH]; intros d p; cbn [showns]; [done|]. rewrite shown_delivered, edit_delivered, IH. f_equal.
  destruct (edit tm {| delivered := []; pending := p |} c). cbn [delivered pending]. by rewrite (IH delivered0).
Qed.

(** None of the characters sends a signal. *)
Definition unsignalled (tm : termios) (cs : list Z) : Prop := Forall (fun ch => signals tm ch = false) (typed tm cs).

Lemma process_chars_spec tm cs : forall t,
  tty_ok t -> room t (Z.of_nat (length cs)) -> TERMIOS_LFLAG tm ICANON = true -> unsignalled tm cs ->
  let l := {| delivered := []; pending := pending_of t |} in
  exists t', process_chars t tm cs = Done t' /\
    moves (Z.of_nat (length cs)) t t' (edits tm l cs) (showns tm l (typed tm cs)).
Proof.
  induction cs as [|c cs IH]; intros t Hok Hr Hcan Hs l; cbn [process_chars].
  { exists t. split; [done|]. by apply moves_none. }
  unfold unsignalled, edits, typed in *. cbn [omap list_omap length] in *.
  assert (Hr1 : room t 1) by (destruct Hr; split; lia).
  destruct (input_preprocess tm c) as [ch|] eqn:Ep.
  - apply Forall_cons in Hs as [Hs1 Hs].
    destruct (process_char_spec t tm c ch Hok Hr1 Hcan Ep Hs1) as (t1 & E1 & H1). rewrite E1. obind.
    destruct (IH t1) as (t2 & E2 & H2); [apply H1 | | done | done|].
    { destruct H1. destruct Hr as [Hr Hr']. split; lia. }
    exists t2. split; [done|]. pose proof (moves_trans _ _ _ _ _ _ _ _ _ H1 H2) as H.
    replace (Z.of_nat (S (length cs))) with (1 + Z.of_nat (length cs)) by lia.
    rewrite (mv_pending _ _ _ _ _ H1) in H. cbn [foldl showns]. unfold l.
    destruct (edit tm {| delivered := []; pending := pending_of t |} ch) as [d1 p1]. cbn [delivered pending] in H.
    by rewrite foldl_delivered, showns_delivered.
  - unfold process_char. rewrite Ep. obind. destruct (IH t Hok) as (t2 & E2 & H2); [destruct Hr; split; lia | done | done|].
    exists t2. split; [done|]. destruct H2. split; try done; lia.
Qed.

(** * Reading *)

(** A read ends with a number of bytes or with [-EFAULT]. *)
Lemma char_buf_read_user_total b m vbuf n :
  wf b -> 0 < n < 2 ^ 32 -> exists r b' m', char_buf_read_user b m vbuf n = Done (r, b', m') /\
    (buf_len b = 0 -> r = 0 /\ b' = b) /\ (0 < buf_len b -> r = - EFAULT \/ 0 < r <= Z.min n (buf_len b)).
Proof.
  intros W Hn. pose proof W as [Hl Hst Hs Hc]. unfold char_buf_read_user. destruct (Z.eqb_spec (buf_len b) 0) as [Hz|Hz].
  { eexists _, _, _. split; [done|]. split; [done | lia]. }
  rewrite (u32_small (buf_len b)) by lia.
  replace (if buf_len b <? n then buf_len b else n) with (Z.min n (buf_len b)) by (case_match; lia).
  rewrite (u32_small (len b - start_pos b)) by lia. cbv zeta. set (k := Z.min n (buf_len b)).
  assert (Hi : i32 k = k) by (apply i32_small; lia).
  destruct (Z.leb_spec k (len b - start_pos b)).
  { rewrite slice_contents_head by (auto; lia). obind.
    destruct (user_memcpy_from_kernel_ret m vbuf (take (Z.to_nat k) (contents b))) as [E|E];
      destruct (user_memcpy_from_kernel _ _ _) as [r m1]; cbn in E; subst r; cbn [Z.eqb negb]; eexists _, _, _; (split; [done | lia]). }
  destruct (Z.ltb_spec 0 (len b - start_pos b)); [|lia]. rewrite slice_contents_head by (auto; lia). obind.
  destruct (user_memcpy_from_kernel_ret m vbuf (take (Z.to_nat (len b - start_pos b)) (contents b))) as [E|E];
    destruct (user_memcpy_from_kernel _ _ _) as [r m1]; cbn in E; subst r; cbn [Z.eqb negb EFAULT Z.opp]; obind; [|eexists _, _, _; (split; [done | lia])].
  rewrite (u32_small (k - _)) by lia. cbn [buffer]. rewrite slice_contents_tail by (auto; lia). obind.
  set (src := take _ (drop _ _)). set (dst := user_buffer_index vbuf _).
  destruct (user_memcpy_from_kernel_ret m1 dst src) as [E|E];
    destruct (user_memcpy_from_kernel _ _ _) as [r m2]; cbn in E; subst r; cbn [Z.eqb negb EFAULT Z.opp]; eexists _, _, _; (split; [done | lia]).
Qed.

Lemma read_left n r : 0 < n < 2 ^ 31 -> r = - EFAULT \/ 0 < r <= n -> u32 (n - r) <> n.
Proof.
  intros Hn [->|Hr]; [rewrite u32_small by (unfold EFAULT; lia); unfold EFAULT; lia|]. rewrite u32_small by lia. lia.
Qed.

Lemma tty_wait_holds os : forall t r t1 os1 t2, wait_event can_read os t = (Some (r, t1, os1), t2) -> r = 0 -> can_read t1 = true.
Proof.
  induction os as [|[sig f] os IH]; intros t r t1 os1 t2; cbn [wait_event]; destruct (can_read t) eqn:E; try (by intros [= <- <- <- <-]).
  destruct sig; [by intros [= <- <- <- <-]|]. apply IH.
Qed.

Lemma tty_wait_wf os : Forall (fun o : bool * (tty -> tty) => forall t, wf (output_buf t) -> wf (output_buf (snd o t))) os ->
  forall t r t1 os1 t2, wf (output_buf t) -> wait_event can_read os t = (Some (r, t1, os1), t2) -> wf (output_buf t1).
Proof.
  induction 1 as [|[sig f] os Hf _ IH]; intros t r t1 os1 t2 Hw; cbn [wait_event]; destruct (can_read t); try (by intros [= <- <- <- <-]).
  destruct sig; [by intros [= <- <- <- <-]|]. apply IH, Hf, Hw.
Qed.

Lemma read_ready fuel os nonblock m t vbuf n :
  wf (output_buf t) -> 0 < n < 2 ^ 31 -> can_read t = true ->
  exists ret m' t', tty_read_loop (S fuel) os nonblock m t vbuf n = Done (Returned ret m' t').
Proof.
  intros Hw Hn Hc. destruct (char_buf_read_user_total (output_buf t) m vbuf n Hw) as (r & b & m' & E & H0 & H1); [lia|].
  cbn [tty_read_loop]. rewrite E. obind. cbn [ret0 set_output]. destruct (ret0 t) eqn:Er; [eauto|].
  unfold can_read, char_buf_has_data in Hc. rewrite Er, orb_false_r in Hc. pose proof (wf_count _ Hw).
  destruct (Z.eqb_spec (u32 (n - r)) n) as [El|El]; cbn [negb]; [|eauto].
  exfalso. apply (read_left n r); [done | | done]. destruct (H1 ltac:(lia)) as [?|?]; [by left | right; lia].
Qed.

(** * Sessions *)

(** A terminal with a process that reads it: the memory, and what it has read. *)
Record session : Type := { s_tty : tty; s_mem : gmap Z Z; s_read : list Z }.

Inductive event : Type :=
| Typed (bs : list Z)                   (* the keyboard *)
| Pump                                  (* the work of the terminal runs *)
| ReadUpTo (nonblock : bool) (n : Z).   (* [tty_read], until it returns or sleeps *)

Section Session.
Context (stack : Z) (vbuf : user_buffer) (cap : Z).

Definition happen (s : session) (e : event) : outcome session :=
  match e with
  | Typed bs => t ← tty_add_input (s_tty s) bs; Done {| s_tty := t; s_mem := s_mem s; s_read := s_read s |}
  | Pump => '(t, m) ← tty_pump (s_tty s) (s_mem s) stack; Done {| s_tty := t; s_mem := m; s_read := s_read s |}
  | ReadUpTo nonblock n =>
      r ← tty_read_loop 2 [] nonblock (s_mem s) (s_tty s) vbuf n;
      match r with
      | Returned ret m t => Done {| s_tty := t; s_mem := m; s_read := s_read s ++ bytes_from m (ptr vbuf) ret |}
      | Asleep m t => Done {| s_tty := t; s_mem := m; s_read := s_read s |}
      | Running => Fault
      end
  end.

Fixpoint happens (s : session) (es : list event) : outcome session :=
  match es with
  | [] => Done s
  | e :: es' => s ← happen s e; happens s es'
  end.

(** The buffers have room for what the event adds, and a read fits the memory of
    the reader. *)
Definition fits (s : session) (e : event) : bool :=
  let t := s_tty s in
  match e with
  | Typed bs => buf_len (input_buf t) + Z.of_nat (length bs) <=? len (input_buf t)
  | Pump => (line_buf_pos t + 64 <=? line_buf_size t) && (buf_len (output_buf t) + line_buf_pos t + 64 <=? len (output_buf t))
  | ReadUpTo _ n => (0 <? n) && (n <=? cap)
  end.

Fixpoint all_fit (s : session) (es : list event) : bool :=
  match es with
  | [] => true
  | e :: es' => fits s e && match happen s e with Done s' => all_fit s' es' | _ => true end
  end.

Definition keys (es : list event) : list Z := es ≫= fun e => match e with Typed bs => bs | _ => [] end.

(** [done] of the bytes that were typed, [all], went through the discipline. *)
Record follows (tm : termios) (all done : list Z) (s : session) : Prop := {
  fo_ok : tty_ok (s_tty s);
  fo_termios : tty_termios (s_tty s) = tm;
  fo_typed : all = done ++ contents (input_buf (s_tty s));
  fo_read : s_read s ++ contents (output_buf (s_tty s)) = u8 <$> delivered (edits tm no_line (i8 <$> done));
  fo_pending : pending_of (s_tty s) = pending (edits tm no_line (i8 <$> done));
  fo_stack : writable (s_mem s) (make_kernel_buffer stack) 64;
  fo_buf : writable (s_mem s) vbuf cap;
}.

Context (Hcap : cap < 2 ^ 31).

Lemma writable_same m m' data n (p k : Z) :
  writable m data n -> (forall a, ~ (p <= a < p + k) -> m' !! a = m !! a) -> (forall a, p <= a < p + k -> is_Some (m' !! a)) -> writable m' data n.
Proof using.
  intros [Hr Hu Hm] Hout Hin. split; [done | done|]. intros a Ha.
  destruct (decide (p <= a < p + k)); [by apply Hin | rewrite Hout by done; by apply Hm].
Qed.

Lemma writable_less m data n k : writable m data n -> 1 <= k <= n -> writable m data k.
Proof using.
  intros [[? [? ?]] Hu Hm] Hk. split; [split; lia | intros E; specialize (Hu E); lia | intros a Ha; apply Hm; lia].
Qed.

(** The bytes a read stored are what it took from the queue. *)
Lemma bytes_from_read m p bs n :
  n = Z.of_nat (length bs) -> (forall i, (i < Z.to_nat n)%nat -> m !! (p + Z.of_nat i) = bs !! i) -> bytes_from m p n = bs.
Proof using.
  intros Hn H. apply list_eq. intros i. unfold bytes_from. rewrite list_lookup_fmap.
  destruct (decide (i < length bs)%nat) as [Hi|Hi].
  - rewrite lookup_seqZ_lt by lia. cbn. rewrite H by lia. by destruct (lookup_lt_is_Some_2 bs i Hi) as [x ->].
  - rewrite lookup_seqZ_ge by lia. rewrite lookup_ge_None_2 by lia. done.
Qed.

Lemma unsignalled_mid tm xs ys zs : unsignalled tm (i8 <$> (xs ++ ys ++ zs)) -> unsignalled tm (i8 <$> ys).
Proof using.
  unfold unsignalled, typed. rewrite !fmap_app, !omap_app. intros H. apply Forall_app in H as [_ H]. by apply Forall_app in H as [H _].
Qed.

Lemma typed_ok tm all done s bs :
  follows tm all done s -> fits s (Typed bs) = true ->
  exists s', happen s (Typed bs) = Done s' /\ follows tm (all ++ bs) done s'.
Proof using.
  intros [Hok Ht Hty Hrd Hpe Hst Hbf] Hfit. apply Z.leb_le in Hfit. cbn [happen]. unfold tty_add_input.
  destruct (char_buf_write_fifo _ bs (ok_in _ Hok) Hfit) as (b & -> & Hw & _ & Hc). obind. eexists. split; [done|].
  split; cbn [s_tty s_mem s_read emit set_input tty_termios input_buf output_buf]; try done.
  - destruct Hok. split; cbn; done.
  - by rewrite Hty, Hc, app_assoc.
Qed.

Lemma pump_ok tm all done s :
  TERMIOS_LFLAG tm ICANON = true -> unsignalled tm (i8 <$> all) -> follows tm all done s -> fits s Pump = true ->
  exists s' more, happen s Pump = Done s' /\ follows tm all (done ++ more) s'.
Proof using.
  intros Hcan Hsig [Hok Ht Hty Hrd Hpe Hst Hbf] Hfit. apply andb_prop in Hfit as [Hf1%Z.leb_le Hf2%Z.leb_le]. cbn [happen]. unfold tty_pump, char_buf_read.
  pose proof (ok_in _ Hok) as Hwi. pose proof (wf_count _ Hwi) as Hcnt. pose proof (contents_count _ Hwi) as Hcl.
  destruct (Z.eqb_spec (buf_len (input_buf (s_tty s))) 0) as [Hz|Hz].
  { unfold char_buf_read_user. rewrite Hz. cbn [Z.eqb]. obind. change (bytes_from (s_mem s) stack 0) with (@nil Z). cbn [fmap list_fmap].
    unfold tty_process_input. cbn [process_chars]. obind. eexists _, []. split; [done|]. rewrite app_nil_r.
    replace (set_input (input_buf (s_tty s)) (s_tty s)) with (s_tty s) by (by destruct (s_tty s)). by split. }
  destruct (char_buf_read_user_fifo (input_buf (s_tty s)) (s_mem s) (make_kernel_buffer stack) 64 Hwi) as (b & m & E & Hw & Hc & Hin & Hout); [lia | lia | apply (writable_less _ _ 64); [done | lia]|].
  rewrite E. obind. set (n := Z.min 64 _) in *. set (ready := contents (input_buf (s_tty s))) in *.
  assert (Hb : bytes_from m stack n = take (Z.to_nat n) ready).
  { apply bytes_from_read; [rewrite length_take; lia|]. intros i Hi. rewrite Hin by done. by rewrite lookup_take_lt. }
  rewrite Hb. set (more := take (Z.to_nat n) ready).
  set (t1 := if n =? 64 then emit Schedule (set_input b (s_tty s)) else set_input b (s_tty s)).
  assert (Ht1 : tty_ok t1 /\ tty_termios t1 = tm /\ output_buf t1 = output_buf (s_tty s) /\ input_buf t1 = b /\
    pending_of t1 = pending_of (s_tty s) /\ line_buf_pos t1 = line_buf_pos (s_tty s) /\ line_buf_size t1 = line_buf_size (s_tty s)).
  { unfold t1. destruct Hok. destruct (n =? 64); split_and!; try done; split; done. }
  destruct Ht1 as (Hok1 & Htm1 & Ho1 & Hi1 & Hp1 & Hpos1 & Hsz1).
  assert (Hml : Z.of_nat (length (i8 <$> more)) = n) by (unfold more; rewrite length_fmap, length_take; lia).
  unfold tty_process_input. rewrite Htm1.
  destruct (process_chars_spec tm (i8 <$> more) t1 Hok1) as (t2 & E2 & H2); [| done | |].
  { rewrite Hml. unfold room. rewrite Hpos1, Hsz1, Ho1. lia. }
  { apply (unsignalled_mid tm done more (drop (Z.to_nat n) ready)). unfold more. rewrite take_drop. by rewrite <- Hty. }
  rewrite E2. obind. eexists _, more. split; [done|]. destruct H2. rewrite Hp1, Hpe in *.
  assert (Hed : edits tm no_line (i8 <$> (done ++ more)) =
    {| delivered := delivered (edits tm no_line (i8 <$> done)) ++ delivered (edits tm {| delivered := []; pending := pending (edits tm no_line (i8 <$> done)) |} (i8 <$> more));
       pending := pending (edits tm {| delivered := []; pending := pending (edits tm no_line (i8 <$> done)) |} (i8 <$> more)) |}).
  { rewrite fmap_app, edits_app. destruct (edits tm no_line (i8 <$> done)) as [d p]. cbn [delivered pending]. apply foldl_delivered. }
  split; cbn [s_tty s_mem s_read]; try done.
  - by rewrite mv_termios0.
  - rewrite mv_input0, Hi1, Hc, Hty, <- app_assoc. f_equal. unfold more. by rewrite take_drop.
  - by rewrite mv_ready0, Ho1, app_assoc, Hrd, Hed, <- fmap_app.
  - by rewrite mv_pending0, Hed.
  - apply (writable_same (s_mem s) m _ _ stack n); [done | apply Hout|]. intros a Ha. replace a with (stack + Z.of_nat (Z.to_nat (a - stack))) by lia.
    cbn [ptr make_kernel_buffer] in Hin. rewrite Hin by lia. apply lookup_lt_is_Some_2. unfold ready in *. lia.
  - apply (writable_same (s_mem s) m _ _ stack n); [done | apply Hout|]. intros a Ha. replace a with (stack + Z.of_nat (Z.to_nat (a - stack))) by lia.
    cbn [ptr make_kernel_buffer] in Hin. rewrite Hin by lia. apply lookup_lt_is_Some_2. unfold ready in *. lia.
Qed.

Lemma read_ok tm all done s nonblock n :
  follows tm all done s -> fits s (ReadUpTo nonblock n) = true ->
  exists s', happen s (ReadUpTo nonblock n) = Done s' /\ follows tm all done s'.
Proof using Hcap.
  intros [Hok Ht Hty Hrd Hpe Hst Hbf] Hfit. apply andb_prop in Hfit as [Hn%Z.ltb_lt Hn'%Z.leb_le].
  pose proof (ok_out _ Hok) as Hwo. pose proof (wf_count _ Hwo) as Hcnt. pose proof (contents_count _ Hwo) as Hcl.
  cbn [happen tty_read_loop]. set (t := s_tty s) in *. 
  assert (Hset : forall r, follows tm all done {| s_tty := set_ret0 r (set_output (output_buf t) t); s_mem := s_mem s; s_read := s_read s |}).
  { intros r. destruct Hok. split; cbn; done. }
  destruct (Z.eqb_spec (buf_len (output_buf t)) 0) as [Hz|Hz].
  - assert (E : char_buf_read_user (output_buf t) (s_mem s) vbuf n = Done (0, output_buf t, s_mem s)) by (unfold char_buf_read_user; by rewrite Hz).
    rewrite E. obind. cbn [ret0 set_output]. rewrite Z.sub_0_r, (u32_small n), Z.sub_diag, Z.eqb_refl by lia. cbn [negb].
    assert (Hnil : forall k, k <= 0 -> s_read s ++ bytes_from (s_mem s) (ptr vbuf) k = s_read s).
    { intros k Hk. unfold bytes_from. replace (seqZ (ptr vbuf) k) with (@nil Z); [apply app_nil_r|]. symmetry. by apply seqZ_nil. }
    destruct (ret0 t) eqn:Er; [eexists; split; [done|]; rewrite Hnil by (by vm_compute); apply Hset|].
    assert (Hs0 : follows tm all done {| s_tty := set_output (output_buf t) t; s_mem := s_mem s; s_read := s_read s |}).
    { destruct Hok. split; cbn; done. }
    destruct nonblock; [eexists; split; [done|]; rewrite Hnil by (unfold EAGAIN; lia); apply Hs0|].
    cbn [wait_event]. unfold can_read, char_buf_has_data. cbn [set_output output_buf ret0]. rewrite Hz, Er. cbn [Z.eqb negb orb]. by eexists.
  - destruct (char_buf_read_user_fifo (output_buf t) (s_mem s) vbuf n Hwo) as (b & m & E & Hw & Hc & Hin & Hout); [lia | lia | apply (writable_less _ _ cap); [done | lia]|].
    set (k := Z.min n _) in *. rewrite E. obind. cbn [ret0 set_output].
    assert (El : u32 (n - k) = n - k) by (apply u32_small; lia). rewrite El. replace (n - (n - k)) with k by lia. rewrite (i32_small k) by lia.
    assert (Hb : bytes_from m (ptr vbuf) k = take (Z.to_nat k) (contents (output_buf t))).
    { apply bytes_from_read; [rewrite length_take; lia|]. intros i Hi. rewrite Hin by done. by rewrite lookup_take_lt. }
    assert (Hmap : forall a, ptr vbuf <= a < ptr vbuf + k -> is_Some (m !! a)).
    { intros a Ha. replace a with (ptr vbuf + Z.of_nat (Z.to_nat (a - ptr vbuf))) by lia. rewrite Hin by lia. apply lookup_lt_is_Some_2. lia. }
    assert (Hnew : forall r, follows tm all done {| s_tty := set_ret0 r (set_output b t); s_mem := m; s_read := s_read s ++ bytes_from m (ptr vbuf) k |}).
    { intros r. destruct Hok. split; cbn [s_tty s_mem s_read set_ret0 set_output output_buf input_buf tty_termios]; try done.
      - rewrite Hb, Hc, <- app_assoc, take_drop. done.
      - by apply (writable_same (s_mem s) m _ _ (ptr vbuf) k).
      - by apply (writable_same (s_mem s) m _ _ (ptr vbuf) k). }
    destruct (ret0 t) eqn:Er; [eexists; split; [done | apply Hnew]|].
    destruct (Z.eqb_spec (n - k) n); cbn [negb]; [lia|]. eexists. split; [done|].
    destruct (Hnew false) as [[] ? ? ? ? ? ?]. by split.
Qed.

Lemma happens_ok tm es : forall all done s,
  TERMIOS_LFLAG tm ICANON = true -> unsignalled tm (i8 <$> (all ++ keys es)) -> follows tm all done s -> all_fit s es = true ->
  exists s' done', happens s es = Done s' /\ follows tm (all ++ keys es) done' s'.
Proof using Hcap.
  induction es as [|e es IH]; intros all done s Hcan Hsig Hf Hfit; cbn [happens].
  { exists s, done. unfold keys. cbn. by rewrite app_nil_r. }
  cbn [all_fit] in Hfit. apply andb_prop in Hfit as [Hfe Hfit]. unfold keys in *. rewrite bind_cons in *.
  destruct e as [bs| |nonblock n].
  - destruct (typed_ok tm all done s bs Hf Hfe) as (s' & E & Hf'). rewrite E in Hfit |- *. obind. rewrite app_assoc in *. by apply (IH _ done s').
  - destruct (pump_ok tm all done s Hcan) as (s' & more & E & Hf'); [| done | done|].
    { rewrite fmap_app in Hsig. unfold unsignalled, typed in *. rewrite omap_app in Hsig. by apply Forall_app in Hsig as [? _]. }
    rewrite E in Hfit |- *. obind. by apply (IH _ (done ++ more) s').
  - destruct (read_ok tm all done s nonblock n Hf Hfe) as (s' & E & Hf'). rewrite E in Hfit |- *. obind. by apply (IH _ done s').
Qed.
End Session.

(** * The screen *)

(** The row of the cursor: its cells, and the column of the cursor. *)
Record row : Type := { cells : list Z; col : nat }.

Definition put (r : row) (c : Z) : row :=
  {| cells := take (col r) (cells r ++ replicate (col r) 32) ++ c :: drop (S (col r)) (cells r); col := S (col r) |}.

Definition display (r : row) (c : Z) : row :=
  if c =? 8 then {| cells := cells r; col := col r - 1 |}
  else if c =? 13 then {| cells := cells r; col := 0 |}
  else if c =? 10 then {| cells := []; col := col r |}
  else put r c.

(** How a character of a line looks. *)
Definition glyphs (c : Z) : list Z := if is_control c then [94; Z.lxor c 0x40] else [c].

(** The row shows the line, and the cursor is behind it. *)
Definition shows (r : row) (p : list Z) : Prop :=
  exists j, cells r = (p ≫= glyphs) ++ replicate j 32 /\ col r = length (p ≫= glyphs).

(** A character that takes as many columns as [get_char_render_length] says. *)
Definition plain (c : Z) : bool := (is_control c || ((32 <=? c) && (c <=? 126))) && negb (c =? 9).

Record echoing (tm : termios) : Prop := {
  ec_canon : TERMIOS_LFLAG tm ICANON = true;
  ec_echo : TERMIOS_LFLAG tm ECHO = true;
  ec_echoe : TERMIOS_LFLAG tm ECHOE = true;
  ec_echoctl : TERMIOS_LFLAG tm ECHOCTL = true;
  ec_onlcr : TERMIOS_OFLAG tm ONLCR = true;
  ec_olcuc : TERMIOS_OFLAG tm OLCUC = false;
  ec_newline : is_cc tm VERASE 10 = false;
}.

Lemma control_glyph c : is_control c = true -> 63 <= Z.lxor c 0x40 <= 95.
Proof.
  intros H. assert (Hin : c ∈ seqZ 1 31 \/ c = 127).
  { rewrite elem_of_seqZ. unfold is_control in H. lia. }
  destruct Hin as [Hin| ->]; [|by vm_compute].
  assert (HF : Forall (fun c => 63 <= Z.lxor c 0x40 <= 95) (seqZ 1 31)) by (vm_compute; repeat constructor; done).
  rewrite Forall_forall in HF. by apply HF.
Qed.

Lemma post_plain tm c : echoing tm -> c <> 10 -> c <> 13 -> post tm c = [c].
Proof.
  intros He H10 H13. unfold post. rewrite (ec_olcuc _ He). destruct (Z.eqb_spec c 10); [done|]. destruct (Z.eqb_spec c 13); [done|]. done.
Qed.

Lemma put_end G j c : put {| cells := G ++ replicate j 32; col := length G |} c = {| cells := (G ++ [c]) ++ replicate (j - 1) 32; col := length (G ++ [c]) |}.
Proof.
  unfold put. cbn [cells col]. rewrite <- !app_assoc, take_app_length. rewrite length_app, Nat.add_1_r. do 3 f_equal. cbn. f_equal.
  rewrite drop_app_ge by lia. replace (S (length G) - length G)%nat with 1%nat by lia. by rewrite drop_replicate.
Qed.

Lemma display_printing r g : g <> 8 -> g <> 13 -> g <> 10 -> display r g = put r g.
Proof.
  intros. unfold display. destruct (Z.eqb_spec g 8); [done|]. destruct (Z.eqb_spec g 13); [done|]. by destruct (Z.eqb_spec g 10).
Qed.

Lemma display_glyphs r p c : shows r p -> plain c = true -> shows (foldl display r (glyphs c)) (p ++ [c]).
Proof.
  intros (j & Hc & Hl) Hp. exists (j - length (glyphs c))%nat. rewrite bind_app, bind_cons, app_nil_r. destruct r as [cs k]. cbn [cells col] in Hc, Hl. subst.
  unfold glyphs. destruct (is_control c) eqn:Ec.
  - pose proof (control_glyph c Ec). cbn [foldl length]. rewrite !display_printing by lia. rewrite put_end. cbn [cells col].
    rewrite put_end. cbn [cells col]. rewrite <- !app_assoc. cbn [app]. split; [do 4 f_equal; lia | done].
  - unfold plain in Hp. rewrite Ec in Hp. cbn [foldl length]. rewrite display_printing by lia. rewrite put_end. cbn [cells col]. split; [done | done].
Qed.

Lemma display_back r : display r 8 = {| cells := cells r; col := col r - 1 |}.
Proof. done. Qed.

(** One rubbed out column. *)
Lemma display_rub G g j :
  foldl display {| cells := (G ++ [g]) ++ replicate j 32; col := length (G ++ [g]) |} [8; 32; 8] =
    {| cells := G ++ replicate (S j) 32; col := length G |}.
Proof.
  cbn [foldl]. rewrite !display_back, display_printing by done. cbn [cells col]. rewrite length_app. cbn [length]. rewrite Nat.add_sub.
  unfold put. cbn [cells col]. rewrite Nat.sub_succ, Nat.sub_0_r.
  f_equal. rewrite <- !app_assoc, take_app_length. cbn [app]. f_equal. cbn [replicate]. f_equal.
  rewrite drop_app_ge by lia. by replace (S (length G) - length G)%nat with 1%nat by lia.
Qed.

Lemma rub_plain tm n : echoing tm -> rub tm n = concat (replicate n [8; 32; 8]).
Proof. intros He. unfold rub. by rewrite !(post_plain tm) by done. Qed.

Lemma display_rubs n : forall G gs j, length gs = n ->
  foldl display {| cells := (G ++ gs) ++ replicate j 32; col := length (G ++ gs) |} (concat (replicate n [8; 32; 8])) =
    {| cells := G ++ replicate (n + j) 32; col := length G |}.
Proof.
  induction n as [|n IH]; intros G gs j Hn.
  { destruct gs; [|done]. by rewrite app_nil_r. }
  destruct gs as [|g gs _] using rev_ind; [done|]. rewrite length_app in Hn. cbn [length] in Hn.
  cbn [replicate concat]. rewrite foldl_app, app_assoc, display_rub, (IH G gs (S j)) by lia. by rewrite Nat.add_succ_r.
Qed.

Lemma shows_rub tm r p prev : echoing tm -> shows r (p ++ [prev]) -> plain prev = true ->
  shows (foldl display r (rub tm (get_char_render_length tm prev))) p.
Proof.
  intros He (j & Hc & Hl) Hp. rewrite (rub_plain tm) by done. rewrite bind_app, bind_cons, app_nil_r in Hc, Hl. destruct r as [cs k]. cbn [cells col] in Hc, Hl. subst.
  assert (Hn : length (glyphs prev) = get_char_render_length tm prev).
  { unfold get_char_render_length, glyphs. rewrite (ec_echo _ He), (ec_echoctl _ He). by destruct (is_control prev). }
  rewrite display_rubs by done. by eexists.
Qed.

(** A character that is echoed and edited keeps the row and the line together. *)
Lemma shows_edit tm r l ch :
  echoing tm -> shows r (pending l) -> Forall (fun c => plain c = true) (pending l) -> plain ch = true -> is_cc tm VEOF ch = false ->
  shows (foldl display r (shown tm l ch)) (pending (edit tm l ch)) /\ Forall (fun c => plain c = true) (pending (edit tm l ch)).
Proof.
  intros He Hs Hf Hp Heof. unfold shown, edit, echo.
  rewrite Heof, (ec_echo _ He), (ec_echoe _ He), (ec_canon _ He), (ec_echoctl _ He). cbn [negb andb].
  destruct (is_cc tm VERASE ch) eqn:Ev; cbn [andb app pending].
  - destruct (pending l) as [|prev p _] eqn:Ep using rev_ind; [done|]. rewrite last_snoc, length_app. cbn [length]. rewrite Nat.add_sub, take_app_length.
    apply Forall_app in Hf as [Hf [Hpr _]%Forall_cons]. split; [by apply shows_rub | done].
  - rewrite app_nil_r. destruct (Z.eqb_spec ch 10) as [->|H10]; cbn [pending].
    + cbn [is_control negb andb]. unfold post. rewrite (ec_onlcr _ He). split; [by exists 0%nat | done].
    + assert (Hg : foldl display r (if is_control ch && negb (ch =? 9) && true then post tm 94 ++ post tm (Z.lxor ch 0x40) else post tm ch) =
        foldl display r (glyphs ch)).
      { f_equal. unfold glyphs. unfold plain in Hp. destruct (is_control ch) eqn:Ec; cbn [andb orb] in *.
        - rewrite Hp. cbn [andb]. pose proof (control_glyph ch Ec). by rewrite !(post_plain tm) by (done || lia).
        - by rewrite (post_plain tm) by (done || lia). }
      cbn [negb]. rewrite Hg. split; [by apply display_glyphs | apply Forall_app; by rewrite Forall_singleton].
Qed.

Lemma shows_edits tm cs : forall r l,
  echoing tm -> shows r (pending l) -> Forall (fun c => plain c = true) (pending l) -> Forall (fun ch => plain ch = true /\ is_cc tm VEOF ch = false) cs ->
  shows (foldl display r (showns tm l cs)) (pending (foldl (edit tm) l cs)).
Proof.
  induction cs as [|c cs IH]; intros r l He Hs Hf Hcs; cbn [showns foldl]; [done|].
  apply Forall_cons in Hcs as [[Hp Heof] Hcs]. destruct (shows_edit tm r l c He Hs Hf Hp Heof) as [Hs' Hf'].
  rewrite foldl_app. by apply IH.
Qed.

(** * The properties *)

(** C11: In canonical mode a process reads exactly the lines that were typed, edited,
    in order: at any point of a session of typing, pumping and reading, what it
    has read and what is ready for it are the lines that [edits] delivers for the
    characters processed so far, the line buffer holds the line that is not yet
    ended, and the characters that were not processed wait in the input buffer.
    The buffers must have room for what arrives, and no character may be one that
    sends a signal. *)
Theorem tty_reads_edited_lines stack vbuf cap es s :
  let tm := tty_termios (s_tty s) in
  cap < 2 ^ 31 -> TERMIOS_LFLAG tm ICANON = true -> unsignalled tm (i8 <$> keys es) ->
  follows stack vbuf cap tm [] [] s -> all_fit stack vbuf cap s es = true ->
  exists s' done, happens stack vbuf s es = Done s' /\ let t := s_tty s' in
    keys es = done ++ contents (input_buf t) /\
    s_read s' ++ contents (output_buf t) = u8 <$> delivered (edits tm no_line (i8 <$> done)) /\
    pending_of t = pending (edits tm no_line (i8 <$> done)).
Proof.
  intros tm Hcap Hcan Hsig Hf Hfit. destruct (happens_ok stack vbuf cap Hcap tm es [] [] s Hcan Hsig Hf Hfit) as (s' & done & E & [? ? Hty Hrd Hpe _ _]).
  by exists s', done.
Qed.

(** The echo shows the line: while characters are typed and erased, the row of
    the cursor shows the line as it will be read, control characters as two
    columns, and the cursor is behind it. *)
Theorem tty_echo_shows_line t r cs :
  let tm := tty_termios t in
  tty_ok t -> room t (Z.of_nat (length cs)) -> echoing tm -> unsignalled tm cs ->
  Forall (fun ch => plain ch = true /\ is_cc tm VEOF ch = false) (typed tm cs) ->
  Forall (fun c => plain c = true) (pending_of t) -> shows r (pending_of t) ->
  exists t' out, tty_process_input t cs = Done t' /\ writes (trace t') = writes (trace t) ++ out /\
    pending_of t' = pending (edits tm {| delivered := []; pending := pending_of t |} cs) /\
    shows (foldl display r out) (pending_of t').
Proof.
  intros tm Hok Hr He Hsig Hcs Hf Hs. destruct (process_chars_spec tm cs t Hok Hr (ec_canon _ He) Hsig) as (t' & E & []).
  eexists t', _. split_and!; [done | done | done|]. rewrite mv_pending0. by apply shows_edits.
Qed.

(** C31: A read of at least one byte ends: after at most one wait it returns, or it
    sleeps until something is typed. *)
Theorem tty_read_terminates os nonblock m t vbuf n :
  wf (output_buf t) -> Forall (fun o : bool * (tty -> tty) => forall t, wf (output_buf t) -> wf (output_buf (snd o t))) os ->
  0 < n < 2 ^ 31 -> exists r, tty_read_loop 2 os nonblock m t vbuf n = Done r /\ r <> Running.
Proof.
  intros Hw Hos Hn. destruct (can_read t) eqn:Ec.
  { destruct (read_ready 1 os nonblock m t vbuf n Hw Hn Ec) as (ret & m' & t' & ->). by eexists. }
  destruct (char_buf_read_user_total (output_buf t) m vbuf n Hw) as (r & b & m' & E & H0 & _); [lia|].
  unfold can_read, char_buf_has_data in Ec. apply orb_false_iff in Ec as [Hz%negb_false_iff%Z.eqb_eq Er]. destruct (H0 Hz) as [-> ->].
  remember 1%nat as k eqn:Ek in |- *. cbn [tty_read_loop]. rewrite E. obind. cbn [ret0 set_output]. rewrite Er.
  destruct (negb (u32 (n - 0) =? n)); [by eexists|]. destruct nonblock; [by eexists|].
  assert (Hw' : wf (output_buf (set_output (output_buf t) t))) by done.
  destruct (wait_event can_read os (set_output (output_buf t) t)) as [[[[ret t1] os1]|] t2] eqn:Ew; [|by eexists].
  destruct (Z.eqb_spec ret 0) as [->|]; cbn [negb]; [|by eexists].
  pose proof (tty_wait_holds _ _ _ _ _ _ Ew eq_refl) as Hc. pose proof (tty_wait_wf os Hos _ _ _ _ _ Hw' Ew) as Hw1.
  subst k. destruct (read_ready 0 os1 false m' t1 vbuf n Hw1 Hn Hc) as (ret & m1 & t3 & ->). by eexists.
Qed.

(** A read of no bytes of a terminal that has data never ends: it neither returns
    nor sleeps, however long it runs. *)
Theorem tty_read_zero_spins fuel os m t vbuf :
  wf (output_buf t) -> 0 < buf_len (output_buf t) -> ret0 t = false -> is_user vbuf = true -> 1 <= ptr vbuf <= KMEM_KBASE ->
  tty_read_loop fuel os false m t vbuf 0 = Done Running.
Proof.
  intros Hw Hb Hr Hu Hp. pose proof Hw as [Hl Hst Hs Hc].
  assert (Hm : user_memcpy_from_kernel m vbuf [] = (0, m)).
  { unfold user_memcpy_from_kernel, user_check_access. rewrite Hu. cbn [negb length single_mov range_mapped movs_out Z.of_nat].
    change (Z.of_nat 0) with 0. rewrite (u32_small (ptr vbuf + 0 - 1)) by (unfold KMEM_KBASE in *; lia).
    replace (ptr vbuf + 0 - 1 <? KMEM_KBASE) with true by lia. done. }
  assert (E : char_buf_read_user (output_buf t) m vbuf 0 = Done (0, output_buf t, m)).
  { unfold char_buf_read_user. destruct (Z.eqb_spec (buf_len (output_buf t)) 0); [lia|].
    rewrite (u32_small (buf_len _)) by lia. destruct (Z.ltb_spec (buf_len (output_buf t)) 0); [lia|].
    rewrite (u32_small (len _ - _)) by lia. destruct (Z.leb_spec 0 (len (output_buf t) - start_pos (output_buf t))); [|lia].
    rewrite arr_slice_done by lia. change (Z.to_nat 0) with 0%nat. rewrite take_0. obind. rewrite Hm. cbn [Z.eqb negb]. rewrite Z.add_0_r, Z.sub_0_r, !i32_small, u32_small by lia.
    destruct (Z.eqb_spec (start_pos (output_buf t)) (len (output_buf t))); [lia|]. by destruct (output_buf t). }
  induction fuel as [|fuel IH]; [done|]. cbn [tty_read_loop]. rewrite E. obind. cbn [ret0 set_output]. rewrite Hr.
  replace (set_output (output_buf t) t) with t by (by destruct t). rewrite (u32_small (0 - 0)) by lia. cbn [Z.sub Z.eqb negb Z.opp Z.add].
  assert (Hcr : can_read t = true) by (unfold can_read, char_buf_has_data; rewrite Hr; lia).
  assert (Hwe : wait_event can_read os t = (Some (0, t, os), t)) by (destruct os; cbn [wait_event]; by rewrite Hcr).
  rewrite Hwe. cbn [Z.eqb negb]. exact IH.
Qed.

(** * A terminal *)

Definition queue_of (n : nat) : char_buf := char_buf_init (replicate n 0) (Z.of_nat n).

Definition demo_tty : tty :=
  {| device_no := 0; session_id := 0; fg_pgrp := 0; tty_winsize := {| ws_row := 25; ws_col := 80; ws_xpixel := 0; ws_ypixel := 0 |};
     tty_termios := default_termios; input_buf := queue_of 16; output_buf := queue_of 128; ret0 := false;
     line_buf := replicate 80 0; line_buf_pos := 0; line_buf_size := 80; trace := [] |}.

Definition zeros (l : list Z) : gmap Z Z := list_to_map ((fun a => (a, 0)) <$> l).

Lemma zeros_mapped l a : a ∈ l -> is_Some (zeros l !! a).
Proof.
  intros H. induction l as [|b l IH]; [by apply elem_of_nil in H|]. unfold zeros in *. cbn [fmap list_fmap list_to_map foldr].
  change (is_Some (<[b := 0]> (list_to_map ((fun a => (a, 0)) <$> l) : gmap Z Z) !! a)).
  destruct (decide (a = b)) as [->|Hne]; [rewrite lookup_insert_eq; by eexists|]. rewrite lookup_insert_ne by done.
  apply IH. by apply elem_of_cons in H as [?|?].
Qed.

Definition demo_mem : gmap Z Z := zeros (seqZ 0xC0001000 64 ++ seqZ 2000 8).

Definition demo_session : session := {| s_tty := demo_tty; s_mem := demo_mem; s_read := [] |}.

Lemma queue_wf n : (0 < n)%nat -> Z.of_nat n < 2 ^ 30 -> wf (queue_of n).
Proof. intros. split; cbn [queue_of char_buf_init buffer len start_pos buf_len]; rewrite ?length_replicate; lia. Qed.

Lemma demo_tty_ok : tty_ok demo_tty.
Proof. split; cbn [demo_tty output_buf input_buf line_buf line_buf_pos line_buf_size]; [apply queue_wf; lia.. | done | lia]. Qed.

Lemma demo_follows : follows 0xC0001000 (make_user_buffer 2000) 8 default_termios [] [] demo_session.
Proof.
  split; cbn [demo_session s_tty s_mem s_read]; [apply demo_tty_ok | done..| |].
  - split; [unfold range_ok; cbn; lia | done|]. intros a Ha. apply zeros_mapped, elem_of_app. left. apply elem_of_seqZ. cbn in Ha. lia.
  - split; [unfold range_ok; cbn; lia | unfold KMEM_KBASE; cbn; lia|]. intros a Ha. apply zeros_mapped, elem_of_app. right. apply elem_of_seqZ. cbn in Ha. lia.
Qed.

(** [a], [b], an erased character, [c] and a carriage return; then [x]. *)
Definition demo_events : list event := [Typed [97; 98; 127; 99; 13]; Pump; ReadUpTo false 8; Typed [120]; Pump].

Lemma tty_reads_edited_lines_witness :
  exists s', happens 0xC0001000 (make_user_buffer 2000) demo_session demo_events = Done s' /\
    s_read s' = [97; 99; 10] /\ pending_of (s_tty s') = [120].
Proof.
  destruct (tty_reads_edited_lines 0xC0001000 (make_user_buffer 2000) 8 demo_events demo_session) as (s' & done & E & Hty & Hrd & Hp).
  - lia.
  - done.
  - vm_compute. repeat constructor.
  - apply demo_follows.
  - by vm_compute.
  - exists s'. split; [done|]. vm_compute in E. apply done_inj in E. subst s'. split; by vm_compute.
Defined.

Lemma tty_echo_shows_line_witness :
  exists t' out, tty_process_input demo_tty [97; 1; 98; 127; 127] = Done t' /\
    pending_of t' = [97] /\ shows (foldl display {| cells := []; col := 0 |} out) (pending_of t').
Proof.
  destruct (tty_echo_shows_line demo_tty {| cells := []; col := 0 |} [97; 1; 98; 127; 127]) as (t' & out & E & _ & Hp & Hs).
  - apply demo_tty_ok.
  - split; cbn; lia.
  - by split.
  - vm_compute. repeat constructor.
  - vm_compute. repeat constructor.
  - constructor.
  - by exists 0%nat.
  - exists t', out. split; [done|]. split; [by rewrite Hp | done].
Defined.

Definition demo_ready : tty := set_output {| buffer := [97; 10; 0; 0]; len := 4; start_pos := 0; buf_len := 2 |} demo_tty.

Lemma tty_read_terminates_witness :
  exists r, tty_read_loop 2 [(false, fun _ => demo_ready)] false demo_mem demo_tty (make_user_buffer 2000) 8 = Done r /\ r <> Running.
Proof.
  apply (tty_read_terminates [(false, fun _ => demo_ready)] false demo_mem demo_tty (make_user_buffer 2000) 8).
  - apply queue_wf; lia.
  - apply Forall_singleton. intros t _. split; cbn; lia.
  - lia.
Defined.

Lemma tty_read_zero_spins_witness : tty_read_loop 1000 [] false demo_mem demo_ready (make_user_buffer 2000) 0 = Done Running.
Proof. apply (tty_read_zero_spins 1000 [] demo_mem demo_ready (make_user_buffer 2000)); [split; cbn; lia | cbn; lia | done | done | cbn; unfold KMEM_KBASE; lia]. Defined.
