(* ===== verification/Palloc.v ===== *)
(** The physical page allocator (src/mm/palloc.c, include/protura/mm/palloc.h):
    a buddy allocator over the array of [struct page].  A [struct page *] is its
    index in that array; a free list is the list of the indices linked in it,
    first node first. *)
From stdpp Require Import base numbers list gmap.
From Stdlib Require Import ZArith ZifyBool Lia.
From S2P Require Import Prelude.
Open Scope Z_scope.

Definition PG_SHIFT : Z := 12.
Definition PG_SIZE : Z := 4096.
Definition PALLOC_MAPS : Z := 6.
Definition PG_INVALID : Z := 31.
Definition PAL_NOWAIT : Z := 1.

Record page : Type := {
  use_count : Z;
  page_number : Z;
  order : Z;
  flags : Z;
  virt : Z;
}.

(** [free_pages] of a map and the number of nodes it claims to hold. *)
Record page_buddy_map : Type := { free_list : list Z; free_count : Z }.

(** [wakes] records the [wait_queue_wake()] calls on the maps' queues. *)
Record page_buddy_alloc : Type := {
  pages : list page;
  page_count : Z;
  maps : list page_buddy_map;
  free_pages : Z;
  wakes : list Z;
}.

(** ** Field updates *)
Definition page_with_order (p : page) (o : Z) : page :=
  {| use_count := use_count p; page_number := page_number p; order := o;
     flags := flags p; virt := virt p |}.
Definition page_with_use_count (p : page) (c : Z) : page :=
  {| use_count := c; page_number := page_number p; order := order p;
     flags := flags p; virt := virt p |}.
Definition page_with_flags (p : page) (f : Z) : page :=
  {| use_count := use_count p; page_number := page_number p; order := order p;
     flags := f; virt := virt p |}.
Definition alloc_with_pages (a : page_buddy_alloc) (ps : list page) : page_buddy_alloc :=
  {| pages := ps; page_count := page_count a; maps := maps a;
     free_pages := free_pages a; wakes := wakes a |}.
Definition alloc_with_maps (a : page_buddy_alloc) (ms : list page_buddy_map) : page_buddy_alloc :=
  {| pages := pages a; page_count := page_count a; maps := ms;
     free_pages := free_pages a; wakes := wakes a |}.
Definition alloc_add_free (a : page_buddy_alloc) (n : Z) : page_buddy_alloc :=
  {| pages := pages a; page_count := page_count a; maps := maps a;
     free_pages := free_pages a + n; wakes := wakes a |}.

(** [page_from_pn(pn)->f = ...] *)
Definition page_update (a : page_buddy_alloc) (pn : Z) (f : page -> page)
  : outcome page_buddy_alloc :=
  p ← arr_get (pages a) pn;
  ps ← arr_set (pages a) pn (f p);
  Done (alloc_with_pages a ps).

Definition map_update (a : page_buddy_alloc) (k : Z) (f : page_buddy_map -> page_buddy_map)
  : outcome page_buddy_alloc :=
  m ← arr_get (maps a) k;
  ms ← arr_set (maps a) k (f m);
  Done (alloc_with_maps a ms).

(** [list_del(&p->page_list_node)]: unlinks the node from the list it is in. *)
Definition list_del (a : page_buddy_alloc) (pn : Z) : page_buddy_alloc :=
  alloc_with_maps a
    ((fun m => {| free_list := filter (fun x => x <> pn) (free_list m);
                  free_count := free_count m |}) <$> maps a).

Definition map_count_add (a : page_buddy_alloc) (k d : Z) : outcome page_buddy_alloc :=
  map_update a k (fun m => {| free_list := free_list m; free_count := free_count m + d |}).

(** [list_add(&maps[k].free_pages, node)] links at the front. *)
Definition map_list_add (a : page_buddy_alloc) (k pn : Z) : outcome page_buddy_alloc :=
  map_update a k (fun m => {| free_list := pn :: free_list m; free_count := free_count m |}).

(** [list_take_last(&maps[k].free_pages)]; taking from an empty list would
    return the head itself. *)
Definition map_take_last (a : page_buddy_alloc) (k : Z) : outcome (Z * page_buddy_alloc) :=
  m ← arr_get (maps a) k;
  match last (free_list m) with
  | Some pn => Done (pn, list_del a pn)
  | None => Fault
  end.

(** ** Operations *)

Definition get_buddy_pn (pn ord : Z) : Z := Z.lxor pn (Z.shiftl 1 ord).

Definition page_from_pn (a : page_buddy_alloc) (pn : Z) : outcome page := arr_get (pages a) pn.

(** The coalescing loop of [__pfree_add_pages]; [n] bounds its iterations
    ([PALLOC_MAPS - 1 - ord] of them are left). *)
Fixpoint pfree_merge (n : nat) (a : page_buddy_alloc) (cur_page ord : Z)
  : outcome (page_buddy_alloc * Z * Z) :=
  match n with
  | O => Done (a, cur_page, ord)
  | S n' =>
      let buddy_pn := get_buddy_pn cur_page ord in
      buddy ← page_from_pn a buddy_pn;
      if negb (order buddy =? ord) || Z.testbit (flags buddy) PG_INVALID
      then Done (a, cur_page, ord)
      else
        let a := list_del a buddy_pn in
        a ← map_count_add a ord (-1);
        let cur_page := Z.land cur_page (Z.lnot (Z.shiftl 1 ord)) in
        a ← page_update a (get_buddy_pn cur_page ord) (fun p => page_with_order p (-1));
        pfree_merge n' a cur_page (ord + 1)
  end.

Definition pfree_add_pages (a : page_buddy_alloc) (cur_page ord : Z) : outcome page_buddy_alloc :=
  let original_order := ord in
  '(a, cur_page, ord) ← pfree_merge (Z.to_nat (PALLOC_MAPS - 1 - ord)) a cur_page ord;
  a ← page_update a cur_page (fun p => page_with_order p ord);
  a ← map_list_add a ord cur_page;
  a ← map_count_add a ord 1;
  Done (alloc_add_free a (Z.shiftl 1 original_order)).

(** [wait_queue_wake] on the maps [0 .. ord]. *)
Definition wake_maps (a : page_buddy_alloc) (ord : Z) : page_buddy_alloc :=
  {| pages := pages a; page_count := page_count a; maps := maps a; free_pages := free_pages a;
     wakes := wakes a ++ seqZ 0 (ord + 1) |}.

Section kernel_image.
  (** The physical bounds of the kernel image, set by the linker script:
      [V2P(&kern_start)] and [V2P(&kern_end)]. *)
  Context (kern_start kern_end : Z).

Definition in_kernel (pa : Z) : bool := (kern_start <=? pa) && (pa <? kern_end).

Definition mark_page_free (a : page_buddy_alloc) (pa : Z) : outcome page_buddy_alloc :=
  if in_kernel pa then Done a
  else pfree_add_pages a (Z.shiftr pa PG_SHIFT) 0.

Definition pfree (a : page_buddy_alloc) (p : option Z) (ord : Z) : outcome page_buddy_alloc :=
  match p with
  | None => Done a
  | Some p =>
      pg ← page_from_pn a p;
      if in_kernel (Z.shiftl (page_number pg) PG_SHIFT) then Done a
      else
        a ← page_update a p (fun pg => page_with_use_count pg (use_count pg - 1));
        if negb (use_count pg - 1 =? 0) then Done a
        else
          a ← pfree_add_pages a (page_number pg) ord;
          Done (wake_maps a ord)
  end.

Fixpoint pfree_unordered (a : page_buddy_alloc) (head : list Z) : outcome page_buddy_alloc :=
  match head with
  | [] => Done a
  | p :: head' => a ← pfree a (Some p) 0; pfree_unordered a head'
  end.

(** The second half of [break_page]: the last block of [maps[ord]] becomes two
    blocks of the order below. *)
Definition break_page_split (a : page_buddy_alloc) (ord : Z) : outcome page_buddy_alloc :=
  '(p, a) ← map_take_last a ord;
  a ← map_count_add a ord (-1);
  let ord := ord - 1 in
  pg ← page_from_pn a p;
  let buddy := get_buddy_pn (page_number pg) ord in
  a ← page_update a p (fun pg => page_with_order pg ord);
  a ← page_update a buddy (fun pg => page_with_order pg ord);
  a ← map_list_add a ord p;
  a ← map_list_add a ord buddy;
  map_count_add a ord 2.

(** [n] bounds the recursion: [PALLOC_MAPS - ord] levels are left. *)
Fixpoint break_page (n : nat) (a : page_buddy_alloc) (ord : Z) : outcome page_buddy_alloc :=
  if (PALLOC_MAPS <=? ord) || (ord <? 0) then Done a
  else match n with
  | O => Fault
  | S n' =>
      m ← arr_get (maps a) ord;
      a ← (if free_count m =? 0 then break_page n' a (ord + 1) else Done a);
      m ← arr_get (maps a) ord;
      if free_count m =? 0 then Done a else break_page_split a ord
  end.

(** [sleep] is what the rest of the system did between the task going to sleep
    in [wait_queue_event_spinlock] and its condition holding (the freed caches of
    [__oom()] included). *)
Definition palloc_sleep_for_enough_pages (sleep : page_buddy_alloc -> page_buddy_alloc)
    (a : page_buddy_alloc) (ord : Z) : page_buddy_alloc :=
  if free_pages a <? Z.shiftl 1 ord then sleep a else a.

Definition palloc_phys_multiple (sleep : page_buddy_alloc -> page_buddy_alloc)
    (a : page_buddy_alloc) (ord flgs : Z) : outcome (option Z * page_buddy_alloc) :=
  let a := if Z.land flgs PAL_NOWAIT =? 0 then palloc_sleep_for_enough_pages sleep a ord else a in
  m ← arr_get (maps a) ord;
  a ← (if free_count m =? 0 then break_page (Z.to_nat PALLOC_MAPS) a (ord + 1) else Done a);
  m ← arr_get (maps a) ord;
  if free_count m =? 0 then Done (None, a)
  else
    '(p, a) ← map_take_last a ord;
    a ← map_count_add a ord (-1);
    pg ← page_from_pn a p;
    if negb (page_number pg =? p) then Panic
    else
      a ← page_update a p (fun pg => page_with_order pg (-1));
      let a := alloc_add_free a (- Z.shiftl 1 ord) in
      a ← page_update a p (fun pg => page_with_use_count pg (use_count pg + 1));
      Done (Some p, a).

(** [palloc] reads [p->page_number] for its sanity check before any test of [p]:
    a failed allocation is a null dereference. *)
Definition palloc (sleep : page_buddy_alloc -> page_buddy_alloc)
    (a : page_buddy_alloc) (ord flgs : Z) : outcome (option Z * page_buddy_alloc) :=
  '(p, a) ← palloc_phys_multiple sleep a ord flgs;
  match p with
  | None => Fault
  | Some pn => pg ← page_from_pn a pn; Done (Some pn, a)
  end.

Fixpoint palloc_unordered (sleep : page_buddy_alloc -> page_buddy_alloc)
    (a : page_buddy_alloc) (head : list Z) (count : nat) (flgs : Z)
  : outcome (list Z * page_buddy_alloc) :=
  match count with
  | O => Done (head, a)
  | S n =>
      '(p, a) ← palloc_phys_multiple sleep a 0 flgs;
      match p with
      | None => Fault
      | Some pn => palloc_unordered sleep a (head ++ [pn]) n flgs
      end
  end.

Definition palloc_free_page_count (a : page_buddy_alloc) : Z := free_pages a.

End kernel_image.

(** [page_init_entry i] is what the loop body of [palloc_init] stores for the
    entry at index [i] (memory is zeroed before). *)
Definition page_init_entry (i : Z) : page :=
  {| use_count := 0; page_number := u32 i; order := -1; flags := Z.shiftl 1 PG_INVALID;
     virt := u32 (Z.shiftl (u32 i) PG_SHIFT + 0xC0000000) |}.

Definition zero_page : page :=
  {| use_count := 0; page_number := 0; order := 0; flags := 0; virt := 0 |}.

(** [while (p-- >= pages) { ... }] from index [p]: the array, and the stores that
    fell outside of it. *)
Fixpoint palloc_init_loop (fuel : nat) (p : Z) (ps : list page) (outside : list (Z * page))
  : list page * list (Z * page) :=
  match fuel with
  | O => (ps, outside)
  | S fuel' =>
      if 0 <=? p then
        let p := p - 1 in
        match arr_set ps p (page_init_entry p) with
        | Done ps' => palloc_init_loop fuel' p ps' outside
        | _ => palloc_init_loop fuel' p ps (outside ++ [(p, page_init_entry p)])
        end
      else (ps, outside)
  end.

Definition palloc_init (n : Z) : page_buddy_alloc * list (Z * page) :=
  let '(ps, outside) :=
    palloc_init_loop (Z.to_nat n + 2) n (replicate (Z.to_nat n) zero_page) [] in
  ({| pages := ps; page_count := n;
      maps := replicate (Z.to_nat PALLOC_MAPS) {| free_list := []; free_count := 0 |};
      free_pages := 0; wakes := [] |}, outside).

(** * Views of the state *)

Definition fl (a : page_buddy_alloc) (k : nat) : list Z := default [] (free_list <$> maps a !! k).
Definition cnt (a : page_buddy_alloc) (k : nat) : Z := default 0 (free_count <$> maps a !! k).
Definition ord_of (a : page_buddy_alloc) (pn : Z) : Z :=
  default (-1) (order <$> pages a !! Z.to_nat pn).
Definition invalid (a : page_buddy_alloc) (pn : Z) : bool :=
  default true ((fun p => Z.testbit (flags p) PG_INVALID) <$> pages a !! Z.to_nat pn).
Definition npages (a : page_buddy_alloc) : Z := Z.of_nat (length (pages a)).

(** Size of a block of order [k] in pages. *)
Definition blk (k : nat) : Z := 2 ^ Z.of_nat k.

(** The pages accounted for by the counters of the maps. *)
Definition counted (a : page_buddy_alloc) : Z :=
  cnt a 0 + 2 * cnt a 1 + 4 * cnt a 2 + 8 * cnt a 3 + 16 * cnt a 4 + 32 * cnt a 5.

(** Page [x] lies in a block of some free list. *)
Definition is_free (a : page_buddy_alloc) (x : Z) : Prop :=
  exists k pn, pn ∈ fl a k /\ pn <= x < pn + blk k.

(** ** Buddies *)

Lemma blk_pos k : 0 < blk k.
Proof. unfold blk. lia. Qed.

Lemma blk_S k : blk (S k) = 2 * blk k.
Proof. unfold blk. rewrite Nat2Z.inj_succ, Z.pow_succ_r by lia. lia. Qed.

Lemma lxor_1 q : 0 <= q -> Z.lxor q 1 = if Z.even q then q + 1 else q - 1.
Proof.
  intros Hq. destruct q as [|p|p]; [done | | lia]. destruct p; done.
Qed.

(** The lower and the upper half of the pair a block and its buddy form. *)
Lemma get_buddy_pn_spec pn k :
  0 <= pn -> pn mod blk k = 0 ->
  get_buddy_pn pn (Z.of_nat k) =
  (if Z.even (pn / blk k) then pn + blk k else pn - blk k).
Proof.
  intros H0 Ha. pose proof (blk_pos k). unfold get_buddy_pn.
  assert (Hpn : pn = Z.shiftl (pn / blk k) (Z.of_nat k)).
  { rewrite Z.shiftl_mul_pow2 by lia. fold (blk k).
    rewrite Z.mul_comm. apply Z_div_exact_full_2; [lia | done]. }
  rewrite Hpn at 1. rewrite <- Z.shiftl_lxor, lxor_1 by (apply Z.div_pos; lia).
  rewrite Z.shiftl_mul_pow2 in * by lia. fold (blk k) in *.
  destruct (Z.even _); lia.
Qed.

Lemma clear_bit_spec pn k :
  0 <= pn -> pn mod blk k = 0 ->
  Z.land pn (Z.lnot (Z.shiftl 1 (Z.of_nat k))) =
  (if Z.even (pn / blk k) then pn else pn - blk k).
Proof.
  intros H0 Ha. pose proof (blk_pos k).
  assert (Hpn : pn = Z.shiftl (pn / blk k) (Z.of_nat k)).
  { rewrite Z.shiftl_mul_pow2 by lia. fold (blk k).
    rewrite Z.mul_comm. apply Z_div_exact_full_2; [lia | done]. }
  rewrite <- Z.ldiff_land. rewrite Hpn at 1. rewrite <- Z.shiftl_ldiff.
  change 1 with (Z.ones 1) at 1. rewrite Z.ldiff_ones_r by lia.
  rewrite Z.shiftr_div_pow2, !Z.shiftl_mul_pow2 in * by lia. fold (blk k) in *.
  change (2 ^ 1) with 2.
  pose proof (Z.div_mod (pn / blk k) 2 ltac:(lia)) as Hd. rewrite Zmod_even in Hd.
  destruct (Z.even _); nia.
Qed.

(** Arithmetic of a block [cur] of order [k] whose buddy is [b]. *)
Lemma buddy_cases cur k n :
  (k < 5)%nat -> 0 <= cur -> cur mod blk k = 0 -> cur + blk k <= n -> n mod 32 = 0 ->
  let b := get_buddy_pn cur (Z.of_nat k) in
  let lo := Z.land cur (Z.lnot (Z.shiftl 1 (Z.of_nat k))) in
  0 <= b /\ b mod blk k = 0 /\ b + blk k <= n /\ 0 <= lo /\ lo mod blk (S k) = 0 /\
  lo + blk (S k) <= n /\ get_buddy_pn lo (Z.of_nat k) = lo + blk k /\
  ((b = lo /\ cur = lo + blk k) \/ (cur = lo /\ b = lo + blk k)).
Proof.
  intros Hk H0 Ha Hn Hm. cbv zeta.
  rewrite get_buddy_pn_spec, clear_bit_spec by done.
  assert (H : exists q, cur = q * blk k /\ 0 <= q).
  { exists (cur / blk k). pose proof (blk_pos k). split; [|apply Z.div_pos; lia].
    rewrite Z.mul_comm. apply Z_div_exact_full_2; lia. }
  destruct H as (q & -> & Hq). rewrite Z.div_mul by (pose proof (blk_pos k); lia).
  rewrite blk_S in *.
  destruct (Z.even q) eqn:Eq.
  - apply Z.even_spec in Eq as [r ->].
    rewrite (get_buddy_pn_spec (2 * r * blk k)) by
      (pose proof (blk_pos k); try apply Z.mod_mul; nia).
    rewrite Z.div_mul by (pose proof (blk_pos k); lia).
    rewrite Z.even_mul. simpl.
    do 5 (destruct k as [|k]; [unfold blk in *; simpl in *; Z.div_mod_to_equations; lia|]); lia.
  - assert (Z.odd q = true) as [r ->]%Z.odd_spec by (rewrite <- Z.negb_even, Eq; done).
    replace ((2 * r + 1) * blk k - blk k) with (2 * r * blk k) by lia.
    rewrite (get_buddy_pn_spec (2 * r * blk k)) by
      (pose proof (blk_pos k); try apply Z.mod_mul; nia).
    rewrite Z.div_mul by (pose proof (blk_pos k); lia).
    rewrite Z.even_mul. simpl.
    do 5 (destruct k as [|k]; [unfold blk in *; simpl in *; Z.div_mod_to_equations; lia|]); lia.
Qed.

(** ** The primitive updates, seen through the views *)

(** [a'] has the page array of [a] up to orders and use counts, with the free
    lists [Fl], the counters [Cn] and the orders [Or]. *)
Record views (a a' : page_buddy_alloc) (Fl : nat -> list Z) (Cn : nat -> Z) (Or : Z -> Z) : Prop := {
  vw_npages : npages a' = npages a;
  vw_free : free_pages a' = free_pages a;
  vw_maps : length (maps a') = length (maps a);
  vw_fl : forall j, fl a' j = Fl j;
  vw_cnt : forall j, cnt a' j = Cn j;
  vw_ord : forall pn, 0 <= pn -> ord_of a' pn = Or pn;
  vw_invalid : forall pn, invalid a' pn = invalid a pn;
  vw_number : forall i : nat, page_number <$> pages a' !! i = page_number <$> pages a !! i;
}.

Lemma views_trans a b c Fl Cn Or Fl' Cn' Or' :
  views a b Fl Cn Or -> views b c Fl' Cn' Or' -> views a c Fl' Cn' Or'.
Proof. intros [] []. split; intros; congruence || eauto with congruence. Qed.

Lemma views_ext a a' Fl Cn Or Fl' Cn' Or' :
  views a a' Fl Cn Or -> (forall j, Fl j = Fl' j) -> (forall j, Cn j = Cn' j) ->
  (forall x, 0 <= x -> Or x = Or' x) -> views a a' Fl' Cn' Or'.
Proof.
  intros [] HF HC HO. split; auto; intros.
  - by rewrite <- HF.
  - by rewrite <- HC.
  - rewrite <- HO by done. auto.
Qed.

Lemma map_update_done a k f :
  (k < length (maps a))%nat ->
  map_update a (Z.of_nat k) f = Done (alloc_with_maps a (alter f k (maps a))).
Proof.
  intros Hk. destruct (lookup_lt_is_Some_2 _ _ Hk) as [m Hm]. unfold map_update.
  assert (arr_get (maps a) (Z.of_nat k) = Done m) as ->.
  { apply arr_get_done. rewrite Nat2Z.id. split; [lia | done]. }
  simpl. rewrite arr_set_total by lia. simpl. rewrite Nat2Z.id. do 2 f_equal.
  apply list_eq. intros i. destruct (decide (i = k)) as [->|Hne].
  - rewrite list_lookup_alter_eq, list_lookup_insert_eq by done. by rewrite Hm.
  - by rewrite list_lookup_alter_ne, list_lookup_insert_ne by done.
Qed.

Lemma map_update_views a k f (g : list Z -> list Z) (d : Z) :
  (k < length (maps a))%nat ->
  (forall m, free_list (f m) = g (free_list m) /\ free_count (f m) = free_count m + d) ->
  exists a', map_update a (Z.of_nat k) f = Done a' /\
    views a a' (fun j => if decide (j = k) then g (fl a k) else fl a j)
      (fun j => if decide (j = k) then cnt a k + d else cnt a j) (ord_of a).
Proof.
  intros Hk Hf. rewrite map_update_done by done. eexists. split; [done|].
  destruct (lookup_lt_is_Some_2 _ _ Hk) as [m Hm]. destruct (Hf m) as [Hg Hd].
  split; simpl; auto.
  - apply length_alter.
  - intros j. unfold fl; simpl. destruct (decide (j = k)) as [->|Hne].
    + by rewrite list_lookup_alter_eq, Hm.
    + by rewrite list_lookup_alter_ne by done.
  - intros j. unfold cnt; simpl. destruct (decide (j = k)) as [->|Hne].
    + by rewrite list_lookup_alter_eq, Hm.
    + by rewrite list_lookup_alter_ne by done.
Qed.

Lemma map_count_add_views a k d :
  (k < length (maps a))%nat ->
  exists a', map_count_add a (Z.of_nat k) d = Done a' /\
    views a a' (fl a) (fun j => if decide (j = k) then cnt a k + d else cnt a j) (ord_of a).
Proof.
  intros Hk. destruct (map_update_views a k
    (fun m => {| free_list := free_list m; free_count := free_count m + d |})
    id d) as (a' & Hu & Hv); [done | done |].
  exists a'. split; [done|]. eapply views_ext; [done.. | |done|done].
  intros j. simpl. case_decide; by subst.
Qed.

Lemma map_list_add_views a k pn :
  (k < length (maps a))%nat ->
  exists a', map_list_add a (Z.of_nat k) pn = Done a' /\
    views a a' (fun j => if decide (j = k) then pn :: fl a k else fl a j) (cnt a) (ord_of a).
Proof.
  intros Hk. destruct (map_update_views a k
    (fun m => {| free_list := pn :: free_list m; free_count := free_count m |})
    (cons pn) 0) as (a' & Hu & Hv); [done | simpl; auto with lia |].
  exists a'. split; [done|]. eapply views_ext; [done.. | |done].
  intros j. simpl. case_decide; subst; lia.
Qed.

Lemma list_del_views a pn :
  views a (list_del a pn) (fun j => filter (fun x => x <> pn) (fl a j)) (cnt a) (ord_of a).
Proof.
  split; simpl; auto.
  - apply length_fmap.
  - intros j. unfold fl; simpl. rewrite list_lookup_fmap. by destruct (maps a !! j).
  - intros j. unfold cnt; simpl. rewrite list_lookup_fmap. by destruct (maps a !! j).
Qed.

Lemma page_update_done a pn f :
  0 <= pn < npages a ->
  page_update a pn f = Done (alloc_with_pages a (alter f (Z.to_nat pn) (pages a))).
Proof.
  intros Hp. unfold npages in Hp. destruct (lookup_lt_is_Some_2 (pages a) (Z.to_nat pn)) as [p Hl]; [lia|].
  unfold page_update.
  assert (arr_get (pages a) pn = Done p) as -> by (apply arr_get_done; auto with lia).
  simpl. rewrite arr_set_total by lia. simpl. do 2 f_equal.
  apply list_eq. intros i. destruct (decide (i = Z.to_nat pn)) as [->|Hne].
  - rewrite list_lookup_alter_eq, list_lookup_insert_eq by (eapply lookup_lt_Some; eauto).
    by rewrite Hl.
  - by rewrite list_lookup_alter_ne, list_lookup_insert_ne by done.
Qed.

(** An update of the page at [pn] that only touches its order or use count. *)
Lemma page_update_views a pn f (g : Z -> Z) :
  0 <= pn < npages a ->
  (forall p, order (f p) = g (order p) /\ flags (f p) = flags p /\ page_number (f p) = page_number p) ->
  exists a', page_update a pn f = Done a' /\
    views a a' (fl a) (cnt a) (fun x => if decide (x = pn) then g (ord_of a pn) else ord_of a x).
Proof.
  intros Hp Hf. rewrite page_update_done by done. eexists. split; [done|].
  unfold npages in Hp. destruct (lookup_lt_is_Some_2 (pages a) (Z.to_nat pn)) as [p Hl]; [lia|].
  split; simpl; auto.
  - unfold npages. simpl. by rewrite length_alter.
  - intros x Hx. unfold ord_of; simpl. case_decide as E.
    + subst. rewrite list_lookup_alter_eq, Hl. simpl. apply Hf.
    + rewrite list_lookup_alter_ne by lia. done.
  - intros x. unfold invalid; simpl. destruct (decide (Z.to_nat x = Z.to_nat pn)) as [E|E].
    + rewrite E, list_lookup_alter_eq, Hl. simpl. destruct (Hf p) as (_ & -> & _). done.
    + rewrite list_lookup_alter_ne by done. done.
  - intros i. destruct (decide (i = Z.to_nat pn)) as [->|E].
    + rewrite list_lookup_alter_eq, Hl. simpl. f_equal. apply Hf.
    + by rewrite list_lookup_alter_ne by done.
Qed.

Lemma page_set_order_views a pn o :
  0 <= pn < npages a ->
  exists a', page_update a pn (fun p => page_with_order p o) = Done a' /\
    views a a' (fl a) (cnt a) (fun x => if decide (x = pn) then o else ord_of a x).
Proof. intros Hp. by apply (page_update_views a pn _ (fun _ => o)). Qed.

Lemma page_from_pn_views a pn :
  0 <= pn < npages a ->
  exists p, page_from_pn a pn = Done p /\ order p = ord_of a pn /\
    Z.testbit (flags p) PG_INVALID = invalid a pn /\
    page_number <$> pages a !! Z.to_nat pn = Some (page_number p).
Proof.
  intros Hp. unfold npages in Hp.
  destruct (lookup_lt_is_Some_2 (pages a) (Z.to_nat pn)) as [p Hl]; [lia|].
  exists p. split_and!.
  - apply arr_get_done. auto with lia.
  - unfold ord_of. by rewrite Hl.
  - unfold invalid. by rewrite Hl.
  - by rewrite Hl.
Qed.

(** * The invariant *)

(** Everything but the page [cur], which is being freed, is consistent: the
    lists hold distinct, aligned, valid, pairwise disjoint blocks inside the
    array, the [order] fields say exactly which page heads which block and the
    counters are the lengths. *)
Record inv_but (a : page_buddy_alloc) (cur : Z) : Prop := {
  ib_maps : length (maps a) = 6%nat;
  ib_len : npages a mod 32 = 0;
  ib_num : forall i pn, page_number <$> pages a !! i = Some pn -> pn = Z.of_nat i;
  ib_count : forall k, cnt a k = Z.of_nat (length (fl a k));
  ib_nodup : forall k, NoDup (fl a k);
  ib_block : forall k pn, pn ∈ fl a k ->
    (k < 6)%nat /\ pn <> cur /\ 0 <= pn /\ pn + blk k <= npages a /\ pn mod blk k = 0 /\
    ord_of a pn = Z.of_nat k /\ (forall x, pn <= x < pn + blk k -> invalid a x = false);
  ib_order : forall pn, 0 <= pn < npages a -> pn <> cur -> ord_of a pn <> -1 ->
    exists k, ord_of a pn = Z.of_nat k /\ pn ∈ fl a k;
  ib_disj : forall k pn k' pn', pn ∈ fl a k -> pn' ∈ fl a k' -> pn <> pn' ->
    pn + blk k <= pn' \/ pn' + blk k' <= pn;
}.

(** No block of order [k] is free together with its buddy. *)
Definition coalesced (a : page_buddy_alloc) (k : nat) : Prop :=
  forall pn, pn ∈ fl a k -> (k < 5)%nat -> get_buddy_pn pn (Z.of_nat k) ∉ fl a k.

(** The allocator's invariant at rest. *)
Definition inv (a : page_buddy_alloc) : Prop :=
  inv_but a (-1) /\ (forall k, coalesced a k) /\ free_pages a = counted a.

(** [cur] heads a block of order [k] that no free list overlaps. *)
Record held (a : page_buddy_alloc) (cur : Z) (k : nat) : Prop := {
  h_order : (k <= 5)%nat;
  h_low : 0 <= cur;
  h_align : cur mod blk k = 0;
  h_high : cur + blk k <= npages a;
  h_valid : forall x, cur <= x < cur + blk k -> invalid a x = false;
  h_disj : forall j pn, pn ∈ fl a j -> pn + blk j <= cur \/ cur + blk k <= pn;
}.

Lemma counted_change a a' k d :
  (k < 6)%nat -> (forall j, cnt a' j = if decide (j = k) then cnt a k + d else cnt a j) ->
  counted a' = counted a + blk k * d.
Proof.
  intros Hk Hc. unfold counted. rewrite !Hc.
  do 6 (destruct k as [|k]; [repeat case_decide; unfold blk; simpl; lia|]); lia.
Qed.

Lemma fl_unique a cur k k' pn : inv_but a cur -> pn ∈ fl a k -> pn ∈ fl a k' -> k = k'.
Proof.
  intros I H H'. apply (ib_block _ _ I) in H as (_ & _ & _ & _ & _ & H & _).
  apply (ib_block _ _ I) in H' as (_ & _ & _ & _ & _ & H' & _). lia.
Qed.

Lemma filter_count a cur k b j :
  inv_but a cur -> b ∈ fl a k ->
  Z.of_nat (length (filter (fun x => x <> b) (fl a j))) =
  (if decide (j = k) then cnt a k + -1 else cnt a j).
Proof.
  intros I Hb. rewrite !(ib_count _ _ I). case_decide as E.
  - subst. rewrite filter_ne_length by (auto; apply (ib_nodup _ _ I)). lia.
  - rewrite filter_ne_absent; [done|]. intros Hj. by apply E, (fl_unique a cur j k b).
Qed.

(** Taking the block [b] of order [k] out of the lists and off the counter. *)
Lemma remove_inv a a' cur new b k Or :
  inv_but a cur -> b ∈ fl a k -> (new = cur \/ new = b) ->
  views a a' (fun j => filter (fun x => x <> b) (fl a j))
    (fun j => if decide (j = k) then cnt a k + -1 else cnt a j) Or ->
  (forall x, x <> cur -> x <> b -> Or x = ord_of a x) ->
  (forall x, 0 <= x -> x = cur \/ x = b -> x <> new -> Or x = -1) ->
  inv_but a' new.
Proof.
  intros I Hb Hnew [Hn Hfp Hm Hfl Hc Ho Hi Hnum] Hsame Hgone. split.
  - by rewrite Hm, (ib_maps _ _ I).
  - rewrite Hn. apply I.
  - intros i pn. rewrite Hnum. apply I.
  - intros j. by rewrite Hc, Hfl, (filter_count a cur k).
  - intros j. rewrite Hfl. apply NoDup_filter, I.
  - intros j pn. rewrite Hfl. intros [Hne Hin]%list_elem_of_filter.
    destruct (ib_block _ _ I _ _ Hin) as (? & ? & ? & ? & ? & ? & ?).
    rewrite Hn, Ho, Hsame by done. setoid_rewrite Hi. intuition congruence.
  - intros pn Hpn Hne. rewrite Hn in Hpn. rewrite Ho by lia. intros Hord.
    destruct (decide (pn = cur)) as [->|]; [exfalso; apply Hord, Hgone; auto; lia|].
    destruct (decide (pn = b)) as [->|]; [exfalso; apply Hord, Hgone; auto; lia|].
    rewrite Hsame in * by done. destruct (ib_order _ _ I pn) as (j & ? & ?); auto.
    exists j. split; [done|]. rewrite Hfl. by apply list_elem_of_filter.
  - intros j pn j' pn'. rewrite !Hfl. intros [_ H]%list_elem_of_filter [_ H']%list_elem_of_filter.
    by apply I.
Qed.

(** Linking the held block [cur] of order [k]. *)
Lemma add_inv a a' cur new k Or :
  inv_but a cur -> held a cur k ->
  views a a' (fun j => if decide (j = k) then cur :: fl a k else fl a j)
    (fun j => if decide (j = k) then cnt a k + 1 else cnt a j) Or ->
  Or cur = Z.of_nat k -> (forall x, 0 <= x -> x <> cur -> x <> new -> Or x = ord_of a x) ->
  (forall j, new ∉ fl a j) -> new <> cur ->
  inv_but a' new.
Proof.
  intros I H [Hn Hfp Hm Hfl Hc Ho Hi Hnum] Hcur Hsame Hnew Hnc. destruct H as [Hk H0 Ha Hh Hv Hd].
  assert (Hcf : forall j, cur ∉ fl a j).
  { intros j Hin. by apply (ib_block _ _ I) in Hin as (_ & ? & _). }
  assert (Hin : forall j pn, pn ∈ fl a' j -> (j = k /\ pn = cur) \/ pn ∈ fl a j).
  { intros j pn. rewrite Hfl. case_decide; [|auto]. subst. rewrite elem_of_cons. intuition. }
  split.
  - by rewrite Hm, (ib_maps _ _ I).
  - rewrite Hn. apply I.
  - intros i pn. rewrite Hnum. apply I.
  - intros j. rewrite Hc, Hfl, !(ib_count _ _ I). case_decide; subst; simpl; lia.
  - intros j. rewrite Hfl. pose proof (ib_nodup _ _ I) as Hnd.
    case_decide; [subst; apply NoDup_cons|]; auto.
  - intros j pn [[-> ->]|Hj]%Hin; rewrite Hn; setoid_rewrite Hi.
    + rewrite Ho by lia. split_and!; auto; lia.
    + destruct (ib_block _ _ I _ _ Hj) as (? & ? & ? & ? & ? & ? & ?).
      assert (pn <> new) by (intros ->; by apply (Hnew j)).
      rewrite Ho, Hsame by done. split_and!; auto; lia.
  - intros pn Hpn Hne. rewrite Hn in Hpn. rewrite Ho by lia.
    destruct (decide (pn = cur)) as [->|].
    + exists k. split; [done|]. rewrite Hfl, decide_True by done. apply elem_of_cons. auto.
    + rewrite Hsame by (done || lia). intros Hord. destruct (ib_order _ _ I pn) as (j & ? & ?); auto.
      exists j. split; [done|]. rewrite Hfl. case_decide; subst; [apply elem_of_cons|]; auto.
  - intros j pn j' pn' [[-> ->]|Hj]%Hin [[-> ->]|Hj']%Hin Hne; [done| | |by apply I].
    + destruct (Hd _ _ Hj'); auto.
    + by apply Hd.
Qed.

(** The pages on the lists after one block is removed or added. *)
Lemma remove_is_free a a' cur b k :
  inv_but a cur -> b ∈ fl a k ->
  (forall j, fl a' j = filter (fun x => x <> b) (fl a j)) ->
  forall x, is_free a x <-> is_free a' x \/ b <= x < b + blk k.
Proof.
  intros I Hb Hfl x. unfold is_free. setoid_rewrite Hfl. setoid_rewrite list_elem_of_filter. split.
  - intros (j & pn & Hin & Hx). destruct (decide (pn = b)) as [->|Hne]; [|by eauto 10].
    rewrite (fl_unique a cur j k b) in Hx by done. auto.
  - intros [(j & pn & [_ Hin] & Hx)|Hx]; eauto.
Qed.

Lemma add_is_free a a' b k :
  (forall j, fl a' j = if decide (j = k) then b :: fl a k else fl a j) ->
  forall x, is_free a' x <-> is_free a x \/ b <= x < b + blk k.
Proof.
  intros Hfl x. unfold is_free. split.
  - intros (j & pn & Hin & Hx). rewrite Hfl in Hin. case_decide; subst; [|eauto].
    apply elem_of_cons in Hin as [->|Hin]; eauto.
  - intros [(j & pn & Hin & Hx)|Hx].
    + exists j, pn. rewrite Hfl. case_decide; subst; rewrite ?elem_of_cons; auto.
    + exists k, b. rewrite Hfl, decide_True, elem_of_cons by done. auto.
Qed.

(** One round of the coalescing loop: the buddy [b] leaves its list and the page
    that heads the upper half loses its order. *)
Lemma merge_step a cur k :
  inv_but a cur -> held a cur k -> (k < 5)%nat ->
  let b := get_buddy_pn cur (Z.of_nat k) in
  let lo := Z.land cur (Z.lnot (Z.shiftl 1 (Z.of_nat k))) in
  b ∈ fl a k ->
  exists a1 a2,
    map_count_add (list_del a b) (Z.of_nat k) (-1) = Done a1 /\
    page_update a1 (get_buddy_pn lo (Z.of_nat k)) (fun p => page_with_order p (-1)) = Done a2 /\
    inv_but a2 lo /\ held a2 lo (S k) /\
    (forall j, fl a2 j = filter (fun x => x <> b) (fl a j)) /\
    counted a2 + blk (S k) = counted a + blk k /\
    free_pages a2 = free_pages a /\ npages a2 = npages a /\
    (forall x, invalid a2 x = invalid a x) /\
    (forall x, is_free a2 x \/ lo <= x < lo + blk (S k) <->
               is_free a x \/ cur <= x < cur + blk k).
Proof.
  intros I H Hk b lo Hb. pose proof (blk_pos k) as Hpos. pose proof (blk_S k) as HS.
  pose proof (ib_block _ _ I _ _ Hb) as (_ & Hbc & Hb0 & Hbn & Hba & Hbo & Hbv).
  destruct H as [_ H0 Ha Hn Hv Hd].
  destruct (buddy_cases cur k (npages a)) as (_ & _ & _ & Hlo0 & Hloa & Hlon & Hup & Hcase);
    auto; [apply I|]. fold b lo in Hlo0, Hloa, Hlon, Hup, Hcase.
  pose proof (list_del_views a b) as V1.
  destruct (map_count_add_views (list_del a b) k (-1)) as (a1 & E1 & V2).
  { rewrite (vw_maps _ _ _ _ _ V1), (ib_maps _ _ I). lia. }
  pose proof (views_trans _ _ _ _ _ _ _ _ _ V1 V2) as V12.
  destruct (page_set_order_views a1 (get_buddy_pn lo (Z.of_nat k)) (-1)) as (a2 & E2 & V3).
  { rewrite Hup, (vw_npages _ _ _ _ _ V12). lia. }
  assert (V : views a a2 (fun j => filter (fun x => x <> b) (fl a j))
      (fun j => if decide (j = k) then cnt a k + -1 else cnt a j)
      (fun x => if decide (x = lo + blk k) then -1 else ord_of a x)).
  { eapply views_ext; [exact (views_trans _ _ _ _ _ _ _ _ _ V12 V3) | | | ].
    - intros j. by rewrite (vw_fl _ _ _ _ _ V2), (vw_fl _ _ _ _ _ V1).
    - intros j. by rewrite (vw_cnt _ _ _ _ _ V2), !(vw_cnt _ _ _ _ _ V1).
    - intros x Hx. rewrite Hup. by rewrite (vw_ord _ _ _ _ _ V12) by done. }
  exists a1, a2. split_and!; [done | done | | | apply V | | apply V | apply V | apply V |].
  - eapply remove_inv; [exact I | exact Hb | | exact V | |].
    + destruct Hcase; intuition.
    + intros x ??. simpl. rewrite decide_False; [done | destruct Hcase; intuition congruence].
    + intros x _ Hx Hne. simpl. rewrite decide_True; [done | destruct Hcase; intuition congruence].
  - split; [lia | done | done | by rewrite (vw_npages _ _ _ _ _ V) | |].
    + intros x Hx. rewrite (vw_invalid _ _ _ _ _ V).
      destruct (decide (cur <= x < cur + blk k)); [by apply Hv | apply Hbv; lia].
    + intros j pn. rewrite (vw_fl _ _ _ _ _ V). intros [Hne Hin]%list_elem_of_filter.
      pose proof (Hd _ _ Hin). pose proof (ib_disj _ _ I _ _ _ _ Hb Hin ltac:(done)).
      pose proof (blk_pos j). lia.
  - rewrite (counted_change a a2 k (-1)) by (lia || apply V). lia.
  - intros x. rewrite (remove_is_free a a2 cur b k I Hb) by apply V. rewrite HS.
    split; intros; intuition lia.
Qed.

Lemma pfree_merge_spec n : forall a cur k,
  n = (5 - k)%nat -> inv_but a cur -> (forall j, coalesced a j) -> held a cur k ->
  exists a' cur' k', pfree_merge n a cur (Z.of_nat k) = Done (a', cur', Z.of_nat k') /\
    inv_but a' cur' /\ (forall j, coalesced a' j) /\ held a' cur' k' /\
    ((k' < 5)%nat -> get_buddy_pn cur' (Z.of_nat k') ∉ fl a' k') /\
    counted a' + blk k' = counted a + blk k /\
    free_pages a' = free_pages a /\ npages a' = npages a /\
    (forall x, invalid a' x = invalid a x) /\
    (forall x, is_free a' x \/ cur' <= x < cur' + blk k' <->
               is_free a x \/ cur <= x < cur + blk k).
Proof.
  induction n as [|n IH]; intros a cur k Hn I C H.
  { pose proof (h_order _ _ _ H). exists a, cur, k. split_and!; auto; lia. }
  simpl. set (b := get_buddy_pn cur (Z.of_nat k)).
  destruct (buddy_cases cur k (npages a)) as (Hb0 & _ & Hbn & _ & _ & _ & _ & Hcase);
    try apply H; [lia | apply I |]. fold b in Hb0, Hbn, Hcase.
  pose proof (blk_pos k).
  destruct (page_from_pn_views a b) as (p & -> & Ho & Hi & _); [lia|]. simpl.
  rewrite Ho, Hi. destruct (decide (b ∈ fl a k)) as [Hb|Hb].
  - pose proof (ib_block _ _ I _ _ Hb) as (_ & _ & _ & _ & _ & -> & Hbv).
    rewrite Hbv, Z.eqb_refl by lia. simpl.
    destruct (merge_step a cur k I H ltac:(lia) Hb) as (a1 & a2 & E1 & E2 & I2 & H2 & Hfl & Hc & Hf & Hnp & Hv & Hx).
    fold b in E1. rewrite E1. simpl. rewrite E2. simpl.
    destruct (IH a2 _ (S k) ltac:(lia) I2) as (a' & cur' & k' & E & I' & C' & H' & Hm & Hc' & Hf' & Hn' & Hv' & Hx');
      [|done|].
    { intros j pn Hin Hj. rewrite Hfl in *. apply list_elem_of_filter in Hin as [_ Hin].
      intros [_ Hin']%list_elem_of_filter. by apply (C j pn). }
    replace (Z.of_nat k + 1) with (Z.of_nat (S k)) by lia. rewrite E.
    exists a', cur', k'. split_and!; auto; try congruence; try lia.
    intros x. by rewrite Hx', Hx.
  - destruct (_ || _) eqn:E.
    + exists a, cur, k. split_and!; auto.
    + exfalso. apply orb_false_iff in E as [E1 E2]. destruct (ib_order _ _ I b) as (j & Hj & Hin); [lia..|].
      assert (j = k) as -> by lia. done.
Qed.

Lemma inv_hold a cur k : inv_but a (-1) -> held a cur k -> inv_but a cur.
Proof.
  intros I H. split; try apply I.
  - intros j pn Hin. destruct (ib_block _ _ I _ _ Hin) as (? & ? & ? & ? & ? & ? & ?).
    pose proof (h_disj _ _ _ H _ _ Hin). pose proof (blk_pos j). pose proof (blk_pos k). split_and!; auto; lia.
  - intros pn Hpn _. apply (ib_order _ _ I); lia.
Qed.

Lemma buddy_involutive pn k : get_buddy_pn (get_buddy_pn pn k) k = pn.
Proof. unfold get_buddy_pn. by rewrite Z.lxor_assoc, Z.lxor_nilpotent, Z.lxor_0_r. Qed.

Lemma buddy_ne a cur k :
  inv_but a cur -> forall pn, pn ∈ fl a k -> (k < 5)%nat -> get_buddy_pn pn (Z.of_nat k) <> pn.
Proof.
  intros I pn Hin Hk. destruct (ib_block _ _ I _ _ Hin) as (_ & _ & ? & _ & ? & _).
  rewrite get_buddy_pn_spec by done. pose proof (blk_pos k). case_match; lia.
Qed.

(** Putting the head of a held block whose buddy is not free on its list. *)
Lemma link_block a cur k :
  inv_but a cur -> held a cur k ->
  exists a1 a2 a3,
    page_update a cur (fun p => page_with_order p (Z.of_nat k)) = Done a1 /\
    map_list_add a1 (Z.of_nat k) cur = Done a2 /\
    map_count_add a2 (Z.of_nat k) 1 = Done a3 /\
    views a a3 (fun j => if decide (j = k) then cur :: fl a k else fl a j)
      (fun j => if decide (j = k) then cnt a k + 1 else cnt a j)
      (fun x => if decide (x = cur) then Z.of_nat k else ord_of a x).
Proof.
  intros I H. pose proof (blk_pos k). destruct H as [Hk Hcur _ Hh _ _].
  destruct (page_set_order_views a cur (Z.of_nat k)) as (a1 & E1 & V1); [lia|].
  destruct (map_list_add_views a1 k cur) as (a2 & E2 & V2).
  { rewrite (vw_maps _ _ _ _ _ V1), (ib_maps _ _ I). lia. }
  pose proof (views_trans _ _ _ _ _ _ _ _ _ V1 V2) as V12.
  destruct (map_count_add_views a2 k 1) as (a3 & E3 & V3).
  { rewrite (vw_maps _ _ _ _ _ V12), (ib_maps _ _ I). lia. }
  exists a1, a2, a3. split_and!; auto.
  eapply views_ext; [exact (views_trans _ _ _ _ _ _ _ _ _ V12 V3) | | |].
  - intros j. rewrite (vw_fl _ _ _ _ _ V2), !(vw_fl _ _ _ _ _ V1). done.
  - intros j. rewrite !(vw_cnt _ _ _ _ _ V2), !(vw_cnt _ _ _ _ _ V1). done.
  - intros x Hx. rewrite (vw_ord _ _ _ _ _ V2), (vw_ord _ _ _ _ _ V1) by done. done.
Qed.

(** [__pfree_add_pages]: the block that is handed back is free afterwards. *)
Lemma pfree_add_pages_spec a cur k :
  inv a -> held a cur k ->
  exists a', pfree_add_pages a cur (Z.of_nat k) = Done a' /\ inv a' /\
    free_pages a' = free_pages a + blk k /\ npages a' = npages a /\
    (forall x, invalid a' x = invalid a x) /\
    (forall x, is_free a' x <-> is_free a x \/ cur <= x < cur + blk k).
Proof.
  intros (I & C & Hfp) H. unfold pfree_add_pages, PALLOC_MAPS. pose proof (h_order _ _ _ H) as Hk.
  replace (Z.to_nat (6 - 1 - Z.of_nat k)) with (5 - k)%nat by lia.
  destruct (pfree_merge_spec (5 - k) a cur k) as (a0 & cur' & k' & -> & I' & C' & H' & Hb & Hc & Hf & Hn & Hi & Hx);
    auto; [by eapply inv_hold|].
  simpl. destruct (link_block a0 cur' k' I' H') as (a1 & a2 & a3 & -> & E2 & E3 & V). simpl.
  rewrite E2. simpl. rewrite E3. simpl. eexists. split; [done|].
  pose proof (h_low _ _ _ H'). pose proof (h_order _ _ _ H').
  assert (I3 : inv_but a3 (-1)).
  { eapply add_inv; [exact I' | exact H' | exact V | by simpl; rewrite decide_True | | | lia].
    - intros x ???. simpl. by rewrite decide_False.
    - intros j Hin. apply (ib_block _ _ I') in Hin as (_ & _ & ? & _). lia. }
  rewrite Z.shiftl_mul_pow2, Z.mul_1_l by lia. fold (blk k).
  split_and!; simpl.
  - split_and!; [split; apply I3 | |].
    + intros j pn. change (fl (alloc_add_free _ _)) with (fl a3). rewrite !(vw_fl _ _ _ _ _ V).
      case_decide; [subst|by apply C']. rewrite !elem_of_cons. intros Hin Hj.
      destruct Hin as [->|Hin]; intros [Heq|Hin'].
      * rewrite get_buddy_pn_spec in Heq by apply H'. pose proof (blk_pos k'). case_match; lia.
      * by apply Hb.
      * apply Hb; [done|]. rewrite <- Heq, buddy_involutive. done.
      * by apply (C' k' pn).
    + cbn [free_pages alloc_add_free]. rewrite (vw_free _ _ _ _ _ V). change (counted (alloc_add_free _ _)) with (counted a3).
      rewrite (counted_change a0 a3 k' 1) by (lia || apply V). lia.
  - rewrite (vw_free _ _ _ _ _ V). lia.
  - change (npages (alloc_add_free _ _)) with (npages a3). rewrite (vw_npages _ _ _ _ _ V). lia.
  - intros x. change (invalid (alloc_add_free _ _)) with (invalid a3). by rewrite (vw_invalid _ _ _ _ _ V).
  - intros x. change (is_free (alloc_add_free _ _)) with (is_free a3).
    rewrite (add_is_free a0 a3 cur' k') by apply V. apply Hx.
Qed.

(** ** Splitting *)

Lemma inv_but_views a a' cur Fl Cn Or g :
  inv_but g cur -> views a g Fl Cn Or -> views a a' Fl Cn Or -> inv_but a' cur.
Proof.
  intros I [Hn Hf Hm Hfl Hc Ho Hi Hnum] [Hn' Hf' Hm' Hfl' Hc' Ho' Hi' Hnum'].
  assert (E : forall j, fl a' j = fl g j) by (intros; congruence).
  assert (EO : forall x, 0 <= x -> ord_of a' x = ord_of g x) by (intros; rewrite Ho', Ho by done; done).
  split.
  - rewrite Hm', <- Hm. apply I.
  - rewrite Hn', <- Hn. apply I.
  - intros i pn. rewrite Hnum', <- Hnum. apply I.
  - intros k. rewrite E, Hc', <- Hc. apply (ib_count _ _ I).
  - intros k. rewrite E. apply (ib_nodup _ _ I).
  - intros k pn. rewrite E. intros Hin. pose proof (ib_block _ _ I _ _ Hin) as B.
    rewrite EO by apply B. rewrite Hn', <- Hn. setoid_rewrite Hi'. by setoid_rewrite <- Hi.
  - intros pn Hpn Hne. rewrite EO by lia. rewrite Hn', <- Hn in Hpn. setoid_rewrite E. by apply I.
  - intros k pn k' pn'. rewrite !E. apply I.
Qed.

Lemma map_take_last_views a k p :
  (k < length (maps a))%nat -> last (fl a k) = Some p ->
  map_take_last a (Z.of_nat k) = Done (p, list_del a p).
Proof.
  intros Hk Hp. destruct (lookup_lt_is_Some_2 _ _ Hk) as [m Hm].
  unfold fl in Hp. rewrite Hm in Hp. simpl in Hp. unfold map_take_last.
  assert (arr_get (maps a) (Z.of_nat k) = Done m) as ->.
  { apply arr_get_done. rewrite Nat2Z.id. split; [lia | done]. }
  simpl. by rewrite Hp.
Qed.

Lemma free_count_views a k :
  (k < length (maps a))%nat ->
  exists m, arr_get (maps a) (Z.of_nat k) = Done m /\ free_count m = cnt a k.
Proof.
  intros Hk. destruct (lookup_lt_is_Some_2 _ _ Hk) as [m Hm]. exists m. split.
  - apply arr_get_done. rewrite Nat2Z.id. split; [lia | done].
  - unfold cnt. by rewrite Hm.
Qed.

Lemma last_in {A} (l : list A) x : last l = Some x -> x ∈ l.
Proof. intros H. apply last_Some in H as [l' ->]. apply elem_of_app. right. by apply list_elem_of_singleton. Qed.

(** The block [p] of order [k] taken off its list is held. *)
Lemma take_block a k p :
  inv_but a (-1) -> p ∈ fl a k ->
  exists a', map_count_add (list_del a p) (Z.of_nat k) (-1) = Done a' /\
    views a a' (fun j => filter (fun x => x <> p) (fl a j))
      (fun j => if decide (j = k) then cnt a k + -1 else cnt a j) (ord_of a) /\
    inv_but a' p /\ held a' p k.
Proof.
  intros I Hp. pose proof (ib_block _ _ I _ _ Hp) as (Hk & _ & Hp0 & Hpn & Hpa & Hpo & Hpv).
  pose proof (list_del_views a p) as V1.
  destruct (map_count_add_views (list_del a p) k (-1)) as (a' & E & V2).
  { rewrite (vw_maps _ _ _ _ _ V1), (ib_maps _ _ I). lia. }
  assert (V : views a a' (fun j => filter (fun x => x <> p) (fl a j))
      (fun j => if decide (j = k) then cnt a k + -1 else cnt a j) (ord_of a)).
  { eapply views_ext; [exact (views_trans _ _ _ _ _ _ _ _ _ V1 V2) | | |]; intros;
      by rewrite ?(vw_fl _ _ _ _ _ V1), ?(vw_cnt _ _ _ _ _ V1). }
  exists a'. split_and!; [done | done | |].
  - eapply remove_inv; [exact I | exact Hp | by right | exact V | done |].
    intros x Hx [-> | ->] Hne; [lia | done].
  - split; [lia | done | done | by rewrite (vw_npages _ _ _ _ _ V) | |];
      [intros x; rewrite (vw_invalid _ _ _ _ _ V); apply Hpv|].
    intros j pn. rewrite (vw_fl _ _ _ _ _ V). intros [Hne Hin]%list_elem_of_filter.
    by apply (ib_disj _ _ I).
Qed.

Lemma held_lower a cur k : held a cur (S k) -> held a cur k.
Proof.
  intros [Hk H0 Ha Hh Hv Hd]. pose proof (blk_S k). pose proof (blk_pos k). split; auto; try lia.
  - rewrite blk_S in Ha. apply Z.mod_divide in Ha as [q ->]; [|lia].
    apply Z.mod_divide; [lia|]. exists (q * 2). lia.
  - intros x Hx. apply Hv. lia.
  - intros j pn Hin. pose proof (Hd _ _ Hin). lia.
Qed.

Lemma split_buddy p k : 0 <= p -> p mod blk (S k) = 0 -> get_buddy_pn p (Z.of_nat k) = p + blk k.
Proof.
  intros H0 Ha. pose proof (blk_pos k). rewrite blk_S in Ha. apply Z.mod_divide in Ha as [q ->]; [|lia].
  replace (q * (2 * blk k)) with (2 * q * blk k) in * by lia.
  rewrite get_buddy_pn_spec by (try apply Z.mod_mul; lia).
  rewrite Z.div_mul, Z.even_mul by lia. done.
Qed.

(** The two halves of a held block can be linked one after the other. *)
Lemma link_halves a p k :
  inv_but a p -> held a p (S k) ->
  exists g, inv_but g (-1) /\
    views a g (fun j => if decide (j = k) then p + blk k :: p :: fl a k else fl a j)
      (fun j => if decide (j = k) then cnt a k + 2 else cnt a j)
      (fun x => if decide (x = p + blk k) then Z.of_nat k
                else if decide (x = p) then Z.of_nat k else ord_of a x).
Proof.
  intros I H. pose proof (blk_S k) as HS. pose proof (blk_pos k) as Hpos.
  pose proof (held_lower _ _ _ H) as H1. destruct H as [Hk H0 Ha Hh Hv Hd].
  destruct (link_block a p k I H1) as (_ & _ & g & _ & _ & _ & V1).
  assert (Hnew : forall j, p + blk k ∉ fl a j).
  { intros j Hin. pose proof (Hd _ _ Hin). pose proof (blk_pos j). lia. }
  assert (I1 : inv_but g (p + blk k)).
  { eapply add_inv; [exact I | exact H1 | exact V1 | by simpl; rewrite decide_True | | done | lia].
    intros x ???. simpl. by rewrite decide_False. }
  assert (H2 : held g (p + blk k) k).
  { split; [lia | lia | | rewrite (vw_npages _ _ _ _ _ V1); lia | |].
    - rewrite <- Z.add_mod_idemp_r, Z.mod_same, Z.add_0_r by lia. apply H1.
    - intros x Hx. rewrite (vw_invalid _ _ _ _ _ V1). apply Hv. lia.
    - intros j pn. rewrite (vw_fl _ _ _ _ _ V1). case_decide; [subst; rewrite elem_of_cons|].
      + intros [->|Hin]; [lia|]. pose proof (Hd _ _ Hin). lia.
      + intros Hin. pose proof (Hd _ _ Hin). lia. }
  destruct (link_block g (p + blk k) k I1 H2) as (_ & _ & g' & _ & _ & _ & V2).
  exists g'. split.
  - eapply add_inv; [exact I1 | exact H2 | exact V2 | by simpl; rewrite decide_True | | | lia].
    + intros x ???. simpl. by rewrite decide_False.
    + intros j Hin. apply (ib_block _ _ I1) in Hin as (_ & _ & ? & _). lia.
  - eapply views_ext; [exact (views_trans _ _ _ _ _ _ _ _ _ V1 V2) | | |].
    + intros j. rewrite !(vw_fl _ _ _ _ _ V1). case_decide; [by rewrite decide_True by done | done].
    + intros j. rewrite !(vw_cnt _ _ _ _ _ V1). repeat case_decide; try lia; done.
    + intros x Hx. simpl. case_decide; [done|]. by rewrite (vw_ord _ _ _ _ _ V1).
Qed.

Lemma halves_is_free a a' p k :
  (forall j, fl a' j = if decide (j = k) then p + blk k :: p :: fl a k else fl a j) ->
  forall x, is_free a' x <-> is_free a x \/ p <= x < p + blk (S k).
Proof.
  intros Hfl x. pose proof (blk_S k). unfold is_free. split.
  - intros (j & pn & Hin & Hx). rewrite Hfl in Hin. case_decide; subst; [|eauto].
    rewrite !elem_of_cons in Hin. destruct Hin as [->|[->|Hin]]; eauto with lia.
  - intros [(j & pn & Hin & Hx)|Hx].
    + exists j, pn. rewrite Hfl. case_decide; subst; rewrite ?elem_of_cons; auto.
    + destruct (decide (x < p + blk k)).
      * exists k, p. rewrite Hfl, decide_True, !elem_of_cons by done. auto with lia.
      * exists k, (p + blk k). rewrite Hfl, decide_True, !elem_of_cons by done. auto with lia.
Qed.

Lemma break_page_split_views a p m :
  inv_but a (-1) -> last (fl a (S m)) = Some p -> p ∈ fl a (S m) ->
  exists a1 a', break_page_split a (Z.of_nat (S m)) = Done a' /\
    map_count_add (list_del a p) (Z.of_nat (S m)) (-1) = Done a1 /\
    views a1 a' (fun j => if decide (j = m) then p + blk m :: p :: fl a1 m else fl a1 j)
      (fun j => if decide (j = m) then cnt a1 m + 2 else cnt a1 j)
      (fun x => if decide (x = p + blk m) then Z.of_nat m
                else if decide (x = p) then Z.of_nat m else ord_of a1 x).
Proof.
  intros I Hlast Hp. pose proof (ib_block _ _ I _ _ Hp) as (Hk & _ & Hp0 & Hpn & Hpa & _ & _).
  pose proof (blk_S m). pose proof (blk_pos m). pose proof (ib_maps _ _ I) as Hmaps.
  destruct (take_block a (S m) p I Hp) as (a1 & E1 & V1 & I1 & H1).
  exists a1. unfold break_page_split. rewrite (map_take_last_views a (S m) p) by (done || lia).
  simpl mbind. cbn [outcome_bind mbind]. rewrite E1. simpl mbind.
  assert (Hn1 : npages a1 = npages a) by apply V1.
  assert (Hm1 : length (maps a1) = 6%nat) by (rewrite (vw_maps _ _ _ _ _ V1); lia).
  destruct (page_from_pn_views a1 p) as (pg & -> & _ & _ & Hnum); [lia|]. simpl mbind.
  apply (ib_num _ _ I1) in Hnum. rewrite Z2Nat.id in Hnum by lia. rewrite Hnum.
  replace (Z.of_nat (S m) - 1) with (Z.of_nat m) by lia. rewrite split_buddy by done.
  destruct (page_set_order_views a1 p (Z.of_nat m)) as (a2 & -> & V2); [lia|]. simpl mbind.
  destruct (page_set_order_views a2 (p + blk m) (Z.of_nat m)) as (a3 & -> & V3).
  { rewrite (vw_npages _ _ _ _ _ V2). lia. } simpl mbind.
  pose proof (views_trans _ _ _ _ _ _ _ _ _ V2 V3) as V23.
  destruct (map_list_add_views a3 m p) as (a4 & -> & V4).
  { rewrite (vw_maps _ _ _ _ _ V23). lia. } simpl mbind.
  pose proof (views_trans _ _ _ _ _ _ _ _ _ V23 V4) as V24.
  destruct (map_list_add_views a4 m (p + blk m)) as (a5 & -> & V5).
  { rewrite (vw_maps _ _ _ _ _ V24). lia. } simpl mbind.
  pose proof (views_trans _ _ _ _ _ _ _ _ _ V24 V5) as V25.
  destruct (map_count_add_views a5 m 2) as (a6 & -> & V6).
  { rewrite (vw_maps _ _ _ _ _ V25). lia. }
  exists a6. split_and!; [done | done |].
  eapply views_ext; [exact (views_trans _ _ _ _ _ _ _ _ _ V25 V6) | | |].
  - intros j. rewrite (vw_fl _ _ _ _ _ V5), !(vw_fl _ _ _ _ _ V4), !(vw_fl _ _ _ _ _ V3), !(vw_fl _ _ _ _ _ V2).
    case_decide; [by rewrite decide_True by done | done].
  - intros j. by rewrite !(vw_cnt _ _ _ _ _ V25), !(vw_cnt _ _ _ _ _ V4), !(vw_cnt _ _ _ _ _ V3), !(vw_cnt _ _ _ _ _ V2).
  - intros x Hx. rewrite (vw_ord _ _ _ _ _ V5), (vw_ord _ _ _ _ _ V4), (vw_ord _ _ _ _ _ V3) by done.
    case_decide; [done|]. by rewrite (vw_ord _ _ _ _ _ V2).
Qed.

Lemma break_page_split_spec a p m :
  inv_but a (-1) -> last (fl a (S m)) = Some p ->
  exists a', break_page_split a (Z.of_nat (S m)) = Done a' /\ inv_but a' (-1) /\
    counted a' = counted a /\ free_pages a' = free_pages a /\ npages a' = npages a /\
    (forall x, invalid a' x = invalid a x) /\ (forall x, is_free a' x <-> is_free a x) /\
    (forall j, fl a' j = if decide (j = m) then p + blk m :: p :: fl a m
                         else filter (fun x => x <> p) (fl a j)).
Proof.
  intros I Hlast. pose proof (last_in _ _ Hlast) as Hp.
  pose proof (ib_block _ _ I _ _ Hp) as (Hk & _).
  destruct (break_page_split_views a p m I Hlast Hp) as (a1 & a' & E & E1 & V).
  destruct (take_block a (S m) p I Hp) as (a1' & E1' & V1 & I1 & H1).
  rewrite E1 in E1'. injection E1' as <-.
  destruct (link_halves a1 p m I1 H1) as (g & Ig & Vg).
  pose proof (inv_but_views _ _ _ _ _ _ _ Ig Vg V) as I'.
  exists a'. split_and!; [done | done | | | | | |].
  - rewrite (counted_change a1 a' m 2), (counted_change a a1 (S m) (-1))
      by (lia || apply V || apply V1). pose proof (blk_S m). lia.
  - by rewrite (vw_free _ _ _ _ _ V), (vw_free _ _ _ _ _ V1).
  - by rewrite (vw_npages _ _ _ _ _ V), (vw_npages _ _ _ _ _ V1).
  - intros x. by rewrite (vw_invalid _ _ _ _ _ V), (vw_invalid _ _ _ _ _ V1).
  - intros x. rewrite (halves_is_free a1 a' p m) by apply V.
    by rewrite (remove_is_free a a1 (-1) p (S m)) by (done || apply V1).
  - intros j. rewrite (vw_fl _ _ _ _ _ V), !(vw_fl _ _ _ _ _ V1). case_decide; [|done].
    rewrite filter_ne_absent; [done|]. intros Hin.
    pose proof (fl_unique _ _ _ _ _ I Hp Hin). lia.
Qed.

(** [a'] has the free pages of [a], cut into other blocks. *)
Record recut (a a' : page_buddy_alloc) : Prop := {
  rc_inv : inv_but a' (-1);
  rc_counted : counted a' = counted a;
  rc_free : free_pages a' = free_pages a;
  rc_npages : npages a' = npages a;
  rc_invalid : forall x, invalid a' x = invalid a x;
  rc_is_free : forall x, is_free a' x <-> is_free a x;
}.

Lemma recut_refl a : inv_but a (-1) -> recut a a.
Proof. by split. Qed.

Lemma recut_trans a b c : recut a b -> recut b c -> recut a c.
Proof. intros [] [? ? ? ? ? Hx]. split; auto; intros; try congruence. by rewrite Hx. Qed.

Lemma count_zero a cur k : inv_but a cur -> cnt a k = 0 -> fl a k = [].
Proof. intros I H. rewrite (ib_count _ _ I) in H. apply nil_length_inv. lia. Qed.

Lemma count_nonzero a cur k : inv_but a cur -> cnt a k <> 0 -> exists p, last (fl a k) = Some p.
Proof.
  intros I H. rewrite (ib_count _ _ I) in H. apply last_is_Some. intros E. by rewrite E in H.
Qed.

Lemma coalesced_sub a a' k P `{!forall x, Decision (P x)} :
  coalesced a k -> fl a' k = filter P (fl a k) -> coalesced a' k.
Proof.
  intros C E pn. rewrite E. intros [_ Hin]%list_elem_of_filter Hk [_ Hin']%list_elem_of_filter.
  by apply (C pn).
Qed.

Lemma coalesced_single a k q cur : inv_but a cur -> fl a k = [q] -> coalesced a k.
Proof.
  intros I E pn Hin Hk Hin'. apply (buddy_ne a cur k I pn Hin Hk).
  rewrite E, !list_elem_of_singleton in *. congruence.
Qed.

Lemma beyond_maps a cur j : inv_but a cur -> (6 <= j)%nat -> fl a j = [].
Proof.
  intros I Hj. destruct (fl a j) as [|p l] eqn:E; [done|].
  destruct (ib_block _ _ I j p); [rewrite E; apply elem_of_cons; auto | lia].
Qed.

(** What [break_page] leaves behind when it was called for the empty list [m]. *)
Definition broken (a a' : page_buddy_alloc) (m : nat) : Prop :=
  recut a a' /\ (forall j, j <> m -> coalesced a' j) /\ (forall j, (j < m)%nat -> fl a' j = fl a j) /\
  ((fl a' m = [] /\ (forall j, (m < j)%nat -> fl a j = [])) \/ exists p, fl a' m = [p + blk m; p]).

Lemma break_page_split_broken a0 a m :
  recut a0 a -> (forall j, j <> S m -> coalesced a j) -> (forall j, (j <= m)%nat -> fl a j = fl a0 j) ->
  fl a0 m = [] -> cnt a (S m) <> 0 -> coalesced a (S m) \/ (exists q, fl a (S m) = [q + blk (S m); q]) ->
  exists a', break_page_split a (Z.of_nat (S m)) = Done a' /\ broken a0 a' m.
Proof.
  intros R C Hlow Hm Hcnt Htop. pose proof (rc_inv _ _ R) as I.
  destruct (count_nonzero _ _ _ I Hcnt) as [p Hp].
  destruct (break_page_split_spec a p m I Hp) as (a' & E & I' & Hc & Hf & Hn & Hi & Hx & Hfl).
  exists a'. split; [done|]. split; [apply (recut_trans _ a); [done|by split]|]. split_and!.
  - intros j Hj. pose proof (Hfl j) as Hflj. rewrite decide_False in Hflj by done.
    destruct (decide (j = S m)) as [->|Hne]; [|eapply coalesced_sub; eauto].
    destruct Htop as [Htop|[q Hq]]; [eapply coalesced_sub; eauto|].
    rewrite Hq in Hp, Hflj. injection Hp as <-. eapply (coalesced_single a' _ (q + blk (S m))); [done|].
    rewrite Hflj. rewrite filter_cons_True by (pose proof (blk_pos (S m)); lia).
    by rewrite filter_cons_False by (intros Hf'; by apply Hf').
  - intros j Hj. rewrite Hfl, decide_False, Hlow by lia. rewrite filter_ne_absent; [done|].
    intros Hin. rewrite <- Hlow in Hin by lia. pose proof (fl_unique _ _ _ _ _ I Hin (last_in _ _ Hp)). lia.
  - right. exists p. rewrite Hfl, decide_True by done. by rewrite Hlow, Hm by lia.
Qed.

Lemma break_page_spec n : forall a m,
  (6 <= n + S m)%nat -> inv_but a (-1) -> (forall j, coalesced a j) -> fl a m = [] ->
  exists a', break_page n a (Z.of_nat (S m)) = Done a' /\ broken a a' m.
Proof.
  induction n as [|n IH]; intros a m Hn I C Hm;
    (destruct (Z.leb_spec PALLOC_MAPS (Z.of_nat (S m))) as [Hle|Hle]; unfold PALLOC_MAPS in Hle;
      [exists a; simpl; rewrite (proj2 (Z.leb_le _ _)) by (unfold PALLOC_MAPS; lia); split; [done|];
       split_and!; auto using recut_refl; left; split; [done|]; intros j Hj; apply (beyond_maps a (-1)); [done|lia]|]);
    [lia|].
  remember (Z.of_nat (S m)) as o eqn:Ho.
  simpl. rewrite (proj2 (Z.leb_gt _ _)), (proj2 (Z.ltb_ge _ _)) by (unfold PALLOC_MAPS; lia). simpl.
  pose proof (ib_maps _ _ I) as Hmaps.
  destruct (free_count_views a (S m)) as (x & Ex & Hx); [lia|]. rewrite <- Ho in Ex. rewrite Ex. simpl. rewrite Hx.
  destruct (Z.eqb_spec (cnt a (S m)) 0) as [Hz|Hz].
  - pose proof (count_zero _ _ _ I Hz) as Hz'.
    destruct (IH a (S m) ltac:(lia) I C Hz') as (a1 & E1 & R1 & C1 & L1 & T1).
    replace (o + 1) with (Z.of_nat (S (S m))) by lia. rewrite E1. simpl.
    pose proof (rc_inv _ _ R1) as I1. pose proof (ib_maps _ _ I1) as Hmaps1.
    destruct (free_count_views a1 (S m)) as (y & Ey & Hy); [lia|]. rewrite <- Ho in Ey. rewrite Ey. simpl. rewrite Hy.
    destruct (Z.eqb_spec (cnt a1 (S m)) 0) as [Hz1|Hz1].
    + exists a1. split; [done|]. pose proof (count_zero _ _ _ I1 Hz1) as Hz1'.
      split_and!; [done | | |].
      * intros j Hj. destruct (decide (j = S m)) as [->|]; [|by apply C1].
        intros pn Hin. rewrite Hz1' in Hin. by apply elem_of_nil in Hin.
      * intros j Hj. apply L1. lia.
      * left. split; [rewrite L1 by lia; done|]. destruct T1 as [[_ T1]|[p Tp]]; [|by rewrite Hz1' in Tp].
        intros j Hj. destruct (decide (j = S m)) as [->|]; [done | apply T1; lia].
    + destruct T1 as [[T1 _]|T1].
      { exfalso. apply Hz1. by rewrite (ib_count _ _ I1), T1. }
      subst o. apply (break_page_split_broken a a1); auto. intros j Hj. apply L1. lia.
  - simpl. rewrite Ex. simpl. rewrite Hx. rewrite (proj2 (Z.eqb_neq _ _)) by done.
    subst o. apply (break_page_split_broken a a); auto using recut_refl.
Qed.

(** ** Allocation *)

Lemma blk_le k j : (k <= j)%nat -> exists q, blk j = q * blk k /\ 0 < q.
Proof.
  intros H. exists (2 ^ Z.of_nat (j - k)). split; [|lia]. unfold blk.
  rewrite <- Z.pow_add_r by lia. f_equal. lia.
Qed.

Lemma aligned_above k j pn b :
  (k <= j)%nat -> pn mod blk j = 0 -> b mod blk k = 0 -> pn <= b + blk k - 1 -> b < pn + blk j ->
  pn <= b /\ b + blk k <= pn + blk j.
Proof.
  intros Hk Hp Hb H1 H2. pose proof (blk_pos k). pose proof (blk_pos j).
  destruct (blk_le k j Hk) as (q & Hq & Hq0).
  apply Z.mod_divide in Hp as [r ->]; [|lia]. apply Z.mod_divide in Hb as [t ->]; [|lia].
  rewrite Hq in *. assert (r * q <= t) by (apply Z.lt_succ_r, (Z.mul_lt_mono_pos_r (blk k)); lia).
  assert (t < r * q + q) by (apply (Z.mul_lt_mono_pos_r (blk k)); lia). nia.
Qed.

(** With buddies coalesced, an aligned run of free pages lies in one block. *)
Lemma aligned_run a k : forall b,
  inv a -> (k <= 5)%nat -> 0 <= b -> b mod blk k = 0 ->
  (forall x, b <= x < b + blk k -> is_free a x) ->
  exists j pn, (k <= j)%nat /\ pn ∈ fl a j /\ pn <= b /\ b + blk k <= pn + blk j.
Proof.
  induction k as [|k IH]; intros b Hinv Hk H0 Hb Hx; pose proof Hinv as (I & C & _).
  { destruct (Hx b) as (j & pn & Hin & Hp); [unfold blk; simpl; lia|].
    exists j, pn. unfold blk in *. simpl. auto with lia. }
  pose proof (blk_S k) as HS. pose proof (blk_pos k) as Hpos.
  assert (Hb' : b mod blk k = 0).
  { rewrite HS in Hb. apply Z.mod_divide in Hb as [q ->]; [|lia]. apply Z.mod_divide; [lia|]. exists (q * 2). lia. }
  destruct (IH b Hinv) as (j1 & p1 & Hj1 & Hin1 & ? & ?); [lia..| |]; [intros x Hx'; apply Hx; lia|].
  destruct (IH (b + blk k) Hinv) as (j2 & p2 & Hj2 & Hin2 & ? & ?);
    [lia | lia | | intros x Hx'; apply Hx; lia |].
  { rewrite <- Z.add_mod_idemp_r, Z.mod_same, Z.add_0_r by lia. done. }
  pose proof (ib_block _ _ I _ _ Hin1) as (_ & _ & _ & _ & Ha1 & _).
  pose proof (ib_block _ _ I _ _ Hin2) as (_ & _ & _ & _ & Ha2 & _).
  destruct (decide (S k <= j1)%nat).
  { exists j1, p1. pose proof (aligned_above (S k) j1 p1 b). auto with lia. }
  destruct (decide (S k <= j2)%nat).
  { exists j2, p2. pose proof (aligned_above (S k) j2 p2 b). auto with lia. }
  assert (j1 = k) as -> by lia. assert (j2 = k) as -> by lia.
  assert (p1 = b) as -> by lia. assert (p2 = b + blk k) as -> by lia.
  exfalso. apply (C k b Hin1); [lia|]. by rewrite split_buddy.
Qed.

Lemma page_update_add_free a p f n a' :
  page_update a p f = Done a' ->
  page_update (alloc_add_free a n) p f = Done (alloc_add_free a' n).
Proof.
  unfold page_update. simpl. destruct (arr_get (pages a) p) as [q| |]; simpl; [|done|done].
  destruct (arr_set (pages a) p (f q)) as [ps| |]; simpl; [|done|done]. by intros [= <-].
Qed.

Lemma held_views a a' p k :
  held a p k -> (forall j, fl a' j = fl a j) -> (forall x, invalid a' x = invalid a x) ->
  npages a' = npages a -> held a' p k.
Proof.
  intros [] Hfl Hi Hn. split; auto.
  - by rewrite Hn.
  - intros x Hx. rewrite Hi. auto.
  - intros j pn. rewrite Hfl. auto.
Qed.

(** The end of [palloc_phys_multiple]: the last block of a list that is not
    empty is handed out. *)
Definition handed_out (a a' : page_buddy_alloc) (k : nat) (p : Z) : Prop :=
  inv_but a' (-1) /\ 0 <= p /\ p mod blk k = 0 /\ p + blk k <= npages a /\
  free_pages a' = free_pages a - blk k /\ counted a' = counted a - blk k /\ npages a' = npages a /\
  (forall j, fl a' j = filter (fun x => x <> p) (fl a j)) /\
  (forall x, invalid a' x = invalid a x) /\
  (forall x, is_free a x <-> is_free a' x \/ p <= x < p + blk k) /\
  held a' p k.

Lemma hand_out a k p :
  inv_but a (-1) -> last (fl a k) = Some p ->
  exists a', ('(p, a) ← map_take_last a (Z.of_nat k);
    a ← map_count_add a (Z.of_nat k) (-1);
    pg ← page_from_pn a p;
    if negb (page_number pg =? p) then Panic
    else
      a ← page_update a p (fun pg => page_with_order pg (-1));
      let a := alloc_add_free a (- Z.shiftl 1 (Z.of_nat k)) in
      a ← page_update a p (fun pg => page_with_use_count pg (use_count pg + 1));
      Done (Some p, a)) = Done (Some p, a') /\ handed_out a a' k p.
Proof.
  intros I Hlast. pose proof (last_in _ _ Hlast) as Hp.
  pose proof (ib_block _ _ I _ _ Hp) as (Hk & _ & Hp0 & Hpn & Hpa & _ & _).
  pose proof (blk_pos k). pose proof (ib_maps _ _ I) as Hmaps.
  destruct (take_block a k p I Hp) as (a1 & E1 & V1 & I1 & H1).
  rewrite (map_take_last_views a k p) by (done || lia). simpl mbind. rewrite E1. simpl mbind.
  destruct (page_from_pn_views a1 p) as (pg & -> & _ & _ & Hnum).
  { rewrite (vw_npages _ _ _ _ _ V1). lia. }
  simpl mbind. apply (ib_num _ _ I1) in Hnum. rewrite Z2Nat.id in Hnum by lia.
  rewrite Hnum, Z.eqb_refl. simpl negb.
  destruct (page_set_order_views a1 p (-1)) as (a2 & -> & V2).
  { rewrite (vw_npages _ _ _ _ _ V1). lia. }
  simpl mbind. pose proof (views_trans _ _ _ _ _ _ _ _ _ V1 V2) as V12.
  destruct (page_update_views a2 p (fun pg => page_with_use_count pg (use_count pg + 1)) id)
    as (a3 & E3 & V3); [rewrite (vw_npages _ _ _ _ _ V12); lia | done |].
  cbv zeta. rewrite (page_update_add_free _ _ _ _ _ E3). simpl mbind. eexists. split; [done|].
  assert (V : views a a3 (fun j => filter (fun x => x <> p) (fl a j))
      (fun j => if decide (j = k) then cnt a k + -1 else cnt a j)
      (fun x => if decide (x = p) then -1 else ord_of a x)).
  { eapply views_ext; [exact (views_trans _ _ _ _ _ _ _ _ _ V12 V3) | | |].
    - intros j. by rewrite (vw_fl _ _ _ _ _ V2), (vw_fl _ _ _ _ _ V1).
    - intros j. by rewrite (vw_cnt _ _ _ _ _ V2), (vw_cnt _ _ _ _ _ V1).
    - intros x Hx. unfold id. rewrite !(vw_ord _ _ _ _ _ V2) by done.
      case_decide; [by rewrite decide_True | by rewrite (vw_ord _ _ _ _ _ V1)]. }
  assert (I3 : inv_but a3 (-1)).
  { eapply remove_inv; [exact I | exact Hp | by left | exact V | |]; simpl.
    - intros x ??. by rewrite decide_False.
    - intros x Hx [->| ->]; [lia | by rewrite decide_True]. }
  rewrite Z.shiftl_mul_pow2, Z.mul_1_l by lia. fold (blk k).
  split_and!; simpl; [split; apply I3 | done | done | done | | | apply V | apply V | apply V | |].
  - rewrite (vw_free _ _ _ _ _ V). lia.
  - change (counted a3 = counted a - blk k). rewrite (counted_change a a3 k (-1)) by (lia || apply V). lia.
  - apply (remove_is_free a a3 (-1) p k I Hp), V.
  - apply (held_views a1); [done| | |].
    + intros j. change (fl a3 j = fl a1 j). by rewrite (vw_fl _ _ _ _ _ V), (vw_fl _ _ _ _ _ V1).
    + intros x. change (invalid a3 x = invalid a1 x). by rewrite (vw_invalid _ _ _ _ _ V), (vw_invalid _ _ _ _ _ V1).
    + change (npages a3 = npages a1). by rewrite (vw_npages _ _ _ _ _ V), (vw_npages _ _ _ _ _ V1).
Qed.

Section allocation.
  Context (sleep : page_buddy_alloc -> page_buddy_alloc).
  (** The rest of the system, which ran while the task slept, kept the
      allocator consistent. *)
  Hypothesis sleep_inv : forall a, inv a -> inv (sleep a).

(** The allocator when the allocation starts. *)
Definition after_wait (a : page_buddy_alloc) (ord flgs : Z) : page_buddy_alloc :=
  if Z.land flgs PAL_NOWAIT =? 0 then palloc_sleep_for_enough_pages sleep a ord else a.

Lemma after_wait_inv a ord flgs : inv a -> inv (after_wait a ord flgs).
Proof. intros H. unfold after_wait, palloc_sleep_for_enough_pages. repeat case_match; auto. Qed.

Lemma inv_of_broken a a1 a' k p :
  inv a -> broken a a1 k \/ (a1 = a) -> handed_out a1 a' k p ->
  last (fl a1 k) = Some p -> inv a' /\ recut a a1.
Proof.
  intros (I & C & Hf) B (I' & _ & _ & _ & Hf' & Hc' & _ & Hfl & _) Hlast.
  assert (R : recut a a1) by (destruct B as [B | ->]; [apply B | by apply recut_refl]).
  split; [|done]. split_and!; [done | | rewrite Hf', Hc', (rc_free _ _ R), (rc_counted _ _ R); lia].
  intros j. destruct B as [(_ & C1 & _ & T)| ->]; [|by apply (coalesced_sub a a' j (fun x => x <> p))].
  destruct (decide (j = k)) as [->|Hne]; [|by apply (coalesced_sub a1 a' j (fun x => x <> p)); auto].
  destruct T as [[T _]|[q T]]; [by rewrite T in Hlast|].
  specialize (Hfl k). rewrite T in Hlast, Hfl. injection Hlast as ->.
  apply (coalesced_single a' k (p + blk k) (-1)); [done|]. rewrite Hfl.
  rewrite filter_cons_True by (pose proof (blk_pos k); lia).
  by rewrite filter_cons_False by (intros H; by apply H).
Qed.

Lemma palloc_phys_multiple_spec a k flgs :
  (k <= 5)%nat -> inv a ->
  let a0 := after_wait a (Z.of_nat k) flgs in
  exists r a', palloc_phys_multiple sleep a (Z.of_nat k) flgs = Done (r, a') /\ inv a' /\
    match r with
    | Some p =>
        0 <= p /\ p mod blk k = 0 /\ p + blk k <= npages a0 /\ held a' p k /\
        free_pages a' = free_pages a0 - blk k /\
        (forall x, is_free a0 x <-> is_free a' x \/ p <= x < p + blk k)
    | None =>
        free_pages a' = free_pages a0 /\ (forall x, is_free a' x <-> is_free a0 x) /\
        forall b, 0 <= b -> b mod blk k = 0 -> ~ (forall x, b <= x < b + blk k -> is_free a0 x)
    end.
Proof.
  intros Hk Hinv a0. unfold palloc_phys_multiple. fold (after_wait a (Z.of_nat k) flgs). fold a0.
  assert (Hinv0 : inv a0) by (by apply after_wait_inv). pose proof Hinv0 as (I & C & Hf).
  pose proof (ib_maps _ _ I) as Hmaps.
  destruct (free_count_views a0 k) as (m & Em & Hm); [lia|]. rewrite Em. obind. rewrite Hm.
  assert (exists a1, (if cnt a0 k =? 0 then break_page (Z.to_nat PALLOC_MAPS) a0 (Z.of_nat k + 1) else Done a0) = Done a1 /\
    (broken a0 a1 k /\ fl a0 k = [] \/ a1 = a0 /\ fl a0 k <> [])) as (a1 & E1 & B1).
  { destruct (Z.eqb_spec (cnt a0 k) 0) as [Hz|Hz].
    - replace (Z.of_nat k + 1) with (Z.of_nat (S k)) by lia.
      pose proof (count_zero _ _ _ I Hz) as Hz'.
      destruct (break_page_spec (Z.to_nat PALLOC_MAPS) a0 k) as (a1 & E1 & B1); eauto.
      unfold PALLOC_MAPS. lia.
    - exists a0. split; [done|]. right. split; [done|]. intros E. apply Hz. by rewrite (ib_count _ _ I), E. }
  rewrite E1. obind.
  assert (B1' : broken a0 a1 k \/ a1 = a0) by intuition.
  assert (R : recut a0 a1) by (destruct B1' as [B | ->]; [apply B | by apply recut_refl]).
  pose proof (rc_inv _ _ R) as I1. pose proof (ib_maps _ _ I1) as Hmaps1.
  destruct (free_count_views a1 k) as (m1 & Em1 & Hm1); [lia|]. rewrite Em1. obind. rewrite Hm1.
  destruct (Z.eqb_spec (cnt a1 k) 0) as [Hz|Hz].
  - exists None, a1. pose proof (count_zero _ _ _ I1 Hz) as Hz'. split; [done|].
    destruct B1 as [[(_ & C1 & L1 & [[T1 T1']|[p T1]]) He]|[-> Hne]]; [|by rewrite T1 in Hz'|done].
    split; [split_and!; [done | | by rewrite (rc_free _ _ R), (rc_counted _ _ R)]|].
    + intros j. destruct (decide (j = k)) as [->|]; [|by apply C1].
      intros pn Hin. rewrite Hz' in Hin. by apply elem_of_nil in Hin.
    + split_and!; [by rewrite (rc_free _ _ R) | by apply R |].
      intros b Hb0 Hb Hall. destruct (aligned_run a0 k b) as (j & pn & Hj & Hin & _); auto.
      destruct (decide (j = k)) as [->|]; [|rewrite T1' in Hin by lia]; rewrite ?He in Hin;
        by apply elem_of_nil in Hin.
  - destruct (count_nonzero _ _ _ I1 Hz) as [p Hp].
    destruct (hand_out a1 k p I1 Hp) as (a' & E & H). exists (Some p), a'. split; [exact E|].
    destruct (inv_of_broken a0 a1 a' k p Hinv0 B1' H Hp) as [Hinv' _]. split; [done|].
    destruct H as (_ & ? & ? & Hn & Hf' & _ & _ & _ & _ & Hx & Hh).
    rewrite (rc_npages _ _ R) in Hn. rewrite (rc_free _ _ R) in Hf'. split_and!; auto.
    intros x. rewrite <- (rc_is_free _ _ R). apply Hx.
Qed.

(** C1: An allocation of order [k] from a consistent allocator returns, leaves
    the allocator consistent, and either hands out an aligned run of [2^k] pages
    that were all free and of which none is free afterwards, every other page
    keeping its state and [free_pages] dropping by [2^k], or, only when no
    aligned run of [2^k] free pages exists, fails with nothing changed. *)
Theorem palloc_phys_multiple_correct a k flgs :
  (k <= 5)%nat -> inv a ->
  let a0 := after_wait a (Z.of_nat k) flgs in
  exists r a', palloc_phys_multiple sleep a (Z.of_nat k) flgs = Done (r, a') /\ inv a' /\
    match r with
    | Some p =>
        0 <= p /\ p mod blk k = 0 /\ p + blk k <= npages a0 /\ held a' p k /\
        free_pages a' = free_pages a0 - blk k /\
        (forall x, is_free a0 x <-> is_free a' x \/ p <= x < p + blk k)
    | None =>
        free_pages a' = free_pages a0 /\ (forall x, is_free a' x <-> is_free a0 x) /\
        forall b, 0 <= b -> b mod blk k = 0 -> ~ (forall x, b <= x < b + blk k -> is_free a0 x)
    end.
Proof. apply palloc_phys_multiple_spec. Qed.
End allocation.

(** ** Freeing *)

Lemma inv_views_same a a' :
  inv a -> views a a' (fl a) (cnt a) (ord_of a) -> inv a'.
Proof.
  intros (I & C & Hf) V. split_and!.
  - eapply (inv_but_views a a' (-1) _ _ _ a I); [by split | exact V].
  - intros j pn. rewrite !(vw_fl _ _ _ _ _ V). apply C.
  - unfold counted. by rewrite !(vw_cnt _ _ _ _ _ V), (vw_free _ _ _ _ _ V).
Qed.

Lemma is_free_same a a' x : (forall j, fl a' j = fl a j) -> is_free a' x <-> is_free a x.
Proof. intros H. unfold is_free. by setoid_rewrite H. Qed.

(** The reference count of a page. *)
Definition uses (a : page_buddy_alloc) (p : Z) : Z := default 0 (use_count <$> pages a !! Z.to_nat p).

Lemma page_update_wakes a p f a' : page_update a p f = Done a' -> wakes a' = wakes a.
Proof. unfold page_update. intros H. inv_outcome. by subst. Qed.

Lemma map_update_wakes a k f a' : map_update a k f = Done a' -> wakes a' = wakes a.
Proof. unfold map_update. intros H. inv_outcome. by subst. Qed.

Lemma pfree_merge_wakes n : forall a cur ord a' cur' ord',
  pfree_merge n a cur ord = Done (a', cur', ord') -> wakes a' = wakes a.
Proof.
  induction n as [|n IH]; intros a cur ord a' cur' ord' H; simpl in H; [by injection H as <-|].
  inv_outcome. case_match; [by injection H as <-|]. inv_outcome.
  apply IH in H. apply map_update_wakes in Hm0. apply page_update_wakes in Hm1. simpl in *. congruence.
Qed.

Lemma pfree_add_pages_wakes a cur ord a' : pfree_add_pages a cur ord = Done a' -> wakes a' = wakes a.
Proof.
  unfold pfree_add_pages. intros H. apply outcome_bind_done in H as ([[a1 c1] o1] & Hm & H). inv_outcome.
  apply pfree_merge_wakes in Hm. apply page_update_wakes in Hm0.
  apply map_update_wakes in Hm1. apply map_update_wakes in Hm2. subst. simpl. congruence.
Qed.

Lemma pfree_spec kern_start kern_end a p k :
  inv a -> held a p k ->
  exists a', pfree kern_start kern_end a (Some p) (Z.of_nat k) = Done a' /\ inv a' /\
    if in_kernel kern_start kern_end (Z.shiftl p PG_SHIFT) then a' = a
    else if uses a p =? 1 then
      free_pages a' = free_pages a + blk k /\
      (forall x, is_free a' x <-> is_free a x \/ p <= x < p + blk k) /\
      wakes a' = wakes a ++ seqZ 0 (Z.of_nat k + 1)
    else
      free_pages a' = free_pages a /\ (forall x, is_free a' x <-> is_free a x) /\
      uses a' p = uses a p - 1 /\ wakes a' = wakes a.
Proof.
  intros Hinv H. pose proof Hinv as (I & C & Hf). pose proof (blk_pos k).
  pose proof (h_low _ _ _ H) as Hlow. pose proof (h_high _ _ _ H) as Hhigh.
  unfold pfree. destruct (page_from_pn_views a p) as (pg & Epg & _ & _ & Hnum); [lia|].
  rewrite Epg. obind. apply (ib_num _ _ I) in Hnum. rewrite Z2Nat.id in Hnum by lia. rewrite Hnum.
  destruct (in_kernel _ _ _); [by exists a|].
  destruct (page_update_views a p (fun pg => page_with_use_count pg (use_count pg - 1)) id)
    as (a1 & E1 & V1); [lia | done |]. rewrite E1. obind.
  assert (Hinv1 : inv a1).
  { apply (inv_views_same a); [done|]. eapply views_ext; [exact V1 | done | done |].
    intros x Hx. unfold id. case_decide; by subst. }
  assert (Hu : use_count pg = uses a p).
  { apply arr_get_done in Epg as [_ Epg]. unfold uses. by rewrite Epg. }
  replace (use_count pg - 1 =? 0) with (uses a p =? 1) by lia.
  pose proof (page_update_wakes _ _ _ _ E1) as Hw1.
  destruct (uses a p =? 1); simpl.
  - destruct (pfree_add_pages_spec a1 p k) as (a2 & E2 & Hinv2 & Hf2 & _ & _ & Hx2); [done| |].
    { apply (held_views a); auto; apply V1. }
    pose proof (pfree_add_pages_wakes _ _ _ _ E2) as Hw2. rewrite E2. obind.
    exists (wake_maps a2 (Z.of_nat k)). split_and!; simpl.
    + done.
    + apply (inv_views_same a2); [done | by split].
    + rewrite Hf2. f_equal. apply V1.
    + intros x. rewrite (is_free_same a2) by done. rewrite Hx2. by rewrite (is_free_same a) by apply V1.
    + congruence.
  - exists a1. split_and!; auto.
    + apply V1.
    + intros x. apply is_free_same, V1.
    + rewrite page_update_done in E1 by lia. injection E1 as <-. unfold uses. simpl.
      rewrite list_lookup_alter_eq. apply arr_get_done in Epg as [_ Epg]. by rewrite Epg.
Qed.

(** C2: [pfree] of a page of the kernel image, or of a page other users still
    hold, frees nothing; dropping the last reference of a block that is not on
    any free list makes exactly its [2^k] pages free, coalesces it with its
    free buddies, adds [2^k] to [free_pages] and wakes the waiters of every
    order up to [k]. *)
Theorem pfree_correct kern_start kern_end a p k :
  inv a -> held a p k ->
  exists a', pfree kern_start kern_end a (Some p) (Z.of_nat k) = Done a' /\ inv a' /\
    if in_kernel kern_start kern_end (Z.shiftl p PG_SHIFT) then a' = a
    else if uses a p =? 1 then
      free_pages a' = free_pages a + blk k /\
      (forall x, is_free a' x <-> is_free a x \/ p <= x < p + blk k) /\
      wakes a' = wakes a ++ seqZ 0 (Z.of_nat k + 1)
    else
      free_pages a' = free_pages a /\ (forall x, is_free a' x <-> is_free a x) /\
      uses a' p = uses a p - 1 /\ wakes a' = wakes a.
Proof. apply pfree_spec. Qed.

(** ** Initialisation *)

Lemma palloc_init_loop_spec n : forall ps out,
  (n <= length ps)%nat ->
  palloc_init_loop (n + 2) (Z.of_nat n) ps out =
  ((page_init_entry <$> seqZ 0 (Z.of_nat n)) ++ drop n ps, out ++ [(-1, page_init_entry (-1))]).
Proof.
  induction n as [|n IH]; intros ps out Hn.
  { rewrite drop_0. simpl. done. }
  simpl palloc_init_loop.
  replace (Z.of_nat (S n) - 1) with (Z.of_nat n) by lia.
  rewrite arr_set_total by lia. rewrite IH by (rewrite length_insert; lia).
  f_equal. replace (Z.of_nat (S n)) with (Z.of_nat n + 1) by lia.
  rewrite seqZ_app, fmap_app, <- app_assoc by lia. f_equal. rewrite Nat2Z.id.
  rewrite (drop_S (<[n:=_]> ps) (page_init_entry (Z.of_nat n)) n) by (apply list_lookup_insert_eq; lia).
  by rewrite drop_insert, decide_False by lia.
Qed.

Lemma palloc_init_result n :
  0 <= n ->
  palloc_init n =
  ({| pages := page_init_entry <$> seqZ 0 n; page_count := n;
      maps := replicate 6 {| free_list := []; free_count := 0 |};
      free_pages := 0; wakes := [] |}, [(-1, page_init_entry (-1))]).
Proof.
  intros Hn. unfold palloc_init.
  pose proof (palloc_init_loop_spec (Z.to_nat n) (replicate (Z.to_nat n) zero_page) []) as E.
  rewrite Z2Nat.id, length_replicate in E by lia. rewrite E by lia.
  by rewrite drop_replicate, Nat.sub_diag, app_nil_r.
Qed.

Lemma palloc_init_inv n :
  0 <= n <= 2 ^ 20 -> n mod 32 = 0 ->
  let a := fst (palloc_init n) in
  inv a /\ npages a = n /\ free_pages a = 0 /\ (forall x, ~ is_free a x) /\
  (forall x, 0 <= x < n -> invalid a x = true).
Proof.
  intros Hn Hm a. unfold a. rewrite palloc_init_result by lia. simpl. clear a.
  set (a := {| pages := _ |}).
  assert (Hl : npages a = n) by (unfold npages; simpl; rewrite length_fmap, length_seqZ; lia).
  assert (Hfl : forall j, fl a j = []) by (intros j; do 6 (destruct j as [|j]; [done|]); done).
  assert (Hc : forall j, cnt a j = 0) by (intros j; do 6 (destruct j as [|j]; [done|]); done).
  assert (Hp : forall i : nat, pages a !! i = if decide (Z.of_nat i < n) then Some (page_init_entry (Z.of_nat i)) else None).
  { intros i. simpl. rewrite list_lookup_fmap. case_decide.
    - rewrite lookup_seqZ_lt by lia. done.
    - rewrite lookup_seqZ_ge by lia. done. }
  assert (Ho : forall x, 0 <= x -> ord_of a x = -1).
  { intros x Hx. unfold ord_of. rewrite Hp. by case_decide. }
  split_and!; auto.
  - split_and!; [split | |]; try (intros; rewrite Hfl in *; by (apply NoDup_nil || (exfalso; eapply not_elem_of_nil; eauto))).
    + done.
    + by rewrite Hl.
    + intros i pn. rewrite Hp. case_decide; [|done]. intros [= <-]. rewrite u32_small; lia.
    + intros k. by rewrite Hfl, Hc.
    + intros pn Hpn _ Hne. rewrite Ho in Hne by lia. done.
    + intros k pn Hin. rewrite Hfl in Hin. by apply elem_of_nil in Hin.
    + done.
  - intros x (k & pn & Hin & _). rewrite Hfl in Hin. by apply elem_of_nil in Hin.
  - intros x Hx. unfold invalid. rewrite Hp, decide_True by lia. done.
Qed.

(** [palloc_init] gives a consistent allocator in which no page is free
    and every page is marked invalid, and also stores one entry at index -1,
    before the array it allocated. *)
Theorem palloc_init_correct n :
  0 <= n <= 2 ^ 20 -> n mod 32 = 0 ->
  let '(a, outside) := palloc_init n in
  inv a /\ npages a = n /\ free_pages a = 0 /\ (forall x, ~ is_free a x) /\
  (forall x, 0 <= x < n -> invalid a x = true) /\ outside = [(-1, page_init_entry (-1))].
Proof.
  intros Hn Hm. pose proof (palloc_init_inv n Hn Hm) as H. rewrite palloc_init_result in H |- * by lia.
  simpl in H. destruct H as (? & ? & ? & ? & ?). split_and!; done.
Qed.

Lemma palloc_init_correct_witness :
  let '(a, outside) := palloc_init 64 in
  inv a /\ npages a = 64 /\ free_pages a = 0 /\ (forall x, ~ is_free a x) /\
  (forall x, 0 <= x < 64 -> invalid a x = true) /\ outside = [(-1, page_init_entry (-1))].
Proof. apply (palloc_init_correct 64); [lia | reflexivity]. Defined.

(** ** A machine with 64 pages: one free block, and one block in use *)

Definition example_page (i : Z) : page :=
  {| use_count := if i =? 32 then 1 else 0; page_number := i; order := if i =? 0 then 5 else -1; flags := 0;
     virt := u32 (Z.shiftl i PG_SHIFT + 0xC0000000) |}.

Definition example_alloc : page_buddy_alloc :=
  {| pages := example_page <$> seqZ 0 64; page_count := 64;
     maps := replicate 5 {| free_list := []; free_count := 0 |} ++ [{| free_list := [0]; free_count := 1 |}];
     free_pages := 32; wakes := [] |}.

Lemma example_alloc_fl j : fl example_alloc j = if decide (j = 5%nat) then [0] else [].
Proof. do 6 (destruct j as [|j]; [done|]). done. Qed.

Lemma example_alloc_page (x : Z) :
  0 <= x -> pages example_alloc !! Z.to_nat x = if decide (x < 64) then Some (example_page x) else None.
Proof.
  intros Hx. change (pages example_alloc) with (example_page <$> seqZ 0 64).
  rewrite list_lookup_fmap. case_decide.
  - rewrite lookup_seqZ_lt by lia. simpl. do 2 f_equal. lia.
  - rewrite lookup_seqZ_ge by lia. done.
Qed.

Lemma example_alloc_inv : inv example_alloc.
Proof.
  assert (Hin : forall k pn, pn ∈ fl example_alloc k -> k = 5%nat /\ pn = 0).
  { intros k pn. rewrite example_alloc_fl. case_decide; [|by intros ?%elem_of_nil].
    by intros ->%list_elem_of_singleton. }
  split_and!; [split | |].
  - done.
  - done.
  - intros i pn. rewrite <- (Nat2Z.id i) at 1. rewrite example_alloc_page by lia.
    case_decide; simpl; congruence.
  - intros k. do 6 (destruct k as [|k]; [done|]). done.
  - intros k. rewrite example_alloc_fl. case_decide; [apply NoDup_singleton | apply NoDup_nil_2].
  - intros k pn [-> ->]%Hin. split_and!; try done; [lia|]. intros x Hx. change (blk 5) with 32 in Hx.
    unfold invalid. rewrite example_alloc_page by lia. by rewrite decide_True by lia.
  - intros pn Hpn _. unfold ord_of. rewrite example_alloc_page by lia.
    case_decide; [|done]. simpl. destruct (Z.eqb_spec pn 0); [|done]. subst. intros _. exists 5%nat.
    split; [done|]. rewrite example_alloc_fl. by apply list_elem_of_singleton.
  - intros k pn k' pn' [-> ->]%Hin [-> ->]%Hin. done.
  - intros k pn [-> ->]%Hin. lia.
  - done.
Qed.

Lemma palloc_phys_multiple_correct_witness :
  exists r a', palloc_phys_multiple id example_alloc (Z.of_nat 3) PAL_NOWAIT = Done (r, a') /\ inv a' /\
    match r with
    | Some p =>
        0 <= p /\ p mod blk 3 = 0 /\ p + blk 3 <= npages example_alloc /\ held a' p 3 /\
        free_pages a' = free_pages example_alloc - blk 3 /\
        (forall x, is_free example_alloc x <-> is_free a' x \/ p <= x < p + blk 3)
    | None =>
        free_pages a' = free_pages example_alloc /\ (forall x, is_free a' x <-> is_free example_alloc x) /\
        forall b, 0 <= b -> b mod blk 3 = 0 -> ~ (forall x, b <= x < b + blk 3 -> is_free example_alloc x)
    end.
Proof.
  exact (palloc_phys_multiple_correct id (fun a H => H) example_alloc 3 PAL_NOWAIT ltac:(lia) example_alloc_inv).
Defined.


Lemma example_alloc_held : held example_alloc 32 5.
Proof.
  split; try done.
  - intros x Hx. change (blk 5) with 32 in Hx. unfold invalid. rewrite example_alloc_page by lia.
    by rewrite decide_True by lia.
  - intros j pn. rewrite example_alloc_fl. case_decide; [|by intros ?%elem_of_nil].
    intros ->%list_elem_of_singleton. left. subst. done.
Qed.

Lemma pfree_correct_witness :
  exists a', pfree 0x100000 0x200000 example_alloc (Some 32) (Z.of_nat 5) = Done a' /\ inv a' /\
    free_pages a' = free_pages example_alloc + blk 5 /\
    (forall x, is_free a' x <-> is_free example_alloc x \/ 32 <= x < 32 + blk 5) /\
    wakes a' = wakes example_alloc ++ seqZ 0 (Z.of_nat 5 + 1).
Proof.
  exact (pfree_correct 0x100000 0x200000 example_alloc 32 5 example_alloc_inv example_alloc_held).
Defined.
