(* ===== verification/Bootmem.v ===== *)
(** The boot-time memory allocator (src/mm/bootmem.c) and the hand-over of the
    memory map to the page allocator; the bootloader's memory map entries reach it
    through [add_multiboot_memory_region] (arch/x86/init/init.c).  The linker's
    [kern_start]/[kern_end] are parameters, as physical addresses. *)
From stdpp Require Import base numbers list gmap.
From Stdlib Require Import ZArith ZifyBool Lia.
From S2P Require Import Prelude Palloc.
Open Scope Z_scope.

Record bootmem_region : Type := { rstart : Z; rend : Z }.

Record bootmem : Type := { memregions : list bootmem_region; highest_page : Z }.

Definition NREGIONS : nat := 64.
(** [V2P(CONFIG_KERNEL_KMAP_START)] *)
Definition KMAP_PHYS : Z := 0x30000000.
Definition SIZEOF_PAGE : Z := 64.

Definition PG_ALIGN (v : Z) : Z := ALIGN_2 v PG_SIZE.
Definition PG_ALIGN_DOWN (v : Z) : Z := ALIGN_2_DOWN v PG_SIZE.

(** The loop that stores a region in the first unused slot. *)
Fixpoint register_region (rs : list bootmem_region) (s e : Z) : option (list bootmem_region) :=
  match rs with
  | [] => None
  | r :: rs' =>
      if rstart r =? 0 then Some ({| rstart := s; rend := e |} :: rs')
      else rs'' ← register_region rs' s e; Some (r :: rs'')
  end.

Definition note_last_page (b : bootmem) (last_page : Z) : bootmem :=
  {| memregions := memregions b;
     highest_page := if highest_page b <? last_page then last_page else highest_page b |}.

Section kernel_image.
  Context (kern_start kern_end : Z).

(** [fuel] bounds the recursion: a part of a region that was split is not split
    again. *)
Fixpoint bootmem_add (fuel : nat) (b : bootmem) (start ed : Z) : outcome (Z * bootmem) :=
  match fuel with
  | O => Fault
  | S fuel' =>
      let start := PG_ALIGN start in
      let ed := PG_ALIGN_DOWN ed in
      if (start =? 0) && (ed <=? PG_SIZE) then Done (0, b)
      else
        let start := if start =? 0 then PG_SIZE else start in
        let b := note_last_page b (Z.shiftr ed PG_SHIFT) in
        let kern_pg_start := PG_ALIGN_DOWN kern_start in
        let kern_pg_end := PG_ALIGN kern_end in
        if (kern_pg_start <=? start) && (ed <? kern_pg_end) then Done (0, b)
        else if ((start <? kern_pg_end) && (kern_pg_end <=? ed))
                || ((start <=? kern_pg_start) && (kern_pg_start <? ed)) then
          '(_, b) ← (if start <? kern_pg_start then bootmem_add fuel' b start kern_pg_start else Done (0, b));
          '(_, b) ← (if kern_pg_end <? ed then bootmem_add fuel' b kern_pg_end ed else Done (0, b));
          Done (0, b)
        else
          match register_region (memregions b) start ed with
          | Some rs => Done (0, {| memregions := rs; highest_page := highest_page b |})
          | None => Done (- ENOMEM, b)
          end
  end.

(** [uint64_t] arithmetic; the call narrows to the 32-bit [pa_t]. *)
Definition add_multiboot_memory_region (b : bootmem) (start length : Z) : outcome bootmem :=
  if 0xFFFFFFFF <=? start then Done b
  else
    let length := if 0xFFFFFFFF <=? u64 (start + length) then 0xFFFFFFFF - start else length in
    '(_, b) ← bootmem_add 3 b (u32 start) (u32 (u64 (start + length)));
    Done b.

End kernel_image.

(** The scan over the regions; the physical address found, if any. *)
Fixpoint bootmem_alloc_scan (rs : list bootmem_region) (length alignment : Z)
  : option (Z * list bootmem_region) :=
  match rs with
  | [] => None
  | r :: rs' =>
      let first_addr := ALIGN_2 (rstart r) alignment in
      let end_addr := ALIGN_2_DOWN (rend r) alignment in
      if (first_addr <? end_addr) && (length <=? u32 (end_addr - first_addr))
      then Some (first_addr, {| rstart := u32 (first_addr + length); rend := rend r |} :: rs')
      else '(pa, rs'') ← bootmem_alloc_scan rs' length alignment; Some (pa, r :: rs'')
  end.

(** The address is returned as [P2V] of the physical one. *)
Definition bootmem_alloc_nopanic (b : bootmem) (length alignment : Z) : option Z * bootmem :=
  match bootmem_alloc_scan (memregions b) length alignment with
  | Some (pa, rs) => (Some (u32 (pa + 0xC0000000)), {| memregions := rs; highest_page := highest_page b |})
  | None => (None, b)
  end.

Definition bootmem_alloc (b : bootmem) (length alignment : Z) : outcome (Z * bootmem) :=
  match bootmem_alloc_nopanic b length alignment with
  | (Some va, b) => Done (va, b)
  | (None, _) => Panic
  end.

(** The inner loop of [bootmem_setup_palloc]: [n] pages from [first_page] are
    left below [last_page]. *)
Fixpoint setup_pages (kern_start kern_end : Z) (n : nat) (a : page_buddy_alloc) (first_page : Z)
  : outcome page_buddy_alloc :=
  match n with
  | O => Done a
  | S n' =>
      a ← page_update a (Z.shiftr first_page PG_SHIFT)
            (fun p => page_with_flags p (Z.clearbit (flags p) PG_INVALID));
      if KMAP_PHYS <=? first_page then Done a
      else
        a ← mark_page_free kern_start kern_end a first_page;
        setup_pages kern_start kern_end n' a (first_page + PG_SIZE)
  end.

Fixpoint setup_regions (kern_start kern_end : Z) (rs : list bootmem_region) (a : page_buddy_alloc)
  : outcome page_buddy_alloc :=
  match rs with
  | [] => Done a
  | r :: rs' =>
      if rstart r =? 0 then setup_regions kern_start kern_end rs' a
      else
        let first_page := PG_ALIGN (rstart r) in
        let last_page := PG_ALIGN_DOWN (rend r) in
        a ← setup_pages kern_start kern_end (Z.to_nat ((last_page - first_page) / PG_SIZE)) a first_page;
        setup_regions kern_start kern_end rs' a
  end.

(** [palloc_init] takes the memory of the page array from [bootmem_alloc]. *)
Definition bootmem_setup_palloc (kern_start kern_end : Z) (b : bootmem)
  : outcome (bootmem * page_buddy_alloc) :=
  '(_, b) ← bootmem_alloc b (u32 (highest_page b * SIZEOF_PAGE)) PG_SIZE;
  a ← setup_regions kern_start kern_end (memregions b) (fst (palloc_init (highest_page b)));
  Done (b, a).

(** * What the memory map covers *)

(** Byte [x] of physical memory is in a registered region. *)
Definition mem_of (rs : list bootmem_region) (x : Z) : Prop :=
  exists r, r ∈ rs /\ rstart r <> 0 /\ rstart r <= x < rend r.

Definition free_slots (rs : list bootmem_region) : nat :=
  length (filter (fun r => rstart r = 0) rs).

Lemma PG_ALIGN_DOWN_spec v : PG_ALIGN_DOWN v = v / 4096 * 4096.
Proof. apply (align_land v 12). lia. Qed.

Lemma PG_ALIGN_spec v : 0 <= v <= 0xFFFFF000 -> PG_ALIGN v = (v + 4095) / 4096 * 4096.
Proof.
  intros Hv. unfold PG_ALIGN, ALIGN_2. rewrite (align_land _ 12) by lia. unfold PG_SIZE.
  rewrite u32_small by lia. f_equal. f_equal. lia.
Qed.

(** Normalises the page rounding of the goal and the context. *)
Ltac pg_align := rewrite ?PG_ALIGN_DOWN_spec in *; rewrite ?PG_ALIGN_spec in * by lia;
  unfold PG_SIZE in *; Z.div_mod_to_equations.

Lemma free_slots_cons r rs :
  free_slots (r :: rs) = if decide (rstart r = 0) then S (free_slots rs) else free_slots rs.
Proof.
  unfold free_slots. case_decide; [by rewrite filter_cons_True | by rewrite filter_cons_False].
Qed.

Lemma mem_of_cons r rs x :
  mem_of (r :: rs) x <-> (rstart r <> 0 /\ rstart r <= x < rend r) \/ mem_of rs x.
Proof.
  unfold mem_of. setoid_rewrite elem_of_cons. split.
  - intros (r' & [->|Hin] & H); [by left | right; eauto].
  - intros [H|(r' & Hin & H)]; eauto.
Qed.

Lemma register_region_spec rs s e :
  s <> 0 -> (0 < free_slots rs)%nat ->
  exists rs', register_region rs s e = Some rs' /\ free_slots rs' = pred (free_slots rs) /\
    forall x, mem_of rs' x <-> mem_of rs x \/ s <= x < e.
Proof.
  intros Hs. induction rs as [|r rs IH]; intros Hf; [unfold free_slots in Hf; simpl in Hf; lia|].
  simpl. rewrite free_slots_cons in Hf |- *. destruct (Z.eqb_spec (rstart r) 0) as [E|E].
  - eexists. split; [done|]. rewrite free_slots_cons, decide_False by done.
    rewrite (decide_True) by done. split; [done|]. intros x. rewrite !mem_of_cons. simpl. intuition.
  - rewrite decide_False in * by done. destruct (IH Hf) as (rs' & -> & Hf' & Hx). simpl.
    eexists. split; [done|]. rewrite free_slots_cons, decide_False by done. split; [done|].
    intros x. rewrite !mem_of_cons, Hx. intuition.
Qed.

Section registration.
  Context (kern_start kern_end : Z).
  Hypothesis kern_bounds : 0 <= kern_start < kern_end /\ kern_end <= 0xFFFFF000.

(** The pages the kernel image touches. *)
Definition kernel_page_byte (x : Z) : Prop := PG_ALIGN_DOWN kern_start <= x < PG_ALIGN kern_end.

(** A page-aligned region beside the kernel goes into one slot. *)
Lemma bootmem_add_beside fuel b s e :
  0 < s -> s mod 4096 = 0 -> e mod 4096 = 0 -> s <= 0xFFFFF000 -> s < e ->
  e <= PG_ALIGN_DOWN kern_start \/ PG_ALIGN kern_end <= s -> (0 < free_slots (memregions b))%nat ->
  exists b', bootmem_add kern_start kern_end (S fuel) b s e = Done (0, b') /\
    (pred (free_slots (memregions b)) <= free_slots (memregions b'))%nat /\
    forall x, mem_of (memregions b') x <-> mem_of (memregions b) x \/ s <= x < e.
Proof.
  intros Hs Hsa Hea Hs' Hlt Hk Hf. cbn [bootmem_add].
  assert (Es : PG_ALIGN s = s) by (rewrite PG_ALIGN_spec by lia; Z.div_mod_to_equations; lia).
  assert (Ee : PG_ALIGN_DOWN e = e) by (rewrite PG_ALIGN_DOWN_spec; Z.div_mod_to_equations; lia).
  assert (Hkp : PG_ALIGN_DOWN kern_start < PG_ALIGN kern_end) by (pg_align; lia).
  rewrite Es, Ee. rewrite (proj2 (Z.eqb_neq s 0)), andb_false_l by lia. cbv beta iota zeta.
  destruct (register_region_spec (memregions b) s e) as (rs' & E & Hf' & Hx); [lia | done |].
  case_match; [exfalso; lia|]. case_match; [exfalso; lia|]. cbn [memregions note_last_page]. rewrite E.
  eexists. split; [done|]. simpl. split; [lia | done].
Qed.

(** With two unused slots, registering a region adds to the memory map
    exactly its whole pages, without the page at address zero and without the
    pages of the kernel image; the recursion on the parts of a region that
    contains the kernel stops. *)
Theorem bootmem_add_correct b s e :
  0 <= s <= 0xFFFFF000 -> 0 <= e < 2 ^ 32 -> (2 <= free_slots (memregions b))%nat ->
  exists b', bootmem_add kern_start kern_end 3 b s e = Done (0, b') /\
    forall x, mem_of (memregions b') x <->
      mem_of (memregions b) x \/
      (PG_ALIGN s <= x < PG_ALIGN_DOWN e /\ PG_SIZE <= x /\ ~ kernel_page_byte x).
Proof.
  intros Hs He Hf. unfold kernel_page_byte. remember 2%nat as f eqn:Ef. cbn [bootmem_add]. cbv zeta.
  set (kps := PG_ALIGN_DOWN kern_start). set (kpe := PG_ALIGN kern_end).
  assert (Hk : 0 <= kps < kpe /\ kps mod 4096 = 0 /\ kpe mod 4096 = 0 /\ kpe <= 0xFFFFF000).
  { subst kps kpe. pg_align. lia. }
  assert (Hp : 0 <= PG_ALIGN s <= 0xFFFFF000 /\ PG_ALIGN s mod 4096 = 0) by (pg_align; lia).
  assert (Hq : 0 <= PG_ALIGN_DOWN e /\ PG_ALIGN_DOWN e mod 4096 = 0) by (pg_align; lia).
  generalize dependent (PG_ALIGN s). generalize dependent (PG_ALIGN_DOWN e). intros E HE S HS.
  unfold PG_SIZE. case_match eqn:C0.
  { exists b. split; [done|]. intros x. intuition lia. }
  set (S' := if S =? 0 then 4096 else S).
  assert (HS' : 4096 <= S' <= 0xFFFFF000 /\ S' mod 4096 = 0 /\
    forall x, (S <= x < E /\ 4096 <= x) <-> S' <= x < E).
  { assert (S = 0 \/ 4096 <= S) by (Z.div_mod_to_equations; lia).
    subst S'. destruct (Z.eqb_spec S 0); split_and!; try lia; try done; intros x; lia. }
  destruct HS' as (HS1 & HS2 & HS3). generalize dependent S'. intros S' HS1 HS2 HS3.
  set (b1 := note_last_page b _). change (memregions b) with (memregions b1) in *.
  generalize dependent b1. clear b. intros b Hf.
  case_match eqn:C1.
  { exists b. split; [done|]. intros x. specialize (HS3 x). intuition lia. }
  case_match eqn:C2.
  - assert (exists b1, (if S' <? kps then bootmem_add kern_start kern_end f b S' kps else Done (0, b)) = Done (0, b1) /\
      (0 < free_slots (memregions b1))%nat /\
      forall x, mem_of (memregions b1) x <-> mem_of (memregions b) x \/ S' <= x < kps) as (b1 & E1 & Hf1 & Hx1).
    { destruct (Z.ltb_spec S' kps); [|exists b; split_and!; [done | lia | intros x; intuition lia]].
      subst f. destruct (bootmem_add_beside 1 b S' kps) as (b1 & ? & ? & ?); try done; [lia..|].
      exists b1. split_and!; [done | lia | done]. }
    rewrite E1. obind.
    assert (exists b2, (if kpe <? E then bootmem_add kern_start kern_end f b1 kpe E else Done (0, b1)) = Done (0, b2) /\
      forall x, mem_of (memregions b2) x <-> mem_of (memregions b1) x \/ kpe <= x < E) as (b2 & E2 & Hx2).
    { destruct (Z.ltb_spec kpe E); [|exists b1; split; [done | intros x; intuition lia]].
      subst f. destruct (bootmem_add_beside 1 b1 kpe E) as (b2 & ? & ? & ?); try done; [lia..|]. by exists b2. }
    rewrite E2. obind. exists b2. split; [done|]. intros x. rewrite Hx2, Hx1. specialize (HS3 x). intuition lia.
  - destruct (register_region_spec (memregions b) S' E) as (rs & -> & _ & Hx); [lia | lia |].
    eexists. split; [done|]. intros x. simpl. rewrite Hx. specialize (HS3 x). intuition lia.
Qed.
End registration.

Lemma bootmem_add_correct_witness :
  let b := {| memregions := replicate 64 {| rstart := 0; rend := 0 |}; highest_page := 0 |} in
  exists b', bootmem_add 0x2000 0x3000 3 b 0x1000 0x4000 = Done (0, b') /\
    forall x, mem_of (memregions b') x <->
      mem_of (memregions b) x \/
      (PG_ALIGN 0x1000 <= x < PG_ALIGN_DOWN 0x4000 /\ PG_SIZE <= x /\ ~ kernel_page_byte 0x2000 0x3000 x).
Proof.
  apply (bootmem_add_correct 0x2000 0x3000); [lia | lia | lia |]. vm_compute. lia.
Defined.

(** * Allocation from the memory map *)

Definition covers (r : bootmem_region) (x : Z) : Prop := rstart r <> 0 /\ rstart r <= x < rend r.

Fixpoint disjoint_regions (rs : list bootmem_region) : Prop :=
  match rs with
  | [] => True
  | r :: rs' => (forall x, covers r x -> ~ mem_of rs' x) /\ disjoint_regions rs'
  end.

(** Unused slots are empty, the others lie in the 32-bit address space. *)
Definition wf_region (r : bootmem_region) : Prop :=
  0 <= rstart r <= 0xFFFFF000 /\ 0 <= rend r <= 0xFFFFF000 /\ (rstart r = 0 -> rend r = 0).

Lemma ALIGN_2_spec v k :
  0 <= k <= 12 -> 0 <= v <= 0xFFFFF000 ->
  ALIGN_2 v (2 ^ k) mod 2 ^ k = 0 /\ v <= ALIGN_2 v (2 ^ k) < v + 2 ^ k.
Proof.
  intros Hk Hv. assert (0 < 2 ^ k <= 2 ^ 12) by (split; [lia | apply Z.pow_le_mono_r; lia]).
  unfold ALIGN_2. rewrite align_land, u32_small by lia. rewrite Z.mod_mul by lia. split; [done|].
  pose proof (Z.div_mod (v + 2 ^ k - 1) (2 ^ k)). pose proof (Z.mod_pos_bound (v + 2 ^ k - 1) (2 ^ k)). lia.
Qed.

Lemma ALIGN_2_DOWN_spec v k : 0 <= k -> v - 2 ^ k < ALIGN_2_DOWN v (2 ^ k) <= v.
Proof.
  intros Hk. unfold ALIGN_2_DOWN. rewrite align_land by lia.
  pose proof (Z.div_mod v (2 ^ k)). pose proof (Z.mod_pos_bound v (2 ^ k)). lia.
Qed.

(** A region in which a block of [len] bytes aligned to [2^k] fits between the
    aligned ends. *)
Definition fits (r : bootmem_region) (len k : Z) : Prop :=
  ALIGN_2 (rstart r) (2 ^ k) + len <= ALIGN_2_DOWN (rend r) (2 ^ k).

Lemma bootmem_alloc_scan_spec rs len k :
  0 <= k <= 12 -> 0 < len < 2 ^ 32 -> Forall wf_region rs ->
  match bootmem_alloc_scan rs len (2 ^ k) with
  | Some (pa, rs') =>
      pa mod 2 ^ k = 0 /\ 0 < pa /\ (forall x, pa <= x < pa + len -> mem_of rs x) /\ Forall wf_region rs' /\
      (forall x, mem_of rs' x -> mem_of rs x) /\
      (disjoint_regions rs -> disjoint_regions rs' /\ forall x, mem_of rs' x -> ~ (pa <= x < pa + len))
  | None => Forall (fun r => ~ fits r len k) rs
  end.
Proof.
  intros Hk Hlen. induction 1 as [|r rs Hr Hrs IH]; simpl; [done|].
  destruct Hr as (Hs & He & Hz).
  destruct (ALIGN_2_spec (rstart r) k) as [Ha Hb]; [lia..|].
  pose proof (ALIGN_2_DOWN_spec (rend r) k ltac:(lia)) as Hd.
  assert (H2 : 0 < 2 ^ k <= 2 ^ 12) by (split; [lia | apply Z.pow_le_mono_r; lia]).
  assert (Hd0 : 0 <= ALIGN_2_DOWN (rend r) (2 ^ k)).
  { unfold ALIGN_2_DOWN. rewrite align_land by lia. apply Z.mul_nonneg_nonneg; [apply Z.div_pos|]; lia. }
  remember (ALIGN_2 (rstart r) (2 ^ k)) as fst eqn:Ef. remember (ALIGN_2_DOWN (rend r) (2 ^ k)) as ed eqn:Ee.
  destruct ((fst <? ed) && (len <=? u32 (ed - fst))) eqn:C.
  - apply andb_true_iff in C as [C1 C2]. rewrite u32_small in C2 by lia.
    assert (rstart r <> 0) by lia. rewrite u32_small by lia.
    assert (Hsub : forall x, covers {| rstart := fst + len; rend := rend r |} x -> covers r x /\ fst + len <= x).
    { intros x (? & ?). unfold covers; simpl in *. lia. }
    split_and!; [done | lia | | | |].
    + intros x Hx. apply mem_of_cons. left. lia.
    + constructor; [|done]. unfold wf_region; simpl. lia.
    + intros x. rewrite !mem_of_cons. intros [Hc|Hc]; [left|by right]. by apply Hsub in Hc as [[]].
    + intros [Hdis Hdis']. split; [split; [|done]|].
      * intros x [Hc _]%Hsub. by apply Hdis.
      * intros x. rewrite mem_of_cons. intros [Hc|Hc]; [apply Hsub in Hc; lia|].
        intros Hx. apply (Hdis x); [|done]. unfold covers. lia.
  - destruct (bootmem_alloc_scan rs len (2 ^ k)) as [[pa rs']|]; simpl.
    + destruct IH as (? & ? & Hin & Hwf & Hsub & Hdis). split_and!; [done | done | | | |].
      * intros x Hx. apply mem_of_cons. right. auto.
      * by constructor.
      * intros x. rewrite !mem_of_cons. intuition.
      * intros [Hd1 Hd2]. destruct (Hdis Hd2) as [Hd3 Hd4]. split; [split; [|done]|].
        -- intros x Hc Hm. by apply (Hd1 x Hc), Hsub.
        -- intros x. rewrite mem_of_cons. intros [Hc|Hc]; [|auto]. intros Hx. apply (Hd1 x Hc). auto.
    + constructor; [|done]. intros Hfit. unfold fits in Hfit. rewrite <- Ef, <- Ee in Hfit.
      rewrite u32_small in C by lia. lia.
Qed.

(** When no two regions of the memory map overlap, [bootmem_alloc] hands
    out an aligned block that lay in the map, no byte of which is in the map
    afterwards; it panics exactly when the block fits in no region. *)
Theorem bootmem_alloc_correct b len k :
  0 <= k <= 12 -> 0 < len < 2 ^ 32 -> Forall wf_region (memregions b) -> disjoint_regions (memregions b) ->
  match bootmem_alloc b len (2 ^ k) with
  | Done (va, b') =>
      exists pa, va = u32 (pa + 0xC0000000) /\ pa mod 2 ^ k = 0 /\
        (forall x, pa <= x < pa + len -> mem_of (memregions b) x) /\
        (forall x, mem_of (memregions b') x -> mem_of (memregions b) x /\ ~ (pa <= x < pa + len)) /\
        Forall wf_region (memregions b') /\ disjoint_regions (memregions b')
  | Panic => Forall (fun r => ~ fits r len k) (memregions b)
  | Fault => False
  end.
Proof.
  intros Hk Hlen Hwf Hdis. unfold bootmem_alloc, bootmem_alloc_nopanic.
  pose proof (bootmem_alloc_scan_spec (memregions b) len k Hk Hlen Hwf) as H.
  destruct (bootmem_alloc_scan _ _ _) as [[pa rs']|]; [|done].
  destruct H as (Ha & _ & Hin & Hwf' & Hsub & H). destruct (H Hdis) as [Hdis' Hout].
  exists pa. split_and!; auto.
Qed.

Definition example_map : bootmem :=
  {| memregions := {| rstart := 0x1000; rend := 0x9F000 |} :: {| rstart := 0x200000; rend := 0x4000000 |}
       :: replicate 62 {| rstart := 0; rend := 0 |};
     highest_page := 0x4000 |}.

Lemma mem_of_empty n x : ~ mem_of (replicate n {| rstart := 0; rend := 0 |}) x.
Proof. intros (r & Hin & H & _). apply elem_of_replicate in Hin as [-> _]. done. Qed.

Lemma disjoint_empty n : disjoint_regions (replicate n {| rstart := 0; rend := 0 |}).
Proof. induction n as [|n IH]; simpl; [done|]. split; [|done]. intros x [H _]. done. Qed.

Lemma example_map_ok : Forall wf_region (memregions example_map) /\ disjoint_regions (memregions example_map).
Proof.
  unfold example_map, memregions. split.
  - do 2 (constructor; [unfold wf_region; simpl; lia|]). apply Forall_replicate. unfold wf_region; simpl. lia.
  - cbn [disjoint_regions]. split_and!; [| |apply disjoint_empty].
    + intros x [_ H] [[_ H']|H']%mem_of_cons; [simpl in *; lia | by apply mem_of_empty in H'].
    + intros x _. apply mem_of_empty.
Qed.

Lemma bootmem_alloc_correct_witness :
  exists pa, 0xC0200000 = u32 (pa + 0xC0000000) /\ pa mod 2 ^ 12 = 0 /\
        (forall x, pa <= x < pa + 0x100000 -> mem_of (memregions example_map) x).
Proof.
  destruct example_map_ok as [Hw Hd].
  destruct (bootmem_alloc_correct example_map 0x100000 12 ltac:(lia) ltac:(lia) Hw Hd) as (pa & H1 & H2 & H3 & _).
  exists pa. split_and!; [rewrite <- H1; reflexivity | exact H2 | exact H3].
Defined.

Lemma bootmem_alloc_scan_ends rs len al pa rs' :
  bootmem_alloc_scan rs len al = Some (pa, rs') -> rend <$> rs' = rend <$> rs.
Proof.
  revert pa rs'. induction rs as [|r rs IH]; intros pa rs' H; simpl in H; [done|].
  case_match; [by injection H as <- <-|].
  destruct (bootmem_alloc_scan rs len al) as [[pa' rs2]|]; simpl in H; [|done].
  injection H as <- <-. simpl. f_equal. by eapply IH.
Qed.

(** * The hand-over to the page allocator *)

Lemma clear_invalid_spec a x :
  inv a -> 0 <= x < npages a ->
  exists a', page_update a x (fun p => page_with_flags p (Z.clearbit (flags p) PG_INVALID)) = Done a' /\
    inv a' /\ npages a' = npages a /\ (forall j, fl a' j = fl a j) /\ invalid a' x = false.
Proof.
  intros (I & C & Hf) Hx. rewrite page_update_done by done. eexists. split; [done|].
  set (a' := alloc_with_pages _ _).
  assert (Hn : npages a' = npages a) by (unfold npages; simpl; by rewrite length_alter).
  assert (Hl : forall y, 0 <= y -> ord_of a' y = ord_of a y /\ (invalid a y = false -> invalid a' y = false)).
  { intros y Hy. unfold ord_of, invalid. simpl. destruct (decide (Z.to_nat y = Z.to_nat x)) as [E|E].
    - rewrite E, list_lookup_alter_eq. destruct (pages a !! Z.to_nat x); simpl; [|done].
      by rewrite Z.clearbit_eq.
    - by rewrite list_lookup_alter_ne. }
  split_and!; try done.
  - split_and!; [|done|done]. split; try done; try apply I.
    + by rewrite Hn; apply I.
    + intros i pn. simpl. destruct (decide (i = Z.to_nat x)) as [->|E].
      * rewrite list_lookup_alter_eq. intros Hp. apply I. by destruct (pages a !! Z.to_nat x).
      * rewrite list_lookup_alter_ne by done. apply I.
    + intros k pn Hin. destruct (ib_block _ _ I _ _ Hin) as (? & ? & ? & ? & ? & ? & Hv).
      rewrite Hn. destruct (Hl pn) as [-> _]; [done|]. split_and!; auto.
      intros y Hy. apply Hl; [lia | by apply Hv].
    + intros pn Hpn Hne. rewrite Hn in Hpn. destruct (Hl pn) as [-> _]; [lia|]. by apply I.
  - unfold invalid. simpl. rewrite list_lookup_alter_eq. unfold npages in Hx.
    destruct (lookup_lt_is_Some_2 (pages a) (Z.to_nat x)) as [p ->]; [lia|]. simpl. by rewrite Z.clearbit_eq.
Qed.

Section setup.
  Context (kern_start kern_end : Z).

(** The page [x] of a region that starts at page [first] and has [n] pages is
    given to the page allocator. *)
Definition usable (x : Z) : Prop :=
  x * PG_SIZE < KMAP_PHYS /\ in_kernel kern_start kern_end (x * PG_SIZE) = false.

Lemma setup_pages_spec n : forall a first,
  0 <= first -> inv a -> first + Z.of_nat n <= npages a \/ n = 0%nat ->
  (forall x, first <= x < first + Z.of_nat n -> ~ is_free a x) ->
  exists a', setup_pages kern_start kern_end n a (first * PG_SIZE) = Done a' /\ inv a' /\
    npages a' = npages a /\
    forall x, is_free a' x <-> is_free a x \/ (first <= x < first + Z.of_nat n /\ usable x).
Proof.
  induction n as [|n IH]; intros a first H0 Hinv Hn Hnew; cbn [setup_pages].
  { exists a. split_and!; auto. intros x. intuition lia. }
  assert (Hsh : Z.shiftr (first * PG_SIZE) PG_SHIFT = first).
  { rewrite Z.shiftr_div_pow2 by (unfold PG_SHIFT; lia). unfold PG_SIZE, PG_SHIFT.
    change (2 ^ 12) with 4096. apply Z.div_mul. lia. }
  rewrite Hsh. destruct (clear_invalid_spec a first Hinv) as (a1 & -> & Hinv1 & Hn1 & Hfl1 & Hv1); [lia|].
  obind. destruct (Z.leb_spec KMAP_PHYS (first * PG_SIZE)) as [Hk|Hk].
  { exists a1. split_and!; auto. intros x. rewrite (is_free_same a) by done. unfold usable, PG_SIZE in *. intuition lia. }
  assert (exists a2, mark_page_free kern_start kern_end a1 (first * PG_SIZE) = Done a2 /\ inv a2 /\ npages a2 = npages a1 /\
    forall x, is_free a2 x <-> is_free a1 x \/ (x = first /\ usable x)) as (a2 & -> & Hinv2 & Hn2 & Hx2).
  { unfold mark_page_free. destruct (in_kernel _ _ (first * PG_SIZE)) eqn:Ek.
    - exists a1. split_and!; auto. intros x. unfold usable. intuition (subst; congruence).
    - rewrite Hsh. destruct (pfree_add_pages_spec a1 first 0) as (a2 & E & Hinv2 & _ & Hn2 & _ & Hx2); [done| |].
      + split; [lia | lia | apply Z.mod_1_r | unfold blk; simpl; lia | |].
        * intros x Hx. unfold blk in Hx. simpl in Hx. by replace x with first by lia.
        * intros j pn Hin. pose proof (blk_pos j). unfold blk at 2. simpl.
          destruct (decide (pn <= first < pn + blk j)); [|lia]. exfalso.
          apply (Hnew first); [lia|]. apply (is_free_same a a1); [done|]. by exists j, pn.
      + exists a2. split_and!; auto. intros x. rewrite Hx2. change (blk 0) with 1. split.
        * intros [?|?]; [by left|right]. replace x with first by lia. done.
        * intros [?|[-> _]]; [by left | right; lia]. }
  obind. replace (first * PG_SIZE + PG_SIZE) with ((first + 1) * PG_SIZE) by (unfold PG_SIZE; lia).
  destruct (IH a2 (first + 1)) as (a' & -> & Hinv' & Hn' & Hx'); [lia | done | lia | |].
  { intros x Hx Hfree. apply Hx2 in Hfree as [Hfree|[-> _]]; [|lia].
    apply (Hnew x); [lia|]. by apply (is_free_same a a1). }
  exists a'. split_and!; auto; [lia|]. intros x. rewrite Hx', Hx2, (is_free_same a a1) by done.
  destruct (decide (x = first)) as [->|]; intuition (lia || auto with lia).
Qed.

(** Page [x] lies between the rounded ends of the region. *)
Definition page_in (r : bootmem_region) (x : Z) : Prop :=
  rstart r <> 0 /\ PG_ALIGN (rstart r) <= x * PG_SIZE < PG_ALIGN_DOWN (rend r).

Definition map_page (rs : list bootmem_region) (x : Z) : Prop := exists r, r ∈ rs /\ page_in r x.

Lemma map_page_cons r rs x : map_page (r :: rs) x <-> page_in r x \/ map_page rs x.
Proof.
  unfold map_page. setoid_rewrite elem_of_cons. split.
  - intros (r' & [->|Hin] & H); eauto.
  - intros [H|(r' & Hin & H)]; eauto.
Qed.

Lemma page_in_covers r x : wf_region r -> page_in r x -> covers r (x * PG_SIZE).
Proof. intros (Hs & He & _) [H0 H]. unfold covers. split; [done|]. pg_align. lia. Qed.

Lemma map_page_mem rs x : Forall wf_region rs -> map_page rs x -> mem_of rs (x * PG_SIZE).
Proof.
  intros Hwf (r & Hin & H). rewrite Forall_forall in Hwf. exists r. split; [done|].
  apply page_in_covers; auto.
Qed.

Lemma setup_regions_spec rs : forall a,
  Forall wf_region rs -> disjoint_regions rs -> inv a ->
  Forall (fun r => rend r <= npages a * PG_SIZE) rs ->
  (forall x, map_page rs x -> ~ is_free a x) ->
  exists a', setup_regions kern_start kern_end rs a = Done a' /\ inv a' /\
    forall x, is_free a' x <-> is_free a x \/ (map_page rs x /\ usable x).
Proof.
  induction rs as [|r rs IH]; intros a Hwf Hdis Hinv Hhigh Hnew; cbn [setup_regions].
  { exists a. split_and!; auto. intros x. split; [by left|]. intros [?|[(r & Hin & _) _]]; [done|].
    by apply elem_of_nil in Hin. }
  apply Forall_cons in Hwf as [Hr Hwf]. apply Forall_cons in Hhigh as [Hrh Hhigh]. destruct Hdis as [Hd Hdis].
  destruct (Z.eqb_spec (rstart r) 0) as [Hz|Hz].
  { destruct (IH a) as (a' & E & Hinv' & Hx); auto.
    { intros x Hm. apply Hnew. apply map_page_cons. by right. }
    exists a'. split_and!; auto. intros x. rewrite Hx, map_page_cons. unfold page_in. intuition. }
  set (F := PG_ALIGN (rstart r) / PG_SIZE). set (n := Z.to_nat _).
  assert (HF : PG_ALIGN (rstart r) = F * PG_SIZE /\ 0 <= F /\
    forall x, F <= x < F + Z.of_nat n <-> page_in r x).
  { subst F n. unfold page_in. destruct Hr as (? & ? & _). pg_align. split_and!; lia. }
  destruct HF as (EF & HF0 & HF). rewrite EF.
  destruct (setup_pages_spec n a F) as (a1 & -> & Hinv1 & Hn1 & Hx1); auto.
  { destruct (decide (n = 0%nat)) as [->|Hn0]; [by right | left].
    destruct (HF (F + Z.of_nat n - 1)) as [[_ HF'] _]; [lia|]. unfold PG_SIZE in *.
    rewrite PG_ALIGN_DOWN_spec in HF'. Z.div_mod_to_equations. lia. }
  { intros x Hx%HF. apply Hnew, map_page_cons. by left. }
  obind. destruct (IH a1) as (a' & -> & Hinv' & Hx'); auto.
  { by rewrite Hn1. }
  { intros x Hm Hfree. apply Hx1 in Hfree as [Hfree|[Hp _]].
    - apply (Hnew x); [|done]. apply map_page_cons. by right.
    - apply HF in Hp. apply (Hd (x * PG_SIZE)); [by apply page_in_covers | by apply map_page_mem]. }
  exists a'. split_and!; auto. intros x. rewrite Hx', Hx1, map_page_cons, HF. intuition.
Qed.
End setup.

(** The hand-over leaves a consistent page allocator whose free pages are
    exactly the whole pages of the memory map that is left once the page array
    has been taken from it, below the end of the directly mapped memory and
    outside of the kernel image. *)
Theorem bootmem_setup_palloc_correct kern_start kern_end b va b1 :
  Forall wf_region (memregions b) -> disjoint_regions (memregions b) ->
  0 < highest_page b <= 2 ^ 20 -> highest_page b mod 32 = 0 ->
  Forall (fun r => rend r <= highest_page b * PG_SIZE) (memregions b) ->
  bootmem_alloc b (u32 (highest_page b * SIZEOF_PAGE)) PG_SIZE = Done (va, b1) ->
  exists a, bootmem_setup_palloc kern_start kern_end b = Done (b1, a) /\ inv a /\
    forall x, is_free a x <-> map_page (memregions b1) x /\ usable kern_start kern_end x.
Proof.
  intros Hwf Hdis Hhp Hm Hend E. unfold bootmem_setup_palloc. rewrite E. obind.
  unfold bootmem_alloc, bootmem_alloc_nopanic in E.
  pose proof (bootmem_alloc_scan_spec (memregions b) (u32 (highest_page b * SIZEOF_PAGE)) 12) as H.
  change (2 ^ 12) with PG_SIZE in H.
  destruct (bootmem_alloc_scan (memregions b) _ PG_SIZE) as [[pa rs']|] eqn:Es; [|done].
  injection E as <- <-. unfold SIZEOF_PAGE in *. rewrite u32_small in * by lia.
  destruct H as (_ & _ & _ & Hwf' & _ & H); [lia | lia | done |]. destruct (H Hdis) as [Hdis' _].
  destruct (palloc_init_inv (highest_page b)) as (Hinv & Hn & _ & Hfree & _); [lia | done |].
  apply bootmem_alloc_scan_ends in Es. cbn [memregions highest_page].
  destruct (setup_regions_spec kern_start kern_end rs' (fst (palloc_init (highest_page b))))
    as (a & -> & Hinv' & Hx); auto.
  { rewrite Hn. apply Forall_forall. intros r Hr. rewrite Forall_forall in Hend.
    assert (He : rend r ∈ rend <$> rs') by (by apply list_elem_of_fmap_2).
    rewrite Es in He. apply list_elem_of_fmap in He as (r' & -> & Hr'). by apply Hend. }
  obind. exists a. split_and!; auto. intros x. rewrite Hx. split; [|by right]. intros [Hf|?]; [|done].
  by apply Hfree in Hf.
Qed.

Lemma bootmem_setup_palloc_correct_witness :
  exists b1 a, bootmem_setup_palloc 0x100000 0x200000 example_map = Done (b1, a) /\ inv a /\
    forall x, is_free a x <-> map_page (memregions b1) x /\ usable 0x100000 0x200000 x.
Proof.
  destruct example_map_ok as [Hw Hd].
  destruct (bootmem_alloc example_map (u32 (highest_page example_map * SIZEOF_PAGE)) PG_SIZE)
    as [[va b1]| |] eqn:E; [|discriminate E..].
  destruct (bootmem_setup_palloc_correct 0x100000 0x200000 example_map va b1 Hw Hd) as (a & H).
  - simpl. lia.
  - reflexivity.
  - unfold example_map, memregions. do 2 (constructor; [vm_compute; discriminate|]).
    apply Forall_replicate. vm_compute. discriminate.
  - exact E.
  - exists b1, a. exact H.
Defined.
