(* ===== verification/PageAlloc.v ===== *)
(** What the page allocator promises to its clients, as an interface: blocks of
    pages by virtual address ([palloc_va] and [pfree_va] of
    include/protura/mm/palloc.h), and the buddy allocator as an instance.  The
    pages are numbered by their virtual address divided by [PG_SIZE]. *)
From stdpp Require Import base numbers list gmap.
From Stdlib Require Import ZArith ZifyBool Lia.
From S2P Require Import Prelude UserMem Palloc.
Open Scope Z_scope.

(** Page [x] belongs to the block of order [ord] at [va]. *)
Definition in_block (va ord x : Z) : Prop := va / PG_SIZE <= x < va / PG_SIZE + 2 ^ ord.

Class PageAllocator (A : Type) := {
  palloc_va : A -> Z -> Z -> outcome (Z * A);
  pfree_va : A -> Z -> Z -> outcome A;
  pages_ok : A -> Prop;
  page_free : A -> Z -> Prop;
  (** The block exists: an aligned run of usable pages of the kernel's map. *)
  block_valid : A -> Z -> Z -> Prop;
  block_valid_range : forall a va ord, block_valid a va ord ->
    KMEM_KBASE <= va /\ va mod PG_SIZE = 0 /\ 0 <= ord <= 5 /\ va + 2 ^ ord * PG_SIZE < 2 ^ 32;
  palloc_va_spec : forall a ord flgs va a',
    pages_ok a -> 0 <= ord <= 5 -> palloc_va a ord flgs = Done (va, a') ->
    pages_ok a' /\ (forall v o, block_valid a' v o <-> block_valid a v o) /\
    (va = 0 -> forall x, page_free a' x <-> page_free a x) /\
    (va <> 0 -> block_valid a va ord /\
       (forall x, page_free a x <-> page_free a' x \/ in_block va ord x) /\
       (forall x, in_block va ord x -> ~ page_free a' x));
  pfree_va_spec : forall a va ord,
    pages_ok a -> block_valid a va ord -> (forall x, in_block va ord x -> ~ page_free a x) ->
    exists a', pfree_va a va ord = Done a' /\ pages_ok a' /\
      (forall v o, block_valid a' v o <-> block_valid a v o) /\
      (forall x, page_free a x -> page_free a' x) /\
      (forall x, page_free a' x -> page_free a x \/ in_block va ord x);
}.

(** * The buddy allocator *)

Definition V2P (va : Z) : Z := u32 (va - KMEM_KBASE).

Section buddy.
  Context (kern_start kern_end : Z).

Definition buddy_palloc_va (a : page_buddy_alloc) (ord flgs : Z) : outcome (Z * page_buddy_alloc) :=
  '(p, a) ← palloc (fun a => a) a ord flgs;
  match p with
  | Some pn => pg ← page_from_pn a pn; Done (virt pg, a)
  | None => Done (0, a)
  end.

Definition buddy_pfree_va (a : page_buddy_alloc) (va ord : Z) : outcome page_buddy_alloc :=
  pfree kern_start kern_end a (Some (Z.shiftr (V2P va) PG_SHIFT)) ord.

(** The fields of the page array that the allocator never writes. *)
Definition static (a : page_buddy_alloc) : list (Z * Z * Z) :=
  (fun p => (page_number p, flags p, virt p)) <$> pages a.

Lemma page_update_static a pn f a' :
  page_update a pn f = Done a' ->
  (forall p, (page_number (f p), flags (f p), virt (f p)) = (page_number p, flags p, virt p)) ->
  static a' = static a.
Proof.
  unfold page_update. intros H Hf. inv_outcome. subst. unfold static. cbn [pages alloc_with_pages].
  apply arr_get_done in Hm as [_ Hm]. apply arr_set_done in Hm0 as [_ ->].
  rewrite list_fmap_insert, Hf. apply list_insert_id. by rewrite list_lookup_fmap, Hm.
Qed.

Lemma map_update_static a k f a' : map_update a k f = Done a' -> static a' = static a.
Proof. unfold map_update. intros H. inv_outcome. by subst. Qed.

Lemma pfree_merge_static n : forall a cur ord a' cur' ord',
  pfree_merge n a cur ord = Done (a', cur', ord') -> static a' = static a.
Proof.
  induction n as [|n IH]; intros a cur ord a' cur' ord' H; simpl in H; [by injection H as <-|].
  inv_outcome. case_match; [by injection H as <-|]. inv_outcome.
  apply IH in H. apply map_update_static in Hm0. apply page_update_static in Hm1; [|done].
  by rewrite H, Hm1, Hm0.
Qed.

(** Takes an operation apart into its updates, which keep the static fields. *)
Ltac static_steps :=
  repeat match goal with
  | H : _ ≫= _ = Done _ |- _ => apply outcome_bind_done in H as (? & ? & H)
  | H : Done (_, _) = Done (_, _) |- _ => injection H as <- <-
  | H : Done _ = Done _ |- _ => injection H as <-
  | H : Fault = Done _ |- _ => discriminate H
  | H : Panic = Done _ |- _ => discriminate H
  | H : match ?r with (_, _) => _ end = Done _ |- _ => destruct r
  | H : match ?r with Some _ => _ | None => _ end = Done _ |- _ => destruct r
  | H : (if ?c then _ else _) = Done _ |- _ => destruct c
  | H : map_update _ _ _ = Done _ |- _ => apply map_update_static in H
  | H : page_update _ _ _ = Done _ |- _ => apply page_update_static in H; [|done]
  | H : pfree_merge _ _ _ _ = Done _ |- _ => apply pfree_merge_static in H
  | H : (_, _) = (_, _) |- _ => injection H as -> ->
  end.

Lemma list_del_static a p : static (list_del a p) = static a.
Proof. done. Qed.

Lemma wake_maps_static a ord : static (wake_maps a ord) = static a.
Proof. done. Qed.

Lemma alloc_add_free_static a n : static (alloc_add_free a n) = static a.
Proof. done. Qed.

Lemma pfree_static a p ord a' : pfree kern_start kern_end a p ord = Done a' -> static a' = static a.
Proof.
  unfold pfree, pfree_add_pages, map_list_add, map_count_add. intros H.
  static_steps; rewrite ?wake_maps_static, ?alloc_add_free_static; congruence.
Qed.

Lemma map_take_last_static a k p a' : map_take_last a k = Done (p, a') -> static a' = static a.
Proof. unfold map_take_last. intros H. static_steps; done. Qed.

Lemma break_page_static n : forall a ord a', break_page n a ord = Done a' -> static a' = static a.
Proof.
  induction n as [|n IH]; intros a ord a' H; cbn [break_page] in H;
    unfold break_page_split, map_list_add, map_count_add in H; static_steps; try done;
    repeat match goal with
    | E : break_page _ _ _ = Done _ |- _ => apply IH in E
    | E : map_take_last _ _ = Done _ |- _ => apply map_take_last_static in E
    end; congruence.
Qed.

Lemma palloc_static a ord flgs p a' : palloc (fun a => a) a ord flgs = Done (p, a') -> static a' = static a.
Proof.
  unfold palloc, palloc_phys_multiple, palloc_sleep_for_enough_pages, map_count_add. intros H.
  assert (Hid : (if Z.land flgs PAL_NOWAIT =? 0 then if free_pages a <? Z.shiftl 1 ord then a else a else a) = a)
    by (by repeat case_match).
  rewrite Hid in H. static_steps;
    repeat match goal with
    | E : break_page _ _ _ = Done _ |- _ => apply break_page_static in E
    | E : map_take_last _ _ = Done _ |- _ => apply map_take_last_static in E
    end; rewrite ?alloc_add_free_static in *; congruence.
Qed.

Lemma static_npages a a' : static a' = static a -> npages a' = npages a.
Proof. intros H. apply (f_equal length) in H. unfold static in H. rewrite !length_fmap in H. unfold npages. lia. Qed.

Lemma static_invalid a a' x : static a' = static a -> invalid a' x = invalid a x.
Proof.
  intros H. apply (f_equal (fun l => l !! Z.to_nat x)) in H. unfold static in H. rewrite !list_lookup_fmap in H.
  unfold invalid. destruct (pages a' !! _), (pages a !! _); simplify_eq/=; congruence.
Qed.

Lemma static_virt a a' i pg' :
  static a' = static a -> pages a' !! i = Some pg' -> exists pg, pages a !! i = Some pg /\ virt pg' = virt pg.
Proof.
  intros H Hi. apply (f_equal (fun l => l !! i)) in H. unfold static in H. rewrite !list_lookup_fmap, Hi in H.
  destruct (pages a !! i) as [pg|]; simplify_eq/=. by exists pg.
Qed.

(** The kernel maps physical memory at [KMEM_KBASE], below the end of the
    address space. *)
Definition buddy_ok (a : page_buddy_alloc) : Prop :=
  inv a /\ npages a < 0x40000 /\
  forall i pg, pages a !! i = Some pg -> virt pg = KMEM_KBASE + PG_SIZE * Z.of_nat i.

Definition buddy_free (a : page_buddy_alloc) (x : Z) : Prop := is_free a (x - KMEM_KBASE / PG_SIZE).

Definition buddy_valid (a : page_buddy_alloc) (va ord : Z) : Prop :=
  exists p k, ord = Z.of_nat k /\ (k <= 5)%nat /\ va = KMEM_KBASE + PG_SIZE * p /\ 0 <= p /\
    p mod blk k = 0 /\ p + blk k <= npages a /\ npages a < 0x40000 /\
    forall x, p <= x < p + blk k -> invalid a x = false.

Lemma buddy_valid_static a a' v o : static a' = static a -> buddy_valid a' v o <-> buddy_valid a v o.
Proof.
  intros H. unfold buddy_valid. rewrite (static_npages _ _ H). by setoid_rewrite (fun x => static_invalid a a' x H).
Qed.

Lemma buddy_ok_static a a' : buddy_ok a -> inv a' -> static a' = static a -> buddy_ok a'.
Proof.
  intros (_ & Hn & Hv) Hi Hs. split_and!; [done | by rewrite (static_npages _ _ Hs) |].
  intros i pg Hp. destruct (static_virt _ _ _ _ Hs Hp) as (pg0 & Hp0 & ->). by apply Hv.
Qed.

Lemma in_block_buddy p k x :
  in_block (KMEM_KBASE + PG_SIZE * p) (Z.of_nat k) x <-> p <= x - KMEM_KBASE / PG_SIZE < p + blk k.
Proof.
  unfold in_block, blk. change KMEM_KBASE with (786432 * PG_SIZE). unfold PG_SIZE.
  rewrite Z.div_mul by lia. rewrite (Z.mul_comm 4096 p), <- Z.mul_add_distr_r, Z.div_mul by lia. lia.
Qed.

Lemma buddy_valid_range a va ord : buddy_valid a va ord ->
  KMEM_KBASE <= va /\ va mod PG_SIZE = 0 /\ 0 <= ord <= 5 /\ va + 2 ^ ord * PG_SIZE < 2 ^ 32.
Proof.
  intros (p & k & -> & Hk & -> & H0 & _ & Hp & Hn & _). unfold blk in Hp.
  split_and!; [| | lia | lia |]; unfold KMEM_KBASE, PG_SIZE in *; [lia | | lia].
  rewrite (Z.mul_comm 4096 p). by rewrite Z.mod_add.
Qed.

Lemma buddy_palloc_va_spec a ord flgs va a' :
  buddy_ok a -> 0 <= ord <= 5 -> buddy_palloc_va a ord flgs = Done (va, a') ->
  buddy_ok a' /\ (forall v o, buddy_valid a' v o <-> buddy_valid a v o) /\
  (va = 0 -> forall x, buddy_free a' x <-> buddy_free a x) /\
  (va <> 0 -> buddy_valid a va ord /\
     (forall x, buddy_free a x <-> buddy_free a' x \/ in_block va ord x) /\
     (forall x, in_block va ord x -> ~ buddy_free a' x)).
Proof.
  intros Hok Ho E. unfold buddy_palloc_va in E. apply outcome_bind_done in E as ([p a1] & Ep & E).
  pose proof (palloc_static _ _ _ _ _ Ep) as Hs. pose proof Hok as (Hi & Hn & Hv).
  unfold palloc in Ep. apply outcome_bind_done in Ep as ([p0 a0] & Em & Ep).
  destruct p0 as [pn|]; [|done]. apply outcome_bind_done in Ep as (pg0 & _ & Ep). injection Ep as <- <-.
  apply outcome_bind_done in E as (pg & Epg & E). injection E as <- <-.
  destruct (palloc_phys_multiple_spec (fun a => a) (fun a H => H) a (Z.to_nat ord) flgs) as (r & a2 & Em' & Hi' & Hr);
    [lia | done |]. rewrite Z2Nat.id in Em', Hr by lia. rewrite Em in Em'. simplify_eq.
  unfold after_wait, palloc_sleep_for_enough_pages in Hr.
  assert (Hid : (if Z.land flgs PAL_NOWAIT =? 0 then if free_pages a <? Z.shiftl 1 ord then a else a else a) = a)
    by (by repeat case_match).
  rewrite Hid in Hr. destruct Hr as (H0 & Ha & Hp & Hh & _ & Hf).
  assert (Eva : virt pg = KMEM_KBASE + PG_SIZE * pn).
  { apply arr_get_done in Epg as [_ Epg]. destruct (buddy_ok_static _ _ Hok Hi' Hs) as (_ & _ & Hv').
    rewrite (Hv' _ _ Epg). f_equal. f_equal. lia. }
  rewrite Eva. split_and!; [by eapply buddy_ok_static | by intros; apply buddy_valid_static | |].
  { unfold KMEM_KBASE, PG_SIZE. lia. }
  intros _. rewrite <- (Z2Nat.id ord) by lia. split_and!.
  - exists pn, (Z.to_nat ord). split_and!; auto; [lia|].
    intros x Hx. rewrite <- (static_invalid a a2 x Hs). by apply (h_valid _ _ _ Hh).
  - intros x. rewrite in_block_buddy. apply Hf.
  - intros x. rewrite in_block_buddy. intros Hx (k & b & Hb & Hxb).
    pose proof (h_disj _ _ _ Hh _ _ Hb). lia.
Qed.

Lemma buddy_pfree_va_spec a va ord :
  buddy_ok a -> buddy_valid a va ord -> (forall x, in_block va ord x -> ~ buddy_free a x) ->
  exists a', buddy_pfree_va a va ord = Done a' /\ buddy_ok a' /\
    (forall v o, buddy_valid a' v o <-> buddy_valid a v o) /\
    (forall x, buddy_free a x -> buddy_free a' x) /\
    (forall x, buddy_free a' x -> buddy_free a x \/ in_block va ord x).
Proof.
  intros Hok (p & k & -> & Hk & -> & H0 & Ha & Hp & Hn & Hv) Hnf. pose proof Hok as (Hi & _ & _).
  assert (Ep : Z.shiftr (V2P (KMEM_KBASE + PG_SIZE * p)) PG_SHIFT = p).
  { unfold V2P. replace (KMEM_KBASE + PG_SIZE * p - KMEM_KBASE) with (p * PG_SIZE) by lia. pose proof (blk_pos k).
    rewrite u32_small by (unfold PG_SIZE; lia). rewrite Z.shiftr_div_pow2 by done. by apply Z.div_mul. }
  assert (Hh : held a p k).
  { split; auto. intros j pn Hin. pose proof (blk_pos j). pose proof (blk_pos k).
    destruct (Z.le_gt_cases (pn + blk j) p); [by left|]. destruct (Z.le_gt_cases (p + blk k) pn); [by right|].
    exfalso. apply (Hnf (Z.max p pn + KMEM_KBASE / PG_SIZE)); [apply in_block_buddy; lia|].
    exists j, pn. split; [done | lia]. }
  destruct (pfree_spec kern_start kern_end a p k Hi Hh) as (a' & E & Hi' & Hr).
  pose proof (pfree_static _ _ _ _ E) as Hs. exists a'. unfold buddy_pfree_va. rewrite Ep.
  split_and!; [done | by eapply buddy_ok_static | by intros; apply buddy_valid_static | |];
    intros x; unfold buddy_free; try rewrite in_block_buddy.
  - destruct (in_kernel _ _ _); [by subst|]. destruct (uses a p =? 1).
    + destruct Hr as (_ & -> & _). tauto.
    + destruct Hr as (_ & -> & _). done.
  - destruct (in_kernel _ _ _); [subst; tauto|]. destruct (uses a p =? 1).
    + destruct Hr as (_ & -> & _). tauto.
    + destruct Hr as (_ & -> & _). tauto.
Qed.

#[export] Instance buddy_page_allocator : PageAllocator page_buddy_alloc := {
  palloc_va := buddy_palloc_va;
  pfree_va := buddy_pfree_va;
  pages_ok := buddy_ok;
  page_free := buddy_free;
  block_valid := buddy_valid;
  block_valid_range := buddy_valid_range;
  palloc_va_spec := buddy_palloc_va_spec;
  pfree_va_spec := buddy_pfree_va_spec;
}.
End buddy.

(** ** The example of Palloc.v *)

Lemma example_alloc_ok : buddy_ok example_alloc.
Proof.
  split_and!; [apply example_alloc_inv | done |]. intros i pg Hi.
  rewrite <- (Nat2Z.id i), example_alloc_page in Hi by lia. case_decide; [|done]. injection Hi as <-.
  cbn [virt example_page]. unfold PG_SHIFT, KMEM_KBASE, PG_SIZE. rewrite Z.shiftl_mul_pow2, u32_small by lia. lia.
Qed.
