(* ===== verification/Slab.v ===== *)
(** The slab allocator (src/mm/slab.c): frames of equally sized objects cut out
    of page blocks, each with a list of its free objects that is threaded
    through the objects themselves, in address order, the rest of a free object
    being filled with a poison value.

    Memory is the map [words] from addresses to 32-bit words; the list of a
    frame is really followed through it.  A frame's header, which lies in front
    of its objects, is a record, and the chain of frames a list. *)
From stdpp Require Import base numbers list gmap sorting.
From Stdlib Require Import ZArith ZifyBool Lia.
From S2P Require Import Prelude UserMem Palloc Bootmem PageAlloc.
Open Scope Z_scope.

Definition SLAB_POISON : Z := 0xDEADBEAF.

(** [CONFIG_KERNEL_SLAB_ORDER]. *)
Definition KERNEL_SLAB_ORDER : Z := 5.

(** [sizeof(struct slab_page_frame)]. *)
Definition FRAME_HEADER : Z := 28.

(** [frame] is the address of the frame itself. *)
Record slab_page_frame : Type := {
  frame : Z;
  first_addr : Z;
  last_addr : Z;
  page_index_size : Z;
  object_count : Z;
  free_object_count : Z;
  freelist : Z;
}.

Record slab_alloc : Type := { object_size : Z; frames : list slab_page_frame }.

Definition frame_set_free (f : slab_page_frame) (count head : Z) : slab_page_frame :=
  {| frame := frame f; first_addr := first_addr f; last_addr := last_addr f;
     page_index_size := page_index_size f; object_count := object_count f;
     free_object_count := count; freelist := head |}.

Definition slab_set_frames (s : slab_alloc) (fs : list slab_page_frame) : slab_alloc :=
  {| object_size := object_size s; frames := fs |}.

(** * Memory *)

Definition rd (m : gmap Z Z) (a : Z) : Z := default 0 (m !! a).

Definition poison_object (m : gmap Z Z) (obj size : Z) : gmap Z Z :=
  foldl (fun m k => <[obj + 4 * k := SLAB_POISON]> m) m (seqZ 0 (size / 4)).

(** The words after the link. *)
Definition poison_ok (m : gmap Z Z) (obj size : Z) : bool :=
  forallb (fun k => rd m (obj + 4 + 4 * k) =? SLAB_POISON) (seqZ 0 ((size - 4) / 4)).

(** [*current] and [*current = v]: [current] points to the head of the list
    ([None]) or to the link in a free object. *)
Definition load_link (m : gmap Z Z) (head : Z) (current : option Z) : Z :=
  match current with None => head | Some o => rd m o end.

Definition store_link (m : gmap Z Z) (head : Z) (current : option Z) (v : Z) : Z * gmap Z Z :=
  match current with None => (v, m) | Some o => (head, <[o := v]> m) end.

(** * Frames *)

(** The loop that threads [n] objects from [obj] on. *)
Fixpoint link_objects (n : nat) (size : Z) (m : gmap Z Z) (head : Z) (current : option Z) (obj : Z) : Z * gmap Z Z :=
  match n with
  | O => store_link m head current 0
  | S n' =>
      let m := poison_object m obj size in
      let '(head, m) := store_link m head current obj in
      link_objects n' size m head (Some obj) (ALIGN_2 (u32 (obj + size)) size)
  end.

Definition new_frame (m : gmap Z Z) (newframe size : Z) : slab_page_frame * gmap Z Z :=
  let page_index := KERNEL_SLAB_ORDER in
  let first := ALIGN_2 (u32 (newframe + FRAME_HEADER)) size in
  let count := u32 (u32 (newframe + PG_SIZE * Z.shiftl 1 page_index) - first) / size in
  let '(head, m) := link_objects (Z.to_nat count) size m 0 None first in
  ({| frame := newframe; first_addr := first; last_addr := u32 (first + count * size);
      page_index_size := page_index; object_count := count; free_object_count := count; freelist := head |}, m).

(** [n] bounds the entries that are skipped. *)
Fixpoint frame_object_alloc (n : nat) (m : gmap Z Z) (size : Z) (f : slab_page_frame) : Z * slab_page_frame :=
  match n with
  | O => (0, f)
  | S n' =>
      if freelist f =? 0 then (0, f)
      else
        let obj := freelist f in
        if poison_ok m obj size then (obj, frame_set_free f (free_object_count f - 1) (rd m obj))
        else frame_object_alloc n' m size (frame_set_free f (free_object_count f) (rd m obj))
  end.

Inductive freed : Type :=
| DoubleFree
| NotInFrame
| Linked (head : Z) (m : gmap Z Z).

(** The walk of [__slab_frame_object_free]; [n] bounds the entries it passes. *)
Fixpoint free_walk (n : nat) (m : gmap Z Z) (size head : Z) (current : option Z) (obj : Z) : freed :=
  match n with
  | O => NotInFrame
  | S n' =>
      let cur := load_link m head current in
      if (cur <=? obj) && (obj <? u32 (cur + size)) then DoubleFree
      else if (obj <=? cur) || (cur =? 0) then
        let m := poison_object m obj size in
        let m := <[obj := load_link m head current]> m in
        let '(head, m) := store_link m head current obj in
        Linked head m
      else free_walk n' m size head (Some cur) obj
  end.

Fixpoint malloc_scan (m : gmap Z Z) (size : Z) (fs : list slab_page_frame) : option (Z * list slab_page_frame) :=
  match fs with
  | [] => None
  | f :: fs' =>
      if negb (free_object_count f =? 0) && (freelist f =? 0) then
        '(obj, r) ← malloc_scan m size fs'; Some (obj, f :: r)
      else if negb (free_object_count f =? 0) then
        let '(obj, f) := frame_object_alloc (Z.to_nat (object_count f) + 1) m size f in Some (obj, f :: fs')
      else '(obj, r) ← malloc_scan m size fs'; Some (obj, f :: r)
  end.

Definition slab_has_addr (s : slab_alloc) (addr : Z) : Z :=
  if existsb (fun f => (first_addr f <=? addr) && (addr <? last_addr f)) (frames s) then 0 else 1.

(** * The allocator, over the page allocator *)

Section slab.
  Context {A : Type} `{PA : PageAllocator A}.

Record heap : Type := { words : gmap Z Z; pages : A }.

Definition world : Type := (slab_alloc * heap)%type.

Definition slab_frame_free (a : A) (f : slab_page_frame) : outcome A := pfree_va a (frame f) (page_index_size f).

Fixpoint oom_frames (a : A) (fs : list slab_page_frame) : outcome (list slab_page_frame * A) :=
  match fs with
  | [] => Done ([], a)
  | f :: fs' =>
      if free_object_count f =? object_count f then
        a ← slab_frame_free a f;
        oom_frames a fs'
      else
        '(r, a) ← oom_frames a fs';
        Done (f :: r, a)
  end.

Definition slab_oom (w : world) : outcome world :=
  let '(s, h) := w in
  '(fs, a) ← oom_frames (pages h) (frames s);
  Done (slab_set_frames s fs, {| words := words h; pages := a |}).

(** What the rest of the system does while the slab's lock is not held: before
    the pages are allocated (a wait for memory included) and after. *)
Definition slab_frame_add_new (before after : world -> world) (flgs : Z) (w : world) : outcome (Z * world) :=
  let '(s, h) := before w in
  '(newframe, a) ← palloc_va (pages h) KERNEL_SLAB_ORDER flgs;
  let '(s, h) := after (s, {| words := words h; pages := a |}) in
  if newframe =? 0 then Done (- ENOMEM, (s, h))
  else
    let '(f, m) := new_frame (words h) newframe (object_size s) in
    Done (0, (slab_set_frames s (frames s ++ [f]), {| words := m; pages := pages h |})).

(** [n] bounds the frames that are added. *)
Fixpoint slab_malloc (n : nat) (before after : world -> world) (flgs : Z) (w : world) : outcome (Z * world) :=
  let '(s, h) := w in
  match malloc_scan (words h) (object_size s) (frames s) with
  | Some (obj, fs) => Done (obj, (slab_set_frames s fs, h))
  | None =>
      match n with
      | O => Panic
      | S n' =>
          '(err, w) ← slab_frame_add_new before after flgs w;
          if negb (err =? 0) then Done (0, w) else slab_malloc n' before after flgs w
      end
  end.

(** [__slab_frame_object_free] for the frame at index [i]. *)
Definition slab_frame_object_free (w : world) (i : nat) (f : slab_page_frame) (obj : Z) : outcome world :=
  let '(s, h) := w in
  match free_walk (Z.to_nat (object_count f) + 1) (words h) (object_size s) (freelist f) None obj with
  | Linked head m =>
      let f := frame_set_free f (free_object_count f + 1) head in
      let w := (slab_set_frames s (<[i := f]> (frames s)), {| words := m; pages := pages h |}) in
      if free_object_count f =? object_count f then slab_oom w else Done w
  | _ => Done w
  end.

Definition slab_free (w : world) (obj : Z) : outcome world :=
  match list_find (fun f => first_addr f <= obj < last_addr f) (frames w.1) with
  | Some (i, f) => slab_frame_object_free w i f obj
  | None => Panic
  end.

(** The frames go back to the page allocator; [first_frame] keeps pointing to
    them. *)
Definition slab_clear (w : world) : outcome world :=
  let '(s, h) := w in
  a ← foldl (fun a f => a ← a; slab_frame_free a f) (Done (pages h)) (frames s);
  Done (s, {| words := words h; pages := a |}).
End slab.

(** * Properties of the memory operations *)

Lemma rd_insert m a v b : rd (<[a := v]> m) b = if decide (a = b) then v else rd m b.
Proof. unfold rd. rewrite lookup_insert. by case_decide. Qed.

Section objects.
  (** Sizes are powers of two, as in [kmalloc_slabs]. *)
  Context (size : Z) (Hsize : exists k, 5 <= k <= 12 /\ size = 2 ^ k).

Lemma size_bounds : 32 <= size <= 4096 /\ size = 4 * (size / 4).
Proof.
  destruct Hsize as (k & Hk & ->). split.
  - pose proof (Z.pow_le_mono_r 2 5 k). pose proof (Z.pow_le_mono_r 2 k 12). lia.
  - replace k with (2 + (k - 2)) by lia. rewrite Z.pow_add_r by lia. change (2 ^ 2) with 4.
    rewrite (Z.mul_comm 4 (2 ^ (k - 2))), Z.div_mul by lia. lia.
Qed.

Definition aligned (x : Z) : Prop := x mod size = 0.

(** Different aligned addresses are at least an object apart. *)
Lemma aligned_apart x y : aligned x -> aligned y -> x < y -> x + size <= y.
Proof.
  unfold aligned. intros Hx Hy Hlt. pose proof size_bounds.
  apply Z.mod_divide in Hx as [q ->]; [|lia]. apply Z.mod_divide in Hy as [r ->]; [|lia].
  assert (q < r) by nia. nia.
Qed.

Lemma aligned_step x : aligned x -> aligned (x + size).
Proof. unfold aligned. intros Hx. pose proof size_bounds. rewrite <- (Z.mul_1_l size) at 1. by rewrite Z.mod_add by lia. Qed.

(** The word addresses of the object at [x]. *)
Definition word_of (x a : Z) : Prop := exists j, 0 <= j < size / 4 /\ a = x + 4 * j.

Lemma word_of_range x a : word_of x a -> x <= a < x + size.
Proof. intros (j & Hj & ->). pose proof size_bounds. lia. Qed.

Lemma word_of_other x y a : aligned x -> aligned y -> word_of x a -> word_of y a -> x = y.
Proof.
  intros Hx Hy Ha Hb. apply word_of_range in Ha, Hb.
  destruct (Z.lt_trichotomy x y) as [H|[H|H]]; [|done|].
  - pose proof (aligned_apart x y Hx Hy H). lia.
  - pose proof (aligned_apart y x Hy Hx H). lia.
Qed.

Lemma word_of_self x : word_of x x.
Proof. exists 0. pose proof size_bounds. lia. Qed.

Lemma poison_in m obj a : word_of obj a -> rd (poison_object m obj size) a = SLAB_POISON.
Proof.
  intros (j & Hj & ->). unfold poison_object. rewrite <- (Z2Nat.id (size / 4)) in Hj |- * by lia.
  induction (Z.to_nat (size / 4)) as [|n IH]; [lia|].
  rewrite Nat2Z.inj_succ, <- Z.add_1_r, seqZ_app, foldl_app by lia. simpl. rewrite rd_insert.
  case_decide; [done|]. apply IH. lia.
Qed.

Lemma poison_out m obj a : ~ word_of obj a -> rd (poison_object m obj size) a = rd m a.
Proof.
  intros Ha. pose proof size_bounds. unfold poison_object.
  assert (Hn : forall n, Z.of_nat n <= size / 4 ->
    rd (foldl (fun m k => <[obj + 4 * k := SLAB_POISON]> m) m (seqZ 0 (Z.of_nat n))) a = rd m a).
  { induction n as [|n IH]; intros Hn; [done|].
    rewrite Nat2Z.inj_succ, <- Z.add_1_r, seqZ_app, foldl_app by lia. simpl. rewrite rd_insert.
    rewrite decide_False; [apply IH; lia|]. intros <-. apply Ha. exists (Z.of_nat n). lia. }
  rewrite <- (Z2Nat.id (size / 4)) by lia. apply Hn. lia.
Qed.

(** A free object beyond its link. *)
Definition poisoned (m : gmap Z Z) (x : Z) : Prop := forall a, word_of x a -> a <> x -> rd m a = SLAB_POISON.

Lemma poison_ok_spec m x : poisoned m x -> poison_ok m x size = true.
Proof.
  intros H. pose proof size_bounds. unfold poison_ok. apply forallb_forall. intros k Hk.
  apply list_elem_of_In, elem_of_seqZ in Hk. apply Z.eqb_eq. apply H; [|lia].
  exists (k + 1). split; [|lia]. rewrite <- Z.add_opp_r in Hk. Z.div_mod_to_equations. lia.
Qed.

(** * The list of free objects *)

Fixpoint chain (m : gmap Z Z) (p : Z) (l : list Z) : Prop :=
  match l with
  | [] => p = 0
  | x :: l' => p = x /\ x <> 0 /\ chain m (rd m x) l'
  end.

Lemma chain_frame m m' p l : chain m p l -> (forall x, x ∈ l -> rd m' x = rd m x) -> chain m' p l.
Proof.
  revert p. induction l as [|x l IH]; intros p Hc Hm; [done|]. destruct Hc as (-> & Hx & Hc).
  split_and!; [done | done |]. rewrite Hm by set_solver. apply IH; [done|]. intros y Hy. apply Hm. set_solver.
Qed.

Lemma chain_fun m p l l' : chain m p l -> chain m p l' -> l = l'.
Proof.
  revert p l'. induction l as [|x l IH]; intros p [|y l'] H H'; simpl in *; destruct_and?; subst; auto; try done.
  f_equal. eauto.
Qed.

(** The objects from [obj] on. *)
Definition objects_from (obj : Z) (n : nat) : list Z := (fun i => obj + i * size) <$> seqZ 0 (Z.of_nat n).

Lemma objects_from_S obj n : objects_from obj (S n) = obj :: objects_from (obj + size) n.
Proof.
  unfold objects_from. rewrite Nat2Z.inj_succ, seqZ_cons by lia. rewrite fmap_cons, Z.pred_succ. f_equal; [lia|].
  rewrite <- (fmap_add_seqZ 1 0), <- list_fmap_compose. apply list_fmap_ext. intros i x _. simpl. lia.
Qed.

Lemma objects_from_elem obj n x :
  x ∈ objects_from obj n <-> exists i, 0 <= i < Z.of_nat n /\ x = obj + i * size.
Proof.
  unfold objects_from. rewrite list_elem_of_fmap. setoid_rewrite elem_of_seqZ.
  split; intros (i & H1 & H2); exists i; split; (done || lia).
Qed.

Lemma objects_from_sorted obj n : StronglySorted Z.lt (objects_from obj n).
Proof.
  pose proof size_bounds. revert obj. induction n as [|n IH]; intros obj; [constructor|].
  rewrite objects_from_S. constructor; [done|]. apply Forall_forall. intros x (i & Hi & ->)%objects_from_elem. nia.
Qed.

Lemma objects_from_word obj n x a :
  aligned obj -> x ∈ objects_from obj n -> word_of x a -> obj <= a.
Proof.
  intros Ho (i & Hi & ->)%objects_from_elem Ha%word_of_range. pose proof size_bounds. nia.
Qed.

(** Where [current] may point: nowhere or to an object in front of [obj]. *)
Definition link_before (current : option Z) (obj : Z) : Prop :=
  match current with None => True | Some o => aligned o /\ o < obj end.

Lemma link_objects_spec n : forall m head current obj head' m',
  aligned obj -> 0 < obj -> obj + Z.of_nat n * size <= 0xFFFFF000 -> link_before current obj ->
  link_objects n size m head current obj = (head', m') ->
  chain m' (load_link m' head' current) (objects_from obj n) /\
  Forall (poisoned m') (objects_from obj n) /\
  (current <> None -> head' = head) /\
  (forall a, (forall x, x ∈ objects_from obj n -> ~ word_of x a) -> current <> Some a -> rd m' a = rd m a).
Proof.
  pose proof size_bounds as [Hs _].
  induction n as [|n IH]; intros m head current obj head' m' Ha H0 Hb Hc E; cbn [link_objects] in E.
  { destruct current as [o|]; simpl in E; injection E as <- <-; split_and!; try done.
    - simpl. rewrite rd_insert. by case_decide.
    - intros a _ Hne. rewrite rd_insert, decide_False; [done | congruence]. }
  set (m1 := poison_object m obj size) in E. destruct (store_link m1 head current obj) as [h2 m2] eqn:E2.
  rewrite u32_small in E by lia.
  assert (Ea : ALIGN_2 (obj + size) size = obj + size).
  { pose proof Hsize as (k & Hk & Ek). destruct (ALIGN_2_spec (obj + size) k) as [Hm Hr]; [lia | lia |].
    rewrite <- Ek in Hm, Hr. pose proof (aligned_step _ Ha) as Hst.
    destruct (Z.le_gt_cases (ALIGN_2 (obj + size) size) (obj + size)); [lia|].
    pose proof (aligned_apart (obj + size) _ Hst Hm). lia. }
  rewrite Ea in E.
  destruct (IH m2 h2 (Some obj) (obj + size) head' m') as (H1 & H2 & H3 & H4); auto;
    [by apply aligned_step | lia | lia | split; [done | lia] |].
  rewrite objects_from_S. specialize (H3 ltac:(done)).
  assert (Hobj : forall a, word_of obj a -> a <> obj -> rd m' a = rd m2 a).
  { intros a Hw Hne. apply H4; [|congruence]. intros x Hx Hxa. apply word_of_range in Hw.
    pose proof (objects_from_word _ _ _ _ (aligned_step _ Ha) Hx Hxa). lia. }
  assert (Hlow : forall a, a < obj -> rd m' a = rd m2 a).
  { intros a Hlt. apply H4; [|intros [= ->]; lia]. intros x Hx Hxa.
    pose proof (objects_from_word _ _ _ _ (aligned_step _ Ha) Hx Hxa). lia. }
  assert (Hm2 : forall a, current <> Some a -> rd m2 a = rd m1 a).
  { intros a Hne. destruct current as [o|]; simpl in E2; injection E2 as <- <-; [|done].
    rewrite rd_insert, decide_False; [done | congruence]. }
  assert (Hcur : forall a, word_of obj a -> current <> Some a).
  { intros a Hw ->. destruct Hc as [_ Hc]. apply word_of_range in Hw. lia. }
  split_and!.
  - split_and!; [| lia | done]. destruct current as [o|]; simpl in E2 |- *; injection E2 as <- <-; [|done].
    rewrite Hlow by apply Hc. rewrite rd_insert. by rewrite decide_True.
  - constructor; [|done]. intros a Hw Hne. rewrite Hobj, Hm2 by auto. by apply poison_in.
  - intros Hne. destruct current; [|done]. simpl in E2. injection E2 as <- <-. done.
  - intros a Hw Hne. rewrite H4, Hm2; auto.
    + apply poison_out. apply Hw. set_solver.
    + intros x Hx. apply Hw. set_solver.
    + intros [= ->]. apply (Hw a); [set_solver | apply word_of_self].
Qed.

(** ** Inserting *)

(** The links that may change: of [current] and of list entries in front of
    [obj]. *)
Definition link_of (current : option Z) (l : list Z) (obj a : Z) : Prop :=
  current = Some a \/ (a ∈ l /\ a < obj).

Lemma free_walk_insert m head current obj cur :
  aligned obj -> link_before current obj -> load_link m head current = cur ->
  exists head' m',
    (let m := poison_object m obj size in
     let m := <[obj := load_link m head current]> m in
     let '(head, m) := store_link m head current obj in Linked head m) = Linked head' m' /\
    load_link m' head' current = obj /\ rd m' obj = cur /\ poisoned m' obj /\
    (current <> None -> head' = head) /\
    (forall a, ~ word_of obj a -> current <> Some a -> rd m' a = rd m a).
Proof.
  intros Ha Hc Hl. cbv zeta.
  assert (Hl' : load_link (poison_object m obj size) head current = cur).
  { rewrite <- Hl. destruct current as [o|]; [|done]. simpl. apply poison_out.
    intros Hw%word_of_range. destruct Hc. lia. }
  rewrite Hl'. set (m2 := <[obj := cur]> (poison_object m obj size)).
  assert (Hm2 : forall a, word_of obj a -> a <> obj -> rd m2 a = SLAB_POISON).
  { intros a Hw Hne. unfold m2. rewrite rd_insert, decide_False by done. by apply poison_in. }
  assert (Hout : forall a, ~ word_of obj a -> rd m2 a = rd m a).
  { intros a Hw. unfold m2. rewrite rd_insert, decide_False; [by apply poison_out|].
    intros <-. apply Hw, word_of_self. }
  assert (Hobj : rd m2 obj = cur) by (unfold m2; rewrite rd_insert; by rewrite decide_True).
  destruct current as [o|]; simpl.
  - destruct Hc as [Hao Hlt]. exists head, (<[o := obj]> m2). split_and!; auto; try done.
    + rewrite rd_insert. by rewrite decide_True.
    + rewrite rd_insert, decide_False by lia. done.
    + intros a Hw Hne. rewrite rd_insert, decide_False; [auto|]. intros <-. apply word_of_range in Hw. lia.
    + intros a Hw Hne. rewrite rd_insert, decide_False; [auto | congruence].
  - exists obj, m2. split_and!; auto; done.
Qed.

Definition obj_addr (x : Z) : Prop := aligned x /\ 0 < x /\ x + size < 2 ^ 32.

(** What the walk leaves behind. *)
Definition inserted (m m' : gmap Z Z) (head head' : Z) (current : option Z) (l : list Z) (obj : Z) : Prop :=
  exists l1 l2, l = l1 ++ l2 /\ Forall (fun x => x < obj) l1 /\ Forall (Z.lt obj) l2 /\
    chain m' (load_link m' head' current) (l1 ++ obj :: l2) /\ poisoned m' obj /\
    (current <> None -> head' = head) /\
    (forall a, ~ word_of obj a -> ~ link_of current l obj a -> rd m' a = rd m a).

Lemma free_walk_stop n m head current obj l :
  aligned obj -> 0 < obj -> link_before current obj -> chain m (load_link m head current) l ->
  Forall (Z.lt obj) l -> Forall obj_addr l ->
  (forall o, current = Some o -> Forall (Z.lt o) l) ->
  (load_link m head current <=? obj) && (obj <? u32 (load_link m head current + size)) = false ->
  (obj <=? load_link m head current) || (load_link m head current =? 0) = true ->
  exists head' m', free_walk (S n) m size head current obj = Linked head' m' /\
    inserted m m' head head' current l obj.
Proof.
  intros Ha H0 Hc Hch Hgt Hal Hcur T1 T2.
  destruct (free_walk_insert m head current obj _ Ha Hc eq_refl) as (head' & m' & E & Hl & Hr & Hp & Hh & Hout).
  exists head', m'. cbn [free_walk]. rewrite T1, T2. split; [exact E|].
  exists [], l. split_and!; [done | done | done | | done | done |].
  - split_and!; [done | lia |]. rewrite Hr. apply (chain_frame m); [done|].
    intros x Hx. rewrite Forall_forall in Hgt, Hal. specialize (Hgt _ Hx). apply Hout.
    + intros Hw. destruct (Hal _ Hx) as [Hax _].
      pose proof (word_of_other _ _ _ Ha Hax Hw (word_of_self x)). lia.
    + intros Hx'. specialize (Hcur _ Hx'). rewrite Forall_forall in Hcur. specialize (Hcur _ Hx). lia.
  - intros a Hw Hlk. apply Hout; [done|]. intros ->. apply Hlk. by left.
Qed.

Lemma free_walk_spec l : forall n m head current obj,
  aligned obj -> size <= obj -> link_before current obj ->
  chain m (load_link m head current) l -> StronglySorted Z.lt l ->
  Forall obj_addr l -> obj ∉ l ->
  (forall o, current = Some o -> Forall (Z.lt o) l) -> (length l < n)%nat ->
  exists head' m', free_walk n m size head current obj = Linked head' m' /\
    inserted m m' head head' current l obj.
Proof.
  pose proof size_bounds as [Hs _].
  induction l as [|x l IH]; intros n m head current obj Ha Hlo Hc Hch Hso Hal Hni Hcur Hn;
    (destruct n as [|n]; [simpl in Hn; lia|]).
  - apply free_walk_stop; auto; try lia; simpl in Hch; rewrite Hch; [|lia].
    rewrite u32_small by lia. lia.
  - destruct Hch as (Hx & Hx0 & Hch). apply StronglySorted_inv in Hso as [Hso Hgt].
    pose proof Hal as [(Hax & Hxp & Hxb) Hal']%Forall_cons. apply not_elem_of_cons in Hni as [Hne Hni].
    assert (T1 : (x <=? obj) && (obj <? u32 (x + size)) = false).
    { destruct (Z.lt_trichotomy x obj) as [H|[H|H]]; [| by subst |].
      - pose proof (aligned_apart _ _ Hax Ha H). rewrite u32_small by lia. lia.
      - lia. }
    destruct (Z.lt_ge_cases x obj) as [Hlt|Hge].
    + cbn [free_walk]. rewrite Hx, T1.
      destruct ((obj <=? x) || (x =? 0)) eqn:T2; [lia|].
      destruct (IH n m head (Some x) obj) as (head' & m' & E & l1 & l2 & -> & F1 & F2 & Hc' & Hp & Hh & Hout); auto.
      { by split. }
      { by intros o [= <-]. }
      { simpl in Hn. lia. }
      specialize (Hh ltac:(done)). subst head'. exists head, m'. split; [exact E|].
      exists (x :: l1), l2. split_and!; [done | by constructor | done | | done | done |].
      * cbn [app]. assert (Hld : load_link m' head current = x).
        { destruct current as [o|]; [|done]. simpl in Hx |- *. rewrite <- Hx. destruct Hc as [Hao Hoo].
          specialize (Hcur o eq_refl). apply Forall_cons in Hcur as [Hox Hol].
          apply Hout; [intros Hw%word_of_range; lia|]. intros [[= ->]|[Hin _]]; [lia|].
          rewrite Forall_forall in Hol. specialize (Hol _ Hin). lia. }
        rewrite Hld. split_and!; [done | done | exact Hc'].
      * intros a Hw Hlk. apply Hout; [done|]. intros [[= ->]|[Hin Hb]]; apply Hlk; right; split; (set_solver || done).
    + apply free_walk_stop; auto; try lia.
      * split_and!; done.
      * constructor; [lia|]. eapply Forall_impl; [exact Hgt|]. simpl. lia.
Qed.

(** A free object is found again. *)
Lemma free_walk_double l : forall n m head current obj,
  chain m (load_link m head current) l -> StronglySorted Z.lt l -> Forall obj_addr l -> obj ∈ l ->
  (length l < n)%nat -> free_walk n m size head current obj = DoubleFree.
Proof.
  pose proof size_bounds as [Hs _].
  induction l as [|x l IH]; intros n m head current obj Hch Hso Hal Hin Hn; [by apply elem_of_nil in Hin|].
  destruct n as [|n]; [simpl in Hn; lia|]. destruct Hch as (Hx & Hx0 & Hch).
  apply StronglySorted_inv in Hso as [Hso Hgt]. apply Forall_cons in Hal as [(Hax & Hxp & Hxb) Hal].
  cbn [free_walk]. rewrite Hx. apply elem_of_cons in Hin as [->|Hin].
  - rewrite u32_small by lia. destruct ((x <=? x) && (x <? x + size)) eqn:T; [done | lia].
  - rewrite Forall_forall in Hgt, Hal. pose proof (Hgt _ Hin) as Hlt. destruct (Hal _ Hin) as (Hao & _ & _).
    pose proof (aligned_apart _ _ Hax Hao Hlt). rewrite u32_small by lia.
    destruct ((x <=? obj) && (obj <? x + size)) eqn:T1; [lia|].
    destruct ((obj <=? x) || (x =? 0)) eqn:T2; [lia|].
    apply IH; auto; [by apply Forall_forall | simpl in Hn; lia].
Qed.

(** * Frames *)

Definition FRAME_BYTES : Z := 131072.

Definition is_object (f : slab_page_frame) (x : Z) : Prop := aligned x /\ first_addr f <= x < last_addr f.

(** The frame [f], whose free objects are [fl]. *)
Record frame_ok (m : gmap Z Z) (f : slab_page_frame) (fl : list Z) : Prop := {
  fk_order : page_index_size f = KERNEL_SLAB_ORDER;
  fk_range : KMEM_KBASE <= frame f /\ frame f + FRAME_BYTES <= 0xFFFFF000;
  fk_low : frame f + FRAME_HEADER <= first_addr f;
  fk_align : aligned (first_addr f);
  fk_count : 0 < object_count f;
  fk_last : last_addr f = first_addr f + object_count f * size;
  fk_high : last_addr f <= frame f + FRAME_BYTES;
  fk_chain : chain m (freelist f) fl;
  fk_sorted : StronglySorted Z.lt fl;
  fk_objs : Forall (is_object f) fl;
  fk_free : free_object_count f = Z.of_nat (length fl);
  fk_poison : Forall (poisoned m) fl;
}.

Lemma frame_ok_mem m m' f fl :
  frame_ok m f fl -> (forall x a, x ∈ fl -> word_of x a -> rd m' a = rd m a) -> frame_ok m' f fl.
Proof.
  intros [] Hm. split; auto.
  - apply (chain_frame m); [done|]. intros x Hx. apply (Hm x); [done | apply word_of_self].
  - rewrite Forall_forall in *. intros x Hx a Hw Hne. rewrite (Hm x); auto. by apply (fk_poison0 x).
Qed.

Lemma object_range f x m fl : frame_ok m f fl -> is_object f x -> x + size <= last_addr f.
Proof.
  intros F [Ha Hx]. apply aligned_apart; [done | | lia]. rewrite (fk_last _ _ _ F).
  unfold aligned. pose proof size_bounds. rewrite Z.mod_add by lia. apply F.
Qed.

Lemma object_addr f x m fl : frame_ok m f fl -> is_object f x -> obj_addr x.
Proof.
  intros F Hx. pose proof (object_range _ _ _ _ F Hx). destruct F, Hx as [Ha Hx].
  unfold KMEM_KBASE, FRAME_HEADER, FRAME_BYTES in *. split_and!; [done | lia | lia].
Qed.

Lemma object_listed m f fl x :
  frame_ok m f fl -> is_object f x <-> x ∈ objects_from (first_addr f) (Z.to_nat (object_count f)).
Proof.
  intros F. pose proof size_bounds. rewrite objects_from_elem, Z2Nat.id by (pose proof (fk_count _ _ _ F); lia).
  pose proof (fk_align _ _ _ F) as Ha. unfold is_object. rewrite (fk_last _ _ _ F).
  unfold aligned in *. split.
  - intros [Hx Hr]. apply Z.mod_divide in Hx as [q ->]; [|lia]. apply Z.mod_divide in Ha as [r Hr0]; [|lia].
    rewrite Hr0 in *. exists (q - r). split; [nia | lia].
  - intros (i & Hi & ->). rewrite Z.mod_add by lia. split; [done | nia].
Qed.

Lemma free_submseteq m f fl :
  frame_ok m f fl -> fl ⊆+ objects_from (first_addr f) (Z.to_nat (object_count f)).
Proof.
  intros F. apply NoDup_submseteq.
  - pose proof (fk_sorted _ _ _ F) as Hs. clear F.
    induction Hs as [|x l Hs IH Hx]; [constructor|]. constructor; [|done].
    rewrite Forall_forall in Hx. intros Hin. specialize (Hx _ Hin). lia.
  - intros x Hx. apply (object_listed m f fl); [done|].
    pose proof (fk_objs _ _ _ F) as Ho. rewrite Forall_forall in Ho. auto.
Qed.

Lemma free_length m f fl : frame_ok m f fl -> Z.of_nat (length fl) <= object_count f.
Proof.
  intros F. pose proof (fk_count _ _ _ F). pose proof (submseteq_length _ _ (free_submseteq _ _ _ F)) as Hl.
  unfold objects_from in Hl. rewrite length_fmap, length_seqZ in Hl. lia.
Qed.

Lemma frame_object_alloc_spec m f x fl n :
  frame_ok m f (x :: fl) ->
  exists f', frame_object_alloc (S n) m size f = (x, f') /\ f' = frame_set_free f (Z.of_nat (length fl)) (rd m x) /\
    frame_ok m f' fl.
Proof.
  intros F. pose proof (fk_chain _ _ _ F) as (Hx & Hx0 & Hc). pose proof (fk_poison _ _ _ F) as [Hp Hps]%Forall_cons.
  pose proof (fk_free _ _ _ F) as Hf. simpl in Hf. cbn [frame_object_alloc]. rewrite Hx.
  destruct (Z.eqb_spec x 0); [done|]. rewrite poison_ok_spec by done.
  replace (free_object_count f - 1) with (Z.of_nat (length fl)) by lia. eexists. split_and!; [done | done |].
  destruct F. apply StronglySorted_inv in fk_sorted0 as [? ?]. apply Forall_cons in fk_objs0 as [? ?]. by split.
Qed.

Lemma new_frame_spec m va f m' :
  KMEM_KBASE <= va -> va mod PG_SIZE = 0 -> va + FRAME_BYTES < 2 ^ 32 ->
  new_frame m va size = (f, m') ->
  frame f = va /\ frame_ok m' f (objects_from (first_addr f) (Z.to_nat (object_count f))) /\
  (forall a, ~ (va <= a < va + FRAME_BYTES) -> rd m' a = rd m a).
Proof.
  intros Hlo Hal Hhi E. pose proof size_bounds as [Hs _]. pose proof Hsize as (k & Hk & Ek).
  unfold KMEM_KBASE, PG_SIZE, FRAME_BYTES in *.
  assert (Hhi' : va + 131072 <= 0xFFFFF000) by (Z.div_mod_to_equations; lia).
  unfold new_frame, FRAME_HEADER, PG_SIZE in E. change (4096 * Z.shiftl 1 KERNEL_SLAB_ORDER) with 131072 in E.
  rewrite !(u32_small (va + _)) in E by lia.
  destruct (ALIGN_2_spec (va + 28) k) as [Hm Hr]; [lia | lia |]. rewrite <- Ek in Hm, Hr.
  set (first := ALIGN_2 (va + 28) size) in *. rewrite u32_small in E by lia.
  set (count := (va + 131072 - first) / size) in *.
  assert (Hc : 0 < count /\ count * size <= va + 131072 - first).
  { unfold count. pose proof (Z.div_mod (va + 131072 - first) size ltac:(lia)).
    pose proof (Z.mod_pos_bound (va + 131072 - first) size ltac:(lia)). split; nia. }
  destruct (link_objects (Z.to_nat count) size m 0 None first) as [head m1] eqn:El.
  rewrite u32_small in E by lia. injection E as <- <-. simpl.
  destruct (link_objects_spec (Z.to_nat count) m 0 None first head m1) as (H1 & H2 & _ & H4);
    [done | lia | lia | done | done |].
  assert (Hin : forall x, x ∈ objects_from first (Z.to_nat count) -> aligned x /\ first <= x /\ x + size <= first + count * size).
  { intros x (i & Hi & ->)%objects_from_elem. unfold aligned. rewrite Z.mod_add by lia. split; [done | nia]. }
  split_and!; [done | |].
  - split; simpl; unfold KMEM_KBASE, FRAME_BYTES, FRAME_HEADER; try done; try lia.
    + apply objects_from_sorted.
    + apply Forall_forall. intros x Hx. destruct (Hin x Hx) as (? & ? & ?). split; simpl; [done | lia].
    + unfold objects_from. rewrite length_fmap, length_seqZ. lia.
  - intros a Ha. apply H4; [|done]. intros x Hx Hw%word_of_range. destruct (Hin x Hx) as (_ & ? & ?). lia.
Qed.

(** Freeing an object of the frame. *)
Lemma frame_free_spec m f fl obj :
  frame_ok m f fl -> is_object f obj -> obj ∉ fl ->
  exists head m' fl', free_walk (Z.to_nat (object_count f) + 1) m size (freelist f) None obj = Linked head m' /\
    frame_ok m' (frame_set_free f (free_object_count f + 1) head) fl' /\
    (forall x, x ∈ fl' <-> x = obj \/ x ∈ fl) /\
    (forall a, ~ word_of obj a -> a ∉ fl -> rd m' a = rd m a).
Proof.
  intros F Ho Hni. pose proof size_bounds as [Hs _]. pose proof (free_length _ _ _ F) as Hlen.
  pose proof (fk_objs _ _ _ F) as Hobjs. rewrite Forall_forall in Hobjs.
  assert (Hal : Forall obj_addr fl) by (apply Forall_forall; intros x Hx; by apply (object_addr f x m fl), Hobjs).
  destruct (object_addr _ _ _ _ F Ho) as (Ha & Hp & Hb).
  destruct (free_walk_spec fl (Z.to_nat (object_count f) + 1) m (freelist f) None obj)
    as (head & m' & E & l1 & l2 & El & F1 & F2 & Hc & Hpo & _ & Hout); auto; try lia.
  { destruct F, Ho. unfold KMEM_KBASE, FRAME_HEADER, FRAME_BYTES in *. lia. }
  { done. }
  { apply (fk_chain _ _ _ F). }
  { apply (fk_sorted _ _ _ F). }
  { done. }
  assert (Hmem : forall x, x ∈ l1 ++ obj :: l2 <-> x = obj \/ x ∈ fl).
  { intros x. rewrite El, !elem_of_app, elem_of_cons. tauto. }
  assert (Hkeep : forall a, ~ word_of obj a -> a ∉ fl -> rd m' a = rd m a).
  { intros a Hw Hn. apply Hout; [done|]. intros [?|[? _]]; done. }
  exists head, m', (l1 ++ obj :: l2). split_and!; [done | | done | done].
  rewrite El in *. destruct F. apply StronglySorted_app in fk_sorted0 as (S1 & S2 & S3).
  split; simpl; auto.
  - apply StronglySorted_app. rewrite Forall_forall in F1. split_and!; auto.
    + intros x y Hx [->|Hy]%elem_of_cons; [by apply F1 | by apply S1].
    + by constructor.
  - apply Forall_forall. intros x [->|Hx]%Hmem; [done | by apply Hobjs].
  - rewrite fk_free0, !length_app. simpl. lia.
  - apply Forall_forall. intros x [->|Hx]%Hmem a Hw Hne; [by apply Hpo|].
    rewrite Forall_forall in fk_poison0. rewrite Hkeep; [by apply (fk_poison0 x)| |].
    + intros Hw'. destruct (Hobjs _ Hx) as [Hax _]. pose proof (word_of_other _ _ _ Hax Ha Hw Hw'). subst. done.
    + intros Hin. destruct (Hobjs _ Hin) as [Haa _]. destruct (Hobjs _ Hx) as [Hax _].
      apply Hne. by apply (word_of_other a x a Haa Hax (word_of_self a)).
Qed.

(** When the counts agree every object is free. *)
Lemma all_free_listed m f fl x :
  frame_ok m f fl -> free_object_count f = object_count f -> is_object f x -> x ∈ fl.
Proof.
  intros F E Hx. pose proof (fk_count _ _ _ F). rewrite (fk_free _ _ _ F) in E.
  assert (Hp : fl ≡ₚ objects_from (first_addr f) (Z.to_nat (object_count f))).
  { apply submseteq_length_Permutation; [by apply (free_submseteq m)|].
    unfold objects_from. rewrite length_fmap, length_seqZ. lia. }
  rewrite Hp. by apply (object_listed m f fl).
Qed.
End objects.
