(* ===== verification/SlabProps.v ===== *)
(** Correctness of the slab allocator of [Slab], proved against the interface of
    the page allocator: every operation keeps the frames well formed, an object
    handed out is aligned, inside pages of the slab and disjoint from every
    object in use, and neither allocating nor freeing writes to an object in
    use. *)
From stdpp Require Import base numbers list gmap sorting.
From Stdlib Require Import ZArith ZifyBool Lia.
From S2P Require Import Prelude UserMem Palloc Bootmem PageAlloc Slab.
Open Scope Z_scope.

(** * Blocks of pages *)

Definition disj (b b' : Z * Z) : Prop := forall x, in_block b.1 b.2 x -> ~ in_block b'.1 b'.2 x.

Lemma disj_sym b b' : disj b b' -> disj b' b.
Proof. intros H x Hx Hx'. by apply (H x). Qed.

(** Pairwise disjoint, in whatever order they are listed. *)
Definition separate (l : list (Z * Z)) : Prop := StronglySorted disj l.

#[global] Instance separate_perm : Proper ((≡ₚ) ==> iff) separate.
Proof.
  assert (H : forall l l', l ≡ₚ l' -> separate l -> separate l').
  { unfold separate. induction 1 as [|b l l' Hp IH|b b' l|l1 l2 l3 _ IH1 _ IH2]; intros Hs; auto.
    - apply StronglySorted_inv in Hs as [Hs Hb]. constructor; [auto|]. by rewrite <- Hp.
    - apply StronglySorted_inv in Hs as [[Hs Hb']%StronglySorted_inv [Hbb Hb]%Forall_cons].
      constructor; [by constructor|]. constructor; [by apply disj_sym | done]. }
  intros l l' Hp. split; apply H; [done | by symmetry].
Qed.

Definition block_of (f : slab_page_frame) : Z * Z := (frame f, page_index_size f).

Section slab_props.
  Context {A : Type} `{PA : PageAllocator A}.
  Context (size : Z) (Hsize : exists k, 5 <= k <= 12 /\ size = 2 ^ k).
  Abbreviation frame_ok := (frame_ok size).
  Abbreviation is_object := (is_object size).

(** A block that is not free. *)
Definition usable (a : A) (b : Z * Z) : Prop :=
  block_valid a b.1 b.2 /\ forall x, in_block b.1 b.2 x -> ~ page_free a x.

(** The slab is well formed, and its pages are disjoint from the blocks [extra]
    that others hold. *)
Record slab_ok (extra : list (Z * Z)) (w : @world A) : Prop := {
  so_size : object_size w.1 = size;
  so_pages : pages_ok (pages w.2);
  so_frames : exists fls, Forall2 (frame_ok (words w.2)) (frames w.1) fls;
  so_usable : Forall (usable (pages w.2)) ((block_of <$> frames w.1) ++ extra);
  so_separate : separate ((block_of <$> frames w.1) ++ extra);
}.

(** The objects in use. *)
Definition used_in (m : gmap Z Z) (fs : list slab_page_frame) (x : Z) : Prop :=
  exists f, f ∈ fs /\ is_object f x /\ forall fl, chain m (freelist f) fl -> x ∉ fl.

Definition in_use (w : @world A) (x : Z) : Prop := used_in (words w.2) (frames w.1) x.

Lemma in_use_frame m f fl x :
  frame_ok m f fl -> (forall fl', chain m (freelist f) fl' -> x ∉ fl') <-> x ∉ fl.
Proof.
  intros F. split; [intros H; apply H, F|]. intros H fl' Hc.
  by rewrite (chain_fun _ _ _ _ Hc (fk_chain _ _ _ _ F)).
Qed.

Lemma frame_bytes_block m f fl a :
  frame_ok m f fl -> frame f mod PG_SIZE = 0 ->
  frame f <= a < frame f + FRAME_BYTES -> in_block (frame f) (page_index_size f) (a / PG_SIZE).
Proof.
  intros F Hm Ha. rewrite (fk_order _ _ _ _ F). unfold in_block, PG_SIZE, FRAME_BYTES, KERNEL_SLAB_ORDER in *.
  change (2 ^ 5) with 32. Z.div_mod_to_equations. lia.
Qed.

Lemma word_in_frame m f fl x a :
  frame_ok m f fl -> is_object f x -> word_of size x a -> frame f <= a < frame f + FRAME_BYTES.
Proof.
  intros F Hx Hw. pose proof (word_of_range size Hsize _ _ Hw). pose proof (object_range size Hsize _ _ _ _ F Hx).
  destruct F, Hx. unfold FRAME_HEADER in *. lia.
Qed.

(** A change of memory inside one frame does not concern another. *)
Lemma frame_ok_elsewhere m m' f fl g gl va :
  frame_ok m g gl -> frame g mod PG_SIZE = 0 -> va mod PG_SIZE = 0 -> disj (va, KERNEL_SLAB_ORDER) (block_of g) ->
  (forall a, ~ (va <= a < va + FRAME_BYTES) -> rd m' a = rd m a) ->
  f = g -> fl = gl -> frame_ok m' f fl.
Proof.
  intros G Hg Hva Hd Hm -> ->. apply (frame_ok_mem size Hsize m); [done|].
  intros x a Hx Hw. apply Hm. intros Ha.
  pose proof (fk_objs _ _ _ _ G) as Ho. rewrite Forall_forall in Ho.
  pose proof (word_in_frame _ _ _ _ _ G (Ho _ Hx) Hw) as Hin.
  apply (Hd (a / PG_SIZE)); [|by apply (frame_bytes_block m g gl)].
  unfold in_block, PG_SIZE, FRAME_BYTES, KERNEL_SLAB_ORDER in *. simpl. change (2 ^ 5) with 32.
  Z.div_mod_to_equations. lia.
Qed.

(** * The scan for a free object *)

Lemma malloc_scan_spec m fs fls :
  Forall2 (frame_ok m) fs fls ->
  match malloc_scan m size fs with
  | Some (obj, fs') => exists fs1 f fl fs2 f', fs = fs1 ++ f :: fs2 /\ fs' = fs1 ++ f' :: fs2 /\
      frame_ok m f (obj :: fl) /\ f' = frame_set_free f (Z.of_nat (length fl)) (rd m obj) /\ frame_ok m f' fl
  | None => Forall (fun f => free_object_count f = 0) fs
  end.
Proof.
  induction 1 as [|f fl fs fls F Hs IH]; cbn [malloc_scan]; [constructor|].
  pose proof (fk_chain _ _ _ _ F) as Hc. pose proof (fk_free _ _ _ _ F) as Hf. destruct fl as [|x fl].
  - simpl in Hf. rewrite Hf. cbn [Z.eqb negb andb]. destruct (malloc_scan m size fs) as [[obj r]|]; cbn [mbind option_bind].
    + destruct IH as (fs1 & g & gl & fs2 & g' & -> & -> & G & Eg & G'). by exists (f :: fs1), g, gl, fs2, g'.
    + by constructor.
  - destruct Hc as (Hx & Hx0 & _). simpl in Hf. rewrite Hx.
    destruct (Z.eqb_spec (free_object_count f) 0); [lia|]. destruct (Z.eqb_spec x 0); [done|]. cbn [negb andb].
    destruct (frame_object_alloc_spec size Hsize m f x fl (Z.to_nat (object_count f)) F) as (f' & E & Ef & F').
    rewrite Nat.add_1_r, E. by exists [], f, fl, fs, f'.
Qed.

(** * Changing one frame *)

Lemma used_in_split m fs1 f fs2 fl x :
  frame_ok m f fl ->
  used_in m (fs1 ++ f :: fs2) x <-> (is_object f x /\ x ∉ fl) \/ used_in m (fs1 ++ fs2) x.
Proof.
  intros F. unfold used_in. split.
  - intros (g & Hg & Ho & Hc). apply elem_of_app in Hg as [Hg|[->|Hg]%elem_of_cons].
    + right. exists g. split_and!; auto. apply elem_of_app. auto.
    + left. split; [done|]. exact (proj1 (in_use_frame m f fl x F) Hc).
    + right. exists g. split_and!; auto. apply elem_of_app. auto.
  - intros [[Ho Hn]|(g & Hg & Ho & Hc)].
    + exists f. split_and!; [set_solver | done | exact (proj2 (in_use_frame m f fl x F) Hn)].
    + exists g. split_and!; auto. set_solver.
Qed.

Lemma used_in_mem m m' fs fls x :
  Forall2 (frame_ok m) fs fls -> Forall2 (frame_ok m') fs fls -> used_in m' fs x <-> used_in m fs x.
Proof.
  intros H H'. unfold used_in. split; intros (f & Hf & Ho & Hc); exists f; split_and!; auto;
    apply list_elem_of_lookup in Hf as [i Hi];
    destruct (Forall2_lookup_l _ _ _ _ _ H Hi) as (fl & Hfl & F);
    destruct (Forall2_lookup_l _ _ _ _ _ H' Hi) as (fl' & Hfl' & F'); rewrite Hfl in Hfl'; simplify_eq.
  - exact (proj2 (in_use_frame m f fl' x F) (proj1 (in_use_frame m' f fl' x F') Hc)).
  - exact (proj2 (in_use_frame m' f fl' x F') (proj1 (in_use_frame m f fl' x F) Hc)).
Qed.

Lemma ok_split extra w fs1 f fs2 :
  slab_ok extra w -> frames w.1 = fs1 ++ f :: fs2 ->
  frame f mod PG_SIZE = 0 /\
  exists fls1 fl fls2, Forall2 (frame_ok (words w.2)) fs1 fls1 /\ frame_ok (words w.2) f fl /\
    Forall2 (frame_ok (words w.2)) fs2 fls2 /\
    forall g, g ∈ fs1 ++ fs2 -> frame g mod PG_SIZE = 0 /\ disj (block_of f) (block_of g).
Proof.
  intros [Hsz Hp [fls Hf] Hu Hs] E. rewrite E in *.
  apply Forall2_app_inv_l in Hf as (fls1 & fls' & H1 & H2 & ->). inversion H2 as [|? fl ? fls2 F H3]; subst.
  assert (Hmod : forall g, g ∈ fs1 ++ f :: fs2 -> frame g mod PG_SIZE = 0).
  { intros g Hg. rewrite Forall_app in Hu. destruct Hu as [Hu _]. rewrite Forall_forall in Hu.
    destruct (Hu (block_of g)) as [Hv _]; [by apply list_elem_of_fmap_2|].
    by destruct (block_valid_range _ _ _ Hv) as (_ & ? & _). }
  split; [apply Hmod; set_solver|]. exists fls1, fl, fls2. split_and!; auto.
  intros g Hg. split; [apply Hmod; set_solver|].
  rewrite fmap_app, fmap_cons, <- Permutation_middle in Hs. simpl in Hs.
  apply StronglySorted_inv in Hs as [_ Hd]. rewrite Forall_forall in Hd. apply Hd.
  rewrite <- fmap_app. apply elem_of_app. left. by apply list_elem_of_fmap_2.
Qed.

(** Replacing a frame by one that occupies the same block, with all memory
    changes inside of it. *)
Lemma ok_replace extra w fs1 f fs2 f' fl' m' :
  slab_ok extra w -> frames w.1 = fs1 ++ f :: fs2 ->
  block_of f' = block_of f -> frame_ok m' f' fl' ->
  (forall a, ~ (frame f <= a < frame f + FRAME_BYTES) -> rd m' a = rd (words w.2) a) ->
  slab_ok extra (slab_set_frames w.1 (fs1 ++ f' :: fs2), {| words := m'; pages := pages w.2 |}) /\
  (forall x, used_in m' (fs1 ++ fs2) x <-> used_in (words w.2) (fs1 ++ fs2) x).
Proof.
  intros Hok E Hb F' Hm. destruct (ok_split _ _ _ _ _ Hok E) as (Hmod & fls1 & fl & fls2 & H1 & F & H2 & Hd).
  assert (Helse : forall gs gls, Forall2 (frame_ok (words w.2)) gs gls -> (forall g, g ∈ gs -> g ∈ fs1 ++ fs2) ->
    Forall2 (frame_ok m') gs gls).
  { induction 1 as [|g gl gs gls G Hgs IH]; intros Hin; [constructor|]. constructor; [|apply IH; set_solver].
    destruct (Hd g) as [Hg Hdg]; [apply Hin; set_solver|].
    eapply (frame_ok_elsewhere (words w.2) m' g gl g gl (frame f)); auto.
    unfold block_of in Hdg at 1. by rewrite (fk_order _ _ _ _ F) in Hdg. }
  split.
  - destruct Hok as [Hsz Hp _ Hu Hs]. rewrite E in Hu, Hs.
    assert (Eb : block_of <$> (fs1 ++ f' :: fs2) = block_of <$> (fs1 ++ f :: fs2)).
    { by rewrite !fmap_app, !fmap_cons, Hb. }
    split; simpl; rewrite ?Eb; auto. exists (fls1 ++ fl' :: fls2).
    apply Forall2_app; [apply Helse; set_solver|]. constructor; [done|]. apply Helse; set_solver.
  - intros x. apply (used_in_mem _ _ _ (fls1 ++ fls2)); apply Forall2_app; auto; apply Helse; auto; set_solver.
Qed.

(** * Allocating with the lock held *)

Lemma malloc_scan_ok extra w obj fs' :
  slab_ok extra w -> malloc_scan (words w.2) size (frames w.1) = Some (obj, fs') ->
  let u := (slab_set_frames w.1 fs', w.2) in
  slab_ok extra u /\ ~ in_use w obj /\ (forall x, in_use u x <-> x = obj \/ in_use w x) /\
  obj mod size = 0 /\ obj <> 0.
Proof.
  intros Hok E. destruct (so_frames _ _ Hok) as [fls Hf].
  pose proof (malloc_scan_spec _ _ _ Hf) as H. rewrite E in H.
  destruct H as (fs1 & f & fl & fs2 & f' & Efs & -> & F & Ef & F').
  assert (Hb : block_of f' = block_of f) by (by rewrite Ef).
  destruct (ok_replace extra w fs1 f fs2 f' fl (words w.2) Hok Efs Hb F' ltac:(done)) as [Hok' _].
  assert (Hobj : is_object f obj) by (pose proof (fk_objs _ _ _ _ F) as Ho; by apply Forall_cons in Ho as [? _]).
  assert (Hni : obj ∉ fl).
  { pose proof (fk_sorted _ _ _ _ F) as [_ Hs]%StronglySorted_inv. rewrite Forall_forall in Hs.
    intros Hin. specialize (Hs _ Hin). lia. }
  assert (Hisf : forall x, is_object f' x <-> is_object f x) by (intros x; by rewrite Ef).
  destruct w as [s [m a]]. cbn [fst snd words pages] in *.
  split_and!; [exact Hok' | | | apply Hobj | pose proof (fk_chain _ _ _ _ F); naive_solver].
  - unfold in_use. cbn [fst snd words]. rewrite Efs, used_in_split by exact F.
    intros [[_ Hn]|(g & Hg & Ho & _)]; [set_solver|].
    destruct (ok_split _ _ _ _ _ Hok Efs) as (Hmod & fls1 & gl0 & fls2 & G1 & _ & G2 & Hd).
    destruct (Hd g Hg) as [Hgm Hdg].
    assert (exists gl, frame_ok m g gl) as [gl G].
    { cbn [fst snd words] in *. apply list_elem_of_lookup in Hg as [i Hi].
      destruct (Forall2_lookup_l _ _ _ _ _ (Forall2_app G1 G2) Hi) as (gl & _ & G). by exists gl. }
    apply (Hdg (obj / PG_SIZE)).
    + apply (frame_bytes_block m f (obj :: fl)); auto. eapply (word_in_frame m f); eauto using word_of_self.
    + apply (frame_bytes_block m g gl); auto. eapply (word_in_frame m g); eauto using word_of_self.
  - intros x. unfold in_use. cbn [fst snd words slab_set_frames frames].
    rewrite Efs, (used_in_split m fs1 f' fs2 fl), (used_in_split m fs1 f fs2 (obj :: fl)) by done.
    rewrite Hisf, not_elem_of_cons. destruct (decide (x = obj)) as [->|]; tauto.
Qed.

(** * Adding a frame *)

(** The object at [x] is in use before and after, with the same contents. *)
Definition kept (w u : @world A) (x : Z) : Prop :=
  in_use u x /\ forall a, word_of size x a -> rd (words u.2) a = rd (words w.2) a.

(** What the rest of the system may do to the slab while its lock is free: it
    keeps it well formed, and the objects [mine] as they are. *)
Definition env_ok (mine : list Z) (f : @world A -> @world A) : Prop :=
  forall extra w, slab_ok extra w -> (forall x, x ∈ mine -> in_use w x) ->
    slab_ok extra (f w) /\ forall x, x ∈ mine -> kept w (f w) x.

Lemma usable_mono a a' b :
  (forall v o, block_valid a' v o <-> block_valid a v o) -> (forall x, in_block b.1 b.2 x -> page_free a' x -> page_free a x) ->
  usable a b -> usable a' b.
Proof. intros Hv Hf [H1 H2]. split; [by apply Hv|]. intros x Hx Hx'. apply (H2 x); auto. Qed.

(** The page allocator's new block joins those held by others. *)
Lemma palloc_ok extra s h flgs va a :
  slab_ok extra (s, h) -> palloc_va (pages h) KERNEL_SLAB_ORDER flgs = Done (va, a) ->
  slab_ok (if va =? 0 then extra else (va, KERNEL_SLAB_ORDER) :: extra) (s, {| words := words h; pages := a |}).
Proof.
  intros [Hsz Hp Hf Hu Hs] E. cbn [fst snd words pages] in *.
  assert (Ho : 0 <= KERNEL_SLAB_ORDER <= 5) by (unfold KERNEL_SLAB_ORDER; lia).
  destruct (palloc_va_spec _ _ _ _ _ Hp Ho E) as (Hp' & Hv & H0 & H1).
  destruct (Z.eqb_spec va 0) as [Ez|Ez].
  - split; cbn [fst snd words pages]; auto. eapply Forall_impl; [exact Hu|]. intros b. apply usable_mono; auto.
    intros x _. apply H0, Ez.
  - destruct (H1 Ez) as (Hva & Hfr & Hnf).
    split; cbn [fst snd words pages]; auto; rewrite <- Permutation_middle.
    + constructor; [split; [by apply Hv | exact Hnf]|]. eapply Forall_impl; [exact Hu|]. intros b.
      apply usable_mono; auto. intros x _ Hx. apply Hfr. by left.
    + constructor; [done|]. eapply Forall_impl; [exact Hu|]. intros b [_ Hb] x Hx Hx'.
      apply (Hb x Hx'). apply Hfr. by right.
Qed.

Lemma add_frame_ok extra w va f m :
  slab_ok ((va, KERNEL_SLAB_ORDER) :: extra) w -> new_frame (words w.2) va size = (f, m) ->
  let u := (slab_set_frames w.1 (frames w.1 ++ [f]), {| words := m; pages := pages w.2 |}) in
  slab_ok extra u /\ (forall x, in_use w x -> kept w u x) /\ 0 < free_object_count f.
Proof.
  intros [Hsz Hp [fls Hf] Hu Hs] E. destruct w as [s h]. cbn [fst snd] in *.
  pose proof Hu as [Huf [[Hva Hvf] Hux]%Forall_cons]%Forall_app.
  destruct (block_valid_range _ _ _ Hva) as (Hlo & Hmod & _ & Hhi). cbn [fst snd] in *.
  change (2 ^ KERNEL_SLAB_ORDER * PG_SIZE) with FRAME_BYTES in Hhi.
  destruct (new_frame_spec size Hsize _ _ _ _ Hlo Hmod Hhi E) as (Efr & F & Hm).
  assert (Hold : forall g gl, g ∈ frames s -> frame_ok (words h) g gl ->
    frame_ok m g gl /\ disj (va, KERNEL_SLAB_ORDER) (block_of g) /\ frame g mod PG_SIZE = 0).
  { intros g gl Hg G. rewrite <- Permutation_middle in Hs.
    apply StronglySorted_inv in Hs as [_ Hd]. rewrite Forall_forall in Hd, Huf.
    assert (Hdg : disj (va, KERNEL_SLAB_ORDER) (block_of g)).
    { apply Hd. apply elem_of_app. left. by apply list_elem_of_fmap_2. }
    destruct (Huf (block_of g)) as [Hvg _]; [by apply list_elem_of_fmap_2|].
    destruct (block_valid_range _ _ _ Hvg) as (_ & Hgm & _).
    split; [|done]. eapply (frame_ok_elsewhere (words h) m g gl g gl va); auto. }
  assert (Hf' : Forall2 (frame_ok m) (frames s) fls).
  { apply Forall2_same_length_lookup_2; [by eapply Forall2_length|]. intros i g gl Hi Hj.
    apply (Hold g gl); [by eapply list_elem_of_lookup_2|]. by eapply Forall2_lookup_lr. }
  assert (Hb : block_of f = (va, KERNEL_SLAB_ORDER)).
  { unfold block_of. by rewrite Efr, (fk_order _ _ _ _ F). }
  split_and!.
  - split; cbn [fst snd words pages frames slab_set_frames object_size]; auto.
    + eexists. apply Forall2_app; [exact Hf' | constructor; [exact F | constructor]].
    + rewrite fmap_app, <- app_assoc. cbn [fmap list_fmap app]. by rewrite Hb.
    + rewrite fmap_app, <- app_assoc. cbn [fmap list_fmap app]. by rewrite Hb.
  - intros x Hx. split.
    + unfold in_use in *. cbn [fst snd words frames slab_set_frames] in *.
      apply (used_in_mem _ _ _ _ _ Hf Hf') in Hx. destruct Hx as (g & Hg & Ho & Hc). exists g. split_and!; auto. set_solver.
    + intros a Hw. apply Hm. destruct Hx as (g & Hg & Ho & _). cbn [fst snd] in Hg.
      apply list_elem_of_lookup in Hg as [i Hi]. destruct (Forall2_lookup_l _ _ _ _ _ Hf Hi) as (gl & Hgl & G).
      destruct (Hold g gl (list_elem_of_lookup_2 _ _ _ Hi) G) as (_ & Hd & Hgm).
      pose proof (word_in_frame _ _ _ _ _ G Ho Hw) as Hin. intros Ha. apply (Hd (a / PG_SIZE)).
      * unfold in_block, PG_SIZE, FRAME_BYTES, KERNEL_SLAB_ORDER in *. simpl. change (2 ^ 5) with 32.
        Z.div_mod_to_equations. lia.
      * by apply (frame_bytes_block (words h) g gl).
  - rewrite (fk_free _ _ _ _ F). pose proof (fk_count _ _ _ _ F). unfold objects_from.
    rewrite length_fmap, length_seqZ. lia.
Qed.

Lemma kept_trans w u v x : kept w u x -> kept u v x -> kept w v x.
Proof. intros [_ H1] [H2 H3]. split; [done|]. intros a Ha. by rewrite H3, H1. Qed.

(** What a successful allocation gives. *)
Definition malloc_post (extra : list (Z * Z)) (mine : list Z) (w : @world A) (obj : Z) (u : @world A) : Prop :=
  slab_ok extra u /\ obj mod size = 0 /\ in_use u obj /\ (obj ∉ mine) /\ (forall x, x ∈ mine -> kept w u x).

Lemma malloc_found extra mine w u obj fs :
  slab_ok extra u -> (forall x, x ∈ mine -> kept w u x) ->
  malloc_scan (words u.2) size (frames u.1) = Some (obj, fs) ->
  obj <> 0 /\ malloc_post extra mine w obj (slab_set_frames u.1 fs, u.2).
Proof.
  intros Hok Hm E. destruct (malloc_scan_ok _ _ _ _ Hok E) as (Hok' & Hfresh & Hiff & Hal & H0).
  split; [done|]. split_and!; [done | done | apply Hiff; by left | |].
  - intros Hin. destruct (Hm _ Hin). done.
  - intros x Hx. destruct (Hm x Hx) as [Hu Hc]. split; [apply Hiff; by right | done].
Qed.

Lemma slab_malloc_spec extra mine before after flgs w :
  slab_ok extra w -> (forall x, x ∈ mine -> in_use w x) -> env_ok mine before -> env_ok mine after ->
  match slab_malloc 1 before after flgs w with
  | Done (obj, u) =>
      if obj =? 0 then slab_ok extra u /\ forall x, x ∈ mine -> kept w u x else malloc_post extra mine w obj u
  | _ => exists a, pages_ok a /\ forall r, palloc_va a KERNEL_SLAB_ORDER flgs <> Done r
  end.
Proof.
  intros Hok Hmine Hb Ha. cbn [slab_malloc]. destruct w as [s h].
  assert (Hself : forall x, x ∈ mine -> kept (s, h) (s, h) x) by (intros x Hx; split; auto).
  pose proof (so_size _ _ Hok) as Hsz. cbn [fst] in Hsz. rewrite Hsz.
  destruct (malloc_scan (words h) size (frames s)) as [[obj fs]|] eqn:E.
  { destruct (malloc_found extra mine (s, h) (s, h) obj fs Hok Hself E) as [H0 Hp].
    by destruct (Z.eqb_spec obj 0). }
  unfold slab_frame_add_new. destruct (Hb extra (s, h) Hok Hmine) as [Hok1 Hk1].
  destruct (before (s, h)) as [s1 h1]. cbn [mbind outcome_bind].
  destruct (palloc_va (pages h1) KERNEL_SLAB_ORDER flgs) as [[va a]| |] eqn:Ep;
    [| exists (pages h1); split; [apply Hok1 | by rewrite Ep] | exists (pages h1); split; [apply Hok1 | by rewrite Ep]].
  pose proof (palloc_ok _ _ _ _ _ _ Hok1 Ep) as Hok2. obind.
  destruct (Ha _ _ Hok2) as [Hok3 Hk3]; [intros x Hx; apply (Hk1 x Hx)|].
  assert (Hk : forall x, x ∈ mine -> kept (s, h) (after (s1, {| words := words h1; pages := a |})) x).
  { intros x Hx. eapply kept_trans; [by apply Hk1 | by apply Hk3]. }
  destruct (after (s1, {| words := words h1; pages := a |})) as [s3 h3].
  destruct (Z.eqb_spec va 0) as [Ez|Ez]; [by obind|].
  pose proof (so_size _ _ Hok3) as Hsz3. cbn [fst] in Hsz3. rewrite Hsz3.
  destruct (new_frame (words h3) va size) as [f m] eqn:Ef. obind. cbn [Z.eqb negb].
  destruct (add_frame_ok extra (s3, h3) va f m Hok3 Ef) as (Hok4 & Hk4 & Hpos). cbn [fst snd] in Hok4, Hk4.
  set (u := (slab_set_frames s3 (frames s3 ++ [f]), {| words := m; pages := pages h3 |})) in *.
  assert (Hku : forall x, x ∈ mine -> kept (s, h) u x).
  { intros x Hx. eapply kept_trans; [by apply Hk | apply Hk4, (Hk x Hx)]. }
  cbn [object_size slab_set_frames words frames]. rewrite Hsz3.
  destruct (malloc_scan m size (frames s3 ++ [f])) as [[obj fs]|] eqn:E4.
  - destruct (malloc_found extra mine (s, h) u obj fs Hok4 Hku E4) as [H0 Hp].
    by destruct (Z.eqb_spec obj 0).
  - destruct (so_frames _ _ Hok4) as [fls Hf4]. pose proof (malloc_scan_spec _ _ _ Hf4) as Hn. subst u.
    cbn [fst snd words frames slab_set_frames] in Hn. rewrite E4 in Hn.
    apply Forall_app in Hn as [_ [Hn _]%Forall_cons]. lia.
Qed.

(** * Giving frames back *)

(** The page allocator after the blocks were handed to it, one after the other. *)
Definition give_back (a : A) (bs : list (Z * Z)) : outcome A := foldl (fun o b => a ← o; pfree_va a b.1 b.2) (Done a) bs.

Lemma oom_frames_spec m extra fs : forall a,
  pages_ok a -> (exists fls, Forall2 (frame_ok m) fs fls) ->
  Forall (usable a) ((block_of <$> fs) ++ extra) -> separate ((block_of <$> fs) ++ extra) ->
  exists fs' a', oom_frames a fs = Done (fs', a') /\ pages_ok a' /\
    fs' = filter (fun f => free_object_count f <> object_count f) fs /\
    give_back a (block_of <$> filter (fun f => free_object_count f = object_count f) fs) = Done a' /\
    Forall (usable a') ((block_of <$> fs') ++ extra) /\ separate ((block_of <$> fs') ++ extra).
Proof.
  revert extra. induction fs as [|f fs IH]; intros extra a Hp [fls Hf] Hu Hs; cbn [oom_frames].
  { exists [], a. by split_and!. }
  inversion Hf as [|? fl ? fls' F Hfs]; subst. cbn [fmap list_fmap app] in Hu, Hs.
  pose proof Hu as [[Hv Hnf] Hu']%Forall_cons. pose proof Hs as [Hs' Hd]%StronglySorted_inv.
  destruct (Z.eqb_spec (free_object_count f) (object_count f)) as [Ef|Ef].
  - rewrite filter_cons_False by tauto. rewrite filter_cons_True by done. unfold slab_frame_free.
    destruct (pfree_va_spec _ _ _ Hp Hv Hnf) as (a1 & E1 & Hp1 & Hv1 & _ & Hf1). cbn [fst snd block_of] in E1. rewrite E1. obind.
    assert (Eg : forall bs, give_back a (block_of f :: bs) = give_back a1 bs) by (intros bs; unfold give_back; cbn [foldl]; by rewrite done_bind; cbn [fst snd block_of]; rewrite E1).
    rewrite fmap_cons, Eg. apply IH; eauto. rewrite Forall_forall in Hu', Hd |- *. intros b Hb.
    apply (usable_mono a a1); auto. intros x Hx Hx'. destruct (Hf1 x Hx') as [|Hin]; [done|]. by destruct (Hd b Hb x Hin).
  - rewrite filter_cons_True by done. rewrite (filter_cons_False (fun f => free_object_count f = object_count f)) by done.
    destruct (IH (block_of f :: extra) a) as (fs' & a' & E & Hp' & Efs & Hgb & Hu2 & Hs2); eauto.
    { by rewrite <- Permutation_middle. }
    { by rewrite <- Permutation_middle. }
    rewrite E. obind. exists (f :: fs'), a'. rewrite <- Permutation_middle in Hu2, Hs2. by subst fs'.
Qed.

Lemma slab_oom_ok extra w :
  slab_ok extra w ->
  exists u, slab_oom w = Done u /\ slab_ok extra u /\ (forall x, in_use u x <-> in_use w x) /\ words u.2 = words w.2 /\
    frames u.1 = filter (fun f => free_object_count f <> object_count f) (frames w.1) /\
    give_back (pages w.2) (block_of <$> filter (fun f => free_object_count f = object_count f) (frames w.1)) = Done (pages u.2).
Proof.
  intros [Hsz Hp [fls Hf] Hu Hs]. destruct w as [s h]. cbn [fst snd] in *. unfold slab_oom.
  destruct (oom_frames_spec (words h) extra (frames s) (pages h)) as (fs' & a' & E & Hp' & Efs & Hgb & Hu' & Hs'); eauto.
  rewrite E. obind. eexists. split; [done|]. cbn [fst snd words].
  assert (Hsub : exists fls', Forall2 (frame_ok (words h)) fs' fls').
  { rewrite Efs. clear -Hf. induction Hf as [|f fl fs fls F Hf [fls' IH]]; [by exists []|].
    rewrite filter_cons. case_decide; [by exists (fl :: fls'); constructor | by exists fls']. }
  split_and!; [by split | | done | done | done]. intros x. unfold in_use, used_in. cbn [fst snd words frames slab_set_frames]. split.
  - intros (f & Hin & Ho & Hc). subst fs'. apply list_elem_of_filter in Hin as [_ Hin]. by exists f.
  - intros (f & Hin & Ho & Hc). exists f. split_and!; auto. subst fs'. apply list_elem_of_filter. split; [|done].
    intros Eq. apply list_elem_of_lookup in Hin as [i Hi]. destruct (Forall2_lookup_l _ _ _ _ _ Hf Hi) as (fl & _ & F).
    apply (Hc fl); [apply F|]. by apply (all_free_listed size Hsize (words h) f fl).
Qed.

(** * Freeing *)

(** The frame [slab_free] finds is the one the object lies in. *)
Lemma find_frame extra w f obj :
  slab_ok extra w -> f ∈ frames w.1 -> is_object f obj ->
  exists i, list_find (fun f => first_addr f <= obj < last_addr f) (frames w.1) = Some (i, f) /\ frames w.1 !! i = Some f.
Proof.
  intros Hok Hin Ho. apply list_elem_of_lookup in Hin as [j Hj].
  destruct (list_find_elem_of (fun f => first_addr f <= obj < last_addr f) (frames w.1) f) as [[i g] Ei];
    [by eapply list_elem_of_lookup_2 | apply Ho |].
  pose proof Ei as (Hi & Hg & Hfirst)%list_find_Some. exists i. rewrite Ei.
  assert (g = f) as ->; [|done]. destruct (decide (i = j)) as [->|Hne]; [congruence|]. exfalso.
  apply list_elem_of_split_length in Hi as (fs1 & fs2 & Efs & Hl).
  destruct (ok_split _ _ _ _ _ Hok Efs) as (Hgm & fls1 & gl & fls2 & G1 & G & G2 & Hd).
  assert (Hin : f ∈ fs1 ++ fs2).
  { rewrite Efs in Hj. apply elem_of_app. destruct (Nat.lt_ge_cases j (length fs1)).
    - left. rewrite lookup_app_l in Hj by done. by eapply list_elem_of_lookup_2.
    - right. rewrite lookup_app_r in Hj by done. destruct (j - length fs1)%nat as [|k] eqn:Ek; [lia|].
      simpl in Hj. by eapply list_elem_of_lookup_2. }
  destruct (Hd f Hin) as [Hfm Hdf].
  assert (exists fl, frame_ok (words w.2) f fl) as [fl F].
  { apply list_elem_of_lookup in Hin as [k Hk].
    destruct (Forall2_lookup_l _ _ _ _ _ (Forall2_app G1 G2) Hk) as (fl & _ & F). by exists fl. }
  apply (Hdf (obj / PG_SIZE)).
  - apply (frame_bytes_block (words w.2) g gl); auto. destruct G. unfold FRAME_HEADER in *. lia.
  - apply (frame_bytes_block (words w.2) f fl); auto. destruct F, Ho. unfold FRAME_HEADER in *. lia.
Qed.

Lemma other_frames_apart extra w fs1 f fs2 x y a :
  slab_ok extra w -> frames w.1 = fs1 ++ f :: fs2 -> is_object f x -> used_in (words w.2) (fs1 ++ fs2) y ->
  word_of size y a -> ~ (frame f <= a < frame f + FRAME_BYTES) /\ y <> x.
Proof.
  intros Hok E Hx (g & Hg & Ho & _) Hw.
  destruct (ok_split _ _ _ _ _ Hok E) as (Hm & fls1 & fl & fls2 & G1 & F & G2 & Hd).
  destruct (Hd g Hg) as [Hgm Hdg]. apply list_elem_of_lookup in Hg as [k Hk].
  destruct (Forall2_lookup_l _ _ _ _ _ (Forall2_app G1 G2) Hk) as (gl & _ & G).
  assert (Hout : forall a, word_of size y a -> ~ (frame f <= a < frame f + FRAME_BYTES)).
  { intros b Hb Ha. apply (Hdg (b / PG_SIZE)); [by apply (frame_bytes_block (words w.2) f fl)|].
    apply (frame_bytes_block (words w.2) g gl); auto. by eapply word_in_frame. }
  split; [by apply Hout|]. intros ->. apply (Hout x); [by apply word_of_self|].
  eapply word_in_frame; eauto using word_of_self.
Qed.

(** What becomes of the frames when an object of [f] is freed: if it was the last one
    in use, the frame and the others without objects in use leave the slab, and
    their pages are handed to the page allocator; otherwise none does. *)
Definition returned (f : slab_page_frame) (w u : @world A) : Prop :=
  if free_object_count f + 1 =? object_count f then
    exists gone, block_of <$> frames w.1 ≡ₚ gone ++ (block_of <$> frames u.1) /\ block_of f ∈ gone /\
      give_back (pages w.2) gone = Done (pages u.2) /\ Forall (fun g => free_object_count g <> object_count g) (frames u.1)
  else block_of <$> frames u.1 = block_of <$> frames w.1 /\ pages u.2 = pages w.2.

Lemma filter_split {B} (P : B -> Prop) `{forall x, Decision (P x)} (l : list B) : l ≡ₚ filter P l ++ filter (fun x => ~ P x) l.
Proof.
  induction l as [|x l IH]; [done|]. rewrite !filter_cons. case_decide as Hx; [rewrite decide_False by tauto | rewrite decide_True by tauto].
  - cbn. by constructor.
  - rewrite <- Permutation_middle. by constructor.
Qed.

Lemma slab_free_spec extra w obj :
  slab_ok extra w -> in_use w obj ->
  exists u, slab_free w obj = Done u /\ slab_ok extra u /\
    (forall x, in_use u x <-> in_use w x /\ x <> obj) /\
    (forall x, in_use w x -> x <> obj -> forall a, word_of size x a -> rd (words u.2) a = rd (words w.2) a) /\
    exists f, f ∈ frames w.1 /\ is_object f obj /\ returned f w u.
Proof.
  intros Hok (f & Hin & Ho & Hc). destruct (find_frame _ _ _ _ Hok Hin Ho) as (i & Ei & Hi).
  unfold slab_free. rewrite Ei. pose proof Hi as (fs1 & fs2 & Efs & Hl)%list_elem_of_split_length.
  destruct (ok_split _ _ _ _ _ Hok Efs) as (_ & _ & fl & _ & _ & F & _ & _).
  pose proof (proj1 (in_use_frame _ _ _ _ F) Hc) as Hni.
  destruct (frame_free_spec size Hsize _ _ _ _ F Ho Hni) as (head & m' & fl' & E & F' & Hfl & Hout).
  set (f' := frame_set_free f (free_object_count f + 1) head) in *.
  assert (Hmem : forall a, ~ (frame f <= a < frame f + FRAME_BYTES) -> rd m' a = rd (words w.2) a).
  { intros a Ha. pose proof (fk_objs _ _ _ _ F) as Hobjs. rewrite Forall_forall in Hobjs.
    apply Hout; [intros Hw; apply Ha; by eapply word_in_frame|].
    intros Hx. apply Ha. exact (word_in_frame _ _ _ _ _ F (Hobjs _ Hx) (word_of_self size Hsize a)). }
  destruct (ok_replace extra w fs1 f fs2 f' fl' m' Hok Efs eq_refl F' Hmem) as [Hok' Hrest].
  set (u := (slab_set_frames w.1 (fs1 ++ f' :: fs2), {| words := m'; pages := pages w.2 |})) in *.
  assert (Huse : forall x, in_use u x <-> in_use w x /\ x <> obj).
  { intros x. unfold in_use, u. cbn [fst snd words frames slab_set_frames].
    rewrite Efs, (used_in_split _ _ _ _ _ _ F), (used_in_split _ _ _ _ _ _ F'), Hfl, Hrest.
    change (is_object f' x) with (is_object f x). split; [|intuition].
    intros [H|H]; [split; [left|]; intuition|]. split; [by right|].
    exact (proj2 (other_frames_apart extra w fs1 f fs2 obj x x Hok Efs Ho H (word_of_self size Hsize x))). }
  assert (Hcont : forall x, in_use w x -> x <> obj -> forall a, word_of size x a -> rd m' a = rd (words w.2) a).
  { intros x Hx Hne a Hw. unfold in_use in Hx. rewrite Efs in Hx. apply (used_in_split _ _ _ _ _ _ F) in Hx as [[Hox Hnx]|Hx].
    - destruct Ho as [Hao _], Hox as [Hax _]. pose proof (fk_objs _ _ _ _ F) as Hobjs. rewrite Forall_forall in Hobjs.
      apply Hout; [intros Hw'; apply Hne; by eapply (word_of_other size Hsize)|].
      intros Hx. destruct (Hobjs _ Hx) as [Haa _].
      pose proof (word_of_other size Hsize _ _ _ Hax Haa Hw (word_of_self size Hsize a)). by subst.
    - apply Hmem. exact (proj1 (other_frames_apart extra w fs1 f fs2 obj x a Hok Efs Ho Hx Hw)). }
  unfold slab_frame_object_free. destruct w as [s h]. cbn [fst snd] in *.
  pose proof (so_size _ _ Hok) as Hsz. cbn [fst] in Hsz. rewrite Hsz, E. fold f'.
  replace (<[i := f']> (frames s)) with (fs1 ++ f' :: fs2)
    by (rewrite Efs, Hl, insert_app_r_alt, Nat.sub_diag by lia; done). fold u.
  assert (Eb : block_of <$> frames u.1 = block_of <$> frames s) by (cbn; by rewrite Efs, !fmap_app).
  destruct (free_object_count f' =? object_count f') eqn:Ecount.
  - destruct (slab_oom_ok _ _ Hok') as (v & Ev & Hokv & Hv & Hw & Ef & Eg). exists v. rewrite Ev.
    split_and!; [done | done | intros x; by rewrite Hv | intros x; rewrite Hw; apply Hcont|]. exists f. split_and!; [done | done|].
    unfold returned. change (free_object_count f + 1) with (free_object_count f'). change (object_count f) with (object_count f'). rewrite Ecount.
    eexists. split; [|split; [|split; [exact Eg|]]].
    + cbn [fst]. rewrite <- Eb, Ef, <- fmap_app. by rewrite <- filter_split.
    + apply list_elem_of_fmap. exists f'. split; [done|]. apply list_elem_of_filter. split; [by apply Z.eqb_eq|]. cbn. apply elem_of_app. right. left.
    + rewrite Ef. apply Forall_forall. intros g Hg. by apply list_elem_of_filter in Hg as [Hg _].
  - exists u. split_and!; try done. exists f. split_and!; [done | done|]. unfold returned.
    change (free_object_count f + 1) with (free_object_count f'). change (object_count f) with (object_count f'). by rewrite Ecount.
Qed.

(** A second free of the same object changes nothing. *)
Lemma slab_free_again extra w f fl obj :
  slab_ok extra w -> f ∈ frames w.1 -> frame_ok (words w.2) f fl -> obj ∈ fl -> slab_free w obj = Done w.
Proof.
  intros Hok Hin F Hfl. pose proof (fk_objs _ _ _ _ F) as Hobjs. rewrite Forall_forall in Hobjs.
  destruct (find_frame _ _ _ _ Hok Hin (Hobjs _ Hfl)) as (i & Ei & Hi). unfold slab_free. rewrite Ei.
  unfold slab_frame_object_free. destruct w as [s h]. cbn [fst snd] in *.
  pose proof (so_size _ _ Hok) as Hsz. cbn [fst] in Hsz. rewrite Hsz.
  rewrite (free_walk_double size Hsize fl); auto; try apply F.
  - apply Forall_forall. intros x Hx. by apply (object_addr size Hsize f x (words h) fl), Hobjs.
  - pose proof (free_length size Hsize _ _ _ F). lia.
Qed.
End slab_props.

(** * The properties *)

(** C14: [slab_malloc] of a well-formed slab of power-of-two objects returns
    after adding at most one frame.  A non-null result is aligned to the object
    size, was not in use and is in use now; the slab is well formed again, its
    pages disjoint from every block others hold, and each of the caller's
    objects [mine] is still in use with unchanged contents.  This holds although
    the lock is dropped around the page allocation, for any interference that
    keeps the slab well formed and leaves [mine] alone; the only other outcome
    is that the page allocator itself fails. *)
Theorem slab_malloc_correct {A : Type} `{PageAllocator A} size extra mine (before after : @world A -> @world A) flgs w :
  (exists k, 5 <= k <= 12 /\ size = 2 ^ k) -> slab_ok size extra w -> (forall x, x ∈ mine -> in_use size w x) ->
  env_ok size mine before -> env_ok size mine after ->
  match slab_malloc 1 before after flgs w with
  | Done (obj, u) =>
      if obj =? 0 then slab_ok size extra u /\ forall x, x ∈ mine -> kept size w u x
      else slab_ok size extra u /\ obj mod size = 0 /\ in_use size u obj /\ (obj ∉ mine) /\
           (forall x, x ∈ mine -> kept size w u x)
  | _ => exists a, pages_ok a /\ forall r, palloc_va a KERNEL_SLAB_ORDER flgs <> Done r
  end.
Proof. intros Hs. by apply slab_malloc_spec. Qed.

(** C15: In a well-formed slab of one of the object sizes of [kmalloc] (powers of two
    from 32 to 4096), [slab_free] of an object in use returns, makes exactly that
    object free, keeps the slab well formed and writes to no other object in use.  When the object was
    the last one in use in its frame, the frame leaves the slab, with every other
    frame that has no object in use, and their pages are handed to the page
    allocator; otherwise no frame does and the page allocator is not called.  A
    second free of an object that is in a free list changes nothing. *)
Theorem slab_free_correct {A : Type} `{PageAllocator A} size extra (w : @world A) obj :
  (exists k, 5 <= k <= 12 /\ size = 2 ^ k) -> slab_ok size extra w ->
  (in_use size w obj ->
     exists u, slab_free w obj = Done u /\ slab_ok size extra u /\
       (forall x, in_use size u x <-> in_use size w x /\ x <> obj) /\
       (forall x, in_use size w x -> x <> obj -> forall a, word_of size x a -> rd (words u.2) a = rd (words w.2) a) /\
       exists f, f ∈ frames w.1 /\ is_object size f obj /\ returned f w u) /\
  (forall f fl, f ∈ frames w.1 -> frame_ok size (words w.2) f fl -> obj ∈ fl -> slab_free w obj = Done w).
Proof. intros Hs Hok. split; [by apply slab_free_spec | by intros; eapply slab_free_again]. Qed.

(** ** On the buddy allocator *)

Definition example_world : @world page_buddy_alloc :=
  ({| object_size := 4096; frames := [] |}, {| words := ∅; pages := example_alloc |}).

#[local] Instance example_pages : PageAllocator page_buddy_alloc := buddy_page_allocator 0 0.

Lemma example_world_ok : slab_ok 4096 [] example_world.
Proof. split; [done | apply example_alloc_ok | by exists [] | constructor | constructor]. Defined.

Lemma example_env_ok : env_ok 4096 [] (fun w => w).
Proof. intros extra w Hw _. split; [done|]. intros x Hx. destruct (not_elem_of_nil x Hx). Defined.

Lemma example_size : exists k, 5 <= k <= 12 /\ 4096 = 2 ^ k.
Proof. exists 12. split; [lia | reflexivity]. Defined.

Lemma example_malloc_done : match slab_malloc 1 (fun w => w) (fun w => w) 0 example_world with Done (obj, _) => obj = 0xC0001000 | _ => False end.
Proof. vm_compute. reflexivity. Qed.

Lemma slab_malloc_correct_witness :
  match slab_malloc 1 (fun w => w) (fun w => w) 0 example_world with
  | Done (obj, u) => slab_ok 4096 [] u /\ obj mod 4096 = 0 /\ in_use 4096 u obj /\ (obj ∉ ([] : list Z)) /\
      (forall x, x ∈ [] -> kept 4096 example_world u x)
  | _ => False
  end.
Proof.
  pose proof example_malloc_done as Hd.
  assert (Hm : forall x : Z, x ∈ [] -> in_use 4096 example_world x) by (intros x Hx; destruct (not_elem_of_nil x Hx)).
  pose proof (slab_malloc_correct 4096 [] [] (fun w => w) (fun w => w) 0 example_world
    example_size example_world_ok Hm example_env_ok example_env_ok) as H.
  destruct (slab_malloc 1 _ _ 0 example_world) as [[obj u]| |]; [|destruct Hd|destruct Hd].
  subst obj. exact H.
Defined.

Lemma slab_free_correct_witness :
  match slab_malloc 1 (fun w => w) (fun w => w) 0 example_world with
  | Done (obj, w) => exists u, slab_free w obj = Done u /\ slab_ok 4096 [] u
  | _ => False
  end.
Proof.
  pose proof example_malloc_done as Hd.
  assert (Hm : forall x : Z, x ∈ [] -> in_use 4096 example_world x) by (intros x Hx; destruct (not_elem_of_nil x Hx)).
  pose proof (slab_malloc_spec 4096 example_size [] [] (fun w => w) (fun w => w) 0 example_world
    example_world_ok Hm example_env_ok example_env_ok) as H.
  destruct (slab_malloc 1 _ _ 0 example_world) as [[obj w]| |]; [|destruct Hd|destruct Hd].
  subst obj.
  destruct H as (Hok & _ & Hu & _).
  destruct (proj1 (slab_free_correct 4096 [] w _ example_size Hok) Hu) as (u & E & Hok' & _).
  exists u. exact (conj E Hok').
Defined.
