(* ===== verification/Kmalloc.v ===== *)
(** The kernel heap (src/mm/kmalloc.c): requests up to a page are served by the
    slabs, larger ones by the page allocator with a descriptor per block in
    [large_alloc_list]. *)
From stdpp Require Import base numbers list gmap sorting.
From Stdlib Require Import ZArith ZifyBool Lia.
From S2P Require Import Prelude UserMem Palloc Bootmem PageAlloc Slab SlabProps.
Open Scope Z_scope.

(** [pages] is the virtual address of the block; [desc] the address of the
    descriptor. *)
Record large_alloc_desc : Type := { desc : Z; desc_pages : Z; desc_order : Z }.

(** [sizeof(struct large_alloc_desc)]. *)
Definition SIZEOF_DESC : Z := 16.

Definition kmalloc_sizes : list Z := [32; 64; 128; 256; 512; 1024; 2048; 4096].

(** [log2] is the index of the highest set bit. *)
Definition pages_to_order (page_count : Z) : Z := if 1 <? page_count then Z.log2 (page_count - 1) + 1 else 0.

Section kmalloc.
  Context {A : Type} `{PA : PageAllocator A}.

Record kstate : Type := {
  kmalloc_slabs : list slab_alloc;
  large_alloc_list : list large_alloc_desc;
  kheap : @heap A;
}.

Definition kmalloc_start (h : @heap A) : kstate :=
  {| kmalloc_slabs := (fun size => {| object_size := size; frames := [] |}) <$> kmalloc_sizes;
     large_alloc_list := []; kheap := h |}.

Definition with_slab (st : kstate) (i : nat) (w : @world A) : kstate :=
  {| kmalloc_slabs := <[i := w.1]> (kmalloc_slabs st); large_alloc_list := large_alloc_list st; kheap := w.2 |}.

(** What the rest of the system does to a slab while [slab_malloc] has dropped
    its lock. *)
  Context (before after : @world A -> @world A).

(** The loop over the slabs: the first one whose objects are large enough. *)
Definition kmalloc_slab (st : kstate) (size flgs : Z) : option (outcome (Z * kstate)) :=
  match list_find (fun s => size <= object_size s) (kmalloc_slabs st) with
  | Some (i, s) => Some ('(obj, w) ← slab_malloc 1 before after flgs (s, kheap st); Done (obj, with_slab st i w))
  | None => None
  end.

Definition kfree_slab (st : kstate) (p : Z) : option (outcome kstate) :=
  match list_find (fun s => slab_has_addr s p = 0) (kmalloc_slabs st) with
  | Some (i, s) => Some (w ← slab_free (s, kheap st) p; Done (with_slab st i w))
  | None => None
  end.

Definition with_pages (st : kstate) (large : list large_alloc_desc) (a : A) : kstate :=
  {| kmalloc_slabs := kmalloc_slabs st; large_alloc_list := large;
     kheap := {| words := words (kheap st); pages := a |} |}.

Definition kmalloc (st : kstate) (size flgs : Z) : outcome (Z * kstate) :=
  match kmalloc_slab st size flgs with
  | Some r => r
  | None =>
      let count := PG_ALIGN size / PG_SIZE in
      let order := pages_to_order count in
      match kmalloc_slab st SIZEOF_DESC flgs with
      | None => Fault
      | Some r =>
          '(d, st) ← r;
          if d =? 0 then Done (0, st)
          else
            '(va, a) ← palloc_va (pages (kheap st)) order flgs;
            if va =? 0 then
              let st := with_pages st (large_alloc_list st) a in
              match kfree_slab st d with
              | Some r => st ← r; Done (0, st)
              | None => Panic
              end
            else
              Done (va, with_pages st (large_alloc_list st ++ [{| desc := d; desc_pages := va; desc_order := order |}]) a)
      end
  end.

(** The test of [ksize] and [kfree]: both ends are included. *)
Definition in_large (p : Z) (d : large_alloc_desc) : Prop :=
  desc_pages d <= p <= u32 (desc_pages d + Z.shiftl 1 (desc_order d) * PG_SIZE).

#[global] Instance in_large_dec p d : Decision (in_large p d).
Proof. unfold in_large. apply _. Defined.

Definition ksize (st : kstate) (p : Z) : Z :=
  match list_find (fun s => slab_has_addr s p = 0) (kmalloc_slabs st) with
  | Some (_, s) => object_size s
  | None =>
      match list_find (in_large p) (large_alloc_list st) with
      | Some (_, d) => Z.shiftl 1 (desc_order d) * PG_SIZE
      | None => 0
      end
  end.

Definition kfree (st : kstate) (p : Z) : outcome kstate :=
  match kfree_slab st p with
  | Some r => r
  | None =>
      match list_find (in_large p) (large_alloc_list st) with
      | None => Panic
      | Some (i, d) =>
          a ← pfree_va (pages (kheap st)) (desc_pages d) (desc_order d);
          let st := with_pages st (delete i (large_alloc_list st)) a in
          match kfree_slab st (desc d) with
          | Some r => r
          | None => Panic
          end
      end
  end.

(** [kmalloc_oom] gives the empty frames of every slab back. *)
Fixpoint oom_slabs (ss : list slab_alloc) (h : @heap A) : outcome (list slab_alloc * @heap A) :=
  match ss with
  | [] => Done ([], h)
  | s :: ss' =>
      '(s, h) ← slab_oom (s, h);
      '(r, h) ← oom_slabs ss' h;
      Done (s :: r, h)
  end.

Definition kmalloc_oom (st : kstate) : outcome kstate :=
  '(ss, h) ← oom_slabs (kmalloc_slabs st) (kheap st);
  Done {| kmalloc_slabs := ss; large_alloc_list := large_alloc_list st; kheap := h |}.
End kmalloc.

(** * Small requests *)

Lemma sizes_lookup i c :
  kmalloc_sizes !! i = Some c ->
  (exists k, 5 <= k <= 12 /\ c = 2 ^ k) /\ (i = 0%nat /\ c = 32 \/ kmalloc_sizes !! pred i = Some (c / 2) /\ (i <> 0)%nat).
Proof.
  intros H. do 8 (destruct i as [|i];
    [simpl in H; injection H as <-; split;
     [first [by exists 5 | by exists 6 | by exists 7 | by exists 8 | by exists 9 | by exists 10 | by exists 11 | by exists 12]
     | first [by left | by right]]|]). done.
Qed.

(** The slab a request up to a page goes to. *)
Lemma find_slab ss size :
  object_size <$> ss = kmalloc_sizes -> 0 <= size <= 4096 ->
  exists i s, list_find (fun s => size <= object_size s) ss = Some (i, s) /\ ss !! i = Some s /\
    (exists k, 5 <= k <= 12 /\ object_size s = 2 ^ k) /\ size <= object_size s /\ (32 < size -> object_size s < 2 * size).
Proof.
  intros Hsz Hs. assert (Hlast : exists s, s ∈ ss /\ size <= object_size s).
  { assert (H7 : (object_size <$> ss) !! 7%nat = Some 4096) by (by rewrite Hsz).
    rewrite list_lookup_fmap in H7. destruct (ss !! 7%nat) as [s|] eqn:E; [|done]. injection H7 as H7.
    exists s. split; [by eapply list_elem_of_lookup_2 | lia]. }
  destruct Hlast as (s0 & Hin & Hle).
  destruct (list_find_elem_of (fun s => size <= object_size s) ss s0 Hin Hle) as [[i s] E].
  pose proof E as (Hi & Hs' & Hfirst)%list_find_Some. exists i, s.
  assert (Hc : kmalloc_sizes !! i = Some (object_size s)) by (by rewrite <- Hsz, list_lookup_fmap, Hi).
  destruct (sizes_lookup _ _ Hc) as [Hk Hprev]. split_and!; auto. intros H32.
  destruct Hprev as [[-> Hc0]|[Hp Hne]]; [lia|].
  rewrite <- Hsz, list_lookup_fmap in Hp. destruct (ss !! pred i) as [s'|] eqn:Ep; [|done]. injection Hp as Hp.
  pose proof (Hfirst (pred i) s' Ep ltac:(lia)). destruct Hk as (k & Hk & Ek).
  assert (object_size s = 2 * (object_size s / 2)); [|lia].
  rewrite Ek. replace k with (1 + (k - 1)) by lia. rewrite Z.pow_add_r by lia. change (2 ^ 1) with 2.
  rewrite (Z.mul_comm 2 (2 ^ (k - 1))), Z.div_mul by lia. lia.
Qed.

(** a request of up to a page is served by the slab with the smallest
    objects that are large enough: less than twice the request, and no other
    slab changes.  A non-null result is an object of that slab, aligned to its
    size, that was not among the caller's objects [mine] of that slab; those keep their
    contents. *)
Theorem kmalloc_small_correct {A : Type} `{PageAllocator A} (before after : @world A -> @world A) st size flgs extra mine :
  object_size <$> kmalloc_slabs st = kmalloc_sizes -> 0 <= size <= 4096 ->
  (forall s, s ∈ kmalloc_slabs st -> slab_ok (object_size s) (extra s) (s, kheap st) /\
     (forall x, x ∈ mine s -> in_use (object_size s) (s, kheap st) x) /\
     env_ok (object_size s) (mine s) before /\ env_ok (object_size s) (mine s) after) ->
  exists i s, kmalloc_slabs st !! i = Some s /\ size <= object_size s /\ (32 < size -> object_size s < 2 * size) /\
  match kmalloc before after st size flgs with
  | Done (p, st') =>
      exists s', kmalloc_slabs st' = <[i := s']> (kmalloc_slabs st) /\ large_alloc_list st' = large_alloc_list st /\
      slab_ok (object_size s) (extra s) (s', kheap st') /\
      (forall x, x ∈ mine s -> kept (object_size s) (s, kheap st) (s', kheap st') x) /\
      (p <> 0 -> p mod object_size s = 0 /\ in_use (object_size s) (s', kheap st') p /\ (p ∉ mine s))
  | _ => exists a, pages_ok a /\ forall r, palloc_va a KERNEL_SLAB_ORDER flgs <> Done r
  end.
Proof.
  intros Hsz Hs Hok. destruct (find_slab _ _ Hsz Hs) as (i & s & E & Hi & Hk & Hle & Hlt).
  exists i, s. split_and!; auto. unfold kmalloc, kmalloc_slab. rewrite E.
  destruct (Hok s (list_elem_of_lookup_2 _ _ _ Hi)) as (Hs1 & Hm & Hb & Ha).
  pose proof (slab_malloc_spec (object_size s) Hk (extra s) (mine s) before after flgs (s, kheap st) Hs1 Hm Hb Ha) as H1.
  destruct (slab_malloc 1 before after flgs (s, kheap st)) as [[obj [s' h']]| |]; [|done|done]. obind.
  exists s'. split; [done|]. split; [done|]. cbn [kheap with_slab fst snd].
  destruct (Z.eqb_spec obj 0) as [->|H0]; [destruct H1; by split_and!|].
  destruct H1 as (? & ? & ? & ? & ?). by split_and!.
Qed.

#[local] Instance buddy_pages : PageAllocator page_buddy_alloc := buddy_page_allocator 0 0.

Definition example_kstate : @kstate page_buddy_alloc := kmalloc_start {| words := ∅; pages := example_alloc |}.

Lemma kmalloc_small_correct_witness :
  exists i s, kmalloc_slabs example_kstate !! i = Some s /\ 100 <= object_size s /\
    (32 < 100 -> object_size s < 2 * 100) /\
  match kmalloc (fun w => w) (fun w => w) example_kstate 100 0 with
  | Done (p, st') =>
      exists s', kmalloc_slabs st' = <[i := s']> (kmalloc_slabs example_kstate) /\ large_alloc_list st' = [] /\
      slab_ok (object_size s) [] (s', kheap st') /\
      (forall x, x ∈ [] -> kept (object_size s) (s, kheap example_kstate) (s', kheap st') x) /\
      (p <> 0 -> p mod object_size s = 0 /\ in_use (object_size s) (s', kheap st') p /\ (p ∉ ([] : list Z)))
  | _ => exists a, pages_ok a /\ forall r, palloc_va a KERNEL_SLAB_ORDER 0 <> Done r
  end.
Proof.
  apply (kmalloc_small_correct (fun w => w) (fun w => w) example_kstate 100 0 (fun _ => []) (fun _ => []));
    [reflexivity | lia |].
  intros s Hs. apply list_elem_of_fmap in Hs as (c & -> & _). cbn [object_size].
  assert (Henv : env_ok c [] (fun w : @world page_buddy_alloc => w)).
  { intros e w Hw _. split; [exact Hw|]. intros x Hx. destruct (not_elem_of_nil x Hx). }
  split; [|split; [intros x Hx; destruct (not_elem_of_nil x Hx) | exact (conj Henv Henv)]].
  split; [reflexivity | exact example_alloc_ok | exists []; constructor | constructor | constructor].
Defined.

(** * Large requests *)

(** A machine with 96 free pages, brought up by [bootmem_setup_palloc]. *)
Definition large_pages : outcome page_buddy_alloc :=
  '(_, a) ← bootmem_setup_palloc 0 0
    {| memregions := {| rstart := 0x1E000; rend := 0x80000 |} :: replicate 63 {| rstart := 0; rend := 0 |};
       highest_page := 128 |};
  Done a.

(** Two blocks of two pages, then the second one is freed. *)
Definition free_second : outcome (Z * Z * @kstate page_buddy_alloc * @kstate page_buddy_alloc) :=
  a ← large_pages;
  let st := kmalloc_start {| words := ∅; pages := a |} in
  '(p1, st) ← kmalloc (fun w => w) (fun w => w) st 8192 0;
  '(p2, st) ← kmalloc (fun w => w) (fun w => w) st 8192 0;
  st' ← kfree st p2;
  Done (p1, p2, st, st').

(** a defect.  [kfree] takes the first block with [start <= p <= end]: when
    two large blocks are adjacent, which two requests in a row give, freeing the
    second one frees the pages and the descriptor of the first, which its owner
    still uses, and keeps the second. *)
Theorem kfree_frees_the_neighbour :
  match free_second with
  | Done (p1, p2, st, st') =>
      p2 = p1 + 8192 /\ (desc_pages <$> large_alloc_list st) = [p1; p2] /\
      (desc_pages <$> large_alloc_list st') = [p2] /\
      ((p1 - KMEM_KBASE) / PG_SIZE) ∈ fl (pages (kheap st')) 1 /\ fl (pages (kheap st)) 1 = []
  | _ => False
  end.
Proof. vm_compute. split_and!; try reflexivity. apply list_elem_of_singleton. reflexivity. Qed.
