(* ===== verification/Bits.v ===== *)
(** Bit operations on byte arrays (arch/x86/include/arch/bitops.h): the atomic
    bit instructions address a little-endian bit string, so on bytes they are
    operations on bit [n mod 8] of byte [n / 8]; the searches scan byte by byte. *)
From stdpp Require Import base numbers list.
From Stdlib Require Import ZArith ZifyBool Lia.
From S2P Require Import Prelude.
Open Scope Z_scope.

Definition bit_update (f : Z -> Z -> Z) (bs : list Z) (bit : Z) : outcome (list Z) :=
  b ← arr_get bs (bit / 8);
  arr_set bs (bit / 8) (f b (bit mod 8)).

Definition bit_set : list Z -> Z -> outcome (list Z) := bit_update Z.setbit.
Definition bit_clear : list Z -> Z -> outcome (list Z) := bit_update Z.clearbit.

Definition bit_test (bs : list Z) (bit : Z) : outcome bool :=
  b ← arr_get bs (bit / 8);
  Done (Z.testbit b (bit mod 8)).

(** [old] is zero when the bit was set before, and one when it was not. *)
Definition bit_toggle (bs : list Z) (bit : Z) : outcome (Z * list Z) :=
  old ← bit_test bs bit;
  bs ← bit_update (fun b n => Z.lxor b (Z.shiftl 1 n)) bs bit;
  Done (if (old : bool) then 0 else 1, bs).

Definition bit_test_and_set (bs : list Z) (bit : Z) : outcome (Z * list Z) :=
  old ← bit_test bs bit;
  bs ← bit_set bs bit;
  Done (if (old : bool) then 0 else 1, bs).

(** The loop over the bits of one byte, from bit [k]; [c] is the byte shifted. *)
Fixpoint scan_bits (want : bool) (n : nat) (c k : Z) : option Z :=
  match n with
  | O => None
  | S n' => if Bool.eqb (Z.testbit c 0) want then Some k else scan_bits want n' (Z.shiftr c 1) (k + 1)
  end.

(** The loop over the bytes, from byte [i].  A byte without a wanted bit at all
    is skipped by the [continue], which leaves [start_bit] as it is. *)
Fixpoint find_next_from (want : bool) (bs : list Z) (i start_bit : Z) : Z :=
  match bs with
  | [] => -1
  | b :: bs' =>
      if b =? (if want then 0x00 else 0xFF) then find_next_from want bs' (i + 1) start_bit
      else match scan_bits want (Z.to_nat (8 - start_bit)) (Z.shiftr b start_bit) start_bit with
           | Some k => i * 8 + k
           | None => find_next_from want bs' (i + 1) 0
           end
  end.

Definition bit_find_next_zero (bs : list Z) (start_loc : Z) : Z :=
  find_next_from false (drop (Z.to_nat (start_loc / 8)) bs) (start_loc / 8) (start_loc mod 8).

Definition bit_find_first_zero (bs : list Z) : Z := bit_find_next_zero bs 0.

Definition bit_find_next_set (bs : list Z) (start_loc : Z) : Z :=
  find_next_from true (drop (Z.to_nat (start_loc / 8)) bs) (start_loc / 8) (start_loc mod 8).

(** [bsfl], with -1 when no bit is set. *)
Definition bit32_find_first_set (value : Z) : Z :=
  match scan_bits true 32 value 0 with Some k => k | None => -1 end.

(** * The bits of an array *)

Definition bit_at (bs : list Z) (j : Z) : bool :=
  Z.testbit (default 0 (bs !! Z.to_nat (j / 8))) (j mod 8).

Definition bytes (bs : list Z) : Prop := Forall (fun b => 0 <= b < 256) bs.

Lemma scan_bits_spec want n : forall c k,
  match scan_bits want n c k with
  | Some r => k <= r < k + Z.of_nat n /\ Z.testbit c (r - k) = want /\
              forall j, 0 <= j < r - k -> Z.testbit c j = negb want
  | None => forall j, 0 <= j < Z.of_nat n -> Z.testbit c j = negb want
  end.
Proof.
  induction n as [|n IH]; intros c k; simpl; [lia|].
  destruct (Bool.eqb (Z.testbit c 0) want) eqn:E.
  - apply Bool.eqb_prop in E. replace (k - k) with 0 by lia. split_and!; [lia | lia | done | lia].
  - apply Bool.eqb_false_iff in E. assert (E' : Z.testbit c 0 = negb want) by (by destruct (Z.testbit c 0), want).
    specialize (IH (Z.shiftr c 1) (k + 1)).
    assert (Hstep : forall j, 0 < j -> Z.testbit (Z.shiftr c 1) (j - 1) = Z.testbit c j).
    { intros j Hj. rewrite Z.shiftr_spec by lia. f_equal. lia. }
    destruct (scan_bits want n _ _) as [r|].
    + destruct IH as (Hr & Hw & Hb). split_and!; [lia | lia | |].
      * rewrite <- Hstep by lia. rewrite <- Hw. f_equal. lia.
      * intros j Hj. destruct (decide (j = 0)) as [->|]; [done|]. rewrite <- Hstep by lia. apply Hb. lia.
    + intros j Hj. destruct (decide (j = 0)) as [->|]; [done|]. rewrite <- Hstep by lia. apply IH. lia.
Qed.

Lemma bit_at_cons b bs j :
  0 <= j -> bit_at (b :: bs) j = if j <? 8 then Z.testbit b j else bit_at bs (j - 8).
Proof.
  intros Hj. unfold bit_at. destruct (Z.ltb_spec j 8).
  - rewrite Z.div_small, Z.mod_small by lia. done.
  - replace (j / 8) with ((j - 8) / 8 + 1) by (Z.div_mod_to_equations; lia).
    replace (j mod 8) with ((j - 8) mod 8) by (Z.div_mod_to_equations; lia).
    pose proof (Z.div_pos (j - 8) 8 ltac:(lia) ltac:(lia)).
    by replace (Z.to_nat ((j - 8) / 8 + 1)) with (S (Z.to_nat ((j - 8) / 8))) by lia.
Qed.

Lemma skipped_byte want b j :
  0 <= j < 8 -> b = (if want : bool then 0x00 else 0xFF) -> Z.testbit b j = negb want.
Proof.
  intros Hj ->. destruct want; [apply Z.testbit_0_l|]. change 0xFF with (Z.ones 8).
  rewrite Z.ones_spec_low by lia. done.
Qed.

(** [r] is the first position from bit [8 * i] on with a bit equal to [want]. *)
Definition first_with (want : bool) (bs : list Z) (i r : Z) : Prop :=
  (r = -1 /\ forall j, 0 <= j < 8 * Z.of_nat (length bs) -> bit_at bs j = negb want) \/
  exists j, r = i * 8 + j /\ 0 <= j < 8 * Z.of_nat (length bs) /\ bit_at bs j = want /\
    forall j', 0 <= j' < j -> bit_at bs j' = negb want.

Lemma first_with_cons want b bs i r :
  (forall j, 0 <= j < 8 -> Z.testbit b j = negb want) -> first_with want bs (i + 1) r ->
  first_with want (b :: bs) i r.
Proof.
  intros Hb [[-> H]|(j & -> & Hj & Hw & H)]; [left | right].
  - split; [done|]. intros j Hj. simpl in Hj. rewrite bit_at_cons by lia.
    destruct (Z.ltb_spec j 8); [apply Hb | apply H]; lia.
  - exists (j + 8). simpl length. split_and!; [lia | lia | lia | |].
    + rewrite bit_at_cons by lia. destruct (Z.ltb_spec (j + 8) 8); [lia|]. by replace (j + 8 - 8) with j by lia.
    + intros j' Hj'. rewrite bit_at_cons by lia. destruct (Z.ltb_spec j' 8); [apply Hb | apply H]; lia.
Qed.

Lemma find_next_from_spec want bs : forall i, first_with want bs i (find_next_from want bs i 0).
Proof.
  induction bs as [|b bs IH]; intros i; cbn [find_next_from].
  { left. split; [done|]. simpl. lia. }
  destruct (Z.eqb_spec b (if want then 0 else 255)) as [E|E].
  { apply first_with_cons; [|apply IH]. intros j Hj. by apply skipped_byte. }
  rewrite Z.shiftr_0_r. pose proof (scan_bits_spec want 8 b 0) as H. change (Z.to_nat (8 - 0)) with 8%nat.
  destruct (scan_bits want 8 b 0) as [r|].
  - destruct H as (Hr & Hw & Hb). rewrite Z.sub_0_r in *. right. exists r. simpl length.
    split_and!; [lia | lia | lia | |].
    + rewrite bit_at_cons by lia. destruct (Z.ltb_spec r 8); [done | lia].
    + intros j' Hj'. rewrite bit_at_cons by lia. destruct (Z.ltb_spec j' 8); [apply Hb; lia | lia].
  - apply first_with_cons; [done | apply IH].
Qed.

Lemma bit_find_first_zero_spec bs :
  let r := bit_find_first_zero bs in
  (r = -1 /\ forall j, 0 <= j < 8 * Z.of_nat (length bs) -> bit_at bs j = true) \/
  (0 <= r < 8 * Z.of_nat (length bs) /\ bit_at bs r = false /\
   forall j, 0 <= j < r -> bit_at bs j = true).
Proof.
  change (bit_find_first_zero bs) with (find_next_from false bs 0 0). cbv zeta.
  destruct (find_next_from_spec false bs 0) as [[-> H]|(j & -> & Hj & Hb & H)]; [by left | by right].
Qed.

(** [bit_find_first_zero] returns the position of the first clear bit of
    the array, and -1 exactly when every bit is set. *)
Theorem bit_find_first_zero_correct bs :
  let r := bit_find_first_zero bs in
  (r = -1 /\ forall j, 0 <= j < 8 * Z.of_nat (length bs) -> bit_at bs j = true) \/
  (0 <= r < 8 * Z.of_nat (length bs) /\ bit_at bs r = false /\
   forall j, 0 <= j < r -> bit_at bs j = true).
Proof. apply bit_find_first_zero_spec. Qed.

(** A search that starts inside a byte whose bits are all clear keeps
    the bit offset of its start for the bytes that follow, and so can miss the
    set bit it was looking for. *)
Theorem bit_find_next_set_misses :
  exists bs start_loc, bytes bs /\ bit_find_next_set bs start_loc = -1 /\
    exists j, start_loc <= j < 8 * Z.of_nat (length bs) /\ bit_at bs j = true.
Proof.
  exists [0x00; 0x01], 4. split; [by repeat constructor|]. split; [done|]. exists 8. by split.
Qed.

Lemma bit_at_drop bs n j :
  0 <= j -> bit_at (drop n bs) j = bit_at bs (8 * Z.of_nat n + j).
Proof.
  intros Hj. unfold bit_at. rewrite lookup_drop. rewrite Z.add_comm, Z.mul_comm.
  rewrite Z.div_add, Z.mod_add by lia. do 3 f_equal. pose proof (Z.div_pos j 8). lia.
Qed.

(** From a byte boundary the search finds the next set bit. *)
Lemma bit_find_next_set_aligned bs start_loc :
  0 <= start_loc -> start_loc mod 8 = 0 ->
  let r := bit_find_next_set bs start_loc in
  (r = -1 /\ forall j, start_loc <= j < 8 * Z.of_nat (length bs) -> bit_at bs j = false) \/
  (start_loc <= r < 8 * Z.of_nat (length bs) /\ bit_at bs r = true /\
   forall j, start_loc <= j < r -> bit_at bs j = false).
Proof.
  intros H0 Hm. unfold bit_find_next_set. rewrite Hm.
  set (n := start_loc / 8). assert (Hn : start_loc = 8 * n /\ 0 <= n) by (subst n; Z.div_mod_to_equations; lia).
  destruct (find_next_from_spec true (drop (Z.to_nat n) bs) n) as [[-> H]|(j & -> & Hj & Hb & H)]; [left | right].
  - split; [done|]. intros j Hj. specialize (H (j - start_loc)). rewrite bit_at_drop, length_drop in H by lia.
    replace j with (8 * Z.of_nat (Z.to_nat n) + (j - start_loc)) by lia. apply H. lia.
  - rewrite length_drop in Hj. rewrite bit_at_drop in Hb by lia.
    split_and!; [lia | lia | rewrite <- Hb; f_equal; lia |].
    intros j' Hj'. specialize (H (j' - start_loc)). rewrite bit_at_drop in H by lia.
    replace j' with (8 * Z.of_nat (Z.to_nat n) + (j' - start_loc)) by lia. apply H. lia.
Qed.

(** Whatever the start, a position that is returned holds a wanted bit. *)
Lemma find_next_from_sound want bs : forall i sb, 0 <= sb < 8 ->
  find_next_from want bs i sb = -1 \/
  exists j, find_next_from want bs i sb = i * 8 + j /\ 0 <= j < 8 * Z.of_nat (length bs) /\ bit_at bs j = want.
Proof.
  induction bs as [|b bs IH]; intros i sb Hsb; cbn [find_next_from]; [by left|].
  assert (Hlift : forall sb', 0 <= sb' < 8 -> find_next_from want bs (i + 1) sb' = -1 \/
    exists j, find_next_from want bs (i + 1) sb' = i * 8 + j /\ 0 <= j < 8 * Z.of_nat (length (b :: bs)) /\
      bit_at (b :: bs) j = want).
  { intros sb' Hsb'. destruct (IH (i + 1) sb' Hsb') as [->|(j & -> & Hj & Hb)]; [by left | right].
    exists (j + 8). simpl length. split_and!; [lia | lia | lia |].
    rewrite bit_at_cons by lia. destruct (Z.ltb_spec (j + 8) 8); [lia|]. by replace (j + 8 - 8) with j by lia. }
  case_match; [by apply Hlift|].
  pose proof (scan_bits_spec want (Z.to_nat (8 - sb)) (Z.shiftr b sb) sb) as Hs.
  destruct (scan_bits want _ _ _) as [r|]; [right | apply Hlift; lia].
  destruct Hs as (Hr & Hw & _). exists r. simpl length. split_and!; [lia | lia | lia |].
  rewrite bit_at_cons by lia. destruct (Z.ltb_spec r 8); [|lia].
  rewrite Z.shiftr_spec in Hw by lia. rewrite <- Hw. f_equal. lia.
Qed.

Lemma bit_find_next_set_sound bs start_loc :
  0 <= start_loc ->
  bit_find_next_set bs start_loc = -1 \/
  (0 <= bit_find_next_set bs start_loc < 8 * Z.of_nat (length bs) /\
   bit_at bs (bit_find_next_set bs start_loc) = true).
Proof.
  intros H0. unfold bit_find_next_set. pose proof (Z.mod_pos_bound start_loc 8 ltac:(lia)).
  pose proof (Z.div_pos start_loc 8 H0 ltac:(lia)).
  destruct (find_next_from_sound true (drop (Z.to_nat (start_loc / 8)) bs) (start_loc / 8) (start_loc mod 8))
    as [->|(j & -> & Hj & Hb)]; [lia | by left | right].
  rewrite length_drop in Hj. rewrite bit_at_drop in Hb by lia. split; [lia|]. rewrite <- Hb. f_equal. lia.
Qed.

Lemma bit_at_update f bs bit bs' :
  0 <= bit -> bit_update f bs bit = Done bs' ->
  length bs' = length bs /\
  forall j, 0 <= j -> bit_at bs' j =
    if decide (j / 8 = bit / 8) then Z.testbit (f (default 0 (bs !! Z.to_nat (bit / 8))) (bit mod 8)) (j mod 8)
    else bit_at bs j.
Proof.
  intros H0 H. unfold bit_update in H. inv_outcome. apply arr_get_done in Hm as [_ Hm].
  apply arr_set_done in H as [Hl ->]. split; [apply length_insert|]. intros j Hj. unfold bit_at.
  pose proof (Z.div_pos j 8). case_decide as E.
  - rewrite E, list_lookup_insert_eq by lia. by rewrite Hm.
  - rewrite list_lookup_insert_ne by lia. done.
Qed.

Lemma bit_update_total f bs bit :
  0 <= bit < 8 * Z.of_nat (length bs) -> exists bs', bit_update f bs bit = Done bs'.
Proof.
  intros Hb. assert (Hi : 0 <= bit / 8 < Z.of_nat (length bs)) by (Z.div_mod_to_equations; lia).
  unfold bit_update. destruct (arr_get_total bs _ Hi) as [b ->]. obind. eexists. by apply arr_set_total.
Qed.

Lemma bit_set_other bs bit bs' j :
  0 <= bit -> 0 <= j -> j <> bit -> bit_set bs bit = Done bs' -> bit_at bs' j = bit_at bs j.
Proof.
  intros H0 Hj Hne H. apply bit_at_update in H as [_ H]; [|done]. rewrite H by done. case_decide as E; [|done].
  rewrite Z.setbit_neq; [unfold bit_at; by rewrite E | apply Z.mod_pos_bound; lia |].
  intros E'. apply Hne. rewrite (Z.div_mod j 8), (Z.div_mod bit 8) by lia. congruence.
Qed.

Lemma bit_clear_subset bs bit bs' j :
  0 <= bit -> 0 <= j -> bit_clear bs bit = Done bs' -> bit_at bs j = false -> bit_at bs' j = false.
Proof.
  intros H0 Hj H Hf. apply bit_at_update in H as [_ H]; [|done]. rewrite H by done. case_decide as E; [|done].
  rewrite Z.clearbit_eqb. unfold bit_at in Hf. rewrite <- E, Hf. done.
Qed.
