(* ===== verification/VtScroll.v ===== *)
(** The virtual terminal's data (include/protura/drivers/vt.h, screen.h) and the
    operations on its screen buffer (src/drivers/char/vt_scroll.c).  The screen
    is the flat array of [rows * cols] cells the source indexes with [vt_char];
    an access outside of it is a [Fault].  The driver's function pointers are
    [hooks] (whether each is set); calling one is recorded in [calls], as is
    every string given to [tty_add_input]. *)
From stdpp Require Import base numbers list.
From Stdlib Require Import ZArith ZifyBool Lia.
From S2P Require Import Prelude.
Open Scope Z_scope.

Record screen_char : Type := { chr : Z; color : Z }.

Record screen_hooks : Type := {
  move_cursor : bool;
  cursor_on : bool;
  cursor_off : bool;
  refresh : bool;
}.

Inductive vt_call : Type :=
| MoveCursor (row col : Z)
| CursorOn
| CursorOff
| Refresh
| TtyInput (str : list Z).

Inductive vt_state : Type :=
| VT_STATE_BEGIN
| VT_STATE_ESC
| VT_STATE_LBRACKET
| VT_STATE_NUMBERSIGN
| VT_STATE_OPENPAREN
| VT_STATE_CLOSEPAREN.

Definition VT_DISP_BOLD : Z := 0.
Definition VT_DISP_UNDERLINE : Z := 2.
Definition VT_DISP_BLINK : Z := 3.
Definition VT_DISP_REVERSE : Z := 4.
Definition VT_PARAM_MAX : Z := 10.

Definition SCR_BLACK : Z := 0.
Definition SCR_BLUE : Z := 1.
Definition SCR_GREEN : Z := 2.
Definition SCR_CYAN : Z := 3.
Definition SCR_RED : Z := 4.
Definition SCR_MAGENTA : Z := 5.
Definition SCR_YELLOW : Z := 6.
Definition SCR_WHITE : Z := 7.
Definition SCR_BRIGHT : Z := 8.
Definition SCR_DEF_FORGROUND : Z := SCR_WHITE.
Definition SCR_DEF_BACKGROUND : Z := SCR_BLACK.

Definition screen_make_color (fg bg : Z) : Z := u8 (Z.lor (Z.shiftl bg 4) fg).

Record saved_cursor : Type := {
  saved_cur_row : Z;
  saved_cur_col : Z;
  saved_fg_color : Z;
  saved_bg_color : Z;
  saved_cur_attrs : Z;
}.

Record vt : Type := {
  rows : Z;
  cols : Z;
  buf : list screen_char;
  hooks : screen_hooks;
  has_tty : bool;
  cur_row : Z;
  cur_col : Z;
  scroll_top : Z;
  scroll_bottom : Z;
  fg_color : Z;
  bg_color : Z;
  cur_attrs : Z;
  saved : saved_cursor;
  wrap_next : bool;
  dec_private : bool;
  wrap_on : bool;
  cursor_is_on : bool;
  origin_mode : bool;
  insert_mode : bool;
  tab_stops : list Z;
  early_init : bool;
  state : vt_state;
  esc_param_count : Z;
  esc_params : list Z;
  calls : list vt_call;
}.

Definition set_buf (x : list screen_char) (v : vt) : vt :=
  {| rows := rows v; cols := cols v; buf := x; hooks := hooks v; has_tty := has_tty v;
     cur_row := cur_row v; cur_col := cur_col v; scroll_top := scroll_top v;
     scroll_bottom := scroll_bottom v; fg_color := fg_color v; bg_color := bg_color v;
     cur_attrs := cur_attrs v; saved := saved v; wrap_next := wrap_next v;
     dec_private := dec_private v; wrap_on := wrap_on v; cursor_is_on := cursor_is_on v;
     origin_mode := origin_mode v; insert_mode := insert_mode v; tab_stops := tab_stops v;
     early_init := early_init v; state := state v; esc_param_count := esc_param_count v;
     esc_params := esc_params v; calls := calls v |}.
Definition set_cur_row (x : Z) (v : vt) : vt :=
  {| rows := rows v; cols := cols v; buf := buf v; hooks := hooks v; has_tty := has_tty v;
     cur_row := x; cur_col := cur_col v; scroll_top := scroll_top v;
     scroll_bottom := scroll_bottom v; fg_color := fg_color v; bg_color := bg_color v;
     cur_attrs := cur_attrs v; saved := saved v; wrap_next := wrap_next v;
     dec_private := dec_private v; wrap_on := wrap_on v; cursor_is_on := cursor_is_on v;
     origin_mode := origin_mode v; insert_mode := insert_mode v; tab_stops := tab_stops v;
     early_init := early_init v; state := state v; esc_param_count := esc_param_count v;
     esc_params := esc_params v; calls := calls v |}.
Definition set_cur_col (x : Z) (v : vt) : vt :=
  {| rows := rows v; cols := cols v; buf := buf v; hooks := hooks v; has_tty := has_tty v;
     cur_row := cur_row v; cur_col := x; scroll_top := scroll_top v;
     scroll_bottom := scroll_bottom v; fg_color := fg_color v; bg_color := bg_color v;
     cur_attrs := cur_attrs v; saved := saved v; wrap_next := wrap_next v;
     dec_private := dec_private v; wrap_on := wrap_on v; cursor_is_on := cursor_is_on v;
     origin_mode := origin_mode v; insert_mode := insert_mode v; tab_stops := tab_stops v;
     early_init := early_init v; state := state v; esc_param_count := esc_param_count v;
     esc_params := esc_params v; calls := calls v |}.
Definition set_scroll_top (x : Z) (v : vt) : vt :=
  {| rows := rows v; cols := cols v; buf := buf v; hooks := hooks v; has_tty := has_tty v;
     cur_row := cur_row v; cur_col := cur_col v; scroll_top := x;
     scroll_bottom := scroll_bottom v; fg_color := fg_color v; bg_color := bg_color v;
     cur_attrs := cur_attrs v; saved := saved v; wrap_next := wrap_next v;
     dec_private := dec_private v; wrap_on := wrap_on v; cursor_is_on := cursor_is_on v;
     origin_mode := origin_mode v; insert_mode := insert_mode v; tab_stops := tab_stops v;
     early_init := early_init v; state := state v; esc_param_count := esc_param_count v;
     esc_params := esc_params v; calls := calls v |}.
Definition set_scroll_bottom (x : Z) (v : vt) : vt :=
  {| rows := rows v; cols := cols v; buf := buf v; hooks := hooks v; has_tty := has_tty v;
     cur_row := cur_row v; cur_col := cur_col v; scroll_top := scroll_top v;
     scroll_bottom := x; fg_color := fg_color v; bg_color := bg_color v;
     cur_attrs := cur_attrs v; saved := saved v; wrap_next := wrap_next v;
     dec_private := dec_private v; wrap_on := wrap_on v; cursor_is_on := cursor_is_on v;
     origin_mode := origin_mode v; insert_mode := insert_mode v; tab_stops := tab_stops v;
     early_init := early_init v; state := state v; esc_param_count := esc_param_count v;
     esc_params := esc_params v; calls := calls v |}.
Definition set_fg_color (x : Z) (v : vt) : vt :=
  {| rows := rows v; cols := cols v; buf := buf v; hooks := hooks v; has_tty := has_tty v;
     cur_row := cur_row v; cur_col := cur_col v; scroll_top := scroll_top v;
     scroll_bottom := scroll_bottom v; fg_color := x; bg_color := bg_color v;
     cur_attrs := cur_attrs v; saved := saved v; wrap_next := wrap_next v;
     dec_private := dec_private v; wrap_on := wrap_on v; cursor_is_on := cursor_is_on v;
     origin_mode := origin_mode v; insert_mode := insert_mode v; tab_stops := tab_stops v;
     early_init := early_init v; state := state v; esc_param_count := esc_param_count v;
     esc_params := esc_params v; calls := calls v |}.
Definition set_bg_color (x : Z) (v : vt) : vt :=
  {| rows := rows v; cols := cols v; buf := buf v; hooks := hooks v; has_tty := has_tty v;
     cur_row := cur_row v; cur_col := cur_col v; scroll_top := scroll_top v;
     scroll_bottom := scroll_bottom v; fg_color := fg_color v; bg_color := x;
     cur_attrs := cur_attrs v; saved := saved v; wrap_next := wrap_next v;
     dec_private := dec_private v; wrap_on := wrap_on v; cursor_is_on := cursor_is_on v;
     origin_mode := origin_mode v; insert_mode := insert_mode v; tab_stops := tab_stops v;
     early_init := early_init v; state := state v; esc_param_count := esc_param_count v;
     esc_params := esc_params v; calls := calls v |}.
Definition set_cur_attrs (x : Z) (v : vt) : vt :=
  {| rows := rows v; cols := cols v; buf := buf v; hooks := hooks v; has_tty := has_tty v;
     cur_row := cur_row v; cur_col := cur_col v; scroll_top := scroll_top v;
     scroll_bottom := scroll_bottom v; fg_color := fg_color v; bg_color := bg_color v;
     cur_attrs := x; saved := saved v; wrap_next := wrap_next v;
     dec_private := dec_private v; wrap_on := wrap_on v; cursor_is_on := cursor_is_on v;
     origin_mode := origin_mode v; insert_mode := insert_mode v; tab_stops := tab_stops v;
     early_init := early_init v; state := state v; esc_param_count := esc_param_count v;
     esc_params := esc_params v; calls := calls v |}.
Definition set_saved (x : saved_cursor) (v : vt) : vt :=
  {| rows := rows v; cols := cols v; buf := buf v; hooks := hooks v; has_tty := has_tty v;
     cur_row := cur_row v; cur_col := cur_col v; scroll_top := scroll_top v;
     scroll_bottom := scroll_bottom v; fg_color := fg_color v; bg_color := bg_color v;
     cur_attrs := cur_attrs v; saved := x; wrap_next := wrap_next v;
     dec_private := dec_private v; wrap_on := wrap_on v; cursor_is_on := cursor_is_on v;
     origin_mode := origin_mode v; insert_mode := insert_mode v; tab_stops := tab_stops v;
     early_init := early_init v; state := state v; esc_param_count := esc_param_count v;
     esc_params := esc_params v; calls := calls v |}.
Definition set_wrap_next (x : bool) (v : vt) : vt :=
  {| rows := rows v; cols := cols v; buf := buf v; hooks := hooks v; has_tty := has_tty v;
     cur_row := cur_row v; cur_col := cur_col v; scroll_top := scroll_top v;
     scroll_bottom := scroll_bottom v; fg_color := fg_color v; bg_color := bg_color v;
     cur_attrs := cur_attrs v; saved := saved v; wrap_next := x;
     dec_private := dec_private v; wrap_on := wrap_on v; cursor_is_on := cursor_is_on v;
     origin_mode := origin_mode v; insert_mode := insert_mode v; tab_stops := tab_stops v;
     early_init := early_init v; state := state v; esc_param_count := esc_param_count v;
     esc_params := esc_params v; calls := calls v |}.
Definition set_dec_private (x : bool) (v : vt) : vt :=
  {| rows := rows v; cols := cols v; buf := buf v; hooks := hooks v; has_tty := has_tty v;
     cur_row := cur_row v; cur_col := cur_col v; scroll_top := scroll_top v;
     scroll_bottom := scroll_bottom v; fg_color := fg_color v; bg_color := bg_color v;
     cur_attrs := cur_attrs v; saved := saved v; wrap_next := wrap_next v;
     dec_private := x; wrap_on := wrap_on v; cursor_is_on := cursor_is_on v;
     origin_mode := origin_mode v; insert_mode := insert_mode v; tab_stops := tab_stops v;
     early_init := early_init v; state := state v; esc_param_count := esc_param_count v;
     esc_params := esc_params v; calls := calls v |}.
Definition set_wrap_on (x : bool) (v : vt) : vt :=
  {| rows := rows v; cols := cols v; buf := buf v; hooks := hooks v; has_tty := has_tty v;
     cur_row := cur_row v; cur_col := cur_col v; scroll_top := scroll_top v;
     scroll_bottom := scroll_bottom v; fg_color := fg_color v; bg_color := bg_color v;
     cur_attrs := cur_attrs v; saved := saved v; wrap_next := wrap_next v;
     dec_private := dec_private v; wrap_on := x; cursor_is_on := cursor_is_on v;
     origin_mode := origin_mode v; insert_mode := insert_mode v; tab_stops := tab_stops v;
     early_init := early_init v; state := state v; esc_param_count := esc_param_count v;
     esc_params := esc_params v; calls := calls v |}.
Definition set_cursor_is_on (x : bool) (v : vt) : vt :=
  {| rows := rows v; cols := cols v; buf := buf v; hooks := hooks v; has_tty := has_tty v;
     cur_row := cur_row v; cur_col := cur_col v; scroll_top := scroll_top v;
     scroll_bottom := scroll_bottom v; fg_color := fg_color v; bg_color := bg_color v;
     cur_attrs := cur_attrs v; saved := saved v; wrap_next := wrap_next v;
     dec_private := dec_private v; wrap_on := wrap_on v; cursor_is_on := x;
     origin_mode := origin_mode v; insert_mode := insert_mode v; tab_stops := tab_stops v;
     early_init := early_init v; state := state v; esc_param_count := esc_param_count v;
     esc_params := esc_params v; calls := calls v |}.
Definition set_origin_mode (x : bool) (v : vt) : vt :=
  {| rows := rows v; cols := cols v; buf := buf v; hooks := hooks v; has_tty := has_tty v;
     cur_row := cur_row v; cur_col := cur_col v; scroll_top := scroll_top v;
     scroll_bottom := scroll_bottom v; fg_color := fg_color v; bg_color := bg_color v;
     cur_attrs := cur_attrs v; saved := saved v; wrap_next := wrap_next v;
     dec_private := dec_private v; wrap_on := wrap_on v; cursor_is_on := cursor_is_on v;
     origin_mode := x; insert_mode := insert_mode v; tab_stops := tab_stops v;
     early_init := early_init v; state := state v; esc_param_count := esc_param_count v;
     esc_params := esc_params v; calls := calls v |}.
Definition set_insert_mode (x : bool) (v : vt) : vt :=
  {| rows := rows v; cols := cols v; buf := buf v; hooks := hooks v; has_tty := has_tty v;
     cur_row := cur_row v; cur_col := cur_col v; scroll_top := scroll_top v;
     scroll_bottom := scroll_bottom v; fg_color := fg_color v; bg_color := bg_color v;
     cur_attrs := cur_attrs v; saved := saved v; wrap_next := wrap_next v;
     dec_private := dec_private v; wrap_on := wrap_on v; cursor_is_on := cursor_is_on v;
     origin_mode := origin_mode v; insert_mode := x; tab_stops := tab_stops v;
     early_init := early_init v; state := state v; esc_param_count := esc_param_count v;
     esc_params := esc_params v; calls := calls v |}.
Definition set_tab_stops (x : list Z) (v : vt) : vt :=
  {| rows := rows v; cols := cols v; buf := buf v; hooks := hooks v; has_tty := has_tty v;
     cur_row := cur_row v; cur_col := cur_col v; scroll_top := scroll_top v;
     scroll_bottom := scroll_bottom v; fg_color := fg_color v; bg_color := bg_color v;
     cur_attrs := cur_attrs v; saved := saved v; wrap_next := wrap_next v;
     dec_private := dec_private v; wrap_on := wrap_on v; cursor_is_on := cursor_is_on v;
     origin_mode := origin_mode v; insert_mode := insert_mode v; tab_stops := x;
     early_init := early_init v; state := state v; esc_param_count := esc_param_count v;
     esc_params := esc_params v; calls := calls v |}.
Definition set_early_init (x : bool) (v : vt) : vt :=
  {| rows := rows v; cols := cols v; buf := buf v; hooks := hooks v; has_tty := has_tty v;
     cur_row := cur_row v; cur_col := cur_col v; scroll_top := scroll_top v;
     scroll_bottom := scroll_bottom v; fg_color := fg_color v; bg_color := bg_color v;
     cur_attrs := cur_attrs v; saved := saved v; wrap_next := wrap_next v;
     dec_private := dec_private v; wrap_on := wrap_on v; cursor_is_on := cursor_is_on v;
     origin_mode := origin_mode v; insert_mode := insert_mode v; tab_stops := tab_stops v;
     early_init := x; state := state v; esc_param_count := esc_param_count v;
     esc_params := esc_params v; calls := calls v |}.
Definition set_state (x : vt_state) (v : vt) : vt :=
  {| rows := rows v; cols := cols v; buf := buf v; hooks := hooks v; has_tty := has_tty v;
     cur_row := cur_row v; cur_col := cur_col v; scroll_top := scroll_top v;
     scroll_bottom := scroll_bottom v; fg_color := fg_color v; bg_color := bg_color v;
     cur_attrs := cur_attrs v; saved := saved v; wrap_next := wrap_next v;
     dec_private := dec_private v; wrap_on := wrap_on v; cursor_is_on := cursor_is_on v;
     origin_mode := origin_mode v; insert_mode := insert_mode v; tab_stops := tab_stops v;
     early_init := early_init v; state := x; esc_param_count := esc_param_count v;
     esc_params := esc_params v; calls := calls v |}.
Definition set_esc_param_count (x : Z) (v : vt) : vt :=
  {| rows := rows v; cols := cols v; buf := buf v; hooks := hooks v; has_tty := has_tty v;
     cur_row := cur_row v; cur_col := cur_col v; scroll_top := scroll_top v;
     scroll_bottom := scroll_bottom v; fg_color := fg_color v; bg_color := bg_color v;
     cur_attrs := cur_attrs v; saved := saved v; wrap_next := wrap_next v;
     dec_private := dec_private v; wrap_on := wrap_on v; cursor_is_on := cursor_is_on v;
     origin_mode := origin_mode v; insert_mode := insert_mode v; tab_stops := tab_stops v;
     early_init := early_init v; state := state v; esc_param_count := x;
     esc_params := esc_params v; calls := calls v |}.
Definition set_esc_params (x : list Z) (v : vt) : vt :=
  {| rows := rows v; cols := cols v; buf := buf v; hooks := hooks v; has_tty := has_tty v;
     cur_row := cur_row v; cur_col := cur_col v; scroll_top := scroll_top v;
     scroll_bottom := scroll_bottom v; fg_color := fg_color v; bg_color := bg_color v;
     cur_attrs := cur_attrs v; saved := saved v; wrap_next := wrap_next v;
     dec_private := dec_private v; wrap_on := wrap_on v; cursor_is_on := cursor_is_on v;
     origin_mode := origin_mode v; insert_mode := insert_mode v; tab_stops := tab_stops v;
     early_init := early_init v; state := state v; esc_param_count := esc_param_count v;
     esc_params := x; calls := calls v |}.
Definition set_calls (x : list vt_call) (v : vt) : vt :=
  {| rows := rows v; cols := cols v; buf := buf v; hooks := hooks v; has_tty := has_tty v;
     cur_row := cur_row v; cur_col := cur_col v; scroll_top := scroll_top v;
     scroll_bottom := scroll_bottom v; fg_color := fg_color v; bg_color := bg_color v;
     cur_attrs := cur_attrs v; saved := saved v; wrap_next := wrap_next v;
     dec_private := dec_private v; wrap_on := wrap_on v; cursor_is_on := cursor_is_on v;
     origin_mode := origin_mode v; insert_mode := insert_mode v; tab_stops := tab_stops v;
     early_init := early_init v; state := state v; esc_param_count := esc_param_count v;
     esc_params := esc_params v; calls := x |}.

(** [*vt_char(vt, r, c) = x] *)
Definition vt_char_set (v : vt) (r c : Z) (x : screen_char) : outcome vt :=
  b ← arr_set (buf v) (r * cols v + c) x;
  Done (set_buf b v).

(** [memmove] of [n] cells between two offsets of the buffer. *)
Definition buf_memmove (v : vt) (dst src n : Z) : outcome vt :=
  cells ← arr_slice (buf v) src n;
  b ← arr_blit (buf v) dst cells;
  Done (set_buf b v).

(** [for (c = c0; c < c0 + n; c++) *vt_char(vt, r, c) = x] *)
Fixpoint fill_cols (n : nat) (v : vt) (r c : Z) (x : screen_char) : outcome vt :=
  match n with
  | O => Done v
  | S n' => v ← vt_char_set v r c x; fill_cols n' v r (c + 1) x
  end.

(** [n] full rows upwards from [r], and downwards from [r]. *)
Fixpoint fill_rows (n : nat) (v : vt) (r : Z) (x : screen_char) : outcome vt :=
  match n with
  | O => Done v
  | S n' => v ← fill_cols (Z.to_nat (cols v)) v r 0 x; fill_rows n' v (r + 1) x
  end.

Fixpoint fill_rows_down (n : nat) (v : vt) (r : Z) (x : screen_char) : outcome vt :=
  match n with
  | O => Done v
  | S n' => v ← fill_cols (Z.to_nat (cols v)) v r 0 x; fill_rows_down n' v (r - 1) x
  end.

Definition blank : screen_char :=
  {| chr := 32; color := screen_make_color SCR_DEF_FORGROUND SCR_DEF_BACKGROUND |}.

Definition vt_clear_color (v : vt) (c : Z) : outcome vt :=
  fill_rows (Z.to_nat (rows v)) v 0 {| chr := 32; color := c |}.

Definition vt_clear_to_end (v : vt) : outcome vt :=
  let r := cur_row v in
  if r <? rows v then
    v ← fill_cols (Z.to_nat (cols v - cur_col v)) v r (cur_col v) blank;
    fill_rows (Z.to_nat (rows v - r - 1)) v (r + 1) blank
  else Done v.

Definition vt_clear_to_cursor (v : vt) : outcome vt :=
  if cur_row v <? 0 then Done v
  else
    v ← fill_rows (Z.to_nat (cur_row v)) v 0 blank;
    fill_cols (Z.to_nat (cur_col v + 1)) v (cur_row v) 0 blank.

Definition vt_clear_line_to_end (v : vt) : outcome vt :=
  fill_cols (Z.to_nat (cols v - cur_col v)) v (cur_row v) (cur_col v) blank.

Definition vt_clear_line_to_cursor (v : vt) : outcome vt :=
  fill_cols (Z.to_nat (cur_col v + 1)) v (cur_row v) 0 blank.

Definition vt_clear_line (v : vt) : outcome vt :=
  fill_cols (Z.to_nat (cols v)) v (cur_row v) 0 blank.

Definition vt_clear (v : vt) : outcome vt :=
  vt_clear_color v (screen_make_color SCR_DEF_FORGROUND SCR_DEF_BACKGROUND).

Definition call (c : vt_call) (v : vt) : vt := set_calls (calls v ++ [c]) v.

Definition vt_updatecur (v : vt) : vt :=
  if move_cursor (hooks v) then call (MoveCursor (cur_row v) (cur_col v)) v else v.

Definition vt_scroll (v : vt) (lines : Z) : outcome vt :=
  let min_row := scroll_top v in
  let max_row := scroll_bottom v in
  if lines <=? 0 then Done v
  else
    let total_scroll_lines := max_row - min_row in
    let lines := if total_scroll_lines <? lines then total_scroll_lines else lines in
    v ← (if lines <? total_scroll_lines
         then buf_memmove v (min_row * cols v) ((lines + min_row) * cols v) (cols v * (max_row - lines))
         else Done v);
    fill_rows_down (Z.to_nat lines) v (max_row - 1) blank.

Definition vt_scroll_from_cursor (v : vt) (lines : Z) : outcome vt :=
  let max_row := scroll_bottom v in
  let start_row := cur_row v in
  let total_rows := max_row - start_row in
  let lines := if total_rows <? lines then total_rows else lines in
  v ← (if lines <? total_rows
       then buf_memmove v (start_row * cols v) ((start_row + lines) * cols v) (cols v * (total_rows - lines))
       else Done v);
  fill_rows (Z.to_nat lines) v (max_row - lines) blank.

Definition vt_scroll_up_from_cursor (v : vt) (lines : Z) : outcome vt :=
  let max_row := scroll_bottom v in
  let start_row := cur_row v in
  let total_rows := max_row - start_row in
  let lines := if total_rows <? lines then total_rows else lines in
  v ← (if lines <? total_rows
       then buf_memmove v ((start_row + lines) * cols v) (start_row * cols v) (cols v * (total_rows - lines))
       else Done v);
  fill_rows (Z.to_nat lines) v start_row blank.

Definition vt_shift_left_from_cursor (v : vt) (chars : Z) : outcome vt :=
  let start_col := cur_col v in
  let total_cols := cols v - start_col in
  let chars := if total_cols <? chars then total_cols else chars in
  v ← (if chars <? total_cols
       then buf_memmove v (cur_row v * cols v + start_col) (cur_row v * cols v + (start_col + chars))
              (total_cols - chars)
       else Done v);
  fill_cols (Z.to_nat chars) v (cur_row v) (cols v - chars) blank.

Definition vt_shift_right_from_cursor (v : vt) (chars : Z) : outcome vt :=
  let start_col := cur_col v in
  let total_cols := cols v - start_col in
  let chars := if total_cols <? chars then total_cols else chars in
  v ← (if chars <? total_cols
       then buf_memmove v (cur_row v * cols v + (start_col + chars)) (cur_row v * cols v + start_col)
              (cols v - chars - start_col)
       else Done v);
  fill_cols (Z.to_nat chars) v (cur_row v) (cur_col v) blank.

(** * Reasoning about the buffer *)

(** A screen whose buffer has the size its dimensions say. *)
Definition wf_screen (v : vt) : Prop :=
  0 < rows v /\ 0 < cols v /\ Z.of_nat (length (buf v)) = rows v * cols v.

Definition cell (v : vt) (r c : Z) : option screen_char := buf v !! Z.to_nat (r * cols v + c).

Lemma set_buf_same v : set_buf (buf v) v = v.
Proof. by destruct v. Qed.

Lemma set_buf_set_buf b b' v : set_buf b (set_buf b' v) = set_buf b v.
Proof. done. Qed.

Lemma fill_cols_done n : forall v r c x,
  0 <= r * cols v + c -> r * cols v + c + Z.of_nat n <= Z.of_nat (length (buf v)) ->
  fill_cols n v r c x =
  Done (set_buf (splice (buf v) (Z.to_nat (r * cols v + c)) (replicate n x)) v).
Proof.
  induction n as [|n IH]; intros v r c x H0 Hn; cbn [fill_cols].
  - cbn [replicate]. by rewrite splice_nil, set_buf_same.
  - unfold vt_char_set. rewrite arr_set_total by lia. obind.
    rewrite IH by (cbn [cols buf set_buf]; rewrite ?length_insert; lia).
    cbn [cols buf set_buf]. rewrite set_buf_set_buf. do 2 f_equal.
    replace (Z.to_nat (r * cols v + (c + 1))) with (S (Z.to_nat (r * cols v + c))) by lia.
    apply splice_insert. rewrite length_replicate. lia.
Qed.

Lemma fill_rows_done n : forall v r x,
  0 <= r -> 0 < cols v -> (r + Z.of_nat n) * cols v <= Z.of_nat (length (buf v)) ->
  fill_rows n v r x =
  Done (set_buf (splice (buf v) (Z.to_nat (r * cols v)) (replicate (n * Z.to_nat (cols v)) x)) v).
Proof.
  induction n as [|n IH]; intros v r x H0 Hc Hn; cbn [fill_rows].
  - cbn [Nat.mul replicate]. by rewrite splice_nil, set_buf_same.
  - rewrite fill_cols_done by nia. obind. rewrite Z.add_0_r.
    rewrite IH; cbn [cols buf set_buf]; [|lia | lia | rewrite length_splice by (rewrite length_replicate; nia); nia].
    rewrite set_buf_set_buf. do 2 f_equal. replace (Z.to_nat ((r + 1) * cols v)) with
      (Z.to_nat (r * cols v) + length (replicate (Z.to_nat (cols v)) x))%nat by (rewrite length_replicate; nia).
    rewrite splice_splice by (rewrite !length_replicate; nia). by rewrite <- replicate_add.
Qed.

Lemma splice_splice_before {A} (l : list A) i s1 s2 :
  (i + length s1 + length s2 <= length l)%nat ->
  splice (splice l (i + length s1) s2) i s1 = splice l i (s1 ++ s2).
Proof.
  intros H. apply list_eq. intros k.
  rewrite !lookup_splice by (rewrite ?length_splice, ?length_app; lia).
  rewrite length_app. repeat case_decide; try lia; try done.
  - by rewrite lookup_app_l by lia.
  - rewrite lookup_app_r by lia. f_equal. lia.
Qed.

Lemma fill_rows_down_done n : forall v r x,
  0 < cols v -> Z.of_nat n <= r + 1 -> (r + 1) * cols v <= Z.of_nat (length (buf v)) ->
  fill_rows_down n v r x =
  Done (set_buf (splice (buf v) (Z.to_nat ((r + 1 - Z.of_nat n) * cols v)) (replicate (n * Z.to_nat (cols v)) x)) v).
Proof.
  induction n as [|n IH]; intros v r x Hc Hn Hl; cbn [fill_rows_down].
  - cbn [Nat.mul replicate]. by rewrite splice_nil, set_buf_same.
  - rewrite fill_cols_done by nia. obind. rewrite Z.add_0_r.
    rewrite IH; cbn [cols buf set_buf]; [|lia | lia | rewrite length_splice by (rewrite length_replicate; nia); nia].
    rewrite set_buf_set_buf. do 2 f_equal. replace (Z.to_nat (r * cols v)) with
      (Z.to_nat ((r + 1 - Z.of_nat (S n)) * cols v) + length (replicate (n * Z.to_nat (cols v)) x))%nat
      by (rewrite length_replicate; nia).
    replace (r - 1 + 1 - Z.of_nat n) with (r + 1 - Z.of_nat (S n)) by lia.
    rewrite splice_splice_before by (rewrite !length_replicate; nia). rewrite <- replicate_add.
    do 2 f_equal. lia.
Qed.

Lemma buf_memmove_done v dst src n :
  0 <= dst -> 0 <= src -> 0 <= n -> dst + n <= Z.of_nat (length (buf v)) ->
  src + n <= Z.of_nat (length (buf v)) ->
  buf_memmove v dst src n =
  Done (set_buf (splice (buf v) (Z.to_nat dst) (take (Z.to_nat n) (drop (Z.to_nat src) (buf v)))) v).
Proof.
  intros. unfold buf_memmove. rewrite arr_slice_done by lia. obind.
  rewrite arr_blit_done; [done | lia | rewrite length_take, length_drop; lia].
Qed.

(** Where a cell lies relative to a block of rows or to a run inside a row. *)
Lemma row_le w r c r1 : 0 <= c < w -> (r1 * w <= r * w + c <-> r1 <= r).
Proof. intros. split; intros; [destruct (Z.le_gt_cases r1 r); [done | nia] | nia]. Qed.

Lemma row_block w r c r1 r2 :
  0 <= c < w -> (r1 * w <= r * w + c < r2 * w <-> r1 <= r < r2).
Proof.
  intros. pose proof (row_le w r c r1). pose proof (row_le w r c r2). lia.
Qed.

Lemma row_run w r c r0 c1 c2 :
  0 <= c < w -> 0 <= c1 -> c2 <= w -> (r0 * w + c1 <= r * w + c < r0 * w + c2 <-> r = r0 /\ c1 <= c < c2).
Proof.
  intros. split; [|intros [-> ?]; lia]. intros Hr.
  assert (r = r0); [|subst; lia].
  pose proof (row_le w r c r0). pose proof (row_le w r c (r0 + 1)). lia.
Qed.

(** [k] lies in the cells overwritten at [off]. *)
Lemma lookup_splice_Z {A} (l : list A) off src k :
  0 <= off -> 0 <= k -> off + Z.of_nat (length src) <= Z.of_nat (length l) ->
  splice l (Z.to_nat off) src !! Z.to_nat k =
  if decide (off <= k < off + Z.of_nat (length src)) then src !! Z.to_nat (k - off) else l !! Z.to_nat k.
Proof.
  intros. rewrite lookup_splice by lia. repeat case_decide; try lia; [|done]. f_equal. lia.
Qed.

(** A block of [n] rows of the screen copied from row [src] to row [dst]. *)
Lemma memmove_rows v dst src n :
  wf_screen v -> 0 <= dst -> 0 <= src -> 0 <= n -> dst + n <= rows v -> src + n <= rows v ->
  exists v', buf_memmove v (dst * cols v) (src * cols v) (cols v * n) = Done v' /\
    (exists b, v' = set_buf b v) /\ wf_screen v' /\
    forall r c, 0 <= r -> 0 <= c < cols v ->
      cell v' r c = if decide (dst <= r < dst + n) then cell v (r - dst + src) c else cell v r c.
Proof.
  intros (Hr & Hc & Hl) Hd Hs Hn Hdr Hsr. rewrite buf_memmove_done by nia.
  assert (Hlen : Z.of_nat (length (take (Z.to_nat (cols v * n)) (drop (Z.to_nat (src * cols v)) (buf v)))) = cols v * n)
    by (rewrite length_take, length_drop; nia).
  eexists. split; [done|]. split; [by eexists|]. split.
  - unfold wf_screen. cbn [rows cols buf set_buf]. rewrite length_splice by nia. done.
  - intros r c Hr0 Hc0. unfold cell. cbn [cols buf set_buf].
    rewrite lookup_splice_Z by nia. rewrite Hlen.
    replace (dst * cols v + cols v * n) with ((dst + n) * cols v) by lia.
    pose proof (row_block (cols v) r c dst (dst + n) Hc0). repeat case_decide; try lia; [|done].
    rewrite lookup_take_lt by nia. rewrite lookup_drop. f_equal. nia.
Qed.

(** [n] rows from row [r0] filled with [x]. *)
Definition rows_filled (v v' : vt) (r0 n : Z) (x : screen_char) : Prop :=
  (exists b, v' = set_buf b v) /\ wf_screen v' /\
  forall r c, 0 <= r -> 0 <= c < cols v ->
    cell v' r c = if decide (r0 <= r < r0 + n) then Some x else cell v r c.

Lemma splice_rows_filled v r0 n x :
  wf_screen v -> 0 <= r0 -> 0 <= n -> r0 + n <= rows v ->
  rows_filled v (set_buf (splice (buf v) (Z.to_nat (r0 * cols v)) (replicate (Z.to_nat n * Z.to_nat (cols v)) x)) v) r0 n x.
Proof.
  intros (Hr & Hc & Hl) H0 Hn Hrn. split; [by eexists|]. split.
  - unfold wf_screen. cbn [rows cols buf set_buf]. rewrite length_splice by (rewrite length_replicate; nia). done.
  - intros r c Hr0 Hc0. unfold cell. cbn [cols buf set_buf].
    rewrite lookup_splice_Z by (rewrite ?length_replicate; nia). rewrite length_replicate.
    replace (r0 * cols v + Z.of_nat (Z.to_nat n * Z.to_nat (cols v))) with ((r0 + n) * cols v) by nia.
    pose proof (row_block (cols v) r c r0 (r0 + n) Hc0). repeat case_decide; try lia; [|done].
    apply lookup_replicate_2. nia.
Qed.

Lemma fill_rows_filled v r0 n x :
  wf_screen v -> 0 <= r0 -> 0 <= n -> r0 + n <= rows v ->
  exists v', fill_rows (Z.to_nat n) v r0 x = Done v' /\ rows_filled v v' r0 n x.
Proof.
  intros Hw H0 Hn Hrn. pose proof Hw as (Hr & Hc & Hl). rewrite fill_rows_done by nia.
  eexists. split; [done|]. by apply splice_rows_filled.
Qed.

Lemma fill_rows_down_filled v r0 n x :
  wf_screen v -> 0 <= n -> n <= r0 + 1 -> r0 < rows v ->
  exists v', fill_rows_down (Z.to_nat n) v r0 x = Done v' /\ rows_filled v v' (r0 + 1 - n) n x.
Proof.
  intros Hw Hn H0 Hrn. pose proof Hw as (Hr & Hc & Hl). rewrite fill_rows_down_done by nia.
  eexists. split; [done|]. rewrite Z2Nat.id by lia. apply splice_rows_filled; auto; lia.
Qed.

(** [n] cells of row [r0] from column [c0] filled with [x]. *)
Definition cols_filled (v v' : vt) (r0 c0 n : Z) (x : screen_char) : Prop :=
  (exists b, v' = set_buf b v) /\ wf_screen v' /\
  forall r c, 0 <= r -> 0 <= c < cols v ->
    cell v' r c = if decide (r = r0 /\ c0 <= c < c0 + n) then Some x else cell v r c.

Lemma fill_cols_filled v r0 c0 n x :
  wf_screen v -> 0 <= r0 < rows v -> 0 <= c0 -> 0 <= n -> c0 + n <= cols v ->
  exists v', fill_cols (Z.to_nat n) v r0 c0 x = Done v' /\ cols_filled v v' r0 c0 n x.
Proof.
  intros Hw H0 Hc0 Hn Hcn. pose proof Hw as (Hr & Hc & Hl). rewrite fill_cols_done by nia.
  eexists. split; [done|]. split; [by eexists|]. split.
  - unfold wf_screen. cbn [rows cols buf set_buf]. rewrite length_splice by (rewrite length_replicate; nia). done.
  - intros r c Hr0 Hcc. unfold cell. cbn [cols buf set_buf].
    rewrite lookup_splice_Z by (rewrite ?length_replicate; nia). rewrite length_replicate, Z2Nat.id by lia.
    rewrite <- Z.add_assoc. pose proof (row_run (cols v) r c r0 c0 (c0 + n) Hcc Hc0 ltac:(lia)).
    repeat case_decide; try lia; [|done]. apply lookup_replicate_2. nia.
Qed.

(** A run of [n] cells of row [r0] copied from column [src] to column [dst]. *)
Lemma memmove_cols v r0 dst src n :
  wf_screen v -> 0 <= r0 < rows v -> 0 <= dst -> 0 <= src -> 0 <= n -> dst + n <= cols v -> src + n <= cols v ->
  exists v', buf_memmove v (r0 * cols v + dst) (r0 * cols v + src) n = Done v' /\
    (exists b, v' = set_buf b v) /\ wf_screen v' /\
    forall r c, 0 <= r -> 0 <= c < cols v ->
      cell v' r c = if decide (r = r0 /\ dst <= c < dst + n) then cell v r (c - dst + src) else cell v r c.
Proof.
  intros (Hr & Hc & Hl) H0 Hd Hs Hn Hdr Hsr. rewrite buf_memmove_done by nia.
  assert (Hlen : Z.of_nat (length (take (Z.to_nat n) (drop (Z.to_nat (r0 * cols v + src)) (buf v)))) = n)
    by (rewrite length_take, length_drop; nia).
  eexists. split; [done|]. split; [by eexists|]. split.
  - unfold wf_screen. cbn [rows cols buf set_buf]. rewrite length_splice by nia. done.
  - intros r c Hr0 Hcc. unfold cell. cbn [cols buf set_buf].
    rewrite lookup_splice_Z by nia. rewrite Hlen, <- Z.add_assoc.
    pose proof (row_run (cols v) r c r0 dst (dst + n) Hcc Hd ltac:(lia)). repeat case_decide; try lia; [|done].
    rewrite lookup_take_lt by nia. rewrite lookup_drop. f_equal. destruct_and!. subst. nia.
Qed.

(** * The scrolling operations *)

(** [v'] is [v] with another buffer of the same size, whose cells are [f]. *)
Definition redrawn (v v' : vt) (f : Z -> Z -> option screen_char) : Prop :=
  (exists b, v' = set_buf b v) /\ wf_screen v' /\
  forall r c, 0 <= r -> 0 <= c < cols v -> cell v' r c = f r c.

Lemma redrawn_same v : wf_screen v -> redrawn v v (cell v).
Proof. intros Hw. split; [exists (buf v); by rewrite set_buf_same|]. by split. Qed.

Lemma redrawn_trans v1 v2 v3 f g h :
  redrawn v1 v2 f -> redrawn v2 v3 g ->
  (forall r c, 0 <= r -> 0 <= c < cols v1 -> g r c = h r c) -> redrawn v1 v3 h.
Proof.
  intros ([b1 ->] & Hw1 & Hf) ([b2 ->] & Hw2 & Hg) Hh. split; [by exists b2|]. split; [done|].
  intros r c Hr Hc. rewrite Hg by done. by apply Hh.
Qed.

(** [set_buf] leaves the geometry and the cursor alone. *)
Ltac same_geometry :=
  repeat match goal with H : redrawn ?v ?v' _ |- _ =>
    lazymatch goal with
    | _ : cols v' = cols v |- _ => fail
    | _ => assert (cols v' = cols v /\ rows v' = rows v /\ cur_row v' = cur_row v /\ cur_col v' = cur_col v /\
             scroll_top v' = scroll_top v /\ scroll_bottom v' = scroll_bottom v) as (? & ? & ? & ? & ? & ?)
             by (destruct H as ([? ->] & _); done)
    end
  end.

Lemma memmove_rows_redrawn v dst src n :
  wf_screen v -> 0 <= dst -> 0 <= src -> 0 <= n -> dst + n <= rows v -> src + n <= rows v ->
  exists v', buf_memmove v (dst * cols v) (src * cols v) (cols v * n) = Done v' /\
    redrawn v v' (fun r c => if decide (dst <= r < dst + n) then cell v (r - dst + src) c else cell v r c).
Proof.
  intros. destruct (memmove_rows v dst src n) as (v' & E & Hb & Hw & Hf); auto. exists v'. split; [done|]. by split.
Qed.

Lemma vt_scroll_spec v lines :
  wf_screen v -> scroll_top v = 0 -> 0 < scroll_bottom v <= rows v -> 0 < lines ->
  let l := Z.min lines (scroll_bottom v) in
  exists v', vt_scroll v lines = Done v' /\
    redrawn v v' (fun r c => if r <? scroll_bottom v - l then cell v (r + l) c
                             else if r <? scroll_bottom v then Some blank else cell v r c).
Proof.
  intros Hw Ht Hb Hl l. unfold vt_scroll. rewrite Ht. rewrite (proj2 (Z.leb_gt _ _)) by lia.
  set (l' := if _ <? lines then _ else lines). assert (l' = l) as -> by (subst l l'; case_match; lia).
  assert (Hl' : 0 < l <= scroll_bottom v) by lia. clearbody l.
  set (m := if l <? _ then _ else _).
  assert (exists v1, m = Done v1 /\
    redrawn v v1 (fun r c => if decide (0 <= r < scroll_bottom v - l) then cell v (r + l) c else cell v r c)) as (v1 & E & R1).
  { subst m. destruct (Z.ltb_spec l (scroll_bottom v - 0)).
    - destruct (memmove_rows_redrawn v 0 l (scroll_bottom v - l)) as (v1 & E & R); auto; try lia.
      exists v1. replace (l + 0) with l by lia. split; [done|]. destruct R as (? & ? & Hf). split_and!; auto.
      intros r c Hr Hc. rewrite Hf by done. repeat case_decide; try lia; [|done]. f_equal. lia.
    - exists v. split; [done|]. destruct (redrawn_same v Hw) as (? & ? & _). split_and!; auto.
      intros r c Hr Hc. case_decide; [lia | done]. }
  rewrite E. obind. same_geometry.
  destruct (fill_rows_down_filled v1 (scroll_bottom v - 1) l blank) as (v' & -> & R2); [apply R1 | lia.. |].
  exists v'. split; [done|]. eapply redrawn_trans; [exact R1 | exact R2 |].
  intros r c Hr Hc. simpl. destruct R1 as (_ & _ & Hf). rewrite Hf by done.
  repeat case_decide; repeat case_match; try lia; done.
Qed.

(** Deleting [lines] lines at the cursor pulls the rest of the region up. *)
Lemma vt_scroll_from_cursor_spec v lines :
  wf_screen v -> 0 <= cur_row v -> scroll_bottom v <= rows v -> 0 <= lines ->
  let l := Z.min lines (scroll_bottom v - cur_row v) in
  exists v', vt_scroll_from_cursor v lines = Done v' /\
    redrawn v v' (fun r c => if (cur_row v <=? r) && (r <? scroll_bottom v - l) then cell v (r + l) c
                             else if (cur_row v <=? r) && (r <? scroll_bottom v) then Some blank else cell v r c).
Proof.
  intros Hw Hr0 Hb Hl l. unfold vt_scroll_from_cursor.
  set (l' := if _ <? lines then _ else lines). assert (l' = l) as -> by (subst l l'; case_match; lia).
  assert (Hl' : l <= scroll_bottom v - cur_row v /\ (0 <= l \/ l = scroll_bottom v - cur_row v)) by lia. clearbody l.
  destruct (Z.ltb_spec l (scroll_bottom v - cur_row v)) as [Hlt|Hge].
  - destruct (memmove_rows_redrawn v (cur_row v) (cur_row v + l) (scroll_bottom v - cur_row v - l))
      as (v1 & -> & R1); auto; try lia. obind. same_geometry.
    destruct (fill_rows_filled v1 (scroll_bottom v - l) l blank) as (v' & -> & R2); [apply R1 | lia.. |].
    exists v'. split; [done|]. eapply redrawn_trans; [exact R1 | exact R2 |].
    intros r c Hr Hc. simpl. destruct R1 as (_ & _ & Hf). rewrite Hf by done.
    repeat case_decide; repeat case_match; try lia; try done. f_equal. lia.
  - obind. assert (l = scroll_bottom v - cur_row v) as Hle by lia.
    destruct (Z.le_gt_cases 0 l) as [H0|H0].
    + destruct (fill_rows_filled v (scroll_bottom v - l) l blank) as (v' & -> & R2); [done | lia.. |].
      exists v'. split; [done|]. eapply redrawn_trans; [apply redrawn_same, Hw | exact R2 |].
      intros r c Hr Hc. simpl. repeat case_decide; repeat case_match; try lia; done.
    + replace (Z.to_nat l) with 0%nat by lia. exists v. split; [done|].
      eapply redrawn_trans; [apply redrawn_same, Hw | apply redrawn_same, Hw |].
      intros r c Hr Hc. simpl. repeat case_match; try lia; done.
Qed.

(** Inserting [lines] lines at the cursor pushes the rest of the region down. *)
Lemma vt_scroll_up_from_cursor_spec v lines :
  wf_screen v -> 0 <= cur_row v -> scroll_bottom v <= rows v -> 0 <= lines ->
  let l := Z.min lines (scroll_bottom v - cur_row v) in
  exists v', vt_scroll_up_from_cursor v lines = Done v' /\
    redrawn v v' (fun r c => if (cur_row v <=? r) && (r <? cur_row v + l) then Some blank
                             else if (cur_row v <=? r) && (r <? scroll_bottom v) then cell v (r - l) c else cell v r c).
Proof.
  intros Hw Hr0 Hb Hl l. unfold vt_scroll_up_from_cursor.
  set (l' := if _ <? lines then _ else lines). assert (l' = l) as -> by (subst l l'; case_match; lia).
  assert (Hl' : l <= scroll_bottom v - cur_row v /\ (0 <= l \/ l = scroll_bottom v - cur_row v)) by lia. clearbody l.
  destruct (Z.ltb_spec l (scroll_bottom v - cur_row v)) as [Hlt|Hge].
  - destruct (memmove_rows_redrawn v (cur_row v + l) (cur_row v) (scroll_bottom v - cur_row v - l))
      as (v1 & -> & R1); auto; try lia. obind. same_geometry.
    destruct (fill_rows_filled v1 (cur_row v) l blank) as (v' & -> & R2); [apply R1 | lia.. |].
    exists v'. split; [done|]. eapply redrawn_trans; [exact R1 | exact R2 |].
    intros r c Hr Hc. simpl. destruct R1 as (_ & _ & Hf). rewrite Hf by done.
    repeat case_decide; repeat case_match; try lia; try done. f_equal. lia.
  - obind. assert (l = scroll_bottom v - cur_row v) as Hle by lia.
    destruct (Z.le_gt_cases 0 l) as [H0|H0].
    + destruct (fill_rows_filled v (cur_row v) l blank) as (v' & -> & R2); [done | lia.. |].
      exists v'. split; [done|]. eapply redrawn_trans; [apply redrawn_same, Hw | exact R2 |].
      intros r c Hr Hc. simpl. repeat case_decide; repeat case_match; try lia; done.
    + replace (Z.to_nat l) with 0%nat by lia. exists v. split; [done|].
      eapply redrawn_trans; [apply redrawn_same, Hw | apply redrawn_same, Hw |].
      intros r c Hr Hc. simpl. repeat case_match; try lia; done.
Qed.

Lemma memmove_cols_redrawn v r0 dst src n :
  wf_screen v -> 0 <= r0 < rows v -> 0 <= dst -> 0 <= src -> 0 <= n -> dst + n <= cols v -> src + n <= cols v ->
  exists v', buf_memmove v (r0 * cols v + dst) (r0 * cols v + src) n = Done v' /\
    redrawn v v' (fun r c => if decide (r = r0 /\ dst <= c < dst + n) then cell v r (c - dst + src) else cell v r c).
Proof.
  intros. destruct (memmove_cols v r0 dst src n) as (v' & E & Hb & Hw & Hf); auto. exists v'. split; [done|]. by split.
Qed.

Definition cursor_on_screen (v : vt) : Prop := 0 <= cur_row v < rows v /\ 0 <= cur_col v < cols v.

Lemma vt_shift_left_spec v chars :
  wf_screen v -> cursor_on_screen v -> 0 <= chars ->
  let n := Z.min chars (cols v - cur_col v) in
  exists v', vt_shift_left_from_cursor v chars = Done v' /\
    redrawn v v' (fun r c => if (r =? cur_row v) && (cur_col v <=? c) then
                               if c <? cols v - n then cell v r (c + n) else Some blank
                             else cell v r c).
Proof.
  intros Hw [Hcr Hcc] Hl n. unfold vt_shift_left_from_cursor.
  set (l' := if _ <? chars then _ else chars). assert (l' = n) as -> by (subst n l'; case_match; lia).
  assert (Hl' : 0 <= n <= cols v - cur_col v) by lia. clearbody n.
  destruct (Z.ltb_spec n (cols v - cur_col v)) as [Hlt|Hge].
  - destruct (memmove_cols_redrawn v (cur_row v) (cur_col v) (cur_col v + n) (cols v - cur_col v - n))
      as (v1 & -> & R1); auto; try lia. obind. same_geometry.
    destruct (fill_cols_filled v1 (cur_row v) (cols v - n) n blank) as (v' & E & R2); [apply R1 | lia.. |].
    replace (cur_row v1) with (cur_row v) by done. replace (cols v1) with (cols v) by done. rewrite E.
    exists v'. split; [done|]. eapply redrawn_trans; [exact R1 | exact R2 |].
    intros r c Hr Hc. simpl. destruct R1 as (_ & _ & Hf). rewrite Hf by done.
    repeat case_decide; repeat case_match; try lia; try done. f_equal. lia.
  - obind. destruct (fill_cols_filled v (cur_row v) (cols v - n) n blank) as (v' & -> & R2); [done | lia.. |].
    exists v'. split; [done|]. eapply redrawn_trans; [apply redrawn_same, Hw | exact R2 |].
    intros r c Hr Hc. simpl. repeat case_decide; repeat case_match; try lia; done.
Qed.

Lemma vt_shift_right_spec v chars :
  wf_screen v -> cursor_on_screen v -> 0 <= chars ->
  let n := Z.min chars (cols v - cur_col v) in
  exists v', vt_shift_right_from_cursor v chars = Done v' /\
    redrawn v v' (fun r c => if (r =? cur_row v) && (cur_col v <=? c) then
                               if c <? cur_col v + n then Some blank else cell v r (c - n)
                             else cell v r c).
Proof.
  intros Hw [Hcr Hcc] Hl n. unfold vt_shift_right_from_cursor.
  set (l' := if _ <? chars then _ else chars). assert (l' = n) as -> by (subst n l'; case_match; lia).
  assert (Hl' : 0 <= n <= cols v - cur_col v) by lia. clearbody n.
  destruct (Z.ltb_spec n (cols v - cur_col v)) as [Hlt|Hge].
  - destruct (memmove_cols_redrawn v (cur_row v) (cur_col v + n) (cur_col v) (cols v - n - cur_col v))
      as (v1 & -> & R1); auto; try lia. obind. same_geometry.
    destruct (fill_cols_filled v1 (cur_row v) (cur_col v) n blank) as (v' & E & R2); [apply R1 | lia.. |].
    replace (cur_row v1) with (cur_row v) by done. replace (cur_col v1) with (cur_col v) by done. rewrite E.
    exists v'. split; [done|]. eapply redrawn_trans; [exact R1 | exact R2 |].
    intros r c Hr Hc. simpl. destruct R1 as (_ & _ & Hf). rewrite Hf by done.
    repeat case_decide; repeat case_match; try lia; try done. f_equal. lia.
  - obind. destruct (fill_cols_filled v (cur_row v) (cur_col v) n blank) as (v' & -> & R2); [done | lia.. |].
    exists v'. split; [done|]. eapply redrawn_trans; [apply redrawn_same, Hw | exact R2 |].
    intros r c Hr Hc. simpl. repeat case_decide; repeat case_match; try lia; done.
Qed.

(** Scrolling a region that starts at the top of the screen by [lines]
    moves every row of the region up, blanks the rows that come free at its
    bottom (the whole region when [lines] exceeds it) and leaves the rows below
    the region alone; the buffer is never accessed outside of its bounds. *)
Theorem vt_scroll_correct v lines :
  wf_screen v -> scroll_top v = 0 -> 0 < scroll_bottom v <= rows v -> 0 < lines ->
  let l := Z.min lines (scroll_bottom v) in
  exists v', vt_scroll v lines = Done v' /\
    redrawn v v' (fun r c => if r <? scroll_bottom v - l then cell v (r + l) c
                             else if r <? scroll_bottom v then Some blank else cell v r c).
Proof. apply vt_scroll_spec. Qed.

Definition example_vt (top bottom row col : Z) : vt :=
  {| rows := 6; cols := 2; buf := (fun i => {| chr := 65 + i; color := 7 |}) <$> seqZ 0 12;
     hooks := {| move_cursor := true; cursor_on := true; cursor_off := true; refresh := false |};
     has_tty := true; cur_row := row; cur_col := col; scroll_top := top; scroll_bottom := bottom;
     fg_color := 7; bg_color := 0; cur_attrs := 0;
     saved := {| saved_cur_row := 0; saved_cur_col := 0; saved_fg_color := 0; saved_bg_color := 0;
                 saved_cur_attrs := 0 |};
     wrap_next := false; dec_private := false; wrap_on := true; cursor_is_on := true;
     origin_mode := false; insert_mode := false; tab_stops := replicate 32 0; early_init := true;
     state := VT_STATE_BEGIN; esc_param_count := 0; esc_params := replicate 10 0; calls := [] |}.

Lemma example_vt_wf top bottom row col : wf_screen (example_vt top bottom row col).
Proof. done. Qed.

Lemma vt_scroll_correct_witness :
  exists v', vt_scroll (example_vt 0 3 1 1) 2 = Done v' /\
    redrawn (example_vt 0 3 1 1) v'
      (fun r c => if r <? 3 - 2 then cell (example_vt 0 3 1 1) (r + 2) c
                  else if r <? 3 then Some blank else cell (example_vt 0 3 1 1) r c).
Proof. apply (vt_scroll_correct (example_vt 0 3 1 1) 2); done. Defined.

(** When the scrolling region does not start at the top of the screen,
    [__vt_scroll] moves [scroll_bottom - lines] rows instead of the rows of the
    region: a valid region in the lower half of the screen makes it read and
    write past the end of the buffer, and a region above it has the rows
    below the region overwritten. *)
Theorem vt_scroll_region_overrun :
  (exists v, wf_screen v /\ 0 <= scroll_top v < scroll_bottom v /\ scroll_bottom v <= rows v /\ vt_scroll v 1 = Fault) /\
  (exists v v' r c, wf_screen v /\ 0 <= scroll_top v < scroll_bottom v /\ scroll_bottom v <= rows v /\ vt_scroll v 1 = Done v' /\
     scroll_bottom v <= r < rows v /\ 0 <= c < cols v /\ cell v' r c <> cell v r c).
Proof.
  split.
  - exists (example_vt 4 6 4 0). split; [done|]. split; [simpl; lia|]. split; [simpl; lia|]. done.
  - eexists (example_vt 2 4 2 0), _, 4, 0.
    split; [done|]. split; [simpl; lia|]. split; [simpl; lia|]. split; [reflexivity|].
    split; [simpl; lia|]. split; [simpl; lia|]. vm_compute. discriminate.
Qed.

(** Inserting [n] lines at the cursor and deleting [n] lines again gives
    every line of the region back except the last [n], which are blank. *)
Theorem vt_insert_delete_lines v n :
  wf_screen v -> 0 <= cur_row v < scroll_bottom v -> scroll_bottom v <= rows v -> 0 <= n ->
  exists v1 v2, vt_scroll_up_from_cursor v n = Done v1 /\ vt_scroll_from_cursor v1 n = Done v2 /\
    redrawn v v2 (fun r c => if (scroll_bottom v - n <=? r) && (cur_row v <=? r) && (r <? scroll_bottom v)
                             then Some blank else cell v r c).
Proof.
  intros Hw Hr Hb Hn.
  destruct (vt_scroll_up_from_cursor_spec v n) as (v1 & E1 & R1); auto; [lia|].
  same_geometry. pose proof R1 as ([b1 Eb] & Hw1 & Hf1).
  destruct (vt_scroll_from_cursor_spec v1 n) as (v2 & E2 & R2); auto; [lia | lia |].
  exists v1, v2. split; [done|]. split; [done|]. eapply redrawn_trans; [exact R1 | exact R2 |].
  intros r c Hr0 Hc. simpl.
  replace (cur_row v1) with (cur_row v) by done. replace (scroll_bottom v1) with (scroll_bottom v) by done.
  set (l := Z.min n (scroll_bottom v - cur_row v)) in *.
  assert (Hl : 0 <= l <= n /\ l <= scroll_bottom v - cur_row v /\ (l = n \/ l = scroll_bottom v - cur_row v)) by lia.
  clearbody l.
  repeat case_match; try lia; try done; rewrite Hf1 by lia;
    repeat case_match; try lia; try done; f_equal; lia.
Qed.

Lemma vt_insert_delete_lines_witness :
  exists v1 v2, vt_scroll_up_from_cursor (example_vt 0 4 1 0) 2 = Done v1 /\ vt_scroll_from_cursor v1 2 = Done v2 /\
    redrawn (example_vt 0 4 1 0) v2
      (fun r c => if (4 - 2 <=? r) && (1 <=? r) && (r <? 4) then Some blank else cell (example_vt 0 4 1 0) r c).
Proof. apply (vt_insert_delete_lines (example_vt 0 4 1 0) 2); [done | simpl; lia | simpl; lia | lia]. Defined.
