(* ===== verification/VtState.v ===== *)
(** The virtual terminal's escape-sequence state machine
    (src/drivers/char/vt_state_machine.c).  Every handler takes the terminal and
    the command character.  A [char] is a signed value in [-128 .. 127]. *)
From stdpp Require Import base numbers list.
From Stdlib Require Import ZArith ZifyBool Lia.
From S2P Require Import Prelude Bits VtScroll.
Open Scope Z_scope.

Definition vt_create_cur_color (v : vt) : Z :=
  let fg := if Z.testbit (cur_attrs v) VT_DISP_BOLD then Z.lor (fg_color v) SCR_BRIGHT else fg_color v in
  let bg := bg_color v in
  if Z.testbit (cur_attrs v) VT_DISP_REVERSE then screen_make_color bg fg else screen_make_color fg bg.

Definition set_cursor_raw (r c : Z) (v : vt) : vt := set_cur_row r (set_cur_col c v).

(** [r] and [c] are [uint8_t] locals, stored back at the end. *)
Definition vt_putchar_nocursor (v : vt) (ch : Z) : outcome vt :=
  let r := u8 (cur_row v) in
  let c := u8 (cur_col v) in
  if ch =? 13 then
    Done (set_cursor_raw r 0 (set_wrap_next false v))
  else if (ch =? 10) || (ch =? 11) || (ch =? 12) then
    if r =? scroll_bottom v - 1 then
      v ← vt_scroll v 1;
      Done (set_cursor_raw r c (set_wrap_next false v))
    else Done (set_cursor_raw (u8 (r + 1)) c (set_wrap_next false v))
  else if ch =? 9 then
    let next_tab := bit_find_next_set (tab_stops v) (c + 1) in
    let c := if negb (next_tab =? -1) then u8 next_tab else u8 (cols v - 1) in
    Done (set_cursor_raw r c (set_wrap_next false v))
  else if ch =? 8 then
    let c := if 0 <? c then c - 1 else c in
    Done (set_cursor_raw r c (set_wrap_next false v))
  else
    '(v, r, c) ←
      (if wrap_next v && (c =? cols v - 1) && wrap_on v then
         let v := set_wrap_next false v in
         let c := 0 in
         let r := u8 (r + 1) in
         '(v, r) ← (if r =? scroll_bottom v then v ← vt_scroll v 1; Done (v, u8 (r - 1)) else Done (v, r));
         let r := if r =? rows v then u8 (r - 1) else r in
         Done (v, r, c)
       else Done (v, r, c));
    v ← (if insert_mode v then vt_shift_right_from_cursor v 1 else Done v);
    v ← vt_char_set v r c {| chr := ch; color := vt_create_cur_color v |};
    if c =? cols v - 1 then Done (set_cursor_raw r c (set_wrap_next true v))
    else Done (set_cursor_raw r (u8 (c + 1)) v).

Definition vt_set_cursor (v : vt) (new_row new_col : Z) : vt :=
  let max_row := if origin_mode v then scroll_bottom v else rows v in
  let min_row := if origin_mode v then scroll_top v else 0 in
  let row := if new_row <? min_row then min_row
             else if max_row - 1 <? new_row then max_row - 1 else new_row in
  let col := if new_col <? 0 then 0
             else if cols v - 1 <? new_col then cols v - 1 else new_col in
  set_wrap_next false (set_cursor_raw row col v).

Definition vt_set_cursor_origin_relative (v : vt) (new_row new_col : Z) : vt :=
  if origin_mode v then vt_set_cursor v (i32 (new_row + scroll_top v)) new_col
  else vt_set_cursor v new_row new_col.

Definition attribute_to_screen_color (c : Z) : Z :=
  if c =? 0 then SCR_BLACK else if c =? 1 then SCR_RED else if c =? 2 then SCR_GREEN
  else if c =? 3 then SCR_YELLOW else if c =? 4 then SCR_BLUE else if c =? 5 then SCR_MAGENTA
  else if c =? 6 then SCR_CYAN else if c =? 7 then SCR_WHITE else 0.

Definition flag_set (f : Z) (v : vt) : vt := set_cur_attrs (Z.setbit (cur_attrs v) f) v.
Definition flag_clear (f : Z) (v : vt) : vt := set_cur_attrs (Z.clearbit (cur_attrs v) f) v.

(** One parameter of ESC[m. *)
Definition set_attribute (v : vt) (p : Z) : vt :=
  if p =? 0 then set_bg_color SCR_DEF_BACKGROUND (set_fg_color SCR_DEF_FORGROUND (set_cur_attrs 0 v))
  else if p =? 1 then flag_set VT_DISP_BOLD v
  else if p =? 22 then flag_clear VT_DISP_BOLD v
  else if p =? 5 then flag_set VT_DISP_BLINK v
  else if p =? 25 then flag_clear VT_DISP_BLINK v
  else if p =? 4 then flag_set VT_DISP_UNDERLINE v
  else if p =? 24 then flag_clear VT_DISP_UNDERLINE v
  else if p =? 7 then flag_set VT_DISP_REVERSE v
  else if p =? 27 then flag_clear VT_DISP_REVERSE v
  else if (30 <=? p) && (p <=? 37) then set_fg_color (attribute_to_screen_color (p - 30)) v
  else if p =? 39 then set_fg_color SCR_DEF_FORGROUND v
  else if (40 <=? p) && (p <=? 47) then set_bg_color (attribute_to_screen_color (p - 40)) v
  else if p =? 49 then set_bg_color SCR_DEF_BACKGROUND v
  else v.

Fixpoint set_attributes_from (n : nat) (v : vt) (i : Z) : outcome vt :=
  match n with
  | O => Done v
  | S n' => p ← arr_get (esc_params v) i; set_attributes_from n' (set_attribute v p) (i + 1)
  end.

Definition vt_esc_set_attributes (v : vt) (cmd : Z) : outcome vt :=
  set_attributes_from (Z.to_nat (esc_param_count v)) v 0.

(** [vt->esc_params[i]] for the constant indices 0 and 1. *)
Definition param (v : vt) (i : Z) : outcome Z := arr_get (esc_params v) i.

Definition vt_esc_cursor_move (v : vt) (cmd : Z) : outcome vt :=
  p0 ← param v 0;
  p1 ← param v 1;
  let new_row := if p0 =? 0 then p0 else i32 (p0 - 1) in
  let new_col := if p1 =? 0 then p1 else i32 (p1 - 1) in
  Done (vt_set_cursor_origin_relative v new_row new_col).

Definition vt_esc_cursor_cmd (v : vt) (cmd : Z) : outcome vt :=
  p0 ← param v 0;
  let count := if p0 =? 0 then 1 else p0 in
  let row_up := i32 (cur_row v - count) in
  let row_down := i32 (cur_row v + count) in
  Done (if cmd =? 65 (* A *) then vt_set_cursor v row_up (cur_col v)
        else if (cmd =? 101) || (cmd =? 66) (* e B *) then vt_set_cursor v row_down (cur_col v)
        else if (cmd =? 97) || (cmd =? 67) (* a C *) then vt_set_cursor v (cur_row v) (i32 (cur_col v + count))
        else if cmd =? 68 (* D *) then vt_set_cursor v (cur_row v) (i32 (cur_col v - count))
        else if cmd =? 69 (* E *) then vt_set_cursor v row_down 0
        else if cmd =? 70 (* F *) then vt_set_cursor v row_up 0
        else if (cmd =? 71) || (cmd =? 96) (* G ` *) then vt_set_cursor v (cur_row v) (i32 (count - 1))
        else if cmd =? 100 (* d *) then vt_set_cursor v (i32 (count - 1)) (cur_col v)
        else v).

Definition vt_esc_disp (v : vt) (cmd : Z) : outcome vt :=
  p0 ← param v 0;
  if p0 =? 0 then vt_clear_to_end v
  else if p0 =? 1 then vt_clear_to_cursor v
  else if p0 =? 2 then vt_clear v
  else Done v.

Definition vt_esc_clear_line (v : vt) (cmd : Z) : outcome vt :=
  p0 ← param v 0;
  if p0 =? 0 then vt_clear_line_to_end v
  else if p0 =? 1 then vt_clear_line_to_cursor v
  else if p0 =? 2 then vt_clear_line v
  else Done v.

Definition vt_tty_write_string (v : vt) (str : list Z) : vt :=
  if has_tty v then call (TtyInput str) v else v.

(** "%d" of an [int] (at most ten digits). *)
Fixpoint dec_digits (fuel : nat) (n : Z) (acc : list Z) : list Z :=
  match fuel with
  | O => acc
  | S fuel' => let acc := 48 + n mod 10 :: acc in
               if n / 10 =? 0 then acc else dec_digits fuel' (n / 10) acc
  end.

Definition dec (n : Z) : list Z :=
  if n <? 0 then 45 :: dec_digits 10 (- n) [] else dec_digits 10 n [].

(** ESC [ row ; col R *)
Definition cursor_report (row col : Z) : list Z :=
  [27; 91] ++ dec row ++ [59] ++ dec col ++ [82].

Definition vt_esc_report (v : vt) (cmd : Z) : outcome vt :=
  p0 ← param v 0;
  if p0 =? 6 then
    let row := if origin_mode v then i32 (cur_row v + 1 - scroll_bottom v) else i32 (cur_row v + 1) in
    Done (vt_tty_write_string v (cursor_report row (i32 (cur_col v + 1))))
  else if p0 =? 7 then Done (vt_tty_write_string v [27; 91; 48; 110])
  else Done v.

Definition vt_esc_who_are_you (v : vt) (cmd : Z) : outcome vt :=
  Done (vt_tty_write_string v [27; 91; 63; 54; 99]).

Definition vt_esc_set_mode (v : vt) (cmd : Z) : outcome vt :=
  p0 ← param v 0;
  if p0 =? 4 then Done (set_insert_mode (negb (cmd =? 108)) v) else Done v.

Definition count_param (v : vt) : outcome Z :=
  p0 ← param v 0; Done (if p0 =? 0 then 1 else p0).

Definition vt_esc_delete_line (v : vt) (cmd : Z) : outcome vt :=
  lines ← count_param v; vt_scroll_from_cursor v lines.

Definition vt_esc_delete_character (v : vt) (cmd : Z) : outcome vt :=
  chars ← count_param v; vt_shift_left_from_cursor v chars.

Definition vt_esc_insert_line (v : vt) (cmd : Z) : outcome vt :=
  lines ← count_param v; vt_scroll_up_from_cursor v lines.

Definition vt_esc_insert_character (v : vt) (cmd : Z) : outcome vt :=
  chars ← count_param v; vt_shift_right_from_cursor v chars.

Definition vt_esc_reverse_linefeed (v : vt) (cmd : Z) : outcome vt :=
  if scroll_top v <? cur_row v then Done (vt_set_cursor v (cur_row v - 1) (cur_col v))
  else vt_scroll_up_from_cursor v 1.

Definition vt_save_cursor (v : vt) (cmd : Z) : outcome vt :=
  Done (set_saved {| saved_cur_row := cur_row v; saved_cur_col := cur_col v;
                     saved_fg_color := fg_color v; saved_bg_color := bg_color v;
                     saved_cur_attrs := cur_attrs v |} v).

(** The colours are copied from the terminal to the saved state, as the source
    has it. *)
Definition vt_restore_cursor (v : vt) (cmd : Z) : outcome vt :=
  let s := saved v in
  let v := set_saved {| saved_cur_row := saved_cur_row s; saved_cur_col := saved_cur_col s;
                        saved_fg_color := fg_color v; saved_bg_color := bg_color v;
                        saved_cur_attrs := saved_cur_attrs s |} v in
  let v := set_cur_attrs (saved_cur_attrs s) v in
  Done (set_wrap_next false (vt_set_cursor v (saved_cur_row s) (saved_cur_col s))).

Definition vt_set_scrolling_region (v : vt) (cmd : Z) : outcome vt :=
  p0 ← param v 0;
  p1 ← param v 1;
  let new_top := if p0 =? 0 then p0 else i32 (p0 - 1) in
  let new_bottom := if p1 =? 0 then rows v - 1 else i32 (p1 - 1) in
  if rows v <=? new_bottom then Done v
  else if new_bottom <=? new_top then Done v
  else
    let v := set_scroll_top new_top v in
    let v := set_scroll_bottom (new_bottom + 1) v in
    Done (vt_set_cursor_origin_relative v 0 0).

Definition vt_set_dec_setting (v : vt) (cmd : Z) : outcome vt :=
  p0 ← param v 0;
  if p0 =? 7 then Done (set_wrap_on true v)
  else if p0 =? 6 then Done (vt_set_cursor_origin_relative (set_origin_mode true v) 0 0)
  else if p0 =? 3 then v ← vt_clear v; Done (vt_set_cursor_origin_relative v 0 0)
  else if p0 =? 25 then
    let v := set_cursor_is_on true v in
    Done (if cursor_on (hooks v) then call CursorOn v else v)
  else Done v.

Definition vt_unset_dec_setting (v : vt) (cmd : Z) : outcome vt :=
  p0 ← param v 0;
  if p0 =? 7 then Done (set_wrap_on false v)
  else if p0 =? 6 then Done (vt_set_cursor_origin_relative (set_origin_mode false v) 0 0)
  else if p0 =? 3 then v ← vt_clear v; Done (vt_set_cursor_origin_relative v 0 0)
  else if p0 =? 25 then
    let v := set_cursor_is_on false v in
    Done (if cursor_off (hooks v) then call CursorOff v else v)
  else Done v.

Definition vt_unset_tab (v : vt) (cmd : Z) : outcome vt :=
  p0 ← param v 0;
  if p0 =? 0 then t ← bit_clear (tab_stops v) (cur_col v); Done (set_tab_stops t v)
  else if p0 =? 3 then Done (set_tab_stops (replicate 32 0) v)
  else Done v.

(** The tab stops [vt_reset] sets: one every eight columns, up to 80. *)
Definition reset_tab_stops : outcome (list Z) :=
  foldl (fun t b => t ← t; bit_set t b) (Done (replicate 32 0)) [0; 8; 16; 24; 32; 40; 48; 56; 64; 72; 80].

Definition vt_reset (v : vt) : outcome vt :=
  let v := set_fg_color SCR_DEF_FORGROUND (set_bg_color SCR_DEF_BACKGROUND (set_cur_attrs 0 v)) in
  let v := set_cursor_raw 0 0 v in
  let v := set_wrap_on true (set_wrap_next false v) in
  let v := set_origin_mode false (set_scroll_top 0 (set_scroll_bottom (rows v) v)) in
  let v := set_saved {| saved_cur_row := 0; saved_cur_col := 0; saved_fg_color := saved_fg_color (saved v);
                        saved_bg_color := saved_bg_color (saved v); saved_cur_attrs := 0 |} v in
  let v := set_dec_private false (set_insert_mode false (set_cursor_is_on true v)) in
  t ← reset_tab_stops;
  let v := set_tab_stops t v in
  v ← vt_clear v;
  Done (vt_updatecur v).

Definition handler : Type := vt -> Z -> outcome vt.

Definition lbracket_table (ch : Z) : option handler :=
  if ch =? 109 (* m *) then Some vt_esc_set_attributes
  else if (ch =? 72) || (ch =? 102) (* H f *) then Some vt_esc_cursor_move
  else if bool_decide (ch ∈ [65; 101; 66; 97; 67; 68; 69; 70; 71; 96; 100]) (* A e B a C D E F G ` d *)
  then Some vt_esc_cursor_cmd
  else if ch =? 74 (* J *) then Some vt_esc_disp
  else if ch =? 110 (* n *) then Some vt_esc_report
  else if ch =? 75 (* K *) then Some vt_esc_clear_line
  else if (ch =? 108) || (ch =? 104) (* l h *) then Some vt_esc_set_mode
  else if ch =? 77 (* M *) then Some vt_esc_delete_line
  else if ch =? 80 (* P *) then Some vt_esc_delete_character
  else if ch =? 76 (* L *) then Some vt_esc_insert_line
  else if ch =? 64 (* @ *) then Some vt_esc_insert_character
  else if ch =? 99 (* c *) then Some vt_esc_who_are_you
  else if ch =? 114 (* r *) then Some vt_set_scrolling_region
  else if ch =? 103 (* g *) then Some vt_unset_tab
  else None.

Definition lbracket_table_dec_private (ch : Z) : option handler :=
  if ch =? 104 then Some vt_set_dec_setting
  else if ch =? 108 then Some vt_unset_dec_setting
  else None.

(** The tables have 256 entries indexed by a signed [char]. *)
Definition run_table (table : Z -> option handler) (v : vt) (ch : Z) : outcome vt :=
  if (ch <? 0) || (255 <? ch) then Fault
  else match table ch with Some h => h v ch | None => Done v end.

Definition vt_state_lbracket (v : vt) (ch : Z) : outcome vt :=
  if (48 <=? ch) && (ch <=? 57) then
    p ← arr_get (esc_params v) (esc_param_count v);
    ps ← arr_set (esc_params v) (esc_param_count v) (i32 (i32 (p * 10) + (ch - 48)));
    Done (set_esc_params ps v)
  else if ch =? 59 (* ; *) then Done (set_esc_param_count (i32 (esc_param_count v + 1)) v)
  else if ch =? 63 (* ? *) then Done (set_dec_private true v)
  else
    let v := set_esc_param_count (i32 (esc_param_count v + 1)) v in
    v ← (if dec_private v then run_table lbracket_table_dec_private v ch else run_table lbracket_table v ch);
    Done (set_dec_private false (set_state VT_STATE_BEGIN v)).

Definition vt_state_numbersign (v : vt) (ch : Z) : outcome vt :=
  if ch =? 56 (* 8 *) then
    fill_rows (Z.to_nat (rows v)) v 0
      {| chr := 69; color := screen_make_color SCR_DEF_FORGROUND SCR_DEF_BACKGROUND |}
  else Done (set_state VT_STATE_BEGIN v).

Definition clear_params (v : vt) : vt :=
  set_esc_params (replicate (Z.to_nat VT_PARAM_MAX) 0) (set_esc_param_count 0 v).

Definition vt_state_esc (v : vt) (ch : Z) : outcome vt :=
  let begin := set_state VT_STATE_BEGIN in
  if ch =? 91 (* [ *) then Done (clear_params (set_state VT_STATE_LBRACKET v))
  else if ch =? 77 (* M *) then v ← vt_esc_reverse_linefeed v ch; Done (begin v)
  else if ch =? 68 (* D *) then v ← vt_putchar_nocursor v 10; Done (begin v)
  else if ch =? 69 (* E *) then
    v ← vt_putchar_nocursor v 13; v ← vt_putchar_nocursor v 10; Done (begin v)
  else if ch =? 55 (* 7 *) then v ← vt_save_cursor v ch; Done (begin v)
  else if ch =? 56 (* 8 *) then v ← vt_restore_cursor v ch; Done (begin v)
  else if ch =? 99 (* c *) then v ← vt_reset v; Done (begin v)
  else if ch =? 72 (* H *) then
    t ← bit_set (tab_stops v) (cur_col v); Done (begin (set_tab_stops t v))
  else if ch =? 35 (* # *) then Done (clear_params (set_state VT_STATE_NUMBERSIGN v))
  else if ch =? 40 (* ( *) then Done (set_state VT_STATE_OPENPAREN v)
  else if ch =? 41 (* ) *) then Done (set_state VT_STATE_CLOSEPAREN v)
  else Done (begin v).

Definition vt_state_begin (v : vt) (ch : Z) : outcome vt :=
  if ch =? 27 then Done (set_state VT_STATE_ESC v) else vt_putchar_nocursor v ch.

Definition vt_state_paren (v : vt) (ch : Z) : outcome vt := Done (set_state VT_STATE_BEGIN v).

Definition vt_states (s : vt_state) : handler :=
  match s with
  | VT_STATE_BEGIN => vt_state_begin
  | VT_STATE_ESC => vt_state_esc
  | VT_STATE_LBRACKET => vt_state_lbracket
  | VT_STATE_NUMBERSIGN => vt_state_numbersign
  | VT_STATE_OPENPAREN => vt_state_paren
  | VT_STATE_CLOSEPAREN => vt_state_paren
  end.

Definition vt_process_char (v : vt) (ch : Z) : outcome vt :=
  if ch =? 0 then Done v
  else if bool_decide (ch ∈ [10; 13; 9; 8; 11; 12]) then vt_putchar_nocursor v ch
  else if (ch =? 7) || (ch =? 14) || (ch =? 15) then Done v
  else if ch =? 27 then Done (set_state VT_STATE_ESC v)
  else vt_states (state v) v ch.

Fixpoint vt_process (v : vt) (buf : list Z) : outcome vt :=
  match buf with
  | [] => Done v
  | ch :: buf' => v ← vt_process_char v ch; vt_process v buf'
  end.

Definition vt_write (v : vt) (buf : list Z) : outcome (Z * vt) :=
  v ← vt_process v buf;
  let v := vt_updatecur v in
  Done (Z.of_nat (length buf), if refresh (hooks v) then call Refresh v else v).

Definition vt_early_init (v : vt) : outcome vt :=
  v ← vt_reset v; Done (set_early_init true v).

(** [tty_driver_register] is left to the tty layer. *)
Definition vt_init (v : vt) : outcome vt :=
  if early_init v then Done v else vt_early_init v.

(** Console output of [kp()] (src/drivers/char/vt.c). *)
Definition vt_write_with_crnl (v : vt) (ch : Z) : outcome vt :=
  v ← (if ch =? 10 then '(_, v) ← vt_write v [13]; Done v else Done v);
  '(_, v) ← vt_write v [ch];
  Done v.

Fixpoint vt_early_print (v : vt) (str : list Z) : outcome vt :=
  match str with
  | [] => Done v
  | ch :: str' => v ← vt_write_with_crnl v ch; vt_early_print v str'
  end.

(** * The invariant *)

Section Safe.

(** Whether the tab stops are all on the screen, as those that [vt_reset] sets are
    when there are more than 80 columns. *)
Context (tabs : bool).

(** A terminal of at most 255 rows and columns whose scrolling region is the whole
    screen. *)
Record wf (v : vt) : Prop := {
  wf_scr : wf_screen v;
  wf_dims : rows v <= 255 /\ 0 < cols v <= 255;
  wf_wide : tabs = true -> 80 < cols v;
  wf_region : scroll_top v = 0 /\ scroll_bottom v = rows v;
  wf_cursor : cursor_on_screen v;
  wf_tabs : length (tab_stops v) = 32%nat;
  wf_tab_cols : tabs = true -> forall j, cols v <= j < 256 -> bit_at (tab_stops v) j = false;
  wf_params : length (esc_params v) = 10%nat;
  wf_param_range : Forall (fun p => 0 <= p < 2 ^ 31) (esc_params v);
  wf_count : 0 <= esc_param_count v < 2 ^ 31 - 1;
}.

(** The part of the state the parser looks at. *)
Definition parser (v : vt) : vt_state * Z * list Z := (state v, esc_param_count v, esc_params v).

(** The operation succeeds, keeps the invariant and leaves the parser alone. *)
Definition keeps (v : vt) (m : outcome vt) : Prop :=
  exists v', m = Done v' /\ wf v' /\ parser v' = parser v.

Lemma keeps_done v v' : wf v' -> parser v' = parser v -> keeps v (Done v').
Proof. intros. by exists v'. Qed.

Lemma keeps_bind v m f : keeps v m -> (forall v', wf v' -> parser v' = parser v -> keeps v' (f v')) -> keeps v (m ≫= f).
Proof.
  intros (v1 & -> & Hw & Hp) Hf. destruct (Hf v1 Hw Hp) as (v2 & E & Hw2 & Hp2).
  exists v2. rewrite done_bind. split_and!; auto. congruence.
Qed.

(** Changes that touch nothing the invariant or the parser mentions. *)
Ltac wf_same := match goal with H : wf ?v |- wf _ => destruct H; split; simpl; auto end.

(** The operation succeeds and changes nothing but the screen buffer. *)
Definition draws (v : vt) (m : outcome vt) : Prop :=
  exists b, m = Done (set_buf b v) /\ wf (set_buf b v).

Lemma draws_keeps v m : draws v m -> keeps v m.
Proof. intros (b & -> & Hw). by apply keeps_done. Qed.

Lemma draws_bind v m f :
  draws v m -> (forall b, wf (set_buf b v) -> keeps v (f (set_buf b v))) -> keeps v (m ≫= f).
Proof. intros (b & -> & Hw) Hf. rewrite done_bind. auto. Qed.

Lemma draws_none v : wf v -> draws v (Done v).
Proof. intros Hw. exists (buf v). by rewrite set_buf_same. Qed.

Lemma draws_draws v m f :
  draws v m -> (forall b, wf (set_buf b v) -> draws (set_buf b v) (f (set_buf b v))) -> draws v (m ≫= f).
Proof.
  intros (b & -> & Hw) Hf. rewrite done_bind. destruct (Hf b Hw) as (b' & -> & Hw'). by exists b'.
Qed.

Lemma draws_redrawn v m f : wf v -> (exists v', m = Done v' /\ redrawn v v' f) -> draws v m.
Proof.
  intros Hw (v' & -> & [b ->] & Hs & _). exists b. split; [done|]. destruct Hw. by split.
Qed.

Lemma u8_small z : 0 <= z <= 255 -> u8 z = z.
Proof. intros. unfold u8, uwrap. apply Z.mod_small. lia. Qed.

Lemma wf_set_cursor_raw v r c :
  wf v -> 0 <= r < rows v -> 0 <= c < cols v -> wf (set_cursor_raw r c v).
Proof. intros [] ??. split; simpl; auto. by split. Qed.

Lemma wf_set_wrap_next v b : wf v -> wf (set_wrap_next b v).
Proof. intros. wf_same. Qed.

Lemma vt_scroll_draws v : wf v -> draws v (vt_scroll v 1).
Proof.
  intros Hw. destruct (wf_region _ Hw) as [Ht Hb]. destruct (wf_scr _ Hw) as (Hr & _).
  eapply draws_redrawn; [done|]. apply vt_scroll_spec; [by apply Hw | done | lia | lia].
Qed.

Lemma shift_right_draws v n : wf v -> 0 <= n -> draws v (vt_shift_right_from_cursor v n).
Proof. intros Hw Hn. eapply draws_redrawn; [done|]. by apply vt_shift_right_spec; apply Hw || done. Qed.

Lemma shift_left_draws v n : wf v -> 0 <= n -> draws v (vt_shift_left_from_cursor v n).
Proof. intros Hw Hn. eapply draws_redrawn; [done|]. by apply vt_shift_left_spec; apply Hw || done. Qed.

Lemma scroll_from_cursor_draws v n : wf v -> 0 <= n -> draws v (vt_scroll_from_cursor v n).
Proof.
  intros Hw Hn. destruct (wf_region _ Hw) as [Ht Hb]. destruct (wf_cursor _ Hw) as [Hr _].
  eapply draws_redrawn; [done|]. apply vt_scroll_from_cursor_spec; [by apply Hw | lia..].
Qed.

Lemma scroll_up_draws v n : wf v -> 0 <= n -> draws v (vt_scroll_up_from_cursor v n).
Proof.
  intros Hw Hn. destruct (wf_region _ Hw) as [Ht Hb]. destruct (wf_cursor _ Hw) as [Hr _].
  eapply draws_redrawn; [done|]. apply vt_scroll_up_from_cursor_spec; [by apply Hw | lia..].
Qed.

Lemma fill_rows_draws v r n x :
  wf v -> 0 <= r -> 0 <= n -> r + n <= rows v -> draws v (fill_rows (Z.to_nat n) v r x).
Proof.
  intros Hw ???. eapply draws_redrawn; [done|].
  destruct (fill_rows_filled v r n x) as (v' & E & R); auto; [by apply Hw|]. exists v'. split; [done|]. exact R.
Qed.

Lemma fill_cols_draws v r c n x :
  wf v -> 0 <= r < rows v -> 0 <= c -> 0 <= n -> c + n <= cols v -> draws v (fill_cols (Z.to_nat n) v r c x).
Proof.
  intros Hw ????. eapply draws_redrawn; [done|].
  destruct (fill_cols_filled v r c n x) as (v' & E & R); auto; [by apply Hw|]. exists v'. split; [done|]. exact R.
Qed.

Lemma vt_clear_draws v : wf v -> draws v (vt_clear v).
Proof. intros Hw. destruct (wf_scr _ Hw) as (Hr & _). apply fill_rows_draws; auto; lia. Qed.

Lemma vt_char_set_draws v r c x :
  wf v -> 0 <= r < rows v -> 0 <= c < cols v -> draws v (vt_char_set v r c x).
Proof.
  intros Hw Hr Hc. pose proof (fill_cols_draws v r c 1 x Hw Hr ltac:(lia) ltac:(lia) ltac:(lia)) as H.
  change (Z.to_nat 1) with 1%nat in H. cbn [fill_cols] in H.
  by rewrite outcome_bind_ret in H.
Qed.

(** ** The handlers keep the invariant *)

Lemma wf_bounds v : wf v ->
  0 < rows v <= 255 /\ 0 < cols v <= 255 /\ 0 <= cur_row v < rows v /\ 0 <= cur_col v < cols v /\
  scroll_top v = 0 /\ scroll_bottom v = rows v.
Proof. intros [(?&?&?) (?&?) _ (?&?) (?&?) _ _ _ _ _]. lia. Qed.

Lemma wf_set_cursor v r c : wf v -> wf (vt_set_cursor v r c).
Proof.
  intros Hw. pose proof (wf_bounds _ Hw). unfold vt_set_cursor.
  apply wf_set_wrap_next, wf_set_cursor_raw; [done|..]; repeat case_match; lia.
Qed.

Lemma parser_set_cursor v r c : parser (vt_set_cursor v r c) = parser v.
Proof. done. Qed.

Lemma wf_set_cursor_origin v r c : wf v -> wf (vt_set_cursor_origin_relative v r c).
Proof. intros Hw. unfold vt_set_cursor_origin_relative. case_match; by apply wf_set_cursor. Qed.

Lemma parser_set_cursor_origin v r c : parser (vt_set_cursor_origin_relative v r c) = parser v.
Proof. unfold vt_set_cursor_origin_relative. by case_match. Qed.

Lemma next_tab_on_screen v c : tabs = true -> wf v -> 0 <= c ->
  let t := bit_find_next_set (tab_stops v) (c + 1) in t <> -1 -> 0 <= t < cols v.
Proof.
  intros Htabs Hw Hc t Ht. pose proof (wf_bounds _ Hw).
  destruct (bit_find_next_set_sound (tab_stops v) (c + 1)) as [E|[Hr Hb]]; [lia | done |].
  fold t in Hr, Hb. rewrite (wf_tabs _ Hw) in Hr. split; [lia|].
  destruct (Z.lt_ge_cases t (cols v)) as [|Hge]; [done|].
  rewrite (wf_tab_cols _ Hw Htabs) in Hb by lia. done.
Qed.

Lemma keeps_cursor v b r c : wf v -> 0 <= r < rows v -> 0 <= c < cols v ->
  keeps v (Done (set_cursor_raw r c (set_wrap_next b v))).
Proof. intros. apply keeps_done; [|done]. apply wf_set_cursor_raw; auto. by apply wf_set_wrap_next. Qed.

(** Printing one cell at [r], [c] and moving on. *)
Lemma print_cell_keeps v r c ch :
  wf v -> 0 <= r < rows v -> 0 <= c < cols v ->
  keeps v (v ← (if insert_mode v then vt_shift_right_from_cursor v 1 else Done v);
           v ← vt_char_set v r c {| chr := ch; color := vt_create_cur_color v |};
           if c =? cols v - 1 then Done (set_cursor_raw r c (set_wrap_next true v))
           else Done (set_cursor_raw r (u8 (c + 1)) v)).
Proof.
  intros Hw Hr Hc. pose proof (wf_bounds _ Hw).
  apply (draws_bind v).
  { case_match; [apply shift_right_draws; auto; lia | by apply draws_none]. }
  intros b Hw1. cut (keeps (set_buf b v) (v ← vt_char_set (set_buf b v) r c {| chr := ch; color := vt_create_cur_color (set_buf b v) |};
           if c =? cols v - 1 then Done (set_cursor_raw r c (set_wrap_next true v))
           else Done (set_cursor_raw r (u8 (c + 1)) v))).
  { intros (v' & ? & ? & ?). by exists v'. }
  apply draws_bind; [by apply vt_char_set_draws|]. intros b' Hw2. rewrite set_buf_set_buf in *.
  cbn [cols set_buf]. destruct (Z.eqb_spec c (cols v - 1)).
  - by apply (keeps_cursor (set_buf b' v)).
  - apply keeps_done; [|done]. rewrite u8_small by lia. apply wf_set_cursor_raw; auto. simpl. lia.
Qed.

Lemma vt_putchar_keeps v ch : wf v -> tabs = true \/ ch <> 9 -> keeps v (vt_putchar_nocursor v ch).
Proof.
  intros Hw Htab. pose proof (wf_bounds _ Hw) as (Hr & Hc & Hcr & Hcc & Ht & Hb).
  unfold vt_putchar_nocursor. rewrite !(u8_small (cur_row v)), !(u8_small (cur_col v)) by lia.
  case_match; [by apply keeps_cursor; auto; lia|].
  case_match.
  { destruct (Z.eqb_spec (cur_row v) (scroll_bottom v - 1)).
    - apply draws_bind; [by apply vt_scroll_draws|]. intros b Hw1. by apply (keeps_cursor (set_buf b v)).
    - rewrite u8_small by lia. apply keeps_cursor; auto; lia. }
  destruct (Z.eqb_spec ch 9).
  { destruct Htab as [Htab|]; [|done]. apply keeps_cursor; auto. pose proof (next_tab_on_screen v (cur_col v) Htab Hw ltac:(lia)) as Hn. simpl in Hn.
    destruct (Z.eqb_spec (bit_find_next_set (tab_stops v) (cur_col v + 1)) (-1)); simpl; rewrite u8_small; lia. }
  case_match; [apply keeps_cursor; auto; case_match; lia|].
  case_match.
  - set (v1 := set_wrap_next false v). assert (Hw1 : wf v1) by (by apply wf_set_wrap_next).
    change (scroll_bottom v1) with (scroll_bottom v). rewrite (u8_small (cur_row v + 1)) by lia.
    destruct (Z.eqb_spec (cur_row v + 1) (scroll_bottom v)).
    + destruct (vt_scroll_draws v1 Hw1) as (b & -> & Hw2). rewrite !done_bind. cbv beta iota zeta.
      rewrite u8_small by lia. change (rows (set_buf b v1)) with (rows v).
      destruct (Z.eqb_spec (cur_row v + 1 - 1) (rows v)); [lia|].
      destruct (print_cell_keeps (set_buf b v1) (cur_row v + 1 - 1) 0 ch) as (v' & E & ? & ?); auto; simpl; [lia|lia|].
      by exists v'.
    + rewrite !done_bind. cbv beta iota zeta. change (rows v1) with (rows v).
      destruct (Z.eqb_spec (cur_row v + 1) (rows v)); [lia|].
      destruct (print_cell_keeps v1 (cur_row v + 1) 0 ch) as (v' & E & ? & ?); auto; simpl; [lia|lia|].
      by exists v'.
  - rewrite done_bind. cbv beta iota. apply print_cell_keeps; auto.
Qed.

Lemma param_ok v i : wf v -> 0 <= i < 10 -> exists p, param v i = Done p /\ 0 <= p < 2 ^ 31.
Proof.
  intros Hw Hi. destruct (arr_get_total (esc_params v) i) as [p Hp]; [rewrite (wf_params _ Hw); lia|].
  exists p. split; [done|]. apply arr_get_done in Hp as [_ Hp].
  pose proof (wf_param_range _ Hw) as Hf. rewrite Forall_lookup in Hf. by apply Hf in Hp.
Qed.

(** Reads the parameter at the head of the goal. *)
Ltac get_param Hw p Hp :=
  match goal with |- context [param ?v ?i] =>
    destruct (param_ok v i Hw ltac:(lia)) as (p & -> & Hp); rewrite done_bind; cbv beta zeta
  end.

Lemma count_param_ok v : wf v -> exists n, count_param v = Done n /\ 0 <= n.
Proof.
  intros Hw. unfold count_param. get_param Hw p Hp. eexists. split; [done|]. case_match; lia.
Qed.

Lemma wf_set_attribute v p : wf v -> wf (set_attribute v p) /\ parser (set_attribute v p) = parser v.
Proof. intros Hw. unfold set_attribute, flag_set, flag_clear. repeat case_match; (split; [wf_same | done]). Qed.

Lemma set_attributes_keeps n : forall v i,
  wf v -> 0 <= i -> i + Z.of_nat n <= 10 -> keeps v (set_attributes_from n v i).
Proof.
  induction n as [|n IH]; intros v i Hw H0 Hn; cbn [set_attributes_from]; [by apply keeps_done|].
  fold (param v i). get_param Hw p Hp. destruct (wf_set_attribute v p Hw) as [Hw' Hp'].
  destruct (IH (set_attribute v p) (i + 1)) as (v' & -> & ? & ?); auto; [lia | lia |].
  exists v'. split_and!; auto. congruence.
Qed.

Lemma vt_esc_disp_keeps v cmd : wf v -> keeps v (vt_esc_disp v cmd).
Proof.
  intros Hw. pose proof (wf_bounds _ Hw). unfold vt_esc_disp. get_param Hw p Hp.
  repeat case_match; [| |apply draws_keeps, vt_clear_draws; done | by apply keeps_done].
  - unfold vt_clear_to_end. rewrite (proj2 (Z.ltb_lt _ _)) by lia. cbv zeta.
    apply draws_keeps, draws_draws; [apply fill_cols_draws; auto; lia|]. intros b Hw1.
    apply fill_rows_draws; simpl; auto; lia.
  - unfold vt_clear_to_cursor. rewrite (proj2 (Z.ltb_ge _ _)) by lia.
    apply draws_keeps, draws_draws; [apply fill_rows_draws; auto; lia|]. intros b Hw1.
    apply fill_cols_draws; simpl; auto; lia.
Qed.

Lemma vt_esc_clear_line_keeps v cmd : wf v -> keeps v (vt_esc_clear_line v cmd).
Proof.
  intros Hw. pose proof (wf_bounds _ Hw). unfold vt_esc_clear_line. get_param Hw p Hp.
  repeat case_match; [..|by apply keeps_done]; apply draws_keeps, fill_cols_draws; auto; lia.
Qed.

Lemma wf_tty_write v str : wf v -> wf (vt_tty_write_string v str) /\ parser (vt_tty_write_string v str) = parser v.
Proof. intros Hw. unfold vt_tty_write_string, call. case_match; (split; [wf_same || done | done]). Qed.

Lemma vt_esc_report_keeps v cmd : wf v -> keeps v (vt_esc_report v cmd).
Proof.
  intros Hw. unfold vt_esc_report. get_param Hw p Hp. cbv zeta.
  repeat case_match; apply keeps_done; auto; by apply wf_tty_write.
Qed.

Lemma vt_set_tabs_keeps v t :
  wf v -> length t = 32%nat -> (tabs = true -> forall j, cols v <= j < 256 -> bit_at t j = false) ->
  wf (set_tab_stops t v).
Proof. intros [] ??. by split. Qed.

Lemma bit_at_zeros n j : bit_at (replicate n 0) j = false.
Proof.
  unfold bit_at. destruct (replicate n 0 !! Z.to_nat (j / 8)) as [x|] eqn:E; simpl; [|apply Z.testbit_0_l].
  apply lookup_replicate in E as [-> _]. apply Z.testbit_0_l.
Qed.

Lemma vt_unset_tab_keeps v cmd : wf v -> keeps v (vt_unset_tab v cmd).
Proof.
  intros Hw. pose proof (wf_bounds _ Hw). unfold vt_unset_tab. get_param Hw p Hp.
  repeat case_match; [| |by apply keeps_done].
  - destruct (bit_update_total Z.clearbit (tab_stops v) (cur_col v)) as [t Et]; [rewrite (wf_tabs _ Hw); lia|].
    unfold bit_clear at 1. rewrite Et, done_bind. apply keeps_done; [|done].
    apply vt_set_tabs_keeps; auto.
    + apply bit_at_update in Et as [-> _]; [|lia]. by apply Hw.
    + intros Htab j Hj. eapply (bit_clear_subset (tab_stops v) (cur_col v)); [lia | lia | done |]. by apply Hw.
  - apply keeps_done; [|done]. apply vt_set_tabs_keeps; auto. intros _ j Hj. apply bit_at_zeros.
Qed.

Lemma dec_setting_keeps v cmd : wf v -> keeps v (vt_set_dec_setting v cmd) /\ keeps v (vt_unset_dec_setting v cmd).
Proof.
  intros Hw. unfold vt_set_dec_setting, vt_unset_dec_setting.
  assert (Hclear : keeps v (v ← vt_clear v; Done (vt_set_cursor_origin_relative v 0 0))).
  { apply draws_bind; [by apply vt_clear_draws|]. intros b Hw1.
    apply keeps_done; [by apply wf_set_cursor_origin | by rewrite parser_set_cursor_origin]. }
  assert (Horigin : forall b, keeps v (Done (vt_set_cursor_origin_relative (set_origin_mode b v) 0 0))).
  { intros b. apply keeps_done; [apply wf_set_cursor_origin; wf_same | by rewrite parser_set_cursor_origin]. }
  split; get_param Hw p Hp; repeat case_match; auto; apply keeps_done; auto; wf_same.
Qed.

Lemma lbracket_table_keeps v ch h :
  wf v -> esc_param_count v <= 10 -> ch <> 114 -> lbracket_table ch = Some h -> keeps v (h v ch).
Proof.
  intros Hw Hc Hr H. unfold lbracket_table in H. pose proof (wf_count _ Hw).
  repeat (case_match; [injection H as <-|]); try done.
  - apply set_attributes_keeps; auto; lia.
  - unfold vt_esc_cursor_move. get_param Hw p0 Hp0. get_param Hw p1 Hp1. cbv zeta.
    apply keeps_done; [by apply wf_set_cursor_origin | by rewrite parser_set_cursor_origin].
  - unfold vt_esc_cursor_cmd. get_param Hw p0 Hp0. cbv zeta.
    apply keeps_done; repeat case_match; auto using wf_set_cursor.
  - by apply vt_esc_disp_keeps.
  - by apply vt_esc_report_keeps.
  - by apply vt_esc_clear_line_keeps.
  - unfold vt_esc_set_mode. get_param Hw p0 Hp0. case_match; apply keeps_done; auto. wf_same.
  - unfold vt_esc_delete_line. destruct (count_param_ok v Hw) as (n & -> & Hn). obind.
    apply draws_keeps; by apply scroll_from_cursor_draws.
  - unfold vt_esc_delete_character. destruct (count_param_ok v Hw) as (n & -> & Hn). obind.
    apply draws_keeps; by apply shift_left_draws.
  - unfold vt_esc_insert_line. destruct (count_param_ok v Hw) as (n & -> & Hn). obind.
    apply draws_keeps; by apply scroll_up_draws.
  - unfold vt_esc_insert_character. destruct (count_param_ok v Hw) as (n & -> & Hn). obind.
    apply draws_keeps; by apply shift_right_draws.
  - apply keeps_done; by apply wf_tty_write.
  - lia.
  - by apply vt_unset_tab_keeps.
Qed.

Lemma reset_tab_stops_ok :
  exists t, reset_tab_stops = Done t /\ length t = 32%nat /\ forall j, 80 < j < 256 -> bit_at t j = false.
Proof.
  eexists. split; [vm_compute; reflexivity|]. split; [reflexivity|]. intros j Hj.
  assert (H : forallb (fun j => negb (bit_at [1;1;1;1;1;1;1;1;1;1;1;0;0;0;0;0;0;0;0;0;0;0;0;0;0;0;0;0;0;0;0;0] j))
    (seqZ 81 175) = true) by (vm_compute; reflexivity).
  rewrite forallb_forall in H. specialize (H j). rewrite negb_true_iff in H. apply H.
  apply list_elem_of_In, elem_of_seqZ. lia.
Qed.

Lemma wf_updatecur v : wf v -> wf (vt_updatecur v) /\ parser (vt_updatecur v) = parser v.
Proof. intros Hw. unfold vt_updatecur, call. case_match; (split; [wf_same || done | done]). Qed.

Lemma vt_reset_keeps v : wf v -> keeps v (vt_reset v).
Proof.
  intros Hw. pose proof (wf_bounds _ Hw). unfold vt_reset. destruct reset_tab_stops_ok as (t & -> & Hl & Ht).
  rewrite done_bind. cbv beta zeta. set (v1 := set_tab_stops t _).
  assert (Hw1 : wf v1).
  { destruct Hw. split; simpl; auto. - split; simpl; lia. - intros Htab j Hj. apply Ht. specialize (wf_wide0 Htab). lia. }
  destruct (vt_clear_draws v1 Hw1) as (b & -> & Hw2). rewrite done_bind.
  destruct (wf_updatecur _ Hw2) as [Hw3 Hp3]. by exists (vt_updatecur (set_buf b v1)).
Qed.

(** * The parser on its own *)

(** What a character does to the parser; [None] when it leads outside of the
    parameter array or the command tables, overflows a parameter, or selects
    a scrolling region. *)
Definition parser_step (p : vt_state * Z * list Z) (ch : Z) : option (vt_state * Z * list Z) :=
  let '(s, count, params) := p in
  if (ch =? 0) || bool_decide (ch ∈ [10; 13; 9; 8; 11; 12]) || ((ch =? 7) || (ch =? 14) || (ch =? 15)) then Some p
  else if ch =? 27 then Some (VT_STATE_ESC, count, params)
  else match s with
  | VT_STATE_BEGIN => Some p
  | VT_STATE_ESC =>
      if ch =? 91 then Some (VT_STATE_LBRACKET, 0, replicate 10 0)
      else if ch =? 35 then Some (VT_STATE_NUMBERSIGN, 0, replicate 10 0)
      else if ch =? 40 then Some (VT_STATE_OPENPAREN, count, params)
      else if ch =? 41 then Some (VT_STATE_CLOSEPAREN, count, params)
      else Some (VT_STATE_BEGIN, count, params)
  | VT_STATE_LBRACKET =>
      if (48 <=? ch) && (ch <=? 57) then
        p ← params !! Z.to_nat count;
        if p * 10 + (ch - 48) <? 2 ^ 31 then
          Some (VT_STATE_LBRACKET, count, <[Z.to_nat count := p * 10 + (ch - 48)]> params)
        else None
      else if ch =? 59 then if count <? 10 then Some (VT_STATE_LBRACKET, count + 1, params) else None
      else if ch =? 63 then Some p
      else if (0 <=? ch) && (ch <? 128) && (count <? 10) && negb (ch =? 114)
      then Some (VT_STATE_BEGIN, count + 1, params) else None
  | VT_STATE_NUMBERSIGN => if ch =? 56 then Some p else Some (VT_STATE_BEGIN, count, params)
  | VT_STATE_OPENPAREN | VT_STATE_CLOSEPAREN => Some (VT_STATE_BEGIN, count, params)
  end.

Fixpoint parser_run (p : vt_state * Z * list Z) (buf : list Z) : option (vt_state * Z * list Z) :=
  match buf with
  | [] => Some p
  | ch :: buf' => p ← parser_step p ch; parser_run p buf'
  end.

(** [m] succeeds, keeps the invariant, and takes the parser to [p]. *)
Definition steps_to (m : outcome vt) (p : vt_state * Z * list Z) : Prop :=
  exists v, m = Done v /\ wf v /\ parser v = p.

Lemma wf_set_state v s : wf v -> wf (set_state s v).
Proof. intros. wf_same. Qed.

Lemma steps_after v m s :
  keeps v m -> steps_to (v ← m; Done (set_state s v)) (s, esc_param_count v, esc_params v).
Proof.
  intros (v' & -> & Hw & Hp). rewrite done_bind. eexists. split; [done|].
  split; [by apply wf_set_state|]. unfold parser in *. simpl. injection Hp as _ -> ->. done.
Qed.

Lemma steps_done v p : wf v -> parser v = p -> steps_to (Done v) p.
Proof. intros. by exists v. Qed.

Lemma wf_clear_params v s : wf v -> wf (clear_params (set_state s v)).
Proof. intros []. split; simpl; auto; [|lia]. repeat constructor; lia. Qed.

(** The characters [__vt_process_char] deals with in every state. *)
Definition any_state (ch : Z) : bool :=
  (ch =? 0) || bool_decide (ch ∈ [10; 13; 9; 8; 11; 12]) || ((ch =? 7) || (ch =? 14) || (ch =? 15)) || (ch =? 27).

Lemma vt_state_esc_steps v ch p :
  wf v -> state v = VT_STATE_ESC -> parser_step (parser v) ch = Some p -> any_state ch = false ->
  steps_to (vt_state_esc v ch) p.
Proof.
  intros Hw Hs Hp Hc. apply orb_false_iff in Hc as [Hc H27].
  unfold parser_step, parser in Hp. rewrite Hc, Hs, H27 in Hp. unfold vt_state_esc. cbv zeta.
  pose proof (wf_bounds _ Hw).
  destruct (Z.eqb_spec ch 91); [injection Hp as <-; apply steps_done; [by apply wf_clear_params | done]|].
  destruct (Z.eqb_spec ch 35); [injection Hp as <-; subst ch; apply steps_done; [by apply wf_clear_params | done]|].
  destruct (Z.eqb_spec ch 40); [injection Hp as <-; subst ch; apply steps_done; [by apply wf_set_state | done]|].
  destruct (Z.eqb_spec ch 41); [injection Hp as <-; subst ch; apply steps_done; [by apply wf_set_state | done]|].
  injection Hp as <-. repeat case_match; try (apply steps_after).
  - unfold vt_esc_reverse_linefeed. case_match; [|apply draws_keeps, scroll_up_draws; auto; lia].
    apply keeps_done; [by apply wf_set_cursor | done].
  - by apply vt_putchar_keeps; [|right].
  - set (v1 := set_cursor_raw _ _ _). assert (Hw1 : wf v1).
    { apply wf_set_cursor_raw; [by apply wf_set_wrap_next | rewrite u8_small; simpl; lia | simpl; lia]. }
    destruct (vt_putchar_keeps v1 10 Hw1 ltac:(by right)) as (v' & ? & ? & Hp'). by exists v'.
  - apply keeps_done; [wf_same | done].
  - unfold vt_restore_cursor. cbv zeta. apply keeps_done; [|done].
    apply wf_set_wrap_next, wf_set_cursor. wf_same.
  - by apply vt_reset_keeps.
  - destruct (bit_update_total Z.setbit (tab_stops v) (cur_col v)) as [t Et]; [rewrite (wf_tabs _ Hw); lia|].
    unfold bit_set. rewrite Et, done_bind. apply steps_done; [|done]. apply wf_set_state, vt_set_tabs_keeps; auto.
    + apply bit_at_update in Et as [-> _]; [|lia]. by apply Hw.
    + intros Htab j Hj. rewrite (bit_set_other (tab_stops v) (cur_col v) t j) by (done || lia). by apply Hw.
  - apply steps_done; [by apply wf_set_state | done].
Qed.

Lemma run_table_keeps v ch :
  wf v -> 0 <= ch < 128 -> esc_param_count v <= 10 -> ch <> 114 ->
  keeps v (if dec_private v then run_table lbracket_table_dec_private v ch else run_table lbracket_table v ch).
Proof.
  intros Hw Hch Hc Hr. unfold run_table. replace ((ch <? 0) || (255 <? ch)) with false by lia.
  destruct (dec_private v).
  - unfold lbracket_table_dec_private. repeat case_match; simplify_eq; try by apply keeps_done.
    + apply dec_setting_keeps; auto.
    + apply dec_setting_keeps; auto.
  - destruct (lbracket_table ch) as [h|] eqn:E; [by apply lbracket_table_keeps | by apply keeps_done].
Qed.

Lemma vt_state_lbracket_steps v ch p :
  wf v -> state v = VT_STATE_LBRACKET -> parser_step (parser v) ch = Some p -> any_state ch = false ->
  steps_to (vt_state_lbracket v ch) p.
Proof.
  intros Hw Hs Hp Hc. apply orb_false_iff in Hc as [Hc H27]. pose proof (wf_count _ Hw) as Hcnt.
  unfold parser_step, parser in Hp. rewrite Hc, Hs, H27 in Hp. unfold vt_state_lbracket.
  case_match.
  - destruct (esc_params v !! Z.to_nat (esc_param_count v)) as [q|] eqn:Eq; simpl in Hp; [|done].
    case_match; [|done]. injection Hp as <-.
    assert (arr_get (esc_params v) (esc_param_count v) = Done q) as -> by (apply arr_get_done; auto with lia).
    rewrite done_bind. pose proof (wf_param_range _ Hw) as Hf. rewrite Forall_lookup in Hf.
    pose proof (Hf _ _ Eq) as Hq. pose proof (lookup_lt_Some _ _ _ Eq) as Hlt.
    rewrite !i32_small by (rewrite ?i32_small by lia; lia).
    rewrite arr_set_total by lia. rewrite done_bind. apply steps_done; [|unfold parser; simpl; by rewrite Hs].
    destruct Hw. split; simpl; auto; [by rewrite length_insert|]. apply Forall_insert; [done | lia].
  - case_match; [|case_match].
    + case_match; [|done]. injection Hp as <-. rewrite i32_small by lia.
      apply steps_done; [|unfold parser; simpl; by rewrite Hs]. destruct Hw. split; simpl; auto. lia.
    + injection Hp as <-. apply steps_done; [wf_same | unfold parser; simpl; by rewrite Hs].
    + case_match; [|done]. injection Hp as <-. cbv zeta. rewrite i32_small by lia.
      set (v1 := set_esc_param_count _ v). assert (Hw1 : wf v1) by (destruct Hw; split; simpl; auto; lia).
      destruct (run_table_keeps v1 ch Hw1) as (v2 & E & Hw2 & Hp2); [lia | simpl; lia | lia |].
      change (dec_private v1) with (dec_private v) in E |- *. rewrite E, done_bind.
      apply steps_done; [wf_same|]. unfold parser in *. simpl in *. injection Hp2 as _ -> ->. done.
Qed.

Lemma vt_process_char_steps v ch p :
  wf v -> tabs = true \/ ch <> 9 -> parser_step (parser v) ch = Some p -> steps_to (vt_process_char v ch) p.
Proof.
  intros Hw Htab Hp. unfold vt_process_char. destruct (any_state ch) eqn:Ha.
  - unfold parser_step, parser in Hp. unfold any_state in Ha. apply orb_true_iff in Ha as [Ha|Ha].
    + rewrite Ha in Hp. injection Hp as <-.
      case_match; [by apply steps_done|]. case_match; [by apply vt_putchar_keeps|].
      case_match; [by apply steps_done | done].
    + apply Z.eqb_eq in Ha as ->. simpl in Hp. injection Hp as <-. simpl.
      apply steps_done; [by apply wf_set_state | done].
  - pose proof Ha as Ha'. unfold any_state in Ha'.
    rewrite !orb_false_iff in Ha'. destruct Ha' as [[[Ha1 Ha2] Ha3] Ha4].
    rewrite Ha1, Ha2, Ha4. replace ((ch =? 7) || (ch =? 14) || (ch =? 15)) with false by lia.
    destruct (state v) eqn:Es; cbn [vt_states].
    + unfold parser_step, parser in Hp. rewrite Es in Hp.
      unfold vt_state_begin. rewrite Ha4. destruct (vt_putchar_keeps v ch Hw Htab) as (v' & ? & ? & Hp').
      exists v'. split_and!; auto. rewrite Hp'. unfold parser. rewrite Es.
      repeat case_match; simplify_eq; lia || done.
    + by apply vt_state_esc_steps.
    + by apply vt_state_lbracket_steps.
    + unfold parser_step, parser in Hp. rewrite Es in Hp. unfold vt_state_numbersign.
      pose proof (wf_bounds _ Hw).
      rewrite Ha1, Ha2, Ha4 in Hp. replace ((ch =? 7) || (ch =? 14) || (ch =? 15)) with false in Hp by lia.
      simpl in Hp. case_match; injection Hp as <-.
      * destruct (fill_rows_draws v 0 (rows v) {| chr := 69; color := screen_make_color SCR_DEF_FORGROUND SCR_DEF_BACKGROUND |})
          as (b & -> & Hw'); auto; [lia..|]. apply steps_done; [done|]. unfold parser. simpl. by rewrite Es.
      * apply steps_done; [by apply wf_set_state | done].
    + unfold parser_step, parser in Hp. rewrite Es, Ha1, Ha2, Ha4 in Hp.
      replace ((ch =? 7) || (ch =? 14) || (ch =? 15)) with false in Hp by lia. injection Hp as <-.
      apply steps_done; [by apply wf_set_state | done].
    + unfold parser_step, parser in Hp. rewrite Es, Ha1, Ha2, Ha4 in Hp.
      replace ((ch =? 7) || (ch =? 14) || (ch =? 15)) with false in Hp by lia. injection Hp as <-.
      apply steps_done; [by apply wf_set_state | done].
Qed.

Lemma vt_process_steps buf : forall v p,
  wf v -> tabs = true \/ 9 ∉ buf -> parser_run (parser v) buf = Some p -> steps_to (vt_process v buf) p.
Proof.
  induction buf as [|ch buf IH]; intros v p Hw Htab Hp; cbn [vt_process parser_run] in *.
  { injection Hp as <-. by apply steps_done. }
  destruct (parser_step (parser v) ch) as [p1|] eqn:E1; simpl in Hp; [|done].
  rewrite elem_of_cons in Htab.
  destruct (vt_process_char_steps v ch p1 Hw ltac:(intuition congruence) E1) as (v1 & -> & Hw1 & <-). rewrite done_bind. apply IH; [done | tauto | done].
Qed.

Lemma vt_write_steps v buf p :
  wf v -> tabs = true \/ 9 ∉ buf -> parser_run (parser v) buf = Some p ->
  exists v', vt_write v buf = Done (Z.of_nat (length buf), v') /\ wf v' /\ parser v' = p.
Proof.
  intros Hw Htab Hp. unfold vt_write. destruct (vt_process_steps buf v p Hw Htab Hp) as (v1 & -> & Hw1 & <-).
  rewrite done_bind. cbv zeta. eexists. split; [done|]. destruct (wf_updatecur v1 Hw1) as [Hw2 Hp2].
  case_match; [|done]. split; [wf_same | done].
Qed.

End Safe.

(** C30: On a terminal of at most 255 rows and columns whose scrolling region is the
    whole screen, every string the parser accepts is processed to its end without an
    access outside of the screen buffer, the parameter array, the tab stops or the
    command tables; the cursor stays on the screen and the terminal's parser state is
    the one the parser alone computes.  The parser refuses only sequences with more
    than ten parameters, parameters that do not fit an [int], commands that are not
    ASCII, and the selection of a scrolling region.  A string may have tabs if the
    terminal has more than 80 columns and no tab stop off the screen ([tabs] is
    true), which is not the case of the 80-column console: there the tab stop at
    80 takes the cursor off the screen (see [vt_write_out_of_bounds]), and the
    theorem is for strings without tabs. *)
Theorem vt_write_safe tabs v buf p :
  wf tabs v -> tabs = true \/ 9 ∉ buf -> parser_run (parser v) buf = Some p ->
  exists v', vt_write v buf = Done (Z.of_nat (length buf), v') /\ wf tabs v' /\ parser v' = p.
Proof. apply vt_write_steps. Qed.

(** A terminal as the driver sets it up, before [vt_init]. *)
Definition raw_vt (r c : Z) : vt :=
  {| rows := r; cols := c; buf := replicate (Z.to_nat (r * c)) {| chr := 0; color := 0 |};
     hooks := {| move_cursor := true; cursor_on := true; cursor_off := true; refresh := false |};
     has_tty := true; cur_row := 0; cur_col := 0; scroll_top := 0; scroll_bottom := 0;
     fg_color := 0; bg_color := 0; cur_attrs := 0;
     saved := {| saved_cur_row := 0; saved_cur_col := 0; saved_fg_color := 0; saved_bg_color := 0;
                 saved_cur_attrs := 0 |};
     wrap_next := false; dec_private := false; wrap_on := false; cursor_is_on := false;
     origin_mode := false; insert_mode := false; tab_stops := replicate 32 0; early_init := false;
     state := VT_STATE_BEGIN; esc_param_count := 0; esc_params := replicate 10 0; calls := [] |}.

Lemma raw_vt_wf tabs r c :
  0 < r <= 255 -> 0 < c <= 255 -> (tabs = true -> 80 < c) -> wf tabs (set_scroll_bottom r (raw_vt r c)).
Proof.
  intros Hr Hc Ht. split; try done; try (simpl; lia).
  - unfold wf_screen. simpl. rewrite length_replicate. nia.
  - split; simpl; lia.
  - intros _ j Hj. apply bit_at_zeros.
  - simpl. repeat constructor; lia.
Qed.

Definition wide_vt : vt := set_scroll_bottom 3 (raw_vt 3 100).
Definition console_vt : vt := set_scroll_bottom 25 (raw_vt 25 80).

(** ESC [ 2 ; 5 H x ESC [ 1 L on the console, and a tab on a wider terminal. *)
Lemma vt_write_safe_witness :
  (exists v', vt_write console_vt [27; 91; 50; 59; 53; 72; 120; 27; 91; 49; 76] = Done (11, v') /\ wf false v' /\
    parser v' = (VT_STATE_BEGIN, 1, [1; 0; 0; 0; 0; 0; 0; 0; 0; 0])) /\
  (exists v', vt_write wide_vt [9; 120] = Done (2, v') /\ wf true v' /\ parser v' = (VT_STATE_BEGIN, 0, [0; 0; 0; 0; 0; 0; 0; 0; 0; 0])).
Proof.
  split.
  - apply (vt_write_safe false console_vt); [apply raw_vt_wf; lia || done | right; apply (bool_decide_unpack _); vm_compute; exact I | reflexivity].
  - apply (vt_write_safe true wide_vt); [apply raw_vt_wf; lia | left; reflexivity | reflexivity].
Defined.

(** On the 80 by 25 screen of the text console, fresh from [vt_init],
    each of these short strings makes the terminal access memory outside of its
    arrays: a tab from the last column (the tab stop at 80 is off the screen) and
    then text on the last row; a line feed on the last row below a scrolling
    region and then a character; an eleventh parameter; and a command byte above
    127. *)
Theorem vt_write_out_of_bounds :
  exists v, vt_init (raw_vt 25 80) = Done v /\
    vt_write v (replicate 24 10 ++ replicate 10 9 ++ [120]) = Fault /\
    vt_write v ([27; 91; 49; 59; 53; 114] ++ [27; 91; 50; 53; 59; 49; 72] ++ [10; 120]) = Fault /\
    vt_write v ([27; 91] ++ replicate 10 59 ++ [49]) = Fault /\
    vt_write v [27; 91; -23] = Fault.
Proof.
  eexists. split; [vm_compute; reflexivity|]. split_and!; vm_compute; reflexivity.
Qed.
