(* ===== verification/IpRoute.v ===== *)
(** IPv4 addressing: network byte order (include/protura/net/types.h), the
    forwarding table (src/net/ipv4/ip_route.c) and the lookup of the socket a
    packet belongs to (src/net/ipv4/ip_socket_lookup.c).  An [n32] or [n16] is
    the raw integer the source's one-field struct holds.  An interface is a
    number; [up] says which interfaces have [NET_IFACE_UP] set. *)
From stdpp Require Import base numbers list gmap.
From Stdlib Require Import ZArith ZifyBool Lia.
From S2P Require Import Prelude Bits.
Open Scope Z_scope.

(** * Byte order *)

Definition htonl (h : Z) : Z :=
  Z.lor (Z.lor (Z.lor (Z.shiftr (Z.land h 0xFF000000) 24) (Z.shiftr (Z.land h 0x00FF0000) 8))
    (Z.shiftl (Z.land h 0x0000FF00) 8)) (Z.shiftl (Z.land h 0x000000FF) 24).

Definition ntohl (n : Z) : Z := htonl n.

Definition htons (h : Z) : Z :=
  Z.lor (Z.shiftr (Z.land h 0xFF00) 8) (Z.shiftl (Z.land h 0x00FF) 8).

Definition ntohs (n : Z) : Z := htons n.

(** * The forwarding table *)

Record ip_forward_route : Type := {
  fr_dest_ip : Z;
  fr_gateway_ip : Z;
  fr_iface : Z;
  fr_flags : Z;
}.

Record ip_forward_zone : Type := { route_list : list ip_forward_route; zone_mask : Z }.

(** The zones, indexed by prefix length, and the references taken on the
    interfaces. *)
Record ip_forward_table : Type := { zones : list ip_forward_zone; iface_refs : gmap Z Z }.

Record ip_route_entry : Type := {
  re_flags : Z;
  re_dest_ip : Z;
  re_gateway_ip : Z;
  re_iface : option Z;
}.

Definition IP_ROUTE_GATEWAY : Z := 0.

Definition in_addr_mask (addr mask : Z) : Z := Z.land addr mask.

Definition netmask_count (mask : Z) : Z :=
  if mask =? 0 then 0 else 32 - bit32_find_first_set (ntohl mask).

Definition netmask_create (count : Z) : Z :=
  if count =? 0 then htonl 0
  else htonl (u32 (Z.lnot (i32 (Z.shiftl 1 (32 - count)) - 1))).

Definition ip_route_init : ip_forward_table :=
  {| zones := (fun i => {| route_list := []; zone_mask := netmask_create i |}) <$> seqZ 0 33;
     iface_refs := ∅ |}.

Definition netdev_dup (refs : gmap Z Z) (iface : Z) : gmap Z Z :=
  <[iface := default 0 (refs !! iface) + 1]> refs.
Definition netdev_put (refs : gmap Z Z) (iface : Z) : gmap Z Z :=
  <[iface := default 0 (refs !! iface) - 1]> refs.

Definition zone_update (t : ip_forward_table) (i : Z) (f : list ip_forward_route -> list ip_forward_route)
  : outcome ip_forward_table :=
  z ← arr_get (zones t) i;
  zs ← arr_set (zones t) i {| route_list := f (route_list z); zone_mask := zone_mask z |};
  Done {| zones := zs; iface_refs := iface_refs t |}.

Definition ip_route_add (t : ip_forward_table) (dest_ip gateway_ip netmask iface flags : Z)
  : outcome ip_forward_table :=
  let count := netmask_count netmask in
  let route := {| fr_dest_ip := dest_ip; fr_gateway_ip := gateway_ip; fr_iface := iface; fr_flags := flags |} in
  t ← zone_update t count (fun l => l ++ [route]);
  Done {| zones := zones t; iface_refs := netdev_dup (iface_refs t) iface |}.

(** The first route of a list that goes to the same network, and the others. *)
Fixpoint take_route (l : list ip_forward_route) (dest_ip netmask : Z)
  : option (ip_forward_route * list ip_forward_route) :=
  match l with
  | [] => None
  | r :: l' =>
      if in_addr_mask (fr_dest_ip r) netmask =? in_addr_mask dest_ip netmask then Some (r, l')
      else '(r', l'') ← take_route l' dest_ip netmask; Some (r', r :: l'')
  end.

Definition ip_route_del (t : ip_forward_table) (dest_ip netmask : Z) : outcome (Z * ip_forward_table) :=
  let count := netmask_count netmask in
  z ← arr_get (zones t) count;
  match take_route (route_list z) dest_ip netmask with
  | None => Done (- ENODEV, t)
  | Some (r, rest) =>
      t ← zone_update t count (fun _ => rest);
      Done (0, {| zones := zones t; iface_refs := netdev_put (iface_refs t) (fr_iface r) |})
  end.

Section lookup.
  Context (up : Z -> bool).

Definition route_matches (mask dest_ip : Z) (r : ip_forward_route) : bool :=
  up (fr_iface r) && (in_addr_mask (fr_dest_ip r) mask =? in_addr_mask dest_ip mask).

(** The loop over the zones, from [zones[i]] down; [zs] are the zones up to
    there, longest prefix first. *)
Fixpoint find_route (zs : list ip_forward_zone) (dest_ip : Z) : option ip_forward_route :=
  match zs with
  | [] => None
  | z :: zs' =>
      match snd <$> list_find (fun r => route_matches (zone_mask z) dest_ip r = true) (route_list z) with
      | Some r => Some r
      | None => find_route zs' dest_ip
      end
  end.

Definition ip_route_get (t : ip_forward_table) (dest_ip : Z) (ret : ip_route_entry)
  : Z * ip_route_entry * ip_forward_table :=
  match find_route (reverse (zones t)) dest_ip with
  | Some r =>
      (0, {| re_flags := fr_flags r; re_dest_ip := dest_ip; re_gateway_ip := fr_gateway_ip r;
             re_iface := Some (fr_iface r) |},
       {| zones := zones t; iface_refs := netdev_dup (iface_refs t) (fr_iface r) |})
  | None => (- EACCES, ret, t)
  end.
End lookup.

Definition ip_route_get_ip (e : ip_route_entry) : Z :=
  if Z.testbit (re_flags e) IP_ROUTE_GATEWAY then re_gateway_ip e else re_dest_ip e.

Definition ip_route_clear (t : ip_forward_table) (e : ip_route_entry) : ip_route_entry * ip_forward_table :=
  ({| re_flags := re_flags e; re_dest_ip := re_dest_ip e; re_gateway_ip := re_gateway_ip e; re_iface := None |},
   match re_iface e with
   | Some i => {| zones := zones t; iface_refs := netdev_put (iface_refs t) i |}
   | None => t
   end).

(** * The sockets of the address family *)

Record ip_lookup : Type := {
  lk_proto : Z;
  lk_src_addr : Z;
  lk_src_port : Z;
  lk_dest_addr : Z;
  lk_dest_port : Z;
}.

(** One address or port of a socket against the packet's: zero matches
    anything, a match of a nonzero value counts one point. *)
Definition score_field (score : Z) (bound got : Z) : option Z :=
  if negb (bound =? 0) then if bound =? got then Some (score + 1) else None else Some score.

Definition lookup_score (s addr : ip_lookup) : option Z :=
  if negb (lk_proto s =? lk_proto addr) then None
  else
    score ← score_field 0 (lk_src_port s) (lk_src_port addr);
    score ← score_field score (lk_src_addr s) (lk_src_addr addr);
    score ← score_field score (lk_dest_port s) (lk_dest_port addr);
    score_field score (lk_dest_addr s) (lk_dest_addr addr).

(** [socks]: the sockets in list order, each a number with what it is bound to. *)
Fixpoint find_socket_from (socks : list (nat * ip_lookup)) (addr : ip_lookup) (total_max_score : Z)
    (ret : option nat) (maxscore : Z) : option nat :=
  match socks with
  | [] => ret
  | (s, rt) :: socks' =>
      match lookup_score rt addr with
      | None => find_socket_from socks' addr total_max_score ret maxscore
      | Some score =>
          if score =? total_max_score then Some s
          else if score <=? maxscore then find_socket_from socks' addr total_max_score ret maxscore
          else find_socket_from socks' addr total_max_score (Some s) score
      end
  end.

Record address_family_ip : Type := { af_sockets : list (nat * ip_lookup); sock_refs : gmap nat Z }.

Definition socket_dup (refs : gmap nat Z) (s : nat) : gmap nat Z := <[s := default 0 (refs !! s) + 1]> refs.
Definition socket_put (refs : gmap nat Z) (s : nat) : gmap nat Z := <[s := default 0 (refs !! s) - 1]> refs.

Definition ipaf_find_socket (af : address_family_ip) (addr : ip_lookup) (total_max_score : Z)
  : option nat * address_family_ip :=
  match find_socket_from (af_sockets af) addr total_max_score None 0 with
  | Some s => (Some s, {| af_sockets := af_sockets af; sock_refs := socket_dup (sock_refs af) s |})
  | None => (None, af)
  end.

Definition ipaf_add_socket (af : address_family_ip) (s : nat) (rt : ip_lookup) : address_family_ip :=
  {| af_sockets := af_sockets af ++ [(s, rt)]; sock_refs := socket_dup (sock_refs af) s |}.

Definition ipaf_remove_socket (af : address_family_ip) (s : nat) : address_family_ip :=
  if bool_decide (s ∈ (af_sockets af).*1)
  then {| af_sockets := filter (fun e => e.1 <> s) (af_sockets af); sock_refs := socket_put (sock_refs af) s |}
  else af.

(** * The longest prefix wins *)

Section lookup_proofs.
  Context (up : Z -> bool).

Definition no_match (z : ip_forward_zone) (dest_ip : Z) : Prop :=
  forall r, r ∈ route_list z -> route_matches up (zone_mask z) dest_ip r = false.

(** [r] is the first route of the zone that matches. *)
Definition first_match (z : ip_forward_zone) (dest_ip : Z) (r : ip_forward_route) : Prop :=
  exists before after, route_list z = before ++ r :: after /\
    route_matches up (zone_mask z) dest_ip r = true /\
    forall r', r' ∈ before -> route_matches up (zone_mask z) dest_ip r' = false.

Lemma find_route_some zs d r :
  find_route up zs d = Some r ->
  exists before z after, zs = before ++ z :: after /\ first_match z d r /\ forall z', z' ∈ before -> no_match z' d.
Proof.
  induction zs as [|z zs IH]; intros H; cbn [find_route] in H; [done|].
  destruct (list_find _ (route_list z)) as [[i r']|] eqn:E; simpl in H.
  - injection H as ->. apply list_find_Some in E as (Hl & Hm & Hb).
    exists [], z, zs. split_and!; [done | | by intros z' ?%elem_of_nil].
    exists (take i (route_list z)), (drop (S i) (route_list z)). split_and!; [|done|].
    + by rewrite take_drop_middle.
    + intros r' (j & Hj)%list_elem_of_lookup. apply not_true_is_false.
      apply lookup_take_Some in Hj as [Hj Hlt]. by eapply Hb.
  - apply list_find_None in E. destruct (IH H) as (before & z' & after & -> & Hf & Hb).
    exists (z :: before), z', after. split_and!; [done | done |].
    intros z'' [->|Hin]%elem_of_cons; [|auto]. intros r' Hin. apply not_true_is_false.
    rewrite Forall_forall in E. by apply E.
Qed.

Lemma find_route_none zs d : find_route up zs d = None -> forall z, z ∈ zs -> no_match z d.
Proof.
  induction zs as [|z zs IH]; intros H z' Hin; cbn [find_route] in H; [by apply elem_of_nil in Hin|].
  destruct (list_find _ (route_list z)) as [[i r']|] eqn:E; simpl in H; [done|].
  apply elem_of_cons in Hin as [->|Hin]; [|auto]. apply list_find_None in E. rewrite Forall_forall in E.
  intros r Hr. apply not_true_is_false. by apply E.
Qed.

(** C36: A lookup finds the first route, in insertion order, of the longest
    prefix length that has a matching route over an interface that is up, and
    takes a reference on its interface; it fails with [-EACCES], changing
    nothing, exactly when no route of any prefix length matches. *)
Theorem ip_route_get_longest_prefix t d ret :
  let '(err, e, t') := ip_route_get up t d ret in
  (err = 0 /\ exists shorter z longer r, zones t = shorter ++ z :: longer /\ first_match z d r /\
     (forall z', z' ∈ longer -> no_match z' d) /\
     e = {| re_flags := fr_flags r; re_dest_ip := d; re_gateway_ip := fr_gateway_ip r; re_iface := Some (fr_iface r) |} /\
     zones t' = zones t /\ iface_refs t' = netdev_dup (iface_refs t) (fr_iface r)) \/
  (err = - EACCES /\ e = ret /\ t' = t /\ forall z, z ∈ zones t -> no_match z d).
Proof.
  unfold ip_route_get. destruct (find_route up (reverse (zones t)) d) as [r|] eqn:E.
  - left. split; [done|]. destruct (find_route_some _ _ _ E) as (before & z & after & Hz & Hf & Hb).
    exists (reverse after), z, (reverse before), r. split_and!; auto.
    + rewrite <- (reverse_involutive (zones t)), Hz, reverse_app, reverse_cons, <- app_assoc. done.
    + intros z' Hin. apply Hb. by apply elem_of_reverse.
  - right. split_and!; auto. intros z Hin. eapply find_route_none; [done|]. by apply elem_of_reverse.
Qed.

(** The table as [ip_route_init] builds it: zone [i] has the netmask of [i] ones. *)
Definition zones_ok (t : ip_forward_table) : Prop := zone_mask <$> zones t = netmask_create <$> seqZ 0 33.

Lemma netmask_roundtrip i : 0 <= i <= 32 -> netmask_count (netmask_create i) = i.
Proof.
  intros Hi. assert (H : forallb (fun i => netmask_count (netmask_create i) =? i) (seqZ 0 33) = true) by (vm_compute; reflexivity).
  rewrite forallb_forall in H. specialize (H i). rewrite Z.eqb_eq in H. apply H.
  apply list_elem_of_In, elem_of_seqZ. lia.
Qed.

Lemma zone_at t i : zones_ok t -> 0 <= i <= 32 ->
  exists z, zones t !! Z.to_nat i = Some z /\ zone_mask z = netmask_create i.
Proof.
  intros Hok Hi. assert (H : (zone_mask <$> zones t) !! Z.to_nat i = Some (netmask_create i)).
  { rewrite Hok, list_lookup_fmap, lookup_seqZ_lt by lia. simpl. do 2 f_equal. lia. }
  rewrite list_lookup_fmap in H. destruct (zones t !! Z.to_nat i) as [z|]; [|done].
  injection H as H. by exists z.
Qed.

(** A route added for the network of [dest] with a prefix of [i] bits over
    an interface that is up makes every address of that network routable, and
    keeps the table's zones in order. *)
Theorem ip_route_add_get t dest gw i iface flags d ret :
  zones_ok t -> 0 <= i <= 32 -> up iface = true ->
  in_addr_mask d (netmask_create i) = in_addr_mask dest (netmask_create i) ->
  exists t', ip_route_add t dest gw (netmask_create i) iface flags = Done t' /\ zones_ok t' /\
    (ip_route_get up t' d ret).1.1 = 0.
Proof.
  intros Hok Hi Hup Hd. unfold ip_route_add, zone_update. rewrite netmask_roundtrip by done.
  destruct (zone_at t i Hok Hi) as (z & Hz & Hm). pose proof (lookup_lt_Some _ _ _ Hz) as Hlt.
  assert (arr_get (zones t) i = Done z) as -> by (apply arr_get_done; auto with lia). obind.
  rewrite arr_set_total by lia. obind. eexists. split; [done|]. split.
  - unfold zones_ok in *. cbn [zones]. rewrite list_fmap_insert. cbn [zone_mask].
    rewrite list_insert_id; [done|]. rewrite list_lookup_fmap, Hz. done.
  - set (z' := {| route_list := _; zone_mask := _ |}). unfold ip_route_get. cbn [zones].
    destruct (find_route up _ d) as [r|] eqn:E; [done|]. exfalso.
    assert (Hin : z' ∈ reverse (<[Z.to_nat i:=z']> (zones t))).
    { apply elem_of_reverse, list_elem_of_insert. lia. }
    pose proof (find_route_none _ _ E _ Hin) as Hno.
    specialize (Hno {| fr_dest_ip := dest; fr_gateway_ip := gw; fr_iface := iface; fr_flags := flags |}).
    unfold route_matches in Hno. simpl in Hno. rewrite Hup, Hm, Hd, Z.eqb_refl in Hno.
    discriminate Hno. apply elem_of_app. right. by apply list_elem_of_singleton.
Qed.
End lookup_proofs.

Lemma ip_route_add_get_witness :
  exists t', ip_route_add ip_route_init (htonl 0x0A000200) 0 (netmask_create 24) 1 0 = Done t' /\ zones_ok t' /\
    (ip_route_get (fun _ => true) t' (htonl 0x0A000205)
       {| re_flags := 0; re_dest_ip := 0; re_gateway_ip := 0; re_iface := None |}).1.1 = 0.
Proof.
  apply (ip_route_add_get (fun _ => true) ip_route_init (htonl 0x0A000200) 0 24 1 0 (htonl 0x0A000205));
    [reflexivity | lia | reflexivity | vm_compute; reflexivity].
Defined.

(** * The best match wins *)

Lemma score_field_le score bound got k : score_field score bound got = Some k -> score <= k <= score + 1.
Proof. unfold score_field. repeat case_match; intros; simplify_eq; lia. Qed.

Lemma lookup_score_range s addr k : lookup_score s addr = Some k -> 0 <= k <= 4.
Proof.
  unfold lookup_score. case_match; [done|]. intros Hk.
  repeat match goal with
  | H : (_ ≫= _) = Some _ |- _ => apply bind_Some in H as (? & ? & ?)
  | H : score_field _ _ _ = Some _ |- _ => apply score_field_le in H
  end. lia.
Qed.

Lemma find_socket_from_spec socks addr : forall ret maxscore,
  0 <= maxscore <= 4 ->
  let r := find_socket_from socks addr 4 ret maxscore in
  (r = ret /\ forall e k, e ∈ socks -> lookup_score e.2 addr = Some k -> k <= maxscore) \/
  (exists s rt k, r = Some s /\ (s, rt) ∈ socks /\ lookup_score rt addr = Some k /\ maxscore <= k /\ 0 < k /\
     forall e k', e ∈ socks -> lookup_score e.2 addr = Some k' -> k' <= k).
Proof.
  induction socks as [|[s rt] socks IH]; intros ret maxscore H0; cbn [find_socket_from].
  { left. split; [done|]. by intros e k ?%elem_of_nil. }
  assert (Hskip : forall ret' ms, 0 <= ms <= 4 -> maxscore <= ms -> (forall k, lookup_score rt addr = Some k -> k <= ms) ->
    let r := find_socket_from socks addr 4 ret' ms in
    (r = ret' /\ forall e k, e ∈ (s, rt) :: socks -> lookup_score e.2 addr = Some k -> k <= ms) \/
    (exists s' rt' k, r = Some s' /\ (s', rt') ∈ (s, rt) :: socks /\ lookup_score rt' addr = Some k /\ ms <= k /\ 0 < k /\
       forall e k', e ∈ (s, rt) :: socks -> lookup_score e.2 addr = Some k' -> k' <= k)).
  { intros ret' ms Hms Hle Hrt. destruct (IH ret' ms Hms) as [[Hr Hall]|(s' & rt' & k & Hr & Hin & Hk & Hmk & Hk0 & Hall)].
    - left. split; [done|]. intros e k [->|Hin]%elem_of_cons; [apply Hrt | by apply Hall].
    - right. exists s', rt', k. split_and!; [done | by apply elem_of_cons; right | done | done | done |].
      intros e k' [->|Hin']%elem_of_cons Hk'; [|by eapply Hall]. apply Hrt in Hk'. lia. }
  destruct (lookup_score rt addr) as [score|] eqn:Es; [|by apply Hskip].
  pose proof (lookup_score_range _ _ _ Es) as Hsc.
  destruct (Z.eqb_spec score 4) as [->|Hne].
  { right. exists s, rt, 4. split_and!; [done | by apply elem_of_cons; left | done | lia | lia |].
    intros e k' _ Hk'. apply lookup_score_range in Hk'. lia. }
  destruct (Z.leb_spec score maxscore).
  - apply Hskip; auto; [lia|]. intros k [= <-]. done.
  - destruct (Hskip (Some s) score) as [[Hr Hall]|(s' & rt' & k & Hr & Hin & Hk & Hmk & Hk0 & Hall)];
      [lia | lia | by intros k [= <-] | |].
    + right. exists s, rt, score. split_and!; [done | by apply elem_of_cons; left | done | lia | lia | done].
    + right. exists s', rt', k. split_and!; auto; lia.
Qed.

(** Among the sockets bound compatibly with a packet's addresses and
    ports, the lookup returns one that no other beats in the number of exact
    matches, and takes a reference on it; it returns none only when every
    compatible socket matches in nothing but the protocol. *)
Theorem ipaf_find_socket_best af addr :
  match ipaf_find_socket af addr 4 with
  | (Some s, af') =>
      af_sockets af' = af_sockets af /\ sock_refs af' = socket_dup (sock_refs af) s /\
      exists rt k, (s, rt) ∈ af_sockets af /\ lookup_score rt addr = Some k /\ 0 < k /\
        forall e k', e ∈ af_sockets af -> lookup_score e.2 addr = Some k' -> k' <= k
  | (None, af') => af' = af /\ forall e k, e ∈ af_sockets af -> lookup_score e.2 addr = Some k -> k = 0
  end.
Proof.
  unfold ipaf_find_socket.
  destruct (find_socket_from_spec (af_sockets af) addr None 0 ltac:(lia))
    as [[-> Hall]|(s & rt & k & -> & Hin & Hk & _ & Hk0 & Hall)].
  - split; [done|]. intros e k Hin Hk. pose proof (Hall e k Hin Hk). apply lookup_score_range in Hk. lia.
  - split_and!; eauto 10.
Qed.
