(* ===== verification/Tcp.v ===== *)
(** TCP (src/net/ipv4/tcp.c, tcp_input.c, tcp_data.c, tcp_output.c, tcp_timer.c and
    the socket state of src/net/socket.c): sequence numbers, the checksum and
    the wire format, and the socket's state.  Sequence numbers are 32-bit
    unsigned; segments given to the IP layer, packets released and wait queues
    woken are recorded in the socket's [trace].  The delayed-ack work is the
    [delack] flag (scheduled or not), as the timer layer reports it. *)
From stdpp Require Import base numbers list gmap.
From Stdlib Require Import ZArith ZifyBool Lia.
From S2P Require Import Prelude UserMem Bits IpRoute.
Open Scope Z_scope.

(** * Sequence numbers *)

Definition tcp_seq_before (seq1 seq2 : Z) : bool := i32 (u32 (seq1 - seq2)) <? 0.
Definition tcp_seq_after (seq1 seq2 : Z) : bool := 0 <? i32 (u32 (seq1 - seq2)).
Definition tcp_seq_between (seq1 seq2 seq3 : Z) : bool :=
  tcp_seq_before seq1 seq2 && tcp_seq_before seq2 seq3.

(** * Data *)

(** [TCP_NONE] is the zero a new socket starts with. *)
Inductive tcp_state : Type :=
| TCP_NONE
| TCP_ESTABLISHED
| TCP_SYN_SENT
| TCP_SYN_RECV
| TCP_FIN_WAIT1
| TCP_FIN_WAIT2
| TCP_TIME_WAIT
| TCP_CLOSE
| TCP_CLOSE_WAIT
| TCP_LAST_ACK
| TCP_LISTEN
| TCP_CLOSING.

Inductive socket_state : Type :=
| SOCKET_UNCONNECTED
| SOCKET_CONNECTING
| SOCKET_CONNECTED
| SOCKET_DISCONNECTING.

Record tcp_flags : Type := { fin : bool; syn : bool; rst : bool; psh : bool; ack : bool; urg : bool }.

Definition no_flags : tcp_flags :=
  {| fin := false; syn := false; rst := false; psh := false; ack := false; urg := false |}.

Record tcp_socket_private : Type := {
  state : tcp_state;
  iss : Z;
  irs : Z;
  rcv_nxt : Z;
  rcv_up : Z;
  rcv_wnd : Z;
  snd_nxt : Z;
  snd_una : Z;
  snd_up : Z;
  snd_wnd : Z;
  snd_wl1 : Z;
  snd_wl2 : Z;
}.

Definition set_state (y : tcp_state) (p : tcp_socket_private) : tcp_socket_private :=
  {| state := y; iss := iss p; irs := irs p; rcv_nxt := rcv_nxt p; rcv_up := rcv_up p;
     rcv_wnd := rcv_wnd p; snd_nxt := snd_nxt p; snd_una := snd_una p; snd_up := snd_up p;
     snd_wnd := snd_wnd p; snd_wl1 := snd_wl1 p; snd_wl2 := snd_wl2 p |}.
Definition set_irs (y : Z) (p : tcp_socket_private) : tcp_socket_private :=
  {| state := state p; iss := iss p; irs := y; rcv_nxt := rcv_nxt p; rcv_up := rcv_up p;
     rcv_wnd := rcv_wnd p; snd_nxt := snd_nxt p; snd_una := snd_una p; snd_up := snd_up p;
     snd_wnd := snd_wnd p; snd_wl1 := snd_wl1 p; snd_wl2 := snd_wl2 p |}.
Definition set_rcv_nxt (y : Z) (p : tcp_socket_private) : tcp_socket_private :=
  {| state := state p; iss := iss p; irs := irs p; rcv_nxt := y; rcv_up := rcv_up p;
     rcv_wnd := rcv_wnd p; snd_nxt := snd_nxt p; snd_una := snd_una p; snd_up := snd_up p;
     snd_wnd := snd_wnd p; snd_wl1 := snd_wl1 p; snd_wl2 := snd_wl2 p |}.
Definition set_snd_nxt (y : Z) (p : tcp_socket_private) : tcp_socket_private :=
  {| state := state p; iss := iss p; irs := irs p; rcv_nxt := rcv_nxt p; rcv_up := rcv_up p;
     rcv_wnd := rcv_wnd p; snd_nxt := y; snd_una := snd_una p; snd_up := snd_up p;
     snd_wnd := snd_wnd p; snd_wl1 := snd_wl1 p; snd_wl2 := snd_wl2 p |}.
Definition set_snd_una (y : Z) (p : tcp_socket_private) : tcp_socket_private :=
  {| state := state p; iss := iss p; irs := irs p; rcv_nxt := rcv_nxt p; rcv_up := rcv_up p;
     rcv_wnd := rcv_wnd p; snd_nxt := snd_nxt p; snd_una := y; snd_up := snd_up p;
     snd_wnd := snd_wnd p; snd_wl1 := snd_wl1 p; snd_wl2 := snd_wl2 p |}.
Definition set_snd_wnd (y : Z) (p : tcp_socket_private) : tcp_socket_private :=
  {| state := state p; iss := iss p; irs := irs p; rcv_nxt := rcv_nxt p; rcv_up := rcv_up p;
     rcv_wnd := rcv_wnd p; snd_nxt := snd_nxt p; snd_una := snd_una p; snd_up := snd_up p;
     snd_wnd := y; snd_wl1 := snd_wl1 p; snd_wl2 := snd_wl2 p |}.
Definition set_snd_wl1 (y : Z) (p : tcp_socket_private) : tcp_socket_private :=
  {| state := state p; iss := iss p; irs := irs p; rcv_nxt := rcv_nxt p; rcv_up := rcv_up p;
     rcv_wnd := rcv_wnd p; snd_nxt := snd_nxt p; snd_una := snd_una p; snd_up := snd_up p;
     snd_wnd := snd_wnd p; snd_wl1 := y; snd_wl2 := snd_wl2 p |}.
Definition set_snd_wl2 (y : Z) (p : tcp_socket_private) : tcp_socket_private :=
  {| state := state p; iss := iss p; irs := irs p; rcv_nxt := rcv_nxt p; rcv_up := rcv_up p;
     rcv_wnd := rcv_wnd p; snd_nxt := snd_nxt p; snd_una := snd_una p; snd_up := snd_up p;
     snd_wnd := snd_wnd p; snd_wl1 := snd_wl1 p; snd_wl2 := y |}.


(** One segment as it is parsed from the wire: the fields of [tcp_packet_cb], what
    is left of the packet after its header ([plen] is [tail - head] as a
    [size_t]), and the addresses a reset is sent back to. *)
Record packet : Type := {
  seq : Z;
  ack_seq : Z;
  window : Z;
  flags : tcp_flags;
  data : list Z;
  plen : Z;
  from_ip : Z;
  from_port : Z;
  to_port : Z;
}.

(** A segment handed to [ip_tx]. *)
Record segment : Type := {
  o_src_port : Z;
  o_dest_addr : Z;
  o_dest_port : Z;
  o_seq : Z;
  o_ack_seq : Z;
  o_window : Z;
  o_flags : tcp_flags;
  o_data : list Z;
}.

Inductive event : Type :=
| Sent (s : segment)
| Freed (p : list Z)
| WakeState
| WakeRecv.

(** The socket, with what it made happen outside of it. *)
Record socket : Type := {
  refs : Z;
  sk_state : socket_state;
  last_err : Z;
  tcp : tcp_socket_private;
  delack : bool;
  ip : ip_lookup;
  route : ip_route_entry;
  recv_queue : list packet;
  out_of_order_queue : list packet;
  trace : list event;
}.

Definition set_refs (y : Z) (s : socket) : socket :=
  {| refs := y; sk_state := sk_state s; last_err := last_err s; tcp := tcp s;
     delack := delack s; ip := ip s; route := route s; recv_queue := recv_queue s;
     out_of_order_queue := out_of_order_queue s; trace := trace s |}.
Definition set_sk_state (y : socket_state) (s : socket) : socket :=
  {| refs := refs s; sk_state := y; last_err := last_err s; tcp := tcp s; delack := delack s;
     ip := ip s; route := route s; recv_queue := recv_queue s;
     out_of_order_queue := out_of_order_queue s; trace := trace s |}.
Definition set_last_err (y : Z) (s : socket) : socket :=
  {| refs := refs s; sk_state := sk_state s; last_err := y; tcp := tcp s; delack := delack s;
     ip := ip s; route := route s; recv_queue := recv_queue s;
     out_of_order_queue := out_of_order_queue s; trace := trace s |}.
Definition set_tcp (y : tcp_socket_private) (s : socket) : socket :=
  {| refs := refs s; sk_state := sk_state s; last_err := last_err s; tcp := y;
     delack := delack s; ip := ip s; route := route s; recv_queue := recv_queue s;
     out_of_order_queue := out_of_order_queue s; trace := trace s |}.
Definition set_delack (y : bool) (s : socket) : socket :=
  {| refs := refs s; sk_state := sk_state s; last_err := last_err s; tcp := tcp s;
     delack := y; ip := ip s; route := route s; recv_queue := recv_queue s;
     out_of_order_queue := out_of_order_queue s; trace := trace s |}.
Definition set_ip (y : ip_lookup) (s : socket) : socket :=
  {| refs := refs s; sk_state := sk_state s; last_err := last_err s; tcp := tcp s;
     delack := delack s; ip := y; route := route s; recv_queue := recv_queue s;
     out_of_order_queue := out_of_order_queue s; trace := trace s |}.
Definition set_route (y : ip_route_entry) (s : socket) : socket :=
  {| refs := refs s; sk_state := sk_state s; last_err := last_err s; tcp := tcp s;
     delack := delack s; ip := ip s; route := y; recv_queue := recv_queue s;
     out_of_order_queue := out_of_order_queue s; trace := trace s |}.
Definition set_recv_queue (y : list packet) (s : socket) : socket :=
  {| refs := refs s; sk_state := sk_state s; last_err := last_err s; tcp := tcp s;
     delack := delack s; ip := ip s; route := route s; recv_queue := y;
     out_of_order_queue := out_of_order_queue s; trace := trace s |}.
Definition set_out_of_order_queue (y : list packet) (s : socket) : socket :=
  {| refs := refs s; sk_state := sk_state s; last_err := last_err s; tcp := tcp s;
     delack := delack s; ip := ip s; route := route s; recv_queue := recv_queue s;
     out_of_order_queue := y; trace := trace s |}.
Definition set_trace (y : list event) (s : socket) : socket :=
  {| refs := refs s; sk_state := sk_state s; last_err := last_err s; tcp := tcp s;
     delack := delack s; ip := ip s; route := route s; recv_queue := recv_queue s;
     out_of_order_queue := out_of_order_queue s; trace := y |}.


Definition emit (e : event) (s : socket) : socket := set_trace (trace s ++ [e]) s.
Definition packet_free (p : packet) (s : socket) : socket := emit (Freed (data p)) s.

Definition tcp_set (f : tcp_socket_private -> tcp_socket_private) (s : socket) : socket := set_tcp (f (tcp s)) s.

(** * The socket's state (src/net/socket.c) *)

Definition socket_last_error (s : socket) : Z * socket := (last_err s, set_last_err 0 s).

Definition socket_set_last_error (s : socket) (err : Z) : socket := emit WakeState (set_last_err err s).

Definition socket_state_change (s : socket) (st : socket_state) : socket := emit WakeState (set_sk_state st s).

Global Instance socket_state_eq : EqDecision socket_state.
Proof. solve_decision. Defined.

(** [cmpxchg] returns the value it found; the wake-up compares it with [new]. *)
Definition socket_state_cmpxchg (s : socket) (cur new : socket_state) : socket_state * socket :=
  let ret := sk_state s in
  let s := if bool_decide (ret = cur) then set_sk_state new s else s in
  let s := if bool_decide (ret = new) then emit WakeState s else s in
  (ret, s).

(** * Timers (tcp_timer.c) *)

Definition tcp_delack_timer_stop (s : socket) : socket :=
  if delack s then set_refs (refs s - 1) (set_delack false s) else s.

Definition tcp_delack_timer_start (s : socket) : socket :=
  if delack s then s else set_refs (refs s + 1) (set_delack true s).

Definition tcp_timers_reset (s : socket) : socket := tcp_delack_timer_stop s.

(** * Sending (tcp_output.c) *)

Definition EDESTADDRREQ : Z := 121.

(** [ip_packet_fill_route] uses the cached route of a connected or connecting
    socket; there is no other address to send to. *)
Definition ip_packet_fill_route (s : socket) : Z :=
  match sk_state s with
  | SOCKET_CONNECTING | SOCKET_CONNECTED => 0
  | _ => - EDESTADDRREQ
  end.

Definition tcp_send (s : socket) (sq ak win : Z) (fl : tcp_flags) (d : list Z) : socket :=
  if negb (ip_packet_fill_route s =? 0) then emit (Freed d) s
  else
    emit (Sent {| o_src_port := lk_src_port (ip s); o_dest_addr := lk_dest_addr (ip s);
                  o_dest_port := lk_dest_port (ip s); o_seq := sq; o_ack_seq := ak; o_window := win;
                  o_flags := fl; o_data := d |})
      (set_refs (refs s + 1) s).

Definition syn_flags : tcp_flags :=
  {| fin := false; syn := true; rst := false; psh := false; ack := false; urg := false |}.
Definition ack_flags : tcp_flags :=
  {| fin := false; syn := false; rst := false; psh := false; ack := true; urg := false |}.

Definition tcp_send_syn (s : socket) : socket :=
  let p := tcp s in
  let s := tcp_send s (snd_nxt p) (rcv_nxt p) (rcv_wnd p) syn_flags [] in
  tcp_set (set_state TCP_SYN_SENT) s.

Definition tcp_send_ack (s : socket) : socket :=
  let p := tcp s in
  let s := tcp_delack_timer_stop s in
  tcp_send s (snd_nxt p) (rcv_nxt p) (rcv_wnd p) ack_flags [].

(** The reset for a received segment; [None] for a reset itself.  [routable]
    says whether [ip_packet_fill_raw] finds a route back. *)
Definition reset_for (p : packet) : option segment :=
  if rst (flags p) then None
  else
    Some
      {| o_src_port := to_port p; o_dest_addr := from_ip p; o_dest_port := from_port p;
         o_seq := if ack (flags p) then ack_seq p else 0;
         o_ack_seq := if ack (flags p) then 0
                      else u32 (u32 (seq p + plen p) + if syn (flags p) then 1 else 0);
         o_window := 0;
         o_flags := {| fin := false; syn := false; rst := true; psh := false;
                       ack := negb (ack (flags p)); urg := false |};
         o_data := [] |}.

Definition tcp_send_reset (routable : bool) (p : packet) (s : socket) : socket :=
  let s := match reset_for p with
           | Some seg => if routable then emit (Sent seg) s else emit (Freed []) s
           | None => s
           end in
  packet_free p s.

(** The delayed-ack work. *)
Definition delack_callback (s : socket) : socket :=
  let s := tcp_send_ack (set_delack false s) in
  set_refs (refs s - 1) s.

(** * Receiving data (tcp_data.c) *)

Definition tcp_fin (s : socket) : socket :=
  match state (tcp s) with
  | TCP_SYN_RECV | TCP_ESTABLISHED => tcp_set (set_state TCP_CLOSE_WAIT) s
  | TCP_FIN_WAIT2 => tcp_set (set_state TCP_TIME_WAIT) s
  | _ => s
  end.

(** The packet goes before the first one with a later sequence number. *)
Fixpoint ooo_insert (q : list packet) (p : packet) : list packet :=
  match q with
  | [] => [p]
  | cur :: q' => if tcp_seq_before (seq p) (seq cur) then p :: cur :: q' else cur :: ooo_insert q' p
  end.

Definition add_to_ooo_queue (s : socket) (p : packet) : socket :=
  set_out_of_order_queue (ooo_insert (out_of_order_queue s) p) s.

Definition socket_recv_packet (s : socket) (p : packet) : socket :=
  let s := tcp_set (fun t => set_rcv_nxt (u32 (rcv_nxt t + plen p)) t) s in
  let s := if fin (flags p) then tcp_fin (tcp_set (fun t => set_rcv_nxt (u32 (rcv_nxt t + 1)) t) s) else s in
  set_recv_queue (recv_queue s ++ [p]) s.

(** One pass over the queue; [kept] are the packets passed over. *)
Fixpoint consolidate_from (q : list packet) (kept : list packet) (s : socket) : socket :=
  match q with
  | [] => set_out_of_order_queue kept s
  | p :: q' =>
      if seq p =? rcv_nxt (tcp s) then consolidate_from q' kept (socket_recv_packet s p)
      else consolidate_from q' (kept ++ [p]) s
  end.

Definition consolidate_ooo_queue (s : socket) : socket :=
  consolidate_from (out_of_order_queue s) [] s.

Definition tcp_recv_data (s : socket) (p : packet) : socket :=
  if rcv_wnd (tcp s) =? 0 then packet_free p s
  else if seq p =? rcv_nxt (tcp s) then
    let s := socket_recv_packet s p in
    let s := consolidate_ooo_queue s in
    let s := emit WakeRecv s in
    tcp_delack_timer_start s
  else
    let s := add_to_ooo_queue s p in
    tcp_send_ack s.

(** * Segment arrival (tcp_input.c) *)

Definition tcp_sequence_valid (s : socket) (p : packet) : bool :=
  let t := tcp s in
  let seg_length := plen p in
  let in_window x := tcp_seq_between (u32 (rcv_nxt t - 1)) x (u32 (rcv_nxt t + rcv_wnd t)) in
  ((seg_length =? 0) && (rcv_wnd t =? 0) && (seq p =? rcv_nxt t))
  || ((seg_length =? 0) && negb (rcv_wnd t =? 0) && in_window (seq p))
  || (negb (seg_length =? 0) && negb (rcv_wnd t =? 0) &&
      (in_window (seq p) || in_window (u32 (seq p + seg_length - 1)))).

Section input.
  Context (routable : Z -> bool).

Definition send_reset (p : packet) (s : socket) : socket := tcp_send_reset (routable (from_ip p)) p s.

Definition tcp_closed (s : socket) (p : packet) : socket := send_reset p s.

Definition tcp_listen (s : socket) (p : packet) : socket := packet_free p s.

(** The comparisons of this state are plain unsigned ones. *)
Definition tcp_syn_sent (s : socket) (p : packet) : socket :=
  let t := tcp s in
  if ack (flags p) && ((ack_seq p <=? iss t) || (snd_nxt t <? ack_seq p) || (ack_seq p <? snd_una t)) then
    send_reset p s
  else if rst (flags p) then
    let s := tcp_set (set_state TCP_CLOSE) s in
    let s := socket_set_last_error s (- ECONNREFUSED) in
    let s := socket_state_change s SOCKET_UNCONNECTED in
    packet_free p s
  else if negb (syn (flags p)) then packet_free p s
  else
    let s := tcp_set (fun t => set_irs (seq p) (set_rcv_nxt (u32 (seq p + 1)) t)) s in
    let s := if ack (flags p) then tcp_set (set_snd_una (ack_seq p)) s else s in
    let s :=
      if iss (tcp s) <? snd_una (tcp s) then
        let s := tcp_set (fun t => set_snd_una (snd_nxt t) t) s in
        let s := tcp_send_ack s in
        let s := tcp_set (set_state TCP_ESTABLISHED) s in
        socket_state_change s SOCKET_CONNECTED
      else tcp_set (fun t => set_snd_una (iss t) (set_state TCP_SYN_RECV t)) s in
    packet_free p s.

(** What the ACK processing decides about the packet: go on, drop it, or leave
    it to the reset that was sent. *)
Inductive verdict : Type := Continue | Drop | Consumed.

(** "fifth: check ACK bit", for the states that have an acknowledged window. *)
Definition tcp_ack_window (s : socket) (p : packet) : verdict * socket :=
  let acceptable (t : tcp_socket_private) := tcp_seq_between (snd_una t) (ack_seq p) (u32 (snd_nxt t + 1)) in
  let s := if acceptable (tcp s) then tcp_set (set_snd_una (ack_seq p)) s else s in
  if tcp_seq_after (ack_seq p) (snd_nxt (tcp s)) then (Drop, s)
  else
    let t := tcp s in
    if acceptable t &&
       (tcp_seq_before (snd_wl1 t) (seq p)
        || ((snd_wl1 t =? seq p) && tcp_seq_before (u32 (snd_wl2 t + 1)) (ack_seq p)))
    then (Continue, tcp_set (fun t => set_snd_wl2 (ack_seq p) (set_snd_wl1 (seq p) (set_snd_wnd (window p) t))) s)
    else (Continue, s).

Definition tcp_check_ack (s : socket) (p : packet) : verdict * socket :=
  let t := tcp s in
  match state t with
  | TCP_SYN_RECV =>
      if tcp_seq_between (snd_una t) (ack_seq p) (u32 (snd_nxt t + 1)) then
        (Continue, socket_state_change (tcp_set (set_state TCP_ESTABLISHED) s) SOCKET_CONNECTED)
      else (Consumed, send_reset p s)
  | TCP_ESTABLISHED | TCP_FIN_WAIT1 | TCP_FIN_WAIT2 | TCP_CLOSE_WAIT | TCP_CLOSING | TCP_LAST_ACK =>
      tcp_ack_window s p
  | _ => (Continue, s)
  end.

(** "second: check RST bit": the cases fall through, so [ECONNREFUSED] is
    overwritten. *)
Definition tcp_got_rst (s : socket) (p : packet) : socket :=
  let s := match state (tcp s) with
           | TCP_SYN_RECV => socket_set_last_error (socket_set_last_error s (- ECONNREFUSED)) (- ECONNRESET)
           | TCP_ESTABLISHED | TCP_FIN_WAIT1 | TCP_FIN_WAIT2 | TCP_CLOSE_WAIT =>
               socket_set_last_error s (- ECONNRESET)
           | _ => s
           end in
  let s := tcp_set (set_state TCP_CLOSE) s in
  let s := socket_state_change s SOCKET_UNCONNECTED in
  packet_free p s.

(** "seventh: process segment text" and what follows it. *)
Definition tcp_segment_text (s : socket) (p : packet) : socket :=
  match state (tcp s) with
  | TCP_ESTABLISHED | TCP_FIN_WAIT1 | TCP_FIN_WAIT2 =>
      if psh (flags p) || fin (flags p) || negb (plen p =? 0) then tcp_recv_data s p
      else packet_free p s
  | _ => let s := if fin (flags p) then tcp_fin s else s in packet_free p s
  end.

(** [tcp_rx] for a socket, once the segment has been parsed. *)
Definition tcp_rx_segment (s : socket) (p : packet) : socket :=
  match state (tcp s) with
  | TCP_CLOSE => tcp_closed s p
  | TCP_SYN_SENT => tcp_syn_sent s p
  | TCP_LISTEN => tcp_listen s p
  | _ =>
      if negb (tcp_sequence_valid s p) then
        let s := if negb (rst (flags p)) then tcp_send_ack s else s in
        packet_free p s
      else if rst (flags p) then tcp_got_rst s p
      else if syn (flags p) then
        let s := socket_set_last_error s (- ECONNRESET) in
        let s := tcp_set (set_state TCP_CLOSE) s in
        let s := socket_state_change s SOCKET_UNCONNECTED in
        packet_free p s
      else if negb (ack (flags p)) then packet_free p s
      else
        match tcp_check_ack s p with
        | (Consumed, s) => s
        | (Drop, s) => packet_free p s
        | (Continue, s) =>
            match state (tcp s) with
            | TCP_CLOSING => packet_free p s
            | _ => tcp_segment_text s p
            end
        end
  end.
End input.

(** * The wire format *)

Definition le16 (w : Z) : list Z := [w mod 256; w / 256 mod 256].
Definition le32 (w : Z) : list Z := [w mod 256; w / 256 mod 256; w / 65536 mod 256; w / 16777216 mod 256].

(** The sum of the 16-bit words, least significant byte first. *)
Fixpoint sum_every_16 (bs : list Z) : Z :=
  match bs with
  | [] => 0
  | [b] => b
  | b0 :: b1 :: bs' => u32 (b0 + 256 * b1 + sum_every_16 bs')
  end.

(** [while (sum >> 16)]: three rounds are enough for a 32-bit sum. *)
Fixpoint fold_sum (fuel : nat) (sum : Z) : Z :=
  match fuel with
  | O => sum
  | S fuel' => if Z.shiftr sum 16 =? 0 then sum
               else fold_sum fuel' (Z.land sum 0xFFFF + Z.shiftr sum 16)
  end.

Definition IPPROTO_TCP : Z := 6.

(** [struct pseudo_header] in memory. *)
Definition pseudo_header (saddr daddr proto len : Z) : list Z :=
  le32 saddr ++ le32 daddr ++ [0; proto] ++ le16 (htons len).

Definition tcp_checksum (header data : list Z) : Z :=
  let sum := u32 (sum_every_16 header + sum_every_16 data) in
  u16 (Z.lnot (fold_sum 3 sum)).

Definition flags_byte (f : tcp_flags) : Z :=
  Z.b2z (fin f) + 2 * Z.b2z (syn f) + 4 * Z.b2z (rst f) + 8 * Z.b2z (psh f) +
  16 * Z.b2z (ack f) + 32 * Z.b2z (urg f).

Definition flags_of_byte (b : Z) : tcp_flags :=
  {| fin := Z.testbit b 0; syn := Z.testbit b 1; rst := Z.testbit b 2; psh := Z.testbit b 3;
     ack := Z.testbit b 4; urg := Z.testbit b 5 |}.

(** The header [tcp_send_inner] builds, with the given [check] field; ports are
    already in network order. *)
Definition tcp_header (s : segment) (check : Z) : list Z :=
  le16 (o_src_port s) ++ le16 (o_dest_port s) ++ le32 (htonl (o_seq s)) ++ le32 (htonl (o_ack_seq s)) ++
  [Z.shiftl 5 4; flags_byte (o_flags s)] ++ le16 (htons (o_window s)) ++ le16 check ++ le16 (htons 0).

(** The bytes given to [ip_tx]; [saddr] is the address of the interface. *)
Definition tcp_send_inner (saddr : Z) (s : segment) : list Z :=
  let len := 20 + Z.of_nat (length (o_data s)) in
  let check := tcp_checksum (pseudo_header saddr (o_dest_addr s) IPPROTO_TCP len) (tcp_header s 0 ++ o_data s) in
  tcp_header s check ++ o_data s.

Definition get16 (bs : list Z) (i : Z) : outcome Z :=
  b0 ← arr_get bs i; b1 ← arr_get bs (i + 1); Done (b0 + 256 * b1).
Definition get32 (bs : list Z) (i : Z) : outcome Z :=
  w0 ← get16 bs i; w1 ← get16 bs (i + 2); Done (w0 + 65536 * w1).

Definition tcp_checksum_valid (saddr daddr proto : Z) (raw : list Z) : bool :=
  let checksum := tcp_checksum (pseudo_header saddr daddr proto (Z.of_nat (length raw))) raw in
  ntohs checksum =? 0.

(** [tcp_packet_fill_cb], and [packet->head += header->hl * 4]. *)
Definition tcp_packet_fill_cb (saddr : Z) (raw : list Z) : outcome packet :=
  source ← get16 raw 0;
  dest ← get16 raw 2;
  sq ← get32 raw 4;
  ak ← get32 raw 8;
  off ← arr_get raw 12;
  fl ← arr_get raw 13;
  win ← get16 raw 14;
  let hl := Z.shiftr off 4 in
  Done {| seq := ntohl sq; ack_seq := ntohl ak; window := ntohs win; flags := flags_of_byte fl;
          data := drop (Z.to_nat (hl * 4)) raw; plen := u32 (Z.of_nat (length raw) - hl * 4);
          from_ip := saddr; from_port := source; to_port := dest |}.

(** [tcp_rx] for a packet from [saddr] to [daddr]; without a socket the trace of
    [s] only serves to record the answer. *)
Definition tcp_rx (routable : Z -> bool) (have_sock : bool) (s : socket) (saddr daddr proto : Z) (raw : list Z)
  : outcome socket :=
  if negb (tcp_checksum_valid saddr daddr proto raw) then Done (emit (Freed raw) s)
  else
    p ← tcp_packet_fill_cb saddr raw;
    if negb have_sock then Done (tcp_closed routable s p) else Done (tcp_rx_segment routable s p).

(** * The socket operations (tcp.c) *)

Definition IPV4_PACKET_MSS : Z := 1024.
Definition AF_INET : Z := 2.

(** [next_port] of [struct tcp_protocol]. *)
Definition tcp_autobind (next_port : Z) (s : socket) : Z * socket :=
  (u16 (next_port + 1),
   set_ip {| lk_proto := lk_proto (ip s); lk_src_addr := lk_src_addr (ip s); lk_src_port := htons next_port;
             lk_dest_addr := lk_dest_addr (ip s); lk_dest_port := lk_dest_port (ip s) |} s).

Definition tcp_lookup_fill (lk : ip_lookup) (raw : list Z) : outcome ip_lookup :=
  source ← get16 raw 0;
  dest ← get16 raw 2;
  Done {| lk_proto := lk_proto lk; lk_src_addr := lk_src_addr lk; lk_src_port := dest;
          lk_dest_addr := lk_dest_addr lk; lk_dest_port := source |}.

Definition initial_private (t : tcp_socket_private) : tcp_socket_private :=
  {| state := state t; iss := 200; irs := irs t; rcv_nxt := 0; rcv_up := rcv_up t; rcv_wnd := 44477;
     snd_nxt := 200; snd_una := 200; snd_up := 200; snd_wnd := 0; snd_wl1 := 0; snd_wl2 := snd_wl2 t |}.

(** The state the connecting task shares with the network stack. *)
Record net : Type := {
  table : ip_forward_table;
  af : address_family_ip;
  next_port : Z;
}.

Section sockets.
  Context (up : Z -> bool) (in_addr : Z -> Z).
  (** What [wait_queue_event_intr] returned, and the socket as it was found
      when the condition held (or when a signal arrived). *)
  Context (wait : socket -> Z * socket).

(** [id]: the socket's number in the address family's list. *)
Definition tcp_connect (n : net) (id : nat) (s : socket) (family addr port len : Z) : Z * socket * net :=
  if len <? 16 then (- EFAULT, s, n)
  else if negb (family =? AF_INET) then (- EINVAL, s, n)
  else
    let '(cur, s) := socket_state_cmpxchg s SOCKET_UNCONNECTED SOCKET_CONNECTING in
    if negb (bool_decide (cur = SOCKET_UNCONNECTED)) then (- EISCONN, s, n)
    else
      let s := set_ip {| lk_proto := lk_proto (ip s); lk_src_addr := lk_src_addr (ip s); lk_src_port := lk_src_port (ip s);
                         lk_dest_addr := addr; lk_dest_port := port |} s in
      let '(ret, rt, tbl) := ip_route_get up (table n) addr (route s) in
      let n := {| table := tbl; af := af n; next_port := next_port n |} in
      let s := set_route rt s in
      if negb (ret =? 0) then (ret, s, n)
      else
        let s := set_ip {| lk_proto := lk_proto (ip s); lk_src_addr := default 0 (in_addr <$> re_iface rt);
                           lk_src_port := lk_src_port (ip s); lk_dest_addr := lk_dest_addr (ip s);
                           lk_dest_port := lk_dest_port (ip s) |} s in
        let '(np, s) := if lk_src_port (ip s) =? 0 then tcp_autobind (next_port n) s else (next_port n, s) in
        let test := {| lk_proto := IPPROTO_TCP; lk_src_addr := lk_src_addr (ip s); lk_src_port := lk_src_port (ip s);
                       lk_dest_addr := lk_dest_addr (ip s); lk_dest_port := lk_dest_port (ip s) |} in
        match ipaf_find_socket (af n) test 4 with
        | (Some other, af') =>
            (- EADDRINUSE, s,
             {| table := table n;
                af := {| af_sockets := af_sockets af'; sock_refs := socket_put (sock_refs af') other |};
                next_port := np |})
        | (None, af') =>
            let n := {| table := table n; af := ipaf_add_socket af' id (ip s); next_port := np |} in
            let s := set_refs (refs s + 1) s in
            let s := socket_state_change s SOCKET_CONNECTING in
            let s := tcp_set initial_private s in
            let s := tcp_send_syn s in
            let s := tcp_set (fun t => set_snd_nxt (u32 (snd_nxt t + 1)) t) s in
            let '(ret, s) := wait s in
            let cur := sk_state s in
            let '(err, s) := socket_last_error s in
            if negb (ret =? 0) then (ret, s, n)
            else if negb (err =? 0) || negb (bool_decide (cur = SOCKET_CONNECTED)) then (err, s, n)
            else (0, s, n)
        end.

Definition zero_private : tcp_socket_private :=
  {| state := TCP_NONE; iss := 0; irs := 0; rcv_nxt := 0; rcv_up := 0; rcv_wnd := 0; snd_nxt := 0;
     snd_una := 0; snd_up := 0; snd_wnd := 0; snd_wl1 := 0; snd_wl2 := 0 |}.

(** The protocol's socket list holds a reference ([tcp_procfs_register]). *)
Definition tcp_create (s : socket) : Z * socket :=
  (0, set_refs (refs s + 1) (set_delack false (set_tcp zero_private s))).

Definition tcp_shutdown (s : socket) : Z * socket :=
  let '(cur, s) := socket_state_cmpxchg s SOCKET_CONNECTED SOCKET_DISCONNECTING in
  if negb (bool_decide (cur = SOCKET_CONNECTED)) then (- ENOTCONN, s) else (0, s).

Definition tcp_release (n : net) (id : nat) (s : socket) : socket * net :=
  let '(rt, tbl) := ip_route_clear (table n) (route s) in
  let listed := bool_decide (id ∈ (af_sockets (af n)).*1) in
  let n := {| table := tbl; af := ipaf_remove_socket (af n) id; next_port := next_port n |} in
  let s := set_route rt s in
  let s := set_refs (refs s - 1 - Z.b2z listed) s in
  let s := tcp_timers_reset s in
  let s := foldl (fun s p => packet_free p s) s (recv_queue s) in
  (set_recv_queue [] s, n).
End sockets.

Definition psh_flags (f : tcp_flags) : tcp_flags :=
  {| fin := fin f; syn := syn f; rst := rst f; psh := true; ack := ack f; urg := urg f |}.

Definition tcp_sendto_packet (s : socket) (d : list Z) (push : bool) : socket :=
  let t := tcp s in
  tcp_send s (snd_nxt t) (rcv_nxt t) (rcv_wnd t) (if push then psh_flags ack_flags else ack_flags) d.

(** The loop of [tcp_sendto] with [fuel] segments left at most. *)
Fixpoint sendto_loop (fuel : nat) (m : gmap Z Z) (s : socket) (buf : user_buffer) (buf_len : Z) : Z * socket :=
  match fuel with
  | O => (0, s)
  | S fuel' =>
      if buf_len =? 0 then (0, s)
      else
        let append_len := if IPV4_PACKET_MSS <? buf_len then IPV4_PACKET_MSS else buf_len in
        let '(err, d) := user_memcpy_to_kernel m buf append_len in
        if negb (err =? 0) then (err, emit (Freed []) s)
        else
          let buf_len := buf_len - append_len in
          let buf := user_buffer_index buf append_len in
          let s := tcp_sendto_packet s d (buf_len =? 0) in
          let s := tcp_set (fun t => set_snd_nxt (u32 (snd_nxt t + append_len)) t) s in
          sendto_loop fuel' m s buf buf_len
  end.

Definition tcp_sendto (m : gmap Z Z) (s : socket) (buf : user_buffer) (buf_len : Z) (has_addr : bool) : Z * socket :=
  if has_addr then (- EISCONN, s)
  else
    let '(err, s) := socket_last_error s in
    if negb (err =? 0) then (err, s)
    else
      let '(err, s) := sendto_loop (Z.to_nat (buf_len / IPV4_PACKET_MSS) + 1) m s buf buf_len in
      if negb (err =? 0) then (err, s) else (buf_len, s).

(** * An example *)

Definition example_lookup : ip_lookup :=
  {| lk_proto := IPPROTO_TCP; lk_src_addr := 1; lk_src_port := 2; lk_dest_addr := 3; lk_dest_port := 4 |}.

(** An established connection whose next byte has the last sequence number but
    one before the wrap. *)
Definition example_socket : socket :=
  {| refs := 2; sk_state := SOCKET_CONNECTED; last_err := 0;
     tcp := {| state := TCP_ESTABLISHED; iss := 200; irs := 4294967293; rcv_nxt := 4294967294; rcv_up := 0;
               rcv_wnd := 44477; snd_nxt := 201; snd_una := 201; snd_up := 200; snd_wnd := 0; snd_wl1 := 0;
               snd_wl2 := 0 |};
     delack := false; ip := example_lookup;
     route := {| re_flags := 0; re_dest_ip := 0; re_gateway_ip := 0; re_iface := None |};
     recv_queue := []; out_of_order_queue := []; trace := [] |}.
