(* ===== verification/TcpWire.v ===== *)
(** The TCP checksum and wire format: what one side builds
    ([tcp_send_inner], src/net/ipv4/tcp_output.c) the other side accepts and
    parses back ([tcp_checksum_valid] and [tcp_packet_fill_cb],
    src/net/ipv4/tcp_input.c). *)
From stdpp Require Import base numbers list gmap.
From Stdlib Require Import ZArith ZifyBool Lia.
From S2P Require Import Prelude Bits IpRoute Tcp.
Open Scope Z_scope.

(** * The one's complement sum *)

Lemma fold_step s : 0 <= s ->
  Z.land s 0xFFFF + Z.shiftr s 16 = s mod 65536 + s / 65536.
Proof.
  intros Hs. change 0xFFFF with (Z.ones 16). rewrite Z.land_ones, Z.shiftr_div_pow2 by lia. done.
Qed.

Lemma fold_sum_spec s :
  0 <= s < 2 ^ 32 ->
  let f := fold_sum 3 s in 0 <= f <= 65535 /\ f mod 65535 = s mod 65535 /\ (0 < s -> 0 < f).
Proof.
  intros Hs. cbn [fold_sum].
  assert (Hstep : forall x, 0 <= x -> (x mod 65536 + x / 65536) mod 65535 = x mod 65535).
  { intros x Hx. rewrite (Z.div_mod x 65536) at 3 by lia.
    replace (65536 * (x / 65536) + x mod 65536) with (x mod 65536 + x / 65536 + x / 65536 * 65535) by lia.
    by rewrite Z.mod_add. }
  assert (Hz : forall x, 0 <= x -> (Z.shiftr x 16 =? 0) = (x <? 65536)).
  { intros x Hx. rewrite Z.shiftr_div_pow2 by lia. change (2 ^ 16) with 65536.
    destruct (Z.ltb_spec x 65536); [rewrite Z.div_small; lia|].
    apply Z.eqb_neq. Z.div_mod_to_equations. lia. }
  rewrite !(Hz s) by lia. destruct (Z.ltb_spec s 65536); [lia|].
  rewrite !(fold_step s) by lia. set (s1 := s mod 65536 + s / 65536).
  assert (H1 : 0 < s1 <= 131070 /\ s1 mod 65535 = s mod 65535).
  { split; [subst s1; Z.div_mod_to_equations; lia | apply Hstep; lia]. }
  rewrite !(Hz s1) by lia. destruct (Z.ltb_spec s1 65536); [lia|].
  rewrite !(fold_step s1) by lia. set (s2 := s1 mod 65536 + s1 / 65536).
  assert (H2 : 0 < s2 <= 65535 /\ s2 mod 65535 = s mod 65535).
  { split; [subst s2; Z.div_mod_to_equations; lia | rewrite <- (proj2 H1); apply Hstep; lia]. }
  rewrite !(Hz s2) by lia. destruct (Z.ltb_spec s2 65536); [lia | lia].
Qed.

(** The sum without the 32-bit wrap. *)
Fixpoint sum16 (bs : list Z) : Z :=
  match bs with
  | [] => 0
  | [b] => b
  | b0 :: b1 :: bs' => b0 + 256 * b1 + sum16 bs'
  end.

Lemma list_pairs_ind (P : list Z -> Prop) :
  P [] -> (forall b, P [b]) -> (forall b0 b1 l, P l -> P (b0 :: b1 :: l)) -> forall l, P l.
Proof.
  intros H0 H1 H2 l. cut (P l /\ forall b, P (b :: l)); [tauto|].
  induction l as [|b l [IH1 IH2]]; auto.
Qed.

Lemma sum16_bound bs : bytes bs -> 0 <= sum16 bs <= 32768 * (Z.of_nat (length bs) + 1).
Proof.
  induction bs as [|b|b0 b1 bs IH] using list_pairs_ind; intros Hb; cbn [sum16 length].
  - lia.
  - apply Forall_cons in Hb as [Hb _]. lia.
  - apply Forall_cons in Hb as [Hb0 Hb]. apply Forall_cons in Hb as [Hb1 Hb]. specialize (IH Hb). lia.
Qed.

Lemma sum_every_16_small bs :
  bytes bs -> Z.of_nat (length bs) < 100000 -> sum_every_16 bs = sum16 bs.
Proof.
  induction bs as [|b|b0 b1 bs IH] using list_pairs_ind; intros Hb Hl; cbn [sum_every_16 sum16]; [done | done |].
  pose proof (sum16_bound _ Hb) as Hs. cbn [sum16] in Hs. cbn [length] in Hl.
  apply Forall_cons in Hb as [Hb0 Hb]. apply Forall_cons in Hb as [Hb1 Hb].
  rewrite IH by (done || lia). apply u32_small. cbn [length] in Hs. lia.
Qed.

Lemma le16_sum w : 0 <= w < 65536 -> w mod 256 + 256 * (w / 256 mod 256) = w.
Proof. intros. Z.div_mod_to_equations. lia. Qed.

Lemma bytes_le16 w : bytes (le16 w).
Proof. unfold bytes, le16. repeat constructor; apply Z.mod_pos_bound; lia. Qed.

Lemma bytes_le32 w : bytes (le32 w).
Proof. unfold bytes, le32. repeat constructor; apply Z.mod_pos_bound; lia. Qed.

Lemma flags_byte_range f : 0 <= flags_byte f < 64.
Proof. destruct f as [[] [] [] [] [] []]; vm_compute; split; (congruence || reflexivity). Qed.

Lemma bytes_header s c : bytes (tcp_header s c).
Proof.
  unfold tcp_header. pose proof (flags_byte_range (o_flags s)).
  repeat (apply Forall_app; split); try apply bytes_le16; try apply bytes_le32.
  repeat constructor; try lia; vm_compute; congruence.
Qed.

Lemma bytes_pseudo a b l : bytes (pseudo_header a b IPPROTO_TCP l).
Proof.
  unfold pseudo_header. repeat (apply Forall_app; split); try apply bytes_le16; try apply bytes_le32.
  repeat constructor; unfold IPPROTO_TCP; lia.
Qed.

(** The check field contributes itself to the sum. *)
Lemma sum16_header s c d :
  0 <= c < 65536 -> sum16 (tcp_header s c ++ d) = sum16 (tcp_header s 0 ++ d) + c.
Proof.
  intros Hc. unfold tcp_header, le16, le32. cbn [app sum16].
  pose proof (le16_sum c Hc). change (0 mod 256) with 0. change (0 / 256 mod 256) with 0. lia.
Qed.

Lemma u16_lnot f : 0 <= f <= 65535 -> u16 (Z.lnot f) = 65535 - f.
Proof.
  intros Hf. unfold u16, uwrap, Z.lnot, Z.pred.
  replace (- f + -1) with (65535 - f + (-1) * 2 ^ 16) by lia.
  rewrite Z.mod_add by lia. apply Z.mod_small. lia.
Qed.

Lemma length_header s c : length (tcp_header s c) = 20%nat.
Proof. done. Qed.

(** The receiver's sum over what the sender built is all ones. *)
Lemma checksum_accepts saddr seg :
  bytes (o_data seg) -> Z.of_nat (length (o_data seg)) <= 65515 ->
  tcp_checksum_valid saddr (o_dest_addr seg) IPPROTO_TCP (tcp_send_inner saddr seg) = true.
Proof.
  intros Hb Hl. unfold tcp_checksum_valid, tcp_send_inner. rewrite length_app, length_header.
  replace (Z.of_nat (20 + length (o_data seg))) with (20 + Z.of_nat (length (o_data seg))) by lia.
  set (len := 20 + Z.of_nat (length (o_data seg))). set (ph := pseudo_header _ _ _ len).
  assert (Hph : bytes ph) by apply bytes_pseudo. assert (Hphl : length ph = 12%nat) by done.
  set (c := tcp_checksum ph (tcp_header seg 0 ++ o_data seg)).
  assert (Hd : forall k, bytes (tcp_header seg k ++ o_data seg)).
  { intros k. apply Forall_app. split; [apply bytes_header | done]. }
  pose proof (sum16_bound ph Hph) as Bph. pose proof (sum16_bound _ (Hd 0)) as Bd.
  rewrite length_app, length_header in Bd. rewrite Hphl in Bph.
  set (S0 := sum16 ph + sum16 (tcp_header seg 0 ++ o_data seg)).
  assert (HS0 : 0 <= S0 < 2 ^ 32 - 65536) by lia.
  assert (Ec : c = 65535 - fold_sum 3 S0 /\ 0 <= c <= 65535).
  { pose proof (fold_sum_spec S0 ltac:(lia)) as (Hf & _). subst c. unfold tcp_checksum.
    rewrite !sum_every_16_small by (rewrite ?length_app, ?length_header; auto; lia). fold S0.
    rewrite u32_small, u16_lnot by lia. lia. }
  destruct Ec as [Ec Hc]. unfold tcp_checksum.
  rewrite !sum_every_16_small by (rewrite ?length_app, ?length_header; auto; lia).
  rewrite sum16_header by lia. rewrite Z.add_assoc. fold S0. rewrite u32_small by lia.
  pose proof (fold_sum_spec S0 ltac:(lia)) as (Hf & Hm & _).
  assert (Hpos : 0 < S0 + c).
  { destruct (Z.eq_dec S0 0) as [E|]; [rewrite E in Ec; rewrite E, Ec; reflexivity | lia]. }
  pose proof (fold_sum_spec (S0 + c) ltac:(lia)) as (Hf' & Hm' & Hp').
  assert (Hz : (S0 + c) mod 65535 = 0).
  { rewrite <- Z.add_mod_idemp_l, <- Hm, Z.add_mod_idemp_l by lia. rewrite Ec.
    replace (fold_sum 3 S0 + (65535 - fold_sum 3 S0)) with (1 * 65535) by lia. apply Z.mod_mul. lia. }
  assert (fold_sum 3 (S0 + c) = 65535) as ->.
  { rewrite Hz in Hm'. specialize (Hp' ltac:(lia)).
    apply Z.mod_divide in Hm' as [q Hq]; [|lia]. assert (q = 1) by lia. lia. }
  reflexivity.
Qed.

(** * Parsing back what was built *)

Ltac mask_bits :=
  repeat match goal with
  | |- context [Z.testbit (Zpos ?p) ?k] =>
      let v := eval vm_compute in (Z.testbit (Zpos p) k) in
      change (Z.testbit (Zpos p) k) with v
  end.

Lemma testbit_htonl h i :
  0 <= i < 32 -> Z.testbit (htonl h) i = Z.testbit h (24 - 8 * (i / 8) + i mod 8).
Proof.
  intros Hi. assert (Ei : i = Z.of_nat (Z.to_nat i)) by lia. assert (Hn : (Z.to_nat i < 32)%nat) by lia.
  rewrite Ei. clear Ei Hi. revert Hn. generalize (Z.to_nat i). clear i. intros n Hn.
  do 32 (destruct n as [|n];
    [unfold htonl; rewrite !Z.lor_spec, !Z.shiftr_spec, !Z.shiftl_spec, !Z.land_spec by lia; mask_bits;
     rewrite ?andb_false_r, ?andb_true_r, ?orb_false_r, ?orb_false_l; reflexivity|]). lia.
Qed.

Lemma testbit_high x n i : 0 <= x < 2 ^ n -> 0 <= n <= i -> Z.testbit x i = false.
Proof.
  intros Hx Hi. destruct (Z.eq_dec x 0) as [->|]; [apply Z.bits_0|].
  apply Z.bits_above_log2; [lia|]. apply Z.log2_lt_pow2; [lia|].
  pose proof (Z.pow_le_mono_r 2 n i). lia.
Qed.

Lemma testbit_htonl_high h i : 32 <= i -> Z.testbit (htonl h) i = false.
Proof.
  intros Hi. unfold htonl. rewrite !Z.lor_spec, !Z.shiftr_spec, !Z.shiftl_spec, !Z.land_spec by lia.
  rewrite (testbit_high 0xFF000000 32), (testbit_high 0xFF0000 24), (testbit_high 0xFF00 16), (testbit_high 0xFF 8) by lia.
  by rewrite !andb_false_r.
Qed.

Lemma ntohl_htonl h : 0 <= h < 2 ^ 32 -> ntohl (htonl h) = h.
Proof.
  intros Hh. unfold ntohl. apply Z.bits_inj'. intros i Hi. destruct (Z.lt_ge_cases i 32) as [Hlt|Hge].
  - rewrite !testbit_htonl by (Z.div_mod_to_equations; lia). f_equal. Z.div_mod_to_equations. lia.
  - rewrite testbit_htonl_high by done. symmetry. by apply (testbit_high h 32).
Qed.

Lemma testbit_bound x n : 0 <= n -> (forall i, n <= i -> Z.testbit x i = false) -> 0 <= x < 2 ^ n.
Proof.
  intros Hn Hx. replace x with (x mod 2 ^ n); [apply Z.mod_pos_bound; lia|].
  apply Z.bits_inj'. intros i Hi. destruct (Z.lt_ge_cases i n).
  - by rewrite Z.mod_pow2_bits_low by lia.
  - rewrite Z.mod_pow2_bits_high by lia. symmetry. auto.
Qed.

Lemma htonl_range h : 0 <= htonl h < 2 ^ 32.
Proof. apply testbit_bound; [lia | apply testbit_htonl_high]. Qed.

Lemma testbit_htons h i :
  0 <= i < 16 -> Z.testbit (htons h) i = Z.testbit h (8 - 8 * (i / 8) + i mod 8).
Proof.
  intros Hi. assert (Ei : i = Z.of_nat (Z.to_nat i)) by lia. assert (Hn : (Z.to_nat i < 16)%nat) by lia.
  rewrite Ei. clear Ei Hi. revert Hn. generalize (Z.to_nat i). clear i. intros n Hn.
  do 16 (destruct n as [|n];
    [unfold htons; rewrite !Z.lor_spec, !Z.shiftr_spec, !Z.shiftl_spec, !Z.land_spec by lia; mask_bits;
     rewrite ?andb_false_r, ?andb_true_r, ?orb_false_r, ?orb_false_l; reflexivity|]). lia.
Qed.

Lemma testbit_htons_high h i : 16 <= i -> Z.testbit (htons h) i = false.
Proof.
  intros Hi. unfold htons. rewrite !Z.lor_spec, !Z.shiftr_spec, !Z.shiftl_spec, !Z.land_spec by lia.
  rewrite (testbit_high 0xFF00 16), (testbit_high 0xFF 8) by lia. by rewrite !andb_false_r.
Qed.

Lemma htons_range h : 0 <= htons h < 2 ^ 16.
Proof. apply testbit_bound; [lia | apply testbit_htons_high]. Qed.

Lemma ntohs_htons h : 0 <= h < 2 ^ 16 -> ntohs (htons h) = h.
Proof.
  intros Hh. unfold ntohs. apply Z.bits_inj'. intros i Hi. destruct (Z.lt_ge_cases i 16) as [Hlt|Hge].
  - rewrite !testbit_htons by (Z.div_mod_to_equations; lia). f_equal. Z.div_mod_to_equations. lia.
  - rewrite testbit_htons_high by done. symmetry. by apply (testbit_high h 16).
Qed.

Lemma le32_sum w :
  0 <= w < 2 ^ 32 ->
  w mod 256 + 256 * (w / 256 mod 256) + 65536 * (w / 65536 mod 256 + 256 * (w / 16777216 mod 256)) = w.
Proof. intros. Z.div_mod_to_equations. lia. Qed.

Lemma flags_of_flags_byte f : flags_of_byte (flags_byte f) = f.
Proof. destruct f as [[] [] [] [] [] []]; reflexivity. Qed.

Lemma get16_at bs i b0 b1 :
  0 <= i -> bs !! Z.to_nat i = Some b0 -> bs !! Z.to_nat (i + 1) = Some b1 -> get16 bs i = Done (b0 + 256 * b1).
Proof.
  intros Hi H0 H1. unfold get16. rewrite (proj2 (arr_get_done bs i b0)) by done. rewrite done_bind.
  by rewrite (proj2 (arr_get_done bs (i + 1) b1)) by (split; [lia | done]).
Qed.

Lemma get32_at bs i b0 b1 b2 b3 :
  0 <= i -> bs !! Z.to_nat i = Some b0 -> bs !! Z.to_nat (i + 1) = Some b1 ->
  bs !! Z.to_nat (i + 2) = Some b2 -> bs !! Z.to_nat (i + 2 + 1) = Some b3 ->
  get32 bs i = Done (b0 + 256 * b1 + 65536 * (b2 + 256 * b3)).
Proof.
  intros Hi H0 H1 H2 H3. unfold get32. rewrite (get16_at bs i b0 b1) by done. rewrite done_bind.
  by rewrite (get16_at bs (i + 2) b2 b3) by (done || lia).
Qed.

(** A segment whose fields have the widths of [struct tcp_packet_cb]. *)
Record segment_ok (s : segment) : Prop := {
  so_seq : 0 <= o_seq s < 2 ^ 32;
  so_ack : 0 <= o_ack_seq s < 2 ^ 32;
  so_window : 0 <= o_window s < 2 ^ 16;
  so_src : 0 <= o_src_port s < 2 ^ 16;
  so_dest : 0 <= o_dest_port s < 2 ^ 16;
  so_data : bytes (o_data s);
  so_len : Z.of_nat (length (o_data s)) <= 65515;
}.

Lemma fill_cb_parses saddr seg :
  segment_ok seg ->
  tcp_packet_fill_cb saddr (tcp_send_inner saddr seg) =
    Done {| seq := o_seq seg; ack_seq := o_ack_seq seg; window := o_window seg; flags := o_flags seg;
            data := o_data seg; plen := Z.of_nat (length (o_data seg));
            from_ip := saddr; from_port := o_src_port seg; to_port := o_dest_port seg |}.
Proof.
  intros []. unfold tcp_packet_fill_cb, tcp_send_inner, tcp_header, le16, le32.
  set (c := tcp_checksum _ _). cbn [app].
  repeat (first [erewrite get16_at by (lia || reflexivity) | erewrite get32_at by (lia || reflexivity)
                | erewrite (proj2 (arr_get_done _ _ _)) by (split; [lia | reflexivity])]; obind).
  rewrite !le32_sum, !le16_sum by (apply htonl_range || apply htons_range || done).
  rewrite !ntohl_htonl, ntohs_htons, flags_of_flags_byte by done.
  do 2 f_equal. cbn [length]. change (Z.shiftr (Z.shiftl 5 4) 4) with 5. rewrite u32_small by lia. lia.
Qed.

(** C37: a segment that [tcp_send_inner] puts on the wire is accepted by the
    receiver's checksum test, for every source address and payload up to the
    largest IP packet, and [tcp_packet_fill_cb] recovers from the bytes exactly
    the sequence and acknowledgement numbers, window, flags, ports and payload;
    so [tcp_rx] hands the state machine the segment that was sent. *)
Theorem tcp_wire_roundtrip routable saddr seg s :
  segment_ok seg ->
  tcp_rx routable true s saddr (o_dest_addr seg) IPPROTO_TCP (tcp_send_inner saddr seg) =
  Done (tcp_rx_segment routable s
          {| seq := o_seq seg; ack_seq := o_ack_seq seg; window := o_window seg; flags := o_flags seg;
             data := o_data seg; plen := Z.of_nat (length (o_data seg));
             from_ip := saddr; from_port := o_src_port seg; to_port := o_dest_port seg |}).
Proof.
  intros Hok. unfold tcp_rx. rewrite checksum_accepts by apply Hok. cbn [negb].
  rewrite fill_cb_parses by done. by obind.
Qed.

Definition example_segment : segment :=
  {| o_src_port := 2; o_dest_addr := 3; o_dest_port := 4; o_seq := 4294967294; o_ack_seq := 201;
     o_window := 44477; o_flags := ack_flags; o_data := [1; 2; 255] |}.

Lemma tcp_wire_roundtrip_witness :
  tcp_rx (fun _ => true) true example_socket 9 3 IPPROTO_TCP (tcp_send_inner 9 example_segment) =
  Done (tcp_rx_segment (fun _ => true) example_socket
          {| seq := 4294967294; ack_seq := 201; window := 44477; flags := ack_flags; data := [1; 2; 255];
             plen := 3; from_ip := 9; from_port := 2; to_port := 4 |}).
Proof.
  apply (tcp_wire_roundtrip (fun _ => true) 9 example_segment example_socket).
  split; try (split; vm_compute; congruence); [|vm_compute; congruence].
  repeat constructor; lia.
Defined.
