(* ===== verification/TcpStream.v ===== *)
(** Delivery of a byte stream by the receiving side of TCP (src/net/ipv4/tcp_data.c,
    tcp_input.c): whatever the network does with the segments of a stream, what
    [recv_queue] holds is a prefix of it, and when no segment is missing it is
    the whole stream. *)
From stdpp Require Import base numbers list gmap sorting.
From Stdlib Require Import ZArith ZifyBool Lia.
From S2P Require Import Prelude UserMem Bits IpRoute Tcp.
Open Scope Z_scope.

(** * Sequence numbers as a circle *)

Lemma i32_u32 x : i32 (u32 x) = if u32 x <? 2 ^ 31 then u32 x else u32 x - 2 ^ 32.
Proof. unfold i32, swrap. by rewrite (uwrap_small 32 (u32 x)) by apply u32_bound. Qed.

Lemma seq_before_spec a b : tcp_seq_before a b = true <-> 0 < (b - a) mod 2 ^ 32 <= 2 ^ 31.
Proof.
  unfold tcp_seq_before. rewrite i32_u32, Z.ltb_lt. unfold u32, uwrap.
  destruct (Z.ltb_spec ((a - b) mod 2 ^ 32) (2 ^ 31)); Z.div_mod_to_equations; lia.
Qed.

Lemma seq_after_spec a b : tcp_seq_after a b = true <-> 0 < (a - b) mod 2 ^ 32 < 2 ^ 31.
Proof.
  unfold tcp_seq_after. rewrite i32_u32, Z.ltb_lt. unfold u32, uwrap.
  destruct (Z.ltb_spec ((a - b) mod 2 ^ 32) (2 ^ 31)); Z.div_mod_to_equations; lia.
Qed.

Lemma seq_before_offsets b j k :
  0 <= j < 2 ^ 31 -> 0 <= k < 2 ^ 31 -> tcp_seq_before (u32 (b + j)) (u32 (b + k)) = (j <? k).
Proof.
  intros Hj Hk. apply eq_true_iff_eq. rewrite seq_before_spec, Z.ltb_lt.
  unfold u32, uwrap. Z.div_mod_to_equations. lia.
Qed.

Lemma seq_eq_offsets b j k :
  0 <= j < 2 ^ 32 -> 0 <= k < 2 ^ 32 -> (u32 (b + j) =? u32 (b + k)) = (j =? k).
Proof.
  intros Hj Hk. apply eq_true_iff_eq. rewrite !Z.eqb_eq. unfold u32, uwrap. Z.div_mod_to_equations. lia.
Qed.

(** * The segments of a stream *)

Section stream.
  (** The stream [D], whose first byte has the sequence number [u32 b]. *)
  Context (b : Z) (D : list Z).

(** The offset of a segment in the stream. *)
Definition off (p : packet) : Z := u32 (seq p - b).

(** [p] carries bytes of [D]; only a segment that ends the stream has the FIN
    bit. *)
Record stream_seg (p : packet) : Prop := {
  ss_seq : 0 <= seq p < 2 ^ 32;
  ss_len : plen p = Z.of_nat (length (data p));
  ss_end : off p + plen p <= Z.of_nat (length D);
  ss_data : data p = take (length (data p)) (drop (Z.to_nat (off p)) D);
  ss_fin : fin (flags p) = true -> off p + plen p = Z.of_nat (length D);
}.

(** [n] bytes have been delivered, and the FIN when [f]. *)
Record delivered (s : socket) (n : Z) (f : bool) : Prop := {
  dl_range : 0 <= n <= Z.of_nat (length D);
  dl_nxt : rcv_nxt (tcp s) = u32 (b + n + Z.b2z f);
  dl_fin : f = true -> n = Z.of_nat (length D);
  dl_data : concat (data <$> recv_queue s) = take (Z.to_nat n) D;
}.

  Context (HD : Z.of_nat (length D) < 2 ^ 31 - 1).

Lemma off_range p : stream_seg p -> 0 <= off p <= Z.of_nat (length D).
Proof. intros []. pose proof (u32_bound (seq p - b)). unfold off in *. lia. Qed.

Lemma seq_off p : stream_seg p -> seq p = u32 (b + off p).
Proof.
  intros []. unfold off. rewrite u32_add_r. replace (b + (seq p - b)) with (seq p) by lia. by rewrite u32_small.
Qed.

Lemma seg_at_next s n f p :
  delivered s n f -> stream_seg p -> (seq p =? rcv_nxt (tcp s)) = negb f && (off p =? n).
Proof.
  intros I P. rewrite (seq_off _ P), (dl_nxt _ _ _ I), <- Z.add_assoc.
  pose proof (dl_range _ _ _ I). pose proof (off_range _ P).
  rewrite seq_eq_offsets by (destruct f; simpl; lia).
  destruct f; simpl; [pose proof (dl_fin _ _ _ I eq_refl)|]; lia.
Qed.

Lemma seg_before p1 p2 :
  stream_seg p1 -> stream_seg p2 -> tcp_seq_before (seq p1) (seq p2) = (off p1 <? off p2).
Proof.
  intros P1 P2. rewrite (seq_off _ P1), (seq_off _ P2).
  pose proof (off_range _ P1). pose proof (off_range _ P2). apply seq_before_offsets; lia.
Qed.

Lemma recv_queue_tcp_fin s : recv_queue (tcp_fin s) = recv_queue s.
Proof. unfold tcp_fin. by case_match. Qed.

Lemma rcv_nxt_tcp_fin s : rcv_nxt (tcp (tcp_fin s)) = rcv_nxt (tcp s).
Proof. unfold tcp_fin. by case_match. Qed.

Lemma recv_packet_window s p : rcv_wnd (tcp (socket_recv_packet s p)) = rcv_wnd (tcp s).
Proof. unfold socket_recv_packet, tcp_fin. by repeat case_match. Qed.

(** Delivering the segment that is next. *)
Lemma recv_packet_delivers s n p :
  delivered s n false -> stream_seg p -> off p = n ->
  delivered (socket_recv_packet s p) (n + plen p) (fin (flags p)).
Proof.
  intros I P <-. destruct I as [Hr Hn _ Hd], P as [Ps Pl Pe Pd Pf].
  unfold socket_recv_packet. split.
  - lia.
  - destruct (fin (flags p)); cbn [tcp recv_queue set_recv_queue]; rewrite ?rcv_nxt_tcp_fin;
      cbn; rewrite Hn, ?u32_add_l, <- ?(Z.add_assoc (u32 _)), ?u32_add_l; f_equal; simpl; lia.
  - intros Hf. by rewrite <- Pf.
  - assert (Hq : concat (data <$> (recv_queue s ++ [p])) = take (Z.to_nat (off p + plen p)) D).
    { rewrite fmap_app, concat_app, Hd. cbn [fmap list_fmap concat]. rewrite app_nil_r, Pd, Pl.
      rewrite Z2Nat.inj_add, Nat2Z.id by lia. apply take_take_drop. }
    destruct (fin (flags p)); cbn [recv_queue set_recv_queue]; rewrite ?recv_queue_tcp_fin; exact Hq.
Qed.

(** * The out-of-order queue *)

Definition by_offset (p1 p2 : packet) : Prop := off p1 <= off p2.

Lemma ooo_insert_elem q p x : x ∈ ooo_insert q p <-> x = p \/ x ∈ q.
Proof.
  induction q as [|c q IH]; cbn [ooo_insert]; [set_solver|].
  destruct (tcp_seq_before _ _); rewrite !elem_of_cons, ?IH; tauto.
Qed.

Lemma ooo_insert_sorted q p :
  Forall stream_seg q -> StronglySorted by_offset q -> stream_seg p -> StronglySorted by_offset (ooo_insert q p).
Proof.
  induction q as [|c q IH]; intros Hq Hs Hp; cbn [ooo_insert]; [by repeat constructor|].
  apply Forall_cons in Hq as [Hc Hq]. apply StronglySorted_inv in Hs as [Hs Hall].
  rewrite (seg_before _ _ Hp Hc). destruct (Z.ltb_spec (off p) (off c)) as [Hlt|Hge].
  - repeat constructor; auto; [unfold by_offset; lia|].
    eapply Forall_impl; [exact Hall|]. unfold by_offset. simpl. lia.
  - constructor; [by apply IH|]. rewrite Forall_forall in Hall |- *. intros x [->|Hx]%ooo_insert_elem; [done | auto].
Qed.

(** A packet is still queued, or has been delivered. *)
Definition accounted (s : socket) (n : Z) (p : packet) : Prop :=
  p ∈ out_of_order_queue s \/ off p + plen p <= n.

(** A queue nothing of which is next. *)
Record settled (s : socket) (n : Z) (f : bool) : Prop := {
  st_delivered : delivered s n f;
  st_segs : Forall stream_seg (out_of_order_queue s);
  st_sorted : StronglySorted by_offset (out_of_order_queue s);
  st_waits : Forall (fun p => f = true \/ off p <> n) (out_of_order_queue s);
}.

(** One pass over the sorted queue [q], after [kept] was passed over. *)
Lemma consolidate_from_spec q kept s n f :
  Forall stream_seg (kept ++ q) -> StronglySorted by_offset (kept ++ q) -> delivered s n f ->
  Forall (fun p => f = true \/ off p < n \/ (n < off p /\ Forall (fun p' => n < off p') q)) kept ->
  exists n' f', let u := consolidate_from q kept s in
    settled u n' f' /\ n <= n' /\ rcv_wnd (tcp u) = rcv_wnd (tcp s) /\
    Forall (accounted u n') (kept ++ q) /\
    (n' = n \/ exists p, p ∈ q /\ n' = off p + plen p).
Proof.
  revert kept s n f. induction q as [|p q IH]; intros kept s n f Hseg Hs I Hk; cbn [consolidate_from].
  - rewrite app_nil_r in *. exists n, f. split_and!; [| lia | done | | by left].
    + destruct I. split; [by split | done | done |].
      eapply Forall_impl; [exact Hk|]. simpl. intros x [?|[?|[? _]]]; auto; right; lia.
    + apply Forall_forall. intros x Hx. by left.
  - pose proof Hseg as [Hsk [Hp Hq]%Forall_cons]%Forall_app.
    rewrite (seg_at_next _ _ _ _ I Hp). destruct (negb f && (off p =? n)) eqn:E.
    + apply andb_prop in E as [Ef En]. destruct f; [done|]. apply Z.eqb_eq in En.
      pose proof (ss_len _ Hp) as Hl.
      destruct (IH kept (socket_recv_packet s p) (n + plen p) (fin (flags p)))
        as (n' & f' & H1 & H2 & H3 & H4 & H5).
      * by apply Forall_app.
      * apply StronglySorted_app in Hs as (Hx & Hy & Hz). apply StronglySorted_app.
        apply StronglySorted_inv in Hz as [Hz _]. split_and!; [|done|done]. intros; apply Hx; set_solver.
      * by apply recv_packet_delivers.
      * eapply Forall_impl; [exact Hk|]. simpl. intros x [?|[?|[_ [? _]%Forall_cons]]]; [done | | lia].
        right; left; lia.
      * exists n', f'. rewrite recv_packet_window in H3. split_and!; [done | lia | done | |].
        -- apply Forall_app in H4 as [? ?]. apply Forall_app. split; [done|]. constructor; [right; lia | done].
        -- destruct H5 as [->|(x & Hx & ->)]; right; [exists p | exists x]; split; [set_solver | lia | set_solver | done].
    + destruct (IH (kept ++ [p]) s n f) as (n' & f' & H1 & H2 & H3 & H4 & H5).
      * by rewrite <- app_assoc.
      * by rewrite <- app_assoc.
      * done.
      * apply Forall_app. split.
        -- eapply Forall_impl; [exact Hk|]. simpl. intros x [?|[?|[? [_ ?]%Forall_cons]]]; auto.
        -- apply Forall_singleton. destruct f; [by left|]. right. cbn [negb andb] in E.
           apply StronglySorted_app in Hs as (_ & _ & [_ Hz]%StronglySorted_inv).
           destruct (Z.lt_ge_cases (off p) n); [by left|]. right. split; [lia|].
           eapply Forall_impl; [exact Hz|]. unfold by_offset. simpl. lia.
      * exists n', f'. rewrite <- app_assoc in H4. split_and!; try done.
        destruct H5 as [->|(x & Hx & ->)]; [by left | right; exists x; set_solver].
Qed.

(** * Receiving *)

(** The parts of the socket the stream depends on. *)
Definition same_stream (s u : socket) : Prop :=
  rcv_nxt (tcp u) = rcv_nxt (tcp s) /\ rcv_wnd (tcp u) = rcv_wnd (tcp s) /\
  recv_queue u = recv_queue s /\ out_of_order_queue u = out_of_order_queue s.

Lemma settled_same s u n f : same_stream s u -> settled s n f -> settled u n f.
Proof.
  intros (E1 & _ & E3 & E4) [[] ? ? ?]. split; rewrite ?E4; auto. split; rewrite ?E1, ?E3; auto.
Qed.

Lemma send_ack_same s : same_stream s (tcp_send_ack s).
Proof. unfold tcp_send_ack, tcp_send, tcp_delack_timer_stop. by repeat case_match. Qed.

Lemma delack_start_same s : same_stream s (tcp_delack_timer_start s).
Proof. unfold tcp_delack_timer_start. by case_match. Qed.

Definition advances (s : socket) (n : Z) (p : packet) (u : socket) (n' : Z) : Prop :=
  n <= n' /\ rcv_wnd (tcp u) = rcv_wnd (tcp s) /\
  (forall x, x ∈ out_of_order_queue u -> x = p \/ x ∈ out_of_order_queue s) /\
  (forall x, accounted s n x -> accounted u n' x) /\
  (rcv_wnd (tcp s) <> 0 -> accounted u n' p) /\
  (n' = n \/ exists x, (x = p \/ x ∈ out_of_order_queue s) /\ n' = off x + plen x).

Lemma consolidate_keeps q kept s x :
  x ∈ out_of_order_queue (consolidate_from q kept s) -> x ∈ kept \/ x ∈ q.
Proof.
  revert kept s. induction q as [|p q IH]; intros kept s; cbn [consolidate_from]; [by left|].
  rewrite elem_of_cons. destruct (_ =? _); intros [Hx|Hx]%IH; [tauto | tauto | set_solver | tauto].
Qed.

Lemma recv_packet_ooo s p : out_of_order_queue (socket_recv_packet s p) = out_of_order_queue s.
Proof. unfold socket_recv_packet, tcp_fin. by repeat case_match. Qed.

Lemma recv_in_order s n p :
  settled s n false -> stream_seg p -> off p = n ->
  exists n' f', let u := consolidate_ooo_queue (socket_recv_packet s p) in
    settled u n' f' /\ advances s n p u n'.
Proof.
  intros [I Hseg Hs Hw] Hp En. unfold consolidate_ooo_queue. rewrite recv_packet_ooo.
  destruct (consolidate_from_spec (out_of_order_queue s) [] (socket_recv_packet s p) (n + plen p) (fin (flags p)))
    as (n' & f' & H1 & H2 & H3 & H4 & H5); auto.
  { by apply recv_packet_delivers. }
  pose proof (ss_len _ Hp). rewrite recv_packet_window in H3. rewrite Forall_forall in H4. simpl in H4.
  exists n', f'. split; [done|]. split_and!; [lia | done | | | |].
  - intros x [?|?]%consolidate_keeps; [set_solver | by right].
  - intros x [Hx|Hx]; [by apply H4 | right; lia].
  - intros _. right. lia.
  - right. destruct H5 as [->|(x & Hx & ->)]; [exists p | exists x]; split; (by auto || lia).
Qed.

Lemma recv_data_settled s n f p :
  settled s n f -> stream_seg p ->
  exists n' f', settled (tcp_recv_data s p) n' f' /\ advances s n p (tcp_recv_data s p) n'.
Proof.
  intros I Hp. unfold tcp_recv_data. destruct (Z.eqb_spec (rcv_wnd (tcp s)) 0) as [Ew|Ew].
  { exists n, f. split; [by apply (settled_same s)|]. split_and!; auto; [lia | done]. }
  rewrite (seg_at_next _ _ _ _ (st_delivered _ _ _ I) Hp). destruct (negb f && (off p =? n)) eqn:E.
  - apply andb_prop in E as [Ef En]. destruct f; [done|]. apply Z.eqb_eq in En.
    destruct (recv_in_order _ _ _ I Hp En) as (n' & f' & Hs & Ha). exists n', f'.
    set (u := consolidate_ooo_queue _) in *. set (v := tcp_delack_timer_start _).
    assert (Huv : same_stream u v) by apply (delack_start_same (emit WakeRecv u)).
    split; [by apply (settled_same u)|]. unfold advances, accounted in *. destruct Huv as (_ & -> & _ & ->). done.
  - exists n, f. set (u := add_to_ooo_queue s p). pose proof (send_ack_same u) as Huv.
    assert (Hin : forall x, x ∈ out_of_order_queue u <-> x = p \/ x ∈ out_of_order_queue s)
      by (intros; apply ooo_insert_elem).
    split.
    + apply (settled_same u); [done|]. destruct I as [[] Hseg Hs Hw]. split; [by split | | |].
      * apply Forall_forall. rewrite Forall_forall in Hseg. intros x [->|?]%Hin; auto.
      * by apply ooo_insert_sorted.
      * apply Forall_forall. rewrite Forall_forall in Hw. intros x [->|?]%Hin; auto.
        destruct f; [by left | right; cbn [negb andb] in E; lia].
    + unfold advances, accounted. destruct Huv as (_ & -> & _ & ->). split_and!; auto; try lia.
      * intros x Hx. by apply Hin.
      * intros x [Hx|Hx]; [left; apply Hin; auto | by right].
      * intros _. left. apply Hin. by left.
Qed.

(** * Whole arrivals *)

Definition arrivals_inv (ps : list packet) (u : socket) (n : Z) : Prop :=
  Forall (accounted u n) ps /\ (forall x, x ∈ out_of_order_queue u -> x ∈ ps) /\
  (n = 0 \/ exists x, x ∈ ps /\ n = off x + plen x).

Lemma recv_all_settled ps s :
  settled s 0 false -> out_of_order_queue s = [] -> rcv_wnd (tcp s) <> 0 -> Forall stream_seg ps ->
  exists n f, let u := foldl tcp_recv_data s ps in
    settled u n f /\ rcv_wnd (tcp u) <> 0 /\ arrivals_inv ps u n.
Proof.
  intros I Hq Hw. induction ps as [|p ps IH] using rev_ind; intros Hps.
  { exists 0, false. simpl. split_and!; auto. split_and!; auto. by rewrite Hq. }
  apply Forall_app in Hps as [Hps Hp]. rewrite Forall_singleton in Hp.
  destruct (IH Hps) as (n & f & I1 & Hw1 & Ha & Hsub & Hn). rewrite foldl_snoc. set (u := foldl _ s ps) in *.
  destruct (recv_data_settled _ _ _ _ I1 Hp) as (n' & f' & I2 & Hle & Hw2 & Hx & Hacc & Hap & Hn').
  exists n', f'. split_and!; [done | by rewrite Hw2 |]. split_and!.
  - apply Forall_app. split; [|by apply Forall_singleton, Hap].
    eapply Forall_impl; [exact Ha | exact Hacc].
  - intros x [->|?]%Hx; [set_solver|]. apply elem_of_app. auto.
  - destruct Hn' as [->|(x & [->|Hin] & ->)]; [| right; exists p; set_solver | right; exists x; set_solver].
    destruct Hn as [->|(x & ? & ->)]; [by left | right; exists x; set_solver].
Qed.

Lemma recv_all_complete ps s :
  settled s 0 false -> out_of_order_queue s = [] -> rcv_wnd (tcp s) <> 0 ->
  Forall stream_seg ps -> Forall (fun p => 0 < plen p) ps ->
  (forall n, n < Z.of_nat (length D) -> n = 0 \/ (exists p, p ∈ ps /\ n = off p + plen p) ->
     exists p, p ∈ ps /\ off p = n) ->
  concat (data <$> recv_queue (foldl tcp_recv_data s ps)) = D.
Proof.
  intros I Hq Hw Hps Hpos Hgap.
  destruct (recv_all_settled ps s) as (n & f & Is & _ & Ha & Hsub & Hn); auto.
  destruct Is as [Id Hseg Hsort Hwait]. rewrite (dl_data _ _ _ Id).
  destruct (Z.lt_ge_cases n (Z.of_nat (length D))) as [Hlt|Hge]; [exfalso | apply take_ge; lia].
  destruct (Hgap n Hlt Hn) as (p & Hp & Ep). rewrite Forall_forall in Ha, Hpos, Hwait.
  specialize (Ha _ Hp). specialize (Hpos _ Hp). simpl in Hpos.
  destruct Ha as [Hin|Hend]; [|lia]. destruct (Hwait _ Hin) as [Hf|?]; [|lia].
  pose proof (dl_fin _ _ _ Id Hf). lia.
Qed.

Lemma recv_data_state s p : state (tcp s) <> TCP_SYN_SENT -> state (tcp (tcp_recv_data s p)) <> TCP_SYN_SENT.
Proof.
  assert (Hpk : forall s p, state (tcp s) <> TCP_SYN_SENT -> state (tcp (socket_recv_packet s p)) <> TCP_SYN_SENT).
  { intros u q H. unfold socket_recv_packet. case_match; [|done]. unfold tcp_fin. by case_match. }
  assert (Hc : forall q kept s, state (tcp s) <> TCP_SYN_SENT -> state (tcp (consolidate_from q kept s)) <> TCP_SYN_SENT).
  { induction q as [|x q IH]; intros kept u H; cbn [consolidate_from]; [done|]. case_match; apply IH; auto. }
  intros H. unfold tcp_recv_data, tcp_send_ack, tcp_send, tcp_delack_timer_stop, tcp_delack_timer_start.
  repeat case_match; try done; cbn; apply Hc, Hpk, H.
Qed.

Lemma check_ack_same routable s p v u :
  tcp_check_ack routable s p = (v, u) -> state (tcp s) <> TCP_SYN_SENT ->
  same_stream s u /\ state (tcp u) <> TCP_SYN_SENT.
Proof.
  unfold tcp_check_ack, tcp_ack_window, send_reset, tcp_send_reset, reset_for. intros E H.
  repeat case_match; simplify_eq; (split; [by split_and! | first [exact H | discriminate | cbn; congruence]]).
Qed.

Lemma send_ack_tcp s : tcp (tcp_send_ack s) = tcp s.
Proof. unfold tcp_send_ack, tcp_send, tcp_delack_timer_stop. by repeat case_match. Qed.

Lemma got_rst_same s p :
  same_stream s (tcp_got_rst s p) /\ state (tcp (tcp_got_rst s p)) <> TCP_SYN_SENT.
Proof. unfold tcp_got_rst. by case_match. Qed.

Lemma send_reset_same routable s p :
  same_stream s (send_reset routable p s) /\ tcp (send_reset routable p s) = tcp s.
Proof. unfold send_reset, tcp_send_reset. by repeat case_match. Qed.

Lemma segment_text_settled s n f p :
  settled s n f -> stream_seg p -> state (tcp s) <> TCP_SYN_SENT ->
  exists n' f', settled (tcp_segment_text s p) n' f' /\ n <= n' /\
    state (tcp (tcp_segment_text s p)) <> TCP_SYN_SENT.
Proof.
  intros I Hp Hs. destruct (recv_data_settled _ _ _ _ I Hp) as (n' & f' & I' & Hle & _).
  pose proof (recv_data_state s p Hs). unfold tcp_segment_text, tcp_fin.
  repeat case_match; try (by exists n', f'); exists n, f;
    (split_and!; [by apply (settled_same s) | lia | cbn; congruence]).
Qed.

(** A segment of the stream, whatever its other fields, in any state but
    SYN_SENT. *)
Lemma rx_segment_settled routable s n f p :
  settled s n f -> stream_seg p -> state (tcp s) <> TCP_SYN_SENT ->
  exists n' f', settled (tcp_rx_segment routable s p) n' f' /\ n <= n' /\
    state (tcp (tcp_rx_segment routable s p)) <> TCP_SYN_SENT.
Proof.
  intros I Hp Hst.
  assert (Hskip : forall u, same_stream s u /\ state (tcp u) <> TCP_SYN_SENT ->
    exists n' f', settled u n' f' /\ n <= n' /\ state (tcp u) <> TCP_SYN_SENT).
  { intros u [Hu Hs]. exists n, f. split_and!; [by apply (settled_same s) | lia | done]. }
  assert (Hreset : same_stream s (send_reset routable p s) /\ state (tcp (send_reset routable p s)) <> TCP_SYN_SENT).
  { destruct (send_reset_same routable s p) as [? ->]. done. }
  destruct (tcp_check_ack routable s p) as [v u] eqn:Ec.
  destruct (check_ack_same _ _ _ _ _ Ec Hst) as [Hu Hsu].
  pose proof (segment_text_settled _ _ _ _ (settled_same _ _ _ _ Hu I) Hp Hsu) as Htext.
  unfold tcp_rx_segment, tcp_closed, tcp_listen. rewrite Ec.
  set (synced := if negb (tcp_sequence_valid s p) then _ else _).
  assert (Hsync : exists n' f', settled synced n' f' /\ n <= n' /\ state (tcp synced) <> TCP_SYN_SENT).
  { subst synced. destruct (tcp_sequence_valid s p); cbn [negb].
    2:{ apply Hskip. destruct (negb (rst (flags p))); [|done]. cbn [tcp packet_free emit set_trace].
        rewrite send_ack_tcp. split; [apply send_ack_same | done]. }
    destruct (rst (flags p)); [apply Hskip, got_rst_same|]. destruct (syn (flags p)); [by apply Hskip|].
    destruct (ack (flags p)); cbn [negb]; [|by apply Hskip].
    destruct v; [| by apply Hskip | by apply Hskip]. destruct (state (tcp u)) eqn:Es; try exact Htext.
    apply Hskip. split; [exact Hu | cbn; congruence]. }
  destruct (state (tcp s)) eqn:Es; try done; apply Hskip; [exact Hreset|]. by split; [|cbn; rewrite Es].
Qed.

Lemma settled_start s :
  rcv_nxt (tcp s) = u32 b -> recv_queue s = [] -> out_of_order_queue s = [] -> settled s 0 false.
Proof.
  intros Hn Hr Hq. split; rewrite ?Hq; [| by constructor | by constructor | by constructor].
  split; [lia | by rewrite Hn, !Z.add_0_r | done | by rewrite Hr].
Qed.

Lemma rx_all_settled routable ps s n f :
  settled s n f -> Forall stream_seg ps -> state (tcp s) <> TCP_SYN_SENT ->
  exists n' f', settled (foldl (tcp_rx_segment routable) s ps) n' f' /\ n <= n'.
Proof.
  revert s n f. induction ps as [|p ps IH]; intros s n f I Hps Hst; [by exists n, f|].
  apply Forall_cons in Hps as [Hp Hps].
  destruct (rx_segment_settled routable s n f p I Hp Hst) as (n1 & f1 & I1 & Hle & Hst1).
  destruct (IH _ _ _ I1 Hps Hst1) as (n' & f' & I' & Hle'). exists n', f'. split; [done | lia].
Qed.
End stream.

(** * The properties *)

(** C12: safety of delivery.  Take a socket in any state but SYN_SENT that has
    received nothing of the stream [D] (fewer than 2^31-1 bytes, at sequence
    number [b], which may lie anywhere on the 32-bit circle).  However the
    network reorders, repeats or loses the segments of [D], and whatever their
    ACK, RST, SYN, PSH and window fields are, the data in [recv_queue] after
    [tcp_rx] has handled them is a prefix of [D] and [rcv_nxt] counts its
    length (and the FIN): no byte is delivered twice, out of order or not at
    all in between. *)
Theorem tcp_rx_delivers_prefix routable b D s ps :
  Z.of_nat (length D) < 2 ^ 31 - 1 -> state (tcp s) <> TCP_SYN_SENT -> rcv_nxt (tcp s) = u32 b ->
  recv_queue s = [] -> out_of_order_queue s = [] -> Forall (stream_seg b D) ps ->
  exists n f, let u := foldl (tcp_rx_segment routable) s ps in
    0 <= n <= Z.of_nat (length D) /\
    concat (data <$> recv_queue u) = take (Z.to_nat n) D /\
    rcv_nxt (tcp u) = u32 (b + n + Z.b2z f) /\ (f = true -> n = Z.of_nat (length D)).
Proof.
  intros HD Hst Hn Hr Hq Hps.
  assert (I : settled b D s 0 false) by (by apply settled_start).
  destruct (rx_all_settled b D HD routable ps s 0 false I Hps Hst) as (n & f & [[] _ _ _] & _). by exists n, f.
Qed.

(** C13: completeness of delivery.  When the receive window is open and the
    non-empty segments that [tcp_recv_data] was given leave no gap (one starts
    at offset 0, and at the end of each that is not the end of [D] another one
    starts), in whatever order and however often they came, the whole of [D]
    has been delivered. *)
Theorem tcp_recv_data_complete b D s ps :
  Z.of_nat (length D) < 2 ^ 31 - 1 -> rcv_wnd (tcp s) <> 0 -> rcv_nxt (tcp s) = u32 b ->
  recv_queue s = [] -> out_of_order_queue s = [] ->
  Forall (stream_seg b D) ps -> Forall (fun p => 0 < plen p) ps ->
  (forall n, n < Z.of_nat (length D) -> n = 0 \/ (exists p, p ∈ ps /\ n = off b p + plen p) ->
     exists p, p ∈ ps /\ off b p = n) ->
  concat (data <$> recv_queue (foldl tcp_recv_data s ps)) = D.
Proof.
  intros HD Hw Hn Hr Hq Hps Hpos Hgap. apply (recv_all_complete b D HD); auto. by apply settled_start.
Qed.

Definition example_packet (sq : Z) (d : list Z) : packet :=
  {| seq := sq; ack_seq := 201; window := 1000; flags := ack_flags; data := d; plen := Z.of_nat (length d);
     from_ip := 3; from_port := 4; to_port := 2 |}.

(** The last, the first and the middle third, the last one twice. *)
Definition example_arrivals : list packet :=
  [example_packet 2 [5; 6]; example_packet 4294967294 [1; 2]; example_packet 2 [5; 6]; example_packet 0 [3; 4]].

Lemma example_segs : Forall (stream_seg 4294967294 [1; 2; 3; 4; 5; 6]) example_arrivals.
Proof. repeat constructor; vm_compute; congruence. Defined.

Lemma tcp_rx_delivers_prefix_witness :
  exists n f, let u := foldl (tcp_rx_segment (fun _ => true)) example_socket example_arrivals in
    0 <= n <= 6 /\ concat (data <$> recv_queue u) = take (Z.to_nat n) [1; 2; 3; 4; 5; 6] /\
    rcv_nxt (tcp u) = u32 (4294967294 + n + Z.b2z f) /\ (f = true -> n = 6).
Proof.
  apply (tcp_rx_delivers_prefix (fun _ => true) 4294967294 [1; 2; 3; 4; 5; 6] example_socket example_arrivals);
    [reflexivity | discriminate | reflexivity | reflexivity | reflexivity | exact example_segs].
Defined.

Lemma tcp_recv_data_complete_witness :
  concat (data <$> recv_queue (foldl tcp_recv_data example_socket example_arrivals)) = [1; 2; 3; 4; 5; 6].
Proof.
  apply (tcp_recv_data_complete 4294967294 [1; 2; 3; 4; 5; 6] example_socket example_arrivals);
    [reflexivity | discriminate | reflexivity | reflexivity | reflexivity | exact example_segs | |].
  - repeat constructor.
  - intros n Hn Hs. assert (Hc : n = 0 \/ n = 2 \/ n = 4).
    { destruct Hs as [->|(p & Hp & ->)]; [auto|].
      repeat (apply elem_of_cons in Hp as [->|Hp]; [vm_compute in Hn |- *; auto; try discriminate Hn|]).
      by apply elem_of_nil in Hp. }
    destruct Hc as [->|[->| ->]];
      [exists (example_packet 4294967294 [1; 2]) | exists (example_packet 0 [3; 4]) | exists (example_packet 2 [5; 6])];
      (split; [unfold example_arrivals; set_solver | reflexivity]).
Defined.
