(* ===== verification/TcpState.v ===== *)
(** What single TCP operations do to a connection (src/net/ipv4/tcp_input.c, tcp.c):
    which segments are acceptable, how acknowledgements move the send window,
    how [tcp_sendto] cuts the user's bytes into segments, and where a failed
    [tcp_connect] leaves the socket. *)
From stdpp Require Import base numbers list gmap sorting.
From Stdlib Require Import ZArith ZifyBool Lia.
From S2P Require Import Prelude UserMem Bits IpRoute Tcp TcpStream.
Open Scope Z_scope.

(** * The receive window *)

(** The test with strict bounds one outside the window. *)
Lemma between_window nxt wnd x :
  0 <= wnd <= 2 ^ 31 ->
  tcp_seq_between (u32 (nxt - 1)) x (u32 (nxt + wnd)) = ((x - nxt) mod 2 ^ 32 <? wnd).
Proof.
  intros Hw. apply eq_true_iff_eq. unfold tcp_seq_between.
  rewrite andb_true_iff, !seq_before_spec, Z.ltb_lt. unfold u32, uwrap. Z.div_mod_to_equations. lia.
Qed.

(** The acceptability table of RFC 793. *)
Definition acceptable (nxt wnd sq len : Z) : Prop :=
  let inside x := (x - nxt) mod 2 ^ 32 < wnd in
  if len =? 0 then (wnd = 0 /\ sq = nxt) \/ (wnd <> 0 /\ inside sq)
  else wnd <> 0 /\ (inside sq \/ inside (sq + len - 1)).

Lemma sequence_valid_spec s p :
  0 <= rcv_wnd (tcp s) <= 2 ^ 31 ->
  tcp_sequence_valid s p = true <-> acceptable (rcv_nxt (tcp s)) (rcv_wnd (tcp s)) (seq p) (plen p).
Proof.
  intros Hw. unfold tcp_sequence_valid, acceptable. rewrite !between_window by done.
  assert (E : (u32 (seq p + plen p - 1) - rcv_nxt (tcp s)) mod 2 ^ 32 = (seq p + plen p - 1 - rcv_nxt (tcp s)) mod 2 ^ 32).
  { unfold u32, uwrap. by rewrite Zminus_mod_idemp_l. }
  rewrite E. destruct (Z.eqb_spec (plen p) 0); simpl; lia.
Qed.

(** The connection proper: everything of the socket but its references, the
    pending delayed ack and the trace. *)
Definition same_connection (s u : socket) : Prop :=
  tcp u = tcp s /\ sk_state u = sk_state s /\ last_err u = last_err s /\ ip u = ip s /\
  recv_queue u = recv_queue s /\ out_of_order_queue u = out_of_order_queue s.

Definition bare_ack (s : socket) : segment :=
  {| o_src_port := lk_src_port (ip s); o_dest_addr := lk_dest_addr (ip s); o_dest_port := lk_dest_port (ip s);
     o_seq := snd_nxt (tcp s); o_ack_seq := rcv_nxt (tcp s); o_window := rcv_wnd (tcp s);
     o_flags := ack_flags; o_data := [] |}.

Lemma send_ack_connected s :
  sk_state s = SOCKET_CONNECTED ->
  same_connection s (tcp_send_ack s) /\
  trace (tcp_send_ack s) = trace s ++ [Sent (bare_ack s)].
Proof.
  intros Hc. unfold tcp_send_ack, tcp_send, ip_packet_fill_route, tcp_delack_timer_stop.
  destruct (delack s); cbn; rewrite Hc; by cbn.
Qed.

(** in a synchronised state exactly the segments RFC 793 calls acceptable
    pass: the comparisons of [tcp_sequence_valid], strict and off by one at
    both ends of the window, compute its table for every sequence number on the
    circle and every window up to 2^31.  Any other segment leaves the
    connection as it is: it is answered with one empty ACK that repeats
    [snd_nxt] and [rcv_nxt], or with nothing if it is a reset. *)
Theorem tcp_rx_window routable s p :
  0 <= rcv_wnd (tcp s) <= 2 ^ 31 -> sk_state s = SOCKET_CONNECTED ->
  state (tcp s) <> TCP_CLOSE -> state (tcp s) <> TCP_SYN_SENT -> state (tcp s) <> TCP_LISTEN ->
  (tcp_sequence_valid s p = true <-> acceptable (rcv_nxt (tcp s)) (rcv_wnd (tcp s)) (seq p) (plen p)) /\
  (~ acceptable (rcv_nxt (tcp s)) (rcv_wnd (tcp s)) (seq p) (plen p) ->
   let u := tcp_rx_segment routable s p in
   same_connection s u /\
   trace u = trace s ++ (if rst (flags p) then [] else [Sent (bare_ack s)]) ++ [Freed (data p)]).
Proof.
  intros Hw Hc H1 H2 H3. pose proof (sequence_valid_spec s p Hw) as Hv. split; [done|].
  intros Hn. rewrite <- Hv, not_true_iff_false in Hn.
  destruct (send_ack_connected s Hc) as [Hs Ht]. unfold tcp_rx_segment. rewrite Hn.
  assert (Hgoal : forall u, u = packet_free p (if negb (rst (flags p)) then tcp_send_ack s else s) ->
    same_connection s u /\
    trace u = trace s ++ (if rst (flags p) then [] else [Sent (bare_ack s)]) ++ [Freed (data p)]).
  { intros u ->. destruct (rst (flags p)); cbn; [done|]. split; [exact Hs|]. rewrite Ht, <- app_assoc. done. }
  destruct (state (tcp s)); try done; by apply Hgoal.
Qed.

Lemma tcp_rx_window_witness :
  (tcp_sequence_valid example_socket (example_packet 50000 [7]) = true <->
   acceptable 4294967294 44477 50000 1) /\
  (~ acceptable 4294967294 44477 50000 1 ->
   let u := tcp_rx_segment (fun _ => true) example_socket (example_packet 50000 [7]) in
   same_connection example_socket u /\
   trace u = [Sent {| o_src_port := 2; o_dest_addr := 3; o_dest_port := 4; o_seq := 201; o_ack_seq := 4294967294;
                      o_window := 44477; o_flags := ack_flags; o_data := [] |}; Freed [7]]).
Proof.
  apply (tcp_rx_window (fun _ => true) example_socket (example_packet 50000 [7]));
    [split; vm_compute; congruence | reflexivity | discriminate | discriminate | discriminate].
Defined.

(** * Acknowledgements *)

(** The bytes sent and not yet acknowledged. *)
Definition in_flight (t : tcp_socket_private) : Z := (snd_nxt t - snd_una t) mod 2 ^ 32.

Lemma between_acked una nxt a :
  (nxt - una) mod 2 ^ 32 < 2 ^ 31 -> tcp_seq_between una a (u32 (nxt + 1)) = true ->
  (nxt - a) mod 2 ^ 32 < (nxt - una) mod 2 ^ 32.
Proof.
  intros Hw. unfold tcp_seq_between. rewrite andb_true_iff, !seq_before_spec.
  unfold u32, uwrap. Z.div_mod_to_equations. lia.
Qed.

Lemma not_between_self a n : tcp_seq_between a a n = false.
Proof.
  apply not_true_iff_false. unfold tcp_seq_between. rewrite andb_true_iff, seq_before_spec, Z.sub_diag, Z.mod_0_l; lia.
Qed.

(** [u] has the send side of [s], with [snd_una] possibly further on. *)
Definition send_kept (s u : socket) : Prop :=
  snd_nxt (tcp u) = snd_nxt (tcp s) /\ snd_wnd (tcp u) = snd_wnd (tcp s) /\
  in_flight (tcp u) <= in_flight (tcp s).

(** The window update of the ACK processing is never reached: an acceptable
    acknowledgement has just become [snd_una]. *)
Lemma ack_window_send s p v u :
  tcp_ack_window s p = (v, u) -> in_flight (tcp s) < 2 ^ 31 -> send_kept s u.
Proof.
  unfold tcp_ack_window. intros E Hw.
  destruct (tcp_seq_between (snd_una (tcp s)) (ack_seq p) (u32 (snd_nxt (tcp s) + 1))) eqn:Eb.
  - pose proof (between_acked _ _ _ Hw Eb) as Hlt. cbn [tcp snd_una snd_nxt tcp_set set_tcp set_snd_una] in E.
    rewrite not_between_self in E.
    destruct (tcp_seq_after _ _); cbn [andb] in E; simplify_eq; (split_and!; [done | done | exact (Z.lt_le_incl _ _ Hlt)]).
  - rewrite Eb in E. destruct (tcp_seq_after _ _); cbn [andb] in E; simplify_eq; by split_and!.
Qed.

Lemma send_kept_tcp s u v : send_kept s u -> tcp v = tcp u -> send_kept s v.
Proof. unfold send_kept. by intros ? ->. Qed.

Lemma send_kept_refl s : send_kept s s.
Proof. by split_and!. Qed.

Lemma check_ack_send routable s p v u :
  tcp_check_ack routable s p = (v, u) -> in_flight (tcp s) < 2 ^ 31 -> send_kept s u.
Proof.
  unfold tcp_check_ack, send_reset, tcp_send_reset. intros E Hw.
  destruct (state (tcp s)); try (by eapply ack_window_send; eauto); repeat case_match; simplify_eq; by split_and!.
Qed.

(** The functions that only write the receive side and the state. *)
Definition send_side (t : tcp_socket_private) : Z * Z * Z := (snd_nxt t, snd_una t, snd_wnd t).

Lemma tcp_fin_side s : send_side (tcp (tcp_fin s)) = send_side (tcp s).
Proof. unfold tcp_fin. by case_match. Qed.

Lemma recv_packet_side s p : send_side (tcp (socket_recv_packet s p)) = send_side (tcp s).
Proof.
  unfold socket_recv_packet. cbn [tcp set_recv_queue]. case_match; [by rewrite tcp_fin_side | done].
Qed.

Lemma consolidate_side q kept s : send_side (tcp (consolidate_from q kept s)) = send_side (tcp s).
Proof.
  revert kept s. induction q as [|p q IH]; intros kept s; cbn [consolidate_from]; [done|].
  case_match; rewrite IH; [apply recv_packet_side | done].
Qed.

Lemma delack_start_tcp s : tcp (tcp_delack_timer_start s) = tcp s.
Proof. unfold tcp_delack_timer_start. by case_match. Qed.

Lemma recv_data_side s p : send_side (tcp (tcp_recv_data s p)) = send_side (tcp s).
Proof.
  unfold tcp_recv_data. case_match; [done|]. case_match.
  - rewrite delack_start_tcp. cbn [tcp emit set_trace]. unfold consolidate_ooo_queue.
    by rewrite consolidate_side, recv_packet_side.
  - by rewrite send_ack_tcp.
Qed.

Lemma segment_text_side s p : send_side (tcp (tcp_segment_text s p)) = send_side (tcp s).
Proof.
  unfold tcp_segment_text. repeat case_match; cbn [tcp packet_free emit set_trace];
    rewrite ?recv_data_side, ?tcp_fin_side; done.
Qed.

Lemma send_kept_side s u v : send_kept s u -> send_side (tcp v) = send_side (tcp u) -> send_kept s v.
Proof. unfold send_kept, in_flight, send_side. intros Hs [= -> -> ->]. done. Qed.

Lemma send_kept_eq s u : send_side (tcp u) = send_side (tcp s) -> send_kept s u.
Proof. apply send_kept_side, send_kept_refl. Qed.

(** no segment makes the sender believe more than it sent.  In every state
    but SYN_SENT, whatever arrives, [snd_una] only moves towards [snd_nxt] on
    the circle and never past it, and [snd_nxt] is untouched.  [snd_wnd] is
    untouched as well: the code that should take the peer's window from the
    segment compares the acknowledgement with the [snd_una] it has just been
    assigned to, and is never reached. *)
Theorem tcp_rx_send_window routable s p :
  state (tcp s) <> TCP_SYN_SENT -> in_flight (tcp s) < 2 ^ 31 ->
  let u := tcp_rx_segment routable s p in
  snd_nxt (tcp u) = snd_nxt (tcp s) /\ snd_wnd (tcp u) = snd_wnd (tcp s) /\
  in_flight (tcp u) <= in_flight (tcp s).
Proof.
  intros Hst Hw. fold (send_kept s (tcp_rx_segment routable s p)).
  destruct (tcp_check_ack routable s p) as [v u] eqn:Ec.
  pose proof (check_ack_send _ _ _ _ _ Ec Hw) as Hu.
  assert (Hreset : send_kept s (send_reset routable p s)).
  { eapply send_kept_tcp; [apply send_kept_refl | apply send_reset_same]. }
  unfold tcp_rx_segment, tcp_closed, tcp_listen. rewrite Ec.
  set (synced := if negb (tcp_sequence_valid s p) then _ else _).
  assert (Hs : send_kept s synced).
  { subst synced. destruct (tcp_sequence_valid s p); cbn [negb].
    2:{ apply (send_kept_tcp s s); [apply send_kept_refl|].
        destruct (negb (rst (flags p))); [apply send_ack_tcp | done]. }
    destruct (rst (flags p)); [unfold tcp_got_rst; by case_match; apply send_kept_eq|].
    destruct (syn (flags p)); [by apply send_kept_eq|].
    destruct (ack (flags p)); cbn [negb]; [|by apply send_kept_eq].
    destruct v; [|exact Hu|exact Hu].
    destruct (state (tcp u)); try (by apply (send_kept_side s u); [|apply segment_text_side]). exact Hu. }
  destruct (state (tcp s)); (done || apply Hreset || by apply send_kept_eq).
Qed.

Lemma tcp_rx_send_window_witness :
  let u := tcp_rx_segment (fun _ => true) example_socket (example_packet 4294967294 [1; 2]) in
  snd_nxt (tcp u) = 201 /\ snd_wnd (tcp u) = 0 /\ in_flight (tcp u) <= 0.
Proof.
  apply (tcp_rx_send_window (fun _ => true) example_socket (example_packet 4294967294 [1; 2]));
    [discriminate | reflexivity].
Defined.

(** * Sending *)

(** The segments of [bs], from sequence number [sq] on. *)
Record segmentation (s : socket) (sq : Z) (bs : list Z) (segs : list segment) : Prop := {
  sg_data : concat (o_data <$> segs) = bs;
  sg_each : forall i seg, segs !! i = Some seg ->
    o_seq seg = u32 (sq + IPV4_PACKET_MSS * Z.of_nat i) /\
    1 <= Z.of_nat (length (o_data seg)) <= IPV4_PACKET_MSS /\
    o_flags seg = (if decide (S i = length segs) then psh_flags ack_flags else ack_flags) /\
    o_ack_seq seg = rcv_nxt (tcp s) /\ o_window seg = rcv_wnd (tcp s) /\
    o_src_port seg = lk_src_port (ip s) /\ o_dest_addr seg = lk_dest_addr (ip s) /\
    o_dest_port seg = lk_dest_port (ip s);
}.

Definition routed (s : socket) : Prop := sk_state s = SOCKET_CONNECTING \/ sk_state s = SOCKET_CONNECTED.

Lemma sendto_packet_routed s d push n :
  routed s ->
  let u := tcp_set (fun t => set_snd_nxt (u32 (snd_nxt t + n)) t) (tcp_sendto_packet s d push) in
  trace u = trace s ++
    [Sent {| o_src_port := lk_src_port (ip s); o_dest_addr := lk_dest_addr (ip s); o_dest_port := lk_dest_port (ip s);
             o_seq := snd_nxt (tcp s); o_ack_seq := rcv_nxt (tcp s); o_window := rcv_wnd (tcp s);
             o_flags := if push then psh_flags ack_flags else ack_flags; o_data := d |}] /\
  sk_state u = sk_state s /\ ip u = ip s /\ rcv_nxt (tcp u) = rcv_nxt (tcp s) /\
  rcv_wnd (tcp u) = rcv_wnd (tcp s) /\ snd_nxt (tcp u) = u32 (snd_nxt (tcp s) + n).
Proof.
  intros Hr. unfold tcp_sendto_packet, tcp_send, ip_packet_fill_route.
  destruct Hr as [E|E]; rewrite E; cbn; by rewrite ?E.
Qed.

Lemma segmentation_cons s u seg bs segs :
  segmentation u (u32 (snd_nxt (tcp s) + IPV4_PACKET_MSS)) bs segs -> segs <> [] ->
  ip u = ip s -> rcv_nxt (tcp u) = rcv_nxt (tcp s) -> rcv_wnd (tcp u) = rcv_wnd (tcp s) ->
  Z.of_nat (length (o_data seg)) = IPV4_PACKET_MSS -> 0 <= snd_nxt (tcp s) < 2 ^ 32 ->
  seg = {| o_src_port := lk_src_port (ip s); o_dest_addr := lk_dest_addr (ip s); o_dest_port := lk_dest_port (ip s);
           o_seq := snd_nxt (tcp s); o_ack_seq := rcv_nxt (tcp s); o_window := rcv_wnd (tcp s);
           o_flags := ack_flags; o_data := o_data seg |} ->
  segmentation s (snd_nxt (tcp s)) (o_data seg ++ bs) (seg :: segs).
Proof.
  intros [Hd He] Hne Hip Hn Hw Hl Hsq Eseg. split; [cbn; by rewrite Hd|].
  intros [|i] x Hx; cbn [lookup list_lookup] in Hx.
  - simplify_eq. rewrite Eseg. cbn [o_seq o_data o_flags o_ack_seq o_window o_src_port o_dest_addr o_dest_port].
    rewrite decide_False by (destruct segs; [done | simpl; lia]).
    split_and!; auto; unfold IPV4_PACKET_MSS in *; [by rewrite Z.mul_0_r, Z.add_0_r, u32_small | lia | lia].
  - destruct (He i x Hx) as (H1 & H2 & H3 & H4 & H5 & H6 & H7 & H8). rewrite Hip, Hn, Hw in *.
    split_and!; try (done || lia).
    + rewrite H1. autorewrite with machine. f_equal. lia.
    + rewrite H3. destruct (decide (S i = length segs)); [rewrite decide_True | rewrite decide_False]; auto; simpl; lia.
Qed.

Lemma sendto_loop_spec m fuel : forall s buf bs,
  routed s -> 0 <= snd_nxt (tcp s) < 2 ^ 32 -> readable m buf bs -> Z.of_nat (length bs) < IPV4_PACKET_MSS * Z.of_nat fuel ->
  exists segs u, sendto_loop fuel m s buf (Z.of_nat (length bs)) = (0, u) /\
    trace u = trace s ++ (Sent <$> segs) /\ segmentation s (snd_nxt (tcp s)) bs segs /\
    (bs <> [] -> segs <> []) /\ snd_nxt (tcp u) = u32 (snd_nxt (tcp s) + Z.of_nat (length bs)).
Proof.
  induction fuel as [|fuel IH]; intros s buf bs Hr Hsq Hb Hf; [lia|]. cbn [sendto_loop].
  destruct (Z.eqb_spec (Z.of_nat (length bs)) 0) as [E0|E0].
  { destruct bs; [|simpl in E0; lia]. exists [], s. split_and!; auto; [by rewrite app_nil_r | | ].
    - split; [done|]. by intros i seg; rewrite lookup_nil.
    - by rewrite Z.add_0_r, u32_small. }
  unfold IPV4_PACKET_MSS. destruct (Z.ltb_spec 1024 (Z.of_nat (length bs))) as [Hlt|Hge].
  - set (d := take 1024 bs). set (bs' := drop 1024 bs).
    assert (Ebs : bs = d ++ bs') by (symmetry; apply take_drop).
    assert (Hd : length d = 1024%nat) by (apply length_take_le; lia).
    assert (Hl' : Z.of_nat (length bs') = Z.of_nat (length bs) - 1024) by (unfold bs'; rewrite length_drop; lia).
    rewrite Ebs in Hb. destruct (readable_app _ _ _ _ Hb) as [Hb1 Hb2]. rewrite Hd in Hb2.
    pose proof (user_memcpy_to_kernel_read m buf d Hb1 ltac:(by destruct d)) as Ec. rewrite Hd in Ec.
    change (Z.of_nat 1024) with 1024 in *. rewrite Ec. cbn [Z.eqb negb].
    rewrite <- Hl'. destruct (Z.eqb_spec (Z.of_nat (length bs')) 0); [lia|].
    destruct (sendto_packet_routed s d false 1024 Hr) as (T1 & T2 & T3 & T4 & T5 & T6).
    set (v := tcp_set _ _) in *.
    destruct (IH v (user_buffer_index buf 1024) bs') as (segs & u & Eu & Tu & Su & Nu & Xu); auto.
    { unfold routed. by rewrite T2. }
    { rewrite T6. auto with machine. }
    { unfold IPV4_PACKET_MSS in *. lia. }
    eexists (_ :: segs), u. split_and!; [exact Eu | | | done |].
    + rewrite Tu, T1, <- app_assoc. reflexivity.
    + rewrite Ebs. change d with (o_data {| o_src_port := lk_src_port (ip s); o_dest_addr := lk_dest_addr (ip s);
        o_dest_port := lk_dest_port (ip s); o_seq := snd_nxt (tcp s); o_ack_seq := rcv_nxt (tcp s);
        o_window := rcv_wnd (tcp s); o_flags := ack_flags; o_data := d |}) at 1.
      apply (segmentation_cons s v); auto.
      * unfold IPV4_PACKET_MSS. by rewrite <- T6.
      * apply Nu. intros ->. simpl in *. lia.
      * simpl. rewrite Hd. done.
    + rewrite Xu, T6. autorewrite with machine. f_equal. lia.
  - rewrite (user_memcpy_to_kernel_read m buf bs) by (done || by destruct bs).
    cbn [Z.eqb negb]. rewrite Z.sub_diag. cbn [Z.eqb].
    destruct (sendto_packet_routed s bs true (Z.of_nat (length bs)) Hr) as (T1 & T2 & T3 & T4 & T5 & T6).
    set (v := tcp_set _ _) in *.
    eexists [_], v. split_and!; [by destruct fuel | exact T1 | | done | exact T6].
    split; [simpl; apply app_nil_r|]. intros [|i] seg Hx; [|done]. simpl in Hx. simplify_eq. simpl.
    rewrite Z.add_0_r, u32_small by done. unfold IPV4_PACKET_MSS. split_and!; auto; lia.
Qed.

(** [tcp_sendto] on a connected (or connecting) socket without a pending
    error hands all of the user's bytes to IP: it returns their number, and the
    segments it sends carry them in order and without gap, cut at
    [IPV4_PACKET_MSS], with the sequence numbers that follow from [snd_nxt]
    (wrapping at 2^32), PSH on the last one only; [snd_nxt] ends behind them.
    The loop needs no more than [buf_len / IPV4_PACKET_MSS + 1] rounds. *)
Theorem tcp_sendto_segments m s buf bs :
  routed s -> last_err s = 0 -> 0 <= snd_nxt (tcp s) < 2 ^ 32 -> readable m buf bs ->
  exists segs u, tcp_sendto m s buf (Z.of_nat (length bs)) false = (Z.of_nat (length bs), u) /\
    trace u = trace s ++ (Sent <$> segs) /\ segmentation s (snd_nxt (tcp s)) bs segs /\
    snd_nxt (tcp u) = u32 (snd_nxt (tcp s) + Z.of_nat (length bs)).
Proof.
  intros Hr He Hsq Hb. unfold tcp_sendto, socket_last_error. rewrite He. cbn [Z.eqb negb].
  destruct (sendto_loop_spec m (Z.to_nat (Z.of_nat (length bs) / IPV4_PACKET_MSS) + 1) (set_last_err 0 s) buf bs)
    as (segs & u & Eu & Tu & Su & _ & Xu); auto.
  { unfold IPV4_PACKET_MSS. Z.div_mod_to_equations. lia. }
  rewrite Eu. cbn [Z.eqb negb]. exists segs, u. split_and!; auto. destruct Su as [? He']. by split.
Qed.

Definition example_bytes : gmap Z Z := <[1000 := 7]> (<[1001 := 8]> ∅).

Lemma tcp_sendto_segments_witness :
  exists segs u, tcp_sendto example_bytes example_socket (make_user_buffer 1000) 2 false = (2, u) /\
    trace u = Sent <$> segs /\ segmentation example_socket 201 [7; 8] segs /\ snd_nxt (tcp u) = 203.
Proof.
  apply (tcp_sendto_segments example_bytes example_socket (make_user_buffer 1000) [7; 8]);
    [by right | reflexivity | simpl; lia |].
  split; simpl; [lia | unfold KMEM_KBASE; lia |].
  intros [|[|i]] Hi; [reflexivity | reflexivity | lia].
Defined.

Lemma sendto_loop_unrouted m fuel : forall s buf bs,
  ~ routed s -> readable m buf bs -> Z.of_nat (length bs) <= IPV4_PACKET_MSS * Z.of_nat fuel ->
  exists drops u, sendto_loop fuel m s buf (Z.of_nat (length bs)) = (0, u) /\
    trace u = trace s ++ (Freed <$> drops).
Proof.
  induction fuel as [|fuel IH]; intros s buf bs Hr Hb Hf; cbn [sendto_loop].
  { exists [], s. split; [done | by rewrite app_nil_r]. }
  destruct (Z.eqb_spec (Z.of_nat (length bs)) 0) as [E0|E0].
  { exists [], s. split; [done | by rewrite app_nil_r]. }
  set (k := if IPV4_PACKET_MSS <? Z.of_nat (length bs) then IPV4_PACKET_MSS else Z.of_nat (length bs)).
  assert (Hk : 1 <= k <= Z.of_nat (length bs) /\ (k = Z.of_nat (length bs) \/ k = IPV4_PACKET_MSS)).
  { unfold k, IPV4_PACKET_MSS. destruct (Z.ltb_spec 1024 (Z.of_nat (length bs))); lia. }
  set (d := take (Z.to_nat k) bs). assert (Hd : length d = Z.to_nat k) by (apply length_take_le; lia).
  rewrite <- (take_drop (Z.to_nat k) bs) in Hb. destruct (readable_app _ _ _ _ Hb) as [Hb1 Hb2].
  fold d in Hb1, Hb2. rewrite Hd, Z2Nat.id in Hb2 by lia.
  pose proof (user_memcpy_to_kernel_read m buf d Hb1 ltac:(destruct d; simpl in *; [lia | done])) as Ec.
  rewrite Hd, Z2Nat.id in Ec by lia. rewrite Ec. cbn [Z.eqb negb].
  set (v := tcp_set _ _). assert (Hv : trace v = trace s ++ [Freed d] /\ sk_state v = sk_state s).
  { unfold v, tcp_sendto_packet, tcp_send, ip_packet_fill_route, routed in *.
    destruct (sk_state s) eqn:Es; [| tauto | tauto |]; by cbn. }
  destruct Hv as [Tv Sv].
  destruct (IH v (user_buffer_index buf k) (drop (Z.to_nat k) bs)) as (drops & u & Eu & Tu); auto.
  { unfold routed. by rewrite Sv. }
  { rewrite length_drop. unfold IPV4_PACKET_MSS in *. lia. }
  exists (d :: drops), u. rewrite length_drop, Nat2Z.inj_sub, Z2Nat.id in Eu by lia. split; [done|].
  rewrite Tu, Tv, <- app_assoc. done.
Qed.

(** a defect.  On a socket that is neither connected nor connecting,
    [tcp_sendto] drops every segment, since there is no route, and still
    returns the number of bytes it was given: the caller is told that all of
    them were sent. *)
Theorem tcp_sendto_unconnected m s buf bs :
  ~ routed s -> last_err s = 0 -> readable m buf bs ->
  exists drops u, tcp_sendto m s buf (Z.of_nat (length bs)) false = (Z.of_nat (length bs), u) /\
    trace u = trace s ++ (Freed <$> drops).
Proof.
  intros Hr He Hb. unfold tcp_sendto, socket_last_error. rewrite He. cbn [Z.eqb negb].
  destruct (sendto_loop_unrouted m (Z.to_nat (Z.of_nat (length bs) / IPV4_PACKET_MSS) + 1) (set_last_err 0 s) buf bs)
    as (drops & u & Eu & Tu); auto.
  { unfold IPV4_PACKET_MSS. Z.div_mod_to_equations. lia. }
  rewrite Eu. cbn [Z.eqb negb]. by exists drops, u.
Qed.

Lemma tcp_sendto_unconnected_witness :
  exists drops u,
    tcp_sendto example_bytes (set_sk_state SOCKET_UNCONNECTED example_socket) (make_user_buffer 1000) 2 false = (2, u) /\
    trace u = Freed <$> drops.
Proof.
  apply (tcp_sendto_unconnected example_bytes (set_sk_state SOCKET_UNCONNECTED example_socket)
           (make_user_buffer 1000) [7; 8]);
    [by intros [H|H] | reflexivity |].
  split; simpl; [lia | unfold KMEM_KBASE; lia |].
  intros [|[|i]] Hi; [reflexivity | reflexivity | lia].
Defined.

(** * Connecting *)

(** a defect.  When [tcp_connect] finds no route it returns the error with
    the socket already switched to CONNECTING, and every later [tcp_connect]
    on it fails with [EISCONN], to whatever address and whatever the routing
    table has become. *)
Theorem tcp_connect_unroutable_sticks up in_addr wait n id s addr port len rt tbl err :
  16 <= len -> sk_state s = SOCKET_UNCONNECTED ->
  ip_route_get up (table n) addr (route s) = (err, rt, tbl) -> err <> 0 ->
  let '(ret, u, n1) := tcp_connect up in_addr wait n id s AF_INET addr port len in
  ret = err /\ sk_state u = SOCKET_CONNECTING /\
  forall up' in_addr' wait' n' addr' port',
    let '(ret', u', _) := tcp_connect up' in_addr' wait' n' id u AF_INET addr' port' len in
    ret' = - EISCONN /\ sk_state u' = SOCKET_CONNECTING.
Proof.
  intros Hl Hs Hr He.
  assert (E : tcp_connect up in_addr wait n id s AF_INET addr port len =
    (err, set_route rt (set_ip {| lk_proto := lk_proto (ip s); lk_src_addr := lk_src_addr (ip s);
       lk_src_port := lk_src_port (ip s); lk_dest_addr := addr; lk_dest_port := port |}
         (set_sk_state SOCKET_CONNECTING s)), {| table := tbl; af := af n; next_port := next_port n |})).
  { unfold tcp_connect, socket_state_cmpxchg. rewrite Hs. destruct (Z.ltb_spec len 16); [lia|].
    rewrite !bool_decide_eq_true_2 by done. rewrite bool_decide_eq_false_2 by done. cbn -[ip_route_get].
    rewrite Hr. by destruct (Z.eqb_spec err 0). }
  rewrite E. split_and!; [done | done |].
  intros up' in_addr' wait' n' addr' port'. unfold tcp_connect. destruct (Z.ltb_spec len 16); [lia|].
  rewrite Z.eqb_refl. by cbn.
Qed.

Definition example_net : net :=
  {| table := {| zones := []; iface_refs := ∅ |}; af := {| af_sockets := []; sock_refs := ∅ |}; next_port := 50000 |}.

Lemma tcp_connect_unroutable_sticks_witness :
  let s := set_sk_state SOCKET_UNCONNECTED example_socket in
  let '(ret, u, n1) := tcp_connect (fun _ => true) (fun _ => 1) (fun s => (0, s)) example_net 0 s AF_INET 3 4 16 in
  ret = - EACCES /\ sk_state u = SOCKET_CONNECTING /\
  forall up' in_addr' wait' n' addr' port',
    let '(ret', u', _) := tcp_connect up' in_addr' wait' n' 0 u AF_INET addr' port' 16 in
    ret' = - EISCONN /\ sk_state u' = SOCKET_CONNECTING.
Proof.
  apply (tcp_connect_unroutable_sticks (fun _ => true) (fun _ => 1) (fun s => (0, s)) example_net 0
    (set_sk_state SOCKET_UNCONNECTED example_socket) 3 4 16 (route example_socket) (table example_net) (- EACCES)); [lia | reflexivity | reflexivity | done].
Defined.
