(* ===== verification/Pipe.v ===== *)
(** Pipes and fifos (src/fs/pipe.c): a bounded queue of bytes in pages.  A page of
    the pipe is its contents with [startb] and [lenb]; wake-ups of the two wait
    queues are recorded.

    A task that waits runs the loop of [wait_queue_event_intr_mutex]: [os] is what
    happens while it is not running, for each time it yields whether a signal
    is pending before that and what the others do to the pipe meanwhile.  A
    task whose condition does not hold when [os] is used up is [Asleep]. *)
From stdpp Require Import base numbers list gmap.
From Stdlib Require Import ZArith ZifyBool Lia.
From S2P Require Import Prelude UserMem Palloc.
Open Scope Z_scope.

Definition CONFIG_PIPE_MAX_PAGES : Z := 10.
Definition ERESTARTSYS : Z := 512.

Record pipe_page : Type := { content : list Z; startb : Z; lenb : Z }.

Inductive queue : Type := read_queue | write_queue.

Record pipe_info : Type := {
  readers : Z;
  writers : Z;
  total_pages : Z;
  free_pages : list pipe_page;
  bufs : list pipe_page;
  woken : list queue;
}.

Definition set_lists (free full : list pipe_page) (pi : pipe_info) : pipe_info :=
  {| readers := readers pi; writers := writers pi; total_pages := total_pages pi;
     free_pages := free; bufs := full; woken := woken pi |}.

Definition wait_queue_wake (q : queue) (pi : pipe_info) : pipe_info :=
  {| readers := readers pi; writers := writers pi; total_pages := total_pages pi;
     free_pages := free_pages pi; bufs := bufs pi; woken := woken pi ++ [q] |}.

Definition wake_if (b : bool) (q : queue) (pi : pipe_info) : pipe_info :=
  if b then wait_queue_wake q pi else pi.

Definition is_nil {A} (l : list A) : bool := match l with [] => true | _ => false end.

(** * Opening and closing *)

Definition set_counts (r w : Z) (pi : pipe_info) : pipe_info :=
  {| readers := r; writers := w; total_pages := total_pages pi;
     free_pages := free_pages pi; bufs := bufs pi; woken := woken pi |}.

Definition pipe_release (reader writer : bool) (pi : pipe_info) : pipe_info :=
  let pi := if reader then
              let pi := set_counts (readers pi - 1) (writers pi) pi in wake_if (readers pi =? 0) write_queue pi
            else pi in
  if writer then
    let pi := set_counts (readers pi) (writers pi - 1) pi in wake_if (writers pi =? 0) read_queue pi
  else pi.

Definition pipe_read_release : pipe_info -> pipe_info := pipe_release true false.
Definition pipe_write_release : pipe_info -> pipe_info := pipe_release false true.
Definition pipe_rdwr_release : pipe_info -> pipe_info := pipe_release true true.

(** The pages that go back to [pfree]. *)
Definition pipe_release_pages (pi : pipe_info) : list pipe_page * pipe_info :=
  (free_pages pi ++ bufs pi,
   {| readers := readers pi; writers := writers pi; total_pages := 0; free_pages := []; bufs := []; woken := woken pi |}).

(** * Waiting *)

Definition env : Type := list (bool * (pipe_info -> pipe_info)).

(** The return value, the pipe and what is left to happen; [None] when the task
    is still asleep, with the pipe as it is then. *)
Fixpoint wait_event (cond : pipe_info -> bool) (os : env) (pi : pipe_info) : option (Z * pipe_info * env) * pipe_info :=
  if cond pi then (Some (0, pi, os), pi)
  else
    match os with
    | [] => (None, pi)
    | (sig, f) :: os' =>
        if sig then (Some (- ERESTARTSYS, pi, os'), pi) else wait_event cond os' (f pi)
    end.

(** A call that returned, or a task that sleeps. *)
Inductive ran : Type :=
| Returned (ret : Z) (m : gmap Z Z) (pi : pipe_info)
| Asleep (m : gmap Z Z) (pi : pipe_info).

(** * Reading *)

(** The loop over [bufs]: the error, the user's memory, the position in it, the
    bytes still wanted, the lists and whether a page was freed.  On an error
    the page at hand is in neither list.  The loop cannot go on with data left
    in the page, [cpysize] being the smaller of the two amounts. *)
Fixpoint read_bufs (full free : list pipe_page) (m : gmap Z Z) (data : user_buffer) (size : Z) (woke : bool)
  : outcome (Z * gmap Z Z * user_buffer * Z * list pipe_page * list pipe_page * bool) :=
  match full with
  | [] => Done (0, m, data, size, [], free, woke)
  | p :: rest =>
      let cpysize := if size <? lenb p then size else lenb p in
      bytes ← arr_slice (content p) (startb p) cpysize;
      let '(ret, m) := user_memcpy_from_kernel m data bytes in
      if negb (ret =? 0) then Done (ret, m, data, size, rest, free, woke)
      else
        let data := user_buffer_index data cpysize in
        let size := size - cpysize in
        let p := {| content := content p; startb := startb p + cpysize; lenb := lenb p - cpysize |} in
        let '(full, free, woke) :=
          if negb (lenb p =? 0) then (p :: rest, free, woke) else (rest, p :: free, true) in
        if size =? 0 then Done (0, m, data, size, full, free, woke)
        else if negb (lenb p =? 0) then Fault
        else read_bufs rest free m data size woke
  end.

Fixpoint pipe_read_loop (fuel : nat) (os : env) (nonblock : bool) (m : gmap Z Z) (pi : pipe_info)
    (data : user_buffer) (size original_size : Z) (woke : bool) : outcome ran :=
  let finish ret m pi size woke :=
    let pi := wake_if (negb (is_nil (bufs pi)) || (writers pi =? 0)) read_queue pi in
    let pi := wake_if woke write_queue pi in
    Done (Returned (if ret =? 0 then original_size - size else ret) m pi) in
  match fuel with
  | O => Panic
  | S fuel' =>
      '(ret, m, data, size, full, free, woke) ← read_bufs (bufs pi) (free_pages pi) m data size woke;
      let pi := set_lists free full pi in
      if negb (ret =? 0) then Done (Returned ret m pi)
      else if writers pi =? 0 then finish 0 m pi size woke
      else if nonblock then finish (if size =? original_size then - EAGAIN else 0) m pi size woke
      else if size =? original_size then
        let pi := wake_if woke write_queue pi in
        match wait_event (fun pi => negb (is_nil (bufs pi))) os pi with
        | (None, pi) => Done (Asleep m pi)
        | (Some (ret, pi, os), _) =>
            if negb (ret =? 0) then Done (Returned ret m pi)
            else pipe_read_loop fuel' os nonblock m pi data size original_size false
        end
      else finish 0 m pi size woke
  end.

(** After a wait there is data, so that the loop runs twice at most. *)
Definition pipe_read (os : env) (nonblock : bool) (m : gmap Z Z) (pi : pipe_info) (data : user_buffer) (size : Z)
  : outcome ran :=
  if size =? 0 then Done (Returned 0 m pi) else pipe_read_loop 2 os nonblock m pi data size size false.

(** * Writing *)

(** The loop over [free_pages]. *)
Fixpoint write_pages (free full : list pipe_page) (m : gmap Z Z) (data : user_buffer) (size : Z) (woke : bool)
  : outcome (Z * user_buffer * Z * list pipe_page * list pipe_page * bool) :=
  match free with
  | [] => Done (0, data, size, [], full, woke)
  | p :: rest =>
      let cpysize := if size <? PG_SIZE then size else PG_SIZE in
      let '(ret, bytes) := user_memcpy_to_kernel m data cpysize in
      if negb (ret =? 0) then Done (ret, data, size, rest, full, woke)
      else
        c ← arr_blit (content p) 0 bytes;
        let p := {| content := c; startb := 0; lenb := cpysize |} in
        let data := user_buffer_index data cpysize in
        let size := size - cpysize in
        if size =? 0 then Done (0, data, size, rest, full ++ [p], true)
        else write_pages rest (full ++ [p]) m data size true
  end.

Section write.
  (** The page [palloc] returns. *)
  Context (fresh : pipe_page).

Definition add_pages (pi : pipe_info) (size : Z) : pipe_info :=
  let room := CONFIG_PIPE_MAX_PAGES - total_pages pi in
  let max_pages := if room <? size / PG_SIZE + 1 then room else size / PG_SIZE + 1 in
  {| readers := readers pi; writers := writers pi; total_pages := total_pages pi + max_pages;
     free_pages := replicate (Z.to_nat max_pages) fresh ++ free_pages pi; bufs := bufs pi; woken := woken pi |}.

(** The second component says whether [SIGPIPE] was raised. *)
Fixpoint pipe_write_loop (fuel : nat) (os : env) (nonblock : bool) (m : gmap Z Z) (pi : pipe_info)
    (data : user_buffer) (size original_size : Z) (woke : bool) : outcome (ran * bool) :=
  let finish ret pi size woke sigpipe :=
    let pi := wake_if (negb (is_nil (free_pages pi)) || (readers pi =? 0)) write_queue pi in
    let pi := wake_if woke read_queue pi in
    Done (Returned (if ret =? 0 then original_size - size else ret) m pi, sigpipe) in
  match fuel with
  | O => Panic
  | S fuel' =>
      if size =? 0 then finish 0 pi size woke false
      else if readers pi =? 0 then finish (- EPIPE) pi size woke true
      else
        '(ret, data, size, free, full, woke) ← write_pages (free_pages pi) (bufs pi) m data size woke;
        let pi := set_lists free full pi in
        if negb (ret =? 0) then Done (Returned ret m pi, false)
        else if negb (size =? 0) && (total_pages pi <? CONFIG_PIPE_MAX_PAGES) then
          pipe_write_loop fuel' os nonblock m (add_pages pi size) data size original_size woke
        else if nonblock then finish (if size =? original_size then - EAGAIN else 0) pi size woke false
        else if negb (size =? 0) then
          let pi := wake_if woke read_queue pi in
          match wait_event (fun pi => negb (is_nil (free_pages pi))) os pi with
          | (None, pi) => Done (Asleep m pi, false)
          | (Some (ret, pi, os), _) =>
              if negb (ret =? 0) then Done (Returned ret m pi, false)
              else pipe_write_loop fuel' os nonblock m pi data size original_size false
          end
        else pipe_write_loop fuel' os nonblock m pi data size original_size woke
  end.

(** Each wait lets the loop run at most twice more; without one it runs three
    times: on the free pages, on new ones, and to find that nothing is left. *)
Definition pipe_write (os : env) (nonblock : bool) (m : gmap Z Z) (pi : pipe_info) (data : user_buffer) (size : Z)
  : outcome (ran * bool) :=
  if size =? 0 then Done (Returned 0 m pi, false)
  else pipe_write_loop (3 + 2 * length os) os nonblock m pi data size size false.
End write.

(** * Polling and opening fifos *)

Definition POLLIN : Z := 1.
Definition POLLOUT : Z := 4.
Definition POLLHUP : Z := 16.

Definition pipe_poll (readable writable : bool) (events : Z) (pi : pipe_info) : Z :=
  let ret := if readable && negb (Z.land events POLLIN =? 0) then
               if negb (is_nil (bufs pi)) then POLLIN
               else if writers pi =? 0 then Z.lor POLLIN POLLHUP else 0
             else 0 in
  if writable && negb (Z.land events POLLOUT =? 0) then
    if negb (is_nil (free_pages pi)) || (total_pages pi <? CONFIG_PIPE_MAX_PAGES) then Z.lor ret POLLOUT
    else if readers pi =? 0 then Z.lor ret (Z.lor POLLOUT POLLHUP) else ret
  else ret.

(** [fifo_open]: the return value ([None]: asleep) and the pipe. *)
Definition fifo_open (os : env) (readable writable nonblock : bool) (pi : pipe_info) : option Z * pipe_info :=
  if readable && writable then
    let pi := set_counts (readers pi + 1) (writers pi + 1) pi in
    (Some 0, wait_queue_wake write_queue (wait_queue_wake read_queue pi))
  else if readable then
    let first := readers pi =? 0 in
    let pi := wake_if first write_queue (set_counts (readers pi + 1) (writers pi) pi) in
    if nonblock then (Some 0, wait_queue_wake read_queue pi)
    else
      match wait_event (fun pi => negb (writers pi =? 0)) os pi with
      | (None, pi) => (None, pi)
      | (Some (ret, pi, _), _) => (Some ret, wake_if (ret =? 0) read_queue pi)
      end
  else if writable then
    if (readers pi =? 0) && nonblock then (Some (- ENXIO), pi)
    else
      let first := writers pi =? 0 in
      let pi := wake_if first read_queue (set_counts (readers pi) (writers pi + 1) pi) in
      match wait_event (fun pi => negb (readers pi =? 0)) os pi with
      | (None, pi) => (None, pi)
      | (Some (ret, pi, _), _) => (Some ret, wake_if (ret =? 0) write_queue pi)
      end
  else (Some (- EINVAL), pi).

(** * The bytes in a pipe *)

Definition page_ok (p : pipe_page) : Prop := Z.of_nat (length (content p)) = PG_SIZE.

Definition buf_ok (p : pipe_page) : Prop := page_ok p /\ 0 <= startb p /\ 0 < lenb p /\ startb p + lenb p <= PG_SIZE.

Definition page_bytes (p : pipe_page) : list Z := take (Z.to_nat (lenb p)) (drop (Z.to_nat (startb p)) (content p)).

(** The queue of bytes a list of pages stands for. *)
Definition stream_of (full : list pipe_page) : list Z := concat (page_bytes <$> full).

Definition stream (pi : pipe_info) : list Z := stream_of (bufs pi).

Record pipe_inv (pi : pipe_info) : Prop := {
  pi_free : Forall page_ok (free_pages pi);
  pi_bufs : Forall buf_ok (bufs pi);
  pi_total : total_pages pi <= CONFIG_PIPE_MAX_PAGES;
}.

Lemma length_page_bytes p : buf_ok p -> Z.of_nat (length (page_bytes p)) = lenb p.
Proof. intros (Hp & ? & ? & ?). unfold page_bytes, page_ok in *. rewrite length_take, length_drop. lia. Qed.

Lemma stream_of_nil full : Forall buf_ok full -> stream_of full = [] <-> full = [].
Proof.
  intros H. split; [|by intros ->]. destruct full as [|p full]; [done|]. apply Forall_cons in H as [Hp _].
  intros E. pose proof (length_page_bytes p Hp) as Hl. destruct Hp as (_ & _ & Hpos & _).
  unfold stream_of in E. cbn in E. apply app_nil in E as [E _]. rewrite E in Hl. simpl in Hl. lia.
Qed.

(** * Reading *)

(** The start of a page, and what is left of it. *)
Lemma page_bytes_split p k :
  buf_ok p -> 0 <= k <= lenb p ->
  arr_slice (content p) (startb p) k = Done (take (Z.to_nat k) (page_bytes p)) /\
  page_bytes {| content := content p; startb := startb p + k; lenb := lenb p - k |} = drop (Z.to_nat k) (page_bytes p).
Proof.
  intros (Hp & H0 & Hl & Hb) Hk. unfold page_bytes, page_ok in *. cbn [startb lenb content]. split.
  - rewrite arr_slice_done by lia. f_equal. rewrite take_take. f_equal. lia.
  - rewrite skipn_firstn_comm, drop_drop. f_equal; [lia|]. f_equal. lia.
Qed.

Lemma read_bufs_spec full : forall free m data size woke,
  Forall buf_ok full -> Forall page_ok free -> 0 < size ->
  let n := Z.min size (Z.of_nat (length (stream_of full))) in
  (0 < n -> writable m data n) ->
  exists m' data' full' free' woke',
    read_bufs full free m data size woke = Done (0, m', data', size - n, full', free', woke') /\
    Forall buf_ok full' /\ Forall page_ok free' /\ stream_of full' = drop (Z.to_nat n) (stream_of full) /\
    written m m' (ptr data) (take (Z.to_nat n) (stream_of full)).
Proof.
  induction full as [|p full IH]; intros free m data size woke Hf Hfr Hs n Hw.
  { exists m, data, [], free, woke. subst n. simpl. rewrite Z.min_r by lia. split_and!; auto; [|apply written_nil].
    by rewrite Z.sub_0_r. }
  apply Forall_cons in Hf as [Hp Hf]. pose proof (length_page_bytes p Hp) as Hlen.
  assert (Hpos : 0 < lenb p) by apply Hp.
  set (k := if size <? lenb p then size else lenb p).
  assert (Hk : 0 < k <= lenb p /\ k <= size /\ (k = size \/ k = lenb p)) by (subst k; destruct (Z.ltb_spec size (lenb p)); lia).
  assert (Est : stream_of (p :: full) = page_bytes p ++ stream_of full) by done.
  assert (Hn : n = Z.min size (lenb p + Z.of_nat (length (stream_of full)))).
  { subst n. rewrite Est, length_app. lia. }
  destruct (page_bytes_split p k Hp ltac:(lia)) as [Esl Erest].
  set (bs := take (Z.to_nat k) (page_bytes p)) in *.
  assert (Hbs : Z.of_nat (length bs) = k) by (unfold bs; rewrite length_take; lia).
  destruct (user_memcpy_from_kernel_ok m data bs) as (m1 & E1 & Hin & Hout).
  { destruct (Hw ltac:(lia)) as [(? & ? & ?) Hu Hm]. split; rewrite Hbs.
    - split; lia.
    - intros Hx. specialize (Hu Hx). lia.
    - intros a Ha. apply Hm. lia. }
  assert (W1 : written m m1 (ptr data) bs) by done.
  cbn [read_bufs]. fold k. rewrite Esl. obind. rewrite E1. cbn [Z.eqb negb lenb].
  destruct (Z.eqb_spec (lenb p - k) 0) as [El|El]; cbn [negb].
  - assert (Ebs : bs = page_bytes p) by (unfold bs; apply take_ge; lia).
    destruct (Z.eqb_spec (size - k) 0) as [Es|Es].
    + eexists m1, _, full, _, true. split; [by replace (size - k) with (size - n) by lia|].
      split_and!; auto; [constructor; [apply Hp | done] | |].
      * rewrite Est, drop_app_length' by lia. done.
      * rewrite Est, take_app_length' by lia. by rewrite <- Ebs.
    + destruct (IH ({| content := content p; startb := startb p + k; lenb := lenb p - k |} :: free) m1
        (user_buffer_index data k) (size - k) true) as (m' & data' & full' & free' & woke' & E & Hf' & Hfr' & Es' & W'); auto.
      { constructor; [apply Hp | done]. }
      { lia. }
      { intros Hn'. rewrite <- Hbs. apply (writable_written m m1 data bs); auto; [|lia].
        rewrite Hbs. replace (k + Z.min (size - k) (Z.of_nat (length (stream_of full)))) with n by lia.
        apply Hw. lia. }
      exists m', data', full', free', woke'. rewrite E.
      split; [by replace (size - k - Z.min (size - k) (Z.of_nat (length (stream_of full)))) with (size - n) by lia|].
      split_and!; auto.
      * rewrite Es', Est, drop_app_ge by lia. f_equal. lia.
      * rewrite Est, take_app_ge by lia. rewrite <- Ebs. eapply written_app; [exact W1|].
        replace (Z.to_nat n - length bs)%nat
          with (Z.to_nat (Z.min (size - k) (Z.of_nat (length (stream_of full))))) by lia.
        rewrite <- Hbs in W' at 1. apply (written_index _ _ _ _ _ W'). intros Hne.
        destruct (Hw ltac:(lia)) as [(? & ? & ?) _ _]. rewrite length_take in Hne. lia.
  - assert (k = size) by lia. destruct (Z.eqb_spec (size - k) 0); [|lia].
    eexists m1, _, _, free, woke. split; [by replace (size - k) with (size - n) by lia|]. split_and!; auto.
    + constructor; [|done]. destruct Hp as (? & ? & ? & ?). split_and!; simpl; (done || lia).
    + unfold stream_of at 1. cbn [fmap list_fmap concat]. rewrite Erest. fold (stream_of full).
      rewrite Est, skipn_app. f_equal; [f_equal; lia|].
      replace (Z.to_nat n - length (page_bytes p))%nat with 0%nat by lia. done.
    + rewrite Est, take_app_le by lia. replace (Z.to_nat n) with (Z.to_nat k) by lia. done.
Qed.

(** Waking changes nothing but the record of it. *)
Lemma wake_if_fields b q pi :
  readers (wake_if b q pi) = readers pi /\ writers (wake_if b q pi) = writers pi /\
  total_pages (wake_if b q pi) = total_pages pi /\ free_pages (wake_if b q pi) = free_pages pi /\
  bufs (wake_if b q pi) = bufs pi.
Proof. by destruct b. Qed.

Lemma wake_if_inv b q pi : pipe_inv pi -> pipe_inv (wake_if b q pi).
Proof. intros []. destruct b; [|done]. by split. Qed.

Lemma wake_if_stream b q pi : stream (wake_if b q pi) = stream pi.
Proof. by destruct b. Qed.

Lemma wake_if_woken b q pi q' : q' ∈ woken pi -> q' ∈ woken (wake_if b q pi).
Proof. destruct b; [|done]. simpl. rewrite elem_of_app. auto. Qed.

Create HintDb pipe.
#[export] Hint Resolve wake_if_inv wake_if_woken : pipe.

(** What the task holding the two ends of the pipe may rely on. *)
Definition same_ends (pi pi' : pipe_info) : Prop := readers pi' = readers pi /\ writers pi' = writers pi.

Lemma same_ends_wake b q pi pi' : same_ends pi pi' -> same_ends pi (wake_if b q pi').
Proof. by destruct b. Qed.

#[export] Hint Resolve same_ends_wake : pipe.

(** A read that does not have to wait. *)
Definition read_ready (nonblock : bool) (pi : pipe_info) : bool :=
  negb (is_nil (bufs pi)) || (writers pi =? 0) || nonblock.

(** What a read that gets going on the pipe [pi] does: the value it returns, the
    memory and the pipe then. *)
Definition read_result (m : gmap Z Z) (pi : pipe_info) (data : user_buffer) (size : Z) (res : outcome ran) : Prop :=
  let n := Z.min size (Z.of_nat (length (stream pi))) in
  exists m' pi',
    res = Done (Returned (if (n =? 0) && negb (writers pi =? 0) then - EAGAIN else n) m' pi') /\
    pipe_inv pi' /\ same_ends pi pi' /\ stream pi' = drop (Z.to_nat n) (stream pi) /\
    written m m' (ptr data) (take (Z.to_nat n) (stream pi)).

Lemma pipe_read_loop_ready k os nonblock m pi data size :
  pipe_inv pi -> 0 < size -> read_ready nonblock pi = true ->
  (forall n, 0 < n -> n = Z.min size (Z.of_nat (length (stream pi))) -> writable m data n) ->
  read_result m pi data size (pipe_read_loop (S k) os nonblock m pi data size size false).
Proof.
  intros [Hfr Hb Ht] Hs Hr Hw. unfold read_result. set (n := Z.min _ _) in *.
  destruct (read_bufs_spec (bufs pi) (free_pages pi) m data size false Hb Hfr Hs)
    as (m' & data' & full' & free' & woke' & E & Hb' & Hfr' & Es & W); [by intros Hn; apply Hw|].
  fold (stream pi) in E, Es, W. fold n in E, Es, W.
  assert (Hi : pipe_inv (set_lists free' full' pi)) by by split.
  assert (Hend : same_ends pi (set_lists free' full' pi)) by by split.
  assert (Hn : n = 0 <-> bufs pi = []).
  { rewrite <- (stream_of_nil (bufs pi)) by done. fold (stream pi). unfold n.
    destruct (stream pi); simpl; split; (done || lia). }
  cbn [pipe_read_loop]. rewrite E. obind. cbn [writers set_lists].
  unfold read_ready in Hr. replace (size - n =? size) with (n =? 0) by lia.
  assert (Hz : is_nil (bufs pi) = (n =? 0)).
  { destruct (Z.eqb_spec n 0) as [e|ne]; [by rewrite (proj1 Hn e)|].
    destruct (bufs pi); [by destruct ne; apply Hn | done]. }
  rewrite Hz in Hr.
  destruct (Z.eqb_spec (writers pi) 0), (Z.eqb_spec n 0), nonblock; try done; cbn [negb andb orb Z.eqb Z.opp EAGAIN];
    (eexists m', _; split; [do 2 f_equal; (lia || done) | split_and!; auto with pipe; by rewrite !wake_if_stream]).
Qed.

(** The pipe [pi1] on which a read of [pi] gets going: [pi] itself, or what the
    others have made of it when the wait ends. *)
Inductive reads_from (os : env) (nonblock : bool) (pi : pipe_info) : pipe_info -> Prop :=
| reads_at_once : read_ready nonblock pi = true -> reads_from os nonblock pi pi
| reads_after_wait pi1 os1 :
    read_ready nonblock pi = false ->
    wait_event (fun pi => negb (is_nil (bufs pi))) os pi = (Some (0, pi1, os1), pi1) ->
    reads_from os nonblock pi pi1.

Lemma wait_event_holds cond os : forall pi pi1 os1 pi2,
  wait_event cond os pi = (Some (0, pi1, os1), pi2) -> cond pi1 = true.
Proof.
  induction os as [|[sig f] os IH]; intros pi pi1 os1 pi2 E; cbn [wait_event] in E;
    destruct (cond pi) eqn:Ec; try (by simplify_eq).
  destruct sig; [by simplify_eq|]. by eapply IH.
Qed.

(** A read of an empty pipe that has to wait. *)
Lemma pipe_read_waits k os nonblock m pi data size :
  0 < size -> read_ready nonblock pi = false ->
  pipe_read_loop (S k) os nonblock m pi data size size false =
    match wait_event (fun pi => negb (is_nil (bufs pi))) os pi with
    | (None, pi) => Done (Asleep m pi)
    | (Some (ret, pi, os), _) =>
        if negb (ret =? 0) then Done (Returned ret m pi)
        else pipe_read_loop k os nonblock m pi data size size false
    end.
Proof.
  intros Hs Hr. unfold read_ready in Hr. apply orb_false_iff in Hr as [Hr ->]. apply orb_false_iff in Hr as [Hb Hw].
  destruct pi as [r w t fr b wk]. cbn [bufs writers] in *. destruct b; [|done].
  cbn [pipe_read_loop bufs free_pages read_bufs]. obind. cbn [set_lists writers readers total_pages woken].
  by rewrite (Z.eqb_refl 0), Hw, (Z.eqb_refl size).
Qed.

Lemma wait_event_ends cond os : forall pi,
  (exists pi1 os1, wait_event cond os pi = (Some (0, pi1, os1), pi1) /\ cond pi1 = true) \/
  (exists pi1 os1, wait_event cond os pi = (Some (- ERESTARTSYS, pi1, os1), pi1) /\ cond pi1 = false) \/
  (exists pi1, wait_event cond os pi = (None, pi1) /\ cond pi1 = false).
Proof.
  induction os as [|[sig f] os IH]; intros pi; cbn [wait_event]; destruct (cond pi) eqn:Ec; eauto 6.
  destruct sig; [right; left; eauto | apply IH].
Qed.

(** C33: a read takes the first bytes of the pipe, as many as there are and as
    were asked for, stores them in order at the user's buffer, which has to be
    writable memory, and nothing elsewhere, and returns their number; the rest stays
    in the pipe, in order.  On an empty pipe it returns 0 when nobody can write when
    it comes, -EAGAIN when it may not block, and otherwise it waits.  A wait ends
    in one of three ways.  When there is data, the read is from the pipe as it is
    then, and reads at least a byte.  When a signal is pending, the read returns
    -ERESTARTSYS without having taken anything.  Otherwise the task stays asleep,
    the pipe being empty: also when the last writer has closed it meanwhile (see
    [pipe_read_misses_eof]). *)
Theorem pipe_read_fifo (os : env) nonblock m pi data size :
  0 < size ->
  (forall pi1, pipe_inv pi1 -> reads_from os nonblock pi pi1 ->
     (forall n, 0 < n -> n = Z.min size (Z.of_nat (length (stream pi1))) -> writable m data n) ->
     read_result m pi1 data size (pipe_read os nonblock m pi data size) /\ (read_ready nonblock pi = false -> stream pi1 <> [])) /\
  (read_ready nonblock pi = false ->
     (exists pi1, reads_from os nonblock pi pi1) \/
     (exists pi1 os1, wait_event (fun pi => negb (is_nil (bufs pi))) os pi = (Some (- ERESTARTSYS, pi1, os1), pi1) /\
        pipe_read os nonblock m pi data size = Done (Returned (- ERESTARTSYS) m pi1)) \/
     (exists pi1, wait_event (fun pi => negb (is_nil (bufs pi))) os pi = (None, pi1) /\
        pipe_read os nonblock m pi data size = Done (Asleep m pi1) /\ bufs pi1 = [])).
Proof.
  intros Hs. unfold pipe_read. destruct (Z.eqb_spec size 0); [lia|]. split.
  - intros pi1 Hi Hr Hw. destruct Hr as [Hr|pi1 os1 Hr E]; [split; [by apply pipe_read_loop_ready | congruence]|].
    rewrite pipe_read_waits, E by done. apply wait_event_holds in E. split.
    + apply pipe_read_loop_ready; auto. unfold read_ready. by rewrite E.
    + intros _ Hst. apply stream_of_nil in Hst; [by rewrite Hst in E | apply Hi].
  - intros Hr. rewrite pipe_read_waits by done.
    destruct (wait_event_ends (fun pi => negb (is_nil (bufs pi))) os pi) as [(pi1 & os1 & E & _)|[(pi1 & os1 & E & _)|(pi1 & E & Hb)]].
    + left. exists pi1. by eapply reads_after_wait.
    + right. left. exists pi1, os1. by rewrite E.
    + right. right. exists pi1. rewrite E. split; [done|]. split; [done|]. by destruct (bufs pi1).
Qed.

(** A step of the others that leaves the pipe empty and without writers. *)
Definition stays_closed (s : bool * (pipe_info -> pipe_info)) : Prop :=
  s.1 = false /\ forall pi, bufs pi = [] -> writers pi = 0 -> bufs (s.2 pi) = [] /\ writers (s.2 pi) = 0.

Lemma wait_event_closed os : forall pi,
  Forall stays_closed os -> bufs pi = [] -> writers pi = 0 ->
  exists pi', wait_event (fun pi => negb (is_nil (bufs pi))) os pi = (None, pi') /\ bufs pi' = [] /\ writers pi' = 0.
Proof.
  induction os as [|[sig f] os IH]; intros pi Hos Hb Hw; cbn [wait_event]; rewrite Hb; simpl; [by eauto|].
  apply Forall_cons in Hos as [[Hs Hf] Hos]. simpl in Hs, Hf. subst sig. destruct (Hf pi Hb Hw). by apply IH.
Qed.

(** a reader that waits while the last writer closes the pipe is woken but
    never returns: the pipe stays empty and without writers, for however long
    nobody opens it, and the reader stays asleep in it.  The comment at
    [pipe_release] says that such a reader returns zero, and a reader that comes
    later does. *)
Theorem pipe_read_misses_eof (os : env) m pi data size :
  0 < size -> bufs pi = [] -> writers pi = 1 -> Forall stays_closed os ->
  read_queue ∈ woken (pipe_write_release pi) /\
  (exists pi', pipe_read ((false, pipe_write_release) :: os) false m pi data size = Done (Asleep m pi') /\
     bufs pi' = [] /\ writers pi' = 0) /\
  (exists pi', pipe_read os false m (pipe_write_release pi) data size = Done (Returned 0 m pi')).
Proof.
  intros Hs Hb Hw Hos.
  assert (Hc : bufs (pipe_write_release pi) = [] /\ writers (pipe_write_release pi) = 0 /\
               read_queue ∈ woken (pipe_write_release pi)).
  { unfold pipe_write_release, pipe_release. cbn [writers set_counts]. rewrite Hw. simpl.
    rewrite elem_of_app, list_elem_of_singleton. auto. }
  destruct Hc as (Hcb & Hcw & Hq). unfold pipe_read. destruct (Z.eqb_spec size 0); [lia|]. split_and!; [done| |].
  - destruct (wait_event_closed os (pipe_write_release pi) Hos Hcb Hcw) as (pi' & E & ? & ?).
    exists pi'. rewrite pipe_read_waits; [|done|unfold read_ready; by rewrite Hb, Hw].
    cbn [wait_event]. rewrite Hb. cbn [is_nil negb]. by rewrite E.
  - cbn [pipe_read_loop]. rewrite Hcb. cbn [read_bufs]. obind. cbn [writers set_lists]. rewrite Hcw. cbn [Z.eqb negb].
    eexists. do 2 f_equal. lia.
Qed.

(** * Writing *)

Lemma stream_of_snoc full p : stream_of (full ++ [p]) = stream_of full ++ page_bytes p.
Proof. unfold stream_of. rewrite fmap_app, concat_app. simpl. by rewrite app_nil_r. Qed.

Lemma readable_drop m data bs k :
  readable m data bs -> (k <= length bs)%nat ->
  readable m data (take k bs) /\ readable m (user_buffer_index data (Z.of_nat k)) (drop k bs).
Proof.
  intros H Hk. rewrite <- (take_drop k bs) in H. apply readable_app in H. by rewrite length_take, Nat.min_l in H by lia.
Qed.

(** A page filled from its start. *)
Lemma filled_page_ok p bs :
  page_ok p -> bs <> [] -> Z.of_nat (length bs) <= PG_SIZE ->
  let q := {| content := splice (content p) 0 bs; startb := 0; lenb := Z.of_nat (length bs) |} in
  buf_ok q /\ page_bytes q = bs.
Proof.
  intros Hp Hne Hle. unfold page_ok, buf_ok, page_bytes in *. cbn [startb lenb content].
  assert (0 < length bs)%nat by (destruct bs; simpl; (done || lia)).
  split; [split_and!; try lia; unfold page_ok; simpl; rewrite length_splice; lia|].
  unfold splice. rewrite Nat2Z.id, drop_0, take_0. simpl. by rewrite take_app_length.
Qed.

Lemma write_pages_spec free : forall full m data bs woke,
  Forall page_ok free -> Forall buf_ok full -> bs <> [] -> readable m data bs ->
  let n := Nat.min (length bs) (Z.to_nat PG_SIZE * length free) in
  exists data' free' full' woke',
    write_pages free full m data (Z.of_nat (length bs)) woke =
      Done (0, data', Z.of_nat (length (drop n bs)), free', full', woke') /\
    Forall page_ok free' /\ Forall buf_ok full' /\ stream_of full' = stream_of full ++ take n bs /\
    readable m data' (drop n bs) /\ ((n < length bs)%nat -> free' = []) /\ woke' = woke || negb (is_nil (take n bs)).
Proof.
  induction free as [|p free IH]; intros full m data bs woke Hfr Hf Hne Hr n.
  { exists data, [], full, woke. subst n. rewrite Nat.mul_0_r, Nat.min_r by lia. simpl.
    rewrite app_nil_r, orb_false_r. split_and!; auto. }
  apply Forall_cons in Hfr as [Hp Hfr]. assert (HP : 0 < PG_SIZE) by done.
  assert (Hpos : (0 < length bs)%nat) by (destruct bs; simpl; (done || lia)).
  set (k := Nat.min (length bs) (Z.to_nat PG_SIZE)). destruct (readable_drop m data bs k Hr ltac:(lia)) as [Hr1 Hr2].
  assert (Hk : Z.of_nat (length (take k bs)) = Z.of_nat k) by (rewrite length_take; lia).
  assert (Hne1 : take k bs <> []) by (intros E; rewrite E in Hk; simpl in Hk; lia).
  destruct (filled_page_ok p (take k bs) Hp Hne1) as [Hq Eq]; [rewrite Hk; lia|].
  rewrite Hk in Hq, Eq.
  cbn [write_pages].
  replace (if Z.of_nat (length bs) <? PG_SIZE then Z.of_nat (length bs) else PG_SIZE) with (Z.of_nat k)
    by (destruct (Z.ltb_spec (Z.of_nat (length bs)) PG_SIZE); lia).
  assert (Em : user_memcpy_to_kernel m data (Z.of_nat k) = (0, take k bs))
    by (rewrite <- Hk; by apply user_memcpy_to_kernel_read).
  rewrite Em. cbn [Z.eqb negb].
  rewrite arr_blit_done by (unfold page_ok in Hp; lia). obind. change (Z.to_nat 0) with 0%nat.
  replace (Z.of_nat (length bs) - Z.of_nat k) with (Z.of_nat (length (drop k bs))) by (rewrite length_drop; lia).
  assert (Hf1 : Forall buf_ok (full ++ [{| content := splice (content p) 0 (take k bs); startb := 0; lenb := Z.of_nat k |}]))
    by (apply Forall_app; auto).
  destruct (Z.eqb_spec (Z.of_nat (length (drop k bs))) 0) as [E|E]; rewrite length_drop in E.
  - assert (n = length bs) as -> by (subst n; cbn [length]; rewrite Nat.mul_succ_r; lia). assert (k = length bs) as Ek by lia.
    eexists _, free, _, true. rewrite <- Ek at 1. split; [done|].
    rewrite stream_of_snoc, Eq, Ek. split_and!; auto; [by rewrite <- Ek | by rewrite <- Ek | intros; lia |].
    rewrite firstn_all. destruct bs; [done|]. by rewrite orb_true_r.
  - destruct (IH _ m (user_buffer_index data (Z.of_nat k)) (drop k bs) true Hfr Hf1)
      as (data' & free' & full' & woke' & E' & ? & ? & Est & ? & Hfull & Hwoke); auto.
    { intros Hnil. apply (f_equal length) in Hnil. rewrite length_drop in Hnil. simpl in Hnil. lia. }
    assert (Hn : n = (k + Nat.min (length (drop k bs)) (Z.to_nat PG_SIZE * length free))%nat)
      by (subst n; rewrite length_drop; cbn [length]; rewrite Nat.mul_succ_r; lia).
    rewrite drop_drop in *. rewrite <- Hn in *. exists data', free', full', woke'. split_and!; auto.
    + rewrite Est, stream_of_snoc, Eq, <- app_assoc, Hn. f_equal. apply take_take_drop.
    + intros Hlt. apply Hfull. rewrite length_drop in *. lia.
    + subst woke'. destruct bs; [done|]. destruct n; [lia|]. by rewrite orb_true_r.
Qed.

Lemma nil_dec {A} (l : list A) : is_nil l = true <-> l = [].
Proof. by destruct l. Qed.

(** What a write of [len] bytes that got [done] of them into the pipe reports. *)
Definition write_reports (nonblock : bool) (m : gmap Z Z) (len written : Z) (pi' : pipe_info) : ran :=
  if written =? len then Returned len m pi'
  else if nonblock then Returned (if written =? 0 then - EAGAIN else written) m pi'
  else Asleep m pi'.

(** The loop from a state where it adds no pages: the first [d] bytes are
    already in the pipe. *)
Lemma pipe_write_loop_last fresh k os nonblock m pi data bs d woke :
  pipe_inv pi -> readers pi <> 0 -> bs <> [] -> readable m data bs ->
  let room := (Z.to_nat PG_SIZE * length (free_pages pi))%nat in
  (length bs <= room)%nat \/ total_pages pi = CONFIG_PIPE_MAX_PAGES ->
  (nonblock = false -> (room < length bs)%nat -> os = []) ->
  0 <= d -> (0 < d -> woke = true) ->
  let n := Nat.min (length bs) room in
  exists pi',
    pipe_write_loop fresh (S (S k)) os nonblock m pi data (Z.of_nat (length bs)) (d + Z.of_nat (length bs)) woke =
      Done (write_reports nonblock m (d + Z.of_nat (length bs)) (d + Z.of_nat n) pi', false) /\
    pipe_inv pi' /\ same_ends pi pi' /\ stream pi' = stream pi ++ take n bs /\
    (0 < d + Z.of_nat n -> read_queue ∈ woken pi').
Proof.
  intros [Hfr Hb Ht] Hrd Hne Hr room Hroom Hos Hd Hdw n.
  assert (Hpos : (0 < length bs)%nat) by (destruct bs; simpl; (done || lia)).
  destruct (write_pages_spec (free_pages pi) (bufs pi) m data bs woke Hfr Hb Hne Hr)
    as (data' & free' & full' & woke' & E & Hfr' & Hb' & Es & Hr' & Hfull & Hwoke).
  fold room in E, Es, Hr', Hfull, Hwoke. fold n in E, Es, Hr', Hfull, Hwoke.
  assert (Hw' : 0 < d + Z.of_nat n -> woke' = true).
  { intros Hn. rewrite Hwoke. destruct (Z.eq_dec d 0) as [->|]; [|by rewrite Hdw by lia].
    destruct bs; [done|]. destruct n; [lia|]. by rewrite orb_true_r. }
  set (pi2 := set_lists free' full' pi).
  assert (Hi2 : pipe_inv pi2) by by split.
  assert (He2 : same_ends pi pi2) by by split.
  assert (Hs2 : stream pi2 = stream pi ++ take n bs) by done.
  assert (Hq : forall b q pi, (0 < d + Z.of_nat n) -> read_queue ∈ woken (wake_if woke' read_queue (wake_if b q pi))).
  { intros b q pi0 Hn. rewrite Hw' by done. simpl. rewrite elem_of_app, list_elem_of_singleton. auto. }
  cbn [pipe_write_loop]. destruct (Z.eqb_spec (Z.of_nat (length bs)) 0); [lia|].
  destruct (Z.eqb_spec (readers pi) 0); [done|]. rewrite E. obind. rewrite (Z.eqb_refl 0). cbn [negb].
  fold pi2. rewrite length_drop. unfold write_reports.
  assert (Hnl : (length bs - n = 0)%nat <-> n = length bs) by lia.
  destruct (Z.eqb_spec (Z.of_nat (length bs - n)) 0) as [E0|E0]; cbn [negb andb].
  - assert (Hnn : n = length bs) by lia. rewrite Hnn, Z.eqb_refl, E0 in *.
    destruct nonblock; [destruct (Z.eqb_spec 0 (d + Z.of_nat (length bs))); [lia|]|];
      (eexists; split; [cbn [Z.eqb]; do 3 f_equal; lia | split_and!; auto with pipe; by rewrite !wake_if_stream]).
  - assert (Hlt : (n < length bs)%nat) by lia. destruct Hroom as [Hroom|Hroom]; [lia|].
    cbn [total_pages pi2 set_lists]. rewrite Hroom, Z.ltb_irrefl.
    destruct (Z.eqb_spec (d + Z.of_nat n) (d + Z.of_nat (length bs))); [lia|].
    destruct nonblock.
    + exists (wake_if woke' read_queue (wake_if (negb (is_nil (free_pages pi2)) || (readers pi2 =? 0)) write_queue pi2)).
      split; [|split_and!; auto with pipe; by rewrite !wake_if_stream].
      replace (Z.of_nat (length bs - n) =? d + Z.of_nat (length bs)) with (d + Z.of_nat n =? 0) by lia.
      destruct (Z.eqb_spec (d + Z.of_nat n) 0); cbn [Z.eqb Z.opp EAGAIN]; do 3 f_equal; lia.
    + rewrite (Hos eq_refl) by lia. cbn [wait_event]. cbn [pi2 set_lists].
      assert (Hff : free_pages (wake_if woke' read_queue pi2) = []).
      { destruct (wake_if_fields woke' read_queue pi2) as (_ & _ & _ & -> & _). by apply Hfull. }
      fold pi2. rewrite Hff. cbn [is_nil negb].
      eexists. split; [done|]. split_and!; auto with pipe; [by rewrite wake_if_stream|].
      intros Hn. apply (Hq false read_queue pi2 Hn).
Qed.

(** The bytes a pipe has room for: its free pages and those it may still add. *)
Definition room (pi : pipe_info) : Z :=
  PG_SIZE * (Z.of_nat (length (free_pages pi)) + (CONFIG_PIPE_MAX_PAGES - total_pages pi)).

Lemma add_pages_inv fresh pi size :
  pipe_inv pi -> page_ok fresh -> 0 < size -> pipe_inv (add_pages fresh pi size).
Proof.
  intros [Hf Hb Ht] Hp Hs. unfold add_pages. split; cbn [free_pages bufs total_pages]; [| done |].
  - apply Forall_app. split; [by apply Forall_replicate | done].
  - destruct (Z.ltb_spec (CONFIG_PIPE_MAX_PAGES - total_pages pi) (size / PG_SIZE + 1)); lia.
Qed.

(** After pages were added either the bytes fit or the pipe has all its pages. *)
Lemma add_pages_room fresh pi len :
  free_pages pi = [] -> total_pages pi < CONFIG_PIPE_MAX_PAGES -> (0 < len)%nat ->
  let pi' := add_pages fresh pi (Z.of_nat len) in
  ((len <= Z.to_nat PG_SIZE * length (free_pages pi'))%nat \/ total_pages pi' = CONFIG_PIPE_MAX_PAGES) /\
  Nat.min len (Z.to_nat PG_SIZE * length (free_pages pi')) = Nat.min len (Z.to_nat (room pi)).
Proof.
  intros Hf Ht Hl. assert (HP : 0 < PG_SIZE) by done. unfold add_pages, room. cbn [free_pages total_pages].
  rewrite Hf, app_nil_r, length_replicate. simpl (length []).
  pose proof (Z.div_mod (Z.of_nat len) PG_SIZE ltac:(lia)). pose proof (Z.mod_pos_bound (Z.of_nat len) PG_SIZE HP).
  assert (0 <= Z.of_nat len / PG_SIZE) by (apply Z.div_pos; lia).
  set (q := Z.of_nat len / PG_SIZE) in *. set (r := CONFIG_PIPE_MAX_PAGES - total_pages pi).
  destruct (Z.ltb_spec r (q + 1)) as [Hlt|Hge].
  - split; [right; lia|]. f_equal. rewrite <- Z2Nat.inj_mul by lia. f_equal.
  - rewrite <- Z2Nat.inj_mul by lia. assert (Z.of_nat len <= PG_SIZE * (q + 1)) by lia.
    assert (PG_SIZE * (q + 1) <= PG_SIZE * (0 + r)) by (apply Z.mul_le_mono_nonneg_l; lia). lia.
Qed.

Lemma pipe_write_loop_spec fresh k os nonblock m pi data bs :
  pipe_inv pi -> page_ok fresh -> readers pi <> 0 -> bs <> [] -> readable m data bs ->
  let n := Nat.min (length bs) (Z.to_nat (room pi)) in
  (nonblock = false -> (n < length bs)%nat -> os = []) ->
  exists pi',
    pipe_write_loop fresh (S (S (S k))) os nonblock m pi data (Z.of_nat (length bs)) (Z.of_nat (length bs)) false =
      Done (write_reports nonblock m (Z.of_nat (length bs)) (Z.of_nat n) pi', false) /\
    pipe_inv pi' /\ same_ends pi pi' /\ stream pi' = stream pi ++ take n bs /\
    (0 < Z.of_nat n -> read_queue ∈ woken pi').
Proof.
  intros Hi Hfresh Hrd Hne Hr n Hos. assert (HP : 0 < PG_SIZE) by done.
  assert (Hpos : (0 < length bs)%nat) by (destruct bs; simpl; (done || lia)).
  set (f := (Z.to_nat PG_SIZE * length (free_pages pi))%nat).
  assert (Hroom : Z.to_nat (room pi) = (f + Z.to_nat (PG_SIZE * (CONFIG_PIPE_MAX_PAGES - total_pages pi)))%nat).
  { destruct Hi. unfold room, f. nia. }
  destruct (decide ((length bs <= f)%nat \/ total_pages pi = CONFIG_PIPE_MAX_PAGES)) as [Hlast|Hmore].
  { assert (Hn : n = Nat.min (length bs) f).
    { destruct Hlast as [|Hlast]; [lia|]. rewrite Hlast, Z.sub_diag, Z.mul_0_r in Hroom. lia. }
    destruct (pipe_write_loop_last fresh (S k) os nonblock m pi data bs 0 false) as (pi' & E & Hrest); auto; try lia.
    { intros. apply Hos; [done|]. unfold f in Hn. lia. }
    fold f in E, Hrest. rewrite <- Hn in E, Hrest. exists pi'. exact (conj E Hrest). }
  assert (Hlt : (f < length bs)%nat /\ total_pages pi < CONFIG_PIPE_MAX_PAGES) by (destruct Hi; lia).
  destruct Hi as [Hfr Hb Ht].
  destruct (write_pages_spec (free_pages pi) (bufs pi) m data bs false Hfr Hb Hne Hr)
    as (data' & free' & full' & woke' & E & Hfr' & Hb' & Es & Hr' & Hfull & Hwoke).
  fold f in E, Es, Hr', Hfull, Hwoke. rewrite Nat.min_r in * by lia.
  pose proof (Hfull ltac:(lia)) as ->. set (pi2 := set_lists [] full' pi).
  remember (S (S k)) as k2 eqn:Ek. cbn [pipe_write_loop].
  destruct (Z.eqb_spec (Z.of_nat (length bs)) 0); [lia|]. destruct (Z.eqb_spec (readers pi) 0); [done|].
  rewrite E. obind. rewrite (Z.eqb_refl 0). cbn [negb]. fold pi2.
  assert (Hd : (0 < length (drop f bs))%nat) by (rewrite length_drop; lia).
  destruct (Z.eqb_spec (Z.of_nat (length (drop f bs))) 0); [lia|]. cbn [negb andb].
  change (total_pages pi2) with (total_pages pi). destruct (Z.ltb_spec (total_pages pi) CONFIG_PIPE_MAX_PAGES); [|lia].
  destruct (add_pages_room fresh pi2 (length (drop f bs)) eq_refl) as [Hlast Hmin]; [done..|].
  assert (Hroom2 : Z.to_nat (room pi2) = (Z.to_nat (room pi) - f)%nat) by (rewrite Hroom; unfold room; simpl; lia).
  assert (Hn : n = (f + Nat.min (length (drop f bs)) (Z.to_nat (room pi2)))%nat) by (rewrite length_drop; lia).
  destruct (pipe_write_loop_last fresh k os nonblock m (add_pages fresh pi2 (Z.of_nat (length (drop f bs)))) data'
    (drop f bs) (Z.of_nat f) woke') as (pi' & E' & Hi' & He' & Hs' & Hq'); auto.
  { apply add_pages_inv; auto; [by split | lia]. }
  { intros Hx. rewrite Hx in Hd. simpl in Hd. lia. }
  { intros. apply Hos; [done|]. rewrite length_drop in *. lia. }
  { lia. }
  { intros. rewrite Hwoke. destruct bs; [done|]. destruct f; [lia|]. done. }
  rewrite Hmin in *. exists pi'. subst k2.
  replace (Z.of_nat f + Z.of_nat (length (drop f bs))) with (Z.of_nat (length bs)) in E' by (rewrite length_drop; lia).
  rewrite <- Nat2Z.inj_add, <- Hn in *. split_and!; auto.
  rewrite Hs', Hn, <- take_take_drop, app_assoc. f_equal. done.
Qed.

(** C32: a write puts as many of the bytes as the pipe has room for behind those
    in it, in order, in its free pages and in the pages it may still add; it
    wakes the readers if it puts in any.  It returns their number when all fit
    or when it may not block, -EAGAIN then if there is no room at all, and
    otherwise sleeps until there are free pages.  With no reader left it raises
    SIGPIPE, returns -EPIPE and leaves the bytes in the pipe alone. *)
Theorem pipe_write_fifo fresh (os : env) nonblock m pi data bs :
  pipe_inv pi -> page_ok fresh -> bs <> [] -> readable m data bs ->
  let n := Nat.min (length bs) (Z.to_nat (room pi)) in
  (nonblock = false -> (n < length bs)%nat -> os = []) ->
  exists pi',
    pipe_inv pi' /\ same_ends pi pi' /\
    if readers pi =? 0 then
      pipe_write fresh os nonblock m pi data (Z.of_nat (length bs)) = Done (Returned (- EPIPE) m pi', true) /\
      stream pi' = stream pi
    else
      pipe_write fresh os nonblock m pi data (Z.of_nat (length bs)) =
        Done (write_reports nonblock m (Z.of_nat (length bs)) (Z.of_nat n) pi', false) /\
      stream pi' = stream pi ++ take n bs /\
      (0 < Z.of_nat n -> read_queue ∈ woken pi').
Proof.
  intros Hi Hf Hne Hr n Hos. unfold pipe_write.
  assert (Hpos : (0 < length bs)%nat) by (destruct bs; simpl; (done || lia)).
  destruct (Z.eqb_spec (Z.of_nat (length bs)) 0) as [|Hz]; [lia|].
  destruct (Z.eqb_spec (readers pi) 0) as [Hrd|Hrd].
  - cbn [pipe_write_loop Nat.add]. rewrite Hrd. destruct (Z.eqb_spec (Z.of_nat (length bs)) 0); [done|].
    cbn [Z.eqb]. rewrite orb_true_r. exists (wake_if false read_queue (wake_if true write_queue pi)).
    split_and!; auto with pipe. by apply same_ends_wake, same_ends_wake.
  - destruct (pipe_write_loop_spec fresh (2 * length os) os nonblock m pi data bs Hi Hf Hrd Hne Hr Hos)
      as (pi' & E & ? & ? & ? & ?).
    exists pi'. split_and!; done.
Qed.

(** * Examples *)

Definition blank_page : pipe_page := {| content := replicate (Z.to_nat PG_SIZE) 0; startb := 0; lenb := 0 |}.

Definition example_pipe : pipe_info :=
  {| readers := 1; writers := 1; total_pages := 1; free_pages := [];
     bufs := [{| content := replicate (Z.to_nat PG_SIZE) 7; startb := 4; lenb := 3 |}]; woken := [] |}.

Definition example_memory : gmap Z Z := <[4096 := 1]> (<[4097 := 2]> (<[4098 := 3]> ∅)).

Definition example_buffer : user_buffer := make_user_buffer 4096.

Lemma example_pipe_inv : pipe_inv example_pipe.
Proof. split; [constructor | | done]. constructor; [|constructor]. by split_and!; vm_compute. Qed.

Lemma pipe_read_fifo_witness :
  read_result example_memory example_pipe example_buffer 2
    (pipe_read [] false example_memory example_pipe example_buffer 2).
Proof.
  refine (proj1 (proj1 (pipe_read_fifo [] false example_memory example_pipe example_buffer 2 ltac:(lia)) example_pipe _ _ _));
    [apply example_pipe_inv | by apply reads_at_once |].
  intros n _ ->. change (Z.min 2 _) with 2. split; [unfold range_ok; simpl; lia | intros _; vm_compute; done |].
  intros a Ha. simpl in Ha. assert (a = 4096 \/ a = 4097) as [-> | ->] by lia; by eexists.
Defined.

Lemma pipe_read_misses_eof_witness :
  exists pi', pipe_read [(false, pipe_write_release)] false ∅ 
    {| readers := 1; writers := 1; total_pages := 0; free_pages := []; bufs := []; woken := [] |}
    example_buffer 1 = Done (Asleep ∅ pi').
Proof.
  destruct (pipe_read_misses_eof [] ∅
    {| readers := 1; writers := 1; total_pages := 0; free_pages := []; bufs := []; woken := [] |} example_buffer 1)
    as (_ & (pi' & E & _) & _); [lia | done | done | constructor |].
  by exists pi'.
Defined.

Lemma pipe_write_fifo_witness :
  exists pi', pipe_write blank_page [] false example_memory example_pipe example_buffer 3 =
    Done (Returned 3 example_memory pi', false) /\ stream pi' = stream example_pipe ++ [1; 2; 3].
Proof.
  destruct (pipe_write_fifo blank_page [] false example_memory example_pipe example_buffer [1; 2; 3])
    as (pi' & _ & _ & E & Es & _); [apply example_pipe_inv | by vm_compute | done | | done |].
  - split; [simpl; lia | intros _; vm_compute; done |].
    intros i Hi. simpl in Hi. destruct i as [|[|[|i]]]; [done.. | lia].
  - exists pi'. by split.
Defined.
