(* ===== verification/Users.v ===== *)
(** Credentials (include/protura/users.h, src/kernel/sys_user.c) and the
    permission check on inodes (src/fs/access.c).  Ids are [int]s; the lock of the
    credentials makes each call one step. *)
From stdpp Require Import base numbers list gmap.
From Stdlib Require Import ZArith ZifyBool Lia.
From S2P Require Import Prelude UserMem.
Open Scope Z_scope.

Definition UID_INVALID : Z := -1.
Definition GID_INVALID : Z := -1.
Definition NGROUPS : Z := 32.

Record credentials : Type := {
  uid : Z; euid : Z; suid : Z;
  gid : Z; egid : Z; sgid : Z;
  sup_groups : list Z;
}.

Definition credentials_init : credentials :=
  {| uid := 0; euid := 0; suid := 0; gid := 0; egid := 0; sgid := 0;
     sup_groups := replicate (Z.to_nat NGROUPS) GID_INVALID |}.

Definition set_uids (r e s : Z) (c : credentials) : credentials :=
  {| uid := r; euid := e; suid := s; gid := gid c; egid := egid c; sgid := sgid c; sup_groups := sup_groups c |}.

Definition set_gids (r e s : Z) (c : credentials) : credentials :=
  {| uid := uid c; euid := euid c; suid := suid c; gid := r; egid := e; sgid := s; sup_groups := sup_groups c |}.

Definition set_sup_groups (gs : list Z) (c : credentials) : credentials :=
  {| uid := uid c; euid := euid c; suid := suid c; gid := gid c; egid := egid c; sgid := sgid c; sup_groups := gs |}.

(** [__credentials_belong_to_gid]: all [NGROUPS] entries are compared. *)
Definition credentials_belong_to_gid (c : credentials) (g : Z) : bool :=
  (egid c =? g) || existsb (fun x => x =? g) (sup_groups c).

(** * User ids *)

Definition sys_setuid (u : Z) (c : credentials) : Z * credentials :=
  if euid c =? 0 then (0, set_uids u u u c)
  else if (uid c =? u) || (suid c =? u) then (0, set_uids (uid c) u (suid c) c)
  else (- EPERM, c).

Definition sys_setreuid (ruid eu : Z) (c : credentials) : Z * credentials :=
  let old_ruid := uid c in
  let new_ruid := uid c in
  let new_euid := euid c in
  if negb (ruid =? UID_INVALID) && (negb (euid c =? 0) && negb (uid c =? ruid) && negb (euid c =? ruid)) then (- EPERM, c)
  else
    let new_ruid := if negb (ruid =? UID_INVALID) then ruid else new_ruid in
    if negb (eu =? UID_INVALID) &&
       (negb (euid c =? 0) && negb (uid c =? eu) && negb (euid c =? eu) && negb (suid c =? eu)) then (- EPERM, c)
    else
      let new_ruid := if negb (eu =? UID_INVALID) then ruid else new_ruid in
      let c := set_uids new_ruid new_euid (suid c) c in
      let c := if negb (uid c =? UID_INVALID) || (negb (euid c =? UID_INVALID) && negb (euid c =? old_ruid))
               then set_uids (uid c) (euid c) (euid c) c else c in
      (0, c).

(** An id a [setres] call may not set: not [UID_INVALID] and none of the three. *)
Definition res_denied (r e s x : Z) : bool :=
  negb (x =? UID_INVALID) && negb (r =? x) && negb (e =? x) && negb (s =? x).

Definition sys_setresuid (ruid eu su : Z) (c : credentials) : Z * credentials :=
  let denied := res_denied (uid c) (euid c) (suid c) in
  if negb (euid c =? 0) && (denied ruid || denied eu || denied su) then (- EPERM, c)
  else
    (0, set_uids (if negb (ruid =? UID_INVALID) then ruid else uid c)
                 (if negb (eu =? UID_INVALID) then eu else euid c)
                 (if negb (su =? UID_INVALID) then su else suid c) c).

Definition sys_getuid (c : credentials) : Z := uid c.
Definition sys_geteuid (c : credentials) : Z := euid c.

(** * Group ids *)

Definition sys_setgid (g : Z) (c : credentials) : Z * credentials :=
  if euid c =? 0 then (0, set_gids g g g c)
  else if (gid c =? g) || (sgid c =? g) then (0, set_gids (gid c) g (sgid c) c)
  else (- EPERM, c).

Definition sys_setregid (rgid eg : Z) (c : credentials) : Z * credentials :=
  let old_rgid := gid c in
  let new_rgid := gid c in
  let new_egid := egid c in
  if negb (rgid =? GID_INVALID) && (negb (egid c =? 0) && negb (gid c =? rgid) && negb (egid c =? rgid)) then (- EPERM, c)
  else
    let new_rgid := if negb (rgid =? GID_INVALID) then rgid else new_rgid in
    if negb (eg =? GID_INVALID) &&
       (negb (egid c =? 0) && negb (gid c =? eg) && negb (egid c =? eg) && negb (sgid c =? eg)) then (- EPERM, c)
    else
      let new_rgid := if negb (eg =? GID_INVALID) then rgid else new_rgid in
      let c := set_gids new_rgid new_egid (sgid c) c in
      let c := if negb (gid c =? GID_INVALID) || (negb (egid c =? GID_INVALID) && negb (egid c =? old_rgid))
               then set_gids (gid c) (egid c) (egid c) c else c in
      (0, c).

Definition sys_setresgid (rgid eg sg : Z) (c : credentials) : Z * credentials :=
  let denied := res_denied (gid c) (egid c) (sgid c) in
  if negb (egid c =? 0) && (denied rgid || denied eg || denied sg) then (- EPERM, c)
  else
    (0, set_gids (if negb (rgid =? GID_INVALID) then rgid else gid c)
                 (if negb (eg =? GID_INVALID) then eg else egid c)
                 (if negb (sg =? GID_INVALID) then sg else sgid c) c).

Definition sys_getgid (c : credentials) : Z := gid c.
Definition sys_getegid (c : credentials) : Z := egid c.

(** * Supplementary groups *)

(** The loop of [sys_setgroups]: [groups] is the array on the kernel stack. *)
Fixpoint read_groups (m : gmap Z Z) (lst : user_buffer) (groups : list Z) (i : Z) (n : nat) : Z * list Z :=
  match n with
  | O => (0, groups)
  | S n' =>
      let '(ret, tmp) := user_copy_to_kernel_indexed m lst i in
      if negb (ret =? 0) then (ret, groups)
      else read_groups m lst (<[Z.to_nat i := i32 tmp]> groups) (i + 1) n'
  end.

(** [stack] is what [new_sup_groups] holds before the call writes to it. *)
Definition sys_setgroups (stack : list Z) (m : gmap Z Z) (size : Z) (lst : user_buffer) (c : credentials)
  : Z * credentials :=
  if NGROUPS <? size then (- EPERM, c)
  else
    let '(ret, groups) := read_groups m lst stack 0 (Z.to_nat size) in
    if negb (ret =? 0) then (ret, c)
    else
      let groups := if size <? NGROUPS then <[Z.to_nat size := GID_INVALID]> groups else groups in
      if negb (euid c =? 0) then (- EPERM, c) else (0, set_sup_groups groups c).

(** The loop of [sys_getgroups] from index [i] on. *)
Fixpoint write_groups (m : gmap Z Z) (lst : user_buffer) (size : Z) (groups : list Z) (i : Z) : Z * gmap Z Z :=
  match groups with
  | [] => (i, m)
  | g :: groups' =>
      if g =? GID_INVALID then (i, m)
      else if (size =? 0) || (size <? i) then write_groups m lst size groups' (i + 1)
      else
        let '(ret, m) := user_copy_from_kernel_indexed m lst g i in
        if negb (ret =? 0) then (ret, m) else write_groups m lst size groups' (i + 1)
  end.

Definition sys_getgroups (m : gmap Z Z) (size : Z) (lst : user_buffer) (c : credentials) : Z * gmap Z Z :=
  write_groups m lst size (sup_groups c) 0.

(** * Permissions *)

Definition S_IFMT : Z := 0xF000.
Definition S_IFREG : Z := 0x8000.
Definition X_OK : Z := 1.
Definition S_IX_ANY : Z := 0x49.

Record inode_access : Type := { i_mode : Z; i_uid : Z; i_gid : Z }.

Definition check_permission (c : credentials) (inode : inode_access) (access : Z) : Z :=
  if access =? 0 then 0
  else
    let mode := Z.land (i_mode inode) 0x1FF in
    if euid c =? 0 then
      if negb (Z.land mode S_IFMT =? S_IFREG) then 0
      else if Z.land mode X_OK =? 0 then 0
      else if negb (Z.land mode S_IX_ANY =? 0) then 0
      else - EACCES
    else
      let mode :=
        if euid c =? i_uid inode then Z.shiftr mode 6
        else if credentials_belong_to_gid c (i_gid inode) then Z.shiftr mode 3
        else mode in
      if Z.land mode access =? access then 0 else - EACCES.

(** * No call gains a privilege *)

Inductive cred_call : Type :=
| Setuid (u : Z)
| Setreuid (r e : Z)
| Setresuid (r e s : Z)
| Setgid (g : Z)
| Setregid (r e : Z)
| Setresgid (r e s : Z)
| Setgroups (stack : list Z) (m : gmap Z Z) (size : Z) (lst : user_buffer).

Definition cred_step (call : cred_call) (c : credentials) : Z * credentials :=
  match call with
  | Setuid u => sys_setuid u c
  | Setreuid r e => sys_setreuid r e c
  | Setresuid r e s => sys_setresuid r e s c
  | Setgid g => sys_setgid g c
  | Setregid r e => sys_setregid r e c
  | Setresgid r e s => sys_setresgid r e s c
  | Setgroups stack m size lst => sys_setgroups stack m size lst c
  end.

(** The credentials after a sequence of calls of the same task. *)
Definition cred_run (calls : list cred_call) (c : credentials) : credentials :=
  foldl (fun c call => (cred_step call c).2) c calls.

Definition uids (c : credentials) : list Z := [uid c; euid c; suid c].
Definition gids (c : credentials) : list Z := [gid c; egid c; sgid c].

(** The ids [c'] has come from [c], or are the invalid one. *)
Definition from_ids (l l' : list Z) : Prop := forall x, x ∈ l' -> x ∈ l \/ x = -1.

Lemma from_ids_trans l1 l2 l3 : from_ids l1 l2 -> from_ids l2 l3 -> from_ids l1 l3.
Proof. intros H1 H2 x Hx. destruct (H2 x Hx) as [|]; auto. Qed.

Lemma from_ids_nonzero l l' : from_ids l l' -> 0 ∉ l -> 0 ∉ l'.
Proof. intros H H0 Hx. destruct (H 0 Hx); [done | lia]. Qed.

(** Splits the tests of a call, those of the arguments first. *)
Ltac cred_simpl :=
  cbv zeta; cbn [negb andb orb snd set_uids set_gids uid euid suid gid egid sgid sup_groups uids gids].

Ltac cred_split :=
  cbv beta zeta; unfold res_denied in *; unfold UID_INVALID, GID_INVALID in *;
  repeat match goal with
  | |- context [?x =? -1] => is_var x; let E := fresh "E" in destruct (x =? -1) eqn:E; cred_simpl
  end;
  cred_simpl;
  repeat match goal with
  | |- context [if ?b then _ else _] => let E := fresh "E" in destruct b eqn:E; cred_simpl
  end.

(** Every id of the new credentials is one of the old ones. *)
Ltac cred_cases :=
  cred_split; intros ?x ?Hx; [> first [by left
  | unfold uids, gids in *; cbn [set_uids set_gids uid euid suid gid egid sgid] in *; rewrite ?elem_of_cons in *;
    repeat match goal with
    | H : _ \/ _ |- _ => destruct H as [->|H]
    | H : _ ∈ [] |- _ => by apply elem_of_nil in H
    end;
    rewrite ?orb_false_iff, ?andb_false_iff, ?negb_false_iff, ?orb_true_iff, ?Z.eqb_eq, ?Z.eqb_neq in *; intuition congruence] ..].

Lemma setuids_from call c :
  match call with Setuid _ | Setreuid _ _ | Setresuid _ _ _ => True | _ => False end ->
  euid c <> 0 ->
  from_ids (uids c) (uids (cred_step call c).2) /\ gids (cred_step call c).2 = gids c /\
  sup_groups (cred_step call c).2 = sup_groups c.
Proof.
  intros Hc He. assert ((euid c =? 0) = false) as Ez by lia.
  destruct call; try done; cbn [cred_step]; unfold sys_setuid, sys_setreuid, sys_setresuid, from_ids, UID_INVALID;
    rewrite Ez; (split; [cred_cases|]); cred_split; split; reflexivity.
Qed.

Lemma setgids_from call c :
  match call with Setgid _ | Setregid _ _ | Setresgid _ _ _ => True | _ => False end ->
  euid c <> 0 ->
  (egid c <> 0 -> from_ids (gids c) (gids (cred_step call c).2)) /\ uids (cred_step call c).2 = uids c /\
  sup_groups (cred_step call c).2 = sup_groups c.
Proof.
  intros Hc He. assert ((euid c =? 0) = false) as Ez by lia.
  destruct call; try done; cbn [cred_step]; unfold sys_setgid, sys_setregid, sys_setresgid, from_ids;
    rewrite ?Ez; (split; [intros Hg; assert ((egid c =? 0) = false) as Eg by lia; rewrite ?Eg; cred_cases|]);
    cred_split; split; reflexivity.
Qed.

Lemma setgroups_denied stack m size lst c : euid c <> 0 -> (sys_setgroups stack m size lst c).2 = c.
Proof.
  intros He. unfold sys_setgroups. destruct (NGROUPS <? size); [done|]. destruct (read_groups _ _ _ _ _) as [ret gs].
  destruct (negb (ret =? 0)); [done|]. by assert ((euid c =? 0) = false) as -> by lia.
Qed.

(** C34: a task none of whose user ids is root's gets, by no sequence of the calls
    that set its ids, a user id it did not have, and its supplementary groups
    stay as they are; if none of its group ids is 0 either, it gets no group id
    it did not have.  (The invalid id -1 may appear, through [sys_setreuid] and
    [sys_setregid].) *)
Theorem cred_run_no_escalation calls c :
  0 ∉ uids c ->
  from_ids (uids c) (uids (cred_run calls c)) /\ sup_groups (cred_run calls c) = sup_groups c /\
  (0 ∉ gids c -> from_ids (gids c) (gids (cred_run calls c))).
Proof.
  revert c. induction calls as [|call calls IH]; intros c Hu.
  { split_and!; [intros x; auto | done | intros _ x; auto]. }
  assert (He : euid c <> 0) by (intros E; apply Hu; unfold uids; rewrite E, !elem_of_cons; auto).
  assert (Hs : from_ids (uids c) (uids (cred_step call c).2) /\ sup_groups (cred_step call c).2 = sup_groups c /\
               (0 ∉ gids c -> from_ids (gids c) (gids (cred_step call c).2))).
  { assert (Hself : forall l, from_ids l l) by (intros l x; auto).
    assert (Hge : 0 ∉ gids c -> egid c <> 0)
      by (intros Hg E; apply Hg; unfold gids; rewrite E, !elem_of_cons; auto).
    pose proof (setuids_from call c) as H1. pose proof (setgids_from call c) as H2.
    destruct call; try (destruct (H1 I He) as (? & Eg & ?); rewrite Eg; by auto);
      try (destruct (H2 I He) as (? & Eu & ?); rewrite Eu; split_and!; by auto).
    simpl. rewrite setgroups_denied by done. auto. }
  destruct Hs as (H1 & H2 & H3). destruct (IH (cred_step call c).2) as (I1 & I2 & I3).
  { by eapply from_ids_nonzero. }
  simpl. split_and!; [by eapply from_ids_trans | by rewrite I2 |].
  intros Hg. eapply from_ids_trans; [by apply H3|]. apply I3. eapply from_ids_nonzero; [by apply H3 | done].
Qed.

Lemma cred_run_no_escalation_witness :
  let c := {| uid := 1000; euid := 1000; suid := 1001; gid := 5; egid := 5; sgid := 5; sup_groups := [] |} in
  cred_run [Setuid 0; Setresuid (-1) 1001 (-1); Setuid 0; Setreuid 0 0] c =
    set_uids 1000 1001 1001 c /\
  from_ids (uids c) (uids (cred_run [Setuid 0; Setresuid (-1) 1001 (-1); Setuid 0; Setreuid 0 0] c)).
Proof.
  intros c. split; [vm_compute; reflexivity|].
  apply (cred_run_no_escalation [Setuid 0; Setresuid (-1) 1001 (-1); Setuid 0; Setreuid 0 0] c).
  unfold uids. simpl. rewrite !elem_of_cons, elem_of_nil. lia.
Defined.

(** * Supplementary groups *)

Definition is_id (g : Z) : Prop := - 2 ^ 31 <= g < 2 ^ 31 /\ g <> GID_INVALID.

Definition group_bytes (gs : list Z) : list Z := concat (word_bytes <$> gs).

Lemma i32_u32_id z : - 2 ^ 31 <= z < 2 ^ 31 -> i32 (u32 z) = z.
Proof.
  intros Hz. rewrite <- (i32_small z) at 2 by done. unfold i32, swrap.
  by assert (uwrap 32 (u32 z) = uwrap 32 z) as -> by apply u32_u32.
Qed.

Lemma length_group_bytes gs : length (group_bytes gs) = (4 * length gs)%nat.
Proof. induction gs; [done|]. unfold group_bytes in *. cbn [fmap list_fmap concat]. rewrite length_app, IHgs. simpl. lia. Qed.

Lemma group_bytes_cons g gs : group_bytes (g :: gs) = word_bytes g ++ group_bytes gs.
Proof. done. Qed.

Lemma read_groups_spec m lst gs : forall pre groups,
  readable m lst (group_bytes (pre ++ gs)) -> Forall is_id gs ->
  (length pre + length gs <= length groups)%nat -> take (length pre) groups = pre ->
  exists groups', read_groups m lst groups (Z.of_nat (length pre)) (length gs) = (0, groups') /\
    length groups' = length groups /\ take (length pre + length gs) groups' = pre ++ gs.
Proof.
  induction gs as [|g gs IH]; intros pre groups Hr Hid Hl Ht.
  { exists groups. rewrite Nat.add_0_r, app_nil_r. done. }
  apply Forall_cons in Hid as [[Hg _] Hid]. cbn [read_groups length]. unfold user_copy_to_kernel_indexed.
  assert (Hrg : readable m {| ptr := u32 (ptr lst + 4 * Z.of_nat (length pre)); is_user := is_user lst |} (word_bytes g)).
  { unfold group_bytes in Hr. rewrite fmap_app, concat_app in Hr. fold (group_bytes pre) in Hr. apply readable_app in Hr as [_ Hr].
    rewrite length_group_bytes in Hr. cbn [fmap list_fmap concat] in Hr. apply readable_app in Hr as [Hr _].
    by replace (Z.of_nat (4 * length pre)) with (4 * Z.of_nat (length pre)) in Hr by lia. }
  rewrite (user_copy_to_kernel_read _ _ g Hrg). cbn [Z.eqb negb]. rewrite i32_u32_id by done.
  destruct (IH (pre ++ [g]) (<[Z.to_nat (Z.of_nat (length pre)) := g]> groups)) as (groups' & E & Hl' & Ht').
  { by rewrite <- app_assoc. }
  { done. }
  { rewrite length_app, length_insert. simpl in *. lia. }
  { rewrite length_app, Nat2Z.id. simpl in *.
    rewrite Nat.add_1_r, (take_S_r _ _ g) by (by rewrite list_lookup_insert_eq by lia).
    f_equal. rewrite take_insert_ge by lia. done. }
  exists groups'. rewrite length_app, Nat2Z.inj_add in E. change (Z.of_nat (length [g])) with 1 in E. rewrite E. split_and!; [done| |].
  - by rewrite Hl', length_insert.
  - rewrite <- app_assoc, length_app in Ht'. simpl in *. rewrite <- Ht'. f_equal. lia.
Qed.

Lemma write_groups_spec m gs rest : forall i out size m0 pre,
  Forall is_id gs -> match rest with [] => True | r :: _ => r = GID_INVALID end ->
  written m0 m (ptr out) (group_bytes pre) -> length pre = i ->
  (length pre + length gs <= size)%nat -> (gs <> [] -> writable m0 out (4 * Z.of_nat size)) ->
  exists m', write_groups m out (Z.of_nat size) (gs ++ rest) (Z.of_nat i) = (Z.of_nat (i + length gs), m') /\
    written m0 m' (ptr out) (group_bytes (pre ++ gs)).
Proof.
  induction gs as [|g gs IH] in m |- *; intros i out size m0 pre Hid Hrest Hw Hi Hs Hwr.
  { exists m. rewrite Nat.add_0_r, app_nil_r. split; [|done]. destruct rest as [|r rest]; [done|]. by subst r. }
  apply Forall_cons in Hid as [[Hg Hgi] Hid]. cbn [write_groups app]. simpl in Hs.
  destruct (Z.eqb_spec g GID_INVALID); [done|].
  destruct (Z.eqb_spec (Z.of_nat size) 0); [lia|]. destruct (Z.ltb_spec (Z.of_nat size) (Z.of_nat i)); [lia|]. cbn [orb].
  unfold user_copy_from_kernel_indexed, user_copy_from_kernel.
  destruct (Hwr ltac:(done)) as [(R0 & R1 & R2) Ru Rm].
  assert (Hp : ptr (user_buffer_index out (Z.of_nat i * 4)) = ptr out + Z.of_nat (length (group_bytes pre))).
  { rewrite length_group_bytes, Hi. simpl. rewrite u32_small; lia. }
  destruct (user_memcpy_from_kernel_ok m (user_buffer_index out (Z.of_nat i * 4)) (word_bytes g)) as (m1 & E1 & Hin & Hout).
  { rewrite length_word_bytes. apply (writable_written m0 m out (group_bytes pre) 4) in Hw; [| |lia].
    - by replace (Z.of_nat (length (group_bytes pre))) with (Z.of_nat i * 4) in Hw by (rewrite length_group_bytes; lia).
    - rewrite length_group_bytes. split; [unfold range_ok; lia | intros Hx; specialize (Ru Hx); lia |].
      intros a Ha. apply Rm. lia. }
  rewrite E1. cbn [Z.eqb negb].
  destruct (IH m1 (S i) out size m0 (pre ++ [g])) as (m' & E & W); auto.
  - unfold group_bytes. rewrite fmap_app, concat_app. eapply written_app; [exact Hw|].
    cbn [fmap list_fmap concat]. rewrite app_nil_r. fold (group_bytes pre). unfold written. rewrite <- Hp. by split.
  - rewrite length_app. simpl. lia.
  - rewrite length_app. simpl. lia.
  - exists m'. rewrite <- app_assoc in W. split; [|done]. simpl length. rewrite <- Nat.add_succ_comm, <- E. f_equal. lia.
Qed.

(** the groups root sets are the groups it reads back: [sys_setgroups] of at
    most [NGROUPS] groups succeeds and makes the task a member of each, and
    [sys_getgroups] then returns their number and stores exactly them, in
    order, in the caller's buffer. *)
Theorem groups_roundtrip stack m lst gs c m2 out :
  euid c = 0 -> length stack = Z.to_nat NGROUPS -> (length gs <= Z.to_nat NGROUPS)%nat ->
  Forall is_id gs -> readable m lst (group_bytes gs) ->
  (gs <> [] -> writable m2 out (4 * Z.of_nat (length gs))) ->
  exists c' m3,
    sys_setgroups stack m (Z.of_nat (length gs)) lst c = (0, c') /\
    Forall (fun g => credentials_belong_to_gid c' g = true) gs /\
    sys_getgroups m2 (Z.of_nat (length gs)) out c' = (Z.of_nat (length gs), m3) /\
    written m2 m3 (ptr out) (group_bytes gs).
Proof.
  intros He Hst Hl Hid Hr Hw. assert (Hng : 0 <= NGROUPS) by done.
  destruct (read_groups_spec m lst gs [] stack) as (groups & E & Hlen & Ht); [done | done | simpl; lia | done |].
  unfold sys_setgroups. destruct (Z.ltb_spec NGROUPS (Z.of_nat (length gs))); [lia|].
  rewrite Nat2Z.id. change (Z.of_nat (length [])) with 0 in E. rewrite E, He. cbn [Z.eqb negb].
  set (groups' := if Z.of_nat (length gs) <? NGROUPS then _ else _).
  assert (Hg : exists rest, groups' = gs ++ rest /\ match rest with [] => True | r :: _ => r = GID_INVALID end).
  { simpl in Ht. subst groups'. destruct (Z.ltb_spec (Z.of_nat (length gs)) NGROUPS).
    - exists (GID_INVALID :: drop (S (length gs)) groups). split; [|done].
      rewrite ?Nat2Z.id, insert_take_drop by lia. by rewrite Ht.
    - exists []. split; [|done]. rewrite app_nil_r, <- Ht. symmetry. apply take_ge. lia. }
  destruct Hg as (rest & Eg & Hrest).
  destruct (write_groups_spec m2 gs rest 0 out (length gs) m2 []) as (m3 & E3 & W); auto; [apply written_nil|].
  exists (set_sup_groups groups' c), m3. split_and!; [done | | | done].
  - apply Forall_forall. intros g Hg. unfold credentials_belong_to_gid. simpl. apply orb_true_iff. right.
    apply existsb_exists. exists g. split; [|lia]. rewrite Eg, <- list_elem_of_In, elem_of_app. auto.
  - unfold sys_getgroups. simpl sup_groups. rewrite Eg. exact E3.
Qed.

Definition groups_memory : gmap Z Z := list_to_map (zip (seqZ 4096 8) (group_bytes [100; 7])).

Lemma groups_roundtrip_witness :
  exists c' m3,
    sys_setgroups (replicate 32 0) groups_memory 2 (make_user_buffer 4096) credentials_init = (0, c') /\
    sys_getgroups groups_memory 2 (make_user_buffer 4096) c' = (2, m3).
Proof.
  destruct (groups_roundtrip (replicate 32 0) groups_memory (make_user_buffer 4096) [100; 7] credentials_init
    groups_memory (make_user_buffer 4096)) as (c' & m3 & E1 & _ & E2 & _);
    [reflexivity | reflexivity | vm_compute; lia | repeat constructor; unfold GID_INVALID; lia | | |].
  - split; [simpl; lia | intros _; vm_compute; discriminate |].
    intros i Hi. do 8 (destruct i as [|i]; [reflexivity|]). simpl in Hi. lia.
  - intros _. split; [unfold range_ok; simpl; lia | intros _; vm_compute; discriminate |].
    intros a Ha. simpl in Ha.
    assert (a = 4096 \/ a = 4097 \/ a = 4098 \/ a = 4099 \/ a = 4100 \/ a = 4101 \/ a = 4102 \/ a = 4103) as Ha' by lia.
    repeat destruct Ha' as [->|Ha']; try subst a; by eexists.
  - exists c', m3. split; [exact E1 | exact E2].
Defined.

(** a defect.  [sys_setgroups] copies the whole array from the kernel stack,
    of which it has written the groups and one terminator, and
    [__credentials_belong_to_gid] does not stop at the terminator: whatever lies
    behind it on the stack is a group of the task. *)
Theorem setgroups_keeps_stack stack m lst c j g :
  euid c = 0 -> length stack = Z.to_nat NGROUPS -> (0 < j)%nat -> stack !! j = Some g ->
  exists c', sys_setgroups stack m 0 lst c = (0, c') /\ credentials_belong_to_gid c' g = true.
Proof.
  intros He Hl Hj Hg. unfold sys_setgroups. cbn [read_groups Z.to_nat]. rewrite He. cbn [Z.eqb negb].
  eexists. split; [reflexivity|]. unfold credentials_belong_to_gid. simpl. apply orb_true_iff. right.
  apply existsb_exists. exists g. split; [|lia]. rewrite <- list_elem_of_In. apply list_elem_of_lookup. exists j.
  by rewrite list_lookup_insert_ne by lia.
Qed.

Lemma setgroups_keeps_stack_witness :
  exists c', sys_setgroups (replicate 32 77) ∅ 0 (make_user_buffer 0) credentials_init = (0, c') /\
    credentials_belong_to_gid c' 77 = true.
Proof. by apply (setgroups_keeps_stack (replicate 32 77) ∅ (make_user_buffer 0) credentials_init 5 77); try reflexivity; lia. Defined.

(** a defect.  [sys_setreuid] given only an effective id, one the caller may
    take, does not set it: it replaces the real id by the invalid id. *)
Theorem setreuid_loses_ruid eu c :
  eu <> UID_INVALID -> eu ∈ uids c ->
  exists c', sys_setreuid UID_INVALID eu c = (0, c') /\ uid c' = UID_INVALID /\ euid c' = euid c.
Proof.
  intros Hn He. unfold uids in He. rewrite !elem_of_cons, elem_of_nil in He.
  unfold sys_setreuid. rewrite Z.eqb_refl. cbn [negb andb].
  destruct (Z.eqb_spec eu UID_INVALID); [done|]. cbn [negb andb].
  assert (negb (euid c =? 0) && negb (uid c =? eu) && negb (euid c =? eu) && negb (suid c =? eu) = false) as -> by lia.
  cbn [uid euid set_uids]. eexists. split; [reflexivity|]. by destruct (negb _ || _).
Qed.

Lemma setreuid_loses_ruid_witness :
  exists c', sys_setreuid UID_INVALID 0 credentials_init = (0, c') /\ uid c' = UID_INVALID /\ euid c' = 0.
Proof. apply (setreuid_loses_ruid 0 credentials_init); [done|]. unfold uids. simpl. apply elem_of_cons. by left. Defined.

(** The shift that selects the mode bits of the class a task is in. *)
Definition class_shift (c : credentials) (inode : inode_access) : Z :=
  if euid c =? i_uid inode then 6 else if credentials_belong_to_gid c (i_gid inode) then 3 else 0.

(** for a task that is not root's the check grants an access exactly when
    each permission asked for is set in the mode for the one class the task is
    in: the owner's bits if it owns the inode, else the group's if it is in
    the group, else the others'. *)
Theorem check_permission_classes c inode access :
  euid c <> 0 -> 0 <= access < 8 ->
  check_permission c inode access = 0 <->
  (forall b, 0 <= b < 3 -> Z.testbit access b = true -> Z.testbit (i_mode inode) (class_shift c inode + b) = true).
Proof.
  intros He Ha. unfold check_permission. destruct (Z.eqb_spec access 0) as [->|Hz].
  { split; [|done]. intros _ b _ Hb. by rewrite Z.testbit_0_l in Hb. }
  destruct (Z.eqb_spec (euid c) 0); [done|].
  set (mode := Z.land (i_mode inode) 0x1FF).
  replace (if euid c =? i_uid inode then Z.shiftr mode 6
           else if credentials_belong_to_gid c (i_gid inode) then Z.shiftr mode 3 else mode)
    with (Z.shiftr mode (class_shift c inode))
    by (unfold class_shift; destruct (_ =? _); [done|]; destruct (credentials_belong_to_gid _ _); [done | apply Z.shiftr_0_r]).
  assert (Hs : 0 <= class_shift c inode <= 6).
  { unfold class_shift. destruct (_ =? _); [lia|]. destruct (credentials_belong_to_gid _ _); lia. }
  assert (Hm : forall b, 0 <= b < 3 -> Z.testbit (Z.shiftr mode (class_shift c inode)) b = Z.testbit (i_mode inode) (class_shift c inode + b)).
  { intros b Hb. rewrite Z.shiftr_spec by lia. unfold mode. rewrite Z.land_spec. change 0x1FF with (Z.ones 9).
    rewrite Z.ones_spec_low by lia. rewrite andb_true_r. f_equal. lia. }
  assert (Hhi : forall b, 3 <= b -> Z.testbit access b = false).
  { intros b Hb. apply Z.bits_above_log2; [lia|]. assert (Z.log2 access < 3) by (apply Z.log2_lt_pow2; lia). lia. }
  split.
  - intros H b Hb Hab. destruct (Z.eqb_spec (Z.land (Z.shiftr mode (class_shift c inode)) access) access) as [E|]; [|done].
    rewrite <- Hm by done. apply (f_equal (fun z => Z.testbit z b)) in E. rewrite Z.land_spec, Hab, andb_true_r in E. done.
  - intros H. destruct (Z.eqb_spec (Z.land (Z.shiftr mode (class_shift c inode)) access) access) as [|E]; [done|].
    destruct E. apply Z.bits_inj'. intros b Hb. rewrite Z.land_spec. destruct (Z.testbit access b) eqn:Eb; [|by rewrite andb_false_r].
    rewrite andb_true_r. destruct (Z.lt_ge_cases b 3); [|by rewrite Hhi in Eb]. rewrite Hm by lia. by apply H; [lia|].
Qed.

Lemma check_permission_classes_witness :
  let c := {| uid := 5; euid := 5; suid := 5; gid := 9; egid := 9; sgid := 9; sup_groups := [] |} in
  check_permission c {| i_mode := 0x81A4; i_uid := 1; i_gid := 9 |} 4 = 0 <->
  (forall b, 0 <= b < 3 -> Z.testbit 4 b = true -> Z.testbit 0x81A4 (3 + b) = true).
Proof.
  intros c. apply (check_permission_classes c {| i_mode := 0x81A4; i_uid := 1; i_gid := 9 |} 4); simpl; lia.
Defined.
