(* ===== verification/Dlist.v ===== *)
(** The intrusive doubly-linked lists of the kernel (include/uapi/protura/list.h).
    Nodes are addresses; the memory holds a [next] and a [prev] pointer for each.
    A head is a node like the others, and a node that is in no list is a head
    of an empty one.  The other files take a [list_head_t] to be a list of
    its entries: the last theorem says that they may. *)
From stdpp Require Import base numbers list gmap sorting.
From Stdlib Require Import ZArith ZifyBool Lia.
From S2P Require Import Prelude.
Open Scope Z_scope.

Record links : Type := { nx : gmap Z Z; pv : gmap Z Z }.

Definition get_next (h : links) (x : Z) : outcome Z := match nx h !! x with Some y => Done y | None => Fault end.
Definition get_prev (h : links) (x : Z) : outcome Z := match pv h !! x with Some y => Done y | None => Fault end.

Definition set_next (h : links) (x y : Z) : outcome links :=
  match nx h !! x with Some _ => Done {| nx := <[x := y]> (nx h); pv := pv h |} | None => Fault end.
Definition set_prev (h : links) (x y : Z) : outcome links :=
  match pv h !! x with Some _ => Done {| nx := nx h; pv := <[x := y]> (pv h) |} | None => Fault end.

(** * The operations *)

Definition list_head_init (h : links) (head : Z) : outcome links :=
  h ← set_next h head head; set_prev h head head.

(** [__list_add] *)
Definition list_add_between (h : links) (new prev next : Z) : outcome links :=
  h ← set_prev h next new;
  h ← set_next h new next;
  h ← set_prev h new prev;
  set_next h prev new.

Definition list_add (h : links) (head new : Z) : outcome links :=
  n ← get_next h head; list_add_between h new head n.

Definition list_add_tail (h : links) (head new : Z) : outcome links :=
  p ← get_prev h head; list_add_between h new p head.

(** [__list_del] and [__list_del_entry] *)
Definition list_unlink (h : links) (prev next : Z) : outcome links :=
  h ← set_prev h next prev; set_next h prev next.

Definition list_del_entry (h : links) (entry : Z) : outcome links :=
  p ← get_prev h entry; n ← get_next h entry; list_unlink h p n.

Definition list_del (h : links) (entry : Z) : outcome links :=
  h ← list_del_entry h entry; list_head_init h entry.

Definition list_replace (h : links) (old new : Z) : outcome links :=
  n ← get_next h old;
  h ← set_next h new n;
  n ← get_next h new;
  h ← set_prev h n new;
  p ← get_prev h old;
  h ← set_prev h new p;
  p ← get_prev h new;
  set_next h p new.

Definition list_replace_init (h : links) (old new : Z) : outcome links :=
  h ← list_replace h old new; list_head_init h old.

Definition list_move (h : links) (head entry : Z) : outcome links :=
  h ← list_del_entry h entry; list_add h head entry.

Definition list_move_tail (h : links) (head entry : Z) : outcome links :=
  h ← list_del_entry h entry; list_add_tail h head entry.

Definition list_empty (h : links) (head : Z) : outcome bool :=
  n ← get_next h head; Done (head =? n).

Definition list_rotate_left (h : links) (head : Z) : outcome links :=
  e ← list_empty h head;
  if negb e then n ← get_next h head; list_move_tail h head n else Done h.

Definition list_rotate_right (h : links) (head : Z) : outcome links :=
  e ← list_empty h head;
  if negb e then p ← get_prev h head; list_move h head p else Done h.

(** [__list_splice] *)
Definition list_splice_between (h : links) (prev next list_to_add : Z) : outcome links :=
  first ← get_next h list_to_add;
  last ← get_prev h list_to_add;
  h ← set_prev h first prev;
  h ← set_next h prev first;
  h ← set_next h last next;
  set_prev h next last.

Definition list_splice_init (h : links) (head old_list : Z) : outcome links :=
  e ← list_empty h old_list;
  if negb e then
    n ← get_next h head;
    h ← list_splice_between h head n old_list;
    list_head_init h old_list
  else Done h.

Definition list_splice_tail_init (h : links) (head old_list : Z) : outcome links :=
  e ← list_empty h old_list;
  if negb e then
    p ← get_prev h head;
    h ← list_splice_between h p head old_list;
    list_head_init h old_list
  else Done h.

(** The assignments that [list_new_first] and [list_new_last] share. *)
Definition list_relink (h : links) (head last first new_last new_first : Z) : outcome links :=
  h ← set_next h last first;
  h ← set_prev h first last;
  h ← set_next h new_last head;
  h ← set_prev h new_first head;
  h ← set_prev h head new_last;
  set_next h head new_first.

Definition list_new_first (h : links) (head new_first : Z) : outcome links :=
  last ← get_prev h head;
  first ← get_next h head;
  new_last ← get_prev h new_first;
  if first =? new_first then Done h else list_relink h head last first new_last new_first.

Definition list_new_last (h : links) (head new_last : Z) : outcome links :=
  last ← get_prev h head;
  first ← get_next h head;
  new_first ← get_next h new_last;
  if last =? new_last then Done h else list_relink h head last first new_last new_first.

Definition list_take_first (h : links) (head : Z) : outcome (Z * links) :=
  node ← get_next h head; h ← list_del h node; Done (node, h).

Definition list_take_last (h : links) (head : Z) : outcome (Z * links) :=
  node ← get_prev h head; h ← list_del h node; Done (node, h).

(** [list_foreach]: the entries in the order the loop visits them; [fuel] bounds
    their number. *)
Fixpoint list_walk (fuel : nat) (h : links) (head pos : Z) : outcome (list Z) :=
  if pos =? head then Done []
  else
    match fuel with
    | O => Panic
    | S fuel' => n ← get_next h pos; rest ← list_walk fuel' h head n; Done (pos :: rest)
    end.

Definition list_foreach (fuel : nat) (h : links) (head : Z) : outcome (list Z) :=
  n ← get_next h head; list_walk fuel h head n.

(** [list_foreach_take_entry] with an empty body. *)
Fixpoint list_take_all (fuel : nat) (h : links) (head : Z) : outcome (list Z * links) :=
  e ← list_empty h head;
  if (e : bool) then Done ([], h)
  else
    match fuel with
    | O => Panic
    | S fuel' =>
        '(node, h) ← (list_take_first h head : outcome (Z * links));
        r ← list_take_all fuel' h head;
        Done (node :: r.1, r.2)
    end.

(** * What a list stands for *)

(** Each node of [l] is linked with the one after it. *)
Fixpoint chain (h : links) (l : list Z) : Prop :=
  match l with
  | x :: (y :: _) as l' => nx h !! x = Some y /\ pv h !! y = Some x /\ chain h l'
  | _ => True
  end.

(** The list with head [head] has the entries [l]. *)
Definition dlist (h : links) (head : Z) (l : list Z) : Prop := NoDup (head :: l) /\ chain h (head :: l ++ [head]).

Lemma chain_cons h x y l : chain h (x :: y :: l) <-> nx h !! x = Some y /\ pv h !! y = Some x /\ chain h (y :: l).
Proof. done. Qed.

Lemma chain_app h l1 x l2 : chain h (l1 ++ x :: l2) <-> chain h (l1 ++ [x]) /\ chain h (x :: l2).
Proof.
  induction l1 as [|a l1 IH]; [by simpl; split; [intros H; split | intros [_ H]]|].
  destruct l1 as [|b l1].
  - cbn [app]. rewrite !chain_cons. simpl. tauto.
  - cbn [app] in *. rewrite !chain_cons, IH. tauto.
Qed.

(** A link in the middle. *)
Lemma chain_link h l1 p n l2 :
  chain h (l1 ++ p :: n :: l2) <-> chain h (l1 ++ [p]) /\ (nx h !! p = Some n /\ pv h !! n = Some p) /\ chain h (n :: l2).
Proof. rewrite chain_app, chain_cons. tauto. Qed.

Lemma chain_agree h h' l :
  (forall x, x ∈ removelast l -> nx h' !! x = nx h !! x) -> (forall x, x ∈ tail l -> pv h' !! x = pv h !! x) ->
  chain h l -> chain h' l.
Proof.
  induction l as [|x l IH]; [done|]. destruct l as [|y l]; [done|]. intros Hn Hp (E1 & E2 & H). split_and!.
  - rewrite Hn; [done|]. apply elem_of_cons. by left.
  - rewrite Hp; [done|]. apply elem_of_cons. by left.
  - apply IH; [| |done]; intros z Hz; [apply Hn | apply Hp]; apply elem_of_cons; by right.
Qed.

Lemma removelast_elem (l : list Z) x y : x ∈ removelast (l ++ [y]) <-> x ∈ l.
Proof. by rewrite removelast_last. Qed.

(** The last of [head :: l1], and what follows it. *)
Lemma path_left (head : Z) l1 : exists A p, head :: l1 = A ++ [p].
Proof. destruct (exists_last (l := head :: l1)) as (A & p & E); [done|]. by exists A, p. Qed.

Lemma path_right (head : Z) l2 : exists n B, l2 ++ [head] = n :: B.
Proof. destruct l2 as [|n l2]; eauto. Qed.

Lemma chain_ends (head : Z) (A : list Z) p n B l1 l2 mid :
  head :: l1 = A ++ [p] -> l2 ++ [head] = n :: B ->
  head :: (l1 ++ mid ++ l2) ++ [head] = A ++ p :: mid ++ n :: B.
Proof.
  intros E1 E2. rewrite <- !app_assoc, E2. transitivity ((head :: l1) ++ mid ++ n :: B); [done|].
  by rewrite E1, <- app_assoc.
Qed.

(** What is distinct in a list cut at [mid]. *)
Lemma path_facts (head : Z) (l1 mid l2 A : list Z) p n B :
  head :: l1 = A ++ [p] -> l2 ++ [head] = n :: B -> NoDup (head :: l1 ++ mid ++ l2) ->
  (forall x, x ∈ A -> x <> p /\ x ∉ mid) /\ (forall x, x ∈ l1 -> x <> n /\ x ∉ mid) /\
  (forall x, x ∈ l2 -> x <> p /\ x ∉ mid) /\ (forall x, x ∈ B -> x <> n /\ x ∉ mid) /\ (p ∉ mid) /\ (n ∉ mid).
Proof.
  intros EA EB Hnd. change (head :: l1 ++ mid ++ l2) with ((head :: l1) ++ mid ++ l2) in Hnd.
  pose proof Hnd as HndA. rewrite EA in HndA. apply NoDup_app in HndA as (HA & HA' & Hr). apply NoDup_app in HA as (_ & HA & _).
  assert (HndB : NoDup (l1 ++ mid ++ l2 ++ [head])).
  { rewrite (app_assoc mid), (app_assoc l1). apply NoDup_app. cbn [app] in Hnd. apply NoDup_cons in Hnd as [Hh Hnd].
    split_and!; [done | | by apply NoDup_singleton]. intros x Hx ->%list_elem_of_singleton. done. }
  rewrite EB in HndB. apply NoDup_app in HndB as (_ & HB' & HB). apply NoDup_app in HB as (_ & Hm & HB).
  apply NoDup_cons in HB as [HnB _].
  apply NoDup_app in Hr as (_ & Hm' & _).
  assert (Hp2 : forall x, x ∈ l2 -> x <> p).
  { intros x Hx ->. apply (HA' p); [rewrite elem_of_app, list_elem_of_singleton; auto | rewrite elem_of_app; auto]. }
  split_and!.
  - intros x Hx. split; [intros ->; by apply (HA p); [|apply list_elem_of_singleton]|].
    intros Hxm. apply (HA' x); [rewrite elem_of_app; auto | rewrite elem_of_app; auto].
  - intros x Hx. split; [intros ->; apply (HB' n); [done | rewrite elem_of_app, elem_of_cons; auto]|].
    intros Hxm. apply (HB' x); [done | rewrite elem_of_app; auto].
  - intros x Hx. split; [by apply Hp2|]. intros Hxm. by apply (Hm' x).
  - intros x Hx. split; [by intros ->|]. intros Hxm. apply (Hm x); [done|]. rewrite elem_of_cons. auto.
  - intros Hpm. apply (HA' p); [rewrite elem_of_app, list_elem_of_singleton; auto | rewrite elem_of_app; auto].
  - intros Hnm. apply (Hm n); [done|]. rewrite elem_of_cons. auto.
Qed.

(** Frames of the two halves. *)
Lemma chain_left h h' head l1 A p :
  head :: l1 = A ++ [p] -> (forall x, x ∈ A -> nx h' !! x = nx h !! x) -> (forall x, x ∈ l1 -> pv h' !! x = pv h !! x) ->
  chain h (A ++ [p]) -> chain h' (A ++ [p]).
Proof.
  intros EA Hn Hp. apply chain_agree; [|by rewrite <- EA]. intros x. rewrite removelast_elem. apply Hn.
Qed.

Lemma chain_right h h' head l2 n B :
  l2 ++ [head] = n :: B -> (forall x, x ∈ l2 -> nx h' !! x = nx h !! x) -> (forall x, x ∈ B -> pv h' !! x = pv h !! x) ->
  chain h (n :: B) -> chain h' (n :: B).
Proof.
  intros EB Hn Hp. apply chain_agree; [|by apply Hp]. rewrite <- EB. intros x. rewrite removelast_elem. apply Hn.
Qed.

(** The ends are entries, or the head. *)
Lemma path_ends (head : Z) l1 l2 A p n B :
  head :: l1 = A ++ [p] -> l2 ++ [head] = n :: B -> (p ∈ head :: l1) /\ (n ∈ head :: l2).
Proof.
  intros EA EB. split.
  - rewrite EA, elem_of_app, list_elem_of_singleton. auto.
  - assert (Hn : n ∈ l2 ++ [head]) by (rewrite EB, elem_of_cons; auto).
    rewrite elem_of_app, list_elem_of_singleton in Hn. rewrite elem_of_cons. tauto.
Qed.

Lemma set_next_done h x y : is_Some (nx h !! x) -> set_next h x y = Done {| nx := <[x := y]> (nx h); pv := pv h |}.
Proof. unfold set_next. by intros [z ->]. Qed.

Lemma set_prev_done h x y : is_Some (pv h !! x) -> set_prev h x y = Done {| nx := nx h; pv := <[x := y]> (pv h) |}.
Proof. unfold set_prev. by intros [z ->]. Qed.

Lemma get_next_done h x y : nx h !! x = Some y -> get_next h x = Done y.
Proof. unfold get_next. by intros ->. Qed.

Lemma get_prev_done h x y : pv h !! x = Some y -> get_prev h x = Done y.
Proof. unfold get_prev. by intros ->. Qed.

Lemma is_Some_insert (m : gmap Z Z) x y z : is_Some (m !! x) -> is_Some (<[y := z]> m !! x).
Proof. intros H. destruct (decide (x = y)) as [->|]; [rewrite lookup_insert_eq | rewrite lookup_insert_ne by done]; eauto. Qed.

Create HintDb links.
#[export] Hint Resolve is_Some_insert : links.
#[export] Hint Extern 1 (is_Some _) => eapply mk_is_Some; eassumption : links.

(** Runs the assignments to the pointers of mapped nodes. *)
Ltac run_links :=
  repeat first
    [ rewrite set_next_done by (cbn [nx pv]; eauto with links); obind
    | rewrite set_prev_done by (cbn [nx pv]; eauto with links); obind
    | erewrite get_next_done by (cbn [nx pv]; eassumption); obind
    | erewrite get_prev_done by (cbn [nx pv]; eassumption); obind ].

(** Both pointers of a node are mapped. *)
Definition node (h : links) (x : Z) : Prop := is_Some (nx h !! x) /\ is_Some (pv h !! x).

(** The nodes outside of [S] are as they were. *)
Definition agree (h h' : links) (S : list Z) : Prop :=
  forall x, x ∉ S -> nx h' !! x = nx h !! x /\ pv h' !! x = pv h !! x.

Lemma agree_trans h1 h2 h3 S : agree h1 h2 S -> agree h2 h3 S -> agree h1 h3 S.
Proof. intros H1 H2 x Hx. destruct (H1 x Hx), (H2 x Hx). split; congruence. Qed.

Lemma agree_sub h h' S S' : agree h h' S -> (forall x, x ∈ S -> x ∈ S') -> agree h h' S'.
Proof. intros H Hs x Hx. apply H. intros H'. by apply Hx, Hs. Qed.

(** Rewrites look-ups at nodes that were not assigned. *)
Ltac other_node := cbn [nx pv]; rewrite ?lookup_insert_ne by congruence; done.

(** Linking [new] in between two neighbours. *)
Lemma list_add_between_spec h head l1 l2 A p n B new :
  head :: l1 = A ++ [p] -> l2 ++ [head] = n :: B ->
  dlist h head (l1 ++ l2) -> node h new -> new ∉ head :: l1 ++ l2 ->
  exists h', list_add_between h new p n = Done h' /\ dlist h' head (l1 ++ new :: l2) /\
    agree h h' (new :: head :: l1 ++ l2).
Proof.
  intros EA EB [Hnd Hc] [Hn1 Hn2] Hnew.
  assert (Hnd' : NoDup (head :: l1 ++ [new] ++ l2)).
  { cbn [app]. change (NoDup ((head :: l1) ++ new :: l2)). rewrite <- Permutation_middle. by apply NoDup_cons. }
  destruct (path_facts _ _ _ _ _ _ _ _ EA EB Hnd') as (F1 & F2 & F3 & F4 & F5 & F6).
  destruct (path_ends _ _ _ _ _ _ _ EA EB) as [Hp Hn].
  setoid_rewrite list_elem_of_singleton in F1. setoid_rewrite list_elem_of_singleton in F2.
  setoid_rewrite list_elem_of_singleton in F3. setoid_rewrite list_elem_of_singleton in F4.
  rewrite list_elem_of_singleton in F5, F6.
  pose proof (chain_ends head A p n B l1 l2 [] EA EB) as Ep. cbn [app] in Ep. rewrite Ep in Hc.
  apply chain_link in Hc as (Hc1 & (Hnx & Hpv) & Hc2).
  unfold list_add_between. run_links. eexists. split; [done|]. split; [split; [done|]|].
  - pose proof (chain_ends head A p n B l1 l2 [new] EA EB) as Ep'. cbn [app] in Ep'. rewrite Ep'.
    apply chain_link. split; [|split].
    + eapply chain_left; [exact EA | | |exact Hc1]; intros x Hx; [destruct (F1 x Hx) | destruct (F2 x Hx)]; other_node.
    + cbn [nx pv]. by rewrite !lookup_insert_eq.
    + rewrite chain_cons. cbn [nx pv]. rewrite (lookup_insert_ne _ p new) by done.
      rewrite (lookup_insert_ne _ new n) by congruence. rewrite !lookup_insert_eq. split_and!; [done..|].
      eapply chain_right; [exact EB | | |exact Hc2]; intros x Hx; [destruct (F3 x Hx) | destruct (F4 x Hx)]; other_node.
  - intros x Hx. rewrite !elem_of_cons, elem_of_app in Hx. rewrite elem_of_cons in Hp, Hn.
    assert (x <> p /\ x <> n /\ x <> new) as (? & ? & ?) by (split_and!; intros ->; tauto). split; other_node.
Qed.

(** Unlinking an entry: the list without it. *)
Lemma list_del_entry_spec h head l1 l2 x :
  dlist h head (l1 ++ x :: l2) ->
  exists h', list_del_entry h x = Done h' /\ dlist h' head (l1 ++ l2) /\
    agree h h' (head :: l1 ++ l2) /\ node h' x.
Proof.
  intros [Hnd Hc]. destruct (path_left head l1) as (A & p & EA). destruct (path_right head l2) as (n & B & EB).
  destruct (path_facts head l1 [x] l2 A p n B EA EB Hnd) as (F1 & F2 & F3 & F4 & F5 & F6).
  destruct (path_ends _ _ _ _ _ _ _ EA EB) as [Hp Hn].
  pose proof (chain_ends head A p n B l1 l2 [x] EA EB) as Ep. cbn [app] in Ep. rewrite Ep in Hc.
  apply chain_link in Hc as (Hc1 & (Hnx & Hpv) & Hc2). apply chain_cons in Hc2 as (Hnx2 & Hpv2 & Hc2).
  rewrite list_elem_of_singleton in F5, F6.
  unfold list_del_entry, list_unlink. run_links. eexists. split; [done|]. split_and!.
  - split.
    { change (NoDup ((head :: l1) ++ x :: l2)) in Hnd. rewrite <- Permutation_middle in Hnd. by apply NoDup_cons in Hnd as [_ ?]. }
    pose proof (chain_ends head A p n B l1 l2 [] EA EB) as Ep'. cbn [app] in Ep'. rewrite Ep'.
    apply chain_link. split_and!; cbn [nx pv]; [ | by rewrite lookup_insert_eq | by rewrite lookup_insert_eq |].
    + eapply chain_left; [exact EA | | |exact Hc1]; intros y Hy; [destruct (F1 y Hy) | destruct (F2 y Hy)]; other_node.
    + eapply chain_right; [exact EB | | |exact Hc2]; intros y Hy; [destruct (F3 y Hy) | destruct (F4 y Hy)]; other_node.
  - intros y Hy. rewrite !elem_of_cons, elem_of_app in Hy. rewrite elem_of_cons in Hp, Hn.
    assert (y <> p /\ y <> n) as (? & ?) by (split_and!; intros ->; tauto). split; other_node.
  - split; cbn [nx pv]; eauto with links.
Qed.

(** A list none of whose nodes was touched. *)
Lemma dlist_frame h h' k l S :
  dlist h k l -> agree h h' S -> (forall x, x ∈ k :: l -> x ∉ S) -> dlist h' k l.
Proof.
  intros [Hnd Hc] Ha Hd. split; [done|]. eapply chain_agree; [| |exact Hc].
  - intros x Hx. rewrite app_comm_cons, removelast_elem in Hx. by apply Ha, Hd.
  - simpl. intros x Hx. rewrite elem_of_app, list_elem_of_singleton in Hx. apply Ha, Hd. apply elem_of_cons. tauto.
Qed.

Lemma chain_mapped h l x y z : chain h (x :: l ++ [y]) -> z ∈ x :: l -> is_Some (nx h !! z).
Proof.
  revert x. induction l as [|a l IH]; intros x H Hz.
  - apply list_elem_of_singleton in Hz as ->. destruct H as (-> & _). eauto.
  - destruct H as (E & _ & H). apply elem_of_cons in Hz as [->|Hz]; [rewrite E; eauto | by apply (IH a)].
Qed.

Lemma chain_mapped_prev h l x y z : chain h (x :: l ++ [y]) -> z ∈ l ++ [y] -> is_Some (pv h !! z).
Proof.
  revert x. induction l as [|a l IH]; intros x H Hz.
  - apply list_elem_of_singleton in Hz as ->. destruct H as (_ & -> & _). eauto.
  - destruct H as (_ & E & H). cbn [app] in Hz. apply elem_of_cons in Hz as [->|Hz]; [rewrite E; eauto | by apply (IH a)].
Qed.

Lemma dlist_node h k l x : dlist h k l -> x ∈ k :: l -> node h x.
Proof.
  intros [_ Hc] Hx. split; [by eapply chain_mapped|]. eapply chain_mapped_prev; [exact Hc|].
  rewrite elem_of_app, list_elem_of_singleton. apply elem_of_cons in Hx. tauto.
Qed.

Lemma dlist_next h head l n B : dlist h head l -> l ++ [head] = n :: B -> nx h !! head = Some n.
Proof. intros [_ Hc] E. rewrite E in Hc. apply Hc. Qed.

Lemma dlist_prev h head l A p : dlist h head l -> head :: l = A ++ [p] -> pv h !! head = Some p.
Proof. intros [_ Hc] E. rewrite app_comm_cons, E, <- app_assoc in Hc. by apply chain_link in Hc as (_ & [_ ?] & _). Qed.

Lemma list_head_init_spec h x : node h x -> exists h', list_head_init h x = Done h' /\ dlist h' x [] /\ agree h h' [x].
Proof.
  intros [H1 H2]. unfold list_head_init. run_links. eexists. split; [done|]. split.
  - split; [by apply NoDup_singleton|]. cbn. by rewrite !lookup_insert_eq.
  - intros y Hy. rewrite list_elem_of_singleton in Hy. split; other_node.
Qed.

Lemma list_empty_spec h head l : dlist h head l -> list_empty h head = Done (bool_decide (l = [])).
Proof.
  intros [Hnd Hc]. unfold list_empty. destruct l as [|x l]; destruct Hc as (E & _); run_links; f_equal; [by rewrite Z.eqb_refl, bool_decide_eq_true_2|].
  apply NoDup_cons in Hnd as [Hnd _]. rewrite elem_of_cons in Hnd. rewrite bool_decide_eq_false_2 by done. lia.
Qed.

Lemma list_add_spec h head l new :
  dlist h head l -> node h new -> new ∉ head :: l ->
  exists h', list_add h head new = Done h' /\ dlist h' head (new :: l) /\ agree h h' (new :: head :: l).
Proof.
  intros Hd Hn Hnew. destruct (path_right head l) as (n & B & EB). pose proof (dlist_next _ _ _ _ _ Hd EB) as E.
  unfold list_add. run_links. by apply (list_add_between_spec h head [] l [] head n B new).
Qed.

Lemma list_add_tail_spec h head l new :
  dlist h head l -> node h new -> new ∉ head :: l ->
  exists h', list_add_tail h head new = Done h' /\ dlist h' head (l ++ [new]) /\ agree h h' (new :: head :: l).
Proof.
  intros Hd Hn Hnew. destruct (path_left head l) as (A & p & EA). pose proof (dlist_prev _ _ _ _ _ Hd EA) as E.
  unfold list_add_tail. run_links. rewrite <- (app_nil_r l) in Hd, Hnew.
  destruct (list_add_between_spec h head l [] A p head [] new) as (h' & ? & ? & Ha); auto.
  exists h'. rewrite app_nil_r in Ha. auto.
Qed.

Lemma list_del_spec h head l1 l2 x :
  dlist h head (l1 ++ x :: l2) ->
  exists h', list_del h x = Done h' /\ dlist h' head (l1 ++ l2) /\ dlist h' x [] /\ agree h h' (x :: head :: l1 ++ l2).
Proof.
  intros Hd. destruct (list_del_entry_spec _ _ _ _ _ Hd) as (h1 & E1 & Hd1 & Ha1 & Hn1).
  destruct (list_head_init_spec h1 x Hn1) as (h2 & E2 & Hd2 & Ha2).
  exists h2. unfold list_del. rewrite E1. obind. split_and!; [done| |done|].
  - eapply dlist_frame; [exact Hd1 | exact Ha2 |]. intros y Hy ->%list_elem_of_singleton.
    destruct Hd as [Hnd _]. rewrite app_comm_cons, <- Permutation_middle in Hnd. apply NoDup_cons in Hnd as [Hnd _]. done.
  - eapply agree_trans; eapply agree_sub; [exact Ha1 | | exact Ha2 |]; intros y Hy.
    + apply elem_of_cons. auto.
    + apply list_elem_of_singleton in Hy as ->. apply elem_of_cons. auto.
Qed.

(** [list_take_first] and [list_take_last] *)
Lemma list_take_first_spec h head x l :
  dlist h head (x :: l) ->
  exists h', list_take_first h head = Done (x, h') /\ dlist h' head l /\ dlist h' x [] /\ agree h h' (x :: head :: l).
Proof.
  intros Hd. pose proof (dlist_next h head (x :: l) x (l ++ [head]) Hd eq_refl) as E.
  unfold list_take_first. run_links. destruct (list_del_spec h head [] l x Hd) as (h' & -> & ? & ? & ?). obind. by exists h'.
Qed.

Lemma list_take_last_spec h head x l :
  dlist h head (l ++ [x]) ->
  exists h', list_take_last h head = Done (x, h') /\ dlist h' head l /\ dlist h' x [] /\ agree h h' (x :: head :: l).
Proof.
  intros Hd. pose proof (dlist_prev h head (l ++ [x]) (head :: l) x Hd eq_refl) as E.
  unfold list_take_last. run_links. destruct (list_del_spec h head l [] x Hd) as (h' & -> & ? & ? & ?). obind.
  rewrite app_nil_r in *. by exists h'.
Qed.

(** * Whole-list operations *)

Lemma list_walk_spec h head l : forall a fuel,
  chain h (a :: l ++ [head]) -> head ∉ l -> (length l <= fuel)%nat ->
  exists n, nx h !! a = Some n /\ list_walk fuel h head n = Done l.
Proof.
  induction l as [|x l IH]; intros a fuel Hc Hh Hf.
  - exists head. destruct Hc as (E & _). split; [done|]. destruct fuel; simpl; by rewrite Z.eqb_refl.
  - destruct Hc as (E & _ & Hc). exists x. split; [done|]. apply not_elem_of_cons in Hh as [Hx Hh].
    destruct fuel as [|fuel]; [simpl in Hf; lia|]. cbn [list_walk]. destruct (Z.eqb_spec x head); [congruence|].
    destruct (IH x fuel Hc Hh) as (n0 & En & Ew); [simpl in Hf; lia|]. run_links. by rewrite Ew.
Qed.

Lemma list_foreach_spec h head l fuel :
  dlist h head l -> (length l <= fuel)%nat -> list_foreach fuel h head = Done l.
Proof.
  intros [Hnd Hc] Hf. apply NoDup_cons in Hnd as [Hh _].
  destruct (list_walk_spec h head l head fuel Hc Hh Hf) as (n & E & Ew). unfold list_foreach. run_links. done.
Qed.

Lemma list_take_all_spec head l : forall h fuel,
  dlist h head l -> (length l <= fuel)%nat ->
  exists h', list_take_all fuel h head = Done (l, h') /\ dlist h' head [] /\ Forall (fun x => dlist h' x []) l /\
    agree h h' (head :: l).
Proof.
  induction l as [|x l IH]; intros h fuel Hd Hf.
  { exists h. destruct fuel; cbn [list_take_all]; rewrite (list_empty_spec _ _ _ Hd); obind;
      rewrite bool_decide_eq_true_2 by done; (split_and!; [done | done | constructor | intros y _; done]). }
  destruct fuel as [|fuel]; [simpl in Hf; lia|]. cbn [list_take_all]. rewrite (list_empty_spec _ _ _ Hd). obind.
  rewrite bool_decide_eq_false_2 by done.
  destruct (list_take_first_spec _ _ _ _ Hd) as (h1 & E1 & Hd1 & Hx1 & Ha1). rewrite E1. obind.
  destruct (IH h1 fuel Hd1) as (h2 & E2 & Hd2 & Hl2 & Ha2); [simpl in Hf; lia|]. rewrite E2. obind. cbn [fst snd].
  assert (Hxn : x ∉ head :: l).
  { destruct Hd as [Hnd _]. apply NoDup_cons in Hnd as [H1 H2]. apply NoDup_cons in H2 as [H2 _].
    rewrite elem_of_cons. rewrite elem_of_cons in H1. intros [->|]; auto. }
  exists h2. split_and!; [done | done | constructor; [|done] |].
  - eapply dlist_frame; [exact Hx1 | exact Ha2 |]. intros y ->%list_elem_of_singleton. done.
  - eapply agree_trans; eapply agree_sub; [exact Ha1 | | exact Ha2 |]; intros y; rewrite !elem_of_cons; tauto.
Qed.

(** A part of a list whose outer links alone were assigned. *)
Lemma chain_keep h h' P P1 P2 f x :
  P = f :: P1 -> P = P2 ++ [x] -> NoDup P ->
  (forall z, z ∈ P -> z <> x -> nx h' !! z = nx h !! z) -> (forall z, z ∈ P -> z <> f -> pv h' !! z = pv h !! z) ->
  chain h P -> chain h' P.
Proof.
  intros E1 E2 Hnd Hn Hp. apply chain_agree; intros z Hz.
  - rewrite E2, removelast_elem in Hz. apply Hn; [rewrite E2, elem_of_app; auto|]. intros ->.
    rewrite E2 in Hnd. apply NoDup_app in Hnd as (_ & Hnd & _). by apply (Hnd x); [|apply list_elem_of_singleton].
  - rewrite E1 in Hz. apply Hp; [rewrite E1, elem_of_cons; auto|]. intros ->. rewrite E1 in Hnd. by apply NoDup_cons in Hnd as [? _].
Qed.

(** The links of a list with two parts. *)
Lemma chain_two h head P P1 P2 Q Q1 Q2 f x q y :
  P = f :: P1 -> P = P2 ++ [x] -> Q = q :: Q1 -> Q = Q2 ++ [y] ->
  chain h (head :: (P ++ Q) ++ [head]) <->
  (chain h P /\ chain h Q) /\ (nx h !! head = Some f /\ pv h !! f = Some head) /\
  (nx h !! x = Some q /\ pv h !! q = Some x) /\ (nx h !! y = Some head /\ pv h !! head = Some y).
Proof.
  intros EP1 EP2 EQ1 EQ2.
  assert (E : head :: (P ++ Q) ++ [head] = [head] ++ f :: P1 ++ Q ++ [head]) by (rewrite <- app_assoc, EP1; done).
  rewrite E, chain_app. cbn [app]. rewrite (chain_cons h head f []).
  assert (E2 : f :: P1 ++ Q ++ [head] = P2 ++ x :: q :: Q1 ++ [head]).
  { change (f :: P1 ++ ?t) with ((f :: P1) ++ t). rewrite <- EP1, EP2, EQ1, <- app_assoc. done. }
  rewrite E2, chain_link, <- EP2.
  assert (E3 : q :: Q1 ++ [head] = Q2 ++ y :: head :: []) by (rewrite app_comm_cons, <- EQ1, EQ2, <- app_assoc; done).
  rewrite E3, chain_link, <- EQ2. simpl. tauto.
Qed.

(** The two parts of a list change places. *)
Lemma list_relink_spec h head P P1 P2 Q Q1 Q2 f x q y :
  P = f :: P1 -> P = P2 ++ [x] -> Q = q :: Q1 -> Q = Q2 ++ [y] ->
  dlist h head (P ++ Q) ->
  exists h', list_relink h head y f x q = Done h' /\ dlist h' head (Q ++ P) /\ agree h h' (head :: P ++ Q).
Proof.
  intros EP1 EP2 EQ1 EQ2 [Hnd Hc].
  assert (Hin : (f ∈ P) /\ (x ∈ P) /\ (q ∈ Q) /\ (y ∈ Q)).
  { split_and!; [rewrite EP1 | rewrite EP2 | rewrite EQ1 | rewrite EQ2];
      rewrite ?elem_of_app, ?elem_of_cons, ?list_elem_of_singleton; auto. }
  destruct Hin as (Hf & Hx & Hq & Hy).
  pose proof Hnd as Hnd'. apply NoDup_cons in Hnd' as [Hh Hnd']. rewrite elem_of_app in Hh.
  apply NoDup_app in Hnd' as (HP & HPQ & HQ).
  apply (chain_two h head P P1 P2 Q Q1 Q2 f x q y EP1 EP2 EQ1 EQ2) in Hc as ((HcP & HcQ) & [E1 E2] & [E3 E4] & [E5 E6]).
  unfold list_relink. run_links. eexists. split; [done|].
  assert (HinP : forall z, z ∈ P -> z <> head /\ z <> q /\ z <> y)
    by (intros z Hz; split_and!; intros ->; [tauto | by apply (HPQ q) | by apply (HPQ y)]).
  assert (HinQ : forall z, z ∈ Q -> z <> head /\ z <> f /\ z <> x)
    by (intros z Hz; split_and!; intros ->; [tauto | by apply (HPQ f) | by apply (HPQ x)]).
  destruct (HinP f Hf) as (? & ? & ?), (HinP x Hx) as (? & ? & ?), (HinQ q Hq) as (? & ? & ?), (HinQ y Hy) as (? & ? & ?).
  split; [split|].
  - apply NoDup_cons. rewrite elem_of_app. split; [tauto|]. apply NoDup_app. split_and!; [done | | done].
    intros z Hz1 Hz2. by apply (HPQ z).
  - apply (chain_two _ head Q Q1 Q2 P P1 P2 q y f x EQ1 EQ2 EP1 EP2). cbn [nx pv].
    assert (forall (m : gmap Z Z) i v, <[i := v]> m !! i = Some v) as Hself by (intros; apply lookup_insert_eq).
    split_and!; rewrite ?Hself; try done.
    + eapply (chain_keep h _ Q Q1 Q2 q y); [done.. | | |exact HcQ]; intros z Hz Hne; destruct (HinQ z Hz) as (? & ? & ?); other_node.
    + eapply (chain_keep h _ P P1 P2 f x); [done.. | | |exact HcP]; intros z Hz Hne; destruct (HinP z Hz) as (? & ? & ?); other_node.
    + rewrite lookup_insert_ne by done. by rewrite Hself.
    + rewrite !lookup_insert_ne by done. by rewrite Hself.
    + rewrite !lookup_insert_ne by done. by rewrite Hself.
    + rewrite lookup_insert_ne by done. by rewrite Hself.
  - intros z Hz. rewrite elem_of_cons, elem_of_app in Hz.
    assert (z <> head /\ z <> f /\ z <> x /\ z <> q /\ z <> y) as (? & ? & ? & ? & ?) by (split_and!; intros ->; tauto).
    split; other_node.
Qed.

Lemma list_new_last_spec h head l1 x l2 :
  dlist h head (l1 ++ x :: l2) ->
  exists h', list_new_last h head x = Done h' /\ dlist h' head (l2 ++ l1 ++ [x]) /\ agree h h' (head :: l1 ++ x :: l2).
Proof.
  intros Hd. unfold list_new_last.
  destruct (path_right head (l1 ++ x :: l2)) as (f & B & EB). pose proof (dlist_next _ _ _ _ _ Hd EB) as E1.
  destruct (path_left head (l1 ++ x :: l2)) as (A & y & EA). pose proof (dlist_prev _ _ _ _ _ Hd EA) as E2.
  assert (Hx : node h x) by (apply (dlist_node _ _ _ _ Hd); rewrite elem_of_cons, elem_of_app, elem_of_cons; auto).
  destruct Hx as [[q Eq] _]. run_links. destruct (Z.eqb_spec y x) as [->|Hyx].
  - assert (l2 = []) as ->.
    { destruct (exists_last (l := x :: l2)) as (l2' & z & Ez); [done|]. rewrite Ez, app_assoc, app_comm_cons in EA.
      apply app_inj_tail in EA as [_ ->]. destruct l2' as [|w l2']; [by injection Ez|]. injection Ez as -> ->.
      destruct Hd as [Hnd _]. apply NoDup_cons in Hnd as [_ Hnd]. apply NoDup_app in Hnd as (_ & _ & Hnd).
      apply NoDup_cons in Hnd as [Hnd _]. destruct Hnd. rewrite elem_of_app, list_elem_of_singleton. auto. }
    exists h. by split_and!.
  - destruct l2 as [|q' l2].
    { rewrite app_comm_cons in EA. by apply app_inj_tail in EA as [_ ->]. }
    destruct (exists_last (l := q' :: l2)) as (Q2 & y' & EQ2); [done|].
    assert (y' = y) as ->.
    { rewrite app_comm_cons in EA. change (x :: q' :: l2) with ([x] ++ q' :: l2) in EA. rewrite EQ2, !app_assoc in EA.
      by apply app_inj_tail in EA as [_ ?]. }
    assert (EP : exists P1, l1 ++ [x] = f :: P1).
    { destruct l1 as [|a l1]; injection EB as -> _; eauto. }
    destruct EP as (P1 & EP). assert (q' = q) as ->.
    { destruct Hd as [_ Hc].
      assert (Ep : head :: (l1 ++ x :: q' :: l2) ++ [head] = (head :: l1) ++ x :: q' :: l2 ++ [head])
        by (cbn [app]; by rewrite <- app_assoc).
      rewrite Ep in Hc. apply chain_link in Hc as (_ & [Hq _] & _). congruence. }
    assert (El : l1 ++ x :: q :: l2 = (l1 ++ [x]) ++ q :: l2) by by rewrite <- app_assoc.
    rewrite El in Hd |- *. by apply (list_relink_spec h head (l1 ++ [x]) P1 l1 (q :: l2) l2 Q2 f x q y).
Qed.

Lemma list_new_first_spec h head l1 x l2 :
  dlist h head (l1 ++ x :: l2) ->
  exists h', list_new_first h head x = Done h' /\ dlist h' head (x :: l2 ++ l1) /\ agree h h' (head :: l1 ++ x :: l2).
Proof.
  intros Hd. unfold list_new_first.
  destruct (path_right head (l1 ++ x :: l2)) as (f & B & EB). pose proof (dlist_next _ _ _ _ _ Hd EB) as E1.
  destruct (path_left head (l1 ++ x :: l2)) as (A & y & EA). pose proof (dlist_prev _ _ _ _ _ Hd EA) as E2.
  assert (Hx : node h x) by (apply (dlist_node _ _ _ _ Hd); rewrite elem_of_cons, elem_of_app, elem_of_cons; auto).
  destruct Hx as [_ [p Ep]]. run_links. destruct (Z.eqb_spec f x) as [->|Hfx].
  - assert (l1 = []) as ->.
    { destruct l1 as [|a l1]; [done|]. injection EB as -> _. destruct Hd as [Hnd _]. apply NoDup_cons in Hnd as [_ Hnd].
      apply NoDup_cons in Hnd as [Hnd _]. destruct Hnd. rewrite elem_of_app, elem_of_cons. auto. }
    exists h. rewrite app_nil_r. by split_and!.
  - destruct l1 as [|a l1]; [by injection EB as ->|]. assert (a = f) as -> by (by injection EB).
    destruct (exists_last (l := x :: l2)) as (Q2 & y' & EQ2); [done|].
    assert (y' = y) as ->.
    { rewrite app_comm_cons, EQ2, app_assoc in EA. by apply app_inj_tail in EA as [_ ?]. }
    destruct (exists_last (l := f :: l1)) as (P2 & p' & EP2); [done|].
    assert (p' = p) as ->.
    { destruct Hd as [_ Hc]. assert (Eq : head :: ((f :: l1) ++ x :: l2) ++ [head] = (head :: P2) ++ p' :: x :: l2 ++ [head])
        by (rewrite EP2; cbn [app]; by rewrite <- !app_assoc).
      rewrite Eq in Hc. apply chain_link in Hc as (_ & [_ Hq] & _). congruence. }
    by apply (list_relink_spec h head (f :: l1) l1 P2 (x :: l2) l2 Q2 f p x y).
Qed.

(** Linking the entries [m] of another list in between two neighbours. *)
Lemma list_splice_between_spec h head old l1 l2 A p n B m :
  head :: l1 = A ++ [p] -> l2 ++ [head] = n :: B -> m <> [] ->
  dlist h head (l1 ++ l2) -> dlist h old m -> (forall x, x ∈ old :: m -> x ∉ head :: l1 ++ l2) ->
  exists h', list_splice_between h p n old = Done h' /\ dlist h' head (l1 ++ m ++ l2) /\
    agree h h' (head :: l1 ++ m ++ l2) /\ node h' old.
Proof.
  intros EA EB Hm [Hnd Hc] Hold Hdis.
  destruct (path_right old m) as (f & M1 & EM1). pose proof (dlist_next _ _ _ _ _ Hold EM1) as E1.
  destruct (exists_last (l := m)) as (M2 & y & EM2); [done|].
  pose proof (dlist_prev h old m (old :: M2) y Hold ltac:(by rewrite EM2)) as E2.
  assert (EM : exists M1', m = f :: M1') by (destruct m; [done|]; injection EM1 as -> _; eauto). destruct EM as (M1' & EM).
  assert (Hnd' : NoDup (head :: l1 ++ m ++ l2)).
  { change (NoDup ((head :: l1) ++ m ++ l2)). rewrite (Permutation_app_swap_app (head :: l1) m l2). apply NoDup_app.
    destruct Hold as [Ho _]. apply NoDup_cons in Ho as [_ Ho]. split_and!; [done | | done].
    intros x Hx. apply Hdis, elem_of_cons. auto. }
  destruct (path_facts _ _ _ _ _ _ _ _ EA EB Hnd') as (F1 & F2 & F3 & F4 & F5 & F6).
  destruct (path_ends _ _ _ _ _ _ _ EA EB) as [Hp Hn].
  pose proof (chain_ends head A p n B l1 l2 [] EA EB) as Ep. cbn [app] in Ep. rewrite Ep in Hc.
  apply chain_link in Hc as (Hc1 & (Hnx & Hpv) & Hc2).
  assert (Hcm : chain h m /\ nx h !! y = Some old /\ pv h !! f = Some old).
  { destruct Hold as [_ Ho]. rewrite EM in Ho. cbn [app] in Ho. apply chain_cons in Ho as (_ & Hf & Ho).
    rewrite app_comm_cons, <- EM, EM2, <- app_assoc in Ho. apply chain_link in Ho as (Ho & [Hy _] & _). rewrite EM2. done. }
  destruct Hcm as (Hcm & E3 & E4).
  assert (Hfm : f ∈ m) by (rewrite EM, elem_of_cons; auto).
  assert (Hym : y ∈ m) by (rewrite EM2, elem_of_app, list_elem_of_singleton; auto).
  assert (Hmid : forall x, x ∈ m -> x <> p /\ x <> n) by (intros x Hx; split; intros ->; done).
  destruct (Hmid f Hfm), (Hmid y Hym).
  assert (Hndm : NoDup m) by (destruct Hold as [Ho _]; by apply NoDup_cons in Ho as [_ ?]).
  unfold list_splice_between. run_links. eexists. split; [done|]. split; [split; [done|] | split].
  - rewrite (chain_ends head A p n B l1 l2 m EA EB).
    assert (Eq : A ++ p :: m ++ n :: B = A ++ p :: f :: M1' ++ n :: B) by by rewrite EM.
    rewrite Eq, chain_link, app_comm_cons, <- EM. rewrite EM2 at 1. rewrite <- app_assoc. cbn [app]. rewrite chain_link, <- EM2.
    cbn [nx pv]. split_and!.
    + eapply chain_left; [exact EA | | |exact Hc1]; intros z Hz; [destruct (F1 z Hz) | destruct (F2 z Hz)]; cbn [nx pv];
        rewrite !lookup_insert_ne by (intros ->; done); done.
    + rewrite lookup_insert_ne by congruence. by rewrite lookup_insert_eq.
    + rewrite lookup_insert_ne by congruence. by rewrite lookup_insert_eq.
    + eapply (chain_keep h _ m M1' M2 f y); [done.. | | |exact Hcm]; intros z Hz Hne; destruct (Hmid z Hz); other_node.
    + by rewrite lookup_insert_eq.
    + by rewrite lookup_insert_eq.
    + eapply chain_right; [exact EB | | |exact Hc2]; intros z Hz; [destruct (F3 z Hz) | destruct (F4 z Hz)]; cbn [nx pv];
        rewrite !lookup_insert_ne by (intros ->; done); done.
  - intros z Hz. rewrite !elem_of_cons, !elem_of_app in Hz. rewrite elem_of_cons in Hp, Hn.
    assert (z <> p /\ z <> n /\ z <> f /\ z <> y) as (? & ? & ? & ?) by (split_and!; intros ->; tauto). split; other_node.
  - split; cbn [nx pv]; destruct (dlist_node h old m old Hold) as [? ?]; try (apply elem_of_cons; auto); eauto with links.
Qed.

Lemma list_replace_spec h head l1 l2 old new :
  dlist h head (l1 ++ old :: l2) -> node h new -> new ∉ head :: l1 ++ old :: l2 ->
  exists h', list_replace h old new = Done h' /\ dlist h' head (l1 ++ new :: l2) /\
    agree h h' (new :: head :: l1 ++ l2) /\ node h' old.
Proof.
  intros [Hnd Hc] [Hn1 Hn2] Hnew. destruct (path_left head l1) as (A & p & EA). destruct (path_right head l2) as (n & B & EB).
  assert (Hnd' : NoDup (head :: l1 ++ [new; old] ++ l2)).
  { change (NoDup ((head :: l1) ++ new :: old :: l2)). rewrite <- Permutation_middle. by apply NoDup_cons. }
  destruct (path_facts _ _ _ _ _ _ _ _ EA EB Hnd') as (F1 & F2 & F3 & F4 & F5 & F6).
  destruct (path_ends _ _ _ _ _ _ _ EA EB) as [Hp Hn].
  pose proof (chain_ends head A p n B l1 l2 [old] EA EB) as Ep. cbn [app] in Ep. rewrite Ep in Hc.
  apply chain_link in Hc as (Hc1 & (Hnx & Hpv) & Hc2). apply chain_cons in Hc2 as (Hnx2 & Hpv2 & Hc2).
  assert (Hmid : forall x, x ∉ [new; old] -> x <> new /\ x <> old).
  { intros x Hx. rewrite !elem_of_cons in Hx. split; intros ->; tauto. }
  apply Hmid in F5 as [? ?], F6 as [? ?].
  unfold list_replace. run_links.
  rewrite (get_next_done _ new n) by (cbn [nx]; by rewrite lookup_insert_eq). obind. run_links.
  rewrite (get_prev_done _ old p) by (cbn [pv]; by rewrite lookup_insert_ne by done). obind. run_links.
  rewrite (get_prev_done _ new p) by (cbn [pv]; by rewrite lookup_insert_eq). obind. run_links.
  eexists. split; [done|]. split_and!.
  - split.
    { apply (sublist_NoDup _ _ Hnd'). constructor. cbn [app]. apply sublist_app; [done|]. constructor. by constructor. }
    pose proof (chain_ends head A p n B l1 l2 [new] EA EB) as Ep'. cbn [app] in Ep'. rewrite Ep', chain_link, chain_cons. cbn [nx pv].
    split_and!; try (by rewrite lookup_insert_eq).
    + eapply chain_left; [exact EA | | |exact Hc1]; intros z Hz;
        [destruct (F1 z Hz) as [? [? ?]%Hmid] | destruct (F2 z Hz) as [? [? ?]%Hmid]]; other_node.
    + rewrite lookup_insert_ne by congruence. by rewrite lookup_insert_eq.
    + rewrite lookup_insert_ne by congruence. by rewrite lookup_insert_eq.
    + eapply chain_right; [exact EB | | |exact Hc2]; intros z Hz;
        [destruct (F3 z Hz) as [? [? ?]%Hmid] | destruct (F4 z Hz) as [? [? ?]%Hmid]]; other_node.
  - intros z Hz. rewrite !elem_of_cons, elem_of_app in Hz. rewrite elem_of_cons in Hp, Hn.
    assert (z <> p /\ z <> n /\ z <> new) as (? & ? & ?) by (split_and!; intros ->; tauto). split; other_node.
  - split; cbn [nx pv]; eauto with links.
Qed.

(** An idle node may be deleted from the list it is alone in. *)
Lemma list_del_entry_idle h x : dlist h x [] -> exists h', list_del_entry h x = Done h' /\ agree h h' [x] /\ node h' x.
Proof.
  intros [_ (E1 & E2 & _)]. unfold list_del_entry, list_unlink. run_links. eexists. split; [done|]. split.
  - intros y Hy. rewrite list_elem_of_singleton in Hy. split; other_node.
  - split; cbn [nx pv]; eauto with links.
Qed.

(** * Refinement

    An abstract memory holds the entries of the list at each head; a node in no
    list is the head of an empty one. *)
Abbreviation forest := (gmap Z (list Z)).

Definition cells (F : forest) (k : Z) : list Z := match F !! k with Some l => k :: l | None => [] end.

Record holds (h : links) (F : forest) : Prop := {
  holds_list : forall k l, F !! k = Some l -> dlist h k l;
  holds_disjoint : forall k k' x, k <> k' -> x ∈ cells F k -> x ∉ cells F k';
}.

Inductive list_op : Type :=
| Init (head : Z)
| Add (head new : Z)
| AddTail (head new : Z)
| Del (entry : Z)
| Move (head entry : Z)
| MoveTail (head entry : Z)
| ReplaceInit (old new : Z)
| SpliceInit (head old_list : Z)
| SpliceTailInit (head old_list : Z)
| NewFirst (head new_first : Z)
| NewLast (head new_last : Z)
| RotateLeft (head : Z)
| RotateRight (head : Z).

Definition run_op (op : list_op) (h : links) : outcome links :=
  match op with
  | Init x => list_head_init h x
  | Add k x => list_add h k x
  | AddTail k x => list_add_tail h k x
  | Del x => list_del h x
  | Move k x => list_move h k x
  | MoveTail k x => list_move_tail h k x
  | ReplaceInit x y => list_replace_init h x y
  | SpliceInit k k' => list_splice_init h k k'
  | SpliceTailInit k k' => list_splice_tail_init h k k'
  | NewFirst k x => list_new_first h k x
  | NewLast k x => list_new_last h k x
  | RotateLeft k => list_rotate_left h k
  | RotateRight k => list_rotate_right h k
  end.

(** What an operation means on the abstract lists. *)
Inductive abs_step (F : forest) : list_op -> forest -> Prop :=
| abs_init x : F !! x = Some [] -> abs_step F (Init x) F
| abs_add k x l : k <> x -> F !! k = Some l -> F !! x = Some [] -> abs_step F (Add k x) (<[k := x :: l]> (delete x F))
| abs_add_tail k x l :
    k <> x -> F !! k = Some l -> F !! x = Some [] -> abs_step F (AddTail k x) (<[k := l ++ [x]]> (delete x F))
| abs_del k l1 x l2 : F !! k = Some (l1 ++ x :: l2) -> abs_step F (Del x) (<[x := []]> (<[k := l1 ++ l2]> F))
| abs_move_idle k x l : k <> x -> F !! k = Some l -> F !! x = Some [] -> abs_step F (Move k x) (<[k := x :: l]> (delete x F))
| abs_move_same k l1 x l2 : F !! k = Some (l1 ++ x :: l2) -> abs_step F (Move k x) (<[k := x :: l1 ++ l2]> F)
| abs_move k l k' l1 x l2 :
    k <> k' -> F !! k = Some l -> F !! k' = Some (l1 ++ x :: l2) ->
    abs_step F (Move k x) (<[k := x :: l]> (<[k' := l1 ++ l2]> F))
| abs_move_tail_idle k x l :
    k <> x -> F !! k = Some l -> F !! x = Some [] -> abs_step F (MoveTail k x) (<[k := l ++ [x]]> (delete x F))
| abs_move_tail_same k l1 x l2 :
    F !! k = Some (l1 ++ x :: l2) -> abs_step F (MoveTail k x) (<[k := (l1 ++ l2) ++ [x]]> F)
| abs_move_tail k l k' l1 x l2 :
    k <> k' -> F !! k = Some l -> F !! k' = Some (l1 ++ x :: l2) ->
    abs_step F (MoveTail k x) (<[k := l ++ [x]]> (<[k' := l1 ++ l2]> F))
| abs_replace_init k l1 x l2 y :
    F !! k = Some (l1 ++ x :: l2) -> k <> y -> F !! y = Some [] ->
    abs_step F (ReplaceInit x y) (<[x := []]> (<[k := l1 ++ y :: l2]> (delete y F)))
| abs_splice_init k l k' l' :
    k <> k' -> F !! k = Some l -> F !! k' = Some l' -> abs_step F (SpliceInit k k') (<[k := l' ++ l]> (<[k' := []]> F))
| abs_splice_tail_init k l k' l' :
    k <> k' -> F !! k = Some l -> F !! k' = Some l' -> abs_step F (SpliceTailInit k k') (<[k := l ++ l']> (<[k' := []]> F))
| abs_new_first k l1 x l2 : F !! k = Some (l1 ++ x :: l2) -> abs_step F (NewFirst k x) (<[k := x :: l2 ++ l1]> F)
| abs_new_last k l1 x l2 : F !! k = Some (l1 ++ x :: l2) -> abs_step F (NewLast k x) (<[k := l2 ++ l1 ++ [x]]> F)
| abs_rotate_left_nil k : F !! k = Some [] -> abs_step F (RotateLeft k) F
| abs_rotate_left k x l : F !! k = Some (x :: l) -> abs_step F (RotateLeft k) (<[k := l ++ [x]]> F)
| abs_rotate_right_nil k : F !! k = Some [] -> abs_step F (RotateRight k) F
| abs_rotate_right k x l : F !! k = Some (l ++ [x]) -> abs_step F (RotateRight k) (<[k := x :: l]> F).

(** * The simulation *)

Lemma cells_some F k l : F !! k = Some l -> cells F k = k :: l.
Proof. unfold cells. by intros ->. Qed.

Lemma cells_none F k : F !! k = None -> cells F k = [].
Proof. unfold cells. by intros ->. Qed.

(** The nodes of the lists at [ks]. *)
Definition all_cells (F : forest) (ks : list Z) : list Z := concat (cells F <$> ks).

Lemma elem_of_all_cells F ks x : x ∈ all_cells F ks <-> exists k, k ∈ ks /\ x ∈ cells F k.
Proof.
  unfold all_cells. induction ks as [|k ks IH]; cbn [fmap list_fmap concat].
  - rewrite elem_of_nil. split; [done | intros (k & Hk & _); by apply elem_of_nil in Hk].
  - rewrite elem_of_app, IH. setoid_rewrite elem_of_cons. naive_solver.
Qed.

Lemma holds_NoDup h F ks : holds h F -> NoDup ks -> NoDup (all_cells F ks).
Proof.
  intros [Hl Hd]. induction ks as [|k ks IH]; intros Hks; [constructor|]. apply NoDup_cons in Hks as [Hk Hks].
  unfold all_cells. cbn [fmap list_fmap concat]. apply NoDup_app. split_and!; [| |by apply IH].
  - destruct (F !! k) as [l|] eqn:E; [rewrite (cells_some _ _ _ E) | rewrite (cells_none _ _ E); constructor].
    by destruct (Hl _ _ E).
  - intros x Hx Hx'. apply elem_of_all_cells in Hx' as (k' & Hk' & Hx'). apply (Hd k k' x); [by intros -> | done..].
Qed.

Lemma NoDup_cells_disjoint F ks k k' x :
  NoDup (all_cells F ks) -> k ∈ ks -> k' ∈ ks -> k <> k' -> x ∈ cells F k -> x ∉ cells F k'.
Proof.
  unfold all_cells. induction ks as [|a ks IH]; intros Hnd Hk Hk' Hne Hx Hx'; [by apply elem_of_nil in Hk|].
  cbn [fmap list_fmap concat] in Hnd. apply NoDup_app in Hnd as (_ & Hd & Hnd).
  apply elem_of_cons in Hk as [->|Hk], Hk' as [->|Hk']; [done | | | by eapply IH].
  - apply (Hd x Hx), elem_of_all_cells. eauto.
  - apply (Hd x Hx'), elem_of_all_cells. eauto.
Qed.

(** An operation that moves the nodes of the lists at [ks] among these lists. *)
Lemma holds_update h h' F F' ks :
  holds h F -> NoDup ks -> (forall k, k ∉ ks -> F' !! k = F !! k) ->
  all_cells F' ks ≡ₚ all_cells F ks -> agree h h' (all_cells F ks) ->
  (forall k l, k ∈ ks -> F' !! k = Some l -> dlist h' k l) -> holds h' F'.
Proof.
  intros Hh Hks Hout Hperm Ha Hin. pose proof (holds_NoDup h F ks Hh Hks) as Hnd. destruct Hh as [Hl Hd].
  assert (Hc : forall k, k ∉ ks -> cells F' k = cells F k) by (intros k Hk; unfold cells; by rewrite Hout).
  assert (Hsep : forall k x, k ∉ ks -> x ∈ cells F k -> x ∉ all_cells F ks).
  { intros k x Hk Hx Hx'. apply elem_of_all_cells in Hx' as (k' & Hk' & Hx'). apply (Hd k k' x); [by intros -> | done..]. }
  split.
  - intros k l E. destruct (decide (k ∈ ks)) as [Hk|Hk]; [by apply Hin|]. rewrite Hout in E by done.
    eapply dlist_frame; [by apply Hl | exact Ha |]. rewrite <- (cells_some _ _ _ E). intros x. by apply Hsep.
  - intros k k' x Hne Hx Hx'. destruct (decide (k ∈ ks)) as [Hk|Hk], (decide (k' ∈ ks)) as [Hk'|Hk'].
    + rewrite <- Hperm in Hnd. by apply (NoDup_cells_disjoint F' ks k k' x).
    + rewrite Hc in Hx' by done. apply (Hsep k' x); [done..|]. rewrite <- Hperm. apply elem_of_all_cells. eauto.
    + rewrite Hc in Hx by done. apply (Hsep k x); [done..|]. rewrite <- Hperm. apply elem_of_all_cells. eauto.
    + rewrite !Hc in Hx, Hx' by done. by apply (Hd k k' x).
Qed.

(** An entry is not a head. *)
Lemma holds_entry h F k l x : holds h F -> F !! k = Some l -> x ∈ l -> F !! x = None /\ x <> k.
Proof.
  intros [Hl Hd] E Hx. assert (Hxk : x <> k) by (intros ->; destruct (Hl _ _ E) as [Hnd _]; by apply NoDup_cons in Hnd as [? _]).
  split; [|done]. destruct (F !! x) as [l'|] eqn:Ex; [|done]. exfalso.
  apply (Hd k x x); [done | rewrite (cells_some _ _ _ E), elem_of_cons; auto | rewrite (cells_some _ _ _ Ex), elem_of_cons; auto].
Qed.

Lemma holds_other h F k k' l l' x : holds h F -> k <> k' -> F !! k = Some l -> F !! k' = Some l' -> x ∈ k :: l -> x ∉ k' :: l'.
Proof. intros [_ Hd] Hne E E' Hx Hx'. apply (Hd k k' x Hne); [by rewrite (cells_some _ _ _ E) | by rewrite (cells_some _ _ _ E')]. Qed.

Lemma all_cells_1 F k l : F !! k = Some l -> all_cells F [k] = k :: l.
Proof. intros E. unfold all_cells. cbn [fmap list_fmap concat]. by rewrite (cells_some _ _ _ E), app_nil_r. Qed.

Lemma all_cells_2 F k k' : all_cells F [k; k'] = cells F k ++ cells F k'.
Proof. unfold all_cells. cbn [fmap list_fmap concat]. by rewrite app_nil_r. Qed.

Lemma NoDup_2 (k k' : Z) : k <> k' -> NoDup [k; k'].
Proof. intros. apply NoDup_cons. rewrite list_elem_of_singleton. split; [done | apply NoDup_singleton]. Qed.

(** One list is permuted. *)
Lemma holds_single h h' F k l l' :
  holds h F -> F !! k = Some l -> l' ≡ₚ l -> dlist h' k l' -> agree h h' (k :: l) -> holds h' (<[k := l']> F).
Proof.
  intros Hh E Hp Hd Ha. eapply (holds_update h h' F _ [k]); [done | apply NoDup_singleton | | | |].
  - intros x Hx. rewrite list_elem_of_singleton in Hx. by rewrite lookup_insert_ne by done.
  - rewrite (all_cells_1 F k l E), (all_cells_1 _ k l') by by rewrite lookup_insert_eq. by rewrite Hp.
  - by rewrite (all_cells_1 F k l E).
  - intros x m Hx%list_elem_of_singleton. subst x. rewrite lookup_insert_eq. by intros [= <-].
Qed.

(** Nodes move between two lists. *)
Lemma holds_two h h' F k k' l l' m m' :
  holds h F -> k <> k' -> F !! k = Some l -> F !! k' = Some l' -> m ++ m' ≡ₚ l ++ l' ->
  dlist h' k m -> dlist h' k' m' -> agree h h' (k :: k' :: l ++ l') -> holds h' (<[k := m]> (<[k' := m']> F)).
Proof.
  intros Hh Hne E E' Hp Hd Hd' Ha.
  assert (Ec : all_cells F [k; k'] ≡ₚ k :: k' :: l ++ l').
  { rewrite all_cells_2, (cells_some _ _ _ E), (cells_some _ _ _ E'). cbn [app]. by rewrite <- Permutation_middle. }
  eapply (holds_update h h' F _ [k; k']); [done | by apply NoDup_2 | | | |].
  - intros x Hx. rewrite elem_of_cons, list_elem_of_singleton in Hx. rewrite !lookup_insert_ne by naive_solver. done.
  - rewrite Ec, all_cells_2, (cells_some _ k m) by by rewrite lookup_insert_eq.
    rewrite (cells_some _ k' m') by (rewrite lookup_insert_ne by done; by rewrite lookup_insert_eq).
    cbn [app]. rewrite <- Permutation_middle. by rewrite Hp.
  - eapply agree_sub; [exact Ha|]. intros x. by rewrite Ec.
  - intros x n Hx. rewrite elem_of_cons, list_elem_of_singleton in Hx. destruct Hx as [->| ->].
    + rewrite lookup_insert_eq. by intros [= <-].
    + rewrite lookup_insert_ne, lookup_insert_eq by done. by intros [= <-].
Qed.

(** An idle node enters a list. *)
Lemma holds_absorb h h' F k x l m :
  holds h F -> k <> x -> F !! k = Some l -> F !! x = Some [] -> m ≡ₚ x :: l ->
  dlist h' k m -> agree h h' (x :: k :: l) -> holds h' (<[k := m]> (delete x F)).
Proof.
  intros Hh Hne E E' Hp Hd Ha.
  assert (Ec : all_cells F [k; x] ≡ₚ x :: k :: l).
  { rewrite all_cells_2, (cells_some _ _ _ E), (cells_some _ _ _ E'). by rewrite (Permutation_app_comm _ [x]). }
  eapply (holds_update h h' F _ [k; x]); [done | by apply NoDup_2 | | | |].
  - intros y Hy. rewrite elem_of_cons, list_elem_of_singleton in Hy.
    rewrite lookup_insert_ne, lookup_delete_ne by naive_solver. done.
  - rewrite Ec, all_cells_2, (cells_some _ k m) by by rewrite lookup_insert_eq.
    rewrite (cells_none _ x) by (rewrite lookup_insert_ne by done; by rewrite lookup_delete_eq).
    rewrite app_nil_r, Hp. by constructor.
  - eapply agree_sub; [exact Ha|]. intros y. by rewrite Ec.
  - intros y n Hy. rewrite elem_of_cons, list_elem_of_singleton in Hy. destruct Hy as [->| ->].
    + rewrite lookup_insert_eq. by intros [= <-].
    + rewrite lookup_insert_ne by done. by rewrite lookup_delete_eq.
Qed.

(** An entry leaves its list. *)
Lemma holds_emit h h' F k x l m :
  holds h F -> F !! k = Some l -> x ∈ l -> l ≡ₚ x :: m ->
  dlist h' k m -> dlist h' x [] -> agree h h' (x :: k :: m) -> holds h' (<[x := []]> (<[k := m]> F)).
Proof.
  intros Hh E Hx Hp Hd Hd' Ha. destruct (holds_entry _ _ _ _ _ Hh E Hx) as [E' Hne].
  assert (Ec : all_cells F [k; x] ≡ₚ x :: k :: m).
  { rewrite all_cells_2, (cells_some _ _ _ E), (cells_none _ _ E'), app_nil_r, Hp. by constructor. }
  eapply (holds_update h h' F _ [k; x]); [done | by apply NoDup_2 | | | |].
  - intros y Hy. rewrite elem_of_cons, list_elem_of_singleton in Hy. rewrite !lookup_insert_ne by naive_solver. done.
  - rewrite Ec, all_cells_2, (cells_some _ x []) by by rewrite lookup_insert_eq.
    rewrite (cells_some _ k m) by (rewrite lookup_insert_ne by done; by rewrite lookup_insert_eq).
    by rewrite (Permutation_app_comm _ [x]).
  - eapply agree_sub; [exact Ha|]. intros y. by rewrite Ec.
  - intros y n Hy. rewrite elem_of_cons, list_elem_of_singleton in Hy. destruct Hy as [->| ->].
    + rewrite lookup_insert_ne, lookup_insert_eq by done. by intros [= <-].
    + rewrite lookup_insert_eq. by intros [= <-].
Qed.

(** Adding at either end, and moving to it. *)
Section add_move.
  Context (add : links -> Z -> Z -> outcome links) (ext : list Z -> Z -> list Z).
  Hypothesis ext_perm : forall l x, ext l x ≡ₚ x :: l.
  Hypothesis add_spec : forall h head l new,
    dlist h head l -> node h new -> new ∉ head :: l ->
    exists h', add h head new = Done h' /\ dlist h' head (ext l new) /\ agree h h' (new :: head :: l).

Lemma sim_add h F k x l :
  holds h F -> k <> x -> F !! k = Some l -> F !! x = Some [] ->
  exists h', add h k x = Done h' /\ holds h' (<[k := ext l x]> (delete x F)).
Proof.
  intros Hh Hne E E'. destruct (add_spec h k l x) as (h' & Ea & Hd & Ha).
  - by apply (holds_list h F).
  - apply (dlist_node h x []); [by apply (holds_list h F) | apply elem_of_cons; auto].
  - apply (holds_other h F x k [] l x); auto. apply elem_of_cons. auto.
  - exists h'. split; [done|]. eapply holds_absorb; eauto.
Qed.

Lemma sim_move_idle h F k x l :
  holds h F -> k <> x -> F !! k = Some l -> F !! x = Some [] ->
  exists h', (h ← list_del_entry h x; add h k x) = Done h' /\ holds h' (<[k := ext l x]> (delete x F)).
Proof.
  intros Hh Hne E E'. destruct (list_del_entry_idle h x) as (h1 & E1 & Ha1 & Hn); [by apply (holds_list h F)|].
  assert (Hx : x ∉ k :: l) by (apply (holds_other h F x k [] l x); auto; apply elem_of_cons; auto).
  destruct (add_spec h1 k l x) as (h2 & E2 & Hd & Ha2); [| done | done |].
  { eapply dlist_frame; [by apply (holds_list h F) | exact Ha1 |]. intros y Hy ->%list_elem_of_singleton. done. }
  exists h2. rewrite E1. obind. split; [done|]. eapply holds_absorb; eauto.
  eapply agree_trans; [|exact Ha2]. eapply agree_sub; [exact Ha1|]. intros y ->%list_elem_of_singleton. apply elem_of_cons. auto.
Qed.

Lemma sim_move_same h F k l1 x l2 :
  holds h F -> F !! k = Some (l1 ++ x :: l2) ->
  exists h', (h ← list_del_entry h x; add h k x) = Done h' /\ holds h' (<[k := ext (l1 ++ l2) x]> F).
Proof.
  intros Hh E. pose proof (holds_list h F Hh _ _ E) as Hd.
  destruct (list_del_entry_spec h k l1 l2 x Hd) as (h1 & E1 & Hd1 & Ha1 & Hn).
  assert (Hx : x ∉ k :: l1 ++ l2).
  { destruct Hd as [Hnd _]. rewrite app_comm_cons, <- Permutation_middle in Hnd. by apply NoDup_cons in Hnd as [? _]. }
  destruct (add_spec h1 k (l1 ++ l2) x Hd1 Hn Hx) as (h2 & E2 & Hd2 & Ha2). exists h2. rewrite E1. obind. split; [done|].
  eapply holds_single; eauto; [by rewrite ext_perm, Permutation_middle|].
  eapply agree_trans; eapply agree_sub; [exact Ha1 | | exact Ha2 |]; intros y; rewrite !elem_of_cons, !elem_of_app, ?elem_of_cons; tauto.
Qed.

Lemma sim_move h F k l k' l1 x l2 :
  holds h F -> k <> k' -> F !! k = Some l -> F !! k' = Some (l1 ++ x :: l2) ->
  exists h', (h ← list_del_entry h x; add h k x) = Done h' /\ holds h' (<[k := ext l x]> (<[k' := l1 ++ l2]> F)).
Proof.
  intros Hh Hne E E'. pose proof (holds_list h F Hh _ _ E') as Hd.
  destruct (list_del_entry_spec h k' l1 l2 x Hd) as (h1 & E1 & Hd1 & Ha1 & Hn).
  assert (Hdis : forall y, y ∈ k :: l -> y ∉ k' :: l1 ++ x :: l2) by (intros y; by apply (holds_other h F k k')).
  assert (Hx : x ∉ k :: l) by (intros Hx; apply (Hdis x Hx); rewrite elem_of_cons, elem_of_app, elem_of_cons; auto).
  destruct (add_spec h1 k l x) as (h2 & E2 & Hd2 & Ha2); [|done..|].
  { eapply dlist_frame; [by apply (holds_list h F) | exact Ha1 |]. intros y Hy Hy'. apply (Hdis y Hy).
    rewrite elem_of_cons, elem_of_app in Hy'. rewrite elem_of_cons, elem_of_app, elem_of_cons. tauto. }
  assert (Hxk : x ∉ k' :: l1 ++ l2).
  { destruct Hd as [Hnd _]. rewrite app_comm_cons, <- Permutation_middle in Hnd. by apply NoDup_cons in Hnd as [? _]. }
  exists h2. rewrite E1. obind. split; [done|]. eapply (holds_two h h2 F k k' l (l1 ++ x :: l2)); eauto.
  - rewrite ext_perm, <- Permutation_middle. cbn [app]. by rewrite Permutation_middle.
  - eapply dlist_frame; [exact Hd1 | exact Ha2 |]. intros y Hy Hy'. apply elem_of_cons in Hy' as [->|Hy']; [done|].
    apply (Hdis y Hy'). rewrite elem_of_cons, elem_of_app in Hy. rewrite elem_of_cons, elem_of_app, elem_of_cons. tauto.
  - eapply agree_trans; eapply agree_sub; [exact Ha1 | | exact Ha2 |]; intros y;
      rewrite !elem_of_cons, !elem_of_app, ?elem_of_cons, ?elem_of_app, ?elem_of_cons; tauto.
Qed.
End add_move.

Lemma snoc_perm (l : list Z) x : l ++ [x] ≡ₚ x :: l.
Proof. by rewrite Permutation_app_comm. Qed.

Lemma sim_replace_init h F k l1 x l2 y :
  holds h F -> F !! k = Some (l1 ++ x :: l2) -> k <> y -> F !! y = Some [] ->
  exists h', list_replace_init h x y = Done h' /\ holds h' (<[x := []]> (<[k := l1 ++ y :: l2]> (delete y F))).
Proof.
  intros Hh E Hne E'. pose proof (holds_list h F Hh _ _ E) as Hd.
  assert (Hx : x ∈ l1 ++ x :: l2) by (rewrite elem_of_app, elem_of_cons; auto).
  destruct (holds_entry _ _ _ _ _ Hh E Hx) as [Ex Hxk].
  assert (Hy : y ∉ k :: l1 ++ x :: l2) by (apply (holds_other h F y k [] _ y); auto; apply elem_of_cons; auto).
  assert (Hxy : x <> y) by (intros ->; apply Hy, elem_of_cons; auto).
  destruct (list_replace_spec h k l1 l2 x y Hd) as (h1 & E1 & Hd1 & Ha1 & Hn1); [|done|].
  { apply (dlist_node h y []); [by apply (holds_list h F) | apply elem_of_cons; auto]. }
  destruct (list_head_init_spec h1 x Hn1) as (h2 & E2 & Hd2 & Ha2).
  assert (Hnd : x ∉ k :: l1 ++ l2).
  { destruct Hd as [Hnd _]. rewrite app_comm_cons, <- Permutation_middle in Hnd. by apply NoDup_cons in Hnd as [? _]. }
  assert (Ec : all_cells F [k; x; y] ≡ₚ x :: y :: k :: l1 ++ l2).
  { unfold all_cells. cbn [fmap list_fmap concat]. rewrite (cells_some _ _ _ E), (cells_none _ _ Ex), (cells_some _ _ _ E').
    cbn [app]. rewrite app_comm_cons, snoc_perm, app_comm_cons, <- Permutation_middle. constructor. }
  exists h2. unfold list_replace_init. rewrite E1. obind. split; [done|].
  eapply (holds_update h h2 F _ [k; x; y]); [done | | | | |].
  - apply NoDup_cons. rewrite elem_of_cons, list_elem_of_singleton. split; [naive_solver | by apply NoDup_2].
  - intros z Hz. rewrite !elem_of_cons, elem_of_nil in Hz.
    rewrite !lookup_insert_ne, lookup_delete_ne by naive_solver. done.
  - rewrite Ec. unfold all_cells. cbn [fmap list_fmap concat].
    rewrite (cells_some _ k (l1 ++ y :: l2)) by (rewrite lookup_insert_ne by done; by rewrite lookup_insert_eq).
    rewrite (cells_some _ x []) by by rewrite lookup_insert_eq.
    rewrite (cells_none _ y) by (rewrite !lookup_insert_ne by done; by rewrite lookup_delete_eq).
    cbn [app]. rewrite app_comm_cons, snoc_perm, app_comm_cons, <- Permutation_middle. done.
  - eapply agree_trans; eapply agree_sub; [exact Ha1 | | exact Ha2 |]; intros z; rewrite Ec, !elem_of_cons; [tauto|].
    rewrite elem_of_nil. tauto.
  - intros z m Hz. rewrite !elem_of_cons, elem_of_nil in Hz. destruct Hz as [->|[->|[->|[]]]].
    + rewrite lookup_insert_ne, lookup_insert_eq by done. intros [= <-]. eapply dlist_frame; [exact Hd1 | exact Ha2 |].
      intros z Hz ->%list_elem_of_singleton. apply Hnd. rewrite elem_of_cons, elem_of_app, elem_of_cons in Hz.
      rewrite elem_of_cons, elem_of_app. naive_solver.
    + rewrite lookup_insert_eq. by intros [= <-].
    + rewrite !lookup_insert_ne by done. by rewrite lookup_delete_eq.
Qed.

Lemma sim_splice h F k l k' l' l1 l2 A p n B :
  holds h F -> k <> k' -> F !! k = Some l -> F !! k' = Some l' -> l = l1 ++ l2 -> l' <> [] ->
  k :: l1 = A ++ [p] -> l2 ++ [k] = n :: B ->
  exists h', (h ← list_splice_between h p n k'; list_head_init h k') = Done h' /\
    holds h' (<[k := l1 ++ l' ++ l2]> (<[k' := []]> F)).
Proof.
  intros Hh Hne E E' -> Hl' EA EB.
  assert (Hdis : forall y, y ∈ k' :: l' -> y ∉ k :: l1 ++ l2) by (intros y; apply (holds_other h F k' k); auto).
  destruct (list_splice_between_spec h k k' l1 l2 A p n B l') as (h1 & E1 & Hd1 & Ha1 & Hn1); auto;
    try (by apply (holds_list h F)).
  destruct (list_head_init_spec h1 k' Hn1) as (h2 & E2 & Hd2 & Ha2). exists h2. rewrite E1. obind. split; [done|].
  assert (Hk' : k' ∉ k :: l1 ++ l' ++ l2).
  { intros Hk. assert (Hd : NoDup (k' :: l')) by (by destruct (holds_list h F Hh _ _ E')). apply NoDup_cons in Hd as [Hd _].
    apply (Hdis k'); [apply elem_of_cons; auto|]. rewrite elem_of_cons, !elem_of_app in *. tauto. }
  eapply (holds_two h h2 F k k' (l1 ++ l2) l'); eauto.
  - rewrite app_nil_r. rewrite (Permutation_app_comm l' l2). by rewrite app_assoc.
  - eapply dlist_frame; [exact Hd1 | exact Ha2 |]. intros z Hz ->%list_elem_of_singleton. done.
  - eapply agree_trans; eapply agree_sub; [exact Ha1 | | exact Ha2 |]; intros z; rewrite !elem_of_cons, ?elem_of_app; [tauto|].
    rewrite elem_of_nil. tauto.
Qed.

(** C38: the pointer operations implement operations on lists.  Take any memory
    that holds a collection of disjoint lists; an operation whose arguments are
    what it expects (an idle node to add, an entry to delete or to move, two
    different lists to splice, ...) only follows and assigns pointers of mapped
    nodes, and leaves a memory that holds the collection in which just the
    lists concerned have changed, in the way the operation is meant to
    change them. *)
Theorem list_ops_refine h F op F' :
  holds h F -> abs_step F op F' -> exists h', run_op op h = Done h' /\ holds h' F'.
Proof.
  intros Hh Hs. pose proof (holds_list h F Hh) as Hl. destruct Hs; cbn [run_op].
  - destruct (list_head_init_spec h x) as (h' & E & Hd & Ha); [by apply (dlist_node h x []); [apply Hl | apply elem_of_cons; auto]|].
    exists h'. split; [done|]. rewrite <- (insert_id F x []) by done. by eapply holds_single.
  - by apply (sim_add list_add (fun l x => x :: l) ltac:(done) list_add_spec).
  - by apply (sim_add list_add_tail (fun l x => l ++ [x]) snoc_perm list_add_tail_spec).
  - destruct (list_del_spec h k l1 l2 x) as (h' & E & Hd & Hd' & Ha); [by apply Hl|]. exists h'. split; [done|].
    eapply (holds_emit h h' F k x (l1 ++ x :: l2)); eauto; [rewrite elem_of_app, elem_of_cons; auto | by rewrite Permutation_middle].
  - by apply (sim_move_idle list_add (fun l x => x :: l) ltac:(done) list_add_spec).
  - by apply (sim_move_same list_add (fun l x => x :: l) ltac:(done) list_add_spec).
  - by apply (sim_move list_add (fun l x => x :: l) ltac:(done) list_add_spec).
  - by apply (sim_move_idle list_add_tail (fun l x => l ++ [x]) snoc_perm list_add_tail_spec).
  - by apply (sim_move_same list_add_tail (fun l x => l ++ [x]) snoc_perm list_add_tail_spec).
  - by apply (sim_move list_add_tail (fun l x => l ++ [x]) snoc_perm list_add_tail_spec).
  - by apply sim_replace_init.
  - unfold list_splice_init. rewrite (list_empty_spec h k' l') by by apply Hl. obind. destruct l' as [|y l'].
    { rewrite bool_decide_eq_true_2 by done. exists h. by rewrite !insert_id by (rewrite ?insert_id by done; done). }
    rewrite bool_decide_eq_false_2 by done. cbn [negb]. destruct (path_right k l) as (n & B & EB).
    rewrite (get_next_done h k n) by (eapply dlist_next; eauto). obind. by apply (sim_splice h F k l k' (y :: l') [] l [] k n B).
  - unfold list_splice_tail_init. rewrite (list_empty_spec h k' l') by by apply Hl. obind. destruct l' as [|y l'].
    { rewrite bool_decide_eq_true_2 by done. exists h. rewrite app_nil_r. by rewrite !insert_id by (rewrite ?insert_id by done; done). }
    rewrite bool_decide_eq_false_2 by done. cbn [negb]. destruct (path_left k l) as (A & p & EA).
    rewrite (get_prev_done h k p) by (eapply dlist_prev; eauto). obind.
    destruct (sim_splice h F k l k' (y :: l') l [] A p k []) as (h' & E & Hh'); auto; [by rewrite app_nil_r|].
    rewrite app_nil_r in Hh'. eauto.
  - destruct (list_new_first_spec h k l1 x l2) as (h' & E & Hd & Ha); [by apply Hl|]. exists h'. split; [done|].
    eapply holds_single; eauto. by rewrite app_comm_cons, Permutation_app_comm.
  - destruct (list_new_last_spec h k l1 x l2) as (h' & E & Hd & Ha); [by apply Hl|]. exists h'. split; [done|].
    eapply holds_single; eauto. rewrite Permutation_app_comm. by rewrite <- app_assoc.
  - unfold list_rotate_left. rewrite (list_empty_spec h k []) by by apply Hl. obind. rewrite bool_decide_eq_true_2 by done. eauto.
  - unfold list_rotate_left. rewrite (list_empty_spec h k (x :: l)) by by apply Hl. obind. rewrite bool_decide_eq_false_2 by done.
    cbn [negb]. rewrite (get_next_done h k x) by (by eapply (dlist_next h k (x :: l)); [apply Hl|]). obind.
    by apply (sim_move_same list_add_tail (fun l x => l ++ [x]) snoc_perm list_add_tail_spec h F k [] x l).
  - unfold list_rotate_right. rewrite (list_empty_spec h k []) by by apply Hl. obind. rewrite bool_decide_eq_true_2 by done. eauto.
  - unfold list_rotate_right. rewrite (list_empty_spec h k (l ++ [x])) by by apply Hl. obind.
    rewrite bool_decide_eq_false_2 by (by destruct l). cbn [negb].
    rewrite (get_prev_done h k x) by (by eapply (dlist_prev h k (l ++ [x]) (k :: l)); [apply Hl|]). obind.
    destruct (sim_move_same list_add (fun l x => x :: l) ltac:(done) list_add_spec h F k l x []) as (h' & E & Hh'); auto.
    rewrite app_nil_r in Hh'. eauto.
Qed.

Definition example_links : links :=
  {| nx := <[1 := 2]> (<[2 := 1]> {[3 := 3]}); pv := <[1 := 2]> (<[2 := 1]> {[3 := 3]}) |}.

Definition example_forest : forest := <[1 := [2]]> {[3 := []]}.

Lemma example_holds : holds example_links example_forest.
Proof.
  assert (Hc : forall k l, example_forest !! k = Some l -> (k = 1 /\ l = [2]) \/ (k = 3 /\ l = [])).
  { intros k l. unfold example_forest. rewrite lookup_insert_Some, lookup_singleton_Some. naive_solver. }
  split.
  - intros k l [[-> ->]|[-> ->]]%Hc; (split; [|cbn; by split_and!]); [apply NoDup_2; lia | apply NoDup_singleton].
  - intros k k' x Hne Hx Hx'. unfold cells in *.
    destruct (example_forest !! k) as [l|] eqn:E, (example_forest !! k') as [l'|] eqn:E'; try by apply elem_of_nil in Hx || by apply elem_of_nil in Hx'.
    apply Hc in E, E'. destruct E as [[-> ->]|[-> ->]], E' as [[-> ->]|[-> ->]]; try done;
      rewrite !elem_of_cons, elem_of_nil in *; lia.
Qed.

Lemma list_ops_refine_witness :
  exists h', run_op (AddTail 1 3) example_links = Done h' /\ holds h' (<[1 := [2; 3]]> (delete 3 example_forest)).
Proof.
  apply (list_ops_refine example_links example_forest (AddTail 1 3)); [apply example_holds|].
  by apply (abs_add_tail example_forest 1 3 [2]).
Defined.
