(* ===== verification/Task.v ===== *)
(** Tasks and the scheduler's lists (include/protura/task.h, src/kernel/sched/
    scheduler.c, task.c, task_sys.c, task_fd.c): creating, finding, signalling,
    ending and reaping tasks.  A task is identified by the address of its
    [struct task]; using an address that holds no task is a [Fault].  The spinlocks
    disable interrupts, so that what is done under one is one step.  What is
    released to other parts (files, inodes, address spaces) is recorded in [log]. *)
From stdpp Require Import base numbers list gmap.
From Stdlib Require Import ZArith ZifyBool Lia.
From S2P Require Import Prelude UserMem Users.
Open Scope Z_scope.

(** * Data *)

Inductive task_state : Type :=
| TASK_NONE
| TASK_SLEEPING
| TASK_INTR_SLEEPING
| TASK_RUNNING
| TASK_STOPPED
| TASK_ZOMBIE
| TASK_DEAD.

#[global] Instance task_state_eq_dec : EqDecision task_state.
Proof. solve_decision. Defined.

Record sigaction : Type := { sa_handler : Z; sa_mask : Z; sa_flags : Z }.

(** The registers of the interrupted user code: those that the kernel changes, and
    the 16 other words of the structure, in its order. *)
Record irq_frame : Type := { regs : list Z; eax : Z; eip : Z; esp : Z }.

Record task : Type := {
  pid : Z; pgid : Z; session_id : Z;
  state : task_state;
  tty : Z;
  preempted : bool; running : bool; is_kernel : bool; killed : bool; session_leader : bool;
  ret_code : Z; ret_signal : Z;
  parent : option Z;
  task_children : list Z;
  files : list Z;
  cwd : Z;
  umask : Z;
  close_on_exec : Z;
  sig_pending : Z; sig_blocked : Z;
  sig_actions : list sigaction;
  creds : credentials;
  prev_syscall : Z;
  frame : irq_frame;
}.

Definition set_state (s : task_state) (t : task) : task :=
  {| pid := pid t; pgid := pgid t; session_id := session_id t; state := s; tty := tty t; preempted := preempted t;
     running := running t; is_kernel := is_kernel t; killed := killed t; session_leader := session_leader t;
     ret_code := ret_code t; ret_signal := ret_signal t; parent := parent t; task_children := task_children t;
     files := files t; cwd := cwd t; umask := umask t; close_on_exec := close_on_exec t;
     sig_pending := sig_pending t; sig_blocked := sig_blocked t; sig_actions := sig_actions t; creds := creds t;
     prev_syscall := prev_syscall t; frame := frame t |}.

Definition set_tty (y : Z) (t : task) : task :=
  {| pid := pid t; pgid := pgid t; session_id := session_id t; state := state t; tty := y;
     preempted := preempted t; running := running t; is_kernel := is_kernel t; killed := killed t;
     session_leader := session_leader t; ret_code := ret_code t; ret_signal := ret_signal t; parent := parent t;
     task_children := task_children t; files := files t; cwd := cwd t; umask := umask t;
     close_on_exec := close_on_exec t; sig_pending := sig_pending t; sig_blocked := sig_blocked t;
     sig_actions := sig_actions t; creds := creds t; prev_syscall := prev_syscall t; frame := frame t |}.

Definition set_preempted (b : bool) (t : task) : task :=
  {| pid := pid t; pgid := pgid t; session_id := session_id t; state := state t; tty := tty t; preempted := b;
     running := running t; is_kernel := is_kernel t; killed := killed t; session_leader := session_leader t;
     ret_code := ret_code t; ret_signal := ret_signal t; parent := parent t; task_children := task_children t;
     files := files t; cwd := cwd t; umask := umask t; close_on_exec := close_on_exec t;
     sig_pending := sig_pending t; sig_blocked := sig_blocked t; sig_actions := sig_actions t; creds := creds t;
     prev_syscall := prev_syscall t; frame := frame t |}.

Definition set_running (b : bool) (t : task) : task :=
  {| pid := pid t; pgid := pgid t; session_id := session_id t; state := state t; tty := tty t;
     preempted := preempted t; running := b; is_kernel := is_kernel t; killed := killed t;
     session_leader := session_leader t; ret_code := ret_code t; ret_signal := ret_signal t; parent := parent t;
     task_children := task_children t; files := files t; cwd := cwd t; umask := umask t;
     close_on_exec := close_on_exec t; sig_pending := sig_pending t; sig_blocked := sig_blocked t;
     sig_actions := sig_actions t; creds := creds t; prev_syscall := prev_syscall t; frame := frame t |}.

Definition set_killed (b : bool) (t : task) : task :=
  {| pid := pid t; pgid := pgid t; session_id := session_id t; state := state t; tty := tty t;
     preempted := preempted t; running := running t; is_kernel := is_kernel t; killed := b;
     session_leader := session_leader t; ret_code := ret_code t; ret_signal := ret_signal t; parent := parent t;
     task_children := task_children t; files := files t; cwd := cwd t; umask := umask t;
     close_on_exec := close_on_exec t; sig_pending := sig_pending t; sig_blocked := sig_blocked t;
     sig_actions := sig_actions t; creds := creds t; prev_syscall := prev_syscall t; frame := frame t |}.

Definition set_ret_code (c : Z) (t : task) : task :=
  {| pid := pid t; pgid := pgid t; session_id := session_id t; state := state t; tty := tty t;
     preempted := preempted t; running := running t; is_kernel := is_kernel t; killed := killed t;
     session_leader := session_leader t; ret_code := c; ret_signal := ret_signal t; parent := parent t;
     task_children := task_children t; files := files t; cwd := cwd t; umask := umask t;
     close_on_exec := close_on_exec t; sig_pending := sig_pending t; sig_blocked := sig_blocked t;
     sig_actions := sig_actions t; creds := creds t; prev_syscall := prev_syscall t; frame := frame t |}.

Definition set_ret_signal (c : Z) (t : task) : task :=
  {| pid := pid t; pgid := pgid t; session_id := session_id t; state := state t; tty := tty t;
     preempted := preempted t; running := running t; is_kernel := is_kernel t; killed := killed t;
     session_leader := session_leader t; ret_code := ret_code t; ret_signal := c; parent := parent t;
     task_children := task_children t; files := files t; cwd := cwd t; umask := umask t;
     close_on_exec := close_on_exec t; sig_pending := sig_pending t; sig_blocked := sig_blocked t;
     sig_actions := sig_actions t; creds := creds t; prev_syscall := prev_syscall t; frame := frame t |}.

Definition set_parent (p : option Z) (t : task) : task :=
  {| pid := pid t; pgid := pgid t; session_id := session_id t; state := state t; tty := tty t;
     preempted := preempted t; running := running t; is_kernel := is_kernel t; killed := killed t;
     session_leader := session_leader t; ret_code := ret_code t; ret_signal := ret_signal t; parent := p;
     task_children := task_children t; files := files t; cwd := cwd t; umask := umask t;
     close_on_exec := close_on_exec t; sig_pending := sig_pending t; sig_blocked := sig_blocked t;
     sig_actions := sig_actions t; creds := creds t; prev_syscall := prev_syscall t; frame := frame t |}.

Definition set_children (l : list Z) (t : task) : task :=
  {| pid := pid t; pgid := pgid t; session_id := session_id t; state := state t; tty := tty t;
     preempted := preempted t; running := running t; is_kernel := is_kernel t; killed := killed t;
     session_leader := session_leader t; ret_code := ret_code t; ret_signal := ret_signal t; parent := parent t;
     task_children := l; files := files t; cwd := cwd t; umask := umask t; close_on_exec := close_on_exec t;
     sig_pending := sig_pending t; sig_blocked := sig_blocked t; sig_actions := sig_actions t; creds := creds t;
     prev_syscall := prev_syscall t; frame := frame t |}.

Definition set_files (l : list Z) (t : task) : task :=
  {| pid := pid t; pgid := pgid t; session_id := session_id t; state := state t; tty := tty t;
     preempted := preempted t; running := running t; is_kernel := is_kernel t; killed := killed t;
     session_leader := session_leader t; ret_code := ret_code t; ret_signal := ret_signal t; parent := parent t;
     task_children := task_children t; files := l; cwd := cwd t; umask := umask t;
     close_on_exec := close_on_exec t; sig_pending := sig_pending t; sig_blocked := sig_blocked t;
     sig_actions := sig_actions t; creds := creds t; prev_syscall := prev_syscall t; frame := frame t |}.

Definition set_close_on_exec (c : Z) (t : task) : task :=
  {| pid := pid t; pgid := pgid t; session_id := session_id t; state := state t; tty := tty t;
     preempted := preempted t; running := running t; is_kernel := is_kernel t; killed := killed t;
     session_leader := session_leader t; ret_code := ret_code t; ret_signal := ret_signal t; parent := parent t;
     task_children := task_children t; files := files t; cwd := cwd t; umask := umask t; close_on_exec := c;
     sig_pending := sig_pending t; sig_blocked := sig_blocked t; sig_actions := sig_actions t; creds := creds t;
     prev_syscall := prev_syscall t; frame := frame t |}.

Definition set_pgid (g : Z) (t : task) : task :=
  {| pid := pid t; pgid := g; session_id := session_id t; state := state t; tty := tty t;
     preempted := preempted t; running := running t; is_kernel := is_kernel t; killed := killed t;
     session_leader := session_leader t; ret_code := ret_code t; ret_signal := ret_signal t; parent := parent t;
     task_children := task_children t; files := files t; cwd := cwd t; umask := umask t;
     close_on_exec := close_on_exec t; sig_pending := sig_pending t; sig_blocked := sig_blocked t;
     sig_actions := sig_actions t; creds := creds t; prev_syscall := prev_syscall t; frame := frame t |}.

Definition set_leader  (t : task) : task :=
  {| pid := pid t; pgid := pid t; session_id := pid t; state := state t; tty := 0; preempted := preempted t;
     running := running t; is_kernel := is_kernel t; killed := killed t; session_leader := true;
     ret_code := ret_code t; ret_signal := ret_signal t; parent := parent t; task_children := task_children t;
     files := files t; cwd := cwd t; umask := umask t; close_on_exec := close_on_exec t;
     sig_pending := sig_pending t; sig_blocked := sig_blocked t; sig_actions := sig_actions t; creds := creds t;
     prev_syscall := prev_syscall t; frame := frame t |}.

Definition set_pending (p : Z) (t : task) : task :=
  {| pid := pid t; pgid := pgid t; session_id := session_id t; state := state t; tty := tty t;
     preempted := preempted t; running := running t; is_kernel := is_kernel t; killed := killed t;
     session_leader := session_leader t; ret_code := ret_code t; ret_signal := ret_signal t; parent := parent t;
     task_children := task_children t; files := files t; cwd := cwd t; umask := umask t;
     close_on_exec := close_on_exec t; sig_pending := p; sig_blocked := sig_blocked t;
     sig_actions := sig_actions t; creds := creds t; prev_syscall := prev_syscall t; frame := frame t |}.

Definition set_blocked (b : Z) (t : task) : task :=
  {| pid := pid t; pgid := pgid t; session_id := session_id t; state := state t; tty := tty t;
     preempted := preempted t; running := running t; is_kernel := is_kernel t; killed := killed t;
     session_leader := session_leader t; ret_code := ret_code t; ret_signal := ret_signal t; parent := parent t;
     task_children := task_children t; files := files t; cwd := cwd t; umask := umask t;
     close_on_exec := close_on_exec t; sig_pending := sig_pending t; sig_blocked := b;
     sig_actions := sig_actions t; creds := creds t; prev_syscall := prev_syscall t; frame := frame t |}.

Definition set_actions (a : list sigaction) (t : task) : task :=
  {| pid := pid t; pgid := pgid t; session_id := session_id t; state := state t; tty := tty t;
     preempted := preempted t; running := running t; is_kernel := is_kernel t; killed := killed t;
     session_leader := session_leader t; ret_code := ret_code t; ret_signal := ret_signal t; parent := parent t;
     task_children := task_children t; files := files t; cwd := cwd t; umask := umask t;
     close_on_exec := close_on_exec t; sig_pending := sig_pending t; sig_blocked := sig_blocked t;
     sig_actions := a; creds := creds t; prev_syscall := prev_syscall t; frame := frame t |}.

Definition set_frame (f : irq_frame) (t : task) : task :=
  {| pid := pid t; pgid := pgid t; session_id := session_id t; state := state t; tty := tty t;
     preempted := preempted t; running := running t; is_kernel := is_kernel t; killed := killed t;
     session_leader := session_leader t; ret_code := ret_code t; ret_signal := ret_signal t; parent := parent t;
     task_children := task_children t; files := files t; cwd := cwd t; umask := umask t;
     close_on_exec := close_on_exec t; sig_pending := sig_pending t; sig_blocked := sig_blocked t;
     sig_actions := sig_actions t; creds := creds t; prev_syscall := prev_syscall t; frame := f |}.

Inductive event : Type :=
| FileDup (f : Z)
| FileClose (f : Z)
| InodeDup (i : Z)
| InodePut (i : Z)
| AddressSpaceClear (t : Z)
| TtyDetach (y : Z)
| TaskFree (t : Z).

(** [ktasks] with the tasks in memory, [total_tasks] and [task_pid1]. *)
Record sched : Type := {
  tasks : gmap Z task;
  tlist : list Z;
  dead : list Z;
  next_pid : Z;
  total_tasks : Z;
  task_pid1 : Z;
  log : list event;
}.

Definition set_tasks (m : gmap Z task) (s : sched) : sched :=
  {| tasks := m; tlist := tlist s; dead := dead s; next_pid := next_pid s; total_tasks := total_tasks s;
     task_pid1 := task_pid1 s; log := log s |}.

Definition set_lists (l d : list Z) (s : sched) : sched :=
  {| tasks := tasks s; tlist := l; dead := d; next_pid := next_pid s; total_tasks := total_tasks s;
     task_pid1 := task_pid1 s; log := log s |}.

Definition set_counts (n total : Z) (s : sched) : sched :=
  {| tasks := tasks s; tlist := tlist s; dead := dead s; next_pid := n; total_tasks := total;
     task_pid1 := task_pid1 s; log := log s |}.

Definition emit (e : list event) (s : sched) : sched :=
  {| tasks := tasks s; tlist := tlist s; dead := dead s; next_pid := next_pid s; total_tasks := total_tasks s;
     task_pid1 := task_pid1 s; log := log s ++ e |}.

Definition task_at (s : sched) (t : Z) : outcome task :=
  match tasks s !! t with Some x => Done x | None => Fault end.

Definition task_upd (s : sched) (t : Z) (f : task -> task) : outcome sched :=
  match tasks s !! t with Some x => Done (set_tasks (<[t := f x]> (tasks s)) s) | None => Fault end.

(** * Waking *)

Definition wake (t : task) : task :=
  if bool_decide (state t = TASK_SLEEPING) || bool_decide (state t = TASK_INTR_SLEEPING) then set_state TASK_RUNNING t else t.

Definition intr_wake (t : task) : task :=
  if bool_decide (state t = TASK_INTR_SLEEPING) then set_state TASK_RUNNING t else t.

Definition scheduler_task_wake (s : sched) (t : Z) : outcome sched := task_upd s t wake.

(** * The task lists *)

(** A [pid_t] is a signed 32-bit integer: the counter wraps around. *)
Definition scheduler_next_pid (s : sched) : Z * sched := (next_pid s, set_counts (i32 (next_pid s + 1)) (total_tasks s) s).

Definition scheduler_task_add (s : sched) (t : Z) : sched := set_lists (tlist s ++ [t]) (dead s) s.

Definition scheduler_task_remove (s : sched) (t : Z) : sched := set_lists (filter (fun x => x <> t) (tlist s)) (dead s) s.

Definition scheduler_task_mark_dead (s : sched) (t : Z) : outcome sched :=
  s ← task_upd s t (set_state TASK_DEAD);
  Done (set_lists (filter (fun x => x <> t) (tlist s)) (t :: dead s) s).

(** The first task of [l] with this pid. *)
Fixpoint find_pid (s : sched) (p : Z) (l : list Z) : outcome (option Z) :=
  match l with
  | [] => Done None
  | t :: l' => x ← task_at s t; if pid x =? p then Done (Some t) else find_pid s p l'
  end.

Definition scheduler_task_exists (s : sched) (p : Z) : outcome Z :=
  r ← find_pid s p (tlist s); Done (match r with Some _ => 0 | None => - ESRCH end).

Definition scheduler_task_get (s : sched) (p : Z) : outcome (option Z) := find_pid s p (tlist s).

Fixpoint clear_sid_tty (s : sched) (y sid : Z) (l : list Z) : outcome sched :=
  match l with
  | [] => Done s
  | t :: l' =>
      s ← task_upd s t (fun x => if (session_id x =? sid) && (tty x =? y) then set_tty 0 x else x);
      clear_sid_tty s y sid l'
  end.

Definition scheduler_task_clear_sid_tty (s : sched) (y sid : Z) : outcome sched := clear_sid_tty s y sid (tlist s).

(** * Signals to tasks *)

Definition NSIG : Z := 32.
Definition SIGKILL : Z := 9.
Definition SIGCHLD : Z := 17.
Definition SIGCONT : Z := 18.
Definition SIGSTOP : Z := 19.
Definition SIGTSTP : Z := 20.
Definition SIGTTIN : Z := 21.
Definition SIGTTOU : Z := 22.
Definition SIGWINCH : Z := 28.
Definition TASK_SIGNAL_STOP : Z := 0x100.
Definition TASK_SIGNAL_CONT : Z := 0x200.

Definition SIGSET_SET (set sig : Z) : Z := Z.setbit set (sig - 1).
Definition SIGSET_UNSET (set sig : Z) : Z := Z.clearbit set (sig - 1).

Definition is_stop (signal : Z) : bool :=
  (signal =? SIGSTOP) || (signal =? SIGTSTP) || (signal =? SIGTTOU) || (signal =? SIGTTIN).

(** What [send_sig] does to the task itself. *)
Definition post_signal (signal : Z) (force : bool) (x : task) : task :=
  let x :=
    if signal =? SIGCONT then
      let x := if bool_decide (state x = TASK_STOPPED) then set_state TASK_RUNNING (set_ret_signal TASK_SIGNAL_CONT x) else x in
      set_pending (SIGSET_UNSET (SIGSET_UNSET (SIGSET_UNSET (SIGSET_UNSET (sig_pending x) SIGSTOP) SIGTSTP) SIGTTOU) SIGTTIN) x
    else x in
  let x := if is_stop signal then set_pending (SIGSET_UNSET (sig_pending x) SIGCONT) x else x in
  let x := if (signal =? SIGKILL) && bool_decide (state x = TASK_STOPPED) then set_state TASK_RUNNING x else x in
  let x := set_pending (SIGSET_SET (sig_pending x) signal) x in
  let x := if force then set_blocked (SIGSET_UNSET (sig_blocked x) signal) x else x in
  intr_wake x.

Definition send_sig (s : sched) (t signal : Z) (force : bool) : outcome sched :=
  x ← task_at s t;
  let notify_parent := (signal =? SIGCONT) && bool_decide (state x = TASK_STOPPED) in
  s ← task_upd s t (post_signal signal force);
  match parent x with
  | Some p => if notify_parent then scheduler_task_wake s p else Done s
  | None => Done s
  end.

Fixpoint send_to (s : sched) (p signal : Z) (force : bool) (l : list Z) (ret : Z) : outcome (Z * sched) :=
  match l with
  | [] => Done (ret, s)
  | t :: l' =>
      x ← task_at s t;
      if (0 <? p) && (pid x =? p) then s ← send_sig s t signal force; Done (0, s)
      else if (p <? 0) && (pgid x =? - p) then s ← send_sig s t signal force; send_to s p signal force l' 0
      else send_to s p signal force l' ret
  end.

Definition scheduler_task_send_signal (s : sched) (p signal : Z) (force : bool) : outcome (Z * sched) :=
  if (signal <? 1) || (NSIG <? signal) then Done (- EINVAL, s) else send_to s p signal force (tlist s) (- ESRCH).

(** * Creating tasks *)

Definition NOFILE : Z := 32.
Definition CONFIG_TASK_MAX : Z := 4000.

(** [task_init]: a cleared task with a new pid, ready to run. *)
Definition task_init (p : Z) : task :=
  {| pid := p; pgid := 0; session_id := 0; state := TASK_RUNNING; tty := 0; preempted := false; running := false;
     is_kernel := false; killed := false; session_leader := false; ret_code := 0; ret_signal := 0; parent := None;
     task_children := []; files := replicate (Z.to_nat NOFILE) 0; cwd := 0; umask := 0; close_on_exec := 0;
     sig_pending := 0; sig_blocked := 0;
     sig_actions := replicate (Z.to_nat NSIG) {| sa_handler := 0; sa_mask := 0; sa_flags := 0 |};
     creds := credentials_init; prev_syscall := 0; frame := {| regs := replicate 16 0; eax := 0; eip := 0; esp := 0 |} |}.

(** [new] is what [kmalloc] returns. *)
Definition task_new (s : sched) (new : option Z) : option Z * sched :=
  if CONFIG_TASK_MAX <=? total_tasks s then (None, s)
  else
    let s := set_counts (next_pid s) (total_tasks s + 1) s in
    match new with
    | None => (None, s)
    | Some t => let '(p, s) := scheduler_next_pid s in (Some t, set_tasks (<[t := task_init p]> (tasks s)) s)
    end.

Definition set_kernel (x : task) : task :=
  {| pid := pid x; pgid := pgid x; session_id := session_id x; state := state x; tty := tty x; preempted := preempted x;
     running := running x; is_kernel := true; killed := killed x; session_leader := session_leader x; ret_code := ret_code x;
     ret_signal := ret_signal x; parent := parent x; task_children := task_children x; files := files x; cwd := cwd x;
     umask := umask x; close_on_exec := close_on_exec x; sig_pending := sig_pending x; sig_blocked := sig_blocked x;
     sig_actions := sig_actions x; creds := creds x; prev_syscall := prev_syscall x; frame := frame x |}.

Definition task_kernel_new (s : sched) (new : option Z) : outcome (option Z * sched) :=
  match task_new s new with
  | (None, s) => Done (None, s)
  | (Some t, s) =>
      s ← task_upd s t set_kernel;
      Done (Some t, s)
  end.

(** What [task_fork] gives the new task [n] of its parent [x] at [t]. *)
Definition fork_copy (t : Z) (x n : task) : task :=
  {| pid := pid n; pgid := pgid x; session_id := session_id x; state := state n; tty := tty x; preempted := preempted n;
     running := running n; is_kernel := is_kernel n; killed := killed n; session_leader := session_leader n;
     ret_code := ret_code n; ret_signal := ret_signal n; parent := Some t; task_children := task_children n;
     files := files x; cwd := cwd x; umask := umask x; close_on_exec := close_on_exec x;
     sig_pending := sig_pending n; sig_blocked := sig_blocked x; sig_actions := sig_actions n; creds := creds x;
     prev_syscall := prev_syscall n; frame := frame x |}.

Definition task_fork (s : sched) (t : Z) (new : option Z) : outcome (option Z * sched) :=
  match task_new s new with
  | (None, s) => Done (None, s)
  | (Some n, s) =>
      x ← task_at s t;
      s ← task_upd s n (fork_copy t x);
      Done (Some n, emit (InodeDup (cwd x) :: (FileDup <$> filter (fun f => f <> 0) (files x))) s)
  end.

Definition fork_pgid (pgrp : Z) (n : task) : task :=
  if pgrp =? 0 then set_pgid (pid n) n else if 0 <? pgrp then set_pgid pgrp n else n.

(** [__fork] *)
Definition do_fork (s : sched) (t pgrp : Z) (new : option Z) : outcome (Z * sched) :=
  '(n, s) ← task_fork s t new;
  match n with
  | None => Done (-1, s)
  | Some n =>
      s ← task_upd s n (fork_pgid pgrp);
      s ← task_upd s t (fun x => set_children (n :: task_children x) x);
      s ← task_upd s n (fun y => set_frame {| regs := regs (frame y); eax := 0; eip := eip (frame y); esp := esp (frame y) |} y);
      let s := scheduler_task_add s n in
      y ← task_at s n;
      Done (pid y, s)
  end.

Definition sys_fork (s : sched) (t : Z) (new : option Z) : outcome (Z * sched) := do_fork s t (-1) new.
Definition sys_fork_pgrp (s : sched) (t pgrp : Z) (new : option Z) : outcome (Z * sched) := do_fork s t pgrp new.

(** * Ending tasks *)

(** Each child of [t] goes to init. *)
Fixpoint reparent (s : sched) (t : Z) (cs : list Z) : outcome sched :=
  match cs with
  | [] => Done s
  | c :: cs' =>
      s ← task_upd s t (set_children cs');
      s ← task_upd s c (set_parent (Some (task_pid1 s)));
      s ← task_upd s (task_pid1 s) (fun i => set_children (c :: task_children i) i);
      x ← task_at s c;
      s ← (if bool_decide (state x = TASK_ZOMBIE)
           then '(_, s) ← scheduler_task_send_signal s 1 SIGCHLD false; Done s else Done s);
      reparent s t cs'
  end.

Definition task_make_zombie (s : sched) (t : Z) : outcome sched :=
  s ← task_upd s t (set_killed true);
  x ← task_at s t;
  s ← (if session_leader x && negb (tty x =? 0) then
         s ← scheduler_task_clear_sid_tty s (tty x) (session_id x); Done (emit [TtyDetach (tty x)] s)
       else Done s);
  x ← task_at s t;
  s ← reparent s t (task_children x);
  let s := emit (FileClose <$> filter (fun f => f <> 0) (files x)) s in
  let s := if negb (cwd x =? 0) then emit [InodePut (cwd x)] s else s in
  let s := if negb (is_kernel x) then emit [AddressSpaceClear t] s else s in
  s ← task_upd s t (set_state TASK_ZOMBIE);
  x ← task_at s t;
  match parent x with
  | Some p => y ← task_at s p; '(_, s) ← scheduler_task_send_signal s (pid y) SIGCHLD false; Done s
  | None => Done s
  end.

(** The task then yields, and is not run again. *)
Definition sys_exit (s : sched) (t code : Z) : outcome sched :=
  s ← task_upd s t (set_ret_code code);
  x ← task_at s t;
  if pid x =? 1 then Panic
  else
    s ← task_make_zombie s t;
    x ← task_at s t;
    s ← match parent x with Some p => scheduler_task_wake s p | None => Done s end;
    if is_kernel x then scheduler_task_mark_dead s t else Done s.

Definition task_free (s : sched) (t : Z) : outcome sched :=
  let s := set_counts (next_pid s) (total_tasks s - 1) s in
  x ← task_at s t;
  s ← (if negb (killed x) then task_make_zombie s t else Done s);
  Done (emit [TaskFree t] (set_tasks (delete t (tasks s)) s)).

(** * Reaping *)

Definition WNOHANG : Z := 1.
Definition WUNTRACED : Z := 2.
Definition WCONTINUED : Z := 8.

Definition WCONTINUED_MAKE : Z := 0xFFFF.
Definition WEXIT_MAKE (ret : Z) : Z := i32 (Z.lor (Z.shiftl ret 8) 0).
Definition WSIGNALED_MAKE (sig : Z) : Z := sig.
Definition WSTOPPED_MAKE (sig : Z) : Z := Z.lor (Z.shiftl sig 8) 0x7F.

Definition WIFEXITED (status : Z) : bool := Z.land status 0xFF =? 0.
Definition WIFSIGNALED (status : Z) : bool := (0 <? Z.land status 0x7F) && (Z.land status 0x7F <? 0x7F).
Definition WIFSTOPPED (status : Z) : bool := Z.land status 0xFF =? 0x7F.
Definition WEXITSTATUS (status : Z) : Z := Z.land (Z.shiftr status 8) 0xFF.
Definition WTERMSIG (status : Z) : Z := Z.land status 0x7F.

(** Whether [sys_waitpid] looks at this child. *)
Definition wait_matches (childpid mygroup : Z) (x : task) : bool :=
  if childpid =? 0 then pgid x =? mygroup
  else if 0 <? childpid then pid x =? childpid
  else if childpid <? -1 then pgid x =? - childpid
  else true.

Definition exit_status (x : task) : Z :=
  if negb (ret_signal x =? 0) then WSIGNALED_MAKE (ret_signal x) else WEXIT_MAKE (ret_code x).

(** The loop over the children: the one found, its status and whether it is to be
    removed. *)
Fixpoint wait_scan (s : sched) (t childpid mygroup options : Z) (cs : list Z) : outcome (option (Z * Z * bool) * sched) :=
  match cs with
  | [] => Done (None, s)
  | c :: cs' =>
      x ← task_at s c;
      if negb (wait_matches childpid mygroup x) then wait_scan s t childpid mygroup options cs'
      else if bool_decide (state x = TASK_ZOMBIE) then
        s ← task_upd s t (fun y => set_children (filter (fun z => z <> c) (task_children y)) y);
        Done (Some (c, exit_status x, true), s)
      else if (Z.land options WUNTRACED =? 0) && (Z.land options WCONTINUED =? 0) then
        wait_scan s t childpid mygroup options cs'
      else if negb (Z.land (ret_signal x) TASK_SIGNAL_CONT =? 0) && negb (Z.land options WCONTINUED =? 0) then
        s ← task_upd s c (set_ret_signal 0); Done (Some (c, WCONTINUED_MAKE, false), s)
      else if negb (Z.land (ret_signal x) TASK_SIGNAL_STOP =? 0) && negb (Z.land options WUNTRACED =? 0) then
        let status := Z.land (ret_signal x) (Z.lnot TASK_SIGNAL_STOP) in
        s ← task_upd s c (set_ret_signal 0); Done (Some (c, WSTOPPED_MAKE status, false), s)
      else wait_scan s t childpid mygroup options cs'
  end.

(** What the others do each time the task is not running. *)
Definition env : Type := list (sched -> sched).

Inductive waited : Type :=
| WaitReturned (ret : Z) (m : gmap Z Z) (s : sched)
| WaitAsleep (s : sched).

Definition has_pending_signal (x : task) : bool := negb (Z.land (sig_pending x) (Z.lnot (sig_blocked x)) =? 0).

Fixpoint sys_waitpid (os : env) (m : gmap Z Z) (s : sched) (t childpid : Z) (wstatus : user_buffer) (options : Z)
  : outcome waited :=
  s ← task_upd s t (set_state TASK_INTR_SLEEPING);
  me ← task_at s t;
  '(found, s) ← wait_scan s t childpid (pgid me) options (task_children me);
  match found, task_children me with
  | None, _ :: _ =>
      if Z.land options WNOHANG =? 0 then
        match os with
        | [] => Done (WaitAsleep s)
        | f :: os' =>
            let s := f s in
            me ← task_at s t;
            if has_pending_signal me then Done (WaitReturned (- 512) m s)
            else sys_waitpid os' m s t childpid wstatus options
        end
      else s ← task_upd s t (set_state TASK_RUNNING); Done (WaitReturned 0 m s)
  | None, [] =>
      s ← task_upd s t (set_state TASK_RUNNING);
      Done (WaitReturned (if Z.land options WNOHANG =? 0 then - ECHILD else 0) m s)
  | Some (c, status, kill), _ =>
      s ← task_upd s t (set_state TASK_RUNNING);
      x ← task_at s c;
      s ← (if (kill : bool) then scheduler_task_mark_dead s c else Done s);
      if negb (ptr wstatus =? 0) then
        let '(ret, m) := user_copy_from_kernel m wstatus status in
        if negb (ret =? 0) then Done (WaitReturned ret m s) else Done (WaitReturned (pid x) m s)
      else Done (WaitReturned (pid x) m s)
  end.

Definition sys_wait (os : env) (m : gmap Z Z) (s : sched) (t : Z) (ret : user_buffer) : outcome waited :=
  sys_waitpid os m s t (-1) ret 0.

(** * The scheduler's loop *)

(** The tasks freed before one is chosen. *)
Fixpoint free_dead (s : sched) (l : list Z) : outcome sched :=
  match l with
  | [] => Done s
  | t :: l' => s ← task_free (set_lists (tlist s) l' s) t; free_dead s l'
  end.

(** The first task of [l] that was preempted or is runnable. *)
Fixpoint find_runnable (s : sched) (l : list Z) : outcome (option Z) :=
  match l with
  | [] => Done None
  | t :: l' =>
      x ← task_at s t;
      if preempted x || bool_decide (state x = TASK_RUNNING) then Done (Some t) else find_runnable s l'
  end.

(** [list_new_last]: the tasks up to [t] go behind the others. *)
Fixpoint rotate_after (t : Z) (l before : list Z) : list Z :=
  match l with
  | [] => before
  | x :: l' => if x =? t then l' ++ before ++ [x] else rotate_after t l' (before ++ [x])
  end.

(** A turn of the loop up to [task_switch]: the task that runs next, [None] for
    the idle task. *)
Definition schedule (s : sched) : outcome (option Z * sched) :=
  s ← free_dead s (dead s);
  r ← find_runnable s (tlist s);
  match r with
  | None => Done (None, s)
  | Some t =>
      s ← task_upd s t (fun x => set_running true (set_preempted false x));
      Done (Some t, set_lists (rotate_after t (tlist s) []) (dead s) s)
  end.

(** The rest of the turn, when the task has switched back. *)
Definition schedule_end (s : sched) (t : Z) : outcome sched := task_upd s t (set_running false).

Definition scheduler_task_yield_preempt (s : sched) (t : Z) : outcome sched := task_upd s t (set_preempted true).

(** * Groups and sessions *)

Definition sys_setpgid (s : sched) (t p pg : Z) : outcome (Z * sched) :=
  if negb (p =? 0) then
    r ← scheduler_task_get s p;
    match r with
    | None => Done (- ESRCH, s)
    | Some t' => s ← task_upd s t' (set_pgid (if pg =? 0 then p else pg)); Done (0, s)
    end
  else
    x ← task_at s t;
    s ← task_upd s t (set_pgid (if pg =? 0 then pid x else pg));
    Done (0, s).

Definition sys_setsid (s : sched) (t : Z) : outcome (Z * sched) :=
  x ← task_at s t;
  if session_leader x || (pid x =? pgid x) then Done (- EPERM, s)
  else s ← task_upd s t set_leader; Done (pid x, s).

(** A pid that no task has is a null pointer. *)
Definition sys_getsid (s : sched) (t p : Z) : outcome Z :=
  me ← task_at s t;
  if p =? 0 then Done (session_id me)
  else if p <? 0 then Done (- ESRCH)
  else
    r ← scheduler_task_get s p;
    match r with
    | None => Fault
    | Some t' => x ← task_at s t'; Done (if negb (session_id x =? session_id me) then - EPERM else session_id x)
    end.

Definition sys_getppid (s : sched) (t : Z) : outcome Z :=
  x ← task_at s t;
  match parent x with Some p => y ← task_at s p; Done (pid y) | None => Done (-1) end.

(** * File descriptors

    An entry is 0 when free, -1 while it is reserved, or the file. *)

Fixpoint first_free (l : list Z) (i : Z) : Z :=
  match l with [] => -1 | f :: l' => if f =? 0 then i else first_free l' (i + 1) end.

Definition task_fd_get_empty (l : list Z) : Z * list Z :=
  let i := first_free l 0 in (i, if i =? -1 then l else <[Z.to_nat i := -1]> l).

Definition task_fd_assign_empty (l : list Z) (filp : Z) : Z * list Z :=
  let i := first_free l 0 in (i, if i =? -1 then l else <[Z.to_nat i := filp]> l).

Definition task_fd_release (l : list Z) (fd : Z) : outcome (list Z) := arr_set l fd 0.

Definition task_fd_get (l : list Z) (fd : Z) : outcome Z := f ← arr_get l fd; Done (if f =? -1 then 0 else f).

(** The error, or 0 and the file. *)
Definition task_fd_get_checked (l : list Z) (fd : Z) : outcome (Z * Z) :=
  if (NOFILE <? fd) || (fd <? 0) then Done (- EBADF, 0)
  else f ← task_fd_get l fd; Done (if f =? 0 then (- EBADF, 0) else (0, f)).

Definition sys_dup (s : sched) (t oldfd : Z) : outcome (Z * sched) :=
  x ← task_at s t;
  _ ← task_fd_get (files x) oldfd;
  '(ret, filp) ← task_fd_get_checked (files x) oldfd;
  if negb (ret =? 0) then Done (ret, s)
  else
    let '(newfd, l) := task_fd_get_empty (files x) in
    l ← arr_set l newfd filp;
    s ← task_upd s t (fun x => set_close_on_exec (Z.clearbit (close_on_exec x) newfd) (set_files l x));
    Done (newfd, emit [FileDup filp] s).

Definition sys_dup2 (s : sched) (t oldfd newfd : Z) : outcome (Z * sched) :=
  x ← task_at s t;
  '(ret, old) ← task_fd_get_checked (files x) oldfd;
  if negb (ret =? 0) then Done (ret, s)
  else if (NOFILE <? newfd) || (newfd <? 0) then Done (- EBADF, s)
  else
    f ← task_fd_get (files x) newfd;
    let s := if negb (f =? 0) then emit [FileClose f] s else s in
    l ← arr_set (files x) newfd old;
    s ← task_upd s t (fun x => set_close_on_exec (Z.clearbit (close_on_exec x) newfd) (set_files l x));
    Done (newfd, emit [FileDup old] s).

(** * Starting up (src/init/init.c) *)

Definition ktasks : sched :=
  {| tasks := ∅; tlist := []; dead := []; next_pid := 1; total_tasks := 0; task_pid1 := 0; log := [] |}.

Definition set_init (root : Z) (x : task) : task :=
  {| pid := 1; pgid := pgid x; session_id := session_id x; state := state x; tty := tty x; preempted := preempted x;
     running := running x; is_kernel := is_kernel x; killed := killed x; session_leader := session_leader x; ret_code := ret_code x;
     ret_signal := ret_signal x; parent := parent x; task_children := task_children x; files := files x; cwd := root;
     umask := umask x; close_on_exec := close_on_exec x; sig_pending := sig_pending x; sig_blocked := sig_blocked x;
     sig_actions := sig_actions x; creds := creds x; prev_syscall := prev_syscall x; frame := frame x |}.

Definition set_pid1 (t : Z) (s : sched) : sched :=
  {| tasks := tasks s; tlist := tlist s; dead := dead s; next_pid := next_pid s; total_tasks := total_tasks s; task_pid1 := t; log := log s |}.

(** The idle task has the first pid and is in no list; the task at [t] goes on with
    [start_user_init]. *)
Definition kmain (s : sched) (t : Z) : sched :=
  let '(_, s) := scheduler_next_pid s in
  let '(p, s) := scheduler_next_pid s in
  scheduler_task_add (set_tasks (<[t := set_kernel (task_init p)]> (tasks s)) s) t.

(** The threads that the initcalls start. *)
Fixpoint initcall_threads (s : sched) (ks : list Z) : outcome sched :=
  match ks with
  | [] => Done s
  | k :: ks' =>
      '(r, s) ← task_kernel_new s (Some k);
      match r with Some n => initcall_threads (scheduler_task_add s n) ks' | None => Fault end
  end.

Definition start_user_init (s : sched) (ks : list Z) (new : option Z) (root : Z) : outcome sched :=
  s ← initcall_threads s ks;
  match task_new s new with
  | (None, _) => Fault
  | (Some t, s) => s ← task_upd s t (set_init root); Done (scheduler_task_add (set_pid1 t (emit [InodeDup root] s)) t)
  end.

Lemma task_upd_done s t f x : tasks s !! t = Some x -> task_upd s t f = Done (set_tasks (<[t := f x]> (tasks s)) s).
Proof. intros E. unfold task_upd. by rewrite E. Qed.

Lemma task_at_done s t x : tasks s !! t = Some x -> task_at s t = Done x.
Proof. intros E. unfold task_at. by rewrite E. Qed.
