(* ===== verification/TaskTree.v ===== *)
(** The process tree: what the tasks of Task.v are to each other, as an abstract
    structure with the operations fork, exit, reap and free on it, and the
    invariant they keep.  TaskProps.v shows that Task.v implements them. *)
From stdpp Require Import base numbers list gmap.
From Stdlib Require Import ZArith ZifyBool Lia.
From S2P Require Import Prelude.
Open Scope Z_scope.

(** * The abstract tree *)

Inductive life : Type := Live | Zombie | Dead.

Record pnode : Type := {
  n_pid : Z;
  n_parent : option Z;
  n_children : list Z;
  n_killed : bool;
  n_kernel : bool;
  n_life : life;
}.

Record tree : Type := { nodes : gmap Z pnode; listed : list Z; gone : list Z; fresh_pid : Z; init : Z }.

Definition with_nodes (m : gmap Z pnode) (T : tree) : tree :=
  {| nodes := m; listed := listed T; gone := gone T; fresh_pid := fresh_pid T; init := init T |}.

Definition n_set_children (l : list Z) (n : pnode) : pnode :=
  {| n_pid := n_pid n; n_parent := n_parent n; n_children := l; n_killed := n_killed n; n_kernel := n_kernel n; n_life := n_life n |}.

Definition n_set_parent (p : option Z) (n : pnode) : pnode :=
  {| n_pid := n_pid n; n_parent := p; n_children := n_children n; n_killed := n_killed n; n_kernel := n_kernel n; n_life := n_life n |}.

Definition n_set_life (killed : bool) (l : life) (n : pnode) : pnode :=
  {| n_pid := n_pid n; n_parent := n_parent n; n_children := n_children n; n_killed := killed; n_kernel := n_kernel n; n_life := l |}.

(** The invariant.  Every listed task with a parent is a child of a live task, so
    that somebody can reap it; init is live; parents have a smaller rank than their
    children, so that following the parents leads to a task without one.  The last
    three clauses are about the pids.  They are part of the invariant when [b]
    holds: they are true until the 32-bit counter of pids wraps around. *)
Record tree_inv (b : Prop) (T : tree) : Prop := {
  ok_lists : NoDup (listed T ++ gone T);
  ok_nodes : forall t, is_Some (nodes T !! t) <-> t ∈ listed T ++ gone T;
  ok_init : exists x, nodes T !! init T = Some x /\ n_pid x = 1 /\ n_parent x = None /\ n_life x = Live;
  ok_gone : forall t x, nodes T !! t = Some x -> t ∈ gone T <-> n_life x = Dead;
  ok_killed : forall t x, nodes T !! t = Some x -> n_life x <> Live -> n_killed x = true /\ n_children x = [];
  ok_parent : forall t x p, nodes T !! t = Some x -> t ∈ listed T -> n_parent x = Some p ->
    exists y, nodes T !! p = Some y /\ n_life y = Live /\ t ∈ n_children y;
  ok_children : forall p y c, nodes T !! p = Some y -> c ∈ n_children y ->
    exists x, nodes T !! c = Some x /\ n_parent x = Some p /\ c ∈ listed T;
  ok_distinct : forall p y, nodes T !! p = Some y -> NoDup (n_children y);
  ok_kernel : forall t x, nodes T !! t = Some x -> n_kernel x = true -> n_parent x = None;
  ok_rank : exists rank : Z -> nat, forall t x p, nodes T !! t = Some x -> t ∈ listed T -> n_parent x = Some p -> (rank p < rank t)%nat;
  ok_pids : b -> forall t t' x x', nodes T !! t = Some x -> nodes T !! t' = Some x' -> n_pid x = n_pid x' -> t = t';
  ok_fresh : b -> forall t x, nodes T !! t = Some x -> 0 < n_pid x < fresh_pid T;
  ok_order : b -> forall t x p y, nodes T !! t = Some x -> t ∈ listed T -> n_parent x = Some p -> nodes T !! p = Some y -> n_pid y < n_pid x;
}.

Arguments ok_lists {b} T _.
Arguments ok_nodes {b} T _.
Arguments ok_init {b} T _.
Arguments ok_gone {b} T _.
Arguments ok_killed {b} T _.
Arguments ok_parent {b} T _.
Arguments ok_children {b} T _.
Arguments ok_distinct {b} T _.
Arguments ok_kernel {b} T _.
Arguments ok_rank {b} T _.
Arguments ok_pids {b} T _.
Arguments ok_fresh {b} T _.
Arguments ok_order {b} T _.

(** The whole invariant, and the part that does not depend on the pids. *)
Abbreviation tree_ok := (tree_inv True).
Abbreviation tree_shape := (tree_inv False).

(** A new task [c]: a child of [po], or a task of the kernel without a parent. *)
Definition tree_new (po : option Z) (kernel : bool) (c : Z) (T : tree) : tree :=
  {| nodes := <[c := {| n_pid := fresh_pid T; n_parent := po; n_children := []; n_killed := false; n_kernel := kernel;
                        n_life := Live |}]>
              (match po with Some t => alter (fun x => n_set_children (c :: n_children x) x) t (nodes T) | None => nodes T end);
     listed := listed T ++ [c]; gone := gone T; fresh_pid := i32 (fresh_pid T + 1); init := init T |}.

(** One child [c] of [t], the first, goes to init. *)
Definition tree_adopt (t c : Z) (T : tree) : tree :=
  with_nodes
    (alter (fun x => n_set_children (c :: n_children x) x) (init T)
      (alter (n_set_parent (Some (init T))) c
        (alter (fun x => n_set_children (tail (n_children x)) x) t (nodes T)))) T.

Definition tree_adopt_all (t : Z) (cs : list Z) (T : tree) : tree := foldl (fun T c => tree_adopt t c T) T cs.

Definition tree_life (t : Z) (killed : bool) (l : life) (T : tree) : tree :=
  with_nodes (alter (n_set_life killed l) t (nodes T)) T.

(** [t] leaves the list of tasks. *)
Definition tree_die (t : Z) (T : tree) : tree :=
  {| nodes := alter (fun x => n_set_life (n_killed x) Dead x) t (nodes T);
     listed := filter (fun x => x <> t) (listed T); gone := t :: gone T; fresh_pid := fresh_pid T; init := init T |}.

Definition tree_children (t : Z) (T : tree) : list Z := match nodes T !! t with Some x => n_children x | None => [] end.

(** [t] ends: its children go to init, it becomes a zombie; nobody waits for a task
    of the kernel, which leaves at once. *)
Definition tree_zombie (t : Z) (T : tree) : tree :=
  tree_life t true Zombie (tree_adopt_all t (tree_children t T) (tree_life t true Live T)).

Definition tree_exit (t : Z) (T : tree) : tree :=
  match nodes T !! t with
  | Some x => if n_kernel x then tree_die t (tree_zombie t T) else tree_zombie t T
  | None => T
  end.

(** [t] reaps its child [c]. *)
Definition tree_reap (t c : Z) (T : tree) : tree :=
  tree_die c (with_nodes (alter (fun x => n_set_children (filter (fun z => z <> c) (n_children x)) x) t (nodes T)) T).

(** The first of the dead tasks is freed. *)
Definition tree_free (T : tree) : tree :=
  match gone T with
  | [] => T
  | t :: g => {| nodes := delete t (nodes T); listed := listed T; gone := g; fresh_pid := fresh_pid T; init := init T |}
  end.

Definition tree_rotate (l : list Z) (T : tree) : tree :=
  {| nodes := nodes T; listed := l; gone := gone T; fresh_pid := fresh_pid T; init := init T |}.

(** * The invariant is preserved *)

Lemma inv_weaken (b b' : Prop) T : (b' -> b) -> tree_inv b T -> tree_inv b' T.
Proof. intros Hb H. split; try apply H; intros Hb'; apply Hb in Hb'; revert Hb'; apply H. Qed.

Lemma inv_shape b T : tree_inv b T -> tree_shape T.
Proof. by apply inv_weaken. Qed.

Section Preserved.
Context {b : Prop}.

Lemma ok_self T t x : tree_inv b T -> nodes T !! t = Some x -> t ∈ listed T -> n_parent x <> Some t.
Proof. intros H E Hl Hp. destruct (ok_rank T H) as [rank Hr]. specialize (Hr t x t E Hl Hp). lia. Qed.

Lemma ok_listed T t x : tree_inv b T -> nodes T !! t = Some x -> n_life x <> Dead -> t ∈ listed T.
Proof.
  intros H E Hd. assert (Ht : t ∈ listed T ++ gone T) by (apply (ok_nodes T H); eauto).
  apply elem_of_app in Ht as [|Ht]; [done|]. exfalso. by apply Hd, (ok_gone T H t x E).
Qed.

Lemma ok_node T t : tree_inv b T -> t ∈ listed T -> exists x, nodes T !! t = Some x /\ n_life x <> Dead.
Proof.
  intros H Ht. destruct (proj2 (ok_nodes T H t)) as [x E]; [apply elem_of_app; auto|]. exists x. split; [done|].
  intros Hd. apply (ok_gone T H t x E) in Hd. pose proof (ok_lists T H) as Hn. apply NoDup_app in Hn as (_ & Hn & _).
  by apply (Hn t).
Qed.

Lemma tree_new_node T po kn c k y :
  nodes (tree_new po kn c T) !! k = Some y ->
  (k = c /\ y = {| n_pid := fresh_pid T; n_parent := po; n_children := []; n_killed := false; n_kernel := kn; n_life := Live |}) \/
  (k <> c /\ exists z, nodes T !! k = Some z /\ y = if decide (po = Some k) then n_set_children (c :: n_children z) z else z).
Proof.
  cbn [nodes tree_new]. rewrite lookup_insert_Some. intros [[<- <-]|[Hk Hy]]; [by left|]. right. split; [done|].
  destruct po as [t|]; [|by eauto].
  destruct (decide (k = t)) as [->|Hkt].
  - rewrite lookup_alter_eq in Hy. destruct (nodes T !! t) as [z|]; [|done]. injection Hy as <-.
    exists z. by rewrite decide_True.
  - rewrite lookup_alter_ne in Hy by done. exists y. rewrite decide_False by congruence. done.
Qed.

Lemma tree_new_kept T po kn c k z :
  nodes T !! c = None -> nodes T !! k = Some z ->
  nodes (tree_new po kn c T) !! k = Some (if decide (po = Some k) then n_set_children (c :: n_children z) z else z).
Proof.
  intros Hc Ez. cbn [nodes tree_new]. rewrite lookup_insert_ne by congruence. destruct po as [t|]; [|done].
  destruct (decide (k = t)) as [->|Hkt].
  - rewrite lookup_alter_eq, Ez, decide_True by done. done.
  - rewrite lookup_alter_ne, decide_False by congruence. done.
Qed.

(** The pid after that of a new task, as long as it does not wrap around. *)
Lemma new_pid T : b -> tree_inv b T -> fresh_pid T + 1 < 2 ^ 31 -> 0 < fresh_pid T /\ i32 (fresh_pid T + 1) = fresh_pid T + 1.
Proof. intros Hp H Hr. destruct (ok_init T H) as (z & Ez & _). pose proof (ok_fresh T H Hp _ z Ez). rewrite i32_small; lia. Qed.

Lemma tree_new_ok T po kn c :
  tree_inv b T -> nodes T !! c = None ->
  (forall t, po = Some t -> exists x, nodes T !! t = Some x /\ n_life x = Live) -> (kn = true -> po = None) ->
  (b -> fresh_pid T + 1 < 2 ^ 31) -> tree_inv b (tree_new po kn c T).
Proof.
  intros H Hc Hpo Hb Hroom.
  assert (Hf : b -> 0 < fresh_pid T /\ i32 (fresh_pid T + 1) = fresh_pid T + 1) by (intros; apply new_pid; auto).
  assert (Hcl : c ∉ listed T ++ gone T) by (intros Hin; apply (ok_nodes T H) in Hin as [? ?]; congruence).
  pose proof (tree_new_node T po kn c) as Hn. pose proof (fun k z => tree_new_kept T po kn c k z Hc) as Hkeep.
  split; cbn [listed gone fresh_pid init tree_new].
  - rewrite <- app_assoc, (Permutation_app_comm [c]), app_assoc, Permutation_app_comm. apply NoDup_cons. split; [done | apply H].
  - intros k. rewrite elem_of_app, elem_of_app, list_elem_of_singleton. pose proof (ok_nodes T H k) as Hk. rewrite elem_of_app in Hk. split.
    + intros [y [[-> _]|(_ & z & Ez & _)]%Hn]; [auto|]. destruct (proj1 Hk); eauto.
    + intros [[Hin| ->]|Hin].
      * destruct (proj2 Hk (or_introl Hin)) as [z Ez]. rewrite (Hkeep k z Ez). eauto.
      * cbn. rewrite lookup_insert_eq. eauto.
      * destruct (proj2 Hk (or_intror Hin)) as [z Ez]. rewrite (Hkeep k z Ez). eauto.
  - destruct (ok_init T H) as (z & Ez & ? & ? & ?). eexists. split; [by apply Hkeep|]. by case_decide.
  - intros k y [[-> ->]|(Hk & z & Ez & ->)]%Hn; simpl.
    + split; [|done]. intros Hg. exfalso. apply Hcl, elem_of_app. auto.
    + rewrite (ok_gone T H k z Ez). by case_decide.
  - intros k y [[-> ->]|(Hk & z & Ez & ->)]%Hn; [done|]. case_decide as Hd; [|by apply (ok_killed T H k)].
    destruct (Hpo k Hd) as (? & ? & ?). simplify_eq. simpl. congruence.
  - intros k y p Ey Hin Hp. apply Hn in Ey as [[-> ->]|(Hk & z & Ez & ->)].
    + destruct (Hpo p Hp) as (w & Ew & Hw). eexists. split; [by apply Hkeep|]. rewrite decide_True by done. simpl.
      rewrite elem_of_cons. auto.
    + assert (Hin' : k ∈ listed T) by (rewrite elem_of_app, list_elem_of_singleton in Hin; destruct Hin; done).
      destruct (ok_parent T H k z p Ez Hin') as (w & Ew & Hw & Hkw); [by case_decide|].
      eexists. split; [by apply Hkeep|]. destruct (decide (po = Some p)); simpl; [rewrite elem_of_cons|]; auto.
  - intros p y k Ey Hin. apply Hn in Ey as [[-> ->]|(Hk & z & Ez & ->)]; [by apply elem_of_nil in Hin|].
    assert (Hk' : (k = c /\ po = Some p) \/ k ∈ n_children z) by (case_decide; simpl in Hin; [apply elem_of_cons in Hin as [|]|]; auto).
    destruct Hk' as [[-> Hp]|Hk'].
    + eexists. split; [cbn; apply lookup_insert_eq|]. simpl. rewrite elem_of_app, list_elem_of_singleton. auto.
    + destruct (ok_children T H p z k Ez Hk') as (w & Ew & Hw & Hkl). eexists. split; [by apply Hkeep|].
      rewrite elem_of_app. split; [by destruct (decide (po = Some k)) | auto].
  - intros p y [[-> ->]|(Hk & z & Ez & ->)]%Hn; [constructor|]. pose proof (ok_distinct T H p z Ez). case_decide; [|done]. simpl.
    apply NoDup_cons. split; [|done]. intros Hin. destruct (ok_children T H p z c Ez Hin) as (w & ? & _). congruence.
  - intros k y [[-> ->]|(Hk & z & Ez & ->)]%Hn; [done|]. pose proof (ok_kernel T H k z Ez). by case_decide.
  - destruct (ok_rank T H) as [rank Hr]. exists (fun k => if decide (k = c) then match po with Some t => S (rank t) | None => O end else rank k).
    intros k y p Ey Hin Hp. apply Hn in Ey as [[-> ->]|(Hk & z & Ez & ->)].
    + destruct (Hpo p Hp) as (w & Ew & _). simpl in Hp. subst po. rewrite (decide_True (P := c = c)) by done. rewrite (decide_False (P := p = c)) by congruence. lia.
    + assert (Hin' : k ∈ listed T) by (rewrite elem_of_app, list_elem_of_singleton in Hin; destruct Hin; done).
      assert (Hp' : n_parent z = Some p) by (by case_decide). destruct (ok_parent T H k z p Ez Hin' Hp') as (v & Ev & _).
      rewrite (decide_False (P := p = c)), (decide_False (P := k = c)) by congruence. by apply (Hr k z).
  - intros Hb' k k' y y' Ey Ey' Hp. apply Hn in Ey, Ey'.
    destruct Ey as [[-> ->]|(Hk & z & Ez & ->)], Ey' as [[-> ->]|(Hk' & z' & Ez' & ->)]; [done | | |].
    + pose proof (ok_fresh T H Hb' k' z' Ez'). case_decide; simpl in Hp; lia.
    + pose proof (ok_fresh T H Hb' k z Ez). case_decide; simpl in Hp; lia.
    + apply (ok_pids T H Hb' k k' z z' Ez Ez'). by repeat case_decide.
  - intros Hb'. destruct (Hf Hb') as [Hf1 ->]. intros k y [[-> ->]|(Hk & z & Ez & ->)]%Hn; [simpl; lia|]. pose proof (ok_fresh T H Hb' k z Ez). case_decide; simpl; lia.
  - intros Hb'. assert (Hpid : forall k z, n_pid (if decide (po = Some k) then n_set_children (c :: n_children z) z else z) = n_pid z)
      by (intros; by case_decide).
    intros k y p w Ey Hin Hp Ew. apply Hn in Ey as [[-> ->]|(Hk & z & Ez & ->)].
    + destruct (Hpo p Hp) as (v & Ev & _). apply Hn in Ew as [[-> ->]|(_ & v' & Ev' & ->)]; [congruence|].
      rewrite Hpid. simpl. pose proof (ok_fresh T H Hb' p v' Ev'). lia.
    + assert (Hin' : k ∈ listed T) by (rewrite elem_of_app, list_elem_of_singleton in Hin; destruct Hin; done).
      assert (Hp' : n_parent z = Some p) by (by case_decide).
      destruct (ok_parent T H k z p Ez Hin' Hp') as (v & Ev & _). apply Hn in Ew as [[-> ->]|(_ & v' & Ev' & ->)]; [congruence|].
      rewrite !Hpid. by apply (ok_order T H Hb' k z p v').
Qed.

(** A tree with the same tasks, in the same states, keeps the first half of the
    invariant. *)
Lemma tree_edit_ok T (f : Z -> pnode -> pnode) T' :
  tree_inv b T -> listed T' = listed T -> gone T' = gone T -> fresh_pid T' = fresh_pid T -> init T' = init T ->
  (forall k, nodes T' !! k = f k <$> nodes T !! k) ->
  (forall k z, nodes T !! k = Some z -> n_pid (f k z) = n_pid z /\ (n_life (f k z) = Dead <-> n_life z = Dead)) ->
  (forall z, nodes T !! init T = Some z -> n_parent (f (init T) z) = n_parent z /\ n_life (f (init T) z) = n_life z) ->
  (forall k z, nodes T !! k = Some z -> n_life (f k z) <> Live -> n_killed (f k z) = true /\ n_children (f k z) = []) ->
  (forall k z p, nodes T !! k = Some z -> k ∈ listed T -> n_parent (f k z) = Some p ->
    exists y, nodes T !! p = Some y /\ n_life (f p y) = Live /\ k ∈ n_children (f p y)) ->
  (forall p y c, nodes T !! p = Some y -> c ∈ n_children (f p y) ->
    exists x, nodes T !! c = Some x /\ n_parent (f c x) = Some p /\ c ∈ listed T) ->
  (forall p y, nodes T !! p = Some y -> NoDup (n_children (f p y))) ->
  (forall k z, nodes T !! k = Some z -> n_kernel (f k z) = true -> n_parent (f k z) = None) ->
  (forall k z p, nodes T !! k = Some z -> k ∈ listed T -> n_parent (f k z) = Some p -> n_parent z = Some p \/ p = init T /\ k <> init T) ->
  tree_inv b T'.
Proof.
  intros H El Eg Ef Ei En Hk Hi Hd Hp Hc Hu Hke Ho.
  assert (Hn : forall k y, nodes T' !! k = Some y -> exists z, nodes T !! k = Some z /\ y = f k z).
  { intros k y. rewrite En, fmap_Some. done. }
  assert (Hkeep : forall k z, nodes T !! k = Some z -> nodes T' !! k = Some (f k z)) by (intros k z Ez; by rewrite En, Ez).
  split; rewrite ?El, ?Eg, ?Ef, ?Ei.
  - apply H.
  - intros k. rewrite En, fmap_is_Some. apply H.
  - destruct (ok_init T H) as (z & Ez & E1 & E2 & E3). exists (f (init T) z). destruct (Hi z Ez) as [-> ->].
    rewrite (proj1 (Hk _ z Ez)). auto.
  - intros k y (z & Ez & ->)%Hn. rewrite (proj2 (Hk k z Ez)). by apply (ok_gone T H k).
  - intros k y (z & Ez & ->)%Hn. by apply Hd.
  - intros k y p (z & Ez & ->)%Hn Hin Hpar. destruct (Hp k z p Ez Hin Hpar) as (w & Ew & ?). eauto.
  - intros p y c (z & Ez & ->)%Hn Hin. destruct (Hc p z c Ez Hin) as (w & Ew & ?). eauto.
  - intros p y (z & Ez & ->)%Hn. by apply Hu.
  - intros k y (z & Ez & ->)%Hn. by apply Hke.
  - destruct (ok_rank T H) as [rank Hr]. exists (fun k => if decide (k = init T) then O else S (rank k)).
    intros k y p (z & Ez & ->)%Hn Hin Hpar. destruct (Ho k z p Ez Hin Hpar) as [Hz|[-> Hki]].
    + specialize (Hr k z p Ez Hin Hz). destruct (ok_init T H) as (i & Ei' & _ & Hi2 & _).
      rewrite (decide_False (P := k = init T)) by (intros ->; congruence). case_decide; lia.
    + rewrite decide_True, decide_False by done. lia.
  - intros Hb k k' y y' (z & Ez & ->)%Hn (z' & Ez' & ->)%Hn He. apply (ok_pids T H Hb k k' z z' Ez Ez').
    by rewrite <- (proj1 (Hk k z Ez)), <- (proj1 (Hk k' z' Ez')).
  - intros Hb k y (z & Ez & ->)%Hn. rewrite (proj1 (Hk k z Ez)). by apply (ok_fresh T H Hb k).
  - intros Hb k y p w (z & Ez & ->)%Hn Hin Hpar (v & Ev & ->)%Hn. rewrite (proj1 (Hk k z Ez)), (proj1 (Hk p v Ev)).
    destruct (Ho k z p Ez Hin Hpar) as [Hz|[-> Hki]]; [by apply (ok_order T H Hb k z p v)|].
    destruct (ok_init T H) as (i & Ei' & Hi1 & _). assert (v = i) as -> by congruence. rewrite Hi1.
    pose proof (ok_fresh T H Hb k z Ez). assert (n_pid z <> 1); [|lia]. intros Hz. apply Hki, (ok_pids T H Hb k (init T) z i Ez Ei'). congruence.
Qed.

Lemma alter_as_fmap (f : pnode -> pnode) t (m : gmap Z pnode) k :
  alter f t m !! k = (fun z => if decide (k = t) then f z else z) <$> m !! k.
Proof.
  destruct (decide (k = t)) as [->|Hk].
  - by rewrite lookup_alter_eq.
  - rewrite lookup_alter_ne by done. by destruct (m !! k).
Qed.

(** The state of [t] may change, if it has no children when it is not live. *)
Lemma tree_life_ok T t x l :
  tree_inv b T -> nodes T !! t = Some x -> n_life x <> Dead -> l <> Dead ->
  (l = Live -> n_life x = Live) -> (l = Zombie -> n_children x = [] /\ t <> init T) -> tree_inv b (tree_life t true l T).
Proof.
  intros H E Hx Hl Hlive Hz.
  assert (Hcases : l = Live \/ l = Zombie) by (destruct l; auto; done).
  apply (tree_edit_ok T (fun k z => if decide (k = t) then n_set_life true l z else z)); try done.
  - intros k. apply alter_as_fmap.
  - intros k z Ez. case_decide as Hd; [|done]. subst k. simplify_eq. done.
  - intros z Ez. case_decide as Hd; [|done]. subst t. simplify_eq. destruct Hcases as [->| ->]; simpl; [|by destruct Hz].
    by rewrite Hlive.
  - intros k z Ez. case_decide as Hd; [|by apply (ok_killed T H k)]. subst k. simplify_eq. simpl. intros Hnl.
    destruct Hcases as [->| ->]; [done|]. by destruct Hz.
  - intros k z p Ez Hin Hp. destruct (ok_parent T H k z p Ez Hin) as (y & Ey & Hy & Hky); [by case_decide|].
    exists y. split; [done|]. destruct (decide (p = t)) as [->|]; [|done]. simplify_eq. simpl.
    destruct Hcases as [->| ->]; [done|]. destruct Hz as [Hz _]; [done|]. rewrite Hz in Hky. by apply elem_of_nil in Hky.
  - intros p y c Ey Hin. destruct (ok_children T H p y c Ey) as (w & Ew & Hw & Hcl); [by case_decide|].
    exists w. split; [done|]. by destruct (decide (c = t)).
  - intros p y Ey. pose proof (ok_distinct T H p y Ey). by case_decide.
  - intros k z Ez. pose proof (ok_kernel T H k z Ez). by case_decide.
  - intros k z p Ez Hin Hp. left. by case_decide.
Qed.

Lemma ok_unique_parent T p p' y y' c :
  tree_inv b T -> nodes T !! p = Some y -> nodes T !! p' = Some y' -> c ∈ n_children y -> c ∈ n_children y' -> p = p'.
Proof.
  intros H Ey Ey' Hc Hc'. destruct (ok_children T H p y c Ey Hc) as (w & Ew & Hw & _).
  destruct (ok_children T H p' y' c Ey' Hc') as (w' & Ew' & Hw' & _). congruence.
Qed.

Lemma ok_init_no_child T p y : tree_inv b T -> nodes T !! p = Some y -> init T ∉ n_children y.
Proof.
  intros H Ey Hin. destruct (ok_children T H p y _ Ey Hin) as (w & Ew & Hw & _).
  destruct (ok_init T H) as (z & Ez & _ & Hz & _). congruence.
Qed.

(** What [tree_adopt] does to each node. *)
Definition adopt_node (T : tree) (t c k : Z) (z : pnode) : pnode :=
  n_set_parent (if decide (k = c) then Some (init T) else n_parent z)
    (n_set_children (if decide (k = init T) then c :: n_children z else if decide (k = t) then tail (n_children z) else n_children z) z).

Lemma tree_adopt_nodes T t c k :
  t <> init T -> nodes (tree_adopt t c T) !! k = adopt_node T t c k <$> nodes T !! k.
Proof.
  intros Ht. cbn [nodes tree_adopt with_nodes]. rewrite !alter_as_fmap. destruct (nodes T !! k) as [z|]; [|done]. simpl. f_equal.
  unfold adopt_node. destruct z. destruct (decide (k = init T)) as [->|]; [rewrite (decide_False (P := init T = t)) by done|];
    repeat case_decide; done.
Qed.

Lemma tree_adopt_ok T t c cs x :
  tree_inv b T -> t <> init T -> nodes T !! t = Some x -> n_children x = c :: cs -> tree_inv b (tree_adopt t c T).
Proof.
  intros H Ht E Hcs.
  assert (Hct : c ∈ n_children x) by (rewrite Hcs; apply elem_of_cons; auto).
  destruct (ok_children T H t x c E Hct) as (w & Ew & Hw & Hcl).
  destruct (ok_init T H) as (i & Ei & Hi1 & Hi2 & Hi3).
  pose proof (ok_distinct T H t x E) as Hnd. rewrite Hcs in Hnd. apply NoDup_cons in Hnd as [Hccs Hnd].
  assert (Hci : c <> init T) by (intros ->; by apply (ok_init_no_child T t x H E)).
  apply (tree_edit_ok T (adopt_node T t c)); try done.
  - intros k. by apply tree_adopt_nodes.
  - intros z Ez. unfold adopt_node; simpl. by rewrite decide_False.
  - intros k z Ez Hl. simpl in Hl. destruct (ok_killed T H k z Ez Hl) as [Hk1 Hk2]. split; [done|]. simpl.
    rewrite Hk2. rewrite (decide_False (P := k = init T)) by (intros ->; congruence). by case_decide.
  - intros k z p Ez Hin. unfold adopt_node at 1; simpl. case_decide as Hd.
    + intros [= <-]. exists i. split; [done|]. split; [done|]. unfold adopt_node; simpl. rewrite decide_True by done.
      apply elem_of_cons. auto.
    + intros Hp. destruct (ok_parent T H k z p Ez Hin Hp) as (y & Ey & Hy & Hky). exists y. split; [done|]. split; [done|].
      simpl. destruct (decide (p = init T)); [apply elem_of_cons; auto|]. case_decide as Hpt; [|done].
      subst p. simplify_eq. rewrite Hcs in Hky |- *. by apply elem_of_cons in Hky as [|].
  - intros p y k Ey. unfold adopt_node at 1; simpl. destruct (decide (p = init T)) as [->|Hpi]; [|destruct (decide (p = t)) as [->|Hpt]].
    + intros [->|Hin]%elem_of_cons; [exists w; unfold adopt_node; simpl; by rewrite decide_True|].
      destruct (ok_children T H _ y k Ey Hin) as (v & Ev & Hv & Hkl). exists v. unfold adopt_node; simpl.
      split; [done|]. by destruct (decide (k = c)).
    + simplify_eq. rewrite Hcs. simpl. intros Hin. destruct (ok_children T H t x k E) as (v & Ev & Hv & Hkl); [rewrite Hcs, elem_of_cons; auto|].
      exists v. unfold adopt_node; simpl. rewrite decide_False by (intros ->; done). done.
    + intros Hin. destruct (ok_children T H p y k Ey Hin) as (v & Ev & Hv & Hkl). exists v. unfold adopt_node; simpl.
      rewrite decide_False by (intros ->; apply Hpt; congruence). done.
  - intros p y Ey. pose proof (ok_distinct T H p y Ey) as Hd. simpl. case_decide as Hp; [|case_decide; [|done]].
    + apply NoDup_cons. split; [|done]. subst p. intros Hin. apply Ht. by apply (ok_unique_parent T t (init T) x y c H).
    + subst p. simplify_eq. by rewrite Hcs.
  - intros k z Ez Hk. simpl in Hk |- *. pose proof (ok_kernel T H k z Ez Hk). case_decide; [|done]. congruence.
  - intros k z p Ez Hin. simpl. case_decide as Hd; [|by left]. intros [= <-]. subst k. by right.
Qed.

(** Everything of [t] that adoption does not change. *)
Lemma tree_adopt_self T t c cs x :
  tree_inv b T -> t <> init T -> nodes T !! t = Some x -> n_children x = c :: cs ->
  exists x', nodes (tree_adopt t c T) !! t = Some x' /\ n_children x' = cs /\ n_life x' = n_life x /\ n_kernel x' = n_kernel x /\
    n_killed x' = n_killed x /\ n_parent x' = n_parent x /\ n_pid x' = n_pid x.
Proof.
  intros H Ht E Hcs. rewrite tree_adopt_nodes, E by done. eexists. split; [done|]. unfold adopt_node; simpl.
  rewrite (decide_False (P := t = init T)), (decide_True (P := t = t)), Hcs by done. split_and!; try done.
  rewrite decide_False; [done|]. intros <-.
  destruct (ok_children T H t x t E) as (w & Ew & Hw & Hl); [rewrite Hcs, elem_of_cons; auto|].
  by destruct (ok_self T t w H Ew Hl).
Qed.

Lemma tree_adopt_all_ok t cs : forall T x,
  tree_inv b T -> t <> init T -> nodes T !! t = Some x -> n_children x = cs ->
  tree_inv b (tree_adopt_all t cs T) /\ init (tree_adopt_all t cs T) = init T /\
  exists x', nodes (tree_adopt_all t cs T) !! t = Some x' /\ n_children x' = [] /\ n_life x' = n_life x /\ n_kernel x' = n_kernel x /\
    n_killed x' = n_killed x /\ n_parent x' = n_parent x /\ n_pid x' = n_pid x.
Proof.
  induction cs as [|c cs IH]; intros T x H Ht E Hcs; [split; [done|]; split; [done|]; by exists x|].
  destruct (tree_adopt_self T t c cs x H Ht E Hcs) as (x' & E' & Hc' & Hl & Hk & Hd & Hp & Hi'). simpl.
  destruct (IH (tree_adopt t c T) x' (tree_adopt_ok T t c cs x H Ht E Hcs) Ht E' Hc') as (H' & Hi & x'' & E'' & ? & ? & ? & ? & ? & ?).
  split; [done|]. split; [done|]. exists x''. split_and!; congruence.
Qed.

Lemma tree_zombie_ok T t x :
  tree_inv b T -> t <> init T -> nodes T !! t = Some x -> n_life x = Live ->
  tree_inv b (tree_zombie t T) /\
  exists x', nodes (tree_zombie t T) !! t = Some x' /\ n_life x' = Zombie /\ n_kernel x' = n_kernel x /\
    n_parent x' = n_parent x /\ n_pid x' = n_pid x.
Proof.
  intros H Ht E Hl. unfold tree_zombie, tree_children. rewrite E.
  assert (H1 : tree_inv b (tree_life t true Live T)) by (apply (tree_life_ok T t x); congruence).
  assert (E1 : nodes (tree_life t true Live T) !! t = Some (n_set_life true Live x)) by (simpl; by rewrite lookup_alter_eq, E).
  destruct (tree_adopt_all_ok t (n_children x) _ _ H1 Ht E1 eq_refl) as (H2 & Hi & x2 & E2 & Hc & Hl2 & Hk & _ & Hp & Hpid).
  split.
  - apply (tree_life_ok _ t x2); try done; [rewrite Hl2; done|]. intros _. by rewrite Hi.
  - exists (n_set_life true Zombie x2). split; [simpl; by rewrite lookup_alter_eq, E2|]. done.
Qed.

(** What [tree_reap] does to each node. *)
Definition reap_node (t c k : Z) (z : pnode) : pnode :=
  n_set_children (if decide (k = t) then filter (fun z => z <> c) (n_children z) else n_children z)
    (n_set_life (n_killed z) (if decide (k = c) then Dead else n_life z) z).

Lemma tree_reap_nodes T t c k : nodes (tree_reap t c T) !! k = reap_node t c k <$> nodes T !! k.
Proof.
  cbn [nodes tree_reap tree_die with_nodes]. rewrite !alter_as_fmap. destruct (nodes T !! k) as [z|]; [|done]. simpl. f_equal.
  unfold reap_node. destruct z. repeat case_decide; done.
Qed.

Lemma elem_of_die (l g : list Z) c k : c ∈ l -> k ∈ filter (fun z => z <> c) l ++ c :: g <-> k ∈ l ++ g.
Proof.
  intros Hc. rewrite !elem_of_app, list_elem_of_filter, elem_of_cons. destruct (decide (k = c)) as [->|]; tauto.
Qed.

Lemma NoDup_die (l g : list Z) c : NoDup (l ++ g) -> c ∈ l -> NoDup (filter (fun z => z <> c) l ++ c :: g).
Proof.
  intros (Hl & Hd & Hg)%NoDup_app Hc. apply NoDup_app. split; [by apply NoDup_filter|]. split.
  - intros k [Hk Hin]%list_elem_of_filter [->|Hkg]%elem_of_cons; [done|]. by apply (Hd k).
  - apply NoDup_cons. split; [|done]. by apply Hd.
Qed.

Lemma tree_reap_ok T t c x :
  tree_inv b T -> nodes T !! c = Some x -> n_life x = Zombie -> (n_parent x = Some t \/ n_parent x = None) -> tree_inv b (tree_reap t c T).
Proof.
  intros H E Hz Hp.
  assert (Hcl : c ∈ listed T) by (apply (ok_listed T c x H E); congruence).
  destruct (ok_killed T H c x E) as [Hck Hcc]; [congruence|].
  assert (Hn : forall k y, nodes (tree_reap t c T) !! k = Some y -> exists z, nodes T !! k = Some z /\ y = reap_node t c k z).
  { intros k y. rewrite tree_reap_nodes, fmap_Some. done. }
  assert (Hkeep : forall k z, nodes T !! k = Some z -> nodes (tree_reap t c T) !! k = Some (reap_node t c k z)).
  { intros k z Ez. by rewrite tree_reap_nodes, Ez. }
  assert (Hsub : forall k z j, j ∈ n_children (reap_node t c k z) -> j ∈ n_children z).
  { intros k z j. simpl. case_decide; [|done]. by intros [_ ?]%list_elem_of_filter. }
  split; cbn [listed gone fresh_pid init tree_reap tree_die with_nodes].
  - apply NoDup_die; [apply H | done].
  - intros k. rewrite tree_reap_nodes, fmap_is_Some, elem_of_die by done. apply H.
  - destruct (ok_init T H) as (i & Ei & ? & ? & Hi). eexists. split; [by apply Hkeep|]. simpl.
    rewrite decide_False by (intros <-; congruence). done.
  - intros k y (z & Ez & ->)%Hn. simpl. rewrite elem_of_cons, (ok_gone T H k z Ez). case_decide; intuition.
  - intros k y (z & Ez & ->)%Hn. simpl. intros Hl.
    assert (Hzk : n_killed z = true /\ n_children z = []).
    { destruct (decide (k = c)) as [->|]; [by simplify_eq|]. by apply (ok_killed T H k). }
    destruct Hzk as [-> ->]. split; [done|]. by destruct (decide (k = t)).
  - intros k y p (z & Ez & ->)%Hn [Hkc Hin]%list_elem_of_filter Hpar.
    destruct (ok_parent T H k z p Ez Hin Hpar) as (w & Ew & Hw & Hkw). eexists. split; [by apply Hkeep|]. simpl.
    rewrite decide_False by (intros ->; simplify_eq; congruence). split; [done|]. case_decide; [|done]. by apply list_elem_of_filter.
  - intros p y k (z & Ez & ->)%Hn Hin. destruct (ok_children T H p z k Ez (Hsub p z k Hin)) as (w & Ew & Hw & Hkl).
    eexists. split; [by apply Hkeep|]. split; [done|]. apply list_elem_of_filter. split; [|done]. intros ->. simplify_eq.
    simpl in Hin. destruct Hp as [Hp|Hp]; [|congruence]. rewrite decide_True in Hin by congruence.
    by apply list_elem_of_filter in Hin as [? _].
  - intros p y (z & Ez & ->)%Hn. simpl. pose proof (ok_distinct T H p z Ez). case_decide; [|done]. by apply NoDup_filter.
  - intros k y (z & Ez & ->)%Hn. exact (ok_kernel T H k z Ez).
  - destruct (ok_rank T H) as [rank Hr]. exists rank. intros k y p (z & Ez & ->)%Hn [_ Hin]%list_elem_of_filter Hpar. exact (Hr k z p Ez Hin Hpar).
  - intros Hb k k' y y' (z & Ez & ->)%Hn (z' & Ez' & ->)%Hn. exact (ok_pids T H Hb k k' z z' Ez Ez').
  - intros Hb k y (z & Ez & ->)%Hn. exact (ok_fresh T H Hb k z Ez).
  - intros Hb k y p w (z & Ez & ->)%Hn [_ Hin]%list_elem_of_filter Hpar (v & Ev & ->)%Hn. exact (ok_order T H Hb k z p v Ez Hin Hpar Ev).
Qed.

(** A task without a parent is in nobody's list. *)
Lemma tree_die_ok T t x :
  tree_inv b T -> nodes T !! t = Some x -> n_life x = Zombie -> n_parent x = None -> tree_inv b (tree_die t T).
Proof.
  intros H E Hz Hp. replace (tree_die t T) with (tree_reap t t T); [by eapply tree_reap_ok; eauto|].
  unfold tree_reap, tree_die, with_nodes; simpl. f_equal. apply map_eq. intros k. rewrite !alter_as_fmap.
  destruct (nodes T !! k) as [z|] eqn:Ez; [|done]. simpl. f_equal. destruct (decide (k = t)) as [->|]; [|done]. simplify_eq.
  destruct (ok_killed T H t x E) as [_ Hc]; [congruence|]. destruct x. simpl in *. by subst.
Qed.

Lemma tree_exit_ok T t x :
  tree_inv b T -> t <> init T -> nodes T !! t = Some x -> n_life x = Live -> tree_inv b (tree_exit t T).
Proof.
  intros H Ht E Hl. pose proof (ok_kernel T H t x E) as Hk. unfold tree_exit. rewrite E. destruct (tree_zombie_ok T t x H Ht E Hl) as (H' & x' & E' & Hz & Hk' & Hp' & _).
  destruct (n_kernel x); [|done]. apply (tree_die_ok _ t x'); rewrite ?Hp'; auto.
Qed.

Lemma tree_free_ok T : tree_inv b T -> tree_inv b (tree_free T).
Proof.
  intros H. unfold tree_free. destruct (gone T) as [|t g] eqn:Eg; [done|].
  pose proof (ok_lists T H) as Hnd. rewrite Eg in Hnd. apply NoDup_app in Hnd as (Hl & Hd & Hg).
  apply NoDup_cons in Hg as [Htg Hg].
  assert (Htl : t ∉ listed T) by (intros Hin; apply (Hd t Hin), elem_of_cons; auto).
  assert (Hdead : forall x, nodes T !! t = Some x -> n_life x = Dead).
  { intros x E. apply (ok_gone T H t x E). rewrite Eg. apply elem_of_cons. auto. }
  assert (Hlive : forall k x, nodes T !! k = Some x -> n_life x <> Dead -> delete t (nodes T) !! k = Some x).
  { intros k x E Hx. rewrite lookup_delete_ne; [done|]. intros <-. by apply Hx, Hdead. }
  split; cbn [nodes listed gone fresh_pid init].
  - apply NoDup_app. split; [done|]. split; [|done]. intros k Hk Hkg. apply (Hd k Hk), elem_of_cons. auto.
  - intros k. pose proof (ok_nodes T H k) as Hk. rewrite Eg in Hk. rewrite elem_of_app, elem_of_cons in Hk. rewrite elem_of_app.
    destruct (decide (t = k)) as [->|Htk].
    + rewrite lookup_delete_eq. split; [by intros [? ?]|tauto].
    + rewrite lookup_delete_ne, Hk by done. intuition congruence.
  - destruct (ok_init T H) as (i & Ei & ? & ? & Hi). exists i. split; [apply Hlive; congruence | done].
  - intros k y [Hk Ey]%lookup_delete_Some. rewrite <- (ok_gone T H k y Ey), Eg, elem_of_cons. intuition congruence.
  - intros k y [_ Ey]%lookup_delete_Some. by apply (ok_killed T H k).
  - intros k y p [_ Ey]%lookup_delete_Some Hin Hp. destruct (ok_parent T H k y p Ey Hin Hp) as (w & Ew & Hw & ?).
    exists w. split; [apply Hlive; congruence | done].
  - intros p y c [_ Ey]%lookup_delete_Some Hin. destruct (ok_children T H p y c Ey Hin) as (w & Ew & Hw & Hcl).
    exists w. split; [|done]. rewrite lookup_delete_ne; congruence.
  - intros p y [_ Ey]%lookup_delete_Some. by apply (ok_distinct T H p).
  - intros k y [_ Ey]%lookup_delete_Some. by apply (ok_kernel T H k).
  - destruct (ok_rank T H) as [rank Hr]. exists rank. intros k y p [_ Ey]%lookup_delete_Some. by apply Hr.
  - intros Hb k k' y y' [_ Ey]%lookup_delete_Some [_ Ey']%lookup_delete_Some. by apply (ok_pids T H Hb k k' y y').
  - intros Hb k y [_ Ey]%lookup_delete_Some. by apply (ok_fresh T H Hb k).
  - intros Hb k y p w [_ Ey]%lookup_delete_Some Hin Hp [_ Ew]%lookup_delete_Some. by apply (ok_order T H Hb k y p w).
Qed.

Lemma tree_rotate_ok T l : tree_inv b T -> l ≡ₚ listed T -> tree_inv b (tree_rotate l T).
Proof.
  intros H Hp. split; cbn [nodes listed gone fresh_pid init tree_rotate]; try setoid_rewrite Hp; apply H.
Qed.

End Preserved.
