(* ===== verification/TaskProps.v ===== *)
(** The tasks of Task.v are the process tree of TaskTree.v: each operation computes
    the operation of the tree, without touching a task that is not there; so the
    invariant of the tree holds in every state that the calls of tasks lead to.
    Then what the tree does not show: the status that a parent reads, and that the
    scheduler runs every task that can run. *)
From stdpp Require Import base numbers list gmap.
From Stdlib Require Import ZArith ZifyBool Lia.
From S2P Require Import Prelude UserMem Users Task TaskTree.
Open Scope Z_scope.

(** * The tree of the tasks *)

Definition life_of (st : task_state) : life :=
  match st with TASK_ZOMBIE => Zombie | TASK_DEAD => Dead | _ => Live end.

Definition node_of (x : task) : pnode :=
  {| n_pid := pid x; n_parent := parent x; n_children := task_children x; n_killed := killed x; n_kernel := is_kernel x;
     n_life := life_of (state x) |}.

Definition tree_of (s : sched) : tree :=
  {| nodes := node_of <$> tasks s; listed := tlist s; gone := dead s; fresh_pid := next_pid s; init := task_pid1 s |}.

(** What a parent is told. *)
Definition status_of (x : task) : Z * Z * Z := (pgid x, ret_code x, ret_signal x).

(** A state as far as [proj] shows the tasks. *)
Definition view {A} (proj : task -> A) (s : sched) : gmap Z A * list Z * list Z * Z * Z :=
  (proj <$> tasks s, tlist s, dead s, next_pid s, task_pid1 s).

Lemma view_tree s s' : view node_of s = view node_of s' -> tree_of s = tree_of s'.
Proof. unfold view, tree_of. intros [= -> -> -> -> ->]. done. Qed.

Lemma has_view {A} (proj : task -> A) s s' t : view proj s = view proj s' -> is_Some (tasks s !! t) -> is_Some (tasks s' !! t).
Proof.
  unfold view. intros [= E _ _ _ _] Ht. apply (fmap_is_Some proj). rewrite <- lookup_fmap, <- E, lookup_fmap. by apply fmap_is_Some.
Qed.

Lemma has_listed {b} s t : tree_inv b (tree_of s) -> t ∈ tlist s -> is_Some (tasks s !! t).
Proof.
  intros H Ht. destruct (ok_node _ t H Ht) as (x & E & _). simpl in E. rewrite lookup_fmap in E. apply fmap_Some in E as (y & -> & _).
  eauto.
Qed.

Lemma tree_node s t x : tasks s !! t = Some x -> nodes (tree_of s) !! t = Some (node_of x).
Proof. intros E. simpl. by rewrite lookup_fmap, E. Qed.

(** * Operations that do not change the tree *)

Section Quiet.
Context {A : Type} (proj : task -> A).

Lemma task_upd_quiet s t f :
  is_Some (tasks s !! t) -> (forall x, proj (f x) = proj x) -> exists s', task_upd s t f = Done s' /\ view proj s' = view proj s.
Proof.
  intros [x E] Hf. rewrite (task_upd_done s t f x E). eexists. split; [done|]. unfold view; simpl. f_equal; f_equal; f_equal; f_equal.
  rewrite fmap_insert, Hf. apply insert_id. by rewrite lookup_fmap, E.
Qed.

Context (signal : Z) (force : bool) (Hwake : forall x, proj (wake x) = proj x).
Context (Hpost : forall x, proj (post_signal signal force x) = proj x).

Lemma send_sig_quiet s t :
  is_Some (tasks s !! t) -> (forall x p, tasks s !! t = Some x -> parent x = Some p -> is_Some (tasks s !! p)) ->
  exists s', send_sig s t signal force = Done s' /\ view proj s' = view proj s.
Proof.
  intros [x E] Hp. unfold send_sig. rewrite (task_at_done s t x E). obind.
  destruct (task_upd_quiet s t (post_signal signal force)) as (s' & -> & Hv); [eauto | done|]. obind.
  destruct (parent x) as [p|] eqn:Ep; [|eauto]. destruct (_ && _); [|eauto].
  destruct (task_upd_quiet s' p wake) as (s'' & E'' & Hv''); [|done|].
  - apply (has_view proj s); [done|]. by apply (Hp x).
  - exists s''. by rewrite Hv''.
Qed.
End Quiet.

Lemma wake_node x : node_of (wake x) = node_of x.
Proof. destruct x as [? ? ? []]; done. Qed.

Lemma wake_status x : status_of (wake x) = status_of x.
Proof. destruct x as [? ? ? []]; done. Qed.

Lemma post_signal_node signal force x : node_of (post_signal signal force x) = node_of x.
Proof.
  unfold post_signal. destruct (signal =? SIGCONT), (is_stop signal), (signal =? SIGKILL), force, x as [? ? ? []]; done.
Qed.

Lemma post_signal_status force x : status_of (post_signal SIGCHLD force x) = status_of x.
Proof. destruct force, x as [? ? ? []]; done. Qed.

(** The tree together with [proj]. *)
Definition with_node {A} (proj : task -> A) (x : task) : pnode * A := (node_of x, proj x).

Lemma view_with_node {A} (proj : task -> A) s s' :
  view (with_node proj) s = view (with_node proj) s' -> view proj s = view proj s' /\ tree_of s = tree_of s'.
Proof.
  unfold view, tree_of. intros [= E -> -> -> ->].
  assert (Hf : forall m : gmap Z task, snd <$> (with_node proj <$> m) = proj <$> m)
    by (intros m; rewrite <- map_fmap_compose; by apply map_fmap_ext).
  assert (Hn : forall m : gmap Z task, fst <$> (with_node proj <$> m) = node_of <$> m)
    by (intros m; rewrite <- map_fmap_compose; by apply map_fmap_ext).
  by rewrite <- !Hf, <- !Hn, E.
Qed.

(** Signals to the tasks of [l]. *)
Lemma send_to_quiet {b} {A} (proj : task -> A) p signal force l :
  (forall x, proj (wake x) = proj x) -> (forall x, proj (post_signal signal force x) = proj x) -> forall s ret,
  tree_inv b (tree_of s) -> (forall t, t ∈ l -> t ∈ tlist s) ->
  exists ret' s', send_to s p signal force l ret = Done (ret', s') /\ view proj s' = view proj s /\ tree_of s' = tree_of s.
Proof.
  intros Hw Hp. induction l as [|t l IH]; intros s ret H Hl; [by exists ret, s|]. simpl.
  assert (Ht : t ∈ tlist s) by (apply Hl, elem_of_cons; auto).
  destruct (has_listed s t H Ht) as [x E]. rewrite (task_at_done s t x E). obind.
  destruct (send_sig_quiet (with_node proj) signal force) with (s := s) (t := t) as (s' & Es & [Hv HT]%view_with_node).
  { intros y. unfold with_node. by rewrite Hw, wake_node. }
  { intros y. unfold with_node. by rewrite Hp, post_signal_node. }
  { eauto. }
  { intros y q Ey Hq. destruct (ok_parent _ H t (node_of y) q (tree_node s t y Ey) Ht Hq) as (z & Ez & _).
    simpl in Ez. rewrite lookup_fmap in Ez. apply fmap_Some in Ez as (? & ? & _). eauto. }
  rewrite Es. obind. case_match; [by exists 0, s'|].
  assert (Hl' : forall t0, t0 ∈ l -> t0 ∈ tlist s) by (intros; apply Hl, elem_of_cons; auto).
  case_match; [|by apply IH].
  destruct (IH s' 0) as (r & s'' & E'' & Hv'' & HT''); [by rewrite HT | |].
  - intros k Hk. change (k ∈ listed (tree_of s')). rewrite HT. by apply Hl'.
  - exists r, s''. rewrite Hv'', HT''. done.
Qed.

Lemma send_signal_quiet {b} {A} (proj : task -> A) s p signal force :
  (forall x, proj (wake x) = proj x) -> (forall x, proj (post_signal signal force x) = proj x) -> tree_inv b (tree_of s) ->
  exists ret s', scheduler_task_send_signal s p signal force = Done (ret, s') /\ view proj s' = view proj s /\ tree_of s' = tree_of s.
Proof.
  intros Hw Hp H. unfold scheduler_task_send_signal. case_match; [by eexists _, s|]. by apply (send_to_quiet (b := b)).
Qed.

(** The signal to the parent keeps the tree and every status. *)
Lemma send_sigchld {b} s p :
  tree_inv b (tree_of s) ->
  exists ret s', scheduler_task_send_signal s p SIGCHLD false = Done (ret, s') /\ view status_of s' = view status_of s /\
    tree_of s' = tree_of s.
Proof. apply (send_signal_quiet (b := b)); [apply wake_status | apply post_signal_status]. Qed.

Lemma clear_sid_tty_quiet y sid l : forall s,
  (forall t, t ∈ l -> is_Some (tasks s !! t)) ->
  exists s', clear_sid_tty s y sid l = Done s' /\ view (with_node status_of) s' = view (with_node status_of) s.
Proof.
  induction l as [|t l IH]; intros s Hl; [by exists s|]. simpl.
  destruct (task_upd_quiet (with_node status_of) s t (fun x => if (session_id x =? sid) && (tty x =? y) then set_tty 0 x else x))
    as (s' & -> & Hv); [apply Hl, elem_of_cons; auto | by intros x; case_match |]. obind.
  destruct (IH s') as (s'' & -> & Hv''); [|exists s''; by rewrite Hv''].
  intros k Hk. apply (has_view (with_node status_of) s); [done|]. apply Hl, elem_of_cons. auto.
Qed.

(** * Operations of the tree *)

(** An update that the tree and the statuses show as [g] and [h]. *)
Lemma task_upd_tree s t f g x :
  tasks s !! t = Some x -> node_of (f x) = g (node_of x) -> status_of (f x) = status_of x ->
  exists s', task_upd s t f = Done s' /\ tree_of s' = with_nodes (alter g t (nodes (tree_of s))) (tree_of s) /\
    view status_of s' = view status_of s /\ tasks s' = <[t := f x]> (tasks s).
Proof.
  intros E Hg Hs. rewrite (task_upd_done s t f x E). eexists. split; [done|]. split; [|split; [|done]].
  - unfold tree_of, with_nodes; simpl. f_equal. rewrite fmap_insert, Hg. apply map_eq. intros k.
    destruct (decide (t = k)) as [->|]; [rewrite lookup_insert_eq, lookup_alter_eq, lookup_fmap, E; done|].
    by rewrite lookup_insert_ne, lookup_alter_ne.
  - unfold view; simpl. f_equal; f_equal; f_equal; f_equal. rewrite fmap_insert, Hs. apply insert_id. by rewrite lookup_fmap, E.
Qed.

Lemma tree_node_inv s t n : nodes (tree_of s) !! t = Some n -> exists x, tasks s !! t = Some x /\ node_of x = n.
Proof. simpl. rewrite lookup_fmap, fmap_Some. intros (x & ? & ->). eauto. Qed.

Lemma has_upd s t k (x : task) : is_Some (tasks s !! k) -> is_Some (<[t := x]> (tasks s) !! k).
Proof. intros H. apply lookup_insert_is_Some'. auto. Qed.

Lemma reparent_tree {b} t cs : forall s x,
  tree_inv b (tree_of s) -> t <> task_pid1 s -> tasks s !! t = Some x -> task_children x = cs ->
  exists s', reparent s t cs = Done s' /\ tree_of s' = tree_adopt_all t cs (tree_of s) /\ view status_of s' = view status_of s.
Proof.
  induction cs as [|c cs IH]; intros s x H Ht E Hcs; [by exists s|]. cbn [reparent].
  pose proof (tree_node s t x E) as En.
  destruct (ok_children _ H t _ c En) as (w & Ew & _); [simpl; rewrite Hcs, elem_of_cons; auto|].
  destruct (ok_init _ H) as (i & Ei & _). apply tree_node_inv in Ew as (w' & Ew & _), Ei as (i' & Ei & _).
  destruct (task_upd_tree s t (set_children cs) (fun x => n_set_children (tail (n_children x)) x) x E) as (s1 & -> & T1 & V1 & M1);
    [destruct x; simpl in *; by rewrite Hcs | done|]. obind.
  assert (I1 : task_pid1 s1 = task_pid1 s) by (change (init (tree_of s1) = init (tree_of s)); by rewrite T1).
  destruct (has_upd s t c (set_children cs x)) as [c1 Ec1]; [eauto|]. rewrite <- M1 in Ec1.
  destruct (has_upd s t (task_pid1 s) (set_children cs x)) as [i1 Ei1]; [eauto|]. rewrite <- M1 in Ei1.
  destruct (task_upd_tree s1 c (set_parent (Some (task_pid1 s1))) (n_set_parent (Some (task_pid1 s))) c1 Ec1) as (s2 & -> & T2 & V2 & M2);
    [by rewrite I1 | done|]. obind.
  assert (I2 : task_pid1 s2 = task_pid1 s) by (change (init (tree_of s2) = init (tree_of s)); by rewrite T2, T1).
  destruct (has_upd s1 c (task_pid1 s) (set_parent (Some (task_pid1 s1)) c1)) as [i2 Ei2]; [eauto|]. rewrite <- M2 in Ei2.
  rewrite I2.
  destruct (task_upd_tree s2 (task_pid1 s) (fun i => set_children (c :: task_children i) i) (fun i => n_set_children (c :: n_children i) i) i2 Ei2)
    as (s3 & -> & T3 & V3 & M3); [done | done|]. obind.
  assert (T3' : tree_of s3 = tree_adopt t c (tree_of s)) by (rewrite T3, T2, T1; done).
  assert (H3 : tree_inv b (tree_of s3)) by (rewrite T3'; by apply (tree_adopt_ok _ t c cs (node_of x))).
  destruct (has_upd s2 (task_pid1 s) c (set_children (c :: task_children i2) i2)) as [c3 Ec3].
  { rewrite M2, lookup_insert_eq. eauto. }
  rewrite <- M3 in Ec3. rewrite (task_at_done s3 c c3 Ec3). obind.
  assert (Hs : exists s4, (if bool_decide (state c3 = TASK_ZOMBIE)
    then '(_, s) ← scheduler_task_send_signal s3 1 SIGCHLD false; Done s else Done s3) = Done s4 /\
    view status_of s4 = view status_of s3 /\ tree_of s4 = tree_of s3).
  { case_match; [|by exists s3]. destruct (send_sigchld s3 1 H3) as (r & s4 & -> & V & T). by exists s4. }
  destruct Hs as (s4 & -> & V4 & T4). obind.
  destruct (tree_adopt_self _ t c cs _ H Ht En Hcs) as (n & En4 & Hn4 & _). rewrite <- T3', <- T4 in En4.
  apply tree_node_inv in En4 as (x4 & E4 & <-).
  destruct (IH s4 x4) as (s5 & -> & T5 & V5); [by rewrite T4 | | done | done |].
  - intros ->. apply Ht. change (init (tree_of s4) = init (tree_of s)). by rewrite T4, T3'.
  - exists s5. split; [done|]. rewrite T5, T4, T3', V5, V4, V3, V2, V1. done.
Qed.

Lemma tree_of_emit e s : tree_of (emit e s) = tree_of s.
Proof. done. Qed.

Lemma status_emit e s : view status_of (emit e s) = view status_of s.
Proof. done. Qed.

Lemma emit_when (b : bool) e s : tree_of (if b then emit e s else s) = tree_of s /\ view status_of (if b then emit e s else s) = view status_of s.
Proof. by destruct b. Qed.

Lemma has_parent {b} s t x p :
  tree_inv b (tree_of s) -> tasks s !! t = Some x -> life_of (state x) <> Dead -> parent x = Some p -> exists y, tasks s !! p = Some y.
Proof.
  intros H E Hd Hp. pose proof (tree_node s t x E) as En.
  destruct (ok_parent _ H t _ p En (ok_listed _ t _ H En Hd) Hp) as (y & Ey & _). apply tree_node_inv in Ey as (z & ? & _). eauto.
Qed.

(** The first half of [task_make_zombie]: the task is marked and its session loses
    its terminal. *)
Lemma make_zombie_start {b} s t x :
  tree_inv b (tree_of s) -> tasks s !! t = Some x -> life_of (state x) = Live ->
  exists s1 x1, task_upd s t (set_killed true) = Done s1 /\ task_at s1 t = Done x1 /\
  exists s2 x2, (if session_leader x1 && negb (tty x1 =? 0)
        then s ← scheduler_task_clear_sid_tty s1 (tty x1) (session_id x1); Done (emit [TtyDetach (tty x1)] s) else Done s1) = Done s2 /\
    tasks s2 !! t = Some x2 /\ task_children x2 = task_children x /\
    tree_of s2 = tree_life t true Live (tree_of s) /\ view status_of s2 = view status_of s.
Proof.
  intros H E Hl.
  destruct (task_upd_tree s t (set_killed true) (n_set_life true Live) x E) as (s1 & -> & T1 & V1 & M1);
    [destruct x; simpl in *; unfold node_of, n_set_life; simpl; by rewrite Hl | done|].
  assert (E1 : tasks s1 !! t = Some (set_killed true x)) by (by rewrite M1, lookup_insert_eq).
  exists s1, (set_killed true x). split; [done|]. split; [by apply task_at_done|].
  assert (H1 : tree_inv b (tree_of s1)).
  { rewrite T1. apply (tree_life_ok _ t _ Live H (tree_node s t x E)); simpl; congruence. }
  assert (Hs : exists s2, (if session_leader (set_killed true x) && negb (tty (set_killed true x) =? 0)
    then s ← scheduler_task_clear_sid_tty s1 (tty (set_killed true x)) (session_id (set_killed true x));
         Done (emit [TtyDetach (tty (set_killed true x))] s) else Done s1) = Done s2 /\ view (with_node status_of) s2 = view (with_node status_of) s1).
  { case_match; [|by exists s1]. destruct (clear_sid_tty_quiet (tty x) (session_id x) (tlist s1) s1) as (s2 & E2 & V2).
    - intros k Hk. by apply (has_listed (b := b)).
    - exists (emit [TtyDetach (tty x)] s2). split; [|done]. unfold scheduler_task_clear_sid_tty. cbn [tty session_id set_killed].
      rewrite E2. done. }
  destruct Hs as (s2 & -> & [V2 T2]%view_with_node).
  assert (En : nodes (tree_of s2) !! t = Some (n_set_life true Live (node_of x))).
  { rewrite T2, T1. simpl. by rewrite lookup_alter_eq, lookup_fmap, E. }
  apply tree_node_inv in En as (x2 & E2 & N2). exists s2, x2. split; [done|]. split; [done|].
  split; [by apply (f_equal n_children) in N2|]. rewrite T2, T1, V2, V1. done.
Qed.

Lemma make_zombie_tree {b} s t x :
  tree_inv b (tree_of s) -> t <> task_pid1 s -> tasks s !! t = Some x -> life_of (state x) = Live ->
  exists s', task_make_zombie s t = Done s' /\ tree_of s' = tree_zombie t (tree_of s) /\ view status_of s' = view status_of s.
Proof.
  intros H Ht E Hl. pose proof (tree_node s t x E) as En.
  destruct (make_zombie_start s t x H E Hl) as (s1 & x1 & E1 & A1 & s2 & x2 & E2 & A2 & Hc & T2 & V2).
  unfold task_make_zombie. rewrite E1. obind. rewrite A1. obind. rewrite E2. obind. rewrite (task_at_done _ _ _ A2). obind.
  assert (H2 : tree_inv b (tree_of s2)) by (rewrite T2; apply (tree_life_ok _ t _ Live H En); simpl; congruence).
  assert (I2 : task_pid1 s2 = task_pid1 s) by (change (init (tree_of s2) = init (tree_of s)); by rewrite T2).
  destruct (reparent_tree t (task_children x2) s2 x2 H2) as (s3 & -> & T3 & V3); [by rewrite I2 | done | done |]. obind.
  match goal with |- context [task_upd ?S t (set_state TASK_ZOMBIE)] => set (s4 := S) end.
  assert (TV4 : tree_of s4 = tree_of s3 /\ view status_of s4 = view status_of s3).
  { subst s4. rewrite !(proj1 (emit_when _ _ _)), !(proj2 (emit_when _ _ _)). done. }
  destruct TV4 as [T4 V4].
  destruct (tree_zombie_ok _ t _ H Ht En Hl) as (HZ & nz & Enz & Hz & _).
  assert (Hall : tree_adopt_all t (task_children x2) (tree_of s2) = tree_adopt_all t (tree_children t (tree_of s)) (tree_life t true Live (tree_of s))).
  { rewrite T2. unfold tree_children. by rewrite En, Hc. }
  destruct (tree_adopt_all_ok t _ _ _ H2 ltac:(by rewrite T2) (tree_node _ _ _ A2) eq_refl) as (_ & _ & n3 & En3 & _ & _ & _ & K3 & _).
  assert (K2 : killed x2 = true).
  { pose proof (tree_node s2 t x2 A2) as N2. rewrite T2 in N2. simpl in N2. rewrite lookup_alter_eq, lookup_fmap, E in N2. by injection N2. }
  simpl in En3, K3. rewrite <- T3, <- T4 in En3. apply tree_node_inv in En3 as (x4 & E4 & N4).
  destruct (task_upd_tree s4 t (set_state TASK_ZOMBIE) (n_set_life true Zombie) x4 E4) as (s5 & -> & T5 & V5 & M5);
    [unfold n_set_life, node_of; simpl; f_equal; subst n3; simpl in K3; congruence | done|]. obind.
  assert (T5' : tree_of s5 = tree_zombie t (tree_of s)) by (rewrite T5, T4, T3, Hall; done).
  assert (E5 : tasks s5 !! t = Some (set_state TASK_ZOMBIE x4)) by (by rewrite M5, lookup_insert_eq).
  assert (H5 : tree_inv b (tree_of s5)) by (by rewrite T5').
  rewrite (task_at_done _ _ _ E5). obind.
  destruct (parent (set_state TASK_ZOMBIE x4)) as [p|] eqn:Ep; [|exists s5; rewrite V5, V4, V3, V2; done].
  destruct (has_parent s5 t _ p H5 E5) as [y Ey]; [done | done|]. rewrite (task_at_done _ _ _ Ey). obind.
  destruct (send_sigchld s5 (pid y) H5) as (r & s6 & -> & V6 & T6). obind. exists s6. rewrite T6, V6, V5, V4, V3, V2. done.
Qed.

(** Setting the return code is seen by the parent only. *)
Lemma set_code_tree s t code x :
  tasks s !! t = Some x ->
  exists s', task_upd s t (set_ret_code code) = Done s' /\ tree_of s' = tree_of s /\ tasks s' !! t = Some (set_ret_code code x) /\
    status_of <$> tasks s' = <[t := (pgid x, code, ret_signal x)]> (status_of <$> tasks s).
Proof.
  intros E. destruct (task_upd_quiet node_of s t (set_ret_code code)) as (s' & E' & V); [eauto | done|].
  exists s'. split; [done|]. apply view_tree in V. split; [done|]. rewrite (task_upd_done _ _ _ _ E) in E'. injection E' as <-.
  simpl. rewrite lookup_insert_eq, fmap_insert. done.
Qed.

Lemma status_view s s' : view status_of s = view status_of s' -> status_of <$> tasks s = status_of <$> tasks s'.
Proof. unfold view. congruence. Qed.

Lemma mark_dead_tree s t x :
  tasks s !! t = Some x ->
  exists s', scheduler_task_mark_dead s t = Done s' /\ tree_of s' = tree_die t (tree_of s) /\ status_of <$> tasks s' = status_of <$> tasks s /\
    tasks s' = <[t := set_state TASK_DEAD x]> (tasks s).
Proof.
  intros E. unfold scheduler_task_mark_dead.
  destruct (task_upd_tree s t (set_state TASK_DEAD) (fun n => n_set_life (n_killed n) Dead n) x E) as (s' & -> & T & V & M); [done | done|].
  obind. eexists. split; [done|]. simpl. split; [|split; [by apply status_view | done]].
  unfold tree_die. assert (HT : tree_of s' = tree_of s') by done. unfold tree_of in T |- *. simpl in *. injection T as -> -> -> -> ->. done.
Qed.

Lemma exit_not_init {b} s t x : tree_inv b (tree_of s) -> tasks s !! t = Some x -> pid x <> 1 -> t <> task_pid1 s.
Proof.
  intros H E Hp ->. destruct (ok_init _ H) as (i & Ei & Hi & _). apply tree_node_inv in Ei as (y & Ey & <-). simpl in Ey, Hi. congruence.
Qed.

Lemma sys_exit_tree {b} s t code x :
  tree_inv b (tree_of s) -> tasks s !! t = Some x -> life_of (state x) = Live -> pid x <> 1 ->
  exists s', sys_exit s t code = Done s' /\ tree_of s' = tree_exit t (tree_of s) /\
    status_of <$> tasks s' = <[t := (pgid x, code, ret_signal x)]> (status_of <$> tasks s).
Proof.
  intros H E Hl Hp. pose proof (exit_not_init s t x H E Hp) as Ht. unfold sys_exit.
  destruct (set_code_tree s t code x E) as (s1 & -> & T1 & E1 & S1). obind. rewrite (task_at_done _ _ _ E1). obind.
  cbn [pid set_ret_code]. destruct (Z.eqb_spec (pid x) 1); [done|].
  assert (I1 : task_pid1 s1 = task_pid1 s) by (change (init (tree_of s1) = init (tree_of s)); by rewrite T1).
  destruct (make_zombie_tree (b := b) s1 t (set_ret_code code x)) as (s2 & -> & T2 & V2); [by rewrite T1 | by rewrite I1 | done | done|]. obind. rewrite T1 in T2.
  destruct (tree_zombie_ok _ t _ H Ht (tree_node s t x E) Hl) as (HZ & nz & Enz & Hz & Hk & _). rewrite <- T2 in Enz, HZ.
  apply tree_node_inv in Enz as (x2 & E2 & <-). rewrite (task_at_done _ _ _ E2). obind.
  apply status_view in V2. rewrite S1 in V2.
  assert (Hw : exists s3, match parent x2 with Some p => scheduler_task_wake s2 p | None => Done s2 end = Done s3 /\
    view (with_node status_of) s3 = view (with_node status_of) s2).
  { destruct (parent x2) as [p|] eqn:Ep; [|by exists s2]. apply task_upd_quiet.
    - destruct (has_parent s2 t x2 p HZ E2) as [y Ey]; [simpl in Hz; congruence | done|]. eauto.
    - intros y. unfold with_node. by rewrite wake_node, wake_status. }
  destruct Hw as (s3 & -> & [V3 T3]%view_with_node). obind. apply status_view in V3.
  unfold tree_exit. rewrite (tree_node s t x E). simpl in Hk |- *. rewrite Hk. destruct (is_kernel x).
  - pose proof (tree_node s2 t x2 E2) as En. rewrite <- T3 in En. apply tree_node_inv in En as (x3 & E3 & _).
    destruct (mark_dead_tree s3 t x3 E3) as (s4 & -> & T4 & S4 & _). exists s4. rewrite T4, S4, T3, T2, V3, V2. done.
  - exists s3. rewrite T3, T2, V3, V2. done.
Qed.

(** Init cannot end. *)
Lemma sys_exit_init s t code x : tasks s !! t = Some x -> pid x = 1 -> sys_exit s t code = Panic.
Proof.
  intros E Hp. unfold sys_exit. destruct (set_code_tree s t code x E) as (s1 & -> & T1 & E1 & S1). obind.
  rewrite (task_at_done _ _ _ E1). obind. cbn [pid set_ret_code]. by rewrite Hp.
Qed.

(** [kmalloc] returned memory that no task uses. *)
Definition fresh (s : sched) (new : option Z) : Prop := forall n, new = Some n -> tasks s !! n = None.

Lemma task_new_cases s new :
  let '(r, s') := task_new s new in
  (r = None /\ tree_of s' = tree_of s /\ tasks s' = tasks s) \/
  exists n, new = Some n /\ r = Some n /\ tasks s' = <[n := task_init (next_pid s)]> (tasks s) /\ tlist s' = tlist s /\ dead s' = dead s /\
    next_pid s' = i32 (next_pid s + 1) /\ task_pid1 s' = task_pid1 s.
Proof.
  unfold task_new. destruct (CONFIG_TASK_MAX <=? total_tasks s); [by left|]. destruct new as [n|]; [|by left]. right. exists n. done.
Qed.

Lemma do_fork_tree {b} s t pgrp new x :
  tree_inv b (tree_of s) -> tasks s !! t = Some x -> life_of (state x) = Live -> fresh s new ->
  exists ret s', do_fork s t pgrp new = Done (ret, s') /\
    ((ret = -1 /\ tree_of s' = tree_of s) \/
     (exists n, new = Some n /\ ret = next_pid s /\ tree_of s' = tree_new (Some t) false n (tree_of s))).
Proof.
  intros H E Hl Hf. unfold do_fork, task_fork. pose proof (task_new_cases s new) as Hn. destruct (task_new s new) as [r s1].
  destruct Hn as [(-> & T1 & M1)|(n & Hnew & -> & M1 & L1 & D1 & P1 & I1)]; [eexists _, s1; split; [done|auto]|].
  pose proof (Hf n Hnew) as Hnone. assert (Hnt : n <> t) by congruence.
  assert (Et : tasks s1 !! t = Some x) by (by rewrite M1, lookup_insert_ne).
  assert (En : tasks s1 !! n = Some (task_init (next_pid s))) by (by rewrite M1, lookup_insert_eq).
  obind. rewrite (task_at_done _ _ _ Et). obind. rewrite (task_upd_done _ _ _ _ En). obind.
  rewrite (task_upd_done _ n _ (fork_copy t x (task_init (next_pid s)))) by apply lookup_insert_eq. obind.
  rewrite (task_upd_done _ t _ x) by (simpl; by rewrite !lookup_insert_ne). obind.
  erewrite (task_upd_done _ n) by (simpl; rewrite lookup_insert_ne by done; apply lookup_insert_eq). obind.
  erewrite task_at_done by apply lookup_insert_eq. obind. eexists _, _. split; [done|]. right. exists n. split; [done|].
  split; [by unfold fork_pgid; repeat case_match|].
  unfold tree_of, tree_new; simpl. rewrite L1, D1, P1, I1, M1. f_equal.
  apply map_eq. intros k. rewrite lookup_fmap.
  destruct (decide (n = k)) as [<-|Hnk]; [rewrite !lookup_insert_eq; simpl; f_equal; by unfold fork_pgid; repeat case_match|].
  destruct (decide (t = k)) as [<-|Htk].
  - rewrite !(lookup_insert_ne _ n t) by done. rewrite lookup_insert_eq, lookup_alter_eq, lookup_fmap, E. done.
  - rewrite !lookup_insert_ne, lookup_alter_ne, lookup_fmap by done. done.
Qed.

Lemma kernel_new_tree {b} s new :
  tree_inv b (tree_of s) -> fresh s new ->
  exists r s', task_kernel_new s new = Done (r, s') /\
    match r with
    | None => tree_of s' = tree_of s
    | Some n => new = Some n /\ tree_of (scheduler_task_add s' n) = tree_new None true n (tree_of s)
    end.
Proof.
  intros H Hf. unfold task_kernel_new. pose proof (task_new_cases s new) as Hn. destruct (task_new s new) as [r s1].
  destruct Hn as [(-> & T1 & M1)|(n & Hnew & -> & M1 & L1 & D1 & P1 & I1)]; [by exists None, s1|].
  rewrite (task_upd_done s1 n _ (task_init (next_pid s))) by (by rewrite M1, lookup_insert_eq). obind.
  eexists _, _. split; [done|]. split; [done|]. unfold tree_of, tree_new; simpl. rewrite L1, D1, P1, I1, M1. f_equal.
  by rewrite insert_insert_eq, fmap_insert.
Qed.

(** * Waiting for children *)

(** What [sys_waitpid] has to say of a child: its status, and whether it goes. *)
Definition wait_report (childpid mygroup options : Z) (x : task) : option (Z * bool) :=
  if negb (wait_matches childpid mygroup x) then None
  else if bool_decide (state x = TASK_ZOMBIE) then Some (exit_status x, true)
  else if negb (Z.land (ret_signal x) TASK_SIGNAL_CONT =? 0) && negb (Z.land options WCONTINUED =? 0) then Some (WCONTINUED_MAKE, false)
  else if negb (Z.land (ret_signal x) TASK_SIGNAL_STOP =? 0) && negb (Z.land options WUNTRACED =? 0)
  then Some (WSTOPPED_MAKE (Z.land (ret_signal x) (Z.lnot TASK_SIGNAL_STOP)), false)
  else None.

(** The first child of [cs] with something to report. *)
Fixpoint first_report (s : sched) (childpid mygroup options : Z) (cs : list Z) : option (Z * Z * bool) :=
  match cs with
  | [] => None
  | c :: cs' =>
      match tasks s !! c ≫= wait_report childpid mygroup options with
      | Some (st, kill) => Some (c, st, kill)
      | None => first_report s childpid mygroup options cs'
      end
  end.

Lemma wait_scan_spec s t cp g o cs :
  (forall c, c ∈ cs -> is_Some (tasks s !! c)) ->
  wait_scan s t cp g o cs =
  match first_report s cp g o cs with
  | None => Done (None, s)
  | Some (c, st, true) => s' ← task_upd s t (fun y => set_children (filter (fun z => z <> c) (task_children y)) y); Done (Some (c, st, true), s')
  | Some (c, st, false) => s' ← task_upd s c (set_ret_signal 0); Done (Some (c, st, false), s')
  end.
Proof.
  induction cs as [|c cs IH]; intros Hcs; [done|]. simpl.
  assert (IH' := IH ltac:(intros; apply Hcs, elem_of_cons; auto)). clear IH.
  destruct (Hcs c) as [x E]; [apply elem_of_cons; auto|]. unfold task_at. rewrite E. obind. simpl. unfold wait_report.
  destruct (wait_matches cp g x); simpl; [|done]. case_bool_decide; [done|].
  destruct (Z.land o WUNTRACED =? 0), (Z.land o WCONTINUED =? 0), (Z.land (ret_signal x) TASK_SIGNAL_CONT =? 0),
    (Z.land (ret_signal x) TASK_SIGNAL_STOP =? 0); simpl; done.
Qed.

Lemma first_report_some s cp g o cs c st kill :
  first_report s cp g o cs = Some (c, st, kill) -> c ∈ cs /\ exists x, tasks s !! c = Some x /\ wait_report cp g o x = Some (st, kill).
Proof.
  induction cs as [|c' cs IH]; simpl; [done|]. destruct (tasks s !! c') as [x|] eqn:E; simpl.
  - destruct (wait_report cp g o x) as [[st' kill']|] eqn:Er.
    + intros [= -> -> ->]. rewrite elem_of_cons. eauto.
    + intros H. rewrite elem_of_cons. apply IH in H as []. auto.
  - intros H. rewrite elem_of_cons. apply IH in H as []. auto.
Qed.

Lemma wait_report_zombie cp g o x st : wait_report cp g o x = Some (st, true) -> state x = TASK_ZOMBIE /\ st = exit_status x.
Proof. unfold wait_report. repeat case_match; try done. case_bool_decide; [|done]. by intros [= <-]. Qed.

(** An update of one task that changes neither the tree nor the statuses. *)
Lemma task_upd_same s t f x :
  tasks s !! t = Some x -> node_of (f x) = node_of x -> 
  exists s', task_upd s t f = Done s' /\ tree_of s' = tree_of s /\ tasks s' = <[t := f x]> (tasks s).
Proof.
  intros E Hn. rewrite (task_upd_done s t f x E). eexists. split; [done|]. split; [|done]. unfold tree_of; simpl. f_equal.
  rewrite fmap_insert, Hn. apply insert_id. by rewrite lookup_fmap, E.
Qed.

Lemma wait_report_state cp g o x st : life_of (state x) = Live -> life_of st = Live -> wait_report cp g o (set_state st x) = wait_report cp g o x.
Proof.
  intros Hx Hs. unfold wait_report. change (wait_matches cp g (set_state st x)) with (wait_matches cp g x).
  destruct (wait_matches cp g x); simpl; [|done].
  rewrite !bool_decide_eq_false_2; [done | intros E; by rewrite E in Hx | intros ->; done].
Qed.

Lemma first_report_state s t x st cp g o cs :
  tasks s !! t = Some x -> life_of (state x) = Live -> life_of st = Live ->
  first_report (set_tasks (<[t := set_state st x]> (tasks s)) s) cp g o cs = first_report s cp g o cs.
Proof.
  intros E Hx Hs. induction cs as [|c cs IH]; [done|]. simpl. rewrite IH.
  destruct (decide (t = c)) as [<-|]; [rewrite lookup_insert_eq, E; simpl; by rewrite wait_report_state | by rewrite lookup_insert_ne].
Qed.

(** What [sys_waitpid] hands out. *)
Definition wait_result (m : gmap Z Z) (ws : user_buffer) (p st : Z) : Z * gmap Z Z :=
  if ptr ws =? 0 then (p, m) else let '(r, m') := user_copy_from_kernel m ws st in (if r =? 0 then p else r, m').

Lemma wait_result_done m ws p st s :
  (if negb (ptr ws =? 0) then
     let '(ret, m) := user_copy_from_kernel m ws st in
     if negb (ret =? 0) then Done (WaitReturned ret m s) else Done (WaitReturned p m s)
   else Done (WaitReturned p m s)) = Done (WaitReturned (wait_result m ws p st).1 (wait_result m ws p st).2 s).
Proof. unfold wait_result. destruct (ptr ws =? 0); [done|]. simpl. destruct (user_copy_from_kernel _ _ _) as [r m']. by destruct (r =? 0). Qed.

(** The children of [t] without [c]. *)
Definition tree_unlink (t c : Z) (T : tree) : tree :=
  with_nodes (alter (fun n => n_set_children (filter (fun z => z <> c) (n_children n)) n) t (nodes T)) T.

Lemma tree_unlink_node t c T k n :
  nodes T !! k = Some n -> exists n', nodes (tree_unlink t c T) !! k = Some n' /\ n_pid n' = n_pid n /\ n_life n' = n_life n.
Proof. intros E. cbn [nodes tree_unlink with_nodes]. rewrite alter_as_fmap, E. eexists. split; [done|]. by case_decide. Qed.

Lemma children_present {b} s t x c : tree_inv b (tree_of s) -> tasks s !! t = Some x -> c ∈ task_children x -> is_Some (tasks s !! c).
Proof.
  intros H E Hc. destruct (ok_children _ H t _ c (tree_node s t x E) Hc) as (w & Ew & _). apply tree_node_inv in Ew as (? & ? & _). eauto.
Qed.

(** The start of a pass of [sys_waitpid]. *)
Lemma waitpid_scan {b} s t cp o x :
  tree_inv b (tree_of s) -> tasks s !! t = Some x -> life_of (state x) = Live ->
  exists s1 s2, task_upd s t (set_state TASK_INTR_SLEEPING) = Done s1 /\ task_at s1 t = Done (set_state TASK_INTR_SLEEPING x) /\
    wait_scan s1 t cp (pgid x) o (task_children x) = Done (first_report s cp (pgid x) o (task_children x), s2) /\
    tree_of s2 = match first_report s cp (pgid x) o (task_children x) with
                 | Some (c, _, true) => tree_unlink t c (tree_of s)
                 | _ => tree_of s
                 end.
Proof.
  intros H E Hl.
  destruct (task_upd_same s t (set_state TASK_INTR_SLEEPING) x E) as (s1 & E1 & T1 & M1); [unfold node_of; simpl; by rewrite Hl|].
  assert (A1 : tasks s1 !! t = Some (set_state TASK_INTR_SLEEPING x)) by (by rewrite M1, lookup_insert_eq).
  assert (Hr1 : first_report s1 cp (pgid x) o (task_children x) = first_report s cp (pgid x) o (task_children x)).
  { rewrite (task_upd_done _ _ _ _ E) in E1. injection E1 as <-. by rewrite first_report_state. }
  assert (Hs1 : forall k, k ∈ task_children x -> is_Some (tasks s1 !! k)).
  { intros k Hk. rewrite M1. apply has_upd. by apply (children_present (b := b) s t x). }
  pose proof (wait_scan_spec s1 t cp (pgid x) o (task_children x) Hs1) as Hscan. rewrite Hr1 in Hscan. exists s1.
  destruct (first_report s cp (pgid x) o (task_children x)) as [[[c st] [|]]|] eqn:Hr.
  - destruct (task_upd_tree s1 t (fun y => set_children (filter (fun z => z <> c) (task_children y)) y)
      (fun n => n_set_children (filter (fun z => z <> c) (n_children n)) n) _ A1) as (s2 & E2 & T2 & _); [done | done|].
    exists s2. rewrite E2 in Hscan. rewrite Hscan, T2, T1, (task_at_done _ _ _ A1). done.
  - destruct (Hs1 c) as [y Ey]; [by apply first_report_some in Hr as [? _]|].
    destruct (task_upd_same s1 c (set_ret_signal 0) y Ey) as (s2 & E2 & T2 & _); [done|].
    exists s2. rewrite E2 in Hscan. rewrite Hscan, T2, T1, (task_at_done _ _ _ A1). done.
  - exists s1. rewrite Hscan, (task_at_done _ _ _ A1). done.
Qed.

(** The caller runs again. *)
Lemma run_again s t n :
  nodes (tree_of s) !! t = Some n -> n_life n = Live ->
  exists s', task_upd s t (set_state TASK_RUNNING) = Done s' /\ tree_of s' = tree_of s.
Proof.
  intros (x & E & <-)%tree_node_inv Hl. destruct (task_upd_same s t (set_state TASK_RUNNING) x E) as (s' & -> & ? & _); [|by exists s'].
  unfold node_of. simpl in *. by rewrite Hl.
Qed.

Lemma waitpid_found {b} os m s t cp ws o x c st kill y :
  tree_inv b (tree_of s) -> tasks s !! t = Some x -> life_of (state x) = Live ->
  first_report s cp (pgid x) o (task_children x) = Some (c, st, kill) -> tasks s !! c = Some y ->
  exists s', sys_waitpid os m s t cp ws o = Done (WaitReturned (wait_result m ws (pid y) st).1 (wait_result m ws (pid y) st).2 s') /\
    tree_of s' = if kill then tree_reap t c (tree_of s) else tree_of s.
Proof.
  intros H E Hl Hr Ey. destruct (waitpid_scan s t cp o x H E Hl) as (s1 & s2 & E1 & A1 & W & T2). rewrite Hr in W, T2.
  assert (Hn : forall k n, nodes (tree_of s) !! k = Some n -> exists n', nodes (tree_of s2) !! k = Some n' /\ n_pid n' = n_pid n /\ n_life n' = n_life n).
  { intros k n En. destruct kill; rewrite T2; [by apply tree_unlink_node | by exists n]. }
  destruct (Hn t _ (tree_node s t x E)) as (nt & Ent & _ & Hlt).
  destruct (run_again s2 t nt Ent) as (s3 & E3 & T3); [by rewrite Hlt|].
  destruct (Hn c _ (tree_node s c y Ey)) as (nc & Enc & Hpc & _). rewrite <- T3 in Enc. apply tree_node_inv in Enc as (y3 & Ey3 & <-).
  simpl in Hpc. destruct kill.
  - destruct (mark_dead_tree s3 c y3 Ey3) as (s4 & E4 & T4 & _). exists s4. split; [|rewrite T4, T3, T2; done].
    destruct os; cbn [sys_waitpid]; rewrite E1; obind; rewrite A1; obind; cbn [pgid task_children set_state]; rewrite W; obind;
      rewrite E3; obind; rewrite (task_at_done _ _ _ Ey3); obind; rewrite E4; obind; by rewrite Hpc, wait_result_done.
  - exists s3. split; [|by rewrite T3, T2].
    destruct os; cbn [sys_waitpid]; rewrite E1; obind; rewrite A1; obind; cbn [pgid task_children set_state]; rewrite W; obind;
      rewrite E3; obind; rewrite (task_at_done _ _ _ Ey3); obind; by rewrite Hpc, wait_result_done.
Qed.

(** No child has anything to report: the call sleeps, or does not when told so. *)
Lemma waitpid_none {b} m s t cp ws o x :
  tree_inv b (tree_of s) -> tasks s !! t = Some x -> life_of (state x) = Live ->
  first_report s cp (pgid x) o (task_children x) = None ->
  exists s', sys_waitpid [] m s t cp ws o =
    Done (match task_children x with
          | [] => WaitReturned (if Z.land o WNOHANG =? 0 then - ECHILD else 0) m s'
          | _ => if Z.land o WNOHANG =? 0 then WaitAsleep s' else WaitReturned 0 m s'
          end) /\ tree_of s' = tree_of s.
Proof.
  intros H E Hl Hr. destruct (waitpid_scan s t cp o x H E Hl) as (s1 & s2 & E1 & A1 & W & T2). rewrite Hr in W, T2.
  destruct (run_again s2 t (node_of x)) as (s3 & E3 & T3); [rewrite T2; by apply tree_node | done|].
  cbn [sys_waitpid]. rewrite E1. obind. rewrite A1. obind. cbn [pgid task_children set_state]. rewrite W. obind.
  destruct (task_children x).
  - exists s3. rewrite E3, T3, T2. done.
  - destruct (Z.land o WNOHANG =? 0); [by exists s2|]. exists s3. rewrite E3, T3, T2. done.
Qed.

(** * The scheduler *)

(** A dead task is only freed. *)
Lemma task_free_dead {b} s t x l :
  tree_inv b (tree_of s) -> tasks s !! t = Some x -> dead s = t :: l ->
  exists s', task_free (set_lists (tlist s) l s) t = Done s' /\ tree_of s' = tree_free (tree_of s) /\
    tasks s' = delete t (tasks s) /\ log s' = log s ++ [TaskFree t].
Proof.
  intros H E Hd. unfold task_free. rewrite (task_at_done _ t x) by done. obind.
  destruct (ok_killed _ H t _ (tree_node s t x E)) as [Hk _].
  { pose proof (ok_gone _ H t _ (tree_node s t x E)) as Hg. simpl in *. rewrite Hd in Hg. rewrite (proj1 Hg); [done|]. apply elem_of_cons. auto. }
  simpl in Hk. rewrite Hk. simpl. eexists. split; [done|]. split; [|done].
  unfold tree_free, tree_of; simpl. rewrite Hd, fmap_delete. done.
Qed.

Lemma free_dead_tree {b} l : forall s,
  tree_inv b (tree_of s) -> dead s = l ->
  exists s', free_dead s l = Done s' /\ tree_inv b (tree_of s') /\ dead s' = [] /\ tlist s' = tlist s /\ task_pid1 s' = task_pid1 s /\
    next_pid s' = next_pid s /\ (forall k, k ∉ l -> tasks s' !! k = tasks s !! k) /\ log s' = log s ++ (TaskFree <$> l).
Proof.
  induction l as [|t l IH]; intros s H Hd; [exists s; rewrite app_nil_r; done|].
  destruct (proj2 (ok_nodes _ H t)) as [n En]; [simpl; rewrite Hd, elem_of_app, elem_of_cons; auto|].
  apply tree_node_inv in En as (x & E & _). destruct (task_free_dead s t x l H E Hd) as (s1 & E1 & T1 & M1 & L1). simpl. rewrite E1. obind.
  pose proof (f_equal gone T1) as D1. pose proof (f_equal listed T1) as Li1. pose proof (f_equal init T1) as I1. pose proof (f_equal fresh_pid T1) as F1.
  unfold tree_free in D1, Li1, I1, F1. simpl in *. rewrite Hd in *. simpl in *.
  destruct (IH s1) as (s2 & E2 & H2 & D2 & Li2 & I2 & F2 & M2 & L2); [rewrite T1; by apply tree_free_ok | done|].
  exists s2. split; [done|]. split; [done|]. split; [done|]. split; [congruence|]. split; [congruence|]. split; [congruence|]. split.
  - intros k Hk. rewrite elem_of_cons in Hk. rewrite M2 by tauto. rewrite M1. apply lookup_delete_ne. intros <-. tauto.
  - by rewrite L2, L1, <- app_assoc.
Qed.

(** Whether the scheduler may pick a task. *)
Definition runnable (x : task) : bool := preempted x || bool_decide (state x = TASK_RUNNING).

Lemma find_runnable_spec s l :
  (forall t, t ∈ l -> is_Some (tasks s !! t)) ->
  exists r, find_runnable s l = Done r /\
    match r with
    | None => forall t x, t ∈ l -> tasks s !! t = Some x -> runnable x = false
    | Some t => exists pre post, l = pre ++ t :: post /\ (exists x, tasks s !! t = Some x /\ runnable x = true) /\
        (forall k x, k ∈ pre -> tasks s !! k = Some x -> runnable x = false)
    end.
Proof.
  induction l as [|t l IH]; intros Hl; [exists None; split; [done|]; by intros t x ?%elem_of_nil|]. simpl.
  destruct (Hl t) as [x E]; [apply elem_of_cons; auto|]. rewrite (task_at_done _ _ _ E). obind.
  destruct (preempted x || _) eqn:Hr.
  - exists (Some t). split; [done|]. exists [], l. split; [done|]. split; [eauto|]. by intros k y ?%elem_of_nil.
  - destruct IH as (r & Er & Hres); [intros; apply Hl, elem_of_cons; auto|]. exists r. split; [done|]. destruct r as [t'|].
    + destruct Hres as (pre & post & -> & Ht' & Hpre). exists (t :: pre), post. split; [done|]. split; [done|].
      intros k y [->|Hk]%elem_of_cons Ek; [by simplify_eq | by apply (Hpre k)].
    + intros k y [->|Hk]%elem_of_cons Ek; [by simplify_eq | by apply (Hres k)].
Qed.

Lemma rotate_after_spec t pre : forall post before,
  t ∉ pre -> rotate_after t (pre ++ t :: post) before = post ++ before ++ pre ++ [t].
Proof.
  induction pre as [|x pre IH]; intros post before Hn; simpl; [by rewrite Z.eqb_refl|].
  rewrite elem_of_cons in Hn. destruct (Z.eqb_spec x t); [subst; tauto|]. rewrite IH by tauto. by rewrite <- !app_assoc.
Qed.

(** A turn of the scheduler: the dead tasks are freed, and the first task that can
    run is picked and goes, with those before it, behind the others. *)
Lemma schedule_spec {b} s :
  tree_inv b (tree_of s) ->
  exists r s', schedule s = Done (r, s') /\ tree_inv b (tree_of s') /\ dead s' = [] /\ log s' = log s ++ (TaskFree <$> dead s) /\
    task_pid1 s' = task_pid1 s /\
    match r with
    | None => tlist s' = tlist s /\ forall t x, t ∈ tlist s -> tasks s !! t = Some x -> runnable x = false
    | Some t => exists pre post, tlist s = pre ++ t :: post /\ tlist s' = post ++ pre ++ [t] /\
        (exists x, tasks s !! t = Some x /\ runnable x = true /\ tasks s' !! t = Some (set_running true (set_preempted false x))) /\
        (forall k x, k ∈ pre -> tasks s !! k = Some x -> runnable x = false)
    end /\
    (forall k, k ∈ tlist s -> r <> Some k -> tasks s' !! k = tasks s !! k).
Proof.
  intros H. unfold schedule. destruct (free_dead_tree (dead s) s H eq_refl) as (s1 & -> & H1 & D1 & L1 & I1 & F1 & M1 & G1). obind.
  assert (Hk : forall k, k ∈ tlist s -> tasks s1 !! k = tasks s !! k).
  { intros k Hk. apply M1. pose proof (ok_lists _ H) as Hn. apply NoDup_app in Hn as (_ & Hn & _). by apply Hn. }
  destruct (find_runnable_spec s1 (tlist s1)) as (r & -> & Hr); [intros k ?; by apply (has_listed (b := b))|]. obind. rewrite L1 in Hr.
  destruct r as [t|].
  - destruct Hr as (pre & post & El & (x & E & Hx) & Hpre).
    destruct (task_upd_same s1 t (fun x => set_running true (set_preempted false x)) x E) as (s2 & E2 & T2 & M2); [done|]. rewrite E2. obind.
    assert (L2 : tlist s2 = tlist s) by (change (listed (tree_of s2) = tlist s); by rewrite T2).
    assert (Htp : t ∉ pre).
    { pose proof (ok_lists _ H) as Hn. simpl in Hn. rewrite El, <- app_assoc in Hn. apply NoDup_app in Hn as (_ & Hn & _).
      intros Hin. apply (Hn t Hin). simpl. apply elem_of_cons. auto. }
    eexists _, _. split; [done|]. simpl. rewrite L2, El, rotate_after_spec by done. simpl.
    assert (Hs2 : dead s2 = [] /\ task_pid1 s2 = task_pid1 s /\ log s2 = log s ++ (TaskFree <$> dead s)).
    { rewrite (task_upd_done _ _ _ _ E) in E2. injection E2 as <-. by simpl. }
    destruct Hs2 as (D2 & I2 & G2).
    split; [|split; [done|]; split; [done|]; split; [done|]; split].
    + assert (HR := tree_rotate_ok (b := b) (tree_of s2) (post ++ pre ++ [t])). rewrite T2 in HR. specialize (HR H1).
      rewrite <- T2 in HR. apply HR. rewrite T2. simpl. rewrite L1, El. solve_Permutation.
    + exists pre, post. split; [done|]. split; [done|]. split.
      * exists x. rewrite <- Hk by (rewrite El, elem_of_app, elem_of_cons; auto). split; [done|]. split; [done|]. by rewrite M2, lookup_insert_eq.
      * intros k y Hin Ek. apply (Hpre k); [done|]. rewrite Hk; [done|]. rewrite El, elem_of_app. auto.
    + intros k Hin Hne. rewrite M2, lookup_insert_ne by congruence. apply Hk. by rewrite El.
  - exists None, s1. split; [done|]. split; [done|]. split; [done|]. split; [done|]. split; [done|]. split; [split; [done|]|auto].
    intros t x Hin Ex. apply (Hr t); [done|]. by rewrite Hk.
Qed.

(** * The calls of tasks, in any order *)

Inductive call : Type :=
| CFork (t pgrp : Z) (new : option Z)
| CExit (t code : Z)
| CWaitpid (t childpid : Z) (wstatus : user_buffer) (options : Z)
| CSignal (p signal : Z) (force : bool)
| CSetpgid (t p pg : Z)
| CSetsid (t : Z)
| CWake (t : Z)
| CPreempt (t : Z)
| CKernelThread (new : option Z)
| CSchedule
| CSwitchBack (t : Z).

(** A call on the memory of the user and the tasks.  [sys_waitpid] that falls
    asleep makes another call when it wakes up. *)
Definition do_call (ms : gmap Z Z * sched) (c : call) : outcome (gmap Z Z * sched) :=
  let '(m, s) := ms in
  match c with
  | CFork t pgrp new => '(_, s) ← do_fork s t pgrp new; Done (m, s)
  | CExit t code => s ← sys_exit s t code; Done (m, s)
  | CWaitpid t cp ws o =>
      r ← sys_waitpid [] m s t cp ws o;
      Done (match r with WaitReturned _ m' s' => (m', s') | WaitAsleep s' => (m, s') end)
  | CSignal p sig force => '(_, s) ← scheduler_task_send_signal s p sig force; Done (m, s)
  | CSetpgid t p pg => '(_, s) ← sys_setpgid s t p pg; Done (m, s)
  | CSetsid t => '(_, s) ← sys_setsid s t; Done (m, s)
  | CWake t => s ← scheduler_task_wake s t; Done (m, s)
  | CPreempt t => s ← scheduler_task_yield_preempt s t; Done (m, s)
  | CKernelThread new =>
      '(r, s) ← task_kernel_new s new;
      Done (m, match r with Some n => scheduler_task_add s n | None => s end)
  | CSchedule => '(_, s) ← schedule s; Done (m, s)
  | CSwitchBack t => s ← schedule_end s t; Done (m, s)
  end.

Fixpoint do_calls (ms : gmap Z Z * sched) (cs : list call) : outcome (gmap Z Z * sched) :=
  match cs with [] => Done ms | c :: cs' => ms ← do_call ms c; do_calls ms cs' end.

(** How many pids the calls may take. *)
Fixpoint births (cs : list call) : Z :=
  match cs with [] => 0 | (CFork _ _ _ | CKernelThread _) :: cs' => 1 + births cs' | _ :: cs' => births cs' end.

Definition alive (s : sched) (t : Z) : bool :=
  match tasks s !! t with
  | Some x => match life_of (state x) with Live => true | _ => false end
  | None => false
  end.

Definition unused (s : sched) (new : option Z) : bool :=
  match new with Some n => match tasks s !! n with None => true | Some _ => false end | None => true end.

(** Who makes a call is alive; a task with pid 1 does not end; [kmalloc] returns
    memory that is not a task. *)
Definition legal (s : sched) (c : call) : bool :=
  match c with
  | CFork t _ new => alive s t && unused s new
  | CExit t _ => alive s t && match tasks s !! t with Some x => negb (pid x =? 1) | None => false end
  | CWaitpid t _ _ _ | CSetpgid t _ _ | CSetsid t => alive s t
  | CWake t | CPreempt t | CSwitchBack t => match tasks s !! t with Some _ => true | None => false end
  | CKernelThread new => unused s new
  | CSignal _ _ _ | CSchedule => true
  end.

Fixpoint legal_calls (ms : gmap Z Z * sched) (cs : list call) : bool :=
  match cs with
  | [] => true
  | c :: cs' => legal ms.2 c && match do_call ms c with Done ms => legal_calls ms cs' | _ => true end
  end.

Lemma alive_live s t : alive s t = true -> exists x, tasks s !! t = Some x /\ life_of (state x) = Live.
Proof. unfold alive. destruct (tasks s !! t) as [x|]; [|done]. destruct (life_of (state x)) eqn:E; [|done|done]. eauto. Qed.

Lemma unused_fresh s new : unused s new = true -> fresh s new.
Proof. intros H n ->. unfold unused in H. by destruct (tasks s !! n). Qed.

Lemma find_pid_spec s p l :
  (forall t, t ∈ l -> is_Some (tasks s !! t)) ->
  exists r, find_pid s p l = Done r /\ forall t, r = Some t -> t ∈ l /\ exists x, tasks s !! t = Some x /\ pid x = p.
Proof.
  induction l as [|t l IH]; intros Hl; [by exists None|]. simpl. destruct (Hl t) as [x E]; [apply elem_of_cons; auto|].
  rewrite (task_at_done _ _ _ E). obind. destruct (Z.eqb_spec (pid x) p).
  - exists (Some t). split; [done|]. intros k [= <-]. rewrite elem_of_cons. eauto.
  - destruct IH as (r & Er & Hr); [intros; apply Hl, elem_of_cons; auto|]. exists r. split; [done|]. intros k Hk.
    destruct (Hr k Hk) as [? ?]. rewrite elem_of_cons. auto.
Qed.

Lemma setpgid_tree {b} s t p pg x :
  tree_inv b (tree_of s) -> tasks s !! t = Some x -> exists r s', sys_setpgid s t p pg = Done (r, s') /\ tree_of s' = tree_of s.
Proof.
  intros H E. unfold sys_setpgid. destruct (negb (p =? 0)).
  - destruct (find_pid_spec s p (tlist s)) as (r & Er & Hr); [intros; by apply (has_listed (b := b))|]. unfold scheduler_task_get. rewrite Er. obind.
    destruct r as [t'|]; [|eauto]. destruct (Hr t' eq_refl) as (_ & y & Ey & _).
    edestruct (task_upd_same s t') as (s' & -> & T & _); [exact Ey | |obind; by exists 0, s']. done.
  - rewrite (task_at_done _ _ _ E). obind. edestruct (task_upd_same s t) as (s' & -> & T & _); [exact E | |obind; by exists 0, s']. done.
Qed.

Lemma setsid_tree s t x : tasks s !! t = Some x -> exists r s', sys_setsid s t = Done (r, s') /\ tree_of s' = tree_of s.
Proof.
  intros E. unfold sys_setsid. rewrite (task_at_done _ _ _ E). obind. destruct (_ || _); [eauto|].
  destruct (task_upd_same s t set_leader x E) as (s' & -> & T & _); [done|]. obind. by exists (pid x), s'.
Qed.

Lemma quiet_call s t f :
  (match tasks s !! t with Some _ => true | None => false end) = true -> (forall x, node_of (f x) = node_of x) ->
  exists s', task_upd s t f = Done s' /\ tree_of s' = tree_of s.
Proof.
  intros H Hf. destruct (tasks s !! t) as [x|] eqn:E; [|done]. destruct (task_upd_same s t f x E) as (s' & ? & ? & _); eauto.
Qed.

Lemma tree_exit_pid T t : fresh_pid (tree_exit t T) = fresh_pid T.
Proof.
  assert (Ha : forall cs T, fresh_pid (tree_adopt_all t cs T) = fresh_pid T).
  { induction cs as [|c cs IH]; intros T'; [done|]. unfold tree_adopt_all in *. simpl. by rewrite IH. }
  unfold tree_exit. case_match; [case_match|]; cbn [tree_die fresh_pid tree_zombie tree_life with_nodes]; try done; unfold tree_zombie, tree_life; cbn [with_nodes fresh_pid]; by rewrite Ha.
Qed.

Lemma schedule_pid {b} s r s' : tree_inv b (tree_of s) -> schedule s = Done (r, s') -> next_pid s' = next_pid s.
Proof.
  intros H. unfold schedule. destruct (free_dead_tree (dead s) s H eq_refl) as (s1 & -> & _ & _ & _ & _ & F1 & _). obind.
  intros ([t|] & _ & E)%outcome_bind_done; [|congruence]. apply outcome_bind_done in E as (s2 & E2 & [= _ <-]).
  unfold task_upd in E2. destruct (tasks s1 !! t); [|done]. by injection E2 as <-.
Qed.

(** A call that leads to the tree [T], for which at most [n] pids were taken. *)
Lemma call_tree {b : Prop} s s' T n :
  tree_of s' = T -> tree_inv b T -> (b -> fresh_pid T <= fresh_pid (tree_of s) + n) ->
  tree_inv b (tree_of s') /\ (b -> next_pid s' <= next_pid s + n).
Proof. intros <- H Hp. done. Qed.

Lemma call_quiet {b : Prop} s s' n :
  tree_inv b (tree_of s) -> 0 <= n -> tree_of s' = tree_of s -> tree_inv b (tree_of s') /\ (b -> next_pid s' <= next_pid s + n).
Proof. intros H Hn T. apply (call_tree s s' (tree_of s)); [done | done | lia]. Qed.

Lemma do_call_ok {b} m s c :
  tree_inv b (tree_of s) -> legal s c = true -> (b -> next_pid s + births [c] < 2 ^ 31) ->
  exists m' s', do_call (m, s) c = Done (m', s') /\ tree_inv b (tree_of s') /\ (b -> next_pid s' <= next_pid s + births [c]).
Proof.
  intros H Hc Hroom. destruct c as [t pgrp new|t code|t cp ws o|p sig force|t p pg|t|t|t|new| |t]; cbn [do_call legal births] in *.
  - apply andb_true_iff in Hc as [(x & E & Hl)%alive_live Hf%unused_fresh].
    destruct (do_fork_tree s t pgrp new x H E Hl Hf) as (r & s' & -> & [[_ T]|(n & -> & _ & T)]); exists m, s'; (split; [done|]); [by apply call_quiet|].
    apply (call_tree _ _ _ _ T); [apply tree_new_ok; [done | simpl; rewrite lookup_fmap, (Hf n eq_refl); done | | done | exact Hroom] |].
    + intros k [= <-]. exists (node_of x). split; [by apply tree_node | done].
    + intros Hb. simpl. destruct (new_pid (b := b) (tree_of s) Hb H (Hroom Hb)) as [_ Hn]. simpl in Hn. lia.
  - apply andb_true_iff in Hc as [(x & E & Hl)%alive_live Hp]. rewrite E in Hp.
    assert (Hp1 : pid x <> 1) by (intros Hp1; by rewrite Hp1 in Hp).
    destruct (sys_exit_tree s t code x H E Hl Hp1) as (s' & -> & T & _). exists m, s'. split; [done|]. apply (call_tree _ _ _ _ T); [|rewrite tree_exit_pid; lia].
    apply (tree_exit_ok _ t (node_of x) H); [|by apply tree_node | done]. by apply (exit_not_init s t x H E).
  - apply alive_live in Hc as (x & E & Hl). destruct (first_report s cp (pgid x) o (task_children x)) as [[[c st] kill]|] eqn:Hr.
    + destruct (first_report_some _ _ _ _ _ _ _ _ Hr) as (Hin & y & Ey & Hrep).
      destruct (waitpid_found [] m s t cp ws o x c st kill y H E Hl Hr Ey) as (s' & -> & T). obind. eexists _, s'. split; [done|].
      destruct kill; [|by apply call_quiet]. apply (call_tree _ _ _ _ T); [|simpl; lia]. apply (tree_reap_ok _ t c (node_of y)); [done | by apply tree_node | |].
      * apply wait_report_zombie in Hrep as [Hz _]. simpl. by rewrite Hz.
      * destruct (ok_children _ H t _ c (tree_node s t x E) Hin) as (w & Ew & Hw & _). rewrite (tree_node s c y Ey) in Ew. simplify_eq. auto.
    + destruct (waitpid_none m s t cp ws o x H E Hl Hr) as (s' & -> & T). obind.
      destruct (task_children x), (Z.land o WNOHANG =? 0); eexists m, s'; (split; [done|]); by apply call_quiet.
  - destruct (send_signal_quiet node_of s p sig force wake_node (post_signal_node _ _) H) as (r & s' & -> & _ & T).
    exists m, s'. split; [done|]. by apply call_quiet.
  - apply alive_live in Hc as (x & E & _). destruct (setpgid_tree s t p pg x H E) as (r & s' & -> & T). exists m, s'. split; [done|]. by apply call_quiet.
  - apply alive_live in Hc as (x & E & _). destruct (setsid_tree s t x E) as (r & s' & -> & T). exists m, s'. split; [done|]. by apply call_quiet.
  - destruct (quiet_call s t wake Hc wake_node) as (s' & E' & T). unfold scheduler_task_wake. rewrite E'. exists m, s'. split; [done|]. by apply call_quiet.
  - destruct (quiet_call s t (set_preempted true) Hc) as (s' & E' & T); [done|]. unfold scheduler_task_yield_preempt. rewrite E'. exists m, s'.
    split; [done|]. by apply call_quiet.
  - apply unused_fresh in Hc. destruct (kernel_new_tree s new H Hc) as (r & s' & -> & Hr). obind. eexists m, _. split; [done|].
    destruct r as [n|]; [|by apply call_quiet]. destruct Hr as [-> T].
    apply (call_tree _ _ _ _ T); [apply tree_new_ok; [done | simpl; rewrite lookup_fmap, (Hc n eq_refl); done | done | done | exact Hroom] |].
    intros Hb. simpl. destruct (new_pid (b := b) (tree_of s) Hb H (Hroom Hb)) as [_ Hn]. simpl in Hn. lia.
  - destruct (schedule_spec s H) as (r & s' & E' & H' & _). rewrite E'. exists m, s'. split; [done|]. split; [done|]. intros _.
    rewrite (schedule_pid s r s' H E'). lia.
  - destruct (quiet_call s t (set_running false) Hc) as (s' & E' & T); [done|]. unfold schedule_end. rewrite E'. exists m, s'. split; [done|]. by apply call_quiet.
Qed.

Lemma births_cons c cs : births (c :: cs) = births [c] + births cs /\ 0 <= births [c].
Proof. by destruct c; simpl; lia. Qed.

Lemma births_pos cs : 0 <= births cs.
Proof. induction cs as [|c cs IH]; [done|]. destruct (births_cons c cs). lia. Qed.

Lemma do_calls_ok {b : Prop} cs : forall m s,
  tree_inv b (tree_of s) -> legal_calls (m, s) cs = true -> (b -> next_pid s + births cs < 2 ^ 31) ->
  exists m' s', do_calls (m, s) cs = Done (m', s') /\ tree_inv b (tree_of s').
Proof.
  induction cs as [|c cs IH]; intros m s H; [eauto|]. destruct (births_cons c cs) as [-> _]. pose proof (births_pos cs).
  cbn [do_calls legal_calls]. intros [Hc Hcs]%andb_true_iff Hroom.
  destruct (do_call_ok m s c H Hc) as (m' & s' & E & H' & Hp); [intros Hb; specialize (Hroom Hb); lia|].
  rewrite E in Hcs |- *. obind. apply IH; [done | done|]. intros Hb. specialize (Hp Hb). specialize (Hroom Hb). lia.
Qed.

(** Before init, there are only threads of the kernel, with pids from 2. *)
Definition boot_node (p : Z) : pnode :=
  {| n_pid := p; n_parent := None; n_children := []; n_killed := false; n_kernel := true; n_life := Live |}.

Record boot_ok (b : Prop) (s : sched) : Prop := {
  bo_list : NoDup (tlist s);
  bo_dead : dead s = [];
  bo_tasks : forall t, is_Some (tasks s !! t) <-> t ∈ tlist s;
  bo_node : forall t x, tasks s !! t = Some x -> node_of x = boot_node (pid x);
  bo_fresh : b -> forall t x, tasks s !! t = Some x -> 1 < pid x < next_pid s;
  bo_pids : b -> forall t t' x x', tasks s !! t = Some x -> tasks s !! t' = Some x' -> pid x = pid x' -> t = t';
}.

Arguments bo_list {b} s _.
Arguments bo_dead {b} s _.
Arguments bo_tasks {b} s _.
Arguments bo_node {b} s _.
Arguments bo_fresh {b} s _.
Arguments bo_pids {b} s _.

Lemma boot_ok_add {b} s t x p s' :
  boot_ok b s -> (b -> 1 < p) -> tasks s !! t = None -> node_of x = boot_node p -> (b -> next_pid s <= p) ->
  tasks s' = <[t := x]> (tasks s) -> tlist s' = tlist s ++ [t] -> dead s' = dead s -> (b -> next_pid s' = p + 1) -> boot_ok b s'.
Proof.
  intros H Hp1 Ht Hn Hp M L D P. assert (Hpx : pid x = p) by (by apply (f_equal n_pid) in Hn).
  assert (Hlook : forall k y, tasks s' !! k = Some y -> (k = t /\ y = x) \/ (k <> t /\ tasks s !! k = Some y)).
  { intros k y. rewrite M, lookup_insert_Some. intros [[<- <-]|[? ?]]; auto. }
  assert (Htl : t ∉ tlist s) by (intros [? ?]%(bo_tasks s H); congruence).
  split; rewrite ?L.
  - apply NoDup_app. split; [apply H|]. split; [|apply NoDup_singleton]. intros k Hk ->%list_elem_of_singleton. done.
  - rewrite D. apply H.
  - intros k. rewrite M, elem_of_app, list_elem_of_singleton, lookup_insert_is_Some', (bo_tasks s H k). intuition.
  - intros k y [[-> ->]|[_ E]]%Hlook; [by rewrite Hpx | by apply (bo_node s H k)].
  - intros Hb k y [[-> ->]|[_ E]]%Hlook; rewrite (P Hb); specialize (Hp1 Hb); specialize (Hp Hb); [lia|]. pose proof (bo_fresh s H Hb k y E). lia.
  - intros Hb k k' y y' Ek Ek' Hpp. specialize (Hp Hb).
    apply Hlook in Ek as [[-> ->]|[_ E]], Ek' as [[-> ->]|[_ E']]; [done | | | by apply (bo_pids s H Hb k k' y y')].
    + pose proof (bo_fresh s H Hb k' y' E'). lia.
    + pose proof (bo_fresh s H Hb k y E). lia.
Qed.

Lemma initcall_threads_ok {b : Prop} ks : forall s s',
  boot_ok b s -> (b -> 1 < next_pid s /\ next_pid s + Z.of_nat (length ks) < 2 ^ 31) -> NoDup ks -> (forall k, k ∈ ks -> tasks s !! k = None) -> initcall_threads s ks = Done s' ->
  boot_ok b s' /\ (b -> 1 < next_pid s' <= next_pid s + Z.of_nat (length ks)) /\ (forall k, k ∉ ks -> tasks s' !! k = tasks s !! k).
Proof.
  induction ks as [|k ks IH]; intros s s' H Hp Hn Hf; simpl; [intros [= <-]; split; [done|]; split; [intros Hb; specialize (Hp Hb); lia | done]|]. apply NoDup_cons in Hn as [Hk Hn].
  unfold task_kernel_new. pose proof (task_new_cases s (Some k)) as Hc. destruct (task_new s (Some k)) as [r s1].
  destruct Hc as [(-> & _)|(n & [= <-] & -> & M1 & L1 & D1 & P1 & _)]; [done|].
  rewrite (task_upd_done s1 k _ (task_init (next_pid s))) by (by rewrite M1, lookup_insert_eq). obind. intros Hrun. cbn [length] in Hp |- *.
  assert (Hs : b -> i32 (next_pid s + 1) = next_pid s + 1) by (intros Hb; specialize (Hp Hb); rewrite i32_small; lia).
  apply IH in Hrun as (H' & Hp' & Hl'); simpl; [| |rewrite P1; intros Hb; rewrite (Hs Hb); specialize (Hp Hb); simpl in Hp; lia|done|].
  - split; [done|]. split; [intros Hb; specialize (Hp' Hb); cbn in Hp' |- *; rewrite P1, (Hs Hb) in Hp'; lia|]. intros j Hj. rewrite elem_of_cons in Hj. rewrite Hl' by tauto. simpl. rewrite M1, insert_insert_eq.
    apply lookup_insert_ne. intros <-. tauto.
  - eapply (boot_ok_add s k (set_kernel (task_init (next_pid s))) (next_pid s)); simpl; rewrite ?M1, ?L1, ?D1, ?insert_insert_eq; try done.
    + intros Hb. by destruct (Hp Hb).
    + apply Hf, elem_of_cons. auto.
    + rewrite P1. apply Hs.
  - intros j Hj. rewrite M1, insert_insert_eq, lookup_insert_ne by (intros <-; done). apply Hf, elem_of_cons. auto.
Qed.

(** The state in which init starts is a tree. *)
Lemma boot_tree {b : Prop} kt ks it root s :
  NoDup (kt :: ks ++ [it]) -> start_user_init (kmain ktasks kt) ks (Some it) root = Done s -> (b -> Z.of_nat (length ks) + 4 < 2 ^ 31) ->
  tree_inv b (tree_of s) /\ (b -> next_pid s <= Z.of_nat (length ks) + 4).
Proof.
  intros [Hkt [Hks [Hd _]]%NoDup_app]%NoDup_cons. rewrite elem_of_app, list_elem_of_singleton in Hkt. unfold start_user_init. intros H Hroom. inv_outcome.
  assert (H0 : boot_ok b (kmain ktasks kt)).
  { apply (boot_ok_add ktasks kt (set_kernel (task_init 2)) 2); simpl; try done; try lia.
    split; simpl; try done; [constructor|]. intros t. rewrite lookup_empty, elem_of_nil. split; [by intros [? ?] | done]. }
  apply (initcall_threads_ok (b := b)) in Hm as (H1 & Hp1 & Hl1); [|done|change (next_pid (kmain ktasks kt)) with 3; intros Hb; specialize (Hroom Hb); lia|done|].
  change (next_pid (kmain ktasks kt)) with 3 in Hp1.
  2: { intros k Hk. simpl. rewrite lookup_insert_ne, lookup_empty by (intros <-; tauto). done. }
  assert (Hit : tasks r !! it = None).
  { rewrite Hl1 by (intros Hin; apply (Hd it Hin), list_elem_of_singleton; done). simpl. rewrite lookup_insert_ne, lookup_empty by tauto. done. }
  pose proof (task_new_cases r (Some it)) as Hc. destruct (task_new r (Some it)) as [o s1].
  destruct Hc as [(-> & _)|(n & [= <-] & -> & M1 & L1 & D1 & P1 & _)]; [done|].
  rewrite (task_upd_done s1 it _ (task_init (next_pid r))) in H by (by rewrite M1, lookup_insert_eq). injection H as <-.
  assert (Hlook : forall k y, (node_of <$> <[it := set_init root (task_init (next_pid r))]> (<[it := task_init (next_pid r)]> (tasks r))) !! k = Some y ->
    (k = it /\ y = {| n_pid := 1; n_parent := None; n_children := []; n_killed := false; n_kernel := false; n_life := Live |}) \/
    (k ∈ tlist r /\ exists x, tasks r !! k = Some x /\ y = boot_node (pid x))).
  { intros k y. rewrite lookup_fmap, fmap_Some, insert_insert_eq. intros (x & [[<- <-]|[_ Hx]]%lookup_insert_Some & ->); [auto|].
    right. split; [apply (bo_tasks r H1); eauto|]. exists x. split; [done|]. apply (bo_node r H1 k x Hx). }
  assert (Htl : it ∉ tlist r) by (intros [? ?]%(bo_tasks r H1); congruence).
  assert (Hpn : b -> 3 <= i32 (next_pid r + 1) <= Z.of_nat (length ks) + 4 /\ i32 (next_pid r + 1) = next_pid r + 1)
    by (intros Hb; specialize (Hp1 Hb); specialize (Hroom Hb); rewrite i32_small; lia).
  split; [|cbn; rewrite P1; intros Hb; specialize (Hpn Hb); lia].
  split; cbn [tree_of nodes listed gone fresh_pid init tasks tlist dead next_pid task_pid1 scheduler_task_add set_pid1 emit set_lists set_tasks];
    rewrite ?M1, ?L1, ?D1, ?P1, ?(bo_dead r H1), ?app_nil_r.
  - apply NoDup_app. split; [apply H1|]. split; [|apply NoDup_singleton]. intros k Hk ->%list_elem_of_singleton. done.
  - intros k. rewrite lookup_fmap, fmap_is_Some, insert_insert_eq, lookup_insert_is_Some', elem_of_app, list_elem_of_singleton, (bo_tasks r H1 k). intuition.
  - eexists. rewrite lookup_fmap, lookup_insert_eq. simpl. split; [done|]. done.
  - intros k y [[-> ->]|(_ & x & E & ->)]%Hlook; simpl; rewrite elem_of_nil; done.
  - intros k y [[-> ->]|(_ & x & E & ->)]%Hlook; done.
  - intros k y p [[-> ->]|(_ & x & E & ->)]%Hlook; done.
  - intros p y c [[-> ->]|(_ & x & E & ->)]%Hlook Hin; by apply elem_of_nil in Hin.
  - intros p y [[-> ->]|(_ & x & E & ->)]%Hlook; constructor.
  - intros k y [[-> ->]|(_ & x & E & ->)]%Hlook; done.
  - exists (fun _ => O). intros k y p [[-> ->]|(_ & x & E & ->)]%Hlook; done.
  - intros Hb k k' y y' [[-> ->]|(_ & x & E & ->)]%Hlook [[-> ->]|(_ & x' & E' & ->)]%Hlook; simpl; [done | | | by apply (bo_pids r H1 Hb)].
    + pose proof (bo_fresh r H1 Hb k' x' E'). lia.
    + pose proof (bo_fresh r H1 Hb k x E). lia.
  - intros Hb k y [[-> ->]|(_ & x & E & ->)]%Hlook; destruct (Hpn Hb) as [Hq Eq]; cbn [n_pid boot_node]; rewrite Eq in *; [lia|]. pose proof (bo_fresh r H1 Hb k x E). lia.
  - intros Hb k y p w [[-> ->]|(_ & x & E & ->)]%Hlook; done.
Qed.
