(* ===== verification/TaskLife.v ===== *)
(** The theorems on tasks: no order of their calls breaks the process tree; what a
    parent learns of a child that ended; and that every task that can run does. *)
From stdpp Require Import base numbers list gmap.
From Stdlib Require Import ZArith ZifyBool Lia.
From S2P Require Import Prelude UserMem Users Task TaskTree TaskProps.
Open Scope Z_scope.

(** * Safety *)

(** C20: from the state in which init is started, tasks may make the calls of [call]
    in any order and with any arguments (the only conditions are that who makes a
    call is alive, that a task that is woken up, preempted or switched from exists,
    that no task with pid 1 ends and that [kmalloc] returns unused memory): no call
    uses a task that has been freed, and after each of them the
    tasks form a tree: every task is in one of the two lists, every child hangs
    under a live parent that can reap it, following the parents ends at a task without
    one, a task that ended has no children left, and init is alive.  Until the 32-bit
    counter of pids wraps around, that is as long as fewer than 2^31 pids have been
    taken, moreover no two tasks have the same pid and a child has a larger pid than
    its parent; after it pids are reused without a look at the tasks there are. *)
Theorem calls_keep_tree kt ks it root s0 m cs :
  NoDup (kt :: ks ++ [it]) -> start_user_init (kmain ktasks kt) ks (Some it) root = Done s0 -> legal_calls (m, s0) cs = true ->
  exists m' s', do_calls (m, s0) cs = Done (m', s') /\ tree_shape (tree_of s') /\
    (Z.of_nat (length ks) + 4 + births cs < 2 ^ 31 -> tree_ok (tree_of s')).
Proof.
  intros Hn Hb Hl. set (b := Z.of_nat (length ks) + 4 + births cs < 2 ^ 31). pose proof (births_pos cs).
  destruct (boot_tree (b := b) kt ks it root s0 Hn Hb) as [H0 Hp]; [unfold b; lia|].
  destruct (do_calls_ok cs m s0 H0 Hl) as (m' & s' & E & H'); [intros Hb'; specialize (Hp Hb'); unfold b in Hb'; lia|].
  exists m', s'. split; [done|]. split; [by apply inv_shape in H'|]. intros Hb'. by apply (inv_weaken b).
Qed.

(** A child of init ends after its own child, which init reaps. *)
Definition family_calls : list call :=
  [CFork 300 (-1) (Some 400); CFork 400 0 (Some 500); CSchedule; CExit 500 3; CWake 400; CExit 400 7;
   CWaitpid 300 (-1) (make_user_buffer 0) 0; CWaitpid 300 (-1) (make_user_buffer 0) WNOHANG; CSchedule; CSignal 1 SIGCHLD false].

Definition booted : sched :=
  match start_user_init (kmain ktasks 100) [200] (Some 300) 50 with Done s => s | _ => ktasks end.

Lemma calls_keep_tree_witness :
  exists m' s', do_calls (∅, booted) family_calls = Done (m', s') /\ tree_ok (tree_of s').
Proof.
  destruct (calls_keep_tree 100 [200] 300 50 booted ∅ family_calls) as (m' & s' & E & _ & H);
    [apply (bool_decide_unpack _); vm_compute; exact I | vm_compute; reflexivity | vm_compute; reflexivity |].
  exists m', s'. split; [exact E|]. apply H. reflexivity.
Defined.

(** * What the parent learns *)

Lemma first_report_pid s q g o t x cs :
  (forall c y, c ∈ cs -> tasks s !! c = Some y -> pid y = q -> c = t) -> t ∈ cs -> tasks s !! t = Some x -> pid x = q -> 0 < q ->
  state x = TASK_ZOMBIE -> first_report s q g o cs = Some (t, exit_status x, true).
Proof.
  intros Hu Hin E Hp Hq Hz. induction cs as [|c cs IH]; [by apply elem_of_nil in Hin|]. simpl.
  assert (Hm : forall y, wait_matches q g y = (pid y =? q)).
  { intros y. unfold wait_matches. destruct (Z.eqb_spec q 0); [lia|]. destruct (Z.ltb_spec 0 q); [done | lia]. }
  destruct (decide (c = t)) as [->|Hct].
  - rewrite E. simpl. unfold wait_report. rewrite Hm, Hp, Z.eqb_refl, bool_decide_eq_true_2 by done. done.
  - assert (Hc : tasks s !! c ≫= wait_report q g o = None).
    { destruct (tasks s !! c) as [y|] eqn:Ey; [|done]. simpl. unfold wait_report. rewrite Hm.
      destruct (Z.eqb_spec (pid y) q) as [Hy|]; [|done]. exfalso. apply Hct, (Hu c y); [apply elem_of_cons; auto | done | done]. }
    rewrite Hc. apply elem_of_cons in Hin as [->|Hin]; [done|]. apply IH; [|done]. intros k y Hk. apply Hu, elem_of_cons. auto.
Qed.

(** A task with a parent ends, and the parent waits for it. *)
Lemma exit_wait s t x p code m ws os o :
  tree_ok (tree_of s) -> tasks s !! t = Some x -> life_of (state x) = Live -> parent x = Some p ->
  let st := if ret_signal x =? 0 then WEXIT_MAKE code else WSIGNALED_MAKE (ret_signal x) in
  exists s1 s2, sys_exit s t code = Done s1 /\
    sys_waitpid os m s1 p (pid x) ws o = Done (WaitReturned (wait_result m ws (pid x) st).1 (wait_result m ws (pid x) st).2 s2) /\
    tree_of s2 = tree_reap p t (tree_zombie t (tree_of s)).
Proof.
  intros H E Hl Hp st. pose proof (tree_node s t x E) as En.
  assert (Hk : is_kernel x = false).
  { destruct (is_kernel x) eqn:Hk; [|done]. pose proof (ok_kernel _ H t _ En Hk) as Hn. simpl in Hn. congruence. }
  assert (Hp1 : pid x <> 1).
  { intros Hp1. destruct (ok_init _ H) as (i & Ei & Hi & Hn & _). assert (t = init (tree_of s)) as -> by (apply (ok_pids _ H I _ _ _ _ En Ei); simpl; congruence).
    rewrite Ei in En. simplify_eq. simpl in Hn. congruence. }
  destruct (sys_exit_tree s t code x H E Hl Hp1) as (s1 & E1 & T1 & S1). exists s1.
  unfold tree_exit in T1. rewrite En in T1. simpl in T1. rewrite Hk in T1.
  destruct (tree_zombie_ok _ t _ H (exit_not_init s t x H E Hp1) En Hl) as (HZ & nz & Enz & Hz & _ & Hpz & Hpid). rewrite <- T1 in HZ, Enz.
  pose proof (ok_listed _ t nz HZ Enz ltac:(congruence)) as Hlist. cbn in Hpz. rewrite Hp in Hpz.
  destruct (ok_parent _ HZ t nz p Enz Hlist Hpz) as (ny & Eny & Hly & Hin).
  apply tree_node_inv in Enz as (x1 & Ex1 & <-), Eny as (y & Ey & <-). simpl in *.
  assert (Hz1 : state x1 = TASK_ZOMBIE) by (by destruct (state x1)).
  assert (Hst : exit_status x1 = st).
  { apply (f_equal (.!! t)) in S1. rewrite lookup_fmap, Ex1, lookup_insert_eq in S1. injection S1 as _ Hc Hr.
    subst st. unfold exit_status. rewrite Hc, Hr. by destruct (ret_signal x =? 0). }
  assert (Hq : 0 < pid x) by (pose proof (ok_fresh _ H I t _ En); simpl in *; lia).
  destruct (waitpid_found os m s1 p (pid x) ws o y t st true x1 HZ Ey Hly) as (s2 & E2 & T2); [|done|].
  - rewrite <- Hst. apply first_report_pid; try done. intros c z _ Ez Hc.
    apply (ok_pids _ HZ I c t _ _ (tree_node _ _ _ Ez) (tree_node _ _ _ Ex1)). simpl. congruence.
  - exists s2. rewrite Hpid in E2. rewrite T2, T1. done.
Qed.

Lemma reap_moves p t T : (t ∉ listed (tree_reap p t T)) /\ (t ∈ gone (tree_reap p t T)).
Proof. simpl. rewrite list_elem_of_filter, elem_of_cons. tauto. Qed.

Lemma wait_result_written m ws p st :
  writable m ws 4 -> ptr ws <> 0 -> exists m', wait_result m ws p st = (p, m') /\ written m m' (ptr ws) (word_bytes st).
Proof.
  intros Hw Hn. unfold wait_result. destruct (Z.eqb_spec (ptr ws) 0); [done|]. unfold user_copy_from_kernel.
  destruct (user_memcpy_from_kernel_ok m ws (word_bytes st)) as (m' & -> & W); [done|]. simpl. exists m'. split; [done | exact W].
Qed.

Lemma i32_cong z : exists k, i32 z = z + k * 2 ^ 32.
Proof.
  unfold i32, swrap, uwrap. pose proof (Z.div_mod z (2 ^ 32) ltac:(lia)). cbv zeta.
  destruct (_ <? _); [exists (- (z / 2 ^ 32)) | exists (- (z / 2 ^ 32) - 1)]; lia.
Qed.

Lemma wexit_status code : WIFEXITED (WEXIT_MAKE code) = true /\ WEXITSTATUS (WEXIT_MAKE code) = code mod 256.
Proof.
  unfold WIFEXITED, WEXITSTATUS, WEXIT_MAKE. rewrite Z.lor_0_r, Z.shiftl_mul_pow2 by lia.
  destruct (i32_cong (code * 2 ^ 8)) as [k ->]. change 0xFF with (Z.ones 8). rewrite !Z.land_ones, Z.shiftr_div_pow2 by lia.
  replace (code * 2 ^ 8 + k * 2 ^ 32) with ((code + k * 2 ^ 24) * 2 ^ 8) by lia. rewrite Z.mod_mul, Z.div_mul by lia. split; [done|].
  change (2 ^ 24) with (2 ^ 16 * 2 ^ 8). rewrite Z.mul_assoc. by rewrite Z.mod_add.
Qed.

(** C21: a task that ends and was never stopped: when its parent then waits for it,
    the call returns the pid of the task at once, stores a status from which the
    macros of waitbits.h get back the low byte of the exit code, and the task has
    left the list of tasks for the scheduler to free. *)
Theorem exit_wait_status s t x p code m ws os o :
  tree_ok (tree_of s) -> tasks s !! t = Some x -> life_of (state x) = Live -> parent x = Some p -> ret_signal x = 0 ->
  writable m ws 4 -> ptr ws <> 0 ->
  exists s1 m' s2 st, sys_exit s t code = Done s1 /\ sys_waitpid os m s1 p (pid x) ws o = Done (WaitReturned (pid x) m' s2) /\
    written m m' (ptr ws) (word_bytes st) /\ WIFEXITED st = true /\ WEXITSTATUS st = code mod 256 /\
    (t ∉ tlist s2) /\ (t ∈ dead s2).
Proof.
  intros H E Hl Hp Hr Hw Hn. destruct (exit_wait s t x p code m ws os o H E Hl Hp) as (s1 & s2 & E1 & E2 & T2).
  rewrite Hr in E2. cbn [Z.eqb] in E2. destruct (wait_result_written m ws (pid x) (WEXIT_MAKE code) Hw Hn) as (m' & Hres & W).
  rewrite Hres in E2. exists s1, m', s2, (WEXIT_MAKE code). destruct (wexit_status code) as [He Hc].
  destruct (reap_moves p t (tree_zombie t (tree_of s))) as [Hout Hin]. rewrite <- T2 in Hout, Hin. auto 10.
Qed.

Lemma booted_ok : tree_ok (tree_of booted).
Proof. apply (boot_tree 100 [200] 300 50); [| vm_compute; reflexivity | done]. apply (bool_decide_unpack _). vm_compute. exact I. Qed.

(** Init has a child. *)
Definition forked : sched := match do_calls (∅, booted) [CFork 300 (-1) (Some 400)] with Done (_, s) => s | _ => booted end.

Lemma forked_ok : tree_ok (tree_of forked).
Proof.
  destruct (do_calls_ok [CFork 300 (-1) (Some 400)] ∅ booted booted_ok) as (m & s & E & H); [vm_compute; reflexivity | vm_compute; reflexivity|].
  unfold forked. rewrite E. exact H.
Qed.

Definition status_memory : gmap Z Z := list_to_map (zip (seqZ 4096 4) (replicate 4 0)).

Lemma status_writable : writable status_memory (make_user_buffer 4096) 4.
Proof.
  split; [unfold range_ok; simpl; lia | intros _; vm_compute; discriminate |]. intros a Ha. simpl in Ha.
  assert (a = 4096 \/ a = 4097 \/ a = 4098 \/ a = 4099) as [->|[->|[->| ->]]] by lia; by eexists.
Qed.

Definition child_of (s : sched) : task := match tasks s !! 400 with Some x => x | None => task_init 0 end.

Lemma exit_wait_status_witness :
  exists s1 m' s2 st, sys_exit forked 400 7 = Done s1 /\
    sys_waitpid [] status_memory s1 300 5 (make_user_buffer 4096) 0 = Done (WaitReturned 5 m' s2) /\ WEXITSTATUS st = 7 /\
    (400 ∉ tlist s2) /\ (400 ∈ dead s2).
Proof.
  destruct (exit_wait_status forked 400 (child_of forked) 300 7 status_memory (make_user_buffer 4096) [] 0 forked_ok)
    as (s1 & m' & s2 & st & E1 & E2 & _ & _ & Hst & Hl & Hd);
    [vm_compute; reflexivity | vm_compute; reflexivity | vm_compute; reflexivity | vm_compute; reflexivity | exact status_writable | discriminate |].
  exists s1, m', s2, st. split; [exact E1|]. split; [exact E2|]. auto.
Defined.

(** A signal for the task with a pid. *)
Lemma send_to_pid s t x signal force ret l :
  (forall k, k ∈ l -> is_Some (tasks s !! k)) -> (forall k y, k ∈ l -> tasks s !! k = Some y -> pid y = pid x -> k = t) ->
  t ∈ l -> tasks s !! t = Some x -> 0 < pid x ->
  send_to s (pid x) signal force l ret = (s' ← send_sig s t signal force; Done (0, s')).
Proof.
  intros Hl Hu Hin E Hp. induction l as [|k l IH]; [by apply elem_of_nil in Hin|]. simpl.
  destruct (Hl k) as [y Ey]; [apply elem_of_cons; auto|]. rewrite (task_at_done _ _ _ Ey). obind.
  destruct (Z.ltb_spec 0 (pid x)); [|lia]. destruct (Z.ltb_spec (pid x) 0); [lia|]. simpl.
  destruct (Z.eqb_spec (pid y) (pid x)) as [Hy|Hy].
  - assert (k = t) as -> by (apply (Hu k y); [apply elem_of_cons; auto | done | done]). done.
  - apply elem_of_cons in Hin as [->|Hin]; [congruence|]. apply IH; [| |done].
    + intros j Hj. apply Hl, elem_of_cons. auto.
    + intros j z Hj. apply Hu, elem_of_cons. auto.
Qed.

Lemma sigcont_stopped s t x :
  tree_ok (tree_of s) -> tasks s !! t = Some x -> state x = TASK_STOPPED ->
  exists s' x', scheduler_task_send_signal s (pid x) SIGCONT false = Done (0, s') /\ tree_of s' = tree_of s /\
    tasks s' !! t = Some x' /\ state x' = TASK_RUNNING /\ ret_signal x' = TASK_SIGNAL_CONT /\ parent x' = parent x /\ pid x' = pid x.
Proof.
  intros H E Hs. pose proof (tree_node s t x E) as En.
  assert (Hlist : t ∈ tlist s) by (apply (ok_listed _ t _ H En); simpl; by rewrite Hs).
  assert (Hpos : 0 < pid x) by (pose proof (ok_fresh _ H I t _ En); simpl in *; lia).
  unfold scheduler_task_send_signal. cbn [Z.ltb orb SIGCONT NSIG Z.compare Pos.compare Pos.compare_cont].
  rewrite (send_to_pid s t x); [|intros; by apply (has_listed (b := True)) | | done | done | done].
  2: { intros k y _ Ey Hy. apply (ok_pids _ H I k t _ _ (tree_node s k y Ey) En). done. }
  unfold send_sig. rewrite (task_at_done _ _ _ E). obind.
  destruct (task_upd_same s t (post_signal SIGCONT false) x E (post_signal_node _ _ _)) as (s1 & -> & T1 & M1). obind.
  assert (E1 : tasks s1 !! t = Some (post_signal SIGCONT false x)) by (by rewrite M1, lookup_insert_eq).
  assert (Hpost : state (post_signal SIGCONT false x) = TASK_RUNNING /\ ret_signal (post_signal SIGCONT false x) = TASK_SIGNAL_CONT /\
    parent (post_signal SIGCONT false x) = parent x /\ pid (post_signal SIGCONT false x) = pid x).
  { destruct x; simpl in *. subst. done. }
  destruct (parent x) as [p|] eqn:Ep.
  - rewrite Hs. simpl. assert (Hpt : p <> t).
    { intros ->. by apply (ok_self _ t _ H En Hlist). }
    destruct (has_parent s t x p H E) as [y Ey]; [by rewrite Hs | done|].
    destruct (task_upd_same s1 p wake y) as (s2 & E2 & T2 & M2); [by rewrite M1, lookup_insert_ne | apply wake_node|].
    unfold scheduler_task_wake. rewrite E2. obind. exists s2, (post_signal SIGCONT false x). rewrite T2, T1, M2, lookup_insert_ne by done. auto.
  - exists s1, (post_signal SIGCONT false x). rewrite T1. auto.
Qed.

(** a defect.  [ret_signal] holds both the signal that stopped or continued a
    task and the one that ended it, and [sys_exit] does not clear it: a task that
    was stopped, continued by SIGCONT and then ended with any exit code is reported
    to its parent as having ended with exit code 2. *)
Theorem continued_task_exit_status s t x p code m ws os o :
  tree_ok (tree_of s) -> tasks s !! t = Some x -> state x = TASK_STOPPED -> parent x = Some p ->
  writable m ws 4 -> ptr ws <> 0 ->
  exists s1 s2 m' s3 st, scheduler_task_send_signal s (pid x) SIGCONT false = Done (0, s1) /\ sys_exit s1 t code = Done s2 /\
    sys_waitpid os m s2 p (pid x) ws o = Done (WaitReturned (pid x) m' s3) /\
    written m m' (ptr ws) (word_bytes st) /\ WIFEXITED st = true /\ WEXITSTATUS st = 2.
Proof.
  intros H E Hs Hp Hw Hn. destruct (sigcont_stopped s t x H E Hs) as (s1 & x1 & E1 & T1 & Ex1 & Hst & Hr & Hpar & Hpid).
  destruct (exit_wait s1 t x1 p code m ws os o) as (s2 & s3 & E2 & E3 & _); [by rewrite T1 | done | by rewrite Hst | congruence|].
  rewrite Hr, Hpid in E3. cbn [Z.eqb TASK_SIGNAL_CONT] in E3.
  destruct (wait_result_written m ws (pid x) (WSIGNALED_MAKE TASK_SIGNAL_CONT) Hw Hn) as (m' & Hres & W). rewrite Hres in E3.
  exists s1, s2, m', s3, (WSIGNALED_MAKE TASK_SIGNAL_CONT). auto 10.
Qed.

(** The child has been stopped. *)
Definition stopped : sched := match task_upd forked 400 (set_state TASK_STOPPED) with Done s => s | _ => forked end.

Lemma stopped_ok : tree_ok (tree_of stopped).
Proof.
  destruct (task_upd_same forked 400 (set_state TASK_STOPPED) (child_of forked)) as (s & E & T & _); [vm_compute; reflexivity | vm_compute; reflexivity |].
  unfold stopped. rewrite E, T. exact forked_ok.
Qed.

Lemma continued_task_exit_status_witness :
  exists s1 s2 m' s3, scheduler_task_send_signal stopped 5 SIGCONT false = Done (0, s1) /\ sys_exit s1 400 7 = Done s2 /\
    sys_waitpid [] status_memory s2 300 5 (make_user_buffer 4096) 0 = Done (WaitReturned 5 m' s3).
Proof.
  destruct (continued_task_exit_status stopped 400 (child_of stopped) 300 7 status_memory (make_user_buffer 4096) [] 0 stopped_ok)
    as (s1 & s2 & m' & s3 & st & E1 & E2 & E3 & _);
    [vm_compute; reflexivity | vm_compute; reflexivity | vm_compute; reflexivity | exact status_writable | discriminate |].
  exists s1, s2, m', s3. split; [exact E1|]. split; [exact E2 | exact E3].
Defined.

(** * Every task that can run does *)

(** The tasks before [t] in the list. *)
Fixpoint ahead (t : Z) (l : list Z) : nat :=
  match l with [] => 0%nat | x :: l' => if x =? t then 0%nat else S (ahead t l') end.

(** A condition on a task that only the task itself can end: it depends on the
    state and on preemption, holds of a task that is woken up, survives preemption
    and does not hold of a task that ended. *)
Class Lasting (cond : bool -> task_state -> bool) : Prop := {
  lasting_running : forall b, cond b TASK_RUNNING = true;
  lasting_preempt : forall b st, cond b st = true -> cond true st = true;
  lasting_zombie : forall b, cond b TASK_ZOMBIE = false;
}.

Section Lasting.
Context (cond : bool -> task_state -> bool) `{!Lasting cond}.

Definition ready (x : task) : bool := cond (preempted x) (state x).

(** [t] is such a task, with at most [n] tasks before it. *)
Definition waiting (t : Z) (n : nat) (s : sched) : Prop :=
  t ∈ tlist s /\ (ahead t (tlist s) <= n)%nat /\ exists x, tasks s !! t = Some x /\ ready x = true.

Definition steady (f : task -> task) : Prop := forall x, ready x = true -> ready (f x) = true.

(** The task that makes a call. *)
Definition caller (c : call) : option Z :=
  match c with
  | CFork t _ _ | CExit t _ | CWaitpid t _ _ _ | CSetpgid t _ _ | CSetsid t => Some t
  | _ => None
  end.

Lemma ahead_app t l l' : t ∈ l -> ahead t (l ++ l') = ahead t l.
Proof.
  induction l as [|x l IH]; simpl; [by intros ?%elem_of_nil|]. intros [->|Hin]%elem_of_cons; [by rewrite Z.eqb_refl|].
  destruct (x =? t); [done|]. by rewrite IH.
Qed.

Lemma ahead_skip t l l' : t ∉ l -> ahead t (l ++ l') = (length l + ahead t l')%nat.
Proof.
  induction l as [|x l IH]; simpl; [done|]. rewrite elem_of_cons. intros Hn. destruct (Z.eqb_spec x t); [subst; tauto|].
  by rewrite IH by tauto.
Qed.

Lemma ahead_filter t k l : k <> t -> (ahead t (filter (fun x => x <> k) l) <= ahead t l)%nat.
Proof.
  intros Hk. induction l as [|x l IH]; [done|]. rewrite filter_cons. case_decide; simpl; destruct (Z.eqb_spec x t); try lia.
Qed.

Lemma waiting_upd t n s k f s' :
  waiting t n s -> task_upd s k f = Done s' -> (k = t -> steady f) -> waiting t n s'.
Proof.
  intros (Hl & Ha & x & E & Hr) Hu Hf. unfold task_upd in Hu. destruct (tasks s !! k) as [y|] eqn:Ey; [|done]. injection Hu as <-.
  split; [done|]. split; [done|]. simpl. destruct (decide (k = t)) as [->|].
  - assert (y = x) as -> by congruence. exists (f x). rewrite lookup_insert_eq. split; [done | by apply Hf].
  - exists x. by rewrite lookup_insert_ne.
Qed.

(** An update that [ready] does not see. *)
Ltac quiet_upd := eapply waiting_upd; [eassumption | eassumption | intros _ ?; exact id].

Lemma steady_wake : steady wake.
Proof. intros [? ? ? [] ? b ?]; try done; intros _; apply lasting_running. Qed.

Lemma steady_state f : (forall x, preempted (f x) = preempted x /\ (state (f x) = state x \/ state (f x) = TASK_RUNNING)) -> steady f.
Proof. intros Hf x. unfold ready. destruct (Hf x) as [-> [->| ->]]; [done|]. intros _. apply lasting_running. Qed.

Lemma steady_post signal force : steady (post_signal signal force).
Proof.
  apply steady_state. intros x. unfold post_signal.
  destruct (signal =? SIGCONT), (is_stop signal), (signal =? SIGKILL), force, x as [? ? ? [] ? b ?]; split; try reflexivity;
    (left; reflexivity) || (right; reflexivity).
Qed.

Lemma waiting_send_sig t n s k signal force s' : waiting t n s -> send_sig s k signal force = Done s' -> waiting t n s'.
Proof.
  intros H Hs. unfold send_sig in Hs. inv_outcome.
  assert (H1 : waiting t n r0) by (eapply waiting_upd; [exact H | exact Hm0 | intros _; apply steady_post]).
  destruct (parent r) as [p|]; [|by inv_outcome; subst]. destruct (_ && _); [|by inv_outcome; subst].
  eapply waiting_upd; [exact H1 | exact Hs | intros _; exact steady_wake].
Qed.

Lemma waiting_send_to t n p signal force l : forall s ret r s',
  waiting t n s -> send_to s p signal force l ret = Done (r, s') -> waiting t n s'.
Proof.
  induction l as [|k l IH]; intros s ret r s' H Hs; simpl in Hs; [by injection Hs as _ <-|]. inv_outcome.
  destruct (_ && _); [inv_outcome; simplify_eq; by eapply waiting_send_sig|].
  destruct (_ && _); [|by eapply IH]. inv_outcome. eapply IH; [|exact Hs]. by eapply waiting_send_sig.
Qed.

Lemma waiting_signal t n s p signal force r s' :
  waiting t n s -> scheduler_task_send_signal s p signal force = Done (r, s') -> waiting t n s'.
Proof. intros H. unfold scheduler_task_send_signal. case_match; [by intros [= _ <-] | by apply waiting_send_to]. Qed.

Lemma waiting_clear_tty t n y sid l : forall s s', waiting t n s -> clear_sid_tty s y sid l = Done s' -> waiting t n s'.
Proof.
  induction l as [|k l IH]; intros s s' H Hs; simpl in Hs; [by injection Hs as <-|]. inv_outcome. eapply IH; [|exact Hs].
  eapply waiting_upd; [exact H | exact Hm|]. intros _ x. by case_match.
Qed.

Lemma waiting_reparent t n k cs : forall s s', waiting t n s -> reparent s k cs = Done s' -> waiting t n s'.
Proof.
  induction cs as [|c cs IH]; intros s s' H Hs; cbn [reparent] in Hs; [by injection Hs as <-|]. inv_outcome.
  assert (H1 : waiting t n r) by quiet_upd.
  assert (H2 : waiting t n r0) by quiet_upd.
  assert (H3 : waiting t n r1) by quiet_upd.
  eapply IH; [|exact Hs]. destruct (bool_decide _); [|by inv_outcome; subst]. apply outcome_bind_done in Hm3 as ([q s3] & Hsig & Hm3).
  injection Hm3 as <-. by eapply waiting_signal.
Qed.

(** Somebody else ends. *)
Lemma waiting_make_zombie t n s k s' : k <> t -> waiting t n s -> task_make_zombie s k = Done s' -> waiting t n s'.
Proof.
  intros Hk H Hs. unfold task_make_zombie in Hs. inv_outcome.
  assert (H1 : waiting t n r) by quiet_upd.
  assert (H2 : waiting t n r1).
  { destruct (_ && _); [|by injection Hm1 as <-]. apply outcome_bind_done in Hm1 as (q & Hq & [= <-]). exact (waiting_clear_tty _ _ _ _ _ _ _ H1 Hq). }
  assert (H3 : waiting t n r3) by (by eapply waiting_reparent).
  match type of Hm4 with task_upd ?S _ _ = _ => assert (H4 : waiting t n S) by (by repeat case_match) end.
  assert (H5 : waiting t n r4) by (by eapply waiting_upd; [exact H4 | exact Hm4|]).
  destruct (parent r5); [|by injection Hs as <-]. inv_outcome. destruct r7. injection Hs as <-. by eapply waiting_signal.
Qed.

Lemma waiting_mark_dead t n s k s' : k <> t -> waiting t n s -> scheduler_task_mark_dead s k = Done s' -> waiting t n s'.
Proof.
  intros Hk H Hs. unfold scheduler_task_mark_dead in Hs. inv_outcome. subst s'.
  assert (Hr : waiting t n r) by (by eapply waiting_upd; [exact H | exact Hm|]). destruct Hr as (Hl & Ha & Hx).
  split; [by apply list_elem_of_filter|]. split; [|done]. simpl. pose proof (ahead_filter t k (tlist r) Hk). lia.
Qed.

Lemma waiting_exit t n s k code s' : k <> t -> waiting t n s -> sys_exit s k code = Done s' -> waiting t n s'.
Proof.
  intros Hk H Hs. unfold sys_exit in Hs. inv_outcome.
  assert (H1 : waiting t n r) by quiet_upd. destruct (_ =? 1); [done|]. inv_outcome.
  assert (H2 : waiting t n r1) by (by eapply waiting_make_zombie).
  assert (H3 : waiting t n r3).
  { destruct (parent r2); [|by injection Hm3 as <-]. eapply waiting_upd; [exact H2 | exact Hm3 | intros _; exact steady_wake]. }
  destruct (is_kernel r2); [by eapply waiting_mark_dead | by injection Hs as <-].
Qed.

Lemma waiting_new t n s new r s' : waiting t n s -> fresh s new -> task_new s new = (r, s') -> waiting t n s' /\ (forall k, r = Some k -> k <> t).
Proof.
  intros (Hl & Ha & x & E & Hx) Hf Hs. unfold task_new in Hs. destruct (_ <=? _); [injection Hs as <- <-; split; [by repeat split; eauto | done]|].
  destruct new as [k|]; injection Hs as <- <-; [|split; [by repeat split; eauto | done]].
  pose proof (Hf k eq_refl). assert (k <> t) by congruence. split; [|by intros j [= <-]]. split; [done|]. split; [done|]. exists x. simpl.
  by rewrite lookup_insert_ne.
Qed.

Lemma waiting_add t n s k : waiting t n s -> waiting t n (scheduler_task_add s k).
Proof.
  intros (Hl & Ha & Hx). split; [simpl; apply elem_of_app; auto|]. split; [|done]. simpl. by rewrite ahead_app.
Qed.

Lemma waiting_fork t n s k pgrp new r s' : waiting t n s -> fresh s new -> do_fork s k pgrp new = Done (r, s') -> waiting t n s'.
Proof.
  intros H Hf Hs. unfold do_fork, task_fork in Hs. destruct (task_new s new) as [o s1] eqn:En.
  destruct (waiting_new t n s new o s1 H Hf En) as [H1 Hne]. destruct o as [j|]; [|by injection Hs as _ <-]. inv_outcome. subst. inv_outcome.
  assert (Hj : j <> t) by auto.
  eapply (waiting_upd _ _ _ _ _ _ H1) in Hm1; [|done].
  match type of Hm with task_upd ?S _ _ = _ => assert (H3 : waiting t n S) by done end.
  eapply (waiting_upd _ _ _ _ _ _ H3) in Hm; [|done].
  eapply (waiting_upd _ _ _ _ _ _ Hm) in Hm2; [|intros _ x; exact id].
  eapply (waiting_upd _ _ _ _ _ _ Hm2) in Hm3; [|done]. subst s'. by apply waiting_add.
Qed.

Lemma waiting_kernel_new t n s new r s' :
  waiting t n s -> fresh s new -> task_kernel_new s new = Done (r, s') -> waiting t n s'.
Proof.
  intros H Hf Hs. unfold task_kernel_new in Hs. destruct (task_new s new) as [o s1] eqn:En.
  destruct (waiting_new t n s new o s1 H Hf En) as [H1 Hne]. destruct o as [j|]; [|by injection Hs as _ <-]. inv_outcome. subst.
  eapply waiting_upd; [exact H1 | exact Hm|]. intros ->. by destruct (Hne t).
Qed.

(** A task that can run is not reaped. *)
Lemma waiting_scan t n k cp g o cs : forall s found s',
  k <> t -> waiting t n s -> wait_scan s k cp g o cs = Done (found, s') ->
  waiting t n s' /\ forall c st, found = Some (c, st, true) -> c <> t.
Proof.
  induction cs as [|c cs IH]; intros s found s' Hk H Hs; simpl in Hs; [by injection Hs as <- <-|]. inv_outcome.
  destruct (negb (wait_matches _ _ _)); [by eapply IH|]. case_bool_decide as Hz.
  { inv_outcome. subst. split; [by quiet_upd|]. intros c' st [= <- <-] ->. destruct H as (_ & _ & x & E & Hx).
    rewrite (task_at_done _ _ _ E) in Hm. injection Hm as <-. unfold ready in Hx. rewrite Hz, lasting_zombie in Hx. done. }
  destruct (_ && _); [by eapply IH|].
  destruct (_ && _); [inv_outcome; subst; split; [by quiet_upd | done]|].
  destruct (_ && _); [inv_outcome; subst; split; [by quiet_upd | done]|]. by eapply IH.
Qed.

Definition after_wait (r : waited) : sched := match r with WaitReturned _ _ s | WaitAsleep s => s end.

Lemma waiting_waitpid t n m s k cp ws o r :
  k <> t -> waiting t n s -> sys_waitpid [] m s k cp ws o = Done r -> waiting t n (after_wait r).
Proof.
  intros Hk H Hs. cbn [sys_waitpid] in Hs. inv_outcome. destruct r2 as [found s2].
  eapply (waiting_upd _ _ _ _ _ _ H) in Hm; [|done]. destruct (waiting_scan _ _ _ _ _ _ _ _ _ _ Hk Hm Hm1) as [H2 Hc].
  assert (Hrun : forall s3, task_upd s2 k (set_state TASK_RUNNING) = Done s3 -> waiting t n s3)
    by (intros s3 E3; by eapply waiting_upd; [exact H2 | exact E3|]).
  destruct found as [[[c st] kill]|].
  - inv_outcome. apply Hrun in Hm2. assert (H5 : waiting t n r4).
    { destruct kill; [|by injection Hm4 as <-]. eapply waiting_mark_dead; [by eapply Hc | exact Hm2 | exact Hm4]. }
    rewrite wait_result_done in Hs. injection Hs as <-. done.
  - destruct (task_children r1); [inv_outcome; subst; by apply Hrun|].
    destruct (_ =? 0); [injection Hs as <-; done | inv_outcome; subst; by apply Hrun].
Qed.

(** Whatever the others do, [t] keeps its place. *)
Lemma waiting_call t n m s c m' s' :
  waiting t n s -> tree_shape (tree_of s) -> legal s c = true -> caller c <> Some t -> c <> CSchedule -> do_call (m, s) c = Done (m', s') -> waiting t n s'.
Proof.
  intros H Hok Hl Hc Hsch Hs. destruct c as [k pgrp new|k code|k cp ws o|p sig force|k p pg|k|k|k|new| |k]; cbn [do_call legal caller] in *;
    try (inv_outcome; match goal with r : (_ * sched)%type |- _ => destruct r end; inv_outcome; subst).
  - apply andb_true_iff in Hl as [_ Hf%unused_fresh]. by eapply waiting_fork.
  - inv_outcome. simplify_eq. eapply waiting_exit; [|exact H | done]. congruence.
  - inv_outcome. assert (waiting t n (after_wait r)) by (eapply waiting_waitpid; [|exact H | exact Hm]; congruence).
    destruct r; injection Hs as _ <-; done.
  - by eapply waiting_signal.
  - unfold sys_setpgid in Hm. destruct (negb _); inv_outcome; [destruct r; inv_outcome; subst; [by quiet_upd | done]|].
    simplify_eq. quiet_upd.
  - unfold sys_setsid in Hm. inv_outcome. destruct (_ || _); inv_outcome; simplify_eq; [done | quiet_upd].
  - inv_outcome. simplify_eq. eapply waiting_upd; [exact H | done | intros _; exact steady_wake].
  - inv_outcome. simplify_eq. eapply waiting_upd; [exact H | done|]. intros _ x. apply lasting_preempt.
  - apply unused_fresh in Hl. assert (waiting t n s0) by (by eapply waiting_kernel_new). destruct o; [by apply waiting_add | done].
  - done.
  - inv_outcome. simplify_eq. quiet_upd.
Qed.

End Lasting.

(** A turn of the scheduler runs [t] or brings it forward. *)
Definition can_run (b : bool) (st : task_state) : bool :=
  (b || bool_decide (st = TASK_RUNNING)) && match life_of st with Live => true | _ => false end.

#[export] Instance can_run_lasting : Lasting can_run.
Proof. split; [by intros [] | by intros [] [] | by intros []]. Qed.

Lemma waiting_schedule t n s r s' :
  waiting can_run t n s -> tree_shape (tree_of s) -> schedule s = Done (r, s') ->
  r = Some t \/ exists n', n = S n' /\ waiting can_run t n' s'.
Proof.
  intros (Hl & Ha & x & E & Hx) H Hs. destruct (schedule_spec s H) as (r' & s'' & E' & _ & _ & _ & _ & Hr & Hk).
  rewrite Hs in E'. injection E' as <- <-.
  assert (Hrun : runnable x = true) by (unfold ready, can_run in Hx; by apply andb_true_iff in Hx as [? _]).
  destruct r as [u|]; [|destruct Hr as [_ Hr]; specialize (Hr t x Hl E); congruence].
  destruct Hr as (pre & post & El & El' & _ & Hpre). destruct (decide (u = t)) as [->|Hut]; [auto|]. right.
  assert (Hpr : t ∉ pre) by (intros Hin; specialize (Hpre t x Hin E); congruence).
  assert (Hpo : t ∈ post) by (rewrite El, elem_of_app, elem_of_cons in Hl; intuition congruence).
  rewrite El, ahead_skip in Ha by done. simpl in Ha. destruct (Z.eqb_spec u t); [done|]. exists (n - 1)%nat. split; [lia|].
  split; [rewrite El', elem_of_app; auto|]. split; [rewrite El', ahead_app by done; lia|]. exists x. rewrite Hk by (done || congruence). done.
Qed.

Fixpoint turns (cs : list call) : nat :=
  match cs with [] => 0%nat | CSchedule :: cs' => S (turns cs') | _ :: cs' => turns cs' end.

Lemma picked_in_turn t n m s cs :
  tree_shape (tree_of s) -> waiting can_run t n s -> legal_calls (m, s) cs = true -> Forall (fun c => caller c <> Some t) cs -> (n < turns cs)%nat ->
  exists before after m1 s1 s2, cs = before ++ CSchedule :: after /\ do_calls (m, s) before = Done (m1, s1) /\ schedule s1 = Done (Some t, s2) /\
    (turns before <= n)%nat.
Proof.
  revert n m s. induction cs as [|c cs IH]; intros n m s H Hw Hl Hc Hn; [simpl in Hn; lia|].
  cbn [legal_calls] in Hl. apply andb_true_iff in Hl as [Hlc Hl]. apply Forall_cons in Hc as [Hc Hcs].
  destruct (do_call_ok m s c H Hlc) as (m' & s' & E & H' & _); [done|]. rewrite E in Hl.
  assert (Hstep : c = CSchedule \/ c <> CSchedule) by (destruct c; auto; by right).
  destruct Hstep as [->|Hns].
  - cbn [do_call] in E. apply outcome_bind_done in E as ([r s1] & Es & [= <- <-]).
    destruct (waiting_schedule t n s r s1 Hw H Es) as [->|(n' & -> & Hw')].
    + exists [], cs, m, s, s1. split; [done|]. split; [done|]. split; [done|]. simpl. lia.
    + simpl in Hn. destruct (IH n' m s1 H' Hw' Hl Hcs) as (b & a & m1 & s2 & s3 & -> & Eb & Es3 & Hb); [lia|].
      exists (CSchedule :: b), a, m1, s2, s3. split; [done|]. cbn [do_calls do_call]. rewrite Es. obind. split; [done|]. split; [done|]. simpl. lia.
  - assert (Ht : turns (c :: cs) = turns cs) by (by destruct c). rewrite Ht in Hn.
    pose proof (waiting_call can_run t n m s c m' s' Hw H Hlc Hc Hns E) as Hw'.
    destruct (IH n m' s' H' Hw' Hl Hcs Hn) as (b & a & m1 & s2 & s3 & -> & Eb & Es3 & Hb).
    exists (c :: b), a, m1, s2, s3. split; [done|]. cbn [do_calls]. rewrite E. obind. split; [done|]. split; [done|]. destruct c; done.
Qed.

(** C22: the scheduler starves nobody.  A task that can run and has at most [n] tasks
    before it in the list: whatever calls the others make, among the first [n + 1]
    turns of the scheduler is one that picks it. *)
Theorem schedule_fair t n m s cs :
  tree_shape (tree_of s) -> waiting can_run t n s -> legal_calls (m, s) cs = true -> Forall (fun c => caller c <> Some t) cs -> (n < turns cs)%nat ->
  exists before after m1 s1 s2, cs = before ++ CSchedule :: after /\ do_calls (m, s) before = Done (m1, s1) /\ schedule s1 = Done (Some t, s2) /\
    (turns before <= n)%nat.
Proof. apply picked_in_turn. Qed.

Lemma schedule_fair_witness :
  exists before after m1 s1 s2, [CSchedule; CWake 100; CSchedule; CSignal 1 SIGCHLD false; CSchedule; CSchedule] = before ++ CSchedule :: after /\
    do_calls (∅, forked) before = Done (m1, s1) /\ schedule s1 = Done (Some 400, s2).
Proof.
  destruct (schedule_fair 400 3 ∅ forked [CSchedule; CWake 100; CSchedule; CSignal 1 SIGCHLD false; CSchedule; CSchedule])
    as (b & a & m1 & s1 & s2 & E1 & E2 & E3 & _).
  - apply (inv_shape True), forked_ok.
  - split; [apply (bool_decide_unpack _); vm_compute; exact I|]. split; [vm_compute; lia|]. exists (child_of forked). split; vm_compute; reflexivity.
  - vm_compute. reflexivity.
  - repeat constructor; discriminate.
  - vm_compute. lia.
  - exists b, a, m1, s1, s2. split; [exact E1|]. split; [exact E2 | exact E3].
Defined.
