(* ===== verification/Semaphore.v ===== *)
(** Semaphores and mutexes (src/kernel/sched/semaphore.c, include/protura/semaphore.h,
    mutex.h) on top of the tasks of Task.v: who waits is asleep in the queue of the
    semaphore.  The code runs under the spinlock of the semaphore, which it gives up
    only to sleep; so the calls are cut into steps at the sleep: [sem_down] up to the
    first sleep, and a pass of its loop after each wake-up. *)
From stdpp Require Import base numbers list gmap.
From Stdlib Require Import ZArith ZifyBool Lia.
From S2P Require Import Prelude UserMem Users Task TaskTree TaskProps TaskLife.
Open Scope Z_scope.

(** * The operations *)

(** An entry of the queue is the task that waits. *)
Record semaphore : Type := { count : Z; queue : list Z }.

Definition sem_init (value : Z) : semaphore := {| count := value; queue := [] |}.

Definition sem_wake_if_waiting (s : sched) (sem : semaphore) : outcome sched :=
  match queue sem with
  | [] => Done s
  | ent :: _ => scheduler_task_wake s ent
  end.

(** A pass of the loop of [__sem_down] by the task [t], which is in the queue, and
    the rest of the function if the loop ends: whether it ended. *)
Definition sem_down_pass (s : sched) (sem : semaphore) (t : Z) : outcome (bool * sched * semaphore) :=
  s ← task_upd s t (set_state TASK_SLEEPING);
  if 0 <? count sem then
    s ← task_upd s t (set_state TASK_RUNNING);
    let sem := {| count := i32 (count sem - 1); queue := filter (fun x => x <> t) (queue sem) |} in
    s ← (if 0 <? count sem then sem_wake_if_waiting s sem else Done s);
    Done (true, s, sem)
  else Done (false, s, sem).

(** [sem_down] by [t] up to its first sleep, if it sleeps. *)
Definition sem_down (s : sched) (sem : semaphore) (t : Z) : outcome (bool * sched * semaphore) :=
  sem_down_pass s {| count := count sem; queue := queue sem ++ [t] |} t.

Definition sem_try_down (sem : semaphore) : bool * semaphore :=
  if count sem <=? 0 then (false, sem) else (true, {| count := i32 (count sem - 1); queue := queue sem |}).

Definition sem_up (s : sched) (sem : semaphore) : outcome (sched * semaphore) :=
  let sem := {| count := i32 (count sem + 1); queue := queue sem |} in
  s ← sem_wake_if_waiting s sem; Done (s, sem).

Definition sem_waiting (sem : semaphore) : Z := count sem.

Definition mutex_init : semaphore := sem_init 1.
Definition mutex_is_locked (sem : semaphore) : bool := count sem =? 0.

(** * The system: tasks that use a semaphore

    [holders] are the tasks that have taken the semaphore and not yet given it
    back. *)

Record system : Type := { tasks_of : sched; sem_of : semaphore; holders : list Z; memory : gmap Z Z }.

Definition runs (s : sched) (t : Z) : Prop := exists x, tasks s !! t = Some x /\ state x = TASK_RUNNING.

(** [list_del] of one occurrence. *)
Fixpoint remove_one (t : Z) (l : list Z) : list Z :=
  match l with [] => [] | x :: l' => if x =? t then l' else x :: remove_one t l' end.

Inductive step : system -> system -> Prop :=
| step_down s sem hs m t got s' sem' :
    runs s t -> t ∈ tlist s -> t ∉ queue sem ->
    sem_down s sem t = Done (got, s', sem') ->
    step {| tasks_of := s; sem_of := sem; holders := hs; memory := m |}
         {| tasks_of := s'; sem_of := sem'; holders := if (got : bool) then t :: hs else hs; memory := m |}
| step_retry s sem hs m t got s' sem' :
    runs s t -> t ∈ queue sem ->
    sem_down_pass s sem t = Done (got, s', sem') ->
    step {| tasks_of := s; sem_of := sem; holders := hs; memory := m |}
         {| tasks_of := s'; sem_of := sem'; holders := if (got : bool) then t :: hs else hs; memory := m |}
| step_try s sem hs m t got sem' :
    runs s t -> sem_try_down sem = (got, sem') ->
    step {| tasks_of := s; sem_of := sem; holders := hs; memory := m |}
         {| tasks_of := s; sem_of := sem'; holders := if (got : bool) then t :: hs else hs; memory := m |}
| step_up s sem hs m t s' sem' :
    t ∈ hs -> sem_up s sem = Done (s', sem') ->
    step {| tasks_of := s; sem_of := sem; holders := hs; memory := m |}
         {| tasks_of := s'; sem_of := sem'; holders := remove_one t hs; memory := m |}
| step_other s sem hs m c s' m' :
    legal s c = true -> (forall t, caller c = Some t -> t ∉ queue sem) -> do_call (m, s) c = Done (m', s') ->
    step {| tasks_of := s; sem_of := sem; holders := hs; memory := m |}
         {| tasks_of := s'; sem_of := sem; holders := hs; memory := m' |}.

Inductive reachable (n : Z) : system -> Prop :=
| reach_init s m : tree_shape (tree_of s) -> reachable n {| tasks_of := s; sem_of := sem_init n; holders := []; memory := m |}
| reach_step y y' : reachable n y -> step y y' -> reachable n y'.

(** * The invariant *)

(** A task in the queue is in the loop of [__sem_down]. *)
Definition in_loop (b : bool) (st : task_state) : bool := bool_decide (st = TASK_RUNNING) || bool_decide (st = TASK_SLEEPING).
Definition awake (b : bool) (st : task_state) : bool := bool_decide (st = TASK_RUNNING).

#[export] Instance in_loop_lasting : Lasting in_loop.
Proof. by split. Qed.

#[export] Instance awake_lasting : Lasting awake.
Proof. by split. Qed.

Definition looping (s : sched) (t : Z) : Prop := t ∈ tlist s /\ exists x, tasks s !! t = Some x /\ in_loop false (state x) = true.

Record sem_ok (n : Z) (y : system) : Prop := {
  so_tree : tree_shape (tree_of (tasks_of y));
  so_nodup : NoDup (queue (sem_of y));
  so_queue : forall t, t ∈ queue (sem_of y) -> looping (tasks_of y) t;
  so_count : 0 <= count (sem_of y) /\ count (sem_of y) + Z.of_nat (length (holders y)) = n;
  so_awake : forall t q, 0 < count (sem_of y) -> queue (sem_of y) = t :: q -> runs (tasks_of y) t;
}.

(** What a step may do to the tasks that wait: no more than wake them up. *)
Definition wakes (s s' : sched) : Prop :=
  forall k, looping s k -> looping s' k /\ (runs s k -> runs s' k).

Lemma wakes_refl s : wakes s s.
Proof. by intros k. Qed.

Lemma wakes_trans s s' s'' : wakes s s' -> wakes s' s'' -> wakes s s''.
Proof. intros H1 H2 k Hk. destruct (H1 k Hk) as [Hk1 ?]. destruct (H2 k Hk1). auto. Qed.

Lemma runs_waiting s t : t ∈ tlist s -> runs s t <-> waiting awake t (ahead t (tlist s)) s.
Proof.
  intros Hl. split.
  - intros (x & E & Hx). split; [done|]. split; [done|]. exists x. split; [done|]. unfold ready, awake. by apply bool_decide_eq_true.
  - intros (_ & _ & x & E & Hx). exists x. split; [done|]. unfold ready, awake in Hx. by apply bool_decide_eq_true in Hx.
Qed.

Lemma looping_waiting s t : looping s t <-> exists n, waiting in_loop t n s.
Proof.
  split.
  - intros (Hl & x & E & Hx). exists (ahead t (tlist s)). split; [done|]. split; [done|]. by exists x.
  - intros (n & Hl & _ & x & E & Hx). split; [done|]. by exists x.
Qed.

Lemma set_state_tree s t x st :
  tasks s !! t = Some x -> life_of (state x) = Live -> life_of st = Live ->
  exists s', task_upd s t (set_state st) = Done s' /\ tree_of s' = tree_of s /\ tasks s' = <[t := set_state st x]> (tasks s).
Proof. intros E Hx Hs. apply task_upd_same; [done|]. unfold node_of. simpl. by rewrite Hx, Hs. Qed.

Lemma tree_tlist s s' : tree_of s' = tree_of s -> tlist s' = tlist s.
Proof. intros H. change (listed (tree_of s') = listed (tree_of s)). by rewrite H. Qed.

(** Waking one of the tasks in the loop. *)
Lemma wake_one s k :
  looping s k -> exists s', scheduler_task_wake s k = Done s' /\ tree_of s' = tree_of s /\ wakes s s' /\ runs s' k /\
    (forall j, j <> k -> tasks s' !! j = tasks s !! j).
Proof.
  intros (Hl & x & E & Hx). destruct (task_upd_same s k wake x E (wake_node x)) as (s' & E' & T & M). exists s'. split; [done|]. split; [done|].
  assert (Hr : state (wake x) = TASK_RUNNING).
  { unfold wake, in_loop in *. destruct (state x) eqn:Es; try done. }
  assert (Hk : runs s' k) by (exists (wake x); by rewrite M, lookup_insert_eq).
  split; [|split; [done|]].
  - intros j (Hj & y & Ey & Hy). destruct (decide (k = j)) as [<-|Hkj].
    + split; [|done]. split; [by rewrite (tree_tlist _ _ T)|]. exists (wake x). rewrite M, lookup_insert_eq, Hr. done.
    + split; [split; [by rewrite (tree_tlist _ _ T)|]; exists y; by rewrite M, lookup_insert_ne|].
      intros (z & Ez & Hz). exists z. by rewrite M, lookup_insert_ne.
  - intros j Hj. by rewrite M, lookup_insert_ne.
Qed.

Lemma sem_wake_spec s sem :
  (forall t, t ∈ queue sem -> looping s t) ->
  exists s', sem_wake_if_waiting s sem = Done s' /\ tree_of s' = tree_of s /\ wakes s s' /\ (forall t q, queue sem = t :: q -> runs s' t) /\
    (forall j, j ∉ queue sem -> tasks s' !! j = tasks s !! j).
Proof.
  intros Hq. unfold sem_wake_if_waiting. destruct (queue sem) as [|t q]; [exists s; split_and!; try done; apply wakes_refl|].
  destruct (wake_one s t) as (s' & E & T & W & R & F); [apply Hq, elem_of_cons; auto|]. exists s'. split_and!; try done.
  - by intros t' q' [= <- <-].
  - intros j Hj. rewrite elem_of_cons in Hj. apply F. tauto.
Qed.

Lemma runs_looping s t : runs s t -> t ∈ tlist s -> looping s t.
Proof. intros (x & E & Hx) Hl. split; [done|]. exists x. rewrite Hx. done. Qed.

(** A pass of [__sem_down]. *)
Lemma sem_down_pass_spec s sem t :
  runs s t -> t ∈ tlist s -> t ∈ queue sem -> NoDup (queue sem) -> (forall k, k ∈ queue sem -> looping s k) -> 0 <= count sem < 2 ^ 31 ->
  exists s' sem', sem_down_pass s sem t = Done (0 <? count sem, s', sem') /\ tree_of s' = tree_of s /\
    (forall k, k <> t -> looping s k -> looping s' k /\ (runs s k -> runs s' k)) /\ looping s' t /\
    if 0 <? count sem then
      count sem' = count sem - 1 /\ queue sem' = filter (fun x => x <> t) (queue sem) /\ runs s' t /\
      (1 < count sem -> forall k q, queue sem' = k :: q -> runs s' k)
    else sem' = sem.
Proof.
  intros (x & E & Hx) Hl Hin Hnd Hq Hc. unfold sem_down_pass.
  destruct (set_state_tree s t x TASK_SLEEPING E) as (s1 & -> & T1 & M1); [by rewrite Hx | done|]. obind.
  assert (E1 : tasks s1 !! t = Some (set_state TASK_SLEEPING x)) by (by rewrite M1, lookup_insert_eq).
  destruct (0 <? count sem) eqn:Hpos.
  2: { exists s1, sem. split_and!; try done.
    - intros k Hk (Hkl & y & Ey & Hy). split; [split; [by rewrite (tree_tlist _ _ T1)|]; exists y; by rewrite M1, lookup_insert_ne|].
      intros (z & Ez & Hz). exists z. by rewrite M1, lookup_insert_ne.
    - split; [by rewrite (tree_tlist _ _ T1)|]. eexists. split; [exact E1 | done]. }
  destruct (set_state_tree s1 t _ TASK_RUNNING E1) as (s2 & -> & T2 & M2); [done | done|]. obind.
  assert (Hlist : tlist s2 = tlist s) by (rewrite (tree_tlist _ _ T2); apply (tree_tlist _ _ T1)).
  assert (Hother : forall k, k <> t -> tasks s2 !! k = tasks s !! k) by (intros k Hk; by rewrite M2, lookup_insert_ne, M1, lookup_insert_ne).
  assert (R2 : runs s2 t) by (eexists; rewrite M2, lookup_insert_eq; done).
  assert (Hloop : forall k, k <> t -> looping s k -> looping s2 k /\ (runs s k -> runs s2 k)).
  { intros k Hk (Hkl & y & Ey & Hy). split; [split; [by rewrite Hlist|]; exists y; by rewrite Hother|]. intros (z & Ez & Hz). exists z. by rewrite Hother. }
  assert (Hi : i32 (count sem - 1) = count sem - 1) by (apply i32_small; lia). rewrite Hi. cbn [count].
  set (sem' := {| count := count sem - 1; queue := filter (fun z => z <> t) (queue sem) |}).
  destruct (sem_wake_spec s2 sem') as (s3 & E3 & T3 & W3 & R3 & F3).
  { intros k [Hkt Hk]%list_elem_of_filter. by apply Hloop, Hq. }
  assert (Ht : t ∉ queue sem') by (intros [? _]%list_elem_of_filter; done).
  destruct (0 <? count sem - 1) eqn:Hpos1.
  - rewrite E3. obind. exists s3, sem'. split; [done|]. split; [by rewrite T3, T2, T1|].
    assert (Rt : runs s3 t) by (destruct R2 as (z & Ez & Hz); exists z; by rewrite F3).
    split; [|split; [|split; [done|]; split; [done|]; split; [done | auto]]].
    + intros k Hk Hlk. destruct (Hloop k Hk Hlk) as [L2 R2']. destruct (W3 k L2). auto.
    + apply runs_looping; [done|]. by rewrite (tree_tlist _ _ T3), Hlist.
  - exists s2, sem'. split; [done|]. split; [by rewrite T2, T1|]. split; [done|].
    split; [apply runs_looping; [done | by rewrite Hlist]|]. split; [done|]. split; [done|]. split; [done | lia].
Qed.

(** The scheduler does not change the state of a task. *)
Lemma schedule_state s r s' t x :
  tree_shape (tree_of s) -> schedule s = Done (r, s') -> t ∈ tlist s -> tasks s !! t = Some x ->
  (t ∈ tlist s') /\ exists x', tasks s' !! t = Some x' /\ state x' = state x.
Proof.
  intros H Hs Hl E. destruct (schedule_spec s H) as (r' & s'' & E' & _ & _ & _ & _ & Hr & Hk). rewrite Hs in E'. injection E' as <- <-.
  destruct r as [u|].
  - destruct Hr as (pre & post & El & El' & (y & Ey & _ & Ey') & _). split.
    + rewrite El' . rewrite El in Hl. rewrite !elem_of_app, ?elem_of_cons, ?elem_of_nil in *. tauto.
    + destruct (decide (u = t)) as [->|Hut]; [simplify_eq; eauto|]. exists x. by rewrite Hk by congruence.
  - destruct Hr as [-> _]. split; [done|]. exists x. by rewrite Hk.
Qed.

(** What others do only wakes up the tasks in the loop. *)
Lemma call_wakes m s c m' s' t :
  tree_shape (tree_of s) -> legal s c = true -> caller c <> Some t -> do_call (m, s) c = Done (m', s') ->
  looping s t -> looping s' t /\ (runs s t -> runs s' t).
Proof.
  intros H Hl Hc Hs Ht.
  assert (Hstep : c = CSchedule \/ c <> CSchedule) by (destruct c; auto; by right). destruct Hstep as [->|Hns].
  - cbn [do_call] in Hs. apply outcome_bind_done in Hs as ([r s1] & Es & [= <- <-]).
    destruct Ht as (Hin & x & E & Hx). destruct (schedule_state s r s1 t x H Es Hin E) as (Hin' & x' & E' & Hx'). split.
    + split; [done|]. exists x'. by rewrite Hx'.
    + intros (z & Ez & Hz). simplify_eq. exists x'. by rewrite Hx'.
  - split.
    + apply looping_waiting in Ht as [n Hn]. apply looping_waiting. exists n. by apply (waiting_call in_loop t n m s c m' s').
    + intros Hr. destruct Ht as (Hin & _). apply runs_waiting in Hr; [|done].
      pose proof (waiting_call awake t _ m s c m' s' Hr H Hl Hc Hns Hs) as (Hin' & _ & x & E & Hx).
      exists x. split; [done|]. unfold ready, awake in Hx. by apply bool_decide_eq_true in Hx.
Qed.

Lemma length_remove_one t l : t ∈ l -> length l = S (length (remove_one t l)).
Proof.
  induction l as [|x l IH]; [by intros ?%elem_of_nil|]. intros [->|Hin]%elem_of_cons; simpl; [by rewrite Z.eqb_refl|].
  destruct (x =? t); simpl; auto.
Qed.

Lemma looping_present s t : looping s t -> exists x, tasks s !! t = Some x /\ life_of (state x) = Live.
Proof. intros (_ & x & E & Hx). exists x. split; [done|]. unfold in_loop in Hx. by destruct (state x). Qed.

(** A pass of a task that is in the queue keeps the invariant. *)
Lemma pass_ok n s sem hs m t got s' sem' :
  n < 2 ^ 31 -> tree_shape (tree_of s) -> NoDup (queue sem) -> (forall k, k ∈ queue sem -> looping s k) ->
  0 <= count sem -> count sem + Z.of_nat (length hs) = n -> runs s t -> t ∈ queue sem ->
  (forall k q, 0 < count sem -> queue sem = k :: q -> runs s k) ->
  sem_down_pass s sem t = Done (got, s', sem') ->
  sem_ok n {| tasks_of := s'; sem_of := sem'; holders := if got then t :: hs else hs; memory := m |}.
Proof.
  intros Hn HT Hnd Hq Hc0 Hc Hr Hin Ha Hp. destruct (Hq t Hin) as [Hl _].
  destruct (sem_down_pass_spec s sem t Hr Hl Hin Hnd Hq ltac:(lia)) as (s1 & sem1 & E & T & W & L & Hres).
  rewrite Hp in E. injection E as -> <- <-.
  assert (Hq' : forall k, k ∈ queue sem -> looping s' k) by (intros k Hk; destruct (decide (k = t)) as [->|]; [done | by apply W; auto]).
  destruct (0 <? count sem) eqn:Hpos.
  - destruct Hres as (C & Q & Rt & Rk). split; simpl; rewrite ?T, ?C, ?Q; try done.
    + by apply NoDup_filter.
    + intros k [_ Hk]%list_elem_of_filter. auto.
    + split; lia.
    + intros k q Hk Hkq. apply (Rk ltac:(lia) k q). by rewrite Q.
  - subst sem'. split; simpl; rewrite ?T; try done. intros k q Hk. lia.
Qed.

Lemma step_ok n y y' : n < 2 ^ 31 -> sem_ok n y -> step y y' -> sem_ok n y'.
Proof.
  intros Hn [HT Hnd Hq [Hc0 Hc] Ha] Hs.
  destruct Hs as [s sem hs m t got s' sem' Hr Hl Hni Hd|s sem hs m t got s' sem' Hr Hin Hd|s sem hs m t got sem' Hr Hd|s sem hs m t s' sem' Hin Hu|s sem hs m c s' m' Hlc Hcal Hd];
    cbn [tasks_of sem_of holders memory] in *.
  - eapply (pass_ok n s {| count := count sem; queue := queue sem ++ [t] |}); simpl; try done.
    + apply NoDup_app. split; [done|]. split; [|apply NoDup_singleton]. intros k Hk ->%list_elem_of_singleton. done.
    + intros k [Hk| ->%list_elem_of_singleton]%elem_of_app; [auto | by apply runs_looping].
    + apply elem_of_app. rewrite list_elem_of_singleton. auto.
    + intros k q Hk. destruct (queue sem) as [|k' q']; simpl; intros [= -> _]; [done | by eapply Ha].
  - by eapply (pass_ok n s sem).
  - unfold sem_try_down in Hd. destruct (Z.leb_spec (count sem) 0); injection Hd as <- <-; [by split|].
    rewrite i32_small in * by lia. split; simpl; rewrite ?i32_small by lia; try done; [lia|]. intros k q Hk. apply Ha. lia.
  - unfold sem_up in Hu. apply outcome_bind_done in Hu as (s1 & Ew & [= <- <-]). pose proof (length_remove_one t hs Hin).
    rewrite i32_small in * by lia. destruct (sem_wake_spec s {| count := count sem + 1; queue := queue sem |} Hq) as (s2 & E2 & T & W & R & _).
    rewrite Ew in E2. injection E2 as <-. split; simpl; rewrite ?T; try done; [|lia|]; [|intros k q _; apply R].
    intros k Hk. by apply W, Hq.
  - destruct (do_call_ok m s c HT Hlc) as (m1 & s1 & E1 & T1 & _); [done|]. rewrite Hd in E1. injection E1 as <- <-.
    assert (Hw : forall k, k ∈ queue sem -> looping s' k /\ (runs s k -> runs s' k)).
    { intros k Hk. apply (call_wakes m s c m' s'); auto. intros Hck. by apply (Hcal k). }
    split; simpl; try done; [intros k Hk; by apply Hw|]. intros k q Hpos Hkq. apply Hw; [rewrite Hkq; apply elem_of_cons; auto | by eapply Ha].
Qed.

Lemma reachable_ok n y : 0 <= n < 2 ^ 31 -> reachable n y -> sem_ok n y.
Proof.
  intros Hn H. induction H as [s m HT|y y' _ IH Hs]; [|by eapply step_ok; [lia | exact IH | exact Hs]].
  split; simpl; try done; [constructor | by intros t ?%elem_of_nil | lia].
Qed.

(** * Properties *)

(** C23: however the tasks interleave their calls of the semaphore with each other
    and with the other calls of the kernel, no more than [n] of them hold a
    semaphore of initial value [n] at a time; for a mutex, whose initial value is 1,
    this is mutual exclusion.  The count is always what is left. *)
Theorem semaphore_exclusion n y :
  0 <= n < 2 ^ 31 -> reachable n y ->
  Z.of_nat (length (holders y)) <= n /\ sem_waiting (sem_of y) = n - Z.of_nat (length (holders y)).
Proof. intros Hn H. apply reachable_ok in H as [_ _ _ [Hc0 Hc] _]; [|done]. unfold sem_waiting. lia. Qed.

(** C24: no wake-up of a waiter is lost.  Whenever fewer than [n] tasks hold the
    semaphore and tasks wait for it, the first of them is running: the scheduler
    picks it in its turn whatever the others do, and the pass of its loop then
    takes the semaphore, if it is still free. *)
Theorem semaphore_no_lost_wakeup n y t q m cs :
  0 <= n < 2 ^ 31 -> reachable n y -> queue (sem_of y) = t :: q -> Z.of_nat (length (holders y)) < n ->
  (exists s' sem', sem_down_pass (tasks_of y) (sem_of y) t = Done (true, s', sem') /\ (t ∉ queue sem')) /\
  (legal_calls (m, tasks_of y) cs = true -> Forall (fun c => caller c <> Some t) cs -> (ahead t (tlist (tasks_of y)) < turns cs)%nat ->
   exists before after m1 s1 s2, cs = before ++ CSchedule :: after /\ do_calls (m, tasks_of y) before = Done (m1, s1) /\
     schedule s1 = Done (Some t, s2)).
Proof.
  intros Hn H Hq Hh. apply reachable_ok in H as [HT Hnd Hloop [Hc0 Hc] Ha]; [|done].
  assert (Hr : runs (tasks_of y) t) by (apply (Ha t q); [lia | done]).
  assert (Hin : t ∈ queue (sem_of y)) by (rewrite Hq; apply elem_of_cons; auto).
  destruct (Hloop t Hin) as [Hl _]. split.
  - destruct (sem_down_pass_spec (tasks_of y) (sem_of y) t Hr Hl Hin Hnd Hloop ltac:(lia)) as (s' & sem' & E & _ & _ & _ & Hres).
    assert (Hpos : (0 <? count (sem_of y)) = true) by lia. rewrite Hpos in E, Hres. destruct Hres as (_ & Q & _).
    exists s', sem'. split; [done|]. rewrite Q. by intros [? _]%list_elem_of_filter.
  - intros Hlc Hcs Ht. destruct Hr as (x & E & Hx).
    destruct (picked_in_turn t (ahead t (tlist (tasks_of y))) m (tasks_of y) cs HT) as (b & a & m1 & s1 & s2 & ? & ? & ? & _); try done.
    + split; [done|]. split; [done|]. exists x. split; [done|]. unfold ready, can_run. rewrite Hx. by destruct (preempted x).
    + by exists b, a, m1, s1, s2.
Qed.

(** Two threads and a mutex: the second waits while the first holds it. *)
Definition after_down (s : sched) (sem : semaphore) (t : Z) : sched * semaphore :=
  match sem_down s sem t with Done (_, s', sem') => (s', sem') | _ => (s, sem) end.

Definition locked := after_down booted mutex_init 100.
Definition contended := after_down locked.1 locked.2 200.
Definition released := match sem_up contended.1 contended.2 with Done r => r | _ => contended end.

Lemma in_list (t : Z) (l : list Z) : bool_decide (t ∈ l) = true -> t ∈ l.
Proof. apply bool_decide_eq_true. Qed.

Lemma booted_runs (s : sched) (t : Z) :
  match tasks s !! t with Some x => bool_decide (state x = TASK_RUNNING) | None => false end = true -> runs s t.
Proof. destruct (tasks s !! t) as [x|] eqn:E; [|done]. intros H%bool_decide_eq_true. by exists x. Qed.

Lemma contended_reachable : reachable 1 {| tasks_of := contended.1; sem_of := contended.2; holders := [100]; memory := ∅ |}.
Proof.
  eapply reach_step; [eapply reach_step; [apply (reach_init 1 booted ∅), (inv_shape True), booted_ok|]|].
  - eapply (step_down _ _ _ _ 100 true locked.1 locked.2); [apply booted_runs; vm_compute; reflexivity | apply in_list; vm_compute; reflexivity | | vm_compute; reflexivity].
    intros H. by apply elem_of_nil in H.
  - eapply (step_down _ _ _ _ 200 false); [apply booted_runs; vm_compute; reflexivity | apply in_list; vm_compute; reflexivity | | vm_compute; reflexivity].
    intros H. by apply elem_of_nil in H.
Qed.

Lemma released_reachable : reachable 1 {| tasks_of := released.1; sem_of := released.2; holders := []; memory := ∅ |}.
Proof.
  eapply reach_step; [exact contended_reachable|]. apply (step_up contended.1 contended.2 [100] ∅ 100 released.1 released.2);
    [apply in_list; vm_compute; reflexivity | vm_compute; reflexivity].
Qed.

Lemma semaphore_exclusion_witness : Z.of_nat (length [100]) <= 1 /\ sem_waiting contended.2 = 1 - 1.
Proof. apply (semaphore_exclusion 1 _ ltac:(lia) contended_reachable). Defined.

Lemma semaphore_no_lost_wakeup_witness :
  (exists s' sem', sem_down_pass released.1 released.2 200 = Done (true, s', sem') /\ (200 ∉ queue sem')) /\
  (exists before after m1 s1 s2, [CSchedule; CSchedule; CSchedule] = before ++ CSchedule :: after /\
     do_calls (∅, released.1) before = Done (m1, s1) /\ schedule s1 = Done (Some 200, s2)).
Proof.
  destruct (semaphore_no_lost_wakeup 1 _ 200 [] ∅ [CSchedule; CSchedule; CSchedule] ltac:(lia) released_reachable) as [H1 H2];
    [vm_compute; reflexivity | vm_compute; reflexivity |].
  split; [exact H1|]. apply H2; [vm_compute; reflexivity | repeat constructor; discriminate | vm_compute; lia].
Defined.
