(* ===== verification/WaitQueue.v ===== *)
(** Wait queues (src/kernel/sched/wait_queue.c, include/protura/wait.h): the queue
    operations, and the loop of [wait_queue_event] as a program of small steps, of
    which any number of tasks are at different points while others make the
    condition true, wake the queue and make the condition false again.  The kernel
    preempts tasks between any two of these steps. *)
From stdpp Require Import base numbers list gmap.
From Stdlib Require Import ZArith ZifyBool Lia.
From S2P Require Import Prelude UserMem Users Task.
Open Scope Z_scope.

(** * The queues

    [members] are the nodes in the list of each queue, in order, a node being named
    by its task; [node_queue] is the field [queue] of the nodes. *)

Record wait_queues : Type := { members : gmap Z (list Z); node_queue : gmap Z Z }.

Definition wait_queue_init (w : wait_queues) (q : Z) : wait_queues :=
  {| members := <[q := []]> (members w); node_queue := node_queue w |}.

Definition list_of (w : wait_queues) (q : Z) : list Z := default [] (members w !! q).

(** [list_node_is_in_list] *)
Definition in_list (w : wait_queues) (t : Z) : bool :=
  existsb (fun ql : Z * list Z => bool_decide (t ∈ ql.2)) (map_to_list (members w)).

Definition wait_queue_register (w : wait_queues) (q t : Z) : outcome wait_queues :=
  if negb (in_list w t) then
    Done {| members := <[q := list_of w q ++ [t]]> (members w); node_queue := <[t := q]> (node_queue w) |}
  else if bool_decide (node_queue w !! t = Some q) then Done w
  else Panic.

Definition wait_queue_unregister (w : wait_queues) (t : Z) : outcome wait_queues :=
  match node_queue w !! t with
  | None => Done w
  | Some q =>
      if in_list w t
      then Done {| members := (fun l => filter (fun x => x <> t) l) <$> members w; node_queue := delete t (node_queue w) |}
      else Panic
  end.

Definition wake_state (st : task_state) : task_state :=
  match st with TASK_SLEEPING | TASK_INTR_SLEEPING => TASK_RUNNING | _ => st end.

(** [wait_queue_wake]: each node is taken from the list and its task, which is its
    [on_complete], woken up. *)
Definition wait_queue_wake (w : wait_queues) (states : gmap Z task_state) (q : Z) : Z * wait_queues * gmap Z task_state :=
  let l := list_of w q in
  (Z.of_nat (length l),
   {| members := <[q := []]> (members w); node_queue := foldr delete (node_queue w) l |},
   foldr (alter wake_state) states l).

(** * The invariant of the queues

    A node is in one list, once, and knows which. *)

Record queues_ok (w : wait_queues) : Prop := {
  qo_node : forall t q, node_queue w !! t = Some q <-> t ∈ list_of w q;
  qo_once : forall q, NoDup (list_of w q);
}.

Lemma in_list_spec w t : in_list w t = true <-> exists q, t ∈ list_of w q.
Proof.
  unfold in_list. rewrite existsb_exists. split.
  - intros ([q l] & Hin & Ht). apply bool_decide_eq_true in Ht. apply list_elem_of_In, elem_of_map_to_list in Hin.
    exists q. unfold list_of. by rewrite Hin.
  - intros (q & Ht). unfold list_of in Ht. destruct (members w !! q) as [l|] eqn:E; [|by apply elem_of_nil in Ht].
    exists (q, l). split; [by apply list_elem_of_In, elem_of_map_to_list | by apply bool_decide_eq_true].
Qed.

Lemma list_of_insert w q l n k : list_of {| members := <[q := l]> (members w); node_queue := n |} k = if decide (q = k) then l else list_of w k.
Proof. unfold list_of. simpl. case_decide as Hd; [subst; by rewrite lookup_insert_eq | by rewrite lookup_insert_ne]. Qed.

Lemma register_ok w q t w' : queues_ok w -> wait_queue_register w q t = Done w' ->
  queues_ok w' /\ node_queue w' = <[t := q]> (node_queue w) /\ (forall k, k <> q -> list_of w' k = list_of w k) /\
  list_of w' q = if in_list w t then list_of w q else list_of w q ++ [t].
Proof.
  intros [Hn Ho] H. unfold wait_queue_register in H. destruct (in_list w t) eqn:Hin; simpl in H.
  - case_bool_decide as Hq; [|done]. injection H as <-. split; [done|]. split; [by rewrite insert_id|]. done.
  - injection H as <-. assert (Hnot : forall k, t ∉ list_of w k).
    { intros k Hk. assert (in_list w t = true) by (apply in_list_spec; eauto). congruence. }
    split; [|split; [done|]; split].
    + split.
      * intros k j. rewrite list_of_insert. simpl. rewrite lookup_insert_Some. destruct (decide (q = j)) as [<-|Hqj].
        -- rewrite elem_of_app, list_elem_of_singleton, <- Hn. destruct (decide (t = k)) as [->|]; [|intuition congruence].
           split; [intros [[_ _]|[? _]]; [auto | done]|]. auto.
        -- rewrite <- Hn. split; [intros [[_ ?]|[_ ?]]; done|]. intros Hk. right. split; [|done]. intros ->. by apply (Hnot j), Hn.
      * intros j. rewrite list_of_insert. case_decide; [|apply Ho]. apply NoDup_app. split; [apply Ho|]. split; [|apply NoDup_singleton].
        intros k Hk ->%list_elem_of_singleton. by apply (Hnot q).
    + intros k Hk. rewrite list_of_insert. by rewrite decide_False.
    + rewrite list_of_insert. by rewrite decide_True.
Qed.

Lemma filter_absent (t : Z) (l : list Z) : t ∉ l -> filter (fun x => x <> t) l = l.
Proof.
  induction l as [|x l IH]; [done|]. rewrite elem_of_cons, filter_cons. intros Hn. rewrite decide_True by (intros ->; tauto).
  by rewrite IH by tauto.
Qed.

Lemma unregister_done w t : queues_ok w -> exists w', wait_queue_unregister w t = Done w' /\ queues_ok w' /\ node_queue w' = delete t (node_queue w) /\
  (forall q, list_of w' q = filter (fun x => x <> t) (list_of w q)).
Proof.
  intros [Hn Ho]. unfold wait_queue_unregister. destruct (node_queue w !! t) as [q|] eqn:E.
  - assert (in_list w t = true) as -> by (apply in_list_spec; exists q; by apply Hn). eexists. split; [done|].
    assert (Hl : forall k, list_of {| members := (fun l => filter (fun x => x <> t) l) <$> members w; node_queue := delete t (node_queue w) |} k =
      filter (fun x => x <> t) (list_of w k)).
    { intros k. unfold list_of. simpl. rewrite lookup_fmap. by destruct (members w !! k). }
    split; [|done]. split.
    + intros k j. rewrite Hl, list_elem_of_filter, <- Hn. simpl. rewrite lookup_delete_Some. intuition congruence.
    + intros j. rewrite Hl. apply NoDup_filter, Ho.
  - exists w. split; [done|]. split; [done|]. split; [by rewrite delete_id|]. intros q. symmetry. apply filter_absent.
    intros Hk. apply Hn in Hk. congruence.
Qed.

Lemma foldr_delete_lookup (l : list Z) (m : gmap Z Z) t : foldr delete m l !! t = if decide (t ∈ l) then None else m !! t.
Proof.
  induction l as [|x l IH]; [by rewrite decide_False by (by intros ?%elem_of_nil)|]. simpl. destruct (decide (x = t)) as [->|Hx].
  - rewrite lookup_delete_eq, decide_True; [done|]. apply elem_of_cons. auto.
  - rewrite lookup_delete_ne, IH by done. apply decide_ext. rewrite elem_of_cons. intuition congruence.
Qed.

Lemma wake_ok w states q :
  queues_ok w -> queues_ok (wait_queue_wake w states q).1.2 /\ list_of (wait_queue_wake w states q).1.2 q = [] /\
  (forall k, k <> q -> list_of (wait_queue_wake w states q).1.2 k = list_of w k).
Proof.
  intros [Hn Ho]. simpl. split; [split|].
  - intros t k. rewrite list_of_insert. simpl. rewrite foldr_delete_lookup. destruct (decide (q = k)) as [<-|Hqk].
    + case_decide as Hd; [split; [done | by intros ?%elem_of_nil]|]. split; [|by intros ?%elem_of_nil]. intros Hq. by apply Hn in Hq.
    + case_decide as Hd; [|apply Hn]. split; [done|]. intros Hk. apply Hn in Hk, Hd. congruence.
  - intros k. rewrite list_of_insert. case_decide; [constructor | apply Ho].
  - rewrite list_of_insert, decide_True by done. split; [done|]. intros k Hk. by rewrite list_of_insert, decide_False.
Qed.

(** * The loop of [wait_queue_event]

    Where a task is in [__wait_queue_event_generic]. *)

Inductive point : Type :=
| Outside
| Start
| Registered
| Prepared
| Checked
| Away.

(** The tasks that wait on one queue for one condition.  [pending] counts those who
    have made the condition true and are yet to wake the queue. *)
Record waiters : Type := {
  queues : wait_queues;
  states : gmap Z task_state;
  points : gmap Z point;
  cond : bool;
  pending : nat;
}.

Definition set_point (t : Z) (p : point) (y : waiters) : waiters :=
  {| queues := queues y; states := states y; points := <[t := p]> (points y); cond := cond y; pending := pending y |}.

Definition set_wq (w : wait_queues) (y : waiters) : waiters :=
  {| queues := w; states := states y; points := points y; cond := cond y; pending := pending y |}.

Definition set_task_state (t : Z) (st : task_state) (y : waiters) : waiters :=
  {| queues := queues y; states := <[t := st]> (states y); points := points y; cond := cond y; pending := pending y |}.

Definition set_cond (c : bool) (n : nat) (y : waiters) : waiters :=
  {| queues := queues y; states := states y; points := points y; cond := c; pending := n |}.

Definition sleep_state (is_intr : bool) : task_state := if is_intr then TASK_INTR_SLEEPING else TASK_SLEEPING.

(** The state after [wait_queue_wake] of [q], when [n] are yet to wake it. *)
Definition woken (q : Z) (n : nat) (y : waiters) : waiters :=
  let '(_, w, sts) := wait_queue_wake (queues y) (states y) q in
  {| queues := w; states := sts; points := points y; cond := cond y; pending := n |}.

(** The steps, on the queue [q].  The queue is woken by those who made the condition
    true ([ev_wake]), and by anybody else at any time ([ev_other]); a task is also
    woken up on its own, by a signal ([ev_spurious]).  [clears] says whether two
    things may happen that the loop does not stand: that somebody, another waiter for
    instance, makes the condition false again, and that the queue is woken with the
    condition false when a task has registered and not yet set itself to sleeping. *)
Inductive event_step (q : Z) (is_intr clears : bool) : waiters -> waiters -> Prop :=
| ev_call y t :
    points y !! t = Some Outside -> cond y = false -> event_step q is_intr clears y (set_point t Start y)
| ev_register y t w :
    points y !! t = Some Start -> wait_queue_register (queues y) q t = Done w ->
    event_step q is_intr clears y (set_point t Registered (set_wq w y))
| ev_prepare y t :
    points y !! t = Some Registered -> event_step q is_intr clears y (set_point t Prepared (set_task_state t (sleep_state is_intr) y))
| ev_true y t w :
    points y !! t = Some Prepared -> cond y = true -> wait_queue_unregister (queues y) t = Done w ->
    event_step q is_intr clears y (set_point t Outside (set_task_state t TASK_RUNNING (set_wq w y)))
| ev_signal y t w :
    points y !! t = Some Prepared -> cond y = false -> is_intr = true -> wait_queue_unregister (queues y) t = Done w ->
    event_step q is_intr clears y (set_point t Outside (set_task_state t TASK_RUNNING (set_wq w y)))
| ev_false y t :
    points y !! t = Some Prepared -> cond y = false -> event_step q is_intr clears y (set_point t Checked y)
| ev_yield y t :
    points y !! t = Some Checked -> event_step q is_intr clears y (set_point t Away y)
| ev_resume y t :
    points y !! t = Some Away -> states y !! t = Some TASK_RUNNING -> event_step q is_intr clears y (set_point t Start y)
| ev_set y : event_step q is_intr clears y (set_cond true (S (pending y)) y)
| ev_wake y n : pending y = S n -> event_step q is_intr clears y (woken q n y)
| ev_other y :
    clears = true \/ cond y = true \/ (forall t, points y !! t <> Some Registered) -> event_step q is_intr clears y (woken q (pending y) y)
| ev_spurious y t :
    event_step q is_intr clears y {| queues := queues y; states := alter wake_state t (states y); points := points y; cond := cond y; pending := pending y |}
| ev_clear y : clears = true -> event_step q is_intr clears y (set_cond false (pending y) y).

Definition event_start (ts : list Z) : waiters :=
  {| queues := {| members := ∅; node_queue := ∅ |}; states := list_to_map ((fun t => (t, TASK_RUNNING)) <$> ts);
     points := list_to_map ((fun t => (t, Outside)) <$> ts); cond := false; pending := 0 |}.

Inductive event_reachable (q : Z) (is_intr clears : bool) (ts : list Z) : waiters -> Prop :=
| er_start : event_reachable q is_intr clears ts (event_start ts)
| er_step y y' : event_reachable q is_intr clears ts y -> event_step q is_intr clears y y' -> event_reachable q is_intr clears ts y'.

(** ** Sound while the condition stays true *)

Definition in_event (p : point) : bool := match p with Registered | Prepared | Checked | Away => true | _ => false end.
Definition asleep (y : waiters) (t : Z) : Prop := exists st, states y !! t = Some st /\ st <> TASK_RUNNING.
Definition past_check (p : point) : bool := match p with Checked | Away => true | _ => false end.

Record event_ok (q : Z) (y : waiters) : Prop := {
  eo_queues : queues_ok (queues y);
  eo_only : forall k, k <> q -> list_of (queues y) k = [];
  eo_states : forall t p, points y !! t = Some p -> exists st, states y !! t = Some st /\ (st = TASK_RUNNING \/ wake_state st = TASK_RUNNING);
  eo_pending : (0 < pending y)%nat -> cond y = true;
  eo_before : forall t, cond y = false -> points y !! t = Some Registered -> t ∈ list_of (queues y) q;
  eo_prepared : forall t, cond y = false -> points y !! t = Some Prepared -> asleep y t -> t ∈ list_of (queues y) q;
  eo_asleep : forall t p, points y !! t = Some p -> past_check p = true -> asleep y t -> t ∈ list_of (queues y) q;
  eo_woken : forall t p, cond y = true -> pending y = 0%nat -> points y !! t = Some p -> past_check p = true -> states y !! t = Some TASK_RUNNING;
}.

Lemma foldr_wake_lookup (l : list Z) (m : gmap Z task_state) t : NoDup l ->
  foldr (alter wake_state) m l !! t = (if decide (t ∈ l) then wake_state <$> m !! t else m !! t).
Proof.
  induction l as [|x l IH]; intros Hn; [by rewrite decide_False by (by intros ?%elem_of_nil)|]. apply NoDup_cons in Hn as [Hx Hn]. simpl.
  destruct (decide (x = t)) as [->|Hne].
  - rewrite lookup_alter_eq, IH, decide_False, decide_True by (done || (apply elem_of_cons; auto)). done.
  - rewrite lookup_alter_ne, IH by done. apply decide_ext. rewrite elem_of_cons. intuition congruence.
Qed.

Lemma wake_state_running st : st = TASK_RUNNING \/ wake_state st = TASK_RUNNING -> wake_state st = TASK_RUNNING.
Proof. intros [->|]; done. Qed.

Ltac points_at H := simpl in H; apply lookup_insert_Some in H as [[<- <-]|[? H]].

Lemma asleep_other t st y k p : k <> t -> asleep (set_point t p (set_task_state t st y)) k -> asleep y k.
Proof. intros Hk (st' & Es & Hne). simpl in Es. rewrite lookup_insert_ne in Es by congruence. by exists st'. Qed.

(** A task moves to a point at which nothing is asked of it. *)
Lemma move_ok q y t p :
  event_ok q y -> is_Some (points y !! t) -> in_event p = false -> event_ok q (set_point t p y).
Proof.
  intros [Hq Ho Hs Hp Hb Hb' Ha Hw] [p0 Hp0] Hin.
  assert (Hpast : past_check p = false) by (by destruct p).
  split; simpl; try done.
  - intros k j Hk. points_at Hk; [by apply (Hs _ p0) | by apply (Hs k j)].
  - intros k Hc Hk. apply lookup_insert_Some in Hk as [[<- ->]|[? Hk]]; [done | by apply Hb].
  - intros k Hc Hk. apply lookup_insert_Some in Hk as [[<- ->]|[? Hk]]; [done | by apply Hb'].
  - intros k j Hk Hj. points_at Hk; [congruence | by apply (Ha k j)].
  - intros k j Hc Hpe Hk Hj. points_at Hk; [congruence | by apply (Hw k j)].
Qed.

(** A task leaves the loop. *)
Lemma leave_ok q y t w :
  event_ok q y -> is_Some (points y !! t) -> wait_queue_unregister (queues y) t = Done w ->
  event_ok q (set_point t Outside (set_task_state t TASK_RUNNING (set_wq w y))).
Proof.
  intros [Hq Ho Hs Hp Hb Hb' Ha Hw] [p0 Hp0] Hu. destruct (unregister_done (queues y) t Hq) as (w' & Eu & Hq' & Hn' & Hl'). rewrite Hu in Eu.
  injection Eu as <-.
  assert (Hkeep : forall k, k <> t -> k ∈ list_of (queues y) q -> k ∈ list_of w q) by (intros k Hk Hin; rewrite Hl'; by apply list_elem_of_filter).
  split; simpl; try done.
  - intros k Hk. rewrite Hl', Ho by done. done.
  - intros k j Hk. points_at Hk; [exists TASK_RUNNING; rewrite lookup_insert_eq; auto|]. rewrite lookup_insert_ne by done. by apply (Hs k j).
  - intros k Hc Hk. apply lookup_insert_Some in Hk as [[_ Hk]|[? Hk]]; [done|]. by apply Hkeep; [congruence | apply Hb].
  - intros k Hc Hk Hs'. apply lookup_insert_Some in Hk as [[_ Hk]|[? Hk]]; [done|]. apply Hkeep; [congruence|].
    apply Hb'; [done | done|]. by apply (asleep_other t TASK_RUNNING (set_wq w y) k Outside); [congruence|].
  - intros k j Hk Hj Hs'. points_at Hk; [done|]. apply Hkeep; [congruence|]. apply (Ha k j Hk Hj).
    by apply (asleep_other t TASK_RUNNING (set_wq w y) k Outside); [congruence|].
  - intros k j Hc Hpe Hk Hj. points_at Hk; [done|]. rewrite lookup_insert_ne by done. by apply (Hw k j).
Qed.

(** The queue is woken, not with the condition false while a task is about to set
    itself to sleeping. *)
Lemma woken_ok q y n :
  event_ok q y -> (n <= pending y)%nat -> cond y = true \/ (forall t, points y !! t <> Some Registered) -> event_ok q (woken q n y).
Proof.
  intros [Hq Ho Hst Hp Hb Hb' Ha Hw] Hn Hreg.
  destruct (wake_ok (queues y) (states y) q Hq) as (Hq' & Hl & Hl').
  assert (Hrun : forall j p, points y !! j = Some p -> j ∈ list_of (queues y) q \/ states y !! j = Some TASK_RUNNING ->
    states (woken q n y) !! j = Some TASK_RUNNING).
  { intros j p Hj Hin. simpl. destruct (Hst j p Hj) as (st & Es & Hr). rewrite foldr_wake_lookup by apply Hq. case_decide as Hd.
    - rewrite Es. simpl. by rewrite wake_state_running.
    - destruct Hin; done. }
  assert (Hlook : forall j p, points y !! j = Some p -> (asleep y j -> j ∈ list_of (queues y) q) -> ~ asleep (woken q n y) j).
  { intros j p Hj Hin (st & Es & Hne). destruct (Hst j p Hj) as (st0 & Es0 & _).
    assert (Hj' : j ∈ list_of (queues y) q \/ states y !! j = Some TASK_RUNNING).
    { destruct (decide (st0 = TASK_RUNNING)) as [->|]; [by right | left; apply Hin; by exists st0]. }
    rewrite (Hrun j p Hj Hj') in Es. congruence. }
  split; try done.
  - intros j Hj. simpl in Hl'. simpl. rewrite Hl' by done. by apply Ho.
  - intros j p Hj. destruct (Hst j p Hj) as (st & Es & Hr). simpl. rewrite foldr_wake_lookup, Es by apply Hq. case_decide; simpl; [|by exists st].
    exists (wake_state st). split; [done|]. left. by apply wake_state_running.
  - simpl. intros H0. apply Hp. lia.
  - simpl. intros j Hc Hj. destruct Hreg as [?|Hreg]; [congruence | by destruct (Hreg j)].
  - intros j Hc Hj Hs. by destruct (Hlook j Prepared Hj (Hb' j Hc Hj)).
  - intros j p Hj Hpj Hs. by destruct (Hlook j p Hj (Ha j p Hj Hpj)).
  - intros j p Hc _ Hj Hpj. destruct (Hst j p Hj) as (st & Es & _). apply (Hrun j p Hj).
    destruct (decide (st = TASK_RUNNING)) as [->|]; [by right | left; apply (Ha j p Hj Hpj); by exists st].
Qed.

Lemma spurious_step_ok q y t :
  event_ok q y ->
  event_ok q {| queues := queues y; states := alter wake_state t (states y); points := points y; cond := cond y; pending := pending y |}.
Proof.
  intros [Hq Ho Hst Hp Hb Hb' Ha Hw].
  assert (Hlook : forall j, (exists st, alter wake_state t (states y) !! j = Some st /\ st <> TASK_RUNNING) -> asleep y j).
  { intros j (st & Es & Hne). destruct (decide (t = j)) as [<-|].
    - rewrite lookup_alter_eq in Es. destruct (states y !! t) as [st0|] eqn:E0; [|done]. injection Es as <-. exists st0. split; [done|]. by intros ->.
    - rewrite lookup_alter_ne in Es by done. by exists st. }
  split; simpl; try done.
  - intros j p Hj. destruct (Hst j p Hj) as (st & Es & Hr). destruct (decide (t = j)) as [<-|].
    + rewrite lookup_alter_eq, Es. exists (wake_state st). split; [done|]. left. by apply wake_state_running.
    + rewrite lookup_alter_ne by done. by exists st.
  - intros j Hc Hj Hs. by apply Hb', Hlook.
  - intros j p Hj Hpj Hs. by apply (Ha j p), Hlook.
  - intros j p Hc Hpe Hj Hpj. pose proof (Hw j p Hc Hpe Hj Hpj) as Es. destruct (decide (t = j)) as [<-|]; [by rewrite lookup_alter_eq, Es | by rewrite lookup_alter_ne].
Qed.

Lemma register_step_ok q y t w :
  event_ok q y -> points y !! t = Some Start -> wait_queue_register (queues y) q t = Done w -> event_ok q (set_point t Registered (set_wq w y)).
Proof.
  intros [Hq Ho Hst Hp Hb Hb' Ha Hw] Ht Hr. destruct (register_ok (queues y) q t w Hq Hr) as (Hq' & Hn' & Hl' & Hl).
  assert (Hkeep : forall k, k ∈ list_of (queues y) q -> k ∈ list_of w q).
  { intros k Hk. rewrite Hl. case_match; [done|]. apply elem_of_app. auto. }
  split; simpl; try done.
  - intros k Hk. rewrite Hl' by done. by apply Ho.
  - intros k j Hk. points_at Hk; [by apply (Hst _ Start) | by apply (Hst k j)].
  - intros k Hc Hk. apply lookup_insert_Some in Hk as [[<- _]|[? Hk]]; [|by apply Hkeep, Hb]. apply Hq'. rewrite Hn'. apply lookup_insert_eq.
  - intros k Hc Hk Hs. apply lookup_insert_Some in Hk as [[_ ?]|[? Hk]]; [done | by apply Hkeep, Hb'].
  - intros k j Hk Hj Hs. points_at Hk; [done | by apply Hkeep, (Ha k j)].
  - intros k j Hc Hpe Hk Hj. points_at Hk; [done | by apply (Hw k j)].
Qed.

Lemma prepare_step_ok q is_intr y t :
  event_ok q y -> points y !! t = Some Registered -> event_ok q (set_point t Prepared (set_task_state t (sleep_state is_intr) y)).
Proof.
  intros [Hq Ho Hst Hp Hb Hb' Ha Hw] Ht. split; simpl; try done.
  - intros k j Hk. points_at Hk; [eexists; rewrite lookup_insert_eq; split; [done|]; right; by destruct is_intr|].
    rewrite lookup_insert_ne by done. by apply (Hst k j).
  - intros k Hc Hk. apply lookup_insert_Some in Hk as [[_ ?]|[? Hk]]; [done | by apply Hb].
  - intros k Hc Hk Hs. apply lookup_insert_Some in Hk as [[<- _]|[? Hk]]; [by apply Hb|]. apply Hb'; [done | done|].
    by apply (asleep_other t (sleep_state is_intr) y k Prepared); [congruence|].
  - intros k j Hk Hj Hs. points_at Hk; [done|]. apply (Ha k j Hk Hj). by apply (asleep_other t (sleep_state is_intr) y k Prepared); [congruence|].
  - intros k j Hc Hpe Hk Hj. points_at Hk; [done|]. rewrite lookup_insert_ne by done. by apply (Hw k j).
Qed.

(** A task goes on with its pass, past the check of the condition. *)
Lemma pass_step_ok q y t p p' :
  event_ok q y -> points y !! t = Some p -> past_check p' = true -> (asleep y t -> t ∈ list_of (queues y) q) ->
  (cond y = true -> pending y = 0%nat -> states y !! t = Some TASK_RUNNING) -> event_ok q (set_point t p' y).
Proof.
  intros [Hq Ho Hst Hp Hb Hb' Ha Hw] Ht Hp' Hs Hr.
  assert (Hn : p' <> Registered /\ p' <> Prepared) by (by destruct p'). split; simpl; try done.
  - intros k j Hk. points_at Hk; [by apply (Hst _ p) | by apply (Hst k j)].
  - intros k Hc Hk. apply lookup_insert_Some in Hk as [[_ ?]|[? Hk]]; [by destruct Hn | by apply Hb].
  - intros k Hc Hk. apply lookup_insert_Some in Hk as [[_ ?]|[? Hk]]; [by destruct Hn | by apply Hb'].
  - intros k j Hk Hj. points_at Hk; [done | by apply (Ha k j)].
  - intros k j Hc Hpe Hk Hj. points_at Hk; [by apply Hr | by apply (Hw k j)].
Qed.

Lemma event_step_ok q is_intr y y' : event_ok q y -> event_step q is_intr false y y' -> event_ok q y'.
Proof.
  intros H Hs. destruct Hs as [y t Ht Hc|y t w Ht Hr|y t Ht|y t w Ht Hc Hu|y t w Ht Hc _ Hu|y t Ht Hc|y t Ht|y t Ht Hrun|y|y n Hn|y Hreg|y t|y Hcl].
  - apply move_ok; [done | by rewrite Ht | done].
  - by apply register_step_ok.
  - by apply prepare_step_ok.
  - apply leave_ok; [done | by rewrite Ht | done].
  - apply leave_ok; [done | by rewrite Ht | done].
  - apply (pass_step_ok q y t Prepared); try done; [|congruence]. by apply (eo_prepared q y H t).
  - apply (pass_step_ok q y t Checked); try done; [by apply (eo_asleep q y H t Checked)|]. intros Hc Hp. by apply (eo_woken q y H t Checked).
  - apply move_ok; [done | by rewrite Ht | done].
  - destruct H. by split.
  - apply woken_ok; [done | lia|]. left. apply (eo_pending q y H). lia.
  - apply woken_ok; [done | lia|]. destruct Hreg as [?|?]; done.
  - by apply spurious_step_ok.
  - done.
Qed.

Lemma event_start_ok q ts : event_ok q (event_start ts).
Proof.
  assert (Hp : forall t p, points (event_start ts) !! t = Some p -> p = Outside /\ t ∈ ts).
  { intros t p H. apply elem_of_list_to_map_2, list_elem_of_fmap in H as (x & [= <- <-] & Hx). auto. }
  split; simpl; try done.
  - split; [|by constructor]. intros t k. unfold list_of. simpl. rewrite lookup_empty. split; [done | by intros ?%elem_of_nil].
  - intros t p H. apply Hp in H as [-> Hin]. exists TASK_RUNNING. split; [|auto]. clear Hp. induction ts as [|x ts IH]; [by apply elem_of_nil in Hin|].
    simpl. destruct (decide (x = t)) as [->|]; [apply lookup_insert_eq|]. rewrite lookup_insert_ne by done. apply elem_of_cons in Hin as [->|]; [done | auto].
  - lia.
  - intros t _ H. by apply Hp in H as [? _].
  - intros t _ H. by apply Hp in H as [? _].
  - intros t p H. apply Hp in H as [-> _]. done.
Qed.

(** * Properties *)

(** C25: a condition that stays true once it is true.  Whatever the order of the
    steps of the tasks that wait, of those who make the condition true and wake the
    queue, of others who wake the queue and of signals that wake a task: when the
    condition is true and nobody is about to wake the queue, no task sleeps in
    [wait_queue_event]; whoever is off the processor there is running and leaves the
    loop when it next checks.  Two things are excluded: that the condition becomes
    false again, and that the queue is woken with the condition false while a
    task is between registering with the queue and setting itself to sleeping.  With
    either of them a wake-up can be lost (see [wait_event_lost_wakeup] and
    [early_wake_lost]). *)
Theorem wait_event_no_lost_wakeup q is_intr ts y t :
  event_reachable q is_intr false ts y -> cond y = true -> pending y = 0%nat -> points y !! t = Some Away ->
  states y !! t = Some TASK_RUNNING.
Proof.
  intros H Hc Hp Ht. assert (Hok : event_ok q y).
  { clear Hc Hp Ht. induction H as [|y y' _ IH Hs]; [apply event_start_ok | by eapply event_step_ok]. }
  by apply (eo_woken q y Hok t Away).
Qed.

(** The steps as a function, to follow a given order of them. *)
Inductive label : Type :=
| LCall (t : Z) | LRegister (t : Z) | LPrepare (t : Z) | LCheck (t : Z) | LYield (t : Z) | LResume (t : Z) | LSet | LWake | LOther | LClear.

Definition at_point (y : waiters) (t : Z) (p : point) : bool :=
  match points y !! t, p with
  | Some Outside, Outside | Some Start, Start | Some Registered, Registered | Some Prepared, Prepared | Some Checked, Checked | Some Away, Away => true
  | _, _ => false
  end.

Definition follow_one (q : Z) (is_intr clears : bool) (y : waiters) (l : label) : option waiters :=
  match l with
  | LCall t => if at_point y t Outside && negb (cond y) then Some (set_point t Start y) else None
  | LRegister t =>
      if at_point y t Start
      then match wait_queue_register (queues y) q t with Done w => Some (set_point t Registered (set_wq w y)) | _ => None end
      else None
  | LPrepare t => if at_point y t Registered then Some (set_point t Prepared (set_task_state t (sleep_state is_intr) y)) else None
  | LCheck t =>
      if at_point y t Prepared
      then if cond y
           then match wait_queue_unregister (queues y) t with
                | Done w => Some (set_point t Outside (set_task_state t TASK_RUNNING (set_wq w y)))
                | _ => None
                end
           else Some (set_point t Checked y)
      else None
  | LYield t => if at_point y t Checked then Some (set_point t Away y) else None
  | LResume t => if at_point y t Away && bool_decide (states y !! t = Some TASK_RUNNING) then Some (set_point t Start y) else None
  | LSet => Some (set_cond true (S (pending y)) y)
  | LWake =>
      match pending y with
      | S n => Some (woken q n y)
      | O => None
      end
  | LOther => if clears || cond y then Some (woken q (pending y) y) else None
  | LClear => if clears then Some (set_cond false (pending y) y) else None
  end.

Fixpoint follow (q : Z) (is_intr clears : bool) (y : waiters) (ls : list label) : option waiters :=
  match ls with [] => Some y | l :: ls' => y ← follow_one q is_intr clears y l; follow q is_intr clears y ls' end.

Lemma at_point_spec y t p : at_point y t p = true -> points y !! t = Some p.
Proof. unfold at_point. by destruct (points y !! t) as [[]|], p. Qed.

Lemma follow_one_sound q is_intr clears y l y' : follow_one q is_intr clears y l = Some y' -> event_step q is_intr clears y y'.
Proof.
  destruct l as [t|t|t|t|t|t| | | |]; cbn [follow_one]; intros H.
  - destruct (at_point y t Outside) eqn:Ep, (cond y) eqn:Ec; try done. injection H as <-. apply ev_call; [by apply at_point_spec | done].
  - destruct (at_point y t Start) eqn:Ep; [|done]. destruct (wait_queue_register _ _ _) eqn:Er; try done. injection H as <-.
    by apply ev_register; [apply at_point_spec|].
  - destruct (at_point y t Registered) eqn:Ep; [|done]. injection H as <-. by apply ev_prepare, at_point_spec.
  - destruct (at_point y t Prepared) eqn:Ep; [|done]. apply at_point_spec in Ep. destruct (cond y) eqn:Ec.
    + destruct (wait_queue_unregister _ _) eqn:Eu; try done. injection H as <-. by apply ev_true.
    + injection H as <-. by apply ev_false.
  - destruct (at_point y t Checked) eqn:Ep; [|done]. injection H as <-. by apply ev_yield, at_point_spec.
  - destruct (at_point y t Away) eqn:Ep; [|done]. simpl in H. case_bool_decide; [|done]. injection H as <-. by apply ev_resume; [apply at_point_spec|].
  - injection H as <-. apply ev_set.
  - destruct (pending y) as [|n] eqn:Ep; [done|]. injection H as <-. by apply ev_wake.
  - destruct clears, (cond y) eqn:Ec; try done; injection H as <-; apply ev_other; auto.
  - destruct clears; [|done]. injection H as <-. by apply ev_clear.
Qed.

Lemma follow_reachable q is_intr clears ts ls : forall y y',
  event_reachable q is_intr clears ts y -> follow q is_intr clears y ls = Some y' -> event_reachable q is_intr clears ts y'.
Proof.
  induction ls as [|l ls IH]; intros y y' Hy; simpl; [by intros [= <-]|]. destruct (follow_one q is_intr clears y l) as [y1|] eqn:E; [|done].
  simpl. apply IH. eapply er_step; [exact Hy | by eapply follow_one_sound].
Qed.

(** Task 1 goes to sleep, and is woken up. *)
Definition woken_waiter : waiters :=
  default (event_start [1]) (follow 7 false false (event_start [1]) [LCall 1; LRegister 1; LPrepare 1; LCheck 1; LYield 1; LSet; LWake]).

Lemma wait_event_no_lost_wakeup_witness : states woken_waiter !! 1 = Some TASK_RUNNING.
Proof.
  apply (wait_event_no_lost_wakeup 7 false [1] woken_waiter 1); [|vm_compute; reflexivity | vm_compute; reflexivity | vm_compute; reflexivity].
  apply (follow_reachable 7 false false [1] [LCall 1; LRegister 1; LPrepare 1; LCheck 1; LYield 1; LSet; LWake] (event_start [1])); [constructor|].
  vm_compute. reflexivity.
Defined.

(** C39: a defect.  [__wait_queue_event_generic] registers with the queue before it
    sets the task to sleeping: when the queue is woken between the two, the task is
    taken off the queue without being asleep, and then goes to sleep.  If another
    task has made the condition false before it checks, it sleeps without being in
    the queue: a second, complete round of making the condition true and waking the
    queue leaves it asleep. *)
Theorem wait_event_lost_wakeup is_intr :
  exists q t y, event_reachable q is_intr true [t] y /\ cond y = true /\ pending y = 0%nat /\ points y !! t = Some Away /\
    states y !! t = Some (sleep_state is_intr) /\ (t ∉ list_of (queues y) q).
Proof.
  set (ls := [LCall 1; LRegister 1; LSet; LWake; LPrepare 1; LClear; LCheck 1; LYield 1; LSet; LWake]).
  exists 7, 1, (default (event_start [1]) (follow 7 is_intr true (event_start [1]) ls)).
  split; [|destruct is_intr; (split; [vm_compute; reflexivity|]; split; [vm_compute; reflexivity|]; split; [vm_compute; reflexivity|];
    split; [vm_compute; reflexivity|]; apply (bool_decide_unpack _); vm_compute; exact I)].
  apply (follow_reachable 7 is_intr true [1] ls (event_start [1])); [constructor|]. destruct is_intr; vm_compute; reflexivity.
Qed.

(** The other way to lose one: the queue is woken with the condition false, in the same
    place.  The task then sleeps without being in the queue when the condition has
    become true and the queue has been woken. *)
Lemma early_wake_lost is_intr :
  exists y, follow 7 is_intr true (event_start [1]) [LCall 1; LRegister 1; LOther; LPrepare 1; LCheck 1; LYield 1; LSet; LWake] = Some y /\
    cond y = true /\ pending y = 0%nat /\ points y !! 1 = Some Away /\ states y !! 1 = Some (sleep_state is_intr).
Proof. destruct is_intr; eexists; (split; [vm_compute; reflexivity|]); by vm_compute. Qed.
