(* ===== verification/Workqueue.v ===== *)
(** Work queues (src/kernel/sched/workqueue.c, include/protura/work.h): works are
    added by anybody and run by the threads of the queue.  What is done under the
    lock of the queue is one step; a thread gives the lock up to sleep and to run a
    callback, and may sleep in the callback too, where adding a work can wake it up.  A work is named by its address, a thread by its index. *)
From stdpp Require Import base numbers list gmap.
From Stdlib Require Import ZArith ZifyBool Lia.
From S2P Require Import Prelude UserMem Users Task.
Open Scope Z_scope.

(** * The queue *)

Record work : Type := { scheduled : bool; oneshot : bool }.

(** Where a thread is in [workqueue_thread], with its variable [work]: about to take
    the lock, in the sleep loop, or running a callback. *)
Inductive thread_point : Type :=
| Top (work : option Z)
| InSleep
| Callback (work : Z) (clear_work : bool).

Record thread : Type := { tstate : task_state; tpoint : thread_point }.

(** [works] are the flags of the works. *)
Record workqueue : Type := {
  work_list : list Z;
  work_running_list : list Z;
  works : gmap Z work;
  work_threads : list thread;
  wake_next_thread : nat;
}.

Definition set_thread (i : nat) (th : thread) (q : workqueue) : workqueue :=
  {| work_list := work_list q; work_running_list := work_running_list q; works := works q;
     work_threads := <[i := th]> (work_threads q); wake_next_thread := wake_next_thread q |}.

Definition wake_thread (th : thread) : thread :=
  {| tstate := match tstate th with TASK_SLEEPING | TASK_INTR_SLEEPING => TASK_RUNNING | st => st end; tpoint := tpoint th |}.

Definition workqueue_init (threads : nat) (ws : gmap Z bool) : workqueue :=
  {| work_list := []; work_running_list := []; works := (fun o => {| scheduled := false; oneshot := o |}) <$> ws;
     work_threads := replicate threads {| tstate := TASK_RUNNING; tpoint := Top None |}; wake_next_thread := 0 |}.

Definition workqueue_add_work (q : workqueue) (w : Z) : workqueue :=
  let q :=
    {| work_list := if bool_decide (w ∈ work_list q) || bool_decide (w ∈ work_running_list q) then work_list q else work_list q ++ [w];
       work_running_list := work_running_list q;
       works := alter (fun x => {| scheduled := true; oneshot := oneshot x |}) w (works q);
       work_threads := work_threads q; wake_next_thread := wake_next_thread q |} in
  match length (work_threads q) with
  | O => q
  | n =>
      {| work_list := work_list q; work_running_list := work_running_list q; works := works q;
         work_threads := alter wake_thread (wake_next_thread q) (work_threads q);
         wake_next_thread := (wake_next_thread q + 1) mod n |}
  end.

(** The start of an iteration of [workqueue_thread]: the work that was run goes, or
    is queued again. *)
Definition put_back (q : workqueue) (wo : option Z) : workqueue :=
  match wo with
  | None => q
  | Some w =>
      {| work_list := match works q !! w with Some x => if scheduled x then work_list q ++ [w] else work_list q | None => work_list q end;
         work_running_list := filter (fun x => x <> w) (work_running_list q);
         works := works q; work_threads := work_threads q; wake_next_thread := wake_next_thread q |}
  end.

(** A pass of the sleep loop by thread [i], and what follows it under the lock if it
    ends: the work taken. *)
Definition thread_take (q : workqueue) (i : nat) : option Z * workqueue :=
  match work_list q with
  | [] => (None, set_thread i {| tstate := TASK_SLEEPING; tpoint := InSleep |} q)
  | w :: l =>
      let clear_work := match works q !! w with Some x => oneshot x | None => false end in
      (Some w,
       set_thread i {| tstate := TASK_RUNNING; tpoint := Callback w clear_work |}
         {| work_list := l;
            work_running_list := if clear_work then work_running_list q else work_running_list q ++ [w];
            works := alter (fun x => {| scheduled := false; oneshot := oneshot x |}) w (works q);
            work_threads := work_threads q; wake_next_thread := wake_next_thread q |})
  end.

(** * Steps *)

Inductive wlabel : Type :=
| WAdd (w : Z)
| WPass (i : nat)
| WSleep (i : nat) (intr : bool)
| WWake (i : nat)
| WReturn (i : nat).

(** A step, with the work that a thread starts to run in it.  [WSleep]: a callback waits
    for something, for a mutex for instance; [WWake]: somebody wakes the thread up.
    A callback that was woken up too early sleeps again. *)
Definition wq_step (q : workqueue) (l : wlabel) : option (option Z * workqueue) :=
  match l with
  | WAdd w => match works q !! w with Some _ => Some (None, workqueue_add_work q w) | None => None end
  | WPass i =>
      match work_threads q !! i with
      | Some {| tstate := TASK_RUNNING; tpoint := Top wo |} => Some (thread_take (put_back q wo) i)
      | Some {| tstate := TASK_RUNNING; tpoint := InSleep |} => Some (thread_take q i)
      | _ => None
      end
  | WSleep i intr =>
      match work_threads q !! i with
      | Some {| tstate := TASK_RUNNING; tpoint := Callback w clear_work |} =>
          Some (None, set_thread i {| tstate := if intr then TASK_INTR_SLEEPING else TASK_SLEEPING; tpoint := Callback w clear_work |} q)
      | _ => None
      end
  | WWake i =>
      match work_threads q !! i with
      | Some th => Some (None, set_thread i (wake_thread th) q)
      | None => None
      end
  | WReturn i =>
      match work_threads q !! i with
      | Some {| tstate := TASK_RUNNING; tpoint := Callback w clear_work |} =>
          Some (None, set_thread i {| tstate := TASK_RUNNING; tpoint := Top (if clear_work then None else Some w) |} q)
      | _ => None
      end
  end.

Fixpoint wq_run (q : workqueue) (ls : list wlabel) : option (list Z * workqueue) :=
  match ls with
  | [] => Some ([], q)
  | l :: ls' =>
      '(t, q) ← wq_step q l;
      '(ts, q) ← wq_run q ls';
      Some ((match t with Some w => [w] | None => [] end) ++ ts, q)
  end.

(** * The invariant *)

(** The work that a thread has, one-shot works apart: it is in the list of the
    running works. *)
Definition holds_work (th : thread) : option Z :=
  match tpoint th with Top wo => wo | InSleep => None | Callback w clear => if clear then None else Some w end.

Definition in_callback (th : thread) : bool := match tpoint th with Callback _ _ => true | _ => false end.

(** Neither idle nor on its way to be: it looks at the list before it sleeps there. *)
Definition busy (th : thread) : Prop := tstate th = TASK_RUNNING \/ in_callback th = true.

Definition has_flag (q : workqueue) (w : Z) : Prop := exists x, works q !! w = Some x /\ scheduled x = true.

Record wq_ok (q : workqueue) : Prop := {
  wo_once : NoDup (work_list q ++ work_running_list q);
  wo_known : forall w, w ∈ work_list q ++ work_running_list q -> is_Some (works q !! w);
  wo_flag : forall w, has_flag q w -> w ∈ work_list q ++ work_running_list q;
  wo_list : forall w, w ∈ work_list q -> has_flag q w;
  wo_held : forall i th w, work_threads q !! i = Some th -> holds_work th = Some w -> w ∈ work_running_list q;
  wo_running : forall w, w ∈ work_running_list q -> exists i th, work_threads q !! i = Some th /\ holds_work th = Some w;
  wo_alone : forall i j th th' w, work_threads q !! i = Some th -> work_threads q !! j = Some th' ->
    holds_work th = Some w -> holds_work th' = Some w -> i = j;
  wo_states : forall i th, work_threads q !! i = Some th -> tstate th = TASK_RUNNING \/ (tstate (wake_thread th) = TASK_RUNNING /\ (tpoint th = InSleep \/ in_callback th = true));
  wo_next : (wake_next_thread q < length (work_threads q) \/ work_threads q = [])%nat;
  wo_awake : work_list q <> [] -> work_threads q <> [] -> exists i th, work_threads q !! i = Some th /\ busy th;
}.

Lemma insert_thread_Some (l : list thread) i j th x :
  <[i := th]> l !! j = Some x -> (j = i /\ x = th) \/ (j <> i /\ l !! j = Some x).
Proof.
  intros H. destruct (decide (i = j)) as [<-|].
  - apply list_lookup_insert_Some in H as [(_ & <- & _)|[? _]]; [auto | done].
  - rewrite list_lookup_insert_ne in H by done. auto.
Qed.

(** A thread whose work does not change, and that runs or sleeps on an empty list. *)
Lemma set_thread_ok q i th th' :
  wq_ok q -> work_threads q !! i = Some th -> holds_work th' = holds_work th ->
  tstate th' = TASK_RUNNING \/ (tstate (wake_thread th') = TASK_RUNNING /\ (tpoint th' = InSleep /\ work_list q = [] \/ in_callback th' = true)) -> wq_ok (set_thread i th' q).
Proof.
  intros [Ho Hk Hf Hl Hh Hr Ha Hs Hn Hw] E Eh Hst.
  assert (Hlt : (i < length (work_threads q))%nat) by (by eapply lookup_lt_Some).
  assert (Hlook : forall j x, <[i := th']> (work_threads q) !! j = Some x -> exists y, work_threads q !! j = Some y /\ holds_work x = holds_work y).
  { intros j x [[-> ->]|[_ ?]]%insert_thread_Some; eauto. }
  split; simpl; try done.
  - intros j x w (y & Ey & Hxy)%Hlook Hw'. apply (Hh j y w Ey). congruence.
  - intros w Hin. destruct (Hr w Hin) as (j & y & Ey & Hy). destruct (decide (i = j)) as [<-|].
    + exists i, th'. rewrite list_lookup_insert_eq by done. split; [done|]. congruence.
    + exists j, y. by rewrite list_lookup_insert_ne.
  - intros j k x x' w (y & Ey & Hxy)%Hlook (y' & Ey' & Hxy')%Hlook Hw1 Hw2. apply (Ha j k y y' w); congruence.
  - intros j x [[-> ->]|[_ Ex]]%insert_thread_Some; [tauto | by apply (Hs j)].
  - rewrite length_insert. destruct Hn as [|Hn]; [auto|]. rewrite Hn in E. done.
  - intros Hne Hth. exists i, th'. rewrite list_lookup_insert_eq by done. split; [done|]. unfold busy. tauto.
Qed.

(** [w] is marked and put in the list, while some thread is awake. *)
Definition mark_work (q : workqueue) (w : Z) : workqueue :=
  {| work_list := if bool_decide (w ∈ work_list q) || bool_decide (w ∈ work_running_list q) then work_list q else work_list q ++ [w];
     work_running_list := work_running_list q;
     works := alter (fun x => {| scheduled := true; oneshot := oneshot x |}) w (works q);
     work_threads := work_threads q; wake_next_thread := wake_next_thread q |}.

Lemma mark_work_list q w k :
  k ∈ work_list (mark_work q w) ++ work_running_list (mark_work q w) <-> k = w \/ k ∈ work_list q ++ work_running_list q.
Proof.
  simpl. rewrite !elem_of_app. repeat case_bool_decide; simpl; rewrite ?elem_of_app, ?list_elem_of_singleton; try tauto; split; try tauto; intros [->|?]; tauto.
Qed.

Lemma mark_work_flag q w k x : works q !! w = Some x -> has_flag (mark_work q w) k <-> k = w \/ has_flag q k.
Proof.
  intros Ex. unfold has_flag. simpl. destruct (decide (w = k)) as [<-|Hwk].
  - rewrite lookup_alter_eq, Ex. simpl. split; [auto|]. intros _. by eexists.
  - rewrite lookup_alter_ne by done. split; [auto | intros [->|]; done].
Qed.

Lemma mark_work_ok q w :
  wq_ok q -> is_Some (works q !! w) -> (work_threads q <> [] -> exists i th, work_threads q !! i = Some th /\ busy th) ->
  wq_ok (mark_work q w).
Proof.
  intros [Ho Hk Hf Hl Hh Hr Ha Hs Hn Hw] [x Ex] Haw. split; try done.
  - simpl. repeat case_bool_decide; simpl; try done. rewrite <- app_assoc, (Permutation_app_comm [w]), app_assoc, Permutation_app_comm.
    apply NoDup_cons. split; [|done]. rewrite elem_of_app. tauto.
  - intros k Hin. simpl. destruct (decide (w = k)) as [<-|]; [by rewrite lookup_alter_eq, Ex|]. rewrite lookup_alter_ne by done.
    apply mark_work_list in Hin as [->|Hin]; [done | by apply Hk].
  - intros k [->|Hk']%(mark_work_flag q w k x Ex); apply mark_work_list; auto.
  - intros k Hin. apply (mark_work_flag q w k x Ex). simpl in Hin. destruct (decide (k ∈ work_list q)); [auto|].
    left. repeat case_bool_decide; simpl in Hin; try done. apply elem_of_app in Hin as [|Hin%list_elem_of_singleton]; done.
Qed.

(** Another thread is to be woken next. *)
Lemma set_next_ok q n : wq_ok q -> (n < length (work_threads q))%nat ->
  wq_ok {| work_list := work_list q; work_running_list := work_running_list q; works := works q; work_threads := work_threads q; wake_next_thread := n |}.
Proof. intros [Ho Hk Hf Hl Hh Hr Ha Hs Hn Hw] Hlt. by split; auto. Qed.

Lemma wake_thread_running q i th : wq_ok q -> work_threads q !! i = Some th -> tstate (wake_thread th) = TASK_RUNNING.
Proof. intros H E. destruct (wo_states q H i th E) as [Hs|[Hs _]]; simpl; [by rewrite Hs | done]. Qed.

Lemma alter_insert (l : list thread) (f : thread -> thread) i th : l !! i = Some th -> alter f i l = <[i := f th]> l.
Proof.
  intros E. apply list_eq. intros j. destruct (decide (i = j)) as [<-|].
  - rewrite list_lookup_alter_eq, E, list_lookup_insert_eq; [done | by eapply lookup_lt_Some].
  - by rewrite list_lookup_alter_ne, list_lookup_insert_ne.
Qed.

Lemma add_work_ok q w : wq_ok q -> is_Some (works q !! w) -> wq_ok (workqueue_add_work q w).
Proof.
  intros H Hk. destruct (work_threads q) as [|th0 ths] eqn:Et.
  - unfold workqueue_add_work. rewrite Et. simpl. pose proof (mark_work_ok q w H Hk) as Hm. unfold mark_work in Hm. rewrite Et in Hm. by apply Hm.
  - assert (Hne : work_threads q <> []) by (by rewrite Et). destruct (wo_next q H) as [Hn|]; [|done].
    destruct (lookup_lt_is_Some_2 (work_threads q) (wake_next_thread q) Hn) as [th E].
    pose proof (wake_thread_running q _ th H E) as Hrun.
    pose proof (set_thread_ok q _ th (wake_thread th) H E eq_refl (or_introl Hrun)) as H1.
    pose proof (mark_work_ok _ w H1 Hk) as H2.
    assert (H3 := set_next_ok _ ((wake_next_thread q + 1) mod length (work_threads q)) (H2 ltac:(intros _; exists (wake_next_thread q), (wake_thread th);
      simpl; split; [by apply list_lookup_insert_eq | by left]))).
    unfold workqueue_add_work. cbn [work_list work_running_list works work_threads wake_next_thread].
    rewrite (alter_insert _ _ _ _ E). destruct (length (work_threads q)) as [|n] eqn:En; [by destruct (work_threads q)|].
    apply H3. cbn [work_threads mark_work set_thread]. rewrite length_insert, En. apply Nat.mod_upper_bound. lia.
Qed.

(** ** The threads *)

(** Thread [i] gives up the work it ran, and takes another. *)
Lemma put_back_ok q i w :
  wq_ok q -> work_threads q !! i = Some {| tstate := TASK_RUNNING; tpoint := Top (Some w) |} ->
  wq_ok (set_thread i {| tstate := TASK_RUNNING; tpoint := Top None |} (put_back q (Some w))).
Proof.
  intros [Ho Hk Hf Hl Hh Hr Ha Hs Hn Hw] E.
  assert (Hlt : (i < length (work_threads q))%nat) by (by eapply lookup_lt_Some).
  assert (Hwr : w ∈ work_running_list q) by (by apply (Hh i _ w E)).
  destruct (Hk w) as [x Ex]; [apply elem_of_app; auto|].
  assert (Hnl : w ∉ work_list q) by (apply NoDup_app in Ho as (_ & Ho & _); intros Hin; by apply (Ho w)).
  assert (Hmem : forall k, k ∈ work_list (put_back q (Some w)) <-> k ∈ work_list q \/ (k = w /\ scheduled x = true)).
  { intros k. simpl. rewrite Ex. destruct (scheduled x); rewrite ?elem_of_app, ?list_elem_of_singleton; intuition done. }
  assert (Hrun : forall k, k ∈ work_running_list (put_back q (Some w)) <-> (k <> w) /\ (k ∈ work_running_list q)) by (intros k; simpl; by rewrite list_elem_of_filter).
  assert (Hlook : forall j y k, <[i := {| tstate := TASK_RUNNING; tpoint := Top None |}]> (work_threads q) !! j = Some y -> holds_work y = Some k ->
    j <> i /\ work_threads q !! j = Some y) by (intros j y k [[-> ->]|[? ?]]%insert_thread_Some; done).
  split.
  - apply NoDup_app in Ho as (H1 & H2 & H3). simpl. rewrite Ex. apply NoDup_app. split; [|split; [|by apply NoDup_filter]].
    + destruct (scheduled x); [|done]. apply NoDup_app. split; [done|]. split; [|apply NoDup_singleton]. intros k Hk' ->%list_elem_of_singleton. done.
    + intros k Hk' [Hkw Hkr]%list_elem_of_filter. apply (H2 k); [|done]. destruct (scheduled x); [|done]. apply elem_of_app in Hk' as [| ->%list_elem_of_singleton]; done.
  - intros k. rewrite elem_of_app. simpl. rewrite Hmem, Hrun. intros Hin. apply Hk, elem_of_app. intuition congruence.
  - intros k Hk'. change (has_flag q k) in Hk'. rewrite elem_of_app. simpl. rewrite Hmem, Hrun. destruct (decide (k = w)) as [->|].
    + left. right. split; [done|]. destruct Hk' as (x' & Ex' & Hx'). congruence.
    + apply Hf, elem_of_app in Hk' as [|]; auto.
  - intros k. simpl. rewrite Hmem. intros [Hin|[-> Hx]]; [by apply Hl | by exists x].
  - intros j y k Ej Hy. simpl in *. apply Hrun. destruct (Hlook j y k Ej Hy) as [Hji Ej']. split; [|by apply (Hh j y)].
    intros ->. apply Hji. by apply (Ha j i y _ w Ej' E).
  - intros k. simpl. rewrite Hrun. intros [Hkw Hin]. destruct (Hr k Hin) as (j & y & Ej & Hy). exists j, y. rewrite list_lookup_insert_ne; [done|].
    intros <-. rewrite E in Ej. injection Ej as <-. injection Hy as <-. done.
  - intros j j' y y' k Ej Ej' Hy Hy'. destruct (Hlook j y k Ej Hy), (Hlook j' y' k Ej' Hy'). by apply (Ha j j' y y' k).
  - intros j y [[-> ->]|[_ Ej]]%insert_thread_Some; [auto | by apply (Hs j)].
  - simpl. rewrite length_insert. destruct Hn as [|Hn]; [auto|]. by rewrite Hn in E.
  - intros _ _. exists i. eexists. simpl. rewrite list_lookup_insert_eq by done. split; [done | by left].
Qed.

Lemma thread_take_ok q i th :
  wq_ok q -> work_threads q !! i = Some th -> holds_work th = None -> wq_ok (thread_take q i).2.
Proof.
  intros H E Eh. unfold thread_take. destruct (work_list q) as [|w l] eqn:El; [apply (set_thread_ok q i th); auto; by right; auto|].
  destruct H as [Ho Hk Hf Hl Hh Hr Ha Hs Hn Hw]. assert (Hlt : (i < length (work_threads q))%nat) by (by eapply lookup_lt_Some).
  rewrite El in *. simpl in Ho. apply NoDup_cons in Ho as [Hwn Ho]. rewrite elem_of_app in Hwn.
  destruct (Hk w) as [x Ex]; [apply elem_of_app; left; apply elem_of_cons; auto|]. rewrite Ex. simpl.
  set (rl := if oneshot x then work_running_list q else work_running_list q ++ [w]).
  assert (Hrl : forall k, k ∈ rl <-> k ∈ work_running_list q \/ (k = w /\ oneshot x = false)).
  { intros k. subst rl. destruct (oneshot x); rewrite ?elem_of_app, ?list_elem_of_singleton; intuition done. }
  assert (Hflag : forall k, (exists y, alter (fun x => {| scheduled := false; oneshot := oneshot x |}) w (works q) !! k = Some y /\ scheduled y = true) <->
    (k <> w) /\ has_flag q k).
  { intros k. destruct (decide (w = k)) as [<-|].
    - rewrite lookup_alter_eq, Ex. simpl. split; [by intros (y & [= <-] & ?) | by intros [? _]].
    - rewrite lookup_alter_ne by done. unfold has_flag. split; [|by intros [_ ?]]. auto. }
  split; simpl.
  - subst rl. destruct (oneshot x); [done|]. rewrite app_assoc, (Permutation_app_comm _ [w]). apply NoDup_cons. split; [|done]. rewrite elem_of_app. tauto.
  - intros k. rewrite elem_of_app, Hrl. intros Hin. destruct (decide (w = k)) as [<-|]; [by rewrite lookup_alter_eq, Ex|]. rewrite lookup_alter_ne by done.
    apply Hk. rewrite elem_of_app, elem_of_cons. intuition congruence.
  - intros k Hk'. apply Hflag in Hk' as [Hkw Hk']. rewrite elem_of_app, Hrl. apply Hf in Hk'. rewrite elem_of_app, elem_of_cons in Hk'. intuition congruence.
  - intros k Hin. apply Hflag. split; [intros ->; tauto|]. apply Hl, elem_of_cons. auto.
  - intros j y k [[-> ->]|[_ Ej]]%insert_thread_Some Hy; apply Hrl; [|left; by apply (Hh j y)]. unfold holds_work in Hy. simpl in Hy.
    destruct (oneshot x); [done|]. injection Hy as <-. auto.
  - intros k Hin. apply Hrl in Hin as [Hin|[-> Hx]].
    + destruct (Hr k Hin) as (j & y & Ej & Hy). exists j, y. rewrite list_lookup_insert_ne; [done|]. intros <-. congruence.
    + exists i. eexists. rewrite list_lookup_insert_eq by done. split; [done|]. unfold holds_work. simpl. by rewrite Hx.
  - assert (Hnew : forall j y, work_threads q !! j = Some y -> holds_work y <> Some w).
    { intros j y Ej Hy. assert (w ∈ work_running_list q) by (by apply (Hh j y)). tauto. }
    intros j j' y y' k [[-> ->]|[Hj Ej]]%insert_thread_Some [[-> ->]|[Hj' Ej']]%insert_thread_Some Hy Hy'; [done | | |by apply (Ha j j' y y' k)];
      exfalso; unfold holds_work in Hy, Hy'; simpl in Hy, Hy'; destruct (oneshot x); try done; simplify_eq; by eapply Hnew.
  - intros j y [[-> ->]|[_ Ej]]%insert_thread_Some; [auto | by apply (Hs j)].
  - rewrite length_insert. destruct Hn as [|Hn]; [auto|]. by rewrite Hn in E.
  - intros _ _. exists i. eexists. rewrite list_lookup_insert_eq by done. split; [done | by left].
Qed.

(** What a step appends to the list, and takes from its front. *)
Definition moved (q : workqueue) (t : option Z) (q' : workqueue) : Prop :=
  exists added, work_list q ++ added = match t with Some w => [w] | None => [] end ++ work_list q'.

Lemma thread_take_moved q i : moved q (thread_take q i).1 (thread_take q i).2.
Proof. unfold moved, thread_take. exists []. rewrite app_nil_r. destruct (work_list q) eqn:E; simpl; by rewrite ?E. Qed.

Lemma put_back_moved q wo : exists added, work_list (put_back q wo) = work_list q ++ added.
Proof.
  destruct wo as [w|]; simpl; [|exists []; by rewrite app_nil_r].
  destruct (works q !! w) as [x|]; [destruct (scheduled x)|]; [by exists [w] | exists []; by rewrite app_nil_r | exists []; by rewrite app_nil_r].
Qed.

Lemma thread_take_set q i th : thread_take (set_thread i th q) i = thread_take q i.
Proof. unfold thread_take, set_thread. simpl. destruct (work_list q); simpl; by rewrite list_insert_insert_eq. Qed.

Lemma wq_step_ok q l t q' : wq_ok q -> wq_step q l = Some (t, q') -> wq_ok q' /\ moved q t q'.
Proof.
  intros H Hs. destruct l as [w|i|i intr|i|i]; simpl in Hs.
  - destruct (works q !! w) as [x|] eqn:Ex; [|done]. injection Hs as <- <-. split; [by apply add_work_ok; [|rewrite Ex]|].
    unfold moved, workqueue_add_work. cbn [work_list work_threads]. exists (if bool_decide (w ∈ work_list q) || bool_decide (w ∈ work_running_list q) then [] else [w]).
    destruct (length (work_threads q)); simpl; destruct (_ || _); by rewrite ?app_nil_r.
  - destruct (work_threads q !! i) as [[[] [wo| |]]|] eqn:E; try done; injection Hs as Hs.
    + assert (t = (thread_take (put_back q wo) i).1 /\ q' = (thread_take (put_back q wo) i).2) as [-> ->] by (by rewrite Hs). split.
      * rewrite <- (thread_take_set _ i {| tstate := TASK_RUNNING; tpoint := Top None |}).
        eapply thread_take_ok; [|simpl; apply list_lookup_insert_eq; by destruct wo; eapply lookup_lt_Some | done].
        destruct wo as [w|]; [by apply put_back_ok|]. by eapply set_thread_ok; [exact H | exact E | done | left].
      * destruct (put_back_moved q wo) as [a1 E1]. destruct (thread_take_moved (put_back q wo) i) as [a2 E2].
        exists (a1 ++ a2). by rewrite app_assoc, <- E1.
    + assert (t = (thread_take q i).1 /\ q' = (thread_take q i).2) as [-> ->] by (by rewrite Hs).
      split; [by eapply thread_take_ok | apply thread_take_moved].
  - destruct (work_threads q !! i) as [[[] [wo| |w clear]]|] eqn:E; try done. injection Hs as <- <-. split; [|exists []; by rewrite app_nil_r].
    eapply set_thread_ok; [exact H | exact E | done | right; split; [by destruct intr | by right]].
  - destruct (work_threads q !! i) as [th|] eqn:E; [|done]. injection Hs as <- <-. split; [|exists []; by rewrite app_nil_r].
    eapply set_thread_ok; [exact H | exact E | done | left; by apply (wake_thread_running q i)].
  - destruct (work_threads q !! i) as [[[] [wo| |w clear]]|] eqn:E; try done. injection Hs as <- <-. split; [|exists []; by rewrite app_nil_r].
    eapply set_thread_ok; [exact H | exact E | by destruct clear | by left].
Qed.

Lemma wq_run_ok ls : forall q ts q', wq_ok q -> wq_run q ls = Some (ts, q') -> wq_ok q' /\ exists added, work_list q ++ added = ts ++ work_list q'.
Proof.
  induction ls as [|l ls IH]; intros q ts q' H Hr; simpl in Hr; [injection Hr as <- <-; split; [done|]; exists []; by rewrite app_nil_r|].
  destruct (wq_step q l) as [[t q1]|] eqn:Es; [|done]. simpl in Hr. destruct (wq_run q1 ls) as [[ts1 q2]|] eqn:Er; [|done]. simpl in Hr.
  injection Hr as <- <-. destruct (wq_step_ok q l t q1 H Es) as [H1 [a1 E1]]. destruct (IH q1 ts1 q2 H1 Er) as [H2 [a2 E2]]. split; [done|].
  exists (a1 ++ a2). by rewrite app_assoc, E1, <- !app_assoc, E2.
Qed.

Lemma workqueue_init_ok n ws : wq_ok (workqueue_init n ws).
Proof.
  assert (Hth : forall i th, replicate n {| tstate := TASK_RUNNING; tpoint := Top None |} !! i = Some th -> th = {| tstate := TASK_RUNNING; tpoint := Top None |}).
  { intros i th H. by apply lookup_replicate_1 in H as [-> _]. }
  split; simpl; try done.
  - constructor.
  - by intros w ?%elem_of_nil.
  - intros w (x & Ex & Hx). simpl in Ex. rewrite lookup_fmap in Ex. apply fmap_Some in Ex as (b & _ & ->). done.
  - by intros w ?%elem_of_nil.
  - intros i th w ->%Hth. done.
  - by intros w ?%elem_of_nil.
  - intros i j th th' w ->%Hth. done.
  - intros i th ->%Hth. auto.
  - rewrite length_replicate. destruct n; [auto | left; lia].
Qed.

Lemma wq_step_threads q l t q' : wq_step q l = Some (t, q') -> length (work_threads q') = length (work_threads q).
Proof.
  assert (Htake : forall q i, length (work_threads (thread_take q i).2) = length (work_threads q)).
  { intros q0 i. unfold thread_take. destruct (work_list q0); simpl; by rewrite length_insert. }
  destruct l as [w|i|i intr|i|i]; simpl.
  - destruct (works q !! w); [|done]. intros [= _ <-]. unfold workqueue_add_work. cbn [work_threads].
    destruct (length (work_threads q)) eqn:E; simpl; by rewrite ?length_alter.
  - destruct (work_threads q !! i) as [[[] [wo| |]]|]; try done; intros [= Hs].
    + pose proof (Htake (put_back q wo) i) as Hl. rewrite Hs in Hl. simpl in Hl. rewrite Hl. by destruct wo.
    + pose proof (Htake q i) as Hl. by rewrite Hs in Hl.
  - destruct (work_threads q !! i) as [[[] [wo| |]]|]; try done. intros [= _ <-]. simpl. by rewrite length_insert.
  - destruct (work_threads q !! i) as [th|]; try done. intros [= _ <-]. simpl. by rewrite length_insert.
  - destruct (work_threads q !! i) as [[[] [wo| |]]|]; try done. intros [= _ <-]. simpl. by rewrite length_insert.
Qed.

Lemma wq_run_threads ls : forall q ts q', wq_run q ls = Some (ts, q') -> length (work_threads q') = length (work_threads q).
Proof.
  induction ls as [|l ls IH]; intros q ts q' Hr; simpl in Hr; [by injection Hr as _ <-|].
  destruct (wq_step q l) as [[t q1]|] eqn:Es; [|done]. simpl in Hr. destruct (wq_run q1 ls) as [[ts1 q2]|] eqn:Er; [|done]. simpl in Hr.
  injection Hr as _ <-. rewrite (IH q1 ts1 q2 Er). by apply (wq_step_threads q l t).
Qed.

(** The thread that has run a work that was scheduled again. *)
Lemma requeue q i w :
  wq_ok q -> has_flag q w -> work_threads q !! i = Some {| tstate := TASK_RUNNING; tpoint := Top (Some w) |} ->
  exists t q', wq_step q (WPass i) = Some (t, q') /\ work_list q ++ [w] = match t with Some u => [u] | None => [] end ++ work_list q'.
Proof.
  intros H (x & Ex & Hx) E. simpl. rewrite E. eexists _, _. split; [by rewrite surjective_pairing at 1|].
  assert (Hl : work_list (put_back q (Some w)) = work_list q ++ [w]) by (simpl; by rewrite Ex, Hx).
  rewrite <- Hl. unfold thread_take. destruct (work_list (put_back q (Some w))) eqn:El; simpl; [|done]. by destruct (work_list q).
Qed.

(** * Properties *)

(** whatever works are added and in whatever order the threads of a queue run, no
    work (other than the one-shot works, which a callback may free) is run by two
    threads at the same time. *)
Theorem workqueue_exclusive n ws ls ts q i j w si sj :
  wq_run (workqueue_init n ws) ls = Some (ts, q) ->
  work_threads q !! i = Some {| tstate := si; tpoint := Callback w false |} ->
  work_threads q !! j = Some {| tstate := sj; tpoint := Callback w false |} -> i = j.
Proof.
  intros Hr Hi Hj. apply wq_run_ok in Hr as [H _]; [|apply workqueue_init_ok]. by eapply (wo_alone q H i j _ _ w).
Qed.

(** C26: no work is lost.  A work that has been scheduled and not yet started is in
    the list, or the thread that is still running it from before will put it there;
    from then on works are started exactly in the order of the list; and as long as
    the list is not empty, some thread of the queue is awake, or sleeps in a callback
    and comes back to the list when the callback ends.  So a thread is awake if no
    callback sleeps.  If one does, a work may have to wait for it although other
    threads are idle (see [wake_up_taken]). *)
Theorem workqueue_no_lost_work n ws ls ts q :
  wq_run (workqueue_init n ws) ls = Some (ts, q) ->
  (forall w, has_flag q w -> w ∈ work_list q \/ exists i th, work_threads q !! i = Some th /\ holds_work th = Some w /\
     (forall st, th = {| tstate := st; tpoint := Top (Some w) |} -> exists t q', wq_step q (WPass i) = Some (t, q') /\
        work_list q ++ [w] = match t with Some u => [u] | None => [] end ++ work_list q')) /\
  (forall ls' ts' q', wq_run q ls' = Some (ts', q') -> exists added, work_list q ++ added = ts' ++ work_list q') /\
  ((0 < n)%nat -> work_list q <> [] -> exists i th, work_threads q !! i = Some th /\ (tstate th = TASK_RUNNING \/ in_callback th = true)).
Proof.
  intros Hr. pose proof (wq_run_threads _ _ _ _ Hr) as Hlen. apply wq_run_ok in Hr as [H _]; [|apply workqueue_init_ok]. split; [|split].
  - intros w Hf. destruct (proj1 (elem_of_app _ _ _) (wo_flag q H w Hf)) as [|Hin]; [auto|]. right.
    destruct (wo_running q H w Hin) as (i & th & E & Hh). exists i, th. split; [done|]. split; [done|]. intros st ->. apply requeue; [done | done|].
    destruct (wo_states q H i _ E) as [Hs|[_ [Hs|Hs]]]; simpl in Hs; [by subst | done | done].
  - intros ls' ts' q' Hr'. by apply wq_run_ok in Hr' as [_ ?].
  - intros Hn Hne. apply (wo_awake q H Hne). intros He. rewrite He in Hlen. simpl in Hlen. rewrite length_replicate in Hlen. lia.
Qed.

(** Thread 0 sleeps in the callback of work 10 when work 30 is added: the wake-up goes to
    it, because it is its turn, and not to thread 1, which is idle.  It goes back
    to sleep in its callback, and work 30 stays in the list. *)
Lemma wake_up_taken :
  exists q, wq_run (workqueue_init 2 (<[10 := false]> (<[20 := false]> {[30 := false]})))
      [WAdd 10; WPass 0; WAdd 20; WPass 1; WReturn 1; WPass 1; WSleep 0 false; WAdd 30; WSleep 0 false] = Some ([10; 20], q) /\
    work_list q = [30] /\ wq_step q (WPass 0) = None /\ wq_step q (WPass 1) = None /\ wq_step q (WReturn 0) = None /\
    work_threads q = [{| tstate := TASK_SLEEPING; tpoint := Callback 10 false |}; {| tstate := TASK_SLEEPING; tpoint := InSleep |}].
Proof. eexists. split; [vm_compute; reflexivity|]. by vm_compute. Qed.

(** Two works on two threads; the first is scheduled again while it runs. *)
Definition two_works : gmap Z bool := <[10 := false]> {[20 := false]}.
Definition some_steps : list wlabel := [WAdd 10; WPass 0; WAdd 20; WAdd 10; WPass 1; WReturn 0].
Definition some_queue : workqueue := match wq_run (workqueue_init 2 two_works) some_steps with Some (_, q) => q | None => workqueue_init 0 ∅ end.

Lemma workqueue_exclusive_witness : 1%nat = 1%nat.
Proof.
  apply (workqueue_exclusive 2 two_works some_steps [10; 20] some_queue 1 1 20 TASK_RUNNING TASK_RUNNING);
    [vm_compute; reflexivity | vm_compute; reflexivity | vm_compute; reflexivity].
Defined.

Lemma workqueue_no_lost_work_witness :
  (10 ∈ work_list some_queue) \/ exists i th, work_threads some_queue !! i = Some th /\ holds_work th = Some 10.
Proof.
  destruct (workqueue_no_lost_work 2 two_works some_steps [10; 20] some_queue) as [H _]; [vm_compute; reflexivity|].
  destruct (H 10) as [Hl|(i & th & E & Hh & _)]; [eexists; split; vm_compute; reflexivity | left; exact Hl | right; exists i, th; split; [exact E | exact Hh]].
Defined.
