(* ===== verification/Signal.v ===== *)
(** Signals (src/kernel/sched/signal.c, arch/x86/kernel/signal.c): masks and actions of
    a task, how a pending signal is handled on the way back to user code, the call of
    a handler on the user stack and the return from it. *)
From stdpp Require Import base numbers list gmap.
From Stdlib Require Import ZArith ZifyBool Lia.
From S2P Require Import Prelude UserMem Users Bits Task.
Open Scope Z_scope.

(** * Masks and actions *)

Definition SIG_DFL : Z := 0.
Definition SIG_IGN : Z := 1.
Definition SIG_ERR : Z := -1.
Definition SIG_BLOCK : Z := 0.
Definition SIG_UNBLOCK : Z := 1.
Definition SIG_SETMASK : Z := 2.
Definition SA_RESTART : Z := 0x10000000.
Definition SA_ONESHOT : Z := 0x80000000.
Definition ERESTARTSYS : Z := 512.
Definition ERESTARTNOHAND : Z := 513.
Definition ERESTARTNOINTR : Z := 514.

Definition SIG_BIT (x : Z) : Z := Z.shiftl 1 (x - 1).
Definition SIG_UNBLOCKABLE : Z := Z.lor (SIG_BIT SIGKILL) (SIG_BIT SIGSTOP).

Definition sys_sigprocmask (m : gmap Z Z) (x : task) (how : Z) (set oldset : user_buffer) : Z * gmap Z Z * task :=
  let '(ret, m) := if ptr oldset =? 0 then (0, m) else user_copy_from_kernel m oldset (sig_blocked x) in
  if negb (ret =? 0) then (ret, m, x)
  else if ptr set =? 0 then (0, m, x)
  else
    let '(ret, tmp) := user_copy_to_kernel m set in
    if negb (ret =? 0) then (ret, m, x)
    else
      let tmp := Z.land tmp (Z.lnot SIG_UNBLOCKABLE) in
      if how =? SIG_BLOCK then (0, m, set_blocked (Z.lor (sig_blocked x) tmp) x)
      else if how =? SIG_UNBLOCK then (0, m, set_blocked (Z.land (sig_blocked x) (Z.lnot tmp)) x)
      else if how =? SIG_SETMASK then (0, m, set_blocked tmp x)
      else (- EINVAL, m, x).

Definition sys_sigpending (m : gmap Z Z) (x : task) (set : user_buffer) : Z * gmap Z Z :=
  user_copy_from_kernel m set (sig_pending x).

(** A [struct sigaction] is three words. *)
Definition action_bytes (a : sigaction) : list Z := word_bytes (sa_handler a) ++ word_bytes (sa_mask a) ++ word_bytes (sa_flags a).

Definition bytes_action (bs : list Z) : sigaction :=
  {| sa_handler := bytes_word (take 4 bs); sa_mask := bytes_word (take 4 (drop 4 bs)); sa_flags := bytes_word (take 4 (drop 8 bs)) |}.

Definition action_of (x : task) (signum : Z) : sigaction :=
  default {| sa_handler := 0; sa_mask := 0; sa_flags := 0 |} (sig_actions x !! Z.to_nat (signum - 1)).

Definition set_action (signum : Z) (a : sigaction) (x : task) : task := set_actions (<[Z.to_nat (signum - 1) := a]> (sig_actions x)) x.

Definition sys_sigaction (m : gmap Z Z) (x : task) (signum : Z) (act oldact : user_buffer) : Z * gmap Z Z * task :=
  if (signum <? 1) || (NSIG <? signum) then (- EINVAL, m, x)
  else
    let '(ret, m) := if ptr oldact =? 0 then (0, m) else user_memcpy_from_kernel m oldact (action_bytes (action_of x signum)) in
    if negb (ret =? 0) then (ret, m, x)
    else if ptr act =? 0 then (0, m, x)
    else
      let '(ret, bs) := user_memcpy_to_kernel m act 12 in
      if negb (ret =? 0) then (ret, m, x)
      else
        let tmp := bytes_action bs in
        let tmp := {| sa_handler := sa_handler tmp; sa_mask := Z.land (Z.lor (sa_mask tmp) (SIG_BIT signum)) (Z.lnot SIG_UNBLOCKABLE);
                      sa_flags := sa_flags tmp |} in
        (0, m, set_action signum tmp x).

Definition sys_signal (x : task) (signum handler : Z) : Z * task :=
  if (signum <? 1) || (NSIG <? signum) then (SIG_ERR, x)
  else (sa_handler (action_of x signum), set_action signum {| sa_handler := handler; sa_mask := 0; sa_flags := 0 |} x).

Definition sys_kill (s : sched) (p sig : Z) : outcome (Z * sched) :=
  if sig =? 0 then r ← scheduler_task_exists s p; Done (r, s)
  else if (sig <? 1) || (NSIG <? sig) then Done (- EINVAL, s)
  else if (0 <? p) || (p <? -1) then scheduler_task_send_signal s p sig false
  else Done (- EINVAL, s).

(** * Calling a handler *)

(** The words of a frame, in the order of the structure. *)
Definition frame_words (f : irq_frame) : list Z :=
  take 7 (regs f) ++ [eax f] ++ take 6 (drop 7 (regs f)) ++ [eip f] ++ take 2 (drop 13 (regs f)) ++ [esp f] ++ drop 15 (regs f).

Definition words_frame (ws : list Z) : irq_frame :=
  {| regs := take 7 ws ++ take 6 (drop 8 ws) ++ take 2 (drop 15 ws) ++ drop 18 ws;
     eax := default 0 (ws !! 7%nat); eip := default 0 (ws !! 14%nat); esp := default 0 (ws !! 17%nat) |}.

(** [struct signal_context] *)
Record signal_context : Type := { signum : Z; old_mask : Z; sframe : irq_frame }.

Definition context_words (c : signal_context) : list Z := signum c :: old_mask c :: frame_words (sframe c).

Definition words_context (ws : list Z) : signal_context :=
  {| signum := default 0 (ws !! 0%nat); old_mask := default 0 (ws !! 1%nat); sframe := words_frame (drop 2 ws) |}.

Definition words_bytes (ws : list Z) : list Z := concat (word_bytes <$> ws).

(** The kernel stores to the user's stack and loads from it without a check. *)
Definition store (m : gmap Z Z) (addr : Z) (bs : list Z) : outcome (gmap Z Z) :=
  match movs_out m addr bs with (0, m') => Done m' | _ => Fault end.

Fixpoint load_words (m : gmap Z Z) (addr : Z) (n : nat) : outcome (list Z) :=
  match n with
  | O => Done []
  | S n' =>
      match movs_in m addr 4 with
      | (0, bs) => ws ← load_words m (u32 (addr + 4)) n'; Done (bytes_word bs :: ws)
      | _ => Fault
      end
  end.

Definition set_eax (v : Z) (f : irq_frame) : irq_frame := {| regs := regs f; eax := v; eip := eip f; esp := esp f |}.

Definition signal_syscall_restart (f : irq_frame) (prev : Z) : irq_frame :=
  {| regs := regs f; eax := prev; eip := u32 (eip f - 2); esp := esp f |}.

(** [tramp]: the code that the handler returns to. *)
Definition signal_setup_stack (tramp : list Z) (m : gmap Z Z) (x : task) (action : sigaction) (signo : Z) (f : irq_frame)
  : outcome (gmap Z Z * irq_frame) :=
  let context := {| signum := signo; old_mask := sig_blocked x; sframe := f |} in
  let stack := ALIGN_2_DOWN (esp f) 4 in
  let stack := u32 (stack - Z.of_nat (length tramp)) in
  m ← store m stack tramp;
  let signal_ret := stack in
  let stack := ALIGN_2_DOWN stack 4 in
  let stack := u32 (stack - 84) in
  m ← store m stack (words_bytes (context_words context));
  let stack := u32 (stack - 4) in
  m ← store m stack (word_bytes signal_ret);
  Done (m, {| regs := regs f; eax := eax f; eip := sa_handler action; esp := stack |}).

(** [sys_sigreturn]: the frame and the mask that the kernel finds on the stack. *)
Definition sys_sigreturn (m : gmap Z Z) (x : task) : outcome task :=
  ws ← load_words m (esp (frame x)) 21;
  let context := words_context ws in
  Done (set_blocked (Z.land (old_mask context) (Z.lnot SIG_UNBLOCKABLE)) (set_frame (sframe context) x)).

(** What becomes of an interrupted system call when a handler is called. *)
Definition jump_frame (x : task) (action : sigaction) : irq_frame :=
  let f := frame x in
  if prev_syscall x =? 0 then f
  else if eax f =? u32 (- ERESTARTSYS) then
    if negb (Z.land (sa_flags action) SA_RESTART =? 0) then signal_syscall_restart f (prev_syscall x) else set_eax (u32 (- EINTR)) f
  else if eax f =? u32 (- ERESTARTNOINTR) then signal_syscall_restart f (prev_syscall x)
  else if eax f =? u32 (- ERESTARTNOHAND) then set_eax (u32 (- EINTR)) f
  else f.

Definition signal_jump (tramp : list Z) (m : gmap Z Z) (x : task) (signo : Z) : outcome (gmap Z Z * task) :=
  let action := action_of x signo in
  '(m, f) ← signal_setup_stack tramp m x action signo (jump_frame x action);
  let x := set_frame f x in
  let x := if negb (Z.land (sa_flags action) SA_ONESHOT =? 0)
           then set_action signo {| sa_handler := 0; sa_mask := sa_mask action; sa_flags := sa_flags action |} x else x in
  Done (m, set_blocked (Z.lor (sig_blocked x) (sa_mask action)) x).

(** Once the pending signals are handled without a handler: an interrupted system
    call starts again. *)
Definition restart_frame (x : task) : irq_frame :=
  let f := frame x in
  if prev_syscall x =? 0 then f
  else if (eax f =? u32 (- ERESTARTSYS)) || (eax f =? u32 (- ERESTARTNOINTR)) || (eax f =? u32 (- ERESTARTNOHAND))
  then signal_syscall_restart f (prev_syscall x)
  else f.

(** * Handling signals *)

(** The task goes on, with what is left of what the others do; it has ended; or it
    is stopped. *)
Inductive sig_result : Type :=
| SigReturn (ret : Z) (m : gmap Z Z) (s : sched) (os : env)
| SigExit (s : sched)
| SigStopped (s : sched)
| SigNoFuel.

(** What [signal_default] leads to: the task goes on, or not. *)
Definition signal_default (os : env) (s : sched) (t signo : Z) : outcome (sched * env + sig_result) :=
  x ← task_at s t;
  if pid x =? 1 then Done (inl (s, os))
  else if (signo =? SIGCHLD) || (signo =? SIGCONT) || (signo =? SIGWINCH) then Done (inl (s, os))
  else if is_stop signo then
    s ← task_upd s t (fun x => set_state TASK_STOPPED (set_ret_signal (Z.lor TASK_SIGNAL_STOP signo) x));
    s ← match parent x with Some p => scheduler_task_wake s p | None => Done s end;
    match os with
    | [] => Done (inr (SigStopped s))
    | f :: os' => Done (inl (f s, os'))
    end
  else
    s ← task_upd s t (set_ret_signal signo);
    s ← sys_exit s t 0;
    Done (inr (SigExit s)).

(** A task that ignores SIGCHLD has its children reaped. *)
Fixpoint reap_children (fuel : nat) (m : gmap Z Z) (s : sched) (t : Z) : outcome sched :=
  match fuel with
  | O => Done s
  | S fuel' =>
      r ← sys_waitpid [] m s t (-1) (make_kernel_buffer 0) WNOHANG;
      match r with
      | WaitReturned ret m s => if 0 <? ret then reap_children fuel' m s t else Done s
      | WaitAsleep s => Done s
      end
  end.

Definition child_count (s : sched) (t : Z) : nat := match tasks s !! t with Some x => length (task_children x) | None => 0 end.

Fixpoint signal_handle (fuel : nat) (tramp : list Z) (os : env) (m : gmap Z Z) (s : sched) (t : Z) : outcome sig_result :=
  match fuel with
  | O => Done SigNoFuel
  | S fuel' =>
      x ← task_at s t;
      if has_pending_signal x then
        let signo := bit32_find_first_set (Z.land (sig_pending x) (Z.lnot (sig_blocked x))) + 1 in
        let action := action_of x signo in
        s ← task_upd s t (fun x => set_pending (SIGSET_UNSET (sig_pending x) signo) x);
        if sa_handler action =? SIG_IGN then
          s ← (if signo =? SIGCHLD then reap_children (S (child_count s t)) m s t else Done s);
          signal_handle fuel' tramp os m s t
        else if sa_handler action =? SIG_DFL then
          r ← signal_default os s t signo;
          match r with
          | inl (s, os) => signal_handle fuel' tramp os m s t
          | inr r => Done r
          end
        else
          x ← task_at s t;
          '(m, x) ← signal_jump tramp m x signo;
          s ← task_upd s t (fun _ => x);
          Done (SigReturn 1 m s os)
      else
        s ← task_upd s t (fun x => set_frame (restart_frame x) x);
        Done (SigReturn 0 m s os)
  end.

(** * Waiting for signals *)

Fixpoint sigsuspend_loop (fuel : nat) (tramp : list Z) (os : env) (m : gmap Z Z) (s : sched) (t : Z) : outcome sig_result :=
  match fuel with
  | O => Done SigNoFuel
  | S fuel' =>
      s ← task_upd s t (set_state TASK_INTR_SLEEPING);
      x ← task_at s t;
      if has_pending_signal x then
        r ← signal_handle (33 * S (length os)) tramp os m s t;
        match r with
        | SigReturn 0 m s os => sigsuspend_loop fuel' tramp os m s t
        | SigReturn _ m s os => s ← task_upd s t (set_state TASK_RUNNING); Done (SigReturn 1 m s os)
        | r => Done r
        end
      else
        match os with
        | [] => Done (SigStopped s)
        | f :: os' => sigsuspend_loop fuel' tramp os' m (f s) t
        end
  end.

(** The mask that is in force while the task waits in [sys_sigsuspend]. *)
Definition sigsuspend_enter (mask : Z) (x : task) : task :=
  set_blocked (Z.land mask (Z.lnot SIG_UNBLOCKABLE)) (set_frame (set_eax (u32 (- EINTR)) (frame x)) x).

Definition sys_sigsuspend (fuel : nat) (tramp : list Z) (os : env) (m : gmap Z Z) (s : sched) (t : Z) (umask : user_buffer) : outcome sig_result :=
  let '(ret, mask) := user_copy_to_kernel m umask in
  if negb (ret =? 0) then Done (SigReturn ret m s os)
  else
    x ← task_at s t;
    let tempmask := sig_blocked x in
    s ← task_upd s t (sigsuspend_enter mask);
    r ← sigsuspend_loop fuel tramp os m s t;
    match r with
    | SigReturn _ m s os => s ← task_upd s t (set_blocked tempmask); Done (SigReturn (- EINTR) m s os)
    | r => Done r
    end.

(** [sys_sigwait]: the signal of [check] that is pending first. *)
Fixpoint sigwait_loop (os : env) (s : sched) (t check : Z) : outcome (option Z * sched) :=
  s ← task_upd s t (set_state TASK_INTR_SLEEPING);
  x ← task_at s t;
  let signals := Z.land (sig_pending x) check in
  if signals =? 0 then
    match os with [] => Done (None, s) | f :: os' => sigwait_loop os' (f s) t check end
  else s ← task_upd s t (set_state TASK_RUNNING); Done (Some (bit32_find_first_set signals), s).

(** [None] while the task still waits. *)
Definition sys_sigwait (os : env) (m : gmap Z Z) (s : sched) (t : Z) (set sig : user_buffer) : outcome (option Z * gmap Z Z * sched) :=
  let '(ret, check) := user_copy_to_kernel m set in
  if negb (ret =? 0) then Done (Some ret, m, s)
  else
    '(test, s) ← sigwait_loop os s t check;
    match test with
    | None => Done (None, m, s)
    | Some test =>
        if test =? -1 then Done (Some (- EINVAL), m, s)
        else if (test + 1 =? SIGKILL) || (test + 1 =? SIGSTOP) then Done (Some (- ERESTARTSYS), m, s)
        else
          let '(ret, m) := user_copy_from_kernel m sig (test + 1) in
          if negb (ret =? 0) then Done (Some ret, m, s)
          else s ← task_upd s t (fun x => set_pending (SIGSET_UNSET (sig_pending x) (test + 1)) x); Done (Some 0, m, s)
    end.

(** * SIGKILL and SIGSTOP are never blocked *)

Definition mask_clear (b : Z) : Prop := Z.land b SIG_UNBLOCKABLE = 0.

Record masks_ok (x : task) : Prop := {
  mo_blocked : mask_clear (sig_blocked x);
  mo_actions : Forall (fun a => mask_clear (sa_mask a)) (sig_actions x);
}.

Lemma mask_clear_and_not a : mask_clear (Z.land a (Z.lnot SIG_UNBLOCKABLE)).
Proof. unfold mask_clear. rewrite <- Z.land_assoc, (Z.land_comm (Z.lnot _)), Z.land_lnot_diag. apply Z.land_0_r. Qed.

Lemma mask_clear_lor a b : mask_clear a -> mask_clear b -> mask_clear (Z.lor a b).
Proof. unfold mask_clear. intros Ha Hb. by rewrite Z.land_lor_distr_l, Ha, Hb. Qed.

Lemma mask_clear_land a b : mask_clear a -> mask_clear (Z.land a b).
Proof. unfold mask_clear. intros Ha. by rewrite <- Z.land_assoc, (Z.land_comm b), Z.land_assoc, Ha. Qed.

Create HintDb signal.
#[export] Hint Resolve mask_clear_and_not mask_clear_lor mask_clear_land : signal.

Lemma action_clear x signo : masks_ok x -> mask_clear (sa_mask (action_of x signo)).
Proof.
  intros [_ Ha]. unfold action_of. destruct (sig_actions x !! _) as [a|] eqn:E; [|done]. simpl. rewrite Forall_lookup in Ha. by eapply Ha.
Qed.

Lemma set_action_ok x signo a : masks_ok x -> mask_clear (sa_mask a) -> masks_ok (set_action signo a x).
Proof. intros [Hb Ha] Hc. split; [done|]. simpl. by apply Forall_insert. Qed.

Lemma set_blocked_ok x b : masks_ok x -> mask_clear b -> masks_ok (set_blocked b x).
Proof. intros [_ Ha] Hb. by split. Qed.

Lemma set_frame_ok x f : masks_ok x -> masks_ok (set_frame f x).
Proof. by intros [Hb Ha]. Qed.

#[export] Hint Resolve action_clear set_action_ok set_blocked_ok set_frame_ok mo_blocked : signal.

(** What a task may do to its masks, and others to it; in between, the code of the
    user changes the memory and the registers at will.  [OSuspend] is the start of
    [sys_sigsuspend], which keeps the mask of the caller in its variable [tempmask],
    and [OResume] its end, which puts it back; the signals that come and the handler
    that is called in between are operations of their own. *)
Inductive sig_op : Type :=
| OProcmask (how : Z) (set oldset : user_buffer)
| OAction (signum : Z) (act oldact : user_buffer)
| OSignal (signum handler : Z)
| OTaken (signum : Z)
| OJump (signum : Z)
| OReturn
| OSuspend (umask : user_buffer)
| OResume
| OSent (signal : Z) (force : bool)
| OUser (m : gmap Z Z) (f : irq_frame).

(** The memory, the task, and [tempmask] while it is in [sys_sigsuspend]. *)
Definition sig_state : Type := gmap Z Z * task * option Z.

Definition do_sig_op (tramp : list Z) (mx : sig_state) (op : sig_op) : outcome sig_state :=
  let '(m, x, tempmask) := mx in
  match op with
  | OProcmask how set oldset => let '(_, m, x) := sys_sigprocmask m x how set oldset in Done (m, x, tempmask)
  | OAction signum act oldact => let '(_, m, x) := sys_sigaction m x signum act oldact in Done (m, x, tempmask)
  | OSignal signum handler => Done (m, (sys_signal x signum handler).2, tempmask)
  | OTaken signum => Done (m, set_pending (SIGSET_UNSET (sig_pending x) signum) x, tempmask)
  | OJump signum => '(m, x) ← signal_jump tramp m x signum; Done (m, x, tempmask)
  | OReturn => x ← sys_sigreturn m x; Done (m, x, tempmask)
  | OSuspend umask =>
      let '(ret, mask) := user_copy_to_kernel m umask in
      if negb (ret =? 0) then Done (m, x, tempmask) else Done (m, sigsuspend_enter mask x, Some (sig_blocked x))
  | OResume => match tempmask with Some b => Done (m, set_blocked b x, None) | None => Done (m, x, None) end
  | OSent signal force => Done (m, post_signal signal force x, tempmask)
  | OUser m f => Done (m, set_frame f x, tempmask)
  end.

Fixpoint do_sig_ops (tramp : list Z) (mx : sig_state) (ops : list sig_op) : outcome sig_state :=
  match ops with [] => Done mx | op :: ops' => mx ← do_sig_op tramp mx op; do_sig_ops tramp mx ops' end.

Lemma sigprocmask_ok m x how set oldset : masks_ok x -> masks_ok (sys_sigprocmask m x how set oldset).2.
Proof.
  intros H. unfold sys_sigprocmask. destruct (if ptr oldset =? 0 then _ else _) as [ret m1]. destruct (negb (ret =? 0)); [done|].
  destruct (ptr set =? 0); [done|]. destruct (user_copy_to_kernel m1 set) as [ret' tmp]. destruct (negb (ret' =? 0)); [done|].
  repeat case_match; simpl; auto with signal.
Qed.

Lemma sigaction_ok m x signo act oldact : masks_ok x -> masks_ok (sys_sigaction m x signo act oldact).2.
Proof.
  intros H. unfold sys_sigaction. destruct (_ || _); [done|]. destruct (if ptr oldact =? 0 then _ else _) as [ret m1].
  destruct (negb (ret =? 0)); [done|]. destruct (ptr act =? 0); [done|]. destruct (user_memcpy_to_kernel m1 act 12) as [ret' bs].
  destruct (negb (ret' =? 0)); [done|]. apply set_action_ok; [done|]. apply mask_clear_and_not.
Qed.

Lemma signal_ok x signo handler : masks_ok x -> masks_ok (sys_signal x signo handler).2.
Proof. intros H. unfold sys_signal. destruct (_ || _); [done|]. by apply set_action_ok. Qed.

Lemma signal_jump_ok tramp m x signo m' x' : masks_ok x -> signal_jump tramp m x signo = Done (m', x') -> masks_ok x'.
Proof.
  intros H Hj. unfold signal_jump in Hj. inv_outcome. destruct r as [m1 f]. injection Hj as _ <-. pose proof (action_clear x signo H).
  destruct (negb _); auto 6 with signal.
Qed.

Lemma sigreturn_ok m x x' : masks_ok x -> sys_sigreturn m x = Done x' -> masks_ok x'.
Proof. intros H Hr. unfold sys_sigreturn in Hr. inv_outcome. subst. auto with signal. Qed.

Lemma unset_clear b signo : mask_clear b -> mask_clear (SIGSET_UNSET b signo).
Proof.
  unfold mask_clear. intros H. apply Z.bits_inj'. intros n Hn. rewrite Z.bits_0. apply (f_equal (fun z => Z.testbit z n)) in H.
  rewrite Z.bits_0, Z.land_spec in H. unfold SIGSET_UNSET. rewrite Z.land_spec.
  destruct (Z.testbit SIG_UNBLOCKABLE n); [|apply andb_false_r]. rewrite andb_true_r in *. rewrite Z.clearbit_eqb. by rewrite H.
Qed.

Lemma post_signal_ok signo force x : masks_ok x -> masks_ok (post_signal signo force x).
Proof.
  intros H. pose proof (unset_clear (sig_blocked x) signo (mo_blocked x H)) as Hu. destruct H as [Hb Ha].
  assert (Hmask : sig_blocked (post_signal signo force x) = if force then SIGSET_UNSET (sig_blocked x) signo else sig_blocked x).
  { unfold post_signal, intr_wake. repeat case_match; done. }
  assert (Hact : sig_actions (post_signal signo force x) = sig_actions x) by (unfold post_signal, intr_wake; repeat case_match; done).
  split; rewrite ?Hmask, ?Hact; [by destruct force | done].
Qed.

Definition sig_state_ok (st : sig_state) : Prop := masks_ok st.1.2 /\ match st.2 with Some b => mask_clear b | None => True end.

Lemma do_sig_op_ok tramp st op st' : sig_state_ok st -> do_sig_op tramp st op = Done st' -> sig_state_ok st'.
Proof.
  destruct st as [[m x] tm]. intros [H Htm]. simpl in H, Htm.
  destruct op as [how set oldset|signo act oldact|signo handler|signo|signo| |umask| |signo force|m1 f]; cbn [do_sig_op].
  - pose proof (sigprocmask_ok m x how set oldset H) as Hp. destruct (sys_sigprocmask m x how set oldset) as [[r m1] x1]. by intros [= <-].
  - pose proof (sigaction_ok m x signo act oldact H) as Hp. destruct (sys_sigaction m x signo act oldact) as [[r m1] x1]. by intros [= <-].
  - intros [= <-]. split; [by apply signal_ok | done].
  - intros [= <-]. split; [by destruct H | done].
  - intros ([m1 x1] & Hj & [= <-])%outcome_bind_done. split; [by eapply signal_jump_ok | done].
  - intros (x1 & Hr & [= <-])%outcome_bind_done. split; [by eapply sigreturn_ok | done].
  - destruct (user_copy_to_kernel m umask) as [ret mask]. destruct (negb (ret =? 0)); intros [= <-]; [done|].
    split; [|apply H]. unfold sigsuspend_enter. simpl. auto with signal.
  - destruct tm as [b|]; intros [= <-]; [|done]. split; [simpl; auto with signal | done].
  - intros [= <-]. split; [by apply post_signal_ok | done].
  - intros [= <-]. split; [simpl; auto with signal | done].
Qed.

(** C29: SIGKILL and SIGSTOP cannot be blocked.  A new task blocks neither, and no
    sequence of changing masks and actions, of calls of handlers and returns from
    them with any memory and registers that the user code leaves, of waiting in
    [sys_sigsuspend] with any mask, and of signals sent by others leads to a task that
    does. *)
Theorem unblockable_never_blocked p tramp m ops m' x' tempmask :
  do_sig_ops tramp (m, task_init p, None) ops = Done (m', x', tempmask) ->
  Z.testbit (sig_blocked x') (SIGKILL - 1) = false /\ Z.testbit (sig_blocked x') (SIGSTOP - 1) = false.
Proof.
  intros H. assert (Hx : sig_state_ok (m', x', tempmask)).
  { assert (Hi : sig_state_ok (m, task_init p, None)) by (split; [split; [done | repeat constructor] | done]). revert Hi H. generalize (m, task_init p, @None Z).
    induction ops as [|op ops IH]; intros st Hx Hr; cbn [do_sig_ops] in Hr; [by injection Hr as <-|]. inv_outcome.
    eapply IH; [|exact Hr]. by eapply do_sig_op_ok. }
  destruct Hx as [[Hx _] _]. simpl in Hx. unfold mask_clear in Hx.
  split; [apply (f_equal (fun z => Z.testbit z (SIGKILL - 1))) in Hx | apply (f_equal (fun z => Z.testbit z (SIGSTOP - 1))) in Hx];
    rewrite Z.land_spec, Z.bits_0 in Hx; by rewrite andb_true_r in Hx.
Qed.

(** A task asks for everything to be blocked. *)
Definition full_mask : gmap Z Z := list_to_map (zip (seqZ 4096 12) (replicate 12 255)).

Definition blocking_ops : list sig_op :=
  [OProcmask SIG_SETMASK (make_user_buffer 4096) (make_user_buffer 0); OAction 2 (make_user_buffer 4096) (make_user_buffer 0); OSent 9 false;
   OSuspend (make_user_buffer 4096)].

Definition blocking_task : task := match do_sig_ops [88] (full_mask, task_init 7, None) blocking_ops with Done (_, x, _) => x | _ => task_init 0 end.

Lemma unblockable_never_blocked_witness :
  Z.testbit (sig_blocked blocking_task) (SIGKILL - 1) = false /\ Z.testbit (sig_blocked blocking_task) (SIGSTOP - 1) = false.
Proof.
  eapply (unblockable_never_blocked 7 [88] full_mask blocking_ops _ blocking_task _). unfold blocking_task.
  vm_compute. reflexivity.
Defined.

(** * Handlers return *)

Definition word (w : Z) : Prop := 0 <= w < 2 ^ 32.

Definition frame_ok (f : irq_frame) : Prop := length (regs f) = 16%nat /\ Forall word (regs f) /\ word (eax f) /\ word (eip f) /\ word (esp f).

Lemma frame_words_length f : length (regs f) = 16%nat -> length (frame_words f) = 19%nat.
Proof. intros H. unfold frame_words. rewrite !length_app, !length_take, !length_drop, H. done. Qed.

Lemma words_frame_words f : length (regs f) = 16%nat -> words_frame (frame_words f) = f.
Proof.
  intros H. destruct f as [rs a b c]. simpl in H. do 16 (destruct rs as [|? rs]; [done|]). destruct rs; [done | done].
Qed.

Lemma frame_words_ok f : frame_ok f -> Forall word (frame_words f).
Proof.
  intros (Hl & Hr & Ha & Hi & He). unfold frame_words. rewrite !Forall_app, !Forall_singleton. split_and!; try done;
    repeat first [apply Forall_take | apply Forall_drop]; done.
Qed.

Lemma word_u32 w : word w -> u32 w = w.
Proof. intros H. by apply u32_small. Qed.

Lemma length_words_bytes ws : length (words_bytes ws) = (4 * length ws)%nat.
Proof. induction ws as [|w ws IH]; [done|]. unfold words_bytes in *. cbn [fmap list_fmap concat]. rewrite length_app, length_word_bytes, IH. simpl. lia. Qed.

Lemma words_bytes_cons w ws : words_bytes (w :: ws) = word_bytes w ++ words_bytes ws.
Proof. done. Qed.

Lemma load_words_read m ws : forall addr,
  Forall word ws -> 0 <= addr -> addr + 4 * Z.of_nat (length ws) < 2 ^ 32 ->
  (forall i, (i < 4 * length ws)%nat -> m !! (addr + Z.of_nat i) = words_bytes ws !! i) ->
  load_words m addr (length ws) = Done ws.
Proof.
  induction ws as [|w ws IH]; intros addr Hw H0 H1 Hm; [done|]. apply Forall_cons in Hw as [Hw Hws]. cbn [length] in *.
  rewrite words_bytes_cons in Hm. pose proof (length_word_bytes w) as Hl.
  cbn [load_words]. destruct (movs_in_read m addr (word_bytes w)) as [E _]; [lia | lia | |].
  { intros i Hi. rewrite Hm by lia. by rewrite lookup_app_l. }
  rewrite Hl in E. rewrite E. rewrite u32_small by lia. rewrite IH; [|done|lia|lia|].
  - obind. by rewrite bytes_word_bytes, word_u32.
  - intros i Hi. replace (addr + 4 + Z.of_nat i) with (addr + Z.of_nat (4 + i)) by lia. rewrite Hm by lia. rewrite lookup_app_r by lia. f_equal. lia.
Qed.

(** A store to mapped memory. *)
Lemma store_ok m addr bs :
  0 <= addr -> addr + Z.of_nat (length bs) <= 2 ^ 32 -> mapped m addr (Z.of_nat (length bs)) ->
  exists m', store m addr bs = Done m' /\ written m m' addr bs.
Proof.
  intros H0 H1 Hm. unfold store. pose proof (movs_out_mapped m addr bs H0 H1 Hm) as Hr.
  pose proof (movs_out_write m addr bs H0 H1 Hr) as Hw. pose proof (fun a => movs_out_frame m addr bs a H0 H1) as Hf.
  destruct (movs_out m addr bs) as [r m']. simpl in *. subst r. exists m'. done.
Qed.

Lemma written_mapped m m' addr bs a n : written m m' addr bs -> mapped m a n -> mapped m' a n.
Proof.
  intros [W F] Hm k Hk. destruct (decide (addr <= k < addr + Z.of_nat (length bs))) as [Hin|Hout]; [|rewrite F by done; by apply Hm].
  replace k with (addr + Z.of_nat (Z.to_nat (k - addr))) by lia. rewrite W by lia. apply lookup_lt_is_Some. lia.
Qed.

Lemma align4_bounds v : 0 <= v -> v - 4 < ALIGN_2_DOWN v 4 <= v /\ ALIGN_2_DOWN v 4 mod 4 = 0 /\ 0 <= ALIGN_2_DOWN v 4.
Proof.
  intros Hv. unfold ALIGN_2_DOWN. change (4 - 1) with (Z.ones 2). rewrite <- Z.ldiff_land, Z.ldiff_ones_r by lia.
  rewrite Z.shiftl_mul_pow2, Z.shiftr_div_pow2 by lia. change (2 ^ 2) with 4. pose proof (Z.div_mod v 4 ltac:(lia)).
  pose proof (Z.mod_pos_bound v 4 ltac:(lia)). rewrite Z.mod_mul by lia. lia.
Qed.

(** The stack of a handler. *)
Lemma setup_stack_spec tramp m x action signo f :
  let room := Z.of_nat (length tramp) + 96 in
  frame_ok f -> room <= esp f -> mapped m (esp f - room) room ->
  exists m' f', signal_setup_stack tramp m x action signo f = Done (m', f') /\ eip f' = sa_handler action /\
    0 <= esp f' /\ esp f' + 88 < 2 ^ 32 /\
    (forall i, (i < 84)%nat -> m' !! (esp f' + 4 + Z.of_nat i) =
       words_bytes (context_words {| signum := signo; old_mask := sig_blocked x; sframe := f |}) !! i).
Proof.
  intros room (Hl & Hr & Ha & Hi & He) Hroom Hm. unfold signal_setup_stack. unfold word in He. subst room.
  destruct (align4_bounds (esp f)) as [Hb0 _]; [lia|]. set (s0 := ALIGN_2_DOWN (esp f) 4) in *.
  rewrite !(u32_small (s0 - Z.of_nat (length tramp))) by lia. set (s1 := s0 - Z.of_nat (length tramp)) in *.
  destruct (store_ok m s1 tramp) as (m1 & -> & W1); [lia | lia | intros k Hk; apply Hm; lia|]. obind.
  destruct (align4_bounds s1) as [Hb1 _]; [lia|]. set (s2 := ALIGN_2_DOWN s1 4) in *. rewrite !(u32_small (s2 - 84)) by lia.
  set (ctx := {| signum := signo; old_mask := sig_blocked x; sframe := f |}).
  assert (Hlen : length (words_bytes (context_words ctx)) = 84%nat).
  { rewrite length_words_bytes. unfold context_words. cbn [length]. rewrite frame_words_length by done. done. }
  destruct (store_ok m1 (s2 - 84) (words_bytes (context_words ctx))) as (m2 & -> & W2); [lia | rewrite Hlen; lia | |].
  { rewrite Hlen. eapply written_mapped; [exact W1|]. intros k Hk. apply Hm. lia. }
  obind. rewrite !(u32_small (s2 - 84 - 4)) by lia. pose proof (length_word_bytes s1) as Hlw.
  destruct (store_ok m2 (s2 - 84 - 4) (word_bytes s1)) as (m3 & -> & W3); [lia | rewrite Hlw; lia | |].
  { rewrite Hlw. eapply written_mapped; [exact W2|]. eapply written_mapped; [exact W1|]. intros k Hk. apply Hm. lia. }
  obind. eexists m3, _. split; [done|]. simpl. split; [done|]. split; [lia|]. split; [lia|].
  intros i Hi'. destruct W3 as [_ F3], W2 as [W2 _]. rewrite F3 by (rewrite Hlw; lia). rewrite <- W2 by lia. f_equal. lia.
Qed.

Lemma jump_and_return tramp m x signo :
  let f := jump_frame x (action_of x signo) in
  let room := Z.of_nat (length tramp) + 96 in
  frame_ok f -> word signo -> word (sig_blocked x) -> masks_ok x -> room <= esp f -> mapped m (esp f - room) room ->
  exists m' x', signal_jump tramp m x signo = Done (m', x') /\ eip (frame x') = sa_handler (action_of x signo) /\
    load_words m' (esp (frame x') + 4) 1 = Done [signo] /\
    forall m2 x2, esp (frame x2) = esp (frame x') + 4 -> (forall a, esp (frame x2) <= a < esp (frame x2) + 84 -> m2 !! a = m' !! a) ->
    exists x3, sys_sigreturn m2 x2 = Done x3 /\ frame x3 = f /\ sig_blocked x3 = sig_blocked x.
Proof.
  intros f room Hf Hs Hb Hm Hroom Hmap.
  destruct (setup_stack_spec tramp m x (action_of x signo) signo f Hf Hroom Hmap) as (m' & f' & E & He & H0 & H1 & Hctx).
  unfold signal_jump. fold f. rewrite E. obind.
  set (x1 := if negb _ then _ else _). assert (Hx1 : frame x1 = f') by (subst x1; by destruct (negb _)).
  exists m', (set_blocked (Z.lor (sig_blocked x1) (sa_mask (action_of x signo))) x1). split; [done|].
  cbn [frame set_blocked]. rewrite Hx1. split; [done|].
  set (ctx := {| signum := signo; old_mask := sig_blocked x; sframe := f |}) in *.
  assert (Hlen : length (context_words ctx) = 21%nat) by (unfold context_words; cbn [length]; by rewrite frame_words_length by apply Hf).
  assert (Hwords : Forall word (context_words ctx)) by (apply Forall_cons; split; [done|]; apply Forall_cons; split; [done | by apply frame_words_ok]).
  split.
  - apply (load_words_read m' [signo]); [by constructor | lia | simpl; lia|]. intros i Hi. simpl in Hi. rewrite Hctx by lia.
    unfold context_words, ctx. cbn [signum]. rewrite !words_bytes_cons. by rewrite !lookup_app_l by (rewrite length_word_bytes; lia).
  - intros m2 x2 Hesp Hsame. unfold sys_sigreturn. rewrite Hesp in *. rewrite <- Hlen.
    rewrite (load_words_read m2 (context_words ctx)); [|done|lia|rewrite Hlen; lia|].
    + obind. eexists. split; [done|]. unfold context_words, words_context. simpl. change (drop 0 (frame_words f)) with (frame_words f).
      rewrite words_frame_words by apply Hf. split; [done|]. apply mo_blocked in Hm. unfold mask_clear in Hm.
      rewrite <- Z.ldiff_land. apply Z.bits_inj'. intros n Hn. rewrite Z.ldiff_spec. apply (f_equal (fun z => Z.testbit z n)) in Hm.
      rewrite Z.land_spec, Z.bits_0 in Hm. by destruct (Z.testbit (sig_blocked x) n), (Z.testbit SIG_UNBLOCKABLE n).
    + rewrite Hlen. intros i Hi. rewrite Hsame by lia. by rewrite Hctx.
Qed.

(** C28: the call of a handler and the return from it undo each other.  With room on
    the stack, a handler is called with the signal as its argument; whatever it does
    to the registers and to the memory outside of the context that the kernel put on
    the stack, its return gives the task back the registers and the mask it had,
    the system call it was interrupted in being restarted or failed first. *)
Theorem sigreturn_restores tramp m x signo :
  let f := jump_frame x (action_of x signo) in
  let room := Z.of_nat (length tramp) + 96 in
  frame_ok f -> word signo -> word (sig_blocked x) -> masks_ok x -> room <= esp f -> mapped m (esp f - room) room ->
  exists m' x', signal_jump tramp m x signo = Done (m', x') /\ eip (frame x') = sa_handler (action_of x signo) /\
    load_words m' (esp (frame x') + 4) 1 = Done [signo] /\
    forall m2 x2, esp (frame x2) = esp (frame x') + 4 -> (forall a, esp (frame x2) <= a < esp (frame x2) + 84 -> m2 !! a = m' !! a) ->
    exists x3, sys_sigreturn m2 x2 = Done x3 /\ frame x3 = f /\ sig_blocked x3 = sig_blocked x.
Proof. apply jump_and_return. Qed.

Lemma range_mapped_inv m n : forall addr, 0 <= addr -> addr + Z.of_nat n < 2 ^ 32 -> range_mapped m addr n = true -> mapped m addr (Z.of_nat n).
Proof.
  induction n as [|n IH]; intros addr H0 H1 Hr a Ha; [lia|]. cbn [range_mapped] in Hr. apply andb_true_iff in Hr as [Hx Hr].
  apply bool_decide_eq_true in Hx. rewrite u32_small in Hr by lia. destruct (decide (a = addr)) as [->|]; [done|]. apply (IH (addr + 1)); [lia | lia | done | lia].
Qed.

(** A task with a stack, a handler for signal 2, and a system call that it can
    restart. *)
Definition stack_memory : gmap Z Z := list_to_map (zip (seqZ 4100 120) (replicate 120 0)).

Definition handling_task : task :=
  set_action 2 {| sa_handler := 0x1000; sa_mask := 2; sa_flags := SA_RESTART |}
    (set_frame {| regs := replicate 16 3; eax := u32 (- ERESTARTSYS); eip := 0x2002; esp := 4218 |} (task_init 7)).

Lemma sigreturn_restores_witness :
  exists m' x', signal_jump [88] stack_memory handling_task 2 = Done (m', x') /\ eip (frame x') = 0x1000 /\
    forall m2 x2, esp (frame x2) = esp (frame x') + 4 -> (forall a, esp (frame x2) <= a < esp (frame x2) + 84 -> m2 !! a = m' !! a) ->
    exists x3, sys_sigreturn m2 x2 = Done x3 /\ frame x3 = frame handling_task.
Proof.
  destruct (sigreturn_restores [88] stack_memory handling_task 2) as (m' & x' & E & He & _ & Hret).
  - split; [reflexivity|]. split; [repeat constructor; vm_compute; done|]. split_and!; vm_compute; done.
  - vm_compute. done.
  - vm_compute. done.
  - split; [reflexivity | repeat constructor].
  - vm_compute. discriminate.
  - apply (range_mapped_inv _ 97); [vm_compute; discriminate | vm_compute; reflexivity | vm_compute; reflexivity].
  - exists m', x'. split; [exact E|]. split; [exact He|]. intros m2 x2 H1 H2. destruct (Hret m2 x2 H1 H2) as (x3 & E3 & Hf & _). exists x3.
    split; [exact E3 | exact Hf].
Defined.

(** * Handling *)

Lemma signal_handle_jump fuel tramp os m s t x signo m' x' :
  tasks s !! t = Some x -> has_pending_signal x = true ->
  signo = bit32_find_first_set (Z.land (sig_pending x) (Z.lnot (sig_blocked x))) + 1 ->
  sa_handler (action_of x signo) <> SIG_IGN -> sa_handler (action_of x signo) <> SIG_DFL ->
  signal_jump tramp m (set_pending (SIGSET_UNSET (sig_pending x) signo) x) signo = Done (m', x') ->
  exists s', signal_handle (S fuel) tramp os m s t = Done (SigReturn 1 m' s' os) /\ tasks s' !! t = Some x'.
Proof.
  intros E Hp Hs Hi Hd Hj. cbn [signal_handle]. rewrite (task_at_done _ _ _ E). obind. rewrite Hp, <- Hs.
  rewrite (task_upd_done _ _ _ _ E). obind.
  destruct (Z.eqb_spec (sa_handler (action_of x signo)) SIG_IGN); [done|]. destruct (Z.eqb_spec (sa_handler (action_of x signo)) SIG_DFL); [done|].
  erewrite task_at_done by apply lookup_insert_eq. obind. rewrite Hj. obind. erewrite task_upd_done by apply lookup_insert_eq. obind.
  eexists. split; [done|]. simpl. apply lookup_insert_eq.
Qed.

Lemma masks_ok_upd x y : sig_blocked y = sig_blocked x -> sig_actions y = sig_actions x -> masks_ok x -> masks_ok y.
Proof. intros H1 H2 [Hb Ha]. by split; rewrite ?H1, ?H2. Qed.

(** a defect.  [sys_sigsuspend] puts the mask of the caller back before it
    returns, but the context on the handler's stack was made while the temporary mask
    was in force: when the handler returns, the temporary mask is the mask of the
    task, and the one it had before the call is lost. *)
Theorem sigsuspend_mask_sticks fuel tramp os m s t x umask mask signo :
  let mask' := Z.land mask (Z.lnot SIG_UNBLOCKABLE) in
  let room := Z.of_nat (length tramp) + 96 in
  tasks s !! t = Some x -> user_copy_to_kernel m umask = (0, mask) -> word mask' -> masks_ok x ->
  Z.land (sig_pending x) (Z.lnot mask') <> 0 -> signo = bit32_find_first_set (Z.land (sig_pending x) (Z.lnot mask')) + 1 -> word signo ->
  sa_handler (action_of x signo) <> SIG_IGN -> sa_handler (action_of x signo) <> SIG_DFL ->
  frame_ok (frame x) -> room <= esp (frame x) -> mapped m (esp (frame x) - room) room ->
  exists m' s' x', sys_sigsuspend (S fuel) tramp os m s t umask = Done (SigReturn (- EINTR) m' s' os) /\
    tasks s' !! t = Some x' /\ eip (frame x') = sa_handler (action_of x signo) /\
    forall m2 x2, esp (frame x2) = esp (frame x') + 4 -> (forall a, esp (frame x2) <= a < esp (frame x2) + 84 -> m2 !! a = m' !! a) ->
    exists x3, sys_sigreturn m2 x2 = Done x3 /\ sig_blocked x3 = mask'.
Proof.
  intros mask' room E Hu Hmw Hmo Hpend Hsig Hsw Hi Hd Hf Hroom Hmap.
  set (f1 := set_eax (u32 (- EINTR)) (frame x)).
  set (y := set_state TASK_INTR_SLEEPING (set_blocked mask' (set_frame f1 x))).
  set (y1 := set_pending (SIGSET_UNSET (sig_pending y) signo) y).
  assert (Hjf : jump_frame y1 (action_of y1 signo) = f1) by (unfold jump_frame; simpl; by destruct (prev_syscall x =? 0)).
  assert (Hf1 : frame_ok f1) by (destruct Hf as (? & ? & ? & ? & ?); split_and!; done).
  assert (Hm1 : masks_ok y1).
  { split; [exact (mask_clear_and_not mask)|]. apply (mo_actions x Hmo). }
  destruct (jump_and_return tramp m y1 signo) as (m' & x' & Hj & He & _ & Hret); try (rewrite Hjf; done); [done | done | done|].
  unfold sys_sigsuspend. rewrite Hu. cbn [Z.eqb negb]. rewrite (task_at_done _ _ _ E). obind. rewrite (task_upd_done _ _ _ _ E). obind.
  cbn [sigsuspend_loop]. erewrite (task_upd_done _ t (set_state TASK_INTR_SLEEPING)) by apply lookup_insert_eq. obind.
  set (s1 := set_tasks _ _). assert (E1 : tasks s1 !! t = Some y) by (subst s1; apply lookup_insert_eq). rewrite (task_at_done _ _ _ E1). obind.
  assert (Hp1 : has_pending_signal y = true) by (unfold has_pending_signal; apply negb_true_iff, Z.eqb_neq; exact Hpend).
  rewrite Hp1. assert (Hk : exists k, (33 * S (length os) = S k)%nat) by (exists (32 + 33 * length os)%nat; lia). destruct Hk as [k ->].
  destruct (signal_handle_jump k tramp os m s1 t y signo m' x' E1 Hp1) as (s2 & -> & E2); [exact Hsig | exact Hi | exact Hd | exact Hj|]. obind.
  rewrite (task_upd_done _ _ _ _ E2). obind. erewrite (task_upd_done _ t (set_blocked _)) by apply lookup_insert_eq. obind.
  eexists m', _, _. split; [done|]. split; [simpl; apply lookup_insert_eq|]. split; [exact He|]. intros m2 x2 Hesp Hsame.
  destruct (Hret m2 x2 Hesp Hsame) as (x3 & E3 & _ & Hb3). exists x3. by split.
Qed.

(** The task that suspends itself with an empty mask while it blocks signal 3, with
    signal 2 pending. *)
Definition suspending_task : task := set_pending 2 (set_blocked 4 handling_task).
Definition suspending : sched := set_tasks {[7 := suspending_task]} ktasks.
Definition suspend_memory : gmap Z Z := list_to_map (zip (seqZ 4096 124) (replicate 124 0)).

Lemma sigsuspend_mask_sticks_witness :
  exists m' s' x', sys_sigsuspend 1 [88] [] suspend_memory suspending 7 (make_user_buffer 4096) = Done (SigReturn (- EINTR) m' s' []) /\
    tasks s' !! 7 = Some x' /\
    forall m2 x2, esp (frame x2) = esp (frame x') + 4 -> (forall a, esp (frame x2) <= a < esp (frame x2) + 84 -> m2 !! a = m' !! a) ->
    exists x3, sys_sigreturn m2 x2 = Done x3 /\ sig_blocked x3 = 0.
Proof.
  destruct (sigsuspend_mask_sticks 0 [88] [] suspend_memory suspending 7 suspending_task (make_user_buffer 4096) 0 2)
    as (m' & s' & x' & E & Ex & _ & Hret).
  - vm_compute. reflexivity.
  - vm_compute. reflexivity.
  - vm_compute. done.
  - split; [reflexivity | repeat constructor].
  - vm_compute. discriminate.
  - vm_compute. reflexivity.
  - vm_compute. done.
  - vm_compute. discriminate.
  - vm_compute. discriminate.
  - split; [reflexivity|]. split; [repeat constructor; vm_compute; done|]. split_and!; vm_compute; done.
  - vm_compute. discriminate.
  - apply (range_mapped_inv _ 97); [vm_compute; discriminate | vm_compute; reflexivity | vm_compute; reflexivity].
  - exists m', s', x'. split; [exact E|]. split; [exact Ex|]. intros m2 x2 H1 H2. destruct (Hret m2 x2 H1 H2) as (x3 & E3 & Hb). exists x3.
    split; [exact E3 | exact Hb].
Defined.
