(* ===== verification/SignalKill.v ===== *)
(** SIGKILL from the call of [sys_kill] to the parent that learns of it, and how a task
    escapes it. *)
From stdpp Require Import base numbers list gmap.
From Stdlib Require Import ZArith ZifyBool Lia.
From S2P Require Import Prelude UserMem Users Bits Task TaskTree TaskProps TaskLife Signal.
Open Scope Z_scope.

Definition KILL_BIT : Z := 2 ^ 8.

(** SIGKILL is pending, and no signal with a smaller number that is not blocked: the
    code takes the signals in the order of their numbers. *)
Definition kill_first (x : task) : Prop :=
  Z.testbit (sig_pending x) 8 = true /\ forall n, 0 <= n < 8 -> Z.testbit (sig_pending x) n = true -> Z.testbit (sig_blocked x) n = true.

Lemma kill_bit_first x : sig_pending x = KILL_BIT -> kill_first x.
Proof.
  intros E. split; rewrite E; [done|]. intros n Hn. unfold KILL_BIT. rewrite Z.pow2_bits_eqb by lia. lia.
Qed.

Lemma kill_taken x :
  masks_ok x -> kill_first x -> bit32_find_first_set (Z.land (sig_pending x) (Z.lnot (sig_blocked x))) + 1 = SIGKILL /\ has_pending_signal x = true.
Proof.
  intros [Hm _] [Hp Hlow]. set (d := Z.land (sig_pending x) (Z.lnot (sig_blocked x))).
  assert (Hd : forall n, 0 <= n -> Z.testbit d n = Z.testbit (sig_pending x) n && negb (Z.testbit (sig_blocked x) n)).
  { intros n Hn. unfold d. by rewrite Z.land_spec, Z.lnot_spec. }
  assert (Hb8 : Z.testbit d 8 = true).
  { rewrite Hd, Hp by done. apply (f_equal (fun z => Z.testbit z 8)) in Hm. rewrite Z.land_spec, Z.bits_0 in Hm.
    change (Z.testbit SIG_UNBLOCKABLE 8) with true in Hm. rewrite andb_true_r in Hm. by rewrite Hm. }
  assert (Hb : forall n, 0 <= n < 8 -> Z.testbit d n = false).
  { intros n Hn. rewrite Hd by lia. specialize (Hlow n Hn). destruct (Z.testbit (sig_pending x) n); [|done]. by rewrite Hlow. }
  split.
  - unfold bit32_find_first_set. pose proof (scan_bits_spec true 32 d 0) as Hs. destruct (scan_bits true 32 d 0) as [r|]; [|rewrite Hs in Hb8 by lia; done].
    destruct Hs as (Hr & Hset & Hbelow). rewrite Z.sub_0_r in *. destruct (Z.lt_trichotomy r 8) as [Hlt|[->|Hgt]]; [rewrite Hb in Hset by lia; done | done|].
    rewrite Hbelow in Hb8 by lia. done.
  - unfold has_pending_signal. fold d. apply negb_true_iff, Z.eqb_neq. intros E. rewrite E, Z.bits_0 in Hb8. done.
Qed.

(** The state after the pending SIGKILL is taken off. *)
Lemma handle_kill_start fuel tramp os m s t x :
  tasks s !! t = Some x -> kill_first x -> masks_ok x ->
  exists s1, task_upd s t (fun x => set_pending (SIGSET_UNSET (sig_pending x) SIGKILL) x) = Done s1 /\
    tasks s1 !! t = Some (set_pending (SIGSET_UNSET (sig_pending x) SIGKILL) x) /\ tree_of s1 = tree_of s /\
    signal_handle (S fuel) tramp os m s t =
      (if sa_handler (action_of x SIGKILL) =? SIG_IGN then signal_handle fuel tramp os m s1 t
       else if sa_handler (action_of x SIGKILL) =? SIG_DFL then
         r ← signal_default os s1 t SIGKILL;
         match r with inl (s, os) => signal_handle fuel tramp os m s t | inr r => Done r end
       else
         x ← task_at s1 t;
         '(m, x) ← signal_jump tramp m x SIGKILL;
         s ← task_upd s1 t (fun _ => x);
         Done (SigReturn 1 m s os)).
Proof.
  intros E Hp Hm. destruct (kill_taken x Hm Hp) as [Hsig Hpend].
  destruct (task_upd_same s t (fun x => set_pending (SIGSET_UNSET (sig_pending x) SIGKILL) x) x E) as (s1 & E1 & T1 & M1); [done|].
  exists s1. split; [done|]. split; [by rewrite M1, lookup_insert_eq|]. split; [done|].
  cbn [signal_handle]. rewrite (task_at_done _ _ _ E). obind. rewrite Hpend, Hsig, E1. obind. done.
Qed.

(** C27: a SIGKILL with the default action ends a task that has a parent when it is about
    to return to user code, and the parent, when it waits for it, learns that it was
    ended by signal 9.  The tasks are a tree with distinct pids, and the task does
    not block SIGKILL, as the theorems on both show of every task.  This is for a SIGKILL that is the first of the pending signals that
    are not blocked: [signal_handle] takes them in the order of their numbers, so that
    when one of the signals 1 to 8 is pending too and has a handler, it is that handler
    that runs, and the SIGKILL stays pending until the task next returns to user
    code. *)
Theorem sigkill_ends_task fuel tramp os m s t x p :
  tree_ok (tree_of s) -> tasks s !! t = Some x -> life_of (state x) = Live -> parent x = Some p ->
  kill_first x -> masks_ok x -> sa_handler (action_of x SIGKILL) = SIG_DFL ->
  exists s1, signal_handle (S fuel) tramp os m s t = Done (SigExit s1) /\
    forall os' m1 ws o, writable m1 ws 4 -> ptr ws <> 0 ->
    exists m2 s2 st, sys_waitpid os' m1 s1 p (pid x) ws o = Done (WaitReturned (pid x) m2 s2) /\
      written m1 m2 (ptr ws) (word_bytes st) /\ WIFEXITED st = false /\ WIFSIGNALED st = true /\ WTERMSIG st = SIGKILL.
Proof.
  intros H E Hl Hp Hpe Hm Hd. destruct (handle_kill_start fuel tramp os m s t x E Hpe Hm) as (s1 & _ & E1 & T1 & ->). rewrite Hd. cbn [Z.eqb SIG_IGN SIG_DFL].
  unfold signal_default. rewrite (task_at_done _ _ _ E1). obind. cbn [pid set_pending].
  assert (Hp1 : pid x <> 1).
  { intros Hp1. destruct (ok_init _ H) as (i & Ei & Hi & Hn & _). pose proof (tree_node s t x E) as En.
    assert (t = init (tree_of s)) as -> by (apply (ok_pids _ H I _ _ _ _ En Ei); simpl; congruence). rewrite Ei in En. simplify_eq. simpl in Hn. congruence. }
  destruct (Z.eqb_spec (pid x) 1); [done|]. cbn [Z.eqb SIGKILL SIGCHLD SIGCONT SIGWINCH Pos.eqb orb is_stop SIGSTOP SIGTSTP SIGTTOU SIGTTIN].
  destruct (task_upd_same s1 t (set_ret_signal SIGKILL) _ E1) as (s2 & E2 & T2 & M2); [done|].
  change (is_stop 9) with false. cbv iota. rewrite E2. obind.
  assert (Ex2 : tasks s2 !! t = Some (set_ret_signal SIGKILL (set_pending (SIGSET_UNSET (sig_pending x) SIGKILL) x))) by (by rewrite M2, lookup_insert_eq).
  assert (H2 : tree_ok (tree_of s2)) by (by rewrite T2, T1).
  destruct (exit_wait s2 t _ p 0 ∅ (make_kernel_buffer 0) [] 0 H2 Ex2 Hl Hp) as (s3 & _ & E3 & _). rewrite E3. obind.
  exists s3. split; [done|]. intros os' m1 ws o Hw Hn.
  destruct (exit_wait s2 t _ p 0 m1 ws os' o H2 Ex2 Hl Hp) as (s3' & s4 & E3' & E4 & _). rewrite E3 in E3'. injection E3' as <-.
  destruct (wait_result_written m1 ws (pid x) (WSIGNALED_MAKE 9) Hw Hn) as (m2 & Hres & W).
  change (sys_waitpid os' m1 s3 p (pid x) ws o =
    Done (WaitReturned (wait_result m1 ws (pid x) (WSIGNALED_MAKE 9)).1 (wait_result m1 ws (pid x) (WSIGNALED_MAKE 9)).2 s4)) in E4.
  rewrite Hres in E4.
  exists m2, s4, (WSIGNALED_MAKE 9). split; [exact E4|]. split; [exact W|]. split_and!; reflexivity.
Qed.

(** The child of init after init has sent it a SIGKILL. *)
Definition kill_sent : sched := match sys_kill forked 5 SIGKILL with Done (_, s) => s | _ => forked end.

Lemma kill_sent_ok : tree_ok (tree_of kill_sent).
Proof.
  destruct (do_call_ok ∅ forked (CSignal 5 SIGKILL false) forked_ok) as (m & s & E & H & _); [vm_compute; reflexivity | vm_compute; reflexivity|].
  unfold kill_sent, sys_kill. cbn [do_call] in E.
  destruct (scheduler_task_send_signal forked 5 SIGKILL false) as [[r s1]| |]; simpl in *; try done. by injection E as _ <-.
Qed.

Lemma sigkill_ends_task_witness :
  exists s1 m2 s2 st, signal_handle 1 [88] [] ∅ kill_sent 400 = Done (SigExit s1) /\
    sys_waitpid [] status_memory s1 300 5 (make_user_buffer 4096) 0 = Done (WaitReturned 5 m2 s2) /\ WTERMSIG st = 9.
Proof.
  destruct (sigkill_ends_task 0 [88] [] ∅ kill_sent 400 (child_of kill_sent) 300 kill_sent_ok) as (s1 & E1 & Hw);
    [vm_compute; reflexivity | vm_compute; reflexivity | vm_compute; reflexivity | apply kill_bit_first; vm_compute; reflexivity
    | split; [vm_compute; reflexivity | apply (bool_decide_unpack _); vm_compute; exact I] | vm_compute; reflexivity |].
  destruct (Hw [] status_memory (make_user_buffer 4096) 0 status_writable) as (m2 & s2 & st & E2 & _ & _ & _ & Hst); [discriminate|].
  exists s1, m2, s2, st. split; [exact E1|]. split; [exact E2 | exact Hst].
Defined.

Lemma kill_posts s t x :
  tree_ok (tree_of s) -> tasks s !! t = Some x -> life_of (state x) = Live ->
  exists s', sys_kill s (pid x) SIGKILL = Done (0, s') /\ tree_of s' = tree_of s /\
    tasks s' = <[t := post_signal SIGKILL false x]> (tasks s).
Proof.
  intros H E Hl. pose proof (tree_node s t x E) as En.
  assert (Hlist : t ∈ tlist s) by (apply (ok_listed _ t _ H En); simpl; by rewrite Hl).
  assert (Hpos : 0 < pid x) by (pose proof (ok_fresh _ H I t _ En); simpl in *; lia).
  destruct (task_upd_same s t (post_signal SIGKILL false) x E (post_signal_node _ _ _)) as (s1 & E1 & T1 & M1).
  exists s1. split; [|done]. unfold sys_kill, scheduler_task_send_signal. cbn [Z.ltb Z.eqb orb SIGKILL NSIG Z.compare Pos.compare Pos.compare_cont].
  destruct (Z.ltb_spec 0 (pid x)); [|lia]. cbn [orb].
  rewrite (send_to_pid s t x); [|intros; by apply (has_listed (b := True)) | | done | done | done].
  2: { intros k y _ Ey Hy. apply (ok_pids _ H I k t _ _ (tree_node s k y Ey) En). done. }
  unfold send_sig. rewrite (task_at_done _ _ _ E). obind. rewrite E1. obind. by destruct (parent x).
Qed.

(** a defect.  [sys_signal] (as [sys_sigaction]) takes SIGKILL like any other
    signal: a task that set it to be ignored survives [sys_kill], which reports
    success. *)
Theorem sigkill_ignored fuel tramp os m s t x :
  let x1 := (sys_signal x SIGKILL SIG_IGN).2 in
  tree_ok (tree_of s) -> tasks s !! t = Some x1 -> life_of (state x) = Live ->
  length (sig_actions x) = 32%nat -> sig_pending x = 0 -> masks_ok x ->
  exists s1 s2, sys_kill s (pid x) SIGKILL = Done (0, s1) /\
    signal_handle (S (S fuel)) tramp os m s1 t = Done (SigReturn 0 m s2 os) /\ tree_of s2 = tree_of s.
Proof.
  intros x1 H E Hl Hlen Hp Hm. destruct (kill_posts s t x1 H E Hl) as (s1 & E1 & T1 & M1).
  set (x2 := post_signal SIGKILL false x1) in *.
  assert (Ex2 : tasks s1 !! t = Some x2) by (by rewrite M1, lookup_insert_eq).
  assert (Hf : sig_pending x2 = KILL_BIT /\ sig_blocked x2 = sig_blocked x /\ sig_actions x2 = sig_actions x1).
  { unfold x2, x1. destruct x as [? ? ? st]; destruct st; simpl in *; subst; done. }
  destruct Hf as (Hp2 & Hb2 & Ha2).
  assert (Hm2 : masks_ok x2). { pose proof (signal_ok x SIGKILL SIG_IGN Hm) as [_ Ha]. destruct Hm as [Hb _]. split; [by rewrite Hb2 | by rewrite Ha2]. }
  destruct (handle_kill_start (S fuel) tramp os m s1 t x2 Ex2 (kill_bit_first x2 Hp2) Hm2) as (s2 & _ & Ex3 & T2 & Hh).
  rewrite Hp2 in Ex3. change (SIGSET_UNSET KILL_BIT SIGKILL) with 0 in Ex3.
  assert (Hign : sa_handler (action_of x2 SIGKILL) = SIG_IGN).
  { unfold action_of. rewrite Ha2. unfold x1, sys_signal, set_action. simpl. rewrite list_lookup_insert_eq; [done | rewrite Hlen; vm_compute; lia]. }
  destruct (task_upd_same s2 t (fun x => set_frame (restart_frame x) x) _ Ex3) as (s3 & E3 & T3 & _); [done|].
  exists s1, s3. split; [exact E1|]. split; [|congruence]. rewrite Hh, Hign. cbn [Z.eqb SIG_IGN]. cbn [signal_handle Pos.eqb].
  rewrite (task_at_done _ _ _ Ex3). obind. cbn [has_pending_signal sig_pending set_pending negb Z.land Z.eqb]. rewrite E3. done.
Qed.

(** The child of init after it has set SIGKILL to be ignored. *)
Definition kill_ignored : sched :=
  match task_upd forked 400 (fun x => (sys_signal x SIGKILL SIG_IGN).2) with Done s => s | _ => forked end.

Lemma kill_ignored_ok : tree_ok (tree_of kill_ignored).
Proof.
  destruct (task_upd_same forked 400 (fun x => (sys_signal x SIGKILL SIG_IGN).2) (child_of forked)) as (s & E & T & _); [vm_compute; reflexivity | vm_compute; reflexivity |].
  unfold kill_ignored. rewrite E, T. exact forked_ok.
Qed.

Lemma sigkill_ignored_witness :
  exists s1 s2, sys_kill kill_ignored 5 SIGKILL = Done (0, s1) /\ signal_handle 2 [88] [] ∅ s1 400 = Done (SigReturn 0 ∅ s2 []).
Proof.
  destruct (sigkill_ignored 0 [88] [] ∅ kill_ignored 400 (child_of forked) kill_ignored_ok) as (s1 & s2 & E1 & E2 & _);
    [vm_compute; reflexivity | vm_compute; reflexivity | vm_compute; reflexivity | vm_compute; reflexivity
    | split; [vm_compute; reflexivity | apply (bool_decide_unpack _); vm_compute; exact I] |].
  exists s1, s2. split; [exact E1 | exact E2].
Defined.
