(* ===== verification/PageTable.v ===== *)
(** Page tables of tasks (src/mm/ptable.c, arch/x86/mm/address_space.c,
    arch/x86/include/arch/ptable.h).  Physical memory is a map from page frames to
    their 1024 words; a page directory is named by the frame that holds it. *)
From stdpp Require Import base numbers list gmap.
From Stdlib Require Import ZArith ZifyBool Lia.
From S2P Require Import Prelude UserMem Palloc PageAlloc.
Open Scope Z_scope.

Definition PTE_PRESENT : Z := 0x001.
Definition PTE_WRITABLE : Z := 0x002.
Definition PTE_USER : Z := 0x004.
Definition PAGING_FRAME (entry : Z) : Z := Z.land entry 0xFFFFF000.
Definition PGT_INDEXES : Z := 1024.

Definition pgd_offset (v : Z) : Z := Z.land (Z.shiftr v 22) 0x3FF.
Definition pgt_offset (v : Z) : Z := Z.land (Z.shiftr v 12) 0x3FF.

(** The bit fields of an entry. *)
Definition mk_pte (addr flags : Z) : Z := Z.lor (PAGING_FRAME addr) flags.
Definition pte_exists (e : Z) : bool := Z.testbit e 0.
Definition pte_writable (e : Z) : bool := Z.testbit e 1.
Definition pte_is_user (e : Z) : bool := Z.testbit e 2.
Definition pde_is_huge (e : Z) : bool := Z.testbit e 7.
Definition pte_set_writable (e : Z) : Z := Z.setbit e 1.
Definition pte_unset_writable (e : Z) : Z := Z.clearbit e 1.
Definition pte_set_user (e : Z) : Z := Z.setbit e 2.
Definition pte_set_pa (e pa : Z) : Z := Z.setbit (Z.lor (Z.land e 0xFFF) (PAGING_FRAME pa)) 0.
Definition pte_clear_pa (e : Z) : Z := Z.clearbit (Z.land e 0xFFF) 0.

(** The flags of a page cache mode before the PAT is set up. *)
Definition pcm_to_pte_flags (pcm : Z) : Z := nth (Z.to_nat pcm) [0; 0x010; 0x010; 0x010; 0x008] 0.
Definition pte_set_pcm (e pcm : Z) : Z :=
  Z.lor (Z.clearbit (Z.clearbit (Z.clearbit e 3) 4) 7) (pcm_to_pte_flags pcm).

Definition VM_MAP_READ : Z := 0.
Definition VM_MAP_WRITE : Z := 1.
Definition VM_MAP_NOFORK : Z := 3.
Definition VM_MAP_IGNORE : Z := 4.

(** A page of zeros. *)
Definition zeros : list Z := replicate 1024 0.

Section PageTable.
Context {A : Type} {PA : PageAllocator A}.

Record machine : Type := { phys : gmap Z (list Z); alloc : A }.

Definition word_at (s : machine) (pa i : Z) : outcome Z :=
  match phys s !! pa with Some p => arr_get p i | None => Fault end.

Definition set_word (s : machine) (pa i w : Z) : outcome machine :=
  match phys s !! pa with
  | Some p => p' ← arr_set p i w; Done {| phys := <[pa := p']> (phys s); alloc := alloc s |}
  | None => Fault
  end.

Definition set_page (s : machine) (pa : Z) (p : list Z) : outcome machine :=
  match phys s !! pa with
  | Some _ => Done {| phys := <[pa := p]> (phys s); alloc := alloc s |}
  | None => Fault
  end.

(** [palloc_pa] and [pzalloc_pa] of one page: 0 when there is none. *)
Definition palloc_pa (s : machine) : outcome (Z * machine) :=
  '(va, a) ← palloc_va (alloc s) 0 0;
  Done (if va =? 0 then 0 else V2P va, {| phys := phys s; alloc := a |}).

Definition pzalloc_pa (s : machine) : outcome (Z * machine) :=
  '(pa, s) ← palloc_pa s;
  if pa =? 0 then Done (0, s) else s ← set_page s pa zeros; Done (pa, s).

Definition pfree_pa (s : machine) (pa : Z) : outcome machine :=
  a ← pfree_va (alloc s) (u32 (pa + KMEM_KBASE)) 0;
  Done {| phys := phys s; alloc := a |}.

Definition page_table_map_entry (s : machine) (dir virtual physical vm_flags pcm : Z) : outcome machine :=
  let e := mk_pte physical (Z.lor PTE_PRESENT PTE_USER) in
  let e := if Z.testbit vm_flags VM_MAP_WRITE then pte_set_writable e else e in
  let e := pte_set_pcm e pcm in
  pde ← word_at s dir (pgd_offset virtual);
  '(pde, s) ← (if pte_exists pde then Done (pde, s)
    else
      '(page, s) ← pzalloc_pa s;
      let pde := mk_pte page (Z.lor PTE_PRESENT (Z.lor PTE_WRITABLE PTE_USER)) in
      s ← set_word s dir (pgd_offset virtual) pde;
      Done (pde, s));
  set_word s (PAGING_FRAME pde) (pgt_offset virtual) e.

Fixpoint map_pages (n : nat) (i : Z) (s : machine) (dir virtual physical vm_flags pcm : Z) : outcome machine :=
  match n with
  | O => Done s
  | S n' =>
      s ← page_table_map_entry s dir (u32 (virtual + i * PG_SIZE)) (u32 (physical + i * PG_SIZE)) vm_flags pcm;
      map_pages n' (i + 1) s dir virtual physical vm_flags pcm
  end.

Definition page_table_map_range (s : machine) (dir virtual physical pages vm_flags pcm : Z) : outcome machine :=
  map_pages (Z.to_nat pages) 0 s dir virtual physical vm_flags pcm.

Definition page_table_unmap_entry (s : machine) (dir addr : Z) : outcome machine :=
  pde ← word_at s dir (pgd_offset addr);
  if negb (pte_exists pde) then Done s
  else
    e ← word_at s (PAGING_FRAME pde) (pgt_offset addr);
    set_word s (PAGING_FRAME pde) (pgt_offset addr) (pte_clear_pa e).

(** The entry a pointer to which is returned. *)
Definition page_table_get_entry (s : machine) (dir addr : Z) : outcome (option Z) :=
  pde ← word_at s dir (pgd_offset addr);
  if negb (pte_exists pde) then Done None
  else e ← word_at s (PAGING_FRAME pde) (pgt_offset addr); Done (Some e).

Definition pgd_ptr_is_valid (s : machine) (dir va : Z) : outcome bool :=
  pde ← word_at s dir (pgd_offset va);
  if negb (pte_exists pde) then Done false
  else if pde_is_huge pde then Done true
  else e ← word_at s (PAGING_FRAME pde) (pgt_offset va); Done (pte_exists e).

(** The inner loop of [page_table_clear_range]: [n] entries from [pg]. *)
Fixpoint clear_entries (n : nat) (s : machine) (pgt pg : Z) (should_free : bool) : outcome machine :=
  match n with
  | O => Done s
  | S n' =>
      e ← word_at s pgt pg;
      s ← (if pte_exists e then
             s ← (if should_free then
                    let page := PAGING_FRAME e in
                    if page =? 0 then Done s else pfree_pa s page
                  else Done s);
             set_word s pgt pg (pte_clear_pa e)
           else Done s);
      clear_entries n' s pgt (pg + 1) should_free
  end.

(** The outer loop: [n] directory entries from [dir]. *)
Fixpoint clear_tables (n : nat) (s : machine) (table dir pg dir_end pg_end : Z) (should_free : bool) : outcome machine :=
  match n with
  | O => Done s
  | S n' =>
      pde ← word_at s table dir;
      if negb (pte_exists pde) then clear_tables n' s table (dir + 1) pg dir_end pg_end should_free
      else
        let end_ := if dir =? dir_end then pg_end else PGT_INDEXES in
        s ← clear_entries (Z.to_nat (end_ - pg)) s (PAGING_FRAME pde) pg should_free;
        clear_tables n' s table (dir + 1) (Z.max pg end_) dir_end pg_end should_free
  end.

Definition page_table_clear_range (s : machine) (table virtual pages : Z) (should_free : bool) : outcome machine :=
  let dir := pgd_offset virtual in
  let last := u32 (virtual + pages * PG_SIZE) in
  clear_tables (Z.to_nat (pgd_offset last + 1 - dir)) s table dir (pgt_offset virtual) (pgd_offset last) (pgt_offset last) should_free.

Definition page_table_free_range (s : machine) (table virtual pages : Z) : outcome machine :=
  page_table_clear_range s table virtual pages true.

Definition page_table_zap_range (s : machine) (table virtual pages : Z) : outcome machine :=
  page_table_clear_range s table virtual pages false.

(** The table of the new directory, allocated when it does not exist. *)
Definition new_table (s : machine) (new dir : Z) : outcome (Z * machine) :=
  pde ← word_at s new dir;
  if pte_exists pde then Done (PAGING_FRAME pde, s)
  else
    '(page, s) ← pzalloc_pa s;
    let pde := pte_set_user (pte_set_writable (pte_set_pa pde page)) in
    s ← set_word s new dir pde;
    Done (PAGING_FRAME pde, s).

(** What the inner loop of a copy does for an entry of the old table that exists. *)
Definition copy_entry (s : machine) (pgt_new pg e : Z) : outcome machine :=
  '(page, s) ← palloc_pa s;
  match phys s !! PAGING_FRAME e with
  | None => Fault
  | Some content =>
      if page =? 0 then Fault
      else
        s ← set_page s page content;
        e' ← word_at s pgt_new pg;
        let e' := pte_set_user (pte_set_pa e' page) in
        set_word s pgt_new pg (if pte_writable e then pte_set_writable e' else pte_unset_writable e')
  end.

Definition clone_entry (s : machine) (pgt_new pg e : Z) : outcome machine := set_word s pgt_new pg e.

Section Copy.
Context (each : machine -> Z -> Z -> Z -> outcome machine).

Fixpoint copy_entries (n : nat) (s : machine) (pgt_new pgt_old pg : Z) : outcome machine :=
  match n with
  | O => Done s
  | S n' =>
      e ← word_at s pgt_old pg;
      s ← (if pte_exists e then each s pgt_new pg e else Done s);
      copy_entries n' s pgt_new pgt_old (pg + 1)
  end.

Fixpoint copy_tables (n : nat) (s : machine) (new old dir pg dir_end pg_end : Z) : outcome machine :=
  match n with
  | O => Done s
  | S n' =>
      pde ← word_at s old dir;
      if negb (pte_exists pde) then copy_tables n' s new old (dir + 1) pg dir_end pg_end
      else
        let end_ := if dir =? dir_end then pg_end else PGT_INDEXES in
        '(pgt_new, s) ← new_table s new dir;
        s ← copy_entries (Z.to_nat (end_ - pg)) s pgt_new (PAGING_FRAME pde) pg;
        copy_tables n' s new old (dir + 1) (Z.max pg end_) dir_end pg_end
  end.

Definition copy_range (s : machine) (new old virtual pages : Z) : outcome machine :=
  let dir := pgd_offset virtual in
  let last := u32 (virtual + pages * PG_SIZE) in
  copy_tables (Z.to_nat (pgd_offset last + 1 - dir)) s new old dir (pgt_offset virtual) (pgd_offset last) (pgt_offset last).
End Copy.

Definition page_table_copy_range : machine -> Z -> Z -> Z -> Z -> outcome machine := copy_range copy_entry.
Definition page_table_clone_range : machine -> Z -> Z -> Z -> Z -> outcome machine := copy_range clone_entry.

(** A directory starts as a copy of the kernel's, [kernel_dir]. *)
Definition page_table_new (kernel_dir : list Z) (s : machine) : outcome (Z * machine) :=
  '(pa, s) ← palloc_pa s;
  if pa =? 0 then Fault else s ← set_page s pa kernel_dir; Done (pa, s).

Fixpoint free_tables (s : machine) (pdes : list Z) : outcome machine :=
  match pdes with
  | [] => Done s
  | pde :: pdes' =>
      s ← (if pte_exists pde && pte_is_user pde && negb (PAGING_FRAME pde =? 0) then pfree_pa s (PAGING_FRAME pde) else Done s);
      free_tables s pdes'
  end.

Definition page_table_free (s : machine) (table : Z) : outcome machine :=
  match phys s !! table with
  | Some pdes => s ← free_tables s pdes; pfree_pa s table
  | None => Fault
  end.
End PageTable.
Arguments machine A : clear implicits.

(** * Entries *)

Definition is_frame (pa : Z) : Prop := 0 <= pa < 2 ^ 32 /\ pa mod PG_SIZE = 0.

Lemma frame_bits e n : 0 <= n -> Z.testbit (PAGING_FRAME e) n = Z.testbit e n && (12 <=? n) && (n <? 32).
Proof.
  intros Hn. unfold PAGING_FRAME. change 0xFFFFF000 with (Z.shiftl (Z.ones 20) 12). rewrite Z.land_spec, Z.shiftl_spec by done.
  destruct (Z.leb_spec 12 n); [rewrite Z.testbit_ones_nonneg by lia | rewrite (Z.testbit_neg_r (Z.ones 20)) by lia; by destruct (Z.testbit e n)].
  replace (n - 12 <? 20) with (n <? 32) by lia. by rewrite andb_true_r.
Qed.

Lemma low_bits e n : 0 <= n -> Z.testbit (Z.land e 0xFFF) n = Z.testbit e n && (n <? 12).
Proof. intros Hn. change 0xFFF with (Z.ones 12). rewrite Z.land_spec, Z.testbit_ones_nonneg by lia. done. Qed.

Lemma pcm_bits pcm n : n = 0 \/ n = 1 \/ n = 2 \/ 12 <= n -> Z.testbit (pcm_to_pte_flags pcm) n = false.
Proof.
  assert (Hin : pcm_to_pte_flags pcm ∈ [0; 0x010; 0x008]).
  { unfold pcm_to_pte_flags. destruct (Z.to_nat pcm) as [|[|[|[|[|[|]]]]]]; apply (bool_decide_unpack _); done. }
  intros Hn. rewrite !elem_of_cons, elem_of_nil in Hin. destruct Hin as [->|[->|[->|[]]]]; [apply Z.testbit_0_l | |];
    (destruct Hn as [->|[->|[->|Hn]]]; [done..|]); apply Z.bits_above_log2; simpl; lia.
Qed.

Ltac pte_bits :=
  unfold mk_pte, pte_set_pa, pte_clear_pa, pte_set_pcm, pte_set_user, pte_set_writable, pte_unset_writable, pte_exists, pte_writable, pte_is_user;
  rewrite ?Z.setbit_eqb, ?Z.clearbit_eqb, ?Z.lor_spec, ?Z.setbit_eqb, ?Z.clearbit_eqb, ?Z.lor_spec, ?frame_bits, ?low_bits, ?pcm_bits by lia;
  rewrite ?Z.setbit_eqb, ?Z.clearbit_eqb, ?Z.lor_spec, ?frame_bits, ?low_bits, ?pcm_bits by lia.

Lemma frame_of_frame pa : is_frame pa -> PAGING_FRAME pa = pa.
Proof.
  intros [Hb Hm]. apply Z.bits_inj'. intros n Hn. rewrite frame_bits by done.
  destruct (Z.leb_spec 12 n).
  - destruct (Z.ltb_spec n 32); [by rewrite !andb_true_r|]. rewrite (Z.bits_above_log2 pa n); [done | lia |].
    destruct (Z.eq_dec pa 0) as [->|]; [simpl; lia|]. assert (Z.log2 pa < 32) by (apply Z.log2_lt_pow2; lia). lia.
  - rewrite andb_false_r. simpl. symmetry. change PG_SIZE with (2 ^ 12) in Hm.
    rewrite <- (Z.mod_pow2_bits_low pa 12 n) by lia. rewrite Hm. apply Z.testbit_0_l.
Qed.

Lemma frame_is_frame e : is_frame (PAGING_FRAME e).
Proof.
  unfold PAGING_FRAME. change 0xFFFFF000 with (Z.shiftl (Z.ones 20) 12).
  assert (E : Z.land e (Z.shiftl (Z.ones 20) 12) = Z.shiftl (Z.land (Z.shiftr e 12) (Z.ones 20)) 12).
  { apply Z.bits_inj'. intros n Hn. rewrite Z.land_spec, !Z.shiftl_spec by done. destruct (Z.ltb_spec n 12).
    - rewrite (Z.testbit_neg_r (Z.ones 20)), (Z.testbit_neg_r (Z.land _ _)) by lia. apply andb_false_r.
    - rewrite Z.land_spec, Z.shiftr_spec by lia. by replace (n - 12 + 12) with n by lia. }
  rewrite E, Z.land_ones, Z.shiftl_mul_pow2 by lia. pose proof (Z.mod_pos_bound (Z.shiftr e 12) (2 ^ 20) ltac:(lia)).
  split; [lia|]. by rewrite Z.mod_mul.
Qed.

Lemma pte_clear_absent e : pte_exists (pte_clear_pa e) = false.
Proof. pte_bits. by rewrite andb_false_r. Qed.

Lemma frame_eq a b : (forall n, 12 <= n < 32 -> Z.testbit a n = Z.testbit b n) -> PAGING_FRAME a = PAGING_FRAME b.
Proof.
  intros H. apply Z.bits_inj'. intros n Hn. rewrite !frame_bits by done. destruct (Z.leb_spec 12 n); [|by rewrite !andb_false_r].
  destruct (Z.ltb_spec n 32); [|by rewrite !andb_false_r]. by rewrite H by lia.
Qed.

Lemma frame_set_pa e pa : is_frame pa -> PAGING_FRAME (pte_set_pa e pa) = pa.
Proof.
  intros Hp. transitivity (PAGING_FRAME pa); [|by apply frame_of_frame]. apply frame_eq. intros n Hn. pte_bits.
  replace (0 =? n) with false by lia. replace (n <? 12) with false by lia. replace (12 <=? n) with true by lia.
  replace (n <? 32) with true by lia. by rewrite andb_false_r, !andb_true_r.
Qed.

Lemma frame_mk_pte pa f : is_frame pa -> 0 <= f < 4096 -> PAGING_FRAME (mk_pte pa f) = pa.
Proof.
  intros Hp Hf. transitivity (PAGING_FRAME pa); [|by apply frame_of_frame]. apply frame_eq. intros n Hn. pte_bits.
  assert (Z.testbit f n = false) as ->.
  { destruct (Z.eq_dec f 0) as [->|]; [apply Z.testbit_0_l|]. apply Z.bits_above_log2; [lia|].
    assert (Z.log2 f < 12) by (apply Z.log2_lt_pow2; lia). lia. }
  replace (12 <=? n) with true by lia. replace (n <? 32) with true by lia. by rewrite orb_false_r, !andb_true_r.
Qed.

Lemma frame_set_user e : PAGING_FRAME (pte_set_user e) = PAGING_FRAME e.
Proof. apply frame_eq. intros n Hn. pte_bits. by replace (2 =? n) with false by lia. Qed.

Lemma frame_set_writable e : PAGING_FRAME (pte_set_writable e) = PAGING_FRAME e.
Proof. apply frame_eq. intros n Hn. pte_bits. by replace (1 =? n) with false by lia. Qed.

Lemma frame_unset_writable e : PAGING_FRAME (pte_unset_writable e) = PAGING_FRAME e.
Proof. apply frame_eq. intros n Hn. pte_bits. replace (1 =? n) with false by lia. apply andb_true_r. Qed.

Lemma frame_set_pcm e pcm : PAGING_FRAME (pte_set_pcm e pcm) = PAGING_FRAME e.
Proof.
  apply frame_eq. intros n Hn. pte_bits. replace (3 =? n) with false by lia. replace (4 =? n) with false by lia.
  replace (7 =? n) with false by lia. by rewrite orb_false_r, !andb_true_r.
Qed.

(** Splits on every decision of the goal. *)
Ltac decides := repeat match goal with |- context [decide ?P] => destruct (decide P) end.

(** * Memory as words *)

Lemma nth_zeros n k : nth k (replicate n 0) 0 = 0.
Proof. revert k. induction n as [|n IH]; intros [|k]; simpl; auto. Qed.

Section Tables.
Context {A : Type} {PA : PageAllocator A}.
Implicit Types s : machine A.

Definition page_ok (m : gmap Z (list Z)) (pa : Z) : Prop := exists p, m !! pa = Some p /\ length p = 1024%nat.
Definition wd (m : gmap Z (list Z)) (pa i : Z) : Z := match m !! pa with Some p => nth (Z.to_nat i) p 0 | None => 0 end.

Lemma word_at_done s pa i : page_ok (phys s) pa -> 0 <= i < 1024 -> word_at s pa i = Done (wd (phys s) pa i).
Proof.
  intros (p & E & Hl) Hi. unfold word_at, wd. rewrite E. apply arr_get_done. split; [lia|]. rewrite nth_lookup.
  destruct (p !! Z.to_nat i) eqn:E1; [done|]. apply lookup_ge_None in E1. lia.
Qed.

Lemma set_word_done s pa i w :
  page_ok (phys s) pa -> 0 <= i < 1024 ->
  exists m', set_word s pa i w = Done {| phys := m'; alloc := alloc s |} /\ (forall q, page_ok (phys s) q -> page_ok m' q) /\
    (forall q j, 0 <= j -> wd m' q j = if (q =? pa) && (j =? i) then w else wd (phys s) q j) /\
    (forall q, q <> pa -> m' !! q = phys s !! q).
Proof.
  intros (p & E & Hl) Hi. unfold set_word. rewrite E. unfold arr_set. rewrite bool_decide_true by lia. obind.
  eexists. split; [reflexivity|]. split_and!.
  - intros q (p' & Eq & Hl'). destruct (decide (q = pa)) as [->|].
    + eexists. rewrite lookup_insert_eq. split; [done|]. by rewrite length_insert.
    + exists p'. by rewrite lookup_insert_ne.
  - intros q j Hj. unfold wd. destruct (Z.eqb_spec q pa) as [->|]; [|by rewrite lookup_insert_ne]. rewrite lookup_insert_eq, E, !nth_lookup. simpl.
    destruct (Z.eqb_spec j i) as [->|]; [by rewrite list_lookup_insert_eq by lia | by rewrite list_lookup_insert_ne by lia].
  - intros q Hq. by rewrite lookup_insert_ne.
Qed.

(** * Allocation of frames *)

Definition allocated (a : A) (f : Z) : Prop := block_valid a (f + KMEM_KBASE) 0 /\ ~ page_free a ((f + KMEM_KBASE) / PG_SIZE).

Definition ram_ok s : Prop := pages_ok (alloc s) /\ forall va, block_valid (alloc s) va 0 -> page_ok (phys s) (V2P va).

(** The allocator can hand out [n] single pages, none of which is the first of the memory. *)
Fixpoint supply (n : nat) (a : A) : Prop :=
  match n with
  | O => True
  | S n' => exists va a', palloc_va a 0 0 = Done (va, a') /\ va <> 0 /\ va <> KMEM_KBASE /\ supply n' a'
  end.

Fixpoint supplies (n : nat) (a : A) : bool :=
  match n with
  | O => true
  | S n' => match palloc_va a 0 0 with Done (va, a') => negb (va =? 0) && negb (va =? KMEM_KBASE) && supplies n' a' | _ => false end
  end.

Lemma supplies_supply n a : supplies n a = true -> supply n a.
Proof.
  revert a. induction n as [|n IH]; intros a H; [done|]. cbn [supplies] in H. destruct (palloc_va a 0 0) as [[va a']| |] eqn:E; try done.
  exists va, a'. apply andb_true_iff in H as [H1 H2]. split_and!; [done | lia | lia | auto].
Qed.

Lemma supply_le n m a : (n <= m)%nat -> supply m a -> supply n a.
Proof.
  revert n a. induction m as [|m IH]; intros [|n] a Hn H; try done; [lia|].
  destruct H as (va & a' & E & H0 & H1 & H). exists va, a'. split_and!; auto. apply IH; [lia | done].
Qed.

Lemma block_frame a va : block_valid a va 0 -> V2P va = va - KMEM_KBASE /\ is_frame (V2P va) /\ V2P va + KMEM_KBASE = va.
Proof.
  intros H. apply block_valid_range in H as (H0 & Hm & _ & H1). unfold V2P, is_frame. change (2 ^ 0) with 1 in H1.
  rewrite u32_small by (unfold PG_SIZE, KMEM_KBASE in *; lia). split; [done|]. split; [|lia]. split; [unfold PG_SIZE, KMEM_KBASE in *; lia|].
  change KMEM_KBASE with (786432 * PG_SIZE). unfold PG_SIZE in *. Z.div_mod_to_equations. lia.
Qed.

Lemma allocated_page s f : ram_ok s -> allocated (alloc s) f -> page_ok (phys s) f /\ is_frame f.
Proof.
  intros [_ Hr] [Hb _]. destruct (block_frame _ _ Hb) as (E & Hf & _). replace f with (V2P (f + KMEM_KBASE)) by lia.
  split; [by apply Hr | done].
Qed.

(** What a successful allocation of a frame gives. *)
Record fresh_frame (a a' : A) (f : Z) : Prop := {
  ff_ok : pages_ok a';
  ff_frame : is_frame f;
  ff_nz : f <> 0;
  ff_alloc : allocated a' f;
  ff_free : ~ allocated a f;
  ff_mono : forall g, allocated a g -> allocated a' g;
  ff_back : forall g, allocated a' g -> allocated a g \/ g = f;
  ff_valid : forall v o, block_valid a' v o <-> block_valid a v o;
}.

Lemma in_block_frame f g : is_frame f -> is_frame g -> in_block (f + KMEM_KBASE) 0 ((g + KMEM_KBASE) / PG_SIZE) -> g = f.
Proof.
  unfold is_frame, in_block. change (2 ^ 0) with 1. change KMEM_KBASE with (786432 * PG_SIZE). unfold PG_SIZE.
  rewrite !Z.div_add by lia. intros [_ Hf] [_ Hg] H. Z.div_mod_to_equations. lia.
Qed.

Lemma palloc_pa_spec n s :
  pages_ok (alloc s) -> supply (S n) (alloc s) ->
  exists f a', palloc_pa s = Done (f, {| phys := phys s; alloc := a' |}) /\ supply n a' /\ fresh_frame (alloc s) a' f.
Proof.
  intros Hok (va & a' & E & H0 & H1 & Hs). destruct (palloc_va_spec (alloc s) 0 0 va a' Hok ltac:(lia) E) as (Hok' & Hv & _ & Hd).
  destruct (Hd H0) as (Hb & Hfree & Hnot). destruct (block_frame _ _ Hb) as (E1 & Hf & E2).
  exists (V2P va), a'. unfold palloc_pa. rewrite E. obind. destruct (Z.eqb_spec va 0); [done|]. split; [done|]. split; [done|].
  assert (Hin : in_block va 0 (va / PG_SIZE)) by (unfold in_block; change (2 ^ 0) with 1; lia).
  split; auto.
  - lia.
  - split; rewrite E2; [by apply Hv | by apply Hnot].
  - intros [_ Hn]. rewrite E2 in Hn. apply Hn, Hfree. by right.
  - intros g [Hg Hn]. split; [by apply Hv|]. intros H. apply Hn, Hfree. by left.
  - intros g [Hg Hn]. destruct (decide (g = V2P va)) as [|Hne]; [by right|]. left. split; [by apply Hv|].
    intros H. apply Hfree in H as [|H]; [done|]. apply Hne. apply Hv in Hg. destruct (block_frame _ _ Hg) as (E3 & Hfg & _).
    replace (V2P (g + KMEM_KBASE)) with g in Hfg by lia. apply in_block_frame; [done | done | by rewrite E2].
Qed.

Lemma pfree_pa_spec s f :
  pages_ok (alloc s) -> allocated (alloc s) f ->
  exists a', pfree_pa s f = Done {| phys := phys s; alloc := a' |} /\ pages_ok a' /\
    (forall v o, block_valid a' v o <-> block_valid (alloc s) v o) /\
    (forall g, allocated (alloc s) g -> g <> f -> allocated a' g).
Proof.
  intros Hok [Hb Hn]. destruct (block_frame _ _ Hb) as (E & Hf & _). replace (V2P (f + KMEM_KBASE)) with f in Hf by lia.
  destruct (pfree_va_spec _ _ _ Hok Hb) as (a' & E' & Hok' & Hv & _ & Hup).
  { unfold in_block. change (2 ^ 0) with 1. intros x Hx. by replace x with ((f + KMEM_KBASE) / PG_SIZE) by lia. }
  exists a'. unfold pfree_pa. rewrite u32_small, E'.
  - split; [done|]. split; [done|]. split; [done|]. intros g [Hg Hgn] Hne. split; [by apply Hv|].
    intros H. apply Hup in H as [|H]; [done|]. apply Hne. destruct (block_frame _ _ Hg) as (E3 & Hfg & _).
    replace (V2P (g + KMEM_KBASE)) with g in Hfg by lia. by apply in_block_frame.
  - apply block_valid_range in Hb. change (2 ^ 0) with 1 in Hb. unfold KMEM_KBASE, PG_SIZE in *. lia.
Qed.

(** * Address spaces *)

(** The entry that maps [v], as the processor finds it. *)
Definition entry (m : gmap Z (list Z)) (d v : Z) : option Z :=
  let pde := wd m d (pgd_offset v) in
  if pte_exists pde then
    let e := wd m (PAGING_FRAME pde) (pgt_offset v) in if pte_exists e then Some e else None
  else None.

Definition user_addr (v : Z) : Prop := 0 <= v < KMEM_KBASE.

(** Frame [f] holds one of the directories or one of their tables for user addresses. *)
Definition is_table (m : gmap Z (list Z)) (ds : list Z) (f : Z) : Prop :=
  f ∈ ds \/ exists d i, d ∈ ds /\ 0 <= i < 768 /\ pte_exists (wd m d i) = true /\ PAGING_FRAME (wd m d i) = f.

(** The directories [ds] and their tables are pages of their own. *)
Record spaces_ok s (ds : list Z) : Prop := {
  so_ram : ram_ok s;
  so_alloc : forall f, is_table (phys s) ds f -> allocated (alloc s) f;
  so_dir : forall d i, d ∈ ds -> 0 <= i < 768 -> pte_exists (wd (phys s) d i) = true -> PAGING_FRAME (wd (phys s) d i) ∉ ds;
  so_inj : forall d i d' i', d ∈ ds -> 0 <= i < 768 -> pte_exists (wd (phys s) d i) = true ->
    d' ∈ ds -> 0 <= i' < 768 -> pte_exists (wd (phys s) d' i') = true ->
    PAGING_FRAME (wd (phys s) d i) = PAGING_FRAME (wd (phys s) d' i') -> d = d' /\ i = i';
  (** the kernel is mapped *)
  so_kernel : forall d, d ∈ ds -> pte_exists (wd (phys s) d 768) = true;
}.

Lemma offset_div v n : 0 <= n -> Z.land (Z.shiftr v n) 0x3FF = (v / 2 ^ n) mod 1024.
Proof. intros. change 0x3FF with (Z.ones 10). by rewrite Z.land_ones, Z.shiftr_div_pow2 by lia. Qed.

Lemma pgd_offset_user v : user_addr v -> pgd_offset v = v / 2 ^ 22 /\ 0 <= pgd_offset v < 768.
Proof.
  intros H. unfold pgd_offset. rewrite offset_div by done. unfold user_addr, KMEM_KBASE in H.
  assert (0 <= v / 2 ^ 22 < 768) by (Z.div_mod_to_equations; lia). rewrite Z.mod_small by lia. lia.
Qed.

Lemma pgt_offset_range v : pgt_offset v = v / PG_SIZE mod 1024 /\ 0 <= pgt_offset v < 1024.
Proof. unfold pgt_offset. rewrite offset_div by done. split; [done|]. by apply Z.mod_pos_bound. Qed.

(** The two offsets name the page. *)
Lemma offsets_page v v' : user_addr v -> user_addr v' ->
  pgd_offset v' = pgd_offset v /\ pgt_offset v' = pgt_offset v <-> v' / PG_SIZE = v / PG_SIZE.
Proof.
  intros H H'. destruct (pgd_offset_user v H) as [-> _]. destruct (pgd_offset_user v' H') as [-> _].
  destruct (pgt_offset_range v) as [-> _]. destruct (pgt_offset_range v') as [-> _].
  change (2 ^ 22) with (PG_SIZE * 1024). rewrite <- !Z.div_div by (unfold PG_SIZE; lia).
  split; [|by intros ->]. intros [Hd Hm]. rewrite (Z.div_mod (v' / PG_SIZE) 1024), (Z.div_mod (v / PG_SIZE) 1024) by lia. lia.
Qed.

Lemma is_table_same m m' ds f :
  (forall d i, d ∈ ds -> 0 <= i -> wd m' d i = wd m d i) -> is_table m' ds f <-> is_table m ds f.
Proof.
  intros H. unfold is_table. split; (intros [|(d & i & Hd & Hi & He & Hf)]; [by left|right; exists d, i]).
  - by rewrite <- H by (done || lia).
  - by rewrite H by (done || lia).
Qed.

(** Changes that leave the directories alone. *)
Lemma spaces_ok_same s ds m' a' :
  spaces_ok s ds -> (forall d i, d ∈ ds -> 0 <= i -> wd m' d i = wd (phys s) d i) ->
  (forall q, page_ok (phys s) q -> page_ok m' q) -> pages_ok a' -> (forall v o, block_valid a' v o <-> block_valid (alloc s) v o) ->
  (forall f, is_table (phys s) ds f -> allocated a' f) ->
  spaces_ok {| phys := m'; alloc := a' |} ds.
Proof.
  intros [Hr Ha Hd Hi Hk] Hw Hp Hok Hv Hal. split; simpl.
  - split; [done|]. simpl. intros va Hb. apply Hp, Hr, Hv, Hb.
  - intros f Hf. apply Hal. by apply (is_table_same _ m').
  - intros d i Hin Hb He. rewrite Hw in He |- * by (done || lia). auto.
  - intros d i d' i' H1 H2 H3 H4 H5 H6 H7. rewrite Hw in H3, H7 by (done || lia). rewrite (Hw d') in H6, H7 by (done || lia). eauto.
  - intros d Hin. rewrite Hw by done. auto.
Qed.

Lemma table_page s ds d i :
  spaces_ok s ds -> d ∈ ds -> 0 <= i < 768 -> pte_exists (wd (phys s) d i) = true -> page_ok (phys s) (PAGING_FRAME (wd (phys s) d i)).
Proof. intros H Hd Hi He. apply (allocated_page s); [apply H|]. apply (so_alloc _ _ H). right. by exists d, i. Qed.

Lemma dir_page s ds d : spaces_ok s ds -> d ∈ ds -> page_ok (phys s) d.
Proof. intros H Hd. apply (allocated_page s); [apply H|]. apply (so_alloc _ _ H). by left. Qed.

(** Writing an entry of a table. *)
Lemma set_entry_spec s ds d i j w :
  spaces_ok s ds -> d ∈ ds -> 0 <= i < 768 -> pte_exists (wd (phys s) d i) = true -> 0 <= j < 1024 ->
  exists m', set_word s (PAGING_FRAME (wd (phys s) d i)) j w = Done {| phys := m'; alloc := alloc s |} /\
    spaces_ok {| phys := m'; alloc := alloc s |} ds /\
    (forall q k, 0 <= k -> wd m' q k = if (q =? PAGING_FRAME (wd (phys s) d i)) && (k =? j) then w else wd (phys s) q k) /\
    (forall d' k, d' ∈ ds -> 0 <= k -> wd m' d' k = wd (phys s) d' k) /\
    (forall q, q <> PAGING_FRAME (wd (phys s) d i) -> m' !! q = phys s !! q).
Proof.
  intros H Hd Hi He Hj. destruct (set_word_done s _ j w (table_page _ _ _ _ H Hd Hi He) Hj) as (m' & E & Hp & Hw & Hl).
  assert (Hdirs : forall d' k, d' ∈ ds -> 0 <= k -> wd m' d' k = wd (phys s) d' k).
  { intros d' k Hd' Hk. rewrite Hw by lia. destruct (Z.eqb_spec d' (PAGING_FRAME (wd (phys s) d i))) as [Eq|]; [|done].
    destruct (so_dir _ _ H _ _ Hd Hi He). by rewrite <- Eq. }
  exists m'. split; [done|]. split; [|done]. apply (spaces_ok_same s); [done | done | done | apply (so_ram _ _ H) | done | apply (so_alloc _ _ H)].
Qed.

Lemma entry_set s ds d i j w m' :
  spaces_ok s ds -> d ∈ ds -> 0 <= i < 768 -> pte_exists (wd (phys s) d i) = true ->
  (forall q k, 0 <= k -> wd m' q k = if (q =? PAGING_FRAME (wd (phys s) d i)) && (k =? j) then w else wd (phys s) q k) ->
  (forall d' k, d' ∈ ds -> 0 <= k -> wd m' d' k = wd (phys s) d' k) ->
  forall d' v, d' ∈ ds -> user_addr v ->
  entry m' d' v = if decide (d' = d /\ pgd_offset v = i /\ pgt_offset v = j) then if pte_exists w then Some w else None
    else entry (phys s) d' v.
Proof.
  intros H Hd Hi He Hw Hdirs d' v Hd' Hv. unfold entry. destruct (pgd_offset_user v Hv) as [_ Hb]. pose proof (proj2 (pgt_offset_range v)).
  rewrite Hdirs by (done || lia). destruct (pte_exists (wd (phys s) d' (pgd_offset v))) eqn:He'.
  - rewrite Hw by lia. destruct (decide (d' = d /\ pgd_offset v = i /\ pgt_offset v = j)) as [(-> & -> & ->)|Hn].
    + by rewrite !Z.eqb_refl.
    + destruct (Z.eqb_spec (PAGING_FRAME (wd (phys s) d' (pgd_offset v))) (PAGING_FRAME (wd (phys s) d i))) as [Eq|]; [|done].
      destruct (so_inj _ _ H _ _ _ _ Hd' Hb He' Hd Hi He Eq) as [-> Ei]. destruct (Z.eqb_spec (pgt_offset v) j); [|done]. destruct Hn; auto.
  - destruct (decide _) as [(-> & Ei & _)|]; [rewrite Ei in He'; congruence | done].
Qed.

(** From [s] to [s2] directory [d] has got a table at index [i], if it had none. *)
Record table_ready s s2 (ds : list Z) (d i : Z) (n : nat) : Prop := {
  tr_ok : spaces_ok s2 ds;
  tr_exists : pte_exists (wd (phys s2) d i) = true;
  tr_entry : forall d' v, d' ∈ ds -> user_addr v -> entry (phys s2) d' v = entry (phys s) d' v;
  tr_supply : supply n (alloc s2);
  tr_mono : forall q, allocated (alloc s) q -> allocated (alloc s2) q;
  tr_back : forall q, allocated (alloc s2) q -> allocated (alloc s) q \/ is_table (phys s2) ds q;
  tr_phys : forall q, allocated (alloc s) q -> q <> d -> phys s2 !! q = phys s !! q;
  tr_dir : forall d' k, d' ∈ ds -> 0 <= k -> ~ (d' = d /\ k = i) -> wd (phys s2) d' k = wd (phys s) d' k;
  tr_table : forall q, is_table (phys s2) ds q -> is_table (phys s) ds q \/ ~ allocated (alloc s) q;
}.

Lemma table_ready_refl s ds d i n :
  spaces_ok s ds -> pte_exists (wd (phys s) d i) = true -> supply n (alloc s) -> table_ready s s ds d i n.
Proof. intros H He Hn. split; auto. Qed.

Lemma pzalloc_pa_spec n s :
  ram_ok s -> supply (S n) (alloc s) ->
  exists f m' a', pzalloc_pa s = Done (f, {| phys := m'; alloc := a' |}) /\ supply n a' /\ fresh_frame (alloc s) a' f /\
    m' = <[f := zeros]> (phys s) /\ page_ok (phys s) f.
Proof.
  intros [Hok Hr] Hs. destruct (palloc_pa_spec n s Hok Hs) as (f & a' & E & Hs' & Hf). exists f, (<[f := zeros]> (phys s)), a'.
  unfold pzalloc_pa. rewrite E. obind. destruct (Z.eqb_spec f 0); [by destruct (ff_nz _ _ _ Hf)|].
  assert (Hp : page_ok (phys s) f).
  { destruct (ff_alloc _ _ _ Hf) as [Hb _]. destruct (block_frame _ _ Hb) as (E1 & _ & _). replace f with (V2P (f + KMEM_KBASE)) by lia.
    apply Hr. by apply (ff_valid _ _ _ Hf). }
  unfold set_page. destruct Hp as (p & Ep & Hl). simpl. rewrite Ep. obind. split_and!; try done. by exists p.
Qed.

Lemma install_ok s ds d i f m2 a' p :
  spaces_ok s ds -> d ∈ ds -> 0 <= i < 768 -> pte_exists (wd (phys s) d i) = false -> fresh_frame (alloc s) a' f ->
  PAGING_FRAME p = f -> wd m2 d i = p -> (forall q, page_ok (phys s) q -> page_ok m2 q) ->
  (forall d' k, d' ∈ ds -> 0 <= k -> ~ (d' = d /\ k = i) -> wd m2 d' k = wd (phys s) d' k) ->
  (forall q, is_table m2 ds q <-> is_table (phys s) ds q \/ q = f) ->
  spaces_ok {| phys := m2; alloc := a' |} ds.
Proof.
  intros H Hd Hi He Hf Hp Hdi Hpg Hsame Htab.
  assert (Hnf : forall q, is_table (phys s) ds q -> q <> f) by (intros q Hq ->; by destruct (ff_free _ _ _ Hf); apply (so_alloc _ _ H)).
  assert (Hframe : forall d' k, d' ∈ ds -> 0 <= k < 768 -> pte_exists (wd m2 d' k) = true ->
    d' = d /\ k = i /\ PAGING_FRAME (wd m2 d' k) = f \/
    wd m2 d' k = wd (phys s) d' k /\ pte_exists (wd (phys s) d' k) = true /\ PAGING_FRAME (wd (phys s) d' k) <> f).
  { intros d' k Hd' Hk Hek. destruct (decide (d' = d /\ k = i)) as [[-> ->]|Hn]; [left; by rewrite Hdi|]. right.
    rewrite Hsame in Hek |- * by (done || lia). split_and!; [done | done |]. apply Hnf. right. by exists d', k. }
  destruct H as [[Hok Hr] Ha Hdir Hinj Hker]. split; simpl.
  - split; [apply Hf|]. simpl. intros va Hb. apply Hpg, Hr. by apply (ff_valid _ _ _ Hf).
  - intros q Hq. apply Htab in Hq as [Hq| ->]; [by apply (ff_mono _ _ _ Hf), Ha | apply Hf].
  - intros d' k Hd' Hk Hek. destruct (Hframe d' k Hd' Hk Hek) as [(-> & -> & ->)|(-> & Hek' & _)]; [|by apply Hdir].
    intros Hin. apply (Hnf f); [by left | done].
  - intros d1 i1 d2 i2 H1 H2 H3 H4 H5 H6. destruct (Hframe d1 i1 H1 H2 H3) as [(-> & -> & ->)|(-> & E1 & N1)];
      (destruct (Hframe d2 i2 H4 H5 H6) as [(-> & -> & ->)|(-> & E2 & N2)]); [done | congruence | congruence | by apply Hinj].
  - intros d' Hd'. rewrite Hsame by (done || lia). auto.
Qed.

Lemma install_spec n s ds d i (mk : Z -> Z) :
  spaces_ok s ds -> d ∈ ds -> 0 <= i < 768 -> pte_exists (wd (phys s) d i) = false -> supply (S n) (alloc s) ->
  (forall f, is_frame f -> pte_exists (mk f) = true /\ PAGING_FRAME (mk f) = f) ->
  exists f s1 s2, pzalloc_pa s = Done (f, s1) /\ set_word s1 d i (mk f) = Done s2 /\ wd (phys s2) d i = mk f /\
    table_ready s s2 ds d i n.
Proof.
  intros H Hd Hi He Hs Hmk. destruct (pzalloc_pa_spec n s (so_ram _ _ H) Hs) as (f & m' & a' & E & Hs' & Hf & -> & Hpf).
  destruct (Hmk f (ff_frame _ _ _ Hf)) as [Hmke Hmkf].
  assert (Hnew : forall q, allocated (alloc s) q -> q <> f) by (intros q Hq ->; by destruct (ff_free _ _ _ Hf)).
  assert (Hdf : d <> f) by (apply Hnew, (so_alloc _ _ H); by left).
  set (s1 := {| phys := <[f := zeros]> (phys s); alloc := a' |}) in *.
  assert (Hp1 : forall q, page_ok (phys s) q -> page_ok (phys s1) q).
  { intros q (p & Ep & Hl). destruct (decide (q = f)) as [->|]; [exists zeros; simpl; by rewrite lookup_insert_eq|].
    exists p. simpl. by rewrite lookup_insert_ne. }
  destruct (set_word_done s1 d i (mk f)) as (m2 & E2 & Hp2 & Hw2 & Hl2); [by apply Hp1, (dir_page s ds) | lia|].
  assert (Hzero : forall j, 0 <= j -> wd m2 f j = 0).
  { intros j Hj. rewrite Hw2 by done. destruct (Z.eqb_spec f d); [done|]. unfold wd. simpl. rewrite lookup_insert_eq. apply nth_zeros. }
  assert (Hother : forall q k, q <> f -> 0 <= k -> ~ (q = d /\ k = i) -> wd m2 q k = wd (phys s) q k).
  { intros q k Hq Hk Hn. rewrite Hw2 by done. destruct (Z.eqb_spec q d), (Z.eqb_spec k i); try (by destruct Hn); unfold wd; simpl; by rewrite lookup_insert_ne. }
  assert (Hdi : wd m2 d i = mk f) by (rewrite Hw2, !Z.eqb_refl by lia; done).
  assert (Hdirf : forall d', d' ∈ ds -> d' <> f) by (intros; apply Hnew, (so_alloc _ _ H); by left).
  assert (Hsame : forall d' k, d' ∈ ds -> 0 <= k -> ~ (d' = d /\ k = i) -> wd m2 d' k = wd (phys s) d' k) by eauto.
  assert (Htab : forall q, is_table m2 ds q <-> is_table (phys s) ds q \/ q = f).
  { intros q. split.
    - intros [Hq|(d' & k & Hd' & Hk & Hek & Efk)]; [left; by left|]. destruct (decide (d' = d /\ k = i)) as [[-> ->]|Hn].
      + right. rewrite Hdi in Efk. congruence.
      + left. right. exists d', k. rewrite (Hsame d' k) in Hek, Efk by (done || lia). done.
    - intros [[Hq|(d' & k & Hd' & Hk & Hek & Efk)]| ->]; [by left | |].
      + right. exists d', k. rewrite (Hsame d' k); [done | done | lia |]. intros [-> ->]. congruence.
      + right. exists d, i. rewrite Hdi. auto. }
  exists f, s1, {| phys := m2; alloc := a' |}. split; [done|]. split; [done|]. split; [done|].
  split; simpl; [|by rewrite Hdi | | done | by apply (ff_mono _ _ _ Hf) | | | done |].
  - apply (install_ok s ds d i f m2 a' (mk f)); auto.
  - intros d' v Hd' Hv. unfold entry. destruct (pgd_offset_user v Hv) as [_ Hb]. pose proof (proj2 (pgt_offset_range v)).
    destruct (decide (d' = d /\ pgd_offset v = i)) as [[-> Ei]|Hn].
    + by rewrite Ei, Hdi, Hmke, Hmkf, Hzero, He by lia.
    + rewrite Hsame by (done || lia). destruct (pte_exists (wd (phys s) d' (pgd_offset v))) eqn:He'; [|done].
      assert (is_table (phys s) ds (PAGING_FRAME (wd (phys s) d' (pgd_offset v)))) by (right; by eexists _, _).
      rewrite Hother; [done | by apply Hnew, (so_alloc _ _ H) | lia |]. intros [Eq _]. destruct (so_dir _ _ H _ _ Hd' Hb He'). by rewrite Eq.
  - intros q Hq. apply (ff_back _ _ _ Hf) in Hq as [| ->]; [by left|]. right. apply Htab. by right.
  - intros q Hq Hqd. rewrite Hl2 by done. simpl. by rewrite lookup_insert_ne by (intros <-; by destruct (Hnew f)).
  - intros q Hq. apply Htab in Hq as [| ->]; [by left|]. right. apply (ff_free _ _ _ Hf).
Qed.

(** The entry that [page_table_map_entry] writes. *)
Definition map_pte (physical vm_flags pcm : Z) : Z :=
  let e := mk_pte physical (Z.lor PTE_PRESENT PTE_USER) in
  pte_set_pcm (if Z.testbit vm_flags VM_MAP_WRITE then pte_set_writable e else e) pcm.

Lemma map_pte_spec pa fl pcm : is_frame pa ->
  PAGING_FRAME (map_pte pa fl pcm) = pa /\ pte_exists (map_pte pa fl pcm) = true /\ pte_is_user (map_pte pa fl pcm) = true /\
  pte_writable (map_pte pa fl pcm) = Z.testbit fl VM_MAP_WRITE.
Proof.
  intros Hp. unfold map_pte. split; [|destruct (Z.testbit fl VM_MAP_WRITE); pte_bits; split_and!; try done; by rewrite andb_false_r].
  rewrite frame_set_pcm. by destruct (Z.testbit fl VM_MAP_WRITE); rewrite ?frame_set_writable, frame_mk_pte.
Qed.

Lemma map_entry_spec n s ds d v pa fl pcm :
  spaces_ok s ds -> d ∈ ds -> user_addr v -> supply (S n) (alloc s) -> is_frame pa ->
  exists s1 m', page_table_map_entry s d v pa fl pcm = Done {| phys := m'; alloc := alloc s1 |} /\
    table_ready s s1 ds d (pgd_offset v) n /\ spaces_ok {| phys := m'; alloc := alloc s1 |} ds /\
    (forall d' v', d' ∈ ds -> user_addr v' ->
       entry m' d' v' = if decide (d' = d /\ v' / PG_SIZE = v / PG_SIZE) then Some (map_pte pa fl pcm) else entry (phys s) d' v') /\
    (forall q, allocated (alloc s) q -> ~ is_table (phys s) ds q -> m' !! q = phys s !! q) /\
    (forall q, is_table m' ds q -> is_table (phys s) ds q \/ ~ allocated (alloc s) q).
Proof.
  intros H Hd Hv Hs Hpa. destruct (pgd_offset_user v Hv) as [_ Hi]. pose proof (proj2 (pgt_offset_range v)) as Hj.
  assert (Hready : exists s1, table_ready s s1 ds d (pgd_offset v) n /\
    page_table_map_entry s d v pa fl pcm = set_word s1 (PAGING_FRAME (wd (phys s1) d (pgd_offset v))) (pgt_offset v) (map_pte pa fl pcm)).
  { unfold page_table_map_entry. rewrite (word_at_done s d) by (by apply (dir_page s ds) || lia). obind.
    destruct (pte_exists (wd (phys s) d (pgd_offset v))) eqn:He.
    - exists s. split; [apply table_ready_refl; [done | done | apply (supply_le n (S n)); [lia | done]]|]. done.
    - destruct (install_spec n s ds d (pgd_offset v) (fun f => mk_pte f (Z.lor PTE_PRESENT (Z.lor PTE_WRITABLE PTE_USER))) H Hd Hi He Hs)
        as (f & s1 & s2 & E1 & E2 & E3 & Hr).
      { intros f Hf. split; [unfold mk_pte, pte_exists; rewrite Z.lor_spec; apply orb_true_r | by apply frame_mk_pte]. }
      exists s2. split; [done|]. rewrite E1. obind. rewrite E2. obind. by rewrite E3. }
  destruct Hready as (s1 & Hr & ->). exists s1.
  destruct (set_entry_spec s1 ds d (pgd_offset v) (pgt_offset v) (map_pte pa fl pcm) (tr_ok _ _ _ _ _ _ Hr) Hd Hi (tr_exists _ _ _ _ _ _ Hr) Hj)
    as (m' & E & Hok & Hw & Hdirs & Hl).
  exists m'. split; [done|]. split; [done|]. split; [done|]. split; [|split].
  - intros d' v' Hd' Hv'. rewrite (entry_set s1 ds d (pgd_offset v) (pgt_offset v) (map_pte pa fl pcm) m'); try done; try apply Hr.
    destruct (map_pte_spec pa fl pcm Hpa) as (_ & -> & _). rewrite (tr_entry _ _ _ _ _ _ Hr) by done.
    pose proof (offsets_page v v' Hv Hv'). decides; tauto.
  - intros q Hq Hnt. rewrite Hl; [apply Hr; [done | intros ->; apply Hnt; by left]|]. intros ->.
    assert (Ht : is_table (phys s1) ds (PAGING_FRAME (wd (phys s1) d (pgd_offset v)))) by (right; exists d, (pgd_offset v); split_and!; try done; try lia; apply Hr).
    apply (tr_table _ _ _ _ _ _ Hr) in Ht as [|]; done.
  - intros q Hq. apply (tr_table _ _ _ _ _ _ Hr). by apply (is_table_same _ m').
Qed.

(** * Clearing *)

(** The entries [pg], ..., [pg + n - 1] of table [pgt] map pages that belong to them alone. *)
Definition owned s (ds : list Z) (pgt pg n : Z) : Prop :=
  forall j, pg <= j < pg + n -> pte_exists (wd (phys s) pgt j) = true ->
    allocated (alloc s) (PAGING_FRAME (wd (phys s) pgt j)) /\ ~ is_table (phys s) ds (PAGING_FRAME (wd (phys s) pgt j)) /\
    forall j', pg <= j' < pg + n -> j <> j' -> pte_exists (wd (phys s) pgt j') = true ->
      PAGING_FRAME (wd (phys s) pgt j') <> PAGING_FRAME (wd (phys s) pgt j).

(** One turn of the inner loop. *)
Lemma clear_entry_spec s ds d i pg n (free : bool) :
  spaces_ok s ds -> d ∈ ds -> 0 <= i < 768 -> pte_exists (wd (phys s) d i) = true -> 0 <= pg < 1024 -> 0 < n ->
  let pgt := PAGING_FRAME (wd (phys s) d i) in let e := wd (phys s) pgt pg in
  pte_exists e = true -> (free = true -> owned s ds pgt pg n) ->
  exists s', (s ← (if free then if PAGING_FRAME e =? 0 then Done s else pfree_pa s (PAGING_FRAME e) else Done s);
      set_word s pgt pg (pte_clear_pa e)) = Done s' /\ spaces_ok s' ds /\
    (free = true -> owned s' ds pgt (pg + 1) (n - 1)) /\
    (forall q k, 0 <= k -> wd (phys s') q k = if (q =? pgt) && (k =? pg) then pte_clear_pa e else wd (phys s) q k) /\
    (forall d' k, d' ∈ ds -> 0 <= k -> wd (phys s') d' k = wd (phys s) d' k) /\
    (forall q, q <> pgt -> phys s' !! q = phys s !! q) /\
    (forall q, allocated (alloc s) q -> (free = true -> q <> PAGING_FRAME e) -> allocated (alloc s') q).
Proof.
  intros H Hd Hi He Hpg Hn pgt e Hee Hown.
  assert (Hfree : exists a', (if free then if PAGING_FRAME e =? 0 then Done s else pfree_pa s (PAGING_FRAME e) else Done s) =
      Done {| phys := phys s; alloc := a' |} /\ spaces_ok {| phys := phys s; alloc := a' |} ds /\
      (forall q, allocated (alloc s) q -> (free = true -> q <> PAGING_FRAME e) -> allocated a' q)).
  { assert (Hsame : {| phys := phys s; alloc := alloc s |} = s) by (by destruct s).
    destruct free; [|exists (alloc s); rewrite Hsame; auto]. destruct (Z.eqb_spec (PAGING_FRAME e) 0); [exists (alloc s); rewrite Hsame; auto|].
    destruct (Hown eq_refl pg ltac:(lia) Hee) as (Ha & Hnt & _).
    destruct (pfree_pa_spec s (PAGING_FRAME e) (proj1 (so_ram _ _ H)) Ha) as (a' & -> & Hok' & Hv & Hk).
    exists a'. split; [done|]. split; [|auto]. apply (spaces_ok_same s); auto. intros f Hf. apply Hk; [by apply (so_alloc _ _ H)|]. by intros ->. }
  destruct Hfree as (a' & -> & Hok & Hal). obind.
  destruct (set_entry_spec {| phys := phys s; alloc := a' |} ds d i pg (pte_clear_pa e) Hok Hd Hi He Hpg) as (m' & E & Hok' & Hw & Hdirs & Hl).
  exists {| phys := m'; alloc := a' |}. split; [exact E|]. split_and!; auto.
  intros -> j Hj Hej. assert (Hwj : forall k, pg + 1 <= k < pg + 1 + (n - 1) -> wd m' pgt k = wd (phys s) pgt k).
  { intros k Hk. simpl in Hw. rewrite Hw by lia. destruct (Z.eqb_spec k pg); [lia|]. by rewrite andb_false_r. }
  simpl in *. rewrite Hwj in Hej |- * by done. destruct (Hown eq_refl j ltac:(lia) Hej) as (Ha & Hnt & Hdis).
  split_and!; [apply Hal; [done|]; intros _; apply not_eq_sym; apply Hdis; [lia..|done] | by rewrite (is_table_same (phys s)) |].
  intros j' Hj' Hne. rewrite Hwj by done. apply Hdis; lia || done.
Qed.

Lemma clear_entries_spec n s ds d i pg (free : bool) :
  spaces_ok s ds -> d ∈ ds -> 0 <= i < 768 -> pte_exists (wd (phys s) d i) = true -> 0 <= pg -> pg + Z.of_nat n <= 1024 ->
  let pgt := PAGING_FRAME (wd (phys s) d i) in
  (free = true -> owned s ds pgt pg (Z.of_nat n)) ->
  exists s', clear_entries n s pgt pg free = Done s' /\ spaces_ok s' ds /\
    (forall d' v, d' ∈ ds -> user_addr v -> entry (phys s') d' v =
       if decide (d' = d /\ pgd_offset v = i /\ pg <= pgt_offset v < pg + Z.of_nat n) then None else entry (phys s) d' v) /\
    (forall d' k, d' ∈ ds -> 0 <= k -> wd (phys s') d' k = wd (phys s) d' k) /\
    (forall q, q <> pgt -> phys s' !! q = phys s !! q) /\
    (forall q, allocated (alloc s) q ->
       (free = true -> forall k, pg <= k < pg + Z.of_nat n -> pte_exists (wd (phys s) pgt k) = true -> q <> PAGING_FRAME (wd (phys s) pgt k)) ->
       allocated (alloc s') q).
Proof.
  revert s pg. induction n as [|n IH]; intros s pg H Hd Hi He Hpg Hle pgt Hown.
  - exists s. split_and!; auto. intros d' v Hd' Hv. destruct (decide _); [lia | done].
  - cbn [clear_entries]. rewrite (word_at_done s) by (apply (table_page s ds) || lia; done). obind.
    destruct (pte_exists (wd (phys s) pgt pg)) eqn:Hee.
    + destruct (clear_entry_spec s ds d i pg (Z.of_nat (S n)) free H Hd Hi He) as (s1 & E1 & Hok & Ho & Hw & Hdirs & Hl & Hal); [lia | lia | done | done|].
      fold pgt in E1, Hw, Hl, Hal, Ho. rewrite E1. obind.
      assert (Epgt : PAGING_FRAME (wd (phys s1) d i) = pgt) by (by rewrite Hdirs by (done || lia)).
      destruct (IH s1 (pg + 1) Hok Hd Hi) as (s' & E' & Hok' & Hent & Hdirs' & Hl' & Hal');
        [by rewrite Hdirs by (done || lia) | lia | lia | rewrite Epgt; intros Hf; replace (Z.of_nat n) with (Z.of_nat (S n) - 1) by lia; auto |].
      rewrite Epgt in E', Hl', Hal'. exists s'. split; [done|]. split; [done|]. split; [|split; [|split]].
      * intros d' v Hd' Hv. rewrite Hent, (entry_set s ds d i pg (pte_clear_pa (wd (phys s) pgt pg)) (phys s1)) by done.
        rewrite pte_clear_absent. decides; lia || done.
      * intros d' k Hd' Hk. by rewrite Hdirs', Hdirs.
      * intros q Hq. by rewrite Hl', Hl.
      * intros q Hq Hne. apply Hal'; [apply Hal; [done|]; intros Hf; apply (Hne Hf); [lia | done]|].
        intros Hf k Hk. rewrite Hw by lia. destruct (Z.eqb_spec k pg); [lia|]. rewrite andb_false_r. apply (Hne Hf). lia.
    + destruct (IH s (pg + 1) H Hd Hi He) as (s' & E' & Hok' & Hent & Hdirs' & Hl' & Hal'); [lia | lia | |].
      { intros Hf j Hj Hej. destruct (Hown Hf j ltac:(lia) Hej) as (Ha & Hnt & Hdis). split_and!; [done | done |].
        intros j' Hj'. apply Hdis. lia. }
      exists s'. split; [done|]. split; [done|]. split; [|split; [done | split; [done|]]].
      * intros d' v Hd' Hv. rewrite Hent by done. decides; try done; try lia.
        assert (d' = d /\ pgd_offset v = i /\ pgt_offset v = pg) as (-> & Ei & Ej) by lia. unfold entry. rewrite Ei, Ej, He. fold pgt. by rewrite Hee.
      * intros q Hq Hne. apply Hal'; [done|]. intros Hf k Hk. apply (Hne Hf). lia.
Qed.

(** Once the index of the entries has reached the end of a table, the outer loop does nothing more. *)
Lemma clear_tables_end n s d dir pg dir_end pg_end free :
  page_ok (phys s) d -> 0 <= dir -> dir + Z.of_nat n <= 1024 ->
  Z.of_nat n = 0 \/ pg_end <= pg /\ (PGT_INDEXES <= pg \/ Z.of_nat n <= 1 /\ dir = dir_end) ->
  clear_tables n s d dir pg dir_end pg_end free = Done s.
Proof.
  revert dir pg. induction n as [|n IH]; intros dir pg Hd Hdir Hle Hpg; [done|]. cbn [clear_tables].
  rewrite (word_at_done s d) by (done || lia). obind. destruct (negb _).
  { destruct n; [done|]. apply IH; try done; lia. }
  replace (Z.to_nat _) with 0%nat by (destruct (Z.eqb_spec dir dir_end); lia). cbn [clear_entries]. obind.
  destruct n; [done|]. apply IH; try done; lia.
Qed.

Lemma addr_split v : 0 <= v < 2 ^ 32 ->
  v = 2 ^ 22 * pgd_offset v + 4096 * pgt_offset v + v mod 4096 /\ 0 <= pgd_offset v < 1024 /\ 0 <= pgt_offset v < 1024 /\
  0 <= v mod 4096 < 4096 /\ v / 2 ^ 22 = pgd_offset v.
Proof.
  intros Hv. destruct (pgt_offset_range v) as [-> Hb]. unfold pgd_offset. rewrite offset_div by done. unfold PG_SIZE in *.
  assert (0 <= v / 2 ^ 22 < 1024) by (Z.div_mod_to_equations; lia). rewrite (Z.mod_small (v / 2 ^ 22)) by done.
  pose proof (Z.mod_pos_bound v 4096 ltac:(lia)). split_and!; try lia.
  change (2 ^ 22) with (4096 * 1024). rewrite <- Z.div_div by lia. Z.div_mod_to_equations. lia.
Qed.

Lemma entry_at m d i j v :
  user_addr v -> pgd_offset v = i -> pgt_offset v = j -> pte_exists (wd m d i) = true ->
  pte_exists (wd m (PAGING_FRAME (wd m d i)) j) = true -> entry m d v = Some (wd m (PAGING_FRAME (wd m d i)) j).
Proof. intros _ Hi Hj He Hee. unfold entry. by rewrite Hi, Hj, He, Hee. Qed.

(** The pages mapped from [v] to [v + n * PG_SIZE] belong to this range alone. *)
Definition private s (ds : list Z) (d v n : Z) : Prop :=
  forall v1 e, v <= v1 < v + n * PG_SIZE -> entry (phys s) d v1 = Some e ->
    allocated (alloc s) (PAGING_FRAME e) /\ ~ is_table (phys s) ds (PAGING_FRAME e) /\
    forall v2 e2, v <= v2 < v + n * PG_SIZE -> v2 / PG_SIZE <> v1 / PG_SIZE -> entry (phys s) d v2 = Some e2 ->
      PAGING_FRAME e2 <> PAGING_FRAME e.

(** The address of entry [j] in the table of [v]. *)
Definition entry_addr (v j : Z) : Z := 2 ^ 22 * pgd_offset v + 4096 * j.

Lemma entry_addr_spec v j : user_addr v -> 0 <= j < 1024 ->
  user_addr (entry_addr v j) /\ pgd_offset (entry_addr v j) = pgd_offset v /\ pgt_offset (entry_addr v j) = j.
Proof.
  intros Hv Hj. destruct (pgd_offset_user v Hv) as [_ Hb]. unfold entry_addr.
  assert (Hu : user_addr (2 ^ 22 * pgd_offset v + 4096 * j)) by (unfold user_addr, KMEM_KBASE in *; lia). split; [done|].
  destruct (addr_split (2 ^ 22 * pgd_offset v + 4096 * j)) as (E & H1 & H2 & H3 & _); [unfold user_addr, KMEM_KBASE in Hu; lia|]. lia.
Qed.

Lemma private_owned s ds d v n :
  user_addr v -> v mod PG_SIZE = 0 -> 0 <= n -> pte_exists (wd (phys s) d (pgd_offset v)) = true -> private s ds d v n ->
  owned s ds (PAGING_FRAME (wd (phys s) d (pgd_offset v))) (pgt_offset v) (Z.min n (1024 - pgt_offset v)).
Proof.
  intros Hv Hm Hn He Hp j Hj Hej. destruct (addr_split v) as (E & H1 & H2 & H3 & _); [unfold user_addr, KMEM_KBASE in Hv; lia|].
  assert (Hat : forall k, pgt_offset v <= k < pgt_offset v + Z.min n (1024 - pgt_offset v) -> pte_exists (wd (phys s) (PAGING_FRAME (wd (phys s) d (pgd_offset v))) k) = true ->
    v <= entry_addr v k < v + n * PG_SIZE /\ entry (phys s) d (entry_addr v k) = Some (wd (phys s) (PAGING_FRAME (wd (phys s) d (pgd_offset v))) k)).
  { intros k Hk Hek. destruct (entry_addr_spec v k Hv ltac:(lia)) as (Hu & Hd & Ht). split; [unfold entry_addr, PG_SIZE in *; lia|].
    by apply (entry_at _ _ (pgd_offset v) k). }
  destruct (Hat j Hj Hej) as [Hr Hent]. destruct (Hp _ _ Hr Hent) as (Ha & Hnt & Hdis). split_and!; [done | done |].
  intros j' Hj' Hne Hej'. destruct (Hat j' Hj' Hej') as [Hr' Hent']. apply (Hdis _ _ Hr'); [|done].
  unfold entry_addr, PG_SIZE. replace (2 ^ 22 * pgd_offset v + 4096 * j') with ((1024 * pgd_offset v + j') * 4096) by lia.
  replace (2 ^ 22 * pgd_offset v + 4096 * j) with ((1024 * pgd_offset v + j) * 4096) by lia. rewrite !Z.div_mul by lia. lia.
Qed.

(** Which part of a range the first table holds. *)
Lemma range_in_table v v' n :
  user_addr v -> user_addr v' -> v mod PG_SIZE = 0 -> 0 <= n ->
  (pgd_offset v' = pgd_offset v /\ pgt_offset v <= pgt_offset v' < pgt_offset v + Z.min n (1024 - pgt_offset v)) <->
  v <= v' < v + n * PG_SIZE /\ v' / 2 ^ 22 = v / 2 ^ 22.
Proof.
  intros Hv Hv' Hm Hn. unfold user_addr, KMEM_KBASE in *. destruct (addr_split v) as (E & H1 & H2 & H3 & E1); [lia|].
  destruct (addr_split v') as (E' & H1' & H2' & H3' & E1'); [lia|]. unfold PG_SIZE in *. rewrite E1, E1'. lia.
Qed.

(** What [page_table_clear_range] does: it clears the pages of the range that lie in the page table of the first one. *)
Lemma clear_range_spec s ds d v n (free : bool) :
  spaces_ok s ds -> d ∈ ds -> user_addr v -> v mod PG_SIZE = 0 -> 0 <= n -> v + n * PG_SIZE <= KMEM_KBASE ->
  pte_exists (wd (phys s) d (pgd_offset v)) = true \/ v / 2 ^ 22 = (v + n * PG_SIZE - 1) / 2 ^ 22 ->
  (free = true -> private s ds d v n) ->
  exists s', page_table_clear_range s d v n free = Done s' /\ spaces_ok s' ds /\
    (forall d' v', d' ∈ ds -> user_addr v' -> entry (phys s') d' v' =
       if decide (d' = d /\ v <= v' < v + n * PG_SIZE /\ v' / 2 ^ 22 = v / 2 ^ 22) then None else entry (phys s) d' v') /\
    (forall d' k, d' ∈ ds -> 0 <= k -> wd (phys s') d' k = wd (phys s) d' k) /\
    (forall q, ~ is_table (phys s) ds q -> phys s' !! q = phys s !! q) /\
    (forall q, allocated (alloc s) q ->
       (free = true -> forall v' e, v <= v' < v + n * PG_SIZE -> entry (phys s) d v' = Some e -> q <> PAGING_FRAME e) ->
       allocated (alloc s') q).
Proof.
  intros H Hd Hv Hm Hn Hend He Hown. pose proof (dir_page s ds d H Hd) as Hdp. pose proof Hv as Hv0.
  unfold user_addr, KMEM_KBASE in Hv, Hend. unfold page_table_clear_range.
  assert (Hlast : 0 <= v + n * PG_SIZE < 2 ^ 32) by (unfold PG_SIZE in *; lia). rewrite (u32_small (v + n * PG_SIZE)) by done.
  destruct (addr_split v) as (E & H1 & H2 & H3 & E1); [lia|]. destruct (addr_split (v + n * PG_SIZE) Hlast) as (E' & H1' & H2' & H3' & E1').
  destruct (pgd_offset_user v Hv0) as [_ Hi]. set (last := v + n * PG_SIZE) in *.
  assert (Hr0 : last mod 4096 = 0). { unfold last, PG_SIZE in *. rewrite Z.mod_add by lia. done. }
  assert (Hdir : pgd_offset v <= pgd_offset last) by (unfold last, PG_SIZE in *; lia).
  replace (Z.to_nat (pgd_offset last + 1 - pgd_offset v)) with (S (Z.to_nat (pgd_offset last - pgd_offset v))) by lia.
  cbn [clear_tables]. rewrite (word_at_done s d) by (done || lia). obind.
  destruct (pte_exists (wd (phys s) d (pgd_offset v))) eqn:Hpe; cbn [negb].
  - set (end_ := if pgd_offset v =? pgd_offset last then pgt_offset last else PGT_INDEXES).
    assert (Hcnt : end_ - pgt_offset v = Z.min n (1024 - pgt_offset v)).
    { unfold end_, PGT_INDEXES, last, PG_SIZE in *. destruct (Z.eqb_spec (pgd_offset v) (pgd_offset (v + n * 4096))); lia. }
    rewrite Hcnt. destruct (clear_entries_spec (Z.to_nat (Z.min n (1024 - pgt_offset v))) s ds d (pgd_offset v) (pgt_offset v) free)
      as (s' & Es & Hok & Hent & Hdirs & Hl & Hal); [done | done | done | done | lia | lia | |].
    { intros Hf. rewrite Z2Nat.id by lia. apply private_owned; auto. }
    rewrite Es. obind. rewrite Z2Nat.id in Hent, Hal by lia. exists s'.
    split; [apply clear_tables_end; [by apply (dir_page s' ds) | lia | lia |];
            unfold end_, PGT_INDEXES in *; destruct (Z.eqb_spec (pgd_offset v) (pgd_offset last)); lia|].
    split; [done|]. split; [|split; [done|split]].
    + intros d' v' Hd' Hv'. rewrite Hent by done. pose proof (range_in_table v v' n Hv0 Hv' Hm Hn). decides; tauto.
    + intros q Hq. apply Hl. intros ->. apply Hq. right. by exists d, (pgd_offset v).
    + intros q Hq Hne. apply Hal; [done|]. intros Hf k Hk Hek.
      destruct (entry_addr_spec v k Hv0 ltac:(lia)) as (Hu & Hdk & Htk).
      apply (Hne Hf (entry_addr v k)); [unfold entry_addr, PG_SIZE in *; lia | by apply (entry_at _ _ (pgd_offset v) k)].
  - destruct He as [|He]; [done|]. exists s. split.
    { apply clear_tables_end; [done | lia | lia |];
        (destruct (Z.eq_dec n 0) as [->|]; [replace last with v in * by lia; lia|]);
        (destruct (addr_split (last - 1)) as (E2 & A1 & A2 & A3 & A4); [unfold last, PG_SIZE in *; lia|]); unfold PG_SIZE, last in *; lia. }
    split; [done|]. split; [|auto]. intros d' v' Hd' Hv'. destruct (decide _) as [(-> & Hr & Ev)|]; [|done].
    unfold entry. destruct (pgd_offset_user v' Hv') as [Ed _]. rewrite Ed, Ev, E1. by rewrite Hpe.
Qed.
End Tables.
