(* ===== verification/PageCopy.v ===== *)
(** Copies of page tables ([page_table_copy_range] and [page_table_clone_range] of
    src/mm/ptable.c): which pages the new directory maps afterwards and what they hold. *)
From stdpp Require Import base numbers list gmap.
From Stdlib Require Import ZArith ZifyBool Lia.
From S2P Require Import Prelude UserMem Palloc PageAlloc PageTable.
Open Scope Z_scope.

Section Copying.
Context {A : Type} {PA : PageAllocator A}.
Implicit Types s : machine A.

(** The pages mapped by [d] at the addresses [P] are data. *)
Definition data_ok s (ds : list Z) (d : Z) (P : Z -> Prop) : Prop :=
  forall v e, user_addr v -> P v -> entry (phys s) d v = Some e ->
    allocated (alloc s) (PAGING_FRAME e) /\ ~ is_table (phys s) ds (PAGING_FRAME e).

(** Entry [e'] of [s'] maps a new page with the contents that the page of entry [e] has
    in [s], or the same page. *)
Definition copy_of (fresh : bool) s s' (ds : list Z) (e e' : Z) : Prop :=
  if fresh then
    pte_writable e' = pte_writable e /\ pte_is_user e' = true /\
    allocated (alloc s') (PAGING_FRAME e') /\ ~ allocated (alloc s) (PAGING_FRAME e') /\ ~ is_table (phys s') ds (PAGING_FRAME e') /\
    phys s' !! PAGING_FRAME e' = phys s !! PAGING_FRAME e
  else e' = e.

(** From [s] to [s'] the pages that [old] maps at the addresses [P] have been given to [new]. *)
Record copied (fresh : Z -> bool) s s' (ds : list Z) (new old : Z) (P : Z -> Prop) (k : nat) : Prop := {
  cp_ok : spaces_ok s' ds;
  cp_supply : supply k (alloc s');
  cp_mono : forall q, allocated (alloc s) q -> allocated (alloc s') q;
  cp_phys : forall q, allocated (alloc s) q -> ~ is_table (phys s) ds q -> phys s' !! q = phys s !! q;
  cp_table : forall q, is_table (phys s') ds q -> is_table (phys s) ds q \/ ~ allocated (alloc s) q;
  cp_other : forall d v, d ∈ ds -> user_addr v -> ~ (d = new /\ P v /\ is_Some (entry (phys s) old v)) ->
    entry (phys s') d v = entry (phys s) d v;
  cp_copy : forall v e, user_addr v -> P v -> entry (phys s) old v = Some e ->
    exists e', entry (phys s') new v = Some e' /\ copy_of (fresh v) s s' ds e e';
  cp_distinct : forall v1 v2 e1 e2, fresh v1 = true -> fresh v2 = true -> user_addr v1 -> user_addr v2 -> P v1 -> P v2 -> v1 / PG_SIZE <> v2 / PG_SIZE ->
    is_Some (entry (phys s) old v1) -> is_Some (entry (phys s) old v2) ->
    entry (phys s') new v1 = Some e1 -> entry (phys s') new v2 = Some e2 -> PAGING_FRAME e1 <> PAGING_FRAME e2;
}.

Lemma copied_iff fresh fresh' s s' ds new old P Q k :
  (forall v, user_addr v -> P v <-> Q v) -> (forall v, P v -> fresh' v = fresh v) ->
  copied fresh s s' ds new old P k -> copied fresh' s s' ds new old Q k.
Proof.
  intros HPQ Hfr [H1 H2 H3 H4 H5 H6 H7 H8]. split; try done.
  - intros d v Hd Hv Hn. apply H6; [done | done |]. intros (-> & HP & Hs). apply Hn. by rewrite <- HPQ.
  - intros v e Hv HQ. apply HPQ in HQ; [|done]. rewrite Hfr by done. by apply H7.
  - intros v1 v2 e1 e2 F1 F2 Hv1 Hv2 Q1 Q2. apply HPQ in Q1, Q2; [|done..]. rewrite Hfr in F1, F2 by done. by apply H8.
Qed.

Lemma copied_none fresh s ds new old P k :
  spaces_ok s ds -> supply k (alloc s) -> (forall v, user_addr v -> P v -> entry (phys s) old v = None) -> copied fresh s s ds new old P k.
Proof.
  intros H Hk HP. split; auto.
  - intros v e Hv Hp E. rewrite HP in E; done.
  - intros v1 v2 e1 e2 _ _ Hv1 Hv2 P1 P2 _ [e E]. rewrite HP in E; done.
Qed.

Lemma table_ready_copied fresh s s2 ds d i new old k : d ∈ ds -> table_ready s s2 ds d i k -> copied fresh s s2 ds new old (fun _ => False) k.
Proof.
  intros Hd H. split; try apply H; try done.
  - intros q Hq Hn. apply H; [done|]. intros ->. apply Hn. by left.
  - intros d' v Hd' Hv _. by apply H.
Qed.

Lemma copied_trans fresh s s1 s' ds new old P1 P2 k1 k2 :
  old ∈ ds -> new ∈ ds -> old <> new -> data_ok s ds old (fun v => P2 v /\ fresh v = true) ->
  (forall v1 v2, user_addr v1 -> user_addr v2 -> P1 v1 -> P2 v2 -> v1 / PG_SIZE <> v2 / PG_SIZE) ->
  copied fresh s s1 ds new old P1 k1 -> copied fresh s1 s' ds new old P2 k2 -> copied fresh s s' ds new old (fun v => P1 v \/ P2 v) k2.
Proof.
  intros Hold Hnew Hne Hdata Hdis H1 H2.
  assert (Hoe : forall v, user_addr v -> entry (phys s1) old v = entry (phys s) old v).
  { intros v Hv. apply (cp_other _ _ _ _ _ _ _ _ H1); [done | done |]. by intros [-> _]. }
  assert (Hnt : forall q, allocated (alloc s) q -> ~ is_table (phys s) ds q -> ~ is_table (phys s1) ds q).
  { intros q Hq Hn Ht. apply (cp_table _ _ _ _ _ _ _ _ H1) in Ht as [|]; done. }
  assert (Hkeep : forall v, user_addr v -> P1 v -> entry (phys s') new v = entry (phys s1) new v).
  { intros v Hv HP. apply (cp_other _ _ _ _ _ _ _ _ H2); [done | done |]. intros (_ & HP2 & _). by apply (Hdis v v). }
  assert (C1 : forall v e, user_addr v -> P1 v -> entry (phys s) old v = Some e ->
    exists e', entry (phys s') new v = Some e' /\ copy_of (fresh v) s s' ds e e' /\ (fresh v = true -> allocated (alloc s1) (PAGING_FRAME e'))).
  { intros v e Hv HP E. destruct (cp_copy _ _ _ _ _ _ _ _ H1 v e Hv HP E) as (e' & E' & C). exists e'. rewrite Hkeep by done. split; [done|].
    destruct (fresh v); simpl in *; [|done]. destruct C as (Cw & Cu & Ca & Cn & Ct & Cp). split; [|done]. split_and!; auto.
    - by apply (cp_mono _ _ _ _ _ _ _ _ H2).
    - intros Ht. apply (cp_table _ _ _ _ _ _ _ _ H2) in Ht as [|]; done.
    - rewrite <- Cp. by apply (cp_phys _ _ _ _ _ _ _ _ H2). }
  assert (C2 : forall v e, user_addr v -> P2 v -> entry (phys s) old v = Some e ->
    exists e', entry (phys s') new v = Some e' /\ copy_of (fresh v) s s' ds e e' /\ (fresh v = true -> ~ allocated (alloc s1) (PAGING_FRAME e'))).
  { intros v e Hv HP E. pose proof (fun Hf => Hdata v e Hv (conj HP Hf) E) as Hd. rewrite <- Hoe in E by done.
    destruct (cp_copy _ _ _ _ _ _ _ _ H2 v e Hv HP E) as (e' & E' & C). exists e'. split; [done|].
    destruct (fresh v); simpl in *; [|done]. destruct (Hd eq_refl) as [Da Dn]. destruct C as (Cw & Cu & Ca & Cn & Ct & Cp). split; [|done]. split_and!; auto.
    - intros Ha. apply Cn. by apply (cp_mono _ _ _ _ _ _ _ _ H1).
    - rewrite Cp. by apply (cp_phys _ _ _ _ _ _ _ _ H1). }
  split; try apply H2.
  - intros q Hq. by apply (cp_mono _ _ _ _ _ _ _ _ H2), (cp_mono _ _ _ _ _ _ _ _ H1).
  - intros q Hq Hn. rewrite (cp_phys _ _ _ _ _ _ _ _ H2); [by apply (cp_phys _ _ _ _ _ _ _ _ H1) | by apply (cp_mono _ _ _ _ _ _ _ _ H1) | auto].
  - intros q Hq. apply (cp_table _ _ _ _ _ _ _ _ H2) in Hq as [Hq|Hq]; [by apply (cp_table _ _ _ _ _ _ _ _ H1)|].
    right. intros Ha. apply Hq. by apply (cp_mono _ _ _ _ _ _ _ _ H1).
  - intros d v Hd Hv Hn. rewrite (cp_other _ _ _ _ _ _ _ _ H2); [apply (cp_other _ _ _ _ _ _ _ _ H1) | | |]; try done.
    + intros (-> & HP & Hs). by apply Hn; auto.
    + intros (-> & HP & Hs). apply Hn. rewrite <- Hoe by done. auto.
  - intros v e Hv [HP|HP] E; [destruct (C1 v e Hv HP E) as (e' & ? & ? & _) | destruct (C2 v e Hv HP E) as (e' & ? & ? & _)]; eauto.
  - intros v1 v2 e1 e2 F1 F2 Hv1 Hv2 HP1 HP2 Hpg [o1 O1] [o2 O2] E1 E2. destruct HP1 as [HP1|HP1], HP2 as [HP2|HP2].
    + rewrite Hkeep in E1, E2 by done. apply (cp_distinct _ _ _ _ _ _ _ _ H1 v1 v2); eauto.
    + destruct (C1 v1 o1 Hv1 HP1 O1) as (x1 & X1 & _ & A1). destruct (C2 v2 o2 Hv2 HP2 O2) as (x2 & X2 & _ & A2).
      assert (x1 = e1) as -> by congruence. assert (x2 = e2) as -> by congruence.
      intros Eq. apply (A2 F2). rewrite <- Eq. auto.
    + destruct (C1 v2 o2 Hv2 HP2 O2) as (x1 & X1 & _ & A1). destruct (C2 v1 o1 Hv1 HP1 O1) as (x2 & X2 & _ & A2).
      assert (x1 = e2) as -> by congruence. assert (x2 = e1) as -> by congruence.
      intros Eq. apply (A2 F1). rewrite Eq. auto.
    + apply (cp_distinct _ _ _ _ _ _ _ _ H2 v1 v2); rewrite ?Hoe; eauto.
Qed.

(** * The loops *)

(** What copying one entry must do. *)
Definition each_spec (each : machine A -> Z -> Z -> Z -> outcome (machine A)) (fresh : bool) : Prop :=
  forall k s ds new old i pg e, spaces_ok s ds -> new ∈ ds -> old ∈ ds -> new <> old -> 0 <= i < 768 -> 0 <= pg < 1024 ->
    pte_exists (wd (phys s) new i) = true -> pte_exists (wd (phys s) old i) = true ->
    wd (phys s) (PAGING_FRAME (wd (phys s) old i)) pg = e -> pte_exists e = true ->
    (fresh = true -> allocated (alloc s) (PAGING_FRAME e) /\ ~ is_table (phys s) ds (PAGING_FRAME e)) -> supply (S k) (alloc s) ->
    exists s', each s (PAGING_FRAME (wd (phys s) new i)) pg e = Done s' /\
      (forall d j, d ∈ ds -> 0 <= j -> wd (phys s') d j = wd (phys s) d j) /\
      copied (fun _ => fresh) s s' ds new old (fun v => pgd_offset v = i /\ pgt_offset v = pg) k.

(** The part of [copied] that an updated entry gives. *)
Lemma copied_one fresh s s1 s' ds new old i pg w k :
  spaces_ok s ds -> new ∈ ds -> old ∈ ds -> 0 <= i < 768 -> 0 <= pg < 1024 -> pte_exists (wd (phys s) new i) = true ->
  (forall d j, d ∈ ds -> 0 <= j -> wd (phys s1) d j = wd (phys s) d j) ->
  (forall q j, is_table (phys s) ds q -> wd (phys s1) q j = wd (phys s) q j) ->
  (forall q, allocated (alloc s) q -> phys s1 !! q = phys s !! q) ->
  spaces_ok s1 ds -> (forall q, allocated (alloc s) q -> allocated (alloc s1) q) -> supply k (alloc s1) ->
  set_word s1 (PAGING_FRAME (wd (phys s) new i)) pg w = Done s' -> pte_exists w = true ->
  (forall v, user_addr v -> pgd_offset v = i -> pgt_offset v = pg -> is_Some (entry (phys s) old v)) ->
  (forall e v, user_addr v -> pgd_offset v = i -> pgt_offset v = pg -> entry (phys s) old v = Some e ->
     forall m', (forall q, q <> PAGING_FRAME (wd (phys s) new i) -> m' !! q = phys s1 !! q) ->
     (forall q, is_table m' ds q <-> is_table (phys s) ds q) ->
     copy_of fresh s {| phys := m'; alloc := alloc s1 |} ds e w) ->
  (forall d j, d ∈ ds -> 0 <= j -> wd (phys s') d j = wd (phys s) d j) /\
  copied (fun _ => fresh) s s' ds new old (fun v => pgd_offset v = i /\ pgt_offset v = pg) k.
Proof.
  intros H Hn Ho Hi Hpg He Hd1 Ht1 Hp1 H1 Hm1 Hk Es Hw Hold Hcp.
  destruct (set_entry_spec s1 ds new i pg w H1 Hn Hi) as (m' & E & Hok & Hws & Hdirs & Hl); [by rewrite Hd1 by (done || lia) | done|].
  rewrite (Hd1 new i) in E, Hws, Hl by (done || lia). rewrite E in Es. injection Es as <-.
  assert (Hdd : forall d j, d ∈ ds -> 0 <= j -> wd m' d j = wd (phys s) d j) by (intros; by rewrite Hdirs, Hd1 by done).
  assert (Hent1 : forall d v, d ∈ ds -> user_addr v -> entry (phys s1) d v = entry (phys s) d v).
  { intros d v Hd Hv. unfold entry. destruct (pgd_offset_user v Hv) as [_ Hb]. rewrite Hd1 by (done || lia).
    destruct (pte_exists (wd (phys s) d (pgd_offset v))) eqn:Hx; [|done]. rewrite Ht1; [done|]. right. by exists d, (pgd_offset v). }
  assert (Hent : forall d v, d ∈ ds -> user_addr v -> entry m' d v =
    if decide (d = new /\ pgd_offset v = i /\ pgt_offset v = pg) then Some w else entry (phys s) d v).
  { intros d v Hd Hv. rewrite (entry_set s1 ds new i pg w m' H1 Hn Hi); try done.
    - rewrite Hw, Hent1 by done. done.
    - by rewrite Hd1 by (done || lia).
    - by rewrite (Hd1 new i) by (done || lia). }
  assert (Htab : forall q, is_table m' ds q <-> is_table (phys s) ds q) by (intros; by apply is_table_same).
  simpl. split; [done|]. split; simpl; try done.
  - intros q Hq Hnt. rewrite Hl; [by apply Hp1|]. intros ->. apply Hnt. right. by exists new, i.
  - intros q Hq. left. by apply Htab.
  - intros d v Hd Hv Hne. rewrite Hent by done. destruct (decide _) as [(-> & Ei & Ej)|]; [|done].
    destruct Hne. auto.
  - intros v e Hv [Ei Ej] Eo. exists w. rewrite Hent by done. rewrite decide_True by done. split; [done|].
    apply (Hcp e v); auto.
  - intros v1 v2 e1 e2 _ _ Hv1 Hv2 [I1 J1] [I2 J2] Hpg'. destruct Hpg'. apply offsets_page; [done | done | lia].
Qed.

Lemma entry_exists m old i pg v : pgd_offset v = i -> pgt_offset v = pg -> pte_exists (wd m old i) = true ->
  pte_exists (wd m (PAGING_FRAME (wd m old i)) pg) = true -> entry m old v = Some (wd m (PAGING_FRAME (wd m old i)) pg).
Proof. intros Hi Hj He Hee. unfold entry. by rewrite Hi, Hj, He, Hee. Qed.

Lemma clone_entry_spec : each_spec clone_entry false.
Proof.
  intros k s ds new old i pg e H Hn Ho Hne Hi Hpg Hen Heo Ee Hee _ Hk. unfold clone_entry.
  destruct (set_entry_spec s ds new i pg e H Hn Hi Hen Hpg) as (m' & E & _). rewrite E. eexists. split; [done|].
  apply (copied_one false s s _ ds new old i pg e k); auto.
  - by apply (supply_le k (S k)); [lia|].
  - intros v Hv Iv Jv. rewrite (entry_exists _ old i pg v) by (done || by rewrite Ee). eauto.
  - intros e' v Hv Iv Jv Ev m2 _ _. simpl. rewrite (entry_exists _ old i pg v) in Ev by (done || by rewrite Ee). congruence.
Qed.

Lemma copy_entry_spec : each_spec copy_entry true.
Proof.
  intros k s ds new old i pg e H Hn Ho Hne Hi Hpg Hen Heo Ee Hee Hdat Hk. unfold copy_entry. destruct (Hdat eq_refl) as [Ha Hnt].
  destruct (palloc_pa_spec k s (proj1 (so_ram _ _ H)) Hk) as (f & a' & E & Hk' & Hf). rewrite E. obind.
  destruct (allocated_page s _ (so_ram _ _ H) Ha) as [(content & Ec & Hlc) _]. simpl. rewrite Ec.
  destruct (Z.eqb_spec f 0); [by destruct (ff_nz _ _ _ Hf)|].
  assert (Hnew : forall q, allocated (alloc s) q -> q <> f) by (intros q Hq ->; by destruct (ff_free _ _ _ Hf)).
  assert (Hpf : page_ok (phys s) f).
  { destruct (ff_alloc _ _ _ Hf) as [Hb _]. destruct (block_frame _ _ Hb) as (E1 & _ & _). replace f with (V2P (f + KMEM_KBASE)) by lia.
    apply (so_ram _ _ H). by apply (ff_valid _ _ _ Hf). }
  destruct Hpf as (pf & Epf & Hlf). unfold set_page. simpl. rewrite Epf. obind.
  set (s1 := {| phys := <[f := content]> (phys s); alloc := a' |}).
  assert (Hp1 : forall q, allocated (alloc s) q -> phys s1 !! q = phys s !! q) by (intros q Hq; simpl; rewrite lookup_insert_ne; [done | by apply not_eq_sym, Hnew]).
  assert (Hw1 : forall q j, is_table (phys s) ds q -> wd (phys s1) q j = wd (phys s) q j).
  { intros q j Hq. unfold wd. by rewrite Hp1 by (by apply (so_alloc _ _ H)). }
  assert (H1 : spaces_ok s1 ds).
  { apply (spaces_ok_same s); [done | intros d j Hd Hj; apply Hw1; by left | | apply Hf | apply Hf | intros q Hq; by apply (ff_mono _ _ _ Hf), (so_alloc _ _ H)].
    intros q (p & Ep & Hl). destruct (decide (q = f)) as [->|]; [exists content; by rewrite lookup_insert_eq|]. exists p. by rewrite lookup_insert_ne. }
  assert (Hdn : wd (phys s1) new i = wd (phys s) new i) by (apply Hw1; by left).
  rewrite (word_at_done s1) by (done || rewrite <- Hdn; apply (table_page s1 ds); by rewrite ?Hdn). obind.
  set (e0 := wd (phys s1) (PAGING_FRAME (wd (phys s) new i)) pg).
  set (w := if pte_writable e then pte_set_writable (pte_set_user (pte_set_pa e0 f)) else pte_unset_writable (pte_set_user (pte_set_pa e0 f))).
  assert (Hwf : PAGING_FRAME w = f /\ pte_exists w = true /\ pte_writable w = pte_writable e /\ pte_is_user w = true).
  { split; [unfold w; destruct (pte_writable e); rewrite ?frame_set_writable, ?frame_unset_writable, frame_set_user; apply frame_set_pa, Hf|].
    unfold w. destruct (pte_writable e); pte_bits; split_and!; try done; by rewrite ?andb_false_r. }
  destruct Hwf as (Hwf & Hwe & Hww & Hwu).
  destruct (set_entry_spec s1 ds new i pg w H1 Hn Hi) as (m' & E' & _); [by rewrite Hdn | done|]. rewrite Hdn in E'. rewrite E'.
  eexists. split; [done|]. apply (copied_one true s s1 _ ds new old i pg w k); auto.
  - intros d j Hd _. apply Hw1. by left.
  - apply Hf.
  - intros v Hv Iv Jv. rewrite (entry_exists _ old i pg v) by (done || by rewrite Ee). eauto.
  - intros e' v Hv Iv Jv Ev m2 Hm2 Ht2. rewrite (entry_exists _ old i pg v) in Ev by (done || by rewrite Ee). injection Ev as <-. rewrite Ee. simpl.
    rewrite Hwf. split_and!; auto; [apply Hf | apply Hf | |].
    + rewrite Ht2. intros Hx. by destruct (Hnew f); [apply (so_alloc _ _ H)|].
    + rewrite Hm2, Ec; [simpl; by rewrite lookup_insert_eq|]. apply not_eq_sym, Hnew, (so_alloc _ _ H). right. by exists new, i.
Qed.

Lemma data_ok_copied fresh s s1 ds new old P Q k :
  old ∈ ds -> old <> new -> data_ok s ds old P -> copied fresh s s1 ds new old Q k -> data_ok s1 ds old P.
Proof.
  intros Ho Hne Hd H v e Hv HP E. rewrite (cp_other _ _ _ _ _ _ _ _ H) in E; [|done | done | by intros [-> _]].
  destruct (Hd v e Hv HP E) as [Ha Hn]. split; [by apply (cp_mono _ _ _ _ _ _ _ _ H)|].
  intros Ht. apply (cp_table _ _ _ _ _ _ _ _ H) in Ht as [|]; done.
Qed.

Section Loops.
Context (each : machine A -> Z -> Z -> Z -> outcome (machine A)) (fresh : bool) (Heach : each_spec each fresh).

Lemma copy_entries_spec n k s ds new old i pg :
  spaces_ok s ds -> new ∈ ds -> old ∈ ds -> new <> old -> 0 <= i < 768 -> 0 <= pg -> pg + Z.of_nat n <= 1024 ->
  pte_exists (wd (phys s) new i) = true -> pte_exists (wd (phys s) old i) = true ->
  data_ok s ds old (fun v => (pgd_offset v = i /\ pg <= pgt_offset v < pg + Z.of_nat n) /\ fresh = true) -> supply (n + k) (alloc s) ->
  exists s', copy_entries each n s (PAGING_FRAME (wd (phys s) new i)) (PAGING_FRAME (wd (phys s) old i)) pg = Done s' /\
    (forall d j, d ∈ ds -> 0 <= j -> wd (phys s') d j = wd (phys s) d j) /\
    copied (fun _ => fresh) s s' ds new old (fun v => pgd_offset v = i /\ pg <= pgt_offset v < pg + Z.of_nat n) k.
Proof.
  revert s pg. induction n as [|n IH]; intros s pg H Hn Ho Hne Hi Hpg Hle Hen Heo Hdata Hk.
  - exists s. split; [done|]. split; [done|]. apply copied_none; [done | done |]. intros; lia.
  - cbn [copy_entries]. rewrite (word_at_done s) by (apply (table_page s ds) || lia; done). obind.
    set (e := wd (phys s) (PAGING_FRAME (wd (phys s) old i)) pg).
    assert (Hstep : exists s1, (if pte_exists e then each s (PAGING_FRAME (wd (phys s) new i)) pg e else Done s) = Done s1 /\
      (forall d j, d ∈ ds -> 0 <= j -> wd (phys s1) d j = wd (phys s) d j) /\
      copied (fun _ => fresh) s s1 ds new old (fun v => pgd_offset v = i /\ pgt_offset v = pg) (n + k)).
    { destruct (pte_exists e) eqn:Hee.
      - assert (Hat : forall v, pgd_offset v = i -> pgt_offset v = pg -> entry (phys s) old v = Some e) by (intros; by apply entry_exists).
        assert (Hd0 : exists v, user_addr v /\ pgd_offset v = i /\ pgt_offset v = pg).
        { assert (Hu : user_addr (2 ^ 22 * i)) by (unfold user_addr, KMEM_KBASE; lia). assert (Hoi : pgd_offset (2 ^ 22 * i) = i).
          { destruct (pgd_offset_user _ Hu) as [-> _]. rewrite Z.mul_comm. by apply Z.div_mul. }
          destruct (entry_addr_spec (2 ^ 22 * i) pg Hu ltac:(lia)) as (Hu' & Hd' & Ht'). exists (entry_addr (2 ^ 22 * i) pg). split; [exact Hu'|]. split; [congruence | done]. }
        destruct Hd0 as (v0 & Hu0 & I0 & J0). pose proof (fun Hf => Hdata v0 e Hu0 (conj (conj I0 (ltac:(lia) : pg <= pgt_offset v0 < pg + Z.of_nat (S n))) Hf) (Hat v0 I0 J0)) as Hd0.
        apply (Heach (n + k)%nat s ds new old i pg e); auto; lia.
      - exists s. split; [done|]. split; [done|]. apply copied_none; [done | apply (supply_le (n + k) (S n + k)); [lia | done] |].
        intros v Hv [Iv Jv]. unfold entry. rewrite Iv, Jv, Heo. fold e. by rewrite Hee. }
    destruct Hstep as (s1 & -> & Hd1 & C1). obind.
    destruct (IH s1 (pg + 1)) as (s' & E' & Hd' & C'); try done; try lia; try (by rewrite Hd1 by (done || lia)); [apply C1 | | apply C1 |].
    { pose proof (data_ok_copied _ _ _ _ _ _ _ _ _ Ho (not_eq_sym Hne) Hdata C1) as Hdata1. intros v e' Hv HP. apply Hdata1; [done | simpl in *; lia]. }
    rewrite !Hd1 in E' by (done || lia). exists s'. split; [done|]. split; [intros; by rewrite Hd', Hd1 by done|].
    eapply copied_iff; [|intros; reflexivity|eapply (copied_trans (fun _ => fresh) s s1 s' ds new old); [done | done | by apply not_eq_sym | | | exact C1 | exact C']].
    + intros v Hv. simpl. lia.
    + intros v e' Hv HP. apply Hdata; [done | simpl in *; lia].
    + intros v1 v2 Hv1 Hv2 [I1 J1] [I2 J2] Heq. apply offsets_page in Heq as [_ Hj]; [lia | done | done].
Qed.

Lemma new_table_spec k s ds new old dir :
  spaces_ok s ds -> new ∈ ds -> 0 <= dir <= 768 -> supply (S k) (alloc s) ->
  exists s1, new_table s new dir = Done (PAGING_FRAME (wd (phys s1) new dir), s1) /\ copied (fun _ => fresh) s s1 ds new old (fun _ => False) k /\
    pte_exists (wd (phys s1) new dir) = true /\ (forall d j, d ∈ ds -> 0 <= j -> ~ (d = new /\ j = dir) -> wd (phys s1) d j = wd (phys s) d j).
Proof.
  intros H Hn Hdir Hk. unfold new_table. rewrite (word_at_done s) by (apply (dir_page s ds) || lia; done). obind.
  destruct (pte_exists (wd (phys s) new dir)) eqn:He.
  - exists s. split; [done|]. split; [|done]. apply copied_none; [done | apply (supply_le k (S k)); [lia | done] | done].
  - assert (dir <> 768) by (intros ->; rewrite (so_kernel _ _ H) in He; done).
    destruct (install_spec k s ds new dir (fun f => pte_set_user (pte_set_writable (pte_set_pa (wd (phys s) new dir) f))) H Hn)
      as (f & s1 & s2 & E1 & E2 & E3 & Hr); [lia | done | done | |].
    { intros f Hf. split; [by pte_bits|]. rewrite frame_set_user, frame_set_writable. by apply frame_set_pa. }
    rewrite E1. obind. rewrite E2. obind. exists s2. rewrite E3. split; [done|]. split; [by apply (table_ready_copied (fun _ => fresh) s s2 ds new dir)|].
    split; [rewrite <- E3; apply Hr | apply Hr].
Qed.

(** Once the index of the entries has reached the end of a table, the outer loop only
    adds empty tables. *)
Lemma copy_tables_end n k s ds new old dir pg dir_end pg_end :
  spaces_ok s ds -> new ∈ ds -> old ∈ ds -> new <> old -> 0 <= dir -> dir + Z.of_nat n <= 769 ->
  Z.of_nat n = 0 \/ pg_end <= pg /\ (PGT_INDEXES <= pg \/ Z.of_nat n <= 1 /\ dir = dir_end) -> supply (n + k) (alloc s) ->
  exists s', copy_tables each n s new old dir pg dir_end pg_end = Done s' /\ copied (fun _ => fresh) s s' ds new old (fun _ => False) k.
Proof.
  revert s dir pg. induction n as [|n IH]; intros s dir pg H Hn Ho Hne Hdir Hle Hpg Hk.
  - exists s. split; [done|]. by apply copied_none.
  - cbn [copy_tables]. rewrite (word_at_done s) by (apply (dir_page s ds) || lia; done). obind. destruct (negb _).
    { destruct (IH s (dir + 1) pg) as (s' & E & C); try done; try lia; [apply (supply_le (n + k) (S n + k)); [lia | done]|]. eauto. }
    destruct (new_table_spec (n + k) s ds new old dir H Hn ltac:(lia) Hk) as (s1 & -> & C1 & _ & _). obind.
    replace (Z.to_nat _) with 0%nat by (destruct (Z.eqb_spec dir dir_end); lia). cbn [copy_entries]. obind.
    destruct (IH s1 (dir + 1) (Z.max pg (if dir =? dir_end then pg_end else PGT_INDEXES))) as (s' & E & C); try done; try apply C1; try lia.
    exists s'. split; [done|]. eapply copied_iff; [|intros; reflexivity|eapply (copied_trans (fun _ => fresh) s s1 s' ds new old); [done | done | by apply not_eq_sym | | | exact C1 | exact C]]; try done.
    + intros v Hv. simpl. tauto.
    + by intros v e _ [[] _].
Qed.

(** The pages of a range that lie in the page table of the first one. *)
Definition in_first_table (v n v' : Z) : Prop := v <= v' < v + n * PG_SIZE /\ v' / 2 ^ 22 = v / 2 ^ 22.

Lemma copy_range_spec k s ds new old v n :
  spaces_ok s ds -> new ∈ ds -> old ∈ ds -> new <> old -> user_addr v -> v mod PG_SIZE = 0 -> 0 <= n -> v + n * PG_SIZE <= KMEM_KBASE ->
  pte_exists (wd (phys s) old (pgd_offset v)) = true \/ v / 2 ^ 22 = (v + n * PG_SIZE - 1) / 2 ^ 22 ->
  data_ok s ds old (fun v' => in_first_table v n v' /\ fresh = true) -> supply (Z.to_nat (2 * n + 2) + k) (alloc s) ->
  exists s', copy_range each s new old v n = Done s' /\ copied (fun _ => fresh) s s' ds new old (in_first_table v n) k.
Proof.
  intros H Hn Ho Hne Hv Hm Hn0 Hend He Hdata Hk. pose proof (dir_page s ds old H Ho) as Hdp. pose proof Hv as Hv0.
  unfold user_addr, KMEM_KBASE in Hv, Hend. unfold copy_range.
  assert (Hlast : 0 <= v + n * PG_SIZE < 2 ^ 32) by (unfold PG_SIZE in *; lia). rewrite (u32_small (v + n * PG_SIZE)) by done.
  destruct (addr_split v) as (E & H1 & H2 & H3 & E1); [lia|]. destruct (addr_split (v + n * PG_SIZE) Hlast) as (E' & H1' & H2' & H3' & E1').
  destruct (pgd_offset_user v Hv0) as [_ Hi]. set (last := v + n * PG_SIZE) in *.
  assert (Hr0 : last mod 4096 = 0). { unfold last, PG_SIZE in *. rewrite Z.mod_add by lia. done. }
  assert (Hdir : pgd_offset v <= pgd_offset last <= pgd_offset v + n) by (unfold last, PG_SIZE in *; lia).
  replace (Z.to_nat (pgd_offset last + 1 - pgd_offset v)) with (S (Z.to_nat (pgd_offset last - pgd_offset v))) by lia.
  cbn [copy_tables]. rewrite (word_at_done s old) by (done || lia). obind.
  destruct (pte_exists (wd (phys s) old (pgd_offset v))) eqn:Hpe; cbn [negb].
  - set (end_ := if pgd_offset v =? pgd_offset last then pgt_offset last else PGT_INDEXES).
    assert (Hcnt : end_ - pgt_offset v = Z.min n (1024 - pgt_offset v)).
    { unfold end_, PGT_INDEXES, last, PG_SIZE in *. destruct (Z.eqb_spec (pgd_offset v) (pgd_offset (v + n * 4096))); lia. }
    rewrite Hcnt. set (c := Z.to_nat (Z.min n (1024 - pgt_offset v))). set (r := Z.to_nat (pgd_offset last - pgd_offset v)).
    assert (Er : Z.of_nat r = pgd_offset last - pgd_offset v) by (unfold r; lia).
    destruct (new_table_spec (c + (r + k)) s ds new old (pgd_offset v) H Hn ltac:(lia)) as (s1 & -> & C1 & He1 & Hd1);
      [apply (supply_le _ (Z.to_nat (2 * n + 2) + k)); [unfold c, r; lia | done]|]. obind.
    assert (Hold : forall j, 0 <= j -> wd (phys s1) old j = wd (phys s) old j) by (intros; apply Hd1; [done | done | intros [-> _]; done]).
    destruct (copy_entries_spec c (r + k) s1 ds new old (pgd_offset v) (pgt_offset v)) as (s2 & E2 & Hd2 & C2); try done; try apply C1; try (unfold c; lia).
    { by rewrite Hold by lia. }
    { pose proof (data_ok_copied _ _ _ _ _ _ _ _ _ Ho (not_eq_sym Hne) Hdata C1) as Hdata1. intros v' e' Hv' [HP Hf]. apply Hdata1; [done|].
      split; [|done]. apply range_in_table; [done | done | done | done | unfold c in HP; lia]. }
    rewrite Hold in E2 by lia. rewrite E2. obind.
    destruct (copy_tables_end r k s2 ds new old (pgd_offset v + 1) (Z.max (pgt_offset v) end_) (pgd_offset last) (pgt_offset last)) as (s3 & E3 & C3);
      [apply (cp_ok _ _ _ _ _ _ _ _ C2) | done | done | done | lia | lia | | apply (cp_supply _ _ _ _ _ _ _ _ C2) |].
    { unfold end_, PGT_INDEXES in *. clear - Hcnt Hdir Er H2'. destruct (Z.eqb_spec (pgd_offset v) (pgd_offset last)); lia. }
    exists s3. split; [done|].
    assert (C12 : copied (fun _ => fresh) s s2 ds new old (in_first_table v n) (r + k)).
    { eapply copied_iff; [|intros; reflexivity|eapply (copied_trans (fun _ => fresh) s s1 s2 ds new old); [done | done | by apply not_eq_sym | | | exact C1 | exact C2]]; try done.
      - intros v' Hv'. pose proof (range_in_table v v' n Hv0 Hv' Hm Hn0). unfold in_first_table, c. rewrite Z2Nat.id by lia. simpl. tauto.
      - intros v' e' Hv' [HP Hf]. apply Hdata; [done|]. split; [|done]. apply range_in_table; [done..| unfold c in HP; lia]. }
    eapply copied_iff; [|intros; reflexivity|eapply (copied_trans (fun _ => fresh) s s2 s3 ds new old); [done | done | by apply not_eq_sym | | | exact C12 | exact C3]]; try done.
    + intros v' Hv'. simpl. tauto.
    + by intros v' e' _ [[] _].
  - destruct He as [|He]; [done|].
    destruct (copy_tables_end (Z.to_nat (pgd_offset last - pgd_offset v)) k s ds new old (pgd_offset v + 1) (pgt_offset v) (pgd_offset last) (pgt_offset last))
      as (s' & Es & C); [done | done | done | done | lia | lia | | apply (supply_le _ (Z.to_nat (2 * n + 2) + k)); [lia | done] |].
    { destruct (Z.eq_dec n 0) as [->|]; [replace last with v in * by lia; lia|].
      destruct (addr_split (last - 1)) as (E2 & A1 & A2 & A3 & A4); [unfold last, PG_SIZE in *; lia|]. unfold PG_SIZE, last in *; lia. }
    exists s'. split; [done|].
    eapply copied_iff; [|intros; reflexivity|eapply (copied_trans (fun _ => fresh) s s s' ds new old (in_first_table v n)); [done | done | by apply not_eq_sym | | | | exact C]]; try done; [intros; simpl; tauto | by intros v' e' _ [[] _] |].
    apply copied_none; [done | apply (supply_le k (Z.to_nat (2 * n + 2) + k)); [lia | done] |].
    intros v' Hv' [_ Ev]. unfold entry. destruct (pgd_offset_user v' Hv') as [Ed _]. rewrite Ed, Ev, E1. by rewrite Hpe.
Qed.
End Loops.
End Copying.
