(* ===== verification/Vm.v ===== *)
(** Address spaces (src/mm/vm.c, src/mm/sbrk.c, src/mm/mmap.c, include/protura/mm/vm.h):
    the maps of a task, filled page by page on a fault, copied by a fork. *)
From stdpp Require Import base numbers list gmap.
From Stdlib Require Import ZArith ZifyBool Lia.
From S2P Require Import Prelude UserMem Palloc PageAlloc PageTable PageCopy.
Open Scope Z_scope.

(** A map has an identity, the address of its structure, by which [code], [data],
    [bss] and [stack] of the address space refer to it.  [file_ops] says that its
    operations are [mmap_file_ops]. *)
Record vm_map : Type := {
  vid : Z; start : Z; end_ : Z; mflags : Z; filp : option Z; file_page_offset : Z; file_ops : bool
}.

Record address_space : Type := {
  vm_maps : list vm_map; page_dir : Z;
  code : option Z; data : option Z; bss : option Z; stack : option Z; brk : Z
}.

Definition vm_map_init (id : Z) : vm_map :=
  {| vid := id; start := 0; end_ := 0; mflags := 0; filp := None; file_page_offset := 0; file_ops := false |}.

Definition with_maps (l : list vm_map) (x : address_space) : address_space :=
  {| vm_maps := l; page_dir := page_dir x; code := code x; data := data x; bss := bss x; stack := stack x; brk := brk x |}.
Definition with_brk (b : Z) (x : address_space) : address_space :=
  {| vm_maps := vm_maps x; page_dir := page_dir x; code := code x; data := data x; bss := bss x; stack := stack x; brk := b |}.
Definition with_bss (id : Z) (x : address_space) : address_space :=
  {| vm_maps := vm_maps x; page_dir := page_dir x; code := code x; data := data x; bss := Some id; stack := stack x; brk := brk x |}.
Definition with_region (s e : Z) (x : vm_map) : vm_map :=
  {| vid := vid x; start := s; end_ := e; mflags := mflags x; filp := filp x; file_page_offset := file_page_offset x; file_ops := file_ops x |}.

Definition find_map (l : list vm_map) (id : Z) : option vm_map := list_find (fun x => vid x = id) l ≫= fun r => Some r.2.

Definition put_map (x : vm_map) (l : list vm_map) : list vm_map := (fun y => if vid y =? vid x then x else y) <$> l.

Definition address_space_vm_map_add (x : address_space) (y : vm_map) : address_space := with_maps (y :: vm_maps x) x.
Definition address_space_vm_map_remove (x : address_space) (id : Z) : address_space :=
  with_maps (filter (fun y => vid y <> id) (vm_maps x)) x.

Definition pages_of (y : vm_map) : Z := u32 (end_ y - start y) / PG_SIZE.

Section Vm.
Context {A : Type} {PA : PageAllocator A}.

(** Memory and the reference counts of open files. *)
Record vm : Type := { mach : machine A; refs : gmap Z Z }.

Definition set_mach (s : machine A) (w : vm) : vm := {| mach := s; refs := refs w |}.
Definition file_dup (f : Z) (w : vm) : vm := {| mach := mach w; refs := alter (fun n => n + 1) f (refs w) |}.
Definition file_drop (f : Z) (w : vm) : vm := {| mach := mach w; refs := alter (fun n => n - 1) f (refs w) |}.

Definition address_space_init (kernel_dir : list Z) (s : machine A) : outcome (address_space * machine A) :=
  '(dir, s) ← page_table_new kernel_dir s;
  Done ({| vm_maps := []; page_dir := dir; code := None; data := None; bss := None; stack := None; brk := 0 |}, s).

(** * Page faults *)

Definition mmap_private_fill_page (s : machine A) (dir : Z) (y : vm_map) (address : Z) : outcome (Z * machine A) :=
  '(p, s) ← pzalloc_pa s;
  if p =? 0 then Done (- ENOSPC, s)
  else s ← page_table_map_entry s dir address p (mflags y) 0; Done (0, s).

(** [pread filp old offset]: the result of [vfs_pread] of a page at [offset] and what
    it leaves in a page that held [old]. *)
Definition mmap_file_fill_page (pread : option Z -> list Z -> Z -> Z * list Z) (s : machine A) (dir : Z) (y : vm_map) (address : Z)
  : outcome (Z * machine A) :=
  '(p, s) ← palloc_pa s;
  if p =? 0 then Done (- ENOSPC, s)
  else
    let address := ALIGN_2_DOWN address PG_SIZE in
    let offset := i32 (address - start y + file_page_offset y) in
    match phys s !! p with
    | None => Fault
    | Some old =>
        let '(err, page) := pread (filp y) old offset in
        s ← set_page s p page;
        if err <? 0 then Done (err, s)
        else s ← page_table_map_entry s dir address p (mflags y) 0; Done (0, s)
    end.

Fixpoint handle_pagefault (pread : option Z -> list Z -> Z -> Z * list Z) (s : machine A) (dir : Z) (l : list vm_map) (address : Z)
  : outcome (Z * machine A) :=
  match l with
  | [] => Done (- EFAULT, s)
  | y :: l' =>
      if (start y <=? address) && (address <? end_ y) then
        if file_ops y then mmap_file_fill_page pread s dir y address else mmap_private_fill_page s dir y address
      else handle_pagefault pread s dir l' address
  end.

Definition address_space_handle_pagefault (pread : option Z -> list Z -> Z -> Z * list Z) (s : machine A) (x : address_space) (address : Z)
  : outcome (Z * machine A) :=
  handle_pagefault pread s (page_dir x) (vm_maps x) address.

(** * Clearing and copying *)

Fixpoint clear_maps (w : vm) (dir : Z) (l : list vm_map) : outcome vm :=
  match l with
  | [] => Done w
  | y :: l' =>
      s ← (if Z.testbit (mflags y) VM_MAP_IGNORE then page_table_zap_range (mach w) dir (start y) (pages_of y)
           else page_table_free_range (mach w) dir (start y) (pages_of y));
      let w := set_mach s w in
      let w := match filp y with Some f => file_drop f w | None => w end in
      clear_maps w dir l'
  end.

Definition address_space_clear (w : vm) (x : address_space) : outcome vm :=
  w ← clear_maps w (page_dir x) (vm_maps x);
  s ← page_table_free (mach w) (page_dir x);
  Done (set_mach s w).

(** [id]: the structure that [kmalloc] gives for the copy. *)
Definition vm_map_copy (w : vm) (new old : Z) (y : vm_map) (id : option Z) : outcome (option vm_map * vm) :=
  if Z.testbit (mflags y) VM_MAP_NOFORK then Done (None, w)
  else
    match id with
    | None => Fault
    | Some id =>
        let pages := pages_of y in
        s ← (if negb (Z.testbit (mflags y) VM_MAP_IGNORE) then
               if Z.testbit (mflags y) VM_MAP_WRITE || negb (bool_decide (is_Some (filp y))) then
                 page_table_copy_range (mach w) new old (start y) pages
               else Done (mach w)
             else page_table_clone_range (mach w) new old (start y) pages);
        let w := set_mach s w in
        let w := match filp y with Some f => file_dup f w | None => w end in
        Done (Some {| vid := id; start := start y; end_ := end_ y; mflags := mflags y; filp := filp y;
                      file_page_offset := match filp y with Some _ => file_page_offset y | None => 0 end; file_ops := file_ops y |}, w)
    end.

(** Which of the pointers of the new address space the copy of [map] becomes. *)
Definition name_map (new old : address_space) (map id : Z) : address_space :=
  if bool_decide (code old = Some map) then
    {| vm_maps := vm_maps new; page_dir := page_dir new; code := Some id; data := data new; bss := bss new; stack := stack new; brk := brk new |}
  else if bool_decide (data old = Some map) then
    {| vm_maps := vm_maps new; page_dir := page_dir new; code := code new; data := Some id; bss := bss new; stack := stack new; brk := brk new |}
  else if bool_decide (stack old = Some map) then
    {| vm_maps := vm_maps new; page_dir := page_dir new; code := code new; data := data new; bss := bss new; stack := Some id; brk := brk new |}
  else if bool_decide (bss old = Some map) then
    {| vm_maps := vm_maps new; page_dir := page_dir new; code := code new; data := data new; bss := Some id; stack := stack new; brk := brk new |}
  else new.

Fixpoint copy_maps (w : vm) (new old : address_space) (l : list vm_map) (ids : list (option Z)) : outcome (address_space * vm) :=
  match l with
  | [] => Done (new, w)
  | y :: l' =>
      '(c, w) ← vm_map_copy w (page_dir new) (page_dir old) y (mjoin (head ids));
      match c with
      | None => copy_maps w new old l' ids
      | Some c => copy_maps w (address_space_vm_map_add (name_map new old (vid y) (vid c)) c) old l' (tail ids)
      end
  end.

Definition address_space_copy (w : vm) (new old : address_space) (ids : list (option Z)) : outcome (address_space * vm) :=
  copy_maps w new old (vm_maps old) ids.

(** * Resizing *)

Definition vm_map_resize_start (s : machine A) (dir : Z) (y : vm_map) (new_start : Z) : outcome (vm_map * machine A) :=
  s ← (if start y <=? new_start then page_table_free_range s dir (start y) ((new_start - start y) / PG_SIZE) else Done s);
  Done (with_region new_start (end_ y) y, s).

Definition vm_map_resize_end (s : machine A) (dir : Z) (y : vm_map) (new_end : Z) : outcome (vm_map * machine A) :=
  s ← (if new_end <=? end_ y then
         let old_pages := (end_ y - new_end) / PG_SIZE in
         if old_pages =? 0 then Done s else page_table_free_range s dir (end_ y - old_pages * PG_SIZE) old_pages
       else Done s);
  Done (with_region (start y) new_end y, s).

Definition vm_map_resize (s : machine A) (dir : Z) (y : vm_map) (new_start new_end : Z) : outcome (vm_map * machine A) :=
  '(y, s) ← (if negb (start y =? new_start) then vm_map_resize_start s dir y new_start else Done (y, s));
  if negb (end_ y =? new_end) then vm_map_resize_end s dir y new_end else Done (y, s).

Definition MMAP_START_ADDRS : Z := 0x80000000.

(** The loop of [address_space_find_region]: the last map passed and the map it stopped at. *)
Fixpoint find_gap (prev : option vm_map) (l : list vm_map) : option vm_map * option vm_map :=
  match l with
  | [] => (prev, None)
  | y :: l' => if MMAP_START_ADDRS <? start y then (prev, Some y) else find_gap (Some y) l'
  end.

Definition address_space_find_region (x : address_space) (size : Z) : outcome (Z + Z * Z) :=
  let size := ALIGN_2 size PG_SIZE in
  let '(prev, map) := find_gap None (vm_maps x) in
  let bottom := match prev with
    | Some p => if MMAP_START_ADDRS <? end_ p then end_ p else MMAP_START_ADDRS
    | None => MMAP_START_ADDRS
    end in
  match map with
  | None => Fault
  | Some m =>
      if size <=? u32 (start m - bottom) then Done (inr (bottom, u32 (bottom + size))) else Done (inl (- ENOMEM))
  end.

(** * The break *)

Definition get_new_bss_start (x : address_space) : outcome Z :=
  match (match data x with Some _ => data x | None => code x end) with
  | Some id => match find_map (vm_maps x) id with Some y => Done (end_ y) | None => Fault end
  | None => Fault
  end.

Definition create_bss (x : address_space) (id : Z) : outcome (vm_map * address_space) :=
  bss_start ← get_new_bss_start x;
  let y := {| vid := id; start := bss_start; end_ := u32 (bss_start + PG_SIZE);
              mflags := Z.lor (2 ^ VM_MAP_WRITE) (2 ^ VM_MAP_READ); filp := None; file_page_offset := 0; file_ops := false |} in
  Done (y, with_brk bss_start (with_bss id (address_space_vm_map_add x y))).

(** The bss of the task, created with the structure [id] when there is none. *)
Definition get_bss (x : address_space) (id : Z) : outcome (vm_map * address_space) :=
  match bss x with
  | None => create_bss x id
  | Some b => match find_map (vm_maps x) b with Some y => Done (y, x) | None => Fault end
  end.

Definition sys_sbrk (s : machine A) (x : address_space) (id increment : Z) : outcome (Z * address_space * machine A) :=
  '(y, x) ← get_bss x id;
  let old := brk x in
  if increment =? 0 then Done (old, x, s)
  else
    let top := ALIGN_2 (u32 (old + increment)) PG_SIZE in
    '(y, s) ← (if end_ y <? top then vm_map_resize s (page_dir x) y (start y) top else Done (y, s));
    Done (old, with_brk (u32 (old + increment)) (with_maps (put_map y (vm_maps x)) x), s).

Definition sys_brk (s : machine A) (x : address_space) (id new_end : Z) : outcome (address_space * machine A) :=
  let new_end_aligned := ALIGN_2 new_end PG_SIZE in
  let x := with_brk new_end x in
  '(y, x) ← get_bss x id;
  '(y, s) ← (if (new_end <=? start y) && (end_ y <? new_end_aligned) then vm_map_resize s (page_dir x) y (start y) new_end_aligned
             else if new_end <? start y then vm_map_resize s (page_dir x) y (start y) (u32 (start y + PG_SIZE))
             else Done (y, s));
  Done (with_maps (put_map y (vm_maps x)) x, s).
End Vm.
Arguments vm A : clear implicits.
