(* ===== verification/VmProps.v ===== *)
(** What address spaces promise: page faults give zeroed pages of their own, a fork gives
    the child copies of the parent's pages, the break moves; and where the code
    does not keep these promises. *)
From stdpp Require Import base numbers list gmap.
From Stdlib Require Import ZArith ZifyBool Lia.
From S2P Require Import Prelude UserMem Palloc PageAlloc PageTable PageCopy Vm.
Open Scope Z_scope.

Section VmProps.
Context {A : Type} {PA : PageAllocator A}.
Implicit Types s : machine A.

(** * Page faults *)

Lemma pzalloc_keeps k s ds :
  spaces_ok s ds -> supply (S k) (alloc s) ->
  exists p s1, pzalloc_pa s = Done (p, s1) /\ supply k (alloc s1) /\ fresh_frame (alloc s) (alloc s1) p /\ spaces_ok s1 ds /\
    phys s1 !! p = Some zeros /\ (forall q, q <> p -> phys s1 !! q = phys s !! q) /\
    (forall q, is_table (phys s1) ds q <-> is_table (phys s) ds q) /\
    (forall d v, d ∈ ds -> user_addr v -> entry (phys s1) d v = entry (phys s) d v).
Proof.
  intros H Hk. destruct (pzalloc_pa_spec k s (so_ram _ _ H) Hk) as (p & m' & a' & E & Hk' & Hf & -> & Hp).
  exists p, {| phys := <[p := zeros]> (phys s); alloc := a' |}. simpl.
  assert (Hnew : forall q, is_table (phys s) ds q -> q <> p) by (intros q Hq ->; by destruct (ff_free _ _ _ Hf); apply (so_alloc _ _ H)).
  assert (Hw : forall q j, is_table (phys s) ds q -> wd (<[p := zeros]> (phys s)) q j = wd (phys s) q j).
  { intros q j Hq. unfold wd. by rewrite lookup_insert_ne by (by apply not_eq_sym, Hnew). }
  assert (Hd : forall d j, d ∈ ds -> 0 <= j -> wd (<[p := zeros]> (phys s)) d j = wd (phys s) d j) by (intros d j Hd _; apply Hw; by left).
  split; [done|]. split; [done|]. split; [done|]. split; [|split; [apply lookup_insert_eq|split; [intros; by apply lookup_insert_ne|split]]].
  - apply (spaces_ok_same s); [done | done | | apply Hf | apply Hf | intros q Hq; by apply (ff_mono _ _ _ Hf), (so_alloc _ _ H)].
    intros q (l & El & Hl). destruct (decide (q = p)) as [->|]; [exists zeros; by rewrite lookup_insert_eq|]. exists l. by rewrite lookup_insert_ne.
  - intros q. by apply is_table_same.
  - intros d v Hd' Hv. unfold entry. destruct (pgd_offset_user v Hv) as [_ Hb]. rewrite Hd by (done || lia).
    destruct (pte_exists _) eqn:He; [|done]. rewrite Hw; [done|]. right. by exists d, (pgd_offset v).
Qed.

Lemma private_fill_spec k s ds d y v :
  spaces_ok s ds -> d ∈ ds -> user_addr v -> supply (S (S k)) (alloc s) ->
  exists s' e, mmap_private_fill_page s d y v = Done (0, s') /\ spaces_ok s' ds /\ supply k (alloc s') /\
    (forall d' v', d' ∈ ds -> user_addr v' -> entry (phys s') d' v' =
       if decide (d' = d /\ v' / PG_SIZE = v / PG_SIZE) then Some e else entry (phys s) d' v') /\
    phys s' !! PAGING_FRAME e = Some zeros /\ ~ allocated (alloc s) (PAGING_FRAME e) /\
    pte_is_user e = true /\ pte_writable e = Z.testbit (mflags y) VM_MAP_WRITE /\
    (forall q, allocated (alloc s) q -> ~ is_table (phys s) ds q -> phys s' !! q = phys s !! q) /\
    allocated (alloc s') (PAGING_FRAME e) /\ ~ is_table (phys s') ds (PAGING_FRAME e) /\
    (forall q, allocated (alloc s) q -> allocated (alloc s') q) /\
    (forall q, is_table (phys s') ds q -> is_table (phys s) ds q \/ ~ allocated (alloc s) q).
Proof.
  intros H Hd Hv Hk. destruct (pzalloc_keeps (S k) s ds H Hk) as (p & s1 & E & Hk1 & Hf & H1 & Hz & Hl & Ht & He).
  unfold mmap_private_fill_page. rewrite E. obind. destruct (Z.eqb_spec p 0); [by destruct (ff_nz _ _ _ Hf)|].
  destruct (map_entry_spec k s1 ds d v p (mflags y) 0 H1 Hd Hv Hk1 (ff_frame _ _ _ Hf)) as (s2 & m' & -> & Hr & Hok & Hent & Hdata & Htab). obind.
  destruct (map_pte_spec p (mflags y) 0 (ff_frame _ _ _ Hf)) as (Pf & _ & Pu & Pw).
  exists {| phys := m'; alloc := alloc s2 |}, (map_pte p (mflags y) 0). rewrite Pf. split; [done|]. split; [done|]. split; [apply Hr|].
  assert (Hpt : ~ is_table (phys s) ds p) by (intros Hx; destruct (ff_free _ _ _ Hf); by apply (so_alloc _ _ H)).
  assert (Hal : allocated (alloc s2) p) by (apply (tr_mono _ _ _ _ _ _ Hr), (ff_alloc _ _ _ Hf)).
  split; [intros; simpl; by rewrite Hent, He|]. split_and!; auto; simpl; try apply Hal.
  - rewrite Hdata; [done | apply Hf | by rewrite Ht].
  - apply Hf.
  - intros q Hq Hn. rewrite Hdata; [|by apply (ff_mono _ _ _ Hf) | by rewrite Ht]. apply Hl. intros ->. by destruct (ff_free _ _ _ Hf).
  - intros Hx. apply Htab in Hx as [Hx|Hx]; [by apply Ht in Hx | apply Hx, Hf].
  - intros q Hq. by apply (tr_mono _ _ _ _ _ _ Hr), (ff_mono _ _ _ Hf).
  - intros q Hq. apply Htab in Hq as [Hq|Hq]; [left; by apply Ht | right]. intros Ha. by apply Hq, (ff_mono _ _ _ Hf).
Qed.

(** The map that a fault at [v] is for. *)
Definition map_at (l : list vm_map) (v : Z) : option vm_map := list_find (fun y => start y <= v < end_ y) l ≫= fun r => Some r.2.

Lemma handle_pagefault_at pread s d l v :
  handle_pagefault pread s d l v =
  match map_at l v with
  | Some y => if file_ops y then mmap_file_fill_page pread s d y v else mmap_private_fill_page s d y v
  | None => Done (- EFAULT, s)
  end.
Proof.
  unfold map_at. induction l as [|y l IH]; [done|]. simpl. destruct (decide (start y <= v < end_ y)).
  - replace ((start y <=? v) && (v <? end_ y)) with true by lia. done.
  - replace ((start y <=? v) && (v <? end_ y)) with false by lia. rewrite IH. by destruct (list_find _ l) as [[]|].
Qed.


(** * The fork *)

Record map_ok (y : vm_map) : Prop := {
  mo_range : 0 <= start y < end_ y /\ end_ y <= KMEM_KBASE;
  mo_start : start y mod PG_SIZE = 0;
  mo_end : end_ y mod PG_SIZE = 0;
}.

Definition one_table (y : vm_map) : Prop := start y / 2 ^ 22 = (end_ y - 1) / 2 ^ 22.
Definition region (y : vm_map) (v : Z) : Prop := start y <= v < end_ y.

(** Whether a fork touches the pages of a map, and whether it makes copies of them. *)
Definition forks (y : vm_map) : bool :=
  negb (Z.testbit (mflags y) VM_MAP_NOFORK) &&
  (Z.testbit (mflags y) VM_MAP_IGNORE || Z.testbit (mflags y) VM_MAP_WRITE || negb (bool_decide (is_Some (filp y)))).
Definition duplicates (y : vm_map) : bool := negb (Z.testbit (mflags y) VM_MAP_IGNORE).

Lemma pages_of_spec y : map_ok y -> start y + pages_of y * PG_SIZE = end_ y /\ 0 < pages_of y.
Proof.
  intros [Hr Hs He]. unfold pages_of, KMEM_KBASE, PG_SIZE in *. rewrite u32_small by lia.
  assert ((end_ y - start y) mod 4096 = 0) by (rewrite Zminus_mod, Hs, He; done). Z.div_mod_to_equations. lia.
Qed.

Lemma in_first_table_region y v : map_ok y -> one_table y -> in_first_table (start y) (pages_of y) v <-> region y v.
Proof.
  intros Hy Ho. destruct (pages_of_spec y Hy) as [E _]. unfold in_first_table, region. rewrite E. destruct Hy as [Hr _ _]. unfold one_table in Ho.
  split; [tauto|]. intros Hv. split; [done|]. pose proof (Z.div_le_mono (start y) v (2 ^ 22)). pose proof (Z.div_le_mono v (end_ y - 1) (2 ^ 22)). lia.
Qed.

Definition need (y : vm_map) : nat := Z.to_nat (2 * pages_of y + 2).

Lemma vm_map_copy_spec k w ds new old y id :
  spaces_ok (mach w) ds -> new ∈ ds -> old ∈ ds -> new <> old -> map_ok y -> one_table y ->
  data_ok (mach w) ds old (fun v => region y v /\ duplicates y = true) -> supply (need y + k) (alloc (mach w)) ->
  exists w', vm_map_copy w new old y (Some id) = Done (if Z.testbit (mflags y) VM_MAP_NOFORK then None
      else Some {| vid := id; start := start y; end_ := end_ y; mflags := mflags y; filp := filp y;
                   file_page_offset := match filp y with Some _ => file_page_offset y | None => 0 end; file_ops := file_ops y |}, w') /\
    copied (fun _ => duplicates y) (mach w) (mach w') ds new old (fun v => region y v /\ forks y = true) k.
Proof.
  intros H Hn Ho Hne Hy H1 Hdata Hk. unfold vm_map_copy, forks, duplicates in *. destruct (pages_of_spec y Hy) as [Ep Hp].
  assert (Hk' : supply k (alloc (mach w))) by (apply (supply_le k (need y + k)); [lia | done]).
  destruct (Z.testbit (mflags y) VM_MAP_NOFORK); [exists w; split; [done|]; apply copied_none; [done | done | by intros v _ [_ ?]]|].
  assert (Hr : forall each fresh, each_spec each fresh -> fresh = negb (Z.testbit (mflags y) VM_MAP_IGNORE) ->
    exists s', copy_range each (mach w) new old (start y) (pages_of y) = Done s' /\
      copied (fun _ => fresh) (mach w) s' ds new old (region y) k).
  { intros each fresh Heach ->. destruct Hy as [Hrg Hst Hen]. destruct (copy_range_spec each _ Heach k (mach w) ds new old (start y) (pages_of y))
      as (s' & E & C); try done; try (unfold user_addr; lia).
    - right. by rewrite Ep.
    - intros v e Hv [HP Hf]. apply Hdata; [done|]. split; [|done]. by apply in_first_table_region.
    - exists s'. split; [done|]. eapply copied_iff; [|by intros|exact C]. intros v Hv. by apply in_first_table_region. }
  destruct (Z.testbit (mflags y) VM_MAP_IGNORE) eqn:Hi; cbn [negb andb orb].
  - destruct (Hr clone_entry false clone_entry_spec eq_refl) as (s' & E & C). unfold page_table_clone_range. rewrite E. obind.
    eexists. split; [reflexivity|]. destruct (filp y); simpl; (eapply copied_iff; [|by intros|exact C]); simpl; tauto.
  - destruct (Z.testbit (mflags y) VM_MAP_WRITE || negb (bool_decide (is_Some (filp y)))).
    + destruct (Hr copy_entry true copy_entry_spec eq_refl) as (s' & E & C). unfold page_table_copy_range. rewrite E. obind.
      eexists. split; [reflexivity|]. destruct (filp y); simpl; (eapply copied_iff; [|by intros|exact C]); simpl; tauto.
    + obind. eexists. split; [reflexivity|]. assert (Hc : copied (fun _ => true) (mach w) (mach w) ds new old (fun v => region y v /\ false = true) k)
        by (apply copied_none; [done | done | by intros v _ [_ ?]]).
      by destruct (filp y); destruct w.
Qed.

(** Whether the map that holds [v] duplicates its pages. *)
Definition duplicated (l : list vm_map) (v : Z) : bool := match map_at l v with Some y => duplicates y | None => false end.

Definition disjoint_maps (l : list vm_map) : Prop :=
  forall i j y z v, l !! i = Some y -> l !! j = Some z -> region y v -> region z v -> i = j.

Lemma map_at_region l y v : disjoint_maps l -> y ∈ l -> region y v -> map_at l v = Some y.
Proof.
  intros Hd Hy Hv. unfold map_at. destruct (list_find_elem_of (fun y => start y <= v < end_ y) l y Hy Hv) as [[i z] E].
  rewrite E. simpl. apply list_find_Some in E as (Ei & Hz & _). apply list_elem_of_lookup in Hy as [j Ej].
  assert (i = j) as -> by (by apply (Hd i j z y v)). congruence.
Qed.

Lemma map_at_elem l v y : map_at l v = Some y -> y ∈ l /\ region y v.
Proof.
  unfold map_at. destruct (list_find _ _) as [[i z]|] eqn:Ef; intros E; simplify_eq/=. apply list_find_Some in Ef as (Ei & Hr & _).
  split; [by apply list_elem_of_lookup_2 in Ei | done].
Qed.

Lemma disjoint_tail y l : disjoint_maps (y :: l) -> disjoint_maps l.
Proof. intros H i j a b v Ha Hb Ra Rb. assert (S i = S j) by (by apply (H (S i) (S j) a b v)). lia. Qed.

(** Two addresses of one page are in the same map. *)
Lemma region_page y v v' : map_ok y -> v / PG_SIZE = v' / PG_SIZE -> region y v -> region y v'.
Proof. intros [Hr Hs He]. unfold region, PG_SIZE in *. Z.div_mod_to_equations. lia. Qed.

Lemma copy_maps_spec k l ids w ds x old :
  spaces_ok (mach w) ds -> page_dir x ∈ ds -> page_dir old ∈ ds -> page_dir x <> page_dir old ->
  (forall y, y ∈ l -> map_ok y /\ one_table y) -> disjoint_maps l -> (length l <= length ids)%nat ->
  data_ok (mach w) ds (page_dir old) (fun v => exists y, y ∈ l /\ region y v /\ duplicates y = true) ->
  supply (sum_list (need <$> l) + k) (alloc (mach w)) ->
  exists x' w', copy_maps w x old l (Some <$> ids) = Done (x', w') /\ page_dir x' = page_dir x /\ brk x' = brk x /\
    copied (duplicated l) (mach w) (mach w') ds (page_dir x) (page_dir old) (fun v => exists y, y ∈ l /\ region y v /\ forks y = true) k.
Proof.
  revert ids w x. induction l as [|y l IH]; intros ids w x H Hn Ho Hne Hl Hdis Hids Hdata Hk.
  - exists x, w. split; [done|]. split; [done|]. split; [done|]. apply copied_none; [done | done |]. intros v _ (y & Hy & _). by apply elem_of_nil in Hy.
  - destruct ids as [|id ids]; [simpl in Hids; lia|]. cbn [copy_maps fmap list_fmap mjoin head tail]. destruct (Hl y) as [Hy H1]; [apply elem_of_cons; auto|].
    destruct (vm_map_copy_spec (sum_list (need <$> l) + k) w ds (page_dir x) (page_dir old) y id) as (w1 & E1 & C1); try done.
    { intros v e Hv [Hr Hd]. apply Hdata; [done|]. exists y. split; [apply elem_of_cons; auto | done]. }
    { simpl in Hk. by rewrite Nat.add_assoc. }
    simpl. rewrite E1. obind.
    set (c := {| vid := id; start := start y; end_ := end_ y; mflags := mflags y; filp := filp y;
      file_page_offset := match filp y with Some _ => file_page_offset y | None => 0 end; file_ops := file_ops y |}) in *.
    assert (Hrest : forall x1 ids1, page_dir x1 = page_dir x -> (length l <= length ids1)%nat -> exists x' w',
      copy_maps w1 x1 old l (Some <$> ids1) = Done (x', w') /\ page_dir x' = page_dir x1 /\ brk x' = brk x1 /\
      copied (duplicated (y :: l)) (mach w) (mach w') ds (page_dir x) (page_dir old) (fun v => exists z, z ∈ y :: l /\ region z v /\ forks z = true) k).
    { intros x1 ids1 Hx1 Hl1. destruct (IH ids1 w1 x1) as (x' & w' & E' & Hd' & Hb' & C'); try (by rewrite Hx1); try apply C1; try done.
      - intros z Hz. apply Hl, elem_of_cons. auto.
      - by apply (disjoint_tail y).
      - apply (data_ok_copied _ _ _ _ _ _ _ _ _ Ho (not_eq_sym Hne)) with (2 := C1). intros v e Hv (z & Hz & Hrz). apply Hdata; [done|].
        exists z. split; [apply elem_of_cons; auto | done].
      - exists x', w'. split; [done|]. split; [done|]. split; [done|]. rewrite Hx1 in C'.
        eapply copied_iff; [| |eapply (copied_trans (duplicated (y :: l)) (mach w) (mach w1) (mach w') ds _ _
          (fun v => region y v /\ forks y = true) (fun v => exists z, z ∈ l /\ region z v /\ forks z = true)); [exact Ho | exact Hn | by apply not_eq_sym | | | |]].
        + intros v Hv. simpl. setoid_rewrite elem_of_cons. naive_solver.
        + done.
        + intros v e Hv [(z & Hz & Hrz & _) Hdup]. apply Hdata; [done|]. exists z. split; [apply elem_of_cons; auto|]. split; [done|].
          unfold duplicated in Hdup. by rewrite (map_at_region _ z v) in Hdup by (done || apply elem_of_cons; auto).
        + intros v1 v2 Hv1 Hv2 [Hr1 _] (z & Hz & Hrz & _) Heq. apply list_elem_of_lookup in Hz as [j Ej].
          apply (region_page y v1 v2) in Hr1; [|done | done]. by pose proof (Hdis 0%nat (S j) y z v2 eq_refl Ej Hr1 Hrz).
        + eapply copied_iff; [| |exact C1]; [intros; reflexivity|]. intros v [Hr _]. unfold duplicated. by rewrite (map_at_region _ y v) by (done || apply elem_of_cons; auto).
        + eapply copied_iff; [| |exact C']; [intros; reflexivity|]. intros v (z & Hz & Hrz & _). unfold duplicated.
          by rewrite !(map_at_region _ z v) by (done || (by apply (disjoint_tail y)) || apply elem_of_cons; auto). }
    destruct (Z.testbit (mflags y) VM_MAP_NOFORK).
    + destruct (Hrest x (id :: ids) eq_refl) as (x' & w' & E' & Hd' & Hb' & C'); [simpl in *; lia|]. exists x', w'. auto.
    + destruct (Hrest (address_space_vm_map_add (name_map x old (vid y) (vid c)) c) ids) as (x' & w' & E' & Hd' & Hb' & C').
      { unfold name_map. by repeat case_bool_decide. }
      { simpl in Hids. lia. }
      exists x', w'. split; [done|]. rewrite Hd', Hb'. unfold name_map. repeat case_bool_decide; done.
Qed.

Definition shape (y : vm_map) : Z * Z * Z * option Z := (start y, end_ y, mflags y, filp y).

(** The child has the maps of the parent that a fork keeps, in the opposite order. *)
Lemma copy_maps_shape l ids w x old x' w' :
  copy_maps w x old l ids = Done (x', w') ->
  shape <$> vm_maps x' = reverse (shape <$> filter (fun y => Z.testbit (mflags y) VM_MAP_NOFORK = false) l) ++ (shape <$> vm_maps x).
Proof.
  revert ids w x. induction l as [|y l IH]; intros ids w x E; cbn [copy_maps] in E; [by injection E as <- <-|].
  apply outcome_bind_done in E as ([c w1] & E1 & E). unfold vm_map_copy in E1. rewrite filter_cons.
  destruct (Z.testbit (mflags y) VM_MAP_NOFORK).
  - injection E1 as <- <-. rewrite decide_False by done. by apply IH in E.
  - rewrite decide_True by done. destruct (mjoin (head ids)) as [id|]; [|done]. apply outcome_bind_done in E1 as (s1 & _ & E1). injection E1 as <- _.
    apply IH in E. rewrite E. rewrite fmap_cons, reverse_cons, <- app_assoc. f_equal. simpl. unfold name_map. by repeat case_bool_decide.
Qed.

(** C18: a fork gives the child its own copy of the parent's memory.  For every user
    address in a map of the parent that is not marked as not to be inherited, and at
    which the parent has a page: if the map is a direct mapping of a device, the
    child has the same page; otherwise, if it is writable or not of a file, a new
    page with the same contents and permissions; and for a read-only map of a file no
    page yet (its first access reads the file again).  At every other user address the
    child has no page.  Nothing the parent sees changes, no two of the child's new
    pages are the same frame, and the child has the parent's maps that are to be
    inherited, with the same ranges, flags and files.  This holds when each map lies
    within one page table (4 MiB aligned; see [fork_drops_second_table] for the
    others), the maps are page aligned and disjoint, the page tables are consistent
    and the parent's pages of data are not used as tables, the child's address space
    is new and empty, the allocations of the map records succeed, and the page
    allocator can supply two pages for each page of the maps and two for each map
    (more than a fork takes): the code checks no allocation of a fork. *)
Theorem fork_copies_memory k w ds x old ids :
  let s := mach w in let new := page_dir x in let par := page_dir old in
  spaces_ok s ds -> new ∈ ds -> par ∈ ds -> new <> par -> vm_maps x = [] ->
  (forall v, user_addr v -> entry (phys s) new v = None) ->
  (forall y, y ∈ vm_maps old -> map_ok y /\ one_table y) -> disjoint_maps (vm_maps old) -> (length (vm_maps old) <= length ids)%nat ->
  data_ok s ds par (fun v => exists y, y ∈ vm_maps old /\ region y v /\ duplicates y = true) ->
  supply (sum_list (need <$> vm_maps old) + k) (alloc s) ->
  exists x' w', let s' := mach w' in
    address_space_copy w x old (Some <$> ids) = Done (x', w') /\ spaces_ok s' ds /\
    (forall v, user_addr v -> entry (phys s') par v = entry (phys s) par v) /\
    (forall q, allocated (alloc s) q -> ~ is_table (phys s) ds q -> phys s' !! q = phys s !! q) /\
    (forall v, user_addr v ->
       match map_at (vm_maps old) v with
       | Some y =>
           match entry (phys s) par v with
           | Some e => if forks y then exists e', entry (phys s') new v = Some e' /\ copy_of (duplicates y) s s' ds e e'
                       else entry (phys s') new v = None
           | None => entry (phys s') new v = None
           end
       | None => entry (phys s') new v = None
       end) /\
    (forall v1 v2 e1 e2, user_addr v1 -> user_addr v2 -> v1 / PG_SIZE <> v2 / PG_SIZE ->
       duplicated (vm_maps old) v1 = true -> duplicated (vm_maps old) v2 = true ->
       entry (phys s') new v1 = Some e1 -> entry (phys s') new v2 = Some e2 -> PAGING_FRAME e1 <> PAGING_FRAME e2) /\
    shape <$> vm_maps x' = reverse (shape <$> filter (fun y => Z.testbit (mflags y) VM_MAP_NOFORK = false) (vm_maps old)).
Proof.
  intros s new par H Hn Ho Hne Hx Hempty Hl Hdis Hids Hdata Hk.
  destruct (copy_maps_spec k (vm_maps old) ids w ds x old H Hn Ho Hne Hl Hdis Hids Hdata Hk) as (x' & w' & E & _ & _ & C).
  fold s new par in C. exists x', w'. split; [done|]. split; [apply C|].
  assert (Hback : forall v e, user_addr v -> entry (phys (mach w')) new v = Some e ->
    exists y, map_at (vm_maps old) v = Some y /\ forks y = true /\ is_Some (entry (phys s) par v) /\ y ∈ vm_maps old /\ region y v).
  { intros v e Hv Ev. destruct (map_at (vm_maps old) v) as [y|] eqn:Ey; destruct (entry (phys s) par v) as [o|] eqn:Eo.
    2-4: rewrite (cp_other _ _ _ _ _ _ _ _ C), Hempty in Ev; [done | done | done | done |].
    2, 4: intros (_ & _ & [o' Eo']); congruence.
    2: { intros (_ & (y & Hy & Hr & _) & _). rewrite (map_at_region _ y v) in Ey; done. }
    pose proof (map_at_elem _ _ _ Ey) as Hy.
    exists y. split; [done|]. split; [|split; [eauto | done]]. destruct (forks y) eqn:Ef; [done|]. rewrite (cp_other _ _ _ _ _ _ _ _ C), Hempty in Ev; try done.
    intros (_ & (z & Hz & Hrz & Hfz) & _). rewrite (map_at_region _ z v) in Ey by done. congruence. }
  split; [|split; [apply C|split; [|split]]].
  - intros v Hv. apply (cp_other _ _ _ _ _ _ _ _ C); [done | done |]. intros [E1 _]. by destruct Hne.
  - intros v Hv. destruct (entry (phys (mach w')) new v) as [e|] eqn:Ev.
    + destruct (Hback v e Hv Ev) as (y & Ey & Hf & [o Eo] & Hy & Hr). rewrite Ey, Eo, Hf.
      destruct (cp_copy _ _ _ _ _ _ _ _ C v o Hv) as (e' & Ee' & Hc); [eauto | done |]. rewrite Ev in Ee'. injection Ee' as <-.
      exists e. split; [done|]. unfold duplicated in Hc. by rewrite Ey in Hc.
    + destruct (map_at (vm_maps old) v) as [y|] eqn:Ey; [|done]. destruct (entry (phys s) par v) as [o|] eqn:Eo; [|done].
      destruct (forks y) eqn:Hf; [|done]. pose proof (map_at_elem _ _ _ Ey) as Hy.
      destruct (cp_copy _ _ _ _ _ _ _ _ C v o Hv) as (e' & Ee' & _); [|done | congruence]. exists y. tauto.
  - intros v1 v2 e1 e2 Hv1 Hv2 Hpg D1 D2 E1 E2. destruct (Hback v1 e1 Hv1 E1) as (y1 & _ & F1 & S1 & M1 & R1).
    destruct (Hback v2 e2 Hv2 E2) as (y2 & _ & F2 & S2 & M2 & R2).
    apply (cp_distinct _ _ _ _ _ _ _ _ C v1 v2); eauto.
  - apply copy_maps_shape in E. by rewrite Hx, app_nil_r in E.
Qed.

(** a defect.  The loops of [page_table_copy_range] (and of
    [page_table_clear_range]) do not go back to entry 0 when they reach the next page
    table: of a map that crosses a 4 MiB boundary only the part in the first table is
    copied by a fork.  Where the parent has data behind the boundary the child has
    no page, and its first access there gives it a page of zeros. *)
Theorem fork_drops_second_table k pread w ds x old y id v e0 e :
  let s := mach w in let new := page_dir x in let par := page_dir old in
  spaces_ok s ds -> new ∈ ds -> par ∈ ds -> new <> par -> vm_maps x = [] -> entry (phys s) new v = None ->
  vm_maps old = [y] -> map_ok y -> Z.testbit (mflags y) VM_MAP_WRITE = true ->
  Z.testbit (mflags y) VM_MAP_NOFORK = false -> Z.testbit (mflags y) VM_MAP_IGNORE = false -> file_ops y = false ->
  data_ok s ds par (region y) -> supply (need y + (2 + k)) (alloc s) ->
  entry (phys s) par (start y) = Some e0 -> region y v -> v / 2 ^ 22 <> start y / 2 ^ 22 -> entry (phys s) par v = Some e ->
  exists x' w' s2 e2, address_space_copy w x old [Some id] = Done (x', w') /\ entry (phys (mach w')) new v = None /\
    address_space_handle_pagefault pread (mach w') x' v = Done (0, s2) /\
    entry (phys s2) new v = Some e2 /\ phys s2 !! PAGING_FRAME e2 = Some zeros.
Proof.
  intros s new par H Hn Ho Hne Hx Hempty Hold Hy HW HF HI Hops Hdata Hk E0 Hv Hcross _. destruct (pages_of_spec y Hy) as [Ep Hp].
  assert (Hu : user_addr v) by (destruct Hy as [Hr _ _]; unfold region, user_addr in *; lia).
  destruct (copy_range_spec copy_entry true copy_entry_spec (2 + k) s ds new par (start y) (pages_of y)) as (s' & E & C); try done; try apply Hy.
  - destruct Hy as [Hr _ _]. unfold user_addr. lia.
  - lia.
  - rewrite Ep. apply Hy.
  - left. unfold entry in E0. by destruct (pte_exists (wd (phys s) par (pgd_offset (start y)))).
  - intros v' e' Hv' [[Hr _] _]. apply Hdata; [done|]. unfold region. by rewrite <- Ep.
  - assert (Hent : entry (phys s') new v = None).
    { rewrite (cp_other _ _ _ _ _ _ _ _ C); [done | done | done |]. intros (_ & [_ Hsame] & _). done. }
    set (w1 := match filp y with Some f => file_dup f (set_mach s' w) | None => set_mach s' w end).
    assert (Hm1 : mach w1 = s') by (unfold w1; by destruct (filp y)).
    unfold address_space_copy. rewrite Hold. cbn [copy_maps head mjoin option_join]. unfold vm_map_copy. rewrite HF, HI, HW. cbn [negb orb].
    unfold page_table_copy_range. fold new par s. rewrite E. obind. fold w1. set (c := {| vid := id |}). simpl.
    set (x1 := address_space_vm_map_add (name_map x old (vid y) id) c).
    assert (Hx1 : page_dir x1 = new /\ vm_maps x1 = [c]) by (unfold x1, name_map, address_space_vm_map_add; repeat case_bool_decide; simpl; by rewrite Hx).
    destruct Hx1 as [Hd1 Hl1]. assert (Hat : map_at (vm_maps x1) v = Some c).
    { rewrite Hl1. apply map_at_region; [|by apply list_elem_of_singleton | exact Hv].
      intros i j a b u Ha Hb _ _. apply list_lookup_singleton_Some in Ha as [-> _], Hb as [-> _]. done. }
    destruct (private_fill_spec k s' ds new c v (cp_ok _ _ _ _ _ _ _ _ C) Hn Hu (cp_supply _ _ _ _ _ _ _ _ C)) as (s2 & e2 & E2 & _ & _ & Hent2 & Hz & _).
    exists x1, w1, s2, e2. split; [done|]. rewrite Hm1. split; [done|].
    unfold address_space_handle_pagefault. rewrite handle_pagefault_at, Hat, Hd1. cbn [file_ops c]. rewrite Hops. split; [done|].
    rewrite Hent2 by done. rewrite decide_True by done. done.
Qed.

(** * The break *)

Lemma find_map_cons y l b : find_map (y :: l) b = if vid y =? b then Some y else find_map l b.
Proof.
  unfold find_map. simpl. destruct (decide (vid y = b)), (Z.eqb_spec (vid y) b); try done. by destruct (list_find _ l) as [[]|].
Qed.

Lemma find_map_vid y l b : find_map l b = Some y -> vid y = b.
Proof.
  induction l as [|x l IH]; [done|]. rewrite find_map_cons. destruct (Z.eqb_spec (vid x) b); [by intros [= <-] | done].
Qed.

Lemma find_put z l b : find_map (put_map z l) b = if vid z =? b then (fun _ => z) <$> find_map l b else find_map l b.
Proof.
  induction l as [|y l IH]; [by destruct (vid z =? b)|]. cbn [put_map fmap list_fmap]. rewrite !find_map_cons. fold (put_map z l). rewrite IH.
  destruct (Z.eqb_spec (vid y) (vid z)), (Z.eqb_spec (vid z) b), (Z.eqb_spec (vid y) b); congruence || done.
Qed.

Lemma align_up z : 0 <= z -> z <= 2 ^ 32 - PG_SIZE ->
  z <= ALIGN_2 z PG_SIZE /\ ALIGN_2 z PG_SIZE < z + PG_SIZE /\ ALIGN_2 z PG_SIZE mod PG_SIZE = 0.
Proof.
  intros H0 H1. unfold ALIGN_2, PG_SIZE in *. rewrite u32_small by lia. change (4096 - 1) with (Z.ones 12).
  rewrite <- Z.ldiff_land, Z.ldiff_ones_r, Z.shiftr_div_pow2, Z.shiftl_mul_pow2 by lia. change (2 ^ 12) with 4096. split_and!; [| |by apply Z.mod_mul];
  Z.div_mod_to_equations; lia.
Qed.

(** [sbrk] with a positive increment returns the old break and moves it by the
    increment; the bss is extended to a page boundary at or above the new break, its
    start, the other maps and memory are not changed. *)
Theorem sbrk_moves_break s x id b y increment :
  bss x = Some b -> find_map (vm_maps x) b = Some y -> 0 < increment -> 0 <= brk x -> brk x + increment <= 2 ^ 32 - PG_SIZE ->
  exists x' y', sys_sbrk s x id increment = Done (brk x, x', s) /\ brk x' = brk x + increment /\
    bss x' = Some b /\ find_map (vm_maps x') b = Some y' /\ start y' = start y /\ mflags y' = mflags y /\
    end_ y' = Z.max (end_ y) (ALIGN_2 (brk x + increment) PG_SIZE) /\ brk x' <= end_ y' /\
    (forall c, c <> b -> find_map (vm_maps x') c = find_map (vm_maps x) c).
Proof.
  intros Hb Hf Hi H0 H1. pose proof (find_map_vid _ _ _ Hf) as Hid. destruct (align_up (brk x + increment) ltac:(lia) H1) as (A1 & A2 & _).
  unfold sys_sbrk, get_bss. rewrite Hb, Hf. obind. destruct (Z.eqb_spec increment 0); [lia|].
  rewrite (u32_small (brk x + increment)) by (unfold PG_SIZE in *; lia). set (top := ALIGN_2 (brk x + increment) PG_SIZE) in *.
  set (y' := with_region (start y) (Z.max (end_ y) top) y).
  assert (Hstep : (if end_ y <? top then vm_map_resize s (page_dir x) y (start y) top else Done (y, s)) = Done (y', s)).
  { destruct (Z.ltb_spec (end_ y) top).
    - unfold vm_map_resize. rewrite Z.eqb_refl. cbn [negb]. obind. destruct (Z.eqb_spec (end_ y) top); [lia|]. cbn [negb].
      unfold vm_map_resize_end. destruct (Z.leb_spec top (end_ y)); [lia|]. obind. unfold y'. by rewrite Z.max_r by lia.
    - unfold y', with_region. rewrite Z.max_l by lia. by destruct y. }
  rewrite Hstep. obind. eexists _, y'. split; [done|]. simpl. split; [done|]. split; [done|]. rewrite find_put, Hf. simpl. rewrite Hid, Z.eqb_refl.
  split; [done|]. split_and!; try done; [lia|]. intros c Hc. rewrite find_put. simpl. rewrite Hid. by destruct (Z.eqb_spec b c).
Qed.

(** a defect.  [sys_brk] extends the bss only when the new break is at or below
    the start of the bss: a break above it is recorded but the bss keeps its size, so
    the memory up to the new break is never there. *)
Theorem brk_never_grows s x id b y new_end :
  bss x = Some b -> find_map (vm_maps x) b = Some y -> start y < new_end ->
  exists x', sys_brk s x id new_end = Done (x', s) /\ brk x' = new_end /\ find_map (vm_maps x') b = Some y.
Proof.
  intros Hb Hf Hs. unfold sys_brk, get_bss. simpl. rewrite Hb, Hf. obind.
  destruct (Z.leb_spec new_end (start y)); [lia|]. destruct (Z.ltb_spec new_end (start y)); [lia|]. cbn [andb]. obind.
  eexists. split; [done|]. split; [done|]. simpl. rewrite find_put, Hf, (find_map_vid _ _ _ Hf), Z.eqb_refl. done.
Qed.

(** The maps of an address space that [bss] can refer to. *)
Definition bss_known (x : address_space) : Prop := exists b, bss x = Some b /\ is_Some (find_map (vm_maps x) b).

Lemma copy_maps_bss l ids w x old x' w' :
  copy_maps w x old l ids = Done (x', w') ->
  bss_known x \/ (exists y, y ∈ l /\ bss old = Some (vid y) /\ code old <> Some (vid y) /\ data old <> Some (vid y) /\ stack old <> Some (vid y) /\
                   Z.testbit (mflags y) VM_MAP_NOFORK = false) ->
  bss_known x' /\ brk x' = brk x.
Proof.
  revert ids w x. induction l as [|y l IH]; intros ids w x E Hk; cbn [copy_maps] in E.
  - injection E as <- <-. destruct Hk as [|(y & Hy & _)]; [done|]. by apply elem_of_nil in Hy.
  - apply outcome_bind_done in E as ([c w1] & E1 & E). unfold vm_map_copy in E1. destruct (Z.testbit (mflags y) VM_MAP_NOFORK) eqn:HF.
    + injection E1 as <- <-. apply IH in E; [done|]. destruct Hk as [|(z & Hz & Hr)]; [by left|]. right. exists z.
      apply elem_of_cons in Hz as [->|]; [|done]. destruct Hr as (_ & _ & _ & _ & Hr). congruence.
    + destruct (mjoin (head ids)) as [id|]; [|done]. apply outcome_bind_done in E1 as (s1 & _ & E1). injection E1 as <- _. simpl in E.
      assert (Hb : brk (name_map x old (vid y) id) = brk x) by (unfold name_map; by repeat case_bool_decide).
      apply IH in E; [simpl in E; by rewrite Hb in E|].
      destruct Hk as [(b & Eb & Hb')|(z & Hz & Hc & H1 & H2 & H3 & H4)].
      * left. unfold name_map. repeat case_bool_decide; first [exists id; simpl; split; [done|]; rewrite find_map_cons; simpl; rewrite Z.eqb_refl; by eexists |
          exists b; simpl; split; [done|]; rewrite find_map_cons; destruct (_ =? _); [by eexists | done]].
      * apply elem_of_cons in Hz as [->|Hz]; [|right; by exists z]. left. unfold name_map.
        rewrite !bool_decide_eq_false_2 by done. rewrite bool_decide_eq_true_2 by done. exists id. simpl. split; [done|]. rewrite find_map_cons. simpl.
        rewrite Z.eqb_refl. by eexists.
Qed.

(** a defect.  A fork copies the bss but not the break: in the child, whose address
    space was new (break 0), [sbrk(0)] answers 0 instead of the parent's break. *)
Theorem fork_loses_break w x old ids x' w' y id :
  brk x = 0 -> address_space_copy w x old ids = Done (x', w') ->
  y ∈ vm_maps old -> bss old = Some (vid y) -> code old <> Some (vid y) -> data old <> Some (vid y) -> stack old <> Some (vid y) ->
  Z.testbit (mflags y) VM_MAP_NOFORK = false ->
  sys_sbrk (mach w') x' id 0 = Done (0, x', mach w').
Proof.
  intros H0 E Hy Hb Hc Hd Hs HF. apply copy_maps_bss in E as [(b & Eb & [z Ez]) Ebrk]; [|right; by exists y].
  unfold sys_sbrk, get_bss. rewrite Eb, Ez. obind. rewrite Ebrk, H0. done.
Qed.

(** * A new address space *)

Definition kernel_dir_ok (kd : list Z) : Prop :=
  length kd = 1024%nat /\ (forall i, 0 <= i < 768 -> nth (Z.to_nat i) kd 0 = 0) /\ pte_exists (nth 768 kd 0) = true.

Lemma address_space_init_spec k kd s ds :
  spaces_ok s ds -> kernel_dir_ok kd -> supply (S k) (alloc s) ->
  exists x s', address_space_init kd s = Done (x, s') /\ spaces_ok s' (page_dir x :: ds) /\ (page_dir x ∉ ds) /\ supply k (alloc s') /\
    vm_maps x = [] /\ brk x = 0 /\ bss x = None /\
    (forall v, user_addr v -> entry (phys s') (page_dir x) v = None) /\
    (forall d v, d ∈ ds -> user_addr v -> entry (phys s') d v = entry (phys s) d v) /\
    (forall q, allocated (alloc s) q -> allocated (alloc s') q /\ phys s' !! q = phys s !! q /\ q <> page_dir x) /\
    (forall q, is_table (phys s') (page_dir x :: ds) q <-> is_table (phys s) ds q \/ q = page_dir x).
Proof.
  intros H (Hlen & Hz & Hker) Hk. destruct (palloc_pa_spec k s (proj1 (so_ram _ _ H)) Hk) as (f & a' & E & Hk' & Hf).
  unfold address_space_init, page_table_new. rewrite E. obind. destruct (Z.eqb_spec f 0); [by destruct (ff_nz _ _ _ Hf)|].
  assert (Hpf : page_ok (phys s) f).
  { destruct (ff_alloc _ _ _ Hf) as [Hb _]. destruct (block_frame _ _ Hb) as (E1 & _ & _). replace f with (V2P (f + KMEM_KBASE)) by lia.
    apply (so_ram _ _ H). by apply (ff_valid _ _ _ Hf). }
  unfold set_page. destruct Hpf as (pf & Epf & _). simpl. rewrite Epf. obind.
  assert (Hnew : forall q, allocated (alloc s) q -> q <> f) by (intros q Hq ->; by destruct (ff_free _ _ _ Hf)).
  assert (Hphys : forall q, allocated (alloc s) q -> <[f := kd]> (phys s) !! q = phys s !! q) by (intros; rewrite lookup_insert_ne; [done | by apply not_eq_sym, Hnew]).
  assert (Hwd : forall q j, is_table (phys s) ds q -> wd (<[f := kd]> (phys s)) q j = wd (phys s) q j).
  { intros q j Hq. unfold wd. by rewrite Hphys by (by apply (so_alloc _ _ H)). }
  assert (Hwf : forall j, wd (<[f := kd]> (phys s)) f j = nth (Z.to_nat j) kd 0) by (intros; unfold wd; by rewrite lookup_insert_eq).
  assert (Hdir : forall d i, d ∈ f :: ds -> 0 <= i < 768 -> pte_exists (wd (<[f := kd]> (phys s)) d i) = true -> d ∈ ds /\ pte_exists (wd (phys s) d i) = true).
  { intros d i Hd Hi He. apply elem_of_cons in Hd as [->|Hd]; [by rewrite Hwf, Hz in He|]. rewrite Hwd in He; [done | by left]. }
  assert (Htab : forall q, is_table (<[f := kd]> (phys s)) (f :: ds) q <-> is_table (phys s) ds q \/ q = f).
  { intros q. unfold is_table at 1. rewrite elem_of_cons. split.
    - intros [[->|Hq]|(d & i & Hd & Hi & He & Ef)]; [by right | left; by left |]. destruct (Hdir d i Hd Hi He) as [Hd' He']. left. right. exists d, i.
      rewrite Hwd in Ef by (by left). done.
    - intros [[Hq|(d & i & Hd & Hi & He & Ef)]| ->]; [auto | | auto]. right. exists d, i. rewrite elem_of_cons, Hwd by (by left). auto. }
  eexists _, _. split; [reflexivity|]. simpl.
  assert (Hfn : f ∉ ds) by (intros Hin; destruct (ff_free _ _ _ Hf); apply (so_alloc _ _ H); by left).
  split; [|split_and!; auto].
  - split; simpl.
    + split; [apply Hf|]. intros va Hb. apply (ff_valid _ _ _ Hf), (so_ram _ _ H) in Hb as (p & Ep & Hl). simpl.
      destruct (decide (V2P va = f)) as [->|]; [exists kd; by rewrite lookup_insert_eq|]. exists p. by rewrite lookup_insert_ne.
    + intros q Hq. apply Htab in Hq as [Hq| ->]; [by apply (ff_mono _ _ _ Hf), (so_alloc _ _ H) | apply Hf].
    + intros d i Hd Hi He. destruct (Hdir d i Hd Hi He) as [Hd' He']. rewrite Hwd by (by left). apply not_elem_of_cons.
      split; [|by apply (so_dir _ _ H)]. apply Hnew, (so_alloc _ _ H). right. by exists d, i.
    + intros d i d' i' Hd Hi He Hd' Hi' He'. destruct (Hdir d i Hd Hi He) as [Hd1 He1]. destruct (Hdir d' i' Hd' Hi' He') as [Hd2 He2].
      rewrite !Hwd by (by left). by apply (so_inj _ _ H).
    + intros d Hd. apply elem_of_cons in Hd as [->|Hd]; [by rewrite Hwf|]. rewrite Hwd by (by left). by apply (so_kernel _ _ H).
  - intros v Hv. unfold entry. destruct (pgd_offset_user v Hv) as [_ Hb]. by rewrite Hwf, Hz.
  - intros d v Hd Hv. unfold entry. rewrite Hwd by (by left). destruct (pgd_offset_user v Hv) as [_ Hb].
    destruct (pte_exists (wd (phys s) d (pgd_offset v))) eqn:He; [|done]. rewrite Hwd; [done|]. right. exists d, (pgd_offset v). auto.
  - intros q Hq. split; [by apply (ff_mono _ _ _ Hf) | auto].
Qed.
End VmProps.

(** * Examples on a machine with 64 pages *)

#[local] Instance demo_pages : PageAllocator page_buddy_alloc := buddy_page_allocator 0 0.

(** The first page of the memory is in use. *)
Definition demo_alloc : page_buddy_alloc := match palloc_va example_alloc 0 0 with Done (_, a) => a | _ => example_alloc end.

Lemma demo_alloc_ok : pages_ok demo_alloc /\ forall v o, block_valid demo_alloc v o <-> block_valid example_alloc v o.
Proof.
  unfold demo_alloc. destruct (palloc_va example_alloc 0 0) as [[va a]| |] eqn:E; try (split; [exact example_alloc_ok | intros; reflexivity]).
  destruct (@palloc_va_spec _ demo_pages example_alloc 0 0 va a example_alloc_ok ltac:(lia) E) as (H1 & H2 & _). exact (conj H1 H2).
Qed.

#[local] Opaque demo_alloc.

Definition demo_ram : machine page_buddy_alloc :=
  {| phys := list_to_map ((fun i => (4096 * i, zeros)) <$> seqZ 0 64); alloc := demo_alloc |}.

Lemma demo_ram_ok : spaces_ok demo_ram [].
Proof.
  destruct demo_alloc_ok as [Hok Hv]. split; [split; [exact Hok|] | | | |].
  - intros va Hb. destruct (proj1 (Hv va 0) Hb) as (p & k & Hk & _ & -> & H0 & _ & Hp & _). assert (k = 0%nat) as -> by lia. change (blk 0) with 1 in Hp. change (npages example_alloc) with 64 in Hp.
    exists zeros. split; [|done]. unfold V2P. replace (KMEM_KBASE + PG_SIZE * p - KMEM_KBASE) with (4096 * p) by (unfold PG_SIZE; lia). rewrite u32_small by lia.
    apply elem_of_list_to_map_1.
    + rewrite <- list_fmap_compose. apply NoDup_fmap_2_strong; [|apply NoDup_seqZ]. intros i j _ _ Hij. simpl in Hij. lia.
    + apply list_elem_of_fmap. exists p. split; [done|]. apply elem_of_seqZ. lia.
  - by intros f [?%elem_of_nil|(d & i & ?%elem_of_nil & _)].
  - by intros d i ?%elem_of_nil.
  - by intros d i d' i' ?%elem_of_nil.
  - by intros d ?%elem_of_nil.
Qed.

Definition demo_kernel : list Z := replicate 768 0 ++ replicate 256 1.

Lemma demo_kernel_ok : kernel_dir_ok demo_kernel.
Proof.
  split; [reflexivity|]. split; [|reflexivity]. intros i Hi. unfold demo_kernel. rewrite app_nth1 by (rewrite length_replicate; lia). apply nth_zeros.
Qed.

(** A task whose only map is [y], with a page at both ends of it, and a new address space. *)
Lemma demo_spaces y : map_ok y -> start y + PG_SIZE < end_ y ->
  exists (s : machine page_buddy_alloc) ds x old e0 e1, spaces_ok s ds /\ page_dir x ∈ ds /\ page_dir old ∈ ds /\ page_dir x <> page_dir old /\
    vm_maps x = [] /\ brk x = 0 /\ vm_maps old = [y] /\ bss old = Some (vid y) /\ code old = None /\ data old = None /\ stack old = None /\
    (forall v, user_addr v -> entry (phys s) (page_dir x) v = None) /\
    supply 20 (alloc s) /\ entry (phys s) (page_dir old) (start y) = Some e0 /\ entry (phys s) (page_dir old) (end_ y - PG_SIZE) = Some e1 /\
    data_ok s ds (page_dir old) (fun _ => True).
Proof.
  intros Hy H2. assert (Hs26 : supply 26 (alloc demo_ram)) by (apply supplies_supply; vm_compute; reflexivity).
  destruct (address_space_init_spec 25 demo_kernel demo_ram [] demo_ram_ok demo_kernel_ok Hs26)
    as (old & s1 & _ & H1 & _ & S1 & _ & _ & _ & N1 & _).
  destruct (address_space_init_spec 24 demo_kernel s1 [page_dir old] H1 demo_kernel_ok S1)
    as (x & s2 & _ & H2' & Hx & S2 & Mx & Bx & _ & N2 & K2 & _ & _).
  set (ds := [page_dir x; page_dir old]) in *. assert (Hnx : page_dir x <> page_dir old) by (intros E; apply Hx; rewrite E; apply elem_of_cons; auto).
  assert (Hin : page_dir x ∈ ds /\ page_dir old ∈ ds) by (unfold ds; rewrite !elem_of_cons; auto). destruct Hin as [Hix Hio].
  destruct Hy as [Hr Hst Hen]. assert (U0 : user_addr (start y)) by (unfold user_addr; lia). assert (U1 : user_addr (end_ y - PG_SIZE)) by (unfold user_addr, PG_SIZE in *; lia).
  assert (Hpg : (end_ y - PG_SIZE) / PG_SIZE <> start y / PG_SIZE) by (unfold PG_SIZE in *; Z.div_mod_to_equations; lia).
  destruct (private_fill_spec 22 s2 ds (page_dir old) y (start y) H2' Hio U0 S2)
    as (s3 & e0 & _ & H3 & S3 & E3 & _ & _ & _ & _ & _ & A3 & T3 & _).
  destruct (private_fill_spec 20 s3 ds (page_dir old) y (end_ y - PG_SIZE) H3 Hio U1 S3)
    as (s4 & e1 & _ & H4 & S4 & E4 & _ & _ & _ & _ & _ & A4 & T4 & M4 & B4).
  exists s4, ds, x, {| vm_maps := [y]; page_dir := page_dir old; code := None; data := None; bss := Some (vid y); stack := None; brk := 0 |}, e0, e1.
  assert (Eo : forall v, user_addr v -> entry (phys s4) (page_dir old) v =
    if decide (v / PG_SIZE = (end_ y - PG_SIZE) / PG_SIZE) then Some e1 else if decide (v / PG_SIZE = start y / PG_SIZE) then Some e0 else None).
  { intros v Hv. rewrite E4, E3, K2, N1 by (done || apply elem_of_cons; auto). decides; tauto. }
  simpl. split_and!; try done.
  - intros v Hv. rewrite E4, E3, N2 by done. decides; naive_solver.
  - rewrite Eo by done. decides; [by destruct Hpg | done | done].
  - rewrite Eo by done. decides; done.
  - intros v e Hv _. rewrite Eo by done. decides; intros [= <-]; [done | split; [by apply M4|]].
    intros Ht. apply B4 in Ht as [|]; done.
Qed.

(** Three pages in one page table, and two pages around a 4 MiB boundary. *)
Definition demo_map : vm_map :=
  {| vid := 1; start := 0x400000; end_ := 0x403000; mflags := 3; filp := None; file_page_offset := 0; file_ops := false |}.
Definition crossing_map : vm_map :=
  {| vid := 1; start := 0x7FF000; end_ := 0x801000; mflags := 3; filp := None; file_page_offset := 0; file_ops := false |}.

Lemma demo_map_ok : map_ok demo_map.
Proof. split; [unfold KMEM_KBASE; simpl; lia | reflexivity | reflexivity]. Qed.

Lemma crossing_map_ok : map_ok crossing_map.
Proof. split; [unfold KMEM_KBASE; simpl; lia | reflexivity | reflexivity]. Qed.

Lemma single_disjoint y : disjoint_maps [y].
Proof. intros i j a b u Ha Hb _ _. apply list_lookup_singleton_Some in Ha as [-> _], Hb as [-> _]. done. Qed.


Lemma fork_copies_memory_witness :
  exists (w w' : vm page_buddy_alloc) x old x' e e', address_space_copy w x old [Some 7] = Done (x', w') /\
    entry (phys (mach w)) (page_dir old) 0x400000 = Some e /\ entry (phys (mach w')) (page_dir x) 0x400000 = Some e' /\
    PAGING_FRAME e' <> PAGING_FRAME e /\ phys (mach w') !! PAGING_FRAME e' = phys (mach w) !! PAGING_FRAME e.
Proof.
  destruct (demo_spaces demo_map demo_map_ok ltac:(unfold PG_SIZE; simpl; lia))
    as (s & ds & x & old & e0 & e1 & H & Hx & Ho & Hne & Mx & _ & Mo & _ & _ & _ & _ & Hnone & Hs & E0 & _ & Hd).
  assert (U : user_addr 0x400000) by (unfold user_addr, KMEM_KBASE; lia).
  destruct (fork_copies_memory 12 {| mach := s; refs := ∅ |} ds x old [7]) as (x' & w' & E & _ & _ & _ & Hc & _).
  - exact H.
  - exact Hx.
  - exact Ho.
  - exact Hne.
  - exact Mx.
  - exact Hnone.
  - rewrite Mo. intros y ->%list_elem_of_singleton. split; [exact demo_map_ok | reflexivity].
  - rewrite Mo. apply single_disjoint.
  - rewrite Mo. simpl. lia.
  - intros v e Hv _. by apply Hd.
  - rewrite Mo. exact Hs.
  - specialize (Hc 0x400000 U). rewrite Mo in Hc. change (map_at [demo_map] 0x400000) with (Some demo_map) in Hc. simpl in Hc, E0. rewrite E0 in Hc.
    destruct Hc as (e' & Ee & Hcp). exists {| mach := s; refs := ∅ |}, w', x, old, x', e0, e'. split; [exact E|]. split; [exact E0|]. split; [exact Ee|].
    destruct Hcp as (_ & _ & _ & Hn & _ & Hph). split; [|exact Hph]. intros Eq. rewrite Eq in Hn. apply Hn. by apply (Hd 0x400000 e0).
Defined.

Lemma fork_drops_second_table_witness :
  exists (w w' : vm page_buddy_alloc) x old x' e s2 e2, address_space_copy w x old [Some 7] = Done (x', w') /\
    entry (phys (mach w)) (page_dir old) 0x800000 = Some e /\ entry (phys (mach w')) (page_dir x) 0x800000 = None /\
    address_space_handle_pagefault (fun _ p _ => (0, p)) (mach w') x' 0x800000 = Done (0, s2) /\
    entry (phys s2) (page_dir x) 0x800000 = Some e2 /\ phys s2 !! PAGING_FRAME e2 = Some zeros.
Proof.
  destruct (demo_spaces crossing_map crossing_map_ok ltac:(unfold PG_SIZE; simpl; lia))
    as (s & ds & x & old & e0 & e1 & H & Hx & Ho & Hne & Mx & _ & Mo & _ & _ & _ & _ & Hnone & Hs & E0 & E1 & Hd).
  assert (U : user_addr 0x800000) by (unfold user_addr, KMEM_KBASE; lia).
  destruct (fork_drops_second_table 12 (fun _ p _ => (0, p)) {| mach := s; refs := ∅ |} ds x old crossing_map 7 0x800000 e0 e1)
    as (x' & w' & s2 & e2 & C1 & C2 & C3 & C4 & C5).
  - exact H.
  - exact Hx.
  - exact Ho.
  - exact Hne.
  - exact Mx.
  - exact (Hnone _ U).
  - exact Mo.
  - exact crossing_map_ok.
  - reflexivity.
  - reflexivity.
  - reflexivity.
  - reflexivity.
  - intros v e Hv _. by apply Hd.
  - exact Hs.
  - exact E0.
  - unfold region. simpl. lia.
  - vm_compute. discriminate.
  - exact E1.
  - exists {| mach := s; refs := ∅ |}, w', x, old, x', e1, s2, e2. auto 10.
Defined.

Lemma sbrk_moves_break_witness :
  exists x' y', sys_sbrk demo_ram {| vm_maps := [demo_map]; page_dir := 0; code := None; data := None; bss := Some 1; stack := None; brk := 0x402800 |} 9 0x1000 =
      Done (0x402800, x', demo_ram) /\ brk x' = 0x403800 /\ find_map (vm_maps x') 1 = Some y' /\ end_ y' = 0x404000.
Proof.
  destruct (sbrk_moves_break demo_ram {| vm_maps := [demo_map]; page_dir := 0; code := None; data := None; bss := Some 1; stack := None; brk := 0x402800 |}
    9 1 demo_map 0x1000) as (x' & y' & E & Hb & _ & Hf & _ & _ & He & _);
    [reflexivity | reflexivity | lia | simpl; lia | unfold PG_SIZE; simpl; lia |].
  exists x', y'. split; [exact E|]. split; [exact Hb|]. split; [exact Hf | rewrite He; vm_compute; reflexivity].
Defined.

Lemma brk_never_grows_witness :
  exists x', sys_brk demo_ram {| vm_maps := [demo_map]; page_dir := 0; code := None; data := None; bss := Some 1; stack := None; brk := 0x402800 |} 9 0x500000 =
      Done (x', demo_ram) /\ brk x' = 0x500000 /\ find_map (vm_maps x') 1 = Some demo_map.
Proof.
  apply (brk_never_grows demo_ram {| vm_maps := [demo_map]; page_dir := 0; code := None; data := None; bss := Some 1; stack := None; brk := 0x402800 |}
    9 1 demo_map 0x500000); [reflexivity | reflexivity | simpl; lia].
Defined.

Lemma fork_loses_break_witness :
  exists (w w' : vm page_buddy_alloc) x old x', brk old = 0x402800 /\ address_space_copy w x old [Some 7] = Done (x', w') /\
    sys_sbrk (mach w') x' 9 0 = Done (0, x', mach w').
Proof.
  destruct (demo_spaces demo_map demo_map_ok ltac:(unfold PG_SIZE; simpl; lia))
    as (s & ds & x & old & e0 & e1 & H & Hx & Ho & Hne & Mx & Bx & Mo & Bo & Co & Do & So & Hnone & Hs & E0 & _ & Hd).
  destruct (copy_maps_spec 12 [demo_map] [7] {| mach := s; refs := ∅ |} ds x (with_brk 0x402800 old)) as (x' & w' & E & _);
    [exact H | exact Hx | exact Ho | exact Hne | | apply single_disjoint | simpl; lia | intros v e Hv _; by apply Hd | exact Hs |].
  { intros y ->%list_elem_of_singleton. split; [exact demo_map_ok | reflexivity]. }
  exists {| mach := s; refs := ∅ |}, w', x, (with_brk 0x402800 old), x'. split; [reflexivity|].
  assert (E' : address_space_copy {| mach := s; refs := ∅ |} x (with_brk 0x402800 old) [Some 7] = Done (x', w'))
    by (unfold address_space_copy; simpl vm_maps; rewrite Mo; exact E).
  split; [exact E'|].
  apply (fork_loses_break {| mach := s; refs := ∅ |} x (with_brk 0x402800 old) [Some 7] x' w' demo_map 9);
    [exact Bx | exact E' | simpl vm_maps; rewrite Mo; apply list_elem_of_here | exact Bo | simpl; rewrite Co; discriminate
    | simpl; rewrite Do; discriminate | simpl; rewrite So; discriminate | reflexivity].
Defined.
