(* ===== verification/Endian.v ===== *)
(** Little-endian fields of a byte array: what a C access through a pointer to
    a 16 or 32 bit integer, or through a pointer to a packed structure, reads
    and writes on x86. *)
From stdpp Require Import base numbers list.
From Stdlib Require Import ZArith ZifyBool Lia.
From S2P Require Import Prelude Bits.
Open Scope Z_scope.

Fixpoint le_bytes (n : nat) (z : Z) : list Z :=
  match n with
  | O => []
  | S n' => z mod 256 :: le_bytes n' (z / 256)
  end.

Fixpoint le_value (bs : list Z) : Z :=
  match bs with
  | [] => 0
  | b :: bs' => b + 256 * le_value bs'
  end.

(** The [n]-byte integer at byte offset [off]. *)
Definition get_le (n : Z) (data : list Z) (off : Z) : outcome Z :=
  bs ← arr_slice data off n;
  Done (le_value bs).

Definition put_le (n : Z) (data : list Z) (off v : Z) : outcome (list Z) :=
  arr_blit data off (le_bytes (Z.to_nat n) v).

Lemma length_le_bytes n : forall z, length (le_bytes n z) = n.
Proof. induction n; intros; simpl; [done | by rewrite IHn]. Qed.

Lemma le_bytes_bytes n : forall z, bytes (le_bytes n z).
Proof.
  induction n; intros; simpl; constructor; [apply Z.mod_pos_bound; lia | apply IHn].
Qed.

Lemma le_value_bytes n : forall z, le_value (le_bytes n z) = z mod 256 ^ Z.of_nat n.
Proof.
  induction n; intros z; [by rewrite Z.mod_1_r|].
  cbn [le_bytes le_value]. rewrite IHn. rewrite Nat2Z.inj_succ, Z.pow_succ_r by lia.
  rewrite Z.rem_mul_r by lia. lia.
Qed.

Lemma le_value_bound bs : bytes bs -> 0 <= le_value bs < 256 ^ Z.of_nat (length bs).
Proof.
  induction 1 as [|b bs Hb _ IH]; [simpl; lia|]. cbn [le_value length].
  rewrite Nat2Z.inj_succ, Z.pow_succ_r by lia. lia.
Qed.

Lemma le_value_zeros n : le_value (replicate n 0) = 0.
Proof. induction n; simpl; lia. Qed.

Lemma bytes_splice l i src : bytes l -> bytes src -> bytes (splice l i src).
Proof.
  unfold bytes, splice. intros Hl Hs. apply Forall_app. split; [by apply Forall_take|].
  apply Forall_app. split; [done | by apply Forall_drop].
Qed.

Lemma bytes_zeros n : bytes (replicate n 0).
Proof. apply Forall_replicate. lia. Qed.

Section Field.
Context (n : Z) (data : list Z).
Context (Hn : 0 <= n).

Lemma get_le_total off :
  0 <= off -> off + n <= Z.of_nat (length data) ->
  get_le n data off = Done (le_value (take (Z.to_nat n) (drop (Z.to_nat off) data))).
Proof using Hn. intros. unfold get_le. by rewrite arr_slice_done by lia. Qed.

Lemma get_le_bound off v : bytes data -> get_le n data off = Done v -> 0 <= v < 256 ^ n.
Proof using Hn.
  intros Hb H. unfold get_le in H. inv_outcome. subst v. unfold arr_slice in Hm.
  case_bool_decide as Hr; [|done]. injection Hm as <-.
  pose proof (le_value_bound (take (Z.to_nat n) (drop (Z.to_nat off) data))) as Hv.
  rewrite length_take, length_drop in Hv. replace (Z.of_nat _) with n in Hv by lia.
  apply Hv. by apply Forall_take, Forall_drop.
Qed.

Lemma put_le_total off v :
  0 <= off -> off + n <= Z.of_nat (length data) ->
  put_le n data off v = Done (splice data (Z.to_nat off) (le_bytes (Z.to_nat n) v)).
Proof using Hn. intros. unfold put_le. rewrite arr_blit_done; rewrite ?length_le_bytes; lia || done. Qed.

Lemma put_le_shape off v data' :
  put_le n data off v = Done data' ->
  length data' = length data /\ (bytes data -> bytes data').
Proof using Type.
  unfold put_le, arr_blit. case_bool_decide as H; [|done]. intros [= <-]. split.
  - rewrite length_splice; rewrite length_le_bytes in *; lia.
  - intros. apply bytes_splice; [done | apply le_bytes_bytes].
Qed.

Lemma get_put_same off v data' :
  put_le n data off v = Done data' -> get_le n data' off = Done (v mod 256 ^ n).
Proof using Hn.
  unfold put_le, arr_blit. case_bool_decide as H; [|done]. intros [= <-]. rewrite length_le_bytes in H.
  unfold get_le. rewrite arr_slice_done by (rewrite ?length_splice; rewrite ?length_le_bytes; lia).
  obind. f_equal. unfold splice.
  rewrite drop_app_length' by (rewrite length_take; lia).
  rewrite take_app_length' by (by rewrite length_le_bytes). rewrite le_value_bytes. f_equal. f_equal. lia.
Qed.
End Field.

(** A field that does not overlap the one that is written keeps its value. *)
Lemma get_put_other n m data off off' v data' :
  0 <= n -> 0 <= m -> off' + m <= off \/ off + n <= off' ->
  put_le n data off v = Done data' -> get_le m data' off' = get_le m data off'.
Proof.
  intros Hn Hm Hd. unfold put_le, arr_blit. case_bool_decide as H; [|done]. intros [= <-].
  rewrite length_le_bytes in H. unfold get_le, arr_slice. rewrite length_splice by (rewrite length_le_bytes; lia).
  case_bool_decide as H'; [|done]. obind. f_equal. f_equal. apply list_eq. intros k.
  destruct (decide (k < Z.to_nat m)%nat).
  - rewrite !lookup_take_lt, !lookup_drop, lookup_splice by (rewrite ?length_le_bytes; lia).
    case_decide; [rewrite length_le_bytes in *; lia | done].
  - rewrite !lookup_take_ge by lia. done.
Qed.
