(* ===== verification/Ext2.v ===== *)
(** ext2 block allocation and the block map of a file (src/fs/ext2/bmap.c,
    include/protura/fs/ext2.h): the bitmaps of the block groups, the fifteen
    block pointers of an inode and the one, two and three levels of indirect
    blocks behind the last three of them.  A block device is the map from
    sectors to block contents that the block cache presents; the locks of the
    super block, of the inode and of the blocks make each operation atomic. *)
From stdpp Require Import base numbers list gmap.
From Stdlib Require Import ZArith ZifyBool Lia.
From S2P Require Import Prelude Bits Endian.
Open Scope Z_scope.

Definition SECTOR_INVALID : Z := 0xFFFFFFFF.
Definition EXT2_BLOCKS_SECTOR_SIZE : Z := 512.
Definition E2BIG : Z := 7.

Record ext2_disk_sb : Type := {
  inode_total : Z;
  block_total : Z;
  block_unused_total : Z;
  inode_unused_total : Z;
  sb_block_number : Z;
  blocks_per_block_group : Z;
  inodes_per_block_group : Z;
  first_inode : Z;
  inode_entry_size : Z;
}.

Record ext2_disk_block_group : Type := {
  block_nr_block_bitmap : Z;
  block_nr_inode_bitmap : Z;
  block_nr_inode_table : Z;
  group_block_unused : Z;
  group_inode_unused : Z;
  directory_count : Z;
}.

Record ext2_super_block : Type := {
  block_size : Z;
  block_group_count : Z;
  disksb : ext2_disk_sb;
  groups : list ext2_disk_block_group;
}.

Record inode : Type := {
  ino : Z;
  dev_no : Z;
  size : Z;
  mode : Z;
  nlinks : Z;
  blocks : Z;
  atime : Z;
  mtime : Z;
  ctime : Z;
  uid : Z;
  gid : Z;
  dirty : bool;   (* INO_DIRTY of [flags] *)
}.

Record ext2_inode : Type := {
  vfs : inode;    (* [i] *)
  inode_group_blk_nr : Z;
  inode_group_blk_offset : Z;
  dtime : Z;
  blk_ptrs : list Z;
}.

(** A mounted file system: its super block and the blocks of its device as the
    block cache presents them.  The blocks in [filled] were set in the cache and
    marked synced, not dirty: the cache never writes them, and when it drops one of
    them the device still has what was there before ([cache_drop]). *)
Record fs : Type := {
  sb : ext2_super_block;
  disk : gmap Z (list Z);
  filled : gset Z;
}.

Definition set_sb (s : ext2_super_block) (f : fs) : fs := {| sb := s; disk := disk f; filled := filled f |}.

Definition set_blocks (n : Z) (x : inode) : inode :=
  {| ino := ino x; dev_no := dev_no x; size := size x; mode := mode x; nlinks := nlinks x; blocks := n;
     atime := atime x; mtime := mtime x; ctime := ctime x; uid := uid x; gid := gid x; dirty := dirty x |}.
Definition set_dirty (x : inode) : inode :=
  {| ino := ino x; dev_no := dev_no x; size := size x; mode := mode x; nlinks := nlinks x; blocks := blocks x;
     atime := atime x; mtime := mtime x; ctime := ctime x; uid := uid x; gid := gid x; dirty := true |}.
Definition set_vfs (f : inode -> inode) (x : ext2_inode) : ext2_inode :=
  {| vfs := f (vfs x); inode_group_blk_nr := inode_group_blk_nr x; inode_group_blk_offset := inode_group_blk_offset x;
     dtime := dtime x; blk_ptrs := blk_ptrs x |}.
Definition set_ptrs (l : list Z) (x : ext2_inode) : ext2_inode :=
  {| vfs := vfs x; inode_group_blk_nr := inode_group_blk_nr x; inode_group_blk_offset := inode_group_blk_offset x;
     dtime := dtime x; blk_ptrs := l |}.

Definition set_block_unused (n : Z) (d : ext2_disk_sb) : ext2_disk_sb :=
  {| inode_total := inode_total d; block_total := block_total d; block_unused_total := n;
     inode_unused_total := inode_unused_total d; sb_block_number := sb_block_number d;
     blocks_per_block_group := blocks_per_block_group d; inodes_per_block_group := inodes_per_block_group d;
     first_inode := first_inode d; inode_entry_size := inode_entry_size d |}.
Definition set_group_unused (n : Z) (g : ext2_disk_block_group) : ext2_disk_block_group :=
  {| block_nr_block_bitmap := block_nr_block_bitmap g; block_nr_inode_bitmap := block_nr_inode_bitmap g;
     block_nr_inode_table := block_nr_inode_table g; group_block_unused := n;
     group_inode_unused := group_inode_unused g; directory_count := directory_count g |}.
Definition set_groups (l : list ext2_disk_block_group) (s : ext2_super_block) : ext2_super_block :=
  {| block_size := block_size s; block_group_count := block_group_count s; disksb := disksb s; groups := l |}.
Definition set_disksb (d : ext2_disk_sb) (s : ext2_super_block) : ext2_super_block :=
  {| block_size := block_size s; block_group_count := block_group_count s; disksb := d; groups := groups s |}.

(** The contents of a locked block; a sector the device does not have is
    outside of what the driver can answer. *)
Definition block_data (f : fs) (n : Z) : outcome (list Z) :=
  match disk f !! n with Some data => Done data | None => Fault end.

(** New contents with [block_mark_dirty], and with [block_mark_synced]. *)
Definition block_write (f : fs) (n : Z) (data : list Z) : fs :=
  {| sb := sb f; disk := <[n := data]> (disk f); filled := filled f ∖ {[n]} |}.
Definition block_fill (f : fs) (n : Z) (data : list Z) : fs :=
  {| sb := sb f; disk := <[n := data]> (disk f); filled := {[n]} ∪ filled f |}.

(** The cache drops a block that is not dirty, and reads [old] from the device. *)
Definition cache_drop (f : fs) (n : Z) (old : list Z) : fs :=
  if bool_decide (n ∈ filled f) then {| sb := sb f; disk := <[n := old]> (disk f); filled := filled f ∖ {[n]} |} else f.

(** * Allocation of blocks *)

(** The loop of [__ext2_mark_block], with [n] groups left from group [i]. *)
Fixpoint mark_block_from (f : fs) (i : Z) (n : nat) : outcome (Z * fs) :=
  match n with
  | O => Done (SECTOR_INVALID, f)
  | S n' =>
      let s := sb f in
      let blocks_per_group := blocks_per_block_group (disksb s) in
      g ← arr_get (groups s) i;
      if group_block_unused g =? 0 then mark_block_from f (i + 1) n'
      else
        let max_block_location :=
          if i =? block_group_count s - 1 then i32 (block_total (disksb s) - i * blocks_per_group)
          else blocks_per_group in
        data ← block_data f (block_nr_block_bitmap g);
        let location := bit_find_first_zero data in
        if negb (location =? -1) && (location <? max_block_location) then
          let ret := u32 (i * blocks_per_group + location + sb_block_number (disksb s)) in
          data ← bit_set data location;
          let g' := set_group_unused (u16 (group_block_unused g - 1)) g in
          let f' := set_sb (set_groups (<[Z.to_nat i := g']> (groups s)) s) (block_write f (block_nr_block_bitmap g) data) in
          if ret =? SECTOR_INVALID then mark_block_from f' (i + 1) n' else Done (ret, f')
        else mark_block_from f (i + 1) n'
  end.

Definition ext2_mark_block (f : fs) : outcome (Z * fs) :=
  mark_block_from f 0 (Z.to_nat (block_group_count (sb f))).

Definition ext2_block_alloc (f : fs) : outcome (Z * fs) :=
  '(ret, f) ← ext2_mark_block f;
  if negb (ret =? SECTOR_INVALID) then
    let s := sb f in
    Done (ret, set_sb (set_disksb (set_block_unused (u32 (block_unused_total (disksb s) - 1)) (disksb s)) s) f)
  else Done (ret, f).

(** What one block adds to the [blocks] of an inode. *)
Definition block_sectors (f : fs) : Z := Z.quot (block_size (sb f)) EXT2_BLOCKS_SECTOR_SIZE.

(** [ext2_block_release] with an inode, as its callers pass one. *)
Definition ext2_block_release (f : fs) (x : ext2_inode) (orig_block : Z) : outcome (fs * ext2_inode) :=
  let s := sb f in
  let blocks_per_group := blocks_per_block_group (disksb s) in
  let block := i32 (orig_block - sb_block_number (disksb s)) in
  let group := Z.quot block blocks_per_group in
  let index := Z.rem block blocks_per_group in
  g ← arr_get (groups s) group;
  data ← block_data f (block_nr_block_bitmap g);
  data ← bit_clear data index;
  let g' := set_group_unused (u16 (group_block_unused g + 1)) g in
  let s' := set_groups (<[Z.to_nat group := g']> (groups s)) s in
  let f' := set_sb (set_disksb (set_block_unused (u32 (block_unused_total (disksb s') + 1)) (disksb s')) s') (block_write f (block_nr_block_bitmap g) data) in
  Done (f', set_vfs (fun v => set_blocks (u32 (blocks v - block_sectors f)) v) x).

Definition ext2_alloc_block_zero (f : fs) (x : ext2_inode) : outcome (Z * fs * ext2_inode) :=
  '(iblock, f) ← ext2_block_alloc f;
  if iblock =? SECTOR_INVALID then Done (SECTOR_INVALID, f, x)
  else
    let f' := block_fill f iblock (replicate (Z.to_nat (block_size (sb f))) 0) in
    Done (iblock, f', set_vfs (fun v => set_blocks (u32 (blocks v + block_sectors f)) v) x).

(** * The block map *)

(** [((uint32_t * )b->data)[i]] of the block [n], read and written. *)
Definition read_ptr (f : fs) (n i : Z) : outcome Z :=
  data ← block_data f n;
  get_le 4 data (4 * i).
Definition write_ptr (f : fs) (n i v : Z) : outcome fs :=
  data ← block_data f n;
  data ← put_le 4 data (4 * i) v;
  Done (block_write f n data).

Definition ptrs_per_blk (f : fs) : Z := Z.quot (block_size (sb f)) 4.

Definition NDIRECT : Z := 12.
Definition SINGLE : Z := 12.
Definition DOUBLE : Z := 13.
Definition TRIPLE : Z := 14.

(** The first step of the [ext2_map_*] functions: an empty pointer of the inode
    gets a new block.  [None] is the return with -ENOSPC. *)
Definition map_root (f : fs) (x : ext2_inode) (k : Z) : outcome (option Z * fs * ext2_inode) :=
  root ← arr_get (blk_ptrs x) k;
  if root =? 0 then
    '(new, f, x) ← ext2_alloc_block_zero f x;
    if new =? SECTOR_INVALID then Done (None, f, x)
    else
      ptrs ← arr_set (blk_ptrs x) k new;
      Done (Some new, f, set_ptrs ptrs x)
  else Done (Some root, f, x).

(** Their further steps: an empty pointer [idx] of the indirect block [parent]
    gets a new block. *)
Definition map_child (f : fs) (x : ext2_inode) (parent idx : Z) : outcome (option Z * fs * ext2_inode) :=
  child ← read_ptr f parent idx;
  if child =? 0 then
    '(new, f, x) ← ext2_alloc_block_zero f x;
    if new =? SECTOR_INVALID then Done (None, f, x)
    else
      f ← write_ptr f parent idx new;
      Done (Some new, f, x)
  else Done (Some child, f, x).

Definition ext2_map_indirect (f : fs) (x : ext2_inode) (inode_sector alloc_sector : Z)
  : outcome (Z * fs * ext2_inode) :=
  let ppb := ptrs_per_blk f in
  let single_blk := inode_sector / ppb in
  let direct_blk := inode_sector mod ppb in
  '(r, f, x) ← map_root f x (SINGLE + single_blk);
  match r with
  | None => Done (- ENOSPC, f, x)
  | Some indirect_block =>
      f ← write_ptr f indirect_block direct_blk alloc_sector;
      Done (0, f, x)
  end.

Definition ext2_map_dindirect (f : fs) (x : ext2_inode) (inode_sector alloc_sector : Z)
  : outcome (Z * fs * ext2_inode) :=
  let ppb := ptrs_per_blk f in
  let double_blk := inode_sector / ppb / ppb in
  let single_blk := (inode_sector / ppb) mod ppb in
  let direct_blk := inode_sector mod ppb in
  '(r, f, x) ← map_root f x (DOUBLE + double_blk);
  match r with
  | None => Done (- ENOSPC, f, x)
  | Some dindirect_block =>
      '(r, f, x) ← map_child f x dindirect_block single_blk;
      match r with
      | None => Done (- ENOSPC, f, x)
      | Some indirect_block =>
          f ← write_ptr f indirect_block direct_blk alloc_sector;
          Done (0, f, x)
      end
  end.

Definition ext2_map_tindirect (f : fs) (x : ext2_inode) (inode_sector alloc_sector : Z)
  : outcome (Z * fs * ext2_inode) :=
  let ppb := ptrs_per_blk f in
  let triple_blk := inode_sector / ppb / ppb / ppb in
  let double_blk := (inode_sector / ppb / ppb) mod ppb in
  let single_blk := (inode_sector / ppb) mod ppb in
  let direct_blk := inode_sector mod ppb in
  '(r, f, x) ← map_root f x (TRIPLE + triple_blk);
  match r with
  | None => Done (- ENOSPC, f, x)
  | Some tindirect_block =>
      '(r, f, x) ← map_child f x tindirect_block double_blk;
      match r with
      | None => Done (- ENOSPC, f, x)
      | Some dindirect_block =>
          '(r, f, x) ← map_child f x dindirect_block single_blk;
          match r with
          | None => Done (- ENOSPC, f, x)
          | Some indirect_block =>
              f ← write_ptr f indirect_block direct_blk alloc_sector;
              Done (0, f, x)
          end
      end
  end.

(** [return_sector] *)
Definition return_sector (ret : Z) : Z := if ret =? 0 then SECTOR_INVALID else ret.

(** [if (!ret) goto return_sector;] before the next level is read. *)
Definition next_level (f : fs) (ret idx : Z) : outcome Z :=
  if ret =? 0 then Done 0 else read_ptr f ret idx.

Definition ext2_bmap (f : fs) (x : ext2_inode) (inode_sector : Z) : outcome Z :=
  let ppb := ptrs_per_blk f in
  if inode_sector <? NDIRECT then
    ret ← arr_get (blk_ptrs x) inode_sector;
    Done (return_sector ret)
  else if u32 (Z.quot (size (vfs x)) (block_size (sb f))) <? inode_sector then Done SECTOR_INVALID
  else
    let s := inode_sector - NDIRECT in
    if s <? ppb then
      root ← arr_get (blk_ptrs x) (SINGLE + s / ppb);
      ret ← next_level f root (s mod ppb);
      Done (return_sector ret)
    else
      let s := s - ppb in
      if s <? ppb * ppb then
        root ← arr_get (blk_ptrs x) (DOUBLE + s / ppb / ppb);
        ret ← next_level f root ((s / ppb) mod ppb);
        ret ← next_level f ret (s mod ppb);
        Done (return_sector ret)
      else
        let s := s - ppb * ppb in
        if s <? ppb * ppb * ppb then
          root ← arr_get (blk_ptrs x) (TRIPLE + s / ppb / ppb / ppb);
          ret ← next_level f root ((s / ppb / ppb) mod ppb);
          ret ← next_level f ret ((s / ppb) mod ppb);
          ret ← next_level f ret (s mod ppb);
          Done (return_sector ret)
        else Done SECTOR_INVALID.

(** The [else] branch of [ext2_bmap_alloc]: links [ret] in behind the pointers
    of the inode and returns [err]. *)
Definition map_behind (f : fs) (x : ext2_inode) (inode_sector ret : Z) : outcome (Z * fs * ext2_inode) :=
  let ppb := ptrs_per_blk f in
  let s := inode_sector - NDIRECT in
  if s <? ppb then ext2_map_indirect f x s ret
  else
    let s := s - ppb in
    if s <? ppb * ppb then ext2_map_dindirect f x s ret
    else
      let s := s - ppb * ppb in
      if s <? ppb * ppb * ppb then ext2_map_tindirect f x s ret
      else Done (- E2BIG, f, x).

Definition ext2_bmap_alloc (f : fs) (x : ext2_inode) (inode_sector : Z) : outcome (Z * fs * ext2_inode) :=
  ret ← ext2_bmap f x inode_sector;
  if negb (ret =? SECTOR_INVALID) then Done (ret, f, x)
  else
    '(ret, f, x) ← ext2_alloc_block_zero f x;
    if ret =? SECTOR_INVALID then Done (SECTOR_INVALID, f, x)
    else if inode_sector <? NDIRECT then
      ptrs ← arr_set (blk_ptrs x) inode_sector ret;
      Done (ret, f, set_vfs set_dirty (set_ptrs ptrs x))
    else
      '(err, f, x) ← map_behind f x inode_sector ret;
      if err <? 0 then
        '(f, x) ← ext2_block_release f x ret;
        Done (SECTOR_INVALID, f, x)
      else Done (ret, f, set_vfs set_dirty x).
