(* ===== verification/Ext2Alloc.v ===== *)
(** The block allocator of ext2 refines a set of free blocks: the bitmaps, the
    free counters of the groups and the one of the super block agree, an
    allocation takes a member of the set out of it or finds it empty, and a
    release puts one back. *)
From stdpp Require Import base numbers list gmap.
From Stdlib Require Import ZArith ZifyBool Lia.
From S2P Require Import Prelude Bits Endian Ext2.
Open Scope Z_scope.

Abbreviation bpg s := (blocks_per_block_group (disksb s)).
Abbreviation first_block s := (sb_block_number (disksb s)).
Abbreviation total s := (block_total (disksb s)).

(** What never changes while a file system is mounted. *)
Definition layout (s : ext2_super_block) :=
  (block_size s, block_group_count s, first_block s, bpg s, total s,
   (inode_total (disksb s), inodes_per_block_group (disksb s), first_inode (disksb s), inode_entry_size (disksb s)),
   (fun g => (block_nr_block_bitmap g, block_nr_inode_bitmap g, block_nr_inode_table g)) <$> groups s).

(** The number of blocks of group [i]. *)
Definition limit (s : ext2_super_block) (i : Z) : Z :=
  if i =? block_group_count s - 1 then total s - i * bpg s else bpg s.

Record geometry (s : ext2_super_block) : Prop := {
  geo_bs : block_size s = 1024 \/ block_size s = 2048 \/ block_size s = 4096;
  geo_count : Z.of_nat (length (groups s)) = block_group_count s;
  geo_bpg : 0 < bpg s <= 8 * block_size s;
  geo_first : 0 <= first_block s;
  geo_total : (block_group_count s - 1) * bpg s < total s <= block_group_count s * bpg s;
  geo_fits : first_block s + total s < 2 ^ 31;
  geo_bitmaps : forall i j g h, groups s !! i = Some g -> groups s !! j = Some h ->
    block_nr_block_bitmap g = block_nr_block_bitmap h -> i = j;
}.

Definition bitmap_block (s : ext2_super_block) (n : Z) : Prop :=
  exists i g, groups s !! i = Some g /\ block_nr_block_bitmap g = n.

Definition group_of (s : ext2_super_block) (b : Z) : Z := (b - first_block s) / bpg s.
Definition index_of (s : ext2_super_block) (b : Z) : Z := (b - first_block s) mod bpg s.
Definition in_range (s : ext2_super_block) (b : Z) : Prop := first_block s <= b < first_block s + total s.

(** The bit of block [b]. *)
Definition used (f : fs) (b : Z) : bool :=
  match groups (sb f) !! Z.to_nat (group_of (sb f) b) with
  | Some g =>
      match disk f !! block_nr_block_bitmap g with
      | Some data => bit_at data (index_of (sb f) b)
      | None => true
      end
  | None => true
  end.

Definition free (f : fs) (b : Z) : Prop := in_range (sb f) b /\ used f b = false.

(** A block that files may own. *)
Definition data_block (f : fs) (b : Z) : Prop :=
  in_range (sb f) b /\ 0 < b /\ is_Some (disk f !! b) /\ ~ bitmap_block (sb f) b.

Definition free_count (data : list Z) (n : Z) : Z :=
  Z.of_nat (length (filter (fun j => bit_at data j = false) (seqZ 0 n))).

Definition unused_sum (gs : list ext2_disk_block_group) : Z :=
  foldr (fun g acc => group_block_unused g + acc) 0 gs.

Record alloc_ok (f : fs) : Prop := {
  ok_geo : geometry (sb f);
  ok_blocks : forall n data, disk f !! n = Some data -> length data = Z.to_nat (block_size (sb f)) /\ bytes data;
  ok_bitmaps : forall n, bitmap_block (sb f) n -> is_Some (disk f !! n);
  ok_free : forall b, free f b -> data_block f b;
  ok_unused : forall i g data, groups (sb f) !! i = Some g -> disk f !! block_nr_block_bitmap g = Some data ->
    group_block_unused g = free_count data (limit (sb f) (Z.of_nat i));
}.

Record fs_ok (f : fs) : Prop := {
  ok_alloc : alloc_ok f;
  ok_total : block_unused_total (disksb (sb f)) = unused_sum (groups (sb f));
}.

(** [f'] is [f] after the bit of block [b] became [v]. *)
Record marked (f f' : fs) (b : Z) (v : bool) : Prop := {
  marked_layout : layout (sb f') = layout (sb f);
  marked_used : forall c, in_range (sb f) c -> used f' c = if decide (c = b) then v else used f c;
  marked_frame : forall n, ~ bitmap_block (sb f) n -> disk f' !! n = disk f !! n;
  marked_dom : forall n, is_Some (disk f' !! n) <-> is_Some (disk f !! n);
  marked_filled : forall n, ~ bitmap_block (sb f) n -> n ∈ filled f' <-> n ∈ filled f;
}.

(** * Counting clear bits *)

Lemma filter_drop_one (P Q : Z -> Prop) `{forall x, Decision (P x)} `{forall x, Decision (Q x)} (l : list Z) j :
  (forall x, x ∈ l -> Q x <-> P x /\ x <> j) -> filter Q l = filter (fun x => x <> j) (filter P l).
Proof.
  induction l as [|y l IH]; intros HPQ; [done|].
  rewrite (filter_cons _ y), (filter_cons P y), IH by (intros x Hx; apply HPQ; set_solver).
  pose proof (HPQ y ltac:(set_solver)) as Hy.
  destruct (decide (P y)); [rewrite (filter_cons _ y)|]; repeat case_decide; try done; exfalso; tauto.
Qed.

Lemma free_count_set data data' j n :
  0 <= j < n -> bit_at data j = false -> bit_at data' j = true ->
  (forall k, 0 <= k -> k <> j -> bit_at data' k = bit_at data k) ->
  free_count data' n = free_count data n - 1.
Proof.
  intros Hj Hf Ht Ho. unfold free_count.
  rewrite (filter_drop_one (fun k => bit_at data k = false) (fun k => bit_at data' k = false) _ j).
  - apply filter_ne_length; [apply NoDup_filter, NoDup_seqZ|].
    apply list_elem_of_filter. split; [done|]. apply elem_of_seqZ. lia.
  - intros x Hx. apply elem_of_seqZ in Hx. destruct (decide (x = j)) as [->|Hne].
    + rewrite Ht. naive_solver.
    + rewrite Ho by (done || lia). tauto.
Qed.

Lemma free_count_zero data n j : free_count data n = 0 -> 0 <= j < n -> bit_at data j = true.
Proof.
  unfold free_count. intros H Hj. destruct (bit_at data j) eqn:E; [done|].
  assert (Hin : j ∈ filter (fun j => bit_at data j = false) (seqZ 0 n)).
  { apply list_elem_of_filter. split; [done|]. apply elem_of_seqZ. lia. }
  destruct (filter _ _); [by apply elem_of_nil in Hin | simpl in H; lia].
Qed.

Lemma free_count_bound data n : 0 <= n -> 0 <= free_count data n <= n.
Proof.
  intros. unfold free_count. pose proof (length_filter (fun j => bit_at data j = false) (seqZ 0 n)) as Hl.
  rewrite length_seqZ in Hl. lia.
Qed.

Lemma unused_sum_insert gs i g g' :
  gs !! i = Some g -> unused_sum (<[i := g']> gs) = unused_sum gs + group_block_unused g' - group_block_unused g.
Proof.
  revert i. induction gs as [|h gs IH]; intros i H; [done|]. destruct i; simpl in H |- *.
  - injection H as ->. lia.
  - rewrite (IH i H). lia.
Qed.

Lemma bit_set_at data j data' :
  0 <= j -> bit_set data j = Done data' ->
  bit_at data' j = true /\ length data' = length data /\ forall k, 0 <= k -> k <> j -> bit_at data' k = bit_at data k.
Proof.
  intros Hj H. split_and!.
  - apply bit_at_update in H as [_ H]; [|done]. rewrite H by done. case_decide; [|done].
    apply Z.setbit_eq. apply Z.mod_pos_bound. lia.
  - by apply bit_at_update in H as [? _].
  - intros k Hk Hne. by apply (bit_set_other data j).
Qed.

Lemma bit_clear_at data j data' :
  0 <= j -> bit_clear data j = Done data' ->
  bit_at data' j = false /\ length data' = length data /\ forall k, 0 <= k -> k <> j -> bit_at data' k = bit_at data k.
Proof.
  intros Hj H. apply bit_at_update in H as [Hl H]; [|done]. split_and!; [| done |].
  - rewrite H by done. case_decide; [|done]. rewrite Z.clearbit_eqb, Z.eqb_refl. apply andb_false_r.
  - intros k Hk Hne. rewrite H by done. case_decide as E; [|done].
    rewrite Z.clearbit_neq; [unfold bit_at; by rewrite E |].
    intros E'. apply Hne. rewrite (Z.div_mod j 8), (Z.div_mod k 8) by lia. congruence.
Qed.

Lemma bytes_setbit b j : 0 <= b < 256 -> 0 <= j < 8 -> 0 <= Z.setbit b j < 256.
Proof.
  intros Hb Hj. rewrite Z.setbit_spec'. assert (0 <= 2 ^ j) by (apply Z.pow_nonneg; lia).
  assert (Hz : 0 <= Z.lor b (2 ^ j)) by (apply Z.lor_nonneg; lia). split; [done|].
  change 256 with (2 ^ 8). destruct (Z.eq_dec (Z.lor b (2 ^ j)) 0) as [->|]; [lia|].
  apply Z.log2_lt_pow2; [lia|]. rewrite Z.log2_lor by lia. rewrite Z.log2_pow2 by lia.
  pose proof (Z.log2_lt_pow2 b 8). destruct (Z.eq_dec b 0) as [->|]; [simpl; lia|]. lia.
Qed.

Lemma bytes_clearbit b j : 0 <= b < 256 -> 0 <= Z.clearbit b j < 256.
Proof.
  intros Hb. rewrite Z.clearbit_spec'. rewrite Z.ldiff_land.
  replace b with (Z.land (Z.ones 8) b) by (rewrite Z.land_comm, Z.land_ones by lia; apply Z.mod_small; lia).
  rewrite <- Z.land_assoc, Z.land_comm, Z.land_ones by lia. apply Z.mod_pos_bound. lia.
Qed.

Lemma bytes_update (F : Z -> Z -> Z) data j data' :
  (forall b k, 0 <= b < 256 -> 0 <= k < 8 -> 0 <= F b k < 256) ->
  bytes data -> bit_update F data j = Done data' -> bytes data'.
Proof.
  intros HF Hb H. unfold bit_update in H. inv_outcome. apply arr_get_done in Hm as [_ Hm].
  apply arr_set_done in H as [_ ->]. apply Forall_insert; [done|]. apply HF; [|apply Z.mod_pos_bound; lia].
  by apply (Forall_lookup_1 _ _ _ _ Hb Hm).
Qed.

(** * Geometry *)

Lemma layout_geometry s s' : layout s' = layout s -> geometry s -> geometry s'.
Proof.
  intros HL [Hbs Hc Hb Hf Ht Hfit Hd]. injection HL as E1 E2 E3 E4 E5 E6 E7 E8 E9 E10.
  split; rewrite ?E1, ?E2, ?E3, ?E4, ?E5; try done.
  - apply (f_equal length) in E10. rewrite !length_fmap in E10. by rewrite E10.
  - intros i j g h Hi Hj E.
    assert (Hsame : forall k x, groups s' !! k = Some x ->
      exists y, groups s !! k = Some y /\ block_nr_block_bitmap y = block_nr_block_bitmap x).
    { intros k x Hk. apply (f_equal (.!! k)) in E10. rewrite !list_lookup_fmap, Hk in E10.
      destruct (groups s !! k) as [y|]; [|done]. exists y. split; [done|]. simpl in E10. congruence. }
    destruct (Hsame i g Hi) as (y & Hy & Ey), (Hsame j h Hj) as (z & Hz & Ez).
    apply (Hd i j y z Hy Hz). congruence.
Qed.

Lemma layout_limit s s' i : layout s' = layout s -> limit s' i = limit s i.
Proof. intros HL. injection HL as E1 E2 E3 E4 E5 _. unfold limit. by rewrite E2, E4, E5. Qed.

Lemma layout_bitmap s s' n : layout s' = layout s -> bitmap_block s' n <-> bitmap_block s n.
Proof.
  intros HL. injection HL as _ _ _ _ _ _ _ _ _ E10.
  assert (Hgo : forall a b : list ext2_disk_block_group,
    (fun g => (block_nr_block_bitmap g, block_nr_inode_bitmap g, block_nr_inode_table g)) <$> a =
    (fun g => (block_nr_block_bitmap g, block_nr_inode_bitmap g, block_nr_inode_table g)) <$> b ->
    forall i g, a !! i = Some g -> exists h, b !! i = Some h /\ block_nr_block_bitmap h = block_nr_block_bitmap g).
  { intros a b E i g Hi. apply (f_equal (.!! i)) in E. rewrite !list_lookup_fmap, Hi in E.
    destruct (b !! i) as [h|]; [|done]. exists h. simpl in E. split; congruence. }
  split; intros (i & g & Hi & <-).
  - destruct (Hgo _ _ E10 i g Hi) as (h & Hh & <-). by exists i, h.
  - destruct (Hgo _ _ (eq_sym E10) i g Hi) as (h & Hh & <-). by exists i, h.
Qed.

Lemma layout_range s s' b : layout s' = layout s -> in_range s' b <-> in_range s b.
Proof. intros HL. injection HL as _ _ E3 _ E5 _. unfold in_range. by rewrite E3, E5. Qed.

Section Geometry.
Context (s : ext2_super_block) (G : geometry s).

Lemma limit_bound i : 0 <= i < block_group_count s -> 0 < limit s i <= bpg s.
Proof using G.
  intros Hi. destruct G. unfold limit. destruct (Z.eqb_spec i (block_group_count s - 1)) as [->|]; lia.
Qed.

Lemma range_group b :
  in_range s b ->
  0 <= group_of s b < block_group_count s /\ 0 <= index_of s b < limit s (group_of s b) /\
  b = group_of s b * bpg s + index_of s b + first_block s.
Proof using G.
  destruct G as [_ _ Hb _ Ht _ _]. unfold in_range, group_of, index_of, limit. intros Hr.
  pose proof (Z.div_mod (b - first_block s) (bpg s) ltac:(lia)).
  pose proof (Z.mod_pos_bound (b - first_block s) (bpg s) ltac:(lia)).
  set (q := (b - first_block s) / bpg s) in *. set (r := (b - first_block s) mod bpg s) in *.
  assert (0 <= q) by (apply Z.div_pos; lia).
  assert (q < block_group_count s) by nia.
  destruct (Z.eqb_spec q (block_group_count s - 1)) as [Eq|]; split_and!; nia.
Qed.

(** The block behind bit [j] of group [i]. *)
Lemma group_range i j :
  0 <= i < block_group_count s -> 0 <= j < limit s i ->
  in_range s (i * bpg s + j + first_block s) /\
  group_of s (i * bpg s + j + first_block s) = i /\ index_of s (i * bpg s + j + first_block s) = j.
Proof using G.
  intros Hi Hj. pose proof (limit_bound i Hi). destruct G as [_ _ Hb _ Ht _ _].
  unfold in_range, group_of, index_of.
  replace (i * bpg s + j + first_block s - first_block s) with (i * bpg s + j) by lia.
  split; [|split].
  - unfold limit in Hj. destruct (Z.eqb_spec i (block_group_count s - 1)); nia.
  - symmetry. apply (Z.div_unique_pos _ _ _ j); lia.
  - symmetry. apply (Z.mod_unique_pos _ _ i); lia.
Qed.

Lemma bpg_small : 0 < bpg s <= 32768.
Proof using G. destruct G. lia. Qed.
End Geometry.

Lemma used_group f i g data b :
  groups (sb f) !! i = Some g -> disk f !! block_nr_block_bitmap g = Some data ->
  group_of (sb f) b = Z.of_nat i -> used f b = bit_at data (index_of (sb f) b).
Proof. intros Hg Hd Hb. unfold used. by rewrite Hb, Nat2Z.id, Hg, Hd. Qed.

(** * Changing one bit *)

Section Mark.
Context (f : fs) (Hok : alloc_ok f).
Context (i : nat) (g : ext2_disk_block_group) (data data' : list Z) (j : Z) (v : bool).
Context (Hg : groups (sb f) !! i = Some g).
Context (Hd : disk f !! block_nr_block_bitmap g = Some data).
Context (Hj : 0 <= j < limit (sb f) (Z.of_nat i)).
Context (Hv : bit_at data' j = v) (Hlen : length data' = length data) (Hbytes : bytes data').
Context (Hother : forall k, 0 <= k -> k <> j -> bit_at data' k = bit_at data k).

(** The state after the bitmap block and the counter of the group are written. *)
Definition mark_state (s' : ext2_super_block) : fs :=
  set_sb s' (block_write f (block_nr_block_bitmap g) data').

Context (s' : ext2_super_block) (n : Z).
Context (HL : layout s' = layout (sb f)).
Context (Hs' : groups s' = <[i := set_group_unused n g]> (groups (sb f))).

Let b := Z.of_nat i * bpg (sb f) + j + first_block (sb f).

Lemma group_index : 0 <= Z.of_nat i < block_group_count (sb f).
Proof using Hok Hg.
  destruct (ok_geo _ Hok) as [_ Hc _ _ _ _ _]. pose proof (lookup_lt_Some _ _ _ Hg) as Hl.
  clear -Hc Hl. lia.
Qed.

Lemma mark_marked : marked f (mark_state s') b v.
Proof using Hok Hg Hd Hj Hv Hlen Hother HL Hs'.
  pose proof (ok_geo _ Hok) as G. pose proof group_index as Hi.
  destruct (group_range _ G _ _ Hi Hj) as (Hr & Hgb & Hib). fold b in Hr, Hgb, Hib.
  split; [done | | | |].
  - intros c Hc. destruct (range_group _ G c Hc) as (Hgc & Hic & Ec).
    assert (Egrp : group_of s' c = group_of (sb f) c /\ index_of s' c = index_of (sb f) c).
    { injection HL as _ _ E3 E4 _. unfold group_of, index_of. by rewrite E3, E4. }
    destruct Egrp as [Eg Ei]. unfold used at 1. simpl. rewrite Eg, Ei, Hs'.
    destruct (decide (group_of (sb f) c = Z.of_nat i)) as [E|E].
    + rewrite E, Nat2Z.id, list_lookup_insert_eq by (by eapply lookup_lt_Some). simpl.
      rewrite lookup_insert_eq. rewrite (used_group f i g data c Hg Hd E). case_decide as Ecb.
      * subst c. by rewrite Hib.
      * apply Hother; [lia|]. intros Eij. apply Ecb. unfold b. rewrite Ec, E, Eij. lia.
    + rewrite list_lookup_insert_ne by lia. unfold used.
      destruct (groups (sb f) !! Z.to_nat (group_of (sb f) c)) as [h|] eqn:Eh.
      * rewrite lookup_insert_ne.
        { case_decide; [|done]. subst c. lia. }
        intros Ebm. pose proof (geo_bitmaps _ G _ _ _ _ Hg Eh Ebm). lia.
      * case_decide; [subst c; lia | done].
  - intros m Hm. simpl. apply lookup_insert_ne. intros <-. apply Hm. by exists i, g.
  - intros m. simpl. destruct (decide (m = block_nr_block_bitmap g)) as [->|Hne].
    + rewrite lookup_insert_eq. split; intros _; eauto.
    + by rewrite lookup_insert_ne by done.
  - intros m Hm. simpl. assert (m <> block_nr_block_bitmap g) by (intros ->; apply Hm; by exists i, g). rewrite elem_of_difference, elem_of_singleton. tauto.
Qed.

Context (Hn : n = free_count data' (limit (sb f) (Z.of_nat i))).
Context (Hfresh : v = false -> data_block f b).

Lemma mark_ok : alloc_ok (mark_state s').
Proof using Hok Hg Hd Hj Hv Hlen Hbytes Hother HL Hs' Hn Hfresh.
  pose proof mark_marked as M. destruct M as [_ MU MF MD].
  assert (Hbs : block_size s' = block_size (sb f)) by (by injection HL).
  assert (Hgeo : geometry s') by (apply (layout_geometry (sb f)); [done | apply Hok]).
  split; simpl.
  - done.
  - intros m data1 Hm. rewrite Hbs. destruct (decide (m = block_nr_block_bitmap g)) as [->|Hne].
    + rewrite lookup_insert_eq in Hm. injection Hm as <-. rewrite Hlen. split; [|done].
      by apply (ok_blocks _ Hok _ data Hd).
    + rewrite lookup_insert_ne in Hm by done. by apply (ok_blocks _ Hok m).
  - intros m Hm. apply MD. apply (ok_bitmaps _ Hok). by apply (layout_bitmap _ _ _ HL).
  - intros c [Hr Hu]. apply (layout_range _ _ _ HL) in Hr. rewrite (MU c Hr) in Hu.
    assert (Hdb : data_block f c).
    { case_decide as E; [subst c; by apply Hfresh | by apply (ok_free _ Hok)]. }
    destruct Hdb as (_ & H0 & Hs & Hb). split_and!; [by apply (layout_range _ _ _ HL) | done | by apply MD |].
    by rewrite (layout_bitmap _ _ _ HL).
  - intros k h data1 Hk Hm. rewrite (layout_limit _ _ _ HL). rewrite Hs' in Hk.
    destruct (decide (k = i)) as [->|Hne].
    + rewrite list_lookup_insert_eq in Hk by (by eapply lookup_lt_Some). injection Hk as <-. simpl in *.
      rewrite lookup_insert_eq in Hm. by injection Hm as <-.
    + rewrite list_lookup_insert_ne in Hk by done. rewrite lookup_insert_ne in Hm.
      * by apply (ok_unused _ Hok).
      * intros E. apply Hne. symmetry. by apply (geo_bitmaps _ (ok_geo _ Hok) _ _ _ _ Hg Hk).
Qed.
End Mark.

Lemma mark_layout (s : ext2_super_block) i g n :
  groups s !! i = Some g -> layout (set_groups (<[i := set_group_unused n g]> (groups s)) s) = layout s.
Proof.
  intros Hg. unfold layout. simpl. f_equal. rewrite list_fmap_insert. simpl.
  apply list_insert_id. by rewrite list_lookup_fmap, Hg.
Qed.

(** * Allocation *)

(** No group from [i] on has a free block. *)
Definition full_from (f : fs) (i : Z) : Prop :=
  forall b, in_range (sb f) b -> i <= group_of (sb f) b -> used f b = true.

Lemma full_step f i g data :
  alloc_ok f -> 0 <= i -> groups (sb f) !! Z.to_nat i = Some g -> disk f !! block_nr_block_bitmap g = Some data ->
  (forall j, 0 <= j < limit (sb f) i -> bit_at data j = true) -> full_from f (i + 1) -> full_from f i.
Proof.
  intros Hok Hi Hg Hd Hbits Hfull b Hb Hle. destruct (range_group _ (ok_geo _ Hok) b Hb) as (H1 & H2 & H3).
  destruct (decide (group_of (sb f) b = i)) as [E|E]; [|apply Hfull; [done | lia]].
  rewrite (used_group f (Z.to_nat i) g data) by (done || lia). apply Hbits. by rewrite E in H2.
Qed.

(** [ret] was free in [f], and [f'] is [f] without it, up to the counter of
    the super block. *)
Definition taken (f f' : fs) (ret : Z) : Prop :=
  free f ret /\ ret <> SECTOR_INVALID /\ marked f f' ret true /\ alloc_ok f' /\
  disksb (sb f') = disksb (sb f) /\ unused_sum (groups (sb f')) = unused_sum (groups (sb f)) - 1.

Lemma range_valid s b : geometry s -> in_range s b -> 0 <= b < SECTOR_INVALID.
Proof. intros G Hr. unfold in_range in Hr. destruct G. unfold SECTOR_INVALID. lia. Qed.

(** The body of the loop once it has found a clear bit. *)
Lemma mark_found f i g data location data' :
  alloc_ok f -> groups (sb f) !! i = Some g -> disk f !! block_nr_block_bitmap g = Some data ->
  0 <= location < limit (sb f) (Z.of_nat i) -> bit_at data location = false -> bit_set data location = Done data' ->
  taken f (mark_state f g data' (set_groups (<[i := set_group_unused (u16 (group_block_unused g - 1)) g]> (groups (sb f))) (sb f)))
    (Z.of_nat i * bpg (sb f) + location + first_block (sb f)).
Proof.
  intros Hok Hg Hd Hl Hf Hset. pose proof (ok_geo _ Hok) as G.
  pose proof (group_index f Hok i g Hg) as Hi. pose proof (limit_bound _ G _ Hi) as Hlim.
  pose proof (bpg_small _ G) as Hbpg. destruct (ok_blocks _ Hok _ _ Hd) as [Hlen Hby].
  destruct (bit_set_at data location data' ltac:(lia) Hset) as (Hb1 & Hb2 & Hb3).
  pose proof (free_count_set data data' location _ Hl Hf Hb1 Hb3) as Hcnt.
  pose proof (ok_unused _ Hok _ _ _ Hg Hd) as Hu.
  pose proof (free_count_bound data (limit (sb f) (Z.of_nat i))) as Hb0.
  pose proof (free_count_bound data' (limit (sb f) (Z.of_nat i))) as Hb0'.
  assert (Eun : u16 (group_block_unused g - 1) = free_count data' (limit (sb f) (Z.of_nat i))).
  { rewrite Hcnt, <- Hu. unfold u16. apply uwrap_small. lia. }
  rewrite Eun. destruct (group_range _ G _ location Hi Hl) as (Hr & Hgb & Hib).
  set (s' := set_groups _ _). assert (HL : layout s' = layout (sb f)) by (by apply mark_layout).
  split_and!; [split; [done|] | | | | done |].
  - by rewrite (used_group f i g data), Hib.
  - pose proof (range_valid _ _ G Hr). lia.
  - by eapply (mark_marked f Hok i g data data').
  - eapply (mark_ok f Hok i g data data' location true); try done.
    by apply (bytes_update Z.setbit data location); [apply bytes_setbit| |].
  - simpl. rewrite (unused_sum_insert _ _ g) by done. simpl. lia.
Qed.

Lemma mark_block_from_spec f : alloc_ok f -> forall n i,
  0 <= i -> i + Z.of_nat n = block_group_count (sb f) ->
  exists ret f', mark_block_from f i n = Done (ret, f') /\
    ((ret = SECTOR_INVALID /\ f' = f /\ full_from f i) \/ taken f f' ret).
Proof.
  intros Hok. pose proof (ok_geo _ Hok) as G. induction n as [|n IH]; intros i Hi Hn; cbn [mark_block_from].
  { exists SECTOR_INVALID, f. split; [done|]. left. split_and!; [done | done |].
    intros b Hb Hle. destruct (range_group _ G b Hb). lia. }
  assert (Hil : 0 <= i < Z.of_nat (length (groups (sb f)))) by (rewrite (geo_count _ G); lia).
  destruct (arr_get_total _ _ Hil) as [g Hg]. rewrite Hg. obind. apply arr_get_done in Hg as [_ Hg].
  destruct (ok_bitmaps _ Hok (block_nr_block_bitmap g)) as [data Hd]; [by exists (Z.to_nat i), g|].
  pose proof (ok_unused _ Hok _ _ _ Hg Hd) as Hu. rewrite Z2Nat.id in Hu by lia.
  assert (Hskip : (forall j, 0 <= j < limit (sb f) i -> bit_at data j = true) ->
    exists ret f', mark_block_from f (i + 1) n = Done (ret, f') /\
    ((ret = SECTOR_INVALID /\ f' = f /\ full_from f i) \/ taken f f' ret)).
  { intros Hbits. destruct (IH (i + 1)) as (ret & f' & E & Hr); [lia | lia |]. exists ret, f'. split; [done|].
    destruct Hr as [(? & ? & Hfull)|Hr]; [left | by right]. split_and!; [done | done |].
    by apply (full_step f i g data). }
  destruct (Z.eqb_spec (group_block_unused g) 0) as [Eu|Eu].
  { apply Hskip. intros j Hj. rewrite Eu in Hu. by apply (free_count_zero data (limit (sb f) i)). }
  unfold block_data. rewrite Hd. obind.
  assert (Emax : (if i =? block_group_count (sb f) - 1 then i32 (total (sb f) - i * bpg (sb f)) else bpg (sb f))
    = limit (sb f) i).
  { unfold limit. destruct (Z.eqb_spec i (block_group_count (sb f) - 1)); [|done]. destruct G. apply i32_small. lia. }
  rewrite Emax.
  assert (Hbits8 : limit (sb f) i <= 8 * Z.of_nat (length data)).
  { destruct (ok_blocks _ Hok _ _ Hd). pose proof (limit_bound _ G i ltac:(lia)). destruct G. lia. }
  destruct (bit_find_first_zero_spec data) as [[El Hall]|(Hl & Hlf & Hbelow)].
  { rewrite El. simpl. apply Hskip. intros j Hj. apply Hall. lia. }
  destruct (Z.eqb_spec (bit_find_first_zero data) (-1)); [lia|]. simpl.
  destruct (Z.ltb_spec (bit_find_first_zero data) (limit (sb f) i)) as [Hlt|Hge].
  2: { apply Hskip. intros j Hj. apply Hbelow. lia. }
  destruct (bit_update_total Z.setbit data _ Hl) as [data' Hset]. change (bit_update Z.setbit) with bit_set in Hset.
  rewrite Hset. obind. rewrite <- (Z2Nat.id i Hi) in Hlt at 1.
  pose proof (mark_found f _ g data _ data' Hok Hg Hd (conj (proj1 Hl) Hlt) Hlf Hset) as Ht.
  rewrite Z2Nat.id in Ht by lia. pose proof (range_valid _ _ G (proj1 (proj1 Ht))) as Hv.
  rewrite u32_small by (unfold SECTOR_INVALID in Hv; lia).
  destruct (Z.eqb_spec (i * bpg (sb f) + bit_find_first_zero data + first_block (sb f)) SECTOR_INVALID); [lia|].
  eexists _, _. split; [done|]. by right.
Qed.

(** The free blocks are counted in the super block: at most the blocks of all
    groups together. *)
Lemma unused_sum_bound f : alloc_ok f -> 0 <= unused_sum (groups (sb f)) < 2 ^ 32 - 1.
Proof.
  intros Hok. pose proof (ok_geo _ Hok) as G.
  assert (Hg : Forall (fun g => 0 <= group_block_unused g <= bpg (sb f)) (groups (sb f))).
  { apply Forall_lookup. intros i g Hg.
    destruct (ok_bitmaps _ Hok (block_nr_block_bitmap g)) as [data Hd]; [by exists i, g|].
    rewrite (ok_unused _ Hok _ _ _ Hg Hd). pose proof (limit_bound _ G _ (group_index f Hok i g Hg)).
    pose proof (free_count_bound data (limit (sb f) (Z.of_nat i))). lia. }
  assert (Hsum : forall l, Forall (fun g => 0 <= group_block_unused g <= bpg (sb f)) l ->
    0 <= unused_sum l <= Z.of_nat (length l) * bpg (sb f)).
  { induction 1; simpl; lia. }
  specialize (Hsum _ Hg). rewrite (geo_count _ G) in Hsum. pose proof (bpg_small _ G). destruct G. lia.
Qed.

(** A counter of the super block is not part of what the bitmaps say. *)
Lemma alloc_ok_total f n :
  alloc_ok f -> alloc_ok (set_sb (set_disksb (set_block_unused n (disksb (sb f))) (sb f)) f).
Proof. intros [[] ? ? ? ?]. by split. Qed.

Lemma marked_total f f' b v n :
  marked f f' b v -> marked f (set_sb (set_disksb (set_block_unused n (disksb (sb f'))) (sb f')) f') b v.
Proof. intros []. by split. Qed.

(** An allocation returns a block that was free and takes just that one, or
    reports a full disk when no block is free. *)
Lemma ext2_block_alloc_spec f :
  fs_ok f ->
  exists ret f', ext2_block_alloc f = Done (ret, f') /\ fs_ok f' /\
    ((ret = SECTOR_INVALID /\ f' = f /\ forall b, ~ free f b) \/
     (ret <> SECTOR_INVALID /\ free f ret /\ marked f f' ret true)).
Proof.
  intros [Hok Ht]. pose proof (ok_geo _ Hok) as G. unfold ext2_block_alloc, ext2_mark_block.
  destruct (mark_block_from_spec f Hok (Z.to_nat (block_group_count (sb f))) 0) as (ret & f' & E & Hr);
    [done | destruct G; lia |].
  rewrite E. obind. destruct Hr as [(-> & -> & Hfull)|(Hf & Hne & HM & Hok' & Ed & Es)].
  - simpl. exists SECTOR_INVALID, f. split; [done|]. split; [done|]. left. split_and!; [done | done |].
    intros b [Hr Hu]. rewrite Hfull in Hu; [done | done | destruct (range_group _ G b Hr); lia].
  - destruct (Z.eqb_spec ret SECTOR_INVALID); [done|]. simpl. eexists _, _. split; [done|]. split.
    + split; [by apply alloc_ok_total|]. simpl. pose proof (unused_sum_bound f Hok).
      pose proof (unused_sum_bound f' Hok'). rewrite Ed, Ht, Es, u32_small by lia. done.
    + right. split; [done|]. split; [done | by apply marked_total].
Qed.

(** * Release *)

Lemma free_count_clear data data' j n :
  0 <= j < n -> bit_at data j = true -> bit_at data' j = false ->
  (forall k, 0 <= k -> k <> j -> bit_at data' k = bit_at data k) ->
  free_count data' n = free_count data n + 1.
Proof.
  intros Hj Ht Hf Ho. rewrite (free_count_set data' data j n); try done; [lia|].
  intros. symmetry. by apply Ho.
Qed.

(** Releasing a block in use makes it free and changes no other. *)
Lemma ext2_block_release_spec f x b :
  fs_ok f -> data_block f b -> used f b = true ->
  exists f', ext2_block_release f x b =
      Done (f', set_vfs (fun v => set_blocks (u32 (blocks v - block_sectors f)) v) x) /\
    fs_ok f' /\ marked f f' b false.
Proof.
  intros [Hok Ht] Hdb Hu. pose proof (ok_geo _ Hok) as G. pose proof (proj1 Hdb) as Hr.
  destruct (range_group _ G b Hr) as (Hgb & Hib & Eb). pose proof (limit_bound _ G _ Hgb) as Hlim.
  pose proof (bpg_small _ G) as Hbpg.
  assert (Hk : 0 <= b - first_block (sb f) < 2 ^ 31) by (unfold in_range in Hr; destruct G; lia).
  unfold ext2_block_release. rewrite (i32_small (b - _)) by lia.
  rewrite Z.quot_div_nonneg, Z.rem_mod_nonneg by lia. fold (group_of (sb f) b). fold (index_of (sb f) b).
  destruct (arr_get_total (groups (sb f)) (group_of (sb f) b)) as [g Hg]; [rewrite (geo_count _ G); lia|].
  rewrite Hg. obind. apply arr_get_done in Hg as [_ Hg].
  destruct (ok_bitmaps _ Hok (block_nr_block_bitmap g)) as [data Hd]; [by eexists _, g|].
  destruct (ok_blocks _ Hok _ _ Hd) as [Hlen Hby]. unfold block_data. rewrite Hd. obind.
  destruct (bit_update_total Z.clearbit data (index_of (sb f) b)) as [data' Hset]; [destruct G; lia|].
  change (bit_update Z.clearbit) with bit_clear in Hset. rewrite Hset. obind.
  destruct (bit_clear_at data _ data' (proj1 Hib) Hset) as (Hb1 & Hb2 & Hb3).
  rewrite (used_group f _ g data b Hg Hd) in Hu by lia.
  set (i := Z.to_nat (group_of (sb f) b)) in *. assert (Ei : Z.of_nat i = group_of (sb f) b) by lia.
  rewrite <- Ei in Hib, Hlim, Eb.
  pose proof (free_count_clear data data' _ _ Hib Hu Hb1 Hb3) as Hcnt.
  pose proof (ok_unused _ Hok _ _ _ Hg Hd) as Hun.
  pose proof (free_count_bound data' (limit (sb f) (Z.of_nat i))) as Hb0.
  pose proof (free_count_bound data (limit (sb f) (Z.of_nat i))) as Hb0'.
  assert (Eun : u16 (group_block_unused g + 1) = free_count data' (limit (sb f) (Z.of_nat i))).
  { rewrite Hcnt, <- Hun. unfold u16. apply uwrap_small. lia. }
  rewrite Eun. set (s' := set_groups _ _). assert (HL : layout s' = layout (sb f)) by (by apply mark_layout).
  assert (HM : marked f (mark_state f g data' s') b false).
  { rewrite Eb. by eapply (mark_marked f Hok i g data data'). }
  assert (Hok' : alloc_ok (mark_state f g data' s')).
  { eapply (mark_ok f Hok i g data data' (index_of (sb f) b) false); try done.
    - apply (bytes_update Z.clearbit data (index_of (sb f) b)); [intros; by apply bytes_clearbit | done | done].
    - intros _. by rewrite <- Eb. }
  eexists. split; [done|]. split; [|by apply (marked_total _ (mark_state f g data' s'))].
  split; [by apply (alloc_ok_total (mark_state f g data' s'))|]. simpl.
  pose proof (unused_sum_bound f Hok). rewrite (unused_sum_insert _ _ g) by done. simpl.
  rewrite Ht, u32_small by lia. lia.
Qed.
