(* ===== verification/Ext2Map.v ===== *)
(** The block map of an ext2 file as a tree.  A position is a pointer of the
    inode followed by the indices taken through the indirect blocks behind it;
    the slot of a position is the block number found there.  The block map is
    correct when every operation is a change of a few named slots: blocks of a
    file are reached from one slot only, and are in use. *)
From stdpp Require Import base numbers list gmap.
From Stdlib Require Import ZArith ZifyBool Lia.
From S2P Require Import Prelude Bits Endian Ext2 Ext2Alloc.
Open Scope Z_scope.

(** * Positions and slots *)

(** The levels of indirect blocks behind pointer [k] of the inode. *)
Definition depth (k : Z) : nat := if k <? NDIRECT then 0 else Z.to_nat (k - 11).

Definition pos_ok (ppb : Z) (p : list Z) : Prop :=
  match p with
  | [] => False
  | k :: q => 0 <= k < 15 /\ (length q <= depth k)%nat /\ Forall (fun i => 0 <= i < ppb) q
  end.

(** The position of an indirect block: it has pointers. *)
Definition inner (p : list Z) : Prop :=
  match p with
  | [] => False
  | k :: q => (length q < depth k)%nat
  end.

Definition ptr_at (f : fs) (b i : Z) : Z :=
  match read_ptr f b i with Done v => v | _ => 0 end.

(** An empty pointer leads nowhere. *)
Definition follow (f : fs) (b i : Z) : Z := if b =? 0 then 0 else ptr_at f b i.

Definition slot (f : fs) (x : ext2_inode) (p : list Z) : Z :=
  match p with
  | [] => 0
  | k :: q => foldl (follow f) (default 0 (blk_ptrs x !! Z.to_nat k)) q
  end.

Definition node (f : fs) (x : ext2_inode) (b : Z) : Prop :=
  exists p, pos_ok (ptrs_per_blk f) p /\ slot f x p = b /\ b <> 0.
Definition inner_node (f : fs) (x : ext2_inode) (b : Z) : Prop :=
  exists p, pos_ok (ptrs_per_blk f) p /\ inner p /\ slot f x p = b /\ b <> 0.

Record file_ok (f : fs) (x : ext2_inode) : Prop := {
  file_ptrs : length (blk_ptrs x) = 15%nat;
  file_once : forall p q, pos_ok (ptrs_per_blk f) p -> pos_ok (ptrs_per_blk f) q ->
    slot f x p <> 0 -> slot f x p = slot f x q -> p = q;
  file_used : forall b, node f x b -> data_block f b /\ used f b = true;
}.

(** The position of a sector of the file; [None] past the largest file. *)
Definition path (ppb s : Z) : option (list Z) :=
  if s <? NDIRECT then Some [s]
  else
    let s := s - NDIRECT in
    if s <? ppb then Some [SINGLE; s]
    else
      let s := s - ppb in
      if s <? ppb * ppb then Some [DOUBLE; s / ppb; s mod ppb]
      else
        let s := s - ppb * ppb in
        if s <? ppb * ppb * ppb then Some [TRIPLE; s / ppb / ppb; (s / ppb) mod ppb; s mod ppb]
        else None.

(** The block that holds sector [s] of the file, or 0. *)
Definition mapped (f : fs) (x : ext2_inode) (s : Z) : Z :=
  match path (ptrs_per_blk f) s with Some p => slot f x p | None => 0 end.

(** * Positions *)

(** Splits on every comparison of the goal. *)
Ltac ltbs := repeat match goal with |- context [?a <? ?b] => destruct (Z.ltb_spec a b) end.

Lemma pos_ok_snoc ppb p i :
  p <> [] -> pos_ok ppb (p ++ [i]) <-> pos_ok ppb p /\ inner p /\ 0 <= i < ppb.
Proof.
  destruct p as [|k q]; [done|]. intros _. simpl. rewrite length_app, Forall_app, Forall_singleton.
  simpl. split; intros; split_and!; try tauto; lia.
Qed.

Lemma slot_snoc f x p i : p <> [] -> slot f x (p ++ [i]) = follow f (slot f x p) i.
Proof. destruct p as [|k q]; [done|]. intros _. simpl. by rewrite foldl_snoc. Qed.

(** Induction on positions, from the inode outwards. *)
Lemma pos_ind ppb (Q : list Z -> Prop) :
  (forall k, 0 <= k < 15 -> Q [k]) ->
  (forall p i, pos_ok ppb p -> inner p -> 0 <= i < ppb -> Q p -> Q (p ++ [i])) ->
  forall p, pos_ok ppb p -> Q p.
Proof.
  intros Hroot Hstep p. induction p as [|i p IH] using rev_ind; [done|].
  destruct p as [|k q]; [intros (? & _); by apply Hroot|].
  intros Hp. apply pos_ok_snoc in Hp as (Hp & Hi & Hr); [|done]. apply Hstep; auto.
Qed.

Lemma path_inj ppb s t p : 0 < ppb -> 0 <= s -> 0 <= t -> path ppb s = Some p -> path ppb t = Some p -> s = t.
Proof.
  intros Hp Hs Ht. unfold path, NDIRECT, SINGLE, DOUBLE, TRIPLE.
  ltbs; intros E1 E2; rewrite <- E1 in E2; try discriminate E1; try discriminate E2;
    injection E2; intros; try lia.
  - set (u := s - 12 - ppb) in *. set (w := t - 12 - ppb) in *. enough (u = w) by lia.
    rewrite (Z.div_mod u ppb), (Z.div_mod w ppb) by lia. congruence.
  - set (u := s - 12 - ppb - ppb * ppb) in *. set (w := t - 12 - ppb - ppb * ppb) in *.
    enough (u = w) by lia.
    rewrite (Z.div_mod u ppb), (Z.div_mod w ppb) by lia.
    rewrite (Z.div_mod (u / ppb) ppb), (Z.div_mod (w / ppb) ppb) by lia. congruence.
Qed.

Lemma path_ok ppb s p :
  0 < ppb -> 0 <= s -> path ppb s = Some p -> pos_ok ppb p /\ ~ inner p.
Proof.
  intros Hp Hs. unfold path, NDIRECT, SINGLE, DOUBLE, TRIPLE.
  ltbs; intros [= <-]; unfold depth, inner, depth, NDIRECT; simpl;
    rewrite ?Forall_cons, ?Forall_nil; split_and!; try done; try lia;
    try (apply Z.mod_pos_bound; lia); try (apply Z.div_pos; [|lia]); try (apply Z.div_pos; lia); try lia.
  all: try (ltbs; simpl; lia).
  - apply Z.div_lt_upper_bound; lia.
  - apply Z.div_lt_upper_bound; [lia|]. apply Z.div_lt_upper_bound; nia.
Qed.

(** * Reading and writing pointers *)

Section Blocks.
Context (f : fs) (Hok : fs_ok f).

Lemma ppb_values : ptrs_per_blk f = 256 \/ ptrs_per_blk f = 512 \/ ptrs_per_blk f = 1024.
Proof using Hok.
  unfold ptrs_per_blk. destruct (geo_bs _ (ok_geo _ (ok_alloc _ Hok))) as [->|[->| ->]]; auto.
Qed.

Lemma bs_ppb : block_size (sb f) = 4 * ptrs_per_blk f.
Proof using Hok.
  unfold ptrs_per_blk. destruct (geo_bs _ (ok_geo _ (ok_alloc _ Hok))) as [->|[->| ->]]; auto.
Qed.

Lemma ppb_pos : 0 < ptrs_per_blk f.
Proof using Hok. destruct ppb_values; lia. Qed.

Lemma block_shape b data : disk f !! b = Some data -> Z.of_nat (length data) = 4 * ptrs_per_blk f /\ bytes data.
Proof using Hok.
  intros Hb. destruct (ok_blocks _ (ok_alloc _ Hok) _ _ Hb) as [Hl ?]. rewrite bs_ppb in Hl.
  split; [pose proof ppb_pos; lia | done].
Qed.

Lemma read_ptr_total b i : is_Some (disk f !! b) -> 0 <= i < ptrs_per_blk f -> read_ptr f b i = Done (ptr_at f b i).
Proof using Hok.
  intros [data Hb] Hi. unfold ptr_at, read_ptr, block_data. rewrite Hb. obind.
  destruct (block_shape _ _ Hb) as [Hl _]. rewrite get_le_total by lia. done.
Qed.

Lemma ptr_at_bound b i : 0 <= ptr_at f b i < 2 ^ 32.
Proof using Hok.
  unfold ptr_at, read_ptr, block_data. destruct (disk f !! b) as [data|] eqn:Hb; [|simpl; lia]. obind.
  destruct (block_shape _ _ Hb) as [_ Hy]. destruct (get_le 4 data (4 * i)) eqn:E; try lia.
  apply get_le_bound in E; [|lia | done]. change (256 ^ 4) with (2 ^ 32) in E. lia.
Qed.

(** Writing the contents of a block that is neither a bitmap nor new. *)
Lemma block_write_ok b data :
  is_Some (disk f !! b) -> ~ bitmap_block (sb f) b -> Z.of_nat (length data) = 4 * ptrs_per_blk f -> bytes data ->
  fs_ok (block_write f b data) /\ (forall c, used (block_write f b data) c = used f c) /\
  (forall c, data_block (block_write f b data) c <-> data_block f c).
Proof using Hok.
  intros Hb Hn Hl Hy. destruct Hok as [[G HB HM HF HU] HT].
  assert (Hdom : forall c, is_Some (<[b := data]> (disk f) !! c) <-> is_Some (disk f !! c)).
  { intros c. destruct (decide (c = b)) as [->|]; [rewrite lookup_insert_eq; split; eauto | by rewrite lookup_insert_ne]. }
  assert (Hbm : forall i g, groups (sb f) !! i = Some g ->
    <[b := data]> (disk f) !! block_nr_block_bitmap g = disk f !! block_nr_block_bitmap g).
  { intros i g Hg. apply lookup_insert_ne. intros ->. apply Hn. by exists i, g. }
  assert (Hused : forall c, used (block_write f b data) c = used f c).
  { intros c. unfold used. simpl. destruct (groups (sb f) !! _) as [g|] eqn:Eg; [|done]. by rewrite (Hbm _ _ Eg). }
  assert (Hdata : forall c, data_block (block_write f b data) c <-> data_block f c).
  { intros c. unfold data_block. simpl. by rewrite Hdom. }
  split_and!; [|done | done]. split; [|done]. split; simpl; [done | | | |].
  - intros c d Hc. destruct (decide (c = b)) as [->|].
    + rewrite lookup_insert_eq in Hc. injection Hc as <-. split; [rewrite bs_ppb; lia | done].
    + rewrite lookup_insert_ne in Hc by done. by apply (HB c).
  - intros c Hc. apply Hdom. by apply HM.
  - intros c [Hr Hu]. apply Hdata, HF. split; [done|]. by rewrite <- Hused.
  - intros i g d Hg Hd. rewrite (Hbm _ _ Hg) in Hd. by apply (HU i g d).
Qed.

Lemma block_fill_ok b data :
  is_Some (disk f !! b) -> ~ bitmap_block (sb f) b -> Z.of_nat (length data) = 4 * ptrs_per_blk f -> bytes data ->
  fs_ok (block_fill f b data) /\ (forall c, used (block_fill f b data) c = used f c) /\
  (forall c, data_block (block_fill f b data) c <-> data_block f c).
Proof using Hok.
  intros Hb Hn Hl Hy. destruct (block_write_ok b data Hb Hn Hl Hy) as ([[G HB HM HF HU] HT] & H2 & H3). split_and!; [|done | done]. split; [by split | done].
Qed.
End Blocks.

(** Pointers read from the same block are the same. *)
Lemma ptr_at_agree f f' b i : disk f' !! b = disk f !! b -> ptr_at f' b i = ptr_at f b i.
Proof. intros E. unfold ptr_at, read_ptr, block_data. by rewrite E. Qed.

Lemma write_ptr_spec f b i v :
  fs_ok f -> is_Some (disk f !! b) -> ~ bitmap_block (sb f) b -> 0 <= i < ptrs_per_blk f -> 0 <= v < 2 ^ 32 ->
  exists f', write_ptr f b i v = Done f' /\ sb f' = sb f /\ fs_ok f' /\
    (forall c, used f' c = used f c) /\ (forall c, data_block f' c <-> data_block f c) /\
    (forall c, c <> b -> disk f' !! c = disk f !! c) /\ (forall c, c <> b -> c ∈ filled f' <-> c ∈ filled f) /\
    (forall c j, 0 <= j < ptrs_per_blk f -> ptr_at f' c j = if decide (c = b /\ j = i) then v else ptr_at f c j).
Proof.
  intros Hok [data Hb] Hn Hi Hv. unfold write_ptr, block_data. rewrite Hb. obind.
  destruct (block_shape f Hok _ _ Hb) as [Hl Hy].
  rewrite (put_le_total 4 data ltac:(lia) (4 * i) v) by lia. obind.
  set (data' := splice _ _ _). assert (Hp : put_le 4 data (4 * i) v = Done data') by (apply put_le_total; lia).
  destruct (put_le_shape _ _ _ _ _ Hp) as [Hl' Hy'].
  destruct (block_write_ok f Hok b data') as (H1 & H2 & H3); [by eauto | done | lia | auto |].
  exists (block_write f b data'). split_and!; try done.
  - intros c Hc. simpl. by apply lookup_insert_ne.
  - intros c Hc. simpl. rewrite elem_of_difference, elem_of_singleton. tauto.
  - intros c j Hj. destruct (decide (c = b)) as [->|Hne].
    + unfold ptr_at, read_ptr, block_data. simpl. rewrite lookup_insert_eq, Hb. obind.
      destruct (decide (j = i)) as [->|Hji].
      * rewrite (get_put_same 4 data ltac:(lia) _ _ _ Hp). change (256 ^ 4) with (2 ^ 32).
        rewrite Z.mod_small by lia. case_decide; tauto.
      * rewrite (get_put_other 4 4 data (4 * i) (4 * j) v data') by (done || lia). case_decide; tauto.
    + case_decide; [tauto|]. apply ptr_at_agree. simpl. by apply lookup_insert_ne.
Qed.

(** * The slots of a file under changes of the disk *)

Section File.
Context (f : fs) (x : ext2_inode) (Hok : fs_ok f) (Hx : file_ok f x).

Lemma slot_block p : pos_ok (ptrs_per_blk f) p -> slot f x p <> 0 ->
  data_block f (slot f x p) /\ used f (slot f x p) = true.
Proof using Hx. intros Hp Hne. apply (file_used _ _ Hx). by exists p. Qed.

(** What keeps the contents of the indirect blocks keeps the slots. *)
Lemma slot_agree f' x' :
  (forall b, inner_node f x b -> disk f' !! b = disk f !! b) -> blk_ptrs x' = blk_ptrs x ->
  forall p, pos_ok (ptrs_per_blk f) p -> slot f' x' p = slot f x p.
Proof using Type.
  intros Hd Ex. apply pos_ind.
  - intros k Hk. simpl. by rewrite Ex.
  - intros p i Hp Hi Hr IH. rewrite !slot_snoc by (by intros ->). rewrite IH. unfold follow.
    destruct (Z.eqb_spec (slot f x p) 0); [done|]. apply ptr_at_agree, Hd. by exists p.
Qed.

(** Linking block [v] into an empty slot changes just that slot: pointer [i] of
    the indirect block at [p] becomes [v], whose own pointers are all zero. *)
Lemma slot_link f' p i v :
  ptrs_per_blk f' = ptrs_per_blk f ->
  pos_ok (ptrs_per_blk f) (p ++ [i]) -> p <> [] -> slot f x p <> 0 -> slot f x (p ++ [i]) = 0 -> v <> 0 ->
  ~ node f x v ->
  (inner (p ++ [i]) -> forall j, 0 <= j < ptrs_per_blk f -> ptr_at f v j = 0) ->
  (forall c j, 0 <= j < ptrs_per_blk f -> ptr_at f' c j = if decide (c = slot f x p /\ j = i) then v else ptr_at f c j) ->
  forall q, pos_ok (ptrs_per_blk f) q -> slot f' x q = if decide (q = p ++ [i]) then v else slot f x q.
Proof using Hx.
  intros Hpp HP Hp HB H0 Hv Hnode Hz Hptr. apply pos_ok_snoc in HP as (Hpok & Hpi & Hir); [|done].
  apply pos_ind.
  - intros k Hk. case_decide as E; [|done]. destruct p as [|? [|]]; done.
  - intros q j Hq Hqi Hj IH. assert (Hqn : q <> []) by (by intros ->). rewrite !slot_snoc by done. rewrite IH.
    unfold follow. case_decide as Eq.
    + subst q. rewrite H0. simpl. destruct (Z.eqb_spec v 0); [done|]. rewrite Hptr by done.
      assert (Hvp : v <> slot f x p). { intros E. apply Hnode. exists p. by rewrite <- E. }
      rewrite decide_False by tauto. rewrite Hz by done.
      case_decide as E; [|done]. apply (f_equal length) in E. rewrite !length_app in E. simpl in E. lia.
    + destruct (Z.eqb_spec (slot f x q) 0) as [E0|E0].
      * case_decide as E; [|done]. apply app_inj_tail in E as [-> ->]. done.
      * rewrite Hptr by done. destruct (decide (q = p)) as [->|Hne].
        { destruct (decide (j = i)) as [->|]; [by rewrite !decide_True by done|].
          rewrite !decide_False; [done | | tauto]. intros E. apply app_inj_tail in E. tauto. }
        rewrite !decide_False; [done | |].
        { intros E. apply app_inj_tail in E. tauto. }
        intros [E _]. apply Hne. by apply (file_once _ _ Hx).
Qed.

(** The same for a pointer of the inode. *)
Lemma slot_link_root x' k v :
  0 <= k < 15 -> blk_ptrs x' = <[Z.to_nat k := v]> (blk_ptrs x) -> slot f x [k] = 0 -> v <> 0 ->
  (inner [k] -> forall j, 0 <= j < ptrs_per_blk f -> ptr_at f v j = 0) ->
  forall q, pos_ok (ptrs_per_blk f) q -> slot f x' q = if decide (q = [k]) then v else slot f x q.
Proof using Hx.
  intros Hk Ex H0 Hv Hz. pose proof (file_ptrs _ _ Hx) as Hlen. apply pos_ind.
  - intros k' Hk'. simpl. rewrite Ex. case_decide as E.
    + injection E as ->. rewrite list_lookup_insert_eq by lia. done.
    + rewrite list_lookup_insert_ne; [done|]. intros E'. apply E. f_equal. lia.
  - intros q j Hq Hqi Hj IH. assert (Hqn : q <> []) by (by intros ->). rewrite !slot_snoc by done. rewrite IH.
    rewrite (decide_False (P := q ++ [j] = [k])).
    2: { intros E. apply (f_equal length) in E. rewrite length_app in E. destruct q; [done | simpl in E; lia]. }
    case_decide as Eq; [|done]. subst q. rewrite H0. unfold follow. simpl.
    destruct (Z.eqb_spec v 0); [done|]. by apply Hz.
Qed.
End File.

(** * Growing a file *)

(** Everything of the inode but its pointers and its block count. *)
Definition same_file (x x' : ext2_inode) : Prop :=
  exists n l, x' = set_ptrs l (set_vfs (set_blocks n) x).

Lemma same_file_refl x : same_file x x.
Proof. exists (blocks (vfs x)), (blk_ptrs x). by destruct x as [[] ? ? ? ?]. Qed.

Lemma same_file_trans x y z : same_file x y -> same_file y z -> same_file x z.
Proof. intros (n & l & ->) (m & k & ->). by exists m, k. Qed.

(** [f'] is [f] with the free block [v] taken and filled with zeros. *)
Record fresh (f f' : fs) (v : Z) : Prop := {
  fresh_free : free f v;
  fresh_layout : layout (sb f') = layout (sb f);
  fresh_used : forall c, in_range (sb f) c -> used f' c = if decide (c = v) then true else used f c;
  fresh_frame : forall n, ~ bitmap_block (sb f) n -> n <> v -> disk f' !! n = disk f !! n;
  fresh_zero : disk f' !! v = Some (replicate (Z.to_nat (block_size (sb f))) 0);
  fresh_data : forall c, data_block f' c <-> data_block f c;
  fresh_filled : forall n, ~ bitmap_block (sb f) n -> n ∈ filled f' <-> n = v \/ n ∈ filled f;
}.

(** A step that fills empty slots of a file, all of them in [L]. *)
Record grow (L : list Z -> Prop) (f : fs) (x : ext2_inode) (f' : fs) (x' : ext2_inode) : Prop := {
  gr_ok : fs_ok f';
  gr_layout : layout (sb f') = layout (sb f);
  gr_file : file_ok f' x';
  gr_same : same_file x x';
  gr_slots : forall q, pos_ok (ptrs_per_blk f) q -> ~ L q -> slot f' x' q = slot f x q;
  gr_keep : forall q, pos_ok (ptrs_per_blk f) q -> slot f x q <> 0 -> slot f' x' q = slot f x q;
  gr_new : forall q, pos_ok (ptrs_per_blk f) q -> inner q -> slot f x q = 0 -> slot f' x' q <> 0 -> free f (slot f' x' q);
  gr_used : forall c, in_range (sb f) c -> used f' c = true <-> used f c = true \/ node f' x' c;
  gr_data : forall c, data_block f c -> data_block f' c;
  gr_frame : forall n, ~ bitmap_block (sb f) n -> ~ free f n -> ~ inner_node f x n -> disk f' !! n = disk f !! n;
  gr_filled : forall n, ~ bitmap_block (sb f) n -> ~ free f n -> ~ inner_node f x n -> n ∈ filled f -> n ∈ filled f';
}.

Lemma layout_ppb f f' : layout (sb f') = layout (sb f) -> ptrs_per_blk f' = ptrs_per_blk f.
Proof. intros HL. unfold ptrs_per_blk. f_equal. by injection HL. Qed.

Lemma grow_refl L f x : fs_ok f -> file_ok f x -> grow L f x f x.
Proof.
  intros Hok Hx. split; try done; [apply same_file_refl|].
  intros c Hc. split; [by left|]. intros [?|Hn]; [done|]. by apply (file_used _ _ Hx).
Qed.

Lemma grow_weaken (L L' : list Z -> Prop) f x f' x' : (forall q, L q -> L' q) -> grow L f x f' x' -> grow L' f x f' x'.
Proof. intros H []. split; auto. Qed.

Lemma grow_trans L f x f1 x1 f2 x2 : grow L f x f1 x1 -> grow L f1 x1 f2 x2 -> grow L f x f2 x2.
Proof.
  intros H1 H2. pose proof (layout_ppb _ _ (gr_layout _ _ _ _ _ H1)) as Ep.
  pose proof (gr_layout _ _ _ _ _ H1) as EL.
  assert (Hr : forall c, in_range (sb f1) c <-> in_range (sb f) c) by (intros; by apply layout_range).
  assert (Hfree : forall c, free f1 c -> free f c).
  { intros c [Hc Hu]. apply Hr in Hc. split; [done|]. destruct (used f c) eqn:E; [|done].
    rewrite (proj2 (gr_used _ _ _ _ _ H1 c Hc)) in Hu; auto. }
  assert (Hside : forall n, ~ bitmap_block (sb f) n -> ~ free f n -> ~ inner_node f x n -> ~ bitmap_block (sb f1) n /\ ~ free f1 n /\ ~ inner_node f1 x1 n).
  { intros n Hb Hf Hi. split_and!; [by rewrite (layout_bitmap _ _ _ EL) | intros Hc; by apply Hf, Hfree|].
    intros (q & Hq & Hqi & E & Hne). rewrite Ep in Hq. destruct (decide (slot f x q = 0)) as [E0|E0].
    - apply Hf. rewrite <- E. apply (gr_new _ _ _ _ _ H1); [done | done | done | by rewrite E].
    - apply Hi. exists q. rewrite <- E. rewrite (gr_keep _ _ _ _ _ H1) by done. split_and!; try done. }
  split.
  - apply H2.
  - rewrite (gr_layout _ _ _ _ _ H2). done.
  - apply H2.
  - eapply same_file_trans; [apply H1 | apply H2].
  - intros q Hq Hn. rewrite (gr_slots _ _ _ _ _ H2), (gr_slots _ _ _ _ _ H1); rewrite ?Ep; done.
  - intros q Hq Hne. pose proof (gr_keep _ _ _ _ _ H1 q Hq Hne) as E.
    rewrite (gr_keep _ _ _ _ _ H2); rewrite ?Ep, ?E; done.
  - intros q Hq Hi H0 Hne. destruct (decide (slot f1 x1 q = 0)) as [E|E].
    + apply Hfree. apply (gr_new _ _ _ _ _ H2); rewrite ?Ep; done.
    + rewrite (gr_keep _ _ _ _ _ H2) in Hne |- *; rewrite ?Ep; try done. by apply (gr_new _ _ _ _ _ H1).
  - intros c Hc. rewrite (gr_used _ _ _ _ _ H2) by (by apply Hr). rewrite (gr_used _ _ _ _ _ H1) by done.
    split; [|tauto]. intros [[?|(q & Hq & <- & Hne)]|?]; [by left | | by right].
    right. exists q. rewrite (layout_ppb _ _ (gr_layout _ _ _ _ _ H2)). split; [done|].
    split; [|done]. by apply (gr_keep _ _ _ _ _ H2).
  - intros c Hc. by apply (gr_data _ _ _ _ _ H2), (gr_data _ _ _ _ _ H1).
  - intros n Hb Hf Hi. destruct (Hside n Hb Hf Hi) as (? & ? & ?). rewrite (gr_frame _ _ _ _ _ H2) by done. by apply (gr_frame _ _ _ _ _ H1).
  - intros n Hb Hf Hi Hn. destruct (Hside n Hb Hf Hi) as (? & ? & ?). apply (gr_filled _ _ _ _ _ H2); [done..|]. by apply (gr_filled _ _ _ _ _ H1).
Qed.

(** A step that fills the one slot [P] with a block no other slot holds. *)
Lemma grow_one f x f' x' P v :
  fs_ok f -> file_ok f x -> fs_ok f' -> layout (sb f') = layout (sb f) -> same_file x x' -> length (blk_ptrs x') = 15%nat ->
  pos_ok (ptrs_per_blk f) P ->
  (forall q, pos_ok (ptrs_per_blk f) q -> slot f' x' q = if decide (q = P) then v else slot f x q) ->
  slot f x P = 0 -> v <> 0 -> ~ node f x v -> (inner P -> free f v) ->
  (forall c, data_block f c -> data_block f' c) -> data_block f' v -> used f' v = true ->
  (forall c, in_range (sb f) c -> used f' c = true <-> used f c = true \/ c = v) ->
  (forall n, ~ bitmap_block (sb f) n -> ~ free f n -> ~ inner_node f x n -> disk f' !! n = disk f !! n) ->
  (forall n, ~ bitmap_block (sb f) n -> ~ free f n -> ~ inner_node f x n -> n ∈ filled f -> n ∈ filled f') ->
  grow (eq P) f x f' x'.
Proof.
  intros Hok Hx Hok' HL Hsame Hlen HP Hslot H0 Hv Hnode Hfree Hdata Hdv Huv Hu Hframe Hfill.
  pose proof (layout_ppb _ _ HL) as Ep.
  assert (Hn : forall b, node f' x' b <-> node f x b \/ b = v).
  { intros b. unfold node. rewrite Ep. split.
    - intros (q & Hq & E & Hne). rewrite Hslot in E by done. case_decide; [by right | left]. by exists q.
    - intros [(q & Hq & E & Hne)| ->].
      + exists q. rewrite Hslot by done. rewrite decide_False by (intros ->; congruence). done.
      + exists P. rewrite Hslot by done. by rewrite decide_True. }
  split; try done.
  - split; [done | |].
    + rewrite Ep. intros p q Hp Hq. rewrite !Hslot by done. repeat case_decide; subst; try done.
      * intros _ E. exfalso. apply Hnode. by exists q.
      * intros Hne E. exfalso. apply Hnode. exists p. done.
      * by apply (file_once _ _ Hx).
    + intros b Hb. apply Hn in Hb as [Hb| ->]; [|done]. destruct (file_used _ _ Hx b Hb) as [Hd Hb'].
      split; [by apply Hdata|]. apply Hu; [apply Hd | by left].
  - intros q Hq Hne. rewrite Hslot by done. by rewrite decide_False by (intros ->; done).
  - intros q Hq Hne. rewrite Hslot by done. rewrite decide_False by (intros ->; done). done.
  - intros q Hq Hi E Hne. rewrite Hslot in Hne |- * by done. case_decide; [subst; auto | done].
  - intros c Hc. rewrite Hu, Hn by done. split; [tauto|]. intros [?|[Hc'|?]]; auto.
    left. by apply (file_used _ _ Hx).
Qed.
