(* ===== verification/Ext2Demo.v ===== *)
(** A small ext2 file system on which the theorems about ext2 are evaluated:
    one group of sixteen blocks of 1024 bytes, of which blocks 8 to 16 are free,
    and three inodes on it, an empty file, a file of one block, and a file with
    one sector behind its double indirect pointer. *)
From stdpp Require Import base numbers list gmap.
From Stdlib Require Import ZArith ZifyBool Lia.
From S2P Require Import Prelude Bits Endian Ext2 Ext2Alloc Ext2Map.
Open Scope Z_scope.

Definition demo_sb : ext2_super_block := {|
  block_size := 1024; block_group_count := 1;
  disksb := {| inode_total := 16; block_total := 16; block_unused_total := 9; inode_unused_total := 5; sb_block_number := 1;
               blocks_per_block_group := 8192; inodes_per_block_group := 16; first_inode := 11; inode_entry_size := 128 |};
  groups := [{| block_nr_block_bitmap := 3; block_nr_inode_bitmap := 2; block_nr_inode_table := 4;
                group_block_unused := 9; group_inode_unused := 5; directory_count := 1 |}] |}.

Definition demo_bitmap : list Z := 127 :: replicate 1023 0.
(** A block that holds one pointer, in its first place. *)
Definition demo_ptr (b : Z) : list Z := b :: replicate 1023 0.
Definition demo_data : list Z := replicate 1024 7.
Definition demo_zero : list Z := replicate 1024 0.

(** Block 5 points to block 6, block 6 to block 7, which holds data. *)
Definition demo_disk : gmap Z (list Z) :=
  <[3 := demo_bitmap]> (<[5 := demo_ptr 6]> (<[6 := demo_ptr 7]> (<[7 := demo_data]>
    (gset_to_gmap demo_zero (list_to_set (seqZ 1 16)))))).

Definition demo : fs := {| sb := demo_sb; disk := demo_disk; filled := ∅ |}.

Definition demo_inode (sz : Z) (ptrs : list Z) : ext2_inode := {|
  vfs := {| ino := 12; dev_no := 0; size := sz; mode := 0x81A4; nlinks := 1; blocks := 0; atime := 0; mtime := 0; ctime := 0;
            uid := 0; gid := 0; dirty := false |};
  inode_group_blk_nr := 4; inode_group_blk_offset := 0; dtime := 0; blk_ptrs := ptrs |}.

Definition demo_empty : ext2_inode := demo_inode 0 (replicate 15 0).
Definition demo_small : ext2_inode := demo_inode 100 (7 :: replicate 14 0).
Definition demo_big : ext2_inode := demo_inode 300000 (replicate 13 0 ++ [5; 0]).

Lemma demo_lookup n data :
  disk demo !! n = Some data ->
  (n = 3 /\ data = demo_bitmap) \/ (n = 5 /\ data = demo_ptr 6) \/ (n = 6 /\ data = demo_ptr 7) \/
  (n = 7 /\ data = demo_data) \/ (n <> 3 /\ 1 <= n <= 16 /\ data = demo_zero).
Proof.
  unfold demo, demo_disk. cbn [disk]. rewrite !lookup_insert_Some, lookup_gset_to_gmap_Some.
  rewrite elem_of_list_to_set, elem_of_seqZ.
  intros [[<- <-]|[? [[<- <-]|[? [[<- <-]|[? [[<- <-]|[? [Hn <-]]]]]]]]]; auto 7. do 4 right. split; [done|]. split; [lia | done].
Qed.

Lemma demo_blocks n : 1 <= n <= 16 -> is_Some (disk demo !! n).
Proof.
  intros Hn. unfold demo, demo_disk. cbn [disk]. rewrite !lookup_insert_is_Some', lookup_gset_to_gmap.
  do 4 right. rewrite option_guard_True; [done|]. rewrite elem_of_list_to_set, elem_of_seqZ. lia.
Qed.

Lemma demo_used b : 1 <= b <= 16 -> used demo b = (b <? 8).
Proof.
  intros Hb. assert (Hin : b ∈ seqZ 1 16) by (apply elem_of_seqZ; lia).
  assert (HF : Forall (fun b => used demo b = (b <? 8)) (seqZ 1 16)) by (repeat constructor).
  by rewrite Forall_forall in HF; apply HF.
Qed.

Lemma demo_bitmap_block n : bitmap_block (sb demo) n -> n = 3.
Proof. intros (i & g & Hi & <-). destruct i as [|[|i]]; simpl in Hi; try done. by injection Hi as <-. Qed.

Lemma demo_data_block b : 1 <= b <= 16 -> b <> 3 -> data_block demo b.
Proof.
  intros Hb H3. split; [unfold in_range; simpl; lia|]. split; [lia|]. split; [by apply demo_blocks|].
  intros ?%demo_bitmap_block. lia.
Qed.

Lemma bytes_head b n z : 0 <= b < 256 -> 0 <= z < 256 -> bytes (b :: replicate n z).
Proof. intros. constructor; [lia|]. apply Forall_replicate. lia. Qed.

Lemma demo_ok : fs_ok demo.
Proof.
  split; [split|done].
  - split; [by left | done | simpl; lia | simpl; lia | simpl; lia | simpl; lia |]. intros [|[|i]] [|[|j]] g h Hg Hh; simpl in *; done.
  - intros n data Hd. apply demo_lookup in Hd as [[_ ->]|[[_ ->]|[[_ ->]|[[_ ->]|(_ & _ & ->)]]]];
      (split; [done|]); try (apply bytes_head; lia); apply Forall_replicate; lia.
  - intros n ->%demo_bitmap_block. by apply demo_blocks.
  - intros b [Hr Hu]. unfold in_range in Hr. simpl in Hr. rewrite demo_used in Hu by lia. apply demo_data_block; lia.
  - intros [|[|i]] g data Hg; simpl in Hg; try done. injection Hg as <-. cbn [block_nr_block_bitmap].
    intros Hd. apply demo_lookup in Hd as [[_ ->]|[[? _]|[[? _]|[[? _]|[? _]]]]]; done.
Qed.

(** A file is well-formed when the positions that hold a block are listed. *)
Lemma file_ok_list f x (l : list (list Z * Z)) :
  length (blk_ptrs x) = 15%nat -> NoDup l.*2 ->
  (forall p, pos_ok (ptrs_per_blk f) p -> slot f x p <> 0 -> (p, slot f x p) ∈ l) ->
  (forall b, b ∈ l.*2 -> data_block f b /\ used f b = true) -> file_ok f x.
Proof.
  intros Hlen Hnd Hl Hd. split; [done | |].
  - intros p q Hp Hq Hne E. pose proof (Hl p Hp Hne) as H1. assert (H2 : (q, slot f x p) ∈ l) by (rewrite E; apply Hl; congruence).
    apply list_elem_of_lookup in H1 as [i Hi]. apply list_elem_of_lookup in H2 as [j Hj].
    assert (i = j) as ->; [|congruence].
    apply (NoDup_lookup l.*2 i j (slot f x p)); [done | by rewrite list_lookup_fmap, Hi | by rewrite list_lookup_fmap, Hj].
  - intros b (p & Hp & <- & Hne). apply Hd, list_elem_of_fmap. exists (p, slot f x p). split; [done | by apply Hl].
Qed.

Lemma foldl_follow_zero f q : foldl (follow f) 0 q = 0.
Proof. induction q; [done|]. simpl. unfold follow at 2. simpl. done. Qed.

Lemma demo_ptr_at b c i :
  disk demo !! b = Some (demo_ptr c) -> 0 <= i < 256 -> ptr_at demo b i = if i =? 0 then c else 0.
Proof.
  intros Hb Hi. unfold ptr_at, read_ptr, block_data. rewrite Hb. obind. unfold demo_ptr.
  rewrite get_le_total by (simpl length; rewrite ?length_replicate; lia).
  destruct (Z.eqb_spec i 0) as [->|Hne]; [simpl; lia|].
  destruct (Z.to_nat (4 * i)) as [|k] eqn:Ek; [lia|]. cbn [drop]. rewrite drop_replicate, take_replicate. apply le_value_zeros.
Qed.

Lemma demo_empty_slot p : slot demo demo_empty p = 0.
Proof.
  destruct p as [|k q]; [done|]. cbn [slot demo_empty demo_inode blk_ptrs].
  destruct (replicate 15 0 !! Z.to_nat k) as [b|] eqn:E; [apply lookup_replicate_1 in E as [-> _]|]; apply foldl_follow_zero.
Qed.

Lemma demo_empty_ok : file_ok demo demo_empty.
Proof.
  apply (file_ok_list _ _ []); [done | constructor | | intros b Hb; by apply elem_of_nil in Hb].
  intros p _ Hne. by rewrite demo_empty_slot in Hne.
Qed.

Lemma demo_small_ok : file_ok demo demo_small.
Proof.
  apply (file_ok_list _ _ [([0], 7)]); [done | apply NoDup_singleton | |].
  - intros [|k q] Hp Hne; [done|]. cbn [slot demo_small demo_inode blk_ptrs] in *. destruct Hp as (Hk & Hq & _).
    destruct (decide (k = 0)) as [->|Hk0].
    + destruct q; [|change (depth 0) with 0%nat in Hq; simpl in Hq; lia]. by apply list_elem_of_singleton.
    + exfalso. apply Hne. destruct (Z.to_nat k) as [|i] eqn:E; [lia|]. change ((7 :: replicate 14 0) !! S i) with (replicate 14 0 !! i). rewrite lookup_replicate_2 by lia.
      apply foldl_follow_zero.
  - intros b Hb. simpl in Hb. apply list_elem_of_singleton in Hb as ->. split; [apply demo_data_block; lia | by rewrite demo_used by lia].
Qed.

Lemma demo_big_ok : file_ok demo demo_big.
Proof.
  apply (file_ok_list _ _ [([13], 5); ([13; 0], 6); ([13; 0; 0], 7)]); [done | by apply (bool_decide_unpack _) | |].
  - intros [|k q] Hp Hne; [done|]. cbn [slot demo_big demo_inode blk_ptrs] in *. destruct Hp as (Hk & Hq & HF).
    destruct (decide (k = 13)) as [->|Hk13].
    2: { exfalso. apply Hne. destruct (decide (k = 14)) as [->|Hk14]; [apply foldl_follow_zero|].
         rewrite lookup_app_l, lookup_replicate_2 by (rewrite ?length_replicate; lia). apply foldl_follow_zero. }
    change (ptrs_per_blk demo) with 256 in HF. simpl in Hne |- *.
    destruct q as [|i q]; [set_solver|]. apply Forall_cons in HF as [Hi HF]. simpl in Hne |- *.
    unfold follow in Hne at 2. unfold follow at 2. change (5 =? 0) with false in *. cbn iota in *.
    rewrite (demo_ptr_at 5 6) in * by done. destruct (Z.eqb_spec i 0) as [->|_]; [|by rewrite foldl_follow_zero in Hne].
    destruct q as [|j q]; [set_solver|]. apply Forall_cons in HF as [Hj HF]. simpl in Hne |- *.
    unfold follow in Hne at 2. unfold follow at 2. change (6 =? 0) with false in *. cbn iota in *.
    rewrite (demo_ptr_at 6 7) in * by done. destruct (Z.eqb_spec j 0) as [->|_]; [|by rewrite foldl_follow_zero in Hne].
    destruct q; [set_solver|]. unfold depth in Hq. simpl in Hq. lia.
  - intros b Hb. simpl in Hb. assert (b = 5 \/ b = 6 \/ b = 7) as Hb' by set_solver.
    split; [apply demo_data_block; lia | rewrite demo_used by lia; lia].
Qed.

(** The file of one block has no other. *)
Lemma demo_small_mapped t : 0 < t -> mapped demo demo_small t = 0.
Proof.
  intros Ht. unfold mapped. destruct (path _ t) as [p|] eqn:Ep; [|done].
  destruct (decide (slot demo demo_small p = 0)) as [|Hne]; [done|]. exfalso.
  destruct (path_ok _ t p (ppb_pos demo demo_ok) ltac:(lia) Ep) as [Hp _]. destruct p as [|k q]; [done|].
  destruct Hp as (Hk & _ & _). destruct (decide (k = 0)) as [->|Hk0].
  - unfold path, NDIRECT, SINGLE, DOUBLE, TRIPLE in Ep. revert Ep. ltbs; try done. intros [= -> _]. lia.
  - apply Hne. cbn [slot demo_small demo_inode blk_ptrs]. destruct (Z.to_nat k) as [|i] eqn:E; [lia|].
    change ((7 :: replicate 14 0) !! S i) with (replicate 14 0 !! i). rewrite lookup_replicate_2 by lia. apply foldl_follow_zero.
Qed.
