(* ===== verification/Ext2Bmap.v ===== *)
(** Correctness of [ext2_bmap] and [ext2_bmap_alloc]: the first reads the slot
    of a sector, the second fills it when it is empty and leaves every other
    sector of the file, and every block of other files, as they were. *)
From stdpp Require Import base numbers list gmap.
From Stdlib Require Import ZArith ZifyBool Lia.
From S2P Require Import Prelude Bits Endian Ext2 Ext2Alloc Ext2Map Ext2Demo.
Open Scope Z_scope.

(** * Reading the map *)

Lemma root_get f x k : file_ok f x -> 0 <= k < 15 -> arr_get (blk_ptrs x) k = Done (slot f x [k]).
Proof.
  intros Hx Hk. destruct (arr_get_total (blk_ptrs x) k) as [v Hv]; [rewrite (file_ptrs _ _ Hx); lia|].
  rewrite Hv. apply arr_get_done in Hv as [_ Hv]. simpl. by rewrite Hv.
Qed.

Lemma child_get f x p i :
  fs_ok f -> file_ok f x -> pos_ok (ptrs_per_blk f) p -> inner p -> 0 <= i < ptrs_per_blk f -> slot f x p <> 0 ->
  read_ptr f (slot f x p) i = Done (slot f x (p ++ [i])).
Proof.
  intros Hok Hx Hp Hi Hr Hne. rewrite slot_snoc by (by intros ->). unfold follow.
  destruct (Z.eqb_spec (slot f x p) 0); [done|]. apply read_ptr_total; [done | | done].
  by apply (slot_block f x Hx p).
Qed.

Lemma next_level_spec f x p i :
  fs_ok f -> file_ok f x -> pos_ok (ptrs_per_blk f) p -> inner p -> 0 <= i < ptrs_per_blk f ->
  next_level f (slot f x p) i = Done (slot f x (p ++ [i])).
Proof.
  intros Hok Hx Hp Hi Hr. unfold next_level. destruct (Z.eqb_spec (slot f x p) 0) as [E|E].
  - rewrite slot_snoc by (by intros ->). unfold follow. by rewrite E.
  - by apply child_get.
Qed.

Definition sector_known (f : fs) (x : ext2_inode) (s : Z) : Prop :=
  0 <= s /\ (s < NDIRECT \/ s <= u32 (Z.quot (size (vfs x)) (block_size (sb f)))).

Lemma pos_root ppb k : 0 <= k < 15 -> pos_ok ppb [k].
Proof. intros. unfold pos_ok. simpl. split_and!; try lia. done. Qed.

Lemma pos_behind ppb k q i :
  12 <= k < 15 -> (length q < Z.to_nat (k - 11))%nat -> Forall (fun i => 0 <= i < ppb) q -> 0 <= i < ppb ->
  pos_ok ppb (k :: q) /\ inner (k :: q) /\ pos_ok ppb ((k :: q) ++ [i]).
Proof.
  intros Hk Hl Hq Hi. assert (Hd : depth k = Z.to_nat (k - 11)).
  { unfold depth, NDIRECT. destruct (Z.ltb_spec k 12); [lia | done]. }
  assert (pos_ok ppb (k :: q) /\ inner (k :: q)) as [? ?].
  { unfold pos_ok, inner. rewrite Hd. split_and!; try done; lia. }
  split_and!; [done | done |]. by apply pos_ok_snoc.
Qed.

(** The indices of a sector behind each of the three indirect pointers. *)
Lemma index_bounds ppb s :
  0 < ppb ->
  (0 <= s < ppb -> s / ppb = 0 /\ s mod ppb = s) /\
  (0 <= s < ppb * ppb -> s / ppb / ppb = 0 /\ (s / ppb) mod ppb = s / ppb /\ 0 <= s / ppb < ppb) /\
  (0 <= s < ppb * ppb * ppb ->
    s / ppb / ppb / ppb = 0 /\ (s / ppb / ppb) mod ppb = s / ppb / ppb /\ 0 <= s / ppb / ppb < ppb) /\
  0 <= s mod ppb < ppb /\ 0 <= (s / ppb) mod ppb < ppb.
Proof.
  intros Hp.
  assert (H1 : 0 <= s < ppb * ppb -> 0 <= s / ppb < ppb).
  { intros. split; [apply Z.div_pos; lia | apply Z.div_lt_upper_bound; lia]. }
  assert (H2 : 0 <= s < ppb * ppb * ppb -> 0 <= s / ppb / ppb < ppb).
  { intros. split; [apply Z.div_pos; [apply Z.div_pos; lia | lia]|].
    apply Z.div_lt_upper_bound; [lia|]. apply Z.div_lt_upper_bound; lia. }
  split_and!; try (apply Z.mod_pos_bound; lia); intros Hs.
  - split; [apply Z.div_small; lia | apply Z.mod_small; lia].
  - specialize (H1 Hs). split_and!; [apply Z.div_small | apply Z.mod_small | |]; lia.
  - specialize (H2 Hs). split_and!; [apply Z.div_small | apply Z.mod_small | |]; lia.
Qed.

(** [ext2_bmap] reads the slot of the sector. *)
Lemma ext2_bmap_spec f x s :
  fs_ok f -> file_ok f x -> sector_known f x s -> ext2_bmap f x s = Done (return_sector (mapped f x s)).
Proof.
  intros Hok Hx [H0 Hs]. unfold ext2_bmap, mapped, path. pose proof (ppb_pos f Hok) as Hp.
  set (ppb := ptrs_per_blk f) in *.
  destruct (Z.ltb_spec s NDIRECT) as [Hd|Hd]; [unfold NDIRECT in Hd; by rewrite (root_get f x) by (done || lia)|].
  destruct (Z.ltb_spec (u32 (Z.quot (size (vfs x)) (block_size (sb f)))) s); [lia|].
  unfold NDIRECT in *. destruct (Z.ltb_spec (s - 12) ppb) as [H1|H1].
  { destruct (index_bounds ppb (s - 12) Hp) as (Hi & _). destruct Hi as [-> ->]; [lia|].
    rewrite (root_get f x) by (done || (unfold SINGLE; lia)). obind.
    destruct (pos_behind ppb SINGLE [] (s - 12)) as (A & B & C); try (done || (unfold SINGLE; simpl; lia)).
    by rewrite (next_level_spec f x [SINGLE]) by (done || lia). }
  destruct (Z.ltb_spec (s - 12 - ppb) (ppb * ppb)) as [H2|H2].
  { destruct (index_bounds ppb (s - 12 - ppb) Hp) as (_ & Hi & _ & Hm & _).
    destruct Hi as (-> & -> & Hb); [lia|]. set (t := s - 12 - ppb) in *.
    rewrite (root_get f x) by (done || (unfold DOUBLE; lia)). obind.
    destruct (pos_behind ppb DOUBLE [] (t / ppb)) as (A & B & C); try (done || (unfold DOUBLE; simpl; lia)).
    rewrite (next_level_spec f x [DOUBLE]) by done. obind.
    destruct (pos_behind ppb DOUBLE [t / ppb] (t mod ppb)) as (A' & B' & C');
      try (done || (unfold DOUBLE; simpl; lia) || by rewrite Forall_singleton).
    by rewrite (next_level_spec f x [DOUBLE; t / ppb]) by done. }
  destruct (Z.ltb_spec (s - 12 - ppb - ppb * ppb) (ppb * ppb * ppb)) as [H3|H3]; [|done].
  destruct (index_bounds ppb (s - 12 - ppb - ppb * ppb) Hp) as (_ & _ & Hi & Hm & Hm').
  destruct Hi as (-> & -> & Hb); [lia|]. set (t := s - 12 - ppb - ppb * ppb) in *.
  rewrite (root_get f x) by (done || (unfold TRIPLE; lia)). obind.
  destruct (pos_behind ppb TRIPLE [] (t / ppb / ppb)) as (A & B & C); try (done || (unfold TRIPLE; simpl; lia)).
  rewrite (next_level_spec f x [TRIPLE]) by done. obind.
  destruct (pos_behind ppb TRIPLE [t / ppb / ppb] ((t / ppb) mod ppb)) as (A' & B' & C');
    try (done || (unfold TRIPLE; simpl; lia) || by rewrite Forall_singleton).
  rewrite (next_level_spec f x [TRIPLE; t / ppb / ppb]) by done. obind.
  destruct (pos_behind ppb TRIPLE [t / ppb / ppb; (t / ppb) mod ppb] (t mod ppb)) as (A'' & B'' & C'');
    try (done || (unfold TRIPLE; simpl; lia) || by rewrite !Forall_cons).
  by rewrite (next_level_spec f x [TRIPLE; t / ppb / ppb; (t / ppb) mod ppb]) by done.
Qed.

(** * Filling slots *)

Lemma zero_ptrs f v n i : disk f !! v = Some (replicate n 0) -> ptr_at f v i = 0.
Proof.
  intros Hv. unfold ptr_at, read_ptr, block_data, get_le, arr_slice. rewrite Hv. obind.
  case_bool_decide; [|done]. obind. rewrite drop_replicate, take_replicate. apply le_value_zeros.
Qed.

(** A new block, filled with zeros. *)
Lemma ext2_alloc_block_zero_spec f x :
  fs_ok f ->
  exists ret f' x', ext2_alloc_block_zero f x = Done (ret, f', x') /\ fs_ok f' /\ same_file x x' /\
    blk_ptrs x' = blk_ptrs x /\
    ((ret = SECTOR_INVALID /\ f' = f /\ x' = x /\ forall b, ~ free f b) \/ (ret <> SECTOR_INVALID /\ fresh f f' ret)).
Proof.
  intros Hok. unfold ext2_alloc_block_zero.
  destruct (ext2_block_alloc_spec f Hok) as (ret & f1 & E & Hok1 & Hr). rewrite E. obind.
  destruct Hr as [(-> & -> & Hfull)|(Hne & Hf & [ML MU MF MD MS])].
  { simpl. exists SECTOR_INVALID, f, x. split_and!; try done; [apply same_file_refl | by left]. }
  destruct (Z.eqb_spec ret SECTOR_INVALID); [done|].
  destruct (ok_free _ (ok_alloc _ Hok) _ Hf) as (Hr & H0 & Hs & Hb). pose proof (ppb_pos f Hok) as Hp.
  assert (Ebs : block_size (sb f1) = block_size (sb f)) by (by injection ML).
  destruct (block_fill_ok f1 Hok1 ret (replicate (Z.to_nat (block_size (sb f1))) 0)) as (H1 & H2 & H3).
  { by apply MD. }
  { by rewrite (layout_bitmap _ _ _ ML). }
  { rewrite length_replicate, (layout_ppb _ _ ML), Ebs, (bs_ppb f Hok). lia. }
  { apply bytes_zeros. }
  eexists _, _, _. split; [done|]. split; [done|]. split.
  { by exists (u32 (blocks (vfs x) + block_sectors f1)), (blk_ptrs x). }
  split; [done|]. right. split; [done|]. split; try done.
  - intros c Hc. rewrite H2, MU by done. done.
  - intros m Hn Hn'. simpl. rewrite lookup_insert_ne by done. by apply MF.
  - simpl. by rewrite lookup_insert_eq, Ebs.
  - intros c. rewrite H3. unfold data_block.
    by rewrite (layout_range _ _ _ ML), MD, (layout_bitmap _ _ _ ML).
  - intros m Hm. simpl. rewrite elem_of_union, elem_of_singleton. by rewrite MS.
Qed.

Section Step.
Context (f : fs) (x : ext2_inode) (Hok : fs_ok f) (Hx : file_ok f x).

Lemma free_not_node v : free f v -> ~ node f x v.
Proof using Hx. intros [_ Hu] Hn. destruct (file_used _ _ Hx v Hn) as [_ Hu']. congruence. Qed.

(** A new block disturbs none of the slots. *)
Lemma fresh_slots f1 x1 v : fresh f f1 v -> blk_ptrs x1 = blk_ptrs x ->
  (forall p, pos_ok (ptrs_per_blk f) p -> slot f1 x1 p = slot f x p) /\
  forall j, ptr_at f1 v j = 0.
Proof using Hx.
  intros Hv Ex. split; [|intros j; eapply zero_ptrs, Hv].
  apply slot_agree; [|done]. intros b (p & Hp & _ & <- & Hne).
  destruct (slot_block f x Hx p Hp Hne) as [(_ & _ & _ & Hb) Hu].
  apply (fresh_frame _ _ _ Hv); [done|]. intros E.
  destruct (fresh_free _ _ _ Hv) as [_ Hu']. congruence.
Qed.

Lemma fresh_file f1 x1 v : fresh f f1 v -> blk_ptrs x1 = blk_ptrs x -> file_ok f1 x1.
Proof using Hx.
  intros Hv Ex. destruct (fresh_slots f1 x1 v Hv Ex) as [Hs _].
  pose proof (layout_ppb _ _ (fresh_layout _ _ _ Hv)) as Ep. split.
  - rewrite Ex. apply Hx.
  - rewrite Ep. intros p q Hp Hq. rewrite !Hs by done. by apply (file_once _ _ Hx).
  - intros b (p & Hp & <- & Hne). rewrite Ep in Hp. rewrite Hs in Hne |- * by done.
    destruct (slot_block f x Hx p Hp Hne) as [Hd Hu]. split; [by apply (fresh_data _ _ _ Hv)|].
    rewrite (fresh_used _ _ _ Hv) by apply Hd. by case_decide.
Qed.

Lemma fresh_facts f1 v : fresh f f1 v -> v <> 0 /\ data_block f v /\ data_block f1 v /\ used f1 v = true /\ 0 <= v < 2 ^ 32.
Proof using Hok.
  intros Hv. pose proof (fresh_free _ _ _ Hv) as Hf.
  pose proof (ok_free _ (ok_alloc _ Hok) _ Hf) as Hd. pose proof Hd as (Hr & H0 & _ & _).
  split_and!; [lia | done | by apply (fresh_data _ _ _ Hv) | | lia |].
  - rewrite (fresh_used _ _ _ Hv) by done. by rewrite decide_True.
  - destruct (ok_geo _ (ok_alloc _ Hok)). unfold in_range in Hr. lia.
Qed.

Lemma fresh_used_iff f1 v c : fresh f f1 v -> in_range (sb f) c -> used f1 c = true <-> used f c = true \/ c = v.
Proof using Type.
  intros Hv Hc. rewrite (fresh_used _ _ _ Hv c Hc). case_decide; split; naive_solver.
Qed.

(** A new block behind a pointer of the inode. *)
Lemma grow_root f1 x1 x2 k v :
  fs_ok f1 -> fresh f f1 v -> same_file x x1 -> blk_ptrs x1 = blk_ptrs x -> 0 <= k < 15 -> slot f x [k] = 0 ->
  x2 = set_ptrs (<[Z.to_nat k := v]> (blk_ptrs x1)) x1 -> grow (eq [k]) f x f1 x2.
Proof using Hok Hx.
  intros Hok1 Hv Hs Ex Hk H0 ->. destruct (fresh_facts f1 v Hv) as (Hv0 & Hdv & Hdv1 & Huv & _).
  pose proof (layout_ppb _ _ (fresh_layout _ _ _ Hv)) as Ep.
  destruct (fresh_slots f1 x1 v Hv Ex) as [Hsl Hz].
  apply (grow_one f x f1 _ [k] v); try done.
  - apply (fresh_layout _ _ _ Hv).
  - eapply same_file_trans; [done|]. exists (blocks (vfs x1)), (<[Z.to_nat k := v]> (blk_ptrs x1)). by destruct x1 as [[] ? ? ? ?].
  - simpl. rewrite length_insert, Ex. apply Hx.
  - by apply pos_root.
  - intros q Hq. rewrite (slot_link_root f1 x1 (fresh_file f1 x1 v Hv Ex) _ k v); try done.
    + by rewrite Hsl.
    + by rewrite Hsl by (by apply pos_root).
    + by rewrite Ep.
  - apply free_not_node, Hv.
  - intros _. apply Hv.
  - intros c Hc. by apply (fresh_data _ _ _ Hv).
  - intros c Hc. by apply fresh_used_iff.
  - intros n Hb Hf _. apply (fresh_frame _ _ _ Hv); [done|]. intros ->. apply Hf, Hv.
  - intros n Hb _ _ Hn. apply (fresh_filled _ _ _ Hv); auto.
Qed.

(** A block that is in use but in no slot goes behind a pointer of an indirect
    block.  [f1] is the state before the pointer is written. *)
Lemma link_child f1 x1 p i v :
  fs_ok f1 -> layout (sb f1) = layout (sb f) -> file_ok f1 x1 -> same_file x x1 ->
  (forall q, pos_ok (ptrs_per_blk f) q -> slot f1 x1 q = slot f x q) ->
  pos_ok (ptrs_per_blk f) (p ++ [i]) -> p <> [] -> slot f x p <> 0 -> slot f x (p ++ [i]) = 0 ->
  v <> 0 -> 0 <= v < 2 ^ 32 -> ~ node f x v -> data_block f1 v -> used f1 v = true ->
  (inner (p ++ [i]) -> free f v /\ forall j, ptr_at f1 v j = 0) ->
  (forall c, data_block f c -> data_block f1 c) ->
  (forall c, in_range (sb f) c -> used f1 c = true <-> used f c = true \/ c = v) ->
  (forall n, ~ bitmap_block (sb f) n -> ~ free f n -> disk f1 !! n = disk f !! n) ->
  (forall n, ~ bitmap_block (sb f) n -> n ∈ filled f -> n ∈ filled f1) ->
  exists f2, write_ptr f1 (slot f x p) i v = Done f2 /\ grow (eq (p ++ [i])) f x f2 x1 /\ slot f2 x1 (p ++ [i]) = v.
Proof using Hok Hx.
  intros Hok1 HL Hx1 Hs Hsl HP Hp HB H0 Hv0 Hvr Hn Hdv Huv Hinner Hdata Hused Hframe Hfill.
  pose proof HP as HP'. apply pos_ok_snoc in HP' as (Hpok & Hpi & Hir); [|done].
  destruct (slot_block f x Hx p Hpok HB) as [HdB HuB].
  pose proof (layout_ppb _ _ HL) as Ep.
  destruct (write_ptr_spec f1 (slot f x p) i v Hok1) as (f2 & E & Esb & Hok2 & Hu2 & Hd2 & Hf2 & Hl2 & Hptr).
  { apply (Hdata _ HdB). }
  { apply (Hdata _ HdB). }
  { by rewrite Ep. }
  { done. }
  assert (Hnode1 : ~ node f1 x1 v).
  { intros (q & Hq & Eq & _). rewrite Ep in Hq. rewrite Hsl in Eq by done. apply Hn. by exists q. }
  assert (Hslot : forall q, pos_ok (ptrs_per_blk f) q -> slot f2 x1 q = if decide (q = p ++ [i]) then v else slot f x q).
  { intros q Hq. rewrite (slot_link f1 x1 Hx1 f2 p i v); rewrite ?Ep, ?(Hsl p), ?(Hsl (p ++ [i])); try done.
    - by rewrite Hsl.
    - unfold ptrs_per_blk. rewrite Esb. exact Ep.
    - intros Hi j _. by apply Hinner.
    - intros c j Hj. apply Hptr. by rewrite Ep. }
  exists f2. split; [done|]. split; [|rewrite Hslot by done; by rewrite decide_True].
  apply (grow_one f x f2 x1 (p ++ [i]) v); try done.
  - by rewrite Esb.
  - apply Hx1.
  - intros Hi. by apply Hinner.
  - intros c Hc. by apply Hd2, Hdata.
  - by apply Hd2.
  - by rewrite Hu2.
  - intros c Hc. rewrite Hu2. by apply Hused.
  - intros n Hb Hf Hi. rewrite Hf2; [by apply Hframe|]. intros ->. apply Hi. by exists p.
  - intros n Hb Hf Hi Hn'. apply Hl2; [|by apply Hfill]. intros ->. apply Hi. by exists p.
Qed.
End Step.

Lemma map_root_spec f x k :
  fs_ok f -> file_ok f x -> 12 <= k < 15 ->
  exists r f' x', map_root f x k = Done (r, f', x') /\
    match r with
    | None => f' = f /\ x' = x /\ forall b, ~ free f b
    | Some b => grow (eq [k]) f x f' x' /\ slot f' x' [k] = b /\ b <> 0
    end.
Proof.
  intros Hok Hx Hk. unfold map_root. rewrite (root_get f x) by (done || lia). obind.
  destruct (Z.eqb_spec (slot f x [k]) 0) as [E|E].
  2: { exists (Some (slot f x [k])), f, x. split; [done|]. split_and!; [by apply grow_refl | done | done]. }
  destruct (ext2_alloc_block_zero_spec f x Hok) as (v & f1 & x1 & Ea & Hok1 & Hs & Ex & Hr). rewrite Ea. obind.
  destruct Hr as [(-> & -> & -> & Hfull)|(Hne & Hv)]; [simpl; by exists None, f, x|].
  destruct (Z.eqb_spec v SECTOR_INVALID); [done|].
  rewrite arr_set_total by (rewrite Ex, (file_ptrs _ _ Hx); lia). obind.
  eexists (Some v), f1, _. split; [done|].
  destruct (fresh_facts f Hok f1 v Hv) as (Hv0 & _). split_and!; [| | done].
  - by eapply grow_root; eauto; lia.
  - simpl. rewrite list_lookup_insert_eq by (rewrite Ex, (file_ptrs _ _ Hx); lia). done.
Qed.

Lemma map_child_spec f x p i :
  fs_ok f -> file_ok f x -> pos_ok (ptrs_per_blk f) (p ++ [i]) -> p <> [] -> inner (p ++ [i]) -> slot f x p <> 0 ->
  exists r f' x', map_child f x (slot f x p) i = Done (r, f', x') /\
    match r with
    | None => f' = f /\ x' = x /\ forall b, ~ free f b
    | Some b => grow (eq (p ++ [i])) f x f' x' /\ slot f' x' (p ++ [i]) = b /\ b <> 0
    end.
Proof.
  intros Hok Hx HP Hp Hin HB. pose proof HP as HP'. apply pos_ok_snoc in HP' as (Hpok & Hpi & Hir); [|done].
  unfold map_child. rewrite (child_get f x p i) by done. obind.
  destruct (Z.eqb_spec (slot f x (p ++ [i])) 0) as [E|E].
  2: { exists (Some (slot f x (p ++ [i]))), f, x. split; [done|]. split_and!; [by apply grow_refl | done | done]. }
  destruct (ext2_alloc_block_zero_spec f x Hok) as (v & f1 & x1 & Ea & Hok1 & Hs & Ex & Hr). rewrite Ea. obind.
  destruct Hr as [(-> & -> & -> & Hfull)|(Hne & Hv)]; [simpl; by exists None, f, x|].
  destruct (Z.eqb_spec v SECTOR_INVALID); [done|].
  destruct (fresh_facts f Hok f1 v Hv) as (Hv0 & Hdv & Hdv1 & Huv & Hvr).
  destruct (fresh_slots f x Hx f1 x1 v Hv Ex) as [Hsl Hz].
  destruct (link_child f x Hok Hx f1 x1 p i v) as (f2 & Ew & Hg & Es); try done.
  - apply (fresh_layout _ _ _ Hv).
  - by eapply fresh_file.
  - by apply free_not_node, Hv.
  - intros _. split; [apply Hv | done].
  - intros c Hc. by apply (fresh_data _ _ _ Hv).
  - intros c Hc. by apply fresh_used_iff.
  - intros m Hb Hf. apply (fresh_frame _ _ _ Hv); [done|]. intros ->. apply Hf, Hv.
  - intros m Hb Hm. apply (fresh_filled _ _ _ Hv); auto.
  - rewrite Ew. obind. by exists (Some v), f2, x1.
Qed.

(** * Linking in a data block *)

(** A block that is taken but not yet in any slot of the file. *)
Record pending (f : fs) (x : ext2_inode) (d : Z) : Prop := {
  pend_range : 0 < d < 2 ^ 32;
  pend_data : data_block f d;
  pend_used : used f d = true;
  pend_node : ~ node f x d;
}.

Lemma grow_pending Q f x f' x' d : grow (eq Q) f x f' x' -> inner Q -> pending f x d -> pending f' x' d.
Proof.
  intros Hg Hi [Hr Hd Hu Hn]. split; [done | by apply (gr_data _ _ _ _ _ Hg) | |].
  - apply (gr_used _ _ _ _ _ Hg); [apply Hd | by left].
  - intros (q & Hq & E & Hne). rewrite (layout_ppb _ _ (gr_layout _ _ _ _ _ Hg)) in Hq.
    destruct (decide (slot f x q = 0)) as [E0|E0].
    + destruct (decide (q = Q)) as [->|HnQ].
      * destruct (gr_new _ _ _ _ _ Hg Q Hq Hi E0) as [_ Hf]; rewrite E in *; [done | congruence].
      * rewrite (gr_slots _ _ _ _ _ Hg) in E by (done || congruence). congruence.
    + apply Hn. exists q. rewrite (gr_keep _ _ _ _ _ Hg) in E by done. done.
Qed.

(** What the [ext2_map_*] functions do with the block [d] and the position [P]. *)
Definition links (f : fs) (x : ext2_inode) (P : list Z) (d : Z) (o : outcome (Z * fs * ext2_inode)) : Prop :=
  exists err f' x', o = Done (err, f', x') /\ grow (fun q => q `prefix_of` P) f x f' x' /\
    ((err = 0 /\ slot f' x' P = d) \/ (err = - ENOSPC /\ slot f' x' P = 0 /\ pending f' x' d /\ forall b, ~ free f' b)).

Record ready (f : fs) (x : ext2_inode) (P : list Z) (d : Z) : Prop := {
  rd_ok : fs_ok f;
  rd_file : file_ok f x;
  rd_pos : pos_ok (ptrs_per_blk f) P;
  rd_leaf : ~ inner P;
  rd_empty : slot f x P = 0;
  rd_pending : pending f x d;
}.

Lemma link_leaf f x p i d :
  ready f x (p ++ [i]) d -> p <> [] -> slot f x p <> 0 ->
  links f x (p ++ [i]) d (f ← write_ptr f (slot f x p) i d; Done (0, f, x)).
Proof.
  intros [Hok Hx HP Hl H0 [Hr Hd Hu Hn]] Hp HB.
  destruct (link_child f x Hok Hx f x p i d) as (f2 & -> & Hg & Es); try done; try lia.
  { apply same_file_refl. }
  { intros c Hc. split; [by left | intros [?| ->]; done]. }
  obind. exists 0, f2, x. split; [done|]. split; [|by left]. eapply grow_weaken, Hg. by intros q <-.
Qed.

(** One more indirect block, at the position [Q], before the rest of the work. *)
Lemma links_step f x Q P d (m : outcome (option Z * fs * ext2_inode)) (k : Z -> fs -> ext2_inode -> outcome (Z * fs * ext2_inode)) :
  ready f x P d -> inner Q -> Q `prefix_of` P ->
  (exists r f1 x1, m = Done (r, f1, x1) /\
    match r with
    | None => f1 = f /\ x1 = x /\ forall b, ~ free f b
    | Some b => grow (eq Q) f x f1 x1 /\ slot f1 x1 Q = b /\ b <> 0
    end) ->
  (forall f1 x1, ready f1 x1 P d -> slot f1 x1 Q <> 0 -> links f1 x1 P d (k (slot f1 x1 Q) f1 x1)) ->
  links f x P d ('(r, f, x) ← m; match r with None => Done (- ENOSPC, f, x) | Some b => k b f x end).
Proof.
  intros [Hok Hx HPok HP H0 Hd] HQ Hpre (r & f1 & x1 & -> & Hr) Hk. obind. destruct r as [b|].
  - destruct Hr as (Hg & <- & Hb). assert (Hne : Q <> P) by (intros ->; done).
    destruct (Hk f1 x1) as (err & f2 & x2 & E & Hg2 & Hres); [split | done |]; try apply Hg; try done.
    + by rewrite (layout_ppb _ _ (gr_layout _ _ _ _ _ Hg)).
    + rewrite (gr_slots _ _ _ _ _ Hg); done.
    + by eapply grow_pending.
    + exists err, f2, x2. split; [done|]. split; [|done].
      eapply grow_trans; [|done]. eapply grow_weaken, Hg. by intros q <-.
  - destruct Hr as (-> & -> & Hfull). exists (- ENOSPC), f, x. split; [done|].
    split; [by apply grow_refl|]. right. done.
Qed.

Lemma prefix_pos ppb p i P : pos_ok ppb P -> p <> [] -> (p ++ [i]) `prefix_of` P -> pos_ok ppb (p ++ [i]).
Proof.
  intros HP Hp [q ->]. destruct p as [|k p]; [done|]. destruct HP as (Hk & Hl & Hf).
  split; [done|]. split; [rewrite !length_app in *; simpl in *; lia | by apply Forall_app in Hf as [? _]].
Qed.

Lemma links_child f x p i P d k :
  ready f x P d -> p <> [] -> slot f x p <> 0 -> inner (p ++ [i]) -> (p ++ [i]) `prefix_of` P ->
  (forall f1 x1, ready f1 x1 P d -> slot f1 x1 (p ++ [i]) <> 0 -> links f1 x1 P d (k (slot f1 x1 (p ++ [i])) f1 x1)) ->
  links f x P d ('(r, f, x) ← map_child f x (slot f x p) i; match r with None => Done (- ENOSPC, f, x) | Some b => k b f x end).
Proof.
  intros Hr Hp Hs Hi Hpre Hk. apply (links_step f x (p ++ [i]) P d); try done.
  apply map_child_spec; try done; try apply Hr. eapply prefix_pos; [apply Hr | done | done].
Qed.

Lemma links_root f x k0 P d k :
  ready f x P d -> 12 <= k0 < 15 -> [k0] `prefix_of` P ->
  (forall f1 x1, ready f1 x1 P d -> slot f1 x1 [k0] <> 0 -> links f1 x1 P d (k (slot f1 x1 [k0]) f1 x1)) ->
  links f x P d ('(r, f, x) ← map_root f x k0; match r with None => Done (- ENOSPC, f, x) | Some b => k b f x end).
Proof.
  intros Hr Hk0 Hpre Hk. apply (links_step f x [k0] P d); try done.
  - unfold inner, depth, NDIRECT. simpl. destruct (Z.ltb_spec k0 12); lia.
  - by apply map_root_spec; try apply Hr.
Qed.

(** [prefix_of] and [inner] of concrete positions. *)
Ltac position := first [ by eexists | unfold inner, depth, NDIRECT, SINGLE, DOUBLE, TRIPLE in *; simpl; lia ].

Section Behind.
Context (f : fs) (x : ext2_inode) (s d : Z).
Abbreviation ppb := (ptrs_per_blk f).

Lemma ext2_map_indirect_spec :
  0 <= s < ppb -> ready f x [SINGLE; s] d -> links f x [SINGLE; s] d (ext2_map_indirect f x s d).
Proof using Type.
  intros Hs Hr. pose proof (ppb_pos f (rd_ok _ _ _ _ Hr)) as Hp.
  destruct (index_bounds ppb s Hp) as (Hi & _). destruct (Hi Hs) as [E1 E2].
  unfold ext2_map_indirect. rewrite E1, E2, Z.add_0_r. apply links_root; [done | position | position |].
  intros f1 x1 Hr1 Hs1. by apply (link_leaf f1 x1 [SINGLE]).
Qed.

Lemma ext2_map_dindirect_spec :
  0 <= s < ppb * ppb -> ready f x [DOUBLE; s / ppb; s mod ppb] d ->
  links f x [DOUBLE; s / ppb; s mod ppb] d (ext2_map_dindirect f x s d).
Proof using Type.
  intros Hs Hr. pose proof (ppb_pos f (rd_ok _ _ _ _ Hr)) as Hp.
  destruct (index_bounds ppb s Hp) as (_ & Hi & _). destruct (Hi Hs) as (E1 & E2 & _).
  unfold ext2_map_dindirect. rewrite E1, E2, Z.add_0_r. apply links_root; [done | position | position |].
  intros f1 x1 Hr1 Hs1. apply (links_child f1 x1 [DOUBLE] (s / ppb)); [done | done | done | position | position |].
  intros f2 x2 Hr2 Hs2. by apply (link_leaf f2 x2 [DOUBLE; s / ppb]).
Qed.

Lemma ext2_map_tindirect_spec :
  0 <= s < ppb * ppb * ppb -> ready f x [TRIPLE; s / ppb / ppb; (s / ppb) mod ppb; s mod ppb] d ->
  links f x [TRIPLE; s / ppb / ppb; (s / ppb) mod ppb; s mod ppb] d (ext2_map_tindirect f x s d).
Proof using Type.
  intros Hs Hr. pose proof (ppb_pos f (rd_ok _ _ _ _ Hr)) as Hp.
  destruct (index_bounds ppb s Hp) as (_ & _ & Hi & _). destruct (Hi Hs) as (E1 & E2 & _).
  unfold ext2_map_tindirect. rewrite E1, E2, Z.add_0_r. apply links_root; [done | position | position |].
  intros f1 x1 Hr1 Hs1.
  apply (links_child f1 x1 [TRIPLE] (s / ppb / ppb)); [done | done | done | position | position |].
  intros f2 x2 Hr2 Hs2.
  apply (links_child f2 x2 [TRIPLE; s / ppb / ppb] ((s / ppb) mod ppb)); [done | done | done | position | position |].
  intros f3 x3 Hr3 Hs3. by apply (link_leaf f3 x3 [TRIPLE; s / ppb / ppb; (s / ppb) mod ppb]).
Qed.
End Behind.

Lemma map_behind_spec f x s P d :
  NDIRECT <= s -> path (ptrs_per_blk f) s = Some P -> ready f x P d -> links f x P d (map_behind f x s d).
Proof.
  intros Hs HP Hr. unfold path in HP. destruct (Z.ltb_spec s NDIRECT); [lia|]. unfold map_behind.
  destruct (Z.ltb_spec (s - NDIRECT) (ptrs_per_blk f)).
  { injection HP as <-. apply ext2_map_indirect_spec; [lia | done]. }
  destruct (Z.ltb_spec (s - NDIRECT - ptrs_per_blk f) (ptrs_per_blk f * ptrs_per_blk f)).
  { injection HP as <-. apply ext2_map_dindirect_spec; [lia | done]. }
  destruct (Z.ltb_spec (s - NDIRECT - ptrs_per_blk f - ptrs_per_blk f * ptrs_per_blk f)
    (ptrs_per_blk f * ptrs_per_blk f * ptrs_per_blk f)); [|done].
  injection HP as <-. apply ext2_map_tindirect_spec; [lia | done].
Qed.

(** * Allocating the block of a sector *)

Lemma slot_ptrs f x x' p : blk_ptrs x' = blk_ptrs x -> slot f x' p = slot f x p.
Proof. intros E. destruct p; [done|]. simpl. by rewrite E. Qed.

Lemma node_ptrs f x x' b : blk_ptrs x' = blk_ptrs x -> node f x' b <-> node f x b.
Proof.
  intros E. unfold node. split; intros (p & Hp & Hs & Hb); exists p; rewrite (slot_ptrs f x x' p E) in *; done.
Qed.

Lemma file_ptrs_ok f x x' : blk_ptrs x' = blk_ptrs x -> file_ok f x -> file_ok f x'.
Proof.
  intros E [H1 H2 H3]. split; [by rewrite E | |].
  - intros p q. rewrite !(slot_ptrs f x x' _ E). apply H2.
  - intros b. rewrite (node_ptrs f x x' b E). apply H3.
Qed.

(** Releasing a block that is in no slot. *)
Lemma release_pending f x d :
  fs_ok f -> file_ok f x -> pending f x d ->
  exists f' x', ext2_block_release f x d = Done (f', x') /\ fs_ok f' /\ file_ok f' x' /\ same_file x x' /\
    marked f f' d false /\ forall p, pos_ok (ptrs_per_blk f) p -> slot f' x' p = slot f x p.
Proof.
  intros Hok Hx [_ Hd Hu Hn]. destruct (ext2_block_release_spec f x d Hok Hd Hu) as (f' & E & Hok' & HM).
  set (x' := set_vfs _ _) in E. exists f', x'. pose proof HM as [ML MU MF MD].
  assert (Hs : forall p, pos_ok (ptrs_per_blk f) p -> slot f' x' p = slot f x p).
  { apply slot_agree; [|done]. intros b (p & Hp & _ & <- & Hne). apply MF.
    by destruct (slot_block f x Hx p Hp Hne) as [(_ & _ & _ & ?) _]. }
  pose proof (layout_ppb _ _ ML) as Ep.
  split_and!; [done | done | | | done | done].
  - split; [apply Hx | |].
    + rewrite Ep. intros p q Hp Hq. rewrite !Hs by done. by apply (file_once _ _ Hx).
    + intros b (p & Hp & <- & Hne). rewrite Ep in Hp. rewrite Hs in Hne |- * by done.
      destruct (slot_block f x Hx p Hp Hne) as [(Hr & H0 & Hsm & Hb) Hup].
      split; [split_and!; [by apply (layout_range _ _ _ ML) | done | by apply MD | by rewrite (layout_bitmap _ _ _ ML)]|].
      rewrite MU by done. case_decide as Ed; [|done]. exfalso. apply Hn. exists p. by rewrite Ed in *.
  - by exists (u32 (blocks (vfs x) - block_sectors f)), (blk_ptrs x).
Qed.

(** The position of a sector is not on the way to that of another. *)
Lemma leaf_prefix ppb s t p q :
  0 < ppb -> 0 <= s -> 0 <= t -> s <> t -> path ppb s = Some p -> path ppb t = Some q -> ~ q `prefix_of` p.
Proof.
  intros Hp Hs Ht Hne Ep Eq [r E]. destruct (path_ok ppb s p Hp Hs Ep) as [Hpk Hpi].
  destruct (path_ok ppb t q Hp Ht Eq) as [Hqk Hqi]. apply Hne.
  apply (path_inj ppb s t p); try done. rewrite Eq. f_equal. subst p.
  destruct q as [|k q]; [done|]. simpl in *. destruct Hpk as (_ & Hl & _). rewrite length_app in *.
  destruct r; [by rewrite app_nil_r | simpl in *; lia].
Qed.

Lemma mapped_other f x s t f' x' P :
  fs_ok f -> 0 <= s -> 0 <= t -> t <> s -> path (ptrs_per_blk f) s = Some P -> ptrs_per_blk f' = ptrs_per_blk f ->
  (forall q, pos_ok (ptrs_per_blk f) q -> ~ q `prefix_of` P -> slot f' x' q = slot f x q) ->
  mapped f' x' t = mapped f x t.
Proof.
  intros Hok Hs Ht Hne HP Ep Hsl. unfold mapped. rewrite Ep.
  destruct (path (ptrs_per_blk f) t) as [q|] eqn:Eq; [|done].
  pose proof (ppb_pos f Hok) as Hp. apply Hsl; [by apply (path_ok _ t) | by apply (leaf_prefix (ptrs_per_blk f) s t)].
Qed.

(** Contents that a change of the file may not touch. *)
Definition kept (f : fs) (x : ext2_inode) (f' : fs) : Prop :=
  forall n, ~ bitmap_block (sb f) n -> ~ free f n -> ~ inner_node f x n -> disk f' !! n = disk f !! n.

Lemma kept_fresh f x f1 x1 d f2 :
  fs_ok f -> file_ok f x -> fresh f f1 d -> blk_ptrs x1 = blk_ptrs x -> kept f1 x1 f2 -> kept f x f2.
Proof.
  intros Hok Hx Hd Ex Hk n Hb Hf Hi. pose proof (fresh_layout _ _ _ Hd) as HL.
  rewrite Hk; [apply (fresh_frame _ _ _ Hd) | | |].
  - done.
  - intros ->. apply Hf, Hd.
  - by rewrite (layout_bitmap _ _ _ HL).
  - intros [Hr Hu]. apply Hf. apply (layout_range _ _ _ HL) in Hr. split; [done|].
    rewrite (fresh_used _ _ _ Hd) in Hu by done. by case_decide.
  - intros (p & Hp & Hpi & E & Hne). rewrite (layout_ppb _ _ HL) in Hp. apply Hi. exists p.
    destruct (fresh_slots f x Hx f1 x1 d Hd Ex) as [Hs _]. rewrite Hs in E by done. done.
Qed.

(** What the owner and the name of a file see of its inode. *)
Definition meta (v : inode) := (ino v, size v, mode v, nlinks v, uid v, gid v).

(** What [ext2_bmap_alloc] returns. *)
Record allocated (f : fs) (x : ext2_inode) (s ret : Z) (f' : fs) (x' : ext2_inode) : Prop := {
  al_ok : fs_ok f';
  al_layout : layout (sb f') = layout (sb f);
  al_file : file_ok f' x';
  al_meta : meta (vfs x') = meta (vfs x);
  al_others : forall t, 0 <= t -> t <> s -> mapped f' x' t = mapped f x t;
  al_kept : kept f x f';
  al_nodes : forall n, node f' x' n -> node f x n \/ free f n;
  al_free : forall n, free f' n -> free f n;
  al_result :
    if decide (ret = SECTOR_INVALID) then
      mapped f' x' s = mapped f x s /\ mapped f x s = 0 /\
      (path (ptrs_per_blk f) s = None \/ forall b c, free f' b -> free f' c -> b = c)
    else mapped f' x' s = ret /\
      (mapped f x s = 0 -> free f ret /\ disk f' !! ret = Some (replicate (Z.to_nat (block_size (sb f))) 0) /\ ret ∈ filled f') /\
      (mapped f x s <> 0 -> mapped f x s = ret /\ f' = f /\ x' = x);
}.

Lemma same_meta x x' : same_file x x' -> meta (vfs x') = meta (vfs x).
Proof. by intros (n & l & ->). Qed.

Lemma al_size f x s ret f' x' : allocated f x s ret f' x' -> size (vfs x') = size (vfs x).
Proof. intros H. pose proof (al_meta _ _ _ _ _ _ H) as E. by injection E. Qed.

(** The way out when the new block cannot be linked in. *)
Lemma alloc_undo f x s f1 x1 f2 x2 d :
  fs_ok f -> file_ok f x -> 0 <= s -> mapped f x s = 0 ->
  layout (sb f2) = layout (sb f) -> fs_ok f2 -> file_ok f2 x2 -> same_file x x2 -> pending f2 x2 d ->
  fresh f f1 d -> blk_ptrs x1 = blk_ptrs x -> kept f1 x1 f2 ->
  (forall t, 0 <= t -> mapped f2 x2 t = mapped f x t) ->
  (forall n, node f2 x2 n -> node f x n \/ free f n) -> (forall n, free f2 n -> free f n) ->
  (path (ptrs_per_blk f) s = None \/ forall b, ~ free f2 b) ->
  exists f' x', ('(f, x) ← ext2_block_release f2 x2 d; Done (SECTOR_INVALID, f, x)) = Done (SECTOR_INVALID, f', x') /\
    allocated f x s SECTOR_INVALID f' x'.
Proof.
  intros Hok Hx H0 Hms HL Hok2 Hx2 Hsame Hpd Hd Ex Hk Hm Hnew Hfr Hwhy.
  destruct (release_pending f2 x2 d Hok2 Hx2 Hpd) as (f3 & x3 & -> & Hok3 & Hx3 & Hs3 & [ML MU MF MD] & Hsl). obind.
  exists f3, x3. split; [done|].
  assert (Hm3 : forall t, 0 <= t -> mapped f3 x3 t = mapped f x t).
  { intros t Ht. rewrite <- Hm by done. unfold mapped. rewrite (layout_ppb _ _ ML).
    destruct (path (ptrs_per_blk f2) t) as [q|] eqn:Eq; [|done]. apply Hsl.
    by apply (path_ok _ t); [apply ppb_pos|..]. }
  split; try done.
  - by rewrite ML.
  - apply same_meta. by eapply same_file_trans.
  - intros t Ht _. by apply Hm3.
  - eapply kept_fresh; [done | done | exact Hd | exact Ex |]. intros n Hb Hf Hi. rewrite MF; [by apply Hk|].
    rewrite (layout_bitmap (sb f) (sb f2)) by done. by rewrite <- (layout_bitmap _ _ _ (fresh_layout _ _ _ Hd)).
  - intros n (q & Hq & Eq & Hn0). rewrite (layout_ppb _ _ ML) in Hq. rewrite Hsl in Eq by done. apply Hnew. by exists q.
  - intros n [Hr Hu]. apply (layout_range _ _ _ ML) in Hr. rewrite MU in Hu by done.
    case_decide as En; [subst n; apply Hd | by apply Hfr].
  - rewrite decide_True by done. split_and!; [by apply Hm3 | done |]. destruct Hwhy as [?|Hfull]; [by left | right].
    assert (Hone : forall b, free f3 b -> b = d).
    { intros b [Hr Hu]. apply (layout_range _ _ _ ML) in Hr. rewrite MU in Hu by done.
      case_decide; [done|]. exfalso. by apply (Hfull b). }
    intros b c Hb Hc. rewrite (Hone b Hb), (Hone c Hc). done.
Qed.

Lemma mapped_known f x s :
  fs_ok f -> file_ok f x -> 0 <= s -> return_sector (mapped f x s) <> SECTOR_INVALID <-> mapped f x s <> 0.
Proof.
  intros Hok Hx H0. unfold return_sector. destruct (Z.eqb_spec (mapped f x s) 0) as [E|E]; [tauto|].
  split; [done|]. intros _ E'. unfold mapped in *. destruct (path _ s) as [p|] eqn:Ep; [|done].
  destruct (path_ok _ s p (ppb_pos f Hok) H0 Ep) as [Hpk _]. destruct (slot_block f x Hx p Hpk E) as [[Hr _] _].
  pose proof (range_valid _ _ (ok_geo _ (ok_alloc _ Hok)) Hr). lia.
Qed.

Section Alloc.
Context (f : fs) (x : ext2_inode) (s : Z) (Hok : fs_ok f) (Hx : file_ok f x) (H0 : 0 <= s).
Context (Hm0 : mapped f x s = 0).
Context (d : Z) (f1 : fs) (x1 : ext2_inode) (Hok1 : fs_ok f1) (Hs1 : same_file x x1) (Ex : blk_ptrs x1 = blk_ptrs x).
Context (Hne : d <> SECTOR_INVALID) (Hd : fresh f f1 d).

Lemma fresh_ppb : ptrs_per_blk f1 = ptrs_per_blk f.
Proof using Hd. apply layout_ppb, Hd. Qed.

Lemma fresh_mapped t : 0 <= t -> mapped f1 x1 t = mapped f x t.
Proof using Hok Hx Ex Hd.
  intros Ht. unfold mapped. rewrite fresh_ppb. destruct (path _ t) as [q|] eqn:Eq; [|done].
  apply (fresh_slots f x Hx f1 x1 d Hd Ex). by apply (path_ok _ t); [apply ppb_pos|..].
Qed.

Lemma fresh_pending : pending f1 x1 d.
Proof using Hok Hx Ex Hd.
  destruct (fresh_facts f Hok f1 d Hd) as (Hd0 & Hdd & Hdd1 & Hud & Hdr).
  split; [lia | done | done |]. intros (q & Hq & Eq & _). rewrite fresh_ppb in Hq.
  destruct (fresh_slots f x Hx f1 x1 d Hd Ex) as [Hsl _]. rewrite Hsl in Eq by done.
  apply (free_not_node f x Hx d); [apply Hd|]. by exists q.
Qed.

Lemma fresh_free_sub n : free f1 n -> free f n.
Proof using Hd.
  intros [Hr Hu]. pose proof (fresh_layout _ _ _ Hd) as HL. apply (layout_range _ _ _ HL) in Hr. split; [done|].
  rewrite (fresh_used _ _ _ Hd) in Hu by done. by case_decide.
Qed.

Lemma fresh_nodes n : node f1 x1 n -> node f x n.
Proof using Hx Ex Hd.
  intros (q & Hq & Eq & Hn0). rewrite fresh_ppb in Hq.
  destruct (fresh_slots f x Hx f1 x1 d Hd Ex) as [Hsl _]. rewrite Hsl in Eq by done. by exists q.
Qed.

Lemma grow_nodes P f2 x2 n :
  pos_ok (ptrs_per_blk f) P -> ~ inner P -> grow (fun q => q `prefix_of` P) f1 x1 f2 x2 ->
  slot f2 x2 P = d \/ slot f2 x2 P = 0 -> node f2 x2 n -> node f x n \/ free f n.
Proof using Hx Ex Hd.
  intros HP HPi Hg HsP (q & Hq & Eq & Hn0). rewrite (layout_ppb _ _ (gr_layout _ _ _ _ _ Hg)) in Hq.
  destruct (decide (slot f1 x1 q = 0)) as [E0|E0].
  2: { left. apply fresh_nodes. exists q. rewrite (gr_keep _ _ _ _ _ Hg) in Eq by done. done. }
  right. destruct (decide (q = P)) as [->|HqP].
  { destruct HsP as [E|E]; [|congruence]. rewrite <- Eq, E. apply Hd. }
  assert (Hin : inner q \/ ~ inner q) by (destruct q as [|k p]; [by right|]; simpl; lia).
  destruct Hin as [Hin|Hin].
  - rewrite <- Eq in Hn0 |- *. by apply fresh_free_sub, (gr_new _ _ _ _ _ Hg).
  - rewrite (gr_slots _ _ _ _ _ Hg) in Eq; [congruence | done|]. intros [r Er]. apply HqP.
    rewrite fresh_ppb in Hq. destruct q as [|k p]; [done|]. simpl in Er. subst P. simpl in *. rewrite length_app in *.
    destruct r; [by rewrite app_nil_r | simpl in *; lia].
Qed.

Lemma alloc_direct :
  s < NDIRECT ->
  exists ptrs, arr_set (blk_ptrs x1) s d = Done ptrs /\ allocated f x s d f1 (set_vfs set_dirty (set_ptrs ptrs x1)).
Proof using Hok Hx H0 Hm0 Hok1 Hs1 Ex Hne Hd.
  intros Hdir. pose proof Hm0 as Em.
  assert (HP : path (ptrs_per_blk f) s = Some [s]) by (unfold path; by destruct (Z.ltb_spec s NDIRECT); [|lia]).
  unfold NDIRECT in Hdir. rewrite arr_set_total by (rewrite Ex, (file_ptrs _ _ Hx); lia).
  eexists. split; [done|]. set (x2 := set_ptrs _ _). unfold mapped in Em. rewrite HP in Em.
  assert (Hg : grow (eq [s]) f x f1 x2) by (by eapply grow_root; eauto; lia).
  split; try apply Hg.
  - apply (file_ptrs_ok f1 x2); [done | apply Hg].
  - apply (same_meta x x2), Hg.
  - intros t Ht Hts. eapply (mapped_other f x s t); try done; [apply fresh_ppb|].
    intros q Hq Hnp. rewrite (slot_ptrs f1 x2) by done.
    apply (gr_slots _ _ _ _ _ Hg); [done|]. intros <-. by apply Hnp.
  - exact (gr_frame _ _ _ _ _ Hg).
  - intros n (q & Hq & Eq & Hn0). rewrite fresh_ppb in Hq. rewrite (slot_ptrs f1 x2) in Eq by done.
    destruct (decide (q = [s])) as [->|Hqs].
    + right. rewrite <- Eq. simpl. rewrite list_lookup_insert_eq by (rewrite Ex, (file_ptrs _ _ Hx); lia). apply Hd.
    + left. exists q. rewrite (gr_slots _ _ _ _ _ Hg) in Eq by (done || congruence). done.
  - apply fresh_free_sub.
  - rewrite decide_False by done. split_and!; [| | done].
    + unfold mapped. rewrite fresh_ppb, HP. simpl. rewrite list_lookup_insert_eq; [done|].
      rewrite Ex, (file_ptrs _ _ Hx). lia.
    + intros _. split_and!; [apply Hd | apply Hd|]. apply (fresh_filled _ _ _ Hd); [|by left]. rewrite <- (layout_bitmap _ _ _ (fresh_layout _ _ _ Hd)). apply fresh_pending.
Qed.

Lemma alloc_behind :
  NDIRECT <= s ->
  exists ret f' x',
    ('(err, f, x) ← map_behind f1 x1 s d;
     if err <? 0 then
       '(f, x) ← ext2_block_release f x d;
       Done (SECTOR_INVALID, f, x)
     else Done (d, f, set_vfs set_dirty x)) = Done (ret, f', x') /\ allocated f x s ret f' x'.
Proof using Hok Hx H0 Hm0 Hok1 Hs1 Ex Hne Hd.
  intros Hdir. pose proof fresh_ppb as Ep. pose proof fresh_pending as Hpd.
  pose proof (fresh_file f x Hx f1 x1 d Hd Ex) as Hx1. destruct (fresh_slots f x Hx f1 x1 d Hd Ex) as [Hsl _].
  destruct (path (ptrs_per_blk f) s) as [P|] eqn:HP.
  2: { assert (Emb : map_behind f1 x1 s d = Done (- E2BIG, f1, x1)).
       { unfold map_behind. rewrite Ep. unfold path in HP. repeat (case_match; [done|]). done. }
       rewrite Emb. obind. simpl.
       destruct (alloc_undo f x s f1 x1 f1 x1 d) as (f' & x' & E' & Ha);
         try done; [apply Hd | apply fresh_mapped | intros n Hn; left; by apply fresh_nodes | apply fresh_free_sub | by left |].
       by exists SECTOR_INVALID, f', x'. }
  assert (Hrd : ready f1 x1 P d).
  { destruct (path_ok _ s P (ppb_pos f Hok) H0 HP). split; rewrite ?Ep; try done.
    rewrite Hsl by done. unfold mapped in Hm0. by rewrite HP in Hm0. }
  destruct (map_behind_spec f1 x1 s P d) as (err & f2 & x2 & -> & Hg & Hres); [done | by rewrite Ep | done |]. obind.
  assert (Hother : forall t, 0 <= t -> t <> s -> mapped f2 x2 t = mapped f x t).
  { intros t Ht Hts. rewrite <- fresh_mapped by done.
    eapply (mapped_other f1 x1 s t); try done; [by rewrite Ep | apply layout_ppb, Hg | apply Hg]. }
  assert (HL2 : layout (sb f2) = layout (sb f)) by (rewrite (gr_layout _ _ _ _ _ Hg); apply Hd).
  assert (Hsame : same_file x x2) by (eapply same_file_trans; [done | apply Hg]).
  assert (Hms : mapped f2 x2 s = slot f2 x2 P) by (unfold mapped; by rewrite (layout_ppb _ _ HL2), HP).
  assert (Hfr2 : forall n, free f2 n -> free f n).
  { intros n [Hr Hu]. apply fresh_free_sub. apply (layout_range _ _ _ (gr_layout _ _ _ _ _ Hg)) in Hr. split; [done|].
    destruct (used f1 n) eqn:E; [|done]. rewrite (proj2 (gr_used _ _ _ _ _ Hg n Hr)) in Hu; [done | by left]. }
  assert (Hnodes : forall n, slot f2 x2 P = d \/ slot f2 x2 P = 0 -> node f2 x2 n -> node f x n \/ free f n).
  { intros n HsP Hn. destruct (path_ok _ s P (ppb_pos f Hok) H0 HP). by apply (grow_nodes P f2 x2 n). }
  destruct Hres as [(-> & Es)|(-> & Es & Hpd2 & Hfull)]; simpl.
  - exists d, f2, (set_vfs set_dirty x2). split; [done|]. split; try done.
    + apply Hg.
    + apply (file_ptrs_ok f2 x2); [done | apply Hg].
    + apply (same_meta x x2), Hsame.
    + eapply kept_fresh; try done. exact (gr_frame _ _ _ _ _ Hg).
    + intros n Hn. apply (Hnodes n); [by left | done].
    + rewrite decide_False by done. split_and!; [exact (eq_trans Hms Es) | | done]. intros _.
      assert (Hfd : ~ free f1 d) by (intros [_ Hu]; pose proof (pend_used _ _ _ Hpd); congruence).
      assert (Hnd : ~ inner_node f1 x1 d) by (intros (q & Hq & _ & Eq & Hq0); apply (pend_node _ _ _ Hpd); by exists q).
      split_and!; [apply Hd | rewrite (gr_frame _ _ _ _ _ Hg); [apply Hd | apply Hpd | done | done] |].
      apply (gr_filled _ _ _ _ _ Hg); [apply Hpd | done | done |]. apply (fresh_filled _ _ _ Hd); [|by left].
      rewrite <- (layout_bitmap _ _ _ (fresh_layout _ _ _ Hd)). apply Hpd.
  - destruct (alloc_undo f x s f1 x1 f2 x2 d) as (f' & x' & E' & Ha); try done; try apply Hg.
    + exact (gr_frame _ _ _ _ _ Hg).
    + intros t Ht. destruct (decide (t = s)) as [->|]; [by rewrite Hms, Es, Hm0 | by apply Hother].
    + intros n Hn. apply (Hnodes n); [by right | done].
    + by right.
    + by exists SECTOR_INVALID, f', x'.
Qed.
End Alloc.

Lemma ext2_bmap_alloc_spec f x s :
  fs_ok f -> file_ok f x -> sector_known f x s ->
  exists ret f' x', ext2_bmap_alloc f x s = Done (ret, f', x') /\ allocated f x s ret f' x'.
Proof.
  intros Hok Hx Hs. unfold ext2_bmap_alloc. rewrite (ext2_bmap_spec f x s Hok Hx Hs). obind.
  destruct Hs as [H0 _]. pose proof (mapped_known f x s Hok Hx H0) as Hk.
  destruct (Z.eqb_spec (return_sector (mapped f x s)) SECTOR_INVALID) as [E|E]; simpl.
  2: { exists (return_sector (mapped f x s)), f, x. split; [done|]. apply Hk in E.
       assert (Em : return_sector (mapped f x s) = mapped f x s) by (unfold return_sector; by destruct (Z.eqb_spec (mapped f x s) 0)).
       rewrite Em in *. split; try done; [by left|]. rewrite decide_False by tauto. tauto. }
  assert (Hm0 : mapped f x s = 0) by (destruct (Z.eq_dec (mapped f x s) 0); tauto).
  destruct (ext2_alloc_block_zero_spec f x Hok) as (d & f1 & x1 & -> & Hok1 & Hs1 & Ex & Hr). obind.
  destruct Hr as [(-> & -> & -> & Hfull)|(Hne & Hd)].
  { simpl. exists SECTOR_INVALID, f, x. split; [done|]. split; try done; [by left|]. rewrite decide_True by done.
    split_and!; [done | done | right]. intros b c Hb. by apply Hfull in Hb. }
  destruct (Z.eqb_spec d SECTOR_INVALID); [done|]. destruct (Z.ltb_spec s NDIRECT) as [Hdir|Hdir].
  - destruct (alloc_direct f x s Hok Hx H0 Hm0 d f1 x1) as (ptrs & -> & Ha); try done. obind. by eexists _, _, _.
  - by apply (alloc_behind f x s).
Qed.

(** C4: mapping a sector of a file for writing, among the direct blocks or not past
    the end of the file, returns the block that holds the sector; when it had none
    it is a block that was free, which reads as zeros from the block cache.  The
    code marks such a block synced and not dirty, so it is left in [filled]: until
    the caller writes to it the zeros are in the cache only, and a cache that drops
    the block has the old contents of the device in the file ([new_block_lost]).
    Every other sector of the file keeps its block, no block in use outside of the
    indirect blocks of this file changes, and the file system stays consistent.  It
    fails only past the largest file, or when fewer than two blocks are free. *)
Theorem ext2_bmap_alloc_correct f x s :
  fs_ok f -> file_ok f x -> sector_known f x s ->
  exists ret f' x', ext2_bmap_alloc f x s = Done (ret, f', x') /\ allocated f x s ret f' x' /\
    ext2_bmap f' x' s = Done ret.
Proof.
  intros Hok Hx Hs. destruct (ext2_bmap_alloc_spec f x s Hok Hx Hs) as (ret & f' & x' & E & Ha).
  exists ret, f', x'. split; [done|]. split; [done|].
  assert (Ebs : block_size (sb f') = block_size (sb f)) by (pose proof (al_layout _ _ _ _ _ _ Ha) as HL; by injection HL).
  rewrite (ext2_bmap_spec f' x' s); [| apply Ha | apply Ha |].
  - f_equal. pose proof (al_result _ _ _ _ _ _ Ha) as Hr. case_decide as Er.
    + destruct Hr as (-> & -> & _). done.
    + destruct Hr as (Em & Hr). rewrite Em. unfold return_sector. destruct (Z.eqb_spec ret 0) as [->|]; [|done].
      exfalso. destruct (decide (mapped f x s = 0)) as [E0|E0].
      * destruct (Hr) as [Hr1 _]. destruct (Hr1 E0) as [Hf _].
        destruct (ok_free _ (ok_alloc _ Hok) 0 Hf) as (_ & ? & _). lia.
      * destruct Hr as [_ Hr]. destruct (Hr E0) as [? _]. congruence.
  - unfold sector_known. by rewrite (al_size _ _ _ _ _ _ Ha), Ebs.
Qed.

Lemma ext2_bmap_alloc_correct_witness :
  exists ret f' x', ext2_bmap_alloc demo demo_empty 3 = Done (ret, f', x') /\ allocated demo demo_empty 3 ret f' x' /\
    ext2_bmap f' x' 3 = Done ret.
Proof.
  apply (ext2_bmap_alloc_correct demo demo_empty 3); [apply demo_ok | apply demo_empty_ok|].
  split; [lia | left; unfold NDIRECT; lia].
Defined.

(** The block of zeros that a file gets is lost when the cache drops it before it is
    written: the file has whatever the device had in the block. *)
Lemma new_block_lost old : exists ret f' x', ext2_bmap_alloc demo demo_empty 3 = Done (ret, f', x') /\ disk f' !! ret = Some (replicate 1024 0) /\
  ext2_bmap (cache_drop f' ret old) x' 3 = Done ret /\ disk (cache_drop f' ret old) !! ret = Some old.
Proof.
  destruct (ext2_bmap_alloc demo demo_empty 3) as [[[ret f'] x']| |] eqn:E; [|by vm_compute in E..]. exists ret, f', x'. split; [done|]. clear -E.
  assert (H : ret = 8 /\ disk f' !! 8 = Some (replicate 1024 0) /\ bool_decide (8 ∈ filled f') = true /\ ext2_bmap f' x' 3 = Done 8).
  { vm_compute in E. injection E as <- <- <-. by vm_compute. }
  destruct H as (-> & H1 & H2 & H3). unfold cache_drop. rewrite H2. split_and!; [done | exact H3 | apply lookup_insert_eq].
Qed.
