(* ===== verification/Ext2Trunc.v ===== *)
(** Truncation of an ext2 file (src/fs/ext2/truncate.c): cutting pointers out
    of the inode and of its indirect blocks, and releasing the blocks they led
    to.  The blocks to release are first collected in a page, [tmp_blocks]. *)
From stdpp Require Import base numbers list gmap.
From Stdlib Require Import ZArith ZifyBool Lia.
From S2P Require Import Prelude Bits Endian Ext2 Ext2Alloc Ext2Map Ext2Bmap.
Open Scope Z_scope.

(** A page holds this many block numbers. *)
Definition TMP_BLOCKS : nat := 1024.

Definition tmp_blocks_add_block (tmp : list Z) (block_addr : Z) : outcome (list Z) :=
  if block_addr =? 0 then Done tmp
  else if (length tmp <? TMP_BLOCKS)%nat then Done (tmp ++ [block_addr]) else Fault.

Fixpoint tmp_blocks_release_blocks (f : fs) (x : ext2_inode) (tmp : list Z) : outcome (fs * ext2_inode) :=
  match tmp with
  | [] => Done (f, x)
  | b :: tmp' => '(f, x) ← ext2_block_release f x b; tmp_blocks_release_blocks f x tmp'
  end.

(** The loop of the [__ext2_inode_truncate_*_page] functions over the pointers
    of a block from pointer [i] on, [n] of them. *)
Fixpoint cut_ptrs (data : list Z) (i : Z) (n : nat) (tmp : list Z) : outcome (list Z * list Z) :=
  match n with
  | O => Done (data, tmp)
  | S n' =>
      p ← get_le 4 data (4 * i);
      tmp ← tmp_blocks_add_block tmp p;
      data ← put_le 4 data (4 * i) 0;
      cut_ptrs data (i + 1) n' tmp
  end.

Definition cut_block (f : fs) (addr starting_block : Z) : outcome (fs * list Z) :=
  data ← block_data f addr;
  '(data, tmp) ← cut_ptrs data starting_block (Z.to_nat (ptrs_per_blk f - starting_block)) [];
  Done (block_write f addr data, tmp).

Definition truncate_indirect_page (f : fs) (x : ext2_inode) (addr starting_block : Z) : outcome (fs * ext2_inode) :=
  '(f, tmp) ← cut_block f addr starting_block;
  tmp_blocks_release_blocks f x tmp.

(** The second loop of [__ext2_inode_truncate_dindirect_page]. *)
Fixpoint truncate_indirect_pages (f : fs) (x : ext2_inode) (tmp : list Z) (starting_direct_block : Z)
  : outcome (fs * ext2_inode) :=
  match tmp with
  | [] => Done (f, x)
  | p :: tmp' =>
      '(f, x) ← (if p =? 0 then Done (f, x) else truncate_indirect_page f x p starting_direct_block);
      truncate_indirect_pages f x tmp' 0
  end.

Definition truncate_dindirect_page (f : fs) (x : ext2_inode) (addr starting_block starting_direct_block : Z)
  : outcome (fs * ext2_inode) :=
  '(f, tmp) ← cut_block f addr starting_block;
  '(f, x) ← truncate_indirect_pages f x tmp starting_direct_block;
  tmp_blocks_release_blocks f x tmp.

Fixpoint truncate_dindirect_pages (f : fs) (x : ext2_inode) (tmp : list Z)
    (starting_indirect_block starting_direct_block : Z) : outcome (fs * ext2_inode) :=
  match tmp with
  | [] => Done (f, x)
  | p :: tmp' =>
      '(f, x) ← (if p =? 0 then Done (f, x)
                 else truncate_dindirect_page f x p starting_indirect_block starting_direct_block);
      truncate_dindirect_pages f x tmp' 0 0
  end.

Definition truncate_tindirect_page (f : fs) (x : ext2_inode)
    (addr starting_block starting_indirect_block starting_direct_block : Z) : outcome (fs * ext2_inode) :=
  '(f, tmp) ← cut_block f addr starting_block;
  '(f, x) ← truncate_dindirect_pages f x tmp starting_indirect_block starting_direct_block;
  tmp_blocks_release_blocks f x tmp.

(** [ext2_block_release] of a pointer of the inode, which is then zeroed. *)
Definition release_root (f : fs) (x : ext2_inode) (k : Z) : outcome (fs * ext2_inode) :=
  p ← arr_get (blk_ptrs x) k;
  '(f, x) ← ext2_block_release f x p;
  ptrs ← arr_set (blk_ptrs x) k 0;
  Done (f, set_ptrs ptrs x).

(** The loop over the direct pointers from [i] on. *)
Fixpoint release_direct (f : fs) (x : ext2_inode) (i : Z) (n : nat) : outcome (fs * ext2_inode) :=
  match n with
  | O => Done (f, x)
  | S n' =>
      p ← arr_get (blk_ptrs x) i;
      '(f, x) ← (if p =? 0 then Done (f, x) else release_root f x i);
      release_direct f x (i + 1) n'
  end.

(** The three tests of [__ext2_inode_truncate_remove] on an indirect pointer:
    [page] cuts what lies behind it, and the pointer goes when nothing stays. *)
Definition release_behind (f : fs) (x : ext2_inode) (k starting_block : Z)
    (page : fs -> ext2_inode -> Z -> outcome (fs * ext2_inode)) : outcome (fs * ext2_inode) :=
  root ← arr_get (blk_ptrs x) k;
  if root =? 0 then Done (f, x)
  else
    '(f, x) ← page f x root;
    if starting_block =? 0 then release_root f x k else Done (f, x).

Definition ext2_inode_truncate_remove (f : fs) (x : ext2_inode) (starting_block : Z) : outcome (fs * ext2_inode) :=
  let ppb := ptrs_per_blk f in
  '(f, x) ← (if starting_block <? NDIRECT
             then release_direct f x starting_block (Z.to_nat (NDIRECT - starting_block)) else Done (f, x));
  let s := if starting_block <? NDIRECT then 0 else starting_block - NDIRECT in
  '(f, x) ← (if s <? ppb then release_behind f x SINGLE s (fun f x p => truncate_indirect_page f x p s)
             else Done (f, x));
  let s := if s <? ppb then 0 else s - ppb in
  '(f, x) ← (if s <? ppb * ppb
             then release_behind f x DOUBLE s (fun f x p => truncate_dindirect_page f x p (s / ppb) (s mod ppb))
             else Done (f, x));
  let s := if s <? ppb * ppb then 0 else s - ppb * ppb in
  if s <? ppb * ppb * ppb then
    release_behind f x TRIPLE s (fun f x p =>
      truncate_tindirect_page f x p (s / ppb / ppb) ((s / ppb) mod ppb) (s / ppb / ppb / ppb))
  else Done (f, x).

Definition set_size (n : Z) (x : inode) : inode :=
  {| ino := ino x; dev_no := dev_no x; size := n; mode := mode x; nlinks := nlinks x; blocks := blocks x;
     atime := atime x; mtime := mtime x; ctime := ctime x; uid := uid x; gid := gid x; dirty := dirty x |}.
Definition set_mtime (now : Z) (x : inode) : inode :=
  {| ino := ino x; dev_no := dev_no x; size := size x; mode := mode x; nlinks := nlinks x; blocks := blocks x;
     atime := atime x; mtime := now; ctime := now; uid := uid x; gid := gid x; dirty := dirty x |}.

(** The last part of [__ext2_inode_truncate] before the fields of the inode:
    the zeroing of the bytes past the old end of a file that grows. *)
Definition zero_tail (f : fs) (x : ext2_inode) (new_size : Z) : outcome fs :=
  let bs := block_size (sb f) in
  let old := size (vfs x) in
  if old <? new_size then
    last ← ext2_bmap f x (u32 old);
    if last =? SECTOR_INVALID then Done f
    else
      data ← block_data f last;
      data ← arr_blit data (Z.rem old bs) (replicate (Z.to_nat (bs - Z.rem old bs)) 0);
      Done (block_write f last data)
  else Done f.

Definition ext2_inode_truncate (now : Z) (f : fs) (x : ext2_inode) (new_size : Z) : outcome (fs * ext2_inode) :=
  let bs := block_size (sb f) in
  let starting_block := u32 (Z.quot (i32 (ALIGN_2 new_size bs)) bs) in
  let ending_block := u32 (Z.quot (i32 (ALIGN_2_DOWN (size (vfs x)) bs)) bs) in
  '(f, x) ← (if starting_block <=? ending_block then ext2_inode_truncate_remove f x starting_block else Done (f, x));
  f ← zero_tail f x new_size;
  Done (f, set_vfs (fun v => set_dirty (set_mtime now (set_size new_size v))) x).
