(* ===== verification/Ext2Free.v ===== *)
(** What truncation releases.  The three [__ext2_inode_truncate_*_page]
    functions are one recursion on the levels of indirect blocks; it releases
    exactly the blocks listed by [victims], and touches no other tree. *)
From stdpp Require Import base numbers list gmap.
From Stdlib Require Import ZArith ZifyBool Lia.
From S2P Require Import Prelude Bits Endian Ext2 Ext2Alloc Ext2Map Ext2Bmap Ext2Trunc.
Open Scope Z_scope.

(** * One recursion for the three functions *)

Fixpoint free_pages (g : list Z -> fs -> ext2_inode -> Z -> outcome (fs * ext2_inode))
    (st : list Z) (f : fs) (x : ext2_inode) (tmp : list Z) : outcome (fs * ext2_inode) :=
  match tmp with
  | [] => Done (f, x)
  | p :: tmp' => '(f, x) ← g st f x p; free_pages g [] f x tmp'
  end.

(** [st] are the first pointers to cut, level by level; none means zero. *)
Fixpoint free_page (n : nat) (st : list Z) (f : fs) (x : ext2_inode) (addr : Z) : outcome (fs * ext2_inode) :=
  match n with
  | O => Done (f, x)
  | S m =>
      '(f, tmp) ← cut_block f addr (default 0 (head st));
      '(f, x) ← free_pages (free_page m) (tail st) f x tmp;
      tmp_blocks_release_blocks f x tmp
  end.

(** * Cutting the pointers of a block *)

Definition ptr_in (data : list Z) (j : Z) : Z := match get_le 4 data (4 * j) with Done v => v | _ => 0 end.

Definition kids_in (data : list Z) (i n : Z) : list Z := filter (fun v => v <> 0) (ptr_in data <$> seqZ i n).

Lemma cut_ptrs_spec n : forall data i tmp,
  0 <= i -> 4 * (i + Z.of_nat n) <= Z.of_nat (length data) -> bytes data -> (length tmp + n <= TMP_BLOCKS)%nat ->
  exists data', cut_ptrs data i n tmp = Done (data', tmp ++ kids_in data i (Z.of_nat n)) /\
    length data' = length data /\ bytes data' /\
    forall j, 0 <= j -> 4 * (j + 1) <= Z.of_nat (length data) ->
      ptr_in data' j = if decide (i <= j < i + Z.of_nat n) then 0 else ptr_in data j.
Proof.
  induction n as [|n IH]; intros data i tmp Hi Hl Hb Ht; cbn [cut_ptrs].
  { exists data. unfold kids_in. simpl. rewrite app_nil_r. split_and!; try done.
    intros j Hj Hlj. rewrite decide_False by lia. done. }
  rewrite (get_le_total 4 data) by lia. obind.
  set (p := le_value _). assert (Ep : ptr_in data i = p) by (unfold ptr_in; by rewrite get_le_total by lia).
  assert (Ekids : kids_in data i (Z.of_nat (S n)) = (if p =? 0 then [] else [p]) ++ kids_in data (i + 1) (Z.of_nat n)).
  { unfold kids_in. rewrite Nat2Z.inj_succ, seqZ_cons by lia. cbn [fmap list_fmap]. rewrite Ep, filter_cons.
    replace (Z.succ i) with (i + 1) by lia. replace (Z.pred (Z.succ (Z.of_nat n))) with (Z.of_nat n) by lia.
    destruct (Z.eqb_spec p 0); case_decide; try done; lia. }
  rewrite Ekids.
  assert (Hadd : exists tmp1, tmp_blocks_add_block tmp p = Done tmp1 /\
    tmp1 = tmp ++ (if p =? 0 then [] else [p]) /\ (length tmp1 <= length tmp + 1)%nat).
  { unfold tmp_blocks_add_block. destruct (Z.eqb_spec p 0).
    - exists tmp. rewrite app_nil_r. split_and!; [done | done | lia].
    - destruct (Nat.ltb_spec (length tmp) TMP_BLOCKS); [|lia]. eexists. split_and!; [done | done |].
      rewrite length_app. simpl. lia. }
  destruct Hadd as (tmp1 & -> & Etmp & Hl1). obind.
  rewrite (put_le_total 4 data ltac:(lia) (4 * i) 0) by lia. obind. set (data1 := splice _ _ _).
  assert (Hp : put_le 4 data (4 * i) 0 = Done data1) by (apply put_le_total; lia).
  destruct (put_le_shape _ _ _ _ _ Hp) as [Hlen1 Hb1].
  assert (Hptr : forall j, 0 <= j -> ptr_in data1 j = if decide (j = i) then 0 else ptr_in data j).
  { intros j Hj. unfold ptr_in. destruct (decide (j = i)) as [->|].
    - by rewrite (get_put_same 4 data ltac:(lia) _ _ _ Hp).
    - by rewrite (get_put_other 4 4 data (4 * i) (4 * j) 0 data1) by (done || lia). }
  destruct (IH data1 (i + 1) tmp1) as (data' & -> & Hlen & Hb' & Hcut); [lia | lia | auto | lia |].
  exists data'. split_and!; [| congruence | done |].
  - rewrite Etmp, <- app_assoc. f_equal. f_equal. f_equal. f_equal. unfold kids_in. f_equal.
    apply list_fmap_ext. intros k y Hy. apply lookup_seqZ in Hy as [-> _]. rewrite Hptr by lia.
    by rewrite decide_False by lia.
  - intros j Hj Hlj. rewrite Hcut by (done || lia). rewrite Hptr by done.
    repeat case_decide; try done; lia.
Qed.

(** The blocks behind the pointers of [b] from pointer [s] on. *)
Definition kids (f : fs) (s b : Z) : list Z :=
  filter (fun v => v <> 0) (ptr_at f b <$> seqZ s (ptrs_per_blk f - s)).

Lemma cut_block_spec f b s :
  fs_ok f -> data_block f b -> 0 <= s < ptrs_per_blk f ->
  exists f', cut_block f b s = Done (f', kids f s b) /\ sb f' = sb f /\ fs_ok f' /\
    (forall c, used f' c = used f c) /\ (forall c, data_block f' c <-> data_block f c) /\
    (forall c, c <> b -> disk f' !! c = disk f !! c) /\
    (forall i, 0 <= i < ptrs_per_blk f -> ptr_at f' b i = if decide (s <= i) then 0 else ptr_at f b i).
Proof.
  intros Hok (Hr & H0 & [data Hb] & Hn) Hs. unfold cut_block, block_data. rewrite Hb. obind.
  destruct (block_shape f Hok _ _ Hb) as [Hl Hy]. pose proof (ppb_values f Hok) as Hp.
  destruct (cut_ptrs_spec (Z.to_nat (ptrs_per_blk f - s)) data s []) as (data' & -> & Hl' & Hy' & Hcut);
    [lia | lia | done | unfold TMP_BLOCKS; simpl; lia |]. obind.
  assert (Eptr : forall i, ptr_in data i = ptr_at f b i).
  { intros i. unfold ptr_in, ptr_at, read_ptr, block_data. by rewrite Hb. }
  destruct (block_write_ok f Hok b data') as (H1 & H2 & H3); [by eauto | done | lia | done |].
  exists (block_write f b data'). split_and!; try done.
  - f_equal. f_equal. simpl. unfold kids_in, kids. rewrite Z2Nat.id by lia. f_equal.
    apply list_fmap_ext. intros. apply Eptr.
  - intros c Hc. simpl. by apply lookup_insert_ne.
  - intros i Hi. transitivity (ptr_in data' i).
    { unfold ptr_in, ptr_at, read_ptr, block_data. simpl. by rewrite lookup_insert_eq. }
    rewrite Hcut by lia. rewrite Eptr. repeat case_decide; try done; lia.
Qed.

(** * Trees of blocks *)

Definition idx_ok (ppb : Z) (n : nat) (p : list Z) : Prop :=
  (length p <= n)%nat /\ Forall (fun i => 0 <= i < ppb) p.

Abbreviation walk f := (foldl (follow f)).

Definition reach (f : fs) (n : nat) (b c : Z) : Prop :=
  exists p, idx_ok (ptrs_per_blk f) n p /\ walk f b p = c /\ c <> 0.

(** The trees of depth [n] below the blocks of [ts] share no block. *)
Record forest (f : fs) (n : nat) (ts : list Z) : Prop := {
  fo_nodup : NoDup ts;
  fo_root : forall t, t ∈ ts -> t <> 0;
  fo_once : forall t u p q, t ∈ ts -> u ∈ ts -> idx_ok (ptrs_per_blk f) n p -> idx_ok (ptrs_per_blk f) n q ->
    walk f t p <> 0 -> walk f t p = walk f u q -> t = u /\ p = q;
  fo_used : forall t c, t ∈ ts -> reach f n t c -> data_block f c /\ used f c = true;
}.

Fixpoint victims_list (g : list Z -> Z -> list Z) (st : list Z) (ts : list Z) : list Z :=
  match ts with
  | [] => []
  | t :: ts' => g st t ++ victims_list g [] ts'
  end.

Fixpoint victims (n : nat) (st : list Z) (f : fs) (b : Z) : list Z :=
  match n with
  | O => []
  | S m =>
      let ks := kids f (default 0 (head st)) b in
      victims_list (fun st t => victims m st f t) (tail st) ks ++ ks
  end.

Lemma victims_list_elem g st ts c :
  c ∈ victims_list g st ts -> exists t st', t ∈ ts /\ c ∈ g st' t /\ (st' = st \/ st' = []).
Proof.
  revert st. induction ts as [|t ts IH]; intros st Hc; simpl in Hc; [by apply elem_of_nil in Hc|].
  apply elem_of_app in Hc as [Hc|Hc].
  - exists t, st. split; [by left | auto].
  - destruct (IH [] Hc) as (u & st' & Hu & Hg & Hst). exists u, st'. split; [by right | tauto].
Qed.

Lemma kids_elem f s b c : 0 <= s -> c ∈ kids f s b -> c <> 0 /\ exists i, s <= i < ptrs_per_blk f /\ c = ptr_at f b i.
Proof.
  intros Hs Hc. unfold kids in Hc. apply list_elem_of_filter in Hc as [Hne Hc]. split; [done|].
  apply list_elem_of_fmap in Hc as (i & -> & Hi). apply elem_of_seqZ in Hi. exists i. split; [lia | done].
Qed.

Definition starts_ok (f : fs) (st : list Z) : Prop := Forall (fun s => 0 <= s < ptrs_per_blk f) st.

Lemma starts_head f st : 0 < ptrs_per_blk f -> starts_ok f st -> 0 <= default 0 (head st) < ptrs_per_blk f.
Proof. intros Hp Hst. destruct st; simpl; [lia|]. by inversion Hst. Qed.

Lemma starts_tail f st : starts_ok f st -> starts_ok f (tail st).
Proof. intros Hst. destruct st; [done|]. by inversion Hst. Qed.

Lemma follow_ne f b i : b <> 0 -> follow f b i = ptr_at f b i.
Proof. intros. unfold follow. by destruct (Z.eqb_spec b 0). Qed.

Lemma walk_child f b i q : b <> 0 -> walk f b (i :: q) = walk f (ptr_at f b i) q.
Proof. intros Hb. cbn [foldl]. by rewrite follow_ne. Qed.

Lemma walk_zero f q : walk f 0 q = 0.
Proof. induction q as [|i q IH]; [done | exact IH]. Qed.

(** Only blocks below [b] are released. *)
Lemma victims_reach n f : 0 < ptrs_per_blk f -> forall st b c,
  b <> 0 -> starts_ok f st -> c ∈ victims n st f b ->
  exists p, p <> [] /\ idx_ok (ptrs_per_blk f) n p /\ walk f b p = c /\ c <> 0.
Proof.
  intros Hp. induction n as [|n IH]; intros st b c Hb Hst Hc; simpl in Hc; [by apply elem_of_nil in Hc|].
  pose proof (starts_head f st Hp Hst) as Hs. apply elem_of_app in Hc as [Hc|Hc].
  - apply victims_list_elem in Hc as (t & st' & Ht & Hc & Hst').
    apply kids_elem in Ht as (Ht0 & i & Hi & ->); [|lia].
    destruct (IH st' _ c Ht0) as (p & _ & [Hl Hf] & Hw & Hc0); [|done|].
    { destruct Hst' as [->| ->]; [by apply starts_tail | by constructor]. }
    exists (i :: p). split; [done|]. rewrite walk_child by done. split; [|done].
    split; [simpl; lia|]. constructor; [lia | done].
  - apply kids_elem in Hc as (Hc0 & i & Hi & ->); [|lia]. exists [i]. split; [done|].
    rewrite walk_child by done. split; [|done]. split; [simpl; lia|]. constructor; [lia | done].
Qed.

Lemma reach_child f n b i c :
  b <> 0 -> 0 <= i < ptrs_per_blk f -> reach f n (ptr_at f b i) c -> reach f (S n) b c.
Proof.
  intros Hb Hi (p & [Hl Hf] & Hw & Hc). exists (i :: p). rewrite walk_child by done. split; [|done].
  split; [simpl; lia | by constructor].
Qed.

Lemma reach_self f n b : b <> 0 -> reach f n b b.
Proof. intros. exists []. split; [|done]. split; [simpl; lia | done]. Qed.

(** A change elsewhere on the disk does not move the blocks of a tree. *)
Lemma walk_agree f f' n b :
  ptrs_per_blk f' = ptrs_per_blk f -> (forall c, reach f n b c -> disk f' !! c = disk f !! c) ->
  forall p, idx_ok (ptrs_per_blk f) n p -> walk f' b p = walk f b p.
Proof.
  intros Ep Hd p. induction p as [|i p IH] using rev_ind; intros [Hl Hf]; [done|].
  rewrite length_app in Hl. simpl in Hl. apply Forall_app in Hf as [Hf Hi]. rewrite !foldl_snoc.
  rewrite IH by (split; [lia | done]). destruct (decide (walk f b p = 0)) as [->|Hne]; [done|].
  rewrite !follow_ne by done.
  apply ptr_at_agree, Hd. exists p. split; [split; [lia | done] | done].
Qed.

Lemma victims_list_ext g g' st ts :
  (forall t st', t ∈ ts -> g st' t = g' st' t) -> victims_list g st ts = victims_list g' st ts.
Proof.
  revert st. induction ts as [|t ts IH]; intros st H; [done|]. simpl. rewrite H by (by left). f_equal.
  apply IH. intros u st' Hu. apply H. by right.
Qed.

Lemma kids_agree f f' s b :
  ptrs_per_blk f' = ptrs_per_blk f -> disk f' !! b = disk f !! b -> kids f' s b = kids f s b.
Proof.
  intros Ep Hd. unfold kids. rewrite Ep. f_equal. apply list_fmap_ext. intros. by apply ptr_at_agree.
Qed.

Lemma victims_agree f f' n : 0 < ptrs_per_blk f -> ptrs_per_blk f' = ptrs_per_blk f -> forall st b,
  b <> 0 -> starts_ok f st -> (forall c, reach f n b c -> disk f' !! c = disk f !! c) ->
  victims n st f' b = victims n st f b.
Proof.
  intros Hp Ep. induction n as [|n IH]; intros st b Hb Hst Hd; [done|]. simpl.
  pose proof (starts_head f st Hp Hst) as Hs.
  rewrite (kids_agree f f') by (done || apply Hd, reach_self; done). f_equal.
  assert (Hkid : forall t st', t ∈ kids f (default 0 (head st)) b -> starts_ok f st' -> victims n st' f' t = victims n st' f t).
  { intros t st' Ht Hst'. apply kids_elem in Ht as (Ht0 & i & Hi & ->); [|lia]. apply IH; [done | done |].
    intros c Hc. apply Hd. eapply reach_child; [done | | done]. lia. }
  clear Hd IH. pose proof (starts_tail f st Hst) as Htl. revert Htl. generalize (tail st).
  induction (kids f (default 0 (head st)) b) as [|t ts IHt]; intros st' Hst'; [done|]. simpl.
  rewrite Hkid by (by left || done). f_equal. apply IHt; [|by constructor]. intros u st1 Hu. apply Hkid. by right.
Qed.

(** * The effect of a release on the disk *)

(** The blocks of [V] are released and the contents of those in [M] change. *)
Record pruned (f f' : fs) (V M : list Z) : Prop := {
  pr_ok : fs_ok f';
  pr_layout : layout (sb f') = layout (sb f);
  pr_used : forall c, in_range (sb f) c -> used f' c = true <-> used f c = true /\ c ∉ V;
  pr_data : forall c, data_block f' c <-> data_block f c;
  pr_frame : forall m, ~ bitmap_block (sb f) m -> m ∉ M -> disk f' !! m = disk f !! m;
}.

Lemma pruned_refl f M : fs_ok f -> pruned f f [] M.
Proof. intros. split; try done. intros. split; [|tauto]. intros. split; [done | apply not_elem_of_nil]. Qed.

Lemma pruned_trans f f1 f2 V1 V2 M1 M2 :
  pruned f f1 V1 M1 -> pruned f1 f2 V2 M2 -> pruned f f2 (V1 ++ V2) (M1 ++ M2).
Proof.
  intros [O1 L1 U1 D1 F1] [O2 L2 U2 D2 F2]. split; try done.
  - by rewrite L2.
  - intros c Hc. rewrite U2 by (by apply (layout_range _ _ _ L1)). rewrite U1 by done. rewrite not_elem_of_app. tauto.
  - intros c. by rewrite D2, D1.
  - intros m Hb Hm. apply not_elem_of_app in Hm as [H1 H2].
    rewrite F2, F1; try done. by rewrite (layout_bitmap _ _ _ L1).
Qed.

Lemma pruned_mod f f' V M M' : (forall m, m ∈ M -> m ∈ M') -> pruned f f' V M -> pruned f f' V M'.
Proof. intros H []. split; try done. intros m Hb Hm. auto. Qed.

Lemma release_blocks_spec f x ts :
  fs_ok f -> NoDup ts -> (forall t, t ∈ ts -> data_block f t /\ used f t = true) ->
  exists f' x', tmp_blocks_release_blocks f x ts = Done (f', x') /\ pruned f f' ts [] /\ same_file x x' /\
    blk_ptrs x' = blk_ptrs x.
Proof.
  revert f x. induction ts as [|t ts IH]; intros f x Hok Hnd Ht; cbn [tmp_blocks_release_blocks].
  { exists f, x. split_and!; [done | by apply pruned_refl | apply same_file_refl | done]. }
  apply NoDup_cons in Hnd as [Htn Hnd]. destruct (Ht t ltac:(by left)) as [Hd Hu].
  destruct (ext2_block_release_spec f x t Hok Hd Hu) as (f1 & -> & Hok1 & [ML MU MF MD]). obind.
  assert (HD : forall c, data_block f1 c <-> data_block f c).
  { intros c. unfold data_block. by rewrite (layout_range _ _ _ ML), MD, (layout_bitmap _ _ _ ML). }
  set (x1 := set_vfs _ x). destruct (IH f1 x1) as (f2 & x2 & -> & Hp & Hs & Ex); [done | done | |].
  { intros u Hin. destruct (Ht u ltac:(by right)) as [Hdu Huu]. split; [by apply HD|].
    rewrite MU by apply Hdu. rewrite decide_False; [done|]. intros ->. done. }
  exists f2, x2. split; [done|]. split_and!; [| | done].
  - change (t :: ts) with ([t] ++ ts). apply (pruned_trans f f1 f2 [t] ts [] []); [|done].
    split; [done | done | | done | intros; by apply MF].
    intros c Hc. rewrite MU by done. rewrite not_elem_of_cons. case_decide as E.
    + subst c. split; [done | intros (_ & ? & _); done].
    + split; [|tauto]. intros ?. split_and!; [done | done | apply not_elem_of_nil].
  - eapply same_file_trans, Hs. by exists (u32 (blocks (vfs x) - block_sectors f)), (blk_ptrs x).
Qed.

(** * Forests *)

Lemma nodup_values (g : Z -> Z) (l : list Z) :
  NoDup l -> (forall i j, i ∈ l -> j ∈ l -> g i <> 0 -> g i = g j -> i = j) -> NoDup (filter (fun v => v <> 0) (g <$> l)).
Proof.
  induction l as [|i l IH]; intros Hnd Hg; [constructor|]. apply NoDup_cons in Hnd as [Hi Hnd].
  cbn [fmap list_fmap]. rewrite filter_cons.
  assert (IH' : NoDup (filter (fun v => v <> 0) (g <$> l))).
  { apply IH; [done|]. intros j k Hj Hk. apply Hg; by right. }
  case_decide as H0; [|done]. apply NoDup_cons. split; [|done]. intros Hin.
  apply list_elem_of_filter in Hin as [_ Hin]. apply list_elem_of_fmap in Hin as (j & E & Hj).
  apply Hi. rewrite (Hg i j); [done | by left | by right | done | done].
Qed.

Lemma idx_cons f n i p : 0 <= i < ptrs_per_blk f -> idx_ok (ptrs_per_blk f) n p -> idx_ok (ptrs_per_blk f) (S n) (i :: p).
Proof. intros Hi [Hl Hf]. split; [simpl; lia | by constructor]. Qed.

Lemma forest_kids f n b s : 0 <= s -> forest f (S n) [b] -> forest f n (kids f s b).
Proof.
  intros Hs [_ Hroot Honce Hused]. pose proof (Hroot b ltac:(by left)) as Hb. split.
  - apply nodup_values; [apply NoDup_seqZ|]. intros i j Hi Hj H0 E.
    apply elem_of_seqZ in Hi, Hj.
    destruct (Honce b b [i] [j]) as [_ [= ->]]; try (by left); try (apply idx_cons; [lia|]; split; [simpl; lia | done]).
    + by rewrite walk_child.
    + by rewrite !walk_child.
    + done.
  - intros t Ht. by apply kids_elem in Ht as [? _].
  - intros t u p q Ht Hu Hp Hq Hne E. apply kids_elem in Ht as (_ & i & Hi & ->); [|done].
    apply kids_elem in Hu as (_ & j & Hj & ->); [|done].
    destruct (Honce b b (i :: p) (j :: q)) as [_ [= -> ->]]; try (by left); try (apply idx_cons; [lia | done]).
    + by rewrite walk_child.
    + by rewrite !walk_child.
    + done.
  - intros t c Ht Hc. apply kids_elem in Ht as (_ & i & Hi & ->); [|done].
    apply (Hused b c); [by left|]. eapply reach_child; [done | | done]. lia.
Qed.

Lemma forest_agree f f' n ts :
  layout (sb f') = layout (sb f) -> (forall c, data_block f' c <-> data_block f c) ->
  (forall t c, t ∈ ts -> reach f n t c -> disk f' !! c = disk f !! c /\ used f' c = true) ->
  forest f n ts -> forest f' n ts.
Proof.
  intros HL HD Hc [Hnd Hroot Honce Hused]. pose proof (layout_ppb _ _ HL) as Ep.
  assert (Hw : forall t p, t ∈ ts -> idx_ok (ptrs_per_blk f) n p -> walk f' t p = walk f t p).
  { intros t p Ht Hp. apply (walk_agree f f' n); [done | | done]. intros c Hr. by apply (Hc t c). }
  split; [done | done | |].
  - intros t u p q Ht Hu. rewrite Ep. intros Hp Hq. rewrite !Hw by done. by apply Honce.
  - intros t c Ht (p & Hp & Hwp & Hc0). rewrite Ep in Hp. rewrite Hw in Hwp by done.
    assert (Hr : reach f n t c) by (by exists p). split; [|by apply (Hc t c)].
    apply HD. by apply (Hused t c).
Qed.

Lemma forest_apart f n ts t u c : forest f n ts -> t ∈ ts -> u ∈ ts -> reach f n t c -> reach f n u c -> t = u.
Proof.
  intros HF Ht Hu (p & Hp & Hwp & Hc) (q & Hq & Hwq & _).
  destruct (fo_once _ _ _ HF t u p q); try done; congruence.
Qed.

Lemma forest_sub f n ts us : forest f n ts -> NoDup us -> (forall t, t ∈ us -> t ∈ ts) -> forest f n us.
Proof.
  intros [Hnd Hroot Honce Hused] Hus Hsub. split; [done | auto | |].
  - intros t u p q Ht Hu. apply Honce; auto.
  - intros t c Ht. apply Hused. auto.
Qed.

(** * What the recursion does *)

Definition page_spec (n : nat) : Prop := forall st f x b,
  fs_ok f -> forest f n [b] -> starts_ok f st ->
  exists f' x', free_page n st f x b = Done (f', x') /\
    pruned f f' (victims n st f b) (b :: victims n st f b) /\ same_file x x' /\ blk_ptrs x' = blk_ptrs x.

Lemma victims_self n f st b c :
  0 < ptrs_per_blk f -> b <> 0 -> starts_ok f st -> c ∈ b :: victims n st f b -> reach f n b c.
Proof.
  intros Hp Hb Hst Hc. apply elem_of_cons in Hc as [->|Hc]; [by apply reach_self|].
  destruct (victims_reach n f Hp st b c Hb Hst Hc) as (p & _ & Hi & Hw). by exists p.
Qed.

Lemma free_pages_spec n : page_spec n -> forall ts st f x,
  fs_ok f -> forest f n ts -> starts_ok f st ->
  exists f' x', free_pages (free_page n) st f x ts = Done (f', x') /\
    pruned f f' (victims_list (fun st t => victims n st f t) st ts) (ts ++ victims_list (fun st t => victims n st f t) st ts) /\
    same_file x x' /\ blk_ptrs x' = blk_ptrs x.
Proof.
  intros Hpage. induction ts as [|t ts IH]; intros st f x Hok HF Hst; cbn [free_pages victims_list].
  { exists f, x. split_and!; [done | by apply pruned_refl | apply same_file_refl | done]. }
  pose proof (ppb_pos f Hok) as Hp. pose proof (fo_nodup _ _ _ HF) as Hnd. apply NoDup_cons in Hnd as [Htn Hnd].
  pose proof (fo_root _ _ _ HF t ltac:(by left)) as Ht0.
  destruct (Hpage st f x t Hok) as (f1 & x1 & -> & HP & Hs & Ex);
    [apply (forest_sub f n (t :: ts)); [done | apply NoDup_singleton | set_solver] | done |]. obind.
  pose proof (layout_ppb _ _ (pr_layout _ _ _ _ HP)) as Ep.
  assert (Hkeep : forall u c, u ∈ ts -> reach f n u c -> disk f1 !! c = disk f !! c /\ used f1 c = true).
  { intros u c Hu Hc. destruct (fo_used _ _ _ HF u c ltac:(by right) Hc) as [Hd Huc].
    assert (Hnot : c ∉ t :: victims n st f t).
    { intros Hin. apply (victims_self n f st t c Hp Ht0 Hst) in Hin.
      apply Htn. rewrite (forest_apart f n (t :: ts) t u c HF); [done | by left | by right | done | done]. }
    split; [apply (pr_frame _ _ _ _ HP); [apply Hd | done]|]. apply (pr_used _ _ _ _ HP); [apply Hd|].
    split; [done|]. set_solver. }
  destruct (IH [] f1 x1) as (f2 & x2 & -> & HP2 & Hs2 & Ex2).
  { apply HP. }
  { apply (forest_agree f f1); [apply HP | apply HP | done |].
    apply (forest_sub f n (t :: ts)); [done | done | set_solver]. }
  { constructor. }
  assert (EV : victims_list (fun st t => victims n st f1 t) [] ts = victims_list (fun st t => victims n st f t) [] ts).
  { assert (Hgen : forall us, (forall u, u ∈ us -> u ∈ ts) ->
      victims_list (fun st t => victims n st f1 t) [] us = victims_list (fun st t => victims n st f t) [] us).
    { induction us as [|u us IHu]; intros Hus; [done|]. simpl. rewrite IHu by set_solver. f_equal.
      apply victims_agree; [done | done | | by constructor |].
      - apply (fo_root _ _ _ HF). right. apply Hus. by left.
      - intros c Hc. apply (Hkeep u c); [apply Hus; by left | done]. }
    by apply Hgen. }
  rewrite EV in HP2. exists f2, x2. split; [done|]. split_and!; [| by eapply same_file_trans | congruence].
  eapply pruned_mod, (pruned_trans _ _ _ _ _ _ _ HP HP2). set_solver.
Qed.

Lemma free_page_step n : page_spec n -> forall st f x b,
  fs_ok f -> forest f (S n) [b] -> starts_ok f st ->
  exists f' x', free_page (S n) st f x b = Done (f', x') /\
    pruned f f' (victims (S n) st f b) (b :: victims (S n) st f b) /\ same_file x x' /\ blk_ptrs x' = blk_ptrs x /\
    forall i, 0 <= i < ptrs_per_blk f -> ptr_at f' b i = if decide (default 0 (head st) <= i) then 0 else ptr_at f b i.
Proof.
  intros Hpage st f x b Hok HF Hst. pose proof (ppb_pos f Hok) as Hp. pose proof (starts_head f st Hp Hst) as Hs.
  pose proof (fo_root _ _ _ HF b ltac:(by left)) as Hb0. cbn [free_page victims].
  set (s := default 0 (head st)) in *. set (ks := kids f s b).
  destruct (fo_used _ _ _ HF b b ltac:(by left) (reach_self f (S n) b Hb0)) as [Hdb Hub].
  destruct (cut_block_spec f b s Hok Hdb Hs) as (f1 & -> & Esb & Hok1 & Hu1 & Hd1 & Hf1 & Hcut). obind. fold ks.
  pose proof (forest_kids f n b s ltac:(lia) HF) as HK. fold ks in HK.
  assert (HL1 : layout (sb f1) = layout (sb f)) by (by rewrite Esb).
  assert (Hnotb : forall t c, t ∈ ks -> reach f n t c -> c <> b).
  { intros t c Ht (p & Hi & Hw & Hc0) ->. apply kids_elem in Ht as (_ & i & Hi' & ->); [|lia].
    destruct (fo_once _ _ _ HF b b (i :: p) []) as [_ [=]]; try (by left).
    - apply idx_cons; [lia | done].
    - split; [simpl; lia | done].
    - by rewrite walk_child, Hw.
    - by rewrite walk_child, Hw. }
  assert (HK1 : forest f1 n ks).
  { apply (forest_agree f f1); [done | done | | done]. intros t c Ht Hc. split; [by apply Hf1, (Hnotb t)|].
    rewrite Hu1. by apply (fo_used _ _ _ HK t c). }
  assert (HP1 : pruned f f1 [] [b]).
  { split; try done.
    - intros c Hc. rewrite Hu1. split; [|tauto]. intros ?. split; [done | apply not_elem_of_nil].
    - intros m _ Hm. apply Hf1. set_solver. }
  destruct (free_pages_spec n Hpage ks (tail st) f1 x Hok1 HK1) as (f2 & x2 & -> & HP2 & Hs2 & Ex2).
  { unfold starts_ok. rewrite (layout_ppb _ _ HL1). by apply starts_tail. }
  obind. set (W1 := victims_list _ _ _) in HP2.
  assert (EW : W1 = victims_list (fun st t => victims n st f t) (tail st) ks).
  { assert (Hgen : forall us st', starts_ok f st' -> (forall u, u ∈ us -> u ∈ ks) ->
      victims_list (fun st t => victims n st f1 t) st' us = victims_list (fun st t => victims n st f t) st' us).
    { induction us as [|u us IHu]; intros st' Hst' Hus; [done|]. simpl. rewrite IHu by (by constructor || set_solver). f_equal.
      apply victims_agree; [done | by apply layout_ppb | | done |].
      - apply (fo_root _ _ _ HK), Hus. by left.
      - intros c Hc. apply Hf1, (Hnotb u); [apply Hus; by left | done]. }
    apply Hgen; [by apply starts_tail | done]. }
  rewrite EW in HP2. set (W := victims_list _ _ _) in HP2 |- *.
  assert (HW : forall c, c ∈ W -> exists t p, t ∈ ks /\ p <> [] /\ idx_ok (ptrs_per_blk f) n p /\ walk f t p = c /\ c <> 0).
  { intros c Hc. apply victims_list_elem in Hc as (t & st' & Ht & Hc & Hst').
    destruct (victims_reach n f Hp st' t c) as (p & Hpne & Hi & Hw); [by apply (fo_root _ _ _ HK) | | done | by exists t, p].
    destruct Hst' as [->| ->]; [by apply starts_tail | by constructor]. }
  pose proof (pruned_trans _ _ _ _ _ _ _ HP1 HP2) as HP12.
  destruct (release_blocks_spec f2 x2 ks) as (f3 & x3 & -> & HP3 & Hs3 & Ex3).
  { apply HP2. }
  { apply HK. }
  { intros t Ht. destruct (fo_used _ _ _ HK t t Ht (reach_self f n t (fo_root _ _ _ HK t Ht))) as [Hd Hu].
    split; [by apply (pr_data _ _ _ _ HP12)|]. apply (pr_used _ _ _ _ HP12); [apply Hd|]. split; [done|].
    simpl. intros Hin. apply HW in Hin as (u & p & Hu' & Hpne & Hi & Hw & Hc0).
    destruct (fo_once _ _ _ HK u t p []) as [_ ->]; try done; [split; [simpl; lia | done] | congruence]. }
  pose proof (pruned_trans _ _ _ _ _ _ _ HP12 HP3) as HP. exists f3, x3. split; [done|]. split_and!.
  - eapply pruned_mod, HP. set_solver.
  - by eapply same_file_trans.
  - congruence.
  - intros i Hi. rewrite <- Hcut by done. apply ptr_at_agree.
    rewrite (pr_frame _ _ _ _ HP3), (pr_frame _ _ _ _ HP2); try done.
    + rewrite Esb. apply Hdb.
    + rewrite elem_of_app. intros [Hin|Hin].
      * by apply (Hnotb b b Hin (reach_self f n b Hb0)).
      * apply HW in Hin as (t & p & Ht & _ & Hix & Hw & Hc0). apply (Hnotb t b Ht); [by exists p | done].
    + rewrite (layout_bitmap _ _ _ (pr_layout _ _ _ _ HP12)). apply Hdb.
    + apply not_elem_of_nil.
Qed.

Lemma free_page_spec n : page_spec n.
Proof.
  induction n as [|n IH]; intros st f x b Hok HF Hst.
  - exists f, x. split_and!; [done | by apply pruned_refl | apply same_file_refl | done].
  - destruct (free_page_step n IH st f x b Hok HF Hst) as (f' & x' & E & HP & Hs & Ex & _). by exists f', x'.
Qed.
