(* ===== verification/Ext2Remove.v ===== *)
(** [__ext2_inode_truncate_remove] takes slots out of the block map of a file
    and releases exactly the blocks that were in them, when the number of blocks
    that stay fills whole indirect blocks.  When it does not, and the cut falls
    behind the double indirect pointer, blocks that should stay are lost. *)
From stdpp Require Import base numbers list gmap.
From Stdlib Require Import ZArith ZifyBool Lia.
From S2P Require Import Prelude Bits Endian Ext2 Ext2Alloc Ext2Map Ext2Demo Ext2Bmap Ext2Trunc Ext2Free.
Open Scope Z_scope.

(** * The functions of the source as instances of the recursion *)

Lemma cut_ptrs_nonzero n : forall data i tmp data' tmp',
  cut_ptrs data i n tmp = Done (data', tmp') -> Forall (fun p => p <> 0) tmp -> Forall (fun p => p <> 0) tmp'.
Proof.
  induction n as [|n IH]; intros data i tmp data' tmp' H Ht; cbn [cut_ptrs] in H; [by injection H as <- <-|].
  inv_outcome. eapply IH; [exact H|]. unfold tmp_blocks_add_block in Hm0.
  destruct (Z.eqb_spec r 0); [by injection Hm0 as <-|].
  destruct (Nat.ltb _ _); [|done]. injection Hm0 as <-. apply Forall_app. split; [done|]. by repeat constructor.
Qed.

Lemma cut_block_nonzero f a s f' tmp : cut_block f a s = Done (f', tmp) -> Forall (fun p => p <> 0) tmp.
Proof.
  intros H. unfold cut_block in H. inv_outcome. destruct r0 as [data tmp']. injection H as <- <-.
  by eapply cut_ptrs_nonzero.
Qed.

Lemma free_pages_none st f x ts : free_pages (free_page 0) st f x ts = Done (f, x).
Proof. revert st. induction ts as [|t ts IH]; intros; [done|]. simpl. apply IH. Qed.

Lemma truncate_indirect_page_free f x a s : truncate_indirect_page f x a s = free_page 1 [s] f x a.
Proof.
  unfold truncate_indirect_page. cbn [free_page]. change (default 0 (head [s])) with s. destruct (cut_block f a s) as [[f1 tmp]| |]; [|done|done].
  obind. by rewrite free_pages_none.
Qed.

Lemma truncate_indirect_pages_free ts : Forall (fun p => p <> 0) ts -> forall f x st,
  truncate_indirect_pages f x ts (default 0 (head st)) = free_pages (free_page 1) st f x ts.
Proof.
  induction 1 as [|t ts Ht _ IH]; intros f x st; [done|]. cbn [truncate_indirect_pages free_pages].
  destruct (Z.eqb_spec t 0); [done|]. rewrite truncate_indirect_page_free.
  assert (E : free_page 1 [default 0 (head st)] f x t = free_page 1 st f x t).
  { cbn [free_page]. change (default 0 (head [default 0 (head st)])) with (default 0 (head st)).
    destruct (cut_block f t (default 0 (head st))) as [[f1 tmp]| |]; [|done|done].
    obind. by rewrite !free_pages_none. }
  rewrite E. destruct (free_page 1 st f x t) as [[f1 x1]| |]; [|done|done]. obind. apply (IH f1 x1 []).
Qed.

Lemma truncate_dindirect_page_free f x a s d : truncate_dindirect_page f x a s d = free_page 2 [s; d] f x a.
Proof.
  unfold truncate_dindirect_page. change (free_page 2) with (fun st f x addr =>
    '(f, tmp) ← cut_block f addr (default 0 (head st));
    '(f, x) ← free_pages (free_page 1) (tail st) f x tmp;
    tmp_blocks_release_blocks f x tmp). cbv beta. change (default 0 (head (s :: _))) with s.
  destruct (cut_block f a s) as [[f1 tmp]| |] eqn:E; [|done|done]. obind.
  change (tail [s; d]) with [d]. by rewrite <- (truncate_indirect_pages_free tmp (cut_block_nonzero _ _ _ _ _ E) f1 x [d]).
Qed.

Lemma truncate_dindirect_pages_free ts : Forall (fun p => p <> 0) ts -> forall f x st,
  truncate_dindirect_pages f x ts (default 0 (head st)) (default 0 (head (tail st))) = free_pages (free_page 2) st f x ts.
Proof.
  induction 1 as [|t ts Ht _ IH]; intros f x st; [done|]. cbn [truncate_dindirect_pages free_pages].
  destruct (Z.eqb_spec t 0); [done|]. rewrite truncate_dindirect_page_free.
  assert (E : free_page 2 [default 0 (head st); default 0 (head (tail st))] f x t = free_page 2 st f x t).
  { change (free_page 2) with (fun st f x addr =>
      '(f, tmp) ← cut_block f addr (default 0 (head st));
      '(f, x) ← free_pages (free_page 1) (tail st) f x tmp;
      tmp_blocks_release_blocks f x tmp). cbv beta. change (default 0 (head (default 0 (head st) :: _))) with (default 0 (head st)).
    destruct (cut_block f t (default 0 (head st))) as [[f1 tmp]| |] eqn:E; [|done|done]. obind.
    pose proof (cut_block_nonzero _ _ _ _ _ E) as Hnz.
    change (tail [default 0 (head st); default 0 (head (tail st))]) with [default 0 (head (tail st))].
    by rewrite <- (truncate_indirect_pages_free tmp Hnz f1 x [default 0 (head (tail st))]),
      <- (truncate_indirect_pages_free tmp Hnz f1 x (tail st)). }
  rewrite E. destruct (free_page 2 st f x t) as [[f1 x1]| |]; [|done|done]. obind. apply (IH f1 x1 []).
Qed.

Lemma truncate_tindirect_page_free f x a s i d : truncate_tindirect_page f x a s i d = free_page 3 [s; i; d] f x a.
Proof.
  unfold truncate_tindirect_page. change (free_page 3) with (fun st f x addr =>
    '(f, tmp) ← cut_block f addr (default 0 (head st));
    '(f, x) ← free_pages (free_page 2) (tail st) f x tmp;
    tmp_blocks_release_blocks f x tmp). cbv beta. change (default 0 (head (s :: _))) with s.
  destruct (cut_block f a s) as [[f1 tmp]| |] eqn:E; [|done|done]. obind.
  change (tail [s; i; d]) with [i; d]. by rewrite <- (truncate_dindirect_pages_free tmp (cut_block_nonzero _ _ _ _ _ E) f1 x [i; d]).
Qed.

(** * Which blocks are victims *)

Lemma kids_intro f s b i : s <= i < ptrs_per_blk f -> ptr_at f b i <> 0 -> ptr_at f b i ∈ kids f s b.
Proof.
  intros Hi Hne. unfold kids. apply list_elem_of_filter. split; [done|]. apply list_elem_of_fmap.
  exists i. split; [done|]. apply elem_of_seqZ. lia.
Qed.

Lemma victims_list_intro g st ts t c :
  (forall st', (forall s, s ∈ st' -> s = 0) -> c ∈ g st' t) -> (forall s, s ∈ st -> s = 0) -> t ∈ ts ->
  c ∈ victims_list g st ts.
Proof.
  intros Hc. revert st. induction ts as [|u ts IH]; intros st Hst Ht; [by apply elem_of_nil in Ht|]. simpl.
  apply elem_of_app. apply elem_of_cons in Ht as [<-|Ht]; [left; auto | right].
  apply IH; [|done]. intros s Hs. by apply elem_of_nil in Hs.
Qed.

(** With nothing kept below the first level, everything from [s] on goes. *)
Lemma victims_all n f : 0 < ptrs_per_blk f -> forall st b i p,
  b <> 0 -> (forall s, s ∈ tail st -> s = 0) -> default 0 (head st) <= i < ptrs_per_blk f ->
  idx_ok (ptrs_per_blk f) n p -> walk f b (i :: p) <> 0 -> walk f b (i :: p) ∈ victims (S n) st f b.
Proof.
  intros Hp. induction n as [|n IH]; intros st b i p Hb Hst Hi [Hl Hf] Hne; rewrite walk_child in * by done.
  - destruct p; [|simpl in Hl; lia]. simpl in *. apply elem_of_app. right. by apply kids_intro.
  - set (t := ptr_at f b i) in *. assert (Ht0 : t <> 0) by (intros E; rewrite E, walk_zero in Hne; done).
    change (victims (S (S n)) st f b) with
      (victims_list (fun st t => victims (S n) st f t) (tail st) (kids f (default 0 (head st)) b) ++ kids f (default 0 (head st)) b).
    apply elem_of_app. destruct p as [|j p]; [right; by apply kids_intro | left].
    inversion Hf as [|? ? Hj Hf']; subst. pose proof (kids_intro f _ b i Hi Ht0) as Hin. fold t in Hin.
    assert (Hgo : forall st', (forall s, s ∈ st' -> s = 0) -> walk f t (j :: p) ∈ victims (S n) st' f t).
    { intros st' Hz. apply IH; [done | | | | done].
      - intros s Hs. apply Hz. destruct st'; [done | by right].
      - destruct st' as [|s st']; simpl; [lia|]. rewrite (Hz s) by (by left). lia.
      - split; [simpl in Hl; lia | done]. }
    by apply (victims_list_intro _ _ _ t).
Qed.

Lemma victims_from n f st b c : 0 < ptrs_per_blk f -> b <> 0 -> starts_ok f st -> c ∈ victims (S n) st f b ->
  exists i p, default 0 (head st) <= i < ptrs_per_blk f /\ idx_ok (ptrs_per_blk f) n p /\ walk f b (i :: p) = c /\ c <> 0.
Proof.
  intros Hp Hb Hst Hc. pose proof (starts_head f st Hp Hst) as Hs. cbn [victims] in Hc.
  apply elem_of_app in Hc as [Hc|Hc].
  - apply victims_list_elem in Hc as (t & st' & Ht & Hc & Hst'). apply kids_elem in Ht as (Ht0 & i & Hi & ->); [|lia].
    destruct (victims_reach n f Hp st' _ c Ht0) as (p & _ & Hp' & Hw); [|done|].
    { destruct Hst' as [->| ->]; [by apply starts_tail | by constructor]. }
    exists i, p. by rewrite walk_child.
  - apply kids_elem in Hc as (Hc0 & i & Hi & ->); [|lia]. exists i, []. rewrite walk_child by done.
    split; [lia|]. split; [split; [simpl; lia | by constructor] | done].
Qed.

(** * Taking slots out of the map *)

(** The slots of [C] become empty and their blocks free; nothing else changes. *)
Record cut (C : list Z -> bool) (f : fs) (x : ext2_inode) (f' : fs) (x' : ext2_inode) : Prop := {
  cut_ok : fs_ok f';
  cut_layout : layout (sb f') = layout (sb f);
  cut_file : file_ok f' x';
  cut_same : same_file x x';
  cut_slots : forall q, pos_ok (ptrs_per_blk f) q -> slot f' x' q = if C q then 0 else slot f x q;
  cut_used : forall c, in_range (sb f) c -> used f' c = true <->
    used f c = true /\ ~ exists q, pos_ok (ptrs_per_blk f) q /\ C q = true /\ slot f x q = c /\ c <> 0;
  cut_kept : forall n, ~ bitmap_block (sb f) n -> ~ inner_node f x n ->
    ~ (exists q, pos_ok (ptrs_per_blk f) q /\ C q = true /\ slot f x q = n /\ n <> 0) -> disk f' !! n = disk f !! n;
}.

Lemma cut_ext C C' f x f' x' :
  (forall q, pos_ok (ptrs_per_blk f) q -> C q = C' q) -> cut C f x f' x' -> cut C' f x f' x'.
Proof.
  intros E [K1 K2 K3 K4 K5 K6 K7]. split; try done.
  - intros q Hq. rewrite <- E by done. auto.
  - intros c Hc. rewrite K6 by done. split; intros [Hu Hn]; (split; [done|]); intros (q & Hq & HC & Hs); apply Hn; exists q.
    + by rewrite (E q Hq).
    + by rewrite <- (E q Hq).
  - intros n Hb Hi Hn. apply K7; [done | done |]. intros (q & Hq & HC & Hs). apply Hn. exists q. by rewrite <- (E q Hq).
Qed.

Lemma cut_none f x : fs_ok f -> file_ok f x -> cut (fun _ => false) f x f x.
Proof.
  intros Hok Hx. split; try done; [apply same_file_refl|].
  intros c Hc. split; [|tauto]. intros Hu. split; [done|]. by intros (q & _ & ? & _).
Qed.

Lemma cut_trans C1 C2 f x f1 x1 f2 x2 :
  cut C1 f x f1 x1 -> cut C2 f1 x1 f2 x2 -> cut (fun q => C1 q || C2 q) f x f2 x2.
Proof.
  intros [A1 A2 A3 A4 A5 A6 A7] [B1 B2 B3 B4 B5 B6 B7]. pose proof (layout_ppb _ _ A2) as Ep. rewrite Ep in *.
  assert (Hcut : forall c, c <> 0 ->
    (exists q, pos_ok (ptrs_per_blk f) q /\ C1 q || C2 q = true /\ slot f x q = c /\ c <> 0) <->
    (exists q, pos_ok (ptrs_per_blk f) q /\ C1 q = true /\ slot f x q = c /\ c <> 0) \/
    (exists q, pos_ok (ptrs_per_blk f) q /\ C2 q = true /\ slot f1 x1 q = c /\ c <> 0)).
  { intros c Hc0. split.
    - intros (q & Hq & HC & Hs & _). destruct (C1 q) eqn:E1; [left; by exists q|]. right. exists q.
      rewrite A5 by done. by rewrite E1.
    - intros [(q & Hq & HC & Hs)|(q & Hq & HC & Hs & Hs0)]; exists q; rewrite HC; [done|].
      rewrite A5 in Hs by done. destruct (C1 q); [congruence|]. by rewrite orb_true_r. }
  split; try done.
  - by rewrite B2.
  - by eapply same_file_trans.
  - intros q Hq. rewrite B5, A5 by done. by destruct (C1 q), (C2 q).
  - intros c Hc. rewrite B6 by (by apply (layout_range _ _ _ A2)). rewrite A6 by done.
    destruct (decide (c = 0)) as [->|Hc0].
    + split; [intros [[Hu _] _] | intros [Hu _]]; repeat split; try done; intros (q & _ & _ & _ & Hz); by apply Hz.
    + rewrite Hcut by done. tauto.
  - intros n Hb Hi Hn. rewrite B7; [apply A7; [done | done |] | by rewrite (layout_bitmap _ _ _ A2) | |].
    + intros Hq. apply Hn. destruct Hq as (q & Hq & HC & Hs). exists q. by rewrite HC.
    + intros (q & Hq & Hqi & Hs & Hs0). rewrite Ep in Hq. rewrite A5 in Hs by done. destruct (C1 q); [congruence|].
      apply Hi. by exists q.
    + intros (q & Hq & HC & Hs & Hs0). apply Hn. exists q. rewrite A5 in Hs by done. destruct (C1 q); [congruence|].
      by rewrite HC.
Qed.

(** The slots that are left keep the file consistent. *)
Lemma cut_intro (C : list Z -> bool) f x f' x' :
  file_ok f x -> fs_ok f' -> layout (sb f') = layout (sb f) -> same_file x x' -> length (blk_ptrs x') = 15%nat ->
  (forall q, pos_ok (ptrs_per_blk f) q -> slot f' x' q = if C q then 0 else slot f x q) ->
  (forall c, in_range (sb f) c -> used f' c = true <->
    used f c = true /\ ~ exists q, pos_ok (ptrs_per_blk f) q /\ C q = true /\ slot f x q = c /\ c <> 0) ->
  (forall c, data_block f' c <-> data_block f c) ->
  (forall n, ~ bitmap_block (sb f) n -> ~ inner_node f x n ->
    ~ (exists q, pos_ok (ptrs_per_blk f) q /\ C q = true /\ slot f x q = n /\ n <> 0) -> disk f' !! n = disk f !! n) ->
  cut C f x f' x'.
Proof.
  intros Hx Hok' HL Hsame Hlen Hs Hu Hd Hk. pose proof (layout_ppb _ _ HL) as Ep. split; try done.
  split; [done | |].
  - rewrite Ep. intros p q Hp Hq. rewrite !Hs by done. destruct (C p), (C q); try done.
    by apply (file_once _ _ Hx).
  - intros b (q & Hq & <- & Hne). rewrite Ep in Hq. rewrite Hs in Hne |- * by done. destruct (C q) eqn:EC; [done|].
    destruct (slot_block f x Hx q Hq Hne) as [Hdb Hub]. split; [by apply Hd|]. apply Hu; [apply Hdb|].
    split; [done|]. intros (p & Hp & HCp & Hsp & _).
    assert (p = q) as ->; [|congruence]. apply (file_once _ _ Hx); [done | done | congruence | done].
Qed.

(** * An indirect pointer *)

(** The positions behind pointer [k] of the inode whose next index is at least
    [s]. *)
Definition behind (k s : Z) (q : list Z) : bool :=
  match q with k' :: i :: _ => (k' =? k) && (s <=? i) | _ => false end.

Lemma depth_behind k : 12 <= k < 15 -> depth k = Z.to_nat (k - 11).
Proof. intros. unfold depth, NDIRECT. destruct (Z.ltb_spec k 12); [lia | done]. Qed.

Lemma idx_pos f k p : 12 <= k < 15 -> idx_ok (ptrs_per_blk f) (depth k) p <-> pos_ok (ptrs_per_blk f) (k :: p).
Proof. intros. unfold idx_ok, pos_ok. split; [|tauto]. intros [? ?]. split_and!; try done; lia. Qed.

Lemma forest_root f x k : file_ok f x -> 12 <= k < 15 -> slot f x [k] <> 0 -> forest f (depth k) [slot f x [k]].
Proof.
  intros Hx Hk Hne.
  assert (Hw : forall p, walk f (slot f x [k]) p = slot f x (k :: p)) by done.
  split.
  - apply NoDup_singleton.
  - intros t Ht. by apply list_elem_of_singleton in Ht as ->.
  - intros t u p q Ht Hu Hp Hq. apply list_elem_of_singleton in Ht as ->, Hu as ->. rewrite !Hw.
    intros H0 E. split; [done|]. apply idx_pos in Hp, Hq; try done.
    by injection (file_once _ _ Hx (k :: p) (k :: q) Hp Hq H0 E).
  - intros t c Ht (p & Hp & Hwp & Hc). apply list_elem_of_singleton in Ht as ->. rewrite Hw in Hwp.
    apply (file_used _ _ Hx). exists (k :: p). split; [by apply idx_pos | done].
Qed.

(** Cutting the block behind pointer [k] from index [s] on empties the slots
    from there, whatever is released below them. *)
Lemma free_page_slots f x k s st :
  fs_ok f -> file_ok f x -> 12 <= k < 15 -> slot f x [k] <> 0 -> starts_ok f (s :: st) ->
  let V := victims (depth k) (s :: st) f (slot f x [k]) in
  exists f' x', free_page (depth k) (s :: st) f x (slot f x [k]) = Done (f', x') /\
    pruned f f' V (slot f x [k] :: V) /\ same_file x x' /\ blk_ptrs x' = blk_ptrs x /\
    (forall c, c ∈ V -> exists q, pos_ok (ptrs_per_blk f) q /\ behind k s q = true /\ slot f x q = c /\ c <> 0) /\
    (forall q, pos_ok (ptrs_per_blk f) q -> slot f' x' q = if behind k s q then 0 else slot f x q).
Proof.
  intros Hok Hx Hk Hne Hss V. pose proof (ppb_pos f Hok) as Hp. pose proof (forest_root f x k Hx Hk Hne) as HF.
  assert (exists n, depth k = S n) as [n En] by (exists (Z.to_nat (k - 12)); rewrite depth_behind by done; lia).
  pose proof (idx_pos f k) as Hidx. unfold V. rewrite En in *. set (r := slot f x [k]) in *.
  destruct (free_page_step n (free_page_spec n) (s :: st) f x r Hok HF Hss) as (f' & x' & E & HP & Hsame & Ex & Hptr).
  exists f', x'. change (default 0 (head (s :: st))) with s in Hptr.
  assert (HV : forall c, c ∈ victims (S n) (s :: st) f r ->
    exists q, pos_ok (ptrs_per_blk f) q /\ behind k s q = true /\ slot f x q = c /\ c <> 0).
  { intros c Hc. apply victims_from in Hc as (i & p & Hi & Hip & Hw & Hc0); [|done..]. simpl in Hi.
    exists (k :: i :: p). split_and!; [| simpl; lia | exact Hw | done].
    apply Hidx; [done|]. inversion Hss; subst. apply idx_cons; [lia | done]. }
  split_and!; try done. apply pos_ind; [intros k' Hk'; simpl; by rewrite Ex|]. intros q j Hq Hqi Hj IH.
  rewrite !slot_snoc by (by intros ->). rewrite IH. destruct (behind k s q) eqn:Eb.
  { destruct q as [|k' [|i p]]; [done | done |]. simpl in *. by rewrite Eb. }
  destruct (decide (slot f x q = 0)) as [E0|E0]; [rewrite E0; by destruct (behind k s (q ++ [j]))|].
  rewrite !follow_ne by done. destruct (decide (q = [k])) as [->|Hqk].
  { fold r. rewrite Hptr by done. simpl. rewrite Z.eqb_refl. simpl. destruct (Z.leb_spec s j); case_decide; done || lia. }
  assert (Eb' : behind k s (q ++ [j]) = false).
  { destruct q as [|k' [|i p]]; [done | | by simpl in *]. simpl. by destruct (Z.eqb_spec k' k) as [->|]. }
  rewrite Eb'. apply ptr_at_agree. destruct (slot_block f x Hx q Hq E0) as [Hd Hu].
  apply (pr_frame _ _ _ _ HP); [apply Hd|]. rewrite elem_of_cons. intros [Er|Hin].
  - apply Hqk. apply (file_once _ _ Hx); [done | by apply pos_root; lia | done | done].
  - apply HV in Hin as (q' & Hq' & Hb' & Hs' & _). assert (q' = q) as -> by (apply (file_once _ _ Hx); congruence). congruence.
Qed.

(** Cutting from index [s] on, everything below included. *)
Lemma free_page_cut f x k s st :
  fs_ok f -> file_ok f x -> 12 <= k < 15 -> slot f x [k] <> 0 -> 0 <= s < ptrs_per_blk f ->
  (forall z, z ∈ st -> z = 0) ->
  exists f' x', free_page (depth k) (s :: st) f x (slot f x [k]) = Done (f', x') /\ cut (behind k s) f x f' x'.
Proof.
  intros Hok Hx Hk Hne Hs Hst. pose proof (ppb_pos f Hok) as Hp.
  assert (Hss : starts_ok f (s :: st)).
  { constructor; [done|]. apply Forall_forall. intros z Hz. rewrite (Hst z Hz). lia. }
  destruct (free_page_slots f x k s st Hok Hx Hk Hne Hss) as (f' & x' & E & HP & Hsame & Ex & HVq & Hslots).
  exists f', x'. split; [done|].
  assert (exists n, depth k = S n) as [n En] by (exists (Z.to_nat (k - 12)); rewrite depth_behind by done; lia).
  pose proof (idx_pos f k) as Hidx. rewrite En in *. set (r := slot f x [k]) in *.
  assert (HV : forall c, c ∈ victims (S n) (s :: st) f r <->
    exists q, pos_ok (ptrs_per_blk f) q /\ behind k s q = true /\ slot f x q = c /\ c <> 0).
  { intros c. split; [apply HVq|].
    intros (q & Hq & Hb & Hsq & Hc0). destruct q as [|k' [|i p]]; [done | done |]. simpl in Hb.
    assert (k' = k) as -> by lia. apply Hidx in Hq; [|done]. destruct Hq as [Hl Hf]. inversion Hf; subst.
    apply (victims_all n f Hp (s :: st) r i p); [done | done | simpl; lia | split; [simpl in Hl; lia | done] | done]. }
  apply cut_intro; try done; try apply HP.
  - rewrite Ex. apply Hx.
  - intros c Hc. rewrite (pr_used _ _ _ _ HP c Hc). by rewrite HV.
  - intros m Hb Hi Hn. apply (pr_frame _ _ _ _ HP); [done|]. rewrite elem_of_cons, HV. intros [->|?]; [|done].
    apply Hi. exists [k]. split_and!; [by apply pos_root; lia | unfold inner; rewrite En; simpl; lia | done | done].
Qed.

(** * The pointers of the inode *)

Lemma cut_zero C f x :
  fs_ok f -> file_ok f x -> (forall q, pos_ok (ptrs_per_blk f) q -> C q = true -> slot f x q = 0) -> cut C f x f x.
Proof.
  intros Hok Hx HC. apply cut_intro; try done.
  - apply same_file_refl.
  - apply Hx.
  - intros q Hq. destruct (C q) eqn:E; [by apply HC | done].
  - intros c Hc. split; [|tauto]. intros Hu. split; [done|]. intros (q & Hq & Ec & Hs & Hc0). rewrite HC in Hs; done.
Qed.

Lemma release_root_spec f x k :
  fs_ok f -> file_ok f x -> 0 <= k < 15 -> slot f x [k] <> 0 ->
  (forall i p, pos_ok (ptrs_per_blk f) (k :: i :: p) -> slot f x (k :: i :: p) = 0) ->
  exists f' x', release_root f x k = Done (f', x') /\ cut (fun q => bool_decide (q = [k])) f x f' x'.
Proof.
  intros Hok Hx Hk Hne Hbelow. unfold release_root. rewrite (root_get f x k Hx Hk). obind.
  destruct (slot_block f x Hx [k] (pos_root _ k Hk) Hne) as [Hd Hu]. pose proof (file_ptrs _ _ Hx) as Hlen.
  destruct (ext2_block_release_spec f x _ Hok Hd Hu) as (f1 & -> & Hok1 & [ML MU MF MD]). obind.
  set (x1 := set_vfs _ x). rewrite arr_set_total by (change (blk_ptrs x1) with (blk_ptrs x); lia). obind.
  eexists _, _. split; [done|]. set (x2 := set_ptrs _ x1).
  assert (HC : forall c, (exists q, pos_ok (ptrs_per_blk f) q /\ bool_decide (q = [k]) = true /\ slot f x q = c /\ c <> 0) <->
    c = slot f x [k]).
  { intros c. split; [intros (q & _ & ->%bool_decide_eq_true_1 & <- & _); done|].
    intros ->. exists [k]. split_and!; [by apply pos_root | by apply bool_decide_eq_true_2 | done | done]. }
  apply cut_intro; try done.
  - exists (u32 (blocks (vfs x) - block_sectors f)), (blk_ptrs x2). done.
  - simpl. by rewrite length_insert.
  - intros q Hq. assert (Hs1 : slot f1 x q = slot f x q).
    { revert q Hq. apply slot_agree; [|done]. intros b (p & Hp & _ & <- & Hb0). apply MF.
      by destruct (slot_block f x Hx p Hp Hb0) as [(_ & _ & _ & ?) _]. }
    destruct q as [|k' p]; [done|]. destruct (decide (k' = k)) as [->|Hkk].
    + simpl. rewrite list_lookup_insert_eq by lia. simpl. rewrite walk_zero. case_bool_decide as E; [done|].
      destruct p as [|i p]; [done|]. symmetry. exact (Hbelow i p Hq).
    + rewrite bool_decide_eq_false_2 by congruence. rewrite <- Hs1. simpl.
      destruct Hq as (Hk' & _). by rewrite list_lookup_insert_ne by lia.
  - intros c Hc. rewrite HC, MU by done. case_decide as E; [|tauto]. split; [done | tauto].
  - intros c. unfold data_block. by rewrite (layout_range _ _ _ ML), MD, (layout_bitmap _ _ _ ML).
  - intros m Hb _ _. by apply MF.
Qed.

Definition direct_from (s : Z) (q : list Z) : bool :=
  match q with [k] => (s <=? k) && (k <? NDIRECT) | _ => false end.

Lemma direct_pos ppb k i p : 0 <= k < 12 -> ~ pos_ok ppb (k :: i :: p).
Proof. intros Hk (_ & Hl & _). unfold depth, NDIRECT in Hl. destruct (Z.ltb_spec k 12); [simpl in Hl; lia | lia]. Qed.

Lemma release_direct_spec n : forall f x i,
  fs_ok f -> file_ok f x -> 0 <= i -> i + Z.of_nat n = NDIRECT ->
  exists f' x', release_direct f x i n = Done (f', x') /\ cut (direct_from i) f x f' x'.
Proof.
  unfold NDIRECT. induction n as [|n IH]; intros f x i Hok Hx Hi Hn; cbn [release_direct].
  { exists f, x. split; [done|]. apply (cut_ext (fun _ => false)); [|by apply cut_none].
    intros q _. destruct q as [|k [|]]; try done. simpl. unfold NDIRECT. lia. }
  rewrite (root_get f x i Hx ltac:(lia)). obind.
  assert (Hone : exists f1 x1, (if slot f x [i] =? 0 then Done (f, x) else release_root f x i) = Done (f1, x1) /\
    cut (fun q => bool_decide (q = [i])) f x f1 x1).
  { destruct (Z.eqb_spec (slot f x [i]) 0) as [E|E].
    - exists f, x. split; [done|]. apply cut_zero; [done | done |]. by intros q _ ->%bool_decide_eq_true_1.
    - apply release_root_spec; [done | done | lia | done |]. intros j p Hp. exfalso. by apply (direct_pos (ptrs_per_blk f) i j p); [lia|]. }
  destruct Hone as (f1 & x1 & -> & H1). obind.
  destruct (IH f1 x1 (i + 1)) as (f2 & x2 & E & H2); [apply H1 | apply H1 | lia | lia |].
  exists f2, x2. split; [done|]. eapply cut_ext, (cut_trans _ _ _ _ _ _ _ _ H1 H2).
  intros q _. destruct q as [|k [|]]; [done | | by rewrite bool_decide_eq_false_2]. simpl. unfold NDIRECT. case_bool_decide as Ek.
  - injection Ek as ->. lia.
  - assert (k <> i) by (intros ->; done). lia.
Qed.

(** Position [q] lies behind pointer [k] of the inode. *)
Definition at_root (k : Z) (q : list Z) : bool := match q with k' :: _ => k' =? k | [] => false end.

Lemma release_behind_spec f x k s s1 page st :
  fs_ok f -> file_ok f x -> 12 <= k < 15 -> 0 <= s1 < ptrs_per_blk f -> (s = 0 -> s1 = 0) -> (forall z, z ∈ st -> z = 0) ->
  (forall f x p, page f x p = free_page (depth k) (s1 :: st) f x p) ->
  exists f' x', release_behind f x k s page = Done (f', x') /\
    cut (fun q => behind k s1 q || ((s =? 0) && at_root k q)) f x f' x'.
Proof.
  intros Hok Hx Hk Hs1 Hs0 Hst Hpage. unfold release_behind. rewrite (root_get f x k Hx ltac:(lia)). obind.
  destruct (Z.eqb_spec (slot f x [k]) 0) as [E|E].
  { exists f, x. split; [done|]. apply cut_zero; [done | done |]. intros q _ Hq.
    destruct q as [|k' p]; [done|]. assert (k' = k) as ->.
    { destruct p; simpl in Hq; lia. }
    transitivity (walk f (slot f x [k]) p); [done|]. by rewrite E, walk_zero. }
  rewrite Hpage. destruct (free_page_cut f x k s1 st Hok Hx Hk E Hs1 Hst) as (f1 & x1 & -> & H1). obind.
  destruct (Z.eqb_spec s 0) as [->|Hs].
  2: { exists f1, x1. split; [done|]. eapply cut_ext, H1. intros q _. simpl. by rewrite orb_false_r. }
  rewrite (Hs0 eq_refl) in *. pose proof (layout_ppb _ _ (cut_layout _ _ _ _ _ H1)) as Ep.
  assert (Hk1 : slot f1 x1 [k] = slot f x [k]).
  { rewrite (cut_slots _ _ _ _ _ H1) by (apply pos_root; lia). done. }
  destruct (release_root_spec f1 x1 k) as (f2 & x2 & E2 & H2); [apply H1 | apply H1 | lia | by rewrite Hk1 | |].
  { intros i p Hp. rewrite Ep in Hp. rewrite (cut_slots _ _ _ _ _ H1) by done.
    destruct Hp as (_ & _ & Hf). inversion Hf; subst. simpl. rewrite Z.eqb_refl. destruct (Z.leb_spec 0 i); [done | lia]. }
  exists f2, x2. split; [done|]. eapply cut_ext, (cut_trans _ _ _ _ _ _ _ _ H1 H2).
  intros q Hq. destruct q as [|k' [|i p]]; [done | |]; simpl.
  - case_bool_decide as Ek; [injection Ek as ->; lia|]. destruct (Z.eqb_spec k' k); [subst; done | done].
  - rewrite bool_decide_eq_false_2 by done. destruct Hq as (_ & _ & Hf). inversion Hf; subst.
    destruct (Z.eqb_spec k' k), (Z.leb_spec 0 i); simpl; try done; lia.
Qed.

(** * Truncation *)

(** The first sector behind pointer [k] of the inode, and the number of
    sectors below each pointer of its block. *)
Definition region (ppb k : Z) : Z :=
  if k =? SINGLE then NDIRECT else if k =? DOUBLE then NDIRECT + ppb else NDIRECT + ppb + ppb * ppb.
Definition stride (ppb k : Z) : Z := if k =? SINGLE then 1 else if k =? DOUBLE then ppb else ppb * ppb.

(** The positions that hold nothing but sectors from [start] on, in the three
    regions behind the indirect pointers by whole pointers. *)
Definition removed (ppb start : Z) (q : list Z) : bool :=
  match q with
  | [] => false
  | k :: p =>
      if k <? NDIRECT then start <=? k
      else (start <=? region ppb k) ||
           match p with i :: _ => (start - region ppb k) / stride ppb k <=? i | [] => false end
  end.

(** The cut does not fall inside of an indirect block behind the second or
    third indirect pointer. *)
Definition aligned (ppb start : Z) : Prop :=
  0 <= start < NDIRECT + ppb + ppb * ppb + ppb * ppb * ppb /\
  forall k, DOUBLE <= k <= TRIPLE -> region ppb k < start -> (start - region ppb k) mod stride ppb k = 0 \/
    k = DOUBLE /\ region ppb TRIPLE <= start.

(** The part of the work behind pointer [k]; [s] is the number of sectors that
    stay there. *)
Lemma truncate_stage f x k start s st page :
  let ppb := ptrs_per_blk f in
  fs_ok f -> file_ok f x -> 12 <= k < 15 -> s = Z.max 0 (start - region ppb k) ->
  (s < stride ppb k * ppb -> (forall z, z ∈ st -> z = 0) /\
    forall f x p, page f x p = free_page (depth k) (s / stride ppb k :: st) f x p) ->
  exists f' x', (if s <? stride ppb k * ppb then release_behind f x k s page else Done (f, x)) = Done (f', x') /\
    cut (fun q => at_root k q && removed ppb start q) f x f' x'.
Proof.
  intros ppb Hok Hx Hk Es Hpage. pose proof (ppb_pos f Hok) as Hp. fold ppb in Hp.
  assert (Hst : 0 < stride ppb k) by (unfold stride; repeat case_match; nia).
  assert (Hrem : forall k' p, removed ppb start (k' :: p) = if k' <? 12 then start <=? k' else
    (start <=? region ppb k') || match p with i :: _ => (start - region ppb k') / stride ppb k' <=? i | [] => false end) by done.
  destruct (Z.ltb_spec s (stride ppb k * ppb)) as [Hlt|Hge].
  - destruct (Hpage Hlt) as [Hz Hpg].
    assert (Hq : 0 <= s / stride ppb k < ppb).
    { split; [apply Z.div_pos; lia | apply Z.div_lt_upper_bound; lia]. }
    destruct (release_behind_spec f x k s (s / stride ppb k) page st) as (f' & x' & E & HC); try done.
    { by intros ->. }
    exists f', x'. split; [done|]. eapply cut_ext, HC. intros q _. destruct q as [|k' p]; [simpl; by rewrite andb_false_r|].
    rewrite Hrem. cbn [at_root behind]. destruct (Z.eqb_spec k' k) as [->|Hne]; [|by destruct p; rewrite ?andb_false_r].
    destruct (Z.ltb_spec k 12); [lia|]. destruct (Z.leb_spec start (region ppb k)) as [Hle|Hgt].
    + assert (s = 0) as -> by lia. rewrite Z.eqb_refl. simpl. destruct p; simpl; [done | by rewrite orb_true_r].
    + destruct (Z.eqb_spec s 0); [lia|]. simpl. rewrite orb_false_r. destruct p; [done|]. simpl.
      replace (start - region ppb k) with s by lia. done.
  - exists f, x. split; [done|]. eapply cut_ext, cut_none; [|done | done]. intros q Hq. destruct q as [|k' p]; [done|].
    rewrite Hrem. cbn [at_root]. destruct (Z.eqb_spec k' k) as [->|Hne]; [|done].
    destruct (Z.ltb_spec k 12); [lia|]. destruct (Z.leb_spec start (region ppb k)) as [Hle|Hgt]; [nia|]. simpl.
    destruct p as [|i p]; [done|]. destruct Hq as (_ & _ & Hf). inversion Hf; subst.
    replace (start - region ppb k) with (Z.max 0 (start - region ppb k)) by lia.
    destruct (Z.leb_spec (Z.max 0 (start - region ppb k) / stride ppb k) i) as [Hd|]; [|done].
    assert (ppb <= Z.max 0 (start - region ppb k) / stride ppb k) by (apply Z.div_le_lower_bound; lia). fold ppb in H2. lia.
Qed.

Lemma truncate_remove_spec f x start :
  fs_ok f -> file_ok f x -> aligned (ptrs_per_blk f) start ->
  exists f' x', ext2_inode_truncate_remove f x start = Done (f', x') /\ cut (removed (ptrs_per_blk f) start) f x f' x'.
Proof.
  intros Hok Hx [Hstart Hal]. pose proof (ppb_pos f Hok) as Hp. unfold ext2_inode_truncate_remove.
  set (ppb := ptrs_per_blk f) in *. unfold NDIRECT in Hstart |- *.
  assert (H0 : exists f0 x0, (if start <? 12 then release_direct f x start (Z.to_nat (12 - start)) else Done (f, x)) = Done (f0, x0) /\
    cut (direct_from start) f x f0 x0).
  { destruct (Z.ltb_spec start 12).
    - apply release_direct_spec; unfold NDIRECT; done || lia.
    - exists f, x. split; [done|]. eapply cut_ext, cut_none; [|done | done]. intros q _.
      destruct q as [|k [|]]; [done | | done]. simpl. unfold NDIRECT. lia. }
  destruct H0 as (f0 & x0 & -> & H0). obind. pose proof (layout_ppb _ _ (cut_layout _ _ _ _ _ H0)) as E0. fold ppb in E0.
  set (s1 := if start <? 12 then 0 else start - 12).
  assert (Es1 : s1 = Z.max 0 (start - region ppb SINGLE)) by (unfold s1, region, SINGLE, NDIRECT; simpl; destruct (Z.ltb_spec start 12); lia).
  destruct (truncate_stage f0 x0 SINGLE start s1 [] (fun f x p => truncate_indirect_page f x p s1)) as (f1 & x1 & E1 & H1);
    [apply H0 | apply H0 | unfold SINGLE; lia | by rewrite E0 | |].
  { intros _. split; [intros z Hz; by apply elem_of_nil in Hz|]. intros g y p.
    rewrite truncate_indirect_page_free. f_equal. unfold stride. simpl. by rewrite Z.div_1_r. }
  unfold stride in E1. simpl in E1. rewrite E0, Z.mul_1_l in E1. rewrite E1. obind. rewrite E0 in H1.
  pose proof (layout_ppb _ _ (cut_layout _ _ _ _ _ H1)) as E1'. rewrite E0 in E1'.
  set (s2 := if s1 <? ppb then 0 else s1 - ppb).
  assert (Es2 : s2 = Z.max 0 (start - region ppb DOUBLE)).
  { unfold s2. rewrite Es1. unfold region, SINGLE, DOUBLE, NDIRECT. simpl. destruct (Z.ltb_spec (Z.max 0 (start - 12)) ppb); lia. }
  destruct (truncate_stage f1 x1 DOUBLE start s2 [s2 mod ppb]
    (fun f x p => truncate_dindirect_page f x p (s2 / ppb) (s2 mod ppb))) as (f2 & x2 & E2 & H2);
    [apply H1 | apply H1 | unfold DOUBLE; lia | by rewrite E1' | |].
  { rewrite E1'. unfold stride. simpl. intros Hlt. split; [|intros; apply truncate_dindirect_page_free].
    intros z Hz. apply list_elem_of_singleton in Hz as ->. rewrite Es2. destruct (Z.max_spec 0 (start - region ppb DOUBLE)) as [[Hm ->]|[_ ->]]; [|done].
    destruct (Hal DOUBLE) as [Hz|[_ Hbig]]; [unfold DOUBLE, TRIPLE; lia | lia | exact Hz |].
    unfold region, DOUBLE, TRIPLE, NDIRECT in *. simpl in *. lia. }
  unfold stride in E2. simpl in E2. rewrite E1' in E2. rewrite E2. obind. rewrite E1' in H2.
  pose proof (layout_ppb _ _ (cut_layout _ _ _ _ _ H2)) as E2'. rewrite E1' in E2'.
  set (s3 := if s2 <? ppb * ppb then 0 else s2 - ppb * ppb).
  assert (Es3 : s3 = Z.max 0 (start - region ppb TRIPLE)).
  { unfold s3. rewrite Es2. unfold region, DOUBLE, TRIPLE, NDIRECT. simpl.
    destruct (Z.ltb_spec (Z.max 0 (start - (12 + ppb))) (ppb * ppb)); lia. }
  assert (Hs3 : s3 < ppb * ppb * ppb) by (rewrite Es3; unfold region, TRIPLE, NDIRECT; simpl; nia).
  destruct (truncate_stage f2 x2 TRIPLE start s3 [(s3 / ppb) mod ppb; s3 / ppb / ppb / ppb]
    (fun f x p => truncate_tindirect_page f x p (s3 / ppb / ppb) ((s3 / ppb) mod ppb) (s3 / ppb / ppb / ppb)))
    as (f3 & x3 & E3 & H3); [apply H2 | apply H2 | unfold TRIPLE; lia | by rewrite E2' | |].
  { rewrite E2'. unfold stride. simpl. intros Hlt. rewrite <- Z.div_div by lia.
    split; [|intros; apply truncate_tindirect_page_free].
    assert (Hz0 : exists a, s3 = a * (ppb * ppb) /\ 0 <= a < ppb).
    { rewrite Es3 in Hs3 |- *. destruct (Z.max_spec 0 (start - region ppb TRIPLE)) as [[Hm Em]|[_ Em]]; rewrite Em in *; [|exists 0; lia].
      destruct (Hal TRIPLE) as [Hz|[? _]]; [unfold DOUBLE, TRIPLE; lia | lia | | done].
      unfold stride in Hz. simpl in Hz. apply Z.mod_divide in Hz as [a Ea]; [|nia]. exists a. split; [done|]. nia. }
    destruct Hz0 as (a & -> & Ha). replace (a * (ppb * ppb)) with ((a * ppb) * ppb) by lia.
    rewrite !Z.div_mul by lia. intros z Hz. apply elem_of_cons in Hz as [->|Hz]; [by apply Z.mod_mul; lia|].
    apply list_elem_of_singleton in Hz as ->. by apply Z.div_small. }
  unfold stride in E3. simpl in E3. rewrite E2' in E3. rewrite E2' in H3. rewrite E3.
  exists f3, x3. split; [done|].
  pose proof (cut_trans _ _ _ _ _ _ _ _ (cut_trans _ _ _ _ _ _ _ _ (cut_trans _ _ _ _ _ _ _ _ H0 H1) H2) H3) as HC.
  eapply cut_ext, HC. intros q Hq. destruct q as [|k p]; [done|]. cbn [at_root].
  destruct (Z.ltb_spec k 12) as [Hk|Hk].
  - unfold SINGLE, DOUBLE, TRIPLE. destruct p as [|i p]; [|by apply (direct_pos ppb) in Hq; destruct Hq; lia].
    simpl. unfold NDIRECT. destruct (Z.eqb_spec k 12), (Z.eqb_spec k 13), (Z.eqb_spec k 14); try lia.
    destruct (Z.ltb_spec k 12); [|lia]. simpl. rewrite !orb_false_r. by rewrite andb_true_r.
  - assert (Hd : direct_from start (k :: p) = false) by (destruct p; [|done]; simpl; unfold NDIRECT; lia).
    rewrite Hd. destruct Hq as (Hk' & _). assert (k = 12 \/ k = 13 \/ k = 14) as [->|[->| ->]] by lia; simpl;
      by rewrite ?orb_false_r.
Qed.

(** * Sectors *)

Lemma div_le_multiple a b m : 0 < m -> a mod m = 0 -> a / m <= b / m <-> a <= b.
Proof.
  intros Hm Ha. pose proof (Z.div_mod a m ltac:(lia)). pose proof (Z.div_mod b m ltac:(lia)).
  pose proof (Z.mod_pos_bound b m ltac:(lia)). split; intros; nia.
Qed.

Lemma path_removed ppb start t q :
  0 < ppb -> aligned ppb start -> 0 <= t -> path ppb t = Some q -> removed ppb start q = (start <=? t).
Proof.
  intros Hp [Hs Hal] Ht. unfold path, NDIRECT in *.
  destruct (Z.ltb_spec t 12) as [Hd|Hd]; [|destruct (Z.ltb_spec (t - 12) ppb) as [H1|H1];
    [|destruct (Z.ltb_spec (t - 12 - ppb) (ppb * ppb)) as [H2|H2];
    [|destruct (Z.ltb_spec (t - 12 - ppb - ppb * ppb) (ppb * ppb * ppb)) as [H3|H3]; [|done]]]];
    intros [= <-]; unfold removed, NDIRECT.
  - destruct (Z.ltb_spec t 12); [done | lia].
  - unfold SINGLE, region, stride, NDIRECT. simpl. rewrite Z.div_1_r. lia.
  - change (DOUBLE <? 12) with false. cbv iota. pose proof (Hal DOUBLE) as HD.
    unfold DOUBLE, TRIPLE, region, stride, SINGLE, DOUBLE, NDIRECT in *. simpl in *.
    destruct (Z.leb_spec start (12 + ppb)); simpl; [lia|].
    destruct (HD ltac:(lia) ltac:(lia)) as [Hz|[_ Hbig]].
    + pose proof (div_le_multiple (start - (12 + ppb)) (t - 12 - ppb) ppb Hp Hz).
      destruct (Z.leb_spec ((start - (12 + ppb)) / ppb) ((t - 12 - ppb) / ppb)), (Z.leb_spec start t); done || lia.
    + assert (ppb <= (start - (12 + ppb)) / ppb) by (apply Z.div_le_lower_bound; lia).
      assert ((t - 12 - ppb) / ppb < ppb) by (apply Z.div_lt_upper_bound; lia). lia.
  - change (TRIPLE <? 12) with false. cbv iota. pose proof (Hal TRIPLE) as HT.
    unfold DOUBLE, TRIPLE, region, stride, SINGLE, DOUBLE, NDIRECT in *. simpl in *.
    destruct (Z.leb_spec start (12 + ppb + ppb * ppb)); simpl; [lia|].
    destruct (HT ltac:(lia) ltac:(lia)) as [Hz|[? _]]; [|lia]. rewrite Z.div_div by lia.
    pose proof (div_le_multiple (start - (12 + ppb + ppb * ppb)) (t - 12 - ppb - ppb * ppb) (ppb * ppb) ltac:(nia) Hz).
    destruct (Z.leb_spec ((start - (12 + ppb + ppb * ppb)) / (ppb * ppb)) ((t - 12 - ppb - ppb * ppb) / (ppb * ppb))),
      (Z.leb_spec start t); done || lia.
Qed.

Lemma cut_nodes C f x f' x' c :
  file_ok f x -> cut C f x f' x' -> c <> 0 ->
  (exists q, pos_ok (ptrs_per_blk f) q /\ C q = true /\ slot f x q = c /\ c <> 0) <-> node f x c /\ ~ node f' x' c.
Proof.
  intros Hx HC Hc0. pose proof (layout_ppb _ _ (cut_layout _ _ _ _ _ HC)) as Ep. split.
  - intros (q & Hq & Ec & Hs & _). split; [by exists q|]. intros (p & Hp & Hsp & _). rewrite Ep in Hp.
    rewrite (cut_slots _ _ _ _ _ HC) in Hsp by done. destruct (C p) eqn:ECp; [congruence|].
    assert (p = q) as -> by (apply (file_once _ _ Hx); congruence). congruence.
  - intros [(q & Hq & Hs & _) Hn]. exists q. split_and!; try done. destruct (C q) eqn:EC; [done|]. exfalso. apply Hn.
    exists q. rewrite Ep, (cut_slots _ _ _ _ _ HC) by done. by rewrite EC.
Qed.

Lemma truncate_remove_sectors f x start :
  fs_ok f -> file_ok f x -> aligned (ptrs_per_blk f) start ->
  exists f' x', ext2_inode_truncate_remove f x start = Done (f', x') /\ fs_ok f' /\ file_ok f' x' /\ layout (sb f') = layout (sb f) /\ same_file x x' /\
    (forall t, 0 <= t -> mapped f' x' t = if t <? start then mapped f x t else 0) /\
    (forall c, in_range (sb f) c -> c <> 0 ->
      used f' c = true <-> used f c = true /\ ~ (node f x c /\ ~ node f' x' c)) /\
    (forall t, 0 <= t < start -> mapped f x t <> 0 -> disk f' !! mapped f x t = disk f !! mapped f x t).
Proof.
  intros Hok Hx Hal. destruct (truncate_remove_spec f x start Hok Hx Hal) as (f' & x' & E & HC).
  pose proof (ppb_pos f Hok) as Hp. pose proof (layout_ppb _ _ (cut_layout _ _ _ _ _ HC)) as Ep.
  exists f', x'. split; [done|]. split_and!; [apply HC | apply HC | apply HC | apply HC | | |].
  - intros t Ht. unfold mapped. rewrite Ep. destruct (path _ t) as [q|] eqn:Eq; [|by destruct (t <? start)].
    rewrite (cut_slots _ _ _ _ _ HC) by (by apply (path_ok _ t)). rewrite (path_removed _ start t q) by done.
    destruct (Z.leb_spec start t), (Z.ltb_spec t start); done || lia.
  - intros c Hc Hc0. rewrite (cut_used _ _ _ _ _ HC c Hc). by rewrite (cut_nodes _ _ _ _ _ c Hx HC Hc0).
  - intros t Ht Hne. unfold mapped in *. destruct (path _ t) as [q|] eqn:Eq; [|done].
    destruct (path_ok _ t q Hp ltac:(lia) Eq) as [Hq Hqi]. destruct (slot_block f x Hx q Hq Hne) as [Hd _].
    apply (cut_kept _ _ _ _ _ HC); [apply Hd | |].
    + intros (p & Hpp & Hpi & Hs & _). assert (p = q) as -> by (apply (file_once _ _ Hx); congruence). done.
    + intros (p & Hpp & Hpc & Hs & _). assert (p = q) as -> by (apply (file_once _ _ Hx); congruence).
      rewrite (path_removed _ start t q) in Hpc by (done || lia). lia.
Qed.

(** C5: truncation removes exactly the sectors past the new end.  When what
    stays fills whole indirect blocks (in particular for a file cut within its
    direct and single indirect blocks, and for a file that is deleted), the
    sectors below the cut keep their blocks and contents, those above have none,
    and the blocks that are no longer reachable from the inode, and no others,
    are free again. *)
Theorem ext2_truncate_remove_correct f x start :
  fs_ok f -> file_ok f x -> aligned (ptrs_per_blk f) start ->
  exists f' x', ext2_inode_truncate_remove f x start = Done (f', x') /\ fs_ok f' /\ file_ok f' x' /\
    (forall t, 0 <= t -> mapped f' x' t = if t <? start then mapped f x t else 0) /\
    (forall c, in_range (sb f) c -> c <> 0 ->
      used f' c = true <-> used f c = true /\ ~ (node f x c /\ ~ node f' x' c)) /\
    (forall t, 0 <= t < start -> mapped f x t <> 0 -> disk f' !! mapped f x t = disk f !! mapped f x t).
Proof.
  intros Hok Hx Hal. destruct (truncate_remove_sectors f x start Hok Hx Hal) as (f' & x' & E & H1 & H2 & _ & _ & H3).
  by exists f', x'.
Qed.

Lemma ext2_truncate_remove_correct_witness :
  exists f' x', ext2_inode_truncate_remove demo demo_big 0 = Done (f', x') /\ fs_ok f' /\ file_ok f' x' /\
    (forall t, 0 <= t -> mapped f' x' t = if t <? 0 then mapped demo demo_big t else 0) /\
    (forall c, in_range (sb demo) c -> c <> 0 ->
      used f' c = true <-> used demo c = true /\ ~ (node demo demo_big c /\ ~ node f' x' c)) /\
    (forall t, 0 <= t < 0 -> mapped demo demo_big t <> 0 ->
      disk f' !! mapped demo demo_big t = disk demo !! mapped demo demo_big t).
Proof.
  apply (ext2_truncate_remove_correct demo demo_big 0); [apply demo_ok | apply demo_big_ok|].
  change (ptrs_per_blk demo) with 256. split; [unfold NDIRECT; lia|]. intros k Hk Hr.
  unfold region, SINGLE, DOUBLE, TRIPLE, NDIRECT in *. destruct (Z.eqb_spec k 12); [lia|]. destruct (Z.eqb_spec k 13); lia.
Defined.

(** * A cut inside of an indirect block *)

Lemma kids_head f s b : 0 <= s < ptrs_per_blk f -> ptr_at f b s <> 0 ->
  kids f s b = ptr_at f b s :: kids f (s + 1) b.
Proof.
  intros Hs Hne. unfold kids. rewrite seqZ_cons by lia. cbn [fmap list_fmap]. rewrite filter_cons_True by done.
  replace (Z.succ s) with (s + 1) by lia. by replace (Z.pred (ptrs_per_blk f - s)) with (ptrs_per_blk f - (s + 1)) by lia.
Qed.

(** The blocks at the start of the indirect block that is cut are not
    released, although the pointer to it goes. *)
Lemma spared f x a d j :
  fs_ok f -> file_ok f x -> slot f x [DOUBLE; a; j] <> 0 ->
  0 <= a < ptrs_per_blk f -> 0 <= j < d -> d < ptrs_per_blk f ->
  slot f x [DOUBLE; a; j] ∉ victims 2 [a; d] f (slot f x [DOUBLE]).
Proof.
  intros Hok Hx Hne Ha Hj Hd Hin. pose proof (ppb_pos f Hok) as Hp. set (r := slot f x [DOUBLE]) in *.
  assert (Hr0 : r <> 0).
  { intros E. apply Hne. change (slot f x [DOUBLE; a; j]) with (walk f r [a; j]). by rewrite E. }
  pose proof (forest_root f x DOUBLE Hx ltac:(unfold DOUBLE; lia) Hr0) as HF. change (depth DOUBLE) with 2%nat in HF.
  change (slot f x [DOUBLE; a; j]) with (walk f r [a; j]) in *.
  assert (Hidx : forall i p, 0 <= i < ptrs_per_blk f -> idx_ok (ptrs_per_blk f) 1 p -> idx_ok (ptrs_per_blk f) 2 (i :: p))
    by (intros; by apply idx_cons).
  assert (Haj : idx_ok (ptrs_per_blk f) 2 [a; j]) by (split; [simpl; lia | repeat constructor; lia]).
  assert (Hsame : forall i p, 0 <= i < ptrs_per_blk f -> idx_ok (ptrs_per_blk f) 1 p ->
    walk f r [a; j] = walk f r (i :: p) -> i = a /\ p = [j]).
  { intros i p Hi Hip E. destruct (fo_once _ _ _ HF r r [a; j] (i :: p)) as [_ [= -> ->]]; try (by left); auto. }
  assert (Hpa : ptr_at f r a <> 0).
  { intros E. apply Hne. rewrite walk_child by done. by rewrite E, walk_zero. }
  change (victims 2 [a; d] f r) with (victims_list (fun st t => victims 1 st f t) [d] (kids f a r) ++ kids f a r) in Hin.
  pose proof (fo_nodup _ _ _ (forest_kids f 1 r a ltac:(lia) HF)) as Hnd.
  apply elem_of_app in Hin as [Hin|Hin].
  - rewrite kids_head in Hin, Hnd by done. apply NoDup_cons in Hnd as [Hnot _]. cbn [victims_list] in Hin.
    apply elem_of_app in Hin as [Hin|Hin].
    + apply victims_from in Hin as (i & p & Hi & Hip & Hw & _); [|done | done | by repeat constructor; lia].
      simpl in Hi. destruct p; [|destruct Hip as [Hl _]; simpl in Hl; lia].
      rewrite <- (walk_child f r a [i] Hr0) in Hw.
      destruct (Hsame a [i] Ha) as [_ [= ->]]; [split; [simpl; lia | repeat constructor; lia] | done | lia].
    + apply victims_list_elem in Hin as (t & st' & Ht & Hin & Hst'). pose proof Ht as Ht'.
      apply kids_elem in Ht as (Ht0 & i & Hi & ->); [|lia].
      destruct (victims_reach 1 f Hp st' _ (walk f r [a; j]) Ht0) as (p & _ & Hip & Hw & _);
        [destruct Hst' as [->| ->]; by constructor | done |].
      rewrite <- (walk_child f r i p Hr0) in Hw. destruct (Hsame i p ltac:(lia) Hip (eq_sym Hw)). lia.
  - apply kids_elem in Hin as (_ & i & Hi & E); [|lia]. change (ptr_at f r i) with (walk f (ptr_at f r i) []) in E.
    rewrite <- (walk_child f r i [] Hr0) in E. destruct (Hsame i [] ltac:(lia)) as [_ [=]]; [split; [simpl; lia | by constructor] | done].
Qed.

(** Everything behind the last pointer goes when the cut is before it. *)
Lemma truncate_triple_stage f x :
  fs_ok f -> file_ok f x ->
  exists f' x', release_behind f x TRIPLE 0 (fun f x p => truncate_tindirect_page f x p 0 0 0) = Done (f', x') /\
    cut (at_root TRIPLE) f x f' x'.
Proof.
  intros Hok Hx. pose proof (ppb_pos f Hok).
  destruct (release_behind_spec f x TRIPLE 0 0 (fun f x p => truncate_tindirect_page f x p 0 0 0) [0; 0])
    as (f' & x' & E & HC); [done | done | unfold TRIPLE; lia | lia | done | | intros; apply truncate_tindirect_page_free |].
  { intros z Hz. repeat (apply elem_of_cons in Hz as [->|Hz]; [done|]). by apply elem_of_nil in Hz. }
  exists f', x'. split; [done|]. eapply cut_ext, HC. intros q Hq. simpl. destruct q as [|k [|i p]]; [done | done |].
  simpl. destruct (Z.eqb_spec k TRIPLE); [|done]. by rewrite orb_true_r.
Qed.

(** cutting a file inside of one of the indirect blocks behind its double
    indirect pointer loses data that should stay: the whole indirect block is
    unlinked and released, so the sectors from its first one up to the cut are
    no longer mapped, and the blocks that held them stay marked as used although
    nothing refers to them. *)
Theorem ext2_truncate_loses_blocks f x s :
  fs_ok f -> file_ok f x -> slot f x [DOUBLE] <> 0 ->
  0 <= s < ptrs_per_blk f * ptrs_per_blk f -> s mod ptrs_per_blk f <> 0 ->
  let start := region (ptrs_per_blk f) DOUBLE + s in
  exists f' x', ext2_inode_truncate_remove f x start = Done (f', x') /\
    forall t, start - s mod ptrs_per_blk f <= t < start ->
      mapped f' x' t = 0 /\
      (mapped f x t <> 0 -> used f' (mapped f x t) = true /\ ~ node f' x' (mapped f x t)).
Proof.
  intros Hok Hx Hr0 Hs Hm start. pose proof (ppb_pos f Hok) as Hp. set (ppb := ptrs_per_blk f) in *.
  pose proof (Z.mod_pos_bound s ppb Hp) as Hmb. pose proof (Z.div_mod s ppb ltac:(lia)) as Hdm.
  assert (Ha : 0 <= s / ppb < ppb) by (split; [apply Z.div_pos; lia | apply Z.div_lt_upper_bound; lia]).
  set (a := s / ppb) in *. set (d := s mod ppb) in *.
  assert (Hst : start = 12 + ppb + s) by (unfold start, region, DOUBLE, SINGLE, NDIRECT; simpl; lia).
  assert (Hss : starts_ok f [a; d]) by (by repeat constructor; fold ppb; lia).
  destruct (free_page_slots f x DOUBLE a [d] Hok Hx ltac:(unfold DOUBLE; lia) Hr0 Hss)
    as (f1 & x1 & E1 & HP & Hsame & Ex & HV & Hsl). change (depth DOUBLE) with 2%nat in *.
  pose proof (layout_ppb _ _ (pr_layout _ _ _ _ HP)) as Ep1. fold ppb in Ep1.
  assert (Hx1 : file_ok f1 x1).
  { split; [rewrite Ex; apply Hx | |].
    - rewrite Ep1. intros p q Hpp Hq. rewrite !Hsl by done. destruct (behind DOUBLE a p), (behind DOUBLE a q); try done.
      by apply (file_once _ _ Hx).
    - intros b (q & Hq & <- & Hne). rewrite Ep1 in Hq. rewrite Hsl in Hne |- * by done.
      destruct (behind DOUBLE a q) eqn:Eb; [done|]. destruct (slot_block f x Hx q Hq Hne) as [Hd Hu].
      split; [by apply (pr_data _ _ _ _ HP)|]. apply (pr_used _ _ _ _ HP); [apply Hd|]. split; [done|].
      intros Hin. destruct (HV _ Hin) as (q' & Hq' & Hb' & Hs' & _).
      assert (q' = q) as -> by (apply (file_once _ _ Hx); done || congruence). congruence. }
  destruct (truncate_triple_stage f1 x1 (pr_ok _ _ _ _ HP) Hx1) as (f2 & x2 & E2 & H2).
  pose proof (layout_ppb _ _ (cut_layout _ _ _ _ _ H2)) as Ep2. rewrite Ep1 in Ep2.
  exists f2, x2. split.
  { unfold ext2_inode_truncate_remove. fold ppb. rewrite Hst. unfold NDIRECT.
    destruct (Z.ltb_spec (12 + ppb + s) 12); [lia|]. obind.
    destruct (Z.ltb_spec (12 + ppb + s - 12) ppb); [lia|]. obind.
    replace (12 + ppb + s - 12 - ppb) with s by lia. destruct (Z.ltb_spec s (ppb * ppb)); [|lia].
    assert (ER : release_behind f x DOUBLE s (fun f x p => truncate_dindirect_page f x p (s / ppb) (s mod ppb)) = Done (f1, x1)).
    { unfold release_behind. rewrite (root_get f x DOUBLE Hx ltac:(unfold DOUBLE; lia)). obind.
      destruct (Z.eqb_spec (slot f x [DOUBLE]) 0); [done|]. rewrite truncate_dindirect_page_free. fold a d. rewrite E1. obind.
      destruct (Z.eqb_spec s 0) as [Es|_]; [nia | done]. }
    rewrite ER. obind.
    destruct (Z.ltb_spec 0 (ppb * ppb * ppb)); [|nia]. by rewrite !Z.div_0_l, Z.mod_0_l by lia. }
  intros t Ht. set (j := t - (12 + ppb) - a * ppb). assert (Hj : 0 <= j < d) by lia.
  assert (Epath : path ppb t = Some [DOUBLE; a; j]).
  { unfold path, NDIRECT. destruct (Z.ltb_spec t 12); [lia|]. destruct (Z.ltb_spec (t - 12) ppb); [nia|].
    destruct (Z.ltb_spec (t - 12 - ppb) (ppb * ppb)); [|nia].
    rewrite <- (Z.div_unique_pos (t - 12 - ppb) ppb a j), <- (Z.mod_unique_pos (t - 12 - ppb) ppb a j); done || lia. }
  destruct (path_ok ppb t _ Hp ltac:(nia) Epath) as [Hpos _].
  assert (Hb : behind DOUBLE a [DOUBLE; a; j] = true) by (simpl; lia).
  assert (E0 : mapped f2 x2 t = 0).
  { unfold mapped. rewrite Ep2, Epath, (cut_slots _ _ _ _ _ H2) by (by rewrite Ep1).
    rewrite Hsl by done. rewrite Hb. by destruct (at_root TRIPLE [DOUBLE; a; j]). }
  split; [done|]. unfold mapped. fold ppb. rewrite Epath. intros Hne. destruct (slot_block f x Hx _ Hpos Hne) as [Hd Hu].
  assert (Hold : forall q, pos_ok ppb q -> slot f1 x1 q = slot f x [DOUBLE; a; j] -> False).
  { intros q Hq Hsq. rewrite Hsl in Hsq by done. destruct (behind DOUBLE a q) eqn:Eq; [congruence|].
    assert (q = [DOUBLE; a; j]) as -> by (apply (file_once _ _ Hx); done || congruence). congruence. }
  split.
  - apply (cut_used _ _ _ _ _ H2); [by apply (layout_range _ _ _ (pr_layout _ _ _ _ HP)), Hd|].
    rewrite Ep1. split; [|intros (q & Hq & _ & Hsq & _); eauto].
    apply (pr_used _ _ _ _ HP); [apply Hd|]. split; [done|]. apply spared; fold ppb; try done; lia.
  - intros (q & Hq & Hsq & _). rewrite Ep2 in Hq. rewrite (cut_slots _ _ _ _ _ H2) in Hsq by (by rewrite Ep1).
    destruct (at_root TRIPLE q); [congruence | eauto].
Qed.

Lemma ext2_truncate_loses_blocks_witness :
  mapped demo demo_big 268 = 7 /\
  exists f' x', ext2_inode_truncate_remove demo demo_big 269 = Done (f', x') /\
    forall t, 268 <= t < 269 ->
      mapped f' x' t = 0 /\
      (mapped demo demo_big t <> 0 -> used f' (mapped demo demo_big t) = true /\ ~ node f' x' (mapped demo demo_big t)).
Proof.
  split.
  { unfold mapped. change (ptrs_per_blk demo) with 256. change (path 256 268) with (Some [DOUBLE; 0; 0]).
    cbn [slot foldl demo_big demo_inode blk_ptrs]. change (default 0 _) with 5. unfold follow. change (5 =? 0) with false. cbn iota.
    rewrite (demo_ptr_at 5 6) by done. cbn [Z.eqb]. by rewrite (demo_ptr_at 6 7) by done. }
  apply (ext2_truncate_loses_blocks demo demo_big 1); [apply demo_ok | apply demo_big_ok | done | |];
    change (ptrs_per_blk demo) with 256; [lia | done].
Defined.
