(* ===== verification/Vfs.v ===== *)
(** Attributes of inodes (src/fs/vfs.c): the checks and updates behind chown,
    chmod and utimes, and the vfs entry points that clear the set-id bits of a
    file that is written. *)
From stdpp Require Import base numbers list gmap.
From Stdlib Require Import ZArith ZifyBool Lia.
From S2P Require Import Prelude UserMem Users.
From S2P Require Import Ext2.
Open Scope Z_scope.

Definition S_IFDIR : Z := 0x4000.
Definition S_ISUID : Z := 0x800.
Definition S_ISGID : Z := 0x400.
Definition PERM_BITS : Z := 0xFFF.   (* 07777 *)
Definition W_OK : Z := 2.
Definition EISDIR : Z := 21.

Definition S_ISDIR (m : Z) : bool := Z.land m S_IFMT =? S_IFDIR.
Definition S_ISREG (m : Z) : bool := Z.land m S_IFMT =? S_IFREG.

Definition INODE_ATTR_MODE : Z := 0.
Definition INODE_ATTR_ATIME : Z := 1.
Definition INODE_ATTR_MTIME : Z := 2.
Definition INODE_ATTR_CTIME : Z := 3.
Definition INODE_ATTR_UID : Z := 4.
Definition INODE_ATTR_GID : Z := 5.
Definition INODE_ATTR_RM_SUID : Z := 6.
Definition INODE_ATTR_RM_SGID : Z := 7.
Definition INODE_ATTR_FORCE : Z := 8.

Definition flag_test (flags b : Z) : bool := Z.testbit flags b.
Definition flag_set (flags b : Z) : Z := Z.setbit flags b.
#[global] Arguments flag_test : simpl never.

(** [F(a, b, ...)] *)
Definition F (bs : list Z) : Z := foldr (fun b acc => Z.setbit acc b) 0 bs.

Record inode_attributes : Type := {
  a_mode : Z;
  a_atime : Z; a_mtime : Z; a_ctime : Z;
  a_uid : Z; a_gid : Z;
}.

Definition no_attributes : inode_attributes :=
  {| a_mode := 0; a_atime := 0; a_mtime := 0; a_ctime := 0; a_uid := 0; a_gid := 0 |}.
Definition set_a_mode (m : Z) (a : inode_attributes) : inode_attributes :=
  {| a_mode := m; a_atime := a_atime a; a_mtime := a_mtime a; a_ctime := a_ctime a; a_uid := a_uid a; a_gid := a_gid a |}.

(** Returns the error, and [attrs] as it is left. *)
Definition verify_apply_attribute_permissions (c : credentials) (x : inode) (flags : Z) (attrs : inode_attributes)
  : Z * inode_attributes :=
  if flag_test flags INODE_ATTR_FORCE then (0, attrs)
  else if flag_test flags INODE_ATTR_UID &&
          negb ((euid c =? 0) || ((euid c =? uid x) && (uid x =? a_uid attrs))) then (- EPERM, attrs)
  else if flag_test flags INODE_ATTR_GID &&
          negb ((euid c =? 0) ||
                ((euid c =? uid x) && (credentials_belong_to_gid c (a_gid attrs) || (a_gid attrs =? gid x))))
  then (- EPERM, attrs)
  else if flag_test flags INODE_ATTR_MODE && (negb (euid c =? 0) && negb (euid c =? uid x)) then (- EPERM, attrs)
  else
    let attrs :=
      if flag_test flags INODE_ATTR_MODE then
        let target := if flag_test flags INODE_ATTR_GID then a_gid attrs else gid x in
        if negb (euid c =? 0) && negb (credentials_belong_to_gid c target)
        then set_a_mode (Z.land (a_mode attrs) (Z.lnot S_ISGID)) attrs else attrs
      else attrs in
    if (flag_test flags INODE_ATTR_ATIME || flag_test flags INODE_ATTR_MTIME || flag_test flags INODE_ATTR_CTIME) &&
       (negb (euid c =? 0) || negb (euid c =? uid x)) then (- EPERM, attrs)
    else (0, attrs).

Definition set_attributes (m u g a t c : Z) (x : inode) : inode :=
  {| ino := ino x; dev_no := dev_no x; size := size x; mode := m; nlinks := nlinks x; blocks := blocks x;
     atime := a; mtime := t; ctime := c; uid := u; gid := g; dirty := true |}.

Definition vfs_apply_attributes (now : Z) (c : credentials) (x : inode) (flags : Z) (attrs : inode_attributes) : Z * inode :=
  if (flag_test flags INODE_ATTR_RM_SGID && flag_test flags INODE_ATTR_MODE)
     || (flag_test flags INODE_ATTR_RM_SUID && flag_test flags INODE_ATTR_MODE) then (- EINVAL, x)
  else
    let remove := flag_test flags INODE_ATTR_RM_SUID || flag_test flags INODE_ATTR_RM_SGID in
    let attrs :=
      if remove then
        let m := mode x in
        let m := if flag_test flags INODE_ATTR_RM_SUID then Z.land m (Z.lnot S_ISUID) else m in
        let m := if flag_test flags INODE_ATTR_RM_SGID then Z.land m (Z.lnot S_ISGID) else m in
        set_a_mode m attrs
      else attrs in
    let flags := if remove then flag_set flags INODE_ATTR_MODE else flags in
    let '(err, attrs) := verify_apply_attribute_permissions c x flags attrs in
    if negb (err =? 0) then (- EPERM, x)
    else
      let m := if flag_test flags INODE_ATTR_MODE
               then Z.lor (Z.land (mode x) S_IFMT) (Z.land (a_mode attrs) PERM_BITS) else mode x in
      let u := if flag_test flags INODE_ATTR_UID then a_uid attrs else uid x in
      let g := if flag_test flags INODE_ATTR_GID then a_gid attrs else gid x in
      let a := if flag_test flags INODE_ATTR_ATIME then a_atime attrs else now in
      let ct := if flag_test flags INODE_ATTR_CTIME then a_ctime attrs else now in
      let t := if flag_test flags INODE_ATTR_MTIME then a_mtime attrs else now in
      (0, set_attributes m u g a t ct x).

Definition vfs_chown (now : Z) (c : credentials) (x : inode) (u g : Z) : Z * inode :=
  let attrs := {| a_mode := 0; a_atime := 0; a_mtime := 0; a_ctime := 0;
                  a_uid := if u =? -1 then 0 else u; a_gid := if g =? -1 then 0 else g |} in
  let flags := if u =? -1 then 0 else flag_set 0 INODE_ATTR_UID in
  let flags := if g =? -1 then flags else flag_set flags INODE_ATTR_GID in
  let flags := if S_ISDIR (mode x) then flags
               else flag_set (flag_set flags INODE_ATTR_RM_SUID) INODE_ATTR_RM_SGID in
  vfs_apply_attributes now c x flags attrs.

Definition vfs_chmod (now : Z) (c : credentials) (x : inode) (m : Z) : Z * inode :=
  vfs_apply_attributes now c x (F [INODE_ATTR_MODE]) (set_a_mode m no_attributes).

(** What a write or a truncation does first to a regular file. *)
Definition drop_set_ids (now : Z) (c : credentials) (x : inode) : Z * inode :=
  vfs_apply_attributes now c x (F [INODE_ATTR_RM_SGID; INODE_ATTR_RM_SUID; INODE_ATTR_FORCE]) no_attributes.

Definition access_of (x : inode) : inode_access := {| i_mode := mode x; i_uid := uid x; i_gid := gid x |}.

(** [sys_utimes] once it has found the inode; [times] are the seconds of the two
    times given, [None] for a null pointer. *)
Definition utimes_inode (now : Z) (c : credentials) (x : inode) (times : option (Z * Z)) : Z * inode :=
  match times with
  | Some (at_, mt) =>
      vfs_apply_attributes now c x (F [INODE_ATTR_ATIME; INODE_ATTR_MODE])
        {| a_mode := 0; a_atime := at_; a_mtime := mt; a_ctime := 0; a_uid := 0; a_gid := 0 |}
  | None =>
      let ret := check_permission c (access_of x) W_OK in
      if negb (ret =? 0) then (ret, x) else vfs_apply_attributes now c x 0 no_attributes
  end.

(** * Who may change what *)

Inductive attr_call : Type :=
| Chown (u g : Z)
| Chmod (m : Z)
| Utimes (times : option (Z * Z)).

Definition attr_step (now : Z) (c : credentials) (call : attr_call) (x : inode) : Z * inode :=
  match call with
  | Chown u g => vfs_chown now c x u g
  | Chmod m => vfs_chmod now c x m
  | Utimes times => utimes_inode now c x times
  end.

Fixpoint attr_run (c : credentials) (calls : list (Z * attr_call)) (x : inode) : inode :=
  match calls with
  | [] => x
  | (now, call) :: calls' => attr_run c calls' (snd (attr_step now c call x))
  end.

Definition has_bit (m b : Z) : bool := negb (Z.land m b =? 0).

(** What a task without privilege may have done to an inode. *)
Record permitted (c : credentials) (x x' : inode) : Prop := {
  perm_uid : uid x' = uid x;
  perm_type : Z.land (mode x') S_IFMT = Z.land (mode x) S_IFMT;
  perm_owner : euid c <> uid x -> mode x' = mode x /\ gid x' = gid x;
  perm_gid : gid x' = gid x \/ credentials_belong_to_gid c (gid x') = true;
  perm_sgid : S_ISDIR (mode x) = false -> has_bit (mode x') S_ISGID = true ->
    has_bit (mode x) S_ISGID = true /\ gid x' = gid x \/ credentials_belong_to_gid c (gid x') = true;
  perm_rest : ino x' = ino x /\ size x' = size x /\ nlinks x' = nlinks x /\ blocks x' = blocks x /\ dev_no x' = dev_no x;
}.

(** Computes the tests of closed flag words. *)
Ltac flags :=
  repeat match goal with
  | |- context [flag_test ?f ?b] => let v := eval vm_compute in (flag_test f b) in change (flag_test f b) with v
  end; cbn [andb orb negb].

Lemma permitted_refl c x : permitted c x x.
Proof. split; auto. Qed.

Lemma permitted_trans c x y z : permitted c x y -> permitted c y z -> permitted c x z.
Proof.
  intros [U1 T1 O1 G1 S1 R1] [U2 T2 O2 G2 S2 R2].
  assert (Hdir : S_ISDIR (mode y) = S_ISDIR (mode x)) by (unfold S_ISDIR; by rewrite T1).
  split; [congruence | congruence | | | | intuition congruence].
  - intros Hne. destruct (O1 Hne) as [E1 E2]. destruct O2 as [E3 E4]; [congruence|]. split; congruence.
  - destruct G2 as [->|?]; [destruct G1 as [->|?]; auto | auto].
  - intros Hd Hb. destruct (S2 ltac:(congruence) Hb) as [[Hy Eg]|?]; [|by right].
    rewrite Eg. by apply S1.
Qed.

Lemma type_kept m p : Z.land (Z.lor (Z.land m S_IFMT) (Z.land p PERM_BITS)) S_IFMT = Z.land m S_IFMT.
Proof.
  rewrite Z.land_lor_distr_l, <- !Z.land_assoc. rewrite Z.land_diag.
  change (Z.land PERM_BITS S_IFMT) with 0. by rewrite Z.land_0_r, Z.lor_0_r.
Qed.

Lemma sgid_cleared m p : has_bit (Z.lor (Z.land m S_IFMT) (Z.land (Z.land p (Z.lnot S_ISGID)) PERM_BITS)) S_ISGID = false.
Proof.
  unfold has_bit. rewrite Z.land_lor_distr_l, <- !Z.land_assoc. change (Z.land S_IFMT S_ISGID) with 0.
  change (Z.land (Z.lnot S_ISGID) (Z.land PERM_BITS S_ISGID)) with 0. by rewrite !Z.land_0_r.
Qed.

Lemma apply_other now c x flags attrs :
  let x' := snd (vfs_apply_attributes now c x flags attrs) in
  ino x' = ino x /\ size x' = size x /\ nlinks x' = nlinks x /\ blocks x' = blocks x /\ dev_no x' = dev_no x.
Proof. unfold vfs_apply_attributes. repeat case_match; simpl; auto. Qed.

Section Unprivileged.
Context (now : Z) (c : credentials) (x : inode) (Hc : euid c <> 0).

(** What a check that passes says to a task without privilege. *)
Lemma verify_passes flags attrs attrs' :
  flag_test flags INODE_ATTR_FORCE = false ->
  verify_apply_attribute_permissions c x flags attrs = (0, attrs') ->
  a_uid attrs' = a_uid attrs /\ a_gid attrs' = a_gid attrs /\
  (flag_test flags INODE_ATTR_UID = true -> a_uid attrs = uid x) /\
  (flag_test flags INODE_ATTR_GID = true ->
    euid c = uid x /\ (credentials_belong_to_gid c (a_gid attrs) = true \/ a_gid attrs = gid x)) /\
  (flag_test flags INODE_ATTR_MODE = true -> euid c = uid x /\
    (credentials_belong_to_gid c (if flag_test flags INODE_ATTR_GID then a_gid attrs else gid x) = true \/
     a_mode attrs' = Z.land (a_mode attrs) (Z.lnot S_ISGID))).
Proof using Hc.
  intros HF. unfold verify_apply_attribute_permissions. rewrite HF. destruct (Z.eqb_spec (euid c) 0); [done|]. cbn [orb andb negb].
  destruct (flag_test flags INODE_ATTR_UID) eqn:EU; cbn [andb];
    [destruct (Z.eqb_spec (euid c) (uid x)), (Z.eqb_spec (uid x) (a_uid attrs)); cbn [andb negb]; try done|].
  all: destruct (flag_test flags INODE_ATTR_GID) eqn:EG; cbn [andb];
    [destruct (Z.eqb_spec (euid c) (uid x)), (credentials_belong_to_gid c (a_gid attrs)) eqn:EB,
       (Z.eqb_spec (a_gid attrs) (gid x)); cbn [andb orb negb]; try done|].
  all: destruct (flag_test flags INODE_ATTR_MODE) eqn:EM; cbn [andb negb];
    [destruct (Z.eqb_spec (euid c) (uid x)); cbn [andb negb]; try done|].
  all: try (destruct (credentials_belong_to_gid c (gid x)) eqn:EB'); rewrite ?EB; cbn [andb negb].
  all: case_match; intros [= <-]; simpl; split_and!; auto; try done.
Qed.

Lemma apply_permitted flags attrs :
  flag_test flags INODE_ATTR_FORCE = false -> permitted c x (snd (vfs_apply_attributes now c x flags attrs)).
Proof using Hc.
  intros HF. pose proof (apply_other now c x flags attrs) as Hrest. revert Hrest. unfold vfs_apply_attributes.
  case_match; [intros; apply permitted_refl|].
  set (remove := flag_test flags INODE_ATTR_RM_SUID || flag_test flags INODE_ATTR_RM_SGID).
  set (attrs1 := if remove then _ else attrs). set (flags1 := if remove then _ else flags).
  assert (Hfl : forall b, b <> INODE_ATTR_MODE -> flag_test flags1 b = flag_test flags b).
  { intros b Hb. unfold flags1. destruct remove; [|done]. unfold flag_test, flag_set, INODE_ATTR_MODE in *.
    apply Z.setbit_neq; lia. }
  assert (Ha1 : a_uid attrs1 = a_uid attrs /\ a_gid attrs1 = a_gid attrs) by (unfold attrs1; by destruct remove).
  destruct (verify_apply_attribute_permissions c x flags1 attrs1) as [err attrs'] eqn:EV.
  destruct (Z.eqb_spec err 0) as [->|]; cbn [negb]; [|intros; apply permitted_refl].
  destruct (verify_passes flags1 attrs1 attrs') as (Eu & Eg & HU & HG & HM); [by rewrite Hfl | done |].
  clear EV. simpl. intros Hrest. split; simpl.
  - destruct (flag_test flags1 INODE_ATTR_UID); [|done]. rewrite Eu. auto.
  - destruct (flag_test flags1 INODE_ATTR_MODE); [apply type_kept | done].
  - intros Hne. split.
    + destruct (flag_test flags1 INODE_ATTR_MODE); [by destruct (HM eq_refl) as [? _] | done].
    + destruct (flag_test flags1 INODE_ATTR_GID); [by destruct (HG eq_refl) as [? _] | done].
  - destruct (flag_test flags1 INODE_ATTR_GID); [|by left]. rewrite Eg. destruct (HG eq_refl) as [_ [?|?]]; auto.
  - intros _ Hs. destruct (flag_test flags1 INODE_ATTR_MODE) eqn:EM.
    + destruct (HM eq_refl) as [_ [Hb|Hb]]; [|by rewrite Hb, sgid_cleared in Hs]. right.
      destruct (flag_test flags1 INODE_ATTR_GID); [by rewrite Eg | done].
    + destruct (flag_test flags1 INODE_ATTR_GID); [|by left]. rewrite Eg. destruct (HG eq_refl) as [_ [?| ->]]; [by right | by left].
  - done.
Qed.

Lemma attr_step_permitted call : permitted c x (snd (attr_step now c call x)).
Proof using Hc.
  destruct call as [u g|m|[[a t]|]]; cbn [attr_step].
  - apply apply_permitted. destruct (u =? -1), (g =? -1), (S_ISDIR (mode x)); done.
  - by apply apply_permitted.
  - by apply apply_permitted.
  - simpl. case_match; [apply permitted_refl | by apply apply_permitted].
Qed.
End Unprivileged.

(** C35: a task without privilege cannot use the attribute calls to take more
    than it has.  Over any sequence of chown, chmod and utimes calls on an inode
    the owner and the type never change; unless the task owns the inode its mode
    and group do not change either; a new group is one the task belongs to; and
    the set-group-id bit of a file that is no directory ends up set only if it was
    set before with the same group, or the task belongs to the group. *)
Theorem attributes_no_escalation c calls x : euid c <> 0 -> permitted c x (attr_run c calls x).
Proof.
  intros Hc. revert x. induction calls as [|[now call] calls IH]; intros x; simpl; [apply permitted_refl|].
  eapply permitted_trans, IH. by apply attr_step_permitted.
Qed.

Definition demo_creds : credentials :=
  {| Users.uid := 5; euid := 5; suid := 5; Users.gid := 9; egid := 9; sgid := 9; sup_groups := [] |}.
Definition demo_vnode : inode :=
  {| ino := 12; dev_no := 0; size := 100; mode := 0x89ED; nlinks := 1; blocks := 2; atime := 0; mtime := 0; ctime := 0;
     uid := 5; gid := 7; dirty := false |}.

Lemma attributes_no_escalation_witness :
  permitted demo_creds demo_vnode (attr_run demo_creds [(1, Chmod 0xDFF); (2, Chown (-1) 9)] demo_vnode).
Proof. apply (attributes_no_escalation demo_creds). simpl. lia. Defined.

(** giving a file new times clears its permissions.  The call passes the
    flag for the mode in place of the one for the modification time, so root's
    utimes on a file of its own leaves no permission bit set and the modification
    time at the current time. *)
Theorem utimes_clears_mode now c x a t :
  euid c = 0 -> uid x = 0 ->
  exists x', utimes_inode now c x (Some (a, t)) = (0, x') /\
    Z.land (mode x') PERM_BITS = 0 /\ atime x' = a /\ mtime x' = now.
Proof.
  intros Hc Hx. eexists. split.
  - unfold utimes_inode, vfs_apply_attributes, verify_apply_attribute_permissions. flags. rewrite Hc, Hx. simpl. reflexivity.
  - simpl. split_and!; try done. rewrite Z.land_0_l, Z.lor_0_r, <- Z.land_assoc. change (Z.land S_IFMT PERM_BITS) with 0.
    apply Z.land_0_r.
Qed.

Lemma utimes_clears_mode_witness :
  exists x', utimes_inode 50 credentials_init (set_attributes 0x81A4 0 0 1 1 1 demo_vnode) (Some (7, 8)) = (0, x') /\
    Z.land (mode x') PERM_BITS = 0 /\ atime x' = 7 /\ mtime x' = 50.
Proof. by apply (utimes_clears_mode 50 credentials_init). Defined.

(** The owner of a file cannot give it new times either. *)
Lemma utimes_owner_denied now c x a t : euid c <> 0 -> utimes_inode now c x (Some (a, t)) = (- EPERM, x).
Proof.
  intros Hc. unfold utimes_inode, vfs_apply_attributes, verify_apply_attribute_permissions. flags.
  destruct (Z.eqb_spec (euid c) 0); [done|]. destruct (Z.eqb_spec (euid c) (uid x)); simpl; [|done].
  by destruct (credentials_belong_to_gid c (gid x)).
Qed.

(** A write through [drop_set_ids] keeps only the type and the nine permission
    bits and the sticky bit. *)
Lemma drop_set_ids_spec now c x :
  exists x', drop_set_ids now c x = (0, x') /\ size x' = size x /\
    mode x' = Z.lor (Z.land (mode x) S_IFMT) (Z.land (mode x) 0x3FF) /\ uid x' = uid x /\ gid x' = gid x.
Proof.
  eexists. split; [unfold drop_set_ids, vfs_apply_attributes, verify_apply_attribute_permissions; flags; reflexivity|].
  simpl. split_and!; try done. by rewrite <- !Z.land_assoc.
Qed.
