(* ===== verification/Ext2File.v ===== *)
(** Reading and writing a regular file on ext2 (src/fs/file.c over
    src/fs/ext2): the generic file operations walk the sectors of a file through
    [bmap] and [bmap_alloc].  They implement a sequence of bytes: a write stores
    its bytes at the position of the file and changes no other byte, and a read
    returns the bytes stored. *)
From stdpp Require Import base numbers list gmap.
From Stdlib Require Import ZArith ZifyBool Lia.
From S2P Require Import Prelude UserMem Users.
From S2P Require Import Bits Endian Ext2 Ext2Alloc Ext2Map Ext2Bmap Ext2Trunc Ext2Free Ext2Remove Vfs.
Open Scope Z_scope.

Definition ENOTSUP : Z := 134.
Definition OFF_MAX : Z := 2147483647.

Definition FILE_READABLE : Z := 0.
Definition FILE_WRITABLE : Z := 1.
Definition FILE_APPEND : Z := 2.

Record file : Type := { f_offset : Z; f_flags : Z }.

Definition SEEK_SET : Z := 0.
Definition SEEK_CUR : Z := 1.
Definition SEEK_END : Z := 2.

Definition fs_file_generic_lseek (filp : file) (x : ext2_inode) (off whence : Z) : Z * file :=
  if (whence =? SEEK_SET) || (whence =? SEEK_END) || (whence =? SEEK_CUR) then
    let o := if whence =? SEEK_SET then off
             else if whence =? SEEK_END then i32 (size (vfs x) + off)
             else i32 (f_offset filp + off) in
    let o := if o <? 0 then 0 else o in
    (o, {| f_offset := o; f_flags := f_flags filp |})
  else (- EINVAL, filp).

Definition set_atime (now : Z) (x : inode) : inode :=
  {| ino := ino x; dev_no := dev_no x; size := size x; mode := mode x; nlinks := nlinks x; blocks := blocks x;
     atime := now; mtime := mtime x; ctime := ctime x; uid := uid x; gid := gid x; dirty := dirty x |}.

(** The number of bytes one turn of the loops copies. *)
Definition chunk (bs sec_off todo : Z) : Z := if bs - sec_off <? todo then bs - sec_off else todo.

(** The loop of [fs_file_generic_pread]; [inl] is a return with an error. *)
Fixpoint pread_loop (f : fs) (x : ext2_inode) (m : gmap Z Z) (buf : user_buffer)
    (sec sec_off have_read len : Z) (fuel : nat) : outcome ((Z + Z) * gmap Z Z) :=
  match fuel with
  | O => Fault
  | S fuel' =>
      if have_read <? len then
        on_dev ← ext2_bmap f x sec;
        let left := chunk (block_size (sb f)) sec_off (len - have_read) in
        '(err, m) ←
          (if negb (on_dev =? SECTOR_INVALID) then
             data ← block_data f on_dev;
             src ← arr_slice data sec_off left;
             Done (user_memcpy_from_kernel m (user_buffer_index buf have_read) src)
           else Done (user_memset_from_kernel m (user_buffer_index buf have_read) 0 left));
        if negb (err =? 0) then Done (inl err, m)
        else pread_loop f x m buf (sec + 1) 0 (have_read + left) len fuel'
      else Done (inr have_read, m)
  end.

Definition fs_file_generic_pread (now : Z) (f : fs) (x : ext2_inode) (filp : file) (m : gmap Z Z) (buf : user_buffer)
    (sizet_len off : Z) : outcome (Z * gmap Z Z * ext2_inode) :=
  if negb (flag_test (f_flags filp) FILE_READABLE) then Done (- EBADF, m, x)
  else if off <? 0 then Done (- EINVAL, m, x)
  else if (OFF_MAX <? sizet_len) || (i32 sizet_len <? 0) then Done (- EINVAL, m, x)
  else
    let len := i32 sizet_len in
    let len := if size (vfs x) <? i32 (off + len) then i32 (size (vfs x) - off) else len in
    let bs := block_size (sb f) in
    let sec := Z.quot off bs in
    let sec_off := off - sec * bs in
    '(r, m) ← pread_loop f x m buf sec sec_off 0 len (S (Z.to_nat len));
    match r with
    | inl err => Done (err, m, x)
    | inr have_read => Done (have_read, m, set_vfs (fun v => set_dirty (set_atime now v)) x)
    end.

Definition fs_file_generic_read (now : Z) (f : fs) (x : ext2_inode) (filp : file) (m : gmap Z Z) (buf : user_buffer)
    (len : Z) : outcome (Z * gmap Z Z * ext2_inode * file) :=
  '(ret, m, x) ← fs_file_generic_pread now f x filp m buf len (f_offset filp);
  if ret <? 0 then Done (ret, m, x, filp)
  else Done (ret, m, x, {| f_offset := i32 (f_offset filp + ret); f_flags := f_flags filp |}).

(** [vfs_truncate] of an inode of ext2: only regular files have the operation. *)
Definition vfs_truncate (now : Z) (c : credentials) (f : fs) (x : ext2_inode) (length : Z)
  : outcome (Z * fs * ext2_inode) :=
  if S_ISDIR (mode (vfs x)) then Done (- EISDIR, f, x)
  else
    let ret := check_permission c (access_of (vfs x)) W_OK in
    if negb (ret =? 0) then Done (ret, f, x)
    else if S_ISREG (mode (vfs x)) then
      let '(ret, v) := drop_set_ids now c (vfs x) in
      if negb (ret =? 0) then Done (ret, f, x)
      else
        '(f, x) ← ext2_inode_truncate now f (set_vfs (fun _ => v) x) length;
        Done (0, f, x)
    else Done (- ENOTSUP, f, x).

Definition vfs_lseek (filp : file) (x : ext2_inode) (off whence : Z) : Z * file :=
  if S_ISDIR (mode (vfs x)) then (- EISDIR, filp) else fs_file_generic_lseek filp x off whence.

(** The loop of [fs_file_generic_write]: [inl] is the return with the error of
    a copy, [inr] the value of [ret] and of [have_written] after the loop. *)
Fixpoint write_loop (f : fs) (x : ext2_inode) (m : gmap Z Z) (buf : user_buffer)
    (ret sec sec_off have_written len : Z) (fuel : nat) : outcome ((Z + Z * Z) * fs * ext2_inode) :=
  match fuel with
  | O => Fault
  | S fuel' =>
      if have_written <? len then
        '(on_dev, f, x) ← ext2_bmap_alloc f x sec;
        if on_dev =? SECTOR_INVALID then Done (inr (- ENOSPC, have_written), f, x)
        else
          let left := chunk (block_size (sb f)) sec_off (len - have_written) in
          data ← block_data f on_dev;
          let '(err, src) := user_memcpy_to_kernel m (user_buffer_index buf have_written) left in
          data ← arr_blit data sec_off src;
          let f := block_write f on_dev data in
          if negb (err =? 0) then Done (inl err, f, x)
          else write_loop f x m buf ret (sec + 1) 0 (have_written + left) len fuel'
      else Done (inr (ret, have_written), f, x)
  end.

Definition fs_file_generic_write (now : Z) (c : credentials) (f : fs) (x : ext2_inode) (filp : file)
    (m : gmap Z Z) (buf : user_buffer) (sizet_len : Z) : outcome (Z * fs * ext2_inode * file) :=
  if negb (flag_test (f_flags filp) FILE_WRITABLE) then Done (- EBADF, f, x, filp)
  else
    let '(ret, filp) :=
      if flag_test (f_flags filp) FILE_APPEND then
        vfs_lseek filp x 0 SEEK_END
      else (0, filp) in
    if ret <? 0 then Done (ret, f, x, filp)
    else
      let len := i32 sizet_len in
      let grow := i32 (size (vfs x) - f_offset filp) <? len in
      '(ret, f, x) ← (if grow then vfs_truncate now c f x (i32 (f_offset filp + len)) else Done (ret, f, x));
      if grow && negb (ret =? 0) then Done (ret, f, x, filp)
      else
        let bs := block_size (sb f) in
        let sec := Z.quot (f_offset filp) bs in
        let sec_off := f_offset filp - sec * bs in
        '(r, f, x) ← write_loop f x m buf ret sec sec_off 0 len (S (Z.to_nat len));
        match r with
        | inl err => Done (err, f, x, filp)
        | inr (ret, have_written) =>
            let x := set_vfs (fun v => set_dirty (set_mtime now v)) x in
            if ret =? 0 then
              Done (have_written, f, x, {| f_offset := i32 (f_offset filp + have_written); f_flags := f_flags filp |})
            else Done (ret, f, x, filp)
        end.

(** The functions of vfs.c are on a file whose [ops] are [ext2_file_ops_file]
    (src/fs/ext2/file.c): every operation is there. *)
Definition vfs_write (now : Z) (c : credentials) (f : fs) (x : ext2_inode) (filp : file)
    (m : gmap Z Z) (buf : user_buffer) (len : Z) : outcome (Z * fs * ext2_inode * file) :=
  if S_ISDIR (mode (vfs x)) then Done (- EISDIR, f, x, filp)
  else
    let '(ret, v) := if S_ISREG (mode (vfs x)) then drop_set_ids now c (vfs x) else (0, vfs x) in
    if negb (ret =? 0) then Done (ret, f, x, filp)
    else fs_file_generic_write now c f (set_vfs (fun _ => v) x) filp m buf len.

Definition vfs_read (now : Z) (f : fs) (x : ext2_inode) (filp : file) (m : gmap Z Z) (buf : user_buffer) (len : Z)
  : outcome (Z * gmap Z Z * ext2_inode * file) :=
  if S_ISDIR (mode (vfs x)) then Done (- EISDIR, m, x, filp) else fs_file_generic_read now f x filp m buf len.

Definition vfs_pread (now : Z) (f : fs) (x : ext2_inode) (filp : file) (m : gmap Z Z) (buf : user_buffer) (len off : Z)
  : outcome (Z * gmap Z Z * ext2_inode) :=
  if S_ISDIR (mode (vfs x)) then Done (- EISDIR, m, x) else fs_file_generic_pread now f x filp m buf len off.

(** * A file is a sequence of bytes *)

Abbreviation bsize f := (block_size (sb f)).

(** The byte at position [o]; a sector without a block reads as zeros. *)
Definition file_byte (f : fs) (x : ext2_inode) (o : Z) : Z :=
  let b := Ext2Map.mapped f x (o / bsize f) in
  if b =? 0 then 0 else default 0 (default [] (disk f !! b) !! Z.to_nat (o mod bsize f)).

Definition file_bytes (f : fs) (x : ext2_inode) (off n : Z) : list Z := file_byte f x <$> seqZ off n.

Lemma length_file_bytes f x off n : 0 <= n -> Z.of_nat (length (file_bytes f x off n)) = n.
Proof. intros. unfold file_bytes. rewrite length_fmap, length_seqZ. lia. Qed.

Lemma file_bytes_app f x off n k :
  0 <= n -> 0 <= k -> file_bytes f x off (n + k) = file_bytes f x off n ++ file_bytes f x (off + n) k.
Proof. intros. unfold file_bytes. rewrite seqZ_app by lia. by rewrite fmap_app. Qed.

Lemma file_bytes_lookup f x off n i : (i < Z.to_nat n)%nat -> file_bytes f x off n !! i = Some (file_byte f x (off + Z.of_nat i)).
Proof. intros. unfold file_bytes. rewrite list_lookup_fmap, lookup_seqZ_lt by lia. done. Qed.

Section Size.
Context (f : fs) (Hok : fs_ok f).

Lemma bsize_range : 1024 <= bsize f <= 4096.
Proof using Hok. destruct (geo_bs _ (ok_geo _ (ok_alloc _ Hok))) as [->|[->| ->]]; lia. Qed.

Lemma pos_split sec sec_off o :
  0 <= sec_off -> sec_off + o < bsize f -> 0 <= o -> 
  (sec * bsize f + sec_off + o) / bsize f = sec /\ (sec * bsize f + sec_off + o) mod bsize f = sec_off + o.
Proof using Hok.
  intros. pose proof bsize_range. split.
  - symmetry. apply (Z.div_unique_pos _ _ _ (sec_off + o)); lia.
  - symmetry. apply (Z.mod_unique_pos _ _ sec); lia.
Qed.

(** The bytes of a file within one sector. *)
Lemma file_bytes_sector x sec sec_off n :
  0 <= sec_off -> 0 <= n -> sec_off + n <= bsize f ->
  file_bytes f x (sec * bsize f + sec_off) n =
  if Ext2Map.mapped f x sec =? 0 then replicate (Z.to_nat n) 0
  else take (Z.to_nat n) (drop (Z.to_nat sec_off)
         (default [] (disk f !! Ext2Map.mapped f x sec) ++ replicate (Z.to_nat (bsize f)) 0)).
Proof using Hok.
  intros H0 Hn Hs. pose proof bsize_range as Hb. apply list_eq. intros i.
  destruct (decide (i < Z.to_nat n)%nat) as [Hi|Hi].
  - rewrite file_bytes_lookup by done. unfold file_byte.
    destruct (pos_split sec sec_off (Z.of_nat i)) as [-> ->]; [lia | lia | lia |].
    destruct (Z.eqb_spec (Ext2Map.mapped f x sec) 0); [by rewrite lookup_replicate_2 by lia|].
    rewrite lookup_take_lt, lookup_drop by lia. set (data := default [] _).
    replace (Z.to_nat (sec_off + Z.of_nat i)) with (Z.to_nat sec_off + i)%nat by lia.
    destruct (data !! (Z.to_nat sec_off + i)%nat) as [b|] eqn:E.
    + by rewrite (lookup_app_l_Some _ _ _ _ E).
    + rewrite lookup_app_r by (by apply lookup_ge_None in E). apply lookup_ge_None in E.
      rewrite lookup_replicate_2 by lia. done.
  - rewrite (proj2 (lookup_ge_None _ _)) by (unfold file_bytes; rewrite length_fmap, length_seqZ; lia).
    symmetry. apply lookup_ge_None. destruct (_ =? 0); [rewrite length_replicate; lia|].
    rewrite length_take. lia.
Qed.

Lemma file_bytes_block x sec sec_off n data :
  Ext2Map.mapped f x sec <> 0 -> disk f !! Ext2Map.mapped f x sec = Some data ->
  0 <= sec_off -> 0 <= n -> sec_off + n <= bsize f ->
  arr_slice data sec_off n = Done (file_bytes f x (sec * bsize f + sec_off) n).
Proof using Hok.
  intros Hm Hd H0 Hn Hs. destruct (block_shape f Hok _ _ Hd) as [Hl _]. rewrite <- (bs_ppb f Hok) in Hl.
  rewrite arr_slice_done by lia. rewrite file_bytes_sector by done. destruct (Z.eqb_spec (Ext2Map.mapped f x sec) 0); [done|].
  rewrite Hd. simpl. rewrite drop_app_le by lia. rewrite take_app_le; [done|]. rewrite length_drop. lia.
Qed.
End Size.

(** * Reading *)

Lemma user_memset_ok m data n :
  1 <= n -> writable m data n ->
  exists m', user_memset_from_kernel m data 0 n = (0, m') /\ written m m' (ptr data) (replicate (Z.to_nat n) 0).
Proof.
  intros Hn Hw. destruct Hw as [(H0 & H1 & H2) Hu Hm]. unfold user_memset_from_kernel.
  assert (user_check_access data n = 0) as ->.
  { destruct (is_user data) eqn:E; [|by unfold user_check_access; rewrite E].
    rewrite user_check_access_spec by done. destruct (Z.leb_spec (ptr data + n) KMEM_KBASE); [done|].
    specialize (Hu eq_refl). lia. }
  simpl. set (bs := replicate (Z.to_nat n) 0). assert (El : Z.of_nat (length bs) = n) by (unfold bs; rewrite length_replicate; lia).
  rewrite <- El in H2, Hm. pose proof (movs_out_mapped m (ptr data) bs H0 H2 Hm) as Hret.
  pose proof (movs_out_write m (ptr data) bs H0 H2 Hret) as Hwr.
  pose proof (fun a => movs_out_frame m (ptr data) bs a H0 H2) as Hf.
  destruct (movs_out m (ptr data) bs) as [r m']. simpl in *. subst r. exists m'. split; [done|]. by split.
Qed.

(** The sectors below the size of a file are known to [bmap]. *)
Lemma known_below f x sec sec_off :
  fs_ok f -> 0 <= size (vfs x) < 2 ^ 31 -> 0 <= sec -> 0 <= sec_off -> sec * bsize f + sec_off < size (vfs x) ->
  sector_known f x sec.
Proof.
  intros Hok Hsz Hs Ho Hlt. pose proof (bsize_range f Hok). split; [done|]. right.
  rewrite Z.quot_div_nonneg by lia. rewrite u32_small.
  - apply Z.div_le_lower_bound; lia.
  - split; [apply Z.div_pos; lia|]. apply Z.div_lt_upper_bound; lia.
Qed.

Section Read.
Context (f : fs) (x : ext2_inode) (Hok : fs_ok f) (Hx : file_ok f x) (Hsz : 0 <= size (vfs x) < 2 ^ 31).

Lemma read_chunk m data sec sec_off n :
  sector_known f x sec -> 0 <= sec_off -> 1 <= n -> sec_off + n <= bsize f -> writable m data n ->
  exists on_dev m', ext2_bmap f x sec = Done on_dev /\
    (if negb (on_dev =? SECTOR_INVALID) then
       d ← block_data f on_dev;
       src ← arr_slice d sec_off n;
       Done (user_memcpy_from_kernel m data src)
     else Done (user_memset_from_kernel m data 0 n)) = Done (0, m') /\
    written m m' (ptr data) (file_bytes f x (sec * bsize f + sec_off) n).
Proof using Hok Hx Hsz.
  intros Hk H0 Hn Hs Hw. pose proof (mapped_known f x sec Hok Hx (proj1 Hk)) as Hmk.
  rewrite (ext2_bmap_spec f x sec Hok Hx Hk). exists (return_sector (Ext2Map.mapped f x sec)).
  destruct (Z.eqb_spec (return_sector (Ext2Map.mapped f x sec)) SECTOR_INVALID) as [E|E]; simpl.
  - assert (Em : Ext2Map.mapped f x sec = 0) by (destruct (Z.eq_dec (Ext2Map.mapped f x sec) 0); tauto).
    destruct (user_memset_ok m data n Hn Hw) as (m' & -> & Hwr). exists m'. split_and!; [done | done |].
    rewrite file_bytes_sector by (done || lia). rewrite Em. done.
  - apply Hmk in E. assert (Er : return_sector (Ext2Map.mapped f x sec) = Ext2Map.mapped f x sec).
    { unfold return_sector. by destruct (Z.eqb_spec (Ext2Map.mapped f x sec) 0). }
    rewrite Er.
    assert (Hd : is_Some (disk f !! Ext2Map.mapped f x sec)).
    { unfold Ext2Map.mapped in *. destruct (path _ sec) as [p|] eqn:Ep; [|done].
      destruct (path_ok _ sec p (ppb_pos f Hok) (proj1 Hk) Ep) as [Hp _].
      by destruct (slot_block f x Hx p Hp E) as [(_ & _ & ? & _) _]. }
    destruct Hd as [d Hd]. unfold block_data. rewrite Hd. obind.
    rewrite (file_bytes_block f Hok x sec sec_off n d) by (done || lia). obind.
    destruct (user_memcpy_from_kernel_ok m data (file_bytes f x (sec * bsize f + sec_off) n)) as (m' & -> & Hw1 & Hw2).
    { by rewrite length_file_bytes by lia. }
    exists m'. split_and!; [done | done |]. by split.
Qed.

Lemma pread_loop_spec buf len fuel : forall m sec sec_off have,
  0 <= have <= len -> 0 <= sec -> 0 <= sec_off < bsize f ->
  (have < len -> sec * bsize f + sec_off + (len - have) <= size (vfs x)) -> 0 <= ptr buf -> ptr buf + len < 2 ^ 32 -> (have < len -> writable m (user_buffer_index buf have) (len - have)) ->
  len - have < Z.of_nat fuel ->
  exists m', pread_loop f x m buf sec sec_off have len fuel = Done (inr len, m') /\
    written m m' (ptr buf + have) (file_bytes f x (sec * bsize f + sec_off) (len - have)).
Proof using Hok Hx Hsz.
  induction fuel as [|fuel IH]; intros m sec sec_off have Hh Hsec Hso Hend Hp0 Hp1 Hw Hf; [lia|]. cbn [pread_loop].
  destruct (Z.ltb_spec have len) as [Hlt|Hge].
  2: { assert (have = len) as -> by lia. exists m. split; [done|]. rewrite Z.sub_diag. apply written_nil. }
  pose proof (bsize_range f Hok) as Hb. set (left := chunk (bsize f) sec_off (len - have)).
  assert (Hleft : 1 <= left <= len - have /\ sec_off + left <= bsize f /\ (left = len - have \/ sec_off + left = bsize f)).
  { unfold left, chunk. destruct (Z.ltb_spec (bsize f - sec_off) (len - have)); lia. }
  pose proof (known_below f x sec sec_off Hok Hsz Hsec (proj1 Hso) ltac:(lia)) as Hk. specialize (Hw Hlt).
  assert (Hw1 : writable m (user_buffer_index buf have) left).
  { destruct Hw as [(R0 & R1 & R2) Hu Hm]. split; [split_and!; lia | intros Hx'; specialize (Hu Hx'); lia |].
    intros a Ha. apply Hm. lia. }
  destruct (read_chunk m (user_buffer_index buf have) sec sec_off left Hk) as (on_dev & m1 & -> & E1 & Hw2); [lia | lia | lia | done |].
  obind. rewrite E1. obind. cbn [negb Z.eqb].
  assert (Hptr : ptr (user_buffer_index buf have) = ptr buf + have) by (simpl; apply u32_small; lia). rewrite Hptr in Hw2.
  set (cs := file_bytes f x (sec * bsize f + sec_off) left) in *.
  assert (Hcs : Z.of_nat (length cs) = left) by (apply length_file_bytes; lia).
  assert (Hidx : user_buffer_index (user_buffer_index buf have) left = user_buffer_index buf (have + left)).
  { unfold user_buffer_index at 1 3. rewrite Hptr. simpl. do 2 f_equal. lia. }
  destruct (IH m1 (sec + 1) 0 (have + left)) as (m2 & -> & Hw3); try lia.
  { intros Hmore. rewrite <- Hidx. rewrite <- Hcs at 1.
    replace (len - (have + left)) with (len - have - Z.of_nat (length cs)) by lia.
    apply (writable_written m); [|lia | by rewrite Hptr].
    by replace (Z.of_nat (length cs) + (len - have - Z.of_nat (length cs))) with (len - have) by lia. }
  exists m2. split; [done|]. replace (len - have) with (left + (len - (have + left))) by lia.
  rewrite file_bytes_app by lia. fold cs. apply (written_app m m1 m2); [done|]. rewrite Hcs.
  destruct (Z.eq_dec left (len - have)) as [El|El].
  - replace (len - (have + left)) with 0 in * by lia. replace (ptr buf + have + left) with (ptr buf + (have + left)) by lia. exact Hw3.
  - replace (sec * bsize f + sec_off + left) with ((sec + 1) * bsize f + 0) by lia.
    by replace (ptr buf + have + left) with (ptr buf + (have + left)) by lia.
Qed.

(** Reading returns the bytes of the file from the position on, as many as were
    asked for and as there are. *)
Lemma fs_file_generic_pread_spec now filp m buf len off :
  flag_test (f_flags filp) FILE_READABLE = true -> 0 <= off -> 0 <= len -> off + len < 2 ^ 31 ->
  0 <= ptr buf -> ptr buf + len < 2 ^ 32 -> (0 < len -> writable m buf len) ->
  let n := Z.max 0 (Z.min len (size (vfs x) - off)) in
  exists m', fs_file_generic_pread now f x filp m buf len off =
      Done (n, m', set_vfs (fun v => set_dirty (set_atime now v)) x) /\
    written m m' (ptr buf) (file_bytes f x off n).
Proof using Hok Hx Hsz.
  intros Hr H0 Hl Hend Hp0 Hp1 Hw n. pose proof (bsize_range f Hok) as Hb. unfold fs_file_generic_pread. rewrite Hr.
  cbn [negb]. destruct (Z.ltb_spec off 0); [lia|].
  rewrite (i32_small len), (i32_small (off + len)), (i32_small (size (vfs x) - off)) by lia.
  destruct (Z.ltb_spec OFF_MAX len); [unfold OFF_MAX in *; lia|]. destruct (Z.ltb_spec len 0); [lia|]. cbn [orb].
  rewrite Z.quot_div_nonneg by lia. set (l := if size (vfs x) <? off + len then size (vfs x) - off else len).
  assert (El : (l < 0 /\ n = 0) \/ (0 <= l /\ l = n /\ off + l <= size (vfs x) /\ l <= len)).
  { unfold l, n. destruct (Z.ltb_spec (size (vfs x)) (off + len)); lia. }
  clearbody l n. destruct El as [[Hneg ->]|(Hpos & -> & Hsize & Hle)].
  { replace (Z.to_nat l) with 0%nat by lia. cbn [pread_loop]. destruct (Z.ltb_spec 0 l); [lia|]. obind.
    eexists _. split; [done|]. apply written_nil. }
  pose proof (Z.div_mod off (bsize f) ltac:(lia)). pose proof (Z.mod_pos_bound off (bsize f) ltac:(lia)).
  destruct (pread_loop_spec buf n (S (Z.to_nat n)) m (off / bsize f) (off - off / bsize f * bsize f) 0) as (m' & -> & Hwr);
    try lia.
  { apply Z.div_pos; lia. }
  { intros Hn. rewrite Z.sub_0_r. assert (Ei : user_buffer_index buf 0 = buf).
    { unfold user_buffer_index. rewrite Z.add_0_r, u32_small by lia. by destruct buf. }
    rewrite Ei. destruct (Hw ltac:(lia)) as [(R0 & R1 & R2) Hu Hm].
    split; [split_and!; lia | intros Hx'; specialize (Hu Hx'); lia |]. intros a Ha. apply Hm. lia. }
  obind. exists m'. split; [done|].
  rewrite Z.add_0_r, Z.sub_0_r in Hwr. by replace (off / bsize f * bsize f + (off - off / bsize f * bsize f)) with off in Hwr by lia.
Qed.
End Read.

(** * Writing *)

(** No sector past the end of the file has a block. *)
Definition tight (f : fs) (x : ext2_inode) : Prop :=
  forall t, 0 <= t -> size (vfs x) <= t * bsize f -> Ext2Map.mapped f x t = 0.

(** [f'], [x'] hold the file with the bytes [bs] at position [pos]; the blocks
    of other files are as they were. *)
Record stored (f : fs) (x : ext2_inode) (f' : fs) (x' : ext2_inode) (pos : Z) (bs : list Z) : Prop := {
  st_ok : fs_ok f';
  st_layout : layout (sb f') = layout (sb f);
  st_file : file_ok f' x';
  st_meta : meta (vfs x') = meta (vfs x);
  st_byte : forall o, 0 <= o -> file_byte f' x' o =
    if decide (pos <= o < pos + Z.of_nat (length bs)) then default 0 (bs !! Z.to_nat (o - pos)) else file_byte f x o;
  st_tight : tight f x -> tight f' x';
  st_kept : forall n, ~ bitmap_block (sb f) n -> ~ free f n -> ~ node f x n -> disk f' !! n = disk f !! n;
  st_nodes : forall n, node f' x' n -> node f x n \/ free f n;
  st_free : forall n, free f' n -> free f n;
}.

Lemma meta_size v w : meta v = meta w -> size v = size w.
Proof. intros E. by injection E. Qed.

Lemma stored_nil f x pos : fs_ok f -> file_ok f x -> stored f x f x pos [].
Proof. intros Hok Hx. split; try done; [|by left]. intros o Ho. simpl. rewrite decide_False by lia. done. Qed.

Lemma stored_app f x f1 x1 f2 x2 pos bs cs :
  stored f x f1 x1 pos bs -> stored f1 x1 f2 x2 (pos + Z.of_nat (length bs)) cs -> stored f x f2 x2 pos (bs ++ cs).
Proof.
  intros [A1 A2 A3 A4 A5 A6 A7 A8 A9] [B1 B2 B3 B4 B5 B6 B7 B8 B9]. split; auto; try congruence.
  - intros o Ho. rewrite B5, A5, length_app by done. repeat case_decide; try lia; try done.
    + rewrite lookup_app_r by lia. do 2 f_equal. lia.
    + rewrite lookup_app_l by lia. done.
  - intros n Hb Hf Hn. rewrite B7, A7; auto.
    + by rewrite (layout_bitmap _ _ _ A2).
    + intros H. by destruct (A8 n H).
  - intros n H. destruct (B8 n H) as [H'|H']; auto.
Qed.

Lemma leaf_not_inner f x s :
  fs_ok f -> file_ok f x -> 0 <= s -> Ext2Map.mapped f x s <> 0 ->
  ~ inner_node f x (Ext2Map.mapped f x s) /\ data_block f (Ext2Map.mapped f x s) /\ used f (Ext2Map.mapped f x s) = true /\
  node f x (Ext2Map.mapped f x s).
Proof.
  intros Hok Hx Hs Hne. unfold Ext2Map.mapped in *. destruct (path _ s) as [p|] eqn:Ep; [|done].
  destruct (path_ok _ s p (ppb_pos f Hok) Hs Ep) as [Hp Hi]. destruct (slot_block f x Hx p Hp Hne) as [Hd Hu].
  split_and!; try apply Hd; try done; [|by exists p].
  intros (q & Hq & Hqi & E & _). assert (q = p) as -> by (apply (file_once _ _ Hx); congruence). done.
Qed.

Lemma mapped_once f x s t :
  fs_ok f -> file_ok f x -> 0 <= s -> 0 <= t -> Ext2Map.mapped f x s <> 0 ->
  Ext2Map.mapped f x s = Ext2Map.mapped f x t -> s = t.
Proof.
  intros Hok Hx Hs Ht Hne E. unfold Ext2Map.mapped in *. pose proof (ppb_pos f Hok) as Hp.
  destruct (path _ s) as [p|] eqn:Ep; [|done]. destruct (path _ t) as [q|] eqn:Eq; [|congruence].
  apply (path_inj (ptrs_per_blk f) s t p); try done. rewrite Eq. f_equal. symmetry.
  apply (file_once _ _ Hx); [by apply (path_ok _ s) | by apply (path_ok _ t) | done | done].
Qed.

(** Giving a sector its block changes no byte of the file. *)
Lemma alloc_stored f x s ret f' x' pos :
  fs_ok f -> file_ok f x -> 0 <= s -> s * bsize f < size (vfs x) -> allocated f x s ret f' x' -> stored f x f' x' pos [].
Proof.
  intros Hok Hx Hs Hsz [A1 A2 A3 A4 A5 A6 A7 A8 A9]. assert (Ebs : bsize f' = bsize f) by (by injection A2).
  pose proof (bsize_range f Hok) as Hb. split; try done.
  - intros o Ho. simpl. rewrite decide_False by lia. unfold file_byte. rewrite Ebs.
    assert (Hq : 0 <= o / bsize f) by (apply Z.div_pos; lia). destruct (decide (o / bsize f = s)) as [Es|Es].
    + rewrite Es. case_decide as Er; [destruct A9 as (-> & -> & _); done|]. destruct A9 as (Em & Hnew & Hold).
      destruct (decide (Ext2Map.mapped f x s = 0)) as [E0|E0].
      * destruct (Hnew E0) as (_ & Hz & _). rewrite Em, E0, Hz. simpl. destruct (ret =? 0); [done|].
        destruct (replicate _ 0 !! Z.to_nat (o mod bsize f)) as [b|] eqn:El; [|done]. by apply lookup_replicate_1 in El as [-> _].
      * destruct (Hold E0) as (E1 & -> & ->). done.
    + rewrite A5 by done. destruct (Z.eqb_spec (Ext2Map.mapped f x (o / bsize f)) 0) as [E0|E0]; [done|].
      destruct (leaf_not_inner f x _ Hok Hx Hq E0) as (Hi & Hd & Hu & _).
      rewrite A6; [done | apply Hd | intros [_ Hf]; congruence | done].
  - intros HT t Ht Hts. rewrite (meta_size _ _ A4), Ebs in Hts. rewrite A5; [by apply HT | done |]. intros ->. lia.
  - intros n Hb' Hf Hn. apply A6; [done | done|]. intros (q & Hq & _ & E & Hn0). apply Hn. by exists q.
Qed.

(** Writing the block of a sector leaves the pointers of the file alone. *)
Lemma leaf_write f x sec data :
  fs_ok f -> file_ok f x -> 0 <= sec -> Ext2Map.mapped f x sec <> 0 -> Z.of_nat (length data) = bsize f -> bytes data ->
  let f' := block_write f (Ext2Map.mapped f x sec) data in
  fs_ok f' /\ file_ok f' x /\ (forall t, 0 <= t -> Ext2Map.mapped f' x t = Ext2Map.mapped f x t) /\
  (forall n, node f' x n <-> node f x n) /\ (forall n, used f' n = used f n).
Proof.
  intros Hok Hx Hs Hne Hl Hy. set (b := Ext2Map.mapped f x sec) in *. intros f'.
  destruct (leaf_not_inner f x sec Hok Hx Hs Hne) as (Hi & Hdb & Hu & Hnode). fold b in Hi, Hdb, Hu, Hnode.
  destruct (block_write_ok f Hok b data) as (W1 & W2 & W3); [apply Hdb | apply Hdb | rewrite <- (bs_ppb f Hok); lia | done |].
  assert (Hsl : forall p, pos_ok (ptrs_per_blk f) p -> slot f' x p = slot f x p).
  { apply slot_agree; [|done]. intros c Hc. simpl. apply lookup_insert_ne. intros <-. done. }
  assert (Hn : forall n, node f' x n <-> node f x n).
  { intros n. unfold node. change (ptrs_per_blk f') with (ptrs_per_blk f).
    split; intros (p & Hp & E & Hn0); exists p; rewrite Hsl in * by done; done. }
  split_and!; [done | | | done | done].
  - split; [apply Hx | |].
    + change (ptrs_per_blk f') with (ptrs_per_blk f). intros p q Hp Hq. rewrite !Hsl by done. by apply (file_once _ _ Hx).
    + intros c Hc. apply Hn in Hc. destruct (file_used _ _ Hx c Hc). split; [by apply W3 | by rewrite W2].
  - intros t Ht. unfold Ext2Map.mapped. change (ptrs_per_blk f') with (ptrs_per_blk f).
    destruct (path _ t) as [p|] eqn:Ep; [|done]. apply Hsl. by apply (path_ok _ t); [apply ppb_pos|..].
Qed.

(** Storing bytes in the block of a sector. *)
Lemma block_stored f x sec sec_off cs data :
  fs_ok f -> file_ok f x -> 0 <= sec -> Ext2Map.mapped f x sec <> 0 -> disk f !! Ext2Map.mapped f x sec = Some data ->
  0 <= sec_off -> sec_off + Z.of_nat (length cs) <= bsize f -> bytes cs ->
  arr_blit data sec_off cs = Done (splice data (Z.to_nat sec_off) cs) /\
  stored f x (block_write f (Ext2Map.mapped f x sec) (splice data (Z.to_nat sec_off) cs)) x (sec * bsize f + sec_off) cs.
Proof.
  intros Hok Hx Hs Hne Hd H0 Hend Hcs. pose proof (bsize_range f Hok) as Hbs.
  destruct (block_shape f Hok _ _ Hd) as [Hl Hy]. rewrite <- (bs_ppb f Hok) in Hl.
  destruct (leaf_not_inner f x sec Hok Hx Hs Hne) as (_ & _ & _ & Hnode).
  split; [apply arr_blit_done; lia|]. set (data' := splice _ _ _).
  assert (Hl' : length data' = length data) by (apply length_splice; lia).
  destruct (leaf_write f x sec data' Hok Hx Hs Hne) as (W1 & W2 & Hm & Hn & W3); [lia | by apply bytes_splice|].
  set (b := Ext2Map.mapped f x sec) in *. set (f' := block_write f b data') in *.
  split; try done.
  - intros o Ho. unfold file_byte. change (bsize f') with (bsize f). assert (Hq : 0 <= o / bsize f) by (apply Z.div_pos; lia).
    rewrite Hm by done. pose proof (Z.div_mod o (bsize f) ltac:(lia)) as Hdm. pose proof (Z.mod_pos_bound o (bsize f) ltac:(lia)) as Hmb.
    destruct (decide (o / bsize f = sec)) as [Es|Es].
    + rewrite Es. fold b. destruct (Z.eqb_spec b 0); [done|]. simpl. rewrite lookup_insert_eq, Hd. simpl.
      unfold data'. rewrite lookup_splice by lia. rewrite Es in Hdm. repeat case_decide; try lia; try done.
      all: try (do 2 f_equal; lia).
    + assert (Hout : ~ (sec * bsize f + sec_off <= o < sec * bsize f + sec_off + Z.of_nat (length cs))).
      { intros Hin. apply Es. symmetry. apply (Z.div_unique_pos o (bsize f) sec (o - sec * bsize f)); lia. }
      rewrite decide_False by done. destruct (Z.eqb_spec (Ext2Map.mapped f x (o / bsize f)) 0); [done|].
      simpl. rewrite lookup_insert_ne; [done|]. intros E. apply Es. symmetry. by apply (mapped_once f x).
  - intros HT t Ht Hts. rewrite Hm by done. by apply HT.
  - intros n Hb' Hf Hn'. simpl. apply lookup_insert_ne. intros <-. done.
  - intros n Hn'. left. by apply Hn.
  - intros n [Hr Hu']. split; [done|]. by rewrite <- W3.
Qed.

(** At most one block is free. *)
Definition crowded (f : fs) : Prop := forall b c, free f b -> free f c -> b = c.

(** No file is too large for its pointers. *)
Lemma path_small f s : fs_ok f -> 0 <= s -> s * bsize f < 2 ^ 31 -> path (ptrs_per_blk f) s <> None.
Proof.
  intros Hok Hs Hlt. pose proof (bs_ppb f Hok) as Ep. pose proof (bsize_range f Hok) as Hb. set (ppb := ptrs_per_blk f) in *.
  assert (Hp : 256 <= ppb <= 1024) by lia. assert (Hs' : s < 2 ^ 21) by nia.
  assert (256 * 256 <= ppb * ppb) by nia. assert (256 * 256 * 256 <= ppb * ppb * ppb) by nia.
  unfold path, NDIRECT. ltbs; try done. lia.
Qed.

Lemma write_loop_spec m buf ret0 len fuel : forall f x sec sec_off have rest,
  fs_ok f -> file_ok f x -> 0 <= size (vfs x) < 2 ^ 31 ->
  0 <= have -> have + Z.of_nat (length rest) = len -> 0 <= sec -> 0 <= sec_off < bsize f ->
  (rest <> [] -> sec * bsize f + sec_off + Z.of_nat (length rest) <= size (vfs x)) ->
  0 <= ptr buf -> ptr buf + len < 2 ^ 32 -> readable m (user_buffer_index buf have) rest -> bytes rest ->
  Z.of_nat (length rest) < Z.of_nat fuel ->
  exists r f' x', write_loop f x m buf ret0 sec sec_off have len fuel = Done (inr r, f', x') /\
    ((r = (ret0, len) /\ stored f x f' x' (sec * bsize f + sec_off) rest) \/
     (exists k, r = (- ENOSPC, have + Z.of_nat k) /\ (k < length rest)%nat /\ crowded f' /\
        stored f x f' x' (sec * bsize f + sec_off) (take k rest))).
Proof.
  induction fuel as [|fuel IH]; intros f x sec sec_off have rest Hok Hx Hsz Hh Hlen Hsec Hso Hend Hp0 Hp1 Hrd Hby Hf; [lia|].
  cbn [write_loop]. destruct (Z.ltb_spec have len) as [Hlt|Hge].
  2: { assert (rest = []) as -> by (destruct rest; [done | simpl in *; lia]). exists (ret0, have), f, x. split; [done|].
       left. simpl in Hlen. rewrite Z.add_0_r in Hlen. subst. split; [done | by apply stored_nil]. }
  assert (Hne : rest <> []) by (intros ->; simpl in *; lia). specialize (Hend Hne).
  pose proof (bsize_range f Hok) as Hb.
  assert (Hpos : sec * bsize f + sec_off < size (vfs x)) by (destruct rest; [done | simpl in *; lia]).
  pose proof (known_below f x sec sec_off Hok Hsz Hsec (proj1 Hso) Hpos) as Hk.
  destruct (ext2_bmap_alloc_spec f x sec Hok Hx Hk) as (d & f1 & x1 & -> & Ha). obind.
  pose proof (alloc_stored f x sec d f1 x1 (sec * bsize f + sec_off) Hok Hx Hsec ltac:(lia) Ha) as S1.
  pose proof (al_result _ _ _ _ _ _ Ha) as Hres.
  destruct (Z.eqb_spec d SECTOR_INVALID) as [->|Hd].
  { exists (- ENOSPC, have), f1, x1. split; [done|]. right. exists 0%nat. rewrite Z.add_0_r. split; [done|].
    split; [destruct rest; [done | simpl; lia]|]. split; [|done].
    rewrite decide_True in Hres by done. destruct Hres as (_ & _ & [Hnone|?]); [|done].
    by apply (path_small f sec Hok Hsec) in Hnone; [|lia]. }
  rewrite decide_False in Hres by done. destruct Hres as (Em & _ & _).
  assert (Ebs : bsize f1 = bsize f) by (pose proof (al_layout _ _ _ _ _ _ Ha) as HL; by injection HL).
  rewrite Ebs. set (left := chunk (bsize f) sec_off (len - have)).
  assert (Hleft : 1 <= left <= len - have /\ sec_off + left <= bsize f /\ (left = len - have \/ sec_off + left = bsize f)).
  { unfold left, chunk. destruct (Z.ltb_spec (bsize f - sec_off) (len - have)); lia. }
  set (cs := take (Z.to_nat left) rest).
  assert (Hcs : Z.of_nat (length cs) = left) by (unfold cs; rewrite length_take; lia).
  rewrite <- (take_drop (Z.to_nat left) rest) in Hrd. fold cs in Hrd. apply readable_app in Hrd as [Hrd1 Hrd2].
  assert (Hmne : Ext2Map.mapped f1 x1 sec <> 0).
  { intros E0. rewrite E0 in Em. subst d. pose proof (al_result _ _ _ _ _ _ Ha) as Hres. rewrite decide_False in Hres by done.
    destruct Hres as (_ & Hnew & Hold). destruct (decide (Ext2Map.mapped f x sec = 0)) as [E1|E1].
    - destruct (Hnew E1) as [Hfr _]. destruct (ok_free _ (ok_alloc _ Hok) 0 Hfr) as (_ & ? & _). lia.
    - by destruct (Hold E1) as [? _]. }
  destruct (leaf_not_inner f1 x1 sec (st_ok _ _ _ _ _ _ S1) (st_file _ _ _ _ _ _ S1) Hsec Hmne) as (_ & (_ & _ & [data Hdata] & _) & _).
  unfold block_data. rewrite <- Em, Hdata. obind.
  rewrite <- Hcs. rewrite (user_memcpy_to_kernel_read m (user_buffer_index buf have) cs Hrd1) by (intros E; rewrite E in Hcs; simpl in Hcs; lia).
  destruct (block_stored f1 x1 sec sec_off cs data) as [-> S2];
    [apply S1 | apply S1 | done | done | done | lia | lia | by apply Forall_take |].
  obind. cbn [negb Z.eqb]. set (f2 := block_write f1 _ _) in *. rewrite Ebs in S2.
  assert (S12 : stored f x f2 x1 (sec * bsize f + sec_off) cs).
  { apply (stored_app f x f1 x1 f2 x1 _ [] cs S1). simpl. by rewrite Z.add_0_r. }
  assert (Hptr : ptr (user_buffer_index buf have) = ptr buf + have) by (simpl; apply u32_small; lia).
  assert (Hidx : user_buffer_index (user_buffer_index buf have) (Z.of_nat (length cs)) = user_buffer_index buf (have + Z.of_nat (length cs))).
  { unfold user_buffer_index at 1 3. rewrite Hptr. simpl. do 2 f_equal. lia. }
  rewrite Hidx in Hrd2. set (tl := drop (Z.to_nat left) rest) in *.
  assert (Htl : Z.of_nat (length tl) = len - have - left) by (unfold tl; rewrite length_drop; lia).
  assert (Erest : rest = cs ++ tl) by (symmetry; apply take_drop).
  destruct (IH f2 x1 (sec + 1) 0 (have + Z.of_nat (length cs)) tl) as (r & f3 & x3 & -> & Hr); try done; try lia.
  { apply S12. }
  { apply S12. }
  { rewrite (al_size _ _ _ _ _ _ Ha). done. }
  { change (bsize f2) with (bsize f1). lia. }
  { intros Htne. assert (1 <= Z.of_nat (length tl)) by (destruct tl; [done | simpl; lia]).
    change (bsize f2) with (bsize f1). rewrite Ebs, (al_size _ _ _ _ _ _ Ha). lia. }
  { by apply Forall_drop. }
  exists r, f3, x3. split; [done|]. change (bsize f2) with (bsize f1) in Hr. rewrite Ebs in Hr.
  assert (Hcat : forall ds, stored f2 x1 f3 x3 ((sec + 1) * bsize f + 0) ds -> (length ds <= length tl)%nat ->
    stored f x f3 x3 (sec * bsize f + sec_off) (cs ++ ds)).
  { intros ds S3 Hds. destruct (Z.eq_dec left (len - have)) as [El|El].
    - assert (ds = []) as -> by (destruct ds; [done | simpl in Hds; lia]).
      apply (stored_app f x f2 x1 f3 x3 _ cs []); [done|]. destruct S3 as [T1 T2 T3 T4 T5 T6 T7 T8 T9]. split; try done.
      intros o Ho. rewrite T5 by done. simpl. rewrite !decide_False by lia. done.
    - apply (stored_app f x f2 x1 f3 x3 _ cs ds); [done|].
      by replace (sec * bsize f + sec_off + Z.of_nat (length cs)) with ((sec + 1) * bsize f + 0) by lia. }
  destruct Hr as [[-> S3]|(k & -> & Hk' & Hfull & S3)].
  - left. split; [done|]. rewrite Erest. by apply Hcat.
  - right. exists (length cs + k)%nat. split; [f_equal; lia|]. split; [rewrite Erest, length_app; lia|]. split; [done|].
    rewrite Erest, take_app_add. apply Hcat; [done|]. rewrite length_take. lia.
Qed.

(** * Growing *)

(** A block size is a power of two. *)
Lemma bsize_pow f : fs_ok f -> exists k, 0 <= k <= 12 /\ bsize f = 2 ^ k.
Proof. intros Hok. destruct (geo_bs _ (ok_geo _ (ok_alloc _ Hok))) as [->|[->| ->]]; [exists 10 | exists 11 | exists 12]; lia. Qed.

(** The first block a truncation removes and the block of the old end. *)
Lemma truncate_range f n :
  fs_ok f -> 0 <= n -> n + 4096 <= 2 ^ 31 ->
  u32 (Z.quot (i32 (ALIGN_2 n (bsize f))) (bsize f)) = (n + bsize f - 1) / bsize f /\
  u32 (Z.quot (i32 (ALIGN_2_DOWN n (bsize f))) (bsize f)) = n / bsize f.
Proof.
  intros Hok Hn Hb. pose proof (bsize_range f Hok). destruct (bsize_pow f Hok) as (k & Hk & Ek).
  unfold ALIGN_2, ALIGN_2_DOWN. rewrite Ek in *. rewrite !align_land by lia. rewrite (u32_small (n + 2 ^ k - 1)) by lia.
  assert (Hq : forall v, 0 <= v < 2 ^ 31 -> u32 (Z.quot (i32 (v / 2 ^ k * 2 ^ k)) (2 ^ k)) = v / 2 ^ k).
  { intros v Hv. pose proof (Z.div_mod v (2 ^ k) ltac:(lia)). pose proof (Z.mod_pos_bound v (2 ^ k) ltac:(lia)).
    assert (0 <= v / 2 ^ k) by (apply Z.div_pos; lia). assert (v / 2 ^ k <= v) by nia.
    rewrite i32_small by lia. rewrite Z.quot_mul by lia. apply u32_small. lia. }
  split; apply Hq; lia.
Qed.

Lemma bmap_past_end f x s :
  fs_ok f -> file_ok f x -> 0 <= s -> Ext2Map.mapped f x s = 0 -> ext2_bmap f x s = Done SECTOR_INVALID.
Proof.
  intros Hok Hx Hs Hm. destruct (decide (sector_known f x s)) as [Hk|Hk].
  - rewrite (ext2_bmap_spec f x s Hok Hx Hk), Hm. done.
  - unfold sector_known in Hk. unfold ext2_bmap. destruct (Z.ltb_spec s NDIRECT); [exfalso; apply Hk; lia|].
    destruct (Z.ltb_spec (u32 (Z.quot (size (vfs x)) (block_size (sb f)))) s); [done|]. exfalso. apply Hk. lia.
Qed.

(** A file grows by its size alone. *)
Lemma ext2_inode_truncate_grow now f x n :
  fs_ok f -> file_ok f x -> tight f x -> 0 <= size (vfs x) < n -> n + 4096 <= 2 ^ 31 ->
  ext2_inode_truncate now f x n = Done (f, set_vfs (fun v => set_dirty (set_mtime now (set_size n v))) x).
Proof.
  intros Hok Hx HT Hsz Hn. pose proof (bsize_range f Hok) as Hb. unfold ext2_inode_truncate.
  rewrite (proj1 (truncate_range f n Hok ltac:(lia) Hn)), (proj2 (truncate_range f (size (vfs x)) Hok ltac:(lia) ltac:(lia))).
  destruct (Z.leb_spec ((n + bsize f - 1) / bsize f) (size (vfs x) / bsize f)) as [Hle|_].
  { exfalso. pose proof (Z.div_mod (n + bsize f - 1) (bsize f) ltac:(lia)). pose proof (Z.mod_pos_bound (n + bsize f - 1) (bsize f) ltac:(lia)).
    pose proof (Z.div_mod (size (vfs x)) (bsize f) ltac:(lia)). pose proof (Z.mod_pos_bound (size (vfs x)) (bsize f) ltac:(lia)). nia. }
  obind. unfold zero_tail. destruct (Z.ltb_spec (size (vfs x)) n); [|lia].
  rewrite u32_small by lia. rewrite (bmap_past_end f x _ Hok Hx) by (lia || (apply HT; nia)). obind. done.
Qed.

(** [fs_file_generic_write] sets the times of the inode last. *)
Lemma stored_meta f x f' x' h pos bs :
  meta (h (vfs x')) = meta (vfs x') -> stored f x f' x' pos bs -> stored f x f' (set_vfs h x') pos bs.
Proof.
  intros Eh [A1 A2 A3 A4 A5 A6 A7 A8 A9].
  split; [exact A1 | exact A2 | destruct A3; by split | simpl; congruence | exact A5 | | exact A7 | exact A8 | exact A9].
  intros HT t Ht Hts. apply (A6 HT t Ht). simpl in Hts. by rewrite (meta_size _ _ Eh) in Hts.
Qed.

(** [v] lets the same processes do the same as [w]. *)
Definition same_rights (v w : inode) : Prop :=
  uid v = uid w /\ gid v = gid w /\ Z.land (mode v) 0xF1FF = Z.land (mode w) 0xF1FF.

Lemma same_rights_trans u v w : same_rights u v -> same_rights v w -> same_rights u w.
Proof. unfold same_rights. intros (-> & -> & ->) (-> & -> & ->). done. Qed.

Lemma land_sub m n mask sub : Z.land mask sub = sub -> Z.land m mask = Z.land n mask -> Z.land m sub = Z.land n sub.
Proof. intros <- E. by rewrite !Z.land_assoc, E. Qed.

Lemma same_rights_type v w :
  same_rights v w -> S_ISREG (mode v) = S_ISREG (mode w) /\ S_ISDIR (mode v) = S_ISDIR (mode w).
Proof. intros (_ & _ & E). unfold S_ISREG, S_ISDIR. by rewrite (land_sub (mode v) (mode w) 0xF1FF S_IFMT). Qed.

Lemma same_rights_permission c v w access :
  same_rights v w -> check_permission c (access_of v) access = check_permission c (access_of w) access.
Proof.
  intros (Eu & Eg & E). unfold check_permission. cbn [i_mode i_uid i_gid access_of].
  by rewrite Eu, Eg, (land_sub (mode v) (mode w) 0xF1FF 0x1FF).
Qed.

Lemma meta_rights v w : meta v = meta w -> same_rights v w.
Proof. intros E. injection E as _ _ Em _ Eu Eg. unfold same_rights. by rewrite Em, Eu, Eg. Qed.

Lemma drop_set_ids_rights now c v : exists w, drop_set_ids now c v = (0, w) /\ size w = size v /\ same_rights w v.
Proof.
  destruct (drop_set_ids_spec now c v) as (w & E & Es & Em & Eu & Eg). exists w. split; [done|]. split; [done|].
  split_and!; [done | done|]. rewrite Em, <- Z.land_lor_distr_r, <- Z.land_assoc. done.
Qed.

Lemma stored_bytes f x f' x' pos bs :
  0 <= pos -> stored f x f' x' pos bs -> file_bytes f' x' pos (Z.of_nat (length bs)) = bs.
Proof.
  intros Hp H. apply list_eq. intros i. destruct (decide (i < length bs)%nat) as [Hi|Hi].
  - rewrite file_bytes_lookup by lia. rewrite (st_byte _ _ _ _ _ _ H), decide_True by lia.
    replace (Z.to_nat (pos + Z.of_nat i - pos)) with i by lia.
    destruct (lookup_lt_is_Some_2 bs i Hi) as [b ->]. done.
  - rewrite !(proj2 (lookup_ge_None _ _)); [done | lia | unfold file_bytes; rewrite length_fmap, length_seqZ; lia].
Qed.

(** Where a write goes. *)
Definition write_pos (filp : file) (x : ext2_inode) : Z :=
  if flag_test (f_flags filp) FILE_APPEND then size (vfs x) else f_offset filp.

(** The inode of the file was given the room a write needs. *)
Definition room (n : Z) (x : ext2_inode) (v : inode) : Prop :=
  size v = Z.max (size (vfs x)) n /\ same_rights v (vfs x).

Abbreviation with_inode v x := (set_vfs (fun _ => v) x).

Lemma file_ok_inode f x v : file_ok f x -> file_ok f (with_inode v x).
Proof. intros []. by split. Qed.

Lemma vfs_truncate_grow now c f x n :
  fs_ok f -> file_ok f x -> tight f x -> S_ISREG (mode (vfs x)) = true -> S_ISDIR (mode (vfs x)) = false ->
  check_permission c (access_of (vfs x)) W_OK = 0 -> 0 <= size (vfs x) < n -> n + 4096 <= 2 ^ 31 ->
  exists v, vfs_truncate now c f x n = Done (0, f, with_inode v x) /\ room n x v.
Proof.
  intros Hok Hx HT Hr Hd Hc Hsz Hn. unfold vfs_truncate. rewrite Hd, Hc, Hr. cbn [negb Z.eqb].
  destruct (drop_set_ids_rights now c (vfs x)) as (v & -> & Es & Hv). cbn [negb Z.eqb].
  rewrite (ext2_inode_truncate_grow now f (with_inode v x) n Hok).
  - obind. eexists. split; [reflexivity|]. split; [simpl; lia|]. exact Hv.
  - by apply file_ok_inode.
  - intros t Ht Hts. apply HT; [done|]. simpl in Hts. congruence.
  - simpl. lia.
  - done.
Qed.

(** What a write of [data] at [pos] may do. *)
Definition write_done (f : fs) (x : ext2_inode) (pos : Z) (data : list Z) (r : Z) (f' : fs) (x' : ext2_inode) (off' : Z) : Prop :=
  let len := Z.of_nat (length data) in
  exists v, room (pos + len) x v /\
    ((r = len /\ off' = pos + len /\ stored f (with_inode v x) f' x' pos data) \/
     (r = - ENOSPC /\ off' = pos /\ crowded f' /\ exists k, (k < length data)%nat /\ stored f (with_inode v x) f' x' pos (take k data))).

(** The position after the test for [FILE_APPEND]. *)
Lemma write_start x filp :
  S_ISDIR (mode (vfs x)) = false -> 0 <= size (vfs x) < 2 ^ 31 ->
  exists ret,
    (if flag_test (f_flags filp) FILE_APPEND then
       vfs_lseek filp x 0 SEEK_END
     else (0, filp)) = (ret, {| f_offset := write_pos filp x; f_flags := f_flags filp |}) /\
    0 <= ret /\ (ret = 0 \/ write_pos filp x = size (vfs x)).
Proof.
  intros Hdir Hsz. unfold write_pos. destruct (flag_test (f_flags filp) FILE_APPEND).
  - unfold vfs_lseek, fs_file_generic_lseek. rewrite Hdir. simpl. rewrite Z.add_0_r, i32_small by lia.
    destruct (Z.ltb_spec (size (vfs x)) 0); [lia|]. eexists. split; [done|]. lia.
  - exists 0. destruct filp. simpl in *. split; [done|]. lia.
Qed.

Lemma fs_file_generic_write_spec now c f x filp m buf data :
  fs_ok f -> file_ok f x -> tight f x -> 0 <= size (vfs x) -> 0 <= f_offset filp ->
  S_ISREG (mode (vfs x)) = true -> S_ISDIR (mode (vfs x)) = false ->
  flag_test (f_flags filp) FILE_WRITABLE = true -> check_permission c (access_of (vfs x)) W_OK = 0 ->
  let len := Z.of_nat (length data) in
  let pos := write_pos filp x in
  0 < len -> size (vfs x) + 4096 <= 2 ^ 31 -> pos + len + 4096 <= 2 ^ 31 -> readable m buf data -> bytes data ->
  exists r f' x' off', fs_file_generic_write now c f x filp m buf len =
      Done (r, f', x', {| f_offset := off'; f_flags := f_flags filp |}) /\ write_done f x pos data r f' x' off'.
Proof.
  intros Hok Hx HT Hsz Ho Hreg Hdir Hw Hc len pos Hl Hs Hend Hrd Hby. pose proof (bsize_range f Hok) as Hb.
  assert (Hp0 : 0 <= pos) by (unfold pos, write_pos; by destruct (flag_test (f_flags filp) FILE_APPEND)).
  unfold fs_file_generic_write. rewrite Hw. cbn [negb].
  destruct (write_start x filp Hdir ltac:(lia)) as (ret & -> & Hret & Hpos). fold pos in Hpos |- *. cbn [f_offset].
  destruct (Z.ltb_spec ret 0); [lia|]. rewrite (i32_small len), (i32_small (size (vfs x) - pos)), (i32_small (pos + len)) by lia.
  set (grown := if size (vfs x) - pos <? len then _ else _).
  assert (Hg : exists v, grown = Done (0, f, with_inode v x) /\ room (pos + len) x v).
  { unfold grown. destruct (Z.ltb_spec (size (vfs x) - pos) len).
    - apply vfs_truncate_grow; try done; lia.
    - exists (vfs x). assert (ret = 0) as -> by lia. split; [by destruct x|]. split; [lia | done]. }
  destruct Hg as (v & -> & Hv). obind. cbn [Z.eqb negb]. rewrite andb_false_r. rewrite Z.quot_div_nonneg by lia.
  pose proof (Z.div_mod pos (bsize f) ltac:(lia)). pose proof (Z.mod_pos_bound pos (bsize f) ltac:(lia)).
  destruct Hrd as [Hr1 Hr2 Hr3]. pose proof (proj1 Hv) as Ev.
  assert (Ei : user_buffer_index buf 0 = buf).
  { unfold user_buffer_index. rewrite Z.add_0_r, u32_small by lia. by destruct buf. }
  destruct (write_loop_spec m buf 0 len (S (Z.to_nat len)) f (with_inode v x) (pos / bsize f) (pos - pos / bsize f * bsize f) 0 data)
    as (r & f' & x' & -> & Hr); try done; try (simpl; lia).
  { by apply file_ok_inode. }
  { apply Z.div_pos; lia. }
  { by rewrite Ei. }
  replace (pos / bsize f * bsize f + (pos - pos / bsize f * bsize f)) with pos in Hr by lia.
  obind. destruct Hr as [[-> S]|(k & -> & Hk & Hfull & S)].
  - cbn [Z.eqb]. rewrite i32_small by lia. eexists _, _, _, _. split; [reflexivity|]. exists v. split; [done|].
    left. split; [done|]. split; [done|]. by apply stored_meta.
  - eexists _, _, _, _. split; [reflexivity|]. exists v. split; [done|]. right. split; [done|]. split; [done|]. split; [done|].
    exists k. split; [done|]. by apply stored_meta.
Qed.
