(* ===== verification/FileSeq.v ===== *)
(** A regular file of ext2 refines a sequence of bytes with a position: every
    sequence of write, read, pread, lseek and ftruncate calls on an open file
    returns what it would return on the plain sequence.  A write may instead
    report that the device is full, after it stored a part of its data, and only
    when at most one block is free.  The file also shows what the
    calls leave behind past the end of a file that is cut within a block. *)
From stdpp Require Import base numbers list gmap.
From Stdlib Require Import ZArith ZifyBool Lia.
From S2P Require Import Prelude UserMem Users.
From S2P Require Import Bits Endian Ext2 Ext2Alloc Ext2Map Ext2Demo Ext2Bmap Ext2Trunc Ext2Free Ext2Remove Vfs Ext2File.
Open Scope Z_scope.

(** * The calls *)

Inductive call : Type :=
| Write (buf : user_buffer) (data : list Z)
| Read (buf : user_buffer) (n : Z)
| Pread (buf : user_buffer) (n off : Z)
| Lseek (off whence : Z)
| Ftruncate (n : Z).

(** The state the calls act on: the file system, the inode, the open file and
    the memory of the process. *)
Record state : Type := { on : fs; inode_of : ext2_inode; filp : file; memory : gmap Z Z }.

Definition exec (now : Z) (c : credentials) (s : state) (k : call) : outcome (Z * state) :=
  match k with
  | Write buf data =>
      '(r, f, x, fp) ← vfs_write now c (on s) (inode_of s) (filp s) (memory s) buf (Z.of_nat (length data));
      Done (r, {| on := f; inode_of := x; filp := fp; memory := memory s |})
  | Read buf n =>
      '(r, m, x, fp) ← vfs_read now (on s) (inode_of s) (filp s) (memory s) buf n;
      Done (r, {| on := on s; inode_of := x; filp := fp; memory := m |})
  | Pread buf n off =>
      '(r, m, x) ← vfs_pread now (on s) (inode_of s) (filp s) (memory s) buf n off;
      Done (r, {| on := on s; inode_of := x; filp := filp s; memory := m |})
  | Lseek off whence =>
      let '(r, fp) := vfs_lseek (filp s) (inode_of s) off whence in
      Done (r, {| on := on s; inode_of := inode_of s; filp := fp; memory := memory s |})
  | Ftruncate n =>
      '(r, f, x) ← vfs_truncate now c (on s) (inode_of s) n;
      Done (r, {| on := f; inode_of := x; filp := filp s; memory := memory s |})
  end.

(** * Sequences of bytes *)

Record sequence : Type := { content : list Z; position : Z; mem : gmap Z Z }.

(** [d] stored at [pos], with zeros where nothing was. *)
Definition overwrite (l : list Z) (pos : Z) (d : list Z) : list Z :=
  resize (Z.to_nat pos) 0 l ++ d ++ drop (Z.to_nat pos + length d) l.

Definition substring (l : list Z) (pos n : Z) : list Z := take (Z.to_nat n) (drop (Z.to_nat pos) l).

Definition seek (a : sequence) (off whence : Z) : Z :=
  Z.max 0 (if whence =? SEEK_SET then off
           else if whence =? SEEK_END then Z.of_nat (length (content a)) + off else position a + off).

Definition target (append : bool) (a : sequence) : Z :=
  if append then Z.of_nat (length (content a)) else position a.

(** What a call may return and do; [full] tells whether the device is full. *)
Inductive does (append : bool) (full : Prop) (a : sequence) : call -> Z -> sequence -> Prop :=
| does_write buf d :
    let pos := target append a in
    does append full a (Write buf d) (Z.of_nat (length d))
      {| content := overwrite (content a) pos d; position := pos + Z.of_nat (length d); mem := mem a |}
| does_write_full buf d k :
    let pos := target append a in
    (k < length d)%nat -> full ->
    does append full a (Write buf d) (- ENOSPC)
      {| content := overwrite (resize (length (content a) `max` (Z.to_nat pos + length d)) 0 (content a)) pos (take k d);
         position := pos; mem := mem a |}
| does_read buf n m' :
    let d := substring (content a) (position a) n in
    written (mem a) m' (ptr buf) d ->
    does append full a (Read buf n) (Z.of_nat (length d))
      {| content := content a; position := position a + Z.of_nat (length d); mem := m' |}
| does_pread buf n off m' :
    let d := substring (content a) off n in
    written (mem a) m' (ptr buf) d ->
    does append full a (Pread buf n off) (Z.of_nat (length d))
      {| content := content a; position := position a; mem := m' |}
| does_lseek off whence :
    let p := seek a off whence in
    does append full a (Lseek off whence) p {| content := content a; position := p; mem := mem a |}
| does_ftruncate n :
    does append full a (Ftruncate n) 0
      {| content := resize (Z.to_nat n) 0 (content a); position := position a; mem := mem a |}.

(** The largest size of a file. *)
Definition SIZE_MAX : Z := 2 ^ 31 - 4096.

Definition buffer_ok (m : gmap Z Z) (buf : user_buffer) (n : Z) : Prop :=
  0 <= n /\ 0 <= ptr buf /\ ptr buf + n < 2 ^ 32 /\ (0 < n -> writable m buf n).

(** The calls the specification speaks about: the buffers are memory of the
    process, no position passes [SIZE_MAX], and a file is cut at the end of a
    block within its direct and single indirect blocks. *)
Definition allowed (append : bool) (bs : Z) (a : sequence) (k : call) : Prop :=
  match k with
  | Write buf d =>
      d <> [] /\ target append a + Z.of_nat (length d) <= SIZE_MAX /\ readable (mem a) buf d /\ bytes d
  | Read buf n => buffer_ok (mem a) buf n /\ position a + n < 2 ^ 31
  | Pread buf n off => buffer_ok (mem a) buf n /\ 0 <= off /\ off + n < 2 ^ 31
  | Lseek off whence => SEEK_SET <= whence <= SEEK_END /\ - 2 ^ 31 <= off < 2 ^ 31 /\ seek a off whence < 2 ^ 31
  | Ftruncate n =>
      Z.of_nat (length (content a)) < n <= SIZE_MAX \/
      0 <= n <= Z.of_nat (length (content a)) /\ n mod bs = 0 /\ n <= (NDIRECT + bs / 4) * bs
  end.

Fixpoint allowed_all (append : bool) (bs : Z) (a : sequence) (ks : list call) : Prop :=
  match ks with
  | [] => True
  | k :: ks => allowed append bs a k /\ forall r a', does append True a k r a' -> allowed_all append bs a' ks
  end.

(** * The relation *)

(** The bytes past the end of the file are zeros, where it has blocks. *)
Definition clean (f : fs) (x : ext2_inode) : Prop := forall o, size (vfs x) <= o -> file_byte f x o = 0.

Definition append_of (s : state) : bool := flag_test (f_flags (filp s)) FILE_APPEND.

Record implements (c : credentials) (s : state) (a : sequence) : Prop := {
  im_fs : fs_ok (on s);
  im_file : file_ok (on s) (inode_of s);
  im_tight : tight (on s) (inode_of s);
  im_clean : clean (on s) (inode_of s);
  im_size : 0 <= size (vfs (inode_of s)) <= SIZE_MAX;
  im_reg : S_ISREG (mode (vfs (inode_of s))) = true;
  im_access : check_permission c (access_of (vfs (inode_of s))) W_OK = 0;
  im_readable : flag_test (f_flags (filp s)) FILE_READABLE = true;
  im_writable : flag_test (f_flags (filp s)) FILE_WRITABLE = true;
  im_content : content a = file_bytes (on s) (inode_of s) 0 (size (vfs (inode_of s)));
  im_position : position a = f_offset (filp s) /\ 0 <= position a < 2 ^ 31;
  im_mem : mem a = memory s;
}.

(** The calls run, and each of them does on the file what it does on the
    sequence. *)
Inductive follows (now : Z) (c : credentials) : state -> sequence -> list call -> Prop :=
| follows_nil s a : implements c s a -> follows now c s a []
| follows_cons s a k ks r s' a' :
    implements c s a -> exec now c s k = Done (r, s') -> does (append_of s) (crowded (on s')) a k r a' ->
    follows now c s' a' ks -> follows now c s a (k :: ks).

(** * Bytes by position *)

(** The byte at position [o]; zero past the end. *)
Definition at_pos (l : list Z) (o : Z) : Z := default 0 (l !! Z.to_nat o).

Lemma at_pos_ext l k :
  length l = length k -> (forall o, 0 <= o < Z.of_nat (length l) -> at_pos l o = at_pos k o) -> l = k.
Proof.
  intros Hl H. apply list_eq_same_length with (n := length l); [done | done|]. intros i y z Hi Hy Hz.
  specialize (H (Z.of_nat i) ltac:(lia)). unfold at_pos in H. rewrite Nat2Z.id, Hy, Hz in H. done.
Qed.

Lemma at_pos_resize l n o : 0 <= o -> at_pos (resize n 0 l) o = if decide (o < Z.of_nat n) then at_pos l o else 0.
Proof.
  intros Ho. unfold at_pos. case_decide as Hn.
  - destruct (decide (o < Z.of_nat (length l))).
    + rewrite lookup_resize by lia. done.
    + rewrite lookup_resize_new, (lookup_ge_None_2 l) by lia. done.
  - rewrite lookup_resize_old by lia. done.
Qed.

Lemma length_overwrite l pos d : length (overwrite l pos d) = (length l `max` (Z.to_nat pos + length d))%nat.
Proof. unfold overwrite. rewrite !length_app, length_resize, length_drop. lia. Qed.

Lemma at_pos_overwrite l pos d o :
  0 <= pos -> 0 <= o ->
  at_pos (overwrite l pos d) o = if decide (pos <= o < pos + Z.of_nat (length d)) then at_pos d (o - pos) else at_pos l o.
Proof.
  intros Hp Ho. unfold overwrite. case_decide as Hin; unfold at_pos at 1.
  - rewrite lookup_app_r by (rewrite length_resize; lia). rewrite length_resize, lookup_app_l by lia.
    unfold at_pos. do 2 f_equal. lia.
  - destruct (decide (o < pos)).
    + rewrite lookup_app_l by (rewrite length_resize; lia). change (at_pos (resize (Z.to_nat pos) 0 l) o = at_pos l o).
      rewrite at_pos_resize by done. rewrite decide_True by lia. done.
    + rewrite !lookup_app_r by (rewrite ?length_resize; lia). rewrite lookup_drop, length_resize.
      unfold at_pos. do 2 f_equal. lia.
Qed.

Lemma at_pos_file_bytes f x n o : 0 <= o -> at_pos (file_bytes f x 0 n) o = if decide (o < n) then file_byte f x o else 0.
Proof.
  intros Ho. unfold at_pos. case_decide.
  - rewrite file_bytes_lookup by lia. simpl. f_equal. lia.
  - rewrite lookup_ge_None_2; [done|]. unfold file_bytes. rewrite length_fmap, length_seqZ. lia.
Qed.

(** The file holds [l] and nothing past it. *)
Lemma holds_iff f x l :
  0 <= size (vfs x) ->
  l = file_bytes f x 0 (size (vfs x)) /\ clean f x <->
  Z.of_nat (length l) = size (vfs x) /\ forall o, 0 <= o -> file_byte f x o = at_pos l o.
Proof.
  intros Hs. split.
  - intros [-> Hc]. split; [by apply length_file_bytes|]. intros o Ho. rewrite at_pos_file_bytes by done.
    case_decide; [done|]. apply Hc. lia.
  - intros [Hl Hb]. split.
    + apply at_pos_ext; [pose proof (length_file_bytes f x 0 (size (vfs x)) Hs); lia|].
      intros o Ho. rewrite at_pos_file_bytes, <- Hb, decide_True by lia. done.
    + intros o Ho. rewrite Hb by lia. unfold at_pos. by rewrite lookup_ge_None_2 by lia.
Qed.

(** The bytes a read returns. *)
Lemma substring_file_bytes f x l off n :
  Z.of_nat (length l) = size (vfs x) -> (forall o, 0 <= o -> file_byte f x o = at_pos l o) -> 0 <= off -> 0 <= n ->
  file_bytes f x off (Z.max 0 (Z.min n (size (vfs x) - off))) = substring l off n.
Proof.
  intros Hl Hb Ho Hn. assert (Hlen : length (file_bytes f x off (Z.max 0 (Z.min n (size (vfs x) - off)))) = length (substring l off n)).
  { unfold substring. rewrite length_take, length_drop. apply Nat2Z.inj. rewrite length_file_bytes by lia. lia. }
  apply at_pos_ext; [done|]. rewrite length_file_bytes by lia. intros o Ho'. unfold at_pos at 1. rewrite file_bytes_lookup by lia.
  simpl. rewrite Hb by lia. unfold at_pos, substring. rewrite lookup_take_lt, lookup_drop by lia. do 2 f_equal. lia.
Qed.

(** A file cut at the end of a block loses the bytes past it. *)
Lemma ext2_inode_truncate_cut now f x n :
  fs_ok f -> file_ok f x -> 0 <= n <= size (vfs x) -> size (vfs x) <= SIZE_MAX -> n mod bsize f = 0 ->
  n <= (NDIRECT + bsize f / 4) * bsize f ->
  exists f' x', ext2_inode_truncate now f x n = Done (f', x') /\ fs_ok f' /\ file_ok f' x' /\ tight f' x' /\
    size (vfs x') = n /\ same_rights (vfs x') (vfs x) /\ bsize f' = bsize f /\
    forall o, 0 <= o -> file_byte f' x' o = if decide (o < n) then file_byte f x o else 0.
Proof.
  intros Hok Hx Hn Hs Hmod Hfits. pose proof (bsize_range f Hok) as Hb. unfold SIZE_MAX in Hs.
  pose proof (Z.div_mod n (bsize f) ltac:(lia)) as Hdm. rewrite Hmod, Z.add_0_r in Hdm. set (k := n / bsize f) in *.
  assert (Hk : 0 <= k) by (apply Z.div_pos; lia). pose proof (bs_ppb f Hok) as Ep.
  assert (Ek : (n + bsize f - 1) / bsize f = k) by (symmetry; apply (Z.div_unique_pos _ _ _ (bsize f - 1)); lia).
  unfold ext2_inode_truncate.
  rewrite (proj1 (truncate_range f n Hok ltac:(lia) ltac:(lia))), (proj2 (truncate_range f (size (vfs x)) Hok ltac:(lia) ltac:(lia))), Ek.
  destruct (Z.leb_spec k (size (vfs x) / bsize f)) as [_|Hlt].
  2: { exfalso. assert (k <= size (vfs x) / bsize f); [|lia]. apply Z.div_le_mono; lia. }
  assert (Hal : aligned (ptrs_per_blk f) k).
  { assert (Hr : k <= NDIRECT + ptrs_per_blk f).
    { replace (bsize f / 4) with (ptrs_per_blk f) in Hfits by (rewrite Ep, Z.mul_comm, Z.div_mul; lia). nia. }
    unfold aligned, region, NDIRECT, SINGLE, DOUBLE, TRIPLE in *. split; [nia|]. intros j Hj.
    destruct (Z.eqb_spec j 12); [lia|]. destruct (Z.eqb_spec j 13); nia. }
  destruct (truncate_remove_sectors f x k Hok Hx Hal) as (f' & x1 & -> & Hok' & Hx1 & HL & Hsame & Hm & _ & Hkept). obind.
  assert (Ebs : bsize f' = bsize f) by (by injection HL). pose proof (same_meta _ _ Hsame) as Em.
  unfold zero_tail. rewrite (meta_size _ _ Em). destruct (Z.ltb_spec (size (vfs x)) n); [lia|]. obind.
  eexists _, _. split; [done|]. split; [done|]. split; [by apply (file_ok_inode f' x1)|]. split_and!.
  - intros t Ht Hts. transitivity (Ext2Map.mapped f' x1 t); [done|]. rewrite Hm by done.
    simpl in Hts. rewrite Ebs in Hts. destruct (Z.ltb_spec t k); [nia | done].
  - done.
  - by apply (meta_rights (vfs x1)).
  - done.
  - intros o Ho. transitivity (file_byte f' x1 o); [done|]. unfold file_byte. rewrite Ebs.
    assert (Hq : 0 <= o / bsize f) by (apply Z.div_pos; lia). rewrite Hm by done.
    destruct (Z.ltb_spec (o / bsize f) k) as [Hlt|Hge].
    2: { rewrite decide_False; [done|]. pose proof (Z.mul_div_le o (bsize f) ltac:(lia)).
         pose proof (Z.mul_le_mono_nonneg_l k (o / bsize f) (bsize f) ltac:(lia) Hge). lia. }
    rewrite decide_True.
    2: { destruct (Z.lt_ge_cases o n) as [|Hon]; [done|]. exfalso. apply (Z.div_le_mono _ _ (bsize f)) in Hon; [|lia]. fold k in Hon. lia. }
    destruct (Z.eqb_spec (Ext2Map.mapped f x (o / bsize f)) 0); [done|]. by rewrite Hkept by (done || lia).
Qed.

(** * The simulation *)

Lemma does_weaken append (full full' : Prop) a k r a' : (full -> full') -> does append full a k r a' -> does append full' a k r a'.
Proof. intros Hf H. destruct H; constructor; auto. Qed.

Lemma reg_not_dir m : S_ISREG m = true -> S_ISDIR m = false.
Proof. unfold S_ISREG, S_ISDIR. intros ->%Z.eqb_eq. done. Qed.

Section Sim.
Context (now : Z) (c : credentials) (s : state) (a : sequence) (Him : implements c s a).

Let f := on s.
Let x := inode_of s.

Lemma im_holds : Z.of_nat (length (content a)) = size (vfs x) /\ forall o, 0 <= o -> file_byte f x o = at_pos (content a) o.
Proof using Him. apply holds_iff; [apply (im_size _ _ _ Him)|]. split; [apply (im_content _ _ _ Him) | apply (im_clean _ _ _ Him)]. Qed.

Lemma tight_inode v : size v = size (vfs x) -> tight f (with_inode v x).
Proof using Him. intros E t Ht Hts. apply (im_tight _ _ _ Him t Ht). simpl in Hts. by rewrite E in Hts. Qed.

(** The state after a call. *)
Definition reached (s' : state) (a' : sequence) : Prop :=
  implements c s' a' /\ append_of s' = append_of s /\ bsize (on s') = bsize (on s).

(** A state that differs in the places a call may change. *)
Lemma reached_intro f' x' fp m l :
  fs_ok f' -> bsize f' = bsize f -> file_ok f' x' -> tight f' x' -> 0 <= size (vfs x') <= SIZE_MAX -> same_rights (vfs x') (vfs x) ->
  f_flags fp = f_flags (filp s) -> 0 <= f_offset fp < 2 ^ 31 ->
  Z.of_nat (length l) = size (vfs x') -> (forall o, 0 <= o -> file_byte f' x' o = at_pos l o) ->
  reached {| on := f'; inode_of := x'; filp := fp; memory := m |}
    {| content := l; position := f_offset fp; mem := m |}.
Proof using Him.
  intros Hok Ebs Hx HT Hs Hr Hf Hp Hl Hb. split; [|by unfold append_of; simpl; rewrite Hf].
  destruct (proj2 (holds_iff f' x' l (proj1 Hs)) (conj Hl Hb)) as [Hc1 Hc2].
  destruct (same_rights_type _ _ Hr) as [R1 _].
  split; cbn [on inode_of filp memory content position mem]; rewrite ?Hf, ?R1, ?(same_rights_permission c _ _ _ Hr); try done; apply Him.
Qed.

Lemma stored_reached v f' x' pos bs fp m N :
  size v = Z.of_nat N -> same_rights v (vfs x) -> Z.of_nat N <= SIZE_MAX -> (length (content a) <= N)%nat ->
  0 <= pos -> pos + Z.of_nat (length bs) <= Z.of_nat N ->
  stored f (with_inode v x) f' x' pos bs -> f_flags fp = f_flags (filp s) -> 0 <= f_offset fp < 2 ^ 31 ->
  reached {| on := f'; inode_of := x'; filp := fp; memory := m |}
    {| content := overwrite (resize N 0 (content a)) pos bs; position := f_offset fp; mem := m |}.
Proof using Him.
  intros Ev Hv HN Hc Hp Hend S Hf Hpos. destruct im_holds as [Hl Hb]. pose proof (st_meta _ _ _ _ _ _ S) as Hm. simpl in Hm.
  assert (HT : tight f (with_inode v x)).
  { intros t Ht Hts. apply (im_tight _ _ _ Him t Ht). simpl in Hts. fold x f. lia. }
  apply reached_intro; try done; try apply S; try done.
  - pose proof (st_layout _ _ _ _ _ _ S) as HL. by injection HL.
  - rewrite (meta_size _ _ Hm). lia.
  - eapply same_rights_trans; [by apply meta_rights | done].
  - rewrite length_overwrite, length_resize, (meta_size _ _ Hm). lia.
  - intros o Ho. rewrite (st_byte _ _ _ _ _ _ S o Ho), at_pos_overwrite, at_pos_resize by done. case_decide; [done|].
    transitivity (file_byte f x o); [done|]. rewrite Hb by done. case_decide; [done|].
    unfold at_pos. by rewrite lookup_ge_None_2 by lia.
Qed.

Lemma overwrite_resize l pos d N :
  0 <= pos -> d <> [] -> N = (length l `max` (Z.to_nat pos + length d))%nat -> overwrite (resize N 0 l) pos d = overwrite l pos d.
Proof using.
  intros Hp Hd ->. apply at_pos_ext; [rewrite !length_overwrite, length_resize; lia|].
  intros o Ho. rewrite !at_pos_overwrite, at_pos_resize by lia. repeat case_decide; try done.
  unfold at_pos. by rewrite lookup_ge_None_2 by lia.
Qed.

Lemma sim_write buf d :
  allowed (append_of s) (bsize f) a (Write buf d) ->
  exists r s' a', exec now c s (Write buf d) = Done (r, s') /\
    does (append_of s) (crowded (on s')) a (Write buf d) r a' /\ reached s' a'.
Proof using Him.
  intros (Hd & Hend & Hrd & Hby). destruct im_holds as [Hl Hb]. destruct (im_position _ _ _ Him) as [Epos Hpos].
  pose proof (im_size _ _ _ Him) as Hsz. unfold SIZE_MAX in *. fold x in Hsz.
  assert (Hlen : 0 < Z.of_nat (length d)) by (destruct d; [done | simpl; lia]).
  unfold exec, vfs_write. rewrite (reg_not_dir _ (im_reg _ _ _ Him)), (im_reg _ _ _ Him).
  fold f x. destruct (drop_set_ids_rights now c (vfs x)) as (w & -> & Ew & Hw). cbn [negb Z.eqb].
  destruct (same_rights_type _ _ Hw) as [Rr Rd].
  assert (Et : write_pos (filp s) (with_inode w x) = target (append_of s) a).
  { unfold write_pos, target. fold (append_of s). destruct (append_of s); [simpl; lia | done]. }
  destruct (fs_file_generic_write_spec now c f (with_inode w x) (filp s) (memory s) buf d) as (r & f' & x' & off' & -> & v & [Ev Hv] & Hr).
  all: try (rewrite Et; lia); try (simpl; lia).
  { apply Him. } { apply file_ok_inode, Him. } { by apply tight_inode. }
  { simpl. rewrite Rr. apply Him. } { simpl. rewrite Rd. apply reg_not_dir, Him. } { apply Him. }
  { simpl. rewrite (same_rights_permission c _ _ _ Hw). apply Him. }
  { by rewrite <- (im_mem _ _ _ Him). } { done. }
  rewrite Et in *. obind. set (pos := target (append_of s) a) in *.
  assert (Hp0 : 0 <= pos) by (unfold pos, target; destruct (append_of s); lia).
  set (N := (length (content a) `max` (Z.to_nat pos + length d))%nat).
  assert (EN : size v = Z.of_nat N) by (simpl in Ev; lia).
  assert (Hv' : same_rights v (vfs x)) by (eapply same_rights_trans; [exact Hv | exact Hw]).
  set (fp := {| f_offset := off'; f_flags := f_flags (filp s) |}). assert (HN : Z.of_nat N <= SIZE_MAX) by (unfold SIZE_MAX; lia).
  destruct Hr as [(-> & Eo & S)|(-> & Eo & Hfull & k & Hk & S)]; subst off'.
  - eexists _, _, _. split; [done|]. split; [apply does_write|]. fold pos. rewrite (im_mem _ _ _ Him).
    rewrite <- (overwrite_resize _ _ _ N) by done. by apply (stored_reached v f' x' pos d fp); simpl; try lia.
  - eexists _, _, _. split; [done|]. split; [by apply (does_write_full _ _ _ _ _ k)|]. fold pos. rewrite (im_mem _ _ _ Him).
    by apply (stored_reached v f' x' pos (take k d) fp); simpl; rewrite ?length_take; try lia.
Qed.

Lemma sim_pread m' x' fp :
  meta (vfs x') = meta (vfs x) -> blk_ptrs x' = blk_ptrs x -> f_flags fp = f_flags (filp s) -> 0 <= f_offset fp < 2 ^ 31 ->
  reached {| on := f; inode_of := x'; filp := fp; memory := m' |}
    {| content := content a; position := f_offset fp; mem := m' |}.
Proof using Him.
  intros Em Ep Hf Hp. destruct im_holds as [Hl Hb]. pose proof (meta_size _ _ Em) as Es.
  assert (Esl : forall p, slot f x' p = slot f x p) by (intros [|k q]; simpl; by rewrite ?Ep).
  assert (Ema : forall t, Ext2Map.mapped f x' t = Ext2Map.mapped f x t)
    by (intros t; unfold Ext2Map.mapped; destruct (path _ t); [apply Esl | done]).
  apply reached_intro; try done; try apply Him.
  - destruct (im_file _ _ _ Him) as [H1 H2 H3]. fold f x in H1, H2, H3. split; [by rewrite Ep | |].
    + intros p q. rewrite !Esl. apply H2.
    + intros b (p & Hp' & E & Hne). apply H3. exists p. by rewrite <- Esl.
  - intros t Ht Hts. rewrite Ema. apply (im_tight _ _ _ Him t Ht). by rewrite Es in Hts.
  - rewrite Es. apply Him.
  - by apply meta_rights.
  - by rewrite Es.
  - intros o Ho. rewrite <- Hb by done. unfold file_byte. by rewrite Ema.
Qed.

Lemma pread_substring buf n off :
  buffer_ok (memory s) buf n -> 0 <= off -> off + n < 2 ^ 31 ->
  let d := substring (content a) off n in
  exists m', fs_file_generic_pread now f x (filp s) (memory s) buf n off =
      Done (Z.of_nat (length d), m', set_vfs (fun v => set_dirty (set_atime now v)) x) /\
    written (memory s) m' (ptr buf) d /\ Z.of_nat (length d) <= n.
Proof using Him.
  intros (Hn & Hp0 & Hp1 & Hw) Ho Hend d. destruct im_holds as [Hl Hb]. pose proof (im_size _ _ _ Him) as Hsz.
  unfold SIZE_MAX in Hsz. fold x in Hsz.
  destruct (fs_file_generic_pread_spec f x (im_fs _ _ _ Him) (im_file _ _ _ Him) ltac:(lia) now (filp s) (memory s) buf n off
    (im_readable _ _ _ Him) Ho Hn Hend Hp0 Hp1 Hw) as (m' & E & Hwr).
  rewrite (substring_file_bytes f x (content a) off n Hl Hb Ho Hn) in Hwr. fold d in Hwr.
  assert (Ed : Z.of_nat (length d) = Z.max 0 (Z.min n (size (vfs x) - off))).
  { unfold d, substring. rewrite length_take, length_drop. lia. }
  exists m'. rewrite Ed. split; [done|]. split; [done|]. lia.
Qed.

Lemma sim_reads k :
  match k with Read _ _ | Pread _ _ _ | Lseek _ _ => True | _ => False end -> allowed (append_of s) (bsize f) a k ->
  exists r s' a', exec now c s k = Done (r, s') /\ does (append_of s) (crowded (on s')) a k r a' /\ reached s' a'.
Proof using Him.
  intros Hk Ha. destruct (im_position _ _ _ Him) as [Epos Hpos]. destruct im_holds as [Hl Hb].
  pose proof (reg_not_dir _ (im_reg _ _ _ Him)) as Hdir. pose proof (im_size _ _ _ Him) as Hsz. unfold SIZE_MAX in Hsz.
  fold x in Hdir, Hsz. pose proof (im_mem _ _ _ Him) as Em.
  destruct k as [| buf n | buf n off | off whence |]; try done; clear Hk; cbn [allowed exec] in *; fold f x.
  - destruct Ha as [Hbuf Hend]. unfold vfs_read, fs_file_generic_read. rewrite Hdir, <- Epos. rewrite Em in Hbuf.
    destruct (pread_substring buf n (position a) Hbuf) as (m' & -> & Hw & Hle); [lia | lia |]. obind.
    set (d := substring (content a) (position a) n) in *. destruct (Z.ltb_spec (Z.of_nat (length d)) 0); [lia|]. obind.
    rewrite i32_small by lia. eexists _, _, _. split; [done|]. split; [apply (does_read _ _ _ _ _ m'); by rewrite Em|].
    by apply (sim_pread m' _ {| f_offset := position a + Z.of_nat (length d); f_flags := f_flags (filp s) |}); simpl; try lia.
  - destruct Ha as (Hbuf & Ho & Hend). unfold vfs_pread. rewrite Hdir. rewrite Em in Hbuf.
    destruct (pread_substring buf n off Hbuf Ho Hend) as (m' & -> & Hw & Hle). obind.
    eexists _, _, _. split; [done|]. split; [apply (does_pread _ _ _ _ _ _ m'); by rewrite Em|]. rewrite Epos.
    apply sim_pread; try done; lia.
  - destruct Ha as (Hwh & Hoff & Hend). unfold vfs_lseek. rewrite Hdir. unfold fs_file_generic_lseek.
    unfold SEEK_SET, SEEK_CUR, SEEK_END in *. fold x.
    assert (Hwh' : (whence =? 0) || (whence =? 2) || (whence =? 1) = true) by lia. rewrite Hwh'.
    set (o := if whence =? 0 then off else if whence =? 2 then i32 (size (vfs x) + off) else i32 (f_offset (filp s) + off)).
    assert (Eo : (if o <? 0 then 0 else o) = seek a off whence).
    { unfold o, seek in *. unfold SEEK_SET, SEEK_END in *. rewrite Hl, Epos in *.
      destruct (whence =? 0); [|destruct (whence =? 2)]; rewrite ?i32_small by lia;
        match goal with |- context [?u <? 0] => destruct (Z.ltb_spec u 0) end; lia. }
    rewrite Eo. eexists _, _, _. split; [done|]. split; [apply does_lseek|]. rewrite Em.
    apply (sim_pread (memory s) x {| f_offset := seek a off whence; f_flags := f_flags (filp s) |}); try done.
    simpl. split; [unfold seek; lia | done].
Qed.

Lemma vfs_truncate_open n :
  exists w, size w = size (vfs x) /\ same_rights w (vfs x) /\ file_ok f (with_inode w x) /\ tight f (with_inode w x) /\
    vfs_truncate now c f x n = '(f, x) ← ext2_inode_truncate now f (with_inode w x) n; Done (0, f, x).
Proof using Him.
  destruct (drop_set_ids_rights now c (vfs x)) as (w & Ew & Es & Hw). exists w.
  split_and!; [done | done | apply file_ok_inode, Him | by apply tight_inode |].
  unfold vfs_truncate. pose proof (im_reg _ _ _ Him) as Hr. pose proof (im_access _ _ _ Him) as Ha. fold x in Hr, Ha.
  by rewrite (reg_not_dir _ Hr), Ha, Hr, Ew.
Qed.

Lemma sim_ftruncate n :
  allowed (append_of s) (bsize f) a (Ftruncate n) ->
  exists r s' a', exec now c s (Ftruncate n) = Done (r, s') /\
    does (append_of s) (crowded (on s')) a (Ftruncate n) r a' /\ reached s' a'.
Proof using Him.
  intros Ha. destruct (im_position _ _ _ Him) as [Epos Hpos]. destruct im_holds as [Hl Hb].
  pose proof (im_size _ _ _ Him) as Hsz. fold x in Hsz.
  destruct (vfs_truncate_open n) as (w & Es & Hw & Hx & HT & Et). unfold exec. fold f x. rewrite Et. clear Et.
  assert (Hend : forall f' x', fs_ok f' -> bsize f' = bsize f -> file_ok f' x' -> tight f' x' -> size (vfs x') = n -> 0 <= n <= SIZE_MAX ->
    same_rights (vfs x') (vfs x) -> (forall o, 0 <= o -> file_byte f' x' o = if decide (o < n) then file_byte f x o else 0) ->
    reached {| on := f'; inode_of := x'; filp := filp s; memory := memory s |}
      {| content := resize (Z.to_nat n) 0 (content a); position := f_offset (filp s); mem := memory s |}).
  { intros f' x' A1 A0 A2 A3 A4 A5 A6 A7. apply reached_intro; try done; [by rewrite A4 | lia | rewrite length_resize; lia |].
    intros o Ho. rewrite A7, at_pos_resize, Hb by done. by replace (Z.of_nat (Z.to_nat n)) with n by lia. }
  destruct Ha as [Hgrow|(Hn & Hmod & Hfits)].
  - rewrite ext2_inode_truncate_grow; try done; [|apply Him | simpl; lia | unfold SIZE_MAX in *; lia]. obind.
    eexists _, _, _. split; [done|]. split; [apply does_ftruncate|]. rewrite Epos, (im_mem _ _ _ Him).
    apply Hend; try done; [apply Him | by apply (file_ok_inode f x), Him | | lia |].
    + intros t Ht Hts. apply (HT t Ht). simpl in Hts |- *. lia.
    + intros o Ho. transitivity (file_byte f x o); [done|]. case_decide; [done|].
      apply (im_clean _ _ _ Him). fold x. lia.
  - destruct (ext2_inode_truncate_cut now f (with_inode w x) n (im_fs _ _ _ Him) Hx) as (f' & x' & -> & A1 & A2 & A3 & A4 & A5 & A6 & A7);
      [simpl; lia | simpl; lia | done | done |].
    obind. eexists _, _, _. split; [done|]. split; [apply does_ftruncate|]. rewrite Epos, (im_mem _ _ _ Him).
    apply Hend; try done; [lia|]. by eapply same_rights_trans.
Qed.

Lemma sim_call k :
  allowed (append_of s) (bsize f) a k ->
  exists r s' a', exec now c s k = Done (r, s') /\ does (append_of s) (crowded (on s')) a k r a' /\ reached s' a'.
Proof using Him.
  intros Ha. destruct k; [by apply sim_write | by apply sim_reads | by apply sim_reads | by apply sim_reads | by apply sim_ftruncate].
Qed.
End Sim.

(** C3: a regular file of ext2 refines a sequence of bytes.  A sequence of write,
    read, pread, lseek and ftruncate calls on it runs without a fault, and each call
    returns and leaves behind what it returns and leaves behind on the sequence:
    reads return the bytes last written at their position, writes past the end leave
    zeros before them, a write on a file opened to append goes to the end, and a
    failing write happens only with at most one free block and has stored a prefix
    of its data.  The calls are those that [allowed] lists: a write has at least one
    byte and its buffer can be read, the buffer of a read can be written, no position
    passes 2^31, lseek names one of its three origins, and ftruncate extends the
    file or cuts it at the end of a block no further than its single indirect
    block.  Cuts elsewhere are left out because there the code exposes old bytes
    ([truncate_exposes_stale]) or drops blocks it should keep.  The caller may write
    the file, and the block cache drops no block that is filled but not written. *)
Theorem file_refines_sequence now c ks s a :
  implements c s a -> allowed_all (append_of s) (bsize (on s)) a ks -> follows now c s a ks.
Proof.
  intros Him Hall. revert s a Him Hall. induction ks as [|k ks IH]; intros s a Him Hall; [by apply follows_nil|].
  destruct Hall as [Hk Hall]. destruct (sim_call now c s a Him k Hk) as (r & s' & a' & E & Hd & Him' & Ea & Eb).
  apply (follows_cons now c s a k ks r s' a'); try done. apply IH; [done|].
  rewrite Ea, Eb.
  apply (Hall r a'). by apply (does_weaken _ (crowded (on s'))).
Qed.

(** A user that may write to any file. *)
Definition demo_root : credentials := credentials_init.
Definition demo_buf : user_buffer := {| ptr := 4096; is_user := true |}.
Definition demo_state : state := {|
  on := demo; inode_of := demo_empty; filp := {| f_offset := 0; f_flags := 3 |};
  memory := <[4096 := 65]> (<[4097 := 66]> ∅) |}.
Definition demo_sequence : sequence := {| content := []; position := 0; mem := memory demo_state |}.

Lemma demo_implements : implements demo_root demo_state demo_sequence.
Proof.
  assert (Hm : forall t, Ext2Map.mapped demo demo_empty t = 0).
  { intros t. unfold Ext2Map.mapped. destruct (path _ t); [apply demo_empty_slot | done]. }
  split; try done; [apply demo_ok | apply demo_empty_ok | | ].
  - intros t _ _. apply Hm.
  - intros o Ho. unfold file_byte. cbn [on inode_of demo_state]. by rewrite Hm.
Qed.

Lemma demo_readable m : m !! 4096 = Some 65 -> m !! 4097 = Some 66 -> readable m demo_buf [65; 66].
Proof.
  intros H1 H2. split; [simpl; lia | intros _; unfold KMEM_KBASE; simpl; lia |].
  intros [|[|i]] Hi; simpl in *; [done | done | lia].
Qed.

Lemma demo_buffer m n : 0 <= n <= 2 -> m !! 4096 = Some 65 -> m !! 4097 = Some 66 -> buffer_ok m demo_buf n.
Proof.
  intros Hn H1 H2. split_and!; [lia | simpl; lia | simpl; lia|]. intros Hn0. split; [unfold range_ok; simpl; lia | intros _; unfold KMEM_KBASE; simpl; lia |].
  intros a Ha. simpl in Ha. assert (a = 4096 \/ a = 4097) as [->| ->] by lia; by eexists.
Qed.

Lemma file_refines_sequence_witness :
  follows 0 demo_root demo_state demo_sequence [Write demo_buf [65; 66]; Lseek 1 SEEK_SET; Read demo_buf 2].
Proof.
  apply (file_refines_sequence 0 demo_root); [apply demo_implements|].
  change (append_of demo_state) with false. split.
  { split; [done|]. split; [unfold SIZE_MAX; simpl; lia|]. split; [by apply demo_readable|]. repeat constructor; lia. }
  intros r a Hd. assert (Ha : mem a = memory demo_state) by (by inversion Hd; subst). split.
  { split; [unfold SEEK_SET, SEEK_END; lia|]. split; [lia|]. by unfold seek. }
  intros r2 a2 Hd2. assert (Ha2 : mem a2 = memory demo_state /\ position a2 = 1) by (inversion Hd2; by subst).
  destruct Ha2 as [Em Ep]. split; [|done]. split; [rewrite Em; by apply demo_buffer | rewrite Ep; lia].
Defined.

(** * What a cut within a block leaves behind *)

(** C40: shrinking a file within its last block and growing it again brings back
    the old bytes.  [__ext2_inode_truncate] means to clear the rest of the block,
    but asks [bmap] for the sector with the number of the old size in bytes, not
    for the last sector, so nothing is cleared. *)
Theorem truncate_exposes_stale now f x n :
  fs_ok f -> file_ok f x -> tight f x -> 0 <= n < size (vfs x) -> size (vfs x) <= SIZE_MAX ->
  n / bsize f = size (vfs x) / bsize f -> n mod bsize f <> 0 ->
  exists x1 x2, ext2_inode_truncate now f x n = Done (f, x1) /\ size (vfs x1) = n /\
    ext2_inode_truncate now f x1 (size (vfs x)) = Done (f, x2) /\
    file_bytes f x2 0 (size (vfs x)) = file_bytes f x 0 (size (vfs x)).
Proof.
  intros Hok Hx HT Hn Hs Hblk Hmod. pose proof (bsize_range f Hok) as Hb. unfold SIZE_MAX in Hs.
  pose proof (Z.div_mod n (bsize f) ltac:(lia)) as D1. pose proof (Z.mod_pos_bound n (bsize f) ltac:(lia)) as B1.
  pose proof (Z.div_mod (size (vfs x)) (bsize f) ltac:(lia)) as D2. pose proof (Z.mod_pos_bound (size (vfs x)) (bsize f) ltac:(lia)) as B2.
  assert (E1 : ext2_inode_truncate now f x n = Done (f, set_vfs (fun v => set_dirty (set_mtime now (set_size n v))) x)).
  { unfold ext2_inode_truncate.
    rewrite (proj1 (truncate_range f n Hok ltac:(lia) ltac:(lia))), (proj2 (truncate_range f (size (vfs x)) Hok ltac:(lia) ltac:(lia))).
    assert ((n + bsize f - 1) / bsize f = n / bsize f + 1) as -> by (symmetry; apply (Z.div_unique_pos _ _ _ (n mod bsize f - 1)); lia).
    destruct (Z.leb_spec (n / bsize f + 1) (size (vfs x) / bsize f)); [lia|]. obind. unfold zero_tail.
    destruct (Z.ltb_spec (size (vfs x)) n); [lia|]. done. }
  eexists _, _. split; [exact E1|]. split; [done|]. split.
  - apply ext2_inode_truncate_grow; [done | by apply (file_ok_inode f x) | | simpl; lia | lia].
    intros t Ht Hts. simpl in Hts. transitivity (Ext2Map.mapped f x t); [done|]. apply (HT t Ht).
    assert (n / bsize f < t) by (apply (Z.mul_lt_mono_pos_r (bsize f)); lia).
    assert ((n / bsize f + 1) * bsize f <= t * bsize f) by (apply Z.mul_le_mono_nonneg_r; lia). lia.
  - done.
Qed.

Lemma truncate_exposes_stale_witness :
  exists x1 x2, ext2_inode_truncate 0 demo demo_small 10 = Done (demo, x1) /\ size (vfs x1) = 10 /\
    ext2_inode_truncate 0 demo x1 100 = Done (demo, x2) /\
    file_bytes demo x2 0 100 = file_bytes demo demo_small 0 100.
Proof.
  apply (truncate_exposes_stale 0 demo demo_small 10); [apply demo_ok | apply demo_small_ok | | simpl; lia | by vm_compute | done | done].
  intros t Ht Hts. simpl in Hts. apply demo_small_mapped. lia.
Defined.
