(* ===== verification/Ext2Inode.v ===== *)
(** Inodes of ext2 on disk (src/fs/ext2/super.c, ialloc.c): the entries of the
    inode tables, reading and writing them, and the bitmaps that hand out inode
    numbers.  An inode that is written is read back as it was, and writing it
    changes no other inode. *)
From stdpp Require Import base numbers list gmap.
From Stdlib Require Import ZArith ZifyBool Lia.
From S2P Require Import Prelude Users Bits Endian Ext2 Ext2Alloc Ext2Map Ext2Trunc Vfs Ext2Demo.
Open Scope Z_scope.

(** * Device numbers on disk *)

Definition S_ISCHR (m : Z) : bool := Z.land m S_IFMT =? 0x2000.
Definition S_ISBLK (m : Z) : bool := Z.land m S_IFMT =? 0x6000.
Definition is_device (m : Z) : bool := S_ISCHR m || S_ISBLK m.

(** How a device number is kept in the second block pointer, and read back from
    either of the two formats. *)
Definition dev_encode (dev : Z) : Z :=
  let minor := DEV_MINOR dev in
  let major := DEV_MAJOR dev in
  Z.lor (Z.lor (u32 (Z.shiftl (Z.land minor 0xFFF00) 12)) (Z.land minor 0xFF)) (Z.shiftl (Z.land major 0xFFF) 8).

Definition dev_decode (p0 p1 : Z) : Z :=
  if negb (p0 =? 0) then DEV_MAKE (Z.shiftr (Z.land p0 0xFF00) 8) (Z.land p0 0xFF)
  else DEV_MAKE (Z.shiftr (Z.land p1 0xFFF00) 8) (Z.lor (Z.land p1 0xFF) (Z.land (Z.shiftr p1 12) 0xFFF00)).

(** * The inode table *)

(** The block and the place in it of an inode: the start of [ext2_inode_read]. *)
Definition inode_place (s : ext2_super_block) (n : Z) : outcome (Z * Z) :=
  let inode_entry_size := inode_entry_size (disksb s) in
  let inode_group := u32 (n - 1) / inodes_per_block_group (disksb s) in
  let inode_entry := u32 (n - 1) mod inodes_per_block_group (disksb s) in
  g ← arr_get (groups s) inode_group;
  Done (i32 (block_nr_inode_table g + u32 (inode_entry * inode_entry_size) / block_size s),
        inode_entry mod (block_size s / inode_entry_size)).

(** [blk_ptrs] of a [struct ext2_disk_inode] at [base], from pointer [i]. *)
Fixpoint read_ptrs (data : list Z) (base i : Z) (n : nat) : outcome (list Z) :=
  match n with
  | O => Done []
  | S n' => p ← get_le 4 data (base + 40 + 4 * i); ps ← read_ptrs data base (i + 1) n'; Done (p :: ps)
  end.

Definition ext2_inode_read (f : fs) (x : ext2_inode) : outcome ext2_inode :=
  let s := sb f in
  '(blk, off) ← inode_place s (ino (vfs x));
  data ← block_data f blk;
  let base := inode_entry_size (disksb s) * off in
  mode ← get_le 2 data (base + 0);
  size ← get_le 4 data (base + 4);
  links_count ← get_le 2 data (base + 26);
  blocks ← get_le 4 data (base + 28);
  atime ← get_le 4 data (base + 8);
  mtime ← get_le 4 data (base + 16);
  ctime ← get_le 4 data (base + 12);
  dtime ← get_le 4 data (base + 20);
  uid ← get_le 2 data (base + 2);
  gid ← get_le 2 data (base + 24);
  ptrs ← read_ptrs data base 0 15;
  let dev := is_device mode in
  Done {|
    vfs := {| ino := ino (vfs x); dev_no := if dev then dev_decode (nth 0 ptrs 0) (nth 1 ptrs 0) else dev_no (vfs x);
              Ext2.size := i32 size; Ext2.mode := mode; nlinks := links_count; Ext2.blocks := blocks; Ext2.atime := i32 atime; Ext2.mtime := i32 mtime;
              Ext2.ctime := i32 ctime; Ext2.uid := uid; Ext2.gid := gid; dirty := dirty (vfs x) |};
    inode_group_blk_nr := blk; inode_group_blk_offset := off; Ext2.dtime := i32 dtime;
    blk_ptrs := if dev then blk_ptrs x else ptrs |}.

(** Fields of a [struct] written one after the other, each with its width, its
    offset and its value. *)
Fixpoint put_fields (data : list Z) (base : Z) (fields : list (Z * Z * Z)) : outcome (list Z) :=
  match fields with
  | [] => Done data
  | (n, o, v) :: fields => data ← put_le n data (base + o) v; put_fields data base fields
  end.

Definition ptr_fields (ptrs : list Z) : list (Z * Z * Z) := imap (fun i p => (4, 40 + 4 * Z.of_nat i, p)) ptrs.

(** The assignments of [ext2_inode_write]. *)
Definition dinode_fields (x : ext2_inode) : list (Z * Z * Z) :=
  let v := vfs x in
  [(2, 0, mode v); (4, 4, size v); (2, 26, nlinks v); (4, 28, blocks v); (4, 8, atime v); (4, 12, ctime v); (4, 16, mtime v);
   (4, 20, dtime x); (2, 2, uid v); (2, 24, gid v)] ++
  (if is_device (mode v) then [(4, 44, dev_encode (dev_no v))] else ptr_fields (blk_ptrs x)).

Definition ext2_inode_write (f : fs) (x : ext2_inode) : outcome (Z * fs) :=
  if negb (dirty (vfs x)) then Done (0, f)
  else
    data ← block_data f (inode_group_blk_nr x);
    data ← put_fields data (inode_entry_size (disksb (sb f)) * inode_group_blk_offset x) (dinode_fields x);
    Done (0, block_write f (inode_group_blk_nr x) data).

(** * Device numbers survive *)

(** Bit [i] of the terms device numbers are made of, with [i] known up to linear arithmetic. *)
Lemma testbit_mask w i : 0 <= w -> Z.testbit (Z.ones w) i = (0 <=? i) && (i <? w).
Proof.
  intros Hw. destruct (Z.leb_spec 0 i); [by rewrite Z.testbit_ones_nonneg | by rewrite Z.testbit_neg_r].
Qed.
Lemma testbit_shl a k i : 0 <= k -> 0 <= i -> Z.testbit (Z.shiftl a k) i = (k <=? i) && Z.testbit a (i - k).
Proof.
  intros Hk Hi. rewrite Z.shiftl_spec by done. destruct (Z.leb_spec k i); [done | by rewrite Z.testbit_neg_r by lia].
Qed.

Ltac decide_cmp := repeat match goal with
  | |- context [?a <=? ?b] => first [replace (a <=? b) with true by lia | replace (a <=? b) with false by lia]
  | |- context [?a <? ?b] => first [replace (a <? b) with true by lia | replace (a <? b) with false by lia]
  end.
Ltac bits := repeat (first [rewrite Z.lor_spec | rewrite Z.land_spec | rewrite testbit_shl by lia | rewrite Z.shiftr_spec by lia | rewrite testbit_mask by lia]; decide_cmp; cbn [andb orb]; rewrite ?andb_true_r, ?andb_false_r, ?orb_false_r).

Lemma dev_encode_bit dev i : 0 <= dev < 2 ^ 32 -> 0 <= i ->
  Z.testbit (dev_encode dev) i = if i <? 8 then Z.testbit dev i else if i <? 20 then Z.testbit dev (i + 12) else if i <? 32 then Z.testbit dev (i - 12) else false.
Proof.
  intros H Hi. unfold dev_encode, DEV_MINOR, DEV_MAJOR, u32, uwrap. rewrite <- !Z.land_ones by lia.
  change 0xFFF00 with (Z.shiftl (Z.ones 12) 8). change 0xFFFFF with (Z.ones 20). change 0xFFF with (Z.ones 12). change 0xFF with (Z.ones 8).
  destruct (Z.ltb_spec i 8); [|destruct (Z.ltb_spec i 20); [destruct (Z.ltb_spec i 12)|destruct (Z.ltb_spec i 32)]]; bits; try done; try (f_equal; lia).
Qed.

Lemma dev_encode_bound dev : 0 <= dev < 2 ^ 32 -> 0 <= dev_encode dev < 2 ^ 32.
Proof.
  intros H. assert (E : dev_encode dev = Z.land (dev_encode dev) (Z.ones 32)).
  { apply Z.bits_inj'. intros i Hi. rewrite Z.land_spec, testbit_mask by lia. destruct (Z.ltb_spec i 32); [by rewrite (proj2 (Z.leb_le 0 i)), andb_true_r|].
    rewrite dev_encode_bit by lia. decide_cmp. by rewrite !andb_false_r. }
  rewrite E, Z.land_ones by lia. apply Z.mod_pos_bound. lia.
Qed.

Lemma dev_roundtrip dev : 0 <= dev < 2 ^ 32 -> dev_decode 0 (dev_encode dev) = dev.
Proof.
  intros H. unfold dev_decode. cbn [Z.eqb negb]. apply Z.bits_inj'. intros i Hi. unfold DEV_MAKE, u32, uwrap. rewrite <- !Z.land_ones by lia.
  change 0xFFF00 with (Z.shiftl (Z.ones 12) 8). change 0xFFFFF with (Z.ones 20). change 0xFFF with (Z.ones 12). change 0xFF with (Z.ones 8).
  assert (Hd : 32 <= i -> Z.testbit dev i = false) by (intros ?; apply Z.bits_above_log2; [lia|]; destruct (Z.eq_dec dev 0) as [->|]; [cbn; lia | apply Z.log2_lt_pow2; try lia; apply (Z.lt_le_trans _ (2 ^ 32)); [lia | apply Z.pow_le_mono_r; lia]]).
  destruct (Z.ltb_spec i 8); [|destruct (Z.ltb_spec i 20); [destruct (Z.ltb_spec i 12)|destruct (Z.ltb_spec i 32)]]; bits; rewrite ?dev_encode_bit by lia; decide_cmp; try done; try (f_equal; lia).
Qed.

(** * Fields of a record on disk *)

(** The bytes from [o], [n] of them, are outside of the fields. *)
Definition apart (n o : Z) (fields : list (Z * Z * Z)) : Prop := Forall (fun '(m, p, _) => p + m <= o \/ o + n <= p) fields.

Global Instance apart_decision n o fields : Decision (apart n o fields).
Proof. apply Forall_dec. intros [[m p] v]. apply _. Defined.

Lemma put_fields_total fields : forall data base,
  Forall (fun '(n, o, _) => 0 <= n /\ 0 <= base + o /\ base + o + n <= Z.of_nat (length data)) fields ->
  exists data', put_fields data base fields = Done data'.
Proof.
  induction fields as [|[[n o] v] fields IH]; intros data base H; cbn [put_fields]; [by eexists|].
  apply Forall_cons in H as [(Hn & H0 & H1) H]. rewrite put_le_total by (done || lia). obind.
  apply IH. eapply Forall_impl; [exact H|]. intros [[m p] w] (? & ? & ?). rewrite length_splice; [done|]. rewrite length_le_bytes. lia.
Qed.

Lemma put_fields_shape fields : forall data base data', put_fields data base fields = Done data' ->
  length data' = length data /\ (bytes data -> bytes data').
Proof.
  induction fields as [|[[n o] v] fields IH]; intros data base data' H; cbn [put_fields] in H; [by apply done_inj in H as <-|].
  apply outcome_bind_done in H as (d1 & H1 & H2). apply put_le_shape in H1 as [L1 B1]. apply IH in H2 as [L2 B2]. split; [congruence | auto].
Qed.

Lemma put_fields_other fields : forall data base data' k o, put_fields data base fields = Done data' -> 0 <= k ->
  Forall (fun '(n, _, _) => 0 <= n) fields -> apart k (o - base) fields -> get_le k data' o = get_le k data o.
Proof.
  induction fields as [|[[n p] v] fields IH]; intros data base data' k o H Hk Hn Ha; cbn [put_fields] in H; [by apply done_inj in H as <-|].
  apply outcome_bind_done in H as (d1 & H1 & H2). apply Forall_cons in Hn as [Hn1 Hn2]. apply Forall_cons in Ha as [Ha1 Ha2].
  rewrite (IH d1 base data' k o H2 Hk Hn2 Ha2). apply (get_put_other n k data (base + p) o v d1); [done | done | lia | done].
Qed.

(** A field holds the value written last. *)
Lemma put_fields_at i fields data base data' n o v : put_fields data base fields = Done data' -> fields !! i = Some (n, o, v) ->
  Forall (fun '(n, _, _) => 0 <= n) fields -> apart n o (drop (S i) fields) -> get_le n data' (base + o) = Done (v mod 256 ^ n).
Proof.
  revert data i. induction fields as [|[[m p] w] fields IH]; intros data i H Hi Hn Ha; [done|]. cbn [put_fields] in H.
  apply outcome_bind_done in H as (d1 & H1 & H2). apply Forall_cons in Hn as [Hn1 Hn2]. destruct i as [|i]; cbn in Hi.
  - injection Hi as -> -> ->. rewrite (put_fields_other fields d1 base data' n (base + o) H2 Hn1 Hn2) by (by rewrite Z.add_simpl_l).
    by apply get_put_same in H1.
  - by apply (IH d1 i).
Qed.

Lemma read_ptrs_spec data base ptrs : forall i, (forall k p, ptrs !! k = Some p -> get_le 4 data (base + 40 + 4 * (i + Z.of_nat k)) = Done p) ->
  read_ptrs data base i (length ptrs) = Done ptrs.
Proof.
  induction ptrs as [|p ptrs IH]; intros i H; [done|]. cbn [read_ptrs length]. pose proof (H 0%nat p eq_refl) as H0. rewrite Z.add_0_r in H0. rewrite H0. obind.
  rewrite IH; [done|]. intros k q Hk. rewrite <- (H (S k) q Hk). f_equal. lia.
Qed.

(** * Where inodes are *)

Abbreviation ies s := (inode_entry_size (disksb s)).
Abbreviation ipg s := (inodes_per_block_group (disksb s)).

(** The block of the table of group [g] with entry [k]. *)
Definition table_block (s : ext2_super_block) (g : ext2_disk_block_group) (k : Z) : Z := block_nr_inode_table g + k * ies s / block_size s.

Record tables_ok (f : fs) : Prop := {
  tb_size : 128 <= ies (sb f) <= block_size (sb f) /\ block_size (sb f) mod ies (sb f) = 0;
  tb_ipg : 0 < ipg (sb f) /\ ipg (sb f) * ies (sb f) < 2 ^ 31;
  tb_count : ipg (sb f) * Z.of_nat (length (groups (sb f))) < 2 ^ 32;
  tb_range : forall i g k, groups (sb f) !! i = Some g -> 0 <= k < ipg (sb f) -> 0 <= table_block (sb f) g k < 2 ^ 31;
  tb_block : forall i g k, groups (sb f) !! i = Some g -> 0 <= k < ipg (sb f) ->
    is_Some (disk f !! table_block (sb f) g k) /\ ~ bitmap_block (sb f) (table_block (sb f) g k);
  tb_apart : forall i j g h k l, groups (sb f) !! i = Some g -> groups (sb f) !! j = Some h -> 0 <= k < ipg (sb f) -> 0 <= l < ipg (sb f) ->
    table_block (sb f) g k = table_block (sb f) h l -> i = j;
}.

Definition valid_ino (s : ext2_super_block) (n : Z) : Prop := 1 <= n <= ipg s * Z.of_nat (length (groups s)).

Section Place.
Context (f : fs) (Hok : fs_ok f) (Ht : tables_ok f).

Abbreviation s := (sb f).
Abbreviation bs := (block_size (sb f)).

Lemma entries_per_block : 0 < bs / ies s /\ bs = ies s * (bs / ies s).
Proof using Ht.
  destruct (tb_size f Ht) as [H1 H2]. pose proof (Z.div_mod bs (ies s) ltac:(lia)) as E. rewrite H2, Z.add_0_r in E. split; [|done]. apply Z.div_str_pos. lia.
Qed.

Lemma table_block_div g k : 0 <= k -> table_block s g k = block_nr_inode_table g + k / (bs / ies s).
Proof using Ht.
  intros Hk. destruct entries_per_block as [H1 H2]. unfold table_block. f_equal. rewrite H2 at 1. rewrite (Z.mul_comm (ies s)), Z.div_mul_cancel_r; [done | lia |].
  destruct (tb_size f Ht). lia.
Qed.

(** An inode has its entry inside of a block of its table. *)
Lemma inode_place_spec n : valid_ino s n ->
  exists i g k, groups s !! i = Some g /\ 0 <= k < ipg s /\ n = Z.of_nat i * ipg s + k + 1 /\
    inode_place s n = Done (table_block s g k, k mod (bs / ies s)) /\
    0 <= ies s * (k mod (bs / ies s)) /\ ies s * (k mod (bs / ies s)) + ies s <= bs.
Proof using Ht.
  intros [H1 H2]. pose proof (tb_count f Ht) as Hc. assert (Hn : 0 <= n - 1 < 2 ^ 32) by lia. destruct (tb_ipg f Ht) as [Hg Hl]. destruct (tb_size f Ht) as [Hs Hm]. destruct entries_per_block as [Hq Hbs].
  pose proof (Z.div_mod (n - 1) (ipg s) ltac:(lia)) as Hd. pose proof (Z.mod_pos_bound (n - 1) (ipg s) ltac:(lia)) as Hb.
  assert (Hi : 0 <= (n - 1) / ipg s < Z.of_nat (length (groups s))) by (split; [apply Z.div_pos; lia | apply Z.div_lt_upper_bound; lia]).
  destruct (lookup_lt_is_Some_2 (groups s) (Z.to_nat ((n - 1) / ipg s))) as [g Eg]; [lia|]. set (k := (n - 1) mod ipg s) in *.
  exists (Z.to_nat ((n - 1) / ipg s)), g, k. pose proof (tb_range f Ht _ _ _ Eg Hb) as Hr. split; [done|]. split; [done|]. split; [rewrite Z2Nat.id by lia; lia|].
  pose proof (Z.mod_pos_bound k (bs / ies s) Hq). split; [|nia].
  unfold inode_place. rewrite (u32_small (n - 1)) by exact Hn. fold k. rewrite (proj2 (arr_get_done _ _ g)) by (split; [lia | done]). obind.
  rewrite u32_small by nia. fold (table_block s g k). by rewrite i32_small by lia.
Qed.

Lemma inode_place_inj n m p : valid_ino s n -> valid_ino s m -> inode_place s n = Done p -> inode_place s m = Done p -> n = m.
Proof using Ht.
  intros Hn Hm. destruct (inode_place_spec n Hn) as (i & g & k & Eg & Hk & -> & -> & _). destruct (inode_place_spec m Hm) as (j & h & l & Eh & Hl & -> & -> & _).
  intros E1%done_inj E2%done_inj. rewrite <- E1 in E2. injection E2 as Eb Eo.
  assert (i = j) as <- by (symmetry; by apply (tb_apart f Ht j i h g l k)). rewrite Eg in Eh. injection Eh as <-. destruct entries_per_block as [Hq _].
  rewrite !table_block_div in Eb by lia. pose proof (Z.div_mod k (bs / ies s) ltac:(lia)). pose proof (Z.div_mod l (bs / ies s) ltac:(lia)). nia.
Qed.
End Place.

(** * Writing and reading *)

(** The fields of an inode fit into those on disk. *)
Record fits (x : ext2_inode) : Prop := {
  ft_mode : 0 <= mode (vfs x) < 2 ^ 16;
  ft_size : 0 <= size (vfs x) < 2 ^ 31;
  ft_links : 0 <= nlinks (vfs x) < 2 ^ 16;
  ft_blocks : 0 <= blocks (vfs x) < 2 ^ 32;
  ft_times : Forall (fun t => - 2 ^ 31 <= t < 2 ^ 31) [atime (vfs x); ctime (vfs x); mtime (vfs x); dtime x];
  ft_owner : 0 <= uid (vfs x) < 2 ^ 16 /\ 0 <= gid (vfs x) < 2 ^ 16;
  ft_dev : 0 <= dev_no (vfs x) < 2 ^ 32;
  ft_ptrs : length (blk_ptrs x) = 15%nat;
  ft_ptr : Forall (fun p => 0 <= p < 2 ^ 32) (blk_ptrs x);
}.

Definition placed (f : fs) (x : ext2_inode) : Prop :=
  valid_ino (sb f) (ino (vfs x)) /\ inode_place (sb f) (ino (vfs x)) = Done (inode_group_blk_nr x, inode_group_blk_offset x).

(** The inode read back into [y]: that of [x], except for what the disk does not
    hold.  A device has its number in place of the pointers. *)
Definition reread (x y : ext2_inode) : ext2_inode :=
  let v := vfs x in
  {| vfs := {| ino := ino v; dev_no := if is_device (mode v) then dev_no v else dev_no (vfs y); size := size v; mode := mode v; nlinks := nlinks v;
               blocks := blocks v; atime := atime v; mtime := mtime v; ctime := ctime v; uid := uid v; gid := gid v; dirty := dirty (vfs y) |};
     inode_group_blk_nr := inode_group_blk_nr x; inode_group_blk_offset := inode_group_blk_offset x; dtime := dtime x;
     blk_ptrs := if is_device (mode v) then blk_ptrs y else blk_ptrs x |}.

Lemma fields_inside x : length (blk_ptrs x) = 15%nat -> Forall (fun '(n, o, _) => 0 <= n /\ 0 <= o /\ o + n <= 100) (dinode_fields x).
Proof.
  intros Hl. unfold dinode_fields. apply Forall_app. split; [repeat (constructor; [lia|]); constructor|]. destruct (is_device _); [repeat (constructor; [lia|]); constructor|].
  unfold ptr_fields. apply Forall_lookup. intros i [[n o] v] Hi. apply list_lookup_imap_Some in Hi as (p & Hp & [= -> -> ->]). pose proof (lookup_lt_Some _ _ _ Hp). lia.
Qed.

Lemma i32_mod z : - 2 ^ 31 <= z < 2 ^ 31 -> i32 (z mod 2 ^ 32) = z.
Proof. intros H. unfold i32, swrap, uwrap. cbn zeta. rewrite Z.mod_mod by lia. pose proof (Z.mod_pos_bound z (2 ^ 32) ltac:(lia)). pose proof (Z.div_mod z (2 ^ 32) ltac:(lia)). case_match; nia. Qed.

Definition ptr_part (x : ext2_inode) : list (Z * Z * Z) :=
  if is_device (mode (vfs x)) then [(4, 44, dev_encode (dev_no (vfs x)))] else ptr_fields (blk_ptrs x).

Lemma ptr_part_apart x n o : o + n <= 40 -> apart n o (ptr_part x).
Proof.
  intros H. unfold ptr_part, apart. destruct (is_device _); [constructor; [lia | done]|]. unfold ptr_fields.
  apply Forall_lookup. intros i [[m p] v] Hi. apply list_lookup_imap_Some in Hi as (q & Hq & [= -> -> ->]). lia.
Qed.

Section Stored.
Context (x : ext2_inode) (data data' : list Z) (base : Z) (Hl : length (blk_ptrs x) = 15%nat).
Context (H : put_fields data base (dinode_fields x) = Done data').

Lemma head_len : length (take 10 (dinode_fields x)) = 10%nat.
Proof using Type. done. Qed.

Lemma widths : Forall (fun '(n, _, _) => 0 <= n) (dinode_fields x).
Proof using Hl. eapply Forall_impl; [by apply fields_inside|]. intros [[n o] v]. lia. Qed.

Lemma field_at i n o v : dinode_fields x !! i = Some (n, o, v) -> apart n o (drop (S i) (dinode_fields x)) -> get_le n data' (base + o) = Done (v mod 256 ^ n).
Proof using H Hl. intros Hi Ha. apply (put_fields_at i (dinode_fields x) data); [done | done | apply widths | done]. Qed.

(** Field [i], one of those before the pointers. *)
Ltac field i := apply (field_at i); [reflexivity|];
  change (dinode_fields x) with (take 10 (dinode_fields x) ++ ptr_part x); cbn [take drop dinode_fields app];
  repeat (constructor; [lia|]); apply ptr_part_apart; lia.

Lemma stored_fields :
  get_le 2 data' (base + 0) = Done (mode (vfs x) mod 256 ^ 2) /\ get_le 4 data' (base + 4) = Done (size (vfs x) mod 256 ^ 4) /\
  get_le 2 data' (base + 26) = Done (nlinks (vfs x) mod 256 ^ 2) /\ get_le 4 data' (base + 28) = Done (blocks (vfs x) mod 256 ^ 4) /\
  get_le 4 data' (base + 8) = Done (atime (vfs x) mod 256 ^ 4) /\ get_le 4 data' (base + 12) = Done (ctime (vfs x) mod 256 ^ 4) /\
  get_le 4 data' (base + 16) = Done (mtime (vfs x) mod 256 ^ 4) /\ get_le 4 data' (base + 20) = Done (dtime x mod 256 ^ 4) /\
  get_le 2 data' (base + 2) = Done (uid (vfs x) mod 256 ^ 2) /\ get_le 2 data' (base + 24) = Done (gid (vfs x) mod 256 ^ 2).
Proof using H Hl.
  split_and!; [field 0%nat | field 1%nat | field 2%nat | field 3%nat | field 4%nat | field 5%nat | field 6%nat | field 7%nat | field 8%nat | field 9%nat].
Qed.

Lemma stored_ptrs : is_device (mode (vfs x)) = false -> Forall (fun p => 0 <= p < 2 ^ 32) (blk_ptrs x) -> read_ptrs data' base 0 15 = Done (blk_ptrs x).
Proof using H Hl.
  intros Hd Hp. rewrite <- Hl. apply read_ptrs_spec. intros k p Hk. pose proof (lookup_lt_Some _ _ _ Hk). rewrite Forall_lookup in Hp.
  assert (Ef : dinode_fields x = take 10 (dinode_fields x) ++ ptr_fields (blk_ptrs x)) by (unfold dinode_fields; by rewrite Hd).
  replace (base + 40 + 4 * (0 + Z.of_nat k)) with (base + (40 + 4 * Z.of_nat k)) by lia. rewrite (field_at (10 + k) 4 (40 + 4 * Z.of_nat k) p).
  - f_equal. apply Z.mod_small. by apply (Hp k).
  - rewrite Ef. rewrite lookup_app_r by (rewrite head_len; lia). rewrite head_len. replace (10 + k - 10)%nat with k by lia.
    unfold ptr_fields. rewrite list_lookup_imap, Hk. done.
  - rewrite Ef. rewrite drop_app_ge by (rewrite head_len; lia). rewrite head_len. replace (S (10 + k) - 10)%nat with (S k) by lia.
    apply Forall_lookup. intros i [[m q] v] Hi. rewrite lookup_drop in Hi. apply list_lookup_imap_Some in Hi as (r & Hr & [= -> -> ->]). lia.
Qed.

(** A device: the first pointer is left alone, the second holds the number. *)
Lemma stored_dev : is_device (mode (vfs x)) = true -> 0 <= base -> base + 100 <= Z.of_nat (length data) -> 0 <= dev_no (vfs x) < 2 ^ 32 ->
  exists ps, read_ptrs data' base 0 15 = Done ps /\ Done (nth 0 ps 0) = get_le 4 data (base + 40) /\ nth 1 ps 0 = dev_encode (dev_no (vfs x)).
Proof using H Hl.
  intros Hd Hb He Hdev. destruct (put_fields_shape _ _ _ _ H) as [Hlen _].
  assert (Ef : dinode_fields x = take 10 (dinode_fields x) ++ [(4, 44, dev_encode (dev_no (vfs x)))]) by (unfold dinode_fields; by rewrite Hd).
  set (ps := (fun i => le_value (take 4 (drop (Z.to_nat (base + 40 + 4 * i)) data'))) <$> seqZ 0 15). exists ps.
  assert (Hg : forall k, (k < 15)%nat -> get_le 4 data' (base + 40 + 4 * (0 + Z.of_nat k)) = Done (nth k ps 0)).
  { intros k Hk. rewrite get_le_total by lia. do 2 f_equal. unfold ps. rewrite nth_lookup, list_lookup_fmap, lookup_seqZ_lt by lia. cbn. done. }
  split_and!.
  - change 15%nat with (length ps). apply read_ptrs_spec. intros k p Hk. pose proof (lookup_lt_Some _ _ _ Hk) as Hlt. change (length ps) with 15%nat in Hlt. rewrite Hg by done. by rewrite nth_lookup, Hk.
  - rewrite <- (Hg 0%nat) by lia. replace (base + 40 + 4 * (0 + Z.of_nat 0)) with (base + 40) by lia. apply (put_fields_other _ _ _ _ 4 (base + 40) H); [lia | apply widths|]. rewrite Ef.
    cbn [take dinode_fields app]. repeat (constructor; [lia|]). constructor.
  - pose proof (Hg 1%nat ltac:(lia)) as E. replace (base + 40 + 4 * (0 + Z.of_nat 1)) with (base + 44) in E by lia.
    rewrite (field_at 10 4 44 (dev_encode (dev_no (vfs x)))) in E; [| by rewrite Ef | rewrite Ef; cbn; constructor].
    apply done_inj in E. rewrite <- E. apply Z.mod_small. by apply dev_encode_bound.
Qed.
End Stored.

Lemma tables_write f b data : tables_ok f -> is_Some (disk f !! b) -> tables_ok (block_write f b data).
Proof.
  intros [H1 H2 H3 H4 H5 H6] Hb. split; try done. intros i g k Hg Hk. destruct (H5 i g k Hg Hk) as [? ?]. split; [|done]. cbn. apply lookup_insert_is_Some'. by right.
Qed.

Section Write.
Context (f : fs) (Hok : fs_ok f) (Ht : tables_ok f) (x : ext2_inode) (Hp : placed f x) (Hl : length (blk_ptrs x) = 15%nat) (Hd : dirty (vfs x) = true).

Abbreviation base := (ies (sb f) * inode_group_blk_offset x).

Lemma inode_write_spec : exists data data',
  disk f !! inode_group_blk_nr x = Some data /\ put_fields data base (dinode_fields x) = Done data' /\
  ext2_inode_write f x = Done (0, block_write f (inode_group_blk_nr x) data') /\ fs_ok (block_write f (inode_group_blk_nr x) data') /\
  0 <= base /\ base + ies (sb f) <= Z.of_nat (length data) /\ ~ bitmap_block (sb f) (inode_group_blk_nr x).
Proof using Hok Ht Hp Hl Hd.
  destruct Hp as [Hv E]. destruct (inode_place_spec f Ht _ Hv) as (i & g & k & Hg & Hk & _ & E' & B1 & B2). rewrite E in E'. apply done_inj in E'. injection E' as Eb Eo. rewrite <- Eo in B1, B2.
  destruct (tb_block f Ht i g k Hg Hk) as [[data Hdata] Hnb]. rewrite <- Eb in Hdata, Hnb.
  destruct (ok_blocks _ (ok_alloc _ Hok) _ _ Hdata) as [Hlen Hby].
  assert (Hz : Z.of_nat (length data) = block_size (sb f)) by (destruct (geo_bs _ (ok_geo _ (ok_alloc _ Hok))) as [?|[?|?]]; lia).
  destruct (tb_size f Ht) as [Hsz _]. destruct (put_fields_total (dinode_fields x) data base) as [data' Hput].
  { eapply Forall_impl; [by apply fields_inside|]. intros [[n o] v] (? & ? & ?). lia. }
  destruct (put_fields_shape _ _ _ _ Hput) as [L1 B]. exists data, data'. split_and!; try done; try lia.
  - unfold ext2_inode_write. rewrite Hd. cbn [negb]. unfold block_data. rewrite Hdata. obind. rewrite Hput. by obind.
  - apply (block_write_ok f Hok); [by eauto | done | rewrite <- (bs_ppb f Hok); lia | auto].
Qed.
End Write.

Lemma pow256 : 256 ^ 2 = 2 ^ 16 /\ 256 ^ 4 = 2 ^ 32.
Proof. done. Qed.

(** The first pointer of the entry of an inode on disk. *)
Definition first_ptr (f : fs) (x : ext2_inode) : outcome Z :=
  data ← block_data f (inode_group_blk_nr x); get_le 4 data (ies (sb f) * inode_group_blk_offset x + 40).

Lemma inode_read_back f x y : fs_ok f -> tables_ok f -> placed f x -> fits x -> dirty (vfs x) = true -> ino (vfs y) = ino (vfs x) ->
  (is_device (mode (vfs x)) = true -> first_ptr f x = Done 0) ->
  exists f', ext2_inode_write f x = Done (0, f') /\ fs_ok f' /\ tables_ok f' /\ sb f' = sb f /\ ext2_inode_read f' y = Done (reread x y).
Proof.
  intros Hok Ht Hp Hft Hd Hy Hdev. destruct (inode_write_spec f Hok Ht x Hp (ft_ptrs _ Hft) Hd) as (data & data' & Hdata & Hput & E & Hok' & B1 & B2 & _).
  eexists. split; [exact E|]. split; [done|]. split; [apply tables_write; [done | by eauto]|]. split; [done|].
  destruct (stored_fields x data data' _ (ft_ptrs _ Hft) Hput) as (F1 & F2 & F3 & F4 & F5 & F6 & F7 & F8 & F9 & F10).
  unfold ext2_inode_read. cbn [sb block_write]. rewrite Hy, (proj2 Hp). obind. unfold block_data. cbn [disk block_write]. rewrite lookup_insert_eq. obind.
  rewrite F1, F2, F3, F4, F5, F6, F7, F8, F9, F10. obind. rewrite !(proj1 pow256), !(proj2 pow256). destruct Hft as [T1 T2 T3 T4 T5 T6 T7 T8 T9].
  rewrite !Forall_cons in T5. destruct T5 as (T51 & T52 & T53 & T54 & _). rewrite !i32_mod by lia. rewrite !Z.mod_small by lia.
  destruct (is_device (mode (vfs x))) eqn:Ed.
  - pose proof (tb_size f Ht). destruct (stored_dev x data data' _ T8 Hput Ed B1 ltac:(lia) T7) as (ps & -> & P0 & P1). obind.
    specialize (Hdev eq_refl). unfold first_ptr, block_data in Hdev. rewrite Hdata in Hdev. revert Hdev. obind. intros Hdev. rewrite Hdev in P0. apply done_inj in P0.
    rewrite P0, P1, dev_roundtrip by done. unfold reread. by rewrite Ed.
  - rewrite (stored_ptrs x data data' _ T8 Hput Ed T9). obind. unfold reread. by rewrite Ed.
Qed.

(** An inode written leaves every other inode as it was. *)
Lemma inode_write_frame f x y : fs_ok f -> tables_ok f -> placed f x -> length (blk_ptrs x) = 15%nat -> dirty (vfs x) = true ->
  valid_ino (sb f) (ino (vfs y)) -> ino (vfs y) <> ino (vfs x) ->
  exists f', ext2_inode_write f x = Done (0, f') /\ ext2_inode_read f' y = ext2_inode_read f y.
Proof.
  intros Hok Ht Hp Hl Hd Hy Hne. destruct (inode_write_spec f Hok Ht x Hp Hl Hd) as (data & data' & Hdata & Hput & E & _ & B1 & B2 & _).
  eexists. split; [exact E|]. unfold ext2_inode_read. cbn [sb block_write]. destruct (inode_place_spec f Ht _ Hy) as (i & g & k & Hg & Hk & _ & Ep & C1 & C2). rewrite Ep. obind.
  unfold block_data. cbn [disk block_write]. destruct (decide (table_block (sb f) g k = inode_group_blk_nr x)) as [Eb|Eb]; [|by rewrite lookup_insert_ne].
  rewrite Eb in *. rewrite lookup_insert_eq, Hdata. obind. set (o := k mod _) in *.
  assert (Ho : o <> inode_group_blk_offset x).
  { intros Eo. apply Hne. apply (inode_place_inj f Ht _ _ (inode_group_blk_nr x, o)); [done | apply Hp | done | rewrite Eo; apply Hp]. }
  destruct (tb_size f Ht) as [Hsz _].
  assert (Hget : forall n q, 0 <= n -> 0 <= q -> q + n <= 128 -> get_le n data' (ies (sb f) * o + q) = get_le n data (ies (sb f) * o + q)).
  { intros n q Hn Hq Hb. apply (put_fields_other _ _ _ _ n _ Hput Hn (widths x Hl)). eapply Forall_impl; [by apply fields_inside|].
    intros [[m p] v] (? & ? & ?). cbn. assert (o < inode_group_blk_offset x \/ inode_group_blk_offset x < o) by lia. nia. }
  rewrite !Hget by lia. assert (Hps : forall n i, 0 <= i -> i + Z.of_nat n <= 15 -> read_ptrs data' (ies (sb f) * o) i n = read_ptrs data (ies (sb f) * o) i n).
  { induction n as [|n IH]; intros j Hj Hb; cbn [read_ptrs]; [done|]. rewrite <- Z.add_assoc, Hget, IH by lia. done. }
  by rewrite Hps by lia.
Qed.

(** C16: Inodes survive the disk, within what the disk can hold.  A dirty inode that is
    written to its place in the inode table is read back with every attribute and its
    block pointers, or the number of the device it stands for; every other inode
    reads as before, and the file system stays consistent.  The fields must fit the
    entry ([fits]): mode, link count, user and group below 2^16, which the code cuts
    them to without a check, times, size and pointers of 32 bits.  An inode of a
    device must find 0 in the first pointer of its entry, since the code does not
    clear it and would read back the block number that was there as the device. *)
Theorem inode_write_roundtrip f x y z : fs_ok f -> tables_ok f -> placed f x -> fits x -> dirty (vfs x) = true ->
  (is_device (mode (vfs x)) = true -> first_ptr f x = Done 0) ->
  ino (vfs y) = ino (vfs x) -> valid_ino (sb f) (ino (vfs z)) -> ino (vfs z) <> ino (vfs x) ->
  exists f', ext2_inode_write f x = Done (0, f') /\ ext2_inode_read f' y = Done (reread x y) /\ ext2_inode_read f' z = ext2_inode_read f z /\
    fs_ok f' /\ tables_ok f'.
Proof.
  intros Hok Ht Hp Hft Hd Hdev Hy Hz Hne. destruct (inode_read_back f x y Hok Ht Hp Hft Hd Hy Hdev) as (f' & E & O1 & O2 & _ & R).
  destruct (inode_write_frame f x z Hok Ht Hp (ft_ptrs _ Hft) Hd Hz Hne) as (f2 & E2 & F). rewrite E in E2. apply done_inj in E2. injection E2 as <-. by exists f'.
Qed.

(** * An inode to write *)

(** Inodes 1 to 11 are in use. *)
Definition demo_ibitmap : list Z := [255; 7] ++ replicate 1022 255.
Definition demo_inodes : fs := block_write demo 2 demo_ibitmap.

Lemma demo_inodes_fs : fs_ok demo_inodes /\ (forall c, used demo_inodes c = used demo c) /\ (forall c, data_block demo_inodes c <-> data_block demo c).
Proof.
  apply (block_write_ok demo demo_ok).
  - apply demo_blocks. lia.
  - intros (i & g & Hg & E). destruct i as [|i]; [|by destruct i]. injection Hg as <-. done.
  - done.
  - apply Forall_app. split; [repeat constructor; lia | apply Forall_replicate; lia].
Qed.

Lemma demo_tables : tables_ok demo_inodes.
Proof.
  assert (Hd : forall b, 1 <= b <= 16 -> is_Some (disk demo_inodes !! b)) by (intros b Hb; cbn; apply lookup_insert_is_Some'; right; by apply demo_blocks).
  assert (Ht : forall i g k, groups (sb demo_inodes) !! i = Some g -> 0 <= k < 16 -> i = 0%nat /\ block_nr_block_bitmap g = 3 /\ 4 <= table_block (sb demo_inodes) g k <= 5).
  { intros i g k Hg Hk. destruct i as [|i]; [|by destruct i]. injection Hg as <-. split_and!; try done; unfold table_block; cbn [block_nr_inode_table demo_sb]; cbn; Z.div_mod_to_equations; lia. }
  split; try (cbn; lia); try done.
  - intros i g k Hg Hk. destruct (Ht i g k Hg Hk). lia.
  - intros i g k Hg Hk. destruct (Ht i g k Hg Hk) as (-> & _ & Hb). split; [apply Hd; lia|]. intros (j & h & Hh & E). destruct (Ht j h 0 Hh ltac:(lia)) as (_ & E2 & _). lia.
  - intros i j g h k l Hg Hh Hk Hl _. destruct (Ht i g k Hg Hk) as [-> _]. by destruct (Ht j h l Hh Hl) as [-> _].
Qed.

(** A character device with major number 4 and minor number 260 as inode 11. *)
Definition demo_device : ext2_inode := {|
  vfs := {| ino := 11; dev_no := 4194564; size := 0; mode := 0x2180; nlinks := 1; blocks := 0; atime := 7; mtime := 8; ctime := 9;
            uid := 3; gid := 4; dirty := true |};
  inode_group_blk_nr := 5; inode_group_blk_offset := 2; dtime := 0; blk_ptrs := replicate 15 0 |}.

Lemma inode_write_roundtrip_witness :
  exists f', ext2_inode_write demo_inodes demo_device = Done (0, f') /\ ext2_inode_read f' demo_device = Done (reread demo_device demo_device) /\
    ext2_inode_read f' demo_empty = ext2_inode_read demo_inodes demo_empty /\ fs_ok f' /\ tables_ok f'.
Proof.
  apply (inode_write_roundtrip demo_inodes demo_device demo_device demo_empty); try done.
  - apply demo_inodes_fs.
  - apply demo_tables.
  - split; cbn; try lia; try done; apply (bool_decide_unpack _); reflexivity.
Defined.
