(* ===== verification/Ext2Ialloc.v ===== *)
(** Inode numbers of ext2 (src/fs/ext2/ialloc.c and the deletion of inodes in
    super.c): the inode bitmaps of the groups and the counters of free inodes.  A new
    inode gets a number that was free, a deleted one gives its number back, and the
    counters are exact. *)
From stdpp Require Import base numbers list gmap.
From Stdlib Require Import ZArith ZifyBool Lia.
From S2P Require Import Prelude Users Bits Endian Ext2 Ext2Alloc Ext2Map Ext2Trunc Vfs Ext2Demo Ext2Inode.
Open Scope Z_scope.

Definition set_group_inodes (n : Z) (g : ext2_disk_block_group) : ext2_disk_block_group :=
  {| block_nr_block_bitmap := block_nr_block_bitmap g; block_nr_inode_bitmap := block_nr_inode_bitmap g;
     block_nr_inode_table := block_nr_inode_table g; group_block_unused := group_block_unused g;
     group_inode_unused := n; directory_count := directory_count g |}.

Definition set_inode_unused (n : Z) (d : ext2_disk_sb) : ext2_disk_sb :=
  {| inode_total := inode_total d; block_total := block_total d; block_unused_total := block_unused_total d;
     inode_unused_total := n; sb_block_number := sb_block_number d;
     blocks_per_block_group := blocks_per_block_group d; inodes_per_block_group := inodes_per_block_group d;
     first_inode := first_inode d; inode_entry_size := inode_entry_size d |}.

(** The bitmap of group [i] and its counter after a bit changed. *)
Definition put_bitmap (f : fs) (i : nat) (g : ext2_disk_block_group) (data : list Z) (n : Z) : fs :=
  set_sb (set_groups (<[i := set_group_inodes n g]> (groups (sb f))) (sb f)) (block_write f (block_nr_inode_bitmap g) data).

Definition put_total (f : fs) (n : Z) : fs := set_sb (set_disksb (set_inode_unused n (disksb (sb f))) (sb f)) f.

Definition ext2_check_block_group (f : fs) (group_no : Z) : outcome (Z * fs) :=
  let s := sb f in
  group ← arr_get (groups s) group_no;
  let highest_inode := if group_no =? block_group_count s - 1 then u32 (inode_total (disksb s) - ipg s * group_no) else ipg s in
  if group_inode_unused group =? 0 then Done (0, f)
  else
    let inode_start := if group_no =? 0 then first_inode (disksb s) else 0 in
    data ← block_data f (block_nr_inode_bitmap group);
    let loc := bit_find_next_zero data inode_start in
    if highest_inode <? u32 loc then Done (0, f)
    else
      data ← bit_set data loc;
      Done (u32 (loc + group_no * ipg s + 1), put_bitmap f (Z.to_nat group_no) group data (u16 (group_inode_unused group - 1))).

(** The loop of [ext2_inode_new] over the groups, with [n] left from group [i]. *)
Fixpoint check_groups (f : fs) (i : Z) (n : nat) : outcome (Z * Z * fs) :=
  match n with
  | O => Done (0, i, f)
  | S n' =>
      '(ino, f) ← ext2_check_block_group f i;
      if negb (ino =? 0) then Done (ino, i, f) else check_groups f (i + 1) n'
  end.

Definition ext2_unset_inode_number (f : fs) (ino : Z) : outcome fs :=
  let s := sb f in
  let inode_group := u32 (ino - 1) / ipg s in
  let inode_entry := u32 (ino - 1) mod ipg s in
  g ← arr_get (groups s) inode_group;
  data ← block_data f (block_nr_inode_bitmap g);
  data ← bit_clear data inode_entry;
  let f := put_bitmap f (Z.to_nat inode_group) g data (u16 (group_inode_unused g + 1)) in
  Done (put_total f (u32 (inode_unused_total (disksb (sb f)) + 1))).

(** [ext2_inode_new]: the number of the inode, and the block and the place of its
    entry.  [got] tells whether [inode_get_invalid] finds memory for it. *)
Definition ext2_inode_new (f : fs) (got : bool) : outcome (Z * option (Z * Z * Z) * fs) :=
  '(ino, i, f) ← check_groups f 0 (Z.to_nat (block_group_count (sb f)));
  if ino =? 0 then Done (- ENOSPC, None, f)
  else
    let s := sb f in
    let entry := u32 (ino - 1) mod ipg s in
    g ← arr_get (groups s) i;
    let inode_group_blk := u32 (block_nr_inode_table g + entry * ies s / block_size s) in
    let inode_group_blk_offset := entry mod (block_size s / ies s) in
    let f := put_total f (u32 (inode_unused_total (disksb s) - 1)) in
    if negb got then f ← ext2_unset_inode_number f ino; Done (- ENOMEM, None, f)
    else Done (0, Some (ino, inode_group_blk, inode_group_blk_offset), f).

Definition EXT2_ACL_IDX_INO : Z := 3.
Definition EXT2_ACL_DATA_INO : Z := 4.

Definition set_dtime (now : Z) (x : ext2_inode) : ext2_inode :=
  {| vfs := vfs x; inode_group_blk_nr := inode_group_blk_nr x; inode_group_blk_offset := inode_group_blk_offset x; dtime := now; blk_ptrs := blk_ptrs x |}.

(** [ext2_inode_delete]; it ends with the statements of [__ext2_unset_inode_number]. *)
Definition ext2_inode_delete (now : Z) (f : fs) (x : ext2_inode) : outcome (Z * fs * ext2_inode) :=
  if negb (nlinks (vfs x) =? 0) then Done (- ENOENT, f, x)
  else if (ino (vfs x) =? EXT2_ACL_IDX_INO) || (ino (vfs x) =? EXT2_ACL_DATA_INO) then Done (0, f, x)
  else
    '(f, x) ← ext2_inode_truncate now f x 0;
    let x := set_vfs set_dirty (set_dtime now x) in
    '(_, f) ← ext2_inode_write f x;
    f ← ext2_unset_inode_number f (ino (vfs x));
    Done (0, f, x).

(** * The invariant *)

Definition inode_sum (gs : list ext2_disk_block_group) : Z := foldr (fun g acc => group_inode_unused g + acc) 0 gs.

(** The bits past the last inode of a group are set, as those who make the file
    system set them. *)
Record inodes_ok (f : fs) : Prop := {
  io_tables : tables_ok f;
  io_total : inode_total (disksb (sb f)) = ipg (sb f) * block_group_count (sb f);
  io_bits : ipg (sb f) <= 8 * block_size (sb f);
  io_first : 0 <= first_inode (disksb (sb f)) < 8 * block_size (sb f);
  io_bitmap : forall i g, groups (sb f) !! i = Some g ->
    is_Some (disk f !! block_nr_inode_bitmap g) /\ ~ bitmap_block (sb f) (block_nr_inode_bitmap g);
  io_distinct : forall i j g h, groups (sb f) !! i = Some g -> groups (sb f) !! j = Some h ->
    block_nr_inode_bitmap g = block_nr_inode_bitmap h -> i = j;
  io_table : forall i j g h k, groups (sb f) !! i = Some g -> groups (sb f) !! j = Some h -> 0 <= k < ipg (sb f) ->
    table_block (sb f) g k <> block_nr_inode_bitmap h;
  io_pad : forall i g data j, groups (sb f) !! i = Some g -> disk f !! block_nr_inode_bitmap g = Some data ->
    ipg (sb f) <= j < 8 * block_size (sb f) -> bit_at data j = true;
  io_count : forall i g data, groups (sb f) !! i = Some g -> disk f !! block_nr_inode_bitmap g = Some data ->
    group_inode_unused g = free_count data (ipg (sb f));
  io_sum : inode_unused_total (disksb (sb f)) = inode_sum (groups (sb f));
}.

(** The bit of inode [n]. *)
Definition ino_used (f : fs) (n : Z) : bool :=
  match groups (sb f) !! Z.to_nat ((n - 1) / ipg (sb f)) with
  | Some g =>
      match disk f !! block_nr_inode_bitmap g with
      | Some data => bit_at data ((n - 1) mod ipg (sb f))
      | None => true
      end
  | None => true
  end.

(** * Super blocks of one layout *)

Lemma layout_group s s' i g' : layout s' = layout s -> groups s' !! i = Some g' ->
  exists g, groups s !! i = Some g /\ block_nr_block_bitmap g = block_nr_block_bitmap g' /\ block_nr_inode_bitmap g = block_nr_inode_bitmap g' /\
    block_nr_inode_table g = block_nr_inode_table g'.
Proof.
  intros HL Hi. injection HL as _ _ _ _ _ _ _ _ _ E. apply (f_equal (.!! i)) in E. rewrite !list_lookup_fmap, Hi in E.
  destruct (groups s !! i) as [g|]; [|done]. exists g. cbn in E. split_and!; congruence.
Qed.

Lemma layout_fields s s' : layout s' = layout s ->
  block_size s' = block_size s /\ ipg s' = ipg s /\ ies s' = ies s /\ inode_total (disksb s') = inode_total (disksb s) /\
  first_inode (disksb s') = first_inode (disksb s) /\ block_group_count s' = block_group_count s /\ length (groups s') = length (groups s).
Proof.
  intros HL. injection HL as E1 E2 _ _ _ E6 E7 E8 E9 E10. apply (f_equal length) in E10. rewrite !length_fmap in E10. done.
Qed.

Lemma layout_used f s' b : layout s' = layout (sb f) -> used (set_sb s' f) b = used f b.
Proof.
  intros HL. pose proof HL as HL2. injection HL2 as _ _ E3 E4 _ _ _ _ _ _. unfold used, group_of, index_of. cbn [sb disk set_sb]. rewrite E3, E4.
  destruct (groups s' !! _) as [g'|] eqn:Eg.
  - destruct (layout_group _ _ _ _ HL Eg) as (g & -> & -> & _). done.
  - destruct (groups (sb f) !! _) as [g|] eqn:Eg2; [|done]. destruct (layout_group _ _ _ _ (eq_sym HL) Eg2) as (g' & E & _). congruence.
Qed.

(** The counters of inodes are no part of what is known of the blocks. *)
Lemma fs_ok_sb f s' : fs_ok f -> layout s' = layout (sb f) -> group_block_unused <$> groups s' = group_block_unused <$> groups (sb f) ->
  block_unused_total (disksb s') = block_unused_total (disksb (sb f)) -> fs_ok (set_sb s' f).
Proof.
  intros [[G HB HM HF HU] HT] HL Hg Htot. pose proof (layout_fields _ _ HL) as (Ebs & _). split.
  - split; cbn [sb disk set_sb].
    + by apply (layout_geometry (sb f)).
    + intros n data Hd. rewrite Ebs. by apply (HB n).
    + intros n Hn. apply HM. by apply (layout_bitmap _ _ _ HL).
    + intros b [Hr Hu]. cbn [sb set_sb] in Hr. apply (layout_range _ _ _ HL) in Hr. rewrite (layout_used f s' b HL) in Hu. destruct (HF b (conj Hr Hu)) as (A & B & C & D).
      split_and!; [by apply (layout_range _ _ _ HL) | done | done | by intros ?%(layout_bitmap _ _ _ HL)].
    + intros i g' data Hi Hd. destruct (layout_group _ _ _ _ HL Hi) as (g & Hgi & E & _). rewrite (layout_limit _ _ _ HL), <- (HU i g data Hgi) by congruence.
      apply (f_equal (.!! i)) in Hg. rewrite !list_lookup_fmap, Hi, Hgi in Hg. by injection Hg.
  - cbn [sb set_sb]. rewrite Htot, HT. clear -Hg. revert Hg. generalize (groups (sb f)) as b. induction (groups s') as [|g a IH]; intros [|h b] E; try done.
    cbn in E. injection E as E1 E2. unfold unused_sum. cbn [foldr]. fold (unused_sum b) (unused_sum a). rewrite E1. f_equal. by apply IH.
Qed.

Lemma tables_layout f f' : tables_ok f -> layout (sb f') = layout (sb f) ->
  (forall i g k, groups (sb f) !! i = Some g -> 0 <= k < ipg (sb f) -> is_Some (disk f' !! table_block (sb f) g k)) -> tables_ok f'.
Proof.
  intros [H1 H2 H3 H4 H5 H6] HL Hdom. pose proof (layout_fields _ _ HL) as (E1 & E2 & E3 & _ & _ & _ & E7).
  assert (Hb : forall i g', groups (sb f') !! i = Some g' -> exists g, groups (sb f) !! i = Some g /\ forall k, table_block (sb f') g' k = table_block (sb f) g k).
  { intros i g' Hi. destruct (layout_group _ _ _ _ HL Hi) as (g & Hg & _ & _ & Et). exists g. split; [done|]. intros k. unfold table_block. by rewrite Et, E1, E3. }
  split; rewrite ?E1, ?E2, ?E3, ?E7; try done.
  - intros i g' k Hi Hk. destruct (Hb i g' Hi) as (g & Hg & ->). by apply (H4 i).
  - intros i g' k Hi Hk. destruct (Hb i g' Hi) as (g & Hg & ->). destruct (H5 i g k Hg Hk) as [_ Hn]. split; [by apply (Hdom i)|]. by intros ?%(layout_bitmap _ _ _ HL).
  - intros i j g' h' k l Hi Hj Hk Hl. destruct (Hb i g' Hi) as (g & Hg & ->). destruct (Hb j h' Hj) as (h & Hh & ->). by apply (H6 i j).
Qed.

(** * The search *)

Lemma find_next_clear bs : forall i st, 0 <= st < 8 ->
  find_next_from false bs i st = -1 \/ exists j, find_next_from false bs i st = i * 8 + j /\ 0 <= j < 8 * Z.of_nat (length bs) /\ bit_at bs j = false.
Proof.
  induction bs as [|b bs IH]; intros i st Hst; cbn [find_next_from]; [by left|].
  assert (Hgo : forall st', 0 <= st' < 8 -> find_next_from false bs (i + 1) st' = -1 \/
    exists j, find_next_from false bs (i + 1) st' = i * 8 + j /\ 0 <= j < 8 * Z.of_nat (length (b :: bs)) /\ bit_at (b :: bs) j = false).
  { intros st' Hst'. destruct (IH (i + 1) st' Hst') as [->|(j & -> & Hj & Hb)]; [by left|]. right. exists (j + 8). cbn [length]. split_and!; [lia | lia | lia|].
    rewrite bit_at_cons by lia. destruct (Z.ltb_spec (j + 8) 8); [lia|]. by replace (j + 8 - 8) with j by lia. }
  destruct (b =? 255); [by apply Hgo|]. pose proof (scan_bits_spec false (Z.to_nat (8 - st)) (Z.shiftr b st) st) as Hs.
  destruct (scan_bits false _ _ st) as [r|]; [|by apply Hgo]. right. destruct Hs as (Hr & Hb & _). rewrite Z.shiftr_spec, Z.sub_add in Hb by lia. exists r. cbn [length].
  split_and!; [lia | lia | lia|]. rewrite bit_at_cons by lia. by destruct (Z.ltb_spec r 8); [|lia].
Qed.

Lemma bit_find_next_zero_clear bs start : 0 <= start < 8 * Z.of_nat (length bs) ->
  bit_find_next_zero bs start = -1 \/ 0 <= bit_find_next_zero bs start < 8 * Z.of_nat (length bs) /\ bit_at bs (bit_find_next_zero bs start) = false.
Proof.
  intros Hs. unfold bit_find_next_zero. pose proof (Z.div_pos start 8 ltac:(lia) ltac:(lia)). pose proof (Z.mod_pos_bound start 8 ltac:(lia)).
  assert (start / 8 < Z.of_nat (length bs)) by (apply Z.div_lt_upper_bound; lia).
  destruct (find_next_clear (drop (Z.to_nat (start / 8)) bs) (start / 8) (start mod 8)) as [->|(j & -> & Hj & Hb)]; [lia | by left|].
  right. rewrite length_drop in Hj. split; [lia|]. rewrite bit_at_drop in Hb by lia. rewrite <- Hb. f_equal. lia.
Qed.

(** * A bit changes *)

Lemma inode_sum_insert gs i g n : gs !! i = Some g -> inode_sum (<[i := set_group_inodes n g]> gs) = inode_sum gs + n - group_inode_unused g.
Proof.
  revert i. induction gs as [|h gs IH]; intros i H; [done|]. destruct i as [|i].
  - injection H as ->. cbn. lia.
  - change (group_inode_unused h + inode_sum (<[i := set_group_inodes n g]> gs) = group_inode_unused h + inode_sum gs + n - group_inode_unused g). rewrite (IH i H). lia.
Qed.

Section Change.
Context (f : fs) (Hok : fs_ok f) (Hio : inodes_ok f) (i : nat) (g : ext2_disk_block_group) (data data' : list Z) (j : Z) (v : bool).
Context (Hg : groups (sb f) !! i = Some g) (Hd : disk f !! block_nr_inode_bitmap g = Some data) (Hj : 0 <= j < ipg (sb f)).
Context (Hold : bit_at data j = negb v) (Hnew : bit_at data' j = v) (Hl : length data' = length data) (Hb : bytes data').
Context (Hrest : forall k, 0 <= k -> k <> j -> bit_at data' k = bit_at data k).

Definition change : Z := if v then -1 else 1.

Definition changed : fs := put_total (put_bitmap f i g data' (group_inode_unused g + change)) (inode_unused_total (disksb (sb f)) + change).

Lemma changed_layout : layout (sb changed) = layout (sb f).
Proof using Hok Hio Hg Hd Hj Hold Hnew Hl Hb Hrest.
  unfold layout, changed, first_block, total, bpg. cbn [sb disk set_sb block_write put_total put_bitmap set_disksb set_groups block_size block_group_count disksb groups set_inode_unused inode_total inodes_per_block_group first_inode inode_entry_size sb_block_number blocks_per_block_group block_total].
  f_equal. rewrite list_fmap_insert. cbn. apply list_insert_id. by rewrite list_lookup_fmap, Hg.
Qed.

Lemma changed_fs : fs_ok changed.
Proof using Hok Hio Hg Hd Hj Hold Hnew Hl Hb Hrest.
  destruct (io_bitmap f Hio i g Hg) as [_ Hnb]. destruct (block_shape f Hok _ _ Hd) as [Hlen _].
  destruct (block_write_ok f Hok (block_nr_inode_bitmap g) data') as (W & _ & _); [by eauto | done | lia | done|].
  apply (fs_ok_sb (block_write f (block_nr_inode_bitmap g) data') (sb changed) W); [apply changed_layout | | done].
  cbn. rewrite list_fmap_insert. apply list_insert_id. by rewrite list_lookup_fmap, Hg.
Qed.

Lemma changed_group k h' : groups (sb changed) !! k = Some h' ->
  exists h, groups (sb f) !! k = Some h /\ block_nr_inode_bitmap h' = block_nr_inode_bitmap h /\ block_nr_inode_table h' = block_nr_inode_table h /\
    group_inode_unused h' = (if decide (k = i) then group_inode_unused g + change else group_inode_unused h) /\
    disk changed !! block_nr_inode_bitmap h' = (if decide (k = i) then Some data' else disk f !! block_nr_inode_bitmap h).
Proof using Hok Hio Hg Hd Hj Hold Hnew Hl Hb Hrest.
  cbn [changed put_total put_bitmap set_sb block_write sb disk groups set_disksb set_groups]. intros Hk. destruct (decide (k = i)) as [->|Hne].
  - rewrite list_lookup_insert_eq in Hk by (by eapply lookup_lt_Some). injection Hk as <-. exists g. split_and!; try done. apply lookup_insert_eq.
  - rewrite list_lookup_insert_ne in Hk by done. exists h'. split_and!; try done. apply lookup_insert_ne. intros E. apply Hne. symmetry. by apply (io_distinct f Hio i k g h').
Qed.

Lemma changed_count : free_count data' (ipg (sb f)) = free_count data (ipg (sb f)) + change.
Proof using Hok Hio Hg Hd Hj Hold Hnew Hl Hb Hrest. unfold change. destruct v; [rewrite (free_count_set data data' j) by done; lia | by apply (free_count_clear data data' j)]. Qed.

Lemma changed_inodes : inodes_ok changed.
Proof using Hok Hio Hg Hd Hj Hold Hnew Hl Hb Hrest.
  pose proof Hio as [I1 I2 I3 I4 I5 I6 I7 I8 I9 I10]. pose proof changed_layout as HL. pose proof (layout_fields _ _ HL) as (E1 & E2 & E3 & E4 & E5 & E6 & E7).
  split; rewrite ?E1, ?E2, ?E4, ?E5, ?E6; try done.
  - apply (tables_layout f); [done | done|]. intros k h e Hk He. cbn. apply lookup_insert_is_Some'. right. by apply (tb_block f I1 k).
  - intros k h' Hk. destruct (changed_group k h' Hk) as (h & Hh & Eb & _ & _ & Ed). rewrite Ed, Eb. destruct (I5 k h Hh) as [Ha Hn]. split; [by case_decide|].
    by intros ?%(layout_bitmap _ _ _ HL).
  - intros k l h1 h2 Hk1 Hk2. destruct (changed_group k h1 Hk1) as (g1 & G1 & -> & _). destruct (changed_group l h2 Hk2) as (g2 & G2 & -> & _). by apply (I6 k l).
  - intros k l h1 h2 e Hk1 Hk2 He. destruct (changed_group k h1 Hk1) as (g1 & G1 & _ & Et & _). destruct (changed_group l h2 Hk2) as (g2 & G2 & -> & _).
    unfold table_block. rewrite Et, E1, E3. by apply (I7 k l g1 g2 e).
  - intros k h' dt e Hk Hdt He. destruct (changed_group k h' Hk) as (h & Hh & Eb & _ & _ & Ed). rewrite Hdt in Ed. case_decide as Ek; [|by apply (I8 k h dt)].
    injection Ed as ->. subst k. rewrite Hg in Hh. injection Hh as <-. rewrite Hrest by lia. by apply (I8 i g data).
  - intros k h' dt Hk Hdt. destruct (changed_group k h' Hk) as (h & Hh & Eb & _ & -> & Ed). rewrite Hdt in Ed. case_decide as Ek; [|by apply (I9 k h dt)].
    injection Ed as ->. rewrite changed_count, (I9 i g data) by done. done.
  - cbn. rewrite I10, inode_sum_insert by done. lia.
Qed.

Lemma changed_used m : valid_ino (sb f) m -> ino_used changed m = if decide (m = Z.of_nat i * ipg (sb f) + j + 1) then v else ino_used f m.
Proof using Hok Hio Hg Hd Hj Hold Hnew Hl Hb Hrest.
  intros [H1 H2]. pose proof changed_layout as HL. pose proof (layout_fields _ _ HL) as (E1 & E2 & _ & _ & _ & _ & E7). destruct (tb_ipg f (io_tables f Hio)) as [Hip _].
  unfold ino_used. rewrite E2. pose proof (Z.div_mod (m - 1) (ipg (sb f)) ltac:(lia)) as Dm. pose proof (Z.mod_pos_bound (m - 1) (ipg (sb f)) ltac:(lia)) as Bm.
  assert (0 <= (m - 1) / ipg (sb f) < Z.of_nat (length (groups (sb f)))) by (split; [apply Z.div_pos; lia | apply Z.div_lt_upper_bound; lia]).
  destruct (lookup_lt_is_Some_2 (groups (sb changed)) (Z.to_nat ((m - 1) / ipg (sb f)))) as [h' Hh']; [rewrite E7; lia|]. rewrite Hh'.
  destruct (changed_group _ _ Hh') as (h & Hh & Eb & _ & _ & ->). rewrite Hh. destruct (decide (Z.to_nat ((m - 1) / ipg (sb f)) = i)) as [Ei|Ei].
  - rewrite Ei, Hg in Hh. injection Hh as <-. rewrite Hd. replace ((m - 1) / ipg (sb f)) with (Z.of_nat i) in Dm by lia.
    destruct (decide (m = _)) as [->|Hne].
    + replace ((Z.of_nat i * ipg (sb f) + j + 1 - 1) mod ipg (sb f)) with j in * by lia. done.
    + apply Hrest; [lia|]. intros E. apply Hne. rewrite E in Dm. lia.
  - rewrite decide_False; [done|]. intros ->. apply Ei. replace ((Z.of_nat i * ipg (sb f) + j + 1 - 1) / ipg (sb f)) with (Z.of_nat i); [lia|].
    apply (Z.div_unique_pos _ _ _ j); lia.
Qed.
End Change.

(** * Taking and giving back *)

(** [f'] is [f] with the bit of inode [n] changed to [v]. *)
Record ino_marked (f f' : fs) (n : Z) (v : bool) : Prop := {
  im_ok : fs_ok f';
  im_inodes : inodes_ok f';
  im_layout : layout (sb f') = layout (sb f);
  im_used : forall m, valid_ino (sb f) m -> ino_used f' m = if decide (m = n) then v else ino_used f m;
  im_count : inode_unused_total (disksb (sb f')) = inode_unused_total (disksb (sb f)) + if v then -1 else 1;
  im_frame : forall b, (forall i g, groups (sb f) !! i = Some g -> block_nr_inode_bitmap g <> b) -> disk f' !! b = disk f !! b;
}.

Section Counts.
Context (f : fs) (Hok : fs_ok f) (Hio : inodes_ok f).

Lemma group_counts i g : groups (sb f) !! i = Some g -> 0 <= group_inode_unused g <= ipg (sb f).
Proof using Hok Hio.
  intros Hg. destruct (io_bitmap f Hio i g Hg) as [[data Hd] _]. rewrite (io_count f Hio i g data Hg Hd). apply free_count_bound. pose proof (tb_ipg f (io_tables f Hio)). lia.
Qed.

Lemma sum_bounds : 0 <= inode_sum (groups (sb f)) <= ipg (sb f) * Z.of_nat (length (groups (sb f))) /\
  forall i g, groups (sb f) !! i = Some g -> group_inode_unused g <= inode_sum (groups (sb f)).
Proof using Hok Hio.
  assert (Hall : Forall (fun g => 0 <= group_inode_unused g <= ipg (sb f)) (groups (sb f))) by (apply Forall_lookup; intros i g; apply group_counts).
  clear Hok Hio. induction Hall as [|h l Hh _ [IH1 IH2]]; [split; [cbn; lia | done]|]. change (inode_sum (h :: l)) with (group_inode_unused h + inode_sum l). cbn [length]. split; [lia|].
  intros [|i] g; cbn; [intros [= ->]; lia | intros Hg; specialize (IH2 i g Hg); lia].
Qed.

Lemma ipg_small : 0 < ipg (sb f) <= 32768.
Proof using Hok Hio. pose proof (tb_ipg f (io_tables f Hio)). pose proof (io_bits f Hio). destruct (geo_bs _ (ok_geo _ (ok_alloc _ Hok))) as [?|[?|?]]; lia. Qed.

End Counts.

Section Take.
Context (f : fs) (Hok : fs_ok f) (Hio : inodes_ok f).

(** A bit that changes marks its inode. *)
Lemma changed_marked i g data data' j v : groups (sb f) !! i = Some g -> disk f !! block_nr_inode_bitmap g = Some data -> 0 <= j < ipg (sb f) ->
  bit_at data j = negb v -> bit_at data' j = v -> length data' = length data -> bytes data' -> (forall k, 0 <= k -> k <> j -> bit_at data' k = bit_at data k) ->
  ino_marked f (changed f i g data' v) (Z.of_nat i * ipg (sb f) + j + 1) v.
Proof using Hok Hio.
  intros Hg Hd Hj H1 H2 H3 H4 H5. split.
  - by apply (changed_fs f Hok Hio i g data data' j v).
  - by apply (changed_inodes f Hok Hio i g data data' j v).
  - by apply (changed_layout f Hok Hio i g data data' j v).
  - intros m Hm. by apply (changed_used f Hok Hio i g data data' j v).
  - done.
  - intros b Hb. cbn. apply lookup_insert_ne. by apply (Hb i g).
Qed.

Lemma ino_group i j : 0 <= j < ipg (sb f) -> (Z.of_nat i < Z.of_nat (length (groups (sb f)))) ->
  valid_ino (sb f) (Z.of_nat i * ipg (sb f) + j + 1) /\ u32 (Z.of_nat i * ipg (sb f) + j + 1 - 1) / ipg (sb f) = Z.of_nat i /\
  u32 (Z.of_nat i * ipg (sb f) + j + 1 - 1) mod ipg (sb f) = j.
Proof using Hok Hio.
  intros Hj Hi. pose proof (tb_count f (io_tables f Hio)). replace (Z.of_nat i * ipg (sb f) + j + 1 - 1) with (Z.of_nat i * ipg (sb f) + j) by lia.
  assert (ipg (sb f) * (Z.of_nat i + 1) <= ipg (sb f) * Z.of_nat (length (groups (sb f)))) by (apply Z.mul_le_mono_nonneg_l; lia).
  assert (0 <= Z.of_nat i * ipg (sb f)) by (apply Z.mul_nonneg_nonneg; lia).
  rewrite u32_small by lia. split; [unfold valid_ino; lia|]. split; [symmetry; apply (Z.div_unique_pos _ _ _ j); lia | symmetry; apply (Z.mod_unique_pos _ _ (Z.of_nat i)); lia].
Qed.

(** One group hands out a free number, or nothing changes. *)
Lemma check_group_spec i g : groups (sb f) !! i = Some g ->
  ext2_check_block_group f (Z.of_nat i) = Done (0, f) \/
  exists data data' j, 0 <= j < ipg (sb f) /\ disk f !! block_nr_inode_bitmap g = Some data /\ bit_at data j = false /\ bit_set data j = Done data' /\ 0 < group_inode_unused g /\
    ext2_check_block_group f (Z.of_nat i) = Done (Z.of_nat i * ipg (sb f) + j + 1, put_bitmap f i g data' (group_inode_unused g - 1)).
Proof using Hok Hio.
  intros Hg. pose proof (lookup_lt_Some _ _ _ Hg) as Hi. pose proof (ipg_small f Hok Hio) as Hip. pose proof (group_counts f Hok Hio i g Hg) as Hc. unfold ext2_check_block_group.
  rewrite (proj2 (arr_get_done _ _ g)) by (rewrite Nat2Z.id; split; [lia | done]). obind.
  destruct (Z.eqb_spec (group_inode_unused g) 0); [by left|]. destruct (io_bitmap f Hio i g Hg) as [[data Hd] _]. unfold block_data. rewrite Hd. obind.
  destruct (block_shape f Hok _ _ Hd) as [Hlen _]. rewrite <- (bs_ppb f Hok) in Hlen. pose proof (geo_count _ (ok_geo _ (ok_alloc _ Hok))) as Hgc.
  assert (Eh : (if Z.of_nat i =? block_group_count (sb f) - 1 then u32 (inode_total (disksb (sb f)) - ipg (sb f) * Z.of_nat i) else ipg (sb f)) = ipg (sb f)).
  { destruct (Z.eqb_spec (Z.of_nat i) (block_group_count (sb f) - 1)) as [E|]; [|done]. rewrite (io_total f Hio), E. rewrite u32_small; lia. }
  rewrite Eh. set (st := if Z.of_nat i =? 0 then _ else 0). assert (Hst : 0 <= st < 8 * Z.of_nat (length data)).
  { unfold st. pose proof (io_first f Hio). destruct (Z.of_nat i =? 0); lia. }
  destruct (bit_find_next_zero_clear data st Hst) as [->|[Hr Hb]].
  { left. change (u32 (-1)) with (2 ^ 32 - 1). destruct (Z.ltb_spec (ipg (sb f)) (2 ^ 32 - 1)); [done | lia]. }
  set (j := bit_find_next_zero data st) in *. assert (Hj : j < ipg (sb f)).
  { destruct (Z.lt_ge_cases j (ipg (sb f))); [done|]. rewrite (io_pad f Hio i g data j Hg Hd) in Hb by lia. done. }
  rewrite (u32_small j) by (destruct (geo_bs _ (ok_geo _ (ok_alloc _ Hok))) as [?|[?|?]]; lia). destruct (Z.ltb_spec (ipg (sb f)) j); [lia|].
  destruct (bit_update_total Z.setbit data j Hr) as [data' Hs]. fold (bit_set data j) in Hs. rewrite Hs. obind. right. exists data, data', j. split_and!; try done; try lia.
  destruct (ino_group i j ltac:(lia) ltac:(lia)) as [[Hv1 Hv2] _]. pose proof (tb_count f (io_tables f Hio)). rewrite Nat2Z.id.
  replace (j + Z.of_nat i * ipg (sb f) + 1) with (Z.of_nat i * ipg (sb f) + j + 1) by lia. rewrite u32_small by lia. unfold u16. by rewrite uwrap_small by lia.
Qed.

Lemma check_groups_spec n : forall i, (i + n = length (groups (sb f)))%nat ->
  (exists k, check_groups f (Z.of_nat i) n = Done (0, k, f)) \/
  exists k g data data' j, groups (sb f) !! k = Some g /\ 0 <= j < ipg (sb f) /\ disk f !! block_nr_inode_bitmap g = Some data /\ bit_at data j = false /\
    bit_set data j = Done data' /\ 0 < group_inode_unused g /\
    check_groups f (Z.of_nat i) n = Done (Z.of_nat k * ipg (sb f) + j + 1, Z.of_nat k, put_bitmap f k g data' (group_inode_unused g - 1)).
Proof using Hok Hio.
  induction n as [|n IH]; intros i Hi; cbn [check_groups]; [left; by eexists|].
  destruct (lookup_lt_is_Some_2 (groups (sb f)) i) as [g Hg]; [lia|]. destruct (check_group_spec i g Hg) as [->|(data & data' & j & Hj & Hd & Hb & Hs & Hc & ->)]; obind.
  - replace (Z.of_nat i + 1) with (Z.of_nat (S i)) by lia. apply IH. lia.
  - pose proof (ipg_small f Hok Hio). assert (0 <= Z.of_nat i * ipg (sb f)) by (apply Z.mul_nonneg_nonneg; lia). destruct (Z.eqb_spec (Z.of_nat i * ipg (sb f) + j + 1) 0); [lia|]. cbn [negb].
    right. by exists i, g, data, data', j.
Qed.

(** Giving a number back. *)
Lemma unset_spec n : valid_ino (sb f) n -> ino_used f n = true -> exists f', ext2_unset_inode_number f n = Done f' /\ ino_marked f f' n false.
Proof using Hok Hio.
  intros Hv Hu. pose proof (ipg_small f Hok Hio) as Hip. pose proof (tb_count f (io_tables f Hio)) as Hcnt. destruct Hv as [H1 H2].
  pose proof (Z.div_mod (n - 1) (ipg (sb f)) ltac:(lia)) as Dm. pose proof (Z.mod_pos_bound (n - 1) (ipg (sb f)) ltac:(lia)) as Bm.
  assert (Hi : 0 <= (n - 1) / ipg (sb f) < Z.of_nat (length (groups (sb f)))) by (split; [apply Z.div_pos; lia | apply Z.div_lt_upper_bound; lia]).
  unfold ino_used in Hu. unfold ext2_unset_inode_number. rewrite u32_small by lia. set (i := Z.to_nat ((n - 1) / ipg (sb f))) in *. set (j := (n - 1) mod ipg (sb f)) in *.
  destruct (lookup_lt_is_Some_2 (groups (sb f)) i) as [g Hg]; [lia|]. rewrite Hg in Hu. destruct (io_bitmap f Hio i g Hg) as [[data Hd] _]. rewrite Hd in Hu.
  rewrite (proj2 (arr_get_done _ _ g)) by (split; [lia | done]). obind. unfold block_data. rewrite Hd. obind.
  destruct (block_shape f Hok _ _ Hd) as [Hlen Hby]. rewrite <- (bs_ppb f Hok) in Hlen. pose proof (io_bits f Hio).
  destruct (bit_update_total Z.clearbit data j ltac:(lia)) as [data' Hs]. fold (bit_clear data j) in Hs. rewrite Hs. obind. eexists. split; [done|].
  destruct (bit_clear_at data j data' ltac:(lia) Hs) as (B1 & B2 & B3).
  pose proof (changed_marked i g data data' j false Hg Hd Bm ltac:(done) B1 B2 (bytes_update _ _ _ _ (fun b k Hb _ => bytes_clearbit b k Hb) Hby Hs) B3) as Hm.
  replace (Z.of_nat i * ipg (sb f) + j + 1) with n in Hm by lia.
  assert (Hc : group_inode_unused g + 1 <= ipg (sb f)).
  { rewrite (io_count f Hio i g data Hg Hd). pose proof (free_count_clear data data' j (ipg (sb f)) Bm Hu B1 B3). pose proof (free_count_bound data' (ipg (sb f)) ltac:(lia)). lia. }
  pose proof (group_counts f Hok Hio i g Hg). destruct (sum_bounds f Hok Hio) as [Hsum _].
  assert (Eu : u16 (group_inode_unused g + 1) = group_inode_unused g + 1) by (apply uwrap_small; lia). rewrite Eu.
  cbn [sb put_bitmap set_sb block_write set_groups disksb]. assert (Et : u32 (inode_unused_total (disksb (sb f)) + 1) = inode_unused_total (disksb (sb f)) + 1); [|by rewrite Et].
  apply u32_small. pose proof (io_sum f Hio). pose proof (im_inodes _ _ _ _ Hm) as Hio'. pose proof (io_sum _ Hio') as Hs'. pose proof (im_count _ _ _ _ Hm) as Hc'. cbv iota in Hc'.
  destruct (sum_bounds _ (im_ok _ _ _ _ Hm) Hio') as [Hsum' _]. pose proof (tb_count _ (io_tables _ Hio')). lia.
Qed.
End Take.


(** What [ext2_inode_new] leaves behind. *)
Record inode_taken (f f' : fs) (n blk off : Z) : Prop := {
  tk_valid : valid_ino (sb f) n;
  tk_free : ino_used f n = false;
  tk_marked : ino_marked f f' n true;
  tk_place : inode_place (sb f') n = Done (blk, off);
}.

Lemma inode_taken_spec f k g data data' j : fs_ok f -> inodes_ok f -> groups (sb f) !! k = Some g -> 0 <= j < ipg (sb f) ->
  disk f !! block_nr_inode_bitmap g = Some data -> bit_at data j = false -> bit_set data j = Done data' ->
  inode_taken f (changed f k g data' true) (Z.of_nat k * ipg (sb f) + j + 1) (table_block (sb f) g j) (j mod (block_size (sb f) / ies (sb f))).
Proof.
  intros Hok Hio Hg Hj Hd Hb Hs. pose proof (lookup_lt_Some _ _ _ Hg) as Hk. destruct (ino_group f Hok Hio k j Hj ltac:(lia)) as (Hv & Eq & Em).
  destruct (bit_set_at data j data' ltac:(lia) Hs) as (B1 & B2 & B3). destruct (block_shape f Hok _ _ Hd) as [_ Hby].
  pose proof (changed_marked f Hok Hio k g data data' j true Hg Hd Hj Hb B1 B2 (bytes_update _ _ _ _ bytes_setbit Hby Hs) B3) as Hm.
  split; [done | | done |].
  - unfold ino_used. destruct Hv as [H1 H2]. pose proof (tb_count f (io_tables f Hio)). rewrite u32_small in Eq, Em by lia. rewrite Eq, Em, Nat2Z.id, Hg, Hd. done.
  - pose proof (layout_fields _ _ (im_layout _ _ _ _ Hm)) as (E1 & E2 & E3 & _). unfold inode_place. rewrite E1, E2, E3, Eq, Em.
    destruct (lookup_lt_is_Some_2 (groups (sb (changed f k g data' true))) k) as [h Hh]; [cbn; by rewrite length_insert|].
    rewrite (proj2 (arr_get_done _ _ h)) by (rewrite Nat2Z.id; split; [lia | done]). obind.
    destruct (layout_group _ _ _ _ (im_layout _ _ _ _ Hm) Hh) as (g' & Hg' & _ & _ & Et). rewrite Hg in Hg'. injection Hg' as <-. rewrite <- Et.
    pose proof (tb_range f (io_tables f Hio) k g j Hg Hj) as Hr. pose proof (tb_ipg f (io_tables f Hio)). pose proof (tb_size f (io_tables f Hio)).
    rewrite u32_small by nia. fold (table_block (sb f) g j). by rewrite i32_small by lia.
Qed.

Lemma inode_new_spec f got : fs_ok f -> inodes_ok f ->
  (ext2_inode_new f got = Done (- ENOSPC, None, f)) \/
  exists f1 n blk off, inode_taken f f1 n blk off /\
    ext2_inode_new f got = if got then Done (0, Some (n, blk, off), f1) else f ← ext2_unset_inode_number f1 n; Done (- ENOMEM, None, f).
Proof.
  intros Hok Hio. unfold ext2_inode_new. rewrite <- (geo_count _ (ok_geo _ (ok_alloc _ Hok))), Nat2Z.id.
  destruct (check_groups_spec f Hok Hio (length (groups (sb f))) 0 eq_refl) as [(k & E)|(k & g & data & data' & j & Hg & Hj & Hd & Hb & Hs & Hc & E)];
    change (Z.of_nat 0) with 0 in E; rewrite E; obind; [by left|].
  right. pose proof (lookup_lt_Some _ _ _ Hg) as Hk. destruct (ino_group f Hok Hio k j Hj ltac:(lia)) as ([Hv1 Hv2] & Eq & Em).
  destruct (Z.eqb_spec (Z.of_nat k * ipg (sb f) + j + 1) 0); [lia|].
  cbn [sb put_bitmap set_sb block_write set_groups disksb groups block_size]. rewrite Em, (proj2 (arr_get_done _ _ (set_group_inodes (group_inode_unused g - 1) g))) by
    (rewrite Nat2Z.id; split; [lia | by apply list_lookup_insert_eq]). obind.
  eexists _, _, _, _. split; [by apply (inode_taken_spec f k g data data' j)|].
  pose proof (tb_range f (io_tables f Hio) k g j Hg Hj) as Hr. cbn [set_group_inodes block_nr_inode_table]. fold (table_block (sb f) g j). rewrite (u32_small (table_block _ _ _)) by lia.
  destruct (sum_bounds f Hok Hio) as [Hs1 Hs2]. specialize (Hs2 k g Hg). pose proof (io_sum f Hio). pose proof (tb_count f (io_tables f Hio)).
  rewrite (u32_small (inode_unused_total (disksb (sb f)) - 1)) by lia. by destruct got.
Qed.

(** C7: A new inode gets a number that was free: its bit was clear and is the only one to
    change, the entry that is returned is the place of that inode in the table, and
    the counters of free inodes stay exact.  When no memory is found for the inode,
    its number is free again. *)
Theorem ext2_inode_new_correct f got : fs_ok f -> inodes_ok f ->
  exists ret r f', ext2_inode_new f got = Done (ret, r, f') /\ fs_ok f' /\ inodes_ok f' /\
    match r with
    | Some (n, blk, off) => ret = 0 /\ inode_taken f f' n blk off
    | None => (ret = - ENOSPC \/ ret = - ENOMEM /\ got = false) /\ forall m, valid_ino (sb f) m -> ino_used f' m = ino_used f m
    end.
Proof.
  intros Hok Hio. destruct (inode_new_spec f got Hok Hio) as [->|(f1 & n & blk & off & Ht & ->)].
  { eexists _, _, _. split; [done|]. split_and!; auto. }
  pose proof Ht as [Hv Hfree Hm _]. destruct got.
  { eexists _, _, _. split; [done|]. split_and!; [apply Hm | apply Hm | done | done]. }
  pose proof (layout_fields _ _ (im_layout _ _ _ _ Hm)) as (_ & E2 & _ & _ & _ & _ & E7).
  assert (Hv1 : forall m, valid_ino (sb f) m -> valid_ino (sb f1) m) by (intros m; unfold valid_ino; by rewrite E2, E7).
  destruct (unset_spec f1 (im_ok _ _ _ _ Hm) (im_inodes _ _ _ _ Hm) n (Hv1 n Hv)) as (f2 & -> & Hm2); [rewrite (im_used _ _ _ _ Hm) by done; by rewrite decide_True|]. obind.
  eexists _, _, _. split; [done|]. split_and!; [apply Hm2 | apply Hm2 | by right|]. intros m Hmv. rewrite (im_used _ _ _ _ Hm2), (im_used _ _ _ _ Hm) by auto. case_decide; [by subst | done].
Qed.

(** * A file system to run on *)

Lemma demo_group i g : groups (sb demo_inodes) !! i = Some g -> i = 0%nat /\ block_nr_block_bitmap g = 3 /\ block_nr_inode_bitmap g = 2 /\
  block_nr_inode_table g = 4 /\ group_inode_unused g = 5.
Proof. intros Hg. destruct i as [|i]; [|by destruct i]. by injection Hg as <-. Qed.

Lemma demo_ibitmap_pad j : 16 <= j < 8192 -> bit_at demo_ibitmap j = true.
Proof.
  intros Hj. unfold bit_at. assert (Hi : 2 <= j / 8 < 1024) by (Z.div_mod_to_equations; lia).
  assert (demo_ibitmap !! Z.to_nat (j / 8) = Some 255) as ->.
  { unfold demo_ibitmap. rewrite lookup_app_r by (cbn; lia). apply lookup_replicate_2. cbn. lia. }
  cbn [default]. change 255 with (Z.ones 8). apply Z.ones_spec_low. apply Z.mod_pos_bound. lia.
Qed.

Lemma demo_inodes_ok : inodes_ok demo_inodes.
Proof.
  assert (Hd : forall g data, block_nr_inode_bitmap g = 2 -> disk demo_inodes !! block_nr_inode_bitmap g = Some data -> data = demo_ibitmap).
  { intros g data ->. cbn. rewrite lookup_insert_eq. by intros [= <-]. }
  split; try done.
  - apply demo_tables.
  - intros i g Hg. destruct (demo_group i g Hg) as (_ & _ & -> & _). split; [cbn; rewrite lookup_insert_eq; by eexists|]. intros (j & h & Hh & E).
    destruct (demo_group j h Hh) as (_ & E2 & _). lia.
  - intros i j g h Hg Hh _. destruct (demo_group i g Hg) as [-> _]. by destruct (demo_group j h Hh) as [-> _].
  - intros i j g h k Hg Hh Hk. destruct (demo_group i g Hg) as (_ & _ & _ & E & _). destruct (demo_group j h Hh) as (_ & _ & -> & _). unfold table_block. rewrite E.
    pose proof (Z.div_pos (k * ies (sb demo_inodes)) (block_size (sb demo_inodes)) ltac:(cbn; lia) ltac:(cbn; lia)). lia.
  - intros i g data j Hg Hdt Hj. destruct (demo_group i g Hg) as (_ & _ & E & _). rewrite (Hd g data E Hdt). by apply demo_ibitmap_pad.
  - intros i g data Hg Hdt. destruct (demo_group i g Hg) as (_ & _ & E & _ & ->). by rewrite (Hd g data E Hdt).
Qed.

Lemma ext2_inode_new_correct_witness :
  exists ret r f', ext2_inode_new demo_inodes true = Done (ret, r, f') /\ fs_ok f' /\ inodes_ok f' /\
    match r with
    | Some (n, blk, off) => ret = 0 /\ inode_taken demo_inodes f' n blk off
    | None => (ret = - ENOSPC \/ ret = - ENOMEM /\ true = false) /\ forall m, valid_ino (sb demo_inodes) m -> ino_used f' m = ino_used demo_inodes m
    end.
Proof. apply (ext2_inode_new_correct demo_inodes true); [apply demo_inodes_fs | apply demo_inodes_ok]. Defined.

(** * A free inode that is not found *)

(** [bit_find_next_zero] starts a byte at the bit of its start when the bytes before
    it are full, so free inodes are overlooked: with inodes 17, 18 and 19 as the only
    free ones of the first group, [ext2_inode_new] reports a full device. *)
Lemma next_zero_overlooks : bit_find_next_zero ([255; 255; 248] ++ replicate 1021 255) 11 = -1 /\ bit_at ([255; 255; 248] ++ replicate 1021 255) 16 = false.
Proof. by vm_compute. Qed.
