(* ===== verification/Ext2Delete.v ===== *)
(** Deleting an inode of ext2 (src/fs/ext2/super.c): its blocks are released, its
    entry in the inode table is written, and its number becomes free.  Nothing else
    changes. *)
From stdpp Require Import base numbers list gmap.
From Stdlib Require Import ZArith ZifyBool Lia.
From S2P Require Import Prelude Users Bits Endian Ext2 Ext2Alloc Ext2Map Ext2Demo Ext2Bmap Ext2Trunc Ext2Free Ext2Remove Vfs Ext2File FileSeq Ext2Inode Ext2Ialloc.
Open Scope Z_scope.

(** * Truncation leaves the counters of inodes alone *)

Definition same_counters (f f' : fs) : Prop :=
  group_inode_unused <$> groups (sb f') = group_inode_unused <$> groups (sb f) /\
  inode_unused_total (disksb (sb f')) = inode_unused_total (disksb (sb f)).

Definition keeps (f : fs) {A} (o : outcome (fs * A)) : Prop := forall f' a, o = Done (f', a) -> same_counters f f'.

Lemma inodes_kept_done f {A} (a : A) : keeps f (Done (f, a)).
Proof. intros f' a' [= <- <-]. done. Qed.

Lemma inodes_kept_bind f {A B} (o : outcome (fs * A)) (k : fs -> A -> outcome (fs * B)) :
  keeps f o -> (forall f1 a, keeps f1 (k f1 a)) -> keeps f ('(f1, a) ← o; k f1 a).
Proof.
  intros Ho Hk f' b E. apply outcome_bind_done in E as ([f1 a] & E1 & E2). destruct (Ho f1 a E1) as [H1 H2]. destruct (Hk f1 a f' b E2) as [H3 H4]. split; congruence.
Qed.

Lemma keeps_pure f {A B} (o : outcome A) (k : A -> outcome (fs * B)) : (forall a, keeps f (k a)) -> keeps f (a ← o; k a).
Proof. intros Hk f' b E. apply outcome_bind_done in E as (a & E1 & E2). by apply (Hk a f' b). Qed.

Lemma keeps_release f x b : keeps f (ext2_block_release f x b).
Proof.
  unfold ext2_block_release. intros f' x' E. apply outcome_bind_done in E as (g & Hg & E). apply arr_get_done in Hg as [_ Hg].
  apply outcome_bind_done in E as (d & _ & E). apply outcome_bind_done in E as (d' & _ & E). injection E as <- <-.
  split; [|done]. cbn. rewrite list_fmap_insert. apply list_insert_id. by rewrite list_lookup_fmap, Hg.
Qed.

Lemma keeps_release_blocks tmp : forall f x, keeps f (tmp_blocks_release_blocks f x tmp).
Proof. induction tmp as [|b tmp IH]; intros f x; [apply inodes_kept_done|]. apply inodes_kept_bind; [apply keeps_release | intros; apply IH]. Qed.

Lemma keeps_cut f a s : keeps f (cut_block f a s).
Proof. apply keeps_pure. intros d. apply keeps_pure. intros [d' tmp] f' a' [= <- <-]. done. Qed.

Lemma keeps_indirect f x a s : keeps f (truncate_indirect_page f x a s).
Proof. apply inodes_kept_bind; [apply keeps_cut | intros; apply keeps_release_blocks]. Qed.

Lemma keeps_if f {A} (b : bool) (o1 o2 : outcome (fs * A)) : keeps f o1 -> keeps f o2 -> keeps f (if b then o1 else o2).
Proof. by destruct b. Qed.

Create HintDb keeps.
#[local] Hint Resolve inodes_kept_done keeps_release keeps_release_blocks keeps_cut keeps_indirect keeps_if : keeps.
Ltac keep := repeat (intros; first [solve [auto with keeps] | apply inodes_kept_bind | apply keeps_if | apply keeps_pure]).

Lemma keeps_indirects tmp : forall f x s, keeps f (truncate_indirect_pages f x tmp s).
Proof. induction tmp as [|b tmp IH]; intros f x s; cbn [truncate_indirect_pages]; keep. Qed.
#[local] Hint Resolve keeps_indirects : keeps.

Lemma keeps_dindirect f x a s t : keeps f (truncate_dindirect_page f x a s t).
Proof. unfold truncate_dindirect_page. keep. Qed.
#[local] Hint Resolve keeps_dindirect : keeps.

Lemma keeps_dindirects tmp : forall f x s t, keeps f (truncate_dindirect_pages f x tmp s t).
Proof. induction tmp as [|b tmp IH]; intros f x s t; cbn [truncate_dindirect_pages]; keep. Qed.
#[local] Hint Resolve keeps_dindirects : keeps.

Lemma keeps_tindirect f x a s t u : keeps f (truncate_tindirect_page f x a s t u).
Proof. unfold truncate_tindirect_page. keep. Qed.
#[local] Hint Resolve keeps_tindirect : keeps.

Lemma keeps_root f x k : keeps f (release_root f x k).
Proof. unfold release_root. keep. Qed.
#[local] Hint Resolve keeps_root : keeps.

Lemma keeps_direct n : forall f x i, keeps f (release_direct f x i n).
Proof. induction n as [|n IH]; intros f x i; cbn [release_direct]; keep. Qed.
#[local] Hint Resolve keeps_direct : keeps.

Lemma keeps_behind f x k s page : (forall f x p, keeps f (page f x p)) -> keeps f (release_behind f x k s page).
Proof. intros Hp. unfold release_behind. keep. Qed.

Lemma keeps_remove f x s : keeps f (ext2_inode_truncate_remove f x s).
Proof. unfold ext2_inode_truncate_remove. keep; apply keeps_behind; auto with keeps. Qed.

(** * All blocks of a file *)

Lemma removed_all ppb q : 0 < ppb -> pos_ok ppb q -> removed ppb 0 q = true.
Proof.
  intros Hp. destruct q as [|k p]; [done|]. intros (Hk & _). unfold removed. destruct (k <? NDIRECT); [lia|].
  apply orb_true_iff. left. unfold region, NDIRECT, SINGLE, DOUBLE. destruct (k =? 12), (k =? 13); lia.
Qed.

(** What the removal of all blocks leaves behind. *)
Record emptied (f : fs) (x : ext2_inode) (f' : fs) (x' : ext2_inode) : Prop := {
  em_ok : fs_ok f';
  em_layout : layout (sb f') = layout (sb f);
  em_same : same_file x x';
  em_ptrs : length (blk_ptrs x') = 15%nat;
  em_used : forall c, in_range (sb f) c -> c <> 0 -> used f' c = true <-> used f c = true /\ ~ node f x c;
  em_kept : forall b, ~ bitmap_block (sb f) b -> ~ node f x b -> disk f' !! b = disk f !! b;
  em_counters : same_counters f f';
}.

Lemma truncate_all now f x : fs_ok f -> file_ok f x -> 0 <= size (vfs x) -> size (vfs x) + 4096 <= 2 ^ 31 ->
  exists f' x1, ext2_inode_truncate now f x 0 = Done (f', set_vfs (fun v => set_dirty (set_mtime now (set_size 0 v))) x1) /\ emptied f x f' x1.
Proof.
  intros Hok Hx Hs0 Hs. pose proof (bsize_range f Hok) as Hb. pose proof (ppb_pos f Hok) as Hp.
  assert (Hal : aligned (ptrs_per_blk f) 0).
  { split; [unfold NDIRECT; nia|]. intros k Hk Hr. exfalso. unfold region, NDIRECT, SINGLE, DOUBLE in Hr. destruct (k =? 12), (k =? 13); nia. }
  destruct (truncate_remove_spec f x 0 Hok Hx Hal) as (f' & x1 & E & HC). pose proof (keeps_remove f x 0 f' x1 E) as Hk.
  pose proof (same_meta _ _ (cut_same _ _ _ _ _ HC)) as Em. exists f', x1. split.
  - unfold ext2_inode_truncate. rewrite (proj1 (truncate_range f 0 Hok ltac:(lia) ltac:(lia))), (proj2 (truncate_range f (size (vfs x)) Hok ltac:(lia) ltac:(lia))).
    rewrite (Z.div_small (0 + bsize f - 1)) by lia. pose proof (Z.div_pos (size (vfs x)) (bsize f) ltac:(lia) ltac:(lia)).
    destruct (Z.leb_spec 0 (size (vfs x) / bsize f)); [|lia]. rewrite E. obind. unfold zero_tail. rewrite (meta_size _ _ Em).
    destruct (Z.ltb_spec (size (vfs x)) 0); [lia|]. done.
  - assert (Hiff : forall c, (exists q, pos_ok (ptrs_per_blk f) q /\ removed (ptrs_per_blk f) 0 q = true /\ slot f x q = c /\ c <> 0) <-> node f x c).
    { intros c. split; [intros (q & Hq & _ & Hc); by exists q|]. intros (q & Hq & Hc). exists q. split_and!; try apply Hc; [done|]. by apply removed_all. }
    destruct HC as [C1 C2 C3 C4 C5 C6 C7]. split; try done.
    + apply (file_ptrs f' x1 C3).
    + intros c Hc _. rewrite C6, Hiff by done. done.
    + intros b Hbm Hn. apply C7; [done | | by rewrite Hiff]. intros (q & Hq & _ & Hc). apply Hn. by exists q.
Qed.

(** * The inode table and the bitmaps are apart from the file *)

Definition system_block (f : fs) (b : Z) : Prop :=
  exists i g, groups (sb f) !! i = Some g /\ (block_nr_inode_bitmap g = b \/ exists k, 0 <= k < ipg (sb f) /\ table_block (sb f) g k = b).

Lemma counter_at f f' i g g' : same_counters f f' -> groups (sb f) !! i = Some g -> groups (sb f') !! i = Some g' -> group_inode_unused g' = group_inode_unused g.
Proof. intros [E _] Hg Hg'. apply (f_equal (.!! i)) in E. rewrite !list_lookup_fmap, Hg, Hg' in E. by injection E. Qed.

Lemma sum_counters a b : group_inode_unused <$> a = group_inode_unused <$> b -> inode_sum a = inode_sum b.
Proof. revert b. induction a as [|g a IH]; intros [|h b] E; try done. cbn in E. injection E as E1 E2. unfold inode_sum. cbn [foldr]. fold (inode_sum a) (inode_sum b). rewrite E1. f_equal. by apply IH. Qed.

(** The inodes survive what happens to other blocks. *)
Lemma inodes_kept f f' : inodes_ok f -> layout (sb f') = layout (sb f) -> same_counters f f' ->
  (forall i g, groups (sb f) !! i = Some g -> disk f' !! block_nr_inode_bitmap g = disk f !! block_nr_inode_bitmap g) ->
  (forall i g k, groups (sb f) !! i = Some g -> 0 <= k < ipg (sb f) -> is_Some (disk f' !! table_block (sb f) g k)) ->
  inodes_ok f' /\ forall m, ino_used f' m = ino_used f m.
Proof.
  intros Hio HL Hc Hd Hdom. pose proof Hio as [I1 I2 I3 I4 I5 I6 I7 I8 I9 I10]. pose proof (layout_fields _ _ HL) as (E1 & E2 & E3 & E4 & E5 & E6 & E7).
  split.
  - split; rewrite ?E1, ?E2, ?E4, ?E5, ?E6; try done.
    + by apply (tables_layout f).
    + intros i g' Hi. destruct (layout_group _ _ _ _ HL Hi) as (g & Hg & _ & Eb & _). rewrite <- Eb, (Hd i g Hg). destruct (I5 i g Hg) as [? Hn]. split; [done|]. by intros ?%(layout_bitmap _ _ _ HL).
    + intros i j g' h' Hi Hj. destruct (layout_group _ _ _ _ HL Hi) as (g & Hg & _ & <- & _). destruct (layout_group _ _ _ _ HL Hj) as (h & Hh & _ & <- & _). by apply (I6 i j).
    + intros i j g' h' k Hi Hj Hk'. destruct (layout_group _ _ _ _ HL Hi) as (g & Hg & _ & _ & Et). destruct (layout_group _ _ _ _ HL Hj) as (h & Hh & _ & <- & _).
      unfold table_block. rewrite <- Et, E1, E3. by apply (I7 i j g h k).
    + intros i g' data j Hi. destruct (layout_group _ _ _ _ HL Hi) as (g & Hg & _ & <- & _). rewrite (Hd i g Hg). by apply (I8 i).
    + intros i g' data Hi. destruct (layout_group _ _ _ _ HL Hi) as (g & Hg & _ & <- & _). rewrite (Hd i g Hg), (counter_at f f' i g g' Hc Hg Hi). by apply (I9 i).
    + rewrite (proj2 Hc), I10. symmetry. apply sum_counters, Hc.
  - intros m. unfold ino_used. rewrite E2. destruct (groups (sb f') !! _) as [g'|] eqn:Eg.
    + destruct (layout_group _ _ _ _ HL Eg) as (g & Hg & _ & <- & _). rewrite Hg. by rewrite (Hd _ g Hg).
    + destruct (groups (sb f) !! _) as [g|] eqn:Eg2; [|done]. destruct (layout_group _ _ _ _ (eq_sym HL) Eg2) as (g' & E & _). congruence.
Qed.

Lemma place_layout s s' n : layout s' = layout s -> inode_place s' n = inode_place s n.
Proof.
  intros HL. pose proof (layout_fields _ _ HL) as (E1 & E2 & E3 & _ & _ & _ & E7). unfold inode_place. rewrite E1, E2, E3. unfold arr_get.
  case_bool_decide; [|done]. destruct (groups s' !! _) as [g'|] eqn:Eg.
  - destruct (layout_group _ _ _ _ HL Eg) as (g & -> & _ & _ & Et). obind. by rewrite Et.
  - destruct (groups s !! _) as [g|] eqn:Eg2; [|done]. destruct (layout_group _ _ _ _ (eq_sym HL) Eg2) as (g' & E & _). congruence.
Qed.

Lemma ino_marked_blocks f f' n v c : inodes_ok f -> ino_marked f f' n v -> used f' c = used f c.
Proof.
  intros Hio Hm. rewrite <- (layout_used f (sb f') c (im_layout _ _ _ _ Hm)). unfold used. cbn [sb disk set_sb]. destruct (groups (sb f') !! _) as [g|] eqn:Eg; [|done].
  destruct (layout_group _ _ _ _ (im_layout _ _ _ _ Hm) Eg) as (h & Hh & Eb & _). rewrite (im_frame _ _ _ _ Hm); [done|]. intros i k Hk E.
  destruct (io_bitmap f Hio i k Hk) as [_ Hn]. apply Hn. exists (Z.to_nat (group_of (sb f') c)), h. split; [done | congruence].
Qed.

(** * Deletion *)

(** The inode that is written when [x] is deleted. *)
Definition deleted (now : Z) (x : ext2_inode) : ext2_inode :=
  set_vfs set_dirty (set_dtime now (set_vfs (fun v => set_dirty (set_mtime now (set_size 0 v))) x)).

Section Delete.
Context (now : Z) (f : fs) (x : ext2_inode) (Hok : fs_ok f) (Hio : inodes_ok f) (Hx : file_ok f x) (Hp : placed f x).
Context (Hsys : forall b, system_block f b -> ~ node f x b).

Lemma placed_kept f1 x1 : emptied f x f1 x1 -> placed f1 (deleted now x1).
Proof using Hp.
  intros [_ HL (n & l & ->) _ _ _ _]. destruct Hp as [Hv E]. pose proof (layout_fields _ _ HL) as (_ & E2 & _ & _ & _ & _ & E7). split.
  - unfold valid_ino in *. cbn. by rewrite E2, E7.
  - cbn. by rewrite (place_layout _ _ _ HL).
Qed.

(** The blocks are gone, the inodes as they were. *)
Lemma emptied_inodes f1 x1 : emptied f x f1 x1 -> inodes_ok f1 /\ forall m, ino_used f1 m = ino_used f m.
Proof using Hio Hsys.
  intros He. apply (inodes_kept f f1 Hio (em_layout _ _ _ _ He) (em_counters _ _ _ _ He)).
  - intros i g Hg. apply (em_kept _ _ _ _ He); [by apply (io_bitmap f Hio i) | apply Hsys; exists i, g; auto].
  - intros i g k Hg Hk. destruct (tb_block f (io_tables f Hio) i g k Hg Hk) as [Hs Hn]. rewrite (em_kept _ _ _ _ He); [done | done | apply Hsys; exists i, g; eauto].
Qed.

(** Writing the entry of an inode. *)
Lemma write_inodes f1 y : fs_ok f1 -> inodes_ok f1 -> placed f1 y -> length (blk_ptrs y) = 15%nat -> dirty (vfs y) = true ->
  exists f2, ext2_inode_write f1 y = Done (0, f2) /\ fs_ok f2 /\ inodes_ok f2 /\ sb f2 = sb f1 /\ (forall m, ino_used f2 m = ino_used f1 m) /\
    (forall c, used f2 c = used f1 c) /\ forall b, ~ system_block f1 b -> disk f2 !! b = disk f1 !! b.
Proof using Type.
  intros Hok1 Hio1 Hp1 Hl Hd. destruct (inode_write_spec f1 Hok1 (io_tables _ Hio1) y Hp1 Hl Hd) as (data & data' & Hdata & Hput & E & Hok2 & _ & _ & Hnb).
  eexists. split; [exact E|]. destruct Hp1 as [Hv Ep]. destruct (inode_place_spec f1 (io_tables _ Hio1) _ Hv) as (i & g & k & Hg & Hk & _ & Ep' & _).
  rewrite Ep in Ep'. apply done_inj in Ep'. injection Ep' as Eb _. destruct (put_fields_shape _ _ _ _ Hput) as [L1 B1]. destruct (block_shape f1 Hok1 _ _ Hdata) as [Hlen Hby].
  destruct (block_write_ok f1 Hok1 (inode_group_blk_nr y) data') as (_ & W & _); [by eauto | done | lia | auto|].
  destruct (inodes_kept f1 (block_write f1 (inode_group_blk_nr y) data') Hio1 eq_refl (conj eq_refl eq_refl)) as [Hio2 Hu].
  - intros j h Hh. cbn. rewrite lookup_insert_ne; [done|]. rewrite Eb. by apply (io_table f1 Hio1 i j g h k).
  - intros j h l Hh Hl'. cbn. apply lookup_insert_is_Some'. right. by apply (tb_block f1 (io_tables f1 Hio1) j).
  - split_and!; try done. intros b Hb. cbn. apply lookup_insert_ne. intros <-. apply Hb. exists i, g. split; [done|]. right. by exists k.
Qed.

Lemma inode_delete_spec : nlinks (vfs x) = 0 -> ino (vfs x) <> EXT2_ACL_IDX_INO -> ino (vfs x) <> EXT2_ACL_DATA_INO ->
  0 <= size (vfs x) -> size (vfs x) + 4096 <= 2 ^ 31 -> ino_used f (ino (vfs x)) = true ->
  exists f' x', ext2_inode_delete now f x = Done (0, f', x') /\ fs_ok f' /\ inodes_ok f' /\
    (forall m, valid_ino (sb f) m -> ino_used f' m = if decide (m = ino (vfs x)) then false else ino_used f m) /\
    (forall c, in_range (sb f) c -> c <> 0 -> used f' c = true <-> used f c = true /\ ~ node f x c) /\
    (forall b, ~ bitmap_block (sb f) b -> ~ node f x b -> ~ system_block f b -> disk f' !! b = disk f !! b).
Proof using Hok Hio Hx Hp Hsys.
  intros Hn H3 H4 Hs0 Hs Hu. unfold ext2_inode_delete. rewrite Hn. cbn [Z.eqb negb]. destruct (Z.eqb_spec (ino (vfs x)) EXT2_ACL_IDX_INO); [done|]. destruct (Z.eqb_spec (ino (vfs x)) EXT2_ACL_DATA_INO); [done|]. cbn [orb].
  destruct (truncate_all now f x Hok Hx Hs0 Hs) as (f1 & x1 & -> & He). obind. fold (deleted now x1). destruct (emptied_inodes f1 x1 He) as [Hio1 Hu1]. pose proof He as [O1 L1 S1 P1 U1 K1 _].
  destruct (write_inodes f1 (deleted now x1) O1 Hio1 (placed_kept f1 x1 He) P1 eq_refl) as (f2 & -> & O2 & Hio2 & Es & Hu2 & U2 & K2). obind.
  assert (Ei : ino (vfs (deleted now x1)) = ino (vfs x)) by (destruct S1 as (n' & l & ->); done). rewrite Ei.
  pose proof (layout_fields _ _ L1) as (_ & E2 & _ & _ & _ & _ & E7). assert (Hv : forall m, valid_ino (sb f) m -> valid_ino (sb f2) m) by (intros m; unfold valid_ino; by rewrite Es, E2, E7).
  destruct (unset_spec f2 O2 Hio2 (ino (vfs x)) (Hv _ (proj1 Hp))) as (f3 & -> & Hm); [by rewrite Hu2, Hu1|]. obind. eexists _, _. split; [done|].
  split; [apply Hm|]. split; [apply Hm|]. split; [|split].
  - intros m Hmv. rewrite (im_used _ _ _ _ Hm) by auto. by rewrite Hu2, Hu1.
  - intros c Hc Hc0. rewrite (ino_marked_blocks f2 f3 _ _ c Hio2 Hm), U2. by apply U1.
  - intros b Hb Hnb Hsb. assert (Hsb1 : ~ system_block f1 b).
    { intros (i & g' & Hg' & Hc). destruct (layout_group _ _ _ _ L1 Hg') as (g & Hg & _ & Ebm & Et). apply Hsb. exists i, g. split; [done|]. rewrite Ebm.
      destruct Hc as [Hc|(k & Hk & Hc)]; [by left | right]. exists k. pose proof (layout_fields _ _ L1) as (E1 & _ & E3 & _). rewrite E2 in Hk. split; [done|]. revert Hc. unfold table_block. by rewrite Et, E1, E3. }
    rewrite (im_frame _ _ _ _ Hm), K2, K1; try done. intros i g Hg E. apply Hsb1. exists i, g. rewrite <- Es. auto.
Qed.
End Delete.

(** C8: Deleting an inode without links gives back its number and all of its blocks, and
    nothing else: exactly the blocks reachable from the inode become free, no other
    inode changes its state, and no block outside of the file, the inode tables and
    the bitmaps is written.  The inode is not one of the two that are reserved for
    access lists, which are never deleted, and its size is below 2^31 - 4096. *)
Theorem ext2_inode_delete_correct now f x : fs_ok f -> inodes_ok f -> file_ok f x -> placed f x -> (forall b, system_block f b -> ~ node f x b) ->
  nlinks (vfs x) = 0 -> ino (vfs x) <> EXT2_ACL_IDX_INO -> ino (vfs x) <> EXT2_ACL_DATA_INO ->
  0 <= size (vfs x) -> size (vfs x) + 4096 <= 2 ^ 31 -> ino_used f (ino (vfs x)) = true ->
  exists f' x', ext2_inode_delete now f x = Done (0, f', x') /\ fs_ok f' /\ inodes_ok f' /\
    (forall m, valid_ino (sb f) m -> ino_used f' m = if decide (m = ino (vfs x)) then false else ino_used f m) /\
    (forall c, in_range (sb f) c -> c <> 0 -> used f' c = true <-> used f c = true /\ ~ node f x c) /\
    (forall b, ~ bitmap_block (sb f) b -> ~ node f x b -> ~ system_block f b -> disk f' !! b = disk f !! b).
Proof. intros. by apply inode_delete_spec. Qed.

(** A file of one block as inode 11, without links. *)
Definition demo_victim : ext2_inode := {|
  vfs := {| ino := 11; dev_no := 0; size := 100; mode := 0x81A4; nlinks := 0; blocks := 2; atime := 0; mtime := 0; ctime := 0; uid := 0; gid := 0; dirty := false |};
  inode_group_blk_nr := 5; inode_group_blk_offset := 2; dtime := 0; blk_ptrs := 7 :: replicate 14 0 |}.

Lemma demo_victim_slot p : pos_ok (ptrs_per_blk demo_inodes) p -> slot demo_inodes demo_victim p <> 0 -> p = [0].
Proof.
  destruct p as [|k q]; [done|]. intros (Hk & Hq & _) Hne. cbn [slot demo_victim blk_ptrs] in Hne. destruct (decide (k = 0)) as [->|Hk0].
  - destruct q; [done|]. change (depth 0) with 0%nat in Hq. cbn in Hq. lia.
  - exfalso. apply Hne. destruct (Z.to_nat k) as [|i] eqn:E; [lia|]. change ((7 :: replicate 14 0) !! S i) with (replicate 14 0 !! i). rewrite lookup_replicate_2 by lia.
    apply foldl_follow_zero.
Qed.

Lemma demo_victim_ok : file_ok demo_inodes demo_victim.
Proof.
  apply (file_ok_list _ _ [([0], 7)]); [done | apply NoDup_singleton | |].
  - intros p Hp Hne. rewrite (demo_victim_slot p Hp Hne). by apply list_elem_of_singleton.
  - intros b Hb. cbn in Hb. apply list_elem_of_singleton in Hb as ->. destruct demo_inodes_fs as (_ & Hu & Hd). split; [apply Hd, demo_data_block; lia | by rewrite Hu, demo_used by lia].
Qed.

Lemma ext2_inode_delete_correct_witness :
  exists f' x', ext2_inode_delete 5 demo_inodes demo_victim = Done (0, f', x') /\ fs_ok f' /\ inodes_ok f' /\
    (forall m, valid_ino (sb demo_inodes) m -> ino_used f' m = if decide (m = 11) then false else ino_used demo_inodes m) /\
    (forall c, in_range (sb demo_inodes) c -> c <> 0 -> used f' c = true <-> used demo_inodes c = true /\ ~ node demo_inodes demo_victim c) /\
    (forall b, ~ bitmap_block (sb demo_inodes) b -> ~ node demo_inodes demo_victim b -> ~ system_block demo_inodes b -> disk f' !! b = disk demo_inodes !! b).
Proof.
  apply (ext2_inode_delete_correct 5 demo_inodes demo_victim); try done.
  - apply demo_inodes_fs.
  - apply demo_inodes_ok.
  - apply demo_victim_ok.
  - intros b (i & g & Hg & Hb) (p & Hp & Hs & Hne). rewrite <- Hs in Hne. rewrite (demo_victim_slot p Hp Hne) in Hs. change (7 = b) in Hs. subst b.
    destruct (demo_group i g Hg) as (_ & _ & E1 & E2 & _). destruct Hb as [Hb|(k & Hk & Hb)]; [lia|]. unfold table_block in Hb. rewrite E2 in Hb. cbn in Hk, Hb. Z.div_mod_to_equations; lia.
Defined.
