(* ===== verification/Dirent.v ===== *)
(** Directory entries in a block of an ext2 directory (src/fs/ext2/namei.c,
    include/protura/fs/ext2.h): a chain of records, each with an inode number, its
    own length, and a name.  A record whose inode is 0 is free.  The code works on
    the bytes; [ents] gives the bytes of a list of records, and the functions that
    walk the bytes are shown to be functions on that list. *)
From stdpp Require Import base numbers list gmap.
From Stdlib Require Import ZArith ZifyBool Lia.
From S2P Require Import Prelude Bits Endian.
Open Scope Z_scope.

Definition DENT : Z := 8.   (* [sizeof(struct ext2_disk_directory_entry)] *)

Definition ext2_disk_dir_entry_rec_len (name_len : Z) : Z := ALIGN_2 name_len 4 + DENT.

Definition ent_ino (data : list Z) (off : Z) : outcome Z := get_le 4 data off.
Definition ent_rec_len (data : list Z) (off : Z) : outcome Z := get_le 2 data (off + 4).
Definition ent_name_len (data : list Z) (off : Z) : outcome Z := get_le 1 data (off + 6).

(** [strncmp] of src/kernel/str/string.c. *)
Fixpoint strncmp (s1 s2 : list Z) (len : nat) : outcome Z :=
  match len with
  | O => Done 0
  | S len' =>
      match s1, s2 with
      | c1 :: s1', c2 :: s2' =>
          if (c1 =? 0) || (c2 =? 0) then Done (if negb (c1 =? 0) then 1 else if negb (c2 =? 0) then -1 else 0)
          else if i8 c2 <? i8 c1 then Done 1
          else if i8 c1 <? i8 c2 then Done (-1)
          else strncmp s1' s2' len'
      | _, _ => Fault
      end
  end.

(** The entry at [off] has the name. *)
Definition ent_matches (data name : list Z) (off : Z) : outcome bool :=
  nl ← ent_name_len data off;
  if negb (nl =? 0) && (nl =? Z.of_nat (length name)) then
    s ← arr_slice data (off + DENT) nl;
    r ← strncmp name s (Z.to_nat nl);
    Done (r =? 0)
  else Done false.

(** The loop of [__ext2_lookup_entry] over a block; [lim] is the size of the
    directory from the start of the block.  A record of length 0 would keep the
    loop from ending, and here uses up the fuel. *)
Fixpoint lookup_from (data name : list Z) (lim off : Z) (fuel : nat) : outcome (option Z) :=
  if (off <? Z.of_nat (length data)) && (off <? lim) then
    match fuel with
    | O => Fault
    | S fuel' =>
        found ← ent_matches data name off;
        if (found : bool) then Done (Some off)
        else rl ← ent_rec_len data off; lookup_from data name lim (off + rl) fuel'
    end
  else Done None.

(** The name of an entry is set: the end of [__ext2_add_entry]. *)
Definition set_name (data : list Z) (off : Z) (name : list Z) : outcome (list Z) :=
  data ← put_le 1 data (off + 6) (Z.of_nat (length name));
  arr_blit data (off + DENT) name.

(** The second half of a record becomes a record of its own. *)
Definition split_entry (data : list Z) (off entry_min rec_len : Z) : outcome (list Z) :=
  data ← put_le 2 data (off + 4) entry_min;
  data ← put_le 4 data (off + entry_min) 0;
  put_le 2 data (off + entry_min + 4) (rec_len - entry_min).

(** The loop of [__ext2_add_entry] over a block: where the new entry is, and the
    block. *)
Fixpoint add_from (data name : list Z) (lim off : Z) (fuel : nat) : outcome (option (Z * list Z)) :=
  if (off <? Z.of_nat (length data)) && (off <? lim) then
    match fuel with
    | O => Fault
    | S fuel' =>
        let minimum_rec_len := ext2_disk_dir_entry_rec_len (Z.of_nat (length name)) in
        nl ← ent_name_len data off;
        ino ← ent_ino data off;
        rl ← ent_rec_len data off;
        let entry_min := ext2_disk_dir_entry_rec_len nl in
        if (ino =? 0) && (minimum_rec_len <=? rl) then
          data ← set_name data off name;
          Done (Some (off, data))
        else if minimum_rec_len + entry_min <=? rl then
          data ← split_entry data off entry_min rl;
          data ← set_name data (off + entry_min) name;
          Done (Some (off + entry_min, data))
        else add_from data name lim (off + rl) fuel'
    end
  else Done None.

(** The inode and the type of an entry: the end of [__ext2_dir_add]. *)
Definition set_entry (data : list Z) (off ino type : Z) : outcome (list Z) :=
  data ← put_le 4 data off ino;
  put_le 1 data (off + 7) type.

(** The entry in front of [target]: the loop of [__ext2_dir_remove_entry]. *)
Fixpoint prev_from (data : list Z) (target : Z) (prev : option Z) (off : Z) (fuel : nat) : outcome (option Z) :=
  if off <? Z.of_nat (length data) then
    match fuel with
    | O => Fault
    | S fuel' =>
        if off =? target then Done prev
        else rl ← ent_rec_len data off; prev_from data target (Some off) (off + rl) fuel'
    end
  else Done None.

Definition remove_entry (data : list Z) (off : Z) : outcome (list Z) :=
  prev ← prev_from data off None 0 (length data);
  data ← match prev with
         | Some p => pl ← ent_rec_len data p; rl ← ent_rec_len data off; put_le 2 data (p + 4) (pl + rl)
         | None => Done data
         end;
  put_le 4 data off 0.

(** The entries that keep a directory from being removed: the loop of
    [__ext2_dir_empty] over a block. *)
Fixpoint empty_from (data : list Z) (off : Z) (fuel : nat) : outcome bool :=
  if off <? Z.of_nat (length data) then
    match fuel with
    | O => Fault
    | S fuel' =>
        nl ← ent_name_len data off;
        ino ← ent_ino data off;
        rl ← ent_rec_len data off;
        if ino =? 0 then empty_from data (off + rl) fuel'
        else if nl =? 0 then Done false
        else if 2 <? nl then Done false
        else
          c0 ← arr_get data (off + DENT);
          if negb (c0 =? 46) then Done false
          else if nl =? 1 then empty_from data (off + rl) fuel'
          else
            c1 ← arr_get data (off + DENT + 1);
            if negb (c1 =? 46) then Done false else empty_from data (off + rl) fuel'
    end
  else Done true.

(** * Records *)

Record dent : Type := { d_ino : Z; d_type : Z; d_name : list Z; d_pad : list Z }.

Definition reclen (d : dent) : Z := DENT + Z.of_nat (length (d_name d)) + Z.of_nat (length (d_pad d)).

Definition enc (d : dent) : list Z :=
  le_bytes 4 (d_ino d) ++ le_bytes 2 (reclen d) ++ [Z.of_nat (length (d_name d)); d_type d] ++ d_name d ++ d_pad d.

Definition ents (es : list dent) : list Z := es ≫= enc.

Record dent_ok (d : dent) : Prop := {
  dok_ino : 0 <= d_ino d < 2 ^ 32;
  dok_type : 0 <= d_type d < 256;
  dok_name : (length (d_name d) <= 255)%nat;
  dok_len : reclen d < 65536;
  dok_chars : Forall (fun c => 0 < c < 256) (d_name d);
  dok_pad : bytes (d_pad d);
}.

Lemma length_enc d : Z.of_nat (length (enc d)) = reclen d.
Proof. unfold enc, reclen, DENT. rewrite !length_app, !length_le_bytes. cbn [length]. lia. Qed.

Lemma reclen_pos d : DENT <= reclen d.
Proof. unfold reclen. lia. Qed.

Lemma ents_cons d es : ents (d :: es) = enc d ++ ents es.
Proof. apply bind_cons. Qed.

Lemma ents_app es fs : ents (es ++ fs) = ents es ++ ents fs.
Proof. apply bind_app. Qed.

(** * Fields at a place *)

Lemma slice_app (pre mid post : list Z) : arr_slice (pre ++ mid ++ post) (Z.of_nat (length pre)) (Z.of_nat (length mid)) = Done mid.
Proof. rewrite arr_slice_done by lens. f_equal. by rewrite !Nat2Z.id, drop_app_length, take_app_length. Qed.

Lemma blit_app (pre mid post src : list Z) : length src = length mid ->
  arr_blit (pre ++ mid ++ post) (Z.of_nat (length pre)) src = Done (pre ++ src ++ post).
Proof.
  intros Hl. rewrite arr_blit_done by lens. f_equal. unfold splice. rewrite Nat2Z.id, take_app_length. f_equal. f_equal.
  rewrite Hl, <- length_app, app_assoc. apply drop_app_length.
Qed.

Lemma get_app n (pre post : list Z) v : get_le (Z.of_nat n) (pre ++ le_bytes n v ++ post) (Z.of_nat (length pre)) = Done (v mod 256 ^ Z.of_nat n).
Proof.
  unfold get_le. pose proof (slice_app pre (le_bytes n v) post) as E. rewrite length_le_bytes in E. rewrite E. obind. by rewrite le_value_bytes.
Qed.

Lemma put_app n (pre mid post : list Z) v : length mid = n ->
  put_le (Z.of_nat n) (pre ++ mid ++ post) (Z.of_nat (length pre)) v = Done (pre ++ le_bytes n v ++ post).
Proof. intros Hl. unfold put_le. rewrite Nat2Z.id. apply blit_app. by rewrite length_le_bytes. Qed.

Lemma le_bytes_1 v : 0 <= v < 256 -> le_bytes 1 v = [v].
Proof. intros H. cbn. by rewrite Z.mod_small. Qed.

(** Rewrites [pre ++ ...] at a later place of the same bytes. *)
Lemma shift_place (pre a rest : list Z) k : Z.of_nat (length a) = k -> Z.of_nat (length pre) + k = Z.of_nat (length (pre ++ a)).
Proof. intros <-. rewrite length_app. lia. Qed.

Section Fields.
Context (pre post : list Z) (d : dent) (Hd : dent_ok d).

Abbreviation data := (pre ++ enc d ++ post).
Abbreviation off := (Z.of_nat (length pre)).

Lemma ent_ino_at : ent_ino data off = Done (d_ino d).
Proof using Hd.
  unfold ent_ino, enc. rewrite <- !app_assoc. rewrite (get_app 4). f_equal. apply Z.mod_small. apply Hd.
Qed.

Lemma ent_rec_len_at : ent_rec_len data off = Done (reclen d).
Proof using Hd.
  unfold ent_rec_len, enc. rewrite <- !app_assoc, (shift_place pre (le_bytes 4 (d_ino d)) [] 4) by (by rewrite length_le_bytes).
  rewrite app_assoc, (get_app 2). f_equal. apply Z.mod_small. pose proof (dok_len _ Hd). unfold reclen, DENT in *. lia.
Qed.

Lemma ent_name_len_at : ent_name_len data off = Done (Z.of_nat (length (d_name d))).
Proof using Hd.
  unfold ent_name_len, enc. pose proof (dok_name _ Hd). rewrite <- !app_assoc.
  rewrite (shift_place pre (le_bytes 4 (d_ino d) ++ le_bytes 2 (reclen d)) [] 6) by (by rewrite length_app, !length_le_bytes).
  change ([Z.of_nat (length (d_name d)); d_type d] ++ d_name d ++ d_pad d ++ post) with
    ([Z.of_nat (length (d_name d))] ++ d_type d :: d_name d ++ d_pad d ++ post).
  rewrite <- (le_bytes_1 (Z.of_nat (length (d_name d)))) by lia. rewrite (app_assoc (le_bytes 4 _)), (app_assoc pre), (get_app 1). f_equal.
  apply Z.mod_small. lia.
Qed.

Lemma ent_name_at : arr_slice data (off + DENT) (Z.of_nat (length (d_name d))) = Done (d_name d).
Proof using.
  unfold enc. set (h := le_bytes 4 (d_ino d) ++ le_bytes 2 (reclen d) ++ [Z.of_nat (length (d_name d)); d_type d]).
  rewrite (shift_place pre h [] DENT) by (unfold h; by rewrite !length_app, !length_le_bytes).
  replace (pre ++ _ ++ post) with ((pre ++ h) ++ d_name d ++ d_pad d ++ post) by (unfold h; by rewrite <- !app_assoc).
  apply slice_app.
Qed.
End Fields.

Lemma strncmp_same s : Forall (fun c => 0 < c < 256) s -> strncmp s s (length s) = Done 0.
Proof.
  induction 1 as [|c s Hc _ IH]; [done|]. cbn [strncmp length]. destruct (Z.eqb_spec c 0); [lia|]. cbn [orb].
  rewrite Z.ltb_irrefl. done.
Qed.

Lemma i8_inj a b : 0 < a < 256 -> 0 < b < 256 -> i8 a = i8 b -> a = b.
Proof. intros Ha Hb. unfold i8, swrap, uwrap. cbn zeta. rewrite !Z.mod_small by lia. repeat case_match; lia. Qed.

Lemma strncmp_spec s : Forall (fun c => 0 < c < 256) s -> forall t, Forall (fun c => 0 < c < 256) t -> length s = length t ->
  exists r, strncmp s t (length t) = Done r /\ (r = 0 <-> s = t).
Proof.
  induction 1 as [|c s Hc _ IH]; intros t Ht Hl.
  { destruct t; [|done]. by exists 0. }
  destruct t as [|c' t]; [done|]. apply Forall_cons in Ht as [Hc' Ht]. injection Hl as Hl. cbn [strncmp length].
  destruct (Z.eqb_spec c 0); [lia|]. destruct (Z.eqb_spec c' 0); [lia|]. cbn [orb].
  destruct (Z.ltb_spec (i8 c') (i8 c)); [exists 1; split; [done|]; split; [done | intros [= -> _]; lia]|].
  destruct (Z.ltb_spec (i8 c) (i8 c')); [exists (-1); split; [done|]; split; [done | intros [= -> _]; lia]|].
  destruct (IH t Ht Hl) as (r & E & Hr). exists r. split; [done|]. rewrite Hr.
  assert (c = c') by (apply i8_inj; [done | done | lia]). split; [congruence | by intros [= _ ->]].
Qed.

Definition name_ok (name : list Z) : Prop := Forall (fun c => 0 < c < 256) name /\ (1 <= length name <= 255)%nat.

Lemma ent_matches_at pre post d name : dent_ok d -> name_ok name ->
  ent_matches (pre ++ enc d ++ post) name (Z.of_nat (length pre)) = Done (bool_decide (d_name d = name)).
Proof.
  intros Hd [Hn Hl]. unfold ent_matches. rewrite ent_name_len_at by done. obind.
  destruct (Z.eqb_spec (Z.of_nat (length (d_name d))) 0) as [E0|E0]; cbn [negb andb].
  { rewrite bool_decide_false; [done|]. intros <-. lia. }
  destruct (Z.eqb_spec (Z.of_nat (length (d_name d))) (Z.of_nat (length name))) as [El|El].
  - rewrite ent_name_at. obind. rewrite Nat2Z.id.
    destruct (strncmp_spec name Hn (d_name d) (dok_chars _ Hd)) as (r & -> & Hr); [lia|]. obind. f_equal.
    destruct (Z.eqb_spec r 0) as [Hz|Hz].
    + symmetry. apply bool_decide_true. symmetry. by apply Hr.
    + symmetry. apply bool_decide_false. intros E. apply Hz, Hr. done.
  - rewrite bool_decide_false; [done|]. intros <-. lia.
Qed.

(** * Looking up *)

(** Where the entry of a name is. *)
Fixpoint find_pos (name : list Z) (es : list dent) : option Z :=
  match es with
  | [] => None
  | d :: es' => if decide (d_name d = name) then Some 0 else Z.add (reclen d) <$> find_pos name es'
  end.

Lemma lookup_from_spec name es : name_ok name -> Forall dent_ok es -> forall pre lim fuel,
  Z.of_nat (length (pre ++ ents es)) <= lim -> (length es <= fuel)%nat ->
  lookup_from (pre ++ ents es) name lim (Z.of_nat (length pre)) fuel = Done (Z.add (Z.of_nat (length pre)) <$> find_pos name es).
Proof.
  intros Hn. induction 1 as [|d es Hd _ IH]; intros pre lim fuel Hlim Hf.
  { rewrite app_nil_r. destruct fuel; cbn [lookup_from]; by rewrite Z.ltb_irrefl. }
  destruct fuel as [|fuel]; cbn [length] in Hf; [lia|]. rewrite ents_cons in *. cbn [lookup_from find_pos].
  pose proof (length_enc d) as Hle. pose proof (reclen_pos d). unfold DENT in *. rewrite !length_app in *.
  destruct (Z.ltb_spec (Z.of_nat (length pre)) (Z.of_nat (length pre + (length (enc d) + length (ents es))))); [|lia].
  destruct (Z.ltb_spec (Z.of_nat (length pre)) lim); [|lia]. cbn [andb].
  rewrite ent_matches_at by done. obind. destruct (decide (d_name d = name)) as [E|E].
  - rewrite bool_decide_true by done. cbn. do 2 f_equal. lia.
  - rewrite bool_decide_false by done. rewrite ent_rec_len_at by done. obind.
    replace (Z.of_nat (length pre) + reclen d) with (Z.of_nat (length (pre ++ enc d))) by (rewrite length_app; lia).
    rewrite app_assoc. rewrite IH by (rewrite ?length_app; lia). f_equal.
    rewrite <- option_fmap_compose. apply option_fmap_ext. intros z. unfold compose. rewrite length_app. lia.
Qed.

(** * Changing fields *)

Definition hdr (a b : list Z) (n t : Z) (body : list Z) : list Z := a ++ b ++ [n; t] ++ body.

Lemma enc_hdr d : enc d = hdr (le_bytes 4 (d_ino d)) (le_bytes 2 (reclen d)) (Z.of_nat (length (d_name d))) (d_type d) (d_name d ++ d_pad d).
Proof. done. Qed.

Section Put.
Context (pre post a b body : list Z) (n t : Z) (Ha : length a = 4%nat) (Hb : length b = 2%nat).

Abbreviation off := (Z.of_nat (length pre)).

Lemma put_ino v : put_le 4 (pre ++ hdr a b n t body ++ post) off v = Done (pre ++ hdr (le_bytes 4 v) b n t body ++ post).
Proof using Ha. unfold hdr. rewrite <- !app_assoc. by apply (put_app 4). Qed.

Lemma put_rec_len v : put_le 2 (pre ++ hdr a b n t body ++ post) (off + 4) v = Done (pre ++ hdr a (le_bytes 2 v) n t body ++ post).
Proof using Ha Hb.
  unfold hdr. rewrite <- !app_assoc, (shift_place pre a [] 4) by lia. rewrite !(app_assoc pre a). by apply (put_app 2).
Qed.

Lemma put_name_len v : 0 <= v < 256 -> put_le 1 (pre ++ hdr a b n t body ++ post) (off + 6) v = Done (pre ++ hdr a b v t body ++ post).
Proof using Ha Hb.
  intros Hv. unfold hdr. rewrite <- !app_assoc, (shift_place pre (a ++ b) [] 6) by (rewrite length_app; lia).
  rewrite !(app_assoc a b), !(app_assoc pre (a ++ b)).
  pose proof (put_app 1 (pre ++ a ++ b) [n] (t :: body ++ post) v eq_refl) as E. rewrite (le_bytes_1 v) in E by done. exact E.
Qed.

Lemma put_type v : 0 <= v < 256 -> put_le 1 (pre ++ hdr a b n t body ++ post) (off + 7) v = Done (pre ++ hdr a b n v body ++ post).
Proof using Ha Hb.
  intros Hv. unfold hdr. rewrite <- !app_assoc, (shift_place pre (a ++ b ++ [n]) [] 7) by (rewrite !length_app; cbn [length]; lia).
  pose proof (put_app 1 (pre ++ a ++ b ++ [n]) [t] (body ++ post) v eq_refl) as E. rewrite (le_bytes_1 v) in E by done.
  rewrite <- !app_assoc in E. exact E.
Qed.

Lemma put_body src : (length src <= length body)%nat ->
  arr_blit (pre ++ hdr a b n t body ++ post) (off + DENT) src = Done (pre ++ hdr a b n t (src ++ drop (length src) body) ++ post).
Proof using Ha Hb.
  intros Hl. unfold hdr. set (h := a ++ b ++ [n; t]). rewrite (shift_place pre h [] DENT) by (unfold h; rewrite !length_app; cbn [length]; unfold DENT; lia).
  replace (pre ++ (a ++ b ++ [n; t] ++ body) ++ post) with ((pre ++ h) ++ take (length src) body ++ drop (length src) body ++ post).
  2:{ rewrite (app_assoc (take _ _)), take_drop. unfold h. by rewrite <- !app_assoc. }
  rewrite blit_app by (rewrite length_take; lia). f_equal. unfold h. by rewrite <- !app_assoc.
Qed.
End Put.

(** A free record takes a name, an inode and a type. *)
Lemma fill_hdr pre post a b n t body name ino ty :
  length a = 4%nat -> length b = 2%nat -> (length name <= length body)%nat -> (length name <= 255)%nat -> 0 <= ty < 256 ->
  exists data, set_name (pre ++ hdr a b n t body ++ post) (Z.of_nat (length pre)) name = Done data /\
    set_entry data (Z.of_nat (length pre)) ino ty =
      Done (pre ++ hdr (le_bytes 4 ino) b (Z.of_nat (length name)) ty (name ++ drop (length name) body) ++ post).
Proof.
  intros Ha Hb Hl Hn Ht. unfold set_name. rewrite put_name_len by (done || lia). obind. rewrite put_body by done. eexists. split; [done|].
  unfold set_entry. rewrite put_ino by done. obind. by rewrite put_type by (done || by rewrite ?length_le_bytes).
Qed.

(** * Adding *)

Lemma rec_len_range n : 0 <= n <= 255 -> n + DENT <= ext2_disk_dir_entry_rec_len n <= n + 3 + DENT.
Proof.
  intros Hn. unfold ext2_disk_dir_entry_rec_len, ALIGN_2. rewrite u32_small by lia. change (4 - 1) with (2 ^ 2 - 1). rewrite align_land by lia.
  pose proof (Z.div_mod (n + 4 - 1) (2 ^ 2) ltac:(lia)). pose proof (Z.mod_pos_bound (n + 4 - 1) (2 ^ 2) ltac:(lia)). lia.
Qed.

Definition min_len (name : list Z) : Z := ext2_disk_dir_entry_rec_len (Z.of_nat (length name)).

(** The entry of a free record, and the two entries of a record with room. *)
Definition reuse (d : dent) (name : list Z) (ino ty : Z) : dent :=
  {| d_ino := ino; d_type := ty; d_name := name; d_pad := drop (length name) (d_name d ++ d_pad d) |}.
Definition shorten (d : dent) : dent :=
  {| d_ino := d_ino d; d_type := d_type d; d_name := d_name d;
     d_pad := take (Z.to_nat (min_len (d_name d) - DENT) - length (d_name d)) (d_pad d) |}.
Definition behind (d : dent) (name : list Z) (ino ty : Z) : dent :=
  {| d_ino := ino; d_type := ty; d_name := name;
     d_pad := drop (Z.to_nat (min_len (d_name d)) - length (d_name d) + length name) (d_pad d) |}.

Fixpoint place (name : list Z) (ino ty : Z) (es : list dent) : option (Z * list dent) :=
  match es with
  | [] => None
  | d :: es' =>
      if (d_ino d =? 0) && (min_len name <=? reclen d) then Some (0, reuse d name ino ty :: es')
      else if min_len name + min_len (d_name d) <=? reclen d then
        Some (min_len (d_name d), shorten d :: behind d name ino ty :: es')
      else (fun '(o, l) => (reclen d + o, d :: l)) <$> place name ino ty es'
  end.

Lemma reclen_reuse d name ino ty : DENT + Z.of_nat (length name) <= reclen d -> reclen (reuse d name ino ty) = reclen d.
Proof. unfold reclen, reuse. cbn [d_name d_pad]. rewrite length_drop, length_app. unfold DENT. lia. Qed.

Lemma reclen_split d name ino ty : dent_ok d -> name_ok name -> min_len name + min_len (d_name d) <= reclen d ->
  reclen (shorten d) = min_len (d_name d) /\ reclen (behind d name ino ty) = reclen d - min_len (d_name d).
Proof.
  intros Hd [_ Hn] Hr. pose proof (rec_len_range (Z.of_nat (length name)) ltac:(lia)). pose proof (dok_name _ Hd).
  pose proof (rec_len_range (Z.of_nat (length (d_name d))) ltac:(lia)). unfold min_len in *. unfold reclen, shorten, behind in *. cbn [d_name d_pad].
  rewrite length_take, length_drop. unfold DENT, min_len in *. lia.
Qed.

Lemma as_hdr (l : list Z) : (8 <= length l)%nat ->
  exists a b n t, l = hdr a b n t (drop 8 l) /\ length a = 4%nat /\ length b = 2%nat.
Proof.
  intros Hl. do 8 (destruct l as [|? l]; [cbn [length] in Hl; lia|]). eexists [_; _; _; _], [_; _], _, _. by split_and!.
Qed.

Lemma split_entry_at pre post d name : dent_ok d -> name_ok name -> min_len name + min_len (d_name d) <= reclen d ->
  exists n t body, split_entry (pre ++ enc d ++ post) (Z.of_nat (length pre)) (min_len (d_name d)) (reclen d) =
      Done ((pre ++ enc (shorten d)) ++ hdr (le_bytes 4 0) (le_bytes 2 (reclen d - min_len (d_name d))) n t body ++ post) /\
    (length name <= length body)%nat /\ forall ino ty, d_pad (behind d name ino ty) = drop (length name) body.
Proof.
  intros Hd Hn Hr. destruct (reclen_split d name 0 0 Hd Hn Hr) as [Hs _]. destruct Hn as [_ Hn].
  pose proof (rec_len_range (Z.of_nat (length name)) ltac:(lia)) as R1. pose proof (dok_name _ Hd) as Hdn.
  pose proof (rec_len_range (Z.of_nat (length (d_name d))) ltac:(lia)) as R2. fold (min_len name) in R1. fold (min_len (d_name d)) in R2.
  set (k := (Z.to_nat (min_len (d_name d) - DENT) - length (d_name d))%nat).
  assert (Hk : (k + 8 + length name <= length (d_pad d))%nat) by (unfold k, reclen, DENT in *; lia).
  destruct (as_hdr (drop k (d_pad d))) as (a & b & n & t & Et & Ha & Hb); [rewrite length_drop; lia|].
  exists n, t, (drop 8 (drop k (d_pad d))). split_and!.
  - unfold split_entry. rewrite enc_hdr, put_rec_len by (by rewrite length_le_bytes). obind.
    assert (E : pre ++ hdr (le_bytes 4 (d_ino d)) (le_bytes 2 (min_len (d_name d))) (Z.of_nat (length (d_name d))) (d_type d) (d_name d ++ d_pad d) ++ post =
      (pre ++ enc (shorten d)) ++ hdr a b n t (drop 8 (drop k (d_pad d))) ++ post).
    { rewrite <- Et, enc_hdr, Hs. unfold shorten, hdr. cbn [d_ino d_name d_type d_pad]. fold k. rewrite <- !app_assoc. do 5 f_equal.
      by rewrite (app_assoc (take k _)), take_drop. }
    rewrite E. replace (Z.of_nat (length pre) + min_len (d_name d)) with (Z.of_nat (length (pre ++ enc (shorten d)))) by (rewrite length_app; pose proof (length_enc (shorten d)); lia).
    rewrite put_ino by done. obind. by rewrite put_rec_len by (by rewrite ?length_le_bytes).
  - rewrite !length_drop. lia.
  - intros ino ty. unfold behind. cbn [d_pad]. rewrite !drop_drop. f_equal. unfold k, DENT in *. lia.
Qed.

Lemma enc_reuse d name ino ty : DENT + Z.of_nat (length name) <= reclen d ->
  enc (reuse d name ino ty) = hdr (le_bytes 4 ino) (le_bytes 2 (reclen d)) (Z.of_nat (length name)) ty (name ++ drop (length name) (d_name d ++ d_pad d)).
Proof. intros H. by rewrite enc_hdr, reclen_reuse. Qed.

Lemma add_from_spec name ino ty es : name_ok name -> 0 <= ty < 256 -> Forall dent_ok es -> forall pre lim fuel,
  Z.of_nat (length (pre ++ ents es)) <= lim -> (length es <= fuel)%nat ->
  match place name ino ty es with
  | None => add_from (pre ++ ents es) name lim (Z.of_nat (length pre)) fuel = Done None
  | Some (o, es') => exists data,
      add_from (pre ++ ents es) name lim (Z.of_nat (length pre)) fuel = Done (Some (Z.of_nat (length pre) + o, data)) /\
      set_entry data (Z.of_nat (length pre) + o) ino ty = Done (pre ++ ents es')
  end.
Proof.
  intros Hn Hty. pose proof Hn as [_ Hnl]. pose proof (rec_len_range (Z.of_nat (length name)) ltac:(lia)) as R1. fold (min_len name) in R1.
  induction 1 as [|d es Hd _ IH]; intros pre lim fuel Hlim Hf.
  { cbn [place]. rewrite app_nil_r. destruct fuel; cbn [add_from]; by rewrite Z.ltb_irrefl. }
  destruct fuel as [|fuel]; cbn [length] in Hf; [lia|]. rewrite ents_cons in *. cbn [add_from place].
  pose proof (length_enc d) as Hle. pose proof (reclen_pos d). rewrite !length_app in *.
  destruct (Z.ltb_spec (Z.of_nat (length pre)) (Z.of_nat (length pre + (length (enc d) + length (ents es))))); [|unfold DENT in *; lia].
  destruct (Z.ltb_spec (Z.of_nat (length pre)) lim); [|unfold DENT in *; lia]. cbn [andb].
  rewrite ent_name_len_at, ent_ino_at, ent_rec_len_at by done. obind. fold (min_len name) (min_len (d_name d)).
  destruct ((d_ino d =? 0) && (min_len name <=? reclen d)) eqn:E1.
  - apply andb_prop in E1 as [_ E1%Z.leb_le]. rewrite enc_hdr.
    destruct (fill_hdr pre (ents es) (le_bytes 4 (d_ino d)) (le_bytes 2 (reclen d)) (Z.of_nat (length (d_name d))) (d_type d) (d_name d ++ d_pad d) name ino ty)
      as (data & -> & E); [by rewrite length_le_bytes.. | rewrite length_app; unfold reclen, DENT in *; lia | lia | done|].
    obind. exists data. rewrite Z.add_0_r. split; [done|]. rewrite E, ents_cons, enc_reuse by lia. done.
  - destruct (Z.leb_spec (min_len name + min_len (d_name d)) (reclen d)) as [E2|E2].
    + destruct (split_entry_at pre (ents es) d name Hd Hn E2) as (n & t & body & -> & Hb & Hpad). obind.
      destruct (reclen_split d name ino ty Hd Hn E2) as [Hs Hbe].
      replace (Z.of_nat (length pre) + min_len (d_name d)) with (Z.of_nat (length (pre ++ enc (shorten d)))) by (rewrite length_app; pose proof (length_enc (shorten d)); lia).
      destruct (fill_hdr (pre ++ enc (shorten d)) (ents es) (le_bytes 4 0) (le_bytes 2 (reclen d - min_len (d_name d))) n t body name ino ty)
        as (data & -> & E); [by rewrite length_le_bytes.. | done | lia | done|].
      obind. exists data. split; [done|]. rewrite E, !ents_cons, <- app_assoc. do 3 f_equal. rewrite enc_hdr, Hbe. cbn [behind d_ino d_type d_name].
      by rewrite <- (Hpad ino ty).
    + specialize (IH (pre ++ enc d) lim fuel). rewrite <- !app_assoc in IH.
      replace (Z.of_nat (length (pre ++ enc d))) with (Z.of_nat (length pre) + reclen d) in IH by (rewrite length_app; lia).
      destruct (place name ino ty es) as [[o es']|]; cbn [fmap option_fmap option_map].
      * destruct IH as (data & -> & E); [rewrite !length_app; lia | lia|]. exists data. rewrite Z.add_assoc. split; [done|].
        by rewrite E, ents_cons, <- app_assoc.
      * apply IH; [rewrite !length_app; lia | lia].
Qed.

(** * Removing *)

Definition freed (d : dent) : dent := {| d_ino := 0; d_type := d_type d; d_name := d_name d; d_pad := d_pad d |}.

(** The record in front takes the removed one in. *)
Definition absorb (p d : dent) : dent :=
  {| d_ino := d_ino p; d_type := d_type p; d_name := d_name p; d_pad := d_pad p ++ enc (freed d) |}.

Lemma reclen_absorb p d : reclen (absorb p d) = reclen p + reclen d.
Proof. unfold absorb, reclen at 1. cbn [d_name d_pad]. rewrite length_app. pose proof (length_enc (freed d)). unfold reclen in *. cbn [freed d_name d_pad] in *. lia. Qed.

Lemma prev_from_spec a d b : Forall dent_ok a -> forall pre prev fuel, (length a < fuel)%nat ->
  prev_from (pre ++ ents (a ++ d :: b)) (Z.of_nat (length pre + length (ents a))) prev (Z.of_nat (length pre)) fuel =
    Done (match last a with Some p => Some (Z.of_nat (length pre + length (ents a)) - reclen p) | None => prev end).
Proof.
  induction 1 as [|e a He _ IH]; intros pre prev fuel Hf; (destruct fuel as [|fuel]; [lia|]); cbn [prev_from].
  - rewrite ents_app, ents_cons. cbn [app last]. rewrite !length_app. pose proof (length_enc d) as Hle. pose proof (reclen_pos d). unfold DENT in *.
    change (ents []) with (@nil Z). cbn [length]. destruct (Z.ltb_spec (Z.of_nat (length pre)) (Z.of_nat (length pre + (0 + (length (enc d) + length (ents b)))))); [|lia].
    rewrite Nat.add_0_r, Z.eqb_refl. done.
  - cbn [app]. rewrite !ents_cons, !length_app. pose proof (length_enc e) as Hle. pose proof (reclen_pos e). unfold DENT in *. cbn [length] in Hf.
    destruct (Z.ltb_spec (Z.of_nat (length pre)) (Z.of_nat (length pre + (length (enc e) + length (ents (a ++ d :: b)))))); [|lia].
    destruct (Z.eqb_spec (Z.of_nat (length pre)) (Z.of_nat (length pre + (length (enc e) + length (ents a))))); [lia|].
    rewrite ent_rec_len_at by done. obind. specialize (IH (pre ++ enc e) (Some (Z.of_nat (length pre))) fuel ltac:(lia)).
    rewrite length_app, <- app_assoc in IH. rewrite <- Nat.add_assoc in IH.
    replace (Z.of_nat (length pre) + reclen e) with (Z.of_nat (length pre + length (enc e))) by lia. rewrite IH. f_equal.
    destruct a as [|e2 a]; [|change (last (e :: e2 :: a)) with (last (e2 :: a)); destruct (last (e2 :: a)) eqn:El; [done | by apply last_None in El]].
    cbn [last]. change (ents []) with (@nil Z). cbn [length]. f_equal. lia.
Qed.

Lemma remove_entry_spec a d b : Forall dent_ok (a ++ d :: b) -> (forall p, last a = Some p -> reclen p + reclen d < 65536) ->
  remove_entry (ents (a ++ d :: b)) (Z.of_nat (length (ents a))) =
    Done (ents (match last a with Some p => removelast a ++ absorb p d :: b | None => freed d :: b end)).
Proof.
  intros Hok Hlen. pose proof Hok as [Ha [Hd Hb]%Forall_cons]%Forall_app. unfold remove_entry.
  pose proof (prev_from_spec a d b Ha [] None (length (ents (a ++ d :: b)))) as E. cbn [app length Nat.add] in E. change (Z.of_nat 0) with 0 in E.
  assert (Hge : forall l, (length l <= length (ents l))%nat).
  { induction l as [|e l IH]; [done|]. rewrite ents_cons, length_app. pose proof (length_enc e). pose proof (reclen_pos e). unfold DENT in *. cbn [length]. lia. }
  rewrite E by (rewrite ents_app, length_app, ents_cons, length_app; pose proof (Hge a); pose proof (length_enc d); pose proof (reclen_pos d); unfold DENT in *; lia). clear E.
  destruct a as [|p a _] using rev_ind.
  { cbn [last]. obind. cbn [app]. rewrite !ents_cons. change (ents []) with (@nil Z). rewrite enc_hdr. pose proof (put_ino [] (ents b)) as E. cbn [app length] in E. change (Z.of_nat 0) with 0 in E.
    rewrite E by (by rewrite length_le_bytes). done. }
  rewrite last_snoc. obind. apply Forall_app in Ha as [Ha [Hp _]%Forall_cons]. specialize (Hlen p (last_snoc _ _)).
  rewrite removelast_last, !ents_app, !ents_cons. change (ents []) with (@nil Z). rewrite app_nil_r, <- app_assoc. rewrite length_app.
  replace (Z.of_nat (length (ents a) + length (enc p)) - reclen p) with (Z.of_nat (length (ents a))) by (pose proof (length_enc p); lia).
  rewrite ent_rec_len_at by done. obind.
  rewrite (app_assoc (ents a) (enc p)). rewrite <- length_app. rewrite ent_rec_len_at by done. obind.
  rewrite <- app_assoc. rewrite (enc_hdr p) at 1. rewrite put_rec_len by (by rewrite length_le_bytes). obind.
  set (h := hdr _ _ _ _ _). assert (Hh : length h = length (enc p)) by (unfold h; rewrite enc_hdr; unfold hdr; by rewrite !length_app, !length_le_bytes).
  rewrite (app_assoc (ents a) h), (enc_hdr d). replace (Z.of_nat (length (ents a ++ enc p))) with (Z.of_nat (length (ents a ++ h))) by (rewrite !length_app; lia).
  rewrite put_ino by (by rewrite length_le_bytes). f_equal. rewrite <- app_assoc. f_equal. rewrite (enc_hdr (absorb p d)), reclen_absorb. unfold h, hdr, absorb.
  cbn [d_ino d_type d_name d_pad]. rewrite (enc_hdr (freed d)). unfold hdr. cbn [freed d_ino d_type d_name d_pad]. rewrite <- !app_assoc. done.
Qed.

(** * The names of a list of records *)

Definition named (es : list dent) : list (list Z * Z) := (fun d => (d_name d, d_ino d)) <$> filter (fun d => d_name d <> []) es.

(** A record is free when it has no name. *)
Definition unstale (d : dent) : Prop := d_ino d = 0 <-> d_name d = [].

Lemma named_app a b : named (a ++ b) = named a ++ named b.
Proof. unfold named. by rewrite filter_app, fmap_app. Qed.

Lemma named_cons d es : named (d :: es) = named [d] ++ named es.
Proof. by rewrite <- named_app. Qed.

Lemma named_one d : d_name d <> [] -> named [d] = [(d_name d, d_ino d)].
Proof. intros H. unfold named. by rewrite filter_cons, decide_True. Qed.

Lemma named_free d : d_name d = [] -> named [d] = [].
Proof. intros H. unfold named. by rewrite filter_cons, decide_False by tauto. Qed.

Lemma named_same d e : d_name d = d_name e -> d_ino d = d_ino e -> named [d] = named [e].
Proof. intros H1 H2. unfold named. rewrite !filter_cons, H1. case_decide; cbn; congruence. Qed.

Lemma find_pos_Some name es o : find_pos name es = Some o ->
  exists a d b, es = a ++ d :: b /\ d_name d = name /\ o = Z.of_nat (length (ents a)).
Proof.
  revert o. induction es as [|d es IH]; intros o; cbn [find_pos]; [done|]. case_decide as E.
  - intros [= <-]. by exists [], d, es.
  - intros (o' & Ho & ->)%fmap_Some. destruct (IH o' Ho) as (a & e & b & -> & En & ->). exists (d :: a), e, b. split_and!; [done | done|].
    rewrite ents_cons, length_app. pose proof (length_enc d). lia.
Qed.

Lemma find_pos_None name es : find_pos name es = None -> name ∉ (named es).*1.
Proof.
  induction es as [|d es IH]; cbn [find_pos]; [intros _ []%not_elem_of_nil|]. case_decide as E; [done|]. intros Ho%fmap_None.
  rewrite named_cons, fmap_app, not_elem_of_app. split; [|by apply IH]. destruct (decide (d_name d = [])) as [E0|E0].
  - rewrite named_free by done. apply not_elem_of_nil.
  - rewrite named_one by done. cbn. by intros ->%list_elem_of_singleton.
Qed.

(** What adding an entry makes of the records. *)
Record added (es : list dent) (name : list Z) (ino : Z) (es' : list dent) : Prop := {
  ad_len : length (ents es') = length (ents es);
  ad_ok : Forall dent_ok es -> Forall dent_ok es';
  ad_live : Forall unstale es -> Forall unstale es';
  ad_named : Forall unstale es -> named es' ≡ₚ (name, ino) :: named es;
}.

Lemma added_cons d es name ino es' : added es name ino es' -> added (d :: es) name ino (d :: es').
Proof.
  intros [A1 A2 A3 A4]. split.
  - by rewrite !ents_cons, !length_app, A1.
  - intros [? ?]%Forall_cons. constructor; auto.
  - intros [? ?]%Forall_cons. constructor; auto.
  - intros [? ?]%Forall_cons. rewrite named_cons, (named_cons d es), A4 by done. symmetry. apply Permutation_middle.
Qed.

Section Added.
Context (name : list Z) (ino ty : Z) (Hn : name_ok name) (Hi : 0 < ino < 2 ^ 32) (Ht : 0 <= ty < 256).

Lemma name_range : Z.of_nat (length name) + DENT <= min_len name.
Proof using Hn. destruct Hn. apply rec_len_range. lia. Qed.

Lemma fresh_ok pad : DENT + Z.of_nat (length name) + Z.of_nat (length pad) < 65536 -> bytes pad ->
  dent_ok {| d_ino := ino; d_type := ty; d_name := name; d_pad := pad |}.
Proof using Hn Hi Ht. destruct Hn as [Hc Hl]. intros Hp Hb. split; cbn [d_ino d_type d_name d_pad]; try done; lia. Qed.

Lemma fresh_named pad : named [{| d_ino := ino; d_type := ty; d_name := name; d_pad := pad |}] = [(name, ino)].
Proof using Hn. apply named_one. cbn. destruct Hn as [_ Hl]. intros E; rewrite E in Hl; cbn in Hl; lia. Qed.

Lemma fresh_live pad : unstale {| d_ino := ino; d_type := ty; d_name := name; d_pad := pad |}.
Proof using Hn Hi. destruct Hn as [_ Hl]. split; cbn; intros E; [lia | rewrite E in Hl; cbn in Hl; lia]. Qed.

Lemma chars_bytes d : dent_ok d -> bytes (d_name d).
Proof. intros Hd. eapply Forall_impl; [apply (dok_chars _ Hd)|]. intros c. cbn. lia. Qed.

Lemma reuse_added d es : d_ino d = 0 -> min_len name <= reclen d -> added (d :: es) name ino (reuse d name ino ty :: es).
Proof using Hn Hi Ht.
  intros H0 Hr. pose proof name_range as Hm. split.
  - rewrite !ents_cons, !length_app. f_equal. pose proof (length_enc (reuse d name ino ty)) as E. rewrite reclen_reuse in E by lia. pose proof (length_enc d). lia.
  - intros [Hd Hes]%Forall_cons. constructor; [|done]. unfold reuse. apply fresh_ok.
    + pose proof (reclen_reuse d name ino ty ltac:(lia)) as E. pose proof (dok_len _ Hd). unfold reclen, reuse in *. cbn [d_name d_pad] in *. lia.
    + apply Forall_drop, Forall_app. split; [by apply chars_bytes | apply Hd].
  - intros [Hd Hes]%Forall_cons. constructor; [apply fresh_live | done].
  - intros [Hd Hes]%Forall_cons. rewrite named_cons, (named_cons d es), (named_free d) by (by apply Hd). unfold reuse. by rewrite fresh_named.
Qed.

Lemma split_added d es : dent_ok d -> min_len name + min_len (d_name d) <= reclen d ->
  added (d :: es) name ino (shorten d :: behind d name ino ty :: es).
Proof using Hn Hi Ht.
  intros Hd Hr. destruct (reclen_split d name ino ty Hd Hn Hr) as [Hs Hb]. pose proof name_range as Hm. split.
  - rewrite !ents_cons, !length_app. pose proof (length_enc (shorten d)). pose proof (length_enc (behind d name ino ty)). pose proof (length_enc d). lia.
  - intros [_ Hes]%Forall_cons. pose proof (dok_len _ Hd). pose proof (reclen_pos (shorten d)). unfold DENT in *. constructor; [|constructor; [|done]].
    + destruct Hd. split; cbn [shorten d_ino d_type d_name d_pad]; try done; [lia|]. by apply Forall_take.
    + apply fresh_ok; [|apply Forall_drop, Hd]. unfold reclen, behind in *. cbn [d_name d_pad] in *. lia.
  - intros [Hl Hes]%Forall_cons. constructor; [exact Hl|]. constructor; [apply fresh_live | done].
  - intros [Hl Hes]%Forall_cons. rewrite named_cons, (named_cons (behind _ _ _ _)), (named_cons d es). rewrite (named_same (shorten d) d) by done.
    unfold behind. rewrite fresh_named. cbn [app]. symmetry. apply Permutation_middle.
Qed.

Lemma place_added es o es' : Forall dent_ok es -> place name ino ty es = Some (o, es') -> added es name ino es'.
Proof using Hn Hi Ht.
  intros Hes. revert o es'. induction Hes as [|d es Hd Hes IH]; intros o es'; cbn [place]; [done|].
  destruct ((d_ino d =? 0) && (min_len name <=? reclen d)) eqn:E1.
  { intros [= <- <-]. apply andb_prop in E1 as [E1%Z.eqb_eq E2%Z.leb_le]. by apply reuse_added. }
  destruct (Z.leb_spec (min_len name + min_len (d_name d)) (reclen d)); [intros [= <- <-]; by apply split_added|].
  intros ([o' es2] & E & [= -> ->])%fmap_Some. apply added_cons. by apply (IH o').
Qed.
End Added.

(** What removing an entry that is not the first makes of the records. *)
Lemma removed_facts a p d b : Forall dent_ok (a ++ p :: d :: b) -> reclen p + reclen d < 65536 -> d_name d <> [] ->
  let es' := a ++ absorb p d :: b in
  length (ents es') = length (ents (a ++ p :: d :: b)) /\ Forall dent_ok es' /\
  (Forall unstale (a ++ p :: d :: b) -> Forall unstale es') /\ named (a ++ p :: d :: b) ≡ₚ (d_name d, d_ino d) :: named es'.
Proof.
  intros [Ha [Hp [Hd Hb]%Forall_cons]%Forall_cons]%Forall_app Hl Hne. cbn zeta. split_and!.
  - rewrite !ents_app, !ents_cons, !length_app. pose proof (length_enc (absorb p d)) as E. rewrite reclen_absorb in E.
    pose proof (length_enc p). pose proof (length_enc d). lia.
  - apply Forall_app. split; [done|]. constructor; [|done]. pose proof (reclen_absorb p d) as E. destruct Hp. split; try done; cbn [absorb d_pad d_name d_ino d_type].
    + lia.
    + apply Forall_app. split; [done|]. unfold enc. rewrite !Forall_app. split_and!; try apply le_bytes_bytes; cbn [freed d_name d_pad d_type].
      * pose proof (dok_name _ Hd). pose proof (dok_type _ Hd). repeat constructor; lia.
      * by apply chars_bytes.
      * apply Hd.
  - intros [La [Lp [Ld Lb]%Forall_cons]%Forall_cons]%Forall_app. apply Forall_app. split; [done|]. by constructor.
  - rewrite !named_app, (named_cons p), (named_cons (absorb p d)), (named_cons d), (named_one d) by done.
    rewrite (named_same (absorb p d) p) by done. rewrite !app_assoc. rewrite <- (app_assoc _ [_]). cbn [app]. symmetry. apply Permutation_middle.
Qed.

(** * Empty directories *)

(** A record that does not keep a directory from being removed. *)
Definition harmless (d : dent) : bool := (d_ino d =? 0) || bool_decide (d_name d = [46]) || bool_decide (d_name d = [46; 46]).

Lemma char_at pre d post i v : d_name d !! i = Some v -> arr_get (pre ++ enc d ++ post) (Z.of_nat (length pre) + DENT + Z.of_nat i) = Done v.
Proof.
  intros Hi. pose proof (lookup_lt_Some _ _ _ Hi) as Hlt. unfold enc. set (h := le_bytes 4 (d_ino d) ++ le_bytes 2 (reclen d) ++ [Z.of_nat (length (d_name d)); d_type d]).
  assert (Hh : length h = 8%nat) by (unfold h; by rewrite !length_app, !length_le_bytes).
  replace (pre ++ _ ++ post) with ((pre ++ h) ++ d_name d ++ d_pad d ++ post) by (unfold h; by rewrite <- !app_assoc).
  apply arr_get_done. split; [unfold DENT; lia|].
  replace (Z.to_nat (Z.of_nat (length pre) + DENT + Z.of_nat i)) with (length (pre ++ h) + i)%nat by (rewrite length_app; unfold DENT; lia).
  rewrite lookup_app_r by lia. by rewrite Nat.add_comm, Nat.add_sub, lookup_app_l.
Qed.

Lemma empty_from_spec es : Forall dent_ok es -> forall pre fuel, (length es <= fuel)%nat ->
  empty_from (pre ++ ents es) (Z.of_nat (length pre)) fuel = Done (forallb harmless es).
Proof.
  induction 1 as [|d es Hd _ IH]; intros pre fuel Hf.
  { rewrite app_nil_r. destruct fuel; cbn [empty_from]; by rewrite Z.ltb_irrefl. }
  destruct fuel as [|fuel]; cbn [length] in Hf; [lia|]. rewrite ents_cons. cbn [empty_from forallb].
  pose proof (length_enc d) as Hle. pose proof (reclen_pos d). unfold DENT in *.
  destruct (Z.ltb_spec (Z.of_nat (length pre)) (Z.of_nat (length (pre ++ enc d ++ ents es)))); [|rewrite !length_app in *; lia].
  rewrite ent_name_len_at, ent_ino_at, ent_rec_len_at by done. obind. specialize (IH (pre ++ enc d) fuel ltac:(lia)).
  rewrite <- app_assoc in IH. replace (Z.of_nat (length (pre ++ enc d))) with (Z.of_nat (length pre) + reclen d) in IH by (rewrite length_app; lia).
  unfold harmless. destruct (Z.eqb_spec (d_ino d) 0); cbn [orb]; [by rewrite IH|].
  pose proof (char_at pre d (ents es)) as Hc. unfold DENT in Hc. destruct (d_name d) as [|c0 [|c1 [|c2 nm]]] eqn:En; cbn [length].
  - done.
  - specialize (Hc 0%nat c0 eq_refl). change (Z.of_nat 0) with 0 in Hc. rewrite Z.add_0_r in Hc.
    change (Z.of_nat 1 =? 0) with false. change (2 <? Z.of_nat 1) with false. change (Z.of_nat 1 =? 1) with true. cbv iota. rewrite Hc. obind.
    destruct (Z.eqb_spec c0 46) as [->|Hne]; cbn [negb]; [by rewrite IH|]. rewrite !bool_decide_false by congruence. done.
  - pose proof (Hc 0%nat c0 eq_refl) as Hc0. specialize (Hc 1%nat c1 eq_refl). change (Z.of_nat 0) with 0 in Hc0. rewrite Z.add_0_r in Hc0. change (Z.of_nat 1) with 1 in Hc.
    change (Z.of_nat 2 =? 0) with false. change (2 <? Z.of_nat 2) with false. change (Z.of_nat 2 =? 1) with false. cbv iota.
    rewrite Hc0. obind. destruct (Z.eqb_spec c0 46) as [->|Hne]; cbn [negb]; [|by rewrite !bool_decide_false by congruence].
    rewrite Hc. obind. destruct (Z.eqb_spec c1 46) as [->|Hne]; cbn [negb]; [by rewrite IH|]. by rewrite !bool_decide_false by congruence.
  - rewrite !bool_decide_false by done. destruct (Z.eqb_spec (Z.of_nat (S (S (S (length nm))))) 0); [lia|].
    by destruct (Z.ltb_spec 2 (Z.of_nat (S (S (S (length nm)))))); [|lia].
Qed.
