(* ===== verification/Ext2Dir.v ===== *)
(** Directories of ext2 (src/fs/ext2/namei.c, dir.c): the blocks of a directory
    hold chains of entries ([Dirent]), and the block map of [Ext2] leads to them.
    Looking up, adding and removing names are shown to be the operations of a finite
    map.  The locks of the directory and of its blocks make each call atomic. *)
From stdpp Require Import base numbers list gmap.
From Stdlib Require Import ZArith ZifyBool Lia.
From S2P Require Import Prelude Users Bits Endian Ext2 Ext2Alloc Ext2Map Ext2Bmap Ext2Trunc Vfs Ext2File Dirent.
Open Scope Z_scope.

Definition ENOTEMPTY : Z := 90.
Definition EEXIST : Z := 17.
Definition EMLINK : Z := 31.
Definition EXT2_LINK_MAX : Z := 32000.
Definition ENOTDIR : Z := 20.

(** [ext2_dt_to_dir_type], by the file type in the mode. *)
Definition ext2_dt_to_dir_type : list Z := [0; 5; 3; 0; 2; 0; 4; 0; 1; 0; 7].

Definition ext2_dir_type (mode : Z) : outcome Z := arr_get ext2_dt_to_dir_type (Z.land (Z.shiftr mode 12) 15).

(** The loop of [__ext2_lookup_entry] over the blocks: the block and the offset
    of the entry. *)
Fixpoint lookup_blocks (f : fs) (x : ext2_inode) (name : list Z) (cur_off : Z) (fuel : nat) : outcome (option (Z * Z)) :=
  if cur_off <? size (vfs x) then
    match fuel with
    | O => Fault
    | S fuel' =>
        sec ← ext2_bmap f x (Z.quot cur_off (block_size (sb f)));
        if sec =? SECTOR_INVALID then Done None
        else
          data ← block_data f sec;
          r ← lookup_from data name (size (vfs x) - cur_off) 0 (length data);
          match r with
          | Some off => Done (Some (sec, off))
          | None => lookup_blocks f x name (cur_off + block_size (sb f)) fuel'
          end
    end
  else Done None.

Definition dir_fuel (f : fs) (x : ext2_inode) : nat := Z.to_nat (size (vfs x) / block_size (sb f) + 1).

Definition ext2_lookup_entry (f : fs) (x : ext2_inode) (name : list Z) : outcome (option (Z * Z)) :=
  lookup_blocks f x name 0 (dir_fuel f x).

Definition ext2_dir_lookup_ino (f : fs) (x : ext2_inode) (name : list Z) : outcome (Z * Z) :=
  r ← ext2_lookup_entry f x name;
  match r with
  | None => Done (- ENOENT, 0)
  | Some (sec, off) => data ← block_data f sec; ino ← ent_ino data off; Done (0, ino)
  end.

Definition ext2_dir_entry_exists (f : fs) (x : ext2_inode) (name : list Z) : outcome bool :=
  r ← ext2_lookup_entry f x name;
  Done (match r with Some _ => true | None => false end).

(** The loop of [__ext2_add_entry] over the blocks: the block, the offset of the
    entry, and the new bytes of the block. *)
Fixpoint add_blocks (f : fs) (x : ext2_inode) (name : list Z) (cur_off : Z) (fuel : nat) : outcome (option (Z * Z * list Z)) :=
  if cur_off <? size (vfs x) then
    match fuel with
    | O => Fault
    | S fuel' =>
        sec ← ext2_bmap f x (Z.quot cur_off (block_size (sb f)));
        if sec =? SECTOR_INVALID then Done None
        else
          data ← block_data f sec;
          r ← add_from data name (size (vfs x) - cur_off) 0 (length data);
          match r with
          | Some (off, data) => Done (Some (sec, off, data))
          | None => add_blocks f x name (cur_off + block_size (sb f)) fuel'
          end
    end
  else Done None.

Definition ext2_add_entry (now : Z) (f : fs) (x : ext2_inode) (name : list Z)
    : outcome ((Z + Z * Z * list Z) * fs * ext2_inode) :=
  r ← add_blocks f x name 0 (dir_fuel f x);
  match r with
  | Some e => Done (inr e, f, x)
  | None =>
      let block_size := block_size (sb f) in
      '(f, x) ← ext2_inode_truncate now f x (i32 (size (vfs x) + block_size));
      '(sec, f, x) ← ext2_bmap_alloc f x (Z.quot (size (vfs x) - 1) block_size);
      if sec =? SECTOR_INVALID then Done (inl (- ENOSPC), f, x)
      else
        data ← block_data f sec;
        data ← put_le 4 data 0 0;
        data ← put_le 2 data 4 block_size;
        data ← set_name data 0 name;
        Done (inr (sec, 0, data), f, x)
  end.

Definition ext2_dir_add (now : Z) (f : fs) (x : ext2_inode) (name : list Z) (ino mode : Z) : outcome (Z * fs * ext2_inode) :=
  '(r, f, x) ← ext2_add_entry now f x name;
  match r with
  | inl err => Done (err, f, x)
  | inr (sec, off, data) =>
      type ← ext2_dir_type mode;
      data ← set_entry data off ino type;
      Done (0, block_write f sec data, x)
  end.

Definition ext2_dir_remove (f : fs) (x : ext2_inode) (name : list Z) : outcome (Z * fs) :=
  r ← ext2_lookup_entry f x name;
  match r with
  | None => Done (- ENOENT, f)
  | Some (sec, off) =>
      data ← block_data f sec;
      data ← remove_entry data off;
      Done (0, block_write f sec data)
  end.

Definition ext2_dir_change_dotdot (f : fs) (x : ext2_inode) (ino : Z) : outcome (Z * fs) :=
  r ← ext2_lookup_entry f x [46; 46];
  match r with
  | None => Done (- ENOENT, f)
  | Some (sec, off) =>
      data ← block_data f sec;
      data ← put_le 4 data off ino;
      Done (0, block_write f sec data)
  end.

Fixpoint empty_blocks (f : fs) (x : ext2_inode) (cur_block : Z) (n : nat) : outcome Z :=
  match n with
  | O => Done 0
  | S n' =>
      sec ← ext2_bmap f x cur_block;
      if sec =? SECTOR_INVALID then Done (- ENOTEMPTY)
      else
        data ← block_data f sec;
        e ← empty_from data 0 (length data);
        if (e : bool) then empty_blocks f x (cur_block + 1) n' else Done (- ENOTEMPTY)
  end.

Definition ext2_dir_empty (f : fs) (x : ext2_inode) : outcome Z :=
  let block_size := block_size (sb f) in
  empty_blocks f x 0 (Z.to_nat (Z.quot (i32 (ALIGN_2 (size (vfs x)) block_size)) block_size)).

(** * The operations on a directory *)

(** The times of a change; the inode is dirty. *)
Definition touch (now : Z) (v : inode) : inode :=
  {| ino := ino v; dev_no := dev_no v; size := size v; mode := mode v; nlinks := nlinks v; blocks := blocks v;
     atime := atime v; mtime := now; ctime := now; uid := uid v; gid := gid v; dirty := true |}.

Definition add_nlinks (n : Z) (v : inode) : inode :=
  {| ino := ino v; dev_no := dev_no v; size := size v; mode := mode v; nlinks := i32 (nlinks v + n); blocks := blocks v;
     atime := atime v; mtime := mtime v; ctime := ctime v; uid := uid v; gid := gid v; dirty := dirty v |}.

Definition ext2_dir_link (now : Z) (f : fs) (x : ext2_inode) (old : inode) (name : list Z) : outcome (Z * fs * ext2_inode * inode) :=
  if S_ISDIR (mode old) then Done (- EPERM, f, x, old)
  else if EXT2_LINK_MAX <=? nlinks old then Done (- EMLINK, f, x, old)
  else
    exists_ ← ext2_dir_entry_exists f x name;
    '(ret, f, x) ← (if negb exists_ then ext2_dir_add now f x name (ino old) (mode old) else Done (- EEXIST, f, x));
    if negb (ret =? 0) then Done (ret, f, x, old)
    else Done (0, f, set_vfs (touch now) x, touch now (add_nlinks 1 old)).

Definition ext2_dir_unlink (now : Z) (f : fs) (x : ext2_inode) (link : inode) (name : list Z) : outcome (Z * fs * ext2_inode * inode) :=
  '(ret, f) ← ext2_dir_remove f x name;
  if negb (ret =? 0) then Done (ret, f, x, link)
  else Done (ret, f, set_vfs (touch now) x, touch now (add_nlinks (-1) link)).

Definition ext2_dir_rename_within_dir (now : Z) (f : fs) (x : ext2_inode) (entry : inode) (name new_name : list Z) : outcome (Z * fs * ext2_inode) :=
  '(ret, f) ← ext2_dir_remove f x name;
  if ret =? 0 then ext2_dir_add now f x new_name (ino entry) (mode entry) else Done (ret, f, x).

Definition ext2_ino_group (s : ext2_super_block) (n : Z) : Z := u32 (n - 1) / inodes_per_block_group (disksb s).

(** [directory_count--] of the group of an inode. *)
Definition set_directory_count (n : Z) (g : ext2_disk_block_group) : ext2_disk_block_group :=
  {| block_nr_block_bitmap := block_nr_block_bitmap g; block_nr_inode_bitmap := block_nr_inode_bitmap g;
     block_nr_inode_table := block_nr_inode_table g; group_block_unused := group_block_unused g;
     group_inode_unused := group_inode_unused g; directory_count := n |}.

Definition dec_directory_count (f : fs) (n : Z) : outcome fs :=
  g ← arr_get (groups (sb f)) (ext2_ino_group (sb f) n);
  gs ← arr_set (groups (sb f)) (ext2_ino_group (sb f) n) (set_directory_count (u16 (directory_count g - 1)) g);
  Done (set_sb (set_groups gs (sb f)) f).

Definition ext2_dir_rmdir (now : Z) (f : fs) (x deldir : ext2_inode) (name : list Z) : outcome (Z * fs * ext2_inode * ext2_inode) :=
  if negb (S_ISDIR (mode (vfs deldir))) then Done (- ENOTDIR, f, x, deldir)
  else
    ret ← ext2_dir_empty f deldir;
    if negb (ret =? 0) then Done (ret, f, x, deldir)
    else
      '(ret, f) ← ext2_dir_remove f x name;
      if negb (ret =? 0) then Done (ret, f, x, deldir)
      else
        f ← dec_directory_count f (ino (vfs deldir));
        Done (ret, f, set_vfs (fun v => touch now (add_nlinks (-1) v)) x,
              set_vfs (fun v => touch now (add_nlinks (-1) (add_nlinks (-1) v))) deldir).

(** [vfs_link], [vfs_unlink] and [vfs_rmdir] of src/fs/vfs.c, on a directory of ext2. *)
Definition vfs_link (now : Z) (c : credentials) (f : fs) (x : ext2_inode) (old : inode) (name : list Z) : outcome (Z * fs * ext2_inode * inode) :=
  if negb (S_ISDIR (mode (vfs x))) then Done (- ENOTDIR, f, x, old)
  else
    let ret := check_permission c (access_of (vfs x)) (Z.lor W_OK X_OK) in
    if negb (ret =? 0) then Done (ret, f, x, old) else ext2_dir_link now f x old name.

Definition vfs_unlink (now : Z) (c : credentials) (f : fs) (x : ext2_inode) (entity : inode) (name : list Z) : outcome (Z * fs * ext2_inode * inode) :=
  if negb (S_ISDIR (mode (vfs x))) then Done (- ENOTDIR, f, x, entity)
  else
    let ret := check_permission c (access_of (vfs x)) (Z.lor W_OK X_OK) in
    if negb (ret =? 0) then Done (ret, f, x, entity) else ext2_dir_unlink now f x entity name.

Definition vfs_rmdir (now : Z) (c : credentials) (f : fs) (x deldir : ext2_inode) (name : list Z) : outcome (Z * fs * ext2_inode * ext2_inode) :=
  if negb (S_ISDIR (mode (vfs x))) then Done (- ENOTDIR, f, x, deldir)
  else
    let ret := check_permission c (access_of (vfs x)) (Z.lor W_OK X_OK) in
    if negb (ret =? 0) then Done (ret, f, x, deldir) else ext2_dir_rmdir now f x deldir name.

(** * Directories *)

Abbreviation bsize f := (block_size (sb f)).

(** Block [k] of the directory holds the entries [es]. *)
Definition holds (f : fs) (x : ext2_inode) (k : nat) (es : list dent) : Prop :=
  Ext2Map.mapped f x (Z.of_nat k) <> 0 /\ disk f !! Ext2Map.mapped f x (Z.of_nat k) = Some (ents es).

Record dir_ok (f : fs) (x : ext2_inode) (ess : list (list dent)) : Prop := {
  do_fs : fs_ok f;
  do_file : file_ok f x;
  do_tight : tight f x;
  do_size : size (vfs x) = Z.of_nat (length ess) * bsize f;
  do_small : size (vfs x) < 2 ^ 31;
  do_blocks : forall k es, ess !! k = Some es -> holds f x k es;
  do_dents : Forall (Forall dent_ok) ess;
}.

Lemma bytes_ents es : Forall dent_ok es -> bytes (ents es).
Proof.
  intros H. induction H as [|d es Hd _ IH]; [constructor|]. rewrite ents_cons. apply Forall_app. split; [|done].
  unfold enc. rewrite !Forall_app. split_and!; try apply le_bytes_bytes.
  - pose proof (dok_name _ Hd). pose proof (dok_type _ Hd). repeat constructor; lia.
  - eapply Forall_impl; [apply (dok_chars _ Hd)|]. intros c. cbn. lia.
  - apply (dok_pad _ Hd).
Qed.

(** What the loops find at block [k]. *)
Lemma dir_block f x ess k es : dir_ok f x ess -> ess !! k = Some es ->
  ext2_bmap f x (Z.quot (Z.of_nat k * bsize f) (bsize f)) = Done (Ext2Map.mapped f x (Z.of_nat k)) /\
  Ext2Map.mapped f x (Z.of_nat k) <> SECTOR_INVALID /\
  block_data f (Ext2Map.mapped f x (Z.of_nat k)) = Done (ents es) /\ Z.of_nat (length (ents es)) = bsize f /\ Forall dent_ok es /\
  (k < length ess)%nat.
Proof.
  intros [Hfs Hx HT Hsz Hsm Hb Hde] Hk. pose proof (lookup_lt_Some _ _ _ Hk) as Hlt. destruct (Hb k es Hk) as [Hm Hd].
  pose proof (bsize_range f Hfs) as Hbs. rewrite Z.quot_mul by lia.
  assert (Hkn : sector_known f x (Z.of_nat k)) by (apply (known_below f x _ 0 Hfs); nia).
  rewrite (ext2_bmap_spec f x _ Hfs Hx Hkn).
  assert (Er : return_sector (Ext2Map.mapped f x (Z.of_nat k)) = Ext2Map.mapped f x (Z.of_nat k)) by (unfold return_sector; by destruct (Z.eqb_spec (Ext2Map.mapped f x (Z.of_nat k)) 0)).
  pose proof (mapped_known f x (Z.of_nat k) Hfs Hx ltac:(lia)) as Hmk. rewrite Er in *. unfold block_data. rewrite Hd.
  destruct (block_shape f Hfs _ _ Hd) as [Hl _]. rewrite <- (bs_ppb f Hfs) in Hl.
  split_and!; [done | tauto | done | done | | done]. rewrite Forall_lookup in Hde. by apply (Hde k).
Qed.

(** A block takes new entries. *)
Lemma dir_set f x ess k es :
  fs_ok f -> file_ok f x -> tight f x -> size (vfs x) = Z.of_nat (length ess) * bsize f -> size (vfs x) < 2 ^ 31 ->
  (forall j es', ess !! j = Some es' -> j <> k -> holds f x j es') -> Forall (Forall dent_ok) ess ->
  ess !! k = Some es -> Ext2Map.mapped f x (Z.of_nat k) <> 0 -> Z.of_nat (length (ents es)) = bsize f ->
  dir_ok (block_write f (Ext2Map.mapped f x (Z.of_nat k)) (ents es)) x ess.
Proof.
  intros Hfs Hx HT Hsz Hsm Hb Hde Hk Hm Hl.
  assert (Hes : Forall dent_ok es) by (rewrite Forall_lookup in Hde; by apply (Hde k)).
  destruct (leaf_write f x (Z.of_nat k) (ents es) Hfs Hx ltac:(lia) Hm Hl (bytes_ents es Hes)) as (W1 & W2 & W3 & _ & _).
  split; try done.
  - intros t Ht Hts. rewrite W3 by done. by apply HT.
  - intros j es' Hj. unfold holds. rewrite W3 by lia. cbn [disk block_write]. destruct (decide (j = k)) as [->|Hne].
    + split; [done|]. rewrite lookup_insert_eq. congruence.
    + destruct (Hb j es' Hj Hne) as [Hmj Hdj]. split; [done|]. rewrite lookup_insert_ne; [done|].
      intros E. apply Hne. pose proof (mapped_once f x (Z.of_nat k) (Z.of_nat j) Hfs Hx ltac:(lia) ltac:(lia) Hm E). lia.
Qed.

Lemma dir_update f x ess k es es' :
  dir_ok f x ess -> ess !! k = Some es -> Forall dent_ok es' -> length (ents es') = length (ents es) ->
  dir_ok (block_write f (Ext2Map.mapped f x (Z.of_nat k)) (ents es')) x (<[k := es']> ess).
Proof.
  intros Hok Hk Hes Hl. pose proof Hok as [Hfs Hx HT Hsz Hsm Hb Hde].
  destruct (dir_block f x ess k es Hok Hk) as (_ & _ & _ & Hlen & _ & Hlt).
  apply dir_set; try done.
  - by rewrite length_insert.
  - intros j e Hj Hne. rewrite list_lookup_insert_ne in Hj by done. by apply Hb.
  - by apply Forall_insert.
  - by apply list_lookup_insert_eq.
  - by destruct (Hb k es Hk).
  - lia.
Qed.

(** * Looking up *)

Fixpoint find_from (name : list Z) (k : nat) (ess : list (list dent)) : option (nat * Z) :=
  match ess with
  | [] => None
  | es :: ess' => match find_pos name es with Some o => Some (k, o) | None => find_from name (S k) ess' end
  end.

Lemma length_ents es : (length es <= length (ents es))%nat.
Proof.
  induction es as [|e l IH]; [done|]. rewrite ents_cons, length_app. pose proof (length_enc e). pose proof (reclen_pos e). unfold DENT in *. cbn [length]. lia.
Qed.

Section Walk.
Context (f : fs) (x : ext2_inode) (ess : list (list dent)) (Hok : dir_ok f x ess) (name : list Z) (Hn : name_ok name).

Lemma cur_off_end k : (Z.of_nat k * bsize f <? size (vfs x)) = (k <? length ess)%nat.
Proof using Hok.
  rewrite (do_size _ _ _ Hok). pose proof (bsize_range f (do_fs _ _ _ Hok)). destruct (Nat.ltb_spec k (length ess)); [apply Z.ltb_lt | apply Z.ltb_ge]; nia.
Qed.

Lemma lookup_blocks_spec fuel : forall k, (length ess <= k + fuel)%nat ->
  lookup_blocks f x name (Z.of_nat k * bsize f) fuel =
    Done ((fun '(i, o) => (Ext2Map.mapped f x (Z.of_nat i), o)) <$> find_from name k (drop k ess)).
Proof using Hok Hn.
  induction fuel as [|fuel IH]; intros k Hf; cbn [lookup_blocks]; rewrite cur_off_end; destruct (Nat.ltb_spec k (length ess)) as [Hlt|Hge]; try lia.
  1,3: by rewrite drop_ge by lia.
  destruct (lookup_lt_is_Some_2 ess k Hlt) as [es Hk]. destruct (dir_block f x ess k es Hok Hk) as (E1 & E2 & E3 & Hl & Hde & _).
  rewrite E1. obind. destruct (Z.eqb_spec (Ext2Map.mapped f x (Z.of_nat k)) SECTOR_INVALID); [done|]. rewrite E3. obind.
  pose proof (lookup_from_spec name es Hn Hde [] (size (vfs x) - Z.of_nat k * bsize f) (length (ents es))) as E. cbn [app length] in E. change (Z.of_nat 0) with 0 in E.
  rewrite E by (pose proof (length_ents es); pose proof (do_size _ _ _ Hok); nia). obind. rewrite (drop_S _ _ _ Hk). cbn [find_from].
  destruct (find_pos name es) as [o|]; cbn [fmap option_fmap option_map]; [done|].
  rewrite <- IH by lia. f_equal. lia.
Qed.

Lemma dir_fuel_eq : dir_fuel f x = S (length ess).
Proof using Hok.
  unfold dir_fuel. rewrite (do_size _ _ _ Hok). pose proof (bsize_range f (do_fs _ _ _ Hok)). rewrite Z.div_mul by lia. lia.
Qed.

Lemma lookup_entry_spec : ext2_lookup_entry f x name =
  Done ((fun '(i, o) => (Ext2Map.mapped f x (Z.of_nat i), o)) <$> find_from name 0 ess).
Proof using Hok Hn.
  unfold ext2_lookup_entry. rewrite dir_fuel_eq. apply (lookup_blocks_spec (S (length ess)) 0). lia.
Qed.
End Walk.

Lemma concat_at {A} (ls : list (list A)) k l : ls !! k = Some l -> concat ls = concat (take k ls) ++ l ++ concat (drop (S k) ls).
Proof. intros Hk. rewrite <- (take_drop_middle ls k l Hk) at 1. by rewrite concat_app. Qed.

(** * The blocks of other files *)

Record confined (f : fs) (x : ext2_inode) (f' : fs) (x' : ext2_inode) : Prop := {
  cf_layout : layout (sb f') = layout (sb f);
  cf_kept : forall n, ~ bitmap_block (sb f) n -> ~ free f n -> ~ node f x n -> disk f' !! n = disk f !! n;
  cf_nodes : forall n, node f' x' n -> node f x n \/ free f n;
  cf_free : forall n, free f' n -> free f n;
  cf_rights : access_of (vfs x') = access_of (vfs x);
}.

Lemma confined_refl f x : confined f x f x.
Proof. split; auto. Qed.

Lemma confined_trans f x f1 x1 f2 x2 : confined f x f1 x1 -> confined f1 x1 f2 x2 -> confined f x f2 x2.
Proof.
  intros [A1 A2 A3 A4 A5] [B1 B2 B3 B4 B5]. split; [congruence | | | | congruence].
  - intros n Hb Hf Hn. rewrite B2, A2; auto; [by rewrite (layout_bitmap _ _ _ A1)|]. intros [?|?]%A3; done.
  - intros n [H|H]%B3; auto.
  - auto.
Qed.

Lemma confined_write f x k data : fs_ok f -> file_ok f x -> 0 <= k -> Ext2Map.mapped f x k <> 0 -> Z.of_nat (length data) = bsize f -> bytes data ->
  confined f x (block_write f (Ext2Map.mapped f x k) data) x.
Proof.
  intros Hfs Hx Hk Hm Hl Hb. destruct (leaf_write f x k data Hfs Hx Hk Hm Hl Hb) as (_ & _ & _ & Hn & Hu).
  destruct (leaf_not_inner f x k Hfs Hx Hk Hm) as (_ & _ & _ & Hnode). split; [done | | | | done].
  - intros n _ _ Hnn. cbn. apply lookup_insert_ne. by intros <-.
  - intros n ?%Hn. by left.
  - intros n [Hr Hu']. split; [done|]. by rewrite <- Hu.
Qed.

(** * Adding *)

Fixpoint place_from (name : list Z) (ino ty : Z) (k : nat) (ess : list (list dent)) : option (nat * Z * list dent) :=
  match ess with
  | [] => None
  | es :: ess' => match place name ino ty es with Some (o, es') => Some (k, o, es') | None => place_from name ino ty (S k) ess' end
  end.

Lemma place_from_Some name ino ty ess : forall k i o es', place_from name ino ty k ess = Some (i, o, es') ->
  exists j es, i = (k + j)%nat /\ ess !! j = Some es /\ place name ino ty es = Some (o, es').
Proof.
  induction ess as [|es ess IH]; intros k i o es'; cbn [place_from]; [done|].
  destruct (place name ino ty es) as [[o1 es1]|] eqn:E.
  - intros [= -> -> ->]. exists 0%nat, es. split_and!; [lia | done | done].
  - intros (j & e & -> & Hj & Hp)%IH. exists (S j), e. split_and!; [lia | done | done].
Qed.

Section Add.
Context (f : fs) (x : ext2_inode) (ess : list (list dent)) (Hok : dir_ok f x ess) (name : list Z) (Hn : name_ok name).
Context (ino ty : Z) (Hi : 0 < ino < 2 ^ 32) (Hty : 0 <= ty < 256).

Lemma add_blocks_spec fuel : forall k, (length ess <= k + fuel)%nat ->
  match place_from name ino ty k (drop k ess) with
  | None => add_blocks f x name (Z.of_nat k * bsize f) fuel = Done None
  | Some (i, o, es') => exists data, add_blocks f x name (Z.of_nat k * bsize f) fuel = Done (Some (Ext2Map.mapped f x (Z.of_nat i), o, data)) /\
      set_entry data o ino ty = Done (ents es')
  end.
Proof using Hok Hn Hty.
  induction fuel as [|fuel IH]; intros k Hf; cbn [add_blocks]; rewrite (cur_off_end f x ess Hok); destruct (Nat.ltb_spec k (length ess)) as [Hlt|Hge]; try lia.
  1,3: by rewrite drop_ge by lia.
  destruct (lookup_lt_is_Some_2 ess k Hlt) as [es Hk]. destruct (dir_block f x ess k es Hok Hk) as (E1 & E2 & E3 & Hl & Hde & _).
  rewrite E1. obind. destruct (Z.eqb_spec (Ext2Map.mapped f x (Z.of_nat k)) SECTOR_INVALID); [done|]. rewrite E3. obind.
  pose proof (add_from_spec name ino ty es Hn Hty Hde [] (size (vfs x) - Z.of_nat k * bsize f) (length (ents es))) as E. cbn [app length] in E. change (Z.of_nat 0) with 0 in E.
  specialize (E ltac:(pose proof (do_size _ _ _ Hok); nia) (length_ents es)). rewrite (drop_S _ _ _ Hk). cbn [place_from].
  destruct (place name ino ty es) as [[o es']|].
  - destruct E as (data & -> & Es). obind. by exists data.
  - rewrite E. obind. replace (Z.of_nat k * bsize f + bsize f) with (Z.of_nat (S k) * bsize f) by lia. apply IH. lia.
Qed.

(** What [__ext2_dir_add] leaves behind: the entry in a block that had room, or
    in a new one. *)
Definition new_dent : dent := {| d_ino := ino; d_type := ty; d_name := name; d_pad := replicate (Z.to_nat (bsize f - DENT - Z.of_nat (length name))) 0 |}.

Lemma new_dent_len : reclen new_dent = bsize f.
Proof using Hok Hn.
  unfold reclen, new_dent. cbn [d_name d_pad]. rewrite length_replicate. pose proof (bsize_range f (do_fs _ _ _ Hok)). destruct Hn as [_ ?]. unfold DENT. lia.
Qed.

Lemma new_dent_ok : dent_ok new_dent.
Proof using Hok Hn Hi Hty.
  apply fresh_ok; try done; [|apply Forall_replicate; lia]. pose proof new_dent_len as E. pose proof (bsize_range f (do_fs _ _ _ Hok)).
  unfold reclen, new_dent in E. cbn [d_name d_pad] in E. lia.
Qed.

(** The first entry of a block of zeros. *)
Lemma fill_zeros : exists d1 d2 d3,
  put_le 4 (replicate (Z.to_nat (bsize f)) 0) 0 0 = Done d1 /\ put_le 2 d1 4 (bsize f) = Done d2 /\ set_name d2 0 name = Done d3 /\
  set_entry d3 0 ino ty = Done (ents [new_dent]).
Proof using Hok Hn Hty.
  pose proof (bsize_range f (do_fs _ _ _ Hok)) as Hb. destruct Hn as [_ Hl].
  assert (E : replicate (Z.to_nat (bsize f)) 0 = [] ++ hdr [0; 0; 0; 0] [0; 0] 0 0 (replicate (Z.to_nat (bsize f - DENT)) 0) ++ []).
  { rewrite app_nil_r. cbn [app]. unfold hdr, DENT. replace (Z.to_nat (bsize f)) with (8 + Z.to_nat (bsize f - 8))%nat by lia. by rewrite replicate_add. }
  destruct (fill_hdr [] [] (le_bytes 4 0) (le_bytes 2 (bsize f)) 0 0 (replicate (Z.to_nat (bsize f - DENT)) 0) name ino ty) as (d3 & E3 & E4);
    [by rewrite length_le_bytes.. | rewrite length_replicate; unfold DENT; lia | lia | done|].
  rewrite E. eexists _, _, d3. split; [by apply put_ino|]. change 4 with (Z.of_nat (length (@nil Z)) + 4) at 1. split; [apply put_rec_len; by rewrite ?length_le_bytes|].
  split; [exact E3|]. change 0 with (Z.of_nat (length (@nil Z))) at 1. rewrite E4. f_equal. rewrite ents_cons. change (ents []) with (@nil Z). cbn [app]. f_equal.
  rewrite enc_hdr, new_dent_len. cbn [new_dent d_ino d_type d_name d_pad]. f_equal. f_equal. rewrite drop_replicate. f_equal. unfold DENT. lia.
Qed.

(** A new block for the directory. *)
Lemma dir_grow now : size (vfs x) + 8192 <= 2 ^ 31 ->
  exists x1 ret f' x', ext2_inode_truncate now f x (i32 (size (vfs x) + bsize f)) = Done (f, x1) /\
    ext2_bmap_alloc f x1 (Z.quot (size (vfs x1) - 1) (bsize f)) = Done (ret, f', x') /\ confined f x f' x' /\ bsize f' = bsize f /\
    ((ret = SECTOR_INVALID /\ crowded f') \/
     (ret <> SECTOR_INVALID /\ ret <> 0 /\ Ext2Map.mapped f' x' (Z.of_nat (length ess)) = ret /\
      disk f' !! ret = Some (replicate (Z.to_nat (bsize f)) 0) /\ fs_ok f' /\ file_ok f' x' /\ tight f' x' /\
      size (vfs x') = size (vfs x) + bsize f /\ forall k es, ess !! k = Some es -> holds f' x' k es)).
Proof using Hok.
  intros Hbig. pose proof Hok as [Hfs Hx HT Hsz Hsm Hb Hde]. pose proof (bsize_range f Hfs) as Hbs.
  rewrite i32_small by lia. set (n := size (vfs x) + bsize f) in *.
  set (x1 := set_vfs (fun v => set_dirty (set_mtime now (set_size n v))) x).
  assert (Hx1 : file_ok f x1) by (by apply (file_ptrs_ok f x)).
  assert (Hm1 : forall t, Ext2Map.mapped f x1 t = Ext2Map.mapped f x t) by done.
  set (s := Z.of_nat (length ess)).
  assert (Eq : Z.quot (size (vfs x1) - 1) (bsize f) = s).
  { cbn [x1 vfs set_vfs size set_dirty set_mtime set_size]. unfold n. rewrite Z.quot_div_nonneg by lia. symmetry. apply (Z.div_unique_pos _ _ _ (bsize f - 1)); lia. }
  assert (Hs : s * bsize f < size (vfs x1)) by (cbn; unfold n; lia).
  assert (Hkn : sector_known f x1 s) by (apply (known_below f x1 s 0 Hfs); cbn; unfold n in *; lia).
  destruct (ext2_bmap_alloc_spec f x1 s Hfs Hx1 Hkn) as (ret & f' & x' & E & Ha).
  pose proof Ha as [A1 A2 A3 A4 A5 A6 A7 A8 A9]. assert (Ebs : bsize f' = bsize f) by (by injection A2).
  assert (Es0 : Ext2Map.mapped f x1 s = 0) by (rewrite Hm1; apply HT; lia).
  exists x1, ret, f', x'. split; [apply ext2_inode_truncate_grow; unfold n; (done || lia)|]. rewrite Eq. split; [done|].
  destruct (alloc_stored f x1 s ret f' x' 0 Hfs Hx1 ltac:(lia) Hs Ha) as [_ _ _ _ _ _ S7 S8 S9].
  assert (Et : tight f' x').
  { intros t Ht Hts. rewrite (meta_size _ _ A4), Ebs in Hts. cbn in Hts. rewrite A5; [rewrite Hm1; apply HT; lia | done |]. intros ->. lia. }
  split; [split; try done; unfold access_of; by injection A4 as _ _ -> _ -> -> |]. split; [done|]. case_decide as Er.
  { left. split; [done|]. destruct A9 as (_ & _ & [Hp|Hc]); [|done]. exfalso. revert Hp. apply path_small; unfold s; (done || lia). }
  right. destruct A9 as (Em & Hnew & _). destruct (Hnew Es0) as (Hf & Hz & _). split_and!; try done.
  - destruct (ok_free _ (ok_alloc _ Hfs) _ Hf) as (_ & H0 & _). lia.
  - rewrite (meta_size _ _ A4). done.
  - intros k es Hk. pose proof (lookup_lt_Some _ _ _ Hk). destruct (Hb k es Hk) as [Hm Hd]. unfold holds. rewrite A5, Hm1 by lia. split; [done|].
    rewrite <- Hd. destruct (leaf_not_inner f x1 (Z.of_nat k) Hfs Hx1 ltac:(lia) Hm) as (Hin & Hdb & Hu & _).
    apply A6; [apply Hdb | intros [_ Hf']; rewrite Hm1 in Hu; congruence | done].
Qed.

(** The directory with one more name. *)
Definition more (ess' : list (list dent)) : Prop :=
  Forall unstale (concat ess) -> Forall unstale (concat ess') /\ named (concat ess') ≡ₚ (name, ino) :: named (concat ess).

Lemma more_insert k es es' : ess !! k = Some es -> added es name ino es' -> more (<[k := es']> ess).
Proof.
  intros Hk [_ _ Hl Hn']. intros Hall. pose proof (lookup_lt_Some _ _ _ Hk). rewrite insert_take_drop by done.
  rewrite (concat_at ess k es Hk) in Hall |- *. rewrite concat_app. cbn [concat]. rewrite !Forall_app in Hall |- *. destruct Hall as (Ha & He & Hb).
  split; [auto|]. rewrite !named_app, Hn' by done. symmetry. apply Permutation_middle.
Qed.

Lemma dir_add_spec now mode : ext2_dir_type mode = Done ty -> size (vfs x) + 8192 <= 2 ^ 31 ->
  exists r f' x', ext2_dir_add now f x name ino mode = Done (r, f', x') /\ confined f x f' x' /\
    ((r = 0 /\ exists ess', dir_ok f' x' ess' /\ more ess') \/ (r = - ENOSPC /\ crowded f')).
Proof using Hok Hn Hi Hty.
  intros Hmode Hbig. pose proof Hok as [Hfs Hx HT Hsz Hsm Hb Hde]. pose proof (bsize_range f Hfs) as Hbs.
  unfold ext2_dir_add, ext2_add_entry. rewrite (dir_fuel_eq f x ess Hok).
  pose proof (add_blocks_spec (S (length ess)) 0 ltac:(lia)) as Ea. rewrite drop_0 in Ea. change (Z.of_nat 0 * bsize f) with 0 in Ea.
  destruct (place_from name ino ty 0 ess) as [[[i o] es']|] eqn:Ep.
  - destruct Ea as (data & -> & Es). obind. rewrite Hmode. obind. rewrite Es. obind. eexists _, _, _. split; [done|].
    destruct (place_from_Some _ _ _ _ _ _ _ _ Ep) as (j & es & -> & Hj & Hp). cbn [Nat.add].
    destruct (dir_block f x ess j es Hok Hj) as (_ & _ & _ & Hl & Hes & _).
    pose proof (place_added name ino ty Hn Hi Hty es o es' Hes Hp) as Had. pose proof (ad_ok _ _ _ _ Had Hes) as Hes'. pose proof (ad_len _ _ _ _ Had).
    destruct (Hb j es Hj) as [Hm _]. split; [apply confined_write; try done; [lia | lia | by apply bytes_ents]|].
    left. split; [done|]. exists (<[j := es']> ess). split; [by apply (dir_update f x ess j es) | by apply (more_insert j es)].
  - rewrite Ea. obind. destruct (dir_grow now Hbig) as (x1 & ret & f' & x' & -> & E2 & Hc & Ebs & Hr). obind. rewrite E2. obind.
    destruct Hr as [[-> Hcr]|(Hne & H0 & Em & Hz & Hfs' & Hx' & HT' & Hsz' & Hold)].
    { eexists _, _, _. split; [done|]. split; [done|]. by right. }
    destruct (Z.eqb_spec ret SECTOR_INVALID); [done|]. unfold block_data. rewrite Hz. obind.
    destruct fill_zeros as (d1 & d2 & d3 & -> & E5 & E6 & E7). obind. rewrite E5. obind. rewrite E6. obind. rewrite Hmode. obind. rewrite E7. obind.
    eexists _, _, _. split; [done|]. pose proof new_dent_len as Hnl. pose proof new_dent_ok as Hno. pose proof (length_enc new_dent) as Hle.
    assert (Hln : Z.of_nat (length (ents [new_dent])) = bsize f') by (rewrite ents_cons, app_nil_r; lia).
    split.
    { eapply confined_trans; [exact Hc|]. rewrite <- Em. apply confined_write; try done; [lia | by rewrite Em | apply bytes_ents; by constructor]. }
    left. split; [done|]. exists (ess ++ [[new_dent]]). split.
    + rewrite <- Em. apply dir_set; try done.
      * rewrite length_app, Ebs. cbn [length]. lia.
      * lia.
      * intros j e Hj Hjk. apply lookup_app_Some in Hj as [Hj|[Hj Hj2]]; [by apply Hold|]. apply list_lookup_singleton_Some in Hj2 as [? _]. lia.
      * apply Forall_app. split; [done|]. constructor; [by constructor | done].
      * by rewrite lookup_app_r, Nat.sub_diag.
      * by rewrite Em.
    + intros Hall. rewrite concat_app. cbn [concat app]. split.
      * apply Forall_app. split; [done|]. constructor; [by apply fresh_live | done].
      * rewrite named_app. unfold new_dent. rewrite fresh_named by done. symmetry. apply Permutation_cons_append.
Qed.
End Add.

(** * Empty directories *)

Lemma empty_blocks_spec f x ess n : dir_ok f x ess -> forall k, (k + n = length ess)%nat ->
  empty_blocks f x (Z.of_nat k) n = Done (if forallb (forallb harmless) (drop k ess) then 0 else - ENOTEMPTY).
Proof.
  intros Hok. induction n as [|n IH]; intros k Hk; cbn [empty_blocks].
  { by rewrite drop_ge by lia. }
  destruct (lookup_lt_is_Some_2 ess k ltac:(lia)) as [es He]. destruct (dir_block f x ess k es Hok He) as (E1 & E2 & E3 & _ & Hde & _).
  pose proof (bsize_range f (do_fs _ _ _ Hok)). rewrite Z.quot_mul in E1 by lia. rewrite E1. obind.
  destruct (Z.eqb_spec (Ext2Map.mapped f x (Z.of_nat k)) SECTOR_INVALID); [done|]. rewrite E3. obind.
  pose proof (empty_from_spec es Hde [] (length (ents es)) (length_ents es)) as E. cbn [app length] in E. change (Z.of_nat 0) with 0 in E. rewrite E. obind.
  rewrite (drop_S _ _ _ He). cbn [forallb]. destruct (forallb harmless es); cbn [andb]; [|done].
  replace (Z.of_nat k + 1) with (Z.of_nat (S k)) by lia. apply IH. lia.
Qed.

Lemma dir_empty_spec f x ess : dir_ok f x ess -> size (vfs x) + 4096 <= 2 ^ 31 ->
  ext2_dir_empty f x = Done (if forallb (forallb harmless) ess then 0 else - ENOTEMPTY).
Proof.
  intros Hok Hs. pose proof Hok as [Hfs Hx HT Hsz Hsm Hb Hde]. pose proof (bsize_range f Hfs) as Hbs. unfold ext2_dir_empty.
  assert (E : Z.quot (i32 (ALIGN_2 (size (vfs x)) (bsize f))) (bsize f) = Z.of_nat (length ess)).
  { destruct (bsize_pow f Hfs) as (k & Hk & Ek). unfold ALIGN_2. rewrite Hsz, Ek in *. rewrite u32_small by lia. rewrite align_land by lia.
    assert ((Z.of_nat (length ess) * 2 ^ k + 2 ^ k - 1) / 2 ^ k = Z.of_nat (length ess)) as -> by (symmetry; apply (Z.div_unique_pos _ _ _ (2 ^ k - 1)); lia).
    rewrite i32_small by lia. apply Z.quot_mul. lia. }
  rewrite E, Nat2Z.id. pose proof (empty_blocks_spec f x ess (length ess) Hok 0 eq_refl) as E2. by rewrite drop_0 in E2.
Qed.
