(* ===== verification/DirMap.v ===== *)
(** A directory of ext2 refines a finite map from names to inodes: looking up,
    linking, unlinking and renaming names through src/fs/vfs.c and
    src/fs/ext2/dir.c do on the blocks of the directory what they do on the map.
    Two ways in which the code leaves this map are shown too. *)
From stdpp Require Import base numbers list gmap.
From Stdlib Require Import ZArith ZifyBool Lia.
From S2P Require Import Prelude Users Bits Endian Ext2 Ext2Alloc Ext2Map Ext2Bmap Ext2Trunc Vfs Ext2File Ext2Demo Dirent Ext2Dir.
Open Scope Z_scope.

(** * Finding an entry *)

Lemma find_from_Some name ess : forall k i o, find_from name k ess = Some (i, o) ->
  exists j es, i = (k + j)%nat /\ ess !! j = Some es /\ find_pos name es = Some o.
Proof.
  induction ess as [|es ess IH]; intros k i o; cbn [find_from]; [done|]. destruct (find_pos name es) as [o1|] eqn:E.
  - intros [= <- <-]. exists 0%nat, es. split_and!; [lia | done | done].
  - intros (j & e & -> & Hj & Hp)%IH. exists (S j), e. split_and!; [lia | done | done].
Qed.

Lemma find_from_None name ess : forall k, find_from name k ess = None -> name ∉ (named (concat ess)).*1.
Proof.
  induction ess as [|es ess IH]; intros k; cbn [find_from concat]; [intros _; apply not_elem_of_nil|]. destruct (find_pos name es) as [o1|] eqn:E; [done|].
  intros H. rewrite named_app, fmap_app, not_elem_of_app. split; [by apply find_pos_None | by apply (IH (S k))].
Qed.

(** * The map *)

Definition contents (ess : list (list dent)) : gmap (list Z) Z := list_to_map (named (concat ess)).

(** The names of the directory are distinct, and a free record has none. *)
Record sound (ess : list (list dent)) : Prop := {
  so_unstale : Forall unstale (concat ess);
  so_once : NoDup (named (concat ess)).*1;
}.

Definition represents (f : fs) (x : ext2_inode) (m : gmap (list Z) Z) : Prop :=
  exists ess, dir_ok f x ess /\ sound ess /\ m = contents ess.

(** Where the entry of a name is. *)
Record found (ess : list (list dent)) (name : list Z) (i : nat) (a : list dent) (d : dent) (b : list dent) : Prop := {
  fd_block : ess !! i = Some (a ++ d :: b);
  fd_name : d_name d = name;
}.

Section Lookup.
Context (f : fs) (x : ext2_inode) (ess : list (list dent)) (Hok : dir_ok f x ess) (name : list Z) (Hn : name_ok name).

Lemma lookup_entry_cases :
  (ext2_lookup_entry f x name = Done None /\ name ∉ (named (concat ess)).*1) \/
  exists i a d b, found ess name i a d b /\ ext2_lookup_entry f x name = Done (Some (Ext2Map.mapped f x (Z.of_nat i), Z.of_nat (length (ents a)))).
Proof using Hok Hn.
  rewrite (lookup_entry_spec f x ess Hok name Hn). destruct (find_from name 0 ess) as [[i o]|] eqn:E; cbn [fmap option_fmap option_map].
  - right. destruct (find_from_Some _ _ _ _ _ E) as (j & es & -> & Hj & Hp). destruct (find_pos_Some _ _ _ Hp) as (a & d & b & -> & Hd & ->).
    by exists j, a, d, b.
  - left. split; [done|]. by apply (find_from_None name ess 0).
Qed.

Lemma named_found i a d b : found ess name i a d b ->
  named (concat ess) = named (concat (take i ess) ++ a) ++ (name, d_ino d) :: named (b ++ concat (drop (S i) ess)).
Proof using Hn.
  intros [Hb Hd]. assert (Hne : d_name d <> []) by (rewrite Hd; destruct Hn as [_ Hl]; intros E; rewrite E in Hl; cbn in Hl; lia).
  by rewrite (concat_at ess i _ Hb), !named_app, (named_cons d b), named_one, Hd, <- !app_assoc.
Qed.

Lemma contents_found i a d b : NoDup (named (concat ess)).*1 -> found ess name i a d b -> contents ess !! name = Some (d_ino d).
Proof using Hn.
  intros Ho Hf. apply elem_of_list_to_map_1; [done|]. rewrite (named_found i a d b Hf). apply elem_of_app. right. apply list_elem_of_here.
Qed.

Lemma lookup_contents : NoDup (named (concat ess)).*1 ->
  ext2_dir_lookup_ino f x name = Done (match contents ess !! name with Some i => (0, i) | None => (- ENOENT, 0) end).
Proof using Hok Hn.
  intros Hs. unfold ext2_dir_lookup_ino. destruct lookup_entry_cases as [[-> Hno]|(i & a & d & b & Hf & ->)]; obind.
  - unfold contents. by rewrite not_elem_of_list_to_map_1.
  - rewrite (contents_found i a d b Hs Hf). destruct Hf as [Hb _]. destruct (dir_block f x ess i _ Hok Hb) as (_ & _ & -> & _ & Hde & _). obind.
    apply Forall_app in Hde as [_ [Hd _]%Forall_cons]. rewrite ents_app, ents_cons, ent_ino_at by done. done.
Qed.

Lemma exists_contents : NoDup (named (concat ess)).*1 -> ext2_dir_entry_exists f x name = Done (bool_decide (is_Some (contents ess !! name))).
Proof using Hok Hn.
  intros Hs. unfold ext2_dir_entry_exists. destruct lookup_entry_cases as [[-> Hno]|(i & a & d & b & Hf & ->)]; obind.
  - unfold contents. by rewrite not_elem_of_list_to_map_1.
  - rewrite (contents_found i a d b Hs Hf). by rewrite bool_decide_true by eauto.
Qed.
End Lookup.

(** * One name more or less *)

Lemma contents_cons ess ess' name ino : NoDup (named (concat ess)).*1 -> named (concat ess) ≡ₚ (name, ino) :: named (concat ess') ->
  NoDup (named (concat ess')).*1 /\ contents ess' !! name = None /\ contents ess = <[name := ino]> (contents ess').
Proof.
  intros Hn Hp. pose proof Hn as Hn2. rewrite (fmap_Permutation fst _ _ Hp) in Hn2. cbn in Hn2. apply NoDup_cons in Hn2 as [Hnew Hn2]. split_and!; [done | |].
  - by apply not_elem_of_list_to_map_1.
  - unfold contents. by rewrite (list_to_map_proper _ _ Hn Hp).
Qed.

Lemma contents_more ess ess' name ino : sound ess -> contents ess !! name = None -> more ess name ino ess' ->
  sound ess' /\ contents ess' = <[name := ino]> (contents ess).
Proof.
  intros [Hu Ho] Hno Hm. destruct (Hm Hu) as [Hu' Hp]. apply not_elem_of_list_to_map in Hno.
  assert (Hn' : NoDup (named (concat ess')).*1) by (rewrite (fmap_Permutation fst _ _ Hp); cbn; by constructor).
  split; [by split|]. apply (contents_cons _ _ _ _ Hn' Hp).
Qed.

Section Remove.
Context (f : fs) (x : ext2_inode) (ess : list (list dent)) (Hok : dir_ok f x ess) (Hs : sound ess) (name : list Z) (Hn : name_ok name).

Lemma dir_remove_absent : contents ess !! name = None -> ext2_dir_remove f x name = Done (- ENOENT, f).
Proof using Hok Hs Hn.
  intros Hno. unfold ext2_dir_remove. destruct (lookup_entry_cases f x ess Hok name Hn) as [[-> _]|(i & a & d & b & Hf & _)]; [done|].
  by rewrite (contents_found ess name Hn i a d b (so_once _ Hs) Hf) in Hno.
Qed.

(** The block of a found entry, and its size. *)
Lemma found_block i a d b : found ess name i a d b ->
  block_data f (Ext2Map.mapped f x (Z.of_nat i)) = Done (ents (a ++ d :: b)) /\ Forall dent_ok (a ++ d :: b) /\
  Z.of_nat (length (ents (a ++ d :: b))) = bsize f /\ bsize f <= 4096 /\ Ext2Map.mapped f x (Z.of_nat i) <> 0.
Proof using Hok.
  intros [Hb _]. destruct (dir_block f x ess i _ Hok Hb) as (_ & _ & E & Hl & Hde & _). pose proof (bsize_range f (do_fs _ _ _ Hok)).
  destruct (do_blocks _ _ _ Hok i _ Hb). split_and!; (done || lia).
Qed.

Lemma dir_remove_found i a p d b : found ess name i (a ++ [p]) d b ->
  ext2_lookup_entry f x name = Done (Some (Ext2Map.mapped f x (Z.of_nat i), Z.of_nat (length (ents (a ++ [p]))))) ->
  exists f' ess', ext2_dir_remove f x name = Done (0, f') /\ confined f x f' x /\ dir_ok f' x ess' /\ sound ess' /\
    contents ess' = delete name (contents ess).
Proof using Hok Hs Hn.
  intros Hf E. unfold ext2_dir_remove. rewrite E. obind. destruct (found_block i _ d b Hf) as (-> & Hde & Hl & Hbs & Hm). obind.
  assert (Hlen : reclen p + reclen d < 65536).
  { rewrite !ents_app, !ents_cons, !length_app in Hl. pose proof (length_enc p). pose proof (length_enc d). lia. }
  rewrite remove_entry_spec, last_snoc, removelast_last; [|done | intros q [= <-]%(eq_trans (eq_sym (last_snoc _ _))); done]. obind.
  rewrite <- app_assoc in Hde, Hl. cbn [app] in Hde, Hl.
  pose proof Hf as [Hb Hd]. rewrite <- app_assoc in Hb. cbn [app] in Hb.
  destruct (removed_facts a p d b Hde Hlen) as (R1 & R2 & R3 & R4); [rewrite Hd; destruct Hn as [_ Hnl]; intros E0; rewrite E0 in Hnl; cbn in Hnl; lia|].
  set (es' := a ++ absorb p d :: b) in *. eexists _, (<[i := es']> ess). split; [done|].
  split; [apply confined_write; [apply Hok | apply Hok | lia | done | lia | by apply bytes_ents]|].
  split; [by apply (dir_update f x ess i (a ++ p :: d :: b))|].
  destruct Hs as [Hu Ho]. assert (Hp : named (concat ess) ≡ₚ (name, d_ino d) :: named (concat (<[i := es']> ess))).
  { rewrite (concat_at ess i _ Hb), insert_take_drop by (by eapply lookup_lt_Some). rewrite concat_app. cbn [concat].
    rewrite !(named_app (concat _)), (named_app (a ++ p :: d :: b)), (named_app es'), R4, Hd.
    symmetry. apply Permutation_middle. }
  destruct (contents_cons _ _ _ _ Ho Hp) as (C1 & C2 & C3). split.
  - split; [|done]. rewrite (concat_at ess i _ Hb) in Hu. rewrite insert_take_drop by (by eapply lookup_lt_Some). rewrite concat_app. cbn [concat].
    rewrite !Forall_app in Hu |- *. destruct Hu as (U1 & U2 & U3). split_and!; auto.
  - by rewrite C3, delete_insert_id.
Qed.
End Remove.

(** * Calls *)

Inductive call : Type :=
| Lookup (name : list Z)
| Link (old : inode) (name : list Z)
| Unlink (link : inode) (name : list Z)
| Rename (entry : inode) (name new_name : list Z).

(** A call: what it returns, the inode a lookup finds, and the file system. *)
Definition exec (now : Z) (c : credentials) (f : fs) (x : ext2_inode) (k : call) : outcome (Z * Z * fs * ext2_inode) :=
  match k with
  | Lookup name => '(r, i) ← ext2_dir_lookup_ino f x name; Done (r, i, f, x)
  | Link old name => '(r, f, x, _) ← vfs_link now c f x old name; Done (r, 0, f, x)
  | Unlink link name => '(r, f, x, _) ← vfs_unlink now c f x link name; Done (r, 0, f, x)
  | Rename entry name new_name => '(r, f, x) ← ext2_dir_rename_within_dir now f x entry name new_name; Done (r, 0, f, x)
  end.

(** The same call on the map. *)
Definition acts (m : gmap (list Z) Z) (k : call) : Z * Z * gmap (list Z) Z :=
  match k with
  | Lookup name => match m !! name with Some i => (0, i, m) | None => (- ENOENT, 0, m) end
  | Link old name =>
      if S_ISDIR (mode old) then (- EPERM, 0, m)
      else if EXT2_LINK_MAX <=? nlinks old then (- EMLINK, 0, m)
      else match m !! name with Some _ => (- EEXIST, 0, m) | None => (0, 0, <[name := ino old]> m) end
  | Unlink _ name => match m !! name with Some _ => (0, 0, delete name m) | None => (- ENOENT, 0, m) end
  | Rename entry name new_name =>
      match m !! name with Some _ => (0, 0, <[new_name := ino entry]> (delete name m)) | None => (- ENOENT, 0, m) end
  end.

(** The name is that of the first entry of a block. *)
Definition first_entry (f : fs) (x : ext2_inode) (name : list Z) : bool :=
  match ext2_lookup_entry f x name with Done (Some (_, 0)) => true | _ => false end.

(** An inode that can get an entry. *)
Definition linkable (v : inode) : Prop := 0 < ino v < 2 ^ 32 /\ Z.land (Z.shiftr (mode v) 12) 15 <= 10.

(** The calls the map speaks about: names of 1 to 255 characters without a zero,
    no removal of the first entry of a block, and no renaming to a name that is
    there. *)
Definition allowed (f : fs) (x : ext2_inode) (k : call) : Prop :=
  match k with
  | Lookup name => name_ok name
  | Link old name => name_ok name /\ linkable old /\ size (vfs x) + 8192 <= 2 ^ 31
  | Unlink _ name => name_ok name /\ first_entry f x name = false
  | Rename entry name new_name =>
      name_ok name /\ name_ok new_name /\ linkable entry /\ size (vfs x) + 8192 <= 2 ^ 31 /\ first_entry f x name = false /\
      (new_name = name \/ ext2_dir_entry_exists f x new_name = Done false)
  end.

Fixpoint allowed_all (now : Z) (c : credentials) (f : fs) (x : ext2_inode) (ks : list call) : Prop :=
  match ks with
  | [] => True
  | k :: ks => allowed f x k /\
      forall r i f' x', exec now c f x k = Done (r, i, f', x') -> r <> - ENOSPC -> allowed_all now c f' x' ks
  end.

(** The calls run, and each does on the directory what it does on the map, up to
    one that finds the device full.  None changes a block of another file. *)
Inductive follows (now : Z) (c : credentials) : fs -> ext2_inode -> gmap (list Z) Z -> list call -> Prop :=
| follows_nil f x m : represents f x m -> follows now c f x m []
| follows_cons f x m k ks r i f' x' m' :
    represents f x m -> exec now c f x k = Done (r, i, f', x') -> confined f x f' x' -> acts m k = (r, i, m') ->
    follows now c f' x' m' ks -> follows now c f x m (k :: ks)
| follows_full f x m k ks f' x' :
    represents f x m -> exec now c f x k = Done (- ENOSPC, 0, f', x') -> confined f x f' x' -> crowded f' ->
    follows now c f x m (k :: ks).

Lemma dir_type_total v : linkable v -> exists t, ext2_dir_type (mode v) = Done t /\ 0 <= t < 256.
Proof.
  intros [_ Hm]. unfold ext2_dir_type. set (k := Z.land _ 15) in *. assert (0 <= k) by (apply Z.land_nonneg; lia).
  assert (Hk : k = 0 \/ k = 1 \/ k = 2 \/ k = 3 \/ k = 4 \/ k = 5 \/ k = 6 \/ k = 7 \/ k = 8 \/ k = 9 \/ k = 10) by lia.
  decompose [or] Hk; subst; match goal with H : k = _ |- _ => rewrite H end; eexists; (split; [reflexivity | lia]).
Qed.

Lemma dir_touch h f x ess : size (h (vfs x)) = size (vfs x) -> dir_ok f x ess -> dir_ok f (set_vfs h x) ess.
Proof.
  intros E [H1 H2 H3 H4 H5 H6 H7]. split; try done; [by apply (file_ptrs_ok f x) | | cbn; congruence | cbn; congruence].
  intros t Ht Hts. cbn in Hts. rewrite E in Hts. by apply (H3 t Ht).
Qed.

Lemma confined_touch now f x f' x' : confined f x f' x' -> confined f x f' (set_vfs (touch now) x').
Proof. intros [H1 H2 H3 H4 H5]. by split. Qed.

Section Sim.
Context (now : Z) (c : credentials) (f : fs) (x : ext2_inode) (ess : list (list dent)) (Hok : dir_ok f x ess) (Hs : sound ess).
Context (Hdir : S_ISDIR (mode (vfs x)) = true) (Hacc : check_permission c (access_of (vfs x)) (Z.lor W_OK X_OK) = 0).

(** The outcome of a call follows what it does on the map, or the device is full. *)
Definition simulates (o : outcome (Z * Z * fs * ext2_inode)) (s : Z * Z * gmap (list Z) Z) : Prop :=
  exists r i f' x', o = Done (r, i, f', x') /\ confined f x f' x' /\
    ((exists m', s = (r, i, m') /\ r <> - ENOSPC /\ represents f' x' m') \/ (r = - ENOSPC /\ i = 0 /\ crowded f')).

(** A call that changes nothing. *)
Lemma simulates_same r i : r <> - ENOSPC -> simulates (Done (r, i, f, x)) (r, i, contents ess).
Proof using Hok Hs.
  intros Hr. exists r, i, f, x. split_and!; [done | apply confined_refl|]. left. exists (contents ess). split_and!; try done. by exists ess.
Qed.

Lemma sim_lookup name : name_ok name -> simulates (exec now c f x (Lookup name)) (acts (contents ess) (Lookup name)).
Proof using Hok Hs.
  intros Hn. cbn [exec acts]. rewrite (lookup_contents f x ess Hok name Hn (so_once _ Hs)). by destruct (contents ess !! name); obind; apply simulates_same.
Qed.

(** Adding a name that is absent. *)
Lemma map_sim_add name v : name_ok name -> linkable v -> size (vfs x) + 8192 <= 2 ^ 31 -> contents ess !! name = None ->
  exists r f' x', ext2_dir_add now f x name (ino v) (mode v) = Done (r, f', x') /\ confined f x f' x' /\
    ((r = 0 /\ exists ess', dir_ok f' x' ess' /\ sound ess' /\ contents ess' = <[name := ino v]> (contents ess)) \/ (r = - ENOSPC /\ crowded f')).
Proof using Hok Hs.
  intros Hn Hv Hbig Hno. destruct (dir_type_total v Hv) as (ty & Ety & Hty). destruct Hv as [Hi _].
  destruct (dir_add_spec f x ess Hok name Hn (ino v) ty Hi Hty now (mode v) Ety Hbig) as (r & f' & x' & E & Hc & Hr).
  exists r, f', x'. split_and!; [done | done|]. destruct Hr as [(-> & ess' & Hok' & Hm)|Hr]; [left | by right]. split; [done|]. exists ess'. split; [done|].
  by apply contents_more.
Qed.

Lemma sim_link old name : name_ok name -> linkable old -> size (vfs x) + 8192 <= 2 ^ 31 ->
  simulates (exec now c f x (Link old name)) (acts (contents ess) (Link old name)).
Proof using Hok Hs Hdir Hacc.
  intros Hn Hlk Hbig. cbn [exec acts]. unfold vfs_link, ext2_dir_link. rewrite Hdir, Hacc. cbn [negb Z.eqb].
  destruct (S_ISDIR (mode old)); obind; [by apply simulates_same|].
  destruct (EXT2_LINK_MAX <=? nlinks old); obind; [by apply simulates_same|].
  rewrite (exists_contents f x ess Hok name Hn (so_once _ Hs)). obind. destruct (contents ess !! name) as [i|] eqn:Em.
  { rewrite bool_decide_true by eauto. cbn [negb]. obind. by apply simulates_same. }
  rewrite bool_decide_false by (by intros [? ?]). cbn [negb].
  destruct (map_sim_add name old Hn Hlk Hbig Em) as (r & f' & x' & -> & Hc & [(-> & ess' & Hok' & Hs' & Ec)|(-> & Hcr)]); obind.
  - eexists _, _, _, _. split; [done|]. split; [by apply confined_touch|]. left. eexists. split; [done|]. split; [done|]. exists ess'. split_and!; [by apply dir_touch | done | done].
  - eexists _, _, _, _. split; [done|]. split; [done|]. by right.
Qed.

(** Removing a name that is not at the start of a block. *)
Lemma sim_remove name : name_ok name -> first_entry f x name = false ->
  match contents ess !! name with
  | None => ext2_dir_remove f x name = Done (- ENOENT, f)
  | Some _ => exists f' ess', ext2_dir_remove f x name = Done (0, f') /\ confined f x f' x /\ dir_ok f' x ess' /\ sound ess' /\
      contents ess' = delete name (contents ess)
  end.
Proof using Hok Hs.
  intros Hn Hfirst. destruct (contents ess !! name) as [i|] eqn:Em; [|by apply (dir_remove_absent f x ess)].
  destruct (lookup_entry_cases f x ess Hok name Hn) as [[E Hno]|(j & a & d & b & Hf & E)].
  { apply not_elem_of_list_to_map_1 in Hno. unfold contents in Em. congruence. }
  destruct a as [|p a _] using rev_ind.
  { unfold first_entry in Hfirst. by rewrite E in Hfirst. }
  by apply (dir_remove_found f x ess Hok Hs name Hn j a p d b).
Qed.

Lemma sim_unlink link name : name_ok name -> first_entry f x name = false ->
  simulates (exec now c f x (Unlink link name)) (acts (contents ess) (Unlink link name)).
Proof using Hok Hs Hdir Hacc.
  intros Hn Hfirst. cbn [exec acts]. unfold vfs_unlink, ext2_dir_unlink. rewrite Hdir, Hacc. cbn [negb Z.eqb]. pose proof (sim_remove name Hn Hfirst) as Hr.
  destruct (contents ess !! name); [|rewrite Hr; obind; by apply simulates_same].
  destruct Hr as (f' & ess' & -> & Hc & Hok' & Hs' & Ec). obind. eexists _, _, _, _. split; [done|]. split; [by apply confined_touch|].
  left. eexists. split; [done|]. split; [done|]. exists ess'. split_and!; [by apply dir_touch | done | done].
Qed.
End Sim.

Lemma sim_rename now c f x ess entry name new_name : dir_ok f x ess -> sound ess -> allowed f x (Rename entry name new_name) ->
  simulates f x (exec now c f x (Rename entry name new_name)) (acts (contents ess) (Rename entry name new_name)).
Proof.
  intros Hok Hs (Hn & Hn2 & Hv & Hbig & Hfirst & Hnew). cbn [exec acts]. unfold ext2_dir_rename_within_dir.
  pose proof (sim_remove f x ess Hok Hs name Hn Hfirst) as Hr. destruct (contents ess !! name); [|rewrite Hr; obind; by apply simulates_same].
  destruct Hr as (f1 & ess1 & -> & Hc & Hok1 & Hs1 & Ec). obind. assert (Hno : contents ess1 !! new_name = None).
  { rewrite Ec. destruct Hnew as [->|Hnew]; [apply lookup_delete_eq|]. rewrite (exists_contents f x ess Hok new_name Hn2 (so_once _ Hs)) in Hnew. apply done_inj, bool_decide_eq_false in Hnew.
    apply lookup_delete_None. right. by apply eq_None_not_Some. }
  destruct (map_sim_add now f1 x ess1 Hok1 Hs1 new_name entry Hn2 Hv Hbig Hno) as (r & f' & x' & -> & Hc' & [(-> & ess' & Hok' & Hs' & Ec')|(-> & Hcr)]); obind;
    (eexists _, _, _, _; split; [done|]; split; [by eapply confined_trans|]).
  - left. eexists. split; [done|]. split; [done|]. exists ess'. split_and!; [done | done|]. by rewrite Ec', Ec.
  - by right.
Qed.

Lemma map_sim_call now c f x ess k : dir_ok f x ess -> sound ess -> S_ISDIR (mode (vfs x)) = true ->
  check_permission c (access_of (vfs x)) (Z.lor W_OK X_OK) = 0 -> allowed f x k -> simulates f x (exec now c f x k) (acts (contents ess) k).
Proof.
  intros Hok Hs Hdir Hacc Ha. destruct k; [by apply sim_lookup | | | by apply sim_rename]; destruct Ha; [apply sim_link | apply sim_unlink]; tauto.
Qed.

(** C6: A directory of ext2 refines a finite map from names to inodes.  A sequence of
    lookups, links, unlinks and renames within it, by a user who may write and search
    it, runs without a fault or an endless loop, and each call returns and leaves
    behind what it returns and leaves behind on the map, up to a call that finds the
    device full, which it reports only with at most one free block; no call changes a
    block of another file.  The calls are those that [allowed] lists: names have 1 to
    255 bytes and no zero byte, the inode that gets a name is not a socket and has a
    32 bit number, the directory stays below 2^31 bytes, a name that is removed or
    renamed is not the first entry of its block (it would still be found,
    [removed_first_stays]), and a rename is not onto another name that exists (the
    code would leave two entries of that name, though its comment says that it
    fails). *)
Theorem directory_refines_map now c ks f x m :
  represents f x m -> S_ISDIR (mode (vfs x)) = true -> check_permission c (access_of (vfs x)) (Z.lor W_OK X_OK) = 0 ->
  allowed_all now c f x ks -> follows now c f x m ks.
Proof.
  revert f x m. induction ks as [|k ks IH]; intros f x m Hrep Hdir Hacc Hall; [by apply follows_nil|].
  destruct Hall as [Hk Hall]. pose proof Hrep as (ess & Hok & Hs & ->).
  destruct (map_sim_call now c f x ess k Hok Hs Hdir Hacc Hk) as (r & i & f' & x' & E & Hc & [(m' & Ea & Hr & Hrep')|(-> & -> & Hcr)]).
  - eapply follows_cons; try done. pose proof (cf_rights _ _ _ _ Hc) as Er. apply IH; [done | by injection Er as -> _ _ | by rewrite Er | by apply (Hall r i)].
  - by eapply follows_full.
Qed.

(** * A directory to run on *)

Definition demo_dot : dent := {| d_ino := 12; d_type := 2; d_name := [46]; d_pad := [0; 0; 0] |}.
Definition demo_dotdot : dent := {| d_ino := 2; d_type := 2; d_name := [46; 46]; d_pad := replicate 1002 0 |}.
Definition demo_es : list (list dent) := [[demo_dot; demo_dotdot]].
Definition demo_dir : ext2_inode := set_vfs (fun v =>
  {| ino := 12; dev_no := 0; size := 1024; mode := 0x41ED; nlinks := 2; blocks := 2; atime := 0; mtime := 0; ctime := 0;
     uid := 0; gid := 0; dirty := false |}) demo_small.
Definition demo_dir_fs : fs := block_write demo 7 (ents [demo_dot; demo_dotdot]).
Definition demo_map : gmap (list Z) Z := <[[46] := 12]> {[ [46; 46] := 2 ]}.
(** A file without a name. *)
Definition demo_file : inode := {| ino := 13; dev_no := 0; size := 0; mode := 0x81A4; nlinks := 0; blocks := 0; atime := 0; mtime := 0; ctime := 0;
  uid := 0; gid := 0; dirty := false |}.

Lemma demo_dents : Forall dent_ok [demo_dot; demo_dotdot].
Proof.
  constructor; [|constructor; [|done]]; split; cbn [demo_dot demo_dotdot d_ino d_type d_name d_pad]; try (unfold reclen, DENT; cbn; lia); try (cbn; lia).
  - repeat constructor; lia.
  - repeat constructor; lia.
  - repeat constructor; lia.
  - apply Forall_replicate. lia.
Qed.

Lemma demo_represents : represents demo_dir_fs demo_dir demo_map.
Proof.
  exists demo_es. split; [|split].
  - apply (dir_set demo demo_dir demo_es 0 [demo_dot; demo_dotdot]); try done.
    + apply demo_ok.
    + apply (file_ptrs_ok demo demo_small); [done | apply demo_small_ok].
    + intros t Ht Hts. cbn in Hts. apply (demo_small_mapped t). lia.
    + intros [|j] es Hj Hne; [done|]. by destruct j.
    + constructor; [apply demo_dents | done].
  - split; [|by apply (bool_decide_unpack _)]. repeat (constructor; [done|]). done.
  - done.
Qed.

Lemma demo_name_ok s : Forall (fun c => 0 < c < 256) s -> (1 <= length s <= 255)%nat -> name_ok s.
Proof. by split. Qed.

Lemma directory_refines_map_witness :
  follows 0 credentials_init demo_dir_fs demo_dir demo_map
    [Link demo_file [97]; Unlink demo_file [97]; Lookup [97]].
Proof.
  apply (directory_refines_map 0 credentials_init); [apply demo_represents | done | done |].
  assert (Ha : name_ok [97]) by (apply demo_name_ok; [repeat constructor; lia | cbn; lia]).
  split; [split_and!; [done | by split | cbn; lia]|]. intros r1 i1 f1 x1 E1 _. split; [split; [done|] | done].
  assert (Eb : match exec 0 credentials_init demo_dir_fs demo_dir (Link demo_file [97]) with
               | Done (_, _, f1, x1) => first_entry f1 x1 [97] | _ => true end = false) by (vm_compute; reflexivity).
  by rewrite E1 in Eb.
Defined.

(** * Removing directories *)

Definition dots (name : list Z) : Prop := name = [46] \/ name = [46; 46].

Lemma harmless_contents ess : sound ess -> forallb (forallb harmless) ess = true <-> forall name i, contents ess !! name = Some i -> dots name.
Proof.
  intros [Hu Ho]. assert (Hc : forallb (forallb harmless) ess = true <-> forall d, d ∈ concat ess -> harmless d = true).
  { rewrite forallb_forall. setoid_rewrite forallb_forall. setoid_rewrite list_elem_of_In. split.
    - intros H d (es & He & Hd)%in_concat. by apply (H es).
    - intros H es He d Hd. apply H. apply in_concat. eauto. }
  rewrite Hc. clear Hc. split.
  - intros H name i Hm. apply elem_of_list_to_map_2 in Hm. unfold named in Hm. apply list_elem_of_fmap in Hm as (d & [= -> ->] & [Hne Hd]%list_elem_of_filter).
    specialize (H d Hd). rewrite Forall_forall in Hu. specialize (Hu d Hd). unfold harmless in H. apply orb_prop in H as [[H|H]%orb_prop|H].
    + apply Z.eqb_eq in H. exfalso. by apply Hne, Hu.
    + left. by apply bool_decide_eq_true in H.
    + right. by apply bool_decide_eq_true in H.
  - intros H d Hd. rewrite Forall_forall in Hu. specialize (Hu d Hd). unfold harmless. destruct (Z.eqb_spec (d_ino d) 0) as [|Hne]; [done|]. cbn [orb].
    assert (Hin : (d_name d, d_ino d) ∈ named (concat ess)) by (apply list_elem_of_fmap; exists d; split; [done|]; apply list_elem_of_filter; split; [|done]; intros E; by apply Hne, Hu).
    destruct (H _ _ (elem_of_list_to_map_1 _ _ _ Ho Hin)) as [->| ->]; rewrite ?(bool_decide_true _ eq_refl); apply orb_true_iff; auto.
Qed.

(** The check before a directory is removed is exact: it succeeds when the directory
    has no name but [.] and [..], and reports [-ENOTEMPTY] otherwise. *)
Theorem dir_empty_correct f x m : represents f x m -> size (vfs x) + 4096 <= 2 ^ 31 ->
  exists r, ext2_dir_empty f x = Done r /\ (r = 0 <-> forall name i, m !! name = Some i -> dots name) /\ (r = 0 \/ r = - ENOTEMPTY).
Proof.
  intros (ess & Hok & Hs & ->) Hsz. rewrite (dir_empty_spec f x ess Hok Hsz). eexists. split; [done|]. rewrite <- (harmless_contents ess Hs).
  destruct (forallb (forallb harmless) ess); (split; [done | auto]).
Qed.

Lemma dir_empty_correct_witness :
  exists r, ext2_dir_empty demo_dir_fs demo_dir = Done r /\ (r = 0 <-> forall name i, demo_map !! name = Some i -> dots name) /\ (r = 0 \/ r = - ENOTEMPTY).
Proof. apply dir_empty_correct; [apply demo_represents | cbn; lia]. Defined.

(** * What removing the first entry of a block leaves behind *)

(** Unlinking the first entry of a block does not take its name away: the entry
    keeps its name with the inode number 0, looking the name up still succeeds, with
    inode 0, and so the name can never be linked again. *)
Theorem removed_first_stays f x m name i : represents f x m -> name_ok name -> m !! name = Some i -> first_entry f x name = true ->
  exists f', ext2_dir_remove f x name = Done (0, f') /\ ext2_dir_lookup_ino f' x name = Done (0, 0) /\ ext2_dir_entry_exists f' x name = Done true.
Proof.
  intros (ess & Hok & Hs & ->) Hn Hm Hfirst. destruct (lookup_entry_cases f x ess Hok name Hn) as [[E Hno]|(j & a & d & b & Hf & E)].
  { unfold first_entry in Hfirst. by rewrite E in Hfirst. }
  unfold first_entry in Hfirst. rewrite E in Hfirst. assert (a = []) as ->.
  { destruct a as [|p a]; [done|]. exfalso. rewrite ents_cons, length_app in Hfirst. pose proof (length_enc p). pose proof (reclen_pos p). unfold DENT in *. by destruct (length (enc p)); [lia|]. }
  pose proof Hf as [Hb Hd]. cbn [app] in Hb. destruct (found_block f x ess Hok name j [] d b Hf) as (Eb & Hde & Hl & Hbs & Hmp). cbn [app] in Eb, Hde, Hl.
  unfold ext2_dir_remove. rewrite E. obind. rewrite Eb. obind. pose proof (remove_entry_spec [] d b Hde) as Er. cbn [app last] in Er. rewrite Er by done. obind.
  eexists. split; [done|]. set (f' := block_write _ _ _).
  assert (Hde' : Forall dent_ok (freed d :: b)).
  { apply Forall_cons in Hde as [[] ?]. constructor; [|done]. split; try done; cbn; lia. }
  assert (Hok' : dir_ok f' x (<[j := freed d :: b]> ess)).
  { apply (dir_update f x ess j (d :: b)); [done | done | done|]. by rewrite !ents_cons, !length_app. }
  assert (Hf' : found (<[j := freed d :: b]> ess) name j [] (freed d) b) by (split; [apply list_lookup_insert_eq; by eapply lookup_lt_Some | done]).
  assert (Ho : NoDup (named (concat (<[j := freed d :: b]> ess))).*1).
  { destruct Hs as [_ Ho]. rewrite (named_found _ name Hn j [] d b Hf) in Ho. rewrite (named_found _ name Hn j [] (freed d) b Hf').
    rewrite take_insert_ge, drop_insert_lt by lia. by rewrite fmap_app, fmap_cons in Ho |- *. }
  rewrite (lookup_contents f' x _ Hok' name Hn Ho), (exists_contents f' x _ Hok' name Hn Ho), (contents_found _ name Hn j [] (freed d) b Ho Hf').
  by rewrite bool_decide_true by eauto.
Qed.

Lemma removed_first_stays_witness :
  exists f', ext2_dir_remove demo_dir_fs demo_dir [46] = Done (0, f') /\ ext2_dir_lookup_ino f' demo_dir [46] = Done (0, 0) /\
    ext2_dir_entry_exists f' demo_dir [46] = Done true.
Proof.
  apply (removed_first_stays demo_dir_fs demo_dir demo_map [46] 12); [apply demo_represents | | done | vm_compute; reflexivity].
  apply demo_name_ok; [repeat constructor; lia | cbn; lia].
Defined.
