(* ===== verification/DirList.v ===== *)
(** Reading a directory entry by entry: [read_dent] of src/fs/ext2/namei.c and
    dir.c, and [user_copy_dent] of src/fs/dir.c, which hands an entry to the
    process.  The calls list the names of the directory. *)
From stdpp Require Import base numbers list gmap.
From Stdlib Require Import ZArith ZifyBool Lia.
From S2P Require Import Prelude UserMem Users Bits Endian Ext2 Ext2Alloc Ext2Map Ext2Bmap Ext2Trunc Vfs Ext2File Ext2Demo Dirent Ext2Dir DirMap.
Open Scope Z_scope.

(** The members of [struct dent] that follow one another, in steps that stop at
    the first error. *)
Definition user_copy_dent (m : gmap Z Z) (dent : user_buffer) (ino dent_len name_len : Z) (name : list Z) : Z * gmap Z Z :=
  let '(ret, m) := user_copy_from_kernel m (user_buffer_index dent 0) ino in
  if negb (ret =? 0) then (ret, m) else
  let '(ret, m) := user_copy_from_kernel m (user_buffer_index dent 4) dent_len in
  if negb (ret =? 0) then (ret, m) else
  let '(ret, m) := user_copy_from_kernel m (user_buffer_index dent 8) name_len in
  if negb (ret =? 0) then (ret, m) else
  let '(ret, m) := user_memcpy_from_kernel m (user_buffer_index dent 12) name in
  if negb (ret =? 0) then (ret, m) else
  user_memset_from_kernel m (user_buffer_index (user_buffer_index dent 12) name_len) 0 1.

Definition SIZEOF_DENT : Z := 12.   (* [sizeof(struct dent)] *)

Definition set_offset (o : Z) (filp : file) : file := {| f_offset := o; f_flags := f_flags filp |}.

(** [__ext2_dir_read_dent]; free records are skipped by the jump to [again]. *)
Fixpoint read_dent_again (f : fs) (x : ext2_inode) (filp : file) (m : gmap Z Z) (dent : user_buffer) (sz : Z) (fuel : nat)
    : outcome (Z * file * gmap Z Z) :=
  match fuel with
  | O => Fault
  | S fuel' =>
      if f_offset filp =? size (vfs x) then Done (0, filp, m)
      else
        sec ← ext2_bmap f x (Z.quot (f_offset filp) (block_size (sb f)));
        let block_off := Z.rem (f_offset filp) (block_size (sb f)) in
        if sec =? SECTOR_INVALID then Done (- EINVAL, filp, m)
        else
          data ← block_data f sec;
          ino ← ent_ino data block_off;
          rl ← ent_rec_len data block_off;
          if ino =? 0 then read_dent_again f x (set_offset (f_offset filp + rl) filp) m dent sz fuel'
          else
            nl ← ent_name_len data block_off;
            if sz <? SIZEOF_DENT + nl + 1 then Done (- EINVAL, filp, m)
            else
              name ← arr_slice data (block_off + DENT) nl;
              let '(ret, m) := user_copy_dent m dent ino (SIZEOF_DENT + nl + 1) nl name in
              if ret =? 0 then Done (rl, set_offset (f_offset filp + rl) filp, m) else Done (ret, filp, m)
  end.

Definition read_dent_fuel (f : fs) (x : ext2_inode) : nat := S (Z.to_nat (size (vfs x))).

Definition ext2_dir_read_dent (now : Z) (f : fs) (x : ext2_inode) (filp : file) (m : gmap Z Z) (dent : user_buffer) (sz : Z)
    : outcome (Z * file * gmap Z Z * ext2_inode) :=
  '(ret, filp, m) ← read_dent_again f x filp m dent sz (read_dent_fuel f x);
  Done (ret, filp, m, set_vfs (fun v => set_dirty (set_atime now v)) x).

Definition vfs_read_dent (now : Z) (f : fs) (x : ext2_inode) (filp : file) (m : gmap Z Z) (dent : user_buffer) (sz : Z)
    : outcome (Z * file * gmap Z Z * ext2_inode) :=
  if negb (S_ISDIR (mode (vfs x))) then Done (- ENOTDIR, filp, m, x) else ext2_dir_read_dent now f x filp m dent sz.

(** * The entry the process sees *)

Definition dent_bytes (ino : Z) (name : list Z) : list Z :=
  word_bytes ino ++ word_bytes (SIZEOF_DENT + Z.of_nat (length name) + 1) ++ word_bytes (Z.of_nat (length name)) ++ name ++ [0].

Lemma length_dent_bytes ino name : Z.of_nat (length (dent_bytes ino name)) = SIZEOF_DENT + Z.of_nat (length name) + 1.
Proof. unfold dent_bytes. rewrite !length_app. cbn [length word_bytes]. unfold SIZEOF_DENT. lia. Qed.

(** The place behind the bytes [pre] that are written. *)
Lemma write_place m m1 dent pre k n : writable m dent n -> Z.of_nat (length pre) + k <= n -> 1 <= k -> written m m1 (ptr dent) pre ->
  writable m1 (user_buffer_index dent (Z.of_nat (length pre))) k.
Proof.
  intros [(H0 & H1 & H2) Hu Hm] Hn Hk W. apply (writable_written m m1 dent pre); [|done | done].
  split; [split; lia | intros E; specialize (Hu E); lia|]. intros a Ha. apply Hm. lia.
Qed.

Lemma write_next m m1 dent pre bs n :
  writable m dent n -> Z.of_nat (length pre) + Z.of_nat (length bs) <= n -> bs <> [] -> written m m1 (ptr dent) pre ->
  exists m2, user_memcpy_from_kernel m1 (user_buffer_index dent (Z.of_nat (length pre))) bs = (0, m2) /\ written m m2 (ptr dent) (pre ++ bs).
Proof.
  intros Hw Hn Hb W. assert (1 <= Z.of_nat (length bs)) by (destruct bs; [done | cbn; lia]).
  destruct (user_memcpy_from_kernel_ok m1 _ bs (write_place m m1 dent pre _ n Hw Hn ltac:(done) W)) as (m2 & E & W1 & W2).
  exists m2. split; [done|]. eapply written_app; [exact W|]. apply written_index; [by split|]. intros _. destruct Hw as [(H0 & H1 & H2) _ _]. lia.
Qed.

Lemma user_copy_dent_ok m dent ino name n : name <> [] -> writable m dent n -> SIZEOF_DENT + Z.of_nat (length name) + 1 <= n ->
  exists m', user_copy_dent m dent ino (SIZEOF_DENT + Z.of_nat (length name) + 1) (Z.of_nat (length name)) name = (0, m') /\
    written m m' (ptr dent) (dent_bytes ino name).
Proof.
  intros Hne Hw Hn. unfold user_copy_dent, user_copy_from_kernel, SIZEOF_DENT in *.
  destruct (write_next m m dent [] (word_bytes ino) n Hw ltac:(cbn; lia) ltac:(done) (written_nil _ _)) as (m1 & E1 & W1).
  change (Z.of_nat (length [])) with 0 in E1. rewrite E1. cbn [Z.eqb negb]. cbn [app] in W1.
  destruct (write_next m m1 dent (word_bytes ino) (word_bytes (12 + Z.of_nat (length name) + 1)) n Hw ltac:(cbn; lia) ltac:(done) W1) as (m2 & E2 & W2).
  change (Z.of_nat (length (word_bytes ino))) with 4 in E2. rewrite E2. cbn [Z.eqb negb].
  destruct (write_next m m2 dent (word_bytes ino ++ word_bytes (12 + Z.of_nat (length name) + 1)) (word_bytes (Z.of_nat (length name))) n Hw ltac:(cbn; lia) ltac:(done) W2) as (m3 & E3 & W3).
  rewrite length_app in E3. change (Z.of_nat _) with 8 in E3 at 1. rewrite E3. cbn [Z.eqb negb].
  destruct (write_next m m3 dent ((word_bytes ino ++ word_bytes (12 + Z.of_nat (length name) + 1)) ++ word_bytes (Z.of_nat (length name))) name n Hw ltac:(cbn; lia) Hne W3) as (m4 & E4 & W4).
  rewrite !length_app in E4. change (Z.of_nat _) with 12 in E4 at 1. rewrite E4. cbn [Z.eqb negb].
  assert (Ei : user_buffer_index (user_buffer_index dent 12) (Z.of_nat (length name)) = user_buffer_index dent (12 + Z.of_nat (length name))).
  { unfold user_buffer_index. cbn [ptr is_user]. f_equal. destruct Hw as [(H0 & H1 & H2) _ _]. rewrite !u32_small by (rewrite ?u32_small by lia; lia). lia. }
  rewrite Ei. set (pre := ((_ ++ _) ++ _) ++ name) in W4.
  assert (El : Z.of_nat (length pre) = 12 + Z.of_nat (length name)) by (unfold pre; rewrite !length_app; cbn [length word_bytes]; lia).
  pose proof (write_place m m4 dent pre 1 n Hw ltac:(lia) ltac:(lia) W4) as Hp. rewrite El in Hp.
  destruct (user_memset_ok m4 _ 1 ltac:(lia) Hp) as (m5 & E5 & W5). exists m5. split; [done|].
  unfold dent_bytes, SIZEOF_DENT. rewrite !app_assoc. eapply (written_app _ _ _ _ pre); [exact W4|]. apply written_index; [by rewrite El|].
  intros _. rewrite El. destruct Hw as [(H0 & H1 & H2) _ _]. lia.
Qed.

(** * The entries of a directory by position *)

Lemma locate bs ess : Forall (fun es => Z.of_nat (length (ents es)) = bs) ess -> forall pre d rest, concat ess = pre ++ d :: rest ->
  exists k a b, ess !! k = Some (a ++ d :: b) /\ Z.of_nat (length (ents pre)) = Z.of_nat k * bs + Z.of_nat (length (ents a)).
Proof.
  induction 1 as [|es ess Hes _ IH]; intros pre d rest E; cbn [concat] in E; [by destruct pre|].
  assert (Hgo : forall p, pre = es ++ p -> concat ess = p ++ d :: rest -> exists k a b, (es :: ess) !! k = Some (a ++ d :: b) /\
    Z.of_nat (length (ents pre)) = Z.of_nat k * bs + Z.of_nat (length (ents a))).
  { intros p -> Ep. destruct (IH p d rest Ep) as (k & a & b & Hk & Hl). exists (S k), a, b. split; [done|]. rewrite ents_app, length_app. lia. }
  apply app_eq_inv in E as [(k & -> & Ek)|(k & -> & Ek)]; [|by apply (Hgo k)].
  destruct k as [|d' k]; cbn [app] in Ek; [by apply (Hgo []); rewrite ?app_nil_r|]. injection Ek as <- _. by exists 0%nat, pre, k.
Qed.

Section Step.
Context (f : fs) (x : ext2_inode) (ess : list (list dent)) (Hok : dir_ok f x ess) (Hs : sound ess).

Lemma blocks_full : Forall (fun es => Z.of_nat (length (ents es)) = bsize f) ess.
Proof using Hok. apply Forall_lookup. intros k es Hk. by destruct (dir_block f x ess k es Hok Hk) as (_ & _ & _ & ? & _). Qed.

Lemma length_all : Z.of_nat (length (ents (concat ess))) = size (vfs x).
Proof using Hok.
  rewrite (do_size _ _ _ Hok). pose proof blocks_full as H. clear Hok Hs. induction H as [|es l He _ IH]; [done|]. cbn [concat length]. rewrite ents_app, length_app. lia.
Qed.

(** What the code reads at a position. *)
Lemma dirent_at pre d rest : concat ess = pre ++ d :: rest ->
  exists k data, let o := Z.of_nat (length (ents pre)) in
    ext2_bmap f x (Z.quot o (bsize f)) = Done (Ext2Map.mapped f x (Z.of_nat k)) /\ Ext2Map.mapped f x (Z.of_nat k) <> SECTOR_INVALID /\
    block_data f (Ext2Map.mapped f x (Z.of_nat k)) = Done data /\ o < size (vfs x) /\
    ent_ino data (Z.rem o (bsize f)) = Done (d_ino d) /\ ent_rec_len data (Z.rem o (bsize f)) = Done (reclen d) /\
    ent_name_len data (Z.rem o (bsize f)) = Done (Z.of_nat (length (d_name d))) /\
    arr_slice data (Z.rem o (bsize f) + DENT) (Z.of_nat (length (d_name d))) = Done (d_name d) /\ unstale d.
Proof using Hok Hs.
  intros E. destruct (locate (bsize f) ess blocks_full pre d rest E) as (k & a & b & Hk & Ho). pose proof (bsize_range f (do_fs _ _ _ Hok)) as Hbs.
  destruct (dir_block f x ess k _ Hok Hk) as (E1 & E2 & E3 & Hl & Hde & _). exists k, (ents (a ++ d :: b)). cbn zeta.
  pose proof Hde as [_ [Hd _]%Forall_cons]%Forall_app. rewrite ents_app, ents_cons, !length_app in Hl. pose proof (length_enc d). pose proof (reclen_pos d). unfold DENT in *.
  assert (Er : Z.rem (Z.of_nat (length (ents pre))) (bsize f) = Z.of_nat (length (ents a))).
  { rewrite Z.rem_mod_nonneg by lia. symmetry. apply (Z.mod_unique_pos _ _ (Z.of_nat k)); lia. }
  assert (Eq : Z.quot (Z.of_nat (length (ents pre))) (bsize f) = Z.of_nat k).
  { rewrite Z.quot_div_nonneg by lia. symmetry. apply (Z.div_unique_pos _ _ _ (Z.of_nat (length (ents a)))); lia. }
  rewrite Eq, Er. rewrite Z.quot_mul in E1 by lia. rewrite ents_app, ents_cons, ent_ino_at, ent_rec_len_at, ent_name_len_at by done.
  split_and!; try done; [by rewrite E3, ents_app, ents_cons | | apply ent_name_at |].
  - pose proof length_all as Ha. rewrite E, ents_app, ents_cons, !length_app in Ha. lia.
  - pose proof (so_unstale _ Hs) as Hu. rewrite E in Hu. by apply Forall_app in Hu as [_ [? _]%Forall_cons].
Qed.

Lemma skip_free pre fr rest filp m dent sz fuel : concat ess = pre ++ fr ++ rest -> Forall (fun d => d_ino d = 0) fr ->
  f_offset filp = Z.of_nat (length (ents pre)) ->
  read_dent_again f x filp m dent sz (length fr + fuel) =
    read_dent_again f x (set_offset (Z.of_nat (length (ents (pre ++ fr)))) filp) m dent sz fuel.
Proof using Hok Hs.
  intros E Hfr. revert pre filp E. induction Hfr as [|d fr Hd _ IH]; intros pre filp E Ho.
  { rewrite app_nil_r, <- Ho. by destruct filp. }
  destruct (dirent_at pre d (fr ++ rest) E) as (k & data & E1 & E2 & E3 & Hlt & E4 & E5 & _). cbn [length Nat.add read_dent_again]. rewrite Ho.
  destruct (Z.eqb_spec (Z.of_nat (length (ents pre))) (size (vfs x))); [lia|]. rewrite E1. obind.
  destruct (Z.eqb_spec (Ext2Map.mapped f x (Z.of_nat k)) SECTOR_INVALID); [done|]. rewrite E3. obind. rewrite E4, E5. obind. rewrite Hd. cbn [Z.eqb].
  pose proof (length_enc d). rewrite (IH (pre ++ [d])).
  - by rewrite <- app_assoc.
  - by rewrite <- app_assoc.
  - cbn [f_offset set_offset]. rewrite ents_app, ents_cons, app_nil_r, length_app. lia.
Qed.

Lemma read_end pre rest filp m dent sz fuel : concat ess = pre ++ rest -> Forall (fun d => d_ino d = 0) rest -> (length rest < fuel)%nat ->
  f_offset filp = Z.of_nat (length (ents pre)) -> read_dent_again f x filp m dent sz fuel = Done (0, set_offset (size (vfs x)) filp, m).
Proof using Hok Hs.
  intros E Hr Hf Ho. replace fuel with (length rest + S (fuel - length rest - 1))%nat by lia.
  rewrite (skip_free pre rest []) by (rewrite ?app_nil_r; done). rewrite <- E, length_all. cbn [read_dent_again f_offset set_offset]. by rewrite Z.eqb_refl.
Qed.

Lemma read_next pre fr d rest filp m dent sz fuel : concat ess = pre ++ fr ++ d :: rest -> Forall (fun d => d_ino d = 0) fr -> d_ino d <> 0 ->
  (length fr < fuel)%nat -> f_offset filp = Z.of_nat (length (ents pre)) -> writable m dent sz -> 268 <= sz ->
  exists m', read_dent_again f x filp m dent sz fuel = Done (reclen d, set_offset (Z.of_nat (length (ents (pre ++ fr ++ [d])))) filp, m') /\
    written m m' (ptr dent) (dent_bytes (d_ino d) (d_name d)).
Proof using Hok Hs.
  intros E Hr Hd Hf Ho Hw Hsz. replace fuel with (length fr + S (fuel - length fr - 1))%nat by lia.
  rewrite (skip_free pre fr (d :: rest)) by done. rewrite app_assoc in E.
  destruct (dirent_at (pre ++ fr) d rest E) as (k & data & E1 & E2 & E3 & Hlt & E4 & E5 & E6 & E7 & Hu). cbn [read_dent_again f_offset set_offset f_flags].
  destruct (Z.eqb_spec (Z.of_nat (length (ents (pre ++ fr)))) (size (vfs x))); [lia|]. rewrite E1. obind.
  destruct (Z.eqb_spec (Ext2Map.mapped f x (Z.of_nat k)) SECTOR_INVALID); [done|]. rewrite E3. obind. rewrite E4, E5. obind. rewrite E6.
  destruct (Z.eqb_spec (d_ino d) 0); [done|]. obind.
  assert (Hnl : (length (d_name d) <= 255)%nat).
  { assert (Hin : d ∈ concat ess) by (rewrite E; apply elem_of_app; right; apply list_elem_of_here). apply list_elem_of_In, in_concat in Hin as (es & He & Hde).
    pose proof (do_dents _ _ _ Hok) as HD. rewrite Forall_forall in HD. specialize (HD es ltac:(by apply list_elem_of_In)). rewrite Forall_forall in HD. apply (HD d). by apply list_elem_of_In. }
  destruct (Z.ltb_spec sz (SIZEOF_DENT + Z.of_nat (length (d_name d)) + 1)); [unfold SIZEOF_DENT in *; lia|]. rewrite E7. obind.
  destruct (user_copy_dent_ok m dent (d_ino d) (d_name d) sz) as (m' & -> & W); [intros E0; by apply Hd, Hu | done | lia|]. cbn [Z.eqb].
  exists m'. split; [|done]. do 3 f_equal. unfold set_offset. cbn [f_flags f_offset]. f_equal. pose proof (length_enc d). rewrite app_assoc, (ents_app (pre ++ fr)), ents_cons, app_nil_r, (length_app _ (enc d)). lia.
Qed.
End Step.

(** * Listing *)

(** Calls of [vfs_read_dent] on the buffer until the first that returns 0, and the
    entries they hand out. *)
Inductive lists (now : Z) (f : fs) (dent : user_buffer) (sz : Z) : ext2_inode -> file -> gmap Z Z -> list (list Z * Z) -> Prop :=
| lists_end x filp m filp' x' :
    vfs_read_dent now f x filp m dent sz = Done (0, filp', m, x') -> lists now f dent sz x filp m []
| lists_next x filp m r filp' m' x' name i l :
    vfs_read_dent now f x filp m dent sz = Done (r, filp', m', x') -> 0 < r -> written m m' (ptr dent) (dent_bytes i name) ->
    lists now f dent sz x' filp' m' l -> lists now f dent sz x filp m ((name, i) :: l).

Lemma first_used (rest : list Dirent.dent) : Forall (fun d => d_ino d = 0) rest \/
  exists fr d rest', rest = fr ++ d :: rest' /\ Forall (fun d => d_ino d = 0) fr /\ d_ino d <> 0.
Proof.
  induction rest as [|d rest IH]; [by left|]. destruct (decide (d_ino d = 0)) as [E|E].
  - destruct IH as [IH|(fr & d' & rest' & -> & Hf & Hd)]; [left; by constructor|]. right. exists (d :: fr), d', rest'. split_and!; [done | by constructor | done].
  - right. by exists [], d, rest.
Qed.

Lemma named_none rest : Forall (fun d => d_ino d = 0) rest -> Forall unstale rest -> named rest = [].
Proof.
  induction 1 as [|e rest He _ IH]; [done|]. intros [Hu Hr]%Forall_cons. by rewrite named_cons, (named_free e), IH by (try apply Hu; done).
Qed.

Lemma named_skip fr d rest : Forall (fun d => d_ino d = 0) fr -> Forall unstale (fr ++ d :: rest) -> d_ino d <> 0 ->
  named (fr ++ d :: rest) = (d_name d, d_ino d) :: named rest.
Proof.
  intros Hf [Hu [Hd _]%Forall_cons]%Forall_app Hne. by rewrite named_app, (named_none fr), named_cons, (named_one d) by (try (intros E; apply Hne, Hd); done).
Qed.

Lemma writable_again m m' dent bs n : writable m dent n -> written m m' (ptr dent) bs -> writable m' dent n.
Proof.
  intros [Hr Hu Hm] [W F]. split; [done | done|]. intros a Ha. destruct (decide (ptr dent <= a < ptr dent + Z.of_nat (length bs))) as [Hin|Hout]; [|rewrite F by done; by apply Hm].
  replace a with (ptr dent + Z.of_nat (Z.to_nat (a - ptr dent))) by lia. rewrite W by lia. apply lookup_lt_is_Some. lia.
Qed.

Lemma lists_from now f dent sz ess n : sound ess -> 268 <= sz -> forall rest pre x filp m, (length rest <= n)%nat -> dir_ok f x ess ->
  S_ISDIR (mode (vfs x)) = true -> concat ess = pre ++ rest -> f_offset filp = Z.of_nat (length (ents pre)) -> writable m dent sz ->
  lists now f dent sz x filp m (named rest).
Proof.
  intros Hs Hsz. induction n as [|n IH]; intros rest pre x filp m Hlen Hok Hdir E Ho Hw.
  all: pose proof (length_all f x ess Hok) as Hall; rewrite E, ents_app, length_app in Hall; pose proof (length_ents rest).
  all: assert (Hu : Forall unstale rest) by (pose proof (so_unstale _ Hs) as Hu; rewrite E in Hu; by apply Forall_app in Hu as [_ ?]).
  all: destruct (first_used rest) as [Hr|(fr & d & rest' & -> & Hfr & Hd)]; [rewrite named_none by done | ].
  1,3: eapply lists_end; unfold vfs_read_dent, ext2_dir_read_dent; rewrite Hdir; cbn [negb]; rewrite (read_end f x ess Hok Hs pre rest) by (done || (unfold read_dent_fuel; lia)); done.
  1: rewrite length_app in Hlen; cbn in Hlen; lia.
  rewrite (named_skip fr d rest' Hfr Hu Hd). rewrite !length_app in *. cbn [length] in *.
  destruct (read_next f x ess Hok Hs pre fr d rest' filp m dent sz (read_dent_fuel f x) E Hfr Hd) as (m' & Er & W); [unfold read_dent_fuel; lia | done | done | done|].
  eapply lists_next; [unfold vfs_read_dent, ext2_dir_read_dent; rewrite Hdir; cbn [negb]; rewrite Er; done | pose proof (reclen_pos d); unfold DENT in *; lia | done|].
  apply (IH rest' (pre ++ fr ++ [d])); [lia | by apply dir_touch | done | by rewrite <- !app_assoc | done | by eapply writable_again].
Qed.

(** C17: Reading a directory lists it.  Calls of [vfs_read_dent] from the start of the
    directory, with room for the longest name, return one entry each, its inode, its
    lengths and its name with a zero in the buffer of the process, and then 0; the
    entries are those of the map the directory represents, each once. *)
Theorem read_dent_lists now f x m dent sz mem fl :
  represents f x m -> S_ISDIR (mode (vfs x)) = true -> writable mem dent sz -> 268 <= sz ->
  exists l, lists now f dent sz x {| f_offset := 0; f_flags := fl |} mem l /\ NoDup l.*1 /\ list_to_map l = m.
Proof.
  intros (ess & Hok & Hs & ->) Hdir Hw Hsz. exists (named (concat ess)). split_and!; [|apply Hs | done].
  by apply (lists_from now f dent sz ess (length (concat ess)) Hs Hsz (concat ess) []).
Qed.

Definition demo_memory : gmap Z Z := gset_to_gmap 0 (list_to_set (seqZ 4096 300)).

Lemma read_dent_lists_witness :
  exists l, lists 0 demo_dir_fs (make_user_buffer 4096) 300 demo_dir {| f_offset := 0; f_flags := 1 |} demo_memory l /\
    NoDup l.*1 /\ list_to_map l = demo_map.
Proof.
  apply read_dent_lists; [apply demo_represents | done | | lia].
  split; [unfold range_ok; cbn; lia | unfold KMEM_KBASE; cbn; lia|]. intros a Ha. unfold demo_memory. exists 0.
  apply lookup_gset_to_gmap_Some. split; [|done]. apply elem_of_list_to_set, elem_of_seqZ. cbn in Ha. lia.
Defined.
