(* ===== verification/Bcache.v ===== *)
(** The block cache (src/block/bcache.c, include/protura/block/bcache.h) over the
    block devices (src/block/bdev.c) and the completion part of the disk drivers
    (src/drivers/block/ata.c).  Blocks live in a hash table, in a list by age and
    in a list per device.  Tasks get, lock, change and release blocks, sync the
    cache and shrink it; each of them is a point in the code, and a step runs one
    task up to where it next lets go of a lock, waits, or returns.  A step that
    would sleep is not taken; every interleaving is a list of steps. *)
From stdpp Require Import base numbers list gmap.
From Stdlib Require Import ZArith ZifyBool Lia.
From S2P Require Import Prelude.
Open Scope Z_scope.

Definition BLOCK_HASH_TABLE_SIZE : Z := 1024.
Definition BLOCK_CACHE_MAX_SIZE : Z := 128 * 1024 * 1024.
Definition BLOCK_CACHE_SHRINK_SIZE : Z := 16 * 1024 * 1024.

Record block : Type := {
  refs : Z;
  data : list Z;
  blk_size : Z;   (* [block_size] *)
  sector : Z;
  bdev : Z;
  dirty : bool;
  valid : bool;
  locked : bool;
}.

(** A block device while it is open: [disk], [part] and the block size of a
    [struct block_device] do not change then. *)
Record block_device : Type := {
  dev : Z;
  bd_block_size : Z;
  disk : Z;
  min_block_size_shift : Z;
  first_sector : Z;
  sector_count : Z;
}.

Record bcache : Type := {
  heap : gmap Z block;
  cache : gmap Z (list Z);
  cache_size : Z;
  lru : list Z;
  bdev_blocks : gmap Z (list Z);   (* [bdev->blocks] *)
}.

Definition set_heap (h : gmap Z block) (c : bcache) : bcache :=
  {| heap := h; cache := cache c; cache_size := cache_size c; lru := lru c; bdev_blocks := bdev_blocks c |}.
Definition set_lru (l : list Z) (c : bcache) : bcache :=
  {| heap := heap c; cache := cache c; cache_size := cache_size c; lru := l; bdev_blocks := bdev_blocks c |}.

Definition set_dev_blocks (d : Z) (l : list Z) (c : bcache) : bcache :=
  {| heap := heap c; cache := cache c; cache_size := cache_size c; lru := lru c; bdev_blocks := <[d := l]> (bdev_blocks c) |}.

Definition set_refs (n : Z) (b : block) : block :=
  {| refs := n; data := data b; blk_size := blk_size b; sector := sector b; bdev := bdev b;
     dirty := dirty b; valid := valid b; locked := locked b |}.
Definition set_locked (l : bool) (b : block) : block :=
  {| refs := refs b; data := data b; blk_size := blk_size b; sector := sector b; bdev := bdev b;
     dirty := dirty b; valid := valid b; locked := l |}.
Definition set_data (bs : list Z) (b : block) : block :=
  {| refs := refs b; data := bs; blk_size := blk_size b; sector := sector b; bdev := bdev b;
     dirty := dirty b; valid := valid b; locked := locked b |}.
Definition block_mark_dirty (b : block) : block :=
  {| refs := refs b; data := data b; blk_size := blk_size b; sector := sector b; bdev := bdev b;
     dirty := true; valid := valid b; locked := locked b |}.
Definition block_mark_synced (b : block) : block :=
  {| refs := refs b; data := data b; blk_size := blk_size b; sector := sector b; bdev := bdev b;
     dirty := false; valid := true; locked := locked b |}.

(** A block that is not allocated is not accessed. *)
Definition block_at (c : bcache) (b : Z) : outcome block :=
  match heap c !! b with Some x => Done x | None => Fault end.
Definition with_block (f : block -> block) (b : Z) (c : bcache) : outcome bcache :=
  x ← block_at c b;
  Done (set_heap (<[b := f x]> (heap c)) c).

Definition inc_refs (x : block) : block := set_refs (refs x + 1) x.
Definition dec_refs (x : block) : block := set_refs (refs x - 1) x.

Definition bucket (c : bcache) (h : Z) : list Z := default [] (cache c !! h).
Definition blocks_of (c : bcache) (d : Z) : list Z := default [] (bdev_blocks c !! d).
Definition unlink (b : Z) (l : list Z) : list Z := filter (fun x => x <> b) l.

Definition block_hash (device sec : Z) : Z :=
  Z.lxor (u32 (DEV_MAJOR device + DEV_MINOR device)) sec mod BLOCK_HASH_TABLE_SIZE.

(** * The contents of the disks *)

(** The byte at an offset of a disk. *)
Definition media : Type := Z -> Z -> Z.

Definition disk_read (m : media) (d off n : Z) : list Z := m d <$> seqZ off n.
Definition disk_write (m : media) (d off : Z) (bs : list Z) : media := fun d' o =>
  if (d' =? d) && (off <=? o) && (o <? off + Z.of_nat (length bs)) then default 0 (bs !! Z.to_nat (o - off)) else m d' o.

Section Cache.
Context (bdevs : Z -> block_device).

Definition real_sector (x : block) : Z :=
  let d := bdevs (bdev x) in
  u32 (u32 (sector x * Z.shiftr (blk_size x) (min_block_size_shift d)) + first_sector d).

Definition byte_offset (x : block) : Z := real_sector x * 2 ^ min_block_size_shift (bdevs (bdev x)).

(** * The cache *)

Definition block_uncache (b : Z) (c : bcache) : outcome bcache :=
  x ← block_at c b;
  let h := block_hash (dev (bdevs (bdev x))) (sector x) in
  Done {| heap := heap c; cache := <[h := unlink b (bucket c h)]> (cache c); cache_size := cache_size c - blk_size x;
          lru := unlink b (lru c); bdev_blocks := <[bdev x := unlink b (blocks_of c (bdev x))]> (bdev_blocks c) |}.

Definition block_cache (b : Z) (c : bcache) : outcome bcache :=
  x ← block_at c b;
  let h := block_hash (dev (bdevs (bdev x))) (sector x) in
  Done {| heap := heap c; cache := <[h := b :: bucket c h]> (cache c); cache_size := cache_size c + blk_size x;
          lru := lru c; bdev_blocks := <[bdev x := b :: blocks_of c (bdev x)]> (bdev_blocks c) |}.

Definition block_delete (b : Z) (c : bcache) : bcache := set_heap (delete b (heap c)) c.

(** [block_new] with the fields [block_get_nosync] sets; what the memory holds
    does not matter until the block is valid. *)
Definition block_new (d sec : Z) : block :=
  {| refs := 0; data := replicate (Z.to_nat (bd_block_size (bdevs d))) 0; blk_size := bd_block_size (bdevs d); sector := sec;
     bdev := d; dirty := false; valid := false; locked := false |}.

Fixpoint find_in (c : bcache) (l : list Z) (device sec : Z) : outcome (option Z) :=
  match l with
  | [] => Done None
  | b :: l' =>
      x ← block_at c b;
      if (dev (bdevs (bdev x)) =? device) && (sector x =? sec) then Done (Some b) else find_in c l' device sec
  end.

Definition find_block (c : bcache) (device sec : Z) : outcome (option Z) :=
  find_in c (bucket c (block_hash device sec)) device sec.

(** One pass of [__block_cache_shrink] over the list; the lock that is tried and
    given back leaves no trace. *)
Fixpoint shrink_pass (c : bcache) (l : list Z) (freed : Z) : outcome (Z * bcache) :=
  match l with
  | [] => Done (freed, c)
  | b :: l' =>
      x ← block_at c b;
      if locked x then shrink_pass c l' freed
      else if negb (refs x =? 0) then shrink_pass c l' freed
      else if dirty x then shrink_pass c l' freed
      else
        c ← block_uncache b c;
        let c := block_delete b c in
        let freed := freed + blk_size x in
        if BLOCK_CACHE_SHRINK_SIZE <=? freed then Done (freed, c) else shrink_pass c l' freed
  end.

(** [block_dev_clear] after its sync, on the blocks [l] of the device. *)
Fixpoint dev_clear (c : bcache) (d : Z) (l : list Z) : outcome bcache :=
  match l with
  | [] => Done c
  | b :: l' =>
      let c := set_dev_blocks d l' c in
      x ← block_at c b;
      if negb (bdev x =? d) then dev_clear c d l'
      else if locked x then dev_clear c d l'
      else
        c ← with_block (set_locked true) b c;
        if negb (refs x =? 0) then dev_clear c d l'
        else if dirty x then dev_clear c d l'
        else
          c ← block_uncache b c;
          dev_clear (block_delete b c) d l'
  end.

(** The end of [block_get_nosync]. *)
Definition inc_and_return (b : Z) (c : bcache) : outcome bcache :=
  c ← with_block inc_refs b c;
  Done (set_lru (unlink b (lru c) ++ [b]) c).

(** The blocks that the syncs collect, with a reference each. *)
Fixpoint collect (c : bcache) (l : list Z) : outcome (list Z * bcache) :=
  match l with
  | [] => Done ([], c)
  | b :: l' =>
      x ← block_at c b;
      if valid x && dirty x then
        c ← with_block inc_refs b c;
        '(bs, c) ← collect c l';
        Done (b :: bs, c)
      else collect c l'
  end.

(** The blocks in the order of the hash table. *)
Definition all_cached (c : bcache) : list Z := seqZ 0 BLOCK_HASH_TABLE_SIZE ≫= bucket c.

(** [block_submit] of a locked block, up to the queue of the driver. *)
Definition block_submit (b : Z) (c : bcache) (q : list Z) : outcome (bcache * list Z) :=
  x ← block_at c b;
  if valid x && negb (dirty x) then
    c ← with_block (set_locked false) b c;
    Done (c, q)
  else
    c ← with_block inc_refs b c;
    Done (c, q ++ [b]).

(** * Tasks *)

(** What follows a sync: the task returns, or it goes on to shrink the cache, for
    a block it wants or because memory is short. *)
Inductive cont : Type :=
| KReturn
| KShrink (want : option (Z * Z * bool)) (freed : Z).

Inductive point : Type :=
| Idle
| Oom                                  (* [bcache_oom] *)
| Request (d sec : Z) (sync : bool)    (* [block_get] or [block_get_nosync] *)
| Allocate (d sec : Z) (sync : bool)   (* the lock is released to allocate memory *)
| Check (d sec b : Z)                        (* [block_get] has a block *)
| Submit (d sec b : Z)
| WaitSync (d sec b : Z)
| Holding (d sec b : Z)
| Locked (d sec b : Z)
| Sync (which : option Z) (wait : bool) (k : cont)
| SyncSubmit (which : option Z) (wait : bool) (todo waits : list Z) (k : cont)
| SyncWait (waits : list Z) (k : cont).

Record sys : Type := {
  bc : bcache;
  disks : media;
  queue : list Z;        (* submitted to the drivers *)
  sync_lock : bool;
  threads : list point;
  log : list (Z * Z * list Z);   (* the writes made to blocks, the last one first *)
}.

Definition at_ (s : sys) (i : nat) (c : bcache) (p : point) : sys :=
  {| bc := c; disks := disks s; queue := queue s; sync_lock := sync_lock s; threads := <[i := p]> (threads s); log := log s |}.
Definition set_queue (q : list Z) (s : sys) : sys :=
  {| bc := bc s; disks := disks s; queue := q; sync_lock := sync_lock s; threads := threads s; log := log s |}.
Definition set_sync_lock (l : bool) (s : sys) : sys :=
  {| bc := bc s; disks := disks s; queue := queue s; sync_lock := l; threads := threads s; log := log s |}.

Definition got (sync : bool) (d sec b : Z) : point := if sync then Check d sec b else Holding d sec b.

Definition shrunk_for (want : option (Z * Z * bool)) : point :=
  match want with Some (d, sec, sync) => Allocate d sec sync | None => Idle end.

(** [__block_cache_shrink] up to the sync in the middle of it. *)
Definition shrink (s : sys) (i : nat) (want : option (Z * Z * bool)) : outcome (option sys) :=
  '(freed, c) ← shrink_pass (bc s) (lru (bc s)) 0;
  Done (Some (at_ s i c (if freed <? BLOCK_CACHE_SHRINK_SIZE then Sync None true (KShrink want freed) else shrunk_for want))).

(** What follows a sync; the second pass of the shrink is the last. *)
Definition finish (s : sys) (i : nat) (k : cont) : outcome (option sys) :=
  match k with
  | KReturn => Done (Some (at_ s i (bc s) Idle))
  | KShrink want freed =>
      '(_, c) ← shrink_pass (bc s) (lru (bc s)) freed;
      Done (Some (at_ s i c (shrunk_for want)))
  end.

(** [block_get_nosync] up to the allocation. *)
Definition get_nosync (s : sys) (i : nat) (d sec : Z) (sync : bool) : outcome (option sys) :=
  let c := bc s in
  r ← find_block c (dev (bdevs d)) sec;
  match r with
  | Some b => c ← inc_and_return b c; Done (Some (at_ s i c (got sync d sec b)))
  | None =>
      if BLOCK_CACHE_MAX_SIZE <=? cache_size c then shrink s i (Some (d, sec, sync))
      else Done (Some (at_ s i c (Allocate d sec sync)))
  end.

(** The rest of it; [new] is the memory of the new block. *)
Definition get_nosync_new (s : sys) (i : nat) (d sec : Z) (sync : bool) (new : Z) : outcome (option sys) :=
  let c := bc s in
  match heap c !! new with
  | Some _ => Done None
  | None =>
      r ← find_block c (dev (bdevs d)) sec;
      match r with
      | Some b => c ← inc_and_return b c; Done (Some (at_ s i c (got sync d sec b)))
      | None =>
          c ← block_cache new (set_heap (<[new := block_new d sec]> (heap c)) c);
          c ← inc_and_return new c;
          Done (Some (at_ s i c (got sync d sec new)))
      end
  end.

(** [block_get] with the block: what the flags ask for, the submit, and the wait. *)
Definition get_check (s : sys) (i : nat) (d sec b : Z) : outcome (option sys) :=
  x ← block_at (bc s) b;
  Done (Some (at_ s i (bc s) (if valid x then Holding d sec b else if locked x then WaitSync d sec b else Submit d sec b))).

Definition get_submit (s : sys) (i : nat) (d sec b : Z) : outcome (option sys) :=
  let c := bc s in
  x ← block_at c b;
  if locked x then Done None
  else
    c ← with_block (set_locked true) b c;
    '(c, q) ← block_submit b c (queue s);
    Done (Some (set_queue q (at_ s i c (WaitSync d sec b)))).

Definition block_wait_for_sync (s : sys) (i : nat) (d sec b : Z) : outcome (option sys) :=
  x ← block_at (bc s) b;
  if locked x then Done None else Done (Some (at_ s i (bc s) (Holding d sec b))).

(** The three loops of [block_dev_sync] and [block_sync_all]: [which] is the
    device of the first. *)
Definition sync_collect (s : sys) (i : nat) (which : option Z) (wait : bool) (k : cont) : outcome (option sys) :=
  let c := bc s in
  if sync_lock s then Done None
  else
    '(bs, c) ← collect c (match which with Some d => blocks_of c d | None => all_cached c end);
    Done (Some (set_sync_lock true (at_ s i c (SyncSubmit which wait bs [] k)))).

Definition sync_submit (s : sys) (i : nat) (which : option Z) (wait : bool) (todo waits : list Z) (k : cont) : outcome (option sys) :=
  let c := bc s in
  match todo with
  | [] => if wait then Done (Some (at_ s i c (SyncWait waits k))) else finish (set_sync_lock false s) i k
  | b :: todo =>
      x ← block_at c b;
      if locked x then Done None
      else if bool_decide (which = None) && negb (valid x && dirty x) then
        c ← with_block dec_refs b c;
        Done (Some (at_ s i c (SyncSubmit which wait todo (waits ++ [b]) k)))
      else
        c ← with_block (set_locked true) b c;
        '(c, q) ← block_submit b c (queue s);
        if wait then Done (Some (set_queue q (at_ s i c (SyncSubmit which wait todo (waits ++ [b]) k))))
        else
          c ← with_block dec_refs b c;
          Done (Some (set_queue q (at_ s i c (SyncSubmit which wait todo waits k))))
  end.

Definition sync_wait (s : sys) (i : nat) (waits : list Z) (k : cont) : outcome (option sys) :=
  let c := bc s in
  match waits with
  | [] => finish (set_sync_lock false s) i k
  | b :: waits =>
      x ← block_at c b;
      if locked x then Done None
      else
        c ← with_block dec_refs b c;
        Done (Some (at_ s i c (SyncWait waits k)))
  end.

(** Task [i] at [p] goes on. *)
Definition advance (s : sys) (i : nat) (p : point) (new : Z) : outcome (option sys) :=
  match p with
  | Idle | Holding _ _ _ | Locked _ _ _ => Done None
  | Oom => shrink s i None
  | Request d sec sync => get_nosync s i d sec sync
  | Allocate d sec sync => get_nosync_new s i d sec sync new
  | Check d sec b => get_check s i d sec b
  | Submit d sec b => get_submit s i d sec b
  | WaitSync d sec b => block_wait_for_sync s i d sec b
  | Sync which wait k => sync_collect s i which wait k
  | SyncSubmit which wait todo waits k => sync_submit s i which wait todo waits k
  | SyncWait waits k => sync_wait s i waits k
  end.

(** The driver ends the request of a block: [block_mark_synced] and
    [block_unlockput] after the transfer. *)
Definition complete (s : sys) (b : Z) : outcome (option sys) :=
  if bool_decide (b ∈ queue s) then
    x ← block_at (bc s) b;
    let d := bdevs (bdev x) in
    let m := if dirty x then disk_write (disks s) (disk d) (byte_offset x) (data x) else disks s in
    let bs := if dirty x then data x else disk_read (disks s) (disk d) (byte_offset x) (blk_size x) in
    c ← with_block (fun x => dec_refs (set_locked false (block_mark_synced (set_data bs x)))) b (bc s);
    Done (Some {| bc := c; disks := m; queue := unlink b (queue s); sync_lock := sync_lock s; threads := threads s; log := log s |})
  else Done None.

(** The users of the cache; [Idle] tasks start calls. *)
Inductive label : Type :=
| LGet (i : nat) (d sec : Z) (sync : bool)
| LSync (i : nat) (which : option Z) (wait : bool)
| LOom (i : nat)
| LRun (i : nat) (new : Z)
| LLock (i : nat)
| LWrite (i : nat) (bs : list Z)    (* new data and [block_mark_dirty] *)
| LFill (i : nat) (bs : list Z)     (* new data and [block_mark_synced] *)
| LUnlock (i : nat)
| LPut (i : nat)
| LDone (b : Z).

Definition logged (i : nat) (c : bcache) (x : block) (bs : list Z) (s : sys) : sys :=
  {| bc := c; disks := disks s; queue := queue s; sync_lock := sync_lock s; threads := threads s;
     log := (bdev x, sector x, bs) :: log s |}.

Definition exec (s : sys) (l : label) : outcome (option sys) :=
  match l with
  | LGet i d sec sync =>
      Done (match threads s !! i with Some Idle => Some (at_ s i (bc s) (Request d sec sync)) | _ => None end)
  | LSync i which wait =>
      Done (match threads s !! i with Some Idle => Some (at_ s i (bc s) (Sync which wait KReturn)) | _ => None end)
  | LOom i => Done (match threads s !! i with Some Idle => Some (at_ s i (bc s) Oom) | _ => None end)
  | LRun i new => match threads s !! i with Some p => advance s i p new | None => Done None end
  | LLock i =>
      match threads s !! i with
      | Some (Holding d sec b) =>
          x ← block_at (bc s) b;
          if locked x then Done None
          else c ← with_block (set_locked true) b (bc s); Done (Some (at_ s i c (Locked d sec b)))
      | _ => Done None
      end
  | LWrite i bs =>
      match threads s !! i with
      | Some (Locked d sec b) =>
          x ← block_at (bc s) b;
          c ← with_block (fun x => block_mark_dirty (set_data bs x)) b (bc s);
          Done (if valid x && (Z.of_nat (length bs) =? blk_size x) then Some (logged i c x bs s) else None)
      | _ => Done None
      end
  | LFill i bs =>
      match threads s !! i with
      | Some (Locked d sec b) =>
          x ← block_at (bc s) b;
          c ← with_block (fun x => block_mark_synced (set_data bs x)) b (bc s);
          Done (if Z.of_nat (length bs) =? blk_size x then Some (logged i c x bs s) else None)
      | _ => Done None
      end
  | LUnlock i =>
      match threads s !! i with
      | Some (Locked d sec b) => c ← with_block (set_locked false) b (bc s); Done (Some (at_ s i c (Holding d sec b)))
      | _ => Done None
      end
  | LPut i =>
      match threads s !! i with
      | Some (Holding d sec b) => c ← with_block dec_refs b (bc s); Done (Some (at_ s i c Idle))
      | _ => Done None
      end
  | LDone b => complete s b
  end.

Fixpoint exec_all (s : sys) (ls : list label) : outcome (option sys) :=
  match ls with
  | [] => Done (Some s)
  | l :: ls' => r ← exec s l; match r with Some s => exec_all s ls' | None => Done None end
  end.

Definition empty_cache : bcache := {| heap := ∅; cache := ∅; cache_size := 0; lru := []; bdev_blocks := ∅ |}.

(** [n] tasks, and nothing cached. *)
Definition start (n : nat) (m : media) : sys :=
  {| bc := empty_cache; disks := m; queue := []; sync_lock := false; threads := replicate n Idle; log := [] |}.
End Cache.
