(* ===== verification/BcacheProps.v ===== *)
(** The block cache presents the blocks of the disks with the writes made to
    them: whatever the tasks, the drivers and the shrinker do, a block that was
    obtained holds what was last written to its sector, no block is freed while
    it is used, and a sync brings everything to the disks. *)
From stdpp Require Import base numbers list gmap.
From Stdlib Require Import ZArith ZifyBool Lia.
From S2P Require Import Prelude Bcache.
Open Scope Z_scope.

(** * Counting occurrences *)

Definition cnt (b : Z) (l : list Z) : Z := Z.of_nat (length (filter (fun x => x = b) l)).

Lemma cnt_nil b : cnt b [] = 0.
Proof. done. Qed.

Lemma cnt_cons b x l : cnt b (x :: l) = (if decide (x = b) then 1 else 0) + cnt b l.
Proof. unfold cnt. rewrite filter_cons. case_decide; simpl; lia. Qed.

Lemma cnt_app b l k : cnt b (l ++ k) = cnt b l + cnt b k.
Proof. unfold cnt. rewrite filter_app, length_app. lia. Qed.

Lemma cnt_nonneg b l : 0 <= cnt b l.
Proof. unfold cnt. lia. Qed.

Lemma cnt_in b l : b ∈ l -> 1 <= cnt b l.
Proof.
  induction 1 as [x l|x y l _ IH]; rewrite cnt_cons; [rewrite decide_True by done|]; pose proof (cnt_nonneg x l); [lia|].
  case_decide; lia.
Qed.

Lemma cnt_out b l : b ∉ l -> cnt b l = 0.
Proof.
  induction l as [|x l IH]; [done|]. rewrite not_elem_of_cons, cnt_cons. intros [Hx Hl].
  rewrite decide_False by congruence. rewrite IH; [lia | done].
Qed.

Lemma cnt_zero b l : cnt b l = 0 -> b ∉ l.
Proof. intros E Hin. apply cnt_in in Hin. lia. Qed.

Lemma cnt_unlink b c l : cnt b (unlink c l) = if decide (b = c) then 0 else cnt b l.
Proof.
  unfold unlink. induction l as [|x l IH]; [by case_decide|].
  destruct (decide (x = c)) as [->|Hx].
  - rewrite filter_cons_False by (by intros H; apply H). rewrite IH, cnt_cons. repeat case_decide; try done; congruence.
  - rewrite filter_cons_True by done. rewrite !cnt_cons, IH. repeat case_decide; try done; congruence.
Qed.

Lemma cnt_nodup b l : NoDup l -> cnt b l <= 1.
Proof.
  induction 1 as [|x l Hx Hn IH]; [by rewrite cnt_nil|]. rewrite cnt_cons. case_decide as E; [|lia].
  subst x. rewrite (cnt_out b l) by done. lia.
Qed.

(** Replacing the state of one task. *)
Lemma cnt_threads (f : point -> list Z) ts i p p' b :
  ts !! i = Some p -> cnt b (<[i := p']> ts ≫= f) = cnt b (ts ≫= f) - cnt b (f p) + cnt b (f p').
Proof.
  revert i. induction ts as [|t ts IH]; intros i Hi; [done|]. destruct i as [|i].
  - injection Hi as ->. change (<[0%nat := p']> (p :: ts)) with (p' :: ts). rewrite !bind_cons, !cnt_app. lia.
  - change (<[S i := p']> (t :: ts)) with (t :: <[i := p']> ts). rewrite !bind_cons, !cnt_app, (IH i Hi). lia.
Qed.

(** * The disks *)

Lemma disk_read_length m d off n : 0 <= n -> Z.of_nat (length (disk_read m d off n)) = n.
Proof. intros. unfold disk_read. rewrite length_fmap, length_seqZ. lia. Qed.

Lemma disk_read_write_same m d off bs : disk_read (disk_write m d off bs) d off (Z.of_nat (length bs)) = bs.
Proof.
  apply list_eq. intros i. unfold disk_read. rewrite list_lookup_fmap.
  destruct (decide (i < length bs)%nat) as [Hi|Hi].
  - rewrite lookup_seqZ_lt by lia. simpl. unfold disk_write. rewrite Z.eqb_refl.
    replace (off <=? off + Z.of_nat i) with true by lia. replace (off + Z.of_nat i <? off + Z.of_nat (length bs)) with true by lia.
    simpl. replace (Z.to_nat (off + Z.of_nat i - off)) with i by lia. destruct (lookup_lt_is_Some_2 bs i Hi) as [y ->]. done.
  - rewrite lookup_seqZ_ge by lia. rewrite lookup_ge_None_2 by lia. done.
Qed.

Lemma disk_read_write_other m d off bs d' off' n :
  d' <> d \/ off' + n <= off \/ off + Z.of_nat (length bs) <= off' ->
  disk_read (disk_write m d off bs) d' off' n = disk_read m d' off' n.
Proof.
  intros Hne. unfold disk_read. apply list_fmap_ext. intros i o Ho. apply lookup_seqZ in Ho as [-> Hi]. unfold disk_write.
  destruct (Z.eqb_spec d' d); [|done]. simpl. destruct (Z.leb_spec off (off' + Z.of_nat i)); [|done].
  destruct (Z.ltb_spec (off' + Z.of_nat i) (off + Z.of_nat (length bs))); [lia | done].
Qed.

(** Shows the body of the step of a task. *)
Tactic Notation "points" := cbn [advance]; unfold get_nosync, get_nosync_new, get_check, get_submit, block_wait_for_sync, sync_collect, sync_submit, sync_wait; cbv zeta; cbv iota.
Tactic Notation "points" "in" hyp(H) := cbn [advance] in H; unfold get_nosync, get_nosync_new, get_check, get_submit, block_wait_for_sync, sync_collect, sync_submit, sync_wait in H; cbv zeta in H; cbv iota in H.

(** * The invariant *)

Section Props.
Context (bdevs : Z -> block_device).

Abbreviation bs_of d := (bd_block_size (bdevs d)).
Abbreviation shift d := (min_block_size_shift (bdevs d)).

(** Open devices: the numbers differ, a block is a whole number of sectors of the
    disk, and the partitions of a disk do not overlap. *)
Record layout_ok : Prop := {
  lay_dev : forall d d', dev (bdevs d) = dev (bdevs d') -> d = d';
  lay_size : forall d, 0 <= shift d /\ exists k, 0 < k /\ bs_of d = k * 2 ^ shift d;
  lay_part : forall d, 0 <= first_sector (bdevs d) /\ first_sector (bdevs d) + sector_count (bdevs d) < 2 ^ 32;
  lay_disjoint : forall d d', d <> d' -> disk (bdevs d) = disk (bdevs d') ->
    shift d = shift d' /\
    (first_sector (bdevs d) + sector_count (bdevs d) <= first_sector (bdevs d') \/
     first_sector (bdevs d') + sector_count (bdevs d') <= first_sector (bdevs d));
}.

(** The sector is on the device. *)
Definition in_dev (d sec : Z) : Prop := 0 <= sec /\ (sec + 1) * Z.shiftr (bs_of d) (shift d) <= sector_count (bdevs d).

Definition offset (d sec : Z) : Z := (sec * Z.shiftr (bs_of d) (shift d) + first_sector (bdevs d)) * 2 ^ shift d.

(** What a disk holds for a sector of a device. *)
Definition stored (m : media) (d sec : Z) : list Z := disk_read m (disk (bdevs d)) (offset d sec) (bs_of d).

(** What was last written to a sector. *)
Definition latest (m : media) (l : list (Z * Z * list Z)) (d sec : Z) : list Z :=
  match list_find (fun e => e.1 = (d, sec)) l with Some (_, e) => e.2 | None => stored m d sec end.

Definition hash_of (x : block) : Z := block_hash (dev (bdevs (bdev x))) (sector x).

Definition size_at (h : gmap Z block) (b : Z) : Z := match h !! b with Some x => blk_size x | None => 0 end.
Definition sizes (h : gmap Z block) (l : list Z) : Z := foldr (fun b n => size_at h b + n) 0 l.

Record cache_ok (c : bcache) : Prop := {
  co_hash : forall h b, b ∈ bucket c h <-> exists x, heap c !! b = Some x /\ h = hash_of x;
  co_nodup : forall h, NoDup (bucket c h);
  co_key : forall b x b' x', heap c !! b = Some x -> heap c !! b' = Some x' ->
    bdev x = bdev x' -> sector x = sector x' -> b = b';
  co_lru : NoDup (lru c);
  co_lru_in : forall b, b ∈ lru c <-> is_Some (heap c !! b);
  co_dev : forall d b, b ∈ blocks_of c d <-> exists x, heap c !! b = Some x /\ bdev x = d;
  co_dev_nodup : forall d, NoDup (blocks_of c d);
  co_block : forall b x, heap c !! b = Some x ->
    in_dev (bdev x) (sector x) /\ blk_size x = bs_of (bdev x) /\ Z.of_nat (length (data x)) = blk_size x;
  co_size : cache_size c = sizes (heap c) (lru c);
}.

(** [M] lists the references to blocks, [K] the locks. *)
Definition counted (h : gmap Z block) (M K : list Z) : Prop := forall b,
  match h !! b with
  | Some x => refs x = cnt b M /\ cnt b K = if locked x then 1 else 0
  | None => cnt b M = 0 /\ cnt b K = 0
  end.

Record content_ok (h : gmap Z block) (m : media) (L : Z -> Z -> list Z) : Prop := {
  ct_valid : forall b x, h !! b = Some x -> valid x = true -> data x = L (bdev x) (sector x);
  ct_disk : forall d sec, in_dev d sec ->
    (forall b x, h !! b = Some x -> bdev x = d -> sector x = sec -> dirty x = false) -> stored m d sec = L d sec;
  ct_dirty : forall b x, h !! b = Some x -> dirty x = true -> valid x = true;
}.

Definition mentions (p : point) : list Z :=
  match p with
  | Check _ _ b | Submit _ _ b | WaitSync _ _ b | Holding _ _ b | Locked _ _ b => [b]
  | SyncSubmit _ _ todo waits _ => todo ++ waits
  | SyncWait waits _ => waits
  | _ => []
  end.

Definition lockers (p : point) : list Z := match p with Locked _ _ b => [b] | _ => [] end.

(** Block [b] is the one of the sector. *)
Definition keyed (h : gmap Z block) (d sec b : Z) : Prop := exists x, h !! b = Some x /\ bdev x = d /\ sector x = sec.
Definition is_valid (h : gmap Z block) (d sec b : Z) : Prop :=
  exists x, h !! b = Some x /\ bdev x = d /\ sector x = sec /\ valid x = true.

Definition cont_ok (k : cont) : Prop :=
  match k with KShrink (Some (d, sec, sync)) _ => in_dev d sec /\ sync = true | _ => True end.

Definition point_ok (h : gmap Z block) (q : list Z) (p : point) : Prop :=
  match p with
  | Request d sec sync | Allocate d sec sync => in_dev d sec /\ sync = true
  | Check d sec b | Submit d sec b => keyed h d sec b
  | WaitSync d sec b => is_valid h d sec b \/ keyed h d sec b /\ b ∈ q
  | Holding d sec b | Locked d sec b => is_valid h d sec b
  | Sync _ _ k | SyncWait _ k => cont_ok k
  | SyncSubmit _ wait _ waits k => cont_ok k /\ (wait = false -> waits = [])
  | _ => True
  end.

Definition held (s : sys) : list Z := (threads s ≫= mentions) ++ queue s.
Definition locks (s : sys) : list Z := (threads s ≫= lockers) ++ queue s.

Record ok (m0 : media) (s : sys) : Prop := {
  ok_cache : cache_ok (bc s);
  ok_counted : counted (heap (bc s)) (held s) (locks s);
  ok_content : content_ok (heap (bc s)) (disks s) (latest m0 (log s));
  ok_queue : forall b x, b ∈ queue s -> heap (bc s) !! b = Some x -> valid x = true -> dirty x = true;
  ok_points : forall i p, threads s !! i = Some p -> point_ok (heap (bc s)) (queue s) p;
}.

(** * Sectors *)

Context (Hlay : layout_ok).

Lemma bs_sectors d : exists k, 0 < k /\ bs_of d = k * 2 ^ shift d /\ Z.shiftr (bs_of d) (shift d) = k.
Proof using Hlay.
  destruct (lay_size Hlay d) as [Hs (k & Hk & E)]. exists k. split_and!; [done | done|].
  rewrite Z.shiftr_div_pow2 by done. rewrite E. apply Z.div_mul. assert (0 < 2 ^ shift d) by (apply Z.pow_pos_nonneg; lia). lia.
Qed.

Lemma byte_offset_spec x :
  in_dev (bdev x) (sector x) -> blk_size x = bs_of (bdev x) -> byte_offset bdevs x = offset (bdev x) (sector x).
Proof using Hlay.
  intros [H0 Hc] Eb. unfold byte_offset, real_sector, offset. rewrite Eb.
  destruct (bs_sectors (bdev x)) as (k & Hk & _ & E). rewrite E in *. destruct (lay_part Hlay (bdev x)) as [Hf Hp].
  assert (0 <= sector x * k) by nia. rewrite (u32_small (sector x * k)), u32_small by lia. done.
Qed.

Lemma extents_disjoint d sec d' sec' :
  in_dev d sec -> in_dev d' sec' -> (d, sec) <> (d', sec') ->
  disk (bdevs d') <> disk (bdevs d) \/ offset d' sec' + bs_of d' <= offset d sec \/ offset d sec + bs_of d <= offset d' sec'.
Proof using Hlay.
  intros [H0 Hc] [H0' Hc'] Hne. destruct (bs_sectors d) as (k & Hk & Eb & Es). destruct (bs_sectors d') as (k' & Hk' & Eb' & Es').
  unfold offset. rewrite Es, Es' in *.
  destruct (decide (d = d')) as [<-|Hd].
  - right. assert (k' = k) as -> by lia. rewrite Eb. set (P := 2 ^ shift d) in *. assert (0 < P) by (apply Z.pow_pos_nonneg; [lia | apply (lay_size Hlay)]).
    assert (sec <> sec') by congruence. destruct (Z.lt_ge_cases sec sec').
    + right. assert (sec + 1 <= sec') by lia. nia.
    + left. assert (sec' + 1 <= sec) by lia. nia.
  - destruct (decide (disk (bdevs d') = disk (bdevs d))) as [Ed|]; [right|by left].
    destruct (lay_disjoint Hlay d d' Hd (eq_sym Ed)) as [Esh Hp]. rewrite Eb, Eb', Esh. set (P := 2 ^ shift d') in *.
    assert (0 < P) by (apply Z.pow_pos_nonneg; [lia | apply (lay_size Hlay)]).
    destruct Hp; [right | left].
    + assert (sec * k + first_sector (bdevs d) + k <= sec' * k' + first_sector (bdevs d')) by nia. nia.
    + assert (sec' * k' + first_sector (bdevs d') + k' <= sec * k + first_sector (bdevs d)) by nia. nia.
Qed.

Lemma stored_write m x :
  in_dev (bdev x) (sector x) -> blk_size x = bs_of (bdev x) -> Z.of_nat (length (data x)) = blk_size x ->
  let m' := disk_write m (disk (bdevs (bdev x))) (byte_offset bdevs x) (data x) in
  stored m' (bdev x) (sector x) = data x /\
  forall d sec, in_dev d sec -> (d, sec) <> (bdev x, sector x) -> stored m' d sec = stored m d sec.
Proof using Hlay.
  intros Hin Eb El m'. unfold m'. rewrite byte_offset_spec by done. unfold stored. split.
  - rewrite <- Eb, <- El. apply disk_read_write_same.
  - intros d sec Hd Hne. apply disk_read_write_other. rewrite El, Eb.
    destruct (extents_disjoint (bdev x) (sector x) d sec Hin Hd) as [?|[?|?]]; auto.
Qed.

(** * The tables *)

(** The same block of the same device. *)
Definition same_block (x y : block) : Prop :=
  bdev y = bdev x /\ sector y = sector x /\ blk_size y = blk_size x /\ length (data y) = length (data x).

Lemma heap_update (c : bcache) b x y b' :
  heap c !! b = Some x -> same_block x y ->
  forall z, <[b := y]> (heap c) !! b' = Some z -> exists w, heap c !! b' = Some w /\ same_block w z.
Proof using.
  intros Hb Hs z. rewrite lookup_insert_Some. intros [[<- <-]|[_ Hz]]; [by exists x | exists z; split; [done | split_and!; done]].
Qed.

Lemma sizes_ext h h' l : (forall b, b ∈ l -> size_at h' b = size_at h b) -> sizes h' l = sizes h l.
Proof using.
  induction l as [|b l IH]; intros H; [done|]. simpl. rewrite IH by (intros; apply H; by apply list_elem_of_further).
  rewrite H by apply list_elem_of_here. done.
Qed.

Lemma cache_ok_update c b x y :
  cache_ok c -> heap c !! b = Some x -> same_block x y -> cache_ok (set_heap (<[b := y]> (heap c)) c).
Proof using.
  intros Hc Hb Hs. pose proof Hs as (E1 & E2 & E3 & E4). pose proof (heap_update c b x y) as HU.
  assert (Hex : forall b' (P : Z -> Z -> Prop), (exists z, <[b := y]> (heap c) !! b' = Some z /\ P (bdev z) (sector z)) <->
    exists w, heap c !! b' = Some w /\ P (bdev w) (sector w)).
  { intros b' P. destruct (decide (b' = b)) as [->|Hne].
    - rewrite lookup_insert_eq, Hb. split; intros (z & [= <-] & HP); eexists; (split; [reflexivity|]); by rewrite ?E1, ?E2 in *.
    - by rewrite lookup_insert_ne. }
  split; cbn [heap cache cache_size lru bdev_blocks set_heap]; try apply Hc.
  - intros h b'. change (bucket _ h) with (bucket c h). rewrite (co_hash c Hc).
    symmetry. apply (Hex b' (fun d s => h = block_hash (dev (bdevs d)) s)).
  - intros b1 x1 b2 x2 H1 H2 Ed Es. destruct (HU _ Hb Hs _ H1) as (w1 & Hw1 & F1 & F2 & _), (HU _ Hb Hs _ H2) as (w2 & Hw2 & G1 & G2 & _).
    apply (co_key c Hc b1 w1 b2 w2); congruence.
  - intros b'. rewrite (co_lru_in c Hc). rewrite lookup_insert_is_Some'. split; [auto|]. intros [<-|]; eauto.
  - intros d b'. change (blocks_of _ d) with (blocks_of c d). rewrite (co_dev c Hc). symmetry. apply (Hex b' (fun d' _ => d' = d)).
  - intros b' z Hz. destruct (HU _ Hb Hs _ Hz) as (w & Hw & F1 & F2 & F3 & F4). rewrite F1, F2, F3, F4. by apply (co_block c Hc b').
  - rewrite (co_size c Hc). symmetry. apply sizes_ext. intros b' _. unfold size_at. destruct (decide (b' = b)) as [->|Hne].
    + by rewrite lookup_insert_eq, Hb.
    + by rewrite lookup_insert_ne.
Qed.

Lemma sizes_perm h l k : l ≡ₚ k -> sizes h l = sizes h k.
Proof using. induction 1; simpl; lia. Qed.

Lemma unlink_last b l : NoDup l -> b ∈ l -> unlink b l ++ [b] ≡ₚ l.
Proof using.
  intros Hn Hb. apply list_elem_of_split in Hb as (l1 & l2 & ->). unfold unlink.
  apply NoDup_app in Hn as (_ & Hd & H2). apply NoDup_cons in H2 as [H2 _].
  rewrite filter_app, filter_cons_False by (by intros H; apply H). rewrite !filter_ne_absent; [| done |].
  - rewrite (Permutation_app_comm _ [b]). simpl. by rewrite Permutation_middle.
  - intros H1. apply (Hd b H1). apply list_elem_of_here.
Qed.

Lemma cache_ok_lru c l : cache_ok c -> l ≡ₚ lru c -> cache_ok (set_lru l c).
Proof using.
  intros Hc Hl. split; cbn [heap cache cache_size lru bdev_blocks set_lru]; try apply Hc.
  - rewrite Hl. apply Hc.
  - intros b. rewrite Hl. apply Hc.
  - rewrite (sizes_perm _ _ _ Hl). apply Hc.
Qed.

Lemma inc_and_return_spec c b x :
  cache_ok c -> heap c !! b = Some x ->
  exists c', inc_and_return b c = Done c' /\ cache_ok c' /\ heap c' = <[b := inc_refs x]> (heap c).
Proof using.
  intros Hc Hb. unfold inc_and_return, with_block, block_at. rewrite Hb. obind. eexists. split; [done|]. split; [|done].
  apply (cache_ok_lru (set_heap (<[b:=inc_refs x]> (heap c)) c)); [by apply (cache_ok_update c b x)|]. apply unlink_last; [apply Hc|].
  apply (co_lru_in c Hc). by exists x.
Qed.

Lemma find_in_spec c l d sec :
  (forall b, b ∈ l -> is_Some (heap c !! b)) ->
  exists r, find_in bdevs c l (dev (bdevs d)) sec = Done r /\
    match r with
    | Some b => exists x, heap c !! b = Some x /\ bdev x = d /\ sector x = sec
    | None => forall b x, b ∈ l -> heap c !! b = Some x -> ~ (bdev x = d /\ sector x = sec)
    end.
Proof using Hlay.
  induction l as [|b l IH]; intros Hl; simpl.
  { exists None. split; [done|]. intros b x Hb. by apply elem_of_nil in Hb. }
  destruct (Hl b (list_elem_of_here _ _)) as [x Hx]. unfold block_at. rewrite Hx. obind.
  destruct (Z.eqb_spec (dev (bdevs (bdev x))) (dev (bdevs d))) as [Ed|Ed]; simpl.
  - apply (lay_dev Hlay) in Ed. destruct (Z.eqb_spec (sector x) sec) as [Es|Es]; [by exists (Some b); eauto|].
    destruct IH as (r & -> & Hr); [intros; apply Hl; by apply list_elem_of_further|]. exists r. split; [done|]. destruct r; [done|].
    intros b' x' Hb'. apply elem_of_cons in Hb' as [->|Hb']; [|eauto]. intros. simplify_eq. tauto.
  - destruct IH as (r & -> & Hr); [intros; apply Hl; by apply list_elem_of_further|]. exists r. split; [done|]. destruct r; [done|].
    intros b' x' Hb'. apply elem_of_cons in Hb' as [->|Hb']; [|eauto]. intros Hx' [Hd _]. simplify_eq.
Qed.

Lemma find_block_spec c d sec :
  cache_ok c ->
  exists r, find_block bdevs c (dev (bdevs d)) sec = Done r /\
    match r with
    | Some b => exists x, heap c !! b = Some x /\ bdev x = d /\ sector x = sec
    | None => forall b x, heap c !! b = Some x -> ~ (bdev x = d /\ sector x = sec)
    end.
Proof using Hlay.
  intros Hc. destruct (find_in_spec c (bucket c (block_hash (dev (bdevs d)) sec)) d sec) as (r & E & Hr).
  { intros b Hb. apply (co_hash c Hc) in Hb as (x & Hx & _). by exists x. }
  exists r. split; [done|]. destruct r; [done|]. intros b x Hx [<- <-]. apply (Hr b x); [|done|done].
  apply (co_hash c Hc). by exists x.
Qed.

Lemma elem_of_unlink b c l : b ∈ unlink c l <-> b <> c /\ b ∈ l.
Proof using. unfold unlink. rewrite list_elem_of_filter. tauto. Qed.

Lemma NoDup_unlink c l : NoDup l -> NoDup (unlink c l).
Proof using. apply NoDup_filter. Qed.

Lemma bucket_insert (cc : gmap Z (list Z)) h l h' n u v w :
  bucket {| heap := u; cache := <[h := l]> cc; cache_size := n; lru := v; bdev_blocks := w |} h' =
  if decide (h = h') then l else default [] (cc !! h').
Proof using.
  unfold bucket. cbn [cache]. case_decide as E; [subst; by rewrite lookup_insert_eq | by rewrite lookup_insert_ne].
Qed.

Lemma blocks_insert (bb : gmap Z (list Z)) d l d' n u v w :
  blocks_of {| heap := u; cache := w; cache_size := n; lru := v; bdev_blocks := <[d := l]> bb |} d' =
  if decide (d = d') then l else default [] (bb !! d').
Proof using.
  unfold blocks_of. cbn [bdev_blocks]. case_decide as E; [subst; by rewrite lookup_insert_eq | by rewrite lookup_insert_ne].
Qed.

(** A block leaves the tables and its memory is freed. *)
Lemma uncache_delete_spec c b x :
  cache_ok c -> heap c !! b = Some x ->
  exists c1, block_uncache bdevs b c = Done c1 /\ cache_ok (block_delete b c1) /\ heap (block_delete b c1) = delete b (heap c).
Proof using Hlay.
  intros Hc Hb. unfold block_uncache, block_at. rewrite Hb. obind. eexists. split; [done|].
  set (c1 := {| heap := _ |}). split; [|done].
  assert (Hd : forall b' z, delete b (heap c) !! b' = Some z <-> b' <> b /\ heap c !! b' = Some z).
  { intros b' z. rewrite lookup_delete_Some. split; (intros [? ?]; split; [congruence | done]). }
  split; cbn [block_delete set_heap heap cache cache_size lru bdev_blocks c1].
  - intros h b'. unfold block_delete, set_heap, c1. cbn [heap cache cache_size lru bdev_blocks]. rewrite bucket_insert.
    assert (Hex : (exists z, delete b (heap c) !! b' = Some z /\ h = hash_of z) <->
      b' <> b /\ exists z, heap c !! b' = Some z /\ h = hash_of z).
    { split; [intros (z & [Hn Hz]%Hd & E); eauto | intros (Hn & z & Hz & E); exists z; rewrite Hd; auto]. }
    rewrite Hex, <- (co_hash c Hc). case_decide as Eh; [subst h; apply elem_of_unlink|].
    split; [|tauto]. intros Hin. split; [|done]. intros ->. apply (co_hash c Hc) in Hin as (z & Hz & ->). by simplify_eq.
  - intros h. unfold block_delete, set_heap, c1. cbn [heap cache cache_size lru bdev_blocks]. rewrite bucket_insert.
    case_decide; [apply NoDup_unlink|]; apply (co_nodup c Hc).
  - intros b1 x1 b2 x2 [_ H1]%Hd [_ H2]%Hd. by apply (co_key c Hc).
  - apply NoDup_unlink, Hc.
  - intros b'. rewrite elem_of_unlink, (co_lru_in c Hc). rewrite lookup_delete_is_Some. split; (intros [? ?]; split; [congruence | done]).
  - intros d b'. unfold block_delete, set_heap, c1. cbn [heap cache cache_size lru bdev_blocks]. rewrite blocks_insert.
    assert (Hex : (exists z, delete b (heap c) !! b' = Some z /\ bdev z = d) <-> b' <> b /\ exists z, heap c !! b' = Some z /\ bdev z = d).
    { split; [intros (z & [Hn Hz]%Hd & E); eauto | intros (Hn & z & Hz & E); exists z; rewrite Hd; auto]. }
    rewrite Hex, <- (co_dev c Hc). case_decide as Ed; [subst d; apply elem_of_unlink|].
    + split; [|tauto]. intros Hin. split; [|done]. intros ->.
      apply (co_dev c Hc) in Hin as (z & Hz & <-). by simplify_eq.
  - intros d. unfold block_delete, set_heap, c1. cbn [heap cache cache_size lru bdev_blocks]. rewrite blocks_insert.
    case_decide; [apply NoDup_unlink|]; apply (co_dev_nodup c Hc).
  - intros b' z [_ Hz]%Hd. by apply (co_block c Hc b').
  - rewrite (co_size c Hc). assert (Hl : b ∈ lru c) by (apply (co_lru_in c Hc); by exists x).
    rewrite <- (sizes_perm _ _ _ (unlink_last b (lru c) (co_lru c Hc) Hl)).
    assert (Happ : forall l, sizes (heap c) (l ++ [b]) = sizes (heap c) l + blk_size x).
    { induction l as [|y l IH]; simpl; [unfold size_at; rewrite Hb; lia|]. rewrite IH. lia. }
    rewrite Happ. rewrite (sizes_ext (heap c) (delete b (heap c))); [lia|].
    intros b' [Hne _]%elem_of_unlink. unfold size_at. by rewrite lookup_delete_ne.
Qed.

(** What a shrink does to the heap: it frees blocks that nobody uses and that
    are clean. *)
Definition shrunk (h h' : gmap Z block) : Prop := forall b,
  h' !! b = h !! b \/ h' !! b = None /\ exists x, h !! b = Some x /\ refs x = 0 /\ locked x = false /\ dirty x = false.

Lemma shrink_pass_spec l : forall c freed,
  cache_ok c -> NoDup l -> (forall b, b ∈ l -> is_Some (heap c !! b)) ->
  exists freed' c', shrink_pass bdevs c l freed = Done (freed', c') /\ cache_ok c' /\ shrunk (heap c) (heap c').
Proof using Hlay.
  induction l as [|b l IH]; intros c freed Hc Hn Hl; simpl.
  { exists freed, c. split; [done|]. split; [done|]. intros b. by left. }
  apply NoDup_cons in Hn as [Hb Hn]. destruct (Hl b (list_elem_of_here _ _)) as [x Hx]. unfold block_at. rewrite Hx. obind.
  assert (Hl' : forall b', b' ∈ l -> is_Some (heap c !! b')) by (intros; apply Hl; by apply list_elem_of_further).
  destruct (locked x) eqn:El; [by apply IH|]. destruct (Z.eqb_spec (refs x) 0) as [Er|Er]; cbn [negb]; [|by apply IH].
  destruct (dirty x) eqn:Ed; [by apply IH|].
  destruct (uncache_delete_spec c b x Hc Hx) as (c1 & -> & Hc1 & Eh). obind.
  assert (H1 : shrunk (heap c) (heap (block_delete b c1))).
  { intros b'. rewrite Eh. destruct (decide (b' = b)) as [->|]; [right | left; by rewrite lookup_delete_ne].
    rewrite lookup_delete_eq. split; [done|]. by exists x. }
  destruct (Z.leb_spec BLOCK_CACHE_SHRINK_SIZE (freed + blk_size x)); [by eexists _, _|].
  destruct (IH (block_delete b c1) (freed + blk_size x)) as (f' & c' & E & Hc' & H2); [done | done | |].
  { intros b' Hb'. rewrite Eh. rewrite lookup_delete_ne by (intros ->; done). by apply Hl'. }
  exists f', c'. split; [done|]. split; [done|]. intros b'. destruct (H2 b') as [-> | [-> (y & Hy & ?)]]; [apply H1|].
  right. split; [done|]. exists y. split; [|done]. rewrite Eh in Hy. by apply lookup_delete_Some in Hy as [_ Hy].
Qed.

Lemma unlink_out b l : b ∉ l -> unlink b l = l.
Proof using. apply filter_ne_absent. Qed.

Lemma block_uncache_at c b x : heap c !! b = Some x ->
  block_uncache bdevs b c = Done
    {| heap := heap c; cache := <[hash_of x := unlink b (bucket c (hash_of x))]> (cache c); cache_size := cache_size c - blk_size x;
       lru := unlink b (lru c); bdev_blocks := <[bdev x := unlink b (blocks_of c (bdev x))]> (bdev_blocks c) |}.
Proof using. intros Hx. unfold block_uncache, block_at. rewrite Hx. by obind. Qed.

(** A device none of whose blocks is in use is cleared completely. *)
Lemma dev_clear_spec d l : forall c,
  cache_ok c -> blocks_of c d = l ->
  (forall b x, b ∈ l -> heap c !! b = Some x -> refs x = 0 /\ locked x = false /\ dirty x = false) ->
  exists c', dev_clear bdevs c d l = Done c' /\ cache_ok c' /\
    forall b x, heap c' !! b = Some x <-> heap c !! b = Some x /\ bdev x <> d.
Proof using Hlay.
  induction l as [|b l IH]; intros c Hc El Hfree.
  { exists c. split_and!; [done | done|]. intros b x. split; [|tauto]. intros Hx. split; [done|]. intros Hd.
    assert (Hb : b ∈ blocks_of c d) by (apply (co_dev c Hc); by exists x). rewrite El in Hb. by apply elem_of_nil in Hb. }
  assert (Hb : b ∈ blocks_of c d) by (rewrite El; apply list_elem_of_here).
  apply (co_dev c Hc) in Hb as (x & Hx & Ed). destruct (Hfree b x (list_elem_of_here _ _) Hx) as (Er & Elk & Edi).
  pose proof (co_dev_nodup c Hc d) as Hnd. rewrite El in Hnd. apply NoDup_cons in Hnd as [Hbl Hnd].
  destruct (uncache_delete_spec c b x Hc Hx) as (c1 & E1 & Hc1 & Eh).
  rewrite (block_uncache_at c b x Hx) in E1. apply done_inj in E1.
  assert (Eu : unlink b (b :: l) = l) by (unfold unlink; rewrite filter_cons_False by (by intros []); by apply unlink_out).
  assert (E : block_uncache bdevs b (set_heap (<[b := set_locked true x]> (heap c)) (set_dev_blocks d l c)) =
    Done (set_heap (<[b := set_locked true x]> (heap c)) c1)).
  { rewrite (block_uncache_at _ b (set_locked true x)) by apply lookup_insert_eq. subst c1. unfold set_heap, set_dev_blocks, blocks_of, bucket in *.
    cbn [heap bdev_blocks bdev blk_size sector cache cache_size lru set_locked]. rewrite Ed, El, Eu, lookup_insert_eq, insert_insert_eq.
    cbn [default]. unfold id. by rewrite (unlink_out b l Hbl). }
  cbn [dev_clear]. unfold block_at. cbn [heap set_dev_blocks]. rewrite Hx. obind. rewrite Ed, Z.eqb_refl, Elk. cbn [negb].
  unfold with_block, block_at. cbn [heap set_dev_blocks]. rewrite Hx. obind. rewrite Er, Edi, E. cbn [negb Z.eqb]. obind.
  replace (block_delete b (set_heap (<[b := set_locked true x]> (heap c)) c1)) with (block_delete b c1).
  2:{ unfold block_delete, set_heap in *. cbn in *. by rewrite delete_insert_eq, <- Eh. }
  destruct (IH (block_delete b c1) Hc1) as (c' & -> & Hc' & Hin).
  - subst c1. unfold blocks_of in *. cbn [bdev_blocks block_delete set_heap]. by rewrite Ed, El, Eu, lookup_insert_eq.
  - intros b' y Hb' Hy. rewrite Eh in Hy. apply lookup_delete_Some in Hy as [_ Hy]. apply (Hfree b'); [by apply list_elem_of_further | done].
  - exists c'. split_and!; [done | done|]. intros b' y. rewrite Hin, Eh, lookup_delete_Some. split; [tauto|].
    intros [Hy Hne]. split_and!; [|done..]. intros ->. congruence.
Qed.

(** A new block enters the tables. *)
Lemma cache_new_spec c b d sec :
  cache_ok c -> heap c !! b = None -> in_dev d sec ->
  (forall b' x, heap c !! b' = Some x -> ~ (bdev x = d /\ sector x = sec)) ->
  exists c1, block_cache bdevs b (set_heap (<[b := block_new bdevs d sec]> (heap c)) c) = Done c1 /\
    exists c2, inc_and_return b c1 = Done c2 /\ cache_ok c2 /\ heap c2 = <[b := inc_refs (block_new bdevs d sec)]> (heap c).
Proof using Hlay.
  intros Hc Hb Hin Hkey. unfold block_cache, block_at. cbn [heap set_heap]. rewrite lookup_insert_eq. obind.
  set (x := block_new bdevs d sec). set (c1 := {| heap := _ |}). eexists. split; [done|].
  unfold inc_and_return, with_block, block_at. cbn [heap c1]. rewrite lookup_insert_eq. obind. eexists. split; [done|].
  cbn [set_lru set_heap heap lru]. rewrite insert_insert_eq. split; [|done].
  unfold set_lru, c1, set_heap. cbn [heap cache cache_size lru bdev_blocks].
  assert (Hlru : b ∉ lru c) by (intros H; apply (co_lru_in c Hc) in H as [y Hy]; congruence).
  assert (Eu : unlink b (lru c) = lru c) by (by apply filter_ne_absent).
  destruct (bs_sectors d) as (k & Hk & Ebs & _).
  assert (Hpos : 0 <= bs_of d) by (rewrite Ebs; assert (0 < 2 ^ shift d) by (apply Z.pow_pos_nonneg; [lia | apply (lay_size Hlay)]); nia).
  assert (Hex : forall b' (P : Z -> Z -> Prop), (exists z, <[b := inc_refs x]> (heap c) !! b' = Some z /\ P (bdev z) (sector z)) <->
    (b' = b /\ P d sec) \/ exists w, heap c !! b' = Some w /\ P (bdev w) (sector w)).
  { intros b' P. destruct (decide (b' = b)) as [->|Hne].
    - rewrite lookup_insert_eq, Hb. split; [intros (z & [= <-] & HP); by left | intros [[_ HP]|(w & ? & _)]; [by eexists | done]].
    - rewrite lookup_insert_ne by done. split; [by right | intros [[? _]|?]; done]. }
  split; cbn [heap cache cache_size lru bdev_blocks].
  - intros h b'. rewrite bucket_insert. rewrite (Hex b' (fun d' s' => h = block_hash (dev (bdevs d')) s')).
    pose proof (co_hash c Hc h b') as Hh. unfold hash_of in Hh. rewrite <- Hh. cbn [bdev sector x block_new].
    case_decide as Eh; [rewrite elem_of_cons; subst; tauto|]. unfold bucket. split; [tauto|]. intros [[_ ->]|]; [done | done].
  - intros h. rewrite bucket_insert. case_decide; [|apply (co_nodup c Hc)]. constructor; [|apply (co_nodup c Hc)].
    intros H0. apply (co_hash c Hc) in H0 as (z & Hz & _). congruence.
  - intros b1 x1 b2 x2. rewrite !lookup_insert_Some. intros [[<- <-]|[N1 H1]] [[<- <-]|[N2 H2]] Ed Es; try done.
    + exfalso. by apply (Hkey b2 x2).
    + exfalso. by apply (Hkey b1 x1).
    + by apply (co_key c Hc b1 x1 b2 x2).
  - rewrite Eu. apply NoDup_app. split_and!; [apply Hc | intros y Hy ->%list_elem_of_singleton; done | apply NoDup_singleton].
  - intros b'. rewrite Eu, elem_of_app, list_elem_of_singleton, (co_lru_in c Hc), lookup_insert_is_Some'. split; intros [?|?]; auto.
  - intros d' b'. rewrite (Hex b' (fun e _ => e = d')), <- (co_dev c Hc). rewrite blocks_insert. cbn [bdev x block_new].
    case_decide as Ed; [subst d'; rewrite elem_of_cons; tauto|].
    + split; [by right | intros [[_ ?]|?]; done].
  - intros d'. rewrite blocks_insert. cbn [bdev x block_new]. case_decide as Ed; [subst d'|].
    + constructor; [|apply (co_dev_nodup c Hc)]. intros H0. apply (co_dev c Hc) in H0 as (z & Hz & _). congruence.
    + apply (co_dev_nodup c Hc).
  - intros b' z. rewrite lookup_insert_Some. intros [[<- <-]|[_ Hz]]; [|by apply (co_block c Hc b')].
    cbn. split_and!; [done | done|]. rewrite length_replicate. lia.
  - rewrite Eu. rewrite (sizes_perm _ _ _ (Permutation_app_comm (lru c) [b])). simpl.
    unfold size_at at 1. rewrite lookup_insert_eq. cbn. rewrite (co_size c Hc).
    rewrite (sizes_ext (heap c) (<[b := inc_refs x]> (heap c))); [lia|]. intros b' Hb'. unfold size_at. rewrite lookup_insert_ne; [done|]. intros ->. done.
Qed.

(** * Updates of one block *)

(** [y] is [x] with another count of references or another lock. *)
Definition same_data (x y : block) : Prop :=
  bdev y = bdev x /\ sector y = sector x /\ blk_size y = blk_size x /\ data y = data x /\ dirty y = dirty x /\ valid y = valid x.

Lemma same_data_block x y : same_data x y -> same_block x y.
Proof using. intros (? & ? & ? & E & ? & ?). unfold same_block. by rewrite E. Qed.

Lemma content_meta h m L b x y : content_ok h m L -> h !! b = Some x -> same_data x y -> content_ok (<[b := y]> h) m L.
Proof using.
  intros [C1 C2 C3] Hb (E1 & E2 & E3 & E4 & E5 & E6). split.
  - intros b' z. rewrite lookup_insert_Some. intros [[<- <-]|[_ Hz]]; [rewrite E1, E2, E4, E6; by apply (C1 b) | by apply (C1 b')].
  - intros d sec Hin Hcl. apply C2; [done|]. intros b' z Hz Hd Hs. destruct (decide (b' = b)) as [->|Hne].
    + simplify_eq. rewrite <- E5. apply (Hcl b); [by rewrite lookup_insert_eq | done | done].
    + apply (Hcl b'); [by rewrite lookup_insert_ne | done | done].
  - intros b' z. rewrite lookup_insert_Some. intros [[<- <-]|[_ Hz]]; [rewrite E5, E6; by apply (C3 b) | by apply (C3 b')].
Qed.

Lemma counted_update h M K b x y M' K' :
  counted h M K -> h !! b = Some x ->
  refs y - refs x = cnt b M' - cnt b M ->
  (if locked y then 1 else 0) - (if locked x then 1 else 0) = cnt b K' - cnt b K ->
  (forall c, c <> b -> cnt c M' = cnt c M /\ cnt c K' = cnt c K) -> counted (<[b := y]> h) M' K'.
Proof using.
  intros HC Hb Hr Hk Ho c. destruct (decide (c = b)) as [->|Hne].
  - rewrite lookup_insert_eq. specialize (HC b). rewrite Hb in HC. lia.
  - rewrite lookup_insert_ne by done. specialize (HC c). destruct (Ho c Hne) as [-> ->]. done.
Qed.

(** [y] is the same block as [x], and no less valid. *)
Definition later (x y : block) : Prop := bdev y = bdev x /\ sector y = sector x /\ (valid x = true -> valid y = true).

(** What a point says survives as long as its blocks do. *)
Lemma point_ok_mono h h' q q' p :
  point_ok h q p ->
  (forall b x, b ∈ mentions p -> h !! b = Some x -> exists y, h' !! b = Some y /\ later x y) ->
  (forall b, b ∈ mentions p -> b ∈ q -> b ∈ q' \/ exists y, h' !! b = Some y /\ valid y = true) -> point_ok h' q' p.
Proof using.
  intros Hp Hv Hq.
  assert (Hk : forall d sec b, b ∈ mentions p -> keyed h d sec b -> keyed h' d sec b).
  { intros d sec b Hb (x & Hx & <- & <-). destruct (Hv b x Hb Hx) as (y & Hy & E1 & E2 & _). by exists y. }
  assert (Hval : forall d sec b, b ∈ mentions p -> is_valid h d sec b -> is_valid h' d sec b).
  { intros d sec b Hb (x & Hx & <- & <- & Ev). destruct (Hv b x Hb Hx) as (y & Hy & E1 & E2 & E3). exists y. split_and!; auto. }
  destruct p as [| |d sec sync|d sec sync|d sec b|d sec b|d sec b|d sec b|d sec b| | |]; try done; simpl in *;
    try (pose proof (list_elem_of_here b []) as Hb; auto).
  destruct Hp as [Hp|[Hp Hin]]; [auto|]. destruct (Hq b Hb Hin) as [?|(y & Hy & Ev)]; [auto|].
  left. destruct (Hk d sec b Hb Hp) as (z & Hz & E1 & E2). exists z. simplify_eq. done.
Qed.

Lemma mention_held s i p b : threads s !! i = Some p -> b ∈ mentions p -> b ∈ held s.
Proof using.
  intros Hi Hb. unfold held. apply elem_of_app. left. apply list_elem_of_bind. exists p. split; [done|].
  by apply list_elem_of_lookup_2 in Hi.
Qed.

Lemma held_block m0 s b : ok m0 s -> b ∈ held s -> exists x, heap (bc s) !! b = Some x /\ refs x <> 0.
Proof using.
  intros Hok Hb. pose proof (ok_counted _ _ Hok b) as HC. apply cnt_in in Hb.
  destruct (heap (bc s) !! b) as [x|]; [exists x; split; [done | lia] | lia].
Qed.

(** No block becomes dirty, and a dirty block stays with its driver. *)
Definition tame (s s' : sys) : Prop := forall b y, heap (bc s') !! b = Some y -> dirty y = true ->
  (exists x, heap (bc s) !! b = Some x /\ dirty x = true) /\ (b ∈ queue s -> b ∈ queue s').

Definition good (m0 : media) (s s' : sys) : Prop := ok m0 s' /\ tame s s'.

(** One task goes on; at most one block is touched, and only its count and its
    lock. *)
Lemma meta_step m0 s s' i p p' b x y :
  ok m0 s -> threads s !! i = Some p -> heap (bc s) !! b = Some x -> same_data x y ->
  cache_ok (bc s') -> heap (bc s') = <[b := y]> (heap (bc s)) ->
  threads s' = <[i := p']> (threads s) -> disks s' = disks s -> log s' = log s ->
  refs y - refs x = cnt b (mentions p') + cnt b (queue s') - cnt b (mentions p) - cnt b (queue s) ->
  (if locked y then 1 else 0) - (if locked x then 1 else 0) =
    cnt b (lockers p') + cnt b (queue s') - cnt b (lockers p) - cnt b (queue s) ->
  (forall c, c <> b -> cnt c (mentions p') + cnt c (queue s') = cnt c (mentions p) + cnt c (queue s) /\
    cnt c (lockers p') + cnt c (queue s') = cnt c (lockers p) + cnt c (queue s)) ->
  (forall c, c ∈ queue s' -> c ∈ queue s \/ c = b /\ (valid x = true -> dirty x = true)) ->
  (forall c, c ∈ queue s -> c ∈ queue s') ->
  point_ok (<[b := y]> (heap (bc s))) (queue s') p' -> good m0 s s'.
Proof using Hlay.
  intros Hok Hi Hb Hsd Hc' Eh Et Ed El Hr Hk Ho Hq1 Hq2 Hp'. pose proof Hsd as (E1 & E2 & E3 & E4 & E5 & E6).
  assert (EM : forall c, cnt c (held s') = cnt c (held s) - cnt c (mentions p) + cnt c (mentions p') - cnt c (queue s) + cnt c (queue s')).
  { intros c. unfold held. rewrite !cnt_app, Et, (cnt_threads mentions _ i p p' c Hi). lia. }
  assert (EK : forall c, cnt c (locks s') = cnt c (locks s) - cnt c (lockers p) + cnt c (lockers p') - cnt c (queue s) + cnt c (queue s')).
  { intros c. unfold locks. rewrite !cnt_app, Et, (cnt_threads lockers _ i p p' c Hi). lia. }
  split.
  2: { intros c z. rewrite Eh, lookup_insert_Some. intros [[<- <-]|[_ Hz]] Hd; (split; [|apply Hq2]); [exists x; by rewrite <- E5 | by exists z]. }
  split; [done | | | |].
  - rewrite Eh. apply (counted_update _ (held s) (locks s) b x y); [apply Hok | done | rewrite EM; lia | rewrite EK; lia |].
    intros c Hc. rewrite EM, EK. destruct (Ho c Hc). lia.
  - rewrite Eh, Ed, El. apply (content_meta _ _ _ b x); [apply Hok | done | done].
  - rewrite Eh. intros c z Hc. rewrite lookup_insert_Some. destruct (Hq1 c Hc) as [Hin|[-> Hx]].
    + intros [[<- <-]|[_ Hz]] Hv; [rewrite E5; rewrite E6 in Hv; by apply (ok_queue _ _ Hok b x) | by apply (ok_queue _ _ Hok c z)].
    + intros [[_ <-]|[? _]] Hv; [rewrite E5; rewrite E6 in Hv; auto | done].
  - rewrite Eh, Et. intros j pj. rewrite list_lookup_insert_Some. intros [(<- & <- & _)|[_ Hj]]; [done|].
    apply (point_ok_mono (heap (bc s)) _ (queue s)); [by apply (ok_points _ _ Hok j) | | intros c _ Hc; left; auto].
    intros c z _ Hz. destruct (decide (c = b)) as [->|Hne].
    + simplify_eq. exists y. rewrite lookup_insert_eq. unfold later. by rewrite E6.
    + exists z. by rewrite lookup_insert_ne.
Qed.

(** A task goes on and touches no block. *)
Lemma idle_step m0 s s' i p p' :
  ok m0 s -> threads s !! i = Some p -> bc s' = bc s -> threads s' = <[i := p']> (threads s) -> disks s' = disks s ->
  log s' = log s -> queue s' = queue s -> (forall c, cnt c (mentions p') = cnt c (mentions p)) -> lockers p' = lockers p ->
  point_ok (heap (bc s)) (queue s) p' -> good m0 s s'.
Proof using Hlay.
  intros Hok Hi Ec Et Ed El Eq HM HK Hp'. split; [|intros c z; rewrite Ec, Eq; eauto].
  split; rewrite ?Ec, ?Ed, ?El, ?Eq; try apply Hok.
  - intros b. pose proof (ok_counted _ _ Hok b) as HC. unfold held, locks in *. rewrite !cnt_app in *.
    rewrite Et, Eq, (cnt_threads mentions _ i p p' b Hi), (cnt_threads lockers _ i p p' b Hi), HM, HK.
    destruct (heap (bc s) !! b); lia.
  - rewrite Et. intros j pj. rewrite list_lookup_insert_Some. intros [(<- & <- & _)|[_ Hj]]; [done | by apply (ok_points _ _ Hok j)].
Qed.

(** * Other changes of the cache *)

Lemma shrink_step m0 s s' i p p' :
  ok m0 s -> threads s !! i = Some p -> cache_ok (bc s') -> shrunk (heap (bc s)) (heap (bc s')) ->
  threads s' = <[i := p']> (threads s) -> disks s' = disks s -> log s' = log s -> queue s' = queue s ->
  mentions p = [] -> mentions p' = [] -> lockers p = [] -> lockers p' = [] ->
  point_ok (heap (bc s')) (queue s) p' -> good m0 s s'.
Proof using Hlay.
  intros Hok Hi Hc' Hsh Et Ed El Eq M1 M2 K1 K2 Hp'.
  assert (EM : forall c, cnt c (held s') = cnt c (held s)).
  { intros c. unfold held. rewrite !cnt_app, Et, Eq, (cnt_threads mentions _ i p p' c Hi), M1, M2. lia. }
  assert (EK : forall c, cnt c (locks s') = cnt c (locks s)).
  { intros c. unfold locks. rewrite !cnt_app, Et, Eq, (cnt_threads lockers _ i p p' c Hi), K1, K2. lia. }
  assert (Hkeep : forall b, b ∈ held s -> heap (bc s') !! b = heap (bc s) !! b).
  { intros b Hb. destruct (Hsh b) as [|[_ (x & Hx & Hr & _)]]; [done|].
    destruct (held_block m0 s b Hok Hb) as (y & Hy & Hne). simplify_eq. }
  assert (Hold : forall b x, heap (bc s') !! b = Some x -> heap (bc s) !! b = Some x).
  { intros b x Hx. destruct (Hsh b) as [E|[E _]]; congruence. }
  split; [|intros c z Hz; rewrite Eq; eauto].
  split; [done | | | |].
  - intros b. rewrite EM, EK. pose proof (ok_counted _ _ Hok b) as HC. destruct (Hsh b) as [->|[-> (x & Hx & Hr & Hl & _)]]; [done|].
    rewrite Hx, Hl in HC. lia.
  - rewrite Ed, El. destruct (ok_content _ _ Hok) as [C1 C2 C3]. split; [eauto | | eauto].
    intros d sec Hin Hcl. apply C2; [done|]. intros b x Hx. destruct (Hsh b) as [E|[_ (y & Hy & _ & _ & Hd)]]; [|intros; by simplify_eq].
    rewrite <- E in Hx. by apply (Hcl b).
  - rewrite Eq. intros b x Hb Hx. apply (ok_queue _ _ Hok b x); eauto.
  - rewrite Et, Eq. intros j pj. rewrite list_lookup_insert_Some. intros [(<- & <- & _)|[_ Hj]]; [done|].
    apply (point_ok_mono (heap (bc s)) _ (queue s)); [by apply (ok_points _ _ Hok j) | | auto].
    intros c z Hc Hz. exists z. rewrite Hkeep; [done|]. by apply (mention_held s j pj).
Qed.

Lemma new_step m0 s s' i p p' b x :
  ok m0 s -> threads s !! i = Some p -> heap (bc s) !! b = None -> cache_ok (bc s') ->
  heap (bc s') = <[b := x]> (heap (bc s)) -> refs x = 1 -> locked x = false -> valid x = false -> dirty x = false ->
  threads s' = <[i := p']> (threads s) -> disks s' = disks s -> log s' = log s -> queue s' = queue s ->
  mentions p = [] -> mentions p' = [b] -> lockers p = [] -> lockers p' = [] ->
  point_ok (heap (bc s')) (queue s) p' -> good m0 s s'.
Proof using Hlay.
  intros Hok Hi Hb Hc' Eh Er Elk Ev Edt Et Ed El Eq M1 M2 K1 K2 Hp'.
  assert (EM : forall c, cnt c (held s') = cnt c (held s) + cnt c [b]).
  { intros c. unfold held. rewrite !cnt_app, Et, Eq, (cnt_threads mentions _ i p p' c Hi), M1, M2. rewrite cnt_nil. lia. }
  assert (EK : forall c, cnt c (locks s') = cnt c (locks s)).
  { intros c. unfold locks. rewrite !cnt_app, Et, Eq, (cnt_threads lockers _ i p p' c Hi), K1, K2. lia. }
  assert (Hne : forall b' z, heap (bc s) !! b' = Some z -> heap (bc s') !! b' = Some z).
  { intros b' z Hz. rewrite Eh, lookup_insert_ne; [done|]. intros ->. congruence. }
  assert (Hinv : forall b' z, heap (bc s') !! b' = Some z -> (b' = b /\ z = x) \/ heap (bc s) !! b' = Some z).
  { intros b' z. rewrite Eh, lookup_insert_Some. intros [[<- <-]|[_ Hz]]; auto. }
  split; [|intros c z [[-> ->]|Hz]%Hinv; rewrite ?Eq; [congruence | eauto]].
  split; [done | | | |].
  - intros c. rewrite EM, EK, Eh, cnt_cons, cnt_nil. pose proof (ok_counted _ _ Hok c) as HC. destruct (decide (b = c)) as [<-|Hbc].
    + rewrite lookup_insert_eq. rewrite Hb in HC. rewrite Elk. lia.
    + rewrite lookup_insert_ne by done. destruct (heap (bc s) !! c); lia.
  - rewrite Ed, El. destruct (ok_content _ _ Hok) as [C1 C2 C3]. split.
    + intros b' z [[-> ->]|Hz]%Hinv; [congruence | by apply (C1 b')].
    + intros d sec Hin Hcl. apply C2; [done|]. intros b' z Hz. apply (Hcl b'). by apply Hne.
    + intros b' z [[-> ->]|Hz]%Hinv; [congruence | by apply (C3 b')].
  - rewrite Eq. intros b' z Hb' [[-> ->]|Hz]%Hinv; [congruence | by apply (ok_queue _ _ Hok b')].
  - rewrite Et, Eq. intros j pj. rewrite list_lookup_insert_Some. intros [(<- & <- & _)|[_ Hj]]; [done|].
    apply (point_ok_mono (heap (bc s)) _ (queue s)); [by apply (ok_points _ _ Hok j) | | auto].
    intros c z _ Hz. exists z. split; [by apply Hne | done].
Qed.

(** [h'] is [h] with one more reference to each block of [l]. *)
Definition referenced (l : list Z) (h h' : gmap Z block) : Prop := forall b,
  match h !! b with
  | Some x => exists y, h' !! b = Some y /\ same_data x y /\ locked y = locked x /\ refs y = refs x + cnt b l
  | None => h' !! b = None
  end.

Lemma collect_spec l : forall c,
  cache_ok c -> (forall b, b ∈ l -> is_Some (heap c !! b)) ->
  exists bs c', collect c l = Done (bs, c') /\ cache_ok c' /\ referenced bs (heap c) (heap c') /\ (NoDup l -> NoDup bs) /\
    forall b, b ∈ bs <-> b ∈ l /\ exists x, heap c !! b = Some x /\ valid x = true /\ dirty x = true.
Proof using Hlay.
  induction l as [|b l IH]; intros c Hc Hl; simpl.
  { exists [], c. split_and!; try done.
    - intros b. destruct (heap c !! b) as [x|]; [|done]. exists x. rewrite cnt_nil, Z.add_0_r. done.
    - intros b. rewrite elem_of_nil. tauto. }
  destruct (Hl b (list_elem_of_here _ _)) as [x Hx]. unfold block_at at 1. rewrite Hx. obind.
  assert (Hl' : forall b', b' ∈ l -> is_Some (heap c !! b')) by (intros; apply Hl; by apply list_elem_of_further).
  destruct (valid x && dirty x) eqn:Evd.
  - unfold with_block, block_at. rewrite Hx. obind. set (c1 := set_heap _ c).
    destruct (IH c1) as (bs & c' & -> & Hc' & Href & Hnd & Hin).
    { by apply (cache_ok_update c b x). }
    { intros b' Hb'. unfold c1. cbn [heap set_heap]. rewrite lookup_insert_is_Some'. right. by apply Hl'. }
    obind. exists (b :: bs), c'. split; [done|]. split; [done|].
    assert (Hsame : forall b', (exists z, heap c1 !! b' = Some z /\ valid z = true /\ dirty z = true) <->
      exists z, heap c !! b' = Some z /\ valid z = true /\ dirty z = true).
    { intros b'. unfold c1. cbn [heap set_heap]. destruct (decide (b' = b)) as [->|Hne]; [|by rewrite lookup_insert_ne].
      rewrite lookup_insert_eq, Hx. split; intros (z & [= <-] & ?); by eexists. }
    split_and!.
    + intros b'. specialize (Href b'). unfold c1 in Href. cbn [heap set_heap] in Href. rewrite cnt_cons.
      destruct (decide (b = b')) as [<-|Hne].
      * rewrite lookup_insert_eq in Href. rewrite Hx. destruct Href as (y & Hy & Hsd & Elk & Er). exists y.
        split; [done|]. split; [exact Hsd|]. split; [exact Elk|]. rewrite Er. simpl. lia.
      * by rewrite lookup_insert_ne in Href.
    + intros [Hb Hn]%NoDup_cons. constructor; [|auto]. intros H. apply Hin in H as [H _]. done.
    + intros b'. rewrite !elem_of_cons, Hin, Hsame. split; [intros [->|?]|intros [[->|?] ?]]; try tauto.
      split; [by left|]. exists x. apply andb_prop in Evd. done.
  - destruct (IH c Hc Hl') as (bs & c' & -> & Hc' & Href & Hnd & Hin). exists bs, c'. split_and!; try done.
    + intros [_ Hn]%NoDup_cons. auto.
    + intros b'. rewrite Hin, elem_of_cons. split; [tauto|]. intros [[->|?] Hz]; [|done].
      destruct Hz as (z & Hz & Hv & Hdt). simplify_eq. by rewrite Hv, Hdt in Evd.
Qed.

Lemma collect_step m0 s s' i p p' bs :
  ok m0 s -> threads s !! i = Some p -> cache_ok (bc s') -> referenced bs (heap (bc s)) (heap (bc s')) ->
  (forall b, b ∈ bs -> is_Some (heap (bc s) !! b)) ->
  threads s' = <[i := p']> (threads s) -> disks s' = disks s -> log s' = log s -> queue s' = queue s ->
  mentions p = [] -> mentions p' = bs -> lockers p = [] -> lockers p' = [] ->
  point_ok (heap (bc s')) (queue s) p' -> good m0 s s'.
Proof using Hlay.
  intros Hok Hi Hc' Href Hin Et Ed El Eq M1 M2 K1 K2 Hp'.
  assert (EM : forall c, cnt c (held s') = cnt c (held s) + cnt c bs).
  { intros c. unfold held. rewrite !cnt_app, Et, Eq, (cnt_threads mentions _ i p p' c Hi), M1, M2. rewrite cnt_nil. lia. }
  assert (EK : forall c, cnt c (locks s') = cnt c (locks s)).
  { intros c. unfold locks. rewrite !cnt_app, Et, Eq, (cnt_threads lockers _ i p p' c Hi), K1, K2. lia. }
  assert (Hinv : forall b y, heap (bc s') !! b = Some y -> exists x, heap (bc s) !! b = Some x /\ same_data x y).
  { intros b y Hy. specialize (Href b). destruct (heap (bc s) !! b) as [x|]; [|congruence].
    destruct Href as (z & Hz & Hsd & _). exists x. split; [done|]. by simplify_eq. }
  split; [|intros c z (x & Hx & _ & _ & _ & _ & E5 & _)%Hinv; rewrite E5, Eq; eauto].
  split; [done | | | |].
  - intros b. rewrite EM, EK. pose proof (ok_counted _ _ Hok b) as HC. specialize (Href b). destruct (heap (bc s) !! b) as [x|] eqn:Hx.
    + destruct Href as (y & -> & _ & -> & ->). lia.
    + rewrite Href. rewrite (cnt_out b bs); [lia|]. intros Hb. destruct (Hin b Hb). congruence.
  - rewrite Ed, El. destruct (ok_content _ _ Hok) as [C1 C2 C3]. split.
    + intros b y (x & Hx & E1 & E2 & _ & E4 & _ & E6)%Hinv Hv. rewrite E1, E2, E4. apply (C1 b); [done | by rewrite <- E6].
    + intros d sec Hd Hcl. apply C2; [done|]. intros b x Hx Hbd Hs. specialize (Href b). rewrite Hx in Href.
      destruct Href as (y & Hy & (E1 & E2 & _ & _ & E5 & _) & _). rewrite <- E5. apply (Hcl b); congruence.
    + intros b y (x & Hx & _ & _ & _ & _ & E5 & E6)%Hinv Hd. rewrite E6. apply (C3 b); [done | by rewrite <- E5].
  - rewrite Eq. intros b y Hb (x & Hx & _ & _ & _ & _ & E5 & E6)%Hinv Hv. rewrite E5. apply (ok_queue _ _ Hok b x); [done | done | by rewrite <- E6].
  - rewrite Et, Eq. intros j pj. rewrite list_lookup_insert_Some. intros [(<- & <- & _)|[_ Hj]]; [done|].
    apply (point_ok_mono (heap (bc s)) _ (queue s)); [by apply (ok_points _ _ Hok j) | | auto].
    intros c z _ Hz. specialize (Href c). rewrite Hz in Href. destruct Href as (y & Hy & (E1 & E2 & _ & _ & _ & E6) & _).
    exists y. unfold later. by rewrite E6.
Qed.

Lemma latest_cons m0 l d sec bs d' sec' :
  latest m0 ((d, sec, bs) :: l) d' sec' = if decide ((d', sec') = (d, sec)) then bs else latest m0 l d' sec'.
Proof using.
  unfold latest. cbn [list_find]. destruct (decide ((d', sec') = (d, sec))) as [E|E].
  - rewrite decide_True by (simpl; congruence). done.
  - rewrite decide_False by (simpl; congruence). by destruct (list_find _ l) as [[? ?]|].
Qed.

(** A block that a task has locked is not with a driver. *)
Lemma locked_not_queued m0 s i d sec b : ok m0 s -> threads s !! i = Some (Locked d sec b) -> b ∉ queue s.
Proof using.
  intros Hok Hi Hq. pose proof (ok_counted _ _ Hok b) as HC. unfold locks in HC. rewrite cnt_app in HC.
  assert (H1 : 1 <= cnt b (threads s ≫= lockers)).
  { apply cnt_in, list_elem_of_bind. exists (Locked d sec b). split; [apply list_elem_of_here | by apply list_elem_of_lookup_2 in Hi]. }
  apply cnt_in in Hq. destruct (heap (bc s) !! b) as [x|]; [destruct (locked x)|]; lia.
Qed.

Lemma write_step m0 s i d sec b x bs :
  ok m0 s -> threads s !! i = Some (Locked d sec b) -> heap (bc s) !! b = Some x -> valid x = true ->
  Z.of_nat (length bs) = blk_size x ->
  ok m0 (logged i (set_heap (<[b := block_mark_dirty (set_data bs x)]> (heap (bc s))) (bc s)) x bs s).
Proof using Hlay.
  intros Hok Hi Hb Hv Hl. destruct (co_block _ (ok_cache _ _ Hok) b x Hb) as (Hin & _ & Hlen). set (y := block_mark_dirty _).
  assert (Hkey : forall b' z, heap (bc s) !! b' = Some z -> b' <> b -> (bdev z, sector z) <> (bdev x, sector x)).
  { intros b' z Hz Hne E. injection E as E1 E2. by apply Hne, (co_key _ (ok_cache _ _ Hok) b' z b x). }
  destruct (ok_content _ _ Hok) as [C1 C2 C3]. split; cbn [logged bc disks queue threads log set_heap heap].
  - apply (cache_ok_update _ b x); [apply Hok | done |]. unfold same_block. cbn. split_and!; try done. lia.
  - intros c. pose proof (ok_counted _ _ Hok c) as HC. unfold held, locks in *. cbn [threads queue].
    destruct (decide (c = b)) as [->|Hne]; [rewrite lookup_insert_eq; by rewrite Hb in HC | by rewrite lookup_insert_ne].
  - split.
    + intros b' z. rewrite lookup_insert_Some. intros [[<- <-]|[Hne Hz]] Hvz; rewrite latest_cons.
      * by rewrite decide_True by done.
      * rewrite decide_False by (by apply (Hkey b')). by apply (C1 b').
    + intros d' sec' Hd Hcl. rewrite latest_cons. destruct (decide ((d', sec') = (bdev x, sector x))) as [[= -> ->]|Hne].
      * specialize (Hcl b y). rewrite lookup_insert_eq in Hcl. by specialize (Hcl eq_refl eq_refl eq_refl).
      * apply C2; [done|]. intros b' z Hz Ed Es. apply (Hcl b'); [|done|done]. rewrite lookup_insert_ne; [done|].
        intros <-. simplify_eq.
    + intros b' z. rewrite lookup_insert_Some. intros [[<- <-]|[Hne Hz]]; [done | by apply (C3 b')].
  - intros b' z Hq. rewrite lookup_insert_Some. intros [[<- <-]|[Hne Hz]]; [done | by apply (ok_queue _ _ Hok b')].
  - intros j pj Hj. apply (point_ok_mono (heap (bc s)) _ (queue s)); [by apply (ok_points _ _ Hok j) | | auto].
    intros c z _ Hz. destruct (decide (c = b)) as [->|Hne]; [|exists z; by rewrite lookup_insert_ne].
    simplify_eq. exists y. by rewrite lookup_insert_eq.
Qed.

Lemma complete_step m0 s b :
  ok m0 s -> b ∈ queue s -> exists s', complete bdevs s b = Done (Some s') /\ good m0 s s' /\ log s' = log s.
Proof using Hlay.
  intros Hok Hq. destruct (held_block m0 s b Hok) as (x & Hb & _); [unfold held; apply elem_of_app; by right|].
  unfold complete. rewrite bool_decide_eq_true_2 by done. unfold with_block, block_at. rewrite Hb. obind.
  eexists. split; [done|]. split; [|done]. destruct (co_block _ (ok_cache _ _ Hok) b x Hb) as (Hin & Ebs & Hlen).
  destruct (ok_content _ _ Hok) as [C1 C2 C3].
  set (bs := if dirty x then data x else _). set (y := dec_refs _).
  assert (Hkey : forall b' z, heap (bc s) !! b' = Some z -> b' <> b -> (bdev z, sector z) <> (bdev x, sector x)).
  { intros b' z Hz Hne E. injection E as E1 E2. by apply Hne, (co_key _ (ok_cache _ _ Hok) b' z b x). }
  assert (Hbs : bs = latest m0 (log s) (bdev x) (sector x) /\ Z.of_nat (length bs) = blk_size x).
  { unfold bs. destruct (dirty x) eqn:Ed; [split; [apply (C1 b); [done | by apply (C3 b)] | done]|].
    rewrite byte_offset_spec, Ebs by done. split; [|apply disk_read_length; lia]. apply C2; [done|].
    intros b' z Hz E1 E2. destruct (decide (b' = b)) as [->|Hne]; [congruence|]. by destruct (Hkey b' z Hz Hne); congruence. }
  destruct Hbs as [Hbs Hbl].
  assert (Hcq : cnt b (queue s) = 1 /\ locked x = true).
  { pose proof (ok_counted _ _ Hok b) as HC. rewrite Hb in HC. unfold locks in HC. rewrite cnt_app in HC. apply cnt_in in Hq.
    pose proof (cnt_nonneg b (threads s ≫= lockers)). destruct (locked x); lia. }
  destruct Hcq as [Hcq Hlk]. split.
  2: { intros c z. cbn [bc queue set_heap heap]. rewrite lookup_insert_Some. intros [[<- <-]|[Hne Hz]] Hd; [done|].
       split; [by exists z|]. intros Hc. by apply elem_of_unlink. }
  split; cbn [bc disks queue threads log set_heap heap].
  - apply (cache_ok_update _ b x); [apply Hok | done |]. unfold same_block. cbn. split_and!; try done. lia.
  - apply (counted_update _ (held s) (locks s) b x y); [apply Hok | done | | |]; unfold held, locks; cbn [threads queue].
    + rewrite !cnt_app, cnt_unlink, decide_True by done. cbn. lia.
    + rewrite !cnt_app, cnt_unlink, decide_True, Hlk by done. cbn. lia.
    + intros c Hc. rewrite !cnt_app, cnt_unlink, decide_False by done. lia.
  - split.
    + intros b' z. rewrite lookup_insert_Some. intros [[<- <-]|[Hne Hz]] Hv; [done | by apply (C1 b')].
    + intros d sec Hd Hcl. destruct (decide ((d, sec) = (bdev x, sector x))) as [[= -> ->]|Hne].
      * unfold bs in Hbs. destruct (dirty x) eqn:Ed.
        -- destruct (stored_write (disks s) x Hin Ebs Hlen) as [-> _]. done.
        -- rewrite <- Hbs. unfold stored. by rewrite byte_offset_spec, Ebs by done.
      * transitivity (stored (disks s) d sec).
        { destruct (dirty x); [|done]. destruct (stored_write (disks s) x Hin Ebs Hlen) as [_ Ho]. by apply Ho. }
        apply C2; [done|]. intros b' z Hz E1 E2. apply (Hcl b'); [|done|done]. rewrite lookup_insert_ne; [done|].
        intros <-. simplify_eq.
    + intros b' z. rewrite lookup_insert_Some. intros [[<- <-]|[Hne Hz]]; [done | by apply (C3 b')].
  - intros b' z [Hne Hb']%elem_of_unlink. rewrite lookup_insert_ne by done. by apply (ok_queue _ _ Hok b').
  - intros j pj Hj. apply (point_ok_mono (heap (bc s)) _ (queue s)); [by apply (ok_points _ _ Hok j) | |].
    + intros c z _ Hz. destruct (decide (c = b)) as [->|Hne]; [|exists z; by rewrite lookup_insert_ne].
      simplify_eq. exists y. by rewrite lookup_insert_eq.
    + intros c _ Hc. destruct (decide (c = b)) as [->|Hne]; [right; exists y; by rewrite lookup_insert_eq | left; by apply elem_of_unlink].
Qed.

(** * Every step *)

Lemma find_step m0 s i p d sec b :
  ok m0 s -> threads s !! i = Some p -> keyed (heap (bc s)) d sec b -> mentions p = [] -> lockers p = [] ->
  exists c, inc_and_return b (bc s) = Done c /\ good m0 s (at_ s i c (Check d sec b)).
Proof using Hlay.
  intros Hok Hi (x & Hb & Ed & Es) M1 K1. destruct (inc_and_return_spec (bc s) b x (ok_cache _ _ Hok) Hb) as (c & -> & Hc & Eh).
  exists c. split; [done|]. apply (meta_step m0 s _ i p (Check d sec b) b x (inc_refs x)); try done; cbn [at_ queue mentions lockers inc_refs set_refs refs locked].
  - rewrite M1, cnt_nil, cnt_cons, decide_True by done. rewrite cnt_nil. lia.
  - rewrite K1. lia.
  - intros c' Hne. rewrite M1, K1, cnt_cons, decide_False by done. rewrite !cnt_nil. lia.
  - intros c' Hc'. by left.
  - exists (inc_refs x). by rewrite lookup_insert_eq.
Qed.

Lemma shrink_ok m0 s i p want :
  ok m0 s -> threads s !! i = Some p -> mentions p = [] -> lockers p = [] -> cont_ok (KShrink want 0) ->
  exists s', shrink bdevs s i want = Done (Some s') /\ good m0 s s' /\ log s' = log s.
Proof using Hlay.
  intros Hok Hi M1 K1 Hw. unfold shrink. pose proof (ok_cache _ _ Hok) as Hc.
  destruct (shrink_pass_spec (lru (bc s)) (bc s) 0 Hc (co_lru _ Hc)) as (fr & c' & -> & Hc' & Hsh); [apply (co_lru_in _ Hc)|].
  obind. eexists. split; [done|]. split; [|done].
  apply (shrink_step m0 s _ i p (if fr <? BLOCK_CACHE_SHRINK_SIZE then Sync None true (KShrink want fr) else shrunk_for want));
    try done; destruct (fr <? _); try done; by destruct want as [[[d sec] sync]|].
Qed.

Lemma finish_ok m0 s i p k :
  ok m0 s -> threads s !! i = Some p -> mentions p = [] -> lockers p = [] -> cont_ok k ->
  exists s', finish bdevs s i k = Done (Some s') /\ good m0 s s' /\ log s' = log s.
Proof using Hlay.
  intros Hok Hi M1 K1 Hk. unfold finish. destruct k as [|want freed].
  - eexists. split; [done|]. split; [|done]. apply (idle_step m0 s _ i p Idle); try done. intros c. by rewrite M1.
  - pose proof (ok_cache _ _ Hok) as Hc.
    destruct (shrink_pass_spec (lru (bc s)) (bc s) freed Hc (co_lru _ Hc)) as (fr & c' & -> & Hc' & Hsh); [apply (co_lru_in _ Hc)|].
    obind. eexists. split; [done|]. split; [|done].
    apply (shrink_step m0 s _ i p (shrunk_for want)); try done; by destruct want as [[[d sec] sync]|].
Qed.

Lemma ok_sync_lock m0 s l : ok m0 s -> ok m0 (set_sync_lock l s).
Proof using. intros []. by split. Qed.

Lemma good_sync_lock m0 s s' l : good m0 s s' -> good m0 s (set_sync_lock l s').
Proof using. intros [H1 H2]. split; [by apply ok_sync_lock | done]. Qed.

(** Locking a block and submitting it. *)
Lemma submit_spec b x c q :
  heap c !! b = Some x -> locked x = false ->
  exists y c' q', (c ← with_block (set_locked true) b c; block_submit b c q) = Done (c', q') /\
    (cache_ok c -> cache_ok c') /\ heap c' = <[b := y]> (heap c) /\ same_data x y /\
    ((y = x /\ q' = q /\ valid x = true /\ dirty x = false) \/
     (refs y = refs x + 1 /\ locked y = true /\ q' = q ++ [b] /\ (valid x = true -> dirty x = true))).
Proof using.
  intros Hb Hl. unfold block_submit, with_block, block_at. rewrite Hb. obind. cbn [heap set_heap]. rewrite lookup_insert_eq. obind.
  cbn [valid dirty set_locked]. destruct (valid x) eqn:Ev; [destruct (dirty x) eqn:Ed|]; cbn [andb negb]; obind.
  2: { exists x. eexists _, _. split; [done|]. cbn [heap set_heap]. rewrite insert_insert_eq.
       assert (set_locked false (set_locked true x) = x) as -> by (clear -Hl; destruct x; simpl in *; by subst).
       split; [|split; [done|]; split; [done|]; left; done]. intros Hc. by apply (cache_ok_update c b x). }
  all: exists (inc_refs (set_locked true x)); eexists _, _; (split; [done|]); cbn [heap set_heap]; rewrite insert_insert_eq;
    (split; [|split; [done|]; split; [done|]; right; split_and!; done]); intros Hc; by apply (cache_ok_update c b x).
Qed.

(** A task in a sync that finds a block of its list clean: see
    [sync_drops_reference]. *)
Definition skips (s : sys) (l : label) : bool :=
  match l with
  | LRun i _ =>
      match threads s !! i with
      | Some (SyncSubmit None _ (b :: _) _ _) =>
          match heap (bc s) !! b with Some x => negb (locked x) && negb (valid x && dirty x) | None => false end
      | _ => false
      end
  | _ => false
  end.

(** Callers ask for sectors of the device and do not fill blocks by hand. *)
Definition legal (l : label) : Prop :=
  match l with
  | LGet _ d sec sync => in_dev d sec /\ sync = true
  | LFill _ _ => False
  | _ => True
  end.

(** A step that does not fault and keeps the invariant and the writes. *)
Definition steps_to (m0 : media) (s : sys) (r : outcome (option sys)) : Prop :=
  r = Done None \/ exists s', r = Done (Some s') /\ good m0 s s' /\ log s' = log s.

Lemma steps_to_some m0 s s' : good m0 s s' -> log s' = log s -> steps_to m0 s (Done (Some s')).
Proof using. right. eauto. Qed.

Lemma steps_to_intro m0 s r : (exists s', r = Done (Some s') /\ good m0 s s' /\ log s' = log s) -> steps_to m0 s r.
Proof using. by right. Qed.

Lemma point_block m0 s i p b : ok m0 s -> threads s !! i = Some p -> b ∈ mentions p -> exists x, heap (bc s) !! b = Some x.
Proof using. intros Hok Hi Hb. destruct (held_block m0 s b Hok) as (x & Hx & _); [by eapply mention_held | eauto]. Qed.

Lemma request_ok m0 s i d sec new :
  ok m0 s -> threads s !! i = Some (Request d sec true) -> steps_to m0 s (advance bdevs s i (Request d sec true) new).
Proof using Hlay.
  intros Hok Hi. pose proof (ok_points _ _ Hok i _ Hi) as [Hin _]. points.
  destruct (find_block_spec (bc s) d sec (ok_cache _ _ Hok)) as (r & -> & Hr). obind. destruct r as [b|].
  - destruct (find_step m0 s i _ d sec b Hok Hi Hr eq_refl eq_refl) as (c & -> & Hok'). obind. by apply steps_to_some.
  - destruct (_ <=? _).
    + apply steps_to_intro. by apply (shrink_ok m0 s i (Request d sec true)).
    + apply steps_to_some; [|done]. by apply (idle_step m0 s _ i (Request d sec true) (Allocate d sec true)).
Qed.

Lemma allocate_ok m0 s i d sec new :
  ok m0 s -> threads s !! i = Some (Allocate d sec true) -> steps_to m0 s (advance bdevs s i (Allocate d sec true) new).
Proof using Hlay.
  intros Hok Hi. pose proof (ok_points _ _ Hok i _ Hi) as [Hin _]. points.
  destruct (heap (bc s) !! new) eqn:En; [by left|].
  destruct (find_block_spec (bc s) d sec (ok_cache _ _ Hok)) as (r & -> & Hr). obind. destruct r as [b|].
  - destruct (find_step m0 s i _ d sec b Hok Hi Hr eq_refl eq_refl) as (c & -> & Hok'). obind. by apply steps_to_some.
  - destruct (cache_new_spec (bc s) new d sec (ok_cache _ _ Hok) En Hin Hr) as (c1 & -> & c2 & E2 & Hc2 & Eh). obind. rewrite E2. obind.
    apply steps_to_some; [|done].
    apply (new_step m0 s _ i (Allocate d sec true) (Check d sec new) new (inc_refs (block_new bdevs d sec))); try done.
    exists (inc_refs (block_new bdevs d sec)). cbn [at_ bc]. by rewrite Eh, lookup_insert_eq.
Qed.

Lemma sync_ok m0 s i which wait k new :
  ok m0 s -> threads s !! i = Some (Sync which wait k) -> steps_to m0 s (advance bdevs s i (Sync which wait k) new).
Proof using Hlay.
  intros Hok Hi. pose proof (ok_points _ _ Hok i _ Hi) as Hk. points. destruct (sync_lock s); [by left|].
  pose proof (ok_cache _ _ Hok) as Hc. set (l := match which with Some d => blocks_of (bc s) d | None => all_cached (bc s) end).
  assert (Hl : forall b, b ∈ l -> is_Some (heap (bc s) !! b)).
  { intros b. unfold l. destruct which as [d|].
    - intros Hb. apply (co_dev _ Hc) in Hb as (x & Hx & _). by exists x.
    - unfold all_cached. intros Hb. apply list_elem_of_bind in Hb as (h & Hb & _). apply (co_hash _ Hc) in Hb as (x & Hx & _). by exists x. }
  destruct (collect_spec l (bc s) Hc Hl) as (bs & c' & -> & Hc' & Href & _ & Hin). obind. apply steps_to_some; [|done].
  apply good_sync_lock. apply (collect_step m0 s _ i (Sync which wait k) (SyncSubmit which wait bs [] k) bs); try done.
  - intros b Hb. apply Hin in Hb as [Hb _]. by apply Hl.
  - cbn [mentions]. by rewrite app_nil_r.
Qed.

Lemma syncsubmit_ok m0 s i which wait b todo waits k new :
  ok m0 s -> threads s !! i = Some (SyncSubmit which wait (b :: todo) waits k) ->
  skips s (LRun i new) = false -> steps_to m0 s (advance bdevs s i (SyncSubmit which wait (b :: todo) waits k) new).
Proof using Hlay.
  intros Hok Hi Hskip. pose proof (ok_points _ _ Hok i _ Hi) as [Hk Hw]. points.
  destruct (point_block m0 s i _ b Hok Hi) as (x & Hx); [apply elem_of_app; left; apply list_elem_of_here|].
  unfold block_at at 1. rewrite Hx. obind. destruct (locked x) eqn:El; [by left|].
  unfold skips in Hskip. rewrite Hi in Hskip.
  assert (Es : bool_decide (which = None) && negb (valid x && dirty x) = false).
  { destruct which; [done|]. rewrite Hx, El in Hskip. exact Hskip. }
  rewrite Es. destruct (submit_spec b x (bc s) (queue s) Hx El) as (y & c' & q' & E & Hc' & Eh & Hsd & Hcase).
  destruct (with_block (set_locked true) b (bc s)) as [c1| |] eqn:E1; try done. obind. rewrite done_bind in E. rewrite E. obind.
  specialize (Hc' (ok_cache _ _ Hok)). destruct wait.
  - apply steps_to_some; [|done].
    assert (HM : forall c, cnt c (todo ++ waits ++ [b]) = cnt c ((b :: todo) ++ waits)).
    { intros c. rewrite !cnt_app, !cnt_cons, cnt_nil. lia. }
    apply (meta_step m0 s _ i _ (SyncSubmit which true todo (waits ++ [b]) k) b x y Hok Hi Hx Hsd); try done;
      cbn [at_ set_queue queue mentions lockers]; rewrite ?HM, ?cnt_nil.
    + destruct Hcase as [(-> & -> & _)|(-> & _ & -> & _)]; rewrite ?cnt_app, ?cnt_cons, ?decide_True, ?cnt_nil by done; lia.
    + destruct Hcase as [(-> & -> & _)|(_ & -> & -> & _)]; rewrite ?cnt_app, ?cnt_cons, ?decide_True, ?cnt_nil, ?El by done; lia.
    + intros c Hne. rewrite HM. destruct Hcase as [(_ & -> & _)|(_ & _ & -> & _)]; [done|].
      rewrite !cnt_app, (cnt_cons c b []), decide_False, !cnt_nil by done. lia.
    + intros c Hcq. destruct Hcase as [(_ & -> & _)|(_ & _ & -> & Hvd)]; [by left|]. apply elem_of_app in Hcq as [?| ->%list_elem_of_singleton]; auto.
    + intros c Hcq. destruct Hcase as [(_ & -> & _)|(_ & _ & -> & _)]; [done|]. apply elem_of_app. by left.
  - specialize (Hw eq_refl) as ->. unfold with_block, block_at. rewrite Eh, lookup_insert_eq. obind. apply steps_to_some; [|done].
    assert (Hsd2 : same_data x (dec_refs y)) by exact Hsd.
    apply (meta_step m0 s _ i _ (SyncSubmit which false todo [] k) b x (dec_refs y) Hok Hi Hx Hsd2); try done;
      cbn [at_ set_queue queue mentions lockers dec_refs set_refs refs locked bc set_heap heap]; rewrite ?app_nil_r, ?cnt_cons, ?cnt_nil.
    + rewrite <- Eh. apply (cache_ok_update c' b y); [done | by rewrite Eh, lookup_insert_eq | done].
    + by rewrite insert_insert_eq.
    + rewrite decide_True by done. destruct Hcase as [(-> & -> & _)|(-> & _ & -> & _)]; rewrite ?cnt_app, ?cnt_cons, ?decide_True, ?cnt_nil by done; lia.
    + destruct Hcase as [(-> & -> & _)|(_ & -> & -> & _)]; rewrite ?cnt_app, ?cnt_cons, ?decide_True, ?cnt_nil, ?El by done; lia.
    + intros c Hne. rewrite cnt_cons, decide_False by done. destruct Hcase as [(_ & -> & _)|(_ & _ & -> & _)]; [done|].
      rewrite !cnt_app, (cnt_cons c b []), decide_False, !cnt_nil by done. lia.
    + intros c Hcq. destruct Hcase as [(_ & -> & _)|(_ & _ & -> & Hvd)]; [by left|]. apply elem_of_app in Hcq as [?| ->%list_elem_of_singleton]; auto.
    + intros c Hcq. destruct Hcase as [(_ & -> & _)|(_ & _ & -> & _)]; [done|]. apply elem_of_app. by left.
Qed.

Lemma check_ok m0 s i d sec b new :
  ok m0 s -> threads s !! i = Some (Check d sec b) -> steps_to m0 s (advance bdevs s i (Check d sec b) new).
Proof using Hlay.
  intros Hok Hi. pose proof (ok_points _ _ Hok i _ Hi) as Hp.
  destruct (point_block m0 s i _ b Hok Hi (list_elem_of_here _ _)) as (x & Hx). points. unfold block_at. rewrite Hx. obind.
  apply steps_to_some; [|done]. set (p' := if valid x then _ else _).
  destruct Hp as (x' & Hx' & Ekd & Eks). assert (x' = x) as -> by congruence. subst d sec.
  apply (idle_step m0 s _ i (Check (bdev x) (sector x) b) p'); try done; unfold p'; destruct (valid x) eqn:Ev;
    [done | by destruct (locked x) | done | by destruct (locked x) | by exists x|].
  destruct (locked x) eqn:El; [|by exists x]. right. split; [by exists x|].
  pose proof (ok_counted _ _ Hok b) as HC. rewrite Hx, El in HC. destruct HC as [_ HC].
  unfold locks in HC. rewrite cnt_app in HC. destruct (decide (b ∈ queue s)) as [|Hq]; [done|]. rewrite (cnt_out b (queue s) Hq) in HC.
  assert (Hb : b ∈ threads s ≫= lockers) by (destruct (decide (b ∈ threads s ≫= lockers)) as [|Hn]; [done | rewrite (cnt_out _ _ Hn) in HC; lia]).
  apply list_elem_of_bind in Hb as (pj & Hbj & Hj). apply list_elem_of_lookup in Hj as [j Hj].
  destruct pj; simpl in Hbj; try (by apply elem_of_nil in Hbj). apply list_elem_of_singleton in Hbj as <-.
  destruct (ok_points _ _ Hok j _ Hj) as (z & Hz & _ & _ & Hvz). simplify_eq. congruence.
Qed.

Lemma submit_ok m0 s i d sec b new :
  ok m0 s -> threads s !! i = Some (Submit d sec b) -> steps_to m0 s (advance bdevs s i (Submit d sec b) new).
Proof using Hlay.
  intros Hok Hi. pose proof (ok_points _ _ Hok i _ Hi) as Hp.
  destruct (point_block m0 s i _ b Hok Hi (list_elem_of_here _ _)) as (x & Hx). points. unfold block_at at 1. rewrite Hx. obind.
  destruct (locked x) eqn:El; [by left|]. destruct (submit_spec b x (bc s) (queue s) Hx El) as (y & c' & q' & E & Hc' & Eh & Hsd & Hcase).
  destruct (with_block (set_locked true) b (bc s)) as [c1| |] eqn:E1; try done. obind. rewrite done_bind in E. rewrite E. obind.
  specialize (Hc' (ok_cache _ _ Hok)). apply steps_to_some; [|done].
  apply (meta_step m0 s _ i _ (WaitSync d sec b) b x y Hok Hi Hx Hsd); try done; cbn [at_ set_queue queue mentions lockers].
  - destruct Hcase as [(-> & -> & _)|(-> & _ & -> & _)]; rewrite ?cnt_app, ?cnt_cons, ?decide_True, ?cnt_nil by done; lia.
  - destruct Hcase as [(-> & -> & _)|(_ & -> & -> & _)]; rewrite ?cnt_app, ?cnt_cons, ?decide_True, ?cnt_nil, ?El by done; lia.
  - intros c Hne. destruct Hcase as [(_ & -> & _)|(_ & _ & -> & _)]; [done|].
    rewrite !cnt_app, (cnt_cons c b []), decide_False, !cnt_nil by done. lia.
  - intros c Hcq. destruct Hcase as [(_ & -> & _)|(_ & _ & -> & Hvd)]; [by left|]. apply elem_of_app in Hcq as [?| ->%list_elem_of_singleton]; auto.
  - intros c Hcq. destruct Hcase as [(_ & -> & _)|(_ & _ & -> & _)]; [done|]. apply elem_of_app. by left.
  - destruct Hcase as [(-> & _ & Hv & _)|(_ & _ & -> & _)]; [left | right].
    + destruct Hp as (x' & Hx' & ? & ?). assert (x' = x) as -> by congruence. subst d sec. exists x. by rewrite lookup_insert_eq.
    + destruct Hp as (x' & Hx' & ? & ?). assert (x' = x) as -> by congruence. subst d sec. split; [|apply elem_of_app; right; apply list_elem_of_here].
      exists y. rewrite lookup_insert_eq. destruct Hsd as (F1 & F2 & _). done.
Qed.

Lemma wait_ok m0 s i d sec b new :
  ok m0 s -> threads s !! i = Some (WaitSync d sec b) -> steps_to m0 s (advance bdevs s i (WaitSync d sec b) new).
Proof using Hlay.
  intros Hok Hi. pose proof (ok_points _ _ Hok i _ Hi) as Hp.
  destruct (point_block m0 s i _ b Hok Hi (list_elem_of_here _ _)) as (x & Hx). points. unfold block_at. rewrite Hx. obind.
  destruct (locked x) eqn:El; [by left|]. apply steps_to_some; [|done]. apply (idle_step m0 s _ i (WaitSync d sec b) (Holding d sec b)); try done.
  destruct Hp as [?|[_ Hq]]; [done|]. pose proof (ok_counted _ _ Hok b) as HC. rewrite Hx, El in HC. destruct HC as [_ HC].
  unfold locks in HC. rewrite cnt_app in HC. apply cnt_in in Hq. pose proof (cnt_nonneg b (threads s ≫= lockers)). lia.
Qed.

Lemma syncwait_ok m0 s i waits k new :
  ok m0 s -> threads s !! i = Some (SyncWait waits k) -> steps_to m0 s (advance bdevs s i (SyncWait waits k) new).
Proof using Hlay.
  intros Hok Hi. pose proof (ok_points _ _ Hok i _ Hi) as Hp.
  destruct waits as [|b waits]; points.
  - apply steps_to_intro.
    destruct (finish_ok m0 (set_sync_lock false s) i (SyncWait [] k) k) as (s' & ? & ? & ?); try done; [by apply ok_sync_lock | eauto].
  - destruct (point_block m0 s i _ b Hok Hi (list_elem_of_here _ _)) as (x & Hx). unfold block_at at 1. rewrite Hx. obind.
    destruct (locked x) eqn:El; [by left|]. unfold with_block, block_at. rewrite Hx. obind. apply steps_to_some; [|done].
    apply (meta_step m0 s _ i _ (SyncWait waits k) b x (dec_refs x) Hok Hi Hx); try done;
      cbn [at_ queue mentions lockers dec_refs set_refs refs locked bc]; rewrite ?cnt_cons, ?cnt_nil.
    + apply (cache_ok_update (bc s) b x); [apply Hok | done | done].
    + rewrite decide_True by done. lia.
    + lia.
    + intros c Hne. rewrite cnt_cons, decide_False by done. lia.
    + intros c Hc. by left.
Qed.

Lemma advance_ok m0 s i p new :
  ok m0 s -> threads s !! i = Some p -> skips s (LRun i new) = false -> steps_to m0 s (advance bdevs s i p new).
Proof using Hlay.
  intros Hok Hi Hskip. pose proof (ok_points _ _ Hok i p Hi) as Hp. destruct p as [| |d sec sync|d sec sync|d sec b|d sec b|d sec b|d sec b|d sec b|which wait k|which wait todo waits k|waits k].
  - by left.
  - apply steps_to_intro. by apply (shrink_ok m0 s i Oom).
  - destruct Hp as [Hin ->]. by apply request_ok.
  - destruct Hp as [Hin ->]. by apply allocate_ok.
  - by apply check_ok.
  - by apply submit_ok.
  - by apply wait_ok.
  - by left.
  - by left.
  - by apply sync_ok.
  - destruct todo as [|b todo]; [|by apply syncsubmit_ok]. destruct Hp as [Hk Hw]. points. destruct wait.
    + apply steps_to_some; [|done]. by apply (idle_step m0 s _ i (SyncSubmit which true [] waits k) (SyncWait waits k)).
    + specialize (Hw eq_refl) as ->. apply steps_to_intro.
      destruct (finish_ok m0 (set_sync_lock false s) i (SyncSubmit which false [] [] k) k) as (s' & ? & ? & ?); try done; [by apply ok_sync_lock | eauto].
  - by apply syncwait_ok.
Qed.

(** A task changes the flags or the references of its block, and goes on. *)
Lemma touch_step m0 s i p p' b x y :
  ok m0 s -> threads s !! i = Some p -> heap (bc s) !! b = Some x -> same_data x y -> mentions p = [b] -> 
  mentions p' = [b] \/ mentions p' = [] ->
  refs y = refs x - 1 + cnt b (mentions p') ->
  cnt b (lockers p') + (if locked x then 1 else 0) = cnt b (lockers p) + (if locked y then 1 else 0) ->
  (forall c, c <> b -> cnt c (lockers p') = cnt c (lockers p)) ->
  point_ok (<[b := y]> (heap (bc s))) (queue s) p' ->
  good m0 s (at_ s i (set_heap (<[b := y]> (heap (bc s))) (bc s)) p').
Proof using Hlay.
  intros Hok Hi Hx Hsd Hm Hm' Hr Hk Hk' Hp. apply (meta_step m0 s _ i p p' b x y Hok Hi Hx Hsd); try done; cbn [at_ queue bc].
  - apply (cache_ok_update (bc s) b x); [apply Hok | done | by apply same_data_block].
  - rewrite Hm, cnt_cons, cnt_nil, decide_True by done. lia.
  - lia.
  - intros c Hne. rewrite (Hk' c Hne), Hm. destruct Hm' as [->| ->]; rewrite ?cnt_cons, ?decide_False, ?cnt_nil by done; lia.
  - intros c Hc. by left.
Qed.

Lemma relock_step m0 s i p p' d sec b x l :
  ok m0 s -> threads s !! i = Some p -> heap (bc s) !! b = Some x -> (p = Holding d sec b /\ p' = Locked d sec b /\ l = true /\ locked x = false) \/ (p = Locked d sec b /\ p' = Holding d sec b /\ l = false /\ locked x = true) ->
  good m0 s (at_ s i (set_heap (<[b := set_locked l x]> (heap (bc s))) (bc s)) p').
Proof using Hlay.
  intros Hok Hi Hx Hp.
  assert (Hv : is_valid (<[b := set_locked l x]> (heap (bc s))) d sec b).
  { assert (is_valid (heap (bc s)) d sec b) as (z & Hz & <- & <- & Hv).
    { pose proof (ok_points _ _ Hok i _ Hi) as Hpt. destruct Hp as [(-> & _)|(-> & _)]; exact Hpt. }
    assert (z = x) as -> by congruence. exists (set_locked l x). by rewrite lookup_insert_eq. }
  destruct Hp as [(-> & -> & -> & El)|(-> & -> & -> & El)];
    eapply (touch_step m0 s i _ _ b x); try done; cbn [mentions lockers set_locked refs locked]; rewrite ?El; auto;
    try (intros c Hne); rewrite ?cnt_cons, ?cnt_nil, ?decide_True, ?decide_False by done; lia.
Qed.

(** No task writes. *)
Definition quiet (l : label) : bool := match l with LWrite _ _ => false | _ => true end.

(** Every legal step keeps the invariant, and only writes change what the
    sectors hold. *)
Lemma exec_ok m0 s l :
  ok m0 s -> legal l -> skips s l = false ->
  exec bdevs s l = Done None \/ exists s', exec bdevs s l = Done (Some s') /\ ok m0 s' /\ (quiet l = true -> tame s s').
Proof using Hlay.
  intros Hok Hl Hskip.
  assert (Hst : forall r, steps_to m0 s r -> r = Done None \/ exists s', r = Done (Some s') /\ ok m0 s' /\ (quiet l = true -> tame s s')).
  { intros r [->|(s' & -> & [? ?] & _)]; eauto 6. }
  assert (Hgo : forall s', good m0 s s' -> ok m0 s' /\ (quiet l = true -> tame s s')) by (intros s' [? ?]; auto).
  destruct l as [i d sec sync|i which wait|i|i new|i|i bs|i bs|i|i|b]; cbn [exec]; try done.
  - destruct (threads s !! i) as [[]|] eqn:Hi; try (by left). right. eexists. split; [done|]. apply Hgo.
    by apply (idle_step m0 s _ i Idle (Request d sec sync)).
  - destruct (threads s !! i) as [[]|] eqn:Hi; try (by left). right. eexists. split; [done|]. apply Hgo.
    by apply (idle_step m0 s _ i Idle (Sync which wait KReturn)).
  - destruct (threads s !! i) as [[]|] eqn:Hi; try (by left). right. eexists. split; [done|]. apply Hgo.
    by apply (idle_step m0 s _ i Idle Oom).
  - destruct (threads s !! i) as [p|] eqn:Hi; [|by left]. apply Hst. by apply advance_ok.
  - destruct (threads s !! i) as [[]|] eqn:Hi; try (by left).
    destruct (point_block m0 s i _ b Hok Hi (list_elem_of_here _ _)) as (x & Hx). unfold with_block, block_at. rewrite Hx. obind.
    destruct (locked x) eqn:El; [by left|]. right. eexists. split; [done|]. apply Hgo.
    apply (relock_step m0 s i _ _ d sec b x true Hok Hi Hx). by left.
  - destruct (threads s !! i) as [[]|] eqn:Hi; try (by left).
    destruct (point_block m0 s i _ b Hok Hi (list_elem_of_here _ _)) as (x & Hx). unfold with_block, block_at. rewrite Hx. obind.
    destruct (valid x && (Z.of_nat (length bs) =? blk_size x)) eqn:E; [|by left]. apply andb_prop in E as [Ev El%Z.eqb_eq].
    right. eexists. split; [done|]. split; [by apply (write_step m0 s i d sec b x bs) | done].
  - destruct (threads s !! i) as [[]|] eqn:Hi; try (by left).
    destruct (point_block m0 s i _ b Hok Hi (list_elem_of_here _ _)) as (x & Hx). unfold with_block, block_at. rewrite Hx. obind.
    right. eexists. split; [done|]. apply Hgo.
    assert (El : locked x = true).
    { pose proof (ok_counted _ _ Hok b) as HC. rewrite Hx in HC. unfold locks in HC. rewrite cnt_app in HC.
      assert (H1 : 1 <= cnt b (threads s ≫= lockers)).
      { apply cnt_in, list_elem_of_bind. exists (Locked d sec b). split; [apply list_elem_of_here | by apply list_elem_of_lookup_2 in Hi]. }
      pose proof (cnt_nonneg b (queue s)). destruct (locked x); lia. }
    apply (relock_step m0 s i _ _ d sec b x false Hok Hi Hx). by right.
  - destruct (threads s !! i) as [[]|] eqn:Hi; try (by left).
    destruct (point_block m0 s i _ b Hok Hi (list_elem_of_here _ _)) as (x & Hx). unfold with_block, block_at. rewrite Hx. obind.
    right. eexists. split; [done|]. apply Hgo.
    apply (touch_step m0 s i _ Idle b x (dec_refs x) Hok Hi Hx); try done; [by right|]. cbn [dec_refs set_refs refs mentions]. rewrite cnt_nil. lia.
  - destruct (decide (b ∈ queue s)) as [Hq|Hq].
    + destruct (complete_step m0 s b Hok Hq) as (s' & -> & Hg & _). right. exists s'. split; [done | by apply Hgo].
    + left. unfold complete. by rewrite bool_decide_eq_false_2.
Qed.
End Props.
