(* ===== verification/BcacheRuns.v ===== *)
(** What the users of the block cache see: every block they hold has the data
    last written to its sector, and a sync that has returned has brought all of
    it to the disks.  Two orders of steps of the source break this: a sync that
    finds a block clean drops a reference too many, and a block filled by hand
    and marked synced is lost when the cache is shrunk. *)
From stdpp Require Import base numbers list gmap.
From Stdlib Require Import ZArith ZifyBool Lia.
From S2P Require Import Prelude Bcache BcacheProps.
Open Scope Z_scope.

Section Runs.
Context (bdevs : Z -> block_device).

(** The states the tasks can bring the cache to, by legal steps [P] allows. *)
Inductive reaches (P : label -> Prop) (s : sys) : sys -> Prop :=
| reaches_refl : reaches P s s
| reaches_step s1 l s2 : reaches P s s1 -> P l -> legal bdevs l -> skips s1 l = false ->
    exec bdevs s1 l = Done (Some s2) -> reaches P s s2.

Definition reachable (n : nat) (m : media) (s : sys) : Prop := reaches (fun _ => True) (start n m) s.

Context (Hlay : layout_ok bdevs).

Lemma start_ok n m : ok bdevs m (start n m).
Proof using.
  assert (Hl : forall f : point -> list Z, f Idle = [] -> replicate n Idle ≫= f = []).
  { intros f Hf. induction n as [|n' IH]; [done|]. cbn [replicate]. by rewrite bind_cons, Hf, IH. }
  split; cbn [start bc disks queue threads log heap empty_cache].
  - split; try done; cbn [heap empty_cache lru cache bdev_blocks].
    + intros h b. unfold bucket. cbn [cache empty_cache]. rewrite lookup_empty. simpl. rewrite elem_of_nil.
      split; [done | intros (x & Hx & _); by rewrite lookup_empty in Hx].
    + intros h. unfold bucket. cbn [cache empty_cache]. rewrite lookup_empty. constructor.
    + constructor.
    + intros b. rewrite elem_of_nil, lookup_empty. split; [done | by intros []].
    + intros d b. unfold blocks_of. cbn [bdev_blocks empty_cache]. rewrite lookup_empty. simpl. rewrite elem_of_nil.
      split; [done | intros (x & Hx & _); by rewrite lookup_empty in Hx].
    + intros d. unfold blocks_of. cbn [bdev_blocks empty_cache]. rewrite lookup_empty. constructor.
  - intros b. rewrite lookup_empty. unfold held, locks. cbn [threads queue start]. by rewrite !Hl.
  - by split.
  - intros b x Hb. by apply elem_of_nil in Hb.
  - intros i p Hp. by apply lookup_replicate_1 in Hp as [-> _].
Qed.

Lemma reaches_ok P m s s' : ok bdevs m s -> reaches P s s' -> ok bdevs m s'.
Proof using Hlay.
  intros Hok H. induction H as [|s1 l s2 _ IH _ Hl Hs E]; [done|].
  destruct (exec_ok bdevs Hlay m s1 l IH Hl Hs) as [E'|(s3 & E' & Hok' & _)]; congruence.
Qed.

(** * Only the task that runs goes on *)

Definition thread_of (l : label) : option nat :=
  match l with
  | LGet i _ _ _ | LSync i _ _ | LOom i | LRun i _ | LLock i | LWrite i _ | LFill i _ | LUnlock i | LPut i => Some i
  | LDone _ => None
  end.

Lemma at_threads s i c p j : Some i <> Some j -> threads (at_ s i c p) !! j = threads s !! j.
Proof using. intros Hne. cbn [at_ threads]. apply list_lookup_insert_ne. congruence. Qed.

Lemma finish_threads s i k s' j : Some i <> Some j -> finish bdevs s i k = Done (Some s') -> threads s' !! j = threads s !! j.
Proof using.
  intros Hne. unfold finish. destruct k as [|want freed]; [intros [= <-]; by apply at_threads|].
  destruct (shrink_pass _ _ _ _) as [[f c]| |]; try done. obind. intros [= <-]. by apply at_threads.
Qed.

(** Splits a run of a function into its outcomes. *)
Ltac cases H :=
  repeat (first
    [ discriminate H
    | progress (rewrite done_bind in H; cbv beta iota zeta in H)
    | match type of H with
      | context [match ?e with _ => _ end] => lazymatch e with context [match _ with _ => _ end] => fail | _ => destruct e end
      | context [?m ≫= _] => lazymatch m with context [match _ with _ => _ end] => fail | context [_ ≫= _] => fail | _ => destruct m as [?| |] end
      end ]).

Lemma advance_threads s i p new s' j :
  Some i <> Some j -> advance bdevs s i p new = Done (Some s') -> threads s' !! j = threads s !! j.
Proof using.
  intros Hne H. unfold advance, get_nosync, get_nosync_new, get_check, get_submit, block_wait_for_sync, sync_collect, sync_submit, sync_wait, shrink in H.
  destruct p as [| |d sec sync|d sec sync|d sec b|d sec b|d sec b|d sec b|d sec b|which wait k|which wait [|b todo] waits k|[|b waits] k];
    try discriminate H; try (by apply (finish_threads (set_sync_lock false s) i k s' j) in H);
    cases H; try (apply (finish_threads (set_sync_lock false s) i k s' j) in H; done); injection H as <-;
    cbn [set_queue set_sync_lock]; by apply at_threads.
Qed.

Lemma exec_threads s l s' j : thread_of l <> Some j -> exec bdevs s l = Done (Some s') -> threads s' !! j = threads s !! j.
Proof using.
  intros Hne H. destruct l as [i d sec sync|i which wait|i|i new|i|i bs|i bs|i|i|b]; cbn [thread_of] in Hne; cbn [exec] in H.
  4: { destruct (threads s !! i) as [p|]; [by apply (advance_threads s i p new) | done]. }
  9: { unfold complete in H. cases H; by injection H as <-. }
  all: cases H; injection H as <-; done || by apply at_threads.
Qed.

(** * Syncing *)

Definition clean (s : sys) : Prop := forall b x, heap (bc s) !! b = Some x -> dirty x = false.

(** What is left to do for a task in [block_sync_all]. *)
Definition flushing (s : sys) (i : nat) : Prop :=
  match threads s !! i with
  | Some (Sync None true KReturn) => True
  | Some (SyncSubmit None true todo waits KReturn) =>
      forall b x, heap (bc s) !! b = Some x -> dirty x = true -> b ∈ todo \/ b ∈ waits /\ b ∈ queue s
  | Some (SyncWait waits KReturn) => forall b x, heap (bc s) !! b = Some x -> dirty x = true -> b ∈ waits /\ b ∈ queue s
  | _ => clean s
  end.

Lemma clean_flushing s i : clean s -> flushing s i.
Proof using.
  intros Hc. unfold flushing. assert (Hd : forall b x, heap (bc s) !! b = Some x -> dirty x = true -> False).
  { intros b x Hx Hd. rewrite (Hc b x Hx) in Hd. done. }
  repeat case_match; try done; intros b x Hx Hd'; by destruct (Hd b x Hx).
Qed.

Lemma tame_clean s s' : tame s s' -> clean s -> clean s'.
Proof using.
  intros Ht Hc b y Hy. destruct (dirty y) eqn:E; [|done]. destruct (Ht b y Hy E) as [(x & Hx & Hd) _]. by rewrite (Hc b x Hx) in Hd.
Qed.

Lemma queued_locked m s b x : ok bdevs m s -> heap (bc s) !! b = Some x -> b ∈ queue s -> locked x = true.
Proof using.
  intros Hok Hb Hq. pose proof (ok_counted _ _ _ Hok b) as HC. rewrite Hb in HC. unfold locks in HC. rewrite cnt_app in HC.
  apply cnt_in in Hq. pose proof (cnt_nonneg b (threads s ≫= lockers)). destruct (locked x); [done | lia].
Qed.

Lemma collected_flushing m s i new s' :
  ok bdevs m s -> threads s !! i = Some (Sync None true KReturn) -> tame s s' ->
  exec bdevs s (LRun i new) = Done (Some s') -> flushing s' i.
Proof using Hlay.
  intros Hok Hi Ht E. cbn [exec] in E. rewrite Hi in E. points in E. destruct (sync_lock s); [done|].
  pose proof (ok_cache _ _ _ Hok) as Hc.
  assert (Hl : forall b, b ∈ all_cached (bc s) <-> is_Some (heap (bc s) !! b)).
  { intros b. unfold all_cached. rewrite list_elem_of_bind. split.
    - intros (h & Hb & _). apply (co_hash _ _ Hc) in Hb as (x & Hx & _). by exists x.
    - intros [x Hx]. exists (hash_of bdevs x). split; [apply (co_hash _ _ Hc); by exists x|]. apply elem_of_seqZ.
      unfold hash_of, block_hash. pose proof (Z.mod_pos_bound (Z.lxor (u32 (DEV_MAJOR (dev (bdevs (bdev x))) + DEV_MINOR (dev (bdevs (bdev x))))) (sector x)) BLOCK_HASH_TABLE_SIZE ltac:(done)). lia. }
  destruct (collect_spec bdevs Hlay (all_cached (bc s)) (bc s) Hc (fun b => proj1 (Hl b))) as (bs & c' & Ec & _ & _ & _ & Hin).
  rewrite Ec in E. rewrite done_bind in E. injection E as <-. unfold flushing. cbn [set_sync_lock at_ threads].
  rewrite list_lookup_insert_eq by (by apply lookup_lt_is_Some_1; eexists). cbn [bc queue set_sync_lock at_].
  intros b y Hy Hd. left. destruct (Ht b y Hy Hd) as [(x & Hx & Hdx) _]. apply Hin. split; [apply Hl; by exists x|].
  exists x. split_and!; [done | by apply (ct_dirty _ _ _ _ (ok_content _ _ _ Hok) b) | done].
Qed.

Lemma submitted_flushing m s i b todo waits new s' :
  ok bdevs m s -> threads s !! i = Some (SyncSubmit None true (b :: todo) waits KReturn) -> flushing s i -> tame s s' ->
  skips s (LRun i new) = false -> exec bdevs s (LRun i new) = Done (Some s') -> flushing s' i.
Proof using Hlay.
  intros Hok Hi Hf Ht Hskip E. unfold flushing in Hf. rewrite Hi in Hf. unfold skips in Hskip. cbn [exec] in E. rewrite Hi in E, Hskip.
  destruct (point_block bdevs m s i _ b Hok Hi) as (x & Hx); [apply elem_of_app; left; apply list_elem_of_here|].
  points in E. unfold block_at at 1 in E. rewrite Hx in E, Hskip. rewrite done_bind in E. destruct (locked x) eqn:El; [done|].
  rewrite bool_decide_eq_true_2 in E by done. cbn [negb andb] in Hskip, E. rewrite Hskip in E.
  destruct (submit_spec bdevs b x (bc s) (queue s) Hx El) as (y & c' & q' & E' & _ & Eh & _ & Hcase).
  destruct (with_block (set_locked true) b (bc s)) as [c1| |]; try done. rewrite done_bind in E. rewrite done_bind in E'. rewrite E', done_bind in E.
  injection E as <-. unfold flushing. cbn [set_queue at_ threads].
  rewrite list_lookup_insert_eq by (by apply lookup_lt_is_Some_1; eexists). cbn [bc queue set_queue at_].
  intros c z Hz Hd. destruct (Ht c z Hz Hd) as [(w & Hw & Hdw) Hq]. cbn [queue set_queue] in Hq.
  assert (Eq : q' = queue s ++ [b]).
  { apply negb_false_iff, andb_prop in Hskip as [Hv Hdx]. destruct Hcase as [(_ & _ & _ & ?)|(_ & _ & -> & _)]; [congruence | done]. }
  destruct (Hf c w Hw Hdw) as [Hin|[Hin Hcq]]; [|right; split; [apply elem_of_app; by left | auto]].
  apply elem_of_cons in Hin as [->|?]; [|by left]. right. rewrite Eq.
  split; apply elem_of_app; right; apply list_elem_of_here.
Qed.

Lemma waited_flushing m s i waits new s' :
  ok bdevs m s -> threads s !! i = Some (SyncWait waits KReturn) -> flushing s i -> tame s s' ->
  exec bdevs s (LRun i new) = Done (Some s') -> flushing s' i.
Proof using.
  intros Hok Hi Hf Ht E. unfold flushing in Hf. rewrite Hi in Hf. cbn [exec] in E. rewrite Hi in E.
  destruct waits as [|b waits]; points in E.
  - apply clean_flushing, (tame_clean s); [done|]. intros b x Hx. destruct (dirty x) eqn:Ed; [|done].
    destruct (Hf b x Hx Ed) as [Hin _]. by apply elem_of_nil in Hin.
  - destruct (point_block bdevs m s i _ b Hok Hi (list_elem_of_here _ _)) as (x & Hx).
    unfold block_at at 1 in E. rewrite Hx, done_bind in E. destruct (locked x) eqn:El; [done|].
    unfold with_block, block_at in E. rewrite Hx, !done_bind in E. injection E as <-.
    unfold flushing. cbn [at_ threads]. rewrite list_lookup_insert_eq by (by apply lookup_lt_is_Some_1; eexists).
    intros c z Hz Hd. destruct (Ht c z Hz Hd) as [(w & Hw & Hdw) Hq]. destruct (Hf c w Hw Hdw) as [Hin Hcq].
    split; [|auto]. apply elem_of_cons in Hin as [->|?]; [|done].
    exfalso. assert (w = x) as -> by congruence. by rewrite (queued_locked m s b x Hok Hx Hcq) in El.
Qed.

(** The cases of [flushing] in which nothing is dirty. *)
Definition syncing (p : option point) : bool :=
  match p with
  | Some (Sync None true KReturn) | Some (SyncSubmit None true _ _ KReturn) | Some (SyncWait _ KReturn) => true
  | _ => false
  end.

Lemma flushing_clean s i : syncing (threads s !! i) = false -> flushing s i -> clean s.
Proof using. unfold syncing, flushing. intros H. repeat case_match; done. Qed.

Lemma flushing_step m s i l s' :
  ok bdevs m s -> flushing s i -> legal bdevs l -> quiet l = true -> skips s l = false ->
  exec bdevs s l = Done (Some s') -> flushing s' i.
Proof using Hlay.
  intros Hok Hf Hl Hq Hs E. destruct (exec_ok bdevs Hlay m s l Hok Hl Hs) as [E'|(s1 & E' & _ & Ht)]; [congruence|].
  assert (s1 = s') as -> by congruence. specialize (Ht Hq).
  destruct (syncing (threads s !! i)) eqn:Esy; [|by apply clean_flushing, (tame_clean s), (flushing_clean s i)].
  destruct (decide (thread_of l = Some i)) as [El|El].
  - destruct (threads s !! i) as [p|] eqn:Hi; [|done].
    assert (Hrun : exists new, l = LRun i new).
    { destruct l; simpl in El; try discriminate El; injection El as ->; cbn [exec] in E; rewrite Hi in E; eauto;
        destruct p; done. }
    destruct Hrun as [new ->].
    destruct p as [| | | | | | | | |[] [] []|[] [] [|b todo] waits []|waits []]; try done.
    + by apply (collected_flushing m s i new).
    + cbn [exec] in E. rewrite Hi in E. points in E. injection E as <-. unfold flushing in *. rewrite Hi in Hf.
      cbn [at_ threads]. rewrite list_lookup_insert_eq by (by apply lookup_lt_is_Some_1; eexists).
      intros b x Hx Hd. destruct (Hf b x Hx Hd) as [Hin|?]; [by apply elem_of_nil in Hin | done].
    + by apply (submitted_flushing m s i b todo waits new).
    + by apply (waited_flushing m s i waits new).
  - unfold flushing in *. rewrite (exec_threads s l s' i El E). repeat case_match; try done.
    + intros b y Hy Hd. destruct (Ht b y Hy Hd) as [(x & Hx & Hdx) Hbq]. destruct (Hf b x Hx Hdx) as [?|[? ?]]; auto.
    + intros b y Hy Hd. destruct (Ht b y Hy Hd) as [(x & Hx & Hdx) Hbq]. destruct (Hf b x Hx Hdx) as [? ?]; auto.
Qed.

Lemma reaches_flushing m s i s' :
  ok bdevs m s -> flushing s i -> reaches (fun l => quiet l = true) s s' -> flushing s' i.
Proof using Hlay.
  intros Hok Hf H. induction H as [|s1 l s2 Hr IH Hq Hl Hs E]; [done|].
  by apply (flushing_step m s1 i l s2); [by eapply reaches_ok|..].
Qed.

Lemma clean_stored m s d sec : ok bdevs m s -> clean s -> in_dev bdevs d sec -> stored bdevs (disks s) d sec = latest bdevs m (log s) d sec.
Proof using. intros Hok Hc Hin. apply (ct_disk _ _ _ _ (ok_content _ _ _ Hok)); [done|]. intros b x Hx _ _. by apply (Hc b). Qed.

Lemma locked_once m s i j d sec d' sec' b :
  ok bdevs m s -> threads s !! i = Some (Locked d sec b) -> threads s !! j = Some (Locked d' sec' b) -> i = j.
Proof using.
  intros Hok Hi Hj. destruct (decide (i = j)) as [|Hne]; [done|]. exfalso.
  pose proof (ok_counted _ _ _ Hok b) as HC. destruct (point_block bdevs m s i _ b Hok Hi) as (x & Hx); [apply list_elem_of_here|].
  rewrite Hx in HC. destruct HC as [_ HK]. unfold locks in HK. rewrite cnt_app in HK. pose proof (cnt_nonneg b (queue s)).
  pose proof (cnt_threads lockers (threads s) i _ Idle b Hi) as E1.
  assert (Hj' : <[i := Idle]> (threads s) !! j = Some (Locked d' sec' b)) by (by rewrite list_lookup_insert_ne).
  pose proof (cnt_threads lockers _ j _ Idle b Hj') as E2. cbn [lockers] in E1, E2.
  rewrite cnt_cons, cnt_nil, decide_True in E1, E2 by done.
  pose proof (cnt_nonneg b (<[j := Idle]> (<[i := Idle]> (threads s)) ≫= lockers)). destruct (locked x); lia.
Qed.

(** What a task that has a block from [block_get] relies on. *)
Lemma holding_block m s i d sec b :
  ok bdevs m s -> threads s !! i = Some (Holding d sec b) \/ threads s !! i = Some (Locked d sec b) ->
  exists x, heap (bc s) !! b = Some x /\ bdev x = d /\ sector x = sec /\ 0 < refs x /\ data x = latest bdevs m (log s) d sec.
Proof using.
  intros Hok Hi.
  assert (Hp : exists p, threads s !! i = Some p /\ point_ok bdevs (heap (bc s)) (queue s) p /\ mentions p = [b] /\
    is_valid (heap (bc s)) d sec b).
  { destruct Hi as [Hi|Hi]; eexists; (split_and!; [exact Hi | by apply (ok_points _ _ _ Hok i) | done | by apply (ok_points _ _ _ Hok i) in Hi]). }
  destruct Hp as (p & Hp & _ & Hm & (x & Hx & <- & <- & Hv)). exists x. split_and!; try done.
  - destruct (held_block bdevs m s b Hok) as (y & Hy & Hr); [by eapply mention_held; [|rewrite Hm; apply list_elem_of_here]|].
    pose proof (ok_counted _ _ _ Hok b) as HC. rewrite Hx in HC. pose proof (cnt_nonneg b (held s)). assert (y = x) as -> by congruence. lia.
  - by apply (ct_valid _ _ _ _ (ok_content _ _ _ Hok) b).
Qed.
End Runs.

(** * The properties *)

(** C9: Tasks that get blocks with [block_get], of sectors that their device has, and
    change them with [block_mark_dirty] see a coherent cache.  However their calls
    interleave with each other, with shrinking, syncing and the drivers, no step
    touches a freed block; a task that has a block finds in it what was last written
    to the sector, through whatever task; tasks that have the same sector share the
    block; two never have it locked; and [cache_size] is the memory the cached
    blocks use.  Two things the code can do are left out ([legal], [skips]), since
    each breaks this: filling a block got with [block_get_nosync] and marking it
    synced, as ext2 does with new blocks, whose data the cache may drop ([fill_lost]);
    and a [block_sync_all] that reaches a block which another task has cleaned
    since it was collected, which drops its reference twice
    ([sync_drops_reference]).  Partitions do not overlap. *)
Theorem bcache_coherent bdevs n m s :
  layout_ok bdevs -> reachable bdevs n m s ->
  (forall l, legal bdevs l -> skips s l = false -> exists r, exec bdevs s l = Done r) /\
  (forall i d sec b, threads s !! i = Some (Holding d sec b) \/ threads s !! i = Some (Locked d sec b) ->
    exists x, heap (bc s) !! b = Some x /\ bdev x = d /\ sector x = sec /\ 0 < refs x /\ data x = latest bdevs m (log s) d sec) /\
  (forall b x b' x', heap (bc s) !! b = Some x -> heap (bc s) !! b' = Some x' -> bdev x = bdev x' -> sector x = sector x' -> b = b') /\
  (forall i j d sec d' sec' b, threads s !! i = Some (Locked d sec b) -> threads s !! j = Some (Locked d' sec' b) -> i = j) /\
  cache_size (bc s) = sizes (heap (bc s)) (lru (bc s)).
Proof.
  intros Hlay Hr. assert (Hok : ok bdevs m s) by (eapply reaches_ok; [done | apply start_ok | done]). split_and!.
  - intros l Hl Hs. destruct (exec_ok bdevs Hlay m s l Hok Hl Hs) as [?|(? & ? & _)]; eauto.
  - intros i d sec b. by apply holding_block.
  - apply (co_key _ _ (ok_cache _ _ _ Hok)).
  - intros i j d sec d' sec' b. by apply (locked_once bdevs m).
  - apply (co_size _ _ (ok_cache _ _ _ Hok)).
Qed.

(** C10: For such tasks, [block_sync_all] with [wait] is a barrier: when a task that
    starts it goes back to its caller, and nothing was written in between, every
    sector of every device is on its disk as it was last written.  Writes are those
    marked with [block_mark_dirty]: a block that is filled and marked synced, as
    ext2 does with new blocks, is never written to the disk, and runs with such a
    fill, or in which a sync reaches a block that was cleaned since it was collected,
    are left out. *)
Theorem bcache_sync_durable bdevs n m s s' i d sec :
  layout_ok bdevs -> reachable bdevs n m s -> threads s !! i = Some (Sync None true KReturn) ->
  reaches bdevs (fun l => quiet l = true) s s' -> threads s' !! i = Some Idle -> in_dev bdevs d sec ->
  stored bdevs (disks s') d sec = latest bdevs m (log s') d sec.
Proof.
  intros Hlay Hr Hi Hq Hi' Hin. assert (Hok : ok bdevs m s) by (eapply reaches_ok; [done | apply start_ok | done]).
  assert (Hf : flushing s i) by (unfold flushing; by rewrite Hi).
  apply clean_stored; [by eapply reaches_ok | | done].
  apply (flushing_clean s' i); [by rewrite Hi'|]. by apply (reaches_flushing bdevs Hlay m s i s').
Qed.

(** * Runs *)

Fixpoint skipless (bdevs : Z -> block_device) (s : sys) (ls : list label) : bool :=
  match ls with
  | [] => true
  | l :: ls' => negb (skips s l) && match exec bdevs s l with Done (Some s') => skipless bdevs s' ls' | _ => true end
  end.

Lemma run_reaches bdevs (P : label -> Prop) s0 ls : forall s s',
  reaches bdevs P s0 s -> Forall (fun l => P l /\ legal bdevs l) ls -> skipless bdevs s ls = true ->
  exec_all bdevs s ls = Done (Some s') -> reaches bdevs P s0 s'.
Proof.
  induction ls as [|l ls IH]; intros s s' Hr Hl Hs E; cbn [exec_all skipless] in *; [by injection E as <-|].
  apply Forall_cons in Hl as [[HP Hl] Hls]. destruct (exec bdevs s l) as [[s1|]| |] eqn:E1; try done.
  apply andb_prop in Hs as [Hn Hs]. rewrite done_bind in E.
  apply (IH s1); [|done..]. eapply reaches_step; [done.. | by apply negb_true_iff | done].
Qed.

(** Disks of eight sectors, each with a block device; blocks of two bytes. *)
Definition demo_bdevs (d : Z) : block_device :=
  {| dev := d; bd_block_size := 2; disk := d; min_block_size_shift := 1; first_sector := 0; sector_count := 8 |}.

Lemma demo_layout : layout_ok demo_bdevs.
Proof.
  split; cbn [demo_bdevs dev bd_block_size disk min_block_size_shift first_sector sector_count]; try done.
  intros _. split; [lia|]. by exists 1.
Qed.

Definition no_data : media := fun _ _ => 0.

(** Task [i] gets sector [sec] of device [d], which is not cached. *)
Definition get_new (i : nat) (d sec new : Z) : list label :=
  [LGet i d sec true; LRun i new; LRun i new; LRun i new; LRun i new; LDone new; LRun i new].
Definition change (i : nat) (bs : list Z) : list label := [LLock i; LWrite i bs; LUnlock i].

Definition after (ls : list label) : sys :=
  match exec_all demo_bdevs (start 3 no_data) ls with Done (Some s) => s | _ => start 0 no_data end.

Definition written : list label := get_new 0 5 1 100 ++ change 0 [7; 9] ++ [LGet 1 5 1 true; LRun 1 0; LRun 1 0].

Lemma bcache_coherent_witness :
  exists x, heap (bc (after written)) !! 100 = Some x /\ bdev x = 5 /\ sector x = 1 /\ 0 < refs x /\ data x = [7; 9].
Proof.
  assert (Hr : reachable demo_bdevs 3 no_data (after written)).
  { apply (run_reaches demo_bdevs _ _ written (start 3 no_data)); [constructor | repeat constructor; done | by vm_compute..]. }
  destruct (bcache_coherent demo_bdevs 3 no_data (after written) demo_layout Hr) as (_ & H & _).
  apply (H 1%nat 5 1 100). left. by vm_compute.
Defined.

Definition syncing_run : list label := written ++ [LPut 1; LSync 2 None true].
Definition synced : list label := [LRun 2 0; LRun 2 0; LRun 2 0; LDone 100; LRun 2 0; LRun 2 0].

Lemma bcache_sync_durable_witness : stored demo_bdevs (disks (after (syncing_run ++ synced))) 5 1 = [7; 9].
Proof.
  apply (bcache_sync_durable demo_bdevs 3 no_data (after syncing_run) (after (syncing_run ++ synced)) 2%nat 5 1 demo_layout).
  - apply (run_reaches demo_bdevs _ _ syncing_run (start 3 no_data)); [constructor | repeat constructor; done | by vm_compute..].
  - by vm_compute.
  - apply (run_reaches demo_bdevs _ _ synced (after syncing_run)); [constructor | repeat constructor; done | by vm_compute..].
  - by vm_compute.
  - done.
Defined.

(** * Two defects *)

(** Task 0 finds the block not valid and is about to lock it; task 1 reads it,
    and changes it; the sync of task 2 collects it; task 0 goes on and its
    submit writes the block. *)
Definition racing : list label :=
  [LGet 0 5 1 true; LRun 0 100; LRun 0 100; LRun 0 0;
   LGet 1 5 1 true; LRun 1 0; LRun 1 0; LRun 1 0; LDone 100; LRun 1 0] ++ change 1 [7; 9] ++
  [LSync 2 None true; LRun 2 0; LRun 0 0; LDone 100; LRun 0 0].

(** Then the sync finds the block clean and drops its reference; it drops it once
    more when it waits for the blocks. *)
Definition dropping : list label := [LRun 2 0; LRun 2 0; LRun 2 0; LRun 2 0; LPut 0; LOom 0; LRun 0 0].

(** [block_sync_all] drops a reference twice: the block it found clean stays on
    its list.  Task 1 has the block from [block_get] and has not released it; the
    cache is shrunk and frees the block, and task 1 accesses freed memory. *)
Theorem sync_drops_reference :
  Forall (legal demo_bdevs) (racing ++ dropping) /\
  exec_all demo_bdevs (start 3 no_data) (racing ++ dropping) = Done (Some (after (racing ++ dropping))) /\
  threads (after (racing ++ dropping)) !! 1%nat = Some (Holding 5 1 100) /\
  exec demo_bdevs (after (racing ++ dropping)) (LLock 1) = Fault.
Proof. split_and!; [repeat constructor; done | by vm_compute..]. Qed.

(** A block got with [block_get_nosync], filled and marked synced. *)
Definition filling : list label := [LGet 0 5 1 false; LRun 0 100; LRun 0 100; LLock 0; LFill 0 [7; 9]; LUnlock 0; LPut 0].

(** [block_mark_synced] on a block the disk does not have: when the cache is
    shrunk the block is freed without a write, and the next [block_get] reads
    the old data.  [ext2_alloc_block_zero] fills new blocks this way. *)
Theorem fill_lost : exists s x,
  exec_all demo_bdevs (start 2 no_data) (filling ++ [LOom 0; LRun 0 0] ++ get_new 1 5 1 200) = Done (Some s) /\
  threads s !! 1%nat = Some (Holding 5 1 200) /\ heap (bc s) !! 200 = Some x /\
  latest demo_bdevs no_data (log s) 5 1 = [7; 9] /\ data x = [0; 0].
Proof.
  destruct (exec_all demo_bdevs (start 2 no_data) (filling ++ [LOom 0; LRun 0 0] ++ get_new 1 5 1 200)) as [[s|]| |] eqn:E;
    [|by vm_compute in E..].
  vm_compute in E. injection E as <-. eexists _, _. split_and!; [done | by vm_compute..].
Qed.
